(* ===== verification/_CoqProject ===== *)
-Q . S2P
Prelude.v
CFloat.v
Float32.v
MediaTypes.v
GstApi.v
VideoFrame.v
Effects.v
FrameConvert.v
FrameLayout.v
PipelineState.v
AudioPipeline.v
Bus.v
Tracks.v
AppSink.v
Build.v
Factory.v
LockOrder.v
StateMachine.v
Playback.v
ErrorState.v
Controls.v
Stalls.v
Frames.v
Discovery.v
Lifecycle.v
Sse2.v
ColorFrame.v
ColorSimd.v
ColorTables.v
ColorRows.v
ColorPixel.v
ColorSteps.v
ColorImage.v
ColorGeneric.v
Color422.v
ColorAgree.v
ColorFlow.v
PluginApi.v
FileCache.v
ProgressBuffer.v
ProgressStream.v
HLSBuffer.v
HLSRing.v
JavaSource.v
JavaStream.v
JavaProgress.v
DecoraApi.v
Argb.v
Painted.v
BoxBlur.v
BoxShadow.v
Convolve.v
Sampling.v
JniApi.v
JniUtils.v
JniRun.v
EventDispatch.v
EventSession.v
StreamCallbacks.v
StreamSession.v
AudioEqualizer.v
EqualizerMirror.v
EqualizerOps.v
AudioSpectrum.v
SpectrumRace.v
MediaManager.v
PiscesPixel.v
PiscesRdr.v
PiscesBlit.v
PiscesPaint.v
PiscesRenderer.v
PiscesFill.v
PiscesRect.v
PiscesMask.v
PiscesSurface.v
PiscesSet.v
PiscesImage.v
PlayerEntry.v
MediaObjects.v
