(* ===== verification/Prelude.v ===== *)
(** * The native media engine, software renderer and effects of JavaFX, modelled and verified

    The development follows the C and C++ code of [javafx.media]'s native
    half: the engine [src/main/native/jfxmedia] (below: JM), which drives a
    GStreamer pipeline on behalf of the Java player, and the project's own
    GStreamer elements [src/main/native/gstreamer/plugins] (below: PL), which
    carry the data from Java to the parsers; and two libraries of
    [javafx.graphics] that draw on the CPU: the filters of its software effects
    [src/main/native-decora] (below: DE) and the Pisces software renderer
    [src/main/native-prism-sw] (below: PR).

    ** The program

    A Java player opens a locator.  The factory
    ([JM/platform/gstreamer/GstPipelineFactory.cpp]) builds a pipeline of
    GStreamer elements for its content type: a Java source
    ([PL/javasource]), a progress buffer for files and HTTP or an HLS buffer
    for live streams ([PL/progressbuffer]), a parser, decoders and sinks.  The
    pipeline object ([GstAudioPlaybackPipeline.cpp], derived by
    [GstAVPlaybackPipeline.cpp]) starts and stops it, follows the messages on
    its bus, keeps the player state, announces tracks, errors and positions to
    Java, and hands decoded frames ([GstVideoFrame.cpp], [VideoFrame.cpp]) over
    after converting them to RGB ([Utils/ColorConverter.c]).  Java reaches all
    this by the address of a [CMedia] ([MediaManagement/Media.cpp]): one native
    method makes it from a locator ([GstMedia.cpp], [Locator/Locator.cpp],
    [MediaManagement/MediaManager.cpp]), the others take its pipeline and call
    one operation of it ([GstMediaPlayer.cpp]).

    Everything between the engine and Java goes through JNI: events to the
    player ([jni/JavaPlayerEventDispatcher.cpp]), requests of the Java source
    to the connection ([jni/JavaInputStreamCallbacks.cpp]), and the arrays of
    the audio spectrum ([jni/JavaBandsHolder.cpp]).  The equalizer and the
    spectrum ([GstAudioEqualizer.cpp], [GstAudioSpectrum.cpp]) are objects Java
    sets up while the pipeline runs; the media manager
    ([GstMediaManager.cpp]) starts the thread the bus is served on.

    The effects renderer of the scene graph blurs and shadows images on the
    CPU when there is no graphics pipeline: Java hands pixel arrays to the
    peers of [DE], each of which paints one destination image from one source
    image (box blur, box shadow, linear convolution with and without a shadow
    colour, bilinear sampling).

    Without a graphics pipeline the scene graph itself is drawn by [PR].  Java
    wraps a pixel array as a surface ([JJavaSurface.c], [JAbstractSurface.c])
    and creates a renderer for it ([JPiscesRenderer.c],
    [PiscesRenderer.inl]), whose colour, composite rule, clip and paint (a
    gradient or a texture, [PiscesTransform.c]) it sets.  A drawing call pins
    the array, brings the renderer up to date, which chooses the routines for
    the settings, computes the paint of some rows into a buffer
    ([PiscesPaint.c]), and has a routine of [PiscesBlit.c] blend it into the
    surface: for rectangles and images, for masks of coverages and for rows of
    coverage deltas.

    ** The files

    - [CFloat], [MediaTypes], [GstApi], [Effects]: IEEE floating point; the
      shared enumerations and records ([Pipeline.h], [PipelineOptions.h],
      [Track.h], [MediaTypes.h]); the calls the engine makes to GStreamer, GLib
      and Java, with [GstElementContainer.cpp]; the monad of the engine's code
      with its weakest preconditions.  Calls are answered by an environment
      [Env] of which nothing is assumed; what happened is the list of calls
      with their answers.
    - [PipelineState], [AudioPipeline], [Bus], [Tracks], [AppSink], [Build],
      [Factory]: the two pipeline classes and the factory, one definition for
      each function of the source, split where a function is long; virtual
      calls are dispatched on the object's class.
    - [VideoFrame], [FrameConvert]: the plane layout of a frame, its checks
      and the conversions between frame types.
    - [Sse2], [ColorFrame], [ColorSimd], [ColorTables], [ColorGeneric]: byte
      memory with faults, the SSE2 intrinsics, and the ten conversion functions
      of [ColorConverter.c] for both kinds of build.
    - [PluginApi], [FileCache], [ProgressBuffer], [HLSBuffer], [JavaSource]:
      what the elements exchange and call, the cache file
      ([posix/filecache.c]), and the three elements ([progressbuffer.c],
      [hlsprogressbuffer.c], [javasource.c]).  A function that releases the
      element's lock is split there; a fault is a null pointer or an index
      outside an array.
    - [Float32], [DecoraApi]: single precision arithmetic and what it rounds
      to; the effects of the filters' code: an [int] operation, a conversion
      or an index that C++ leaves undefined ends the run with its reason, and
      the JNI array calls are traced ([SSEUtils.cc] has [checkRange]).
      [BoxBlur], [BoxShadow], [Convolve], [Sampling]: one definition for each
      loop body and entry point of [SSEBoxBlurPeer.cc],
      [SSEBoxShadowPeer.cc], [SSELinearConvolvePeer.cc] and
      [SSELinearConvolveShadowPeer.cc], and the samplers of [SSEUtils.cc].
    - [JniApi], [JniUtils], [JniRun]: JNI calls as a free monad, the state of
      the machine they act on, which calls its rules allow and what it may
      answer; weakest preconditions, in which every call must be allowed and
      every answer is considered; attaching, exceptions
      ([jni/JniUtils.cpp]); machines to run a program on.
      [EventDispatch], [StreamCallbacks], [AudioSpectrum]: one definition for
      each function of the JNI classes.  [PlayerEntry], [MediaObjects]: one
      definition for each native method of the player and the media, over the
      pipeline's operations and JNI at once; [InitMedia] is split where a
      branch of it ends, and what is allocated is a list.
    - [Argb], [Painted]: packed pixels and what it means that an image is
      painted exactly; shared by DE and PR.  [PiscesPixel], [PiscesRdr],
      [PiscesBlit]: the pixel arithmetic, the record of the renderer and the
      row walk, one definition for each [emitLine] and [blit] function.
      [PiscesPaint]: the gradients and textures.  [PiscesRenderer]: the
      settings, the flags of what is invalid, and the choice of the routines.
      [PiscesFill], [PiscesSurface], [PiscesSet], [PiscesImage]: the native
      methods that draw, access the surface, set paints, and draw images.  The
      function pointers of the renderer are constructors, [NULL] is [None], and
      the arrays its pointers refer to are a record apart.
    - [AudioEqualizer]: the band map over a model of the children of GStreamer's
      equalizer element; [SpectrumRace], [MediaManager]: the threads that share
      the bands holder and the main loop, one step for each access.

    ** The theorems

    - [StateMachine]: every bus message moves the player along one edge of an
      abstract state machine and announces exactly the edges that are not
      silent.  [LockOrder]: every entry takes the four locks in one order and
      returns them.
    - [Playback], [Stalls], [ErrorState], [Controls]: what each operation asks
      of GStreamer and where the player ends up when it is done; what stalls
      and resumes it; what errors do and that the error state is final (but for
      an end of stream); ranges, bounds and round trips of the settings.
    - [Discovery], [Frames], [Lifecycle]: tracks are announced once and caps
      released once; frames are delivered once, valid and with the time since
      the first; codec errors, single initialisation, and who frees the object
      shared with the bus.
    - [FrameLayout]: the well-formedness of frames as a type invariant of all
      operations; [VideoFrame] and [FrameConvert] prove that the planes of a
      valid frame lie in its buffer and what a conversion returns.
    - [ColorPixel], [ColorSteps], [ColorRows], [ColorImage], [Color422],
      [ColorAgree], [ColorFlow]: the reference colour of a pixel; the SSE2
      steps compute it (class [StepSpec]); whole images are converted exactly
      and nothing else is touched; the two implementations agree to one level;
      and the arguments the engine passes are ones the routines are safe for.
    - [FileCache], [ProgressStream], [HLSRing], [JavaStream]: the cache file
      returns what was written; the progress buffer delivers the source's
      stream in every interleaving of its threads, but for data that downstream
      refuses and segments that an end of stream replaces, and its task never
      spins with the lock held; [JavaProgress] links it to the Java source; the
      HLS ring refines a queue of three segments; the Java
      source pushes a contiguous stream and reads ranges faithfully.
    - [EventSession], [StreamSession]: from initialisation to disposal each
      event and each request becomes one Java call with its values; on a
      machine whose own services work ([sound_machine]) no rule of JNI is broken
      whatever Java answers, no exception stays pending, no thread stays
      attached, and a local reference is left for each exception at most.
    - [PlayerEntry]: from [gstInitPlayer] to [gstDispose], what GStreamer sees is
      the operations in their order, what Java gets is their results, and the
      references are given back.  [MediaObjects]: every return of [InitMedia]
      with what it leaves allocated, and the media it makes.
    - [EqualizerMirror], [EqualizerOps]: the children of the element are the
      bands of the map, and reference counts are exact; [AudioSpectrum],
      [SpectrumRace]: what a holder writes, that its count is exact, and which
      two steps of an update can go wrong; [MediaManager]: the hand-over of the
      main loop, with and without the loop, by exploring every state.
    - [BoxBlur], [BoxShadow], [Convolve], [Sampling]: each filter writes the
      value of its mathematical definition (a window sum, a dot product) into
      every destination pixel and nothing else, reads only inside its arrays
      and overflows nothing.
    - [PiscesPixel]: the blends keep pixels premultiplied, source as long as its
      weights are at most a whole, and mix each channel.
      [PiscesBlit], [PiscesPaint]: what each routine paints, from inside which
      arrays.  [PiscesRenderer]: whatever the calls before it, a validation
      leaves what the settings call for.  [PiscesRect], [PiscesMask],
      [PiscesImage]: under the rule source-over a rectangle and a mask of the flat
      colour and an image change exactly the pixels they cover, each once and in
      its share.
      [PiscesSurface]: what is written is read back; what is cleared.
      [PiscesSet]: each block of a texture is freed once.

    Where the code does not do what it means to, the theorem states what it
    does ([SetRate_never_resumes], [EOS_leaves_Error],
    [only_sse2_premultiplies], [narrow_strides_accepted], [eos_drops_segment],
    [segment_after_eos_refused], [full_ring_wakeup_lost], [getrange_spins],
    [failed_seek_skips_block], [narrower_destination_traps],
    [empty_kernel_overruns], [failed_init_calls_null], [thrown_seek_accepted],
    [last_band_stays], [spectrum_update_races], [failed_main_loop_hangs],
    [failed_player_values_are_garbage], [deleted_callbacks_keep_a_reference],
    [source_edge_overflows], [source_mask_is_not_premultiplied],
    [empty_rectangle_is_painted], [short_array_is_written],
    [clear_with_a_mask], [second_row_is_shifted], [thin_edge_is_drawn] and
    others).

    ** Bounds and fuel

    Integers are [Z] with the wrap-around of their width written out ([u32],
    [s32], [u64], [s64]).  Loops that are not structural take fuel: the loop of
    [GetByFactoryName] runs over the list of factories; the column loops of the
    SSE2 functions ([loop16]) take one more than the width; [next_item] needs
    more than twice the bytes in the cache plus one ([next_item_ends]);
    [next_event] jumps back at most twice ([java_source_loop_ends]);
    [read_range] needs a round for each block and one more ([getrange_reads]),
    and with a source that only fails no number is enough ([getrange_spins]).
    The loop over the bands of a rectangle ([full_bands]) takes the number of
    its rows.  In PR an [int] operation on coordinates that Java can make
    overflow is a checked one; shifts of a channel into the sign bit and the
    64-bit positions in a texture wrap around.
    The exploration of the main loop's threads runs 60 rounds; that no state is
    missing is checked ([closed]).

    ** Concurrency

    The pipeline's own functions are atomic up to their locks, whose order is
    a theorem.  For the elements, the code between two releases of a lock is a
    step, and the theorems on executions range over all interleavings of the
    steps of the streaming thread, the task, seeks and flushes; a wait on a
    condition may end at any time.  The element lock and the stream lock of a
    pad are taken to exclude as documented.  JNI calls of one function are in
    sequence; another thread's calls do not change the references it holds.
    While [InitMedia] runs, the calls that the factory makes to the callbacks are
    answers of the environment; what they do in the machine is [StreamSession]'s.

    ** Not modelled

    The native methods of the equalizer, the spectrum and the video buffers
    (they test a handle and forward), the destructor, the warning listener and
    the log handler of the media manager, logging and threads, the libav decoders and Windows elements of [PL], GObject class
    registration, the macOS engine.  Of PR: the look-ups of Java fields
    ([JNIUtil.c], [JTransform.c]), the gamma tables, which the C library's [pow]
    computes and which are parameters here, the function [toPiscesCoords], which
    nothing calls, and [PiscesMath.c] and [PiscesSysutils.c], of which the
    renderer calls only the square root.  Everything else outside these parts
    (Glass, the other Prism pipelines, fonts, WebKit and the vendored
    libraries): bindings to windowing and graphics systems, or other projects'
    code. *)

From Stdlib Require Export ZArith List String Bool Lia.
From stdpp Require Export base decidable list gmap strings.
Export ListNotations.

(** ** Record update

    [r <| f := v |>] is [r] with its field [f] replaced by [v].  A record type
    opts in by declaring an [Eta] instance: its constructor applied to its own
    projections, written with [eta_pure] and [eta_ap]; the setter of a field is
    found by abstracting the field's projection in that term. *)

Definition eta_pure {R A} (a : A) : R -> A := fun _ => a.
Definition eta_ap {R A B} (f : R -> A -> B) (g : R -> A) : R -> B := fun r => f r (g r).

Class Eta (R : Type) := eta : R -> R.

Class Setter {R E : Type} (proj : R -> E) := set : (E -> E) -> R -> R.
Global Arguments set {R E} proj {_} _ _ : simpl never.

Ltac find_setter :=
  match goal with
  | |- @Setter ?R ?E ?proj =>
      let e := constr:(_ : Eta R) in
      let t := eval cbv delta [eta] in e in
      let t := eval red in t in
      match eval pattern proj in t with
      | ?ctx _ =>
          let s := constr:(fun (u : E -> E) => ctx (fun r => u (proj r))) in
          let s := eval cbv beta delta [eta_ap eta_pure] in s in
          exact s
      end
  end.

#[export] Hint Extern 0 (Setter _) => find_setter : typeclass_instances.

Declare Scope rec_scope.
Delimit Scope rec_scope with rec.
#[warnings="-postfix-notation-not-level-1"]
Notation "r <| f := v |>" := (set f (fun _ => v) r)
  (at level 12, left associativity, f at next level, v at level 200,
   format "r  <| f  :=  v |>") : rec_scope.
Global Open Scope rec_scope.

(** Simplifies projections of updated records, in the goal or a hypothesis. *)
Ltac set_step t :=
  match t with
  | context [?f (@set _ _ ?g ?i ?u ?r)] =>
      let old := constr:(f (@set _ _ g i u r)) in
      first [ let new := constr:(u (f r)) in
              let new := eval cbv beta in new in
              unify f g; change old with new
            | let new := constr:(f r) in change old with new ]
  end.
Ltac simpl_set := repeat match goal with |- ?G => set_step G end.

(** ** Machine integers *)

Local Open Scope Z_scope.

Definition two_p32 : Z := 4294967296.
Definition two_p64 : Z := 18446744073709551616.
Definition UINT_MAX : Z := two_p32 - 1.
Definition INT64_MIN : Z := - 9223372036854775808.
Definition INT64_MAX : Z := 9223372036854775807.

(** Conversion to a 32-bit unsigned and to a 64-bit unsigned integer. *)
Definition u32 (z : Z) : Z := z mod two_p32.
Definition u64 (z : Z) : Z := z mod two_p64.
(** Conversion to a 32-bit and to a 64-bit signed integer (two's complement). *)
Definition s32 (z : Z) : Z := (z + two_p32 / 2) mod two_p32 - two_p32 / 2.
Definition s64 (z : Z) : Z := (z + two_p64 / 2) mod two_p64 - two_p64 / 2.

Definition is_u32 (z : Z) : Prop := 0 <= z < two_p32.
Definition is_u64 (z : Z) : Prop := 0 <= z < two_p64.

Lemma u32_range z : is_u32 (u32 z).
Proof. unfold is_u32, u32, two_p32. apply Z.mod_pos_bound. lia. Qed.

Lemma u32_small z : is_u32 z -> u32 z = z.
Proof. unfold is_u32, u32. apply Z.mod_small. Qed.

Lemma u64_range z : is_u64 (u64 z).
Proof. unfold is_u64, u64, two_p64. apply Z.mod_pos_bound. lia. Qed.

Lemma u64_small z : is_u64 z -> u64 z = z.
Proof. unfold is_u64, u64. apply Z.mod_small. Qed.

Lemma s64_small z : INT64_MIN <= z <= INT64_MAX -> s64 z = z.
Proof.
  unfold s64, INT64_MIN, INT64_MAX. intros H.
  change (two_p64 / 2) with 9223372036854775808.
  rewrite Z.mod_small; unfold two_p64; lia.
Qed.

Lemma s32_id z : - 2147483648 <= z < 2147483648 -> s32 z = z.
Proof.
  unfold s32. change (two_p32 / 2) with 2147483648. change two_p32 with 4294967296. intros H.
  rewrite Z.mod_small; lia.
Qed.

(** [x <= c / b] bounds the product, the way overflow guards are written. *)
Lemma div_guard a b c : 0 < b -> a <= c / b -> a * b <= c.
Proof. intros Hb Ha. pose proof (Z.mul_div_le c b Hb). nia. Qed.

(** Rounding up to a multiple of 16 by masking, as [(x + 15) & ~15]. *)
Definition align16 (z : Z) : Z := Z.land (z + 15) (Z.lnot 15).

Lemma align16_eq z : align16 z = (z + 15) / 16 * 16.
Proof.
  unfold align16. change (Z.lnot 15) with (Z.lnot (Z.ones 4)).
  rewrite <- Z.ldiff_land, Z.ldiff_ones_r by lia.
  rewrite Z.shiftr_div_pow2, Z.shiftl_mul_pow2 by lia. reflexivity.
Qed.

Lemma align16_bounds z : z <= align16 z < z + 16.
Proof.
  rewrite align16_eq.
  pose proof (Z.div_mod (z + 15) 16 ltac:(lia)).
  pose proof (Z.mod_pos_bound (z + 15) 16 ltac:(lia)). lia.
Qed.

Lemma align16_divide z : (16 | align16 z).
Proof. rewrite align16_eq. exists ((z + 15) / 16). reflexivity. Qed.

(** ** Shared automation *)

(** Linear arithmetic with quotients and remainders by constants. *)
Ltac divlia := Z.to_euclidean_division_equations; lia.

Create HintDb jfx discriminated.

(** Turns boolean tests in hypotheses and goal into propositions. *)
Ltac bools :=
  repeat match goal with
  | H : _ && _ = true |- _ => apply andb_prop in H; destruct H
  | H : _ || _ = false |- _ => apply orb_false_iff in H; destruct H
  | H : _ || _ = true |- _ => apply orb_prop in H; destruct H
  | H : negb _ = true |- _ => apply negb_true_iff in H
  | H : negb _ = false |- _ => apply negb_false_iff in H
  | H : bool_decide _ = true |- _ => apply bool_decide_eq_true in H
  | H : bool_decide _ = false |- _ => apply bool_decide_eq_false in H
  | H : (_ <=? _) = true |- _ => apply Z.leb_le in H
  | H : (_ <=? _) = false |- _ => apply Z.leb_gt in H
  | H : (_ <? _) = true |- _ => apply Z.ltb_lt in H
  | H : (_ <? _) = false |- _ => apply Z.ltb_ge in H
  | H : (_ =? _) = true |- _ => apply Z.eqb_eq in H
  | H : (_ =? _) = false |- _ => apply Z.eqb_neq in H
  end.

(** Splits on the innermost condition of the goal's first [if] or [match]. *)
Ltac split_if :=
  match goal with
  | |- context [if ?b then _ else _] =>
      lazymatch b with context [if _ then _ else _] => fail | _ => destruct b eqn:? end
  end.
