(* ===== verification/CFloat.v ===== *)
(** * C floating point

    [float] and [double] of the C++ sources as IEEE-754 binary32 and binary64
    values, with the Standard Library's executable specification of IEEE
    arithmetic ([SpecFloat], round to nearest, ties to even).  NaN, signed
    zeros and infinities behave as in C: in particular every comparison with a
    NaN is false. *)

From Stdlib Require Import ZArith Lia Floats.SpecFloat.
From S2P Require Import Prelude.

Local Open Scope Z_scope.

Definition float : Type := spec_float.
Definition double : Type := spec_float.

(** ** Conversions *)

Definition Z_to_double (z : Z) : double := binary_normalize 53 1024 z 0 false.
Definition Z_to_float (z : Z) : float := binary_normalize 24 128 z 0 false.

(** [(float) d] and [(double) f]. *)
Definition round_to (prec emax : Z) (x : spec_float) : spec_float :=
  match x with
  | S754_finite s m e => binary_round prec emax s m e
  | _ => x
  end.
Definition double_to_float : double -> float := round_to 24 128.
Definition float_to_double : float -> double := round_to 53 1024.

(** The integer part of a finite value, towards zero. *)
Definition trunc (x : spec_float) : option Z :=
  match x with
  | S754_zero _ => Some 0
  | S754_finite s m e =>
      let a := if 0 <=? e then Z.shiftl (Zpos m) e else Z.shiftr (Zpos m) (- e) in
      Some (if s then - a else a)
  | _ => None
  end.

(** [(gint64) d]: the C conversion is undefined out of range; x86-64 gives
    [INT64_MIN] there, which is what is modelled. *)
Definition double_to_gint64 (x : double) : Z :=
  match trunc x with
  | Some z => if (INT64_MIN <=? z) && (z <=? INT64_MAX) then z else INT64_MIN
  | None => INT64_MIN
  end.

(** ** Operations *)

Declare Scope cfloat_scope.
Delimit Scope cfloat_scope with cf.
Infix "<." := SFltb (at level 70, no associativity) : cfloat_scope.
Infix "<=." := SFleb (at level 70, no associativity) : cfloat_scope.
Infix "==." := SFeqb (at level 70, no associativity) : cfloat_scope.
Notation "x >. y" := (SFltb y x) (at level 70, no associativity, only parsing) : cfloat_scope.
Notation "x !=. y" := (negb (SFeqb x y)) (at level 70, no associativity) : cfloat_scope.
Global Open Scope cfloat_scope.

Definition dmul : double -> double -> double := SFmul 53 1024.
Definition ddiv : double -> double -> double := SFdiv 53 1024.
Definition dsub : double -> double -> double := SFsub 53 1024.
Definition fdiv : float -> float -> float := SFdiv 24 128.

Definition f_zero : float := S754_zero false.
Definition f_one : float := Eval vm_compute in Z_to_float 1.
Definition f_minus_one : float := Eval vm_compute in Z_to_float (-1).
Definition d_zero : double := S754_zero false.
Definition d_one : double := Eval vm_compute in Z_to_double 1.
Definition d_minus_one : double := Eval vm_compute in Z_to_double (-1).

Definition is_nan (x : spec_float) : bool :=
  match x with S754_nan => true | _ => false end.

(** Clamping as the sources write it, [x < lo ? lo : x > hi ? hi : x]. *)
Definition clamp (lo hi x : spec_float) : spec_float :=
  if x <. lo then lo else if x >. hi then hi else x.

(** ** Order facts *)

(** The result of a comparison, with the operands swapped. *)
Lemma SFcompare_swap x y : SFcompare y x = option_map CompOpp (SFcompare x y).
Proof.
  destruct x as [s1|s1| |s1 m1 e1], y as [s2|s2| |s2 m2 e2]; try destruct s1; try destruct s2;
    try reflexivity; simpl; f_equal; rewrite (Z.compare_antisym e1 e2);
    destruct (e1 ?= e2); simpl; try reflexivity;
    rewrite (Pos.compare_cont_antisym m1 m2 Eq); try reflexivity;
    destruct (Pos.compare_cont Eq m1 m2); reflexivity.
Qed.

Lemma SFcompare_total x y :
  is_nan x = false -> is_nan y = false -> exists c, SFcompare x y = Some c.
Proof.
  intros Hx Hy. destruct x as [s1|s1| |s1 m1 e1]; [| |discriminate|];
    destruct y as [s2|s2| |s2 m2 e2]; try discriminate; eexists; reflexivity.
Qed.

Lemma SFcompare_refl x : is_nan x = false -> SFcompare x x = Some Eq.
Proof.
  destruct x as [s|s| |s m e]; intros H; try discriminate; try (destruct s; reflexivity).
  simpl. rewrite Z.compare_refl.
  change (Pos.compare_cont Eq m m) with (Pos.compare m m). rewrite Pos.compare_refl.
  destruct s; reflexivity.
Qed.

Lemma SFleb_refl x : is_nan x = false -> (x <=. x) = true.
Proof. intros H. unfold SFleb. rewrite SFcompare_refl by exact H. reflexivity. Qed.

(** For values that are not NaN, the order is total: not less means greater
    or equal. *)
Lemma SFltb_false_leb x y :
  is_nan x = false -> is_nan y = false -> (x <. y) = false -> (y <=. x) = true.
Proof.
  intros Hx Hy H. destruct (SFcompare_total x y Hx Hy) as [c Hc].
  unfold SFltb, SFleb in *. rewrite Hc in H. rewrite (SFcompare_swap x y), Hc.
  destruct c; easy.
Qed.

Lemma SFltb_leb x y : (x <. y) = true -> (x <=. y) = true.
Proof. unfold SFltb, SFleb. destruct (SFcompare x y) as [[]|]; easy. Qed.

(** Clamping to an interval lands in the interval, unless the value is NaN. *)
Lemma clamp_range lo hi x :
  is_nan lo = false -> is_nan hi = false -> is_nan x = false -> (lo <=. hi) = true ->
  (lo <=. clamp lo hi x) = true /\ (clamp lo hi x <=. hi) = true.
Proof.
  intros Hlo Hhi Hx Hle. unfold clamp.
  destruct (x <. lo) eqn:El; [split; [apply SFleb_refl|]; assumption|].
  destruct (hi <. x) eqn:Eh; [split; [|apply SFleb_refl]; assumption|].
  split; apply SFltb_false_leb; assumption.
Qed.

(** Clamping leaves a NaN alone. *)
Lemma clamp_nan lo hi : clamp lo hi S754_nan = S754_nan.
Proof. unfold clamp, SFltb. destruct lo, hi; reflexivity. Qed.

Lemma clamp_id lo hi x :
  (x <. lo) = false -> (hi <. x) = false -> clamp lo hi x = x.
Proof. intros H1 H2. unfold clamp. rewrite H1, H2. reflexivity. Qed.

Lemma SFltb_irrefl x : (x <. x) = false.
Proof.
  unfold SFltb. destruct (is_nan x) eqn:N.
  - destruct x; try discriminate. reflexivity.
  - rewrite SFcompare_refl by exact N. reflexivity.
Qed.

Lemma SFleb_not_ltb x y : (x <=. y) = true -> (y <. x) = false.
Proof.
  unfold SFleb, SFltb. rewrite (SFcompare_swap x y). destruct (SFcompare x y) as [[]|]; cbn; congruence.
Qed.
