(* ===== verification/Float32.v ===== *)
(** * Rounding of C floating point

    What the correct rounding of [SpecFloat] gives the image filters: every
    operation on finite values returns the integer result, taken at a common
    scale, rounded to a representable neighbour.  A finite value of a format is
    an integer multiple of the format's smallest positive value, so the order
    and the rounding are stated on integers: [sval x] is [x] divided by that
    smallest value. *)

From Stdlib Require Import ZArith Lia Bool Floats.SpecFloat.
From S2P Require Import Prelude CFloat.

Local Open Scope Z_scope.

Definition fmul : float -> float -> float := SFmul 24 128.
Definition fadd : float -> float -> float := SFadd 24 128.
Definition fsub : float -> float -> float := SFsub 24 128.

Definition is_finite (x : spec_float) : bool :=
  match x with S754_zero _ | S754_finite _ _ _ => true | _ => false end.

(** ** Powers of two *)

Lemma pow2_pos n : 0 <= n -> 0 < 2 ^ n.
Proof. intros H. apply Z.pow_pos_nonneg; lia. Qed.

Lemma pow2_mono a b : a <= b -> 2 ^ a <= 2 ^ b.
Proof. intros H. apply Z.pow_le_mono_r; lia. Qed.

Lemma pow2_diff a b : 0 <= a <= b -> 2 ^ b = 2 ^ (b - a) * 2 ^ a.
Proof. intros H. rewrite <- Z.pow_add_r by lia. f_equal. lia. Qed.

(** Comparing [m * 2^e] with [m' * 2^e'] at a scale where both are integers. *)
Lemma scale_le m e m' e' K :
  - K <= e <= e' -> m * 2 ^ (e + K) <= m' * 2 ^ (e' + K) <-> m <= m' * 2 ^ (e' - e).
Proof.
  intros H. rewrite (pow2_diff (e + K) (e' + K)) by lia.
  replace (e' + K - (e + K)) with (e' - e) by lia.
  pose proof (pow2_pos (e + K) ltac:(lia)). rewrite Z.mul_assoc. symmetry.
  apply Z.mul_le_mono_pos_r. assumption.
Qed.

Lemma scale_ge m e m' e' K :
  - K <= e <= e' -> m' * 2 ^ (e' + K) <= m * 2 ^ (e + K) <-> m' * 2 ^ (e' - e) <= m.
Proof.
  intros H. rewrite (pow2_diff (e + K) (e' + K)) by lia.
  replace (e' + K - (e + K)) with (e' - e) by lia.
  pose proof (pow2_pos (e + K) ltac:(lia)). rewrite Z.mul_assoc. symmetry.
  apply Z.mul_le_mono_pos_r. assumption.
Qed.

(** ** Digits and shifts *)

Lemma digits2_bounds p : 2 ^ (Zpos (digits2_pos p) - 1) <= Zpos p < 2 ^ Zpos (digits2_pos p).
Proof.
  induction p as [p IH|p IH|]; cbn [digits2_pos]; [| |lia];
    rewrite Pos2Z.inj_succ; unfold Z.succ;
    replace (Zpos (digits2_pos p) + 1 - 1) with (Zpos (digits2_pos p) - 1 + 1) by lia;
    rewrite !Z.pow_add_r by lia; lia.
Qed.

(** The number of digits of a positive integer is determined by its range. *)
Lemma digits2_of_range p d : 0 < d -> 2 ^ (d - 1) <= Zpos p < 2 ^ d -> Zpos (digits2_pos p) = d.
Proof.
  intros Hd [Hl Hh]. destruct (digits2_bounds p) as [Bl Bh].
  assert (2 ^ (d - 1) < 2 ^ Zpos (digits2_pos p)) as H1 by lia.
  assert (2 ^ (Zpos (digits2_pos p) - 1) < 2 ^ d) as H2 by lia.
  apply Z.pow_lt_mono_r_iff in H1; [|lia|lia]. apply Z.pow_lt_mono_r_iff in H2; lia.
Qed.

Lemma digits2_le p d : 0 <= d -> Zpos p < 2 ^ d -> Zpos (digits2_pos p) <= d.
Proof.
  intros Hd H. destruct (digits2_bounds p) as [Bl _].
  assert (2 ^ (Zpos (digits2_pos p) - 1) < 2 ^ d) as H2 by lia.
  apply Z.pow_lt_mono_r_iff in H2; lia.
Qed.

Lemma digits2_ge p d : 0 <= d -> 2 ^ d <= Zpos p -> d < Zpos (digits2_pos p).
Proof.
  intros Hd H. destruct (digits2_bounds p) as [_ Bh].
  apply (Z.pow_lt_mono_r_iff 2); lia.
Qed.

Lemma iter_pos_ind {A} (f : A -> A) (P : Z -> A -> Prop) :
  (forall k x, 0 <= k -> P k x -> P (k + 1) (f x)) ->
  forall p k x, 0 <= k -> P k x -> P (k + Zpos p) (SpecFloat.iter_pos f p x).
Proof.
  intros Hf. induction p as [p IH|p IH|]; intros k x Hk Hx; cbn [SpecFloat.iter_pos].
  - replace (k + Zpos (xI p)) with (k + 1 + Zpos p + Zpos p) by lia.
    apply IH; [lia|]. apply IH; [lia|]. apply Hf; assumption.
  - replace (k + Zpos (xO p)) with (k + Zpos p + Zpos p) by lia.
    apply IH; [lia|]. apply IH; assumption.
  - apply Hf; assumption.
Qed.

(** [m] shifted right by [k] bits, with round and sticky bits that are clear
    when nothing was lost. *)
Definition shifted (m k : Z) (r : shr_record) : Prop :=
  shr_m r = m / 2 ^ k /\ (m mod 2 ^ k = 0 -> shr_r r = false /\ shr_s r = false).

Lemma shr_1_shifted m k r : 0 <= m -> 0 <= k -> shifted m k r -> shifted m (k + 1) (shr_1 r).
Proof.
  intros Hm Hk [H1 H2]. unfold shifted. rewrite Z.pow_add_r by lia. change (2 ^ 1) with 2.
  pose proof (pow2_pos k Hk) as Hp.
  rewrite <- Z.div_div, Z.rem_mul_r by lia. rewrite <- H1.
  pose proof (Z.mod_pos_bound m (2 ^ k) Hp) as Hr.
  assert (0 <= shr_m r) as Hq by (rewrite H1; apply Z.div_pos; lia).
  pose proof (Z.mod_pos_bound (shr_m r) 2 ltac:(lia)) as Hb.
  destruct r as [q rb sb]; cbn [shr_m shr_r shr_s] in *. clear H1.
  destruct q as [|[p|p|]|]; cbn [shr_1 shr_m shr_r shr_s]; try lia;
    (split; [divlia|]); intros E;
    try (destruct H2 as [-> ->]; [nia|]; split; reflexivity);
    exfalso.
  - replace (Zpos (xI p) mod 2) with 1 in E by divlia. nia.
  - change (1 mod 2) with 1 in E. nia.
Qed.

Lemma shr_shifted m e n :
  0 <= m -> 0 <= n ->
  shifted m n (fst (shr (shr_record_of_loc m loc_Exact) e n)) /\
  snd (shr (shr_record_of_loc m loc_Exact) e n) = e + n.
Proof.
  intros Hm Hn.
  assert (shifted m 0 (shr_record_of_loc m loc_Exact)) as H0.
  { split; cbn; [rewrite Z.div_1_r; reflexivity|tauto]. }
  destruct n as [|p|p]; [|cbn [shr fst snd]|lia].
  - cbn [shr fst snd]. split; [exact H0|lia].
  - split; [|reflexivity]. change (Zpos p) with (0 + Zpos p).
    apply (iter_pos_ind shr_1 (shifted m)); [|lia|exact H0].
    intros k x Hk. apply shr_1_shifted; assumption.
Qed.

(** The mantissa after a shift, whatever was lost before it. *)
Lemma shr_mantissa m e n l :
  0 <= m -> 0 <= n ->
  shr_m (fst (shr (shr_record_of_loc m l) e n)) = m / 2 ^ n /\ snd (shr (shr_record_of_loc m l) e n) = e + n.
Proof.
  intros Hm Hn.
  assert (shr_m (shr_record_of_loc m l) = m / 2 ^ 0) as H0.
  { rewrite Z.pow_0_r, Z.div_1_r. destruct l as [|[]]; reflexivity. }
  destruct n as [|p|p]; [|cbn [shr fst snd]|lia].
  - cbn [shr fst snd]. split; [exact H0|lia].
  - split; [|reflexivity]. change (Zpos p) with (0 + Zpos p).
    apply (iter_pos_ind shr_1 (fun k r => shr_m r = m / 2 ^ k)); [|lia|exact H0].
    intros k r Hk H. rewrite Z.pow_add_r by lia. change (2 ^ 1) with 2. pose proof (pow2_pos k Hk).
    rewrite <- Z.div_div by lia. rewrite <- H.
    assert (0 <= shr_m r) by (rewrite H; apply Z.div_pos; lia).
    destruct r as [[|[q|q|]|q] rb sb]; cbn [shr_1 shr_m] in *; try lia; divlia.
Qed.

(** Rounding the shifted value picks one of its two neighbours, and the value
    itself when the shift is exact. *)
Lemma round_shifted m k r :
  shifted m k r ->
  let q := round_nearest_even (shr_m r) (loc_of_shr_record r) in
  m / 2 ^ k <= q <= m / 2 ^ k + 1 /\ (m mod 2 ^ k = 0 -> q = m / 2 ^ k).
Proof.
  intros [H1 H2] q. subst q. rewrite <- H1. clear H1. destruct r as [q rb sb]; cbn [shr_m shr_r shr_s] in *.
  split.
  - destruct rb, sb; cbn; try destruct (Z.even q); lia.
  - intros E. destruct (H2 E) as [-> ->]. reflexivity.
Qed.

(** A rounded shift is monotone against every multiple of the unit. *)
Lemma round_shifted_le m k q t :
  0 <= k -> m / 2 ^ k <= q -> t * 2 ^ k <= m -> t <= q.
Proof.
  intros Hk Hq Ht. pose proof (pow2_pos k Hk). apply Z.le_trans with (m / 2 ^ k); [|exact Hq].
  apply Z.div_le_lower_bound; lia.
Qed.

Lemma round_shifted_ge m k q t :
  0 <= k -> q <= m / 2 ^ k + 1 -> (m mod 2 ^ k = 0 -> q = m / 2 ^ k) -> m <= t * 2 ^ k -> q <= t.
Proof.
  intros Hk Hq He Ht. pose proof (pow2_pos k Hk) as Hp.
  pose proof (Z.div_mod m (2 ^ k) ltac:(lia)) as Hd. pose proof (Z.mod_pos_bound m (2 ^ k) Hp).
  destruct (Z.eq_dec (m mod 2 ^ k) 0) as [E|E]; [rewrite (He E)|]; nia.
Qed.

(** ** A binary format *)

Section Format.

Context (prec emax : Z) (Hprec : 1 < prec) (Hemax : prec < emax).

(** The exponent of the smallest positive value, and the scale that makes the
    values of the format integers. *)
Local Abbreviation E0 := (emin prec emax).
Local Abbreviation K0 := (- emin prec emax).

Lemma emin_neg : E0 < 0.
Proof using Hprec Hemax. unfold emin. lia. Qed.

(** What a number of the format measures at that scale; infinity measures as
    the first power of two out of range. *)
Definition mag (x : spec_float) : Z :=
  match x with
  | S754_finite _ m e => Zpos m * 2 ^ (e + K0)
  | S754_infinity _ => 2 ^ (emax + K0)
  | _ => 0
  end.

Definition sign (x : spec_float) : bool :=
  match x with
  | S754_finite s _ _ | S754_infinity s | S754_zero s => s
  | S754_nan => false
  end.

Definition sval (x : spec_float) : Z := if sign x then - mag x else mag x.

Abbreviation valid := (fun x => valid_binary prec emax x = true).

Lemma mag_nonneg x : 0 <= mag x.
Proof using Type.
  destruct x; cbn; try lia; try (apply Z.mul_nonneg_nonneg; [lia|]); apply Z.pow_nonneg; lia.
Qed.

Lemma bounded_spec m e :
  bounded prec emax m e = true <->
  E0 <= e <= emax - prec /\ Zpos m < 2 ^ prec /\ (E0 < e -> 2 ^ (prec - 1) <= Zpos m).
Proof using Hprec Hemax.
  unfold bounded, canonical_mantissa, fexp. rewrite andb_true_iff, Z.eqb_eq, Z.leb_le.
  pose proof (digits2_bounds m) as [Bl Bh]. set (d := Zpos (digits2_pos m)) in *.
  split.
  - intros [He Hm]. assert (d <= prec) as Hd by lia.
    pose proof (pow2_mono d prec Hd). split; [lia|split; [lia|]]. intros Hn.
    assert (d = prec) as -> by lia. exact Bl.
  - intros (He & Hm & Hn). assert (d <= prec) as Hd by (apply digits2_le; lia).
    split; [|lia]. destruct (Z.eq_dec e E0) as [->|Hne]; [lia|].
    pose proof (digits2_ge m (prec - 1) ltac:(lia) (Hn ltac:(lia))). lia.
Qed.

Lemma bounded_exponent m e : bounded prec emax m e = true -> E0 <= e.
Proof using Hprec Hemax. rewrite bounded_spec. lia. Qed.

(** A finite number is less than infinity, by magnitude. *)
Lemma mag_finite x : valid x -> is_finite x = true -> mag x < 2 ^ (emax + K0).
Proof using Hprec Hemax.
  pose proof emin_neg as HE.
  destruct x as [s|s| |s m e]; cbn [is_finite mag valid_binary]; try discriminate; intros Hv _.
  - apply pow2_pos. lia.
  - apply bounded_spec in Hv as (He & Hm & _).
    pose proof (pow2_pos (e + K0) ltac:(lia)).
    pose proof (pow2_mono (e + K0) (emax - prec + K0) ltac:(lia)).
    pose proof (pow2_pos prec ltac:(lia)).
    replace (emax + K0) with (prec + (emax - prec + K0)) by lia. rewrite (Z.pow_add_r 2 prec) by lia.
    apply Z.lt_le_trans with (2 ^ prec * 2 ^ (e + K0));
      [apply Z.mul_lt_mono_pos_r; lia|apply Z.mul_le_mono_nonneg_l; lia].
Qed.

(** A number whose exponent is not the smallest has a full mantissa: it is not
    less than any number with a smaller exponent. *)
Lemma mantissa_order m e m' e' :
  E0 <= e < e' -> m < 2 ^ prec -> 2 ^ (prec - 1) <= m' ->
  m * 2 ^ (e + K0) < m' * 2 ^ (e' + K0).
Proof using Hprec Hemax.
  intros He Hm Hm'. rewrite (pow2_diff (e + K0) (e' + K0)) by lia.
  replace (e' + K0 - (e + K0)) with (e' - e) by lia.
  pose proof (pow2_pos (e + K0) ltac:(lia)) as Hp.
  pose proof (pow2_mono 1 (e' - e) ltac:(lia)) as H2. change (2 ^ 1) with 2 in H2.
  replace prec with (prec - 1 + 1) in Hm by lia. rewrite Z.pow_add_r in Hm by lia.
  rewrite Z.mul_assoc. apply Z.mul_lt_mono_pos_r; [assumption|].
  pose proof (pow2_pos (prec - 1) ltac:(lia)). nia.
Qed.

(** ** The order of numbers is the order of what they measure *)

Lemma compare_pos m e m' e' :
  bounded prec emax m e = true -> bounded prec emax m' e' = true ->
  match e ?= e' with Lt => Lt | Gt => Gt | Eq => Pos.compare_cont Eq m m' end =
  (Zpos m * 2 ^ (e + K0) ?= Zpos m' * 2 ^ (e' + K0)).
Proof using Hprec Hemax.
  intros Hv Hv'. apply bounded_spec in Hv as (He & Hm & Hn).
  apply bounded_spec in Hv' as (He' & Hm' & Hn'). pose proof emin_neg as HE. symmetry.
  destruct (Z.compare_spec e e') as [->|Hlt|Hgt].
  - change (Pos.compare_cont Eq m m') with (Zpos m ?= Zpos m').
    pose proof (pow2_pos (e' + K0) ltac:(lia)) as Hp.
    destruct (Z.compare_spec (Zpos m) (Zpos m')) as [E|E|E].
    + rewrite E. apply Z.compare_refl.
    + apply Z.compare_lt_iff. nia.
    + apply Z.compare_gt_iff. nia.
  - apply Z.compare_lt_iff. apply mantissa_order; lia.
  - apply Z.compare_gt_iff. apply mantissa_order; lia.
Qed.

Lemma mag_pos s m e : E0 <= e -> 0 < mag (S754_finite s m e).
Proof using Hprec Hemax. intros He. cbn [mag]. pose proof (pow2_pos (e + K0) ltac:(lia)). nia. Qed.

Lemma SFcompare_sval x y :
  valid x -> valid y -> is_nan x = false -> is_nan y = false ->
  SFcompare x y = Some (sval x ?= sval y).
Proof using Hprec Hemax.
  intros Hx Hy Nx Ny. pose proof emin_neg as HE.
  pose proof (pow2_pos (emax + K0) ltac:(lia)) as Hinf.
  assert (forall m e, bounded prec emax m e = true -> 0 < Zpos m * 2 ^ (e + K0) < 2 ^ (emax + K0)) as Hfin.
  { intros m e Hb. split.
    - apply (mag_pos false). apply (bounded_exponent m). exact Hb.
    - apply (mag_finite (S754_finite false m e)); [exact Hb|reflexivity]. }
  unfold sval. destruct x as [sx|sx| |sx mx ex], y as [sy|sy| |sy my ey]; try discriminate;
    cbn [sign mag SFcompare valid_binary] in *; f_equal;
    try (pose proof (Hfin mx ex Hx)); try (pose proof (Hfin my ey Hy)).
  1-8: set (inf := 2 ^ (emax + K0)) in *; clearbody inf;
    try (set (v := Zpos mx * _) in *; clearbody v); try (set (v := Zpos my * _) in *; clearbody v);
    clear Hfin; destruct sx; try destruct sy; cbn iota; symmetry;
    first [apply Z.compare_refl | apply Z.compare_lt_iff; lia | apply Z.compare_gt_iff; lia].
  set (v := Zpos mx * 2 ^ (ex + K0)) in *. set (u := Zpos my * 2 ^ (ey + K0)) in *.
  assert (match ex ?= ey with Lt => Lt | Gt => Gt | Eq => Pos.compare_cont Eq mx my end = (v ?= u)) as C
    by (apply compare_pos; assumption).
  destruct sx, sy; cbn iota.
  - rewrite Z.compare_opp, (Z.compare_antisym v u), <- C. destruct (ex ?= ey); reflexivity.
  - symmetry. apply Z.compare_lt_iff. lia.
  - symmetry. apply Z.compare_gt_iff. lia.
  - exact C.
Qed.

(** ** Rounding *)

(** A magnitude the format represents. *)
Definition representable (t : Z) : Prop :=
  t = 0 \/ t = 2 ^ (emax + K0) \/ exists m e, bounded prec emax m e = true /\ t = Zpos m * 2 ^ (e + K0).

Lemma mag_representable x : valid x -> representable (mag x).
Proof using Type.
  unfold representable. destruct x as [s|s| |s m e]; cbn; auto. intros H. right. right. eauto.
Qed.

(** After rounding, the mantissa may have grown to a power of two: it is
    shifted back, exactly. *)
Lemma renormalise q e :
  E0 <= e -> 0 <= q <= 2 ^ prec -> (E0 < e -> 2 ^ (prec - 1) <= q) ->
  let '(r, e') := shr_fexp prec emax q e loc_Exact in
  shr_m r * 2 ^ (e' + K0) = q * 2 ^ (e + K0) /\ E0 <= e' /\ 0 <= shr_m r < 2 ^ prec /\
  (E0 < e' -> 2 ^ (prec - 1) <= shr_m r).
Proof using Hprec Hemax.
  intros He Hq Hn. unfold shr_fexp. pose proof (pow2_pos (prec - 1) ltac:(lia)) as Hp.
  pose proof (pow2_diff 1 prec ltac:(lia)) as Hpp. change (2 ^ 1) with 2 in Hpp.
  assert (fexp prec emax (Zdigits2 q + e) - e = (if q =? 2 ^ prec then 1 else 0)) as ->.
  { unfold fexp. destruct (Z.eqb_spec q (2 ^ prec)) as [->|Hne].
    - destruct (2 ^ prec) as [|p|p] eqn:E; try lia. cbn [Zdigits2].
      rewrite (digits2_of_range p (prec + 1)); [lia|lia|]. rewrite <- E.
      rewrite Z.pow_add_r by lia. replace (prec + 1 - 1) with prec by lia. lia.
    - destruct q as [|p|p]; cbn [Zdigits2]; try lia.
      assert (Zpos (digits2_pos p) <= prec) by (apply digits2_le; lia).
      destruct (Z.eq_dec e E0) as [->|Hne0]; [lia|].
      pose proof (digits2_ge p (prec - 1) ltac:(lia) (Hn ltac:(lia))). lia. }
  destruct (Z.eqb_spec q (2 ^ prec)) as [->|Hne].
  - pose proof (shr_shifted (2 ^ prec) e 1 ltac:(lia) ltac:(lia)) as [[Hm _] Hs].
    destruct (shr _ e 1) as [r e']; cbn [fst snd] in *. subst e'. rewrite Hm.
    change (2 ^ 1) with 2. rewrite Hpp, Z.div_mul by lia.
    replace (e + 1 + K0) with (1 + (e + K0)) by lia. rewrite (Z.pow_add_r 2 1) by lia. lia.
  - cbn [shr shr_m shr_record_of_loc]. lia.
Qed.

(** The exponent [fexp] chooses for a mantissa of [d] digits. *)
Lemma fexp_cases d e :
  let f := fexp prec emax (d + e) in
  E0 <= f /\ (E0 < f -> f = d + e - prec) /\ d + e - prec <= f.
Proof using Type. unfold fexp. lia. Qed.

(** Rounding the exact value [p * 2^e]. *)
Lemma rounded_mantissa p e :
  2 * E0 <= e -> e <= fexp prec emax (Zpos (digits2_pos p) + e) ->
  let '(r, e') := shr_fexp prec emax (Zpos p) e loc_Exact in
  let q := round_nearest_even (shr_m r) (loc_of_shr_record r) in
  E0 <= e' /\ 0 <= q <= 2 ^ prec /\ (E0 < e' -> 2 ^ (prec - 1) <= q) /\
  (forall m eg, 0 <= m < 2 ^ prec -> E0 <= eg ->
    (m * 2 ^ (eg + 2 * K0) <= Zpos p * 2 ^ (e + 2 * K0) -> m * 2 ^ (eg + K0) <= q * 2 ^ (e' + K0)) /\
    (Zpos p * 2 ^ (e + 2 * K0) <= m * 2 ^ (eg + 2 * K0) -> q * 2 ^ (e' + K0) <= m * 2 ^ (eg + K0))).
Proof using Hprec Hemax.
  intros He Hf. pose proof emin_neg as HE. unfold shr_fexp. cbn [Zdigits2].
  set (d := Zpos (digits2_pos p)) in *. set (f := fexp prec emax (d + e)) in *.
  pose proof (fexp_cases d e) as (F1 & F2 & F3). fold f in F1, F2, F3.
  pose proof (digits2_bounds p) as [Dl Dh]. fold d in Dl, Dh.
  assert (0 < d) as Hd by (unfold d; lia). clearbody d f.
  pose proof (shr_shifted (Zpos p) e (f - e) ltac:(lia) ltac:(lia)) as [Hs Hsnd].
  destruct (shr _ e (f - e)) as [r e']; cbn [fst snd] in *. replace (e + (f - e)) with f in Hsnd by lia. subst e'.
  pose proof (round_shifted _ _ _ Hs) as [Hq Hx].
  set (q := round_nearest_even _ _) in *. clearbody q. clear Hs r.
  assert (0 <= Zpos p / 2 ^ (f - e)) as Hq0 by (apply Z.div_pos; [lia|apply pow2_pos; lia]).
  assert (Zpos p / 2 ^ (f - e) < 2 ^ prec) as Hq1.
  { apply Z.div_lt_upper_bound; [apply pow2_pos; lia|]. rewrite <- Z.pow_add_r by lia.
    eapply Z.lt_le_trans; [exact Dh|]. apply pow2_mono. lia. }
  assert (E0 < f -> 2 ^ (prec - 1) <= q) as Hq2.
  { intros Hlt. apply Z.le_trans with (Zpos p / 2 ^ (f - e)); [|lia].
    apply Z.div_le_lower_bound; [apply pow2_pos; lia|]. rewrite <- Z.pow_add_r by lia.
    eapply Z.le_trans; [|exact Dl]. apply pow2_mono. lia. }
  split; [exact F1|]. split; [lia|]. split; [exact Hq2|].
  intros m eg Hm Heg. destruct (Z.le_gt_cases f eg) as [Hc|Hc].
  - split; intros H.
    + apply scale_ge; [lia|]. apply scale_ge in H; [|lia].
      apply (round_shifted_le (Zpos p) (f - e)); [lia|lia|].
      rewrite <- Z.mul_assoc, <- Z.pow_add_r by lia. replace (eg - f + (f - e)) with (eg - e) by lia. exact H.
    + apply scale_le; [lia|]. apply scale_le in H; [|lia].
      apply (round_shifted_ge (Zpos p) (f - e)); [lia|lia|exact Hx|].
      rewrite <- Z.mul_assoc, <- Z.pow_add_r by lia. replace (eg - f + (f - e)) with (eg - e) by lia. exact H.
  - split; intros H; [apply Z.lt_le_incl, mantissa_order; [lia|lia|apply Hq2; lia]|].
    exfalso. pose proof (pow2_pos (eg + 2 * K0) ltac:(lia)) as Hpg.
    assert (2 ^ prec * 2 ^ (eg + 2 * K0) <= Zpos p * 2 ^ (e + 2 * K0)) as Hlow.
    { apply Z.le_trans with (2 ^ (d - 1) * 2 ^ (e + 2 * K0)).
      - rewrite <- !Z.pow_add_r by lia. apply pow2_mono. lia.
      - apply Z.mul_le_mono_nonneg_r; [apply Z.pow_nonneg; lia|exact Dl]. }
    assert (m * 2 ^ (eg + 2 * K0) < 2 ^ prec * 2 ^ (eg + 2 * K0))
      by (apply Z.mul_lt_mono_pos_r; [exact Hpg|lia]).
    lia.
Qed.

Lemma round_aux_mag s p e :
  2 * E0 <= e -> e <= fexp prec emax (Zpos (digits2_pos p) + e) ->
  let r := binary_round_aux prec emax s (Zpos p) e loc_Exact in
  valid r /\ is_nan r = false /\ sign r = s /\
  forall t, representable t ->
    (t * 2 ^ K0 <= Zpos p * 2 ^ (e + 2 * K0) -> t <= mag r) /\
    (Zpos p * 2 ^ (e + 2 * K0) <= t * 2 ^ K0 -> mag r <= t).
Proof using Hprec Hemax.
  intros He Hf. pose proof emin_neg as HE. pose proof (rounded_mantissa p e He Hf) as R. unfold binary_round_aux.
  destruct (shr_fexp prec emax (Zpos p) e loc_Exact) as [r1 e1]. cbv zeta in R.
  set (q := round_nearest_even _ _) in *. destruct R as (R1 & R2 & R3 & R4).
  pose proof (renormalise q e1 R1 R2 R3) as N. destruct (shr_fexp prec emax q e1 loc_Exact) as [r2 e2].
  destruct N as (N1 & N2 & N3 & N4). rewrite <- N1 in R4. clearbody q. clear r1 N1 R1 R2 R3.
  set (v := shr_m r2 * 2 ^ (e2 + K0)) in *.
  assert (0 <= v) as Hv0 by (apply Z.mul_nonneg_nonneg; [lia|apply Z.pow_nonneg; lia]).
  assert (forall t, representable t ->
    (t * 2 ^ K0 <= Zpos p * 2 ^ (e + 2 * K0) -> t <= v) /\
    (Zpos p * 2 ^ (e + 2 * K0) <= t * 2 ^ K0 -> v <= t)) as Hmono.
  { intros t [->|[->|(m & eg & Hb & ->)]].
    - destruct (R4 0 E0 ltac:(lia) ltac:(lia)) as [_ H]. split; lia.
    - rewrite <- Z.pow_add_r by lia.
      replace (emax + K0 + K0) with (prec - 1 + (emax - prec + 1 + 2 * K0)) by lia.
      replace (emax + K0) with (prec - 1 + (emax - prec + 1 + K0)) by lia.
      rewrite !(Z.pow_add_r 2 (prec - 1)) by lia.
      apply R4; [|lia]. pose proof (pow2_diff 1 prec ltac:(lia)) as Hpp. change (2 ^ 1) with 2 in Hpp.
      pose proof (pow2_pos (prec - 1) ltac:(lia)). lia.
    - apply bounded_spec in Hb as (Hb1 & Hb2 & _).
      assert (Zpos m * 2 ^ (eg + K0) * 2 ^ K0 = Zpos m * 2 ^ (eg + 2 * K0)) as ->.
      { rewrite <- Z.mul_assoc, <- Z.pow_add_r by lia. do 2 f_equal. lia. }
      apply R4; lia. }
  clear R4. destruct (shr_m r2) as [|m|m] eqn:Em; [| |lia].
  - cbn. repeat split; try reflexivity; intros; apply Hmono; assumption.
  - destruct (Z.leb_spec e2 (emax - prec)) as [Hle|Hgt]; cbn [valid_binary is_nan sign mag].
    + split; [apply bounded_spec; lia|]. repeat split; try reflexivity; apply Hmono; assumption.
    + split; [reflexivity|]. split; [reflexivity|]. split; [reflexivity|].
      assert (2 ^ (emax + K0) <= v) as Hbig.
      { unfold v. replace (emax + K0) with (prec - 1 + (emax - prec + 1 + K0)) by lia.
        rewrite (Z.pow_add_r 2 (prec - 1)) by lia.
        pose proof (pow2_mono (emax - prec + 1 + K0) (e2 + K0) ltac:(lia)).
        pose proof (pow2_pos (emax - prec + 1 + K0) ltac:(lia)).
        apply Z.mul_le_mono_nonneg; [apply Z.pow_nonneg; lia|apply N4; lia|lia|lia]. }
      intros t Ht. split; [intros _|intros H; apply (proj2 (Hmono t Ht)) in H; lia].
      destruct Ht as [->|[->|(m' & eg & Hb & ->)]]; [apply Z.pow_nonneg; lia|lia|].
      apply Z.lt_le_incl, (mag_finite (S754_finite false m' eg)); [exact Hb|reflexivity].
Qed.

(** [r] is the value [v] (at twice the scale, where products are integers)
    rounded: no representable number lies strictly between them. *)
Definition rounded (r : spec_float) (v : Z) : Prop :=
  valid r /\ is_nan r = false /\
  forall t, representable (Z.abs t) ->
    (t * 2 ^ K0 <= v -> t <= sval r) /\ (v <= t * 2 ^ K0 -> sval r <= t).

Lemma rounded_of_mag (s : bool) x r :
  0 <= x ->
  valid r -> is_nan r = false -> sign r = s ->
  (forall t, representable t -> (t * 2 ^ K0 <= x -> t <= mag r) /\ (x <= t * 2 ^ K0 -> mag r <= t)) ->
  rounded r (if s then - x else x).
Proof using Hprec Hemax.
  intros Hx Hv Hn Hs H. split; [exact Hv|]. split; [exact Hn|]. intros t Ht. pose proof (mag_nonneg r) as Hm.
  unfold sval. rewrite Hs. clear Hs. pose proof emin_neg. pose proof (pow2_pos K0 ltac:(lia)) as Hp.
  specialize (H (Z.abs t) Ht) as [H1 H2]. set (k := 2 ^ K0) in *. clearbody k.
  destruct (Z.le_gt_cases 0 t) as [Ht0|Ht0].
  - rewrite Z.abs_eq in * by lia. destruct s; split; intros L; try lia; try (apply H1; lia); try (apply H2; lia).
    assert (t = 0) as -> by nia. lia.
  - rewrite Z.abs_neq in * by lia. destruct s; split; intros L; try lia; try (assert (t * k < 0) by nia; lia).
Qed.

Lemma iter_xO p d : Zpos (Pos.iter xO p d) = Zpos p * 2 ^ Zpos d.
Proof using Type.
  induction d as [|d IH] using Pos.peano_ind.
  - cbn. lia.
  - rewrite Pos.iter_succ. rewrite (Pos2Z.inj_succ d), Z.pow_succ_r by lia.
    rewrite Pos2Z.inj_xO, IH. ring.
Qed.

Lemma digits2_shift p d : Zpos (digits2_pos (Pos.iter xO p d)) = Zpos (digits2_pos p) + Zpos d.
Proof using Type.
  induction d as [|d IH] using Pos.peano_ind; [cbn; lia|].
  rewrite Pos.iter_succ. cbn [digits2_pos]. lia.
Qed.

Lemma shl_align_spec p e e' :
  let '(q, f) := shl_align p e e' in
  f = Z.min e e' /\ Zpos q = Zpos p * 2 ^ (e - f) /\
  Zpos (digits2_pos q) + f = Zpos (digits2_pos p) + e.
Proof using Type.
  unfold shl_align. destruct (e' - e) as [|d|d] eqn:E.
  - replace (e - e) with 0 by lia. rewrite Z.pow_0_r. lia.
  - replace (e - e) with 0 by lia. rewrite Z.pow_0_r. lia.
  - rewrite iter_xO, digits2_shift. replace (e - e') with (Zpos d) by lia. lia.
Qed.

Lemma aux_rounded s p e :
  2 * E0 <= e -> e <= fexp prec emax (Zpos (digits2_pos p) + e) ->
  rounded (binary_round_aux prec emax s (Zpos p) e loc_Exact)
    (if s then - (Zpos p * 2 ^ (e + 2 * K0)) else Zpos p * 2 ^ (e + 2 * K0)).
Proof using Hprec Hemax.
  intros He Hf. pose proof (round_aux_mag s p e He Hf) as (H1 & H2 & H3 & H4).
  apply rounded_of_mag; try assumption. apply Z.mul_nonneg_nonneg; [lia|apply Z.pow_nonneg; lia].
Qed.

Lemma round_rounded s p e :
  2 * E0 <= e ->
  rounded (binary_round prec emax s p e)
    (if s then - (Zpos p * 2 ^ (e + 2 * K0)) else Zpos p * 2 ^ (e + 2 * K0)).
Proof using Hprec Hemax.
  intros He. pose proof emin_neg as HE. unfold binary_round.
  pose proof (shl_align_spec p e (fexp prec emax (Zpos (digits2_pos p) + e))) as A.
  destruct (shl_align p e _) as [q f]. destruct A as (A1 & A2 & A3).
  pose proof (fexp_cases (Zpos (digits2_pos p)) e) as (F1 & _ & _).
  assert (Zpos p * 2 ^ (e + 2 * K0) = Zpos q * 2 ^ (f + 2 * K0)) as ->.
  { rewrite A2, <- Z.mul_assoc, <- Z.pow_add_r by lia. do 2 f_equal. lia. }
  apply aux_rounded; [lia|]. rewrite A3. lia.
Qed.

Lemma representable_zero : representable 0.
Proof using Type. left. reflexivity. Qed.

Lemma zero_rounded s : rounded (S754_zero s) 0.
Proof using Hprec Hemax.
  split; [reflexivity|]. split; [reflexivity|]. intros t Ht.
  pose proof (pow2_pos K0 ltac:(pose proof emin_neg; lia)).
  replace (sval (S754_zero s)) with 0 by (destruct s; reflexivity). nia.
Qed.

Lemma normalize_rounded z e s :
  2 * E0 <= e -> rounded (binary_normalize prec emax z e s) (z * 2 ^ (e + 2 * K0)).
Proof using Hprec Hemax.
  intros He. destruct z as [|p|p]; cbn [binary_normalize].
  - apply zero_rounded.
  - apply (round_rounded false). exact He.
  - replace (Zneg p * 2 ^ (e + 2 * K0)) with (- (Zpos p * 2 ^ (e + 2 * K0))) by lia.
    apply (round_rounded true). exact He.
Qed.

(** ** The operations on finite numbers *)

Abbreviation finite := (fun x => valid_binary prec emax x = true /\ is_finite x = true).

Lemma sval_finite s m e : sval (S754_finite s m e) = cond_Zopp s (Zpos m) * 2 ^ (e + K0).
Proof using Type. unfold sval. cbn [sign mag]. destruct s; cbn [cond_Zopp]; lia. Qed.

Lemma SFmul_rounded x y : finite x -> finite y -> rounded (SFmul prec emax x y) (sval x * sval y).
Proof using Hprec Hemax.
  pose proof emin_neg as HE.
  intros [Hx Fx] [Hy Fy]. destruct x as [sx|sx| |sx mx ex], y as [sy|sy| |sy my ey]; try discriminate;
    cbn [SFmul];
    try (replace (_ * _) with 0 by (unfold sval; cbn; destruct sx; try destruct sy; lia); apply zero_rounded).
  cbn [valid_binary] in *. apply bounded_spec in Hx as (X1 & X2 & X3). apply bounded_spec in Hy as (Y1 & Y2 & Y3).
  replace (sval _ * sval _) with
    (if xorb sx sy then - (Zpos (mx * my) * 2 ^ (ex + ey + 2 * K0)) else Zpos (mx * my) * 2 ^ (ex + ey + 2 * K0)).
  - apply aux_rounded; [lia|]. pose proof (fexp_cases (Zpos (digits2_pos (mx * my))) (ex + ey)) as (F1 & _ & F3).
    destruct (Z.eq_dec ex E0) as [Ex|Ex]; [destruct (Z.eq_dec ey E0) as [Ey|Ey]; [lia|]|];
      (assert (prec - 1 < Zpos (digits2_pos (mx * my))) by
        (apply digits2_ge; [lia|]; rewrite Pos2Z.inj_mul; pose proof (pow2_pos (prec - 1)); nia)); lia.
  - rewrite !sval_finite. replace (ex + ey + 2 * K0) with (ex + K0 + (ey + K0)) by lia.
    rewrite (Z.pow_add_r 2 (ex + K0)) by lia. rewrite Pos2Z.inj_mul.
    destruct sx, sy; cbn [xorb cond_Zopp]; ring.
Qed.

Lemma align_fst m e ez : ez <= e -> Zpos (fst (shl_align m e ez)) = Zpos m * 2 ^ (e - ez).
Proof using Type.
  intros H. pose proof (shl_align_spec m e ez) as A. destruct (shl_align m e ez) as [q f].
  destruct A as (-> & A & _). cbn [fst]. rewrite A. do 2 f_equal. lia.
Qed.

Lemma aligned_sval s m e ez :
  E0 <= ez <= e ->
  cond_Zopp s (Zpos (fst (shl_align m e ez))) * 2 ^ (ez + 2 * K0) = sval (S754_finite s m e) * 2 ^ K0.
Proof using Hprec Hemax.
  intros H. pose proof emin_neg as HE. rewrite align_fst, sval_finite by lia.
  replace (cond_Zopp s (Zpos m * 2 ^ (e - ez))) with (cond_Zopp s (Zpos m) * 2 ^ (e - ez))
    by (destruct s; cbn [cond_Zopp]; lia).
  rewrite <- !Z.mul_assoc, <- !Z.pow_add_r by lia. do 2 f_equal. lia.
Qed.

Lemma rounded_exact r t : rounded r (t * 2 ^ K0) -> representable (Z.abs t) -> sval r = t.
Proof using Type. intros (_ & _ & H) Ht. specialize (H t Ht). lia. Qed.

(** A rounded value between two representable ones stays between them, and is
    then finite. *)
Lemma rounded_between r v lo hi :
  rounded r v -> representable (Z.abs lo) -> representable (Z.abs hi) ->
  lo * 2 ^ K0 <= v <= hi * 2 ^ K0 -> lo <= sval r <= hi.
Proof using Type.
  intros (_ & _ & H) Hl Hh Hv. pose proof (H lo Hl). pose proof (H hi Hh). lia.
Qed.

Lemma rounded_nonneg r v : rounded r v -> 0 <= v -> 0 <= sval r.
Proof using Type. intros (_ & _ & H) Hv. apply (proj1 (H 0 representable_zero)). lia. Qed.

Lemma sval_is_finite x :
  is_nan x = false -> - 2 ^ (emax + K0) < sval x < 2 ^ (emax + K0) -> is_finite x = true.
Proof using Type.
  destruct x as [s|s| |s m e]; try reflexivity; try discriminate. unfold sval. cbn. destruct s; lia.
Qed.

Lemma sval_representable x : valid x -> representable (Z.abs (sval x)).
Proof using Type.
  intros Hv. pose proof (mag_nonneg x). unfold sval.
  replace (Z.abs _) with (mag x) by (destruct (sign x); lia). apply mag_representable. exact Hv.
Qed.

Lemma SFadd_rounded x y :
  finite x -> finite y -> rounded (SFadd prec emax x y) ((sval x + sval y) * 2 ^ K0).
Proof using Hprec Hemax.
  pose proof emin_neg as HE.
  assert (forall z, finite z -> rounded z (sval z * 2 ^ K0)) as Hid.
  { intros z [Hz Fz]. split; [exact Hz|]. split; [destruct z; auto; discriminate|].
    intros t _. pose proof (pow2_pos K0 ltac:(lia)). nia. }
  intros Hx Hy. destruct x as [sx|sx| |sx mx ex], y as [sy|sy| |sy my ey];
    try (destruct Hx; discriminate); try (destruct Hy; discriminate); cbn [SFadd].
  - replace (sval _ + sval _) with 0 by (destruct sx, sy; reflexivity). destruct sx, sy; apply zero_rounded.
  - replace (sval (S754_zero sx)) with 0 by (destruct sx; reflexivity). apply Hid. exact Hy.
  - replace (sval (S754_zero sy)) with 0 by (destruct sy; reflexivity). rewrite Z.add_0_r. apply Hid. exact Hx.
  - destruct Hx as [Hx _], Hy as [Hy _]. cbn [valid_binary] in *.
    apply bounded_exponent in Hx. apply bounded_exponent in Hy.
    rewrite Z.mul_add_distr_r, <- !(aligned_sval _ _ _ (Z.min ex ey)), <- Z.mul_add_distr_r by lia.
    apply normalize_rounded. lia.
Qed.

Lemma sval_opp s m e : sval (S754_finite (negb s) m e) = - sval (S754_finite s m e).
Proof using Type. rewrite !sval_finite. destruct s; cbn [negb cond_Zopp]; lia. Qed.

Lemma SFsub_rounded x y :
  finite x -> finite y -> rounded (SFsub prec emax x y) ((sval x - sval y) * 2 ^ K0).
Proof using Hprec Hemax.
  intros Hx Hy.
  assert (SFsub prec emax x y = SFadd prec emax x (SFopp y)) as ->.
  { destruct x as [sx|sx| |sx mx ex], y as [sy|sy| |sy my ey];
      try (destruct Hx; discriminate); try (destruct Hy; discriminate); cbn [SFsub SFadd SFopp];
      destruct sx, sy; reflexivity. }
  replace (sval x - sval y) with (sval x + sval (SFopp y)).
  - apply SFadd_rounded; [exact Hx|]. destruct y; exact Hy.
  - destruct y as [s|s| |s m e]; try (destruct Hy; discriminate); cbn [SFopp].
    + destruct s; cbn; lia.
    + rewrite sval_opp. lia.
Qed.

(** ** Division *)

Lemma round_nearest_bounds m l : m <= round_nearest_even m l <= m + 1.
Proof using Type. destruct l as [|[]]; cbn; try destruct (Z.even m); lia. Qed.

(** Rounding gives a number of the format wherever the exact value lies
    between mantissas. *)
Lemma round_aux_valid s m e l :
  0 <= m -> e <= fexp prec emax (Zdigits2 m + e) -> valid (binary_round_aux prec emax s m e l).
Proof using Hprec Hemax.
  intros Hm Hf. unfold binary_round_aux.
  destruct (shr_fexp prec emax m e l) as [r1 e1] eqn:E1.
  assert (shr_m r1 = m / 2 ^ (fexp prec emax (Zdigits2 m + e) - e) /\ e1 = fexp prec emax (Zdigits2 m + e)) as [M1 ->].
  { unfold shr_fexp in E1. pose proof (shr_mantissa m e (fexp prec emax (Zdigits2 m + e) - e) l Hm ltac:(lia)) as [H1 H2].
    rewrite E1 in H1, H2. cbn [fst snd] in *. split; [exact H1|lia]. }
  set (f := fexp prec emax (Zdigits2 m + e)) in *.
  pose proof (fexp_cases (Zdigits2 m) e) as (F1 & F2 & F3). fold f in F1, F2, F3.
  pose proof (round_nearest_bounds (shr_m r1) (loc_of_shr_record r1)) as B.
  set (q := round_nearest_even _ _) in *. clearbody q. rewrite M1 in B.
  assert (0 <= m / 2 ^ (f - e) /\ m / 2 ^ (f - e) + 1 <= 2 ^ prec /\ (E0 < f -> 2 ^ (prec - 1) <= m / 2 ^ (f - e))) as (B1 & B2 & B3).
  { pose proof (pow2_pos (f - e) ltac:(lia)) as Hp. split; [apply Z.div_pos; lia|].
    destruct m as [|p|p]; [|cbn [Zdigits2] in *|lia].
    - rewrite Z.div_0_l by lia. cbn [Zdigits2] in *. split; [pose proof (pow2_pos prec ltac:(lia)); lia|lia].
    - destruct (digits2_bounds p) as [Dl Dh]. split.
      + apply Z.le_succ_l, Z.div_lt_upper_bound; [lia|]. rewrite <- Z.pow_add_r by lia.
        eapply Z.lt_le_trans; [exact Dh|]. apply pow2_mono. lia.
      + intros Hlt. apply Z.div_le_lower_bound; [lia|]. rewrite <- Z.pow_add_r by lia.
        eapply Z.le_trans; [|exact Dl]. apply pow2_mono. lia. }
  pose proof (renormalise q f F1 ltac:(lia) ltac:(lia)) as N.
  destruct (shr_fexp prec emax q f loc_Exact) as [r2 e2]. destruct N as (_ & N2 & N3 & N4).
  destruct (shr_m r2) as [|p|p]; [reflexivity| |lia].
  destruct (Z.leb_spec e2 (emax - prec)); [|reflexivity]. cbn [valid_binary]. apply bounded_spec. lia.
Qed.

Lemma SFdiv_valid x y : valid x -> valid y -> valid (SFdiv prec emax x y).
Proof using Hprec Hemax.
  pose proof emin_neg as HE.
  intros Hx Hy. destruct x as [sx|sx| |sx mx ex], y as [sy|sy| |sy my ey]; try reflexivity.
  cbn [SFdiv]. unfold SFdiv_core_binary. cbn [Zdigits2].
  destruct (digits2_bounds mx) as [Xl Xh]. destruct (digits2_bounds my) as [Yl Yh].
  set (d1 := Zpos (digits2_pos mx)) in *. set (d2 := Zpos (digits2_pos my)) in *.
  assert (0 < d1 /\ 0 < d2) as [D1 D2] by (unfold d1, d2; lia). clearbody d1 d2.
  set (f := fexp prec emax (d1 + ex - (d2 + ey))). set (e := Z.min f (ex - ey)).
  replace (match ex - ey - e with Z0 => Zpos mx | Zpos _ => Z.shiftl (Zpos mx) (ex - ey - e) | Zneg _ => 0 end)
    with (Zpos mx * 2 ^ (ex - ey - e)).
  2: { destruct (ex - ey - e) eqn:Es; [rewrite Z.pow_0_r; lia|rewrite Z.shiftl_mul_pow2 by lia; reflexivity|lia]. }
  set (n := ex - ey - e). assert (0 <= n) as Hn by lia. pose proof (pow2_pos n Hn) as Hpn.
  destruct (Z.div_eucl (Zpos mx * 2 ^ n) (Zpos my)) as [q r] eqn:Eq.
  assert (q = Zpos mx * 2 ^ n / Zpos my) as -> by (unfold Z.div; rewrite Eq; reflexivity).
  set (q := Zpos mx * 2 ^ n / Zpos my). assert (0 <= q) as Hq by (apply Z.div_pos; lia).
  apply round_aux_valid; [exact Hq|].
  pose proof (fexp_cases (d1 + ex - (d2 + ey)) 0) as (F1 & F2 & F3). rewrite !Z.add_0_r in *. fold f in F1, F2, F3.
  pose proof (fexp_cases (Zdigits2 q) e) as (G1 & _ & G3).
  destruct (Z.le_gt_cases e E0) as [Hlow|Hhigh]; [lia|].
  (* the quotient has at least [prec] digits *)
  assert (2 ^ (prec - 1) <= q) as Hlarge.
  { unfold q. apply Z.div_le_lower_bound; [lia|].
    apply Z.le_trans with (2 ^ d2 * 2 ^ (prec - 1)); [apply Z.mul_le_mono_nonneg_r; [apply Z.pow_nonneg; lia|lia]|].
    apply Z.le_trans with (2 ^ (d1 - 1) * 2 ^ n); [|apply Z.mul_le_mono_nonneg_r; lia].
    rewrite <- !Z.pow_add_r by lia. apply pow2_mono. lia. }
  destruct q as [|p|p]; [pose proof (pow2_pos (prec - 1) ltac:(lia)); lia| |lia]. cbn [Zdigits2] in *.
  pose proof (digits2_ge p (prec - 1) ltac:(lia) Hlarge). lia.
Qed.


(** Integers up to the precision are represented exactly. *)
Lemma representable_int n : 0 <= n <= 2 ^ prec -> representable (n * 2 ^ K0).
Proof using Hprec Hemax.
  intros Hn. pose proof emin_neg as HE. destruct n as [|p|p]; [left; lia| |lia]. right. right.
  destruct (digits2_bounds p) as [Dl Dh]. set (d := Zpos (digits2_pos p)) in *.
  assert (d <= prec + 1) as Hd.
  { apply digits2_le; [lia|]. rewrite Z.pow_add_r by lia. change (2 ^ 1) with 2. lia. }
  assert (0 < d) as Hd0 by (unfold d; lia). unfold emin in HE.
  destruct (Z.le_gt_cases d prec) as [Hle|Hgt].
  - exists (Z.to_pos (Zpos p * 2 ^ (prec - d))), (d - prec).
    pose proof (pow2_pos (prec - d) ltac:(lia)) as Hp. rewrite Z2Pos.id by nia. split.
    + apply bounded_spec. rewrite Z2Pos.id by nia. unfold emin. split; [lia|]. split.
      * replace prec with (d + (prec - d)) at 2 by lia. rewrite (Z.pow_add_r 2 d) by lia. nia.
      * intros _. replace (prec - 1) with (d - 1 + (prec - d)) by lia. rewrite (Z.pow_add_r 2 (d - 1)) by lia. nia.
    + rewrite <- Z.mul_assoc, <- Z.pow_add_r by (unfold emin; lia). do 2 f_equal. lia.
  - assert (d = prec + 1) as Ed by lia. rewrite Ed in Dl. replace (prec + 1 - 1) with prec in Dl by lia.
    assert (Zpos p = 2 ^ prec) as Ep by lia. exists (Z.to_pos (2 ^ (prec - 1))), 1.
    pose proof (pow2_pos (prec - 1) ltac:(lia)) as Hp.
    pose proof (pow2_diff 1 prec ltac:(lia)) as Hpp. change (2 ^ 1) with 2 in Hpp.
    rewrite Z2Pos.id by lia. split.
    + apply bounded_spec. rewrite Z2Pos.id by lia. unfold emin. lia.
    + rewrite Ep, (Z.pow_add_r 2 1) by (unfold emin; lia). lia.
Qed.

Lemma of_int_exact n s :
  - 2 ^ prec <= n <= 2 ^ prec -> sval (binary_normalize prec emax n 0 s) = n * 2 ^ K0.
Proof using Hprec Hemax.
  intros Hn. pose proof emin_neg as HE. pose proof (pow2_pos K0 ltac:(lia)) as Hp. apply rounded_exact.
  - replace (n * 2 ^ K0 * 2 ^ K0) with (n * 2 ^ (0 + 2 * K0)).
    + apply normalize_rounded. lia.
    + rewrite <- Z.mul_assoc, <- Z.pow_add_r by lia. do 2 f_equal. lia.
  - rewrite Z.abs_mul, (Z.abs_eq (2 ^ K0)) by lia. apply representable_int. lia.
Qed.

Lemma of_int_rounded n s : rounded (binary_normalize prec emax n 0 s) (n * 2 ^ K0 * 2 ^ K0).
Proof using Hprec Hemax.
  pose proof emin_neg as HE. rewrite <- Z.mul_assoc, <- Z.pow_add_r by lia.
  replace (K0 + K0) with (0 + 2 * K0) by lia. apply normalize_rounded. lia.
Qed.

Lemma trunc_sval x : finite x -> trunc x = Some (Z.quot (sval x) (2 ^ K0)).
Proof using Hprec Hemax.
  pose proof emin_neg as HE. pose proof (pow2_pos K0 ltac:(lia)) as Hp.
  intros [Hv Hf]. destruct x as [s|s| |s m e]; try discriminate.
  - destruct s; reflexivity.
  - rewrite sval_finite. cbn [trunc valid_binary] in *. apply bounded_exponent in Hv. f_equal.
    assert ((if 0 <=? e then Z.shiftl (Zpos m) e else Z.shiftr (Zpos m) (- e)) = Zpos m * 2 ^ (e + K0) / 2 ^ K0) as ->.
    { destruct (Z.leb_spec 0 e).
      - rewrite Z.shiftl_mul_pow2, Z.pow_add_r, Z.mul_assoc, Z.div_mul by lia. reflexivity.
      - rewrite Z.shiftr_div_pow2 by lia. replace (2 ^ K0) with (2 ^ (- e) * 2 ^ (e + K0)).
        + rewrite Z.div_mul_cancel_r; [reflexivity| |]; apply Z.pow_nonzero; lia.
        + rewrite <- Z.pow_add_r by lia. f_equal. lia. }
    assert (0 <= Zpos m * 2 ^ (e + K0)) as Hn by (apply Z.mul_nonneg_nonneg; [lia|apply Z.pow_nonneg; lia]).
    destruct s; cbn [cond_Zopp].
    + rewrite Z.mul_opp_l, Z.quot_opp_l, Z.quot_div_nonneg by lia. reflexivity.
    + rewrite Z.quot_div_nonneg by lia. reflexivity.
Qed.

End Format.

(** ** [float]

    The numbers of binary32; [fval x] counts units of [2^-149], and
    [f_unit] of them make one. *)

Definition f_unit : Z := 2 ^ 149.
Definition fval : float -> Z := sval 24 128.
Definition f_number (x : float) : Prop := valid_binary 24 128 x = true /\ is_nan x = false.
Definition f_finite (x : float) : Prop := valid_binary 24 128 x = true /\ is_finite x = true.
Definition f_rounded : float -> Z -> Prop := rounded 24 128.

Lemma f_unit_pos : 0 < f_unit.
Proof. apply pow2_pos. lia. Qed.

Lemma f_finite_number x : f_finite x -> f_number x.
Proof. intros [Hv Hf]. split; [exact Hv|]. destruct x; auto; discriminate. Qed.

Lemma f_rounded_number r v : f_rounded r v -> f_number r.
Proof. intros (H1 & H2 & _). split; assumption. Qed.

Lemma fltb_spec x y : f_number x -> f_number y -> (x <. y) = (fval x <? fval y).
Proof.
  intros [Vx Nx] [Vy Ny]. unfold SFltb, fval, Z.ltb.
  rewrite (SFcompare_sval 24 128 ltac:(lia) ltac:(lia)) by assumption.
  destruct (_ ?= _); reflexivity.
Qed.

Lemma fleb_spec x y : f_number x -> f_number y -> (x <=. y) = (fval x <=? fval y).
Proof.
  intros [Vx Nx] [Vy Ny]. unfold SFleb, fval, Z.leb.
  rewrite (SFcompare_sval 24 128 ltac:(lia) ltac:(lia)) by assumption.
  destruct (_ ?= _); reflexivity.
Qed.

Lemma fmul_rounded x y : f_finite x -> f_finite y -> f_rounded (fmul x y) (fval x * fval y).
Proof. apply (SFmul_rounded 24 128); lia. Qed.
Lemma fadd_rounded x y : f_finite x -> f_finite y -> f_rounded (fadd x y) ((fval x + fval y) * f_unit).
Proof. apply (SFadd_rounded 24 128); lia. Qed.
Lemma fsub_rounded x y : f_finite x -> f_finite y -> f_rounded (fsub x y) ((fval x - fval y) * f_unit).
Proof. apply (SFsub_rounded 24 128); lia. Qed.

Lemma Z_to_float_rounded n : f_rounded (Z_to_float n) (n * f_unit * f_unit).
Proof. apply (of_int_rounded 24 128); lia. Qed.

(** A representable integer bounds every value rounded from below it. *)
Lemma f_rounded_between r v lo hi :
  f_rounded r v -> Z.abs lo <= 2 ^ 24 -> Z.abs hi <= 2 ^ 24 ->
  lo * f_unit * f_unit <= v <= hi * f_unit * f_unit ->
  f_finite r /\ lo * f_unit <= fval r <= hi * f_unit.
Proof.
  intros Hr Hl Hh Hv. pose proof f_unit_pos as Hu.
  assert (lo * f_unit <= fval r <= hi * f_unit) as B.
  { apply (rounded_between 24 128 r v); [exact Hr| | |exact Hv];
      rewrite Z.abs_mul, (Z.abs_eq f_unit) by lia; apply (representable_int 24 128); lia. }
  split; [|exact B]. destruct Hr as (H1 & H2 & _). split; [exact H1|].
  apply (sval_is_finite 24 128); [exact H2|]. fold (fval r).
  replace (2 ^ (128 + - emin 24 128)) with (2 ^ 128 * f_unit) by (unfold f_unit; rewrite <- Z.pow_add_r by lia; reflexivity).
  change (2 ^ 24) with 16777216 in *. set (b := 2 ^ 128).
  assert (16777216 < b) by reflexivity. clearbody b. nia.
Qed.

Lemma Z_to_float_exact n :
  Z.abs n <= 2 ^ 24 -> f_finite (Z_to_float n) /\ fval (Z_to_float n) = n * f_unit.
Proof.
  intros Hn. destruct (f_rounded_between _ _ n n (Z_to_float_rounded n)) as [Hf Hv]; [assumption..|lia|].
  split; [exact Hf|lia].
Qed.

Lemma f_trunc x : f_finite x -> trunc x = Some (Z.quot (fval x) f_unit).
Proof. apply (trunc_sval 24 128); lia. Qed.

(** ** Every operation returns a canonical representation *)

Definition f_valid (x : float) : Prop := valid_binary 24 128 x = true.

Ltac valid_op x y rule :=
  let F := fresh in let Fx := fresh in let Fy := fresh in
  intros Hx Hy; destruct (is_finite x && is_finite y) eqn:F;
  [apply andb_true_iff in F as [Fx Fy]; apply rule; split; assumption
  |destruct x as [[]|[]| |[]], y as [[]|[]| |[]]; try discriminate F; try reflexivity; assumption].

Lemma fmul_valid x y : f_valid x -> f_valid y -> f_valid (fmul x y).
Proof. valid_op x y fmul_rounded. Qed.
Lemma fadd_valid x y : f_valid x -> f_valid y -> f_valid (fadd x y).
Proof. valid_op x y fadd_rounded. Qed.
Lemma fsub_valid x y : f_valid x -> f_valid y -> f_valid (fsub x y).
Proof. valid_op x y fsub_rounded. Qed.
Lemma fdiv_valid x y : f_valid x -> f_valid y -> f_valid (fdiv x y).
Proof. apply (SFdiv_valid 24 128); lia. Qed.
Lemma Z_to_float_valid n : f_valid (Z_to_float n).
Proof. apply (Z_to_float_rounded n). Qed.

Create HintDb floats discriminated.
#[export] Hint Resolve fmul_valid fadd_valid fsub_valid fdiv_valid Z_to_float_valid : floats.
#[export] Hint Resolve f_finite_number f_rounded_number : jfx.
