(* ===== verification/MediaTypes.v ===== *)
(** * Shared media types

    The enumerations, constants and small value classes every part of the
    engine uses: player states ([PipelineManagement/Pipeline.h]), error codes
    (named as in the generated [jfxmedia_errors.h]), pipeline options
    ([PipelineManagement/PipelineOptions.h]), tracks
    ([PipelineManagement/Track.h], [AudioTrack.h], [VideoTrack.h]) and MIME
    types ([MediaManagement/MediaTypes.h]). *)

From S2P Require Import Prelude CFloat.

Local Open Scope Z_scope.

(** The platform the engine is built for ([TARGET_OS_LINUX], [TARGET_OS_WIN32],
    [TARGET_OS_MAC] of the build). *)
Inductive Platform := TargetLinux | TargetWin32 | TargetMac.
#[export] Instance Platform_eq_dec : EqDecision Platform.
Proof. solve_decision. Defined.

(** ** Player states *)

Inductive PlayerState :=
| Unknown | Ready | Playing | Paused | Stopped | Stalled | Finished | Error.
#[export] Instance PlayerState_eq_dec : EqDecision PlayerState.
Proof. solve_decision. Defined.

(** The C++ enumerators' values, as sent through JNI. *)
Definition PlayerState_value (s : PlayerState) : Z :=
  match s with
  | Unknown => 0 | Ready => 1 | Playing => 2 | Paused => 3
  | Stopped => 4 | Stalled => 5 | Finished => 6 | Error => 7
  end.

(** ** Error and warning codes *)

Inductive ErrCode :=
| ERROR_NONE
| ERROR_MANAGER_NULL | ERROR_MANAGER_CREATION
| ERROR_MEDIA_NULL | ERROR_MEDIA_CREATION | ERROR_MEDIA_INVALID
| ERROR_MEDIA_VIDEO_FORMAT_UNSUPPORTED | ERROR_MEDIA_AUDIO_FORMAT_UNSUPPORTED
| ERROR_MEDIA_AAC_FORMAT_UNSUPPORTED | ERROR_MEDIA_H264_FORMAT_UNSUPPORTED
| ERROR_MEDIA_H265_FORMAT_UNSUPPORTED | ERROR_MEDIA_HLS_FORMAT_UNSUPPORTED
| ERROR_MEDIA_CORRUPTED
| ERROR_PIPELINE_NULL | ERROR_PIPELINE_CREATION
| ERROR_FACTORY_NULL
| ERROR_LOCATOR_NULL | ERROR_LOCATOR_UNSUPPORTED_TYPE
| ERROR_LOCATOR_UNSUPPORTED_MEDIA_FORMAT | ERROR_LOCATOR_CONNECTION_LOST
| ERROR_LOCATOR_CONTENT_TYPE_NULL
| ERROR_GSTREAMER_PIPELINE_CREATION
| ERROR_GSTREAMER_AUDIO_DECODER_SINK_PAD | ERROR_GSTREAMER_AUDIO_DECODER_SRC_PAD
| ERROR_GSTREAMER_VIDEO_DECODER_SINK_PAD
| ERROR_GSTREAMER_PIPELINE_STATE_CHANGE | ERROR_GSTREAMER_PIPELINE_SEEK
| ERROR_GSTREAMER_PIPELINE_QUERY_LENGTH | ERROR_GSTREAMER_PIPELINE_SET_RATE_ZERO
| ERROR_GSTREAMER_AUDIO_SINK_CREATE | ERROR_GSTREAMER_VIDEO_SINK_CREATE
| ERROR_GSTREAMER_CREATE_GHOST_PAD | ERROR_GSTREAMER_ELEMENT_ADD_PAD
| ERROR_GSTREAMER_ELEMENT_LINK | ERROR_GSTREAMER_ELEMENT_LINK_AUDIO_BIN
| ERROR_GSTREAMER_ELEMENT_LINK_VIDEO_BIN | ERROR_GSTREAMER_ELEMENT_CREATE
| ERROR_GSTREAMER_ELEMENT_GET_PAD
| ERROR_GSTREAMER_BIN_CREATE | ERROR_GSTREAMER_BIN_ADD_ELEMENT
| ERROR_GSTREAMER_BUS_SOURCE_ATTACH
| ERROR_MEMORY_ALLOCATION | ERROR_OS_UNSUPPORTED | ERROR_PLATFORM_UNSUPPORTED
| ERROR_FUNCTION_PARAM_NULL
| ERROR_MISSING_LIBSWSCALE | ERROR_INVALID_LIBSWSCALE
| ERROR_JNI_SEND_PLAYER_HALT_EVENT | ERROR_JNI_SEND_PLAYER_STATE_EVENT
| ERROR_JNI_SEND_NEW_FRAME_EVENT | ERROR_JNI_SEND_FRAME_SIZE_CHANGED_EVENT
| ERROR_JNI_SEND_AUDIO_TRACK_EVENT | ERROR_JNI_SEND_VIDEO_TRACK_EVENT
| ERROR_JNI_SEND_BUFFER_PROGRESS_EVENT | ERROR_JNI_SEND_DURATION_UPDATE_EVENT
| ERROR_JNI_SEND_AUDIO_SPECTRUM_EVENT | ERROR_JNI_UNEXPECTED.
#[export] Instance ErrCode_eq_dec : EqDecision ErrCode.
Proof. solve_decision. Defined.

Inductive WarnCode :=
| WARNING_GSTREAMER_PIPELINE_WARNING
| WARNING_GSTREAMER_PIPELINE_INFO_ERROR
| WARNING_GSTREAMER_PIPELINE_FRAME_SIZE
| WARNING_GSTREAMER_INVALID_FRAME.

(** ** MIME types *)

(** A message that ends with a newline. *)
Definition line (s : string) : string := (s ++ String (Ascii.ascii_of_nat 10) EmptyString)%string.

Definition CONTENT_TYPE_AIFF := "audio/x-aiff"%string.
Definition CONTENT_TYPE_MP3 := "audio/mp3"%string.
Definition CONTENT_TYPE_MPA := "audio/mpeg"%string.
Definition CONTENT_TYPE_WAV := "audio/x-wav"%string.
Definition CONTENT_TYPE_MP4 := "video/mp4"%string.
Definition CONTENT_TYPE_M4A := "audio/x-m4a"%string.
Definition CONTENT_TYPE_M4V := "video/x-m4v"%string.
Definition CONTENT_TYPE_M3U8 := "application/vnd.apple.mpegurl"%string.
Definition CONTENT_TYPE_M3U := "audio/mpegurl"%string.
Definition CONTENT_TYPE_MP2T := "video/MP2T"%string.
Definition CONTENT_TYPE_FMP4 := "video/quicktime"%string.
Definition CONTENT_TYPE_AAC := "audio/aac"%string.

(** [hay.find(needle)]: the first position, or [npos]; [strstr] likewise. *)
Definition str_find (hay needle : string) : option nat := String.index 0 needle hay.
Definition str_contains (hay needle : string) : bool :=
  match str_find hay needle with Some _ => true | None => false end.
(** [g_str_has_prefix]. *)
Definition str_has_prefix (s p : string) : bool := String.prefix p s.

(** ** Pipeline options *)

Inductive PipelineType := kSingleSourcePipeline | kAudioSourcePipeline.
#[export] Instance PipelineType_eq_dec : EqDecision PipelineType.
Proof. solve_decision. Defined.

Record CPipelineOptions := mkOptions {
  m_PipelineType : PipelineType;
  m_bBufferingEnabled : bool;
  m_ContentType : string;
  m_StreamMimeType : Z;
  m_AudioStreamMimeType : Z;
  m_bHLSModeEnabled : bool;
  m_audioFlags : Z;
  m_StreamParser : string;
  m_AudioStreamParser : string;
  m_AudioDecoder : string;
  m_VideoDecoder : string
}.
#[export] Instance CPipelineOptions_eta : Eta CPipelineOptions :=
  eta_ap (eta_ap (eta_ap (eta_ap (eta_ap (eta_ap (eta_ap (eta_ap (eta_ap (eta_ap (eta_ap
    (eta_pure mkOptions) m_PipelineType) m_bBufferingEnabled) m_ContentType)
    m_StreamMimeType) m_AudioStreamMimeType) m_bHLSModeEnabled) m_audioFlags)
    m_StreamParser) m_AudioStreamParser) m_AudioDecoder) m_VideoDecoder.

Definition new_CPipelineOptions (pipelineType : PipelineType) : CPipelineOptions :=
  mkOptions pipelineType false "" (-1) (-1) false 0 "" "" "" "".

Definition ForceDefaultTrackID (o : CPipelineOptions) : bool :=
  bool_decide (m_PipelineType o = kAudioSourcePipeline).

(** [GetCharFromString]: the empty string reads as [NULL]. *)
Definition GetCharFromString (s : string) : option string :=
  match s with EmptyString => None | _ => Some s end.

(** ** Tracks *)

Inductive Encoding := NONE | PCM | MPEG1AUDIO | MPEG1LAYER3 | AAC | H264 | H265 | CUSTOM.
#[export] Instance Encoding_eq_dec : EqDecision Encoding.
Proof. solve_decision. Defined.

Definition CHANNEL_UNKNOWN : Z := 0x00.
Definition FRONT_LEFT : Z := 0x01.
Definition FRONT_RIGHT : Z := 0x02.
Definition FRONT_CENTER : Z := 0x04.
Definition REAR_LEFT : Z := 0x08.
Definition REAR_RIGHT : Z := 0x10.

Definition DEFAULT_AUDIO_TRACK_ID : Z := 0.
Definition DEFAULT_VIDEO_TRACK_ID : Z := 1.

Record CAudioTrack := mkAudioTrack {
  at_trackID : Z; at_name : string; at_encoding : Encoding; at_enabled : bool;
  at_language : string; at_numChannels : Z; at_channelMask : Z; at_sampleRate : float
}.

Record CVideoTrack := mkVideoTrack {
  vt_trackID : Z; vt_name : string; vt_encoding : Encoding; vt_enabled : bool;
  vt_width : Z; vt_height : Z; vt_frameRate : float; vt_hasAlpha : bool
}.

(** ** Video frames *)

Inductive FrameType := UNKNOWN | ARGB | BGRA_PRE | YCbCr_420p | YCbCr_422 | YCbCr_422_rev.
#[export] Instance FrameType_eq_dec : EqDecision FrameType.
Proof. solve_decision. Defined.

Definition MAX_PLANE_COUNT : Z := 4.

(** The fields of [CVideoFrame] ([PipelineManagement/VideoFrame.h]) and of
    [CGstVideoFrame] ([GstVideoFrame.h]).  The derived class declares a second
    [m_bHasAlpha] that hides the base class's: it is [gst_bHasAlpha] here.
    Addresses are integers, [NULL] is 0; the three plane arrays have
    [MAX_PLANE_COUNT] entries; [m_pSample] and [m_pBuffer] say whether the
    pointer is set. *)
Record CVideoFrame := mkVideoFrame {
  m_uiWidth : Z;
  m_uiHeight : Z;
  m_uiEncodedWidth : Z;
  m_uiEncodedHeight : Z;
  m_typeFrame : FrameType;
  m_bHasAlpha : bool;
  m_dTime : double;
  m_FrameDirty : bool;
  m_pvPlaneData : list Z;
  m_pulPlaneSize : list Z;
  m_puiPlaneStrides : list Z;
  m_uiPlaneCount : Z;
  m_bIsValid : bool;
  gst_bHasAlpha : bool;
  m_pSample : bool;
  m_pBuffer : bool;
  m_pvBufferBaseAddress : Z;
  m_ulBufferSize : Z;
  m_bIsI420 : bool
}.
#[export] Instance CVideoFrame_eta : Eta CVideoFrame :=
    (eta_ap (eta_ap (eta_ap (eta_ap (eta_ap (eta_ap (eta_ap (eta_ap (eta_ap (eta_ap (eta_ap (eta_ap
    (eta_ap (eta_ap (eta_ap (eta_ap (eta_ap (eta_ap (eta_ap (eta_pure mkVideoFrame) m_uiWidth)
    m_uiHeight) m_uiEncodedWidth) m_uiEncodedHeight) m_typeFrame) m_bHasAlpha) m_dTime)
    m_FrameDirty) m_pvPlaneData) m_pulPlaneSize) m_puiPlaneStrides) m_uiPlaneCount) m_bIsValid)
    gst_bHasAlpha) m_pSample) m_pBuffer) m_pvBufferBaseAddress) m_ulBufferSize) m_bIsI420).
