(* ===== verification/GstApi.v ===== *)
(** * The engine's environment

    GStreamer, GLib and the Java event dispatcher as the C++ engine sees them.
    [ext R] enumerates the calls the engine makes to code outside it, each with
    the type [R] of its answer (out parameters included); [obs] is a call
    together with the answer it received, so that the list of [obs] of an
    execution is everything the outside can see of it.  The critical sections
    of [Utils/JfxCriticalSection.h] are calls too: their order is observable.

    The data of GStreamer that crosses the boundary (states, caps, messages,
    errors) and the element container ([GstElementContainer.cpp]) are here as
    well. *)

From S2P Require Import Prelude CFloat MediaTypes.

Local Open Scope Z_scope.

(** ** GStreamer enumerations and constants *)

Inductive GstState :=
| GST_STATE_VOID_PENDING | GST_STATE_NULL | GST_STATE_READY | GST_STATE_PAUSED | GST_STATE_PLAYING.
#[export] Instance GstState_eq_dec : EqDecision GstState.
Proof. solve_decision. Defined.

Inductive GstStateChangeReturn :=
| GST_STATE_CHANGE_FAILURE | GST_STATE_CHANGE_SUCCESS
| GST_STATE_CHANGE_ASYNC | GST_STATE_CHANGE_NO_PREROLL.
#[export] Instance GstStateChangeReturn_eq_dec : EqDecision GstStateChangeReturn.
Proof. solve_decision. Defined.

Inductive GstPadLinkReturn := GST_PAD_LINK_OK | GST_PAD_LINK_NOFORMAT | GST_PAD_LINK_OTHER.
#[export] Instance GstPadLinkReturn_eq_dec : EqDecision GstPadLinkReturn.
Proof. solve_decision. Defined.

Inductive GstPadProbeReturn := GST_PAD_PROBE_OK | GST_PAD_PROBE_REMOVE.
Inductive GstFlowReturn := GST_FLOW_OK.
Inductive GstFormat := GST_FORMAT_TIME | GST_FORMAT_OTHER.
#[export] Instance GstFormat_eq_dec : EqDecision GstFormat.
Proof. solve_decision. Defined.

Definition GST_SECOND : Z := 1000000000.
Definition GST_MSECOND : Z := 1000000.
Definition GST_CLOCK_TIME_NONE : Z := two_p64 - 1.
Definition GST_SEEK_FLAG_FLUSH : Z := 1.
Definition GST_SEEK_FLAG_SKIP : Z := 16.
Definition GST_PAD_PROBE_TYPE_BUFFER : Z := 16.

Definition JFX_CODEC_ID_AAC : Z := 1.
Definition JFX_CODEC_ID_H264 : Z := 2.
Definition JFX_CODEC_ID_AVC1 : Z := 3.
Definition JFX_CODEC_ID_H265 : Z := 4.

(** Error domains are quarks; the engine distinguishes these. *)
Inductive GstErrorDomain := GST_RESOURCE_ERROR | GST_STREAM_ERROR | JFX_GST_ERROR | OTHER_ERROR_DOMAIN.
#[export] Instance GstErrorDomain_eq_dec : EqDecision GstErrorDomain.
Proof. solve_decision. Defined.
Definition GST_RESOURCE_ERROR_READ : Z := 9.
Definition GST_STREAM_ERROR_FAILED : Z := 1.
Definition GST_STREAM_ERROR_TYPE_NOT_FOUND : Z := 4.
Definition GST_STREAM_ERROR_WRONG_TYPE : Z := 5.
Definition GST_STREAM_ERROR_CODEC_NOT_FOUND : Z := 6.
Definition GST_STREAM_ERROR_DECODE : Z := 7.
Definition GST_STREAM_ERROR_DEMUX : Z := 9.
Definition JFX_GST_MISSING_LIBSWSCALE : Z := 0x100.
Definition JFX_GST_INVALID_LIBSWSCALE : Z := 0x101.

Record GError := mkGError { ge_domain : GstErrorDomain; ge_code : Z; ge_message : string }.

(** ** Caps and structures *)

Inductive GVal :=
| GInt (z : Z) | GUint (z : Z) | GInt64 (z : Z) | GUint64 (z : Z) | GBool (b : bool)
| GFloat (f : float) | GDouble (d : double) | GString (s : string)
| GFraction (num den : Z) | GFloatList (l : list float).

Record GstStructure := mkStructure { gs_name : string; gs_fields : list (string * GVal) }.
Definition GstCaps : Type := list GstStructure.

Fixpoint assoc {A} (k : string) (l : list (string * A)) : option A :=
  match l with
  | [] => None
  | (k', v) :: l' => if (k =? k')%string then Some v else assoc k l'
  end.

Definition gst_caps_get_structure (c : GstCaps) (i : nat) : option GstStructure := nth_error c i.
Definition gst_structure_get_value (s : GstStructure) (f : string) : option GVal := assoc f (gs_fields s).
Definition gst_structure_has_name (s : GstStructure) (n : string) : bool := (gs_name s =? n)%string.
Definition gst_structure_get_int (s : GstStructure) (f : string) : option Z :=
  match gst_structure_get_value s f with Some (GInt z) => Some z | _ => None end.
Definition gst_structure_get_boolean (s : GstStructure) (f : string) : option bool :=
  match gst_structure_get_value s f with Some (GBool b) => Some b | _ => None end.
Definition gst_structure_get_string (s : GstStructure) (f : string) : option string :=
  match gst_structure_get_value s f with Some (GString x) => Some x | _ => None end.
Definition gst_structure_get_fraction (s : GstStructure) (f : string) : option (Z * Z) :=
  match gst_structure_get_value s f with Some (GFraction n d) => Some (n, d) | _ => None end.
Definition gst_structure_get_clock_time (s : GstStructure) (f : string) : option Z :=
  match gst_structure_get_value s f with Some (GUint64 z) => Some z | _ => None end.
Definition g_value_get_int64 (v : option GVal) : Z := match v with Some (GInt64 z) => z | _ => 0 end.
Definition g_value_get_boolean (v : option GVal) : bool := match v with Some (GBool b) => b | _ => false end.
Definition g_value_list_float (v : option GVal) (i : nat) : float :=
  match v with Some (GFloatList l) => nth i l f_zero | _ => f_zero end.

(** ** Buffers and samples *)

(** A mapped buffer: presentation time, discontinuity flag, and the address and
    size of its memory ([gb_map] is whether mapping it succeeds). *)
Record GstBuffer := mkBuffer { gb_pts : Z; gb_discont : bool; gb_map : bool; gb_data : Z; gb_size : Z }.
Record GstSample := mkSample { sample_buffer : option GstBuffer; sample_caps : option GstCaps }.

(** ** Bus messages *)

(** A pointer of the environment: [None] is [NULL]. *)
Abbreviation ptr := (option nat).

Inductive GstMessage :=
| GST_MESSAGE_DURATION_CHANGED (format : GstFormat) (durationNanos : Z)
| GST_MESSAGE_EOS
| GST_MESSAGE_ERROR (error : option GError) (debug : option string) (timestamp : Z)
| GST_MESSAGE_WARNING (warning : option GError) (debug : option string)
| GST_MESSAGE_INFO (info : option GError) (debug : option string)
| GST_MESSAGE_STATE_CHANGED (src : ptr) (oldState newState pendingState : GstState)
| GST_MESSAGE_APPLICATION (str : GstStructure)
| GST_MESSAGE_ELEMENT (str : GstStructure)
| GST_MESSAGE_ASYNC_DONE
| GST_MESSAGE_LATENCY
| GST_MESSAGE_OTHER.

(** ** The element container *)

Inductive ElementRole :=
| PIPELINE | SOURCE | AUDIO_SOURCE | SOURCE_BUFFER | AUDIO_SOURCE_BUFFER | AUDIO_QUEUE
| AUDIO_PARSER | AUDIO_DECODER | AUDIO_BALANCE | AUDIO_EQUALIZER | AUDIO_SPECTRUM
| AUDIO_VOLUME | AUDIO_SINK | AV_DEMUXER | AUDIO_BIN | VIDEO_BIN | VIDEO_DECODER
| VIDEO_SINK | VIDEO_QUEUE.
#[export] Instance ElementRole_eq_dec : EqDecision ElementRole.
Proof. solve_decision. Defined.

Definition role_code (r : ElementRole) : nat :=
  match r with
  | PIPELINE => 0 | SOURCE => 1 | AUDIO_SOURCE => 2 | SOURCE_BUFFER => 3
  | AUDIO_SOURCE_BUFFER => 4 | AUDIO_QUEUE => 5 | AUDIO_PARSER => 6 | AUDIO_DECODER => 7
  | AUDIO_BALANCE => 8 | AUDIO_EQUALIZER => 9 | AUDIO_SPECTRUM => 10 | AUDIO_VOLUME => 11
  | AUDIO_SINK => 12 | AV_DEMUXER => 13 | AUDIO_BIN => 14 | VIDEO_BIN => 15
  | VIDEO_DECODER => 16 | VIDEO_SINK => 17 | VIDEO_QUEUE => 18
  end.
Definition all_roles : list ElementRole :=
  [PIPELINE; SOURCE; AUDIO_SOURCE; SOURCE_BUFFER; AUDIO_SOURCE_BUFFER; AUDIO_QUEUE;
   AUDIO_PARSER; AUDIO_DECODER; AUDIO_BALANCE; AUDIO_EQUALIZER; AUDIO_SPECTRUM;
   AUDIO_VOLUME; AUDIO_SINK; AV_DEMUXER; AUDIO_BIN; VIDEO_BIN; VIDEO_DECODER;
   VIDEO_SINK; VIDEO_QUEUE].
#[export] Instance ElementRole_countable : Countable ElementRole.
Proof.
  refine (inj_countable role_code (fun n => nth_error all_roles n) _).
  intros r; destruct r; reflexivity.
Defined.

Definition ElementsMap : Type := gmap ElementRole ptr.

(** [GstElementContainer::add] and [operator []]: a role that was never added
    reads as [NULL]. *)
Definition container_add (role : ElementRole) (element : ptr) (m : gmap ElementRole ptr)
  : gmap ElementRole ptr := <[role := element]> m.
Definition container_get (m : gmap ElementRole ptr) (role : ElementRole) : ptr :=
  match m !! role with Some e => e | None => None end.
Definition container_clear (m : gmap ElementRole ptr) : gmap ElementRole ptr := ∅.

(** ** Locks *)

Inductive Lock := DisposeLock | SeekLock | StallLock | StateLock.
#[export] Instance Lock_eq_dec : EqDecision Lock.
Proof. solve_decision. Defined.

(** ** Callbacks registered with signals, probes and sources *)

Inductive Callback :=
| OnParserSrcPadAdded_cb | on_pad_added_cb | no_more_pads_cb | queue_overrun_cb | queue_underrun_cb
| OnAppSinkHaveFrame_cb | OnAppSinkPreroll_cb | VideoDecoderSrcProbe_cb
| AudioSourcePadProbe_cb | AudioSinkPadProbe_cb | BusCallback_cb | OnBufferPadAdded_cb
| SourceReadNextBlock_cb | SourceReadBlock_cb | SourceCopyBlock_cb | SourceSeekData_cb
| SourceCloseConnection_cb | SourceProperty_cb.

Inductive LogLevel := LOGGER_DEBUG | LOGGER_WARNING | LOGGER_ERROR.

(** ** Iterators *)

(** One answer of [gst_iterator_next]: an element with the name of its factory,
    a request to resynchronise, or an error.  [gst_bin_iterate_elements] gives
    the answers up to the end of the iteration ([GST_ITERATOR_DONE]). *)
Inductive GstIteratorResult :=
| GST_ITERATOR_OK (element : ptr) (factory_name : string)
| GST_ITERATOR_RESYNC
| GST_ITERATOR_ERROR.

(** ** Colour conversion jobs *)

(** A call of one of the [ColorConvert_*] functions ([Utils/ColorConverter.h]):
    which conversion, the destination stride and size, and the addresses and
    strides of the source planes in the order of the arguments. *)
Record ConvertJob := mkConvertJob {
  cj_function : string;
  cj_dest_stride : Z;
  cj_width : Z;
  cj_height : Z;
  cj_planes : list Z;
  cj_strides : list Z
}.

(** ** External calls *)

Inductive ext : Type -> Type :=
(* critical sections *)
| lock_enter (l : Lock) : ext unit
| lock_exit (l : Lock) : ext unit
(* C++ heap: [new (nothrow)] may return NULL *)
| cxx_new (what : string) : ext bool
| cxx_delete (what : string) : ext unit
(* logger, media manager *)
| LOGGER_LOGMSG (level : LogLevel) (msg : string) : ext unit
| CMediaManager_GetInstance : ext ErrCode
| StartMainLoop : ext unit
(* element states *)
| gst_element_set_state (el : ptr) (s : GstState) : ext GstStateChangeReturn
| gst_element_get_state (el : ptr) : ext (GstStateChangeReturn * GstState * GstState)
| gst_element_sync_state_with_parent (el : ptr) : ext bool
(* seeking and queries *)
| gst_element_seek (el : ptr) (rate : float) (flags : Z) (start : Z) : ext bool
| gst_element_query_duration (el : ptr) : ext (option Z)
| gst_element_query_position (el : ptr) : ext (option Z)
(* properties *)
| g_object_set (el : ptr) (prop : string) (v : GVal) : ext unit
| g_object_get_boolean (el : ptr) (prop : string) : ext bool
| g_object_get_int (el : ptr) (prop : string) : ext Z
| g_object_get_uint (el : ptr) (prop : string) : ext Z
| g_object_get_int64 (el : ptr) (prop : string) : ext Z
| g_object_get_float (el : ptr) (prop : string) : ext float
| g_object_get_double (el : ptr) (prop : string) : ext double
(* construction *)
| gst_element_factory_make (factory : string) : ext ptr
| gst_bin_new : ext ptr
| gst_pipeline_new : ext ptr
| gst_bin_add (bin el : ptr) : ext bool
| gst_bin_add_many (bin : ptr) (els : list ptr) : ext unit
| gst_bin_remove (bin el : ptr) : ext unit
| gst_element_link (src dst : ptr) : ext bool
| gst_element_link_many (els : list ptr) : ext bool
| GST_IS_BIN (el : ptr) : ext bool
| gst_bin_iterate_elements (bin : ptr) : ext (list GstIteratorResult)
| gst_iterator_resync : ext unit
| gst_iterator_free : ext unit
| GST_ELEMENT_PARENT (el : ptr) : ext ptr
(* pads *)
| gst_element_get_static_pad (el : ptr) (name : string) : ext ptr
| gst_ghost_pad_new (name : option string) (target : ptr) : ext ptr
| gst_element_add_pad (el pad : ptr) : ext bool
| gst_pad_set_active (pad : ptr) (active : bool) : ext bool
| gst_pad_link (src sink : ptr) : ext GstPadLinkReturn
| gst_pad_get_current_caps (pad : ptr) : ext (option GstCaps)
| gst_pad_add_probe (pad : ptr) (cb : Callback) : ext Z
| gst_pad_remove_probe (pad : ptr) (id : Z) : ext unit
(* reference counts *)
| gst_object_ref (o : ptr) : ext unit
| gst_object_unref (o : ptr) : ext unit
| gst_caps_unref : ext unit
(* signals, bus and sources *)
| g_signal_connect (el : ptr) (signal : string) (cb : Callback) : ext unit
| g_signal_handlers_disconnect_by_func (el : ptr) (cb : Callback) : ext unit
| gst_pipeline_get_bus (el : ptr) : ext ptr
| gst_bus_create_watch (bus : ptr) : ext ptr
| g_source_set_callback (src : ptr) : ext unit
| g_source_attach (src : ptr) : ext Z
| g_source_destroy (src : ptr) : ext bool
| g_source_unref (src : ptr) : ext unit
| gst_element_post_application_message (el : ptr) (name : string) : ext unit
| gst_bus_post_error (bus src : ptr) (code : ErrCode) (msg : string) : ext unit
(* appsink *)
| gst_app_sink_pull_sample (el : ptr) : ext (option GstSample)
| gst_app_sink_pull_preroll (el : ptr) : ext (option GstSample)
| gst_sample_unref : ext unit
| gst_buffer_set_pts (pts : Z) : ext unit
(* frame conversion: [dest] tells the destination buffer from the source *)
| g_try_malloc (size : Z) : ext Z
| gst_buffer_new_wrapped (data size : Z) : ext unit
| gst_buffer_map (dest : bool) : ext bool
| gst_buffer_unmap (dest : bool) : ext unit
| gst_buffer_unref : ext unit
| gst_sample_new (caps : GstCaps) : ext bool
| ColorConvert (job : ConvertJob) : ext Z
| read_word (offset : Z) : ext Z
| write_word (offset value : Z) : ext unit
(* the Java stream behind a source; [audio] tells the separate audio stream *)
| CB_Property (audio : bool) (prop value : Z) : ext Z
| CB_IsRandomAccess (audio : bool) : ext bool
| CB_IsSeekable (audio : bool) : ext bool
| CB_NeedBuffer (audio : bool) : ext bool
| CB_ReadNextBlock (audio : bool) : ext Z
| CB_ReadBlock (audio : bool) (position size : Z) : ext Z
| CB_CopyBlock (audio : bool) (size : Z) : ext unit
| CB_Seek (audio : bool) (position : Z) : ext Z
| CB_CloseConnection (audio : bool) : ext unit
(* clock *)
| gst_element_provide_clock (el : ptr) : ext ptr
| gst_pipeline_set_clock (el clock : ptr) : ext unit
| gst_bin_recalculate_latency (el : ptr) : ext unit
| g_get_current_time : ext Z
(* the Java event dispatcher, [CPlayerEventDispatcher] *)
| SendPlayerMediaErrorEvent (code : ErrCode) : ext bool
| SendPlayerHaltEvent (msg : string) (time : double) : ext bool
| SendPlayerStateEvent (s : PlayerState) (presentTime : double) : ext bool
| SendNewFrameEvent (frame : CVideoFrame) : ext bool
| SendFrameSizeChangedEvent (width height : Z) : ext bool
| SendAudioTrackEvent (t : CAudioTrack) : ext bool
| SendVideoTrackEvent (t : CVideoTrack) : ext bool
| SendBufferProgressEvent (duration : double) (start stop position : Z) : ext bool
| SendDurationUpdateEvent (time : double) : ext bool
| SendAudioSpectrumEvent (time duration : double) (query : bool) : ext bool
| Warning (code : WarnCode) (msg : string) : ext unit
| UpdateBands (n : Z) (magnitudes phases : list float) : ext unit.

(** A call and its answer. *)
Inductive obs := Obs : forall R : Type, ext R -> R -> obs.
Global Arguments Obs {R} c r : rename.

(** ** Views of a trace *)

(** The lock operations of a trace: entering is [true]. *)
Definition lock_op (o : obs) : option (bool * Lock) :=
  match o with
  | Obs (lock_enter l) _ => Some (true, l)
  | Obs (lock_exit l) _ => Some (false, l)
  | _ => None
  end.

(** The player states announced to Java, in order. *)
Definition announced (o : obs) : option PlayerState :=
  match o with Obs (SendPlayerStateEvent s _) _ => Some s | _ => None end.
Definition announcements (t : list obs) : list PlayerState := omap announced t.

(** The state changes requested of GStreamer elements, in order. *)
Definition state_request (o : obs) : option (ptr * GstState) :=
  match o with Obs (gst_element_set_state el s) _ => Some (el, s) | _ => None end.
Definition state_requests (t : list obs) : list (ptr * GstState) := omap state_request t.

(** Whether some state change of the trace was refused by GStreamer. *)
Definition refused (o : obs) : bool :=
  match o with
  | Obs c r => match c in ext R return R -> bool with
               | gst_element_set_state _ _ => fun r => bool_decide (r = GST_STATE_CHANGE_FAILURE)
               | _ => fun _ => false
               end r
  end.

(** The media errors sent to Java, in order. *)
Definition media_error (o : obs) : option ErrCode :=
  match o with Obs (SendPlayerMediaErrorEvent e) _ => Some e | _ => None end.
Definition media_errors (t : list obs) : list ErrCode := omap media_error t.
