(* ===== verification/VideoFrame.v ===== *)
(** * Video frames

    [CVideoFrame] ([PipelineManagement/VideoFrame.cpp]) and [CGstVideoFrame]
    ([platform/gstreamer/GstVideoFrame.cpp]): the plane layout computed from a
    sample's caps, with the sources' overflow and bounds checks at their
    widths, and the conversions between formats. *)

From S2P Require Import Prelude CFloat MediaTypes GstApi.

Local Open Scope Z_scope.

Definition FOURCC_I420 := "I420"%string.
Definition FOURCC_UYVY := "UYVY"%string.

(** ** Base class *)

Definition arr_get (l : list Z) (i : nat) : Z := nth i l 0.

Definition Reset (f : CVideoFrame) : CVideoFrame :=
  f <| m_uiPlaneCount := 0 |>
    <| m_puiPlaneStrides := [0; 0; 0; 0] |>
    <| m_pulPlaneSize := [0; 0; 0; 0] |>
    <| m_pvPlaneData := [0; 0; 0; 0] |>.

(** The constructors of [CVideoFrame] and [CGstVideoFrame]. *)
Definition new_CGstVideoFrame : CVideoFrame :=
  Reset {| m_uiWidth := 0; m_uiHeight := 0; m_uiEncodedWidth := 0; m_uiEncodedHeight := 0;
           m_typeFrame := UNKNOWN; m_bHasAlpha := false; m_dTime := d_zero; m_FrameDirty := false;
           m_pvPlaneData := []; m_pulPlaneSize := []; m_puiPlaneStrides := []; m_uiPlaneCount := 0;
           m_bIsValid := false; gst_bHasAlpha := false; m_pSample := false; m_pBuffer := false;
           m_pvBufferBaseAddress := 0; m_ulBufferSize := 0; m_bIsI420 := false |}.

Definition SetPlaneCount (count : Z) (f : CVideoFrame) : CVideoFrame :=
  if count <=? MAX_PLANE_COUNT then f <| m_uiPlaneCount := count |>
  else f <| m_uiPlaneCount := MAX_PLANE_COUNT |>.

(** The accessors check the index against the array's size. *)
Definition GetDataForPlane (i : Z) (f : CVideoFrame) : Z :=
  if i <? MAX_PLANE_COUNT then arr_get (m_pvPlaneData f) (Z.to_nat i) else 0.
Definition GetSizeForPlane (i : Z) (f : CVideoFrame) : Z :=
  if i <? MAX_PLANE_COUNT then arr_get (m_pulPlaneSize f) (Z.to_nat i) else 0.
Definition GetStrideForPlane (i : Z) (f : CVideoFrame) : Z :=
  if i <? MAX_PLANE_COUNT then arr_get (m_puiPlaneStrides f) (Z.to_nat i) else 0.
Definition HasAlpha (f : CVideoFrame) : bool := m_bHasAlpha f.

Definition swap_at (l : list Z) (a b : nat) : list Z :=
  <[b := arr_get l a]> (<[a := arr_get l b]> l).

Definition SwapPlanes (aa bb : Z) (f : CVideoFrame) : CVideoFrame :=
  if negb (aa =? bb) && (aa <? m_uiPlaneCount f) && (bb <? m_uiPlaneCount f) then
    let a := Z.to_nat aa in let b := Z.to_nat bb in
    f <| m_puiPlaneStrides := swap_at (m_puiPlaneStrides f) a b |>
      <| m_pulPlaneSize := swap_at (m_pulPlaneSize f) a b |>
      <| m_pvPlaneData := swap_at (m_pvPlaneData f) a b |>
  else f.

(** [CalcSize], [AddSize] and [CalcPlanePointer] return their result and the
    new value of [*pbValid]. *)
Definition CalcSize (a b : Z) (valid : bool) : Z * bool :=
  if negb valid then (0, valid)
  else if (0 <? b) && (a <=? UINT_MAX / b) then (u32 (a * b), valid)
  else (0, false).

Definition AddSize (a b : Z) (valid : bool) : Z * bool :=
  if negb valid then (0, valid)
  else if (a <=? UINT_MAX) && (b <=? UINT_MAX) && (a <=? UINT_MAX - b) then (a + b, valid)
  else (0, false).

Definition CalcPlanePointer (baseAddress offset planeSize baseSize : Z) (valid : bool) : Z * bool :=
  if negb valid then (0, valid)
  else
    let '(endOfPlane, valid) := AddSize offset planeSize valid in
    if valid && (endOfPlane <=? baseSize) then (baseAddress + offset, valid)
    else (0, false).

(** ** Frame caps *)

Definition ascii_lower (c : Ascii.ascii) : Ascii.ascii :=
  let n := Ascii.nat_of_ascii c in
  if (Nat.leb 65 n && Nat.leb n 90)%bool then Ascii.ascii_of_nat (n + 32) else c.
(** [g_ascii_strcasecmp(a, b) == 0]. *)
Fixpoint strcasecmp_eq (a b : string) : bool :=
  match a, b with
  | EmptyString, EmptyString => true
  | String x a', String y b' =>
      if Ascii.ascii_dec (ascii_lower x) (ascii_lower y) then strcasecmp_eq a' b' else false
  | _, _ => false
  end.
Definition fourcc_is (fourcc : option string) (name : string) : bool :=
  match fourcc with Some s => strcasecmp_eq s name | None => false end.

(** [if (!gst_structure_get_int(str, field, (int* ) &x)) x = d]. *)
Definition get_uint (str : GstStructure) (field : string) (d : Z) : Z :=
  match gst_structure_get_int str field with Some z => u32 z | None => d end.

(** The format part of [SetFrameCaps]; [false] means the caller returns. *)
Definition set_format (str : GstStructure) (f : CVideoFrame) : CVideoFrame * bool :=
  let fourcc := gst_structure_get_string str "format" in
  let f := f <| m_bIsValid := true |> in
  if gst_structure_has_name str "video/x-raw-yvua420p" then
    (f <| m_typeFrame := YCbCr_420p |> <| gst_bHasAlpha := true |>, true)
  else if gst_structure_has_name str "video/x-raw-ycbcr422" then
    (f <| m_typeFrame := YCbCr_422 |> <| gst_bHasAlpha := false |>, true)
  else if gst_structure_has_name str "video/x-raw-yuv" then
    let f := if fourcc_is fourcc FOURCC_UYVY then f <| m_typeFrame := YCbCr_422 |>
             else (if fourcc_is fourcc FOURCC_I420 then f <| m_bIsI420 := true |> else f)
                    <| m_typeFrame := YCbCr_420p |> in
    (f <| gst_bHasAlpha := false |>, true)
  else if gst_structure_has_name str "video/x-raw-rgb" then
    match gst_structure_get_int str "red_mask", gst_structure_get_int str "green_mask",
          gst_structure_get_int str "blue_mask" with
    | Some red_mask, Some green_mask, Some blue_mask =>
        if (red_mask =? 0x00ff0000) || (green_mask =? 0x0000ff00) || (blue_mask =? 0x000000ff) then
          (f <| m_typeFrame := ARGB |> <| gst_bHasAlpha := true |>, true)
        else if (red_mask =? 0x0000ff00) || (green_mask =? 0x00ff0000)
                || (u32 blue_mask =? 0xff000000) then
          (f <| m_typeFrame := BGRA_PRE |> <| gst_bHasAlpha := true |>, true)
        else (f <| m_bIsValid := false |>, false)
    | _, _, _ => (f <| m_bIsValid := false |>, false)
    end
  else
    (f <| m_typeFrame := UNKNOWN |> <| gst_bHasAlpha := false |> <| m_bIsValid := false |>, true).

(** The dimensions part of [SetFrameCaps]. *)
Definition set_dimensions (str : GstStructure) (f : CVideoFrame) : CVideoFrame :=
  let f := match gst_structure_get_int str "width" with
           | Some z => f <| m_uiWidth := u32 z |>
           | None => f <| m_uiWidth := 0 |> <| m_bIsValid := false |> end in
  let f := match gst_structure_get_int str "height" with
           | Some z => f <| m_uiHeight := u32 z |>
           | None => f <| m_uiHeight := 0 |> <| m_bIsValid := false |> end in
  let f := f <| m_uiEncodedWidth := get_uint str "encoded-width" (m_uiWidth f) |> in
  f <| m_uiEncodedHeight := get_uint str "encoded-height" (m_uiHeight f) |>.

Definition set_stride (i : nat) (v : Z) (f : CVideoFrame) : CVideoFrame :=
  f <| m_puiPlaneStrides := <[i := v]> (m_puiPlaneStrides f) |>.

(** Sizes plane [i] as its stride times [rows] and locates it at [offset]. *)
Definition place_plane (i : nat) (offset rows : Z) (f : CVideoFrame) : CVideoFrame :=
  let '(size, valid) := CalcSize (arr_get (m_puiPlaneStrides f) i) rows (m_bIsValid f) in
  let f := f <| m_bIsValid := valid |> <| m_pulPlaneSize := <[i := size]> (m_pulPlaneSize f) |> in
  let '(data, valid) :=
    CalcPlanePointer (m_pvBufferBaseAddress f) offset size (m_ulBufferSize f) (m_bIsValid f) in
  f <| m_bIsValid := valid |> <| m_pvPlaneData := <[i := data]> (m_pvPlaneData f) |>.

(** The strides of the three colour planes. *)
Definition with_strides (str : GstStructure) (f : CVideoFrame) : CVideoFrame :=
  let f := set_stride 0 (get_uint str "stride-y" (m_uiEncodedWidth f)) f in
  let f := set_stride 1 (get_uint str "stride-v" (m_uiEncodedWidth f / 2)) f in
  set_stride 2 (get_uint str "stride-u" (arr_get (m_puiPlaneStrides f) 1)) f.

(** The three colour planes, in YV12 order, with the last offset used. *)
Definition layout_colour (str : GstStructure) (f : CVideoFrame) : CVideoFrame * Z :=
  let size f i := arr_get (m_pulPlaneSize f) i in
  let offset := get_uint str "offset-y" 0 in
  let f := place_plane 0 offset (m_uiEncodedHeight f) f in
  let offset := get_uint str "offset-v" (u32 (offset + size f 0%nat)) in
  let f := place_plane 1 offset (m_uiEncodedHeight f / 2) f in
  let offset := get_uint str "offset-u" (u32 (offset + size f 1%nat)) in
  (place_plane 2 offset (m_uiEncodedHeight f / 2) f, offset).

(** The alpha plane. *)
Definition layout_alpha (str : GstStructure) (offset : Z) (f : CVideoFrame) : CVideoFrame :=
  let f := SetPlaneCount (u32 (m_uiPlaneCount f + 1)) f in
  let f := set_stride 3 (get_uint str "stride-a" (arr_get (m_puiPlaneStrides f) 0)) f in
  let offset := get_uint str "offset-a" (u32 (offset + arr_get (m_pulPlaneSize f) 2)) in
  place_plane 3 offset (m_uiEncodedHeight f) f.

(** The three or four planes of a 4:2:0 frame. *)
Definition layout_420p (str : GstStructure) (f : CVideoFrame) : CVideoFrame :=
  let '(f, offset) := layout_colour str (with_strides str (SetPlaneCount 3 f)) in
  let f := if gst_bHasAlpha f then layout_alpha str offset f else f in
  if m_bIsI420 f then SwapPlanes 1 2 f else f.

(** The single plane of the other formats. *)
Definition layout_packed (str : GstStructure) (f : CVideoFrame) : CVideoFrame :=
  let f := SetPlaneCount 1 f in
  let bpp := if bool_decide (m_typeFrame f = YCbCr_422) then 2 else 4 in
  let f := set_stride 0 (get_uint str "line_stride" (u32 (m_uiEncodedWidth f * bpp))) f in
  place_plane 0 0 (m_uiEncodedHeight f) f.

Definition SetFrameCaps (str : GstStructure) (f : CVideoFrame) : CVideoFrame :=
  let '(f, continue) := set_format str f in
  if negb continue then f
  else
    let f := Reset (set_dimensions str f) in
    match m_typeFrame f with
    | YCbCr_420p => layout_420p str f
    | _ => layout_packed str f
    end.

(** [unsigned long] is 32 bits wide on Windows. *)
Definition ulong (p : Platform) (z : Z) : Z :=
  match p with TargetWin32 => u32 z | _ => u64 z end.

(** [CGstVideoFrame::Init]: the result and the frame.  Caps have a structure
    when they are present. *)
Definition Init (p : Platform) (sample : GstSample) (f : CVideoFrame) : bool * CVideoFrame :=
  let f := f <| m_pSample := true |> in
  match sample_buffer sample with
  | None => (false, f <| m_pBuffer := false |>)
  | Some b =>
      if negb (gb_map b) then (false, f <| m_pBuffer := false |>)
      else
        let f := f <| m_pBuffer := true |> <| m_ulBufferSize := ulong p (gb_size b) |>
                   <| m_pvBufferBaseAddress := gb_data b |> in
        let f := if gb_pts b =? GST_CLOCK_TIME_NONE
                 then f <| m_dTime := d_zero |> <| m_bIsValid := false |>
                 else f <| m_dTime := ddiv (Z_to_double (gb_pts b)) (Z_to_double GST_SECOND) |> in
        match sample_caps sample with
        | Some (str :: _) => (true, SetFrameCaps str f)
        | _ => (false, f)
        end
  end.

Definition IsValid (f : CVideoFrame) : bool := m_bIsValid f.

(** [Dispose] drops the mapped buffer and the sample: the frame, and whether
    the buffer was unmapped and the sample released. *)
Definition Dispose (f : CVideoFrame) : CVideoFrame * (bool * bool) :=
  (f <| m_pBuffer := false |> <| m_pSample := false |>, (m_pBuffer f, m_pSample f)).

(** ** The plane calculations *)

Lemma CalcSize_valid a b v n :
  0 <= a -> CalcSize a b v = (n, true) -> v = true /\ 0 < b /\ n = a * b /\ 0 <= n <= UINT_MAX.
Proof.
  unfold CalcSize. intros Ha H. destruct v; cbn [negb] in H; [|congruence].
  destruct (_ && _) eqn:Hg; [|congruence]. bools.
  pose proof (div_guard _ _ _ H0 H1) as Hm.
  assert (Hu : u32 (a * b) = a * b) by (apply u32_small; unfold is_u32, UINT_MAX in *; nia).
  simplify_eq. rewrite Hu. split_and!; [reflexivity | assumption | reflexivity | nia | assumption].
Qed.

(** The size is refused only if it does not fit 32 bits or there are no rows. *)
Lemma CalcSize_complete a b : 0 <= a -> 0 < b -> a * b <= UINT_MAX -> CalcSize a b true = (a * b, true).
Proof.
  intros Ha Hb H. unfold CalcSize. cbn [negb].
  rewrite (proj2 (Z.ltb_lt _ _) Hb), (proj2 (Z.leb_le _ _)) by (apply Z.div_le_lower_bound; lia).
  cbn [andb]. rewrite u32_small; [reflexivity|]. unfold is_u32, UINT_MAX in *. nia.
Qed.

Lemma CalcPlanePointer_valid base off size total v p :
  CalcPlanePointer base off size total v = (p, true) ->
  v = true /\ p = base + off /\ off + size <= total.
Proof.
  unfold CalcPlanePointer, AddSize. destruct v; cbn [negb]; [|congruence].
  destruct (_ && (off <=? _)) eqn:Hg; cbn [andb]; [|congruence].
  split_if; [|congruence]. intros; simplify_eq. bools. split_and!; [reflexivity..|assumption].
Qed.

Lemma CalcPlanePointer_complete base off size total :
  0 <= off -> 0 <= size -> off + size <= total -> off + size <= UINT_MAX ->
  CalcPlanePointer base off size total true = (base + off, true).
Proof.
  intros. unfold CalcPlanePointer, AddSize. cbn [negb].
  rewrite !(proj2 (Z.leb_le _ _)) by lia. cbn [andb]. rewrite (proj2 (Z.leb_le _ _)) by lia. reflexivity.
Qed.

(** ** Where the planes are *)

(** Plane [i] lies inside the mapped buffer and its size is its stride times
    [rows]. *)
Definition plane_inside (f : CVideoFrame) (i : nat) (rows : Z) : Prop :=
  let data := arr_get (m_pvPlaneData f) i in
  let size := arr_get (m_pulPlaneSize f) i in
  0 <= size /\ size = arr_get (m_puiPlaneStrides f) i * rows /\
  m_pvBufferBaseAddress f <= data /\ data + size <= m_pvBufferBaseAddress f + m_ulBufferSize f.

(** The arrays have their C++ length, and the strides are unsigned. *)
Definition arrays_ok (f : CVideoFrame) : Prop :=
  List.length (m_pvPlaneData f) = 4%nat /\ List.length (m_pulPlaneSize f) = 4%nat /\
  List.length (m_puiPlaneStrides f) = 4%nat /\
  Forall (fun s => 0 <= s) (m_puiPlaneStrides f).

Lemma arr_get_insert_eq l i v : (i < List.length l)%nat -> arr_get (<[i := v]> l) i = v.
Proof.
  intros Hi. unfold arr_get. rewrite nth_lookup, list_lookup_insert_eq by exact Hi. reflexivity.
Qed.

Lemma arr_get_insert_ne l i j v : i <> j -> arr_get (<[i := v]> l) j = arr_get l j.
Proof. intros Hi. unfold arr_get. rewrite !nth_lookup, list_lookup_insert_ne by exact Hi. reflexivity. Qed.

Lemma arr_get_nonneg l i : Forall (fun s => 0 <= s) l -> 0 <= arr_get l i.
Proof.
  intros Hl. unfold arr_get. rewrite nth_lookup. destruct (l !! i) eqn:E; cbn; [|lia].
  rewrite Forall_lookup in Hl. exact (Hl _ _ E).
Qed.

Lemma get_uint_range str fld d : is_u32 d -> is_u32 (get_uint str fld d).
Proof. unfold get_uint. case_match; auto using u32_range. Qed.

Section Placing.
Variables (i : nat) (offset rows : Z) (f : CVideoFrame).
Hypotheses (Hi : (i < 4)%nat) (Ho : 0 <= offset) (Hf : arrays_ok f).
Let f' := place_plane i offset rows f.

Lemma place_plane_frame :
  m_uiPlaneCount f' = m_uiPlaneCount f /\ m_puiPlaneStrides f' = m_puiPlaneStrides f /\
  m_pvBufferBaseAddress f' = m_pvBufferBaseAddress f /\ m_ulBufferSize f' = m_ulBufferSize f /\
  m_uiEncodedHeight f' = m_uiEncodedHeight f /\ m_uiEncodedWidth f' = m_uiEncodedWidth f /\
  gst_bHasAlpha f' = gst_bHasAlpha f /\ m_bIsI420 f' = m_bIsI420 f /\ arrays_ok f' /\
  (forall j, j <> i -> arr_get (m_pvPlaneData f') j = arr_get (m_pvPlaneData f) j /\
                       arr_get (m_pulPlaneSize f') j = arr_get (m_pulPlaneSize f) j).
Proof.
  subst f'. unfold place_plane. repeat case_match.
  destruct Hf as (H1 & H2 & H3 & H4).
  split_and!; try reflexivity; [|intros j Hj; split; simpl_set; apply arr_get_insert_ne; congruence].
  split_and!; simpl_set; rewrite ?length_insert; assumption.
Qed.

Lemma place_plane_valid :
  m_bIsValid f' = true -> m_bIsValid f = true /\ plane_inside f' i rows.
Proof.
  subst f'. unfold place_plane.
  destruct (CalcSize _ _ _) as [size v1] eqn:E1. simpl_set.
  destruct (CalcPlanePointer _ _ _ _ _) as [data v2] eqn:E2. simpl_set. intros ->.
  apply CalcPlanePointer_valid in E2 as (-> & -> & Hend).
  destruct Hf as (H1 & H2 & H3 & H4).
  apply CalcSize_valid in E1 as (-> & Hr & -> & Hs); [|apply arr_get_nonneg, H4].
  split; [reflexivity|]. unfold plane_inside. simpl_set.
  rewrite !arr_get_insert_eq by lia. split_and!; [tauto | reflexivity | lia | lia].
Qed.
End Placing.

(** The rows of plane [i]: the chroma planes of a 4:2:0 frame have half of
    them. *)
Definition plane_rows (f : CVideoFrame) (i : nat) : Z :=
  if bool_decide (m_typeFrame f = YCbCr_420p) && (Nat.eqb i 1 || Nat.eqb i 2)
  then m_uiEncodedHeight f / 2 else m_uiEncodedHeight f.

Definition planes_inside (f : CVideoFrame) : Prop :=
  forall i, (i < Z.to_nat (m_uiPlaneCount f))%nat -> plane_inside f i (plane_rows f i).

(** What [plane_inside] depends on. *)
Lemma plane_inside_ext f f' i rows :
  arr_get (m_pvPlaneData f') i = arr_get (m_pvPlaneData f) i ->
  arr_get (m_pulPlaneSize f') i = arr_get (m_pulPlaneSize f) i ->
  arr_get (m_puiPlaneStrides f') i = arr_get (m_puiPlaneStrides f) i ->
  m_pvBufferBaseAddress f' = m_pvBufferBaseAddress f -> m_ulBufferSize f' = m_ulBufferSize f ->
  plane_inside f i rows -> plane_inside f' i rows.
Proof. unfold plane_inside. intros -> -> -> -> ->. tauto. Qed.

(** Placing another plane keeps the ones already inside. *)
Lemma place_plane_keeps i offset rows f j r :
  (i < 4)%nat -> arrays_ok f -> j <> i -> plane_inside f j r -> plane_inside (place_plane i offset rows f) j r.
Proof.
  intros Hi Hf Hj. destruct (place_plane_frame i offset rows f Hf)
    as (_ & H1 & H2 & H3 & _ & _ & _ & _ & _ & H4).
  destruct (H4 j Hj). apply plane_inside_ext; congruence.
Qed.

Lemma set_stride_ok i v f : 0 <= v -> arrays_ok f -> arrays_ok (set_stride i v f).
Proof.
  intros Hv (H1 & H2 & H3 & H4). split_and!; unfold set_stride; simpl_set; rewrite ?length_insert; auto.
  apply Forall_insert; assumption.
Qed.

Lemma SwapPlanes_inside f :
  arrays_ok f -> m_typeFrame f = YCbCr_420p -> planes_inside f -> planes_inside (SwapPlanes 1 2 f).
Proof.
  intros (H1 & H2 & H3 & _) Ht Hp. unfold SwapPlanes. split_if; [|exact Hp]. bools.
  intros i Hi. simpl_set. change (Z.to_nat 1) with 1%nat. change (Z.to_nat 2) with 2%nat.
  assert (P1 := Hp 1%nat ltac:(lia)). assert (P2 := Hp 2%nat ltac:(lia)).
  assert (Pi := Hp i Hi). revert P1 P2 Pi. unfold plane_inside, plane_rows, swap_at. simpl_set.
  rewrite Ht. intros P1 P2 Pi.
  destruct (decide (i = 2%nat)) as [->|]; [rewrite !arr_get_insert_eq by (rewrite ?length_insert; lia); exact P1|].
  rewrite !(arr_get_insert_ne _ 2 i) by congruence.
  destruct (decide (i = 1%nat)) as [->|]; [rewrite !arr_get_insert_eq by lia; exact P2|].
  rewrite !(arr_get_insert_ne _ 1 i) by congruence. exact Pi.
Qed.

(** Three planes placed one after the other. *)
Lemma place_three o0 o1 o2 r0 r1 r2 f :
  0 <= o0 -> 0 <= o1 -> 0 <= o2 -> arrays_ok f ->
  let f3 := place_plane 2 o2 r2 (place_plane 1 o1 r1 (place_plane 0 o0 r0 f)) in
  m_bIsValid f3 = true ->
  m_bIsValid f = true /\ plane_inside f3 0 r0 /\ plane_inside f3 1 r1 /\ plane_inside f3 2 r2.
Proof.
  intros H0 H1 H2 Hf f3 Hv. subst f3.
  pose proof (place_plane_frame 0 o0 r0 f Hf) as F0. set (f1 := place_plane 0 o0 r0 f) in *.
  destruct F0 as (_ & _ & _ & _ & _ & _ & _ & _ & A1 & _).
  pose proof (place_plane_frame 1 o1 r1 f1 A1) as F1. set (f2 := place_plane 1 o1 r1 f1) in *.
  destruct F1 as (_ & _ & _ & _ & _ & _ & _ & _ & A2 & _).
  apply place_plane_valid in Hv as [V2 I2]; [|lia..|exact A2].
  apply place_plane_valid in V2 as [V1 I1]; [|lia..|exact A1].
  apply place_plane_valid in V1 as [V0 I0]; [|lia..|exact Hf].
  split_and!; [exact V0 | | | exact I2]; repeat (apply place_plane_keeps; [lia | auto | lia |]); assumption.
Qed.

Lemma SetPlaneCount_frame n f :
  arrays_ok f -> arrays_ok (SetPlaneCount n f) /\ m_bIsValid (SetPlaneCount n f) = m_bIsValid f.
Proof. intros Hf. unfold SetPlaneCount. split_if; (split; [exact Hf | reflexivity]). Qed.

Ltac get_uint_nonneg :=
  refine (proj1 (get_uint_range _ _ _ _)); first [apply u32_range | unfold is_u32, two_p32; lia].

Lemma half_u32 z : is_u32 z -> is_u32 (z / 2).
Proof.
  unfold is_u32, two_p32. intros H.
  pose proof (Z.div_pos z 2 ltac:(lia) ltac:(lia)).
  pose proof (Z.div_le_upper_bound z 2 4294967295 ltac:(lia) ltac:(lia)). lia.
Qed.

Lemma with_strides_ok str f :
  arrays_ok f -> is_u32 (m_uiEncodedWidth f) -> arrays_ok (with_strides str f).
Proof.
  intros Hf Hw. unfold with_strides. cbv zeta.
  assert (H0 : arrays_ok (set_stride 0 (get_uint str "stride-y" (m_uiEncodedWidth f)) f))
    by (apply set_stride_ok; [apply get_uint_range, Hw | exact Hf]).
  set (g := set_stride 0 _ f) in *. change (m_uiEncodedWidth g) with (m_uiEncodedWidth f).
  assert (Hv := get_uint_range str "stride-v" _ (half_u32 _ Hw)).
  apply set_stride_ok; [apply get_uint_range | apply set_stride_ok; [apply Hv | exact H0]].
  unfold set_stride. simpl_set. rewrite arr_get_insert_eq; [exact Hv|]. destruct H0 as (_ & _ & -> & _). lia.
Qed.

(** The geometry a layout step keeps. *)
Definition geometry (f : CVideoFrame) :=
  (m_uiPlaneCount f, m_typeFrame f, m_uiEncodedHeight f, gst_bHasAlpha f, m_bIsI420 f).

Lemma place_plane_geometry i offset rows f : geometry (place_plane i offset rows f) = geometry f.
Proof. unfold place_plane. repeat case_match. reflexivity. Qed.

Lemma place_plane_arrays i offset rows f : arrays_ok f -> arrays_ok (place_plane i offset rows f).
Proof. intros Hf. apply (place_plane_frame i offset rows f Hf). Qed.

Lemma place_plane_height i offset rows f :
  m_uiEncodedHeight (place_plane i offset rows f) = m_uiEncodedHeight f.
Proof. unfold place_plane. repeat case_match. reflexivity. Qed.

Lemma layout_colour_inside str f :
  arrays_ok f ->
  let g := fst (layout_colour str f) in
  arrays_ok g /\ geometry g = geometry f /\
  (m_bIsValid g = true ->
   m_bIsValid f = true /\ plane_inside g 0 (m_uiEncodedHeight f) /\
   plane_inside g 1 (m_uiEncodedHeight f / 2) /\ plane_inside g 2 (m_uiEncodedHeight f / 2)).
Proof.
  intros Hf. unfold layout_colour. cbv zeta. cbn [fst].
  rewrite !place_plane_height, !place_plane_geometry.
  split_and!; [repeat apply place_plane_arrays; exact Hf | reflexivity |].
  intros Hv. apply place_three in Hv; [exact Hv | get_uint_nonneg .. | exact Hf].
Qed.

Lemma layout_alpha_inside str offset f :
  arrays_ok f -> is_u32 (arr_get (m_puiPlaneStrides f) 0) -> m_uiPlaneCount f = 3 ->
  let g := layout_alpha str offset f in
  arrays_ok g /\ geometry g = (4, m_typeFrame f, m_uiEncodedHeight f, gst_bHasAlpha f, m_bIsI420 f) /\
  (m_bIsValid g = true ->
   m_bIsValid f = true /\ plane_inside g 3 (m_uiEncodedHeight f) /\
   forall j r, (j < 3)%nat -> plane_inside f j r -> plane_inside g j r).
Proof.
  intros Hf Hs Hc. unfold layout_alpha. cbv zeta. rewrite Hc. set (f4 := SetPlaneCount _ f).
  set (g := set_stride 3 _ f4).
  assert (Hg : arrays_ok g) by (apply set_stride_ok; [apply get_uint_range, Hs | exact Hf]).
  split_and!; [apply place_plane_arrays, Hg | rewrite place_plane_geometry; reflexivity |].
  intros Hv. apply place_plane_valid in Hv as [V I]; [|lia|get_uint_nonneg|exact Hg].
  split_and!; [exact V | exact I |]. intros j r Hj Hi.
  apply place_plane_keeps; [lia | exact Hg | lia |].
  revert Hi. apply plane_inside_ext; try reflexivity. apply arr_get_insert_ne. lia.
Qed.

Lemma with_strides_stride0 str f :
  arrays_ok f -> arr_get (m_puiPlaneStrides (with_strides str f)) 0 = get_uint str "stride-y" (m_uiEncodedWidth f).
Proof.
  intros (_ & _ & H3 & _). unfold with_strides, set_stride. cbv zeta. simpl_set.
  rewrite !arr_get_insert_ne by lia. apply arr_get_insert_eq. lia.
Qed.

Lemma layout_colour_strides str f :
  m_puiPlaneStrides (fst (layout_colour str f)) = m_puiPlaneStrides f.
Proof. unfold layout_colour, place_plane. cbv zeta. cbn [fst]. repeat case_match. reflexivity. Qed.

(** The three colour planes and the alpha plane of a valid frame. *)
Lemma layout_420p_inside str f :
  arrays_ok f -> is_u32 (m_uiEncodedWidth f) -> m_typeFrame f = YCbCr_420p ->
  m_bIsValid (layout_420p str f) = true -> planes_inside (layout_420p str f).
Proof.
  intros Hf Hw Ht. unfold layout_420p. set (g := with_strides str _).
  assert (Ag : arrays_ok g) by (apply with_strides_ok; [exact Hf | exact Hw]).
  assert (Hg : geometry g = (3, YCbCr_420p, m_uiEncodedHeight f, gst_bHasAlpha f, m_bIsI420 f))
    by (rewrite <- Ht; reflexivity).
  assert (Sg : is_u32 (arr_get (m_puiPlaneStrides g) 0))
    by (subst g; rewrite with_strides_stride0 by exact Hf; apply get_uint_range, Hw).
  clearbody g. destruct (layout_colour str g) as [c offset] eqn:Ec.
  assert (Hc := layout_colour_inside str g Ag). rewrite Ec in Hc. cbn [fst] in Hc.
  assert (Sc := layout_colour_strides str g). rewrite Ec in Sc. cbn [fst] in Sc.
  destruct Hc as (Ac & Gc & Pc). rewrite Hg in Gc. unfold geometry in Gc, Hg. simplify_eq.
  set (d := if gst_bHasAlpha c then _ else _).
  assert (Hd : arrays_ok d /\ m_typeFrame d = YCbCr_420p /\ (m_bIsValid d = true -> planes_inside d)).
  { subst d. destruct (gst_bHasAlpha c) eqn:Ea.
    - destruct (layout_alpha_inside str offset c Ac ltac:(rewrite Sc; exact Sg) ltac:(congruence))
        as (Ad & Gd & Pd).
      set (d := layout_alpha str offset c) in *. unfold geometry in Gd. simplify_eq.
      split_and!; [exact Ad | congruence |]. intros Hv. destruct (Pd Hv) as (Vc & I3 & Keep).
      destruct (Pc Vc) as (_ & I0 & I1 & I2). intros i Hi.
      assert (i = 0 \/ i = 1 \/ i = 2 \/ i = 3)%nat as [->|[->|[->| ->]]] by lia;
        unfold plane_rows; rewrite bool_decide_eq_true_2 by congruence; cbn [Nat.eqb orb andb];
        [apply Keep; [lia|] .. |]; congruence.
    - split_and!; [exact Ac | congruence |]. intros Hv. destruct (Pc Hv) as (_ & I0 & I1 & I2). intros i Hi.
      assert (i = 0 \/ i = 1 \/ i = 2)%nat as [->|[->| ->]] by lia;
        unfold plane_rows; rewrite bool_decide_eq_true_2 by congruence; cbn [Nat.eqb orb andb]; congruence. }
  clearbody d. destruct Hd as (Ad & Td & Pd). destruct (m_bIsI420 d).
  - intros Hv. apply SwapPlanes_inside; [exact Ad | exact Td | apply Pd].
    revert Hv. unfold SwapPlanes. split_if; auto.
  - exact Pd.
Qed.

Lemma layout_packed_inside str f :
  arrays_ok f -> m_typeFrame f <> YCbCr_420p ->
  m_bIsValid (layout_packed str f) = true -> planes_inside (layout_packed str f).
Proof.
  intros Hf Ht. unfold layout_packed. cbv zeta.
  set (g := set_stride 0 _ _).
  assert (Ag : arrays_ok g) by (apply set_stride_ok; [get_uint_nonneg | exact Hf]).
  intros Hv. apply place_plane_valid in Hv as [_ I]; [|lia..|exact Ag].
  assert (Hg := place_plane_geometry 0 0 (m_uiEncodedHeight g) g).
  intros i Hi. unfold geometry in Hg. simplify_eq. set (d := place_plane 0 0 _ g) in *.
  assert (Hn : m_uiPlaneCount d = 1) by (subst d; unfold place_plane; repeat case_match; reflexivity).
  assert (i = 0%nat) as -> by lia. unfold plane_rows.
  rewrite andb_false_r. congruence.
Qed.

Lemma Reset_arrays f : arrays_ok (Reset f).
Proof. split_and!; [reflexivity .. | repeat constructor; lia]. Qed.

Lemma set_dimensions_width str f : is_u32 (m_uiEncodedWidth (set_dimensions str f)).
Proof.
  unfold set_dimensions. destruct (gst_structure_get_int str "width"); simpl_set;
    destruct (gst_structure_get_int str "height"); simpl_set;
    (apply get_uint_range; first [apply u32_range | split; reflexivity || discriminate]).
Qed.

Lemma SetFrameCaps_inside str f :
  m_bIsValid (SetFrameCaps str f) = true -> planes_inside (SetFrameCaps str f).
Proof.
  unfold SetFrameCaps. destruct (set_format str f) as [g []] eqn:E; cbn [negb].
  - set (h := Reset _). assert (Ah : arrays_ok h) by apply Reset_arrays.
    assert (Hw : is_u32 (m_uiEncodedWidth h)) by apply set_dimensions_width. clearbody h.
    destruct (m_typeFrame h) eqn:T; first [apply layout_420p_inside; assumption
                                          | apply layout_packed_inside; [assumption | congruence]].
  - unfold set_format in E. repeat case_match; simplify_eq; discriminate.
Qed.

(** The mapped buffer and the time, which the layout never changes. *)
Definition mapped (f : CVideoFrame) : Z * Z * double := (m_pvBufferBaseAddress f, m_ulBufferSize f, m_dTime f).

(** The time of a frame made from a buffer. *)
Definition buffer_time (b : GstBuffer) : double :=
  if gb_pts b =? GST_CLOCK_TIME_NONE then d_zero
  else ddiv (Z_to_double (gb_pts b)) (Z_to_double GST_SECOND).

Lemma set_format_mapped str f : mapped (fst (set_format str f)) = mapped f.
Proof. unfold set_format. repeat case_match; reflexivity. Qed.
Lemma place_plane_mapped i o r f : mapped (place_plane i o r f) = mapped f.
Proof. unfold place_plane. repeat case_match. reflexivity. Qed.
Lemma SetPlaneCount_mapped n f : mapped (SetPlaneCount n f) = mapped f.
Proof. unfold SetPlaneCount. split_if; reflexivity. Qed.
Lemma SwapPlanes_mapped a b f : mapped (SwapPlanes a b f) = mapped f.
Proof. unfold SwapPlanes. split_if; reflexivity. Qed.
Lemma set_dimensions_mapped str f : mapped (set_dimensions str f) = mapped f.
Proof. unfold set_dimensions. repeat case_match; reflexivity. Qed.
Lemma layout_colour_mapped str f : mapped (fst (layout_colour str f)) = mapped f.
Proof. unfold layout_colour. cbv zeta. cbn [fst]. rewrite !place_plane_mapped. reflexivity. Qed.
Lemma layout_alpha_mapped str o f : mapped (layout_alpha str o f) = mapped f.
Proof. unfold layout_alpha. cbv zeta. rewrite place_plane_mapped. apply SetPlaneCount_mapped. Qed.

Lemma layout_420p_mapped str f : mapped (layout_420p str f) = mapped f.
Proof.
  unfold layout_420p. destruct (layout_colour _ _) as [c o] eqn:E.
  assert (Hc := layout_colour_mapped str (with_strides str (SetPlaneCount 3 f))). rewrite E in Hc.
  cbn [fst] in Hc. repeat split_if; rewrite ?SwapPlanes_mapped, ?layout_alpha_mapped; exact Hc.
Qed.

Lemma SetFrameCaps_mapped str f : mapped (SetFrameCaps str f) = mapped f.
Proof.
  rewrite <- (set_format_mapped str f). unfold SetFrameCaps.
  destruct (set_format str f) as [g []]; cbn [negb fst]; [|reflexivity].
  rewrite <- (set_dimensions_mapped str g). change (mapped (set_dimensions str g)) with (mapped (Reset (set_dimensions str g))).
  set (h := Reset _). clearbody h.
  destruct (m_typeFrame h);
    first [apply layout_420p_mapped | unfold layout_packed; cbv zeta; rewrite place_plane_mapped; apply SetPlaneCount_mapped].
Qed.

Lemma ulong_le p z : 0 <= z -> 0 <= ulong p z <= z.
Proof.
  unfold ulong, u32, u64, two_p32, two_p64. intros Hz.
  destruct p; split; (apply Z.mod_pos_bound || apply Z.mod_le); lia.
Qed.

Lemma SetPlaneCount_le n f : m_uiPlaneCount (SetPlaneCount n f) <= MAX_PLANE_COUNT.
Proof. unfold SetPlaneCount. split_if; bools; simpl_set; lia. Qed.

Lemma SwapPlanes_count a b f : m_uiPlaneCount (SwapPlanes a b f) = m_uiPlaneCount f.
Proof. unfold SwapPlanes. split_if; reflexivity. Qed.

Lemma place_plane_count i o r f : m_uiPlaneCount (place_plane i o r f) = m_uiPlaneCount f.
Proof. unfold place_plane. repeat case_match. reflexivity. Qed.

Lemma layout_colour_count str f : m_uiPlaneCount (fst (layout_colour str f)) = m_uiPlaneCount f.
Proof. unfold layout_colour. cbv zeta. cbn [fst]. rewrite !place_plane_count. reflexivity. Qed.

Lemma layout_alpha_count str o f : m_uiPlaneCount (layout_alpha str o f) <= MAX_PLANE_COUNT.
Proof. unfold layout_alpha. cbv zeta. rewrite place_plane_count. apply SetPlaneCount_le. Qed.

Lemma layout_420p_count str f : m_uiPlaneCount (layout_420p str f) <= MAX_PLANE_COUNT.
Proof.
  unfold layout_420p. assert (Hc := layout_colour_count str (with_strides str (SetPlaneCount 3 f))).
  assert (H3 := SetPlaneCount_le 3 f). destruct (layout_colour _ _) as [c o]. cbn [fst] in Hc.
  change (m_uiPlaneCount (with_strides str (SetPlaneCount 3 f))) with (m_uiPlaneCount (SetPlaneCount 3 f)) in Hc.
  repeat split_if; rewrite ?SwapPlanes_count; first [apply layout_alpha_count | rewrite Hc; exact H3].
Qed.

Lemma SetFrameCaps_count str f :
  m_uiPlaneCount f <= MAX_PLANE_COUNT -> m_uiPlaneCount (SetFrameCaps str f) <= MAX_PLANE_COUNT.
Proof.
  intros Hf. unfold SetFrameCaps. destruct (set_format str f) as [g []] eqn:E; cbn [negb].
  - set (h := Reset _). clearbody h.
    destruct (m_typeFrame h); first [apply layout_420p_count | unfold layout_packed; cbv zeta;
      rewrite place_plane_count; apply (SetPlaneCount_le 1 h)].
  - unfold set_format in E. repeat case_match; simplify_eq; exact Hf.
Qed.

(** A frame that was initialised went through [SetFrameCaps]. *)
Lemma Init_SetFrameCaps p sample b f :
  Init p sample new_CGstVideoFrame = (true, f) -> sample_buffer sample = Some b ->
  exists str g, mapped g = (gb_data b, ulong p (gb_size b), buffer_time b) /\ m_uiPlaneCount g = 0 /\ f = SetFrameCaps str g.
Proof.
  unfold Init. intros Hi Hb. rewrite Hb in Hi. destruct (gb_map b); cbn [negb] in Hi; [|congruence].
  destruct (sample_caps sample) as [[|str ?]|]; try congruence. injection Hi as <-.
  eexists str, _. unfold buffer_time. split_and!; [| |reflexivity]; destruct (gb_pts b =? _); reflexivity.
Qed.

Lemma Init_time p sample b f :
  Init p sample new_CGstVideoFrame = (true, f) -> sample_buffer sample = Some b -> m_dTime f = buffer_time b.
Proof.
  intros Hi Hb. destruct (Init_SetFrameCaps p sample b f Hi Hb) as (str & g & Hm & _ & ->).
  assert (Hq := SetFrameCaps_mapped str g). rewrite Hm in Hq. unfold mapped in Hq. congruence.
Qed.

(** Every plane of a valid frame lies in the buffer of the sample. *)
Lemma Init_plane_bounds (p : Platform) (sample : GstSample) (b : GstBuffer) (f : CVideoFrame) :
  Init p sample new_CGstVideoFrame = (true, f) -> sample_buffer sample = Some b -> 0 <= gb_size b -> IsValid f = true ->
  forall i, (i < Z.to_nat (m_uiPlaneCount f))%nat ->
  gb_data b <= GetDataForPlane (Z.of_nat i) f /\
  GetDataForPlane (Z.of_nat i) f + GetSizeForPlane (Z.of_nat i) f <= gb_data b + gb_size b /\
  GetSizeForPlane (Z.of_nat i) f = GetStrideForPlane (Z.of_nat i) f * plane_rows f i.
Proof.
  intros Hinit Hb Hsize Hvalid i Hi.
  destruct (Init_SetFrameCaps p sample b f Hinit Hb) as (str & g & Hm & Hc & ->).
  unfold IsValid in Hvalid. assert (Hp := SetFrameCaps_inside str g Hvalid i Hi).
  assert (Hn := SetFrameCaps_count str g ltac:(rewrite Hc; discriminate)).
  assert (Hq := SetFrameCaps_mapped str g). rewrite Hm in Hq. unfold mapped in Hq.
  injection Hq as Hq1 Hq2 _. unfold plane_inside in Hp. rewrite Hq1, Hq2 in Hp.
  destruct Hp as (H0 & H1 & H2 & H3). pose proof (ulong_le p (gb_size b) Hsize).
  unfold GetDataForPlane, GetSizeForPlane, GetStrideForPlane, MAX_PLANE_COUNT in *.
  rewrite (proj2 (Z.ltb_lt _ _)) by lia. rewrite Nat2Z.id. lia.
Qed.

(** C3: memory safety of decoded frames.  When a frame is initialised from a
    mapped sample and reports itself valid, every plane it exposes lies inside
    the sample's buffer, whatever caps the decoder sent: the address is not
    before the buffer, the end of the plane is not after it, and the size is
    the plane's stride times its number of rows, computed without wrap-around.
    On Windows the buffer size is truncated to 32 bits, which only makes the
    check stricter. *)
Theorem Init_planes_inside (p : Platform) (sample : GstSample) (b : GstBuffer) (f : CVideoFrame)
    (Hinit : Init p sample new_CGstVideoFrame = (true, f)) (Hb : sample_buffer sample = Some b)
    (Hsize : 0 <= gb_size b) (Hvalid : IsValid f = true) (i : nat)
    (Hi : (i < Z.to_nat (m_uiPlaneCount f))%nat) :
  let data := GetDataForPlane (Z.of_nat i) f in
  let size := GetSizeForPlane (Z.of_nat i) f in
  gb_data b <= data /\ data + size <= gb_data b + gb_size b /\
  size = GetStrideForPlane (Z.of_nat i) f * plane_rows f i.
Proof. exact (Init_plane_bounds p sample b f Hinit Hb Hsize Hvalid i Hi). Qed.

(** A 4 by 2 frame in a buffer of 12 bytes. *)
Definition sample_4x2 : GstSample :=
  mkSample (Some (mkBuffer 0 false true 4096 12))
    (Some [mkStructure "video/x-raw-yuv"
             [("width"%string, GInt 4); ("height"%string, GInt 2); ("format"%string, GString "I420")]]).

Lemma Init_planes_inside_witness :
  let f := snd (Init TargetLinux sample_4x2 new_CGstVideoFrame) in
  m_uiPlaneCount f = 3 /\
  let data := GetDataForPlane 2 f in
  let size := GetSizeForPlane 2 f in
  4096 <= data /\ data + size <= 4096 + 12 /\ size = GetStrideForPlane 2 f * plane_rows f 2.
Proof.
  split; [vm_compute; reflexivity|].
  apply (Init_planes_inside TargetLinux sample_4x2 (mkBuffer 0 false true 4096 12)
           (snd (Init TargetLinux sample_4x2 new_CGstVideoFrame)) ltac:(vm_compute; reflexivity)
           ltac:(reflexivity) ltac:(cbn; lia) ltac:(vm_compute; reflexivity) 2 ltac:(vm_compute; lia)).
Defined.
