(* ===== verification/Effects.v ===== *)
(** * Effects

    The engine's code is written in a state monad over the object's fields that
    also threads the environment and records every external call.  An [Env]
    answers the calls; nothing is assumed of the answers, so a theorem about
    [wp] holds whatever GStreamer and the Java side do, and an execution is
    computable once an [Env] is given. *)

From S2P Require Import Prelude CFloat MediaTypes GstApi.

(** ** Environments *)

Class Env := {
  world : Type;
  handle : forall R : Type, ext R -> world -> R * world;
  platform : Platform
}.
Global Arguments handle {_ R} c w.

(** ** The monad *)

Record outcome `{Env} (S A : Type) := mkOutcome {
  oval : A; ostate : S; oworld : world; otrace : list obs
}.
Global Arguments mkOutcome {_ S A}.
Global Arguments oval {_ S A}.
Global Arguments ostate {_ S A}.
Global Arguments oworld {_ S A}.
Global Arguments otrace {_ S A}.

Definition M `{Env} (S A : Type) : Type := S -> world -> outcome S A.

Section Monad.
Context `{EV : Env} {S : Type}.

Definition ret {A} (a : A) : M S A := fun s w => mkOutcome a s w [].

Definition bind {A B} (m : M S A) (k : A -> M S B) : M S B := fun s w =>
  let o1 := m s w in
  let o2 := k (oval o1) (ostate o1) (oworld o1) in
  mkOutcome (oval o2) (ostate o2) (oworld o2) (otrace o1 ++ otrace o2).

Definition gets {A} (f : S -> A) : M S A := fun s w => mkOutcome (f s) s w [].
Definition modify (f : S -> S) : M S unit := fun s w => mkOutcome tt (f s) w [].
Definition call {R} (c : ext R) : M S R := fun s w =>
  let '(r, w') := handle c w in mkOutcome r s w' [Obs c r].
End Monad.

Declare Scope eff_scope.
Delimit Scope eff_scope with eff.
Notation "'let*' x := m 'in' k" := (bind m (fun x => k))
  (at level 10, x name, m at level 100, k at level 200) : eff_scope.
Notation "'let*' ' p := m 'in' k" := (bind m (fun x => match x with p => k end))
  (at level 10, p pattern, m at level 100, k at level 200) : eff_scope.
Notation "m ;; k" := (bind m (fun _ => k)) (at level 100, k at level 200, right associativity) : eff_scope.
Notation "f <~ v" := (modify (fun s => set f (fun _ => v) s)) (at level 95, no associativity) : eff_scope.
(** [when b m] runs [m] if [b] holds. *)
Definition when `{Env} {S} (b : bool) (m : M S unit) : M S unit := if b then m else ret tt.
Notation "a == b" := (bool_decide (a = b)) (at level 70, no associativity) : eff_scope.
Notation "a != b" := (negb (bool_decide (a = b))) (at level 70, no associativity) : eff_scope.
Global Open Scope eff_scope.

Definition enter `{Env} {S} (l : Lock) : M S unit := call (lock_enter l).
Definition exit `{Env} {S} (l : Lock) : M S unit := call (lock_exit l).

(** ** Weakest preconditions *)

(** [wp m s Q]: from the fields [s], in every environment, [m] ends with a
    value, fields and trace that satisfy [Q]. *)
Definition wp `{Env} {S A} (m : M S A) (s : S) (Q : A -> S -> list obs -> Prop) : Prop :=
  forall w, Q (oval (m s w)) (ostate (m s w)) (otrace (m s w)).

Section WP.
Context `{EV : Env} {S : Type}.

Lemma wp_ret {A} (a : A) (s : S) Q : Q a s [] -> wp (ret a) s Q.
Proof. intros H w. exact H. Qed.

Lemma wp_bind {A B} (m : M S A) (k : A -> M S B) s Q :
  wp m s (fun a s' t => wp (k a) s' (fun b s'' t' => Q b s'' (t ++ t'))) ->
  wp (bind m k) s Q.
Proof. intros H w. exact (H w (oworld (m s w))). Qed.

Lemma wp_gets {A} (f : S -> A) s Q : Q (f s) s [] -> wp (gets f) s Q.
Proof. intros H w. exact H. Qed.

Lemma wp_modify (f : S -> S) s Q : Q tt (f s) [] -> wp (modify f) s Q.
Proof. intros H w. exact H. Qed.

Lemma wp_call {R} (c : ext R) (s : S) Q : (forall r, Q r s [Obs c r]) -> wp (call c) s Q.
Proof. intros H w. unfold call. destruct (handle c w) as [r w']. apply H. Qed.

Lemma wp_mono {A} (m : M S A) s (P Q : A -> S -> list obs -> Prop) :
  wp m s P -> (forall a s' t, P a s' t -> Q a s' t) -> wp m s Q.
Proof. intros H HPQ w. apply HPQ, H. Qed.

Lemma wp_conj {A} (m : M S A) s (P Q : A -> S -> list obs -> Prop) :
  wp m s P -> wp m s Q -> wp m s (fun a s' t => P a s' t /\ Q a s' t).
Proof. intros HP HQ w. split; [apply HP | apply HQ]. Qed.
End WP.

(** [wp_mono] with the trace prefix of an enclosing [bind] hidden. *)
Ltac wp_use lem := eapply wp_mono; [ apply lem | cbn beta; intros ].

(** One step of symbolic execution. *)
Ltac wp_step :=
  lazymatch goal with
  | |- wp (bind _ _) _ _ => apply wp_bind
  | |- wp (ret _) _ _ => apply wp_ret
  | |- wp (gets _) _ _ => apply wp_gets
  | |- wp (modify _) _ _ => apply wp_modify
  | |- wp (call _) _ _ => apply wp_call; intros
  | |- wp (enter _) _ _ => apply wp_call; intros
  | |- wp (exit _) _ _ => apply wp_call; intros
  | |- wp (when ?b _) _ _ => unfold when; destruct b eqn:?
  | |- wp (if ?b then _ else _) _ _ => destruct b eqn:?
  | |- wp (match ?x with _ => _ end) _ _ => destruct x eqn:?
  end; cbv beta.
Ltac wp_steps := repeat (wp_step; simpl_set).

(** ** Lock discipline

    [lock_run held t] replays the lock operations of [t] from the stack [held]
    of locks (innermost first).  Entering a lock is allowed only when its rank
    is not below the innermost lock's (so the four locks are always taken in
    the order dispose, seek, stall, state, and re-entry of the innermost is
    fine); leaving one, only when it is the innermost. *)

Definition rank (l : Lock) : nat :=
  match l with DisposeLock => 0 | SeekLock => 1 | StallLock => 2 | StateLock => 3 end.

Definition top_rank (held : list Lock) : nat :=
  match held with [] => 0 | l :: _ => rank l end.

Fixpoint lock_run (held : list Lock) (t : list obs) : option (list Lock) :=
  match t with
  | [] => Some held
  | o :: t' =>
      match lock_op o with
      | None => lock_run held t'
      | Some (true, l) => if top_rank held <=? rank l then lock_run (l :: held) t' else None
      | Some (false, l) =>
          match held with
          | l' :: held' => if l' == l then lock_run held' t' else None
          | [] => None
          end
      end
  end%nat.

Lemma lock_run_app t1 t2 held :
  lock_run held (t1 ++ t2) =
  match lock_run held t1 with Some h => lock_run h t2 | None => None end.
Proof.
  revert held. induction t1 as [|o t1 IH]; intros held; simpl; [reflexivity|].
  destruct (lock_op o) as [[[] l]|]; [| |apply IH].
  - destruct (_ <=? _)%nat; [apply IH | reflexivity].
  - destruct held as [|l' held]; [reflexivity|]. destruct (_ == _); [apply IH | reflexivity].
Qed.

(** [locks h m h']: starting with the stack [h], [m] respects the discipline
    and ends with the stack [h'], in every environment. *)
Definition locks `{Env} {S A} (h : list Lock) (m : M S A) (h' : list Lock) : Prop :=
  forall s, wp m s (fun _ _ t => lock_run h t = Some h').

(** [disciplined n m]: [m] may be called whenever the innermost lock's rank is
    at most [n]; it leaves the locks as it found them. *)
Definition disciplined `{Env} {S A} (n : nat) (m : M S A) : Prop :=
  forall h, (top_rank h <= n)%nat -> locks h m h.

Section Locks.
Context `{EV : Env} {S : Type}.

Lemma locks_ret {A} (a : A) h : locks h (ret a : M S A) h.
Proof. intros s. apply wp_ret. reflexivity. Qed.
Lemma locks_gets {A} (f : S -> A) h : locks h (gets f) h.
Proof. intros s. apply wp_gets. reflexivity. Qed.
Lemma locks_modify (f : S -> S) h : locks h (modify f) h.
Proof. intros s. apply wp_modify. reflexivity. Qed.

Lemma locks_call {R} (c : ext R) h :
  (forall r, lock_op (Obs c r) = None) -> locks h (call c : M S R) h.
Proof. intros Hc s. apply wp_call. intros r. cbn [lock_run]. rewrite Hc. reflexivity. Qed.

Lemma locks_enter l h : (top_rank h <= rank l)%nat -> locks h (enter l : M S unit) (l :: h).
Proof.
  intros Hr s. apply wp_call. intros r. cbn -[Nat.leb].
  rewrite (proj2 (Nat.leb_le _ _) Hr). reflexivity.
Qed.

Lemma locks_exit l h : locks (l :: h) (exit l : M S unit) h.
Proof.
  intros s. apply wp_call. intros r. cbn. rewrite bool_decide_eq_true_2 by reflexivity. reflexivity.
Qed.

Lemma locks_bind {A B} (m : M S A) (k : A -> M S B) h1 h2 h3 :
  locks h1 m h2 -> (forall a, locks h2 (k a) h3) -> locks h1 (bind m k) h3.
Proof.
  intros Hm Hk s. apply wp_bind. eapply wp_mono; [apply Hm|]. cbn beta.
  intros a s' t Ht. eapply wp_mono; [apply Hk|]. cbn beta. intros b s'' t' Ht'.
  rewrite lock_run_app, Ht. exact Ht'.
Qed.

Lemma locks_disciplined {A} (m : M S A) h : disciplined (top_rank h) m -> locks h m h.
Proof. intros Hm. apply Hm. lia. Qed.
End Locks.

Create HintDb locks discriminated.
#[export] Hint Extern 3 (_ <= _)%nat => (cbn in *; lia) : locks.

(** Proves [locks h m h'] and [disciplined n m] goals by walking through the
    code; calls of functions whose discipline is known come from the hints. *)
Ltac locks_step :=
  lazymatch goal with
  | |- disciplined _ _ => intros ? ?
  | |- forall _, _ => intros
  | |- locks _ (bind _ _) _ => eapply locks_bind; [| intros ]
  | |- locks _ (ret _) _ => apply locks_ret
  | |- locks _ (gets _) _ => apply locks_gets
  | |- locks _ (modify _) _ => apply locks_modify
  | |- locks _ (enter _) _ => apply locks_enter; cbn in *; lia
  | |- locks _ (exit _) _ => apply locks_exit
  | |- locks _ (call _) _ => apply locks_call; reflexivity
  | |- locks _ (when ?b _) _ => unfold when; destruct b
  | |- locks _ (if ?b then _ else _) _ => destruct b
  | |- locks _ (match ?x with _ => _ end) _ => destruct x
  | |- locks _ _ _ => apply locks_disciplined; solve [eauto 40 with locks nocore]
  end.
Ltac solve_locks := repeat locks_step.

(** ** Compositional properties

    [sat R m]: in every environment [m] relates the fields before, the fields
    after and the trace by [R].  For a relation that holds of doing nothing and
    composes along concatenated traces ([Composable]), [sat] is proved by
    walking through the code. *)

Class Composable {S : Type} (R : S -> S -> list obs -> Prop) := {
  comp_refl : forall s, R s s [];
  comp_trans : forall s1 s2 s3 t1 t2, R s1 s2 t1 -> R s2 s3 t2 -> R s1 s3 (t1 ++ t2)
}.

Definition sat `{Env} {S A} (R : S -> S -> list obs -> Prop) (m : M S A) : Prop :=
  forall s, wp m s (fun _ s' t => R s s' t).

Section Sat.
Context `{EV : Env} {S : Type} (R : S -> S -> list obs -> Prop) `{!Composable R}.

Lemma sat_ret {A} (a : A) : sat R (ret a).
Proof. intros s. apply wp_ret, comp_refl. Qed.
Lemma sat_gets {A} (f : S -> A) : sat R (gets f).
Proof. intros s. apply wp_gets, comp_refl. Qed.
Lemma sat_call {X} (c : ext X) : (forall s r, R s s [Obs c r]) -> sat R (call c).
Proof. intros Hc s. apply wp_call. intros. apply Hc. Qed.
Lemma sat_modify (f : S -> S) : (forall s, R s (f s) []) -> sat R (modify f).
Proof. intros Hf s. apply wp_modify, Hf. Qed.
Lemma sat_bind {A B} (m : M S A) (k : A -> M S B) :
  sat R m -> (forall a, sat R (k a)) -> sat R (bind m k).
Proof.
  intros Hm Hk s. apply wp_bind. eapply wp_mono; [apply Hm|]. cbn beta. intros a s' t Hs.
  eapply wp_mono; [apply Hk|]. cbn beta. intros b s'' t' Hs'. eapply comp_trans; eassumption.
Qed.
Lemma sat_wp {A} (m : M S A) s : sat R m -> wp m s (fun _ s' t => R s s' t).
Proof. intros Hm. apply Hm. Qed.
End Sat.

(** [keeping f P]: [f] of the fields is unchanged and every call satisfies
    [P]; the usual composable relation. *)
Definition keeping {S B} (f : S -> B) (P : obs -> Prop) (s s' : S) (t : list obs) : Prop :=
  f s' = f s /\ Forall P t.

#[export] Instance keeping_composable {S B} (f : S -> B) P : Composable (keeping f P).
Proof.
  split; [split; [reflexivity | constructor]|].
  intros s1 s2 s3 t1 t2 [H1 H2] [H3 H4]. split; [congruence | apply Forall_app; split; assumption].
Qed.

Lemma sat_mono `{Env} {S A} (R R' : S -> S -> list obs -> Prop) (m : M S A) :
  (forall s s' t, R s s' t -> R' s s' t) -> sat R m -> sat R' m.
Proof. intros HR Hm s. eapply wp_mono; [apply Hm|]. cbn beta. intros. apply HR. assumption. Qed.

Create HintDb frames discriminated.

(** Proves [sat R m] by walking through the code; [side] proves [R] of the
    single calls and assignments. *)
Ltac sat_step side :=
  lazymatch goal with
  | |- forall _, _ => intros
  | |- sat _ (bind _ _) => apply sat_bind; [typeclasses eauto | |]
  | |- sat _ (ret _) => apply sat_ret; typeclasses eauto
  | |- sat _ (gets _) => apply sat_gets; typeclasses eauto
  | |- sat _ (call _) => apply sat_call; [ intros; solve [side] ..]
  | |- sat _ (enter _) => apply sat_call; [ intros; solve [side] ..]
  | |- sat _ (exit _) => apply sat_call; [ intros; solve [side] ..]
  | |- sat _ (modify _) => apply sat_modify; [ intros; solve [side] ..]
  | |- sat _ (when ?b _) => unfold when; destruct b
  | |- sat _ (if ?b then _ else _) => destruct b
  | |- sat _ (match ?x with _ => _ end) => destruct x
  | |- sat _ _ => solve [eauto 40 with frames nocore]
  end.
Ltac solve_sat side := repeat (sat_step side).

(** ** An environment where everything succeeds

    Every call is answered at once with its usual successful answer; used to
    run the code on concrete inputs. *)
Definition nominal {R} (c : ext R) : R :=
  match c in ext R return R with
  | lock_enter _ | lock_exit _ => tt
  | cxx_new _ => true | cxx_delete _ => tt
  | LOGGER_LOGMSG _ _ => tt | CMediaManager_GetInstance => ERROR_NONE | StartMainLoop => tt
  | gst_element_set_state _ _ => GST_STATE_CHANGE_SUCCESS
  | gst_element_get_state _ => (GST_STATE_CHANGE_SUCCESS, GST_STATE_PLAYING, GST_STATE_VOID_PENDING)
  | gst_element_sync_state_with_parent _ => true
  | gst_element_seek _ _ _ _ => true
  | gst_element_query_duration _ => Some 60000000000%Z
  | gst_element_query_position _ => Some 1000000000%Z
  | g_object_set _ _ _ => tt | g_object_get_boolean _ _ => true
  | g_object_get_int _ _ => 10%Z | g_object_get_uint _ _ => 10%Z | g_object_get_int64 _ _ => 0%Z
  | g_object_get_float _ _ => f_zero | g_object_get_double _ _ => d_one
  | gst_element_factory_make _ => Some 2 | gst_bin_new => Some 3 | gst_pipeline_new => Some 1
  | gst_bin_add _ _ => true | gst_bin_add_many _ _ => tt | gst_bin_remove _ _ => tt
  | gst_element_link _ _ => true | gst_element_link_many _ => true
  | GST_IS_BIN _ => true | gst_bin_iterate_elements _ => []
  | gst_iterator_resync => tt | gst_iterator_free => tt
  | GST_ELEMENT_PARENT _ => Some 1
  | gst_element_get_static_pad _ _ => Some 4 | gst_ghost_pad_new _ _ => Some 5
  | gst_element_add_pad _ _ => true | gst_pad_set_active _ _ => true
  | gst_pad_link _ _ => GST_PAD_LINK_OK | gst_pad_get_current_caps _ => None
  | gst_pad_add_probe _ _ => 1%Z | gst_pad_remove_probe _ _ => tt
  | gst_object_ref _ | gst_object_unref _ => tt | gst_caps_unref => tt
  | g_signal_connect _ _ _ => tt | g_signal_handlers_disconnect_by_func _ _ => tt
  | gst_pipeline_get_bus _ => Some 6 | gst_bus_create_watch _ => Some 7
  | g_source_set_callback _ => tt | g_source_attach _ => 1%Z
  | g_source_destroy _ => true | g_source_unref _ => tt
  | gst_element_post_application_message _ _ => tt | gst_bus_post_error _ _ _ _ => tt
  | gst_app_sink_pull_sample _ => None | gst_app_sink_pull_preroll _ => None
  | gst_sample_unref => tt | gst_buffer_set_pts _ => tt
  | g_try_malloc _ => 4104%Z | gst_buffer_new_wrapped _ _ => tt
  | gst_buffer_map _ => true | gst_buffer_unmap _ => tt | gst_buffer_unref => tt
  | gst_sample_new _ => true | ColorConvert _ => 0%Z
  | read_word _ => 0x11223344%Z | write_word _ _ => tt
  | CB_Property _ _ _ => 0%Z | CB_IsRandomAccess _ => true | CB_IsSeekable _ => true
  | CB_NeedBuffer _ => true | CB_ReadNextBlock _ => 0%Z | CB_ReadBlock _ _ _ => 0%Z
  | CB_CopyBlock _ _ => tt | CB_Seek _ _ => 0%Z | CB_CloseConnection _ => tt
  | gst_element_provide_clock _ => Some 8 | gst_pipeline_set_clock _ _ => tt
  | gst_bin_recalculate_latency _ => tt | g_get_current_time => 0%Z
  | SendPlayerMediaErrorEvent _ => true | SendPlayerHaltEvent _ _ => true
  | SendPlayerStateEvent _ _ => true | SendNewFrameEvent _ => true
  | SendFrameSizeChangedEvent _ _ => true | SendAudioTrackEvent _ => true
  | SendVideoTrackEvent _ => true | SendBufferProgressEvent _ _ _ _ => true
  | SendDurationUpdateEvent _ => true | SendAudioSpectrumEvent _ _ _ => true
  | Warning _ _ => tt | UpdateBands _ _ _ => tt
  end.

(** The environment on a given platform, and one that answers some calls
    differently. *)
Definition nominal_env (p : Platform) : Env :=
  {| world := unit; handle := fun R c w => (nominal c, w); platform := p |}.
Definition scripted_env (p : Platform) (answer : forall R, ext R -> option R) : Env :=
  {| world := unit;
     handle := fun R c w => (match answer R c with Some r => r | None => nominal c end, w);
     platform := p |}.
