(* ===== verification/FrameConvert.v ===== *)
(** * Frame conversion

    The conversions of [CGstVideoFrame] between pixel formats
    ([platform/gstreamer/GstVideoFrame.cpp]): allocation of the destination
    buffer, geometry of the converted frame and byte swapping.  The
    [ColorConvert_*] functions are calls of the environment: what they are given
    is in the trace, their status is their answer. *)

From S2P Require Import Prelude CFloat MediaTypes GstApi Effects VideoFrame.

Local Open Scope Z_scope.

(** ** Byte swapping *)

Definition swap_uint32 (x : Z) : Z :=
  Z.lor (Z.lor (Z.lor (u32 (Z.shiftl (Z.land x 0x000000ff) 24))
                      (u32 (Z.shiftl (Z.land x 0x0000ff00) 8)))
               (Z.shiftr (Z.land x 0x00ff0000) 8))
        (Z.shiftr (Z.land x 0xff000000) 24).

(** ** Caps of a converted frame *)

(** A [guint] passed as a [G_TYPE_INT]. *)
Definition as_gint (z : Z) : GVal := GInt (s32 z).

Definition create_RGB_caps (type : FrameType) (width height encodedWidth encodedHeight stride : Z)
  : option GstCaps :=
  let caps red green blue alpha :=
    Some [mkStructure "video/x-raw-rgb"
      [("bpp"%string, GInt 32); ("depth"%string, GInt 32);
       ("red_mask"%string, as_gint red); ("green_mask"%string, as_gint green);
       ("blue_mask"%string, as_gint blue); ("alpha_mask"%string, as_gint alpha);
       ("width"%string, as_gint width); ("height"%string, as_gint height);
       ("encoded-width"%string, as_gint encodedWidth);
       ("encoded-height"%string, as_gint encodedHeight);
       ("line_stride"%string, as_gint stride)]] in
  match type with
  | ARGB => caps 0x00FF0000 0x0000FF00 0x000000FF 0xFF000000
  | BGRA_PRE => caps 0x0000FF00 0x00FF0000 0xFF000000 0x000000FF
  | _ => None
  end.

(** [gst_structure_set] of one field. *)
Definition structure_set (s : GstStructure) (f : string) (v : GVal) : GstStructure :=
  mkStructure (gs_name s) ((f, v) :: filter (fun kv => negb (fst kv =? f)%string) (gs_fields s)).

(** The mask fields [ConvertSwapRGB] writes; [None] for other targets. *)
Definition set_masks (type : FrameType) (s : GstStructure) : option GstStructure :=
  let masks red green blue alpha :=
    Some (structure_set (structure_set (structure_set (structure_set s
            "red_mask" (as_gint red)) "green_mask" (as_gint green))
            "blue_mask" (as_gint blue)) "alpha_mask" (as_gint alpha)) in
  match type with
  | ARGB => masks 0x00FF0000 0x0000FF00 0x000000FF 0xFF000000
  | BGRA_PRE => masks 0x0000FF00 0x00FF0000 0xFF000000 0x000000FF
  | _ => None
  end.

(** The stride and the size of the converted image, or [None] where the code
    returns because an unsigned computation would overflow. *)
Definition rgb_geometry (encodedWidth encodedHeight : Z) : option (Z * Z) :=
  if encodedWidth <=? UINT_MAX / 4 then
    let stride := u32 (encodedWidth * 4) in
    if stride <=? UINT_MAX - 16 then
      let stride := u32 (align16 stride) in
      if (0 <? encodedHeight) && (stride <=? UINT_MAX / encodedHeight) then
        Some (stride, u32 (stride * encodedHeight))
      else None
    else None
  else None.

Section Convert.
Context `{EV : Env}.

(** The frame the methods are called on; they do not change it. *)
Definition FM : Type -> Type := M CVideoFrame.

(** The address and the size of the new buffer's memory; the allocation has
    16 bytes more. *)
Definition alloc_aligned_buffer (size : Z) : FM (option (Z * Z)) :=
  if size <=? UINT_MAX - 16 then
    let* newData := call (g_try_malloc (u32 (size + 16))) in
    if newData =? 0 then ret None
    else
      let alignedData := align16 newData in
      call (gst_buffer_new_wrapped alignedData size) ;;
      ret (Some (alignedData, size))
  else ret None.

(** The end of every conversion: a new frame on the new sample, which keeps
    its own references. *)
Definition finish_frame (dest : GstBuffer) (caps : GstCaps) : FM (option CVideoFrame) :=
  let* mapped := call (gst_buffer_map true) in
  let dest := mkBuffer (gb_pts dest) (gb_discont dest) mapped (gb_data dest) (gb_size dest) in
  let '(ok, newFrame) := Init platform (mkSample (Some dest) (Some caps)) new_CGstVideoFrame in
  call gst_buffer_unref ;;
  call gst_sample_unref ;;
  ret (if ok && IsValid newFrame then Some newFrame else None).

(** The end of a colour conversion, once the pixels are written. *)
Definition publish_frame (destType : FrameType) (src : GstBuffer) (alignedData stride alloc_size status : Z)
  : FM (option CVideoFrame) :=
  let* f := gets (fun f => f) in
  match create_RGB_caps destType (m_uiWidth f) (m_uiHeight f) (m_uiEncodedWidth f)
          (m_uiEncodedHeight f) stride with
  | None => call gst_buffer_unref ;; ret None
  | Some caps =>
      let* ok := call (gst_sample_new caps) in
      if negb ok then call gst_caps_unref ;; call gst_buffer_unref ;; ret None
      else
        call gst_caps_unref ;;
        if status =? 0 then
          finish_frame (mkBuffer (gb_pts src) false true alignedData alloc_size) caps
        else ret None
  end.

(** The common frame of the two colour conversions: allocate, map, convert
    with [job stride], publish.  [src] is [*m_pBuffer]. *)
Definition convert_colour (destType : FrameType) (src : GstBuffer) (job : Z -> CVideoFrame -> ConvertJob)
  : FM (option CVideoFrame) :=
  let* f := gets (fun f => f) in
  match rgb_geometry (m_uiEncodedWidth f) (m_uiEncodedHeight f) with
  | None => ret None
  | Some (stride, alloc_size) =>
      let* dest := alloc_aligned_buffer alloc_size in
      match dest with
      | None => ret None
      | Some (alignedData, _) =>
          let* mapped := call (gst_buffer_map true) in
          if negb mapped then call gst_buffer_unref ;; ret None
          else
            let* status := call (ColorConvert (job stride f)) in
            call (gst_buffer_unmap true) ;;
            publish_frame destType src alignedData stride alloc_size status
      end
  end.

(** The planes given as V and U: the chroma planes of an I420 frame were
    swapped when it was laid out. *)
Definition chroma_index (f : CVideoFrame) : nat * nat :=
  if m_bIsI420 f then (1, 2)%nat else (2, 1)%nat.

Definition job_420p (destType : FrameType) (stride : Z) (f : CVideoFrame) : ConvertJob :=
  let '(u_index, v_index) := chroma_index f in
  let planes := [0; v_index; u_index]%nat ++ (if gst_bHasAlpha f then [3]%nat else []) in
  mkConvertJob
    (match destType with
     | ARGB => if gst_bHasAlpha f then "YCbCr420p_to_ARGB32" else "YCbCr420p_to_ARGB32_no_alpha"
     | _ => if gst_bHasAlpha f then "YCbCr420p_to_BGRA32" else "YCbCr420p_to_BGRA32_no_alpha"
     end)%string
    stride (m_uiEncodedWidth f) (m_uiEncodedHeight f)
    (map (arr_get (m_pvPlaneData f)) planes) (map (arr_get (m_puiPlaneStrides f)) planes).

Definition ConvertFromYCbCr420p (destType : FrameType) (src : GstBuffer) : FM (option CVideoFrame) :=
  convert_colour destType src (job_420p destType).

Definition job_422 (destType : FrameType) (stride : Z) (f : CVideoFrame) : ConvertJob :=
  let data := arr_get (m_pvPlaneData f) 0 in
  let pitch := arr_get (m_puiPlaneStrides f) 0 in
  mkConvertJob
    (match destType with
     | ARGB => "YCbCr422p_to_ARGB32_no_alpha" | _ => "YCbCr422p_to_BGRA32_no_alpha" end)%string
    stride (m_uiEncodedWidth f) (m_uiEncodedHeight f)
    [data + 1; data + 2; data] [pitch; pitch].

Definition ConvertFromYCbCr422 (destType : FrameType) (src : GstBuffer) : FM (option CVideoFrame) :=
  let* alpha := gets gst_bHasAlpha in
  if alpha then ret None else convert_colour destType src (job_422 destType).

(** ** Swapping RGB formats *)

(** The copy of one word at a byte offset, swapped. *)
Definition swap_word (offset : Z) : FM unit :=
  let* x := call (read_word offset) in
  call (write_word offset (swap_uint32 x)).

Fixpoint for_each {A} (body : A -> FM unit) (l : list A) : FM unit :=
  match l with
  | [] => ret tt
  | a :: l' => body a ;; for_each body l'
  end.

(** [0], [1], ... below [n]. *)
Definition upto (n : Z) : list Z := map Z.of_nat (seq 0 (Z.to_nat n)).

(** The two loops.  The first counts bytes by four; the second moves its
    [guint32] pointers by the stride, which is a number of bytes, so a row
    starts four strides after the previous one. *)
Definition swap_offsets (size stride width height : Z) : list Z :=
  if Z.land stride 3 =? 0 then map (fun i => 4 * i) (upto ((size + 3) / 4))
  else concat (map (fun yy => map (fun xx => 4 * (yy * stride + xx)) (upto width)) (upto height)).

(** [src] and [caps] are the buffer and the caps of the frame's sample. *)
Definition ConvertSwapRGB (destType : FrameType) (src : GstBuffer) (caps : GstCaps)
  : FM (option CVideoFrame) :=
  let* f := gets (fun f => f) in
  let size := u32 (gb_size src) in
  let* dest := alloc_aligned_buffer size in
  match dest, caps with
  | Some (alignedData, _), str :: rest =>
      call gst_caps_unref ;;
      match set_masks destType str with
      | None => call gst_buffer_unref ;; call gst_caps_unref ;; ret None
      | Some str' =>
          let* ok := call (gst_sample_new (str' :: rest)) in
          if negb ok then call gst_caps_unref ;; call gst_buffer_unref ;; ret None
          else
            call gst_caps_unref ;;
            let* srcMapped := call (gst_buffer_map false) in
            if negb srcMapped then call gst_buffer_unref ;; call gst_sample_unref ;; ret None
            else
              let* destMapped := call (gst_buffer_map true) in
              if negb destMapped then
                call (gst_buffer_unmap false) ;; call gst_buffer_unref ;; call gst_sample_unref ;; ret None
              else
                for_each swap_word (swap_offsets size (arr_get (m_puiPlaneStrides f) 0)
                                      (m_uiWidth f) (m_uiHeight f)) ;;
                call (gst_buffer_unmap false) ;;
                call (gst_buffer_unmap true) ;;
                finish_frame (mkBuffer GST_CLOCK_TIME_NONE false true alignedData size) (str' :: rest)
      end
  | _, _ => ret None
  end.

(** [ConvertToFormat]: [inl tt] is the frame itself. *)
Definition ConvertToFormat (type : FrameType) (src : GstBuffer) (caps : GstCaps)
  : FM (unit + option CVideoFrame) :=
  let* f := gets (fun f => f) in
  if type == m_typeFrame f then ret (inl tt)
  else if (type == YCbCr_422) || (type == YCbCr_420p) then
    call (LOGGER_LOGMSG LOGGER_DEBUG "Conversion to YCbCr is not supported") ;; ret (inr None)
  else
    let* r :=
      match m_typeFrame f with
      | ARGB | BGRA_PRE => ConvertSwapRGB type src caps
      | YCbCr_420p => ConvertFromYCbCr420p type src
      | YCbCr_422 => ConvertFromYCbCr422 type src
      | _ => ret None
      end in
    ret (inr r).
End Convert.

(** ** Arithmetic of the conversions *)

Lemma u32_testbit x n : 0 <= n -> Z.testbit (u32 x) n = (n <? 32) && Z.testbit x n.
Proof.
  intros Hn. unfold u32. change two_p32 with (2 ^ 32). destruct (Z.ltb_spec n 32).
  - rewrite Z.mod_pow2_bits_low by lia. reflexivity.
  - rewrite Z.mod_pow2_bits_high by lia. reflexivity.
Qed.

(** Bit [n] of the swapped word is bit [n mod 8] of byte [3 - n / 8]. *)
Lemma swap_uint32_testbit x n :
  0 <= n -> Z.testbit (swap_uint32 x) n = (n <? 32) && Z.testbit x (8 * (3 - n / 8) + n mod 8).
Proof.
  intros Hn. unfold swap_uint32. rewrite !Z.lor_spec, !u32_testbit, !Z.shiftr_spec, !Z.shiftl_spec, !Z.land_spec by lia.
  destruct (Z.ltb_spec n 32) as [H|H]; cbn [andb orb].
  - assert (Hc : exists k, n = Z.of_nat k /\ (k < 32)%nat) by (exists (Z.to_nat n); lia).
    destruct Hc as (k & -> & Hk). clear H Hn.
    do 32 (destruct k as [|k]; [cbn -[Z.testbit]; rewrite ?andb_true_r, ?andb_false_r, ?orb_false_r; reflexivity|]).
    lia.
  - rewrite !(Z.bits_above_log2 0x00ff0000), !(Z.bits_above_log2 0xff000000) by (cbn; lia).
    rewrite !andb_false_r. reflexivity.
Qed.

Lemma swap_position n : 0 <= n < 32 -> let p := 8 * (3 - n / 8) + n mod 8 in 0 <= p < 32 /\ 8 * (3 - p / 8) + p mod 8 = n.
Proof.
  intros Hn. assert (Hc : exists k, n = Z.of_nat k /\ (k < 32)%nat) by (exists (Z.to_nat n); lia).
  destruct Hc as (k & -> & Hk). clear Hn.
  do 32 (destruct k as [|k]; [vm_compute; split_and!; (reflexivity || discriminate)|]). lia.
Qed.

(** Converting between ARGB and BGRA reverses the four bytes of every
    pixel: byte [i] of the result is byte [3 - i] of the source, and converting
    back gives the pixel one started from. *)
Theorem swap_uint32_reverses (x : Z) (Hx : is_u32 x) :
  (forall i, 0 <= i < 4 ->
     Z.land (Z.shiftr (swap_uint32 x) (8 * i)) 255 = Z.land (Z.shiftr x (8 * (3 - i))) 255) /\
  swap_uint32 (swap_uint32 x) = x.
Proof.
  split.
  - intros i Hi. change 255 with (Z.ones 8). apply Z.bits_inj'. intros n Hn. rewrite !Z.land_spec.
    destruct (Z.ltb_spec n 8).
    + rewrite !Z.shiftr_spec, swap_uint32_testbit by lia. rewrite (proj2 (Z.ltb_lt _ _)) by lia.
      rewrite (Z.add_comm n (8 * i)), (Z.mul_comm 8 i), Z.div_add_l, (Z.div_small n) by lia.
      rewrite (Z.add_comm (i * 8)), Z.mod_add, (Z.mod_small n) by lia. cbn [andb]. do 2 f_equal. lia.
    + rewrite Z.ones_spec_high, !andb_false_r by lia. reflexivity.
  - apply Z.bits_inj'. intros n Hn. rewrite swap_uint32_testbit by lia.
    destruct (Z.ltb_spec n 32); cbn [andb].
    + destruct (swap_position n ltac:(lia)) as [Hp Hq].
      rewrite swap_uint32_testbit, (proj2 (Z.ltb_lt _ _)), Hq by lia. reflexivity.
    + rewrite <- (u32_small x Hx), u32_testbit, (proj2 (Z.ltb_ge n 32)) by lia. reflexivity.
Qed.

Lemma swap_uint32_reverses_witness :
  swap_uint32 0x11223344 = 0x44332211 /\ swap_uint32 (swap_uint32 0x11223344) = 0x11223344.
Proof.
  split; [reflexivity|].
  exact (proj2 (swap_uint32_reverses 0x11223344 ltac:(split; [discriminate | reflexivity]))).
Defined.

Lemma rgb_geometry_eq (w h : Z) (Hw : is_u32 w) (Hh : is_u32 h) :
  rgb_geometry w h =
    if (0 <? h) && (4 * w <=? UINT_MAX - 16) && (align16 (4 * w) * h <=? UINT_MAX)
    then Some (align16 (4 * w), align16 (4 * w) * h) else None.
Proof.
  unfold rgb_geometry. unfold is_u32 in *. pose proof (align16_bounds (4 * w)) as Ha.
  destruct (Z.leb_spec w (UINT_MAX / 4)) as [H4|H4].
  2:{ rewrite (proj2 (Z.leb_gt (4 * w) _)), andb_false_r; [reflexivity|].
      pose proof (Z.mul_succ_div_gt UINT_MAX 4 ltac:(lia)). lia. }
  assert (H4w : w * 4 <= UINT_MAX) by (apply div_guard; lia).
  rewrite (u32_small (w * 4)), (Z.mul_comm w 4) by (unfold is_u32, UINT_MAX in *; lia).
  destruct (Z.leb_spec (4 * w) (UINT_MAX - 16)) as [H16|H16]; [|rewrite andb_false_r; reflexivity].
  rewrite (u32_small (align16 _)) by (unfold is_u32, UINT_MAX in *; lia). rewrite andb_true_r.
  destruct (Z.ltb_spec 0 h); [cbn [andb]|reflexivity].
  destruct (Z.leb_spec (align16 (4 * w)) (UINT_MAX / h)) as [Hs|Hs].
  - assert (Hm : align16 (4 * w) * h <= UINT_MAX) by (apply div_guard; lia).
    rewrite (proj2 (Z.leb_le _ _) Hm), u32_small; [reflexivity|]. unfold is_u32, UINT_MAX in *. nia.
  - pose proof (Z.mul_succ_div_gt UINT_MAX h ltac:(lia)). rewrite (proj2 (Z.leb_gt _ _)); [reflexivity|nia].
Qed.

(** The size of a converted image.  For every frame size, the code gives
    up exactly when the image has no rows or its byte size, with rows of four
    bytes a pixel rounded up to sixteen, does not fit an unsigned integer; when
    it goes on, stride and size are the exact values: nothing wraps around. *)
Theorem rgb_geometry_exact (w h : Z) (Hw : is_u32 w) (Hh : is_u32 h) :
  rgb_geometry w h =
    if (0 <? h) && (4 * w <=? UINT_MAX - 16) && (align16 (4 * w) * h <=? UINT_MAX)
    then Some (align16 (4 * w), align16 (4 * w) * h) else None.
Proof. exact (rgb_geometry_eq w h Hw Hh). Qed.

Lemma rgb_geometry_exact_witness :
  rgb_geometry 1921 1080 = Some (7696, 8311680) /\ rgb_geometry 65536 16384 = None.
Proof.
  split.
  - rewrite (rgb_geometry_exact 1921 1080 ltac:(split; [discriminate | reflexivity])
               ltac:(split; [discriminate | reflexivity])). vm_compute. reflexivity.
  - rewrite (rgb_geometry_exact 65536 16384 ltac:(split; [discriminate | reflexivity])
               ltac:(split; [discriminate | reflexivity])). vm_compute. reflexivity.
Defined.

(** ** The converted frame *)

Lemma u32_s32 z : is_u32 z -> u32 (s32 z) = z.
Proof.
  unfold is_u32, u32, s32. intros H. change (two_p32 / 2) with 2147483648.
  rewrite Zminus_mod, Zmod_mod, <- Zminus_mod. replace (z + 2147483648 - 2147483648) with z by lia.
  apply Z.mod_small, H.
Qed.

(** The four dimensions of a frame. *)
Definition read_size (f : CVideoFrame) := (m_uiWidth f, m_uiHeight f, m_uiEncodedWidth f, m_uiEncodedHeight f).

(** A frame that was read back from the caps of a converted image: same size,
    the requested format, and one plane that is the whole image. *)
Record converted (type : FrameType) (f f' : CVideoFrame) (data stride : Z) : Prop := {
  conv_valid : IsValid f' = true;
  conv_type : m_typeFrame f' = type;
  conv_size : read_size f' = read_size f;
  conv_planes : m_uiPlaneCount f' = 1;
  conv_data : GetDataForPlane 0 f' = data;
  conv_stride : GetStrideForPlane 0 f' = stride;
  conv_bytes : GetSizeForPlane 0 f' = stride * m_uiEncodedHeight f
}.

(** The sizes of a frame are unsigned integers. *)
Definition sizes_ok (f : CVideoFrame) : Prop :=
  is_u32 (m_uiWidth f) /\ is_u32 (m_uiHeight f) /\
  is_u32 (m_uiEncodedWidth f) /\ is_u32 (m_uiEncodedHeight f).

Lemma ulong_small p z : is_u32 z -> ulong p z = z.
Proof.
  intros Hz. destruct p; [apply u64_small | apply u32_small | apply u64_small]; try exact Hz;
    unfold is_u32, is_u64, two_p32, two_p64 in *; lia.
Qed.

Lemma place_plane_result i offset rows f size data :
  (i < 4)%nat -> arrays_ok f ->
  CalcSize (arr_get (m_puiPlaneStrides f) i) rows (m_bIsValid f) = (size, true) ->
  CalcPlanePointer (m_pvBufferBaseAddress f) offset size (m_ulBufferSize f) true = (data, true) ->
  let f' := place_plane i offset rows f in
  m_bIsValid f' = true /\ m_typeFrame f' = m_typeFrame f /\ read_size f' = read_size f /\
  m_uiPlaneCount f' = m_uiPlaneCount f /\ arr_get (m_pvPlaneData f') i = data /\
  m_puiPlaneStrides f' = m_puiPlaneStrides f /\ arr_get (m_pulPlaneSize f') i = size.
Proof.
  intros Hi (H1 & H2 & H3 & _) Hs Hp. unfold place_plane. rewrite Hs. simpl_set. rewrite Hp. cbv zeta.
  split_and!; simpl_set; try reflexivity; apply arr_get_insert_eq; lia.
Qed.

Lemma packed_caps_layout str f data stride :
  arrays_ok f -> m_bIsValid f = true -> m_typeFrame f <> YCbCr_420p ->
  (forall d, get_uint str "line_stride" d = stride) -> 0 <= stride -> 0 < m_uiEncodedHeight f ->
  stride * m_uiEncodedHeight f <= UINT_MAX -> fst (mapped f) = (data, stride * m_uiEncodedHeight f) ->
  let f' := layout_packed str f in
  IsValid f' = true /\ m_typeFrame f' = m_typeFrame f /\ read_size f' = read_size f /\
  m_uiPlaneCount f' = 1 /\ GetDataForPlane 0 f' = data /\ GetStrideForPlane 0 f' = stride /\
  GetSizeForPlane 0 f' = stride * m_uiEncodedHeight f.
Proof.
  intros Hf Hv Ht Hl Hs Hh Hmax Hm. unfold layout_packed. cbv zeta. rewrite Hl.
  set (g := set_stride 0 stride _). injection Hm as Hm1 Hm2.
  assert (Hg : arrays_ok g) by (apply set_stride_ok; [exact Hs | exact Hf]).
  assert (Hst : arr_get (m_puiPlaneStrides g) 0 = stride) 
    by (apply arr_get_insert_eq; change (0 < List.length (m_puiPlaneStrides f))%nat;
        destruct Hf as (_ & _ & -> & _); lia).
  destruct (place_plane_result 0 0 (m_uiEncodedHeight g) g (stride * m_uiEncodedHeight f) data)
    as (V & T & R & N & D & S & B); [lia | exact Hg | | |].
  - rewrite Hst. change (m_bIsValid g) with (m_bIsValid f). rewrite Hv. apply CalcSize_complete; assumption.
  - change (m_pvBufferBaseAddress g) with (m_pvBufferBaseAddress f). change (m_ulBufferSize g) with (m_ulBufferSize f).
    rewrite Hm1, Hm2, CalcPlanePointer_complete; [f_equal; lia | nia..].
  - unfold GetDataForPlane, GetStrideForPlane, GetSizeForPlane, IsValid. cbn [Z.ltb Z.compare MAX_PLANE_COUNT Z.to_nat].
    split_and!; [exact V | rewrite T; reflexivity | rewrite R; reflexivity | rewrite N; reflexivity
                | exact D | | exact B].
    cbn -[place_plane]. rewrite S. exact Hst.
Qed.

(** Reading the caps of [create_RGB_caps] back. *)
Lemma RGB_caps_layout type w h ew eh stride caps data g :
  create_RGB_caps type w h ew eh stride = Some caps ->
  is_u32 w -> is_u32 h -> is_u32 ew -> is_u32 eh -> is_u32 stride -> 0 < eh -> stride * eh <= UINT_MAX ->
  fst (mapped g) = (data, stride * eh) ->
  exists str, caps = [str] /\
  let f' := SetFrameCaps str g in
  IsValid f' = true /\ m_typeFrame f' = type /\ read_size f' = (w, h, ew, eh) /\
  m_uiPlaneCount f' = 1 /\ GetDataForPlane 0 f' = data /\ GetStrideForPlane 0 f' = stride /\
  GetSizeForPlane 0 f' = stride * eh.
Proof.
  intros Hc Hw Hh Hew Heh Hs Heh0 Hmax Hm.
  assert (Hstr : exists str, caps = [str] /\
    set_format str g = ((g <| m_bIsValid := true |>) <| m_typeFrame := type |> <| gst_bHasAlpha := true |>, true) /\
    type <> YCbCr_420p /\
    gst_structure_get_int str "width" = Some (s32 w) /\ gst_structure_get_int str "height" = Some (s32 h) /\
    gst_structure_get_int str "encoded-width" = Some (s32 ew) /\
    gst_structure_get_int str "encoded-height" = Some (s32 eh) /\
    gst_structure_get_int str "line_stride" = Some (s32 stride)).
  { destruct type; cbn [create_RGB_caps] in Hc; try discriminate; injection Hc as <-;
      (eexists; split; [reflexivity|]); split_and!; first [reflexivity | discriminate]. }
  destruct Hstr as (str & -> & Hfmt & Ht & Hgw & Hgh & Hgew & Hgeh & Hgs).
  exists str. split; [reflexivity|]. cbv zeta. unfold SetFrameCaps. rewrite Hfmt. cbn [negb].
  set (k := Reset _).
  assert (Hk : fst (mapped k) = (data, stride * eh) /\ m_bIsValid k = true /\ m_typeFrame k = type /\
               read_size k = (w, h, ew, eh)).
  { subst k. unfold set_dimensions. rewrite Hgw, Hgh. unfold get_uint. rewrite Hgew, Hgeh, !u32_s32 by assumption.
    split_and!; [exact Hm | reflexivity..]. }
  destruct Hk as (Mk & Vk & Tk & Rk). assert (Ak : arrays_ok k) by apply Reset_arrays. clearbody k.
  assert (Ek : m_uiEncodedHeight k = eh) by (unfold read_size in Rk; congruence).
  destruct (packed_caps_layout str k data stride) as (P1 & P2 & P3 & P4 & P5 & P6 & P7);
    rewrite ?Ek, ?Tk; try assumption; try (unfold is_u32 in *; lia).
  { intros d. unfold get_uint. rewrite Hgs. apply u32_s32, Hs. }
  assert (Hl : (match m_typeFrame k with YCbCr_420p => layout_420p str k | _ => layout_packed str k end)
               = layout_packed str k) by (destruct (m_typeFrame k); congruence).
  rewrite Tk in Hl. rewrite Hl. split_and!; congruence.
Qed.

(** The calls of a conversion that can fail, with a failing answer. *)
Definition failed_call (o : obs) : bool :=
  match o with
  | Obs c r => match c in ext R return R -> bool with
               | g_try_malloc _ => fun r => r =? 0
               | gst_buffer_map _ => fun r => negb r
               | gst_sample_new _ => fun r => negb r
               | ColorConvert _ => fun r => negb (r =? 0)
               | _ => fun _ => false
               end r
  end.

(** The image lies inside memory that was allocated for it, aligned. *)
Definition owns (t : list obs) (data size : Z) : Prop :=
  (16 | data) /\ exists p n, Obs (g_try_malloc n) p ∈ t /\ p <> 0 /\ p <= data /\ data + size <= p + n.

Lemma owns_app_l t t' data size : owns t data size -> owns (t ++ t') data size.
Proof. intros [H (p & n & Hp)]. split; [exact H|]. exists p, n. rewrite elem_of_app. tauto. Qed.

Definition fails (t : list obs) : Prop := Exists (fun o => failed_call o = true) t.

Section ConvertSpec.
Context `{EV : Env}.

Lemma alloc_aligned_buffer_spec size s :
  0 <= size ->
  wp (alloc_aligned_buffer size) s (fun r s' t => s' = s /\
    match r with
    | Some (data, n) => n = size /\ size <= UINT_MAX - 16 /\ owns t data size
    | None => UINT_MAX - 16 < size \/ fails t
    end).
Proof.
  intros Hs. unfold alloc_aligned_buffer. wp_steps; bools; (split; [reflexivity|]).
  - right. subst. constructor. reflexivity.
  - split_and!; [reflexivity | assumption | split; [apply align16_divide|]].
    exists r, (size + 16). rewrite <- (u32_small (size + 16)) at 1 by (unfold is_u32, UINT_MAX, two_p32 in *; lia).
    pose proof (align16_bounds r). split_and!; [left | assumption | lia | lia].
  - left. assumption.
Qed.

Lemma fails_app t t' : fails (t ++ t') <-> fails t \/ fails t'.
Proof. apply Exists_app. Qed.
Lemma fails_cons o t : fails (o :: t) <-> failed_call o = true \/ fails t.
Proof. apply Exists_cons. Qed.

(** The new frame on a published image. *)
Lemma finish_frame_spec type f stride caps src data s :
  sizes_ok f -> is_u32 stride -> 0 < m_uiEncodedHeight f -> stride * m_uiEncodedHeight f <= UINT_MAX ->
  create_RGB_caps type (m_uiWidth f) (m_uiHeight f) (m_uiEncodedWidth f) (m_uiEncodedHeight f) stride = Some caps ->
  wp (finish_frame (mkBuffer (gb_pts src) false true data (stride * m_uiEncodedHeight f)) caps) s
    (fun r s' t => s' = s /\
       match r with Some f' => converted type f f' data stride | None => fails t end).
Proof.
  intros (Hw & Hh & Hew & Heh) Hs Hpos Hmax Hc. unfold finish_frame, Init. cbn [sample_buffer sample_caps gb_pts gb_map gb_data gb_size gb_discont].
  apply wp_bind, wp_call. intros mapped.
  destruct mapped; cbn [negb].
  - set (g := if _ =? _ then _ else _).
    destruct (RGB_caps_layout type (m_uiWidth f) (m_uiHeight f) (m_uiEncodedWidth f) (m_uiEncodedHeight f)
                stride caps data g Hc Hw Hh Hew Heh Hs Hpos Hmax) as (str & -> & P).
    { assert (Hu : is_u32 (stride * m_uiEncodedHeight f)) by (unfold is_u32, UINT_MAX in *; nia).
      subst g. case_match; unfold VideoFrame.mapped; simpl_set; rewrite ulong_small by exact Hu; reflexivity. }
    destruct P as (P1 & P2 & P3 & P4 & P5 & P6 & P7).
    wp_steps; (split; [reflexivity|]); rewrite P1; constructor; assumption.
  - wp_steps; (split; [reflexivity|]); left; reflexivity.
Qed.

Lemma publish_frame_spec type src data stride alloc status s :
  sizes_ok s -> is_u32 stride -> 0 < m_uiEncodedHeight s -> stride * m_uiEncodedHeight s <= UINT_MAX ->
  alloc = stride * m_uiEncodedHeight s ->
  wp (publish_frame type src data stride alloc status) s (fun r s' t => s' = s /\
    match r with
    | Some f' => converted type s f' data stride
    | None => type ∉ [ARGB; BGRA_PRE] \/ status <> 0 \/ fails t
    end).
Proof.
  intros Hs Hst Hpos Hmax ->. unfold publish_frame. apply wp_bind, wp_gets.
  destruct (create_RGB_caps _ _ _ _ _ _) as [caps|] eqn:Ec.
  - apply wp_bind, wp_call. intros [].
    + cbn [negb]. apply wp_bind, wp_call. intros []. destruct (Z.eqb_spec status 0).
      * eapply wp_mono; [apply finish_frame_spec; eassumption|]. cbn beta. intros r s' t [-> H].
        split; [reflexivity|]. destruct r; [exact H|]. right. right. rewrite !fails_app. tauto.
      * apply wp_ret. split; [reflexivity|]. right. left. assumption.
    + cbn [negb]. wp_steps. split; [reflexivity|]. right. right. left. reflexivity.
  - wp_steps. split; [reflexivity|]. left. destruct type; try discriminate; apply (bool_decide_unpack _); exact I.
Qed.

Lemma convert_colour_spec type src job s :
  sizes_ok s ->
  wp (convert_colour type src job) s (fun r s' t => s' = s /\
    match r with
    | Some f' => exists data, let stride := align16 (4 * m_uiEncodedWidth s) in
        converted type s f' data stride /\ owns t data (stride * m_uiEncodedHeight s)
    | None => type ∉ [ARGB; BGRA_PRE] \/
              rgb_geometry (m_uiEncodedWidth s) (m_uiEncodedHeight s) = None \/
              UINT_MAX - 16 < align16 (4 * m_uiEncodedWidth s) * m_uiEncodedHeight s \/ fails t
    end).
Proof.
  intros Hs. assert (Hs' := Hs). destruct Hs' as (_ & _ & Hw & Hh).
  unfold convert_colour. apply wp_bind, wp_gets. rewrite rgb_geometry_eq by assumption.
  destruct (_ && _) eqn:Hg; [|wp_steps; split; [reflexivity | tauto]].
  apply andb_prop in Hg as [[Hpos%Z.ltb_lt Hrow%Z.leb_le]%andb_prop Hmax%Z.leb_le].
  set (stride := align16 _) in *. set (h := m_uiEncodedHeight s) in *.
  assert (Hst : is_u32 stride) by (pose proof (align16_bounds (4 * m_uiEncodedWidth s));
    subst stride; unfold is_u32, UINT_MAX in *; lia).
  clearbody stride. apply wp_bind. eapply wp_mono; [apply alloc_aligned_buffer_spec; unfold is_u32 in *; nia|]. cbn beta.
  intros [[data n]|] s1 t1 [Es Hd]; rewrite Es; [|wp_steps; split; [reflexivity|]; rewrite !app_nil_r; tauto].
  clear s1 Es.
  destruct Hd as (En & Hn & Ho). apply wp_bind, wp_call. intros []; cbn [negb].
  - apply wp_bind, wp_call. intros status. apply wp_bind, wp_call. intros [].
    eapply wp_mono; [apply publish_frame_spec; [exact Hs | exact Hst | exact Hpos | exact Hmax | reflexivity]|]. cbn beta. intros r s' t [-> H].
    split; [reflexivity|]. destruct r as [f'|].
    + exists data. split; [exact H | rewrite app_nil_l; apply owns_app_l, Ho].
    + destruct H as [H|[H|H]]; [tauto| |]; do 3 right; rewrite !fails_app, !fails_cons; [|tauto].
      do 3 right. left. left. cbn. rewrite (proj2 (Z.eqb_neq _ _) H). reflexivity.
  - wp_steps. split; [reflexivity|]. do 3 right. rewrite !fails_app, fails_cons. do 2 right. left. left. reflexivity.
Qed.
End ConvertSpec.

(** What a colour conversion returns.  Converting a 4:2:0 frame never
    changes the frame itself.  When it returns a new frame, that frame is valid,
    has the requested format and the four dimensions of the source, and has one
    plane of the aligned stride and full height, inside sixteen-byte aligned
    memory that was allocated for it.  It returns none only if the target is no
    RGB format, the image is empty or too large for an unsigned integer, or a
    call (allocation, mapping, sample creation, colour conversion) failed. *)
Theorem ConvertFromYCbCr420p_result `{Env} (type : FrameType) (src : GstBuffer) (f : CVideoFrame) (w : world)
    (Hf : sizes_ok f) :
  let o := ConvertFromYCbCr420p type src f w in
  let stride := align16 (4 * m_uiEncodedWidth f) in
  ostate o = f /\
  match oval o with
  | Some f' => exists data, converted type f f' data stride /\
                            owns (otrace o) data (stride * m_uiEncodedHeight f)
  | None => type ∉ [ARGB; BGRA_PRE] \/
            rgb_geometry (m_uiEncodedWidth f) (m_uiEncodedHeight f) = None \/
            UINT_MAX - 16 < stride * m_uiEncodedHeight f \/ fails (otrace o)
  end.
Proof. exact (convert_colour_spec type src (job_420p type) f Hf w). Qed.

Definition frame_4x2 : CVideoFrame := snd (Init TargetLinux sample_4x2 new_CGstVideoFrame).

Lemma ConvertFromYCbCr420p_result_witness :
  oval (@ConvertFromYCbCr420p (nominal_env TargetLinux) ARGB (mkBuffer 0 false true 4096 12) frame_4x2 tt) <> None /\
  ostate (@ConvertFromYCbCr420p (nominal_env TargetLinux) ARGB (mkBuffer 0 false true 4096 12) frame_4x2 tt)
  = frame_4x2.
Proof.
  split; [vm_compute; discriminate|].
  assert (Hf : sizes_ok frame_4x2) by (vm_compute; split_and!; (discriminate || reflexivity)).
  destruct (@ConvertFromYCbCr420p_result (nominal_env TargetLinux) ARGB (mkBuffer 0 false true 4096 12) frame_4x2 tt Hf)
    as [H _].
  exact H.
Defined.

(** ** Byte swapping in bounds *)

Lemma elem_of_upto n i : i ∈ upto n <-> 0 <= i < n.
Proof.
  unfold upto. rewrite list_elem_of_fmap. split.
  - intros (k & -> & Hk%elem_of_seq). lia.
  - intros Hi. exists (Z.to_nat i). rewrite elem_of_seq. lia.
Qed.

(** Swapping in place of an aligned image is safe and complete.  When the
    stride and the buffer size are multiples of four, the loop of
    [ConvertSwapRGB] touches exactly the words of the buffer, each once and in
    order, and nothing outside it. *)
Theorem swap_offsets_aligned (size stride width height : Z)
    (Hstride : (4 | stride)) (Hsize : (4 | size)) (Hpos : 0 <= size) :
  let l := swap_offsets size stride width height in
  Forall (fun o => 0 <= o /\ o + 4 <= size) l /\
  (forall o, (4 | o) -> 0 <= o < size -> o ∈ l) /\ NoDup l.
Proof.
  destruct Hsize as [n ->]. unfold swap_offsets.
  assert (Hm : Z.land stride 3 = 0).
  { change 3 with (Z.ones 2). rewrite Z.land_ones by lia. apply Z.mod_divide; [discriminate | exact Hstride]. }
  rewrite Hm. cbn [Z.eqb]. replace ((n * 4 + 3) / 4) with n
    by (rewrite Z.add_comm, Z.div_add, Z.div_small by lia; lia).
  split_and!.
  - apply Forall_forall. intros o Ho. apply list_elem_of_fmap in Ho as (i & -> & Hi%elem_of_upto). lia.
  - intros o [i ->] Ho. apply list_elem_of_fmap. exists i. rewrite elem_of_upto. lia.
  - apply NoDup_fmap_2; [intros a b; lia|]. unfold upto. apply NoDup_fmap_2; [intros a b; lia | apply NoDup_seq].
Qed.

Lemma swap_offsets_aligned_witness :
  let l := swap_offsets 16 8 2 2 in
  l = [0; 4; 8; 12] /\ Forall (fun o => 0 <= o /\ o + 4 <= 16) l.
Proof.
  split; [vm_compute; reflexivity|].
  exact (proj1 (swap_offsets_aligned 16 8 2 2 ltac:(exists 2; reflexivity) ltac:(exists 4; reflexivity) ltac:(lia))).
Defined.

(** The row-by-row loop of [ConvertSwapRGB] leaves the buffer.  It moves
    its word pointers by the stride, which counts bytes: for every image of at
    least two rows whose stride is not a multiple of four, it reads and writes
    past the end of a buffer of stride times height bytes. *)
Theorem swap_offsets_unaligned_escapes (stride width height : Z)
    (Hstride : Z.land stride 3 <> 0) (Hpos : 0 < stride) (Hw : 0 < width) (Hh : 2 <= height) :
  exists o, o ∈ swap_offsets (stride * height) stride width height /\ stride * height < o + 4.
Proof.
  exists (4 * ((height - 1) * stride + 0)). split; [|nia]. unfold swap_offsets.
  rewrite (proj2 (Z.eqb_neq _ _) Hstride). apply list_elem_of_In, in_concat.
  exists (map (fun xx => 4 * ((height - 1) * stride + xx)) (upto width)).
  split; apply in_map_iff; [exists (height - 1) | exists 0];
    (split; [reflexivity | apply list_elem_of_In, elem_of_upto; lia]).
Qed.

Lemma swap_offsets_unaligned_escapes_witness :
  exists o, o ∈ swap_offsets (5 * 2) 5 1 2 /\ 5 * 2 < o + 4.
Proof.
  apply (swap_offsets_unaligned_escapes 5 1 2); [vm_compute; discriminate | lia | lia | lia].
Defined.

(** ** Which plane is which *)

Lemma place_plane_address i offset rows f :
  (i < 4)%nat -> arrays_ok f -> m_bIsValid (place_plane i offset rows f) = true ->
  arr_get (m_pvPlaneData (place_plane i offset rows f)) i = m_pvBufferBaseAddress f + offset.
Proof.
  intros Hi (H1 & _) Hv. unfold place_plane in *.
  destruct (CalcSize _ _ _) as [size v1] eqn:E1. simpl_set.
  destruct (CalcPlanePointer _ _ _ _ _) as [data v2] eqn:E2. revert Hv. simpl_set. intros ->.
  apply CalcPlanePointer_valid in E2 as (_ & -> & _). rewrite arr_get_insert_eq by lia. reflexivity.
Qed.

Lemma place_plane_address_ne i j offset rows f :
  j <> i -> arr_get (m_pvPlaneData (place_plane i offset rows f)) j = arr_get (m_pvPlaneData f) j.
Proof. intros Hj. unfold place_plane. repeat case_match. simpl_set. apply arr_get_insert_ne. congruence. Qed.

Lemma place_plane_valid_inv i offset rows f :
  (i < 4)%nat -> arrays_ok f -> m_bIsValid (place_plane i offset rows f) = true -> m_bIsValid f = true.
Proof.
  intros Hi Hf Hv. unfold place_plane in Hv.
  destruct (CalcSize _ _ _) as [size v1] eqn:E1. revert Hv. simpl_set.
  destruct (CalcPlanePointer _ _ _ _ _) as [data v2] eqn:E2. simpl_set. intros ->.
  apply CalcPlanePointer_valid in E2 as (-> & _). destruct Hf as (_ & _ & _ & Hs).
  apply CalcSize_valid in E1 as (-> & _); [reflexivity | apply arr_get_nonneg, Hs].
Qed.

(** The chroma planes are where the caps put them, before the swap. *)
Lemma layout_colour_addresses str f ov ou :
  arrays_ok f -> gst_structure_get_int str "offset-v" = Some ov -> gst_structure_get_int str "offset-u" = Some ou ->
  let c := fst (layout_colour str f) in m_bIsValid c = true ->
  arr_get (m_pvPlaneData c) 1 = m_pvBufferBaseAddress f + u32 ov /\
  arr_get (m_pvPlaneData c) 2 = m_pvBufferBaseAddress f + u32 ou.
Proof.
  intros Hf Hv Hu. unfold layout_colour. cbv zeta. cbn [fst].
  assert (Ev : forall d, get_uint str "offset-v" d = u32 ov) by (intros; unfold get_uint; rewrite Hv; reflexivity).
  assert (Eu : forall d, get_uint str "offset-u" d = u32 ou) by (intros; unfold get_uint; rewrite Hu; reflexivity).
  rewrite !Ev, !Eu. set (f0 := place_plane 0 _ _ f).
  assert (A0 : arrays_ok f0) by (apply place_plane_arrays, Hf).
  assert (B0 : mapped f0 = mapped f) by apply place_plane_mapped. clearbody f0.
  set (f1 := place_plane 1 _ _ f0). assert (A1 : arrays_ok f1) by (apply place_plane_arrays, A0).
  assert (B1 : mapped f1 = mapped f) by (rewrite <- B0; apply place_plane_mapped).
  unfold mapped in B0, B1. injection B0 as B0 _ _. injection B1 as B1 _ _.
  intros Hval. assert (V1 := place_plane_valid_inv 2 _ _ f1 ltac:(lia) A1 Hval).
  rewrite place_plane_address by (assumption || lia). rewrite B1. split; [|reflexivity].
  rewrite place_plane_address_ne by lia. subst f1. rewrite place_plane_address by (assumption || lia).
  rewrite B0. reflexivity.
Qed.

Lemma layout_alpha_addresses str o f j :
  (j < 3)%nat -> arr_get (m_pvPlaneData (layout_alpha str o f)) j = arr_get (m_pvPlaneData f) j.
Proof.
  intros Hj. unfold layout_alpha. cbv zeta. rewrite place_plane_address_ne by lia.
  unfold SetPlaneCount. split_if; reflexivity.
Qed.

Lemma layout_alpha_valid str o f :
  arrays_ok f -> m_bIsValid (layout_alpha str o f) = true -> m_bIsValid f = true.
Proof.
  intros Hf Hv. unfold layout_alpha in Hv. cbv zeta in Hv. apply place_plane_valid_inv in Hv; [|lia|].
  - revert Hv. unfold SetPlaneCount. split_if; exact (fun H => H).
  - apply set_stride_ok; [|apply SetPlaneCount_frame, Hf].
    unfold get_uint. case_match; [apply u32_range|]. apply arr_get_nonneg.
    unfold SetPlaneCount. split_if; apply Hf.
Qed.

Lemma SwapPlanes_addresses f :
  arrays_ok f -> m_uiPlaneCount f = 3 \/ m_uiPlaneCount f = 4 ->
  arr_get (m_pvPlaneData (SwapPlanes 1 2 f)) 1 = arr_get (m_pvPlaneData f) 2 /\
  arr_get (m_pvPlaneData (SwapPlanes 1 2 f)) 2 = arr_get (m_pvPlaneData f) 1.
Proof.
  intros (H1 & _) Hc. unfold SwapPlanes.
  rewrite (proj2 (Z.ltb_lt 1 _)), (proj2 (Z.ltb_lt 2 _)) by lia. change (1 =? 2) with false. cbn [negb andb]. cbv zeta.
  change (Z.to_nat 1) with 1%nat. change (Z.to_nat 2) with 2%nat. unfold swap_at. simpl_set. split.
  - rewrite arr_get_insert_ne by lia. apply arr_get_insert_eq. lia.
  - apply arr_get_insert_eq. rewrite length_insert. lia.
Qed.

Lemma layout_420p_chroma str f ov ou type stride :
  arrays_ok f -> is_u32 (m_uiEncodedWidth f) -> m_typeFrame f = YCbCr_420p ->
  gst_structure_get_int str "offset-v" = Some ov -> gst_structure_get_int str "offset-u" = Some ou ->
  m_bIsValid (layout_420p str f) = true ->
  let planes := cj_planes (job_420p type stride (layout_420p str f)) in
  nth_error planes 1 = Some (m_pvBufferBaseAddress f + u32 ov) /\
  nth_error planes 2 = Some (m_pvBufferBaseAddress f + u32 ou).
Proof.
  intros Hf Hw Ht Hv Hu. unfold layout_420p. set (g := with_strides str _).
  assert (Ag : arrays_ok g) by (apply with_strides_ok; assumption).
  assert (Cg : m_uiPlaneCount g = 3) by reflexivity.
  assert (Bg : m_pvBufferBaseAddress g = m_pvBufferBaseAddress f) by reflexivity. clearbody g.
  assert (Hc := layout_colour_addresses str g ov ou Ag Hv Hu).
  assert (Ac : arrays_ok (fst (layout_colour str g))) by (apply layout_colour_inside, Ag).
  assert (Cc := layout_colour_count str g). destruct (layout_colour str g) as [c o]. cbn [fst] in *.
  set (d := if gst_bHasAlpha c then layout_alpha str o c else c).
  assert (Hd : arrays_ok d /\ (m_uiPlaneCount d = 3 \/ m_uiPlaneCount d = 4) /\ (m_bIsValid d = true ->
     arr_get (m_pvPlaneData d) 1 = m_pvBufferBaseAddress f + u32 ov /\
     arr_get (m_pvPlaneData d) 2 = m_pvBufferBaseAddress f + u32 ou)).
  { subst d. destruct (gst_bHasAlpha c).
    - split_and!.
      + unfold layout_alpha. cbv zeta. apply place_plane_arrays, set_stride_ok;
          [|apply SetPlaneCount_frame, Ac].
        unfold get_uint. case_match; [apply u32_range | apply arr_get_nonneg; unfold SetPlaneCount; split_if; apply Ac].
      + right. unfold layout_alpha. cbv zeta. rewrite place_plane_count, Cc, Cg. reflexivity.
      + intros Hval%layout_alpha_valid; [|exact Ac]. rewrite !layout_alpha_addresses by lia.
        rewrite <- Bg. apply Hc, Hval.
    - split_and!; [exact Ac | left; congruence | rewrite <- Bg; exact Hc]. }
  clearbody d. destruct Hd as (Ad & Cd & Pd). unfold job_420p, chroma_index.
  destruct (m_bIsI420 d) eqn:EI.
  - intros Hval. destruct (SwapPlanes_addresses d Ad Cd) as [S1 S2].
    assert (Vd : m_bIsValid d = true) by (revert Hval; unfold SwapPlanes; split_if; auto).
    assert (EI' : m_bIsI420 (SwapPlanes 1 2 d) = true) by (unfold SwapPlanes; split_if; exact EI).
    rewrite EI'. cbn -[SwapPlanes]. rewrite S1, S2. destruct (Pd Vd) as [-> ->]. split; reflexivity.
  - intros Hval. rewrite EI. cbn. destruct (Pd Hval) as [-> ->]. split; reflexivity.
Qed.

(** Colour conversion reads each chroma plane from where the caps put it.
    Whatever the chroma order of the format (planes 1 and 2 are swapped when an
    I420 frame is laid out and the indices are swapped again when it is
    converted), the plane handed to the converter as V is the one at the caps'
    [offset-v], and the one handed as U is at [offset-u]. *)
Theorem conversion_reads_named_chroma (str : GstStructure) (f : CVideoFrame) (ov ou : Z)
    (type : FrameType) (stride : Z)
    (Hov : gst_structure_get_int str "offset-v" = Some ov)
    (Hou : gst_structure_get_int str "offset-u" = Some ou)
    (Hvalid : IsValid (SetFrameCaps str f) = true)
    (Htype : m_typeFrame (SetFrameCaps str f) = YCbCr_420p) :
  let planes := cj_planes (job_420p type stride (SetFrameCaps str f)) in
  nth_error planes 1 = Some (m_pvBufferBaseAddress f + u32 ov) /\
  nth_error planes 2 = Some (m_pvBufferBaseAddress f + u32 ou).
Proof.
  revert Hvalid Htype. unfold IsValid, SetFrameCaps.
  assert (Bg := set_format_mapped str f). destruct (set_format str f) as [g []] eqn:E; cbn [negb fst] in *.
  - assert (Bh : m_pvBufferBaseAddress (Reset (set_dimensions str g)) = m_pvBufferBaseAddress f)
      by exact (f_equal (fun x => fst (fst x)) (eq_trans (set_dimensions_mapped str g) Bg)).
    rewrite <- Bh. set (h := Reset _) in *.
    assert (Ah : arrays_ok h) by apply Reset_arrays.
    assert (Hw : is_u32 (m_uiEncodedWidth h)) by apply set_dimensions_width. clearbody h.
    assert (Tp : m_typeFrame (layout_packed str h) = m_typeFrame h)
      by (unfold layout_packed, place_plane; cbv zeta; repeat case_match; reflexivity).
    destruct (m_typeFrame h) eqn:T; try (intros; congruence). intros. apply layout_420p_chroma; assumption.
  - unfold set_format in E. repeat case_match; simplify_eq; discriminate.
Qed.

(** An I420 frame with explicit offsets. *)
Definition caps_i420 : GstStructure :=
  mkStructure "video/x-raw-yuv"
    [("width"%string, GInt 4); ("height"%string, GInt 2); ("format"%string, GString "I420");
     ("offset-u"%string, GInt 8); ("offset-v"%string, GInt 10)].
Definition mapped_frame : CVideoFrame :=
  new_CGstVideoFrame <| m_pvBufferBaseAddress := 4096 |> <| m_ulBufferSize := 12 |>.

Lemma conversion_reads_named_chroma_witness :
  let planes := cj_planes (job_420p ARGB 16 (SetFrameCaps caps_i420 mapped_frame)) in
  nth_error planes 1 = Some (4096 + u32 10) /\ nth_error planes 2 = Some (4096 + u32 8).
Proof.
  exact (conversion_reads_named_chroma caps_i420 mapped_frame 10 8 ARGB 16 ltac:(reflexivity) ltac:(reflexivity)
           ltac:(vm_compute; reflexivity) ltac:(vm_compute; reflexivity)).
Defined.
