(* ===== verification/FrameLayout.v ===== *)
(** * The invariant of video frames

    What every [CVideoFrame] satisfies, valid or not: the plane arrays have
    their C++ length, the plane count indexes them, and every dimension and
    stride is a 32-bit unsigned value.  Each operation of [VideoFrame.v] keeps
    it, so the accessors never leave the arrays. *)

From S2P Require Import Prelude CFloat MediaTypes GstApi VideoFrame FrameConvert.
Local Open Scope Z_scope.

Record typed (f : CVideoFrame) : Prop := {
  typed_data : List.length (m_pvPlaneData f) = 4%nat;
  typed_size : List.length (m_pulPlaneSize f) = 4%nat;
  typed_strides : List.length (m_puiPlaneStrides f) = 4%nat;
  typed_u32 : Forall is_u32 (m_puiPlaneStrides f);
  typed_count : 0 <= m_uiPlaneCount f <= MAX_PLANE_COUNT;
  typed_sizes : sizes_ok f }.

Create HintDb typed.

Lemma is_u32_0 : is_u32 0.
Proof. split; [lia | reflexivity]. Qed.
Lemma typed_stride f k : typed f -> is_u32 (arr_get (m_puiPlaneStrides f) k).
Proof.
  intros [_ _ _ Hs _ _]. unfold arr_get. rewrite nth_lookup. destruct (m_puiPlaneStrides f !! k) as [s|] eqn:E; cbn; [|apply is_u32_0].
  rewrite Forall_lookup in Hs. exact (Hs _ _ E).
Qed.
Lemma typed_width f : typed f -> is_u32 (m_uiEncodedWidth f).
Proof. intros H. apply (typed_sizes f H). Qed.

Lemma typed_arrays f : typed f -> arrays_ok f.
Proof.
  intros [H1 H2 H3 H4 _ _]. split_and!; [assumption ..|]. eapply Forall_impl; [exact H4|]. intros z Hz. apply Hz.
Qed.

(** ** The operations keep it *)

Lemma typed_Reset f : sizes_ok f -> typed (Reset f).
Proof.
  intros H. assert (Forall is_u32 [0; 0; 0; 0]) by (rewrite !Forall_cons; pose proof is_u32_0; auto).
  split; [reflexivity | reflexivity | reflexivity | assumption | change (0 <= 0 <= 4); lia | exact H].
Qed.
Lemma typed_SetPlaneCount n f : 0 <= n -> typed f -> typed (SetPlaneCount n f).
Proof.
  intros Hn [H1 H2 H3 H4 _ H6]. unfold SetPlaneCount.
  split_if; bools; (split; [exact H1 | exact H2 | exact H3 | exact H4 | simpl_set; unfold MAX_PLANE_COUNT in *; lia | exact H6]).
Qed.
Lemma typed_set_stride k v f : is_u32 v -> typed f -> typed (set_stride k v f).
Proof.
  intros Hv [H1 H2 H3 H4 H5 H6]. unfold set_stride. split; try assumption.
  - simpl_set. rewrite length_insert. exact H3.
  - simpl_set. apply Forall_insert; assumption.
Qed.
Lemma typed_place_plane k offset rows f : typed f -> typed (place_plane k offset rows f).
Proof.
  intros [H1 H2 H3 H4 H5 H6]. unfold place_plane. repeat case_match.
  split; simpl_set; rewrite ?length_insert; assumption.
Qed.
Lemma typed_SwapPlanes a b f : typed f -> typed (SwapPlanes a b f).
Proof.
  intros Hf. pose proof Hf as [H1 H2 H3 H4 H5 H6]. unfold SwapPlanes. split_if; [|exact Hf]. unfold swap_at.
  split; simpl_set; rewrite ?length_insert; try assumption.
  repeat apply Forall_insert; try exact H4; exact (typed_stride f _ Hf).
Qed.

#[export] Hint Resolve is_u32_0 typed_Reset typed_SetPlaneCount typed_set_stride typed_place_plane typed_SwapPlanes
  typed_stride typed_width get_uint_range half_u32 u32_range : typed.

Lemma typed_with_strides str f : typed f -> typed (with_strides str f).
Proof.
  intros Hf. unfold with_strides. cbv zeta. set (f0 := set_stride 0 _ f). assert (typed f0) by (subst f0; auto with typed).
  clearbody f0. set (f1 := set_stride 1 _ f0). assert (typed f1) by (subst f1; auto with typed). clearbody f1. auto with typed.
Qed.
Lemma typed_layout_colour str f : typed f -> typed (fst (layout_colour str f)).
Proof. intros Hf. unfold layout_colour. cbv zeta. cbn [fst]. auto with typed. Qed.
Lemma typed_layout_alpha str o f : typed f -> typed (layout_alpha str o f).
Proof.
  intros Hf. unfold layout_alpha. cbv zeta. assert (typed (SetPlaneCount (u32 (m_uiPlaneCount f + 1)) f)) by
    (apply typed_SetPlaneCount; [apply u32_range | exact Hf]). auto with typed.
Qed.
#[export] Hint Resolve typed_with_strides typed_layout_colour typed_layout_alpha : typed.

Lemma typed_layout_420p str f : typed f -> typed (layout_420p str f).
Proof.
  intros Hf. unfold layout_420p. set (g := with_strides str _). assert (Hg : typed g) by (subst g; auto with typed lia).
  clearbody g. pose proof (typed_layout_colour str g Hg) as Hc. destruct (layout_colour str g) as [c o]. cbn [fst] in Hc.
  repeat split_if; auto with typed.
Qed.
Lemma typed_layout_packed str f : typed f -> typed (layout_packed str f).
Proof. intros Hf. unfold layout_packed. cbv zeta. apply typed_place_plane, typed_set_stride; auto with typed lia. Qed.

Lemma sizes_set_dimensions str f : sizes_ok (set_dimensions str f).
Proof.
  assert (forall o, is_u32 (match o with Some z => u32 z | None => 0 end)) by (intros []; auto with typed).
  unfold set_dimensions. destruct (gst_structure_get_int str "width"), (gst_structure_get_int str "height");
    (split_and!; simpl_set; auto with typed).
Qed.

Lemma typed_set_format str f : typed f -> typed (fst (set_format str f)).
Proof. intros [H1 H2 H3 H4 H5 H6]. unfold set_format. repeat case_match; (split; assumption). Qed.

Lemma typed_SetFrameCaps str f : typed f -> typed (SetFrameCaps str f).
Proof.
  intros Hf. unfold SetFrameCaps. pose proof (typed_set_format str f Hf) as Hg.
  destruct (set_format str f) as [g []]; cbn [negb fst] in *; [|exact Hg].
  pose proof (typed_Reset _ (sizes_set_dimensions str g)). case_match; auto using typed_layout_420p, typed_layout_packed.
Qed.

Lemma typed_new : typed new_CGstVideoFrame.
Proof. apply typed_Reset. split_and!; apply is_u32_0. Qed.

Lemma typed_Init p sample f : typed f -> typed (snd (Init p sample f)).
Proof.
  intros Hf. pose proof Hf as [H1 H2 H3 H4 H5 H6]. unfold Init.
  destruct (sample_buffer sample) as [b|]; [|split; assumption]. destruct (gb_map b); cbn [negb]; [|split; assumption].
  destruct (gb_pts b =? _), (sample_caps sample) as [[|str l]|]; try (split; assumption);
    apply typed_SetFrameCaps; split; assumption.
Qed.

(** ** Frames of the program *)

(** The frames that the constructor and the methods make. *)
Inductive frame_made : CVideoFrame -> Prop :=
| made_new : frame_made new_CGstVideoFrame
| made_Init p sample f : frame_made f -> frame_made (snd (Init p sample f))
| made_SetPlaneCount n f : 0 <= n -> frame_made f -> frame_made (SetPlaneCount n f)
| made_SwapPlanes a b f : frame_made f -> frame_made (SwapPlanes a b f)
| made_Dispose f : frame_made f -> frame_made (fst (Dispose f)).

Lemma frame_made_typed f : frame_made f -> typed f.
Proof.
  induction 1 as [|p sample f _ IH|n f Hn _ IH|a b f _ IH|f _ IH];
    [exact typed_new | apply typed_Init, IH | apply typed_SetPlaneCount; assumption | apply typed_SwapPlanes, IH |].
  destruct IH. split; assumption.
Qed.

(** C31: Type safety of video frames.  In every frame the constructor and the
    methods can make, from any sample and in any order of calls, the three
    plane arrays have four entries, at most four planes are counted, and the
    dimensions and strides are 32-bit unsigned values; so each plane accessor
    reads an entry of its array for every plane the frame counts, and
    exchanging two counted planes stays inside the arrays. *)
Theorem frames_typed f (Hf : frame_made f) :
  typed f /\
  forall i, 0 <= i < m_uiPlaneCount f ->
    m_pvPlaneData f !! Z.to_nat i = Some (GetDataForPlane i f) /\
    m_pulPlaneSize f !! Z.to_nat i = Some (GetSizeForPlane i f) /\
    m_puiPlaneStrides f !! Z.to_nat i = Some (GetStrideForPlane i f) /\ is_u32 (GetStrideForPlane i f).
Proof.
  pose proof (frame_made_typed f Hf) as Ht. split; [exact Ht|]. intros i Hi. pose proof Ht as [H1 H2 H3 H4 H5 _].
  unfold GetDataForPlane, GetSizeForPlane, GetStrideForPlane, MAX_PLANE_COUNT in *. rewrite (proj2 (Z.ltb_lt i 4)) by lia.
  unfold arr_get. rewrite !nth_lookup. split_and!; [| | | rewrite <- nth_lookup; exact (typed_stride f _ Ht)];
    (match goal with |- ?l !! ?k = _ => destruct (lookup_lt_is_Some_2 l k ltac:(lia)) as [x ->] end; reflexivity).
Qed.

Lemma frames_typed_witness :
  typed frame_4x2 /\ m_puiPlaneStrides frame_4x2 !! 1%nat = Some (GetStrideForPlane 1 frame_4x2).
Proof.
  destruct (frames_typed frame_4x2 (made_Init TargetLinux sample_4x2 new_CGstVideoFrame made_new)) as [Ht H].
  split; [exact Ht|]. apply (H 1). vm_compute. split; [discriminate | reflexivity].
Defined.

(** ** Planes of a 4:2:0 frame *)

Lemma layout_alpha_count_4 str o f : m_uiPlaneCount f = 3 -> m_uiPlaneCount (layout_alpha str o f) = 4.
Proof. intros H. unfold layout_alpha. cbv zeta. rewrite place_plane_count, H. reflexivity. Qed.

Lemma layout_420p_planes str f :
  m_uiPlaneCount (layout_420p str f) = if gst_bHasAlpha (layout_420p str f) then 4 else 3.
Proof.
  unfold layout_420p. pose proof (layout_colour_count str (with_strides str (SetPlaneCount 3 f))) as C.
  destruct (layout_colour _ _) as [c o]. cbn [fst] in C. change (m_uiPlaneCount _) with 3 in C at 2.
  assert (S : forall g, m_uiPlaneCount (SwapPlanes 1 2 g) = m_uiPlaneCount g /\ gst_bHasAlpha (SwapPlanes 1 2 g) = gst_bHasAlpha g)
    by (intros g; unfold SwapPlanes; split_if; auto).
  set (d := if gst_bHasAlpha c then layout_alpha str o c else c).
  assert (D : m_uiPlaneCount d = if gst_bHasAlpha d then 4 else 3).
  { subst d. destruct (gst_bHasAlpha c) eqn:E; [|rewrite E; exact C]. rewrite layout_alpha_count_4 by exact C.
    replace (gst_bHasAlpha (layout_alpha str o c)) with true; [reflexivity|]. rewrite <- E. symmetry.
    unfold layout_alpha, place_plane, SetPlaneCount. cbv zeta. repeat case_match; reflexivity. }
  clearbody d. destruct (m_bIsI420 d); [rewrite !(proj1 (S d)), !(proj2 (S d))|]; exact D.
Qed.

Lemma Init_420p_planes p sample b f : Init p sample new_CGstVideoFrame = (true, f) -> sample_buffer sample = Some b ->
  IsValid f = true -> m_typeFrame f = YCbCr_420p -> m_uiPlaneCount f = if gst_bHasAlpha f then 4 else 3.
Proof.
  intros Hi Hb. destruct (Init_SetFrameCaps p sample b f Hi Hb) as (str & g & _ & _ & ->). clear. unfold IsValid, SetFrameCaps.
  destruct (set_format str g) as [h []] eqn:E; cbn [negb].
  - set (r := Reset _). clearbody r.
    assert (Tp : m_typeFrame (layout_packed str r) = m_typeFrame r)
      by (unfold layout_packed, place_plane; cbv zeta; repeat case_match; reflexivity).
    intros _ T. destruct (m_typeFrame r) eqn:R; try congruence. apply layout_420p_planes.
  - unfold set_format in E. repeat case_match; simplify_eq; discriminate.
Qed.
