(* ===== verification/PipelineState.v ===== *)
(** * Fields of the playback pipelines

    The object state of [CPipeline] ([PipelineManagement/Pipeline.h]),
    [CGstAudioPlaybackPipeline] ([GstAudioPlaybackPipeline.h]) and
    [CGstAVPlaybackPipeline] ([GstAVPlaybackPipeline.h]) in one record: the
    class hierarchy is linear, and [klass] says which class the object has, so
    that virtual calls can be dispatched on it.  The fields of the derived class
    are present but unused in an audio pipeline.  The constructors are here
    too. *)

From S2P Require Import Prelude CFloat MediaTypes GstApi Effects.

Local Open Scope Z_scope.

Inductive PipelineClass := AudioPlayback | AVPlayback.
#[export] Instance PipelineClass_eq_dec : EqDecision PipelineClass.
Proof. solve_decision. Defined.

(** [struct AudioTrackInfo]: what is known of the audio track so far, [-1] for
    the numbers that are not known yet. *)
Record AudioTrackInfo := mkAudioTrackInfo {
  trackEnabled : bool;
  trackID : Z;
  mimeType : string;
  channels : Z;
  rate : Z;
  mpegversion : Z;
  layer : Z
}.
#[export] Instance AudioTrackInfo_eta : Eta AudioTrackInfo :=
    (eta_ap (eta_ap (eta_ap (eta_ap (eta_ap (eta_ap (eta_ap (eta_pure mkAudioTrackInfo)
    trackEnabled) trackID) mimeType) channels) rate) mpegversion) layer).

Definition new_AudioTrackInfo : AudioTrackInfo := mkAudioTrackInfo false 0 "" (-1) (-1) (-1) (-1).

(** [struct sBusCallbackContent], shared between the pipeline and the bus
    watch; [cb_freed] records that it was deleted. *)
Record sBusCallbackContent := mkBusCallbackContent {
  m_bIsDisposed : bool;
  m_bIsDisposeInProgress : bool;
  m_bFreeMe : bool;
  cb_freed : bool
}.
#[export] Instance sBusCallbackContent_eta : Eta sBusCallbackContent :=
    (eta_ap (eta_ap (eta_ap (eta_ap (eta_pure mkBusCallbackContent) m_bIsDisposed)
    m_bIsDisposeInProgress) m_bFreeMe) cb_freed).

Record pipeline := mkPipeline {
  klass : PipelineClass;
  m_pEventDispatcher : bool;
  m_pOptions : CPipelineOptions;
  m_PlayerState : PlayerState;
  m_PlayerPendingState : PlayerState;
  m_bHasAudio : bool;
  m_bHasVideo : bool;
  m_bAudioInitDone : bool;
  m_bVideoInitDone : bool;
  m_bStaticPipeline : bool;
  m_bDynamicElementsReady : bool;
  m_bAudioSinkReady : bool;
  m_bVideoSinkReady : bool;
  m_Elements : gmap ElementRole ptr;
  m_dResumeDeltaTime : double;
  m_fRate : float;
  m_bSeekInvoked : bool;
  m_ulLastStreamTime : Z;
  m_pAudioEqualizer : bool;
  m_pAudioSpectrum : bool;
  m_audioCodecErrorCode : ErrCode;
  m_StallOnPause : bool;
  m_AudioFlags : Z;
  m_audioSinkPadProbeHID : Z;
  m_audioSourcePadProbeHID : Z;
  m_BufferPosition : double;
  m_bHLSPBFull : bool;
  m_LastSeekTime : Z;
  m_AudioTrackInfo : AudioTrackInfo;
  m_pBusSource : ptr;
  m_bIgnoreError : bool;
  m_bResumePlayOnNonzeroRate : bool;
  m_dLastReportedDuration : double;
  m_bSetClock : bool;
  m_bIsClockSet : bool;
  m_llLastProgressValueStart : Z;
  m_llLastProgressValuePosition : Z;
  m_llLastProgressValueStop : Z;
  m_bLastProgressValueEOS : bool;
  m_pBusCallbackContent : option sBusCallbackContent;
  m_SendFrameSizeEvent : bool;
  m_FrameWidth : Z;
  m_FrameHeight : Z;
  m_videoDecoderSrcProbeHID : Z;
  m_EncodedVideoFrameRate : float;
  m_videoCodecErrorCode : ErrCode;
  m_FirstPTS : Z
}.
#[export] Instance pipeline_eta : Eta pipeline :=
    (eta_ap (eta_ap (eta_ap (eta_ap (eta_ap (eta_ap (eta_ap (eta_ap (eta_ap (eta_ap (eta_ap (eta_ap
    (eta_ap (eta_ap (eta_ap (eta_ap (eta_ap (eta_ap (eta_ap (eta_ap (eta_ap (eta_ap (eta_ap (eta_ap
    (eta_ap (eta_ap (eta_ap (eta_ap (eta_ap (eta_ap (eta_ap (eta_ap (eta_ap (eta_ap (eta_ap (eta_ap
    (eta_ap (eta_ap (eta_ap (eta_ap (eta_ap (eta_ap (eta_ap (eta_ap (eta_ap (eta_ap (eta_ap
    (eta_pure mkPipeline) klass) m_pEventDispatcher) m_pOptions) m_PlayerState)
    m_PlayerPendingState) m_bHasAudio) m_bHasVideo) m_bAudioInitDone) m_bVideoInitDone)
    m_bStaticPipeline) m_bDynamicElementsReady) m_bAudioSinkReady) m_bVideoSinkReady) m_Elements)
    m_dResumeDeltaTime) m_fRate) m_bSeekInvoked) m_ulLastStreamTime) m_pAudioEqualizer)
    m_pAudioSpectrum) m_audioCodecErrorCode) m_StallOnPause) m_AudioFlags) m_audioSinkPadProbeHID)
    m_audioSourcePadProbeHID) m_BufferPosition) m_bHLSPBFull) m_LastSeekTime) m_AudioTrackInfo)
    m_pBusSource) m_bIgnoreError) m_bResumePlayOnNonzeroRate) m_dLastReportedDuration) m_bSetClock)
    m_bIsClockSet) m_llLastProgressValueStart) m_llLastProgressValuePosition)
    m_llLastProgressValueStop) m_bLastProgressValueEOS) m_pBusCallbackContent)
    m_SendFrameSizeEvent) m_FrameWidth) m_FrameHeight) m_videoDecoderSrcProbeHID)
    m_EncodedVideoFrameRate) m_videoCodecErrorCode) m_FirstPTS).

Definition AUDIO_DECODER_HAS_SINK_PROBE : Z := 1.
Definition AUDIO_DECODER_HAS_SOURCE_PROBE : Z := 2.
Definition DURATION_INDEFINITE : double := Eval vm_compute in Z_to_double (-1).
Definition DURATION_UNKNOWN : double := Eval vm_compute in Z_to_double (-2).
Definition AUDIO_RESUME_DELTA_TIME : double := Eval vm_compute in Z_to_double 10.
Definition VIDEO_RESUME_DELTA_TIME : double := Eval vm_compute in Z_to_double 10.

Definition elem (p : pipeline) (r : ElementRole) : ptr := container_get (m_Elements p) r.
Definition non_null (e : ptr) : bool := match e with Some _ => true | None => false end.

(** The constructor of the audio pipeline, after the base class's.  Two fields
    have no initialiser in the source: [resume0] and [probe0] are the values
    they happen to hold. *)
Definition new_CGstAudioPlaybackPipeline (resume0 : bool) (probe0 : Z)
    (elements : gmap ElementRole ptr) (flags : Z) (pOptions : CPipelineOptions) : pipeline :=
  {| klass := AudioPlayback;
     m_pEventDispatcher := false; m_pOptions := pOptions;
     m_PlayerState := Unknown; m_PlayerPendingState := Unknown;
     m_bHasAudio := false; m_bHasVideo := false;
     m_bAudioInitDone := false; m_bVideoInitDone := false;
     m_bStaticPipeline := true; m_bDynamicElementsReady := false;
     m_bAudioSinkReady := false; m_bVideoSinkReady := false;
     m_Elements := elements;
     m_dResumeDeltaTime :=
       if non_null (container_get elements VIDEO_SINK)
       then VIDEO_RESUME_DELTA_TIME else AUDIO_RESUME_DELTA_TIME;
     m_fRate := f_one; m_bSeekInvoked := false; m_ulLastStreamTime := 0;
     m_pAudioEqualizer := false; m_pAudioSpectrum := false;
     m_audioCodecErrorCode := ERROR_NONE; m_StallOnPause := false;
     m_AudioFlags := flags; m_audioSinkPadProbeHID := probe0; m_audioSourcePadProbeHID := 0;
     m_BufferPosition := d_zero; m_bHLSPBFull := false; m_LastSeekTime := -1;
     m_AudioTrackInfo := new_AudioTrackInfo;
     m_pBusSource := None; m_bIgnoreError := false; m_bResumePlayOnNonzeroRate := resume0;
     m_dLastReportedDuration := DURATION_UNKNOWN;
     m_bSetClock := false; m_bIsClockSet := false;
     m_llLastProgressValueStart := 0; m_llLastProgressValuePosition := 0;
     m_llLastProgressValueStop := 0; m_bLastProgressValueEOS := false;
     m_pBusCallbackContent := None;
     m_SendFrameSizeEvent := false; m_FrameWidth := 0; m_FrameHeight := 0;
     m_videoDecoderSrcProbeHID := 0; m_EncodedVideoFrameRate := f_zero;
     m_videoCodecErrorCode := ERROR_NONE; m_FirstPTS := 0 |}.

(** The constructor of the audio-video pipeline. *)
Definition new_CGstAVPlaybackPipeline (resume0 : bool) (probe0 : Z)
    (elements : gmap ElementRole ptr) (audioFlags : Z) (pOptions : CPipelineOptions) : pipeline :=
  (new_CGstAudioPlaybackPipeline resume0 probe0 elements audioFlags pOptions)
    <| klass := AVPlayback |>
    <| m_videoDecoderSrcProbeHID := 0 |>
    <| m_EncodedVideoFrameRate := Z_to_float 24 |>
    <| m_SendFrameSizeEvent := true |>
    <| m_FrameWidth := 0 |>
    <| m_FrameHeight := 0 |>
    <| m_videoCodecErrorCode := ERROR_NONE |>
    <| m_bStaticPipeline := false |>
    <| m_FirstPTS := GST_CLOCK_TIME_NONE |>.

(** ** Shorthands of the code that follows *)

Section Helpers.
Context `{EV : Env}.

Definition PM : Type -> Type := M pipeline.

(** [m_Elements[role]]. *)
Definition element (r : ElementRole) : PM ptr := gets (fun p => elem p r).

(** A failed send of a media error is only logged. *)
Definition send_media_error (code : ErrCode) : PM unit :=
  let* ok := call (SendPlayerMediaErrorEvent code) in
  when (negb ok) (call (LOGGER_LOGMSG LOGGER_ERROR (line "Cannot send media error event."))).

(** Sends an event; when that fails, a media error with [code]. *)
Definition send_or_error (event : ext bool) (code : ErrCode) : PM unit :=
  let* ok := call event in
  when (negb ok) (send_media_error code).
End Helpers.

Lemma disciplined_send_media_error `{Env} n code : disciplined n (send_media_error code).
Proof. unfold send_media_error, PM. solve_locks. Qed.
#[export] Hint Resolve disciplined_send_media_error : locks.

Lemma disciplined_send_or_error `{Env} n (event : ext bool) code :
  (forall r, lock_op (Obs event r) = None) -> disciplined n (send_or_error event code).
Proof.
  intros Hev. unfold send_or_error, PM. intros h Hh. eapply locks_bind.
  - apply locks_call, Hev.
  - solve_locks.
Qed.
#[export] Hint Extern 1 (disciplined _ (send_or_error _ _)) =>
  (apply disciplined_send_or_error; reflexivity) : locks.
