(* ===== verification/AudioPipeline.v ===== *)
(** * Transport of the playback pipeline

    The operations the player calls on a pipeline ([CGstAudioPlaybackPipeline]
    of [platform/gstreamer/GstAudioPlaybackPipeline.cpp]): play, stop, finish,
    pause, seek, rate, duration, stream time, volume, balance and audio delay,
    with the two functions that change the player state.  [CheckQueueSize] is
    virtual: its audio-video version ([GstAVPlaybackPipeline.cpp]) is here
    because [InternalPause] and [SeekPipeline] call it. *)

From S2P Require Import Prelude CFloat MediaTypes GstApi Effects PipelineState.

Local Open Scope Z_scope.

Definition MAX_SIZE_BUFFERS_LIMIT : Z := 25.
Definition MAX_SIZE_BUFFERS_INC : Z := 5.

Section Transport.
Context `{EV : Env}.

(** ** Player state tests *)

Definition IsPlayerState (state : PlayerState) : PM bool :=
  enter StateLock ;;
  let* cur := gets m_PlayerState in
  exit StateLock ;;
  ret (cur == state).

Definition IsPlayerPendingState (state : PlayerState) : PM bool :=
  enter StateLock ;;
  let* cur := gets m_PlayerPendingState in
  exit StateLock ;;
  ret (cur == state).

(** ** Queue sizes of the audio-video pipeline *)

(** [g_object_get(queue, "current-level-buffers", .., "max_size_buffers", ..)]:
    whether the queue of the given role is full. *)
Definition queue_full (r : ElementRole) : PM bool :=
  let* q := element r in
  let* cur := call (g_object_get_uint q "current-level-buffers") in
  let* max := call (g_object_get_uint q "max_size_buffers") in
  ret (max <=? cur).

(** The tail of [CheckQueueSize] once the full queue [element] is known. *)
Definition grow_queue (q : ptr) : PM unit :=
  let* pipe := element PIPELINE in
  let* '(_, state, pending_state) := call (gst_element_get_state pipe) in
  let* unknown := IsPlayerState Unknown in
  let* stall := gets m_StallOnPause in
  let* aq := element AUDIO_QUEUE in
  let* vq := element VIDEO_QUEUE in
  let other_level (limit : Z -> bool) : PM bool :=
    if aq == q then
      let* cur := call (g_object_get_uint vq "current-level-buffers") in ret (limit cur)
    else if vq == q then
      let* cur := call (g_object_get_uint aq "current-level-buffers") in ret (limit cur)
    else ret false in
  let* inc_size_time :=
    if unknown || stall
       || ((state == GST_STATE_PAUSED) && (pending_state == GST_STATE_PLAYING))
       || ((state == GST_STATE_PLAYING) && (pending_state == GST_STATE_PAUSED))
    then other_level (fun cur => cur <? MAX_SIZE_BUFFERS_LIMIT)
    else if ((state == GST_STATE_PLAYING) && (pending_state == GST_STATE_VOID_PENDING))
       || ((state == GST_STATE_PAUSED) && (pending_state == GST_STATE_PLAYING))
       || ((state == GST_STATE_PAUSED) && (pending_state == GST_STATE_PAUSED))
    then
      (* only one track: playing is not allowed to grow the queue *)
      let* hasAudio := gets m_bHasAudio in
      let* hasVideo := gets m_bHasVideo in
      if negb (hasAudio && hasVideo) then ret false
      else other_level (fun cur => cur =? 0)
    else ret false in
  when inc_size_time
    (let* max := call (g_object_get_uint q "max-size-buffers") in
     call (g_object_set q "max-size-buffers" (GUint (u32 (max + MAX_SIZE_BUFFERS_INC))))).

Definition AV_CheckQueueSize (el : ptr) : PM unit :=
  match el with
  | Some _ => grow_queue el
  | None =>
      let* videoFull := queue_full VIDEO_QUEUE in
      let* el :=
        if videoFull then element VIDEO_QUEUE
        else
          let* audioFull := queue_full AUDIO_QUEUE in
          if audioFull then element AUDIO_QUEUE else ret None in
      match el with
      | None => ret tt
      | Some _ => grow_queue el
      end
  end.

(** The virtual [CheckQueueSize]: the audio pipeline's does nothing. *)
Definition CheckQueueSize (el : ptr) : PM unit :=
  let* k := gets klass in
  match k with
  | AudioPlayback => ret tt
  | AVPlayback => AV_CheckQueueSize el
  end.

(** ** Play, pause and stop *)

Definition Play : PM ErrCode :=
  enter StateLock ;;
  let* st := gets m_PlayerState in
  let* ready :=
    if (st != Finished) && (st != Error) && (st != Playing) then ret true
    else if st == Playing then
      (* re-check if the pipeline is ready *)
      let* pipe := element PIPELINE in
      let* '(r, state, pending) := call (gst_element_get_state pipe) in
      if r == GST_STATE_CHANGE_FAILURE then ret false
      else ret ((state == GST_STATE_PAUSED) || (pending == GST_STATE_PAUSED))
    else ret false in
  exit StateLock ;;
  if ready then
    let* rate := gets m_fRate in
    if f_zero ==. rate then
      m_bResumePlayOnNonzeroRate <~ true ;; ret ERROR_NONE
    else
      let* pipe := element PIPELINE in
      let* r := call (gst_element_set_state pipe GST_STATE_PLAYING) in
      ret (if r == GST_STATE_CHANGE_FAILURE
           then ERROR_GSTREAMER_PIPELINE_STATE_CHANGE else ERROR_NONE)
  else ret ERROR_NONE.

Definition InternalPause : PM ErrCode :=
  enter StateLock ;;
  let* st := gets m_PlayerState in
  let* seekInvoked := gets m_bSeekInvoked in
  let* pending := gets m_PlayerPendingState in
  let ready := ((st != Finished) || seekInvoked || (pending == Stopped)) && (st != Error) in
  m_bSeekInvoked <~ false ;;
  exit StateLock ;;
  if ready then
    let* rate := gets m_fRate in
    if f_zero ==. rate then
      m_bResumePlayOnNonzeroRate <~ false ;; ret ERROR_NONE
    else
      let* pipe := element PIPELINE in
      let* r := call (gst_element_set_state pipe GST_STATE_PAUSED) in
      if r == GST_STATE_CHANGE_FAILURE then ret ERROR_GSTREAMER_PIPELINE_STATE_CHANGE
      else CheckQueueSize None ;; ret ERROR_NONE
  else ret ERROR_NONE.

(** [m_PlayerPendingState = state] under the state lock. *)
Definition set_pending (state : PlayerState) : PM unit :=
  enter StateLock ;;
  m_PlayerPendingState <~ state ;;
  exit StateLock.

Definition Stop : PM ErrCode :=
  let* stopped := IsPlayerState Stopped in
  let* failed := if stopped then ret true else IsPlayerState Error in
  if failed then ret ERROR_NONE
  else
    let* rate := gets m_fRate in
    if f_zero ==. rate then
      m_bResumePlayOnNonzeroRate <~ false ;; ret ERROR_NONE
    else
      set_pending Stopped ;;
      let* uErrCode := InternalPause in
      if uErrCode != ERROR_NONE then set_pending Unknown ;; ret uErrCode
      else ret ERROR_NONE.

Definition Finish : PM ErrCode :=
  let* finished := IsPlayerState Finished in
  let* skip := if finished then ret true else IsPlayerState Error in
  let* skip := if skip then ret true
               else let* playing := IsPlayerState Playing in ret (negb playing) in
  if skip then ret ERROR_NONE else InternalPause.

(** [SetPlayerState]: the state is announced unless the change is silent;
    entering [Stalled] with no more data to come resumes at once. *)
Definition SetPlayerState (newPlayerState : PlayerState) (bSilent : bool) : PM unit :=
  enter StateLock ;;
  let* cur := gets m_PlayerState in
  let updateState := newPlayerState != cur in
  when updateState
    (let* dispatcher := gets m_pEventDispatcher in
     if dispatcher && negb bSilent then
       m_PlayerState <~ newPlayerState ;;
       send_or_error (SendPlayerStateEvent newPlayerState d_zero) ERROR_JNI_SEND_PLAYER_STATE_EVENT
     else m_PlayerState <~ newPlayerState) ;;
  exit StateLock ;;
  let* eos := gets m_bLastProgressValueEOS in
  let* full := gets m_bHLSPBFull in
  if (updateState && (newPlayerState == Stalled) && eos)
     || (updateState && (newPlayerState == Stalled) && full)
  then Play ;; ret tt
  else ret tt.

Definition Pause : PM ErrCode :=
  let* paused := IsPlayerState Paused in
  let* skip := if paused then ret true else IsPlayerState Error in
  if skip then ret ERROR_NONE
  else
    enter StateLock ;;
    let* st := gets m_PlayerState in
    if (st == Stopped) || (st == Stalled) then
      SetPlayerState Paused false ;;
      exit StateLock ;;
      ret ERROR_NONE
    else
      m_PlayerPendingState <~ Paused ;;
      exit StateLock ;;
      let* r := InternalPause in
      when (r != ERROR_NONE) (set_pending Unknown) ;;
      ret r.

(** The branch of [UpdatePlayerState] for one player state: the state to go
    to and whether silently, with the pending flags it clears. *)
Definition pause_reached (fallback : PlayerState) : PM PlayerState :=
  let* pending := gets m_PlayerPendingState in
  let* stall := gets m_StallOnPause in
  if pending == Stopped then
    m_StallOnPause <~ false ;; m_PlayerPendingState <~ Unknown ;; ret Stopped
  else if stall && (pending != Paused) then
    m_StallOnPause <~ false ;; ret Stalled
  else if pending == Paused then
    m_StallOnPause <~ false ;; m_PlayerPendingState <~ Unknown ;; ret Paused
  else ret fallback.

Definition next_player_state (newState oldState : GstState) : PM (PlayerState * bool) :=
  let* cur := gets m_PlayerState in
  let* pending := gets m_PlayerPendingState in
  match cur with
  | Unknown =>
      if ((oldState == GST_STATE_READY) && (newState == GST_STATE_PAUSED))
         || ((oldState == GST_STATE_PAUSED) && (newState == GST_STATE_PAUSED))
      then ret (Ready, false) else ret (cur, false)
  | Ready =>
      if oldState == GST_STATE_PAUSED then
        if newState == GST_STATE_READY then ret (Unknown, false)
        else if newState == GST_STATE_PLAYING then ret (Playing, false)
        else ret (cur, false)
      else ret (cur, false)
  | Playing =>
      if oldState == GST_STATE_PLAYING then
        if newState == GST_STATE_PAUSED then
          let* st := pause_reached Finished in ret (st, false)
        else ret (cur, false)
      else if oldState == GST_STATE_PAUSED then
        if newState == GST_STATE_PAUSED then
          let* st := pause_reached cur in ret (st, false)
        else ret (cur, false)
      else ret (cur, false)
  | Paused =>
      if oldState == GST_STATE_PAUSED then
        if pending == Stopped then
          m_PlayerPendingState <~ Unknown ;; ret (Stopped, false)
        else if newState == GST_STATE_PLAYING then ret (Playing, false)
        else if newState == GST_STATE_READY then ret (Unknown, false)
        else ret (cur, false)
      else ret (cur, false)
  | Stopped =>
      if oldState == GST_STATE_PAUSED then
        if (pending == Paused) && (newState == GST_STATE_PAUSED) then
          m_PlayerPendingState <~ Unknown ;; ret (Paused, false)
        else if newState == GST_STATE_PLAYING then ret (Playing, false)
        else if newState == GST_STATE_READY then ret (Unknown, false)
        else ret (cur, false)
      else ret (cur, false)
  | Stalled =>
      if (oldState == GST_STATE_PAUSED) && (newState == GST_STATE_PLAYING) then
        ret (Playing, false)
      else if (oldState == GST_STATE_PAUSED) && (newState == GST_STATE_PAUSED) then
        if pending == Stopped then
          m_PlayerPendingState <~ Unknown ;; ret (Stopped, false)
        else if pending == Paused then
          m_PlayerPendingState <~ Unknown ;; ret (Paused, false)
        else ret (cur, false)
      else ret (cur, false)
  | Finished =>
      if oldState == GST_STATE_PLAYING then
        if (newState == GST_STATE_PAUSED) && (pending == Stopped) then
          m_PlayerPendingState <~ Unknown ;; m_bSeekInvoked <~ false ;; ret (Stopped, false)
        else ret (cur, false)
      else if oldState == GST_STATE_PAUSED then
        if newState == GST_STATE_PLAYING then
          m_bSeekInvoked <~ false ;; ret (Playing, true)
        else if newState == GST_STATE_PAUSED then
          if pending == Stopped then
            m_PlayerPendingState <~ Unknown ;; m_bSeekInvoked <~ false ;; ret (Stopped, false)
          else m_bSeekInvoked <~ false ;; ret (Paused, false)
        else ret (cur, false)
      else ret (cur, false)
  | Error => ret (cur, false)
  end.

Definition UpdatePlayerState (newState oldState : GstState) : PM unit :=
  enter StateLock ;;
  let* '(newPlayerState, bSilent) := next_player_state newState oldState in
  SetPlayerState newPlayerState bSilent ;;
  exit StateLock.

(** ** Seeking *)

Definition SeekPipeline (seek_time : Z) : PM ErrCode :=
  enter SeekLock ;;
  m_LastSeekTime <~ seek_time ;;
  let* rate := gets m_fRate in
  let seekFlags := if (rate <. f_minus_one) || (rate >. f_one)
                   then Z.lor GST_SEEK_FLAG_FLUSH GST_SEEK_FLAG_SKIP
                   else GST_SEEK_FLAG_FLUSH in
  let seek_element (r : ElementRole) : PM bool :=
    let* el := element r in
    call (gst_element_seek el rate seekFlags seek_time) in
  let sink_seek (r : ElementRole) (has : pipeline -> bool) : PM bool :=
    let* el := element r in
    let* present := gets has in
    if non_null el && present then seek_element r else ret false in
  let* opts := gets m_pOptions in
  let* sought :=
    if m_PipelineType opts == kAudioSourcePipeline then seek_element PIPELINE
    else
      let* audio := sink_seek AUDIO_SINK m_bHasAudio in
      if audio then ret true else sink_seek VIDEO_SINK m_bHasVideo in
  exit SeekLock ;;
  if sought then CheckQueueSize None ;; ret ERROR_NONE
  else ret ERROR_GSTREAMER_PIPELINE_SEEK.

Definition Seek (dSeekTime : double) : PM ErrCode :=
  enter StateLock ;;
  let* st := gets m_PlayerState in
  let notReady := (st != Ready) && (st != Playing) && (st != Paused)
                  && (st != Stopped) && (st != Stalled) && (st != Finished) in
  when (st == Finished) (m_bSeekInvoked <~ true) ;;
  exit StateLock ;;
  if notReady then ret ERROR_NONE
  else
    let* r := SeekPipeline (double_to_gint64 (dmul (Z_to_double GST_SECOND) dSeekTime)) in
    enter StateLock ;;
    let* st := gets m_PlayerState in
    let* pending := gets m_PlayerPendingState in
    let resume := (r == ERROR_NONE) && (st == Finished) && (pending != Stopped) in
    exit StateLock ;;
    if resume then
      let* pipe := element PIPELINE in
      let* sr := call (gst_element_set_state pipe GST_STATE_PLAYING) in
      ret (if sr == GST_STATE_CHANGE_FAILURE
           then ERROR_GSTREAMER_PIPELINE_STATE_CHANGE else r)
    else ret r.

(** ** Duration and position *)

(** Nanoseconds as a [double] number of seconds. *)
Definition seconds (nanos : Z) : double := ddiv (Z_to_double nanos) (Z_to_double GST_SECOND).

(** Returns the error code and the duration written to [*dDuration]. *)
Definition GetDuration : PM (ErrCode * double) :=
  let* failed := IsPlayerState Error in
  let* answer :=
    if failed then ret None
    else let* pipe := element PIPELINE in call (gst_element_query_duration pipe) in
  match answer with
  | None => ret (ERROR_GSTREAMER_PIPELINE_QUERY_LENGTH, d_minus_one)
  | Some duration =>
      let dDuration := if duration <? 0 then d_minus_one else seconds duration in
      m_dLastReportedDuration <~ dDuration ;;
      ret (ERROR_NONE, dDuration)
  end.

Definition GetStreamTime : PM (ErrCode * double) :=
  enter StateLock ;;
  let* st := gets m_PlayerState in
  exit StateLock ;;
  if (st == Stopped) || (st == Error) then ret (ERROR_NONE, d_zero)
  else
    let* pipe := element PIPELINE in
    let* answer := call (gst_element_query_position pipe) in
    let* position :=
      match answer with
      | None => let* last := gets m_ulLastStreamTime in ret (s64 last)
      | Some position => m_ulLastStreamTime <~ u64 position ;; ret position
      end in
    let streamTime := seconds position in
    let* reported := gets m_dLastReportedDuration in
    when (reported ==. DURATION_UNKNOWN)
      (let* '(err, _) := GetDuration in
       when (err != ERROR_NONE) (m_dLastReportedDuration <~ DURATION_UNKNOWN)) ;;
    let* reported := gets m_dLastReportedDuration in
    ret (ERROR_NONE,
         if (reported !=. DURATION_UNKNOWN) && (reported !=. DURATION_INDEFINITE)
            && (streamTime >. reported)
         then reported else streamTime).

(** ** Rate *)

Definition SetRate (fRate : float) : PM ErrCode :=
  let* failed := IsPlayerState Error in
  if failed then ret ERROR_NONE
  else
    let* cur := gets m_fRate in
    if fRate !=. cur then
      if f_zero ==. fRate then
        let* pipe := element PIPELINE in
        let* '(_, state, _) := call (gst_element_get_state pipe) in
        let* resume := if state == GST_STATE_PLAYING then ret true else IsPlayerState Stalled in
        let* err := Pause in
        if err == ERROR_NONE then
          m_fRate <~ f_zero ;;
          m_bResumePlayOnNonzeroRate <~ resume ;;
          ret ERROR_NONE
        else ret ERROR_GSTREAMER_PIPELINE_SET_RATE_ZERO
      else
        enter SeekLock ;;
        m_fRate <~ fRate ;;
        let* last := gets m_LastSeekTime in
        let* seek_time :=
          if last =? -1 then
            let* '(_, streamTime) := GetStreamTime in
            ret (double_to_gint64 (dmul (Z_to_double GST_SECOND) streamTime))
          else ret last in
        let* err := SeekPipeline seek_time in
        exit SeekLock ;;
        if err == ERROR_NONE then
          (* "Set flag to indicate change from zero rate": reads the new rate *)
          let* rate := gets m_fRate in
          let* flag := gets m_bResumePlayOnNonzeroRate in
          if (f_zero ==. rate) && flag then Play ;; ret ERROR_NONE else ret ERROR_NONE
        else ret ERROR_GSTREAMER_PIPELINE_SEEK
    else ret ERROR_NONE.

Definition GetRate : PM (ErrCode * float) :=
  let* r := gets m_fRate in ret (ERROR_NONE, r).

(** ** Volume, balance and delay

    The getters leave their out parameter untouched when the player is in
    the [Error] state: [None]. *)

Definition SetVolume (volume : float) : PM ErrCode :=
  let* failed := IsPlayerState Error in
  if failed then ret ERROR_NONE
  else
    let volume := clamp f_zero f_one volume in
    let* el := element AUDIO_VOLUME in
    call (g_object_set el "volume" (GDouble (float_to_double volume))) ;;
    ret ERROR_NONE.

Definition GetVolume : PM (ErrCode * option float) :=
  let* failed := IsPlayerState Error in
  if failed then ret (ERROR_NONE, None)
  else
    let* el := element AUDIO_VOLUME in
    let* dvolume := call (g_object_get_double el "volume") in
    ret (ERROR_NONE, Some (double_to_float dvolume)).

Definition SetBalance (fBalance : float) : PM ErrCode :=
  let* failed := IsPlayerState Error in
  if failed then ret ERROR_NONE
  else
    let fBalance := clamp f_minus_one f_one fBalance in
    let* el := element AUDIO_BALANCE in
    call (g_object_set el "panorama" (GDouble (float_to_double fBalance))) ;;
    ret ERROR_NONE.

Definition GetBalance : PM (ErrCode * option float) :=
  let* failed := IsPlayerState Error in
  if failed then ret (ERROR_NONE, None)
  else
    let* el := element AUDIO_BALANCE in
    let* fbalance := call (g_object_get_float el "panorama") in
    ret (ERROR_NONE, Some fbalance).

(** The width of [long] depends on the platform. *)
Definition to_long (z : Z) : Z :=
  match platform with TargetWin32 => s32 z | _ => s64 z end.

Definition SetAudioSyncDelay (millis : Z) : PM ErrCode :=
  let* failed := IsPlayerState Error in
  if failed then ret ERROR_NONE
  else
    let* el := element AUDIO_SINK in
    call (g_object_set el "ts-offset" (GInt64 (s64 (millis * GST_MSECOND)))) ;;
    ret ERROR_NONE.

Definition GetAudioSyncDelay : PM (ErrCode * option Z) :=
  let* failed := IsPlayerState Error in
  if failed then ret (ERROR_NONE, None)
  else
    let* el := element AUDIO_SINK in
    let* nanos := call (g_object_get_int64 el "ts-offset") in
    ret (ERROR_NONE, Some (to_long (Z.quot nanos 1000000))).
End Transport.

(** ** Lock discipline of the transport operations *)

Section TransportLocks.
Context `{EV : Env}.

Lemma disciplined_IsPlayerState n st : (n <= 3)%nat -> disciplined n (IsPlayerState st).
Proof. unfold IsPlayerState, PM. solve_locks. Qed.
Lemma disciplined_IsPlayerPendingState n st : (n <= 3)%nat -> disciplined n (IsPlayerPendingState st).
Proof. unfold IsPlayerPendingState, PM. solve_locks. Qed.
Lemma disciplined_element n r : disciplined n (element r).
Proof. unfold element, PM. solve_locks. Qed.
Hint Resolve disciplined_IsPlayerState disciplined_IsPlayerPendingState disciplined_element : locks.

Lemma disciplined_queue_full n r : disciplined n (queue_full r).
Proof. unfold queue_full, PM. solve_locks. Qed.
Hint Resolve disciplined_queue_full : locks.

Lemma disciplined_grow_queue n q : (n <= 3)%nat -> disciplined n (grow_queue q).
Proof. unfold grow_queue, PM. solve_locks. Qed.
Hint Resolve disciplined_grow_queue : locks.

Lemma disciplined_CheckQueueSize n q : (n <= 3)%nat -> disciplined n (CheckQueueSize q).
Proof. unfold CheckQueueSize, AV_CheckQueueSize, PM. solve_locks. Qed.
Hint Resolve disciplined_CheckQueueSize : locks.

Lemma disciplined_Play n : (n <= 3)%nat -> disciplined n Play.
Proof. unfold Play, PM. solve_locks. Qed.
Lemma disciplined_InternalPause n : (n <= 3)%nat -> disciplined n InternalPause.
Proof. unfold InternalPause, PM. solve_locks. Qed.
Lemma disciplined_set_pending n st : (n <= 3)%nat -> disciplined n (set_pending st).
Proof. unfold set_pending, PM. solve_locks. Qed.
Hint Resolve disciplined_Play disciplined_InternalPause disciplined_set_pending : locks.

Lemma disciplined_SetPlayerState n st b : (n <= 3)%nat -> disciplined n (SetPlayerState st b).
Proof. unfold SetPlayerState, PM. solve_locks. Qed.
Hint Resolve disciplined_SetPlayerState : locks.

Lemma disciplined_Stop n : (n <= 3)%nat -> disciplined n Stop.
Proof. unfold Stop, PM. solve_locks. Qed.
Lemma disciplined_Finish n : (n <= 3)%nat -> disciplined n Finish.
Proof. unfold Finish, PM. solve_locks. Qed.
Lemma disciplined_Pause n : (n <= 3)%nat -> disciplined n Pause.
Proof. unfold Pause, PM. solve_locks. Qed.
Hint Resolve disciplined_Pause : locks.

Lemma disciplined_next_player_state n a b : disciplined n (next_player_state a b).
Proof. unfold next_player_state, pause_reached, PM. solve_locks. Qed.
Hint Resolve disciplined_next_player_state : locks.
Lemma disciplined_UpdatePlayerState n a b : (n <= 3)%nat -> disciplined n (UpdatePlayerState a b).
Proof. unfold UpdatePlayerState, PM. solve_locks. Qed.

Lemma disciplined_SeekPipeline n t : (n <= 1)%nat -> disciplined n (SeekPipeline t).
Proof. unfold SeekPipeline, PM. solve_locks. Qed.
Hint Resolve disciplined_SeekPipeline : locks.
Lemma disciplined_Seek n t : (n <= 1)%nat -> disciplined n (Seek t).
Proof. unfold Seek, PM. solve_locks. Qed.

Lemma disciplined_GetDuration n : (n <= 3)%nat -> disciplined n GetDuration.
Proof. unfold GetDuration, PM. solve_locks. Qed.
Hint Resolve disciplined_GetDuration : locks.
Lemma disciplined_GetStreamTime n : (n <= 3)%nat -> disciplined n GetStreamTime.
Proof. unfold GetStreamTime, PM. solve_locks. Qed.
Hint Resolve disciplined_GetStreamTime : locks.
Lemma disciplined_SetRate n r : (n <= 1)%nat -> disciplined n (SetRate r).
Proof. unfold SetRate, PM. solve_locks. Qed.
End TransportLocks.

#[export] Hint Resolve disciplined_IsPlayerState disciplined_IsPlayerPendingState
  disciplined_element disciplined_CheckQueueSize disciplined_Play disciplined_InternalPause
  disciplined_set_pending disciplined_SetPlayerState disciplined_Stop disciplined_Finish
  disciplined_Pause disciplined_UpdatePlayerState disciplined_SeekPipeline disciplined_Seek
  disciplined_GetDuration disciplined_GetStreamTime disciplined_SetRate : locks.
