(* ===== verification/Bus.v ===== *)
(** * Bus messages and stall handling

    [BusCallback] of [GstAudioPlaybackPipeline.cpp], one definition per message
    type, and the progress-buffer functions it calls ([BufferUnderrun],
    [UpdateBufferPosition], [HLSBufferStall], [HLSBufferResume]), with
    [BusCallbackDestroyNotify].  The build has [ENABLE_PROGRESS_BUFFER]. *)

From S2P Require Import Prelude CFloat MediaTypes GstApi Effects PipelineState AudioPipeline.

Local Open Scope Z_scope.

Definition PB_MESSAGE_BUFFERING := "pb_buffering"%string.
Definition PB_MESSAGE_UNDERRUN := "pb_underrun"%string.
Definition HLS_PB_MESSAGE_STALL := "hls_pb_stall"%string.
Definition HLS_PB_MESSAGE_RESUME := "hls_pb_resume"%string.
Definition HLS_PB_MESSAGE_HLS_EOS := "hls_pb_eos"%string.
Definition HLS_PB_MESSAGE_FULL := "hls_pb_full"%string.
Definition HLS_PB_MESSAGE_NOT_FULL := "hls_pb_not_full"%string.

Section Bus.
Context `{EV : Env}.

(** Short-circuit [&&], [||] and [!] of effectful tests. *)
Definition andM (m k : PM bool) : PM bool := let* b := m in if b then k else ret false.
Definition orM (m k : PM bool) : PM bool := let* b := m in if b then ret true else k.
Definition notM (m : PM bool) : PM bool := let* b := m in ret (negb b).

(** The shared content of the bus watch. *)
Definition content (p : pipeline) : sBusCallbackContent :=
  match m_pBusCallbackContent p with
  | Some c => c
  | None => mkBusCallbackContent false false false false
  end.
Definition set_content (f : sBusCallbackContent -> sBusCallbackContent) : PM unit :=
  modify (fun p => p <| m_pBusCallbackContent := option_map f (m_pBusCallbackContent p) |>).

(** ** Stalls *)

Definition BufferUnderrun : PM unit :=
  let* skip := orM (IsPlayerState Stalled) (orM (IsPlayerState Ready) (IsPlayerState Error)) in
  if skip then ret tt
  else
    let* pipe := element PIPELINE in
    let* '(_, state, pending_state) := call (gst_element_get_state pipe) in
    let* finished := IsPlayerState Finished in
    GetStreamTime ;;
    enter StallLock ;;
    let* pos := gets m_BufferPosition in
    let* eos := gets m_bLastProgressValueEOS in
    let suspend := (pos >. d_zero) && (state == GST_STATE_PLAYING)
                   && (pending_state != GST_STATE_PAUSED) && negb eos && negb finished in
    exit StallLock ;;
    if suspend then m_StallOnPause <~ true ;; InternalPause ;; ret tt else ret tt.

Definition UpdateBufferPosition : PM unit :=
  let* dispatcher := gets m_pEventDispatcher in
  let* stop := gets m_llLastProgressValueStop in
  if dispatcher && (0 <? stop) then
    let* '(_, duration) := GetDuration in
    let* start := gets m_llLastProgressValueStart in
    let* position := gets m_llLastProgressValuePosition in
    send_or_error (SendBufferProgressEvent duration start stop position)
      ERROR_JNI_SEND_BUFFER_PROGRESS_EVENT ;;
    let bufferPosition := ddiv (dmul duration (Z_to_double position)) (Z_to_double stop) in
    let* '(_, streamTime) := GetStreamTime in
    enter StallLock ;;
    m_BufferPosition <~ bufferPosition ;;
    exit StallLock ;;
    let* delta := gets m_dResumeDeltaTime in
    let* eos := gets m_bLastProgressValueEOS in
    let* resume :=
      andM (IsPlayerState Stalled)
        (if (dsub bufferPosition streamTime >. delta) || eos
         then andM (notM (IsPlayerPendingState Paused)) (notM (IsPlayerPendingState Stopped))
         else ret false) in
    if resume then Play ;; ret tt else ret tt
  else ret tt.

Definition HLSBufferStall : PM unit :=
  let* playing := IsPlayerState Playing in
  if negb playing then ret tt
  else
    let* pipe := element PIPELINE in
    let* '(_, state, pending_state) := call (gst_element_get_state pipe) in
    enter StallLock ;;
    let* eos := gets m_bLastProgressValueEOS in
    let* full := gets m_bHLSPBFull in
    let suspend := (state == GST_STATE_PLAYING) && (pending_state == GST_STATE_VOID_PENDING)
                   && negb eos && negb full in
    exit StallLock ;;
    if suspend then m_StallOnPause <~ true ;; InternalPause ;; ret tt else ret tt.

Definition HLSBufferResume (bEOS : bool) : PM unit :=
  enter StallLock ;;
  when bEOS (m_bLastProgressValueEOS <~ true) ;;
  let not_interrupted :=
    andM (notM (IsPlayerPendingState Paused)) (notM (IsPlayerPendingState Stopped)) in
  let* resume :=
    orM (andM (IsPlayerState Stalled) not_interrupted)
        (let* eos := gets m_bLastProgressValueEOS in
         if eos then andM (IsPlayerState Playing) not_interrupted else ret false) in
  exit StallLock ;;
  if resume then Play ;; ret tt else ret tt.

(** ** One handler per message type *)

Definition on_duration_changed (format : GstFormat) (durationNanos : Z) : PM unit :=
  let* dispatcher := gets m_pEventDispatcher in
  when (dispatcher && (format == GST_FORMAT_TIME) && (0 <? durationNanos))
    (send_or_error (SendDurationUpdateEvent (seconds durationNanos))
       ERROR_JNI_SEND_DURATION_UPDATE_EVENT).

Definition on_eos : PM unit :=
  let* finished := IsPlayerState Finished in
  when (negb finished)
    (SetPlayerState Finished false ;;
     let* opts := gets m_pOptions in
     when (m_bHLSModeEnabled opts) (m_bLastProgressValueEOS <~ false)).

(** The end of the error handler: tear the pipeline down, go to [Error]
    silently, and tell the Java side. *)
Definition on_fatal_error (error : option GError) (timestamp : Z) : PM unit :=
  m_bIgnoreError <~ false ;;
  let* failed := IsPlayerState Error in
  let* pipe := element PIPELINE in
  (if negb failed then call (gst_element_set_state pipe GST_STATE_NULL) ;; ret tt else ret tt) ;;
  SetPlayerState Error true ;;
  match error with
  | None => ret tt
  | Some e =>
      let* dispatcher := gets m_pEventDispatcher in
      when dispatcher
        (if (ge_domain e == GST_STREAM_ERROR) && (ge_code e =? GST_STREAM_ERROR_DEMUX)
         then send_media_error ERROR_MEDIA_CORRUPTED
         else send_or_error (SendPlayerHaltEvent (ge_message e) (seconds timestamp))
                ERROR_JNI_SEND_PLAYER_HALT_EVENT)
  end.

Definition on_error (error : option GError) (debug : option string) (timestamp : Z) : PM unit :=
  (match error with
   | Some e => call (LOGGER_LOGMSG LOGGER_ERROR (ge_message e)) | None => ret tt end) ;;
  (match debug with
   | Some d => call (LOGGER_LOGMSG LOGGER_DEBUG d) | None => ret tt end) ;;
  let* dispatcher := gets m_pEventDispatcher in
  let* ignore := gets m_bIgnoreError in
  let* opts := gets m_pOptions in
  match error with
  | None => on_fatal_error error timestamp
  | Some e =>
      let dom d := ge_domain e == d in
      let code c := ge_code e =? c in
      if dispatcher && dom GST_RESOURCE_ERROR && code GST_RESOURCE_ERROR_READ then
        (* connection lost *)
        send_media_error ERROR_LOCATOR_CONNECTION_LOST ;;
        m_bIgnoreError <~ true
      else if ignore && dom GST_STREAM_ERROR && code GST_STREAM_ERROR_FAILED then
        (* follows the read error: ignored once *)
        m_bIgnoreError <~ false
      else if dispatcher && dom GST_STREAM_ERROR
              && (code GST_STREAM_ERROR_DECODE || code GST_STREAM_ERROR_WRONG_TYPE) then
        send_media_error ERROR_MEDIA_INVALID
      else if dispatcher && dom GST_STREAM_ERROR
              && (code GST_STREAM_ERROR_CODEC_NOT_FOUND || code GST_STREAM_ERROR_FAILED
                  || code GST_STREAM_ERROR_TYPE_NOT_FOUND) then
        send_media_error (if m_bHLSModeEnabled opts
                          then ERROR_MEDIA_HLS_FORMAT_UNSUPPORTED else ERROR_MEDIA_INVALID)
      else
        when (dispatcher && dom JFX_GST_ERROR)
          (if code JFX_GST_MISSING_LIBSWSCALE then send_media_error ERROR_MISSING_LIBSWSCALE
           else if code JFX_GST_INVALID_LIBSWSCALE then send_media_error ERROR_INVALID_LIBSWSCALE
           else ret tt) ;;
        on_fatal_error error timestamp
  end.

(** Warnings and informations go to the dispatcher, which is set before the
    bus watch exists ([gstInitPlayer]). *)
Definition on_notice (code : WarnCode) (level : LogLevel) (e : option GError)
    (debug : option string) : PM unit :=
  (match e with
   | Some e => call (Warning code (ge_message e)) ;; call (LOGGER_LOGMSG level (ge_message e))
   | None => ret tt end) ;;
  (match debug with
   | Some d => call (LOGGER_LOGMSG LOGGER_DEBUG d) | None => ret tt end).

(** Marks a sink ready: it is absent, or this message says it prerolled. *)
Definition sink_ready (role : ElementRole) (src : ptr) (oldState newState pendingState : GstState)
  : PM bool :=
  let* sink := element role in
  match sink with
  | None => ret true
  | Some _ => ret ((src == sink) && (newState == GST_STATE_PAUSED)
                   && (oldState == GST_STATE_READY) && (pendingState == GST_STATE_VOID_PENDING))
  end.

(** The clock bookkeeping of a state change message. *)
Definition update_clock (src : ptr) (oldState newState pendingState : GstState) : PM unit :=
  let* isClockSet := gets m_bIsClockSet in
  let* sink := element AUDIO_SINK in
  let* hasAudio := gets m_bHasAudio in
  when (negb isClockSet && non_null sink && hasAudio && (src == sink)
        && (pendingState == GST_STATE_VOID_PENDING) && (newState == GST_STATE_READY))
    (m_bSetClock <~ true ;; m_bIsClockSet <~ true) ;;
  let* ready := gets m_bDynamicElementsReady in
  when (negb ready)
    (let* audio := sink_ready AUDIO_SINK src oldState newState pendingState in
     when audio (m_bAudioSinkReady <~ true) ;;
     let* video := sink_ready VIDEO_SINK src oldState newState pendingState in
     when video (m_bVideoSinkReady <~ true) ;;
     let* a := gets m_bAudioSinkReady in
     let* v := gets m_bVideoSinkReady in
     when (a && v) (m_bDynamicElementsReady <~ true)) ;;
  let* setClock := gets m_bSetClock in
  let* static := gets m_bStaticPipeline in
  let* ready := gets m_bDynamicElementsReady in
  when (setClock
        && ((static && non_null sink && hasAudio && (src == sink)
             && (pendingState == GST_STATE_VOID_PENDING) && (newState == GST_STATE_PAUSED))
            || ready))
    (m_bSetClock <~ false ;;
     let* clock := call (gst_element_provide_clock sink) in
     match clock with
     | None => ret tt
     | Some _ =>
         let* pipe := element PIPELINE in
         call (gst_pipeline_set_clock pipe clock) ;;
         call (gst_object_unref clock)
     end).

(** Whether a state change of the pipeline element is one of the four kinds
    that update the player state. *)
Definition relevant_change (oldState newState pendingState : GstState) : PM bool :=
  let* stall := gets m_StallOnPause in
  let* static := gets m_bStaticPipeline in
  let* ready := gets m_bDynamicElementsReady in
  let settled := pendingState == GST_STATE_VOID_PENDING in
  orM (if settled && (newState != oldState) then notM (IsPlayerState Unknown) else ret false)
  (orM (andM (orM (IsPlayerPendingState Stopped)
               (orM (IsPlayerPendingState Paused) (ret stall)))
         (ret ((newState == GST_STATE_PAUSED) && (oldState == GST_STATE_PAUSED) && settled)))
  (orM (andM (IsPlayerState Unknown)
         (ret ((newState == GST_STATE_PAUSED)
               && ((oldState == GST_STATE_READY) || (oldState == GST_STATE_PAUSED))
               && settled && negb static && ready)))
       (andM (IsPlayerState Unknown)
         (ret ((newState == GST_STATE_PAUSED) && (oldState == GST_STATE_READY)
               && settled && static))))).

Definition on_state_changed (src : ptr) (oldState newState pendingState : GstState) : PM unit :=
  update_clock src oldState newState pendingState ;;
  let* pipe := element PIPELINE in
  let* relevant := if src == pipe then relevant_change oldState newState pendingState
                   else ret false in
  if relevant then
    let* eos := gets m_bLastProgressValueEOS in
    when ((newState == GST_STATE_PAUSED) && eos) UpdateBufferPosition ;;
    UpdatePlayerState newState oldState
  else ret tt.

Definition on_application (str : GstStructure) : PM unit :=
  if gst_structure_has_name str PB_MESSAGE_BUFFERING then
    let v f := gst_structure_get_value str f in
    m_llLastProgressValueStart <~ g_value_get_int64 (v "start"%string) ;;
    m_llLastProgressValuePosition <~ g_value_get_int64 (v "position"%string) ;;
    m_llLastProgressValueStop <~ g_value_get_int64 (v "stop"%string) ;;
    m_bLastProgressValueEOS <~ g_value_get_boolean (v "eos"%string) ;;
    UpdateBufferPosition
  else if gst_structure_has_name str PB_MESSAGE_UNDERRUN then BufferUnderrun
  else if gst_structure_has_name str HLS_PB_MESSAGE_STALL then HLSBufferStall
  else if gst_structure_has_name str HLS_PB_MESSAGE_RESUME then HLSBufferResume false
  else if gst_structure_has_name str HLS_PB_MESSAGE_HLS_EOS then HLSBufferResume true
  else if gst_structure_has_name str HLS_PB_MESSAGE_FULL then
    enter StallLock ;;
    m_bHLSPBFull <~ true ;;
    exit StallLock ;;
    HLSBufferResume false
  else if gst_structure_has_name str HLS_PB_MESSAGE_NOT_FULL then m_bHLSPBFull <~ false
  else ret tt.

Definition on_element (str : GstStructure) : PM unit :=
  when (gst_structure_has_name str "spectrum")
    (let time f := match gst_structure_get_clock_time str f with
                   | Some t => t | None => GST_CLOCK_TIME_NONE end in
     let* spectrum := element AUDIO_SPECTRUM in
     let* bands := call (g_object_get_int spectrum "bands") in
     let bandsNum := u64 bands in
     let values f := map (g_value_list_float (gst_structure_get_value str f))
                         (seq 0 (Z.to_nat bandsNum)) in
     when (0 <? bandsNum)
       (call (UpdateBands (s32 bandsNum) (values "magnitude"%string) (values "phase"%string))) ;;
     send_or_error (SendAudioSpectrumEvent (seconds (time "timestamp"%string))
                      (seconds (time "duration"%string)) false)
       ERROR_JNI_SEND_AUDIO_SPECTRUM_EVENT).

(** ** The bus watch *)

Definition dispatch (msg : GstMessage) : PM unit :=
  match msg with
  | GST_MESSAGE_DURATION_CHANGED format nanos => on_duration_changed format nanos
  | GST_MESSAGE_EOS => on_eos
  | GST_MESSAGE_ERROR error debug timestamp => on_error error debug timestamp
  | GST_MESSAGE_WARNING w debug => on_notice WARNING_GSTREAMER_PIPELINE_WARNING LOGGER_WARNING w debug
  | GST_MESSAGE_INFO i debug => on_notice WARNING_GSTREAMER_PIPELINE_INFO_ERROR LOGGER_ERROR i debug
  | GST_MESSAGE_STATE_CHANGED src oldState newState pendingState =>
      on_state_changed src oldState newState pendingState
  | GST_MESSAGE_APPLICATION str => on_application str
  | GST_MESSAGE_ELEMENT str => on_element str
  | GST_MESSAGE_ASYNC_DONE =>
      enter SeekLock ;; m_LastSeekTime <~ -1 ;; exit SeekLock
  | GST_MESSAGE_LATENCY =>
      let* pipe := element PIPELINE in call (gst_bin_recalculate_latency pipe)
  | GST_MESSAGE_OTHER => ret tt
  end.

(** [BusCallback]: [false] removes the watch. *)
Definition BusCallback (msg : GstMessage) : PM bool :=
  enter DisposeLock ;;
  let* c := gets content in
  if m_bIsDisposed c then exit DisposeLock ;; ret false
  else if m_bIsDisposeInProgress c then exit DisposeLock ;; ret true
  else
    dispatch msg ;;
    exit DisposeLock ;;
    ret true.

(** [BusCallbackDestroyNotify]: frees the content, or asks [Dispose] to. *)
Definition BusCallbackDestroyNotify : PM unit :=
  enter DisposeLock ;;
  let* c := gets content in
  (if m_bIsDisposed c then ret tt else set_content (fun c => c <| m_bFreeMe := true |>)) ;;
  exit DisposeLock ;;
  when (m_bIsDisposed c)
    (call (cxx_delete "m_DisposeLock") ;;
     call (cxx_delete "sBusCallbackContent") ;;
     set_content (fun c => c <| cb_freed := true |>)).
End Bus.

(** ** Lock discipline of the message handlers *)

Section BusLocks.
Context `{EV : Env}.

Lemma disciplined_andM n m k : disciplined n m -> disciplined n k -> disciplined n (andM m k).
Proof.
  intros Hm Hk h Hh. eapply locks_bind; [apply Hm, Hh|]. intros []; [apply Hk, Hh | apply locks_ret].
Qed.
Lemma disciplined_orM n m k : disciplined n m -> disciplined n k -> disciplined n (orM m k).
Proof.
  intros Hm Hk h Hh. eapply locks_bind; [apply Hm, Hh|]. intros []; [apply locks_ret | apply Hk, Hh].
Qed.
Lemma disciplined_notM n m : disciplined n m -> disciplined n (notM m).
Proof. intros Hm h Hh. eapply locks_bind; [apply Hm, Hh|]. intros. apply locks_ret. Qed.
Lemma disciplined_pure n (b : bool) : disciplined n (ret b : PM bool).
Proof. intros h Hh. apply locks_ret. Qed.
Lemma disciplined_if {A} n (b : bool) (m k : PM A) :
  disciplined n m -> disciplined n k -> disciplined n (if b then m else k).
Proof. destruct b; auto. Qed.
Lemma disciplined_test {A} n (f : pipeline -> A) (k : A -> PM bool) :
  (forall a, disciplined n (k a)) -> disciplined n (bind (gets f) k).
Proof. intros Hk h Hh. eapply locks_bind; [apply locks_gets|]. intros. apply Hk, Hh. Qed.
Lemma disciplined_set_content n f : disciplined n (set_content f).
Proof. unfold set_content, PM. solve_locks. Qed.
Hint Resolve disciplined_andM disciplined_orM disciplined_notM disciplined_pure
  disciplined_if disciplined_test disciplined_set_content : locks.

Lemma disciplined_BufferUnderrun n : (n <= 2)%nat -> disciplined n BufferUnderrun.
Proof. unfold BufferUnderrun, PM. solve_locks. Qed.
Lemma disciplined_UpdateBufferPosition n : (n <= 2)%nat -> disciplined n UpdateBufferPosition.
Proof. unfold UpdateBufferPosition, PM. solve_locks. Qed.
Lemma disciplined_HLSBufferStall n : (n <= 2)%nat -> disciplined n HLSBufferStall.
Proof. unfold HLSBufferStall, PM. solve_locks. Qed.
Lemma disciplined_HLSBufferResume n b : (n <= 2)%nat -> disciplined n (HLSBufferResume b).
Proof. unfold HLSBufferResume, PM. solve_locks. Qed.
Hint Resolve disciplined_BufferUnderrun disciplined_UpdateBufferPosition
  disciplined_HLSBufferStall disciplined_HLSBufferResume : locks.

Lemma disciplined_on_fatal_error n e t : (n <= 3)%nat -> disciplined n (on_fatal_error e t).
Proof. unfold on_fatal_error, PM. solve_locks. Qed.
Hint Resolve disciplined_on_fatal_error : locks.
Lemma disciplined_on_error n e d t : (n <= 3)%nat -> disciplined n (on_error e d t).
Proof. unfold on_error, PM. solve_locks. Qed.
Lemma disciplined_update_clock n a b c d : disciplined n (update_clock a b c d).
Proof. unfold update_clock, sink_ready, PM. solve_locks. Qed.
Lemma disciplined_relevant_change n a b c : (n <= 3)%nat -> disciplined n (relevant_change a b c).
Proof. unfold relevant_change, PM. solve_locks. Qed.
Hint Resolve disciplined_on_error disciplined_update_clock disciplined_relevant_change : locks.
Lemma disciplined_on_state_changed n a b c d : (n <= 2)%nat -> disciplined n (on_state_changed a b c d).
Proof. unfold on_state_changed, PM. solve_locks. Qed.
Lemma disciplined_on_application n s : (n <= 2)%nat -> disciplined n (on_application s).
Proof. unfold on_application, PM. solve_locks. Qed.
Hint Resolve disciplined_on_state_changed disciplined_on_application : locks.

Lemma disciplined_dispatch n msg : (n <= 1)%nat -> disciplined n (dispatch msg).
Proof.
  unfold dispatch, on_duration_changed, on_eos, on_notice, on_element, PM. solve_locks.
Qed.
Hint Resolve disciplined_dispatch : locks.
Lemma disciplined_BusCallback msg : disciplined 0 (BusCallback msg).
Proof. unfold BusCallback, PM. solve_locks. Qed.
Lemma disciplined_BusCallbackDestroyNotify : disciplined 0 BusCallbackDestroyNotify.
Proof. unfold BusCallbackDestroyNotify, PM. solve_locks. Qed.
End BusLocks.

#[export] Hint Resolve disciplined_andM disciplined_orM disciplined_notM disciplined_pure
  disciplined_if disciplined_test disciplined_set_content disciplined_dispatch : locks.
