(* ===== verification/Tracks.v ===== *)
(** * Track discovery

    The buffer probes that find out what the media holds and tell the Java side:
    [SendTrackEvent], [AudioSinkPadProbe] and [AudioSourcePadProbe] of
    [GstAudioPlaybackPipeline.cpp] and [VideoDecoderSrcProbe] of
    [GstAVPlaybackPipeline.cpp]. *)

From S2P Require Import Prelude CFloat MediaTypes GstApi Effects PipelineState.

Local Open Scope Z_scope.

(** [(type & GST_PAD_PROBE_TYPE_BUFFER) == GST_PAD_PROBE_TYPE_BUFFER && data]. *)
Definition probe_requested (type : Z) (data : bool) : bool :=
  (Z.land type GST_PAD_PROBE_TYPE_BUFFER =? GST_PAD_PROBE_TYPE_BUFFER) && data.

(** The encoding of an audio track.  The last test is [mimeType.find(..)] used
    as a condition: it fails only when the name is found at position 0. *)
Definition audio_encoding (i : AudioTrackInfo) : Encoding :=
  if str_contains (mimeType i) "audio/x-raw" then PCM
  else if str_contains (mimeType i) CONTENT_TYPE_MPA || str_contains (mimeType i) CONTENT_TYPE_MP3 then
    if mpegversion i =? 1 then (if layer i =? 3 then MPEG1LAYER3 else MPEG1AUDIO)
    else if mpegversion i =? 4 then AAC
    else CUSTOM
  else match str_find (mimeType i) CONTENT_TYPE_AAC with
       | Some O => CUSTOM
       | _ => AAC
       end.

Definition channel_mask (channels : Z) : Z :=
  if channels =? 1 then FRONT_CENTER
  else if channels =? 2 then Z.lor FRONT_RIGHT FRONT_LEFT
  else if channels =? 4 then Z.lor (Z.lor (Z.lor FRONT_RIGHT FRONT_LEFT) REAR_RIGHT) REAR_LEFT
  else CHANNEL_UNKNOWN.

(** The track object the event carries. *)
Definition audio_track (i : AudioTrackInfo) : CAudioTrack :=
  mkAudioTrack (trackID i) (mimeType i) (audio_encoding i) (trackEnabled i) "und"
    (channels i) (channel_mask (channels i)) (Z_to_float (rate i)).

Definition video_encoding (mime : string) : Encoding :=
  if str_contains mime "video/x-h264" then H264
  else if str_contains mime "video/x-h265" then H265
  else CUSTOM.

(** [gst_structure_get_int(s, field, &x)] for a field [x]: unchanged when the
    structure has none. *)
Definition read_int (s : GstStructure) (field : string) (x : Z) : Z :=
  match gst_structure_get_int s field with Some z => z | None => x end.
Definition has_int (s : GstStructure) (field : string) : bool :=
  match gst_structure_get_int s field with Some _ => true | None => false end.

(** What [AudioSinkPadProbe] takes from the caps, and whether it has all that
    is needed. *)
Definition sink_info (o : CPipelineOptions) (s : GstStructure) (i : AudioTrackInfo) : AudioTrackInfo :=
  let i := i <| mimeType := gs_name s |> in
  let i := i <| trackEnabled := match gst_structure_get_boolean s "track_enabled" with
                                | Some b => b | None => true end |> in
  let i := i <| trackID := if ForceDefaultTrackID o then DEFAULT_AUDIO_TRACK_ID
                           else match gst_structure_get_int s "track_id" with
                                | Some z => z | None => DEFAULT_AUDIO_TRACK_ID end |> in
  let i := i <| channels := read_int s "channels" (channels i) |>
             <| rate := read_int s "rate" (rate i) |> in
  if str_contains (mimeType i) "mpeg" then
    i <| mpegversion := read_int s "mpegversion" (mpegversion i) |>
      <| layer := read_int s "layer" (layer i) |>
  else i.
Definition sink_ready_info (s : GstStructure) : bool :=
  has_int s "channels" && has_int s "rate"
  && (if str_contains (gs_name s) "mpeg" then has_int s "mpegversion" else true).

(** What [AudioSourcePadProbe] takes: only what is not known yet. *)
Definition source_info (s : GstStructure) (i : AudioTrackInfo) : AudioTrackInfo :=
  let fill (x : Z) (field : string) := if x <? 0 then read_int s field x else x in
  let i := if (mimeType i =? "")%string then i <| mimeType := gs_name s |> else i in
  let i := i <| channels := fill (channels i) "channels"%string |>
             <| rate := fill (rate i) "rate"%string |> in
  if str_contains (mimeType i) "mpeg" then
    i <| mpegversion := fill (mpegversion i) "mpegversion"%string |>
      <| layer := fill (layer i) "layer"%string |>
  else i.

Section Tracks.
Context `{EV : Env}.

Definition SendTrackEvent : PM unit :=
  let* dispatcher := gets m_pEventDispatcher in
  when dispatcher
    (let* i := gets m_AudioTrackInfo in
     send_or_error (SendAudioTrackEvent (audio_track i)) ERROR_JNI_SEND_AUDIO_TRACK_EVENT).

Definition AudioSinkPadProbe (pPad : ptr) (type : Z) (data : bool) : PM GstPadProbeReturn :=
  if negb (probe_requested type data) then ret GST_PAD_PROBE_OK
  else
    let* pCaps := call (gst_pad_get_current_caps pPad) in
    match pCaps with
    | None => ret GST_PAD_PROBE_OK
    | Some [] => call gst_caps_unref ;; ret GST_PAD_PROBE_OK
    | Some (pStructure :: _) =>
        let* o := gets m_pOptions in
        let* i := gets m_AudioTrackInfo in
        m_AudioTrackInfo <~ sink_info o pStructure i ;;
        when (sink_ready_info pStructure)
          (SendTrackEvent ;;
           let* hid := gets m_audioSourcePadProbeHID in
           when (negb (hid =? 0))
             (let* dec := element AUDIO_DECODER in
              let* src := call (gst_element_get_static_pad dec "src") in
              call (gst_pad_remove_probe src hid) ;;
              call (gst_object_unref src))) ;;
        call gst_caps_unref ;;
        ret GST_PAD_PROBE_REMOVE
    end.

Definition AudioSourcePadProbe (pPad : ptr) (type : Z) (data : bool) : PM GstPadProbeReturn :=
  if negb (probe_requested type data) then ret GST_PAD_PROBE_OK
  else
    let* pCaps := call (gst_pad_get_current_caps pPad) in
    match pCaps with
    | None => ret GST_PAD_PROBE_OK
    | Some [] => call gst_caps_unref ;; ret GST_PAD_PROBE_OK
    | Some (pStructure :: _) =>
        let* i := gets m_AudioTrackInfo in
        m_AudioTrackInfo <~ source_info pStructure i ;;
        SendTrackEvent ;;
        call gst_caps_unref ;;
        ret GST_PAD_PROBE_REMOVE
    end.

Definition SetEncodedVideoFrameRate (frameRate : float) : PM unit :=
  m_EncodedVideoFrameRate <~ frameRate.

(** The resolution and frame rate the source pad of the decoder announces. *)
Definition video_geometry (s : GstStructure) : option (Z * Z * Z * Z) :=
  match gst_structure_get_int s "width", gst_structure_get_int s "height",
        gst_structure_get_fraction s "framerate" with
  | Some w, Some h, Some (n, d) => if d =? 0 then None else Some (w, h, n, d)
  | _, _, _ => None
  end.

Definition video_track (o : CPipelineOptions) (s : GstStructure) (w h : Z) (frameRate : float) : CVideoTrack :=
  mkVideoTrack
    (if ForceDefaultTrackID o then DEFAULT_VIDEO_TRACK_ID
     else match gst_structure_get_int s "track_id" with Some z => z | None => DEFAULT_VIDEO_TRACK_ID end)
    (gs_name s) (video_encoding (gs_name s))
    (match gst_structure_get_boolean s "track_enabled" with Some b => b | None => true end)
    w h frameRate false.

(** The release at [exit:] of what is still held. *)
Definition release_caps (held : bool) : PM unit := when held (call gst_caps_unref).
Definition release_pad (pad : ptr) : PM unit := when (non_null pad) (call (gst_object_unref pad)).

Definition VideoDecoderSrcProbe (pPad : ptr) (type : Z) (data : bool) : PM GstPadProbeReturn :=
  let* dispatcher := gets m_pEventDispatcher in
  if negb dispatcher then ret GST_PAD_PROBE_REMOVE
  else if negb (probe_requested type data) then ret GST_PAD_PROBE_OK
  else
    let* pCaps := call (gst_pad_get_current_caps pPad) in
    match pCaps with
    | None => ret GST_PAD_PROBE_OK
    | Some [] => release_caps true ;; ret GST_PAD_PROBE_OK
    | Some (s :: _) =>
        match video_geometry s with
        | None => release_caps true ;; ret GST_PAD_PROBE_OK
        | Some (w, h, n, d) =>
            let frameRate := fdiv (Z_to_float n) (Z_to_float d) in
            SetEncodedVideoFrameRate frameRate ;;
            call gst_caps_unref ;;
            let* dec := element VIDEO_DECODER in
            let* pSinkPad := call (gst_element_get_static_pad dec "sink") in
            match pSinkPad with
            | None => (* [pCaps] still points to the caps released above *)
                release_caps true ;; ret GST_PAD_PROBE_OK
            | Some _ =>
                let* pCaps := call (gst_pad_get_current_caps pSinkPad) in
                match pCaps with
                | None => release_pad pSinkPad ;; ret GST_PAD_PROBE_OK
                | Some [] => release_caps true ;; release_pad pSinkPad ;; ret GST_PAD_PROBE_OK
                | Some (s :: _) =>
                    let* o := gets m_pOptions in
                    send_or_error (SendVideoTrackEvent (video_track o s w h frameRate))
                      ERROR_JNI_SEND_VIDEO_TRACK_EVENT ;;
                    release_caps true ;; release_pad pSinkPad ;; ret GST_PAD_PROBE_REMOVE
                end
            end
        end
    end.
End Tracks.
