(* ===== verification/AppSink.v ===== *)
(** * Frames from the video sink

    The app-sink callbacks of [GstAVPlaybackPipeline.cpp]: the first frame
    ([OnAppSinkPreroll]), the frames that follow ([OnAppSinkHaveFrame]) and the
    frame size announcement ([OnAppSinkVideoFrameDiscont]).  A buffer's time
    stamp is changed in place ([gst_buffer_set_pts]), so that the frame object
    and later readers of the buffer see the new value. *)

From S2P Require Import Prelude CFloat MediaTypes GstApi VideoFrame Effects PipelineState.

Local Open Scope Z_scope.

(** The time stamp a buffer is given: times are made relative to the first
    frame's, so that they start at zero. *)
Definition rebase (first pts : Z) : Z :=
  if negb (first =? GST_CLOCK_TIME_NONE) && negb (pts =? GST_CLOCK_TIME_NONE) && (first <=? pts)
  then pts - first else pts.

Definition set_pts (b : GstBuffer) (pts : Z) : GstBuffer :=
  mkBuffer pts (gb_discont b) (gb_map b) (gb_data b) (gb_size b).

Section AppSink.
Context `{EV : Env}.

Definition OnAppSinkVideoFrameDiscont (pSample : GstSample) : PM unit :=
  match sample_caps pSample with
  | None | Some [] => ret tt
  | Some (str :: _) =>
      let dimension (field msg : string) : PM Z :=
        match gst_structure_get_int str field with
        | Some z => ret z
        | None => call (Warning WARNING_GSTREAMER_PIPELINE_FRAME_SIZE msg) ;; ret 0
        end in
      let* width := dimension "width"%string "width could not be retrieved from preroll GstBuffer"%string in
      let* height := dimension "height"%string "height could not be retrieved from preroll GstBuffer"%string in
      let* send := gets m_SendFrameSizeEvent in
      let* w := gets m_FrameWidth in
      let* h := gets m_FrameHeight in
      when (send || negb (width =? w) || negb (height =? h))
        (m_FrameWidth <~ width ;;
         m_FrameHeight <~ height ;;
         let* dispatcher := gets m_pEventDispatcher in
         if dispatcher then
           let* ok := call (SendFrameSizeChangedEvent width height) in
           m_SendFrameSizeEvent <~ negb ok ;;
           when (negb ok) (send_media_error ERROR_JNI_SEND_FRAME_SIZE_CHANGED_EVENT)
         else m_SendFrameSizeEvent <~ true)
  end.

(** The in-place update of the time stamp of the buffer, with its guard. *)
Definition rebase_buffer (b : GstBuffer) : PM GstBuffer :=
  let* first := gets m_FirstPTS in
  if negb (first =? GST_CLOCK_TIME_NONE) && negb (gb_pts b =? GST_CLOCK_TIME_NONE) && (first <=? gb_pts b)
  then call (gst_buffer_set_pts (gb_pts b - first)) ;; ret (set_pts b (gb_pts b - first))
  else ret b.

(** The announcement of a size change. *)
Definition check_discont (pSample : GstSample) (b : GstBuffer) : PM unit :=
  let* send := gets m_SendFrameSizeEvent in
  when (send || gb_discont b) (OnAppSinkVideoFrameDiscont pSample).

(** A valid frame goes to Java, which deletes it later; an invalid one is
    deleted and reported. *)
Definition send_frame (pSample : GstSample) (b : GstBuffer) (dispatcher : bool) : PM unit :=
  let '(ok, pVideoFrame) := Init platform (mkSample (Some b) (sample_caps pSample)) new_CGstVideoFrame in
  if negb ok then call gst_sample_unref ;; call (cxx_delete "pVideoFrame")
  else
    (if IsValid pVideoFrame && dispatcher then
       send_or_error (SendNewFrameEvent pVideoFrame) ERROR_JNI_SEND_NEW_FRAME_EVENT
     else
       call (cxx_delete "pVideoFrame") ;;
       when dispatcher (call (Warning WARNING_GSTREAMER_INVALID_FRAME "Invalid frame"))) ;;
    call gst_sample_unref.

Definition OnAppSinkHaveFrame (pElem : ptr) : PM GstFlowReturn :=
  let* pSample := call (gst_app_sink_pull_sample pElem) in
  match pSample with
  | None => ret GST_FLOW_OK
  | Some pSample =>
      match sample_buffer pSample with
      | None => call gst_sample_unref ;; ret GST_FLOW_OK
      | Some b =>
          check_discont pSample b ;;
          let* b := rebase_buffer b in
          let* dispatcher := gets m_pEventDispatcher in
          send_frame pSample b dispatcher ;;
          ret GST_FLOW_OK
      end
  end.

Definition OnAppSinkPreroll (pElem : ptr) : PM GstFlowReturn :=
  let* pSample := call (gst_app_sink_pull_preroll pElem) in
  match option_map (fun s => (s, sample_buffer s)) pSample with
  | None | Some (_, None) => call gst_sample_unref ;; ret GST_FLOW_OK
  | Some (pSample, Some b) =>
      let* first := gets m_FirstPTS in
      when ((first =? GST_CLOCK_TIME_NONE) && negb (gb_pts b =? GST_CLOCK_TIME_NONE))
        (m_FirstPTS <~ gb_pts b) ;;
      check_discont pSample b ;;
      let* dispatcher := gets m_pEventDispatcher in
      if dispatcher then
        let* b := rebase_buffer b in
        send_frame pSample b true ;;
        ret GST_FLOW_OK
      else
        call gst_sample_unref ;; ret GST_FLOW_OK
  end.
End AppSink.
