(* ===== verification/Build.v ===== *)
(** * Building and tearing down a pipeline

    What happens between the factory and the first frame, and at the end:
    [Init], [PostBuildInit], [OnParserSrcPadAdded], [Dispose] and the codec
    checks of [GstAudioPlaybackPipeline.cpp], and their overriding versions with
    [on_pad_added], [no_more_pads] and the queue callbacks of
    [GstAVPlaybackPipeline.cpp].  Virtual calls are dispatched on [klass]; the
    versions of the audio class are prefixed [Audio_], those of the derived
    class [AV_]. *)

From S2P Require Import Prelude CFloat MediaTypes GstApi Effects PipelineState AudioPipeline Bus.

Local Open Scope Z_scope.

Section Build.
Context `{EV : Env}.

Definition virtual {A} (audio av : PM A) : PM A :=
  let* k := gets klass in match k with AudioPlayback => audio | AVPlayback => av end.

(** The name of the first structure of caps, if there are any. *)
Definition caps_name (c : option GstCaps) : option string :=
  match c with Some (s :: _) => Some (gs_name s) | _ => None end.
Definition name_contains (c : option GstCaps) (x : string) : bool :=
  match caps_name c with Some n => str_contains n x | None => false end.

(** ** Codec support *)

(** Asks a decoder whether it supports a codec; otherwise remembers [code]. *)
Definition decoder_supports (role : ElementRole) (codec : Z) (reject : PM unit) : PM bool :=
  let* dec := element role in
  call (g_object_set dec "codec-id" (GInt codec)) ;;
  let* ok := call (g_object_get_boolean dec "is-supported") in
  if ok then ret true else reject ;; ret false.

Definition Audio_IsCodecSupported (pCaps : option GstCaps) : PM bool :=
  match platform with
  | TargetWin32 =>
      if name_contains pCaps CONTENT_TYPE_MPA || name_contains pCaps CONTENT_TYPE_MP3 then
        let version := match pCaps with
                       | Some (s :: _) => gst_structure_get_int s "mpegversion" | _ => None end in
        if version == Some 4 then
          decoder_supports AUDIO_DECODER JFX_CODEC_ID_AAC
            (m_audioCodecErrorCode <~ ERROR_MEDIA_AAC_FORMAT_UNSUPPORTED)
        else ret true
      else if name_contains pCaps CONTENT_TYPE_AAC then
        decoder_supports AUDIO_DECODER JFX_CODEC_ID_AAC
          (m_audioCodecErrorCode <~ ERROR_MEDIA_AAC_FORMAT_UNSUPPORTED)
      else ret true
  | _ =>
      if name_contains pCaps "audio/unsupported" then
        m_audioCodecErrorCode <~ ERROR_MEDIA_AUDIO_FORMAT_UNSUPPORTED ;; ret false
      else ret true
  end.

Definition AV_IsCodecSupported (pCaps : option GstCaps) : PM bool :=
  match platform with
  | TargetMac =>
      if name_contains pCaps "video/unsupported" then
        m_videoCodecErrorCode <~ ERROR_MEDIA_VIDEO_FORMAT_UNSUPPORTED ;; ret false
      else Audio_IsCodecSupported pCaps
  | _ =>
      if name_contains pCaps "video/x-h264" then
        decoder_supports VIDEO_DECODER JFX_CODEC_ID_AVC1
          (m_videoCodecErrorCode <~ ERROR_MEDIA_H264_FORMAT_UNSUPPORTED)
      else if name_contains pCaps "video/x-h265" then
        decoder_supports VIDEO_DECODER JFX_CODEC_ID_H265
          (m_videoCodecErrorCode <~ ERROR_MEDIA_H265_FORMAT_UNSUPPORTED)
      else Audio_IsCodecSupported pCaps
  end.

Definition IsCodecSupported (pCaps : option GstCaps) : PM bool :=
  virtual (Audio_IsCodecSupported pCaps) (AV_IsCodecSupported pCaps).

Definition Audio_CheckCodecSupport : PM bool :=
  let* hasAudio := gets m_bHasAudio in
  let* dispatcher := gets m_pEventDispatcher in
  let* code := gets m_audioCodecErrorCode in
  if negb hasAudio && dispatcher && (code != ERROR_NONE) then send_media_error code ;; ret false
  else ret true.

Definition AV_CheckCodecSupport : PM bool :=
  let* hasVideo := gets m_bHasVideo in
  if negb hasVideo then
    let* ok := Audio_CheckCodecSupport in
    let* dispatcher := gets m_pEventDispatcher in
    let* code := gets m_videoCodecErrorCode in
    when (negb ok && dispatcher && (code != ERROR_NONE)) (send_media_error code) ;;
    ret false
  else Audio_CheckCodecSupport.

Definition CheckCodecSupport : PM bool := virtual Audio_CheckCodecSupport AV_CheckCodecSupport.

Definition Audio_LoadDecoder (pCaps : option GstCaps) : PM bool := ret true.

Definition AV_LoadDecoder (pCaps : option GstCaps) : PM bool :=
  match platform with
  | TargetWin32 =>
      let* bin := element VIDEO_BIN in
      if negb (non_null bin) then ret false
      else
        match caps_name pCaps with
        | None => Audio_LoadDecoder pCaps
        | Some name =>
            let strVideoDecoderName :=
              if str_contains name "video/x-h264" then Some "dshowwrapper"%string
              else if str_contains name "video/x-h265" then Some "mfwrapper"%string
              else None in
            match strVideoDecoderName with
            | None => ret false
            | Some decoder =>
                let* videodec := call (gst_element_factory_make decoder) in
                if negb (non_null videodec) then ret false
                else
                  call (gst_bin_add_many bin [videodec]) ;;
                  let* queue := element VIDEO_QUEUE in
                  let* sink := element VIDEO_SINK in
                  let* ok := call (gst_element_link_many [queue; videodec; sink]) in
                  if negb ok then ret false
                  else
                    let* m := gets m_Elements in
                    m_Elements <~ container_add VIDEO_DECODER videodec m ;;
                    Audio_LoadDecoder pCaps
            end
        end
  | _ => Audio_LoadDecoder pCaps
  end.

Definition LoadDecoder (pCaps : option GstCaps) : PM bool :=
  virtual (Audio_LoadDecoder pCaps) (AV_LoadDecoder pCaps).

(** ** Probes *)

(** Adds a buffer probe to a static pad of [el]; [None] without the pad. *)
Definition add_probe (el : ptr) (pad : string) (cb : Callback) : PM (option Z) :=
  let* pPad := call (gst_element_get_static_pad el pad) in
  match pPad with
  | None => ret None
  | Some _ =>
      let* hid := call (gst_pad_add_probe pPad cb) in
      call (gst_object_unref pPad) ;;
      ret (Some hid)
  end.

Definition has_flag (flags bit : Z) : bool := negb (Z.land flags bit =? 0).

(** The probes on the audio decoder. *)
Definition probe_decoder (dec : ptr) : PM ErrCode :=
  let* flags := gets m_AudioFlags in
  let* sink := if has_flag flags AUDIO_DECODER_HAS_SINK_PROBE
               then let* hid := add_probe dec "sink" AudioSinkPadProbe_cb in
                    match hid with
                    | None => ret false
                    | Some h => m_audioSinkPadProbeHID <~ h ;; ret true
                    end
               else ret true in
  if negb sink then ret ERROR_GSTREAMER_AUDIO_DECODER_SINK_PAD
  else
    let* src := if has_flag flags AUDIO_DECODER_HAS_SOURCE_PROBE
                then let* hid := add_probe dec "src" AudioSourcePadProbe_cb in
                     match hid with
                     | None => ret false
                     | Some h => m_audioSourcePadProbeHID <~ h ;; ret true
                     end
                else ret true in
    ret (if src then ERROR_NONE else ERROR_GSTREAMER_AUDIO_DECODER_SRC_PAD).

Definition Audio_PostBuildInit : PM ErrCode :=
  let* hasAudio := gets m_bHasAudio in
  let* done := gets m_bAudioInitDone in
  if hasAudio && negb done then
    let* parser := element AUDIO_PARSER in
    let* probed := if non_null parser
                   then add_probe parser "src" AudioSourcePadProbe_cb else ret None in
    (match probed with Some h => m_audioSourcePadProbeHID <~ h | None => ret tt end) ;;
    let* dec := element AUDIO_DECODER in
    let* err := match probed with
                | Some _ => ret ERROR_NONE
                | None => if non_null dec then probe_decoder dec else ret ERROR_NONE
                end in
    if err != ERROR_NONE then ret err
    else m_bAudioInitDone <~ true ;; ret ERROR_NONE
  else ret ERROR_NONE.

Definition AV_PostBuildInit : PM ErrCode :=
  let* hasVideo := gets m_bHasVideo in
  let* done := gets m_bVideoInitDone in
  if hasVideo && negb done then
    let* sink := element VIDEO_SINK in
    call (g_object_set sink "emit-signals" (GBool true)) ;;
    call (g_object_set sink "sync" (GBool true)) ;;
    call (g_signal_connect sink "new-sample" OnAppSinkHaveFrame_cb) ;;
    call (g_signal_connect sink "new-preroll" OnAppSinkPreroll_cb) ;;
    let* dec := element VIDEO_DECODER in
    let* hid := add_probe dec "src" VideoDecoderSrcProbe_cb in
    match hid with
    | None => ret ERROR_GSTREAMER_VIDEO_DECODER_SINK_PAD
    | Some h =>
        m_videoDecoderSrcProbeHID <~ h ;;
        m_bVideoInitDone <~ true ;;
        Audio_PostBuildInit
    end
  else Audio_PostBuildInit.

Definition PostBuildInit : PM ErrCode := virtual Audio_PostBuildInit AV_PostBuildInit.

(** ** Initialisation *)

(** The audio decoder is already linked: nothing is waited for. *)
Definition static_decoder_bin : PM bool :=
  let* o := gets m_pOptions in
  let* parser := element AUDIO_PARSER in
  let* demuxer := element AV_DEMUXER in
  if m_PipelineType o == kAudioSourcePipeline then
    match parser with
    | None => ret true
    | Some _ =>
        let* pad := call (gst_element_get_static_pad parser "src") in
        match pad with
        | None => ret false
        | Some _ => call (gst_object_unref pad) ;; ret true
        end
    end
  else ret (negb (non_null demuxer)).

(** The bus watch: a content object, a source and its attachment. *)
Definition watch_bus : PM ErrCode :=
  let* ok := call (cxx_new "sBusCallbackContent") in
  if negb ok then m_pBusCallbackContent <~ None ;; ret ERROR_MEMORY_ALLOCATION
  else
    m_pBusCallbackContent <~ Some (mkBusCallbackContent false false false false) ;;
    let* pipe := element PIPELINE in
    let* bus := call (gst_pipeline_get_bus pipe) in
    let* source := call (gst_bus_create_watch bus) in
    m_pBusSource <~ source ;;
    if negb (non_null source) then ret ERROR_MEMORY_ALLOCATION
    else
      call (g_source_set_callback source) ;;
      let* id := call (g_source_attach source) in
      call (gst_object_unref bus) ;;
      if id =? 0 then
        (* the pointer is kept *)
        call (cxx_delete "sBusCallbackContent") ;;
        set_content (fun c => c <| cb_freed := true |>) ;;
        ret ERROR_GSTREAMER_BUS_SOURCE_ATTACH
      else
        call StartMainLoop ;;
        ret ERROR_NONE.

(** The end of [Init]: hook up the decoder and start prerolling. *)
Definition start_pipeline : PM ErrCode :=
  let* static := static_decoder_bin in
  (if static then m_bHasAudio <~ true ;; PostBuildInit ;; ret tt
   else
     let* o := gets m_pOptions in
     let* parser := element AUDIO_PARSER in
     when (non_null parser && (m_PipelineType o != kAudioSourcePipeline))
       (call (g_signal_connect parser "pad-added" OnParserSrcPadAdded_cb))) ;;
  let* pipe := element PIPELINE in
  let* r := call (gst_element_set_state pipe GST_STATE_PAUSED) in
  ret (if r == GST_STATE_CHANGE_FAILURE then ERROR_GSTREAMER_PIPELINE_STATE_CHANGE else ERROR_NONE).

Definition Audio_Init : PM ErrCode :=
  let* eq := call (cxx_new "CGstAudioEqualizer") in
  m_pAudioEqualizer <~ eq ;;
  if negb eq then ret ERROR_MEMORY_ALLOCATION
  else
    let* sp := call (cxx_new "CGstAudioSpectrum") in
    m_pAudioSpectrum <~ sp ;;
    if negb sp then ret ERROR_MEMORY_ALLOCATION
    else
      let* o := gets m_pOptions in
      when (m_bBufferingEnabled o) (m_bStaticPipeline <~ false) ;;
      let* err := call CMediaManager_GetInstance in
      if err != ERROR_NONE then ret err
      else
        let* err := watch_bus in
        if err != ERROR_NONE then ret err else start_pipeline.

Definition AV_Init : PM ErrCode :=
  let* demuxer := element AV_DEMUXER in
  call (g_signal_connect demuxer "pad-added" on_pad_added_cb) ;;
  call (g_signal_connect demuxer "no-more-pads" no_more_pads_cb) ;;
  let* parser := element AUDIO_PARSER in
  (if non_null parser then
     let* pad := call (gst_element_get_static_pad parser "src") in
     match pad with
     | None =>
         call (g_signal_connect parser "pad-added" on_pad_added_cb) ;;
         call (g_signal_connect parser "no-more-pads" no_more_pads_cb)
     | Some _ => call (gst_object_unref pad)
     end
   else ret tt) ;;
  let* aq := element AUDIO_QUEUE in
  let* vq := element VIDEO_QUEUE in
  call (g_signal_connect aq "overrun" queue_overrun_cb) ;;
  call (g_signal_connect vq "overrun" queue_overrun_cb) ;;
  call (g_signal_connect aq "underrun" queue_underrun_cb) ;;
  call (g_signal_connect vq "underrun" queue_underrun_cb) ;;
  Audio_Init.

Definition Init : PM ErrCode := virtual Audio_Init AV_Init.

(** ** Pads added later *)

(** Stops playback with a message; the time is in nanoseconds here. *)
Definition send_halt (msg : string) : PM unit :=
  let* now := call g_get_current_time in
  let* dispatcher := gets m_pEventDispatcher in
  when dispatcher
    (send_or_error (SendPlayerHaltEvent msg (Z_to_double now)) ERROR_JNI_SEND_PLAYER_HALT_EVENT).

(** The body of a pad callback: under the dispose lock, unless the pipeline
    is being disposed of. *)
Definition with_dispose_lock (body : PM unit) : PM unit :=
  enter DisposeLock ;;
  let* c := gets content in
  if m_bIsDisposeInProgress c then exit DisposeLock
  else body ;; exit DisposeLock.

(** Adds the audio bin and links the parser's new pad to it; failures are
    reported, and the sequence goes on. *)
Definition link_parser (pad : ptr) : PM unit :=
  let* pipe := element PIPELINE in
  let* bin := element AUDIO_BIN in
  let* added := call (gst_bin_add pipe bin) in
  when (negb added) (send_halt "Failed to add audio bin to pipeline!") ;;
  call (gst_element_set_state bin GST_STATE_READY) ;;
  let* peerPad := call (gst_element_get_static_pad bin "sink") in
  when (negb (non_null peerPad)) (send_halt "Failed to retrieve audio bin sink pad!") ;;
  let* linked := call (gst_pad_link pad peerPad) in
  when (linked != GST_PAD_LINK_OK) (send_halt (line "Failed to link audio parser with audio bin!")) ;;
  when (non_null peerPad) (call (gst_object_unref peerPad)) ;;
  m_bHasAudio <~ true ;;
  PostBuildInit ;;
  let* synced := call (gst_element_sync_state_with_parent bin) in
  when (negb synced) (send_halt (line "Failed to start audio bin!")).

Definition OnParserSrcPadAdded (el pad : ptr) : PM unit :=
  with_dispose_lock
    (let* pCaps := call (gst_pad_get_current_caps pad) in
     let* ok := IsCodecSupported pCaps in
     when ok (link_parser pad) ;;
     (match pCaps with Some _ => call gst_caps_unref | None => ret tt end) ;;
     call (g_signal_handlers_disconnect_by_func el OnParserSrcPadAdded_cb) ;;
     CheckCodecSupport ;;
     ret tt).

(** Adds a bin to the pipeline and links a demuxer pad to it: the bin's pad,
    the link result and whether the stream is now connected. *)
Definition connect_bin (el pad : ptr) (role : ElementRole) : PM (ptr * GstPadLinkReturn * bool) :=
  let* pipe := element PIPELINE in
  let* bin := element role in
  let* pPad := call (gst_element_get_static_pad bin "sink") in
  call (gst_bin_add pipe bin) ;;
  let* stateRet := call (gst_element_set_state bin GST_STATE_READY) in
  if stateRet == GST_STATE_CHANGE_FAILURE then
    call (gst_object_ref bin) ;;
    call (gst_bin_remove pipe bin) ;;
    (* no more notifications: they could deadlock with the error handler *)
    call (g_signal_handlers_disconnect_by_func el on_pad_added_cb) ;;
    call (g_signal_handlers_disconnect_by_func el no_more_pads_cb) ;;
    ret (pPad, GST_PAD_LINK_OK, false)
  else
    let* linked := if non_null pPad then call (gst_pad_link pad pPad) else ret GST_PAD_LINK_OK in
    if linked != GST_PAD_LINK_OK then
      call (gst_element_set_state bin GST_STATE_NULL) ;;
      call (gst_object_ref bin) ;;
      call (gst_bin_remove pipe bin) ;;
      ret (pPad, linked, false)
    else ret (pPad, GST_PAD_LINK_OK, true).

(** The end of a successful connection. *)
Definition bin_connected (role : ElementRole) : PM unit :=
  PostBuildInit ;;
  let* bin := element role in
  call (gst_element_sync_state_with_parent bin) ;;
  ret tt.

(** The [Error:] label: what a failed link means. *)
Definition report_link (linked : GstPadLinkReturn) (audio video : bool) : PM unit :=
  let* dispatcher := gets m_pEventDispatcher in
  when ((linked != GST_PAD_LINK_OK) && dispatcher)
    (if linked == GST_PAD_LINK_NOFORMAT then
       if audio then m_audioCodecErrorCode <~ ERROR_MEDIA_AUDIO_FORMAT_UNSUPPORTED
       else when video (m_videoCodecErrorCode <~ ERROR_MEDIA_VIDEO_FORMAT_UNSUPPORTED)
     else
       let* now := call g_get_current_time in
       let halt msg := send_or_error (SendPlayerHaltEvent msg (Z_to_double now))
                         ERROR_JNI_SEND_PLAYER_HALT_EVENT in
       if audio then halt "Failed to link AV parser to audio bin!"%string
       else when video (halt "Failed to link AV parser to video bin!"%string)).

Definition on_pad_added (el pad : ptr) : PM unit :=
  with_dispose_lock
    (let* pCaps := call (gst_pad_get_current_caps pad) in
     let has_prefix p := match caps_name pCaps with Some n => str_has_prefix n p | None => false end in
     let audio := has_prefix "audio"%string in
     let video := has_prefix "video"%string in
     let unref_caps := match pCaps with Some _ => call gst_caps_unref | None => ret tt end in
     let* hasAudio := gets m_bHasAudio in
     if audio && hasAudio then unref_caps
     else
       let* '(pPad, linked) :=
         if audio then
           let* ok := IsCodecSupported pCaps in
           if ok then
             let* '(pPad, linked, connected) := connect_bin el pad AUDIO_BIN in
             when connected (m_bHasAudio <~ true ;; bin_connected AUDIO_BIN) ;;
             ret (pPad, linked)
           else ret (None, GST_PAD_LINK_OK)
         else if video then
           let* dec := element VIDEO_DECODER in
           let* loaded := if (platform == TargetWin32) && negb (non_null dec)
                          then LoadDecoder pCaps else ret true in
           if negb loaded then ret (None, GST_PAD_LINK_OK)
           else
             let* ok := IsCodecSupported pCaps in
             if ok then
               let* '(pPad, linked, connected) := connect_bin el pad VIDEO_BIN in
               when connected (m_bHasVideo <~ true ;; bin_connected VIDEO_BIN) ;;
               ret (pPad, linked)
             else ret (None, GST_PAD_LINK_OK)
         else ret (None, GST_PAD_LINK_OK) in
       report_link linked audio video ;;
       when (non_null pPad) (call (gst_object_unref pPad)) ;;
       unref_caps).

Definition no_more_pads (el : ptr) : PM unit :=
  with_dispose_lock
    (call (g_signal_handlers_disconnect_by_func el on_pad_added_cb) ;;
     call (g_signal_handlers_disconnect_by_func el no_more_pads_cb) ;;
     CheckCodecSupport ;;
     let* hasAudio := gets m_bHasAudio in
     when (negb hasAudio) (m_bAudioSinkReady <~ true) ;;
     let* hasVideo := gets m_bHasVideo in
     when (negb hasVideo) (m_bVideoSinkReady <~ true)).

(** ** Queues *)

Definition queue_overrun (el : ptr) : PM unit := CheckQueueSize el.

(** The other queue is full: it can grow. *)
Definition queue_at_limit (q : ptr) : PM bool :=
  let* cur := call (g_object_get_uint q "current-level-buffers") in
  let* max := call (g_object_get_uint q "max_size_buffers") in
  ret (cur =? max).

Definition queue_underrun (el : ptr) : PM unit :=
  let* o := gets m_pOptions in
  let* aq := element AUDIO_QUEUE in
  let* vq := element VIDEO_QUEUE in
  if m_bHLSModeEnabled o then
    when (aq == el) (call (gst_element_post_application_message el HLS_PB_MESSAGE_STALL))
  else
    let* pipe := element PIPELINE in
    let* '(_, state, pending_state) := call (gst_element_get_state pipe) in
    let* inc_element :=
      if ((state == GST_STATE_PLAYING) && (pending_state == GST_STATE_VOID_PENDING))
         || ((state == GST_STATE_PAUSED) && (pending_state == GST_STATE_PLAYING))
         || ((state == GST_STATE_PAUSED) && (pending_state == GST_STATE_PAUSED))
      then
        if aq == el then let* full := queue_at_limit vq in ret (if full then Some vq else None)
        else if vq == el then let* full := queue_at_limit aq in ret (if full then Some aq else None)
        else ret None
      else ret None in
    match inc_element with
    | None => ret tt
    | Some q =>
        let* max := call (g_object_get_uint q "max-size-buffers") in
        call (g_object_set q "max-size-buffers" (GUint (u32 (max + MAX_SIZE_BUFFERS_INC))))
    end.

(** ** Disposal *)

(** The pipeline element and the bus watch go.  [g_source_destroy] answers
    whether it ran the watch's destroy notification at once, on this thread
    (which it does unless a message is being dispatched). *)
Definition destroy_pipeline (pipe : ptr) : PM unit :=
  let* source := gets m_pBusSource in
  when (non_null source)
    (let* notified := call (g_source_destroy source) in
     when notified BusCallbackDestroyNotify ;;
     call (g_source_unref source) ;;
     m_pBusSource <~ None) ;;
  call (gst_object_unref pipe).

Definition Audio_Dispose : PM unit :=
  let* c := gets m_pBusCallbackContent in
  let has_content := match c with Some _ => true | None => false end in
  when has_content
    (enter DisposeLock ;;
     set_content (fun c => c <| m_bIsDisposeInProgress := true |>) ;;
     exit DisposeLock) ;;
  let* pipe := element PIPELINE in
  (if non_null pipe then call (gst_element_set_state pipe GST_STATE_NULL) ;; ret tt else ret tt) ;;
  when has_content (enter DisposeLock) ;;
  let* c := gets content in
  if has_content && m_bIsDisposed c then exit DisposeLock
  else
    let* eq := gets m_pAudioEqualizer in
    when eq (call (cxx_delete "m_pAudioEqualizer") ;; m_pAudioEqualizer <~ false) ;;
    let* sp := gets m_pAudioSpectrum in
    when sp (call (cxx_delete "m_pAudioSpectrum") ;; m_pAudioSpectrum <~ false) ;;
    when (non_null pipe) (destroy_pipeline pipe) ;;
    if has_content then
      let* c := gets content in
      set_content (fun c => c <| m_bIsDisposed := true |>) ;;
      exit DisposeLock ;;
      when (m_bFreeMe c)
        (call (cxx_delete "m_DisposeLock") ;;
         call (cxx_delete "sBusCallbackContent") ;;
         set_content (fun c => c <| cb_freed := true |>))
    else ret tt.

Definition AV_Dispose : PM unit :=
  let* hasVideo := gets m_bHasVideo in
  let* done := gets m_bVideoInitDone in
  let* sink := element VIDEO_SINK in
  when (hasVideo && done)
    (call (g_signal_handlers_disconnect_by_func sink OnAppSinkHaveFrame_cb) ;;
     call (g_signal_handlers_disconnect_by_func sink OnAppSinkPreroll_cb)) ;;
  let* aq := element AUDIO_QUEUE in
  let* vq := element VIDEO_QUEUE in
  call (g_signal_handlers_disconnect_by_func aq queue_overrun_cb) ;;
  call (g_signal_handlers_disconnect_by_func vq queue_overrun_cb) ;;
  call (g_signal_handlers_disconnect_by_func aq queue_underrun_cb) ;;
  call (g_signal_handlers_disconnect_by_func vq queue_underrun_cb) ;;
  Audio_Dispose ;;
  let* hasAudio := gets m_bHasAudio in
  let* abin := element AUDIO_BIN in
  when (negb hasAudio && non_null abin) (call (gst_object_unref abin)) ;;
  let* hasVideo := gets m_bHasVideo in
  let* vbin := element VIDEO_BIN in
  when (negb hasVideo && non_null vbin) (call (gst_object_unref vbin)).

Definition Dispose : PM unit := virtual Audio_Dispose AV_Dispose.
End Build.
