(* ===== verification/Factory.v ===== *)
(** * The pipeline factory

    [CGstPipelineFactory] ([platform/gstreamer/GstPipelineFactory.cpp]): which
    elements a pipeline is built from for each content type and platform, how
    they are created, linked and recorded, and the error of every step that can
    fail.  The functions return an error code or a result; a pipeline is the
    object the constructors of [PipelineState.v] make.  The build has
    [ENABLE_APP_SINK] and neither [ENABLE_NATIVE_SINK], [ENABLE_VIDEOCONVERT]
    nor [ENABLE_BREAK_MY_DATA]. *)

From S2P Require Import Prelude CFloat MediaTypes GstApi Effects PipelineState.

Local Open Scope Z_scope.

Definition HLS_PROP_GET_HLS_MODE : Z := 2.
Definition HLS_PROP_GET_MIMETYPE : Z := 3.
Definition HLS_VALUE_MIMETYPE_MP2T : Z := 1.
Definition HLS_VALUE_MIMETYPE_MP3 : Z := 2.
Definition HLS_VALUE_MIMETYPE_FMP4 : Z := 3.
Definition HLS_VALUE_MIMETYPE_AAC : Z := 4.

(** What the factory reads of a [CLocator] / [CLocatorStream]: whether it is a
    stream locator, its strings and size, and which callbacks it has. *)
Record CLocator := mkLocator {
  loc_stream : bool;
  loc_contentType : string;
  loc_location : string;
  loc_sizeHint : Z;
  loc_callbacks : bool;
  loc_audioCallbacks : bool
}.

(** The options object and the element container under construction. *)
Record factory := mkFactory {
  f_options : CPipelineOptions;
  f_elements : gmap ElementRole ptr
}.
#[export] Instance factory_eta : Eta factory :=
  eta_ap (eta_ap (eta_pure mkFactory) f_options) f_elements.

Section Factory.
Context `{EV : Env}.

(** ** Results with error codes *)

Definition F (A : Type) : Type := M factory (ErrCode + A).
Definition fret {A} (a : A) : F A := ret (inr a).
Definition fail {A} (e : ErrCode) : F A := ret (inl e).
Definition fbind {A B} (m : F A) (k : A -> F B) : F B :=
  let* r := m in match r with inl e => ret (inl e) | inr a => k a end.
Definition lift {A} (m : M factory A) : F A := let* a := m in ret (inr a).
(** [if (!b) return e;] *)
Definition require (b : bool) (e : ErrCode) : F unit := if b then fret tt else fail e.
(** Runs a call and requires its answer to be true, or to be a pointer. *)
Definition ensure (c : ext bool) (e : ErrCode) : F unit :=
  fbind (lift (call c)) (fun ok => require ok e).
Definition obtain (m : M factory ptr) (e : ErrCode) : F ptr :=
  fbind (lift m) (fun p => if non_null p then fret p else fail e).
End Factory.

Notation "'let!' x := m 'in' k" := (fbind m (fun x => k))
  (at level 10, x name, m at level 100, k at level 200) : eff_scope.
Notation "m ;! k" := (fbind m (fun _ => k)) (at level 100, k at level 200, right associativity) : eff_scope.

Section Elements.
Context `{EV : Env}.

Definition set_options (u : CPipelineOptions -> CPipelineOptions) : F unit :=
  lift (modify (fun f => f <| f_options := u (f_options f) |>)).
Definition add_element (r : ElementRole) (e : ptr) : F unit :=
  lift (modify (fun f => f <| f_elements := container_add r e (f_elements f) |>)).
Definition get_element (r : ElementRole) : F ptr := lift (gets (fun f => container_get (f_elements f) r)).
Definition options : F CPipelineOptions := lift (gets f_options).

Definition CreateElement (strFactoryName : option string) : M factory ptr :=
  match strFactoryName with
  | None => ret None
  | Some name => call (gst_element_factory_make name)
  end.

(** The loop over the elements of a bin. *)
Fixpoint find_by_prefix (name : string) (it : list GstIteratorResult) : M factory ptr :=
  match it with
  | [] => ret None
  | GST_ITERATOR_OK el factory_name :: it' =>
      if str_has_prefix factory_name name then ret el else find_by_prefix name it'
  | GST_ITERATOR_RESYNC :: it' => call gst_iterator_resync ;; find_by_prefix name it'
  | GST_ITERATOR_ERROR :: _ => ret None
  end.

Definition GetByFactoryName (bin : ptr) (strFactoryName : string) : M factory ptr :=
  let* is_bin := call (GST_IS_BIN bin) in
  if negb is_bin then ret None
  else
    let* it := call (gst_bin_iterate_elements bin) in
    let* el := find_by_prefix strFactoryName it in
    call gst_iterator_free ;;
    match el with
    | None => ret None
    | Some _ => call (gst_object_ref el) ;; ret el
    end.

Definition CreateAudioSinkElement : M factory ptr :=
  CreateElement (Some match platform with
                      | TargetWin32 => "directsoundsink" | TargetMac => "osxaudiosink"
                      | TargetLinux => "alsasink" end%string).

(** ** Sources *)

(** The signals of the Java source and their handlers. *)
Definition SourceReadNextBlock (audio : bool) : M factory Z := call (CB_ReadNextBlock audio).
Definition SourceReadBlock (audio : bool) (position size : Z) : M factory Z :=
  call (CB_ReadBlock audio position size).
Definition SourceCopyBlock (audio : bool) (size : Z) : M factory unit := call (CB_CopyBlock audio size).
Definition SourceSeekData (audio : bool) (offset : Z) : M factory Z := call (CB_Seek audio (s64 offset)).
Definition SourceProperty (audio : bool) (prop value : Z) : M factory Z := call (CB_Property audio prop value).
Definition SourceCloseConnection (src : ptr) (audio : bool) : M factory unit :=
  call (CB_CloseConnection audio) ;;
  call (g_signal_handlers_disconnect_by_func src SourceReadNextBlock_cb) ;;
  call (g_signal_handlers_disconnect_by_func src SourceReadBlock_cb) ;;
  call (g_signal_handlers_disconnect_by_func src SourceCopyBlock_cb) ;;
  call (g_signal_handlers_disconnect_by_func src SourceSeekData_cb) ;;
  call (g_signal_handlers_disconnect_by_func src SourceCloseConnection_cb) ;;
  call (g_signal_handlers_disconnect_by_func src SourceProperty_cb) ;;
  call (cxx_delete "callbacks").

(** The MIME type property of the source for an HLS stream type. *)
Definition stream_mimetype (streamMimeType : Z) : option string :=
  if streamMimeType =? HLS_VALUE_MIMETYPE_MP2T then Some CONTENT_TYPE_MP2T
  else if streamMimeType =? HLS_VALUE_MIMETYPE_MP3 then Some CONTENT_TYPE_MPA
  else if streamMimeType =? HLS_VALUE_MIMETYPE_FMP4 then Some CONTENT_TYPE_FMP4
  else if streamMimeType =? HLS_VALUE_MIMETYPE_AAC then Some CONTENT_TYPE_AAC
  else None.

(** Signals and properties of a new Java source. *)
Definition configure_source (javaSource : ptr) (locator : CLocator) (audio : bool) (streamMimeType : Z)
  : M factory unit :=
  let* isRandomAccess := call (CB_IsRandomAccess audio) in
  call (g_signal_connect javaSource "read-next-block" SourceReadNextBlock_cb) ;;
  call (g_signal_connect javaSource "copy-block" SourceCopyBlock_cb) ;;
  call (g_signal_connect javaSource "seek-data" SourceSeekData_cb) ;;
  call (g_signal_connect javaSource "close-connection" SourceCloseConnection_cb) ;;
  call (g_signal_connect javaSource "property" SourceProperty_cb) ;;
  when isRandomAccess (call (g_signal_connect javaSource "read-block" SourceReadBlock_cb)) ;;
  let* o := gets f_options in
  when (m_bHLSModeEnabled o) (call (g_object_set javaSource "hls-mode" (GBool true))) ;;
  (match stream_mimetype streamMimeType with
   | Some mime => call (g_object_set javaSource "mimetype" (GString mime))
   | None => ret tt
   end) ;;
  let* seekable := call (CB_IsSeekable audio) in
  call (g_object_set javaSource "size" (GInt64 (loc_sizeHint locator))) ;;
  call (g_object_set javaSource "is-seekable" (GBool seekable)) ;;
  call (g_object_set javaSource "is-random-access" (GBool isRandomAccess)) ;;
  call (g_object_set javaSource "location" (GString (loc_location locator))).

(** The source element and its progress buffer, if it needs one.  The callers
    have checked the locator and the callbacks for [NULL]. *)
Definition CreateSourceElement (locator : CLocator) (audio : bool) (streamMimeType : Z) : F (ptr * ptr) :=
  let! javaSource := obtain (CreateElement (Some "javasource"%string)) ERROR_GSTREAMER_ELEMENT_CREATE in
  lift (configure_source javaSource locator audio streamMimeType) ;!
  let! needBuffer := lift (call (CB_NeedBuffer audio)) in
  set_options (fun o => o <| m_bBufferingEnabled := needBuffer |>) ;!
  if needBuffer then
    lift (call (g_object_set javaSource "stop-on-pause" (GBool false))) ;!
    let! source := obtain (call gst_bin_new) ERROR_GSTREAMER_BIN_CREATE in
    let! o := options in
    let! buffer := obtain (CreateElement (Some (if m_bHLSModeEnabled o then "hlsprogressbuffer"
                                                else "progressbuffer")%string))
                     ERROR_GSTREAMER_ELEMENT_CREATE in
    lift (call (gst_bin_add_many source [javaSource; buffer])) ;!
    ensure (gst_element_link javaSource buffer) ERROR_GSTREAMER_ELEMENT_LINK ;!
    fret (source, buffer)
  else fret (javaSource, None).

(** The progress buffer has its pad: put [peer] in the pipeline and link it.
    An error is posted on the bus. *)
Definition attach_peer (el pad peer source_bin pipeline : ptr) : F unit :=
  let! src_pad := obtain (call (gst_ghost_pad_new (Some "src"%string) pad)) ERROR_GSTREAMER_CREATE_GHOST_PAD in
  ensure (gst_pad_set_active src_pad true) ERROR_GSTREAMER_ELEMENT_ADD_PAD ;!
  ensure (gst_element_add_pad source_bin src_pad) ERROR_GSTREAMER_ELEMENT_ADD_PAD ;!
  ensure (gst_bin_add pipeline peer) ERROR_GSTREAMER_BIN_ADD_ELEMENT ;!
  let! r := lift (call (gst_element_set_state peer GST_STATE_READY)) in
  require (r != GST_STATE_CHANGE_FAILURE) ERROR_GSTREAMER_PIPELINE_STATE_CHANGE ;!
  ensure (gst_element_link source_bin peer) ERROR_GSTREAMER_ELEMENT_LINK ;!
  ensure (gst_element_sync_state_with_parent peer) ERROR_GSTREAMER_PIPELINE_STATE_CHANGE.

Definition OnBufferPadAdded (el pad peer : ptr) : M factory unit :=
  let* source_bin := call (GST_ELEMENT_PARENT el) in
  let* pipeline := call (GST_ELEMENT_PARENT source_bin) in
  let* r := attach_peer el pad peer source_bin pipeline in
  (match r with
   | inr _ => ret tt
   | inl uErrorCode =>
       let* bus := call (gst_pipeline_get_bus pipeline) in
       call (gst_bus_post_error bus pipeline uErrorCode
               "Error in CGstPipelineFactory::OnBufferPadAdded().") ;;
       call (gst_object_unref bus)
   end) ;;
  call (g_signal_handlers_disconnect_by_func el OnBufferPadAdded_cb).

(** The source pad of a bin that holds an HLS progress buffer. *)
Definition expose_hls_pad (source hlsprogressbuffer : ptr) : F unit :=
  let! src_pad := obtain (call (gst_element_get_static_pad hlsprogressbuffer "src"))
                    ERROR_GSTREAMER_ELEMENT_GET_PAD in
  let! ghost_pad := lift (call (gst_ghost_pad_new None src_pad)) in
  if negb (non_null ghost_pad) then
    lift (call (gst_object_unref src_pad)) ;! fail ERROR_GSTREAMER_CREATE_GHOST_PAD
  else
    let! ok := lift (call (gst_element_add_pad source ghost_pad)) in
    if negb ok then
      lift (call (gst_object_unref src_pad)) ;! fail ERROR_GSTREAMER_ELEMENT_ADD_PAD
    else
      lift (call (gst_object_unref src_pad)) ;!
      lift (call (gst_object_unref hlsprogressbuffer)).

Definition AttachToSource (bin source buffer el : ptr) : F unit :=
  let! progressbuffer := lift (GetByFactoryName source "progressbuffer") in
  if non_null progressbuffer then
    lift (call (g_signal_connect progressbuffer "pad-added" OnBufferPadAdded_cb)) ;!
    lift (call (gst_object_unref progressbuffer))
  else
    ensure (gst_bin_add bin el) ERROR_GSTREAMER_BIN_ADD_ELEMENT ;!
    let! hlsprogressbuffer :=
      match buffer with
      | Some _ => lift (call (gst_object_ref buffer)) ;! fret buffer
      | None => lift (GetByFactoryName source "hlsprogressbuffer")
      end in
    (if non_null hlsprogressbuffer then expose_hls_pad source hlsprogressbuffer else fret tt) ;!
    ensure (gst_element_link source el) ERROR_GSTREAMER_ELEMENT_LINK.
End Elements.

Section Pipelines.
Context `{EV : Env}.

(** Two fields the constructors leave uninitialised hold these values. *)
Variables (resume0 : bool) (probe0 : Z).

(** ** Bins *)

(** The head of the audio bin: parser, queue, decoder and converter.  Gives
    the parser, the queue, the decoder, the bin's first and last element. *)
Definition audio_head (bin : ptr) (strParserName strDecoderName : option string) (bConvertFormat : bool)
  : F (ptr * ptr * ptr * ptr * ptr) :=
  let! audioparse :=
    match strParserName with
    | None => fret None
    | Some _ =>
        let! p := obtain (CreateElement strParserName) ERROR_MEDIA_AUDIO_FORMAT_UNSUPPORTED in
        ensure (gst_bin_add bin p) ERROR_GSTREAMER_BIN_ADD_ELEMENT ;!
        fret p
    end in
  let! audioqueue := obtain (CreateElement (Some "queue"%string)) ERROR_GSTREAMER_ELEMENT_CREATE in
  ensure (gst_bin_add bin audioqueue) ERROR_GSTREAMER_BIN_ADD_ELEMENT ;!
  (if non_null audioparse
   then ensure (gst_element_link audioparse audioqueue) ERROR_GSTREAMER_ELEMENT_LINK_AUDIO_BIN
   else fret tt) ;!
  let head := if non_null audioparse then audioparse else audioqueue in
  let! audiodec :=
    match strDecoderName with
    | None => fret None
    | Some _ =>
        let! d := obtain (CreateElement strDecoderName) ERROR_MEDIA_AUDIO_FORMAT_UNSUPPORTED in
        ensure (gst_bin_add bin d) ERROR_GSTREAMER_BIN_ADD_ELEMENT ;!
        ensure (gst_element_link audioqueue d) ERROR_GSTREAMER_ELEMENT_LINK_AUDIO_BIN ;!
        fret d
    end in
  let tail := if non_null audiodec then audiodec else audioqueue in
  let! tail :=
    if bConvertFormat then
      let! audioconv := lift (CreateElement (Some "audioconvert"%string)) in
      ensure (gst_bin_add bin audioconv) ERROR_GSTREAMER_BIN_ADD_ELEMENT ;!
      ensure (gst_element_link tail audioconv) ERROR_GSTREAMER_ELEMENT_LINK_AUDIO_BIN ;!
      fret audioconv
    else fret tail in
  fret (audioparse, audioqueue, audiodec, head, tail).

(** The tail: equalizer, balance, volume, spectrum and sink.  Gives the
    elements in this order; balance and volume are the sink where the platform
    has no element of its own. *)
Definition audio_tail (bin tail : ptr) : F (ptr * ptr * ptr * ptr * ptr) :=
  let! audioequalizer := lift (CreateElement (Some "equalizer-nbands"%string)) in
  let! audiospectrum := lift (CreateElement (Some "spectrum"%string)) in
  require (non_null audioequalizer && non_null audiospectrum) ERROR_GSTREAMER_ELEMENT_CREATE ;!
  let! audiosink := obtain CreateAudioSinkElement ERROR_GSTREAMER_AUDIO_SINK_CREATE in
  lift (call (gst_bin_add_many bin [audioequalizer; audiospectrum; audiosink])) ;!
  let! audiobal :=
    match platform with
    | TargetWin32 =>
        ensure (gst_element_link_many [tail; audioequalizer]) ERROR_GSTREAMER_ELEMENT_LINK_AUDIO_BIN ;!
        fret None
    | _ =>
        let! audiobal := lift (CreateElement (Some "audiopanorama"%string)) in
        ensure (gst_bin_add bin audiobal) ERROR_GSTREAMER_BIN_ADD_ELEMENT ;!
        ensure (gst_element_link_many [tail; audioequalizer; audiobal])
          ERROR_GSTREAMER_ELEMENT_LINK_AUDIO_BIN ;!
        fret audiobal
    end in
  let tail := match platform with TargetWin32 => audioequalizer | _ => audiobal end in
  let! volume :=
    match platform with
    | TargetLinux =>
        let! volume := lift (CreateElement (Some "volume"%string)) in
        ensure (gst_bin_add bin volume) ERROR_GSTREAMER_BIN_ADD_ELEMENT ;!
        ensure (gst_element_link_many [tail; volume]) ERROR_GSTREAMER_ELEMENT_LINK_AUDIO_BIN ;!
        fret volume
    | _ => fret None
    end in
  let tail := match platform with TargetLinux => volume | _ => tail end in
  ensure (gst_element_link_many [tail; audiospectrum; audiosink]) ERROR_GSTREAMER_ELEMENT_LINK_AUDIO_BIN ;!
  let balance := match platform with TargetWin32 => audiosink | _ => audiobal end in
  let vol := match platform with TargetLinux => volume | _ => audiosink end in
  fret (audioequalizer, audiospectrum, balance, vol, audiosink).

(** The limits of a decoder queue. *)
Definition set_queue_limits (q : ptr) : M factory unit :=
  call (g_object_set q "max-size-bytes" (GUint 0)) ;;
  call (g_object_set q "max-size-buffers" (GUint 10)) ;;
  call (g_object_set q "max-size-time" (GUint64 0)).

(** Gives the flags and the bin. *)
Definition CreateAudioBin (strParserName strDecoderName : option string) (bConvertFormat : bool) : F (Z * ptr) :=
  require (match strParserName, strDecoderName with None, None => false | _, _ => true end)
    ERROR_FUNCTION_PARAM_NULL ;!
  let! bin := obtain (call gst_bin_new) ERROR_GSTREAMER_BIN_CREATE in
  let! h := audio_head bin strParserName strDecoderName bConvertFormat in
  let '(audioparse, audioqueue, audiodec, head, tail) := h in
  let! t := audio_tail bin tail in
  let '(audioequalizer, audiospectrum, balance, volume, audiosink) := t in
  let! sink_pad := obtain (call (gst_element_get_static_pad head "sink")) ERROR_GSTREAMER_ELEMENT_GET_PAD in
  let! ghost_pad := obtain (call (gst_ghost_pad_new (Some "sink"%string) sink_pad))
                      ERROR_GSTREAMER_CREATE_GHOST_PAD in
  lift (call (gst_element_add_pad bin ghost_pad)) ;!
  lift (call (gst_object_unref sink_pad)) ;!
  add_element AUDIO_BIN bin ;!
  add_element AUDIO_QUEUE audioqueue ;!
  add_element AUDIO_EQUALIZER audioequalizer ;!
  add_element AUDIO_SPECTRUM audiospectrum ;!
  add_element AUDIO_BALANCE balance ;!
  add_element AUDIO_VOLUME volume ;!
  add_element AUDIO_SINK audiosink ;!
  (if non_null audioparse then add_element AUDIO_PARSER audioparse else fret tt) ;!
  let! flags :=
    if non_null audiodec then
      add_element AUDIO_DECODER audiodec ;!
      fret (Z.lor AUDIO_DECODER_HAS_SOURCE_PROBE AUDIO_DECODER_HAS_SINK_PROBE)
    else fret 0 in
  lift (set_queue_limits audioqueue) ;!
  fret (flags, bin).

Definition CreateVideoBin (strDecoderName : option string) (pVideoSink : ptr) : F ptr :=
  let! bin := obtain (call gst_bin_new) ERROR_GSTREAMER_BIN_CREATE in
  let! videodec := lift (CreateElement strDecoderName) in
  let! videoqueue := lift (CreateElement (Some "queue"%string)) in
  require (negb (match strDecoderName with Some _ => negb (non_null videodec) | None => false end)
           && non_null videoqueue) ERROR_GSTREAMER_ELEMENT_CREATE ;!
  let! pVideoSink :=
    match pVideoSink with
    | Some _ => fret pVideoSink
    | None => obtain (CreateElement (Some "autovideosink"%string)) ERROR_GSTREAMER_VIDEO_SINK_CREATE
    end in
  (if non_null videodec then
     lift (call (gst_bin_add_many bin [videoqueue; videodec; pVideoSink])) ;!
     ensure (gst_element_link_many [videoqueue; videodec; pVideoSink]) ERROR_GSTREAMER_ELEMENT_LINK_VIDEO_BIN
   else
     lift (call (gst_bin_add_many bin [videoqueue; pVideoSink])) ;!
     ensure (gst_element_link_many [pVideoSink]) ERROR_GSTREAMER_ELEMENT_LINK_VIDEO_BIN) ;!
  let! sink_pad := obtain (call (gst_element_get_static_pad videoqueue "sink")) ERROR_GSTREAMER_ELEMENT_GET_PAD in
  let! ghost_pad := lift (call (gst_ghost_pad_new (Some "sink"%string) sink_pad)) in
  (if non_null ghost_pad then fret tt
   else lift (call (gst_object_unref sink_pad)) ;! fail ERROR_GSTREAMER_CREATE_GHOST_PAD) ;!
  let! ok := lift (call (gst_element_add_pad bin ghost_pad)) in
  (if ok then fret tt
   else lift (call (gst_object_unref sink_pad)) ;! fail ERROR_GSTREAMER_ELEMENT_ADD_PAD) ;!
  lift (call (gst_object_unref sink_pad)) ;!
  add_element VIDEO_BIN bin ;!
  add_element VIDEO_QUEUE videoqueue ;!
  add_element VIDEO_DECODER videodec ;!
  add_element VIDEO_SINK pVideoSink ;!
  lift (set_queue_limits videoqueue) ;!
  lift (call (g_object_set pVideoSink "qos" (GBool true))) ;!
  fret bin.

(** ** Pipelines *)

Definition CreateAudioPipeline (bConvertFormat : bool) : F pipeline :=
  let! source := get_element SOURCE in
  require (non_null source) ERROR_FUNCTION_PARAM_NULL ;!
  let! pipe := obtain (call gst_pipeline_new) ERROR_GSTREAMER_PIPELINE_CREATION in
  ensure (gst_bin_add pipe source) ERROR_GSTREAMER_BIN_ADD_ELEMENT ;!
  let! o := options in
  let! fb := CreateAudioBin (GetCharFromString (m_StreamParser o)) (GetCharFromString (m_AudioDecoder o))
               bConvertFormat in
  let '(flags, audiobin) := fb in
  AttachToSource pipe source None audiobin ;!
  add_element PIPELINE pipe ;!
  let! elements := lift (gets f_elements) in
  let! o := options in
  fret (new_CGstAudioPlaybackPipeline resume0 probe0 elements flags o).

(** The demuxer of the separate audio stream, if it needs one. *)
Definition attach_audio_source (pipe audioSource : ptr) : F ptr :=
  if non_null audioSource then
    ensure (gst_bin_add pipe audioSource) ERROR_GSTREAMER_BIN_ADD_ELEMENT ;!
    let! o := options in
    match GetCharFromString (m_AudioStreamParser o) with
    | None => fret None
    | Some parser =>
        let! audioDemuxer := obtain (CreateElement (Some parser)) ERROR_GSTREAMER_ELEMENT_CREATE in
        let! buffer := get_element AUDIO_SOURCE_BUFFER in
        AttachToSource pipe audioSource buffer audioDemuxer ;!
        fret audioDemuxer
    end
  else fret None.

(** Connects the audio bin to the separate audio stream. *)
Definition attach_audio_bin (pipe audioSource audioDemuxer audiobin : ptr) : F unit :=
  match audioDemuxer with
  | None =>
      let! buffer := get_element AUDIO_SOURCE_BUFFER in
      AttachToSource pipe audioSource buffer audiobin
  | Some _ =>
      let! src_pad := lift (call (gst_element_get_static_pad audioDemuxer "src")) in
      if non_null src_pad then
        lift (call (gst_object_unref src_pad)) ;!
        ensure (gst_bin_add pipe audiobin) ERROR_GSTREAMER_BIN_ADD_ELEMENT ;!
        ensure (gst_element_link audioDemuxer audiobin) ERROR_GSTREAMER_ELEMENT_LINK
      else fret tt
  end.

Definition CreateAVPipeline (bConvertFormat : bool) (pVideoSink : ptr) : F pipeline :=
  let! o := options in
  let bAudioStream := m_PipelineType o == kAudioSourcePipeline in
  let! source := get_element SOURCE in
  require (non_null source) ERROR_FUNCTION_PARAM_NULL ;!
  let! audioSource := get_element AUDIO_SOURCE in
  require (negb (bAudioStream && negb (non_null audioSource))) ERROR_FUNCTION_PARAM_NULL ;!
  let! pipe := obtain (call gst_pipeline_new) ERROR_GSTREAMER_PIPELINE_CREATION in
  let! demuxer := obtain (CreateElement (GetCharFromString (m_StreamParser o))) ERROR_GSTREAMER_ELEMENT_CREATE in
  lift (when bAudioStream (call (g_object_set demuxer "disable-mp2t-pts-reset" (GBool true)))) ;!
  ensure (gst_bin_add pipe source) ERROR_GSTREAMER_BIN_ADD_ELEMENT ;!
  let! buffer := get_element SOURCE_BUFFER in
  AttachToSource pipe source buffer demuxer ;!
  let! audioDemuxer := attach_audio_source pipe audioSource in
  let! fb := CreateAudioBin None (GetCharFromString (m_AudioDecoder o)) bConvertFormat in
  let '(audioFlags, audiobin) := fb in
  (if bAudioStream then attach_audio_bin pipe audioSource audioDemuxer audiobin else fret tt) ;!
  CreateVideoBin (GetCharFromString (m_VideoDecoder o)) pVideoSink ;!
  add_element PIPELINE pipe ;!
  add_element AV_DEMUXER demuxer ;!
  (if non_null audioDemuxer then add_element AUDIO_PARSER audioDemuxer else fret tt) ;!
  let! elements := lift (gets f_elements) in
  let! o := options in
  fret (new_CGstAVPlaybackPipeline resume0 probe0 elements audioFlags o).

(** ** One function per media format *)

Definition set_stream_parser (p : string) (o : CPipelineOptions) := o <| m_StreamParser := p |>.
Definition set_audio_parser (p : string) (o : CPipelineOptions) := o <| m_AudioStreamParser := p |>.
Definition set_audio_decoder (p : string) (o : CPipelineOptions) := o <| m_AudioDecoder := p |>.
Definition set_video_decoder (p : string) (o : CPipelineOptions) := o <| m_VideoDecoder := p |>.

Definition CreateMP4Pipeline (pVideoSink : ptr) : F pipeline :=
  match platform with
  | TargetWin32 =>
      set_options (fun o => set_audio_decoder "dshowwrapper" (set_stream_parser "qtdemux" o)) ;!
      CreateAVPipeline true pVideoSink
  | TargetMac => fail ERROR_PLATFORM_UNSUPPORTED
  | TargetLinux =>
      set_options (fun o => set_video_decoder "avvideodecoder"
                     (set_audio_decoder "avaudiodecoder" (set_stream_parser "qtdemux" o))) ;!
      CreateAVPipeline false pVideoSink
  end.

Definition CreateMp3AudioPipeline : F pipeline :=
  match platform with
  | TargetMac => fail ERROR_PLATFORM_UNSUPPORTED
  | TargetWin32 =>
      set_options (fun o => set_audio_decoder "dshowwrapper" (set_stream_parser "mpegaudioparse" o)) ;!
      CreateAudioPipeline false
  | TargetLinux =>
      set_options (fun o => set_audio_decoder "avaudiodecoder" (set_stream_parser "mpegaudioparse" o)) ;!
      CreateAudioPipeline false
  end.

Definition CreateWavPcmAudioPipeline : F pipeline :=
  set_options (set_stream_parser "wavparse") ;! CreateAudioPipeline true.
Definition CreateAiffPcmAudioPipeline : F pipeline :=
  set_options (set_stream_parser "aiffparse") ;! CreateAudioPipeline true.

(** HLS with a separate audio stream: the options for the video stream, and
    for the audio stream with whether to convert the format; [None] is
    unsupported. *)
Definition hls_video_options (video : Z) : option (CPipelineOptions -> CPipelineOptions) :=
  match platform with
  | TargetMac => None
  | TargetWin32 =>
      if video =? HLS_VALUE_MIMETYPE_MP2T then
        Some (fun o => set_video_decoder "dshowwrapper" (set_stream_parser "dshowwrapper" o))
      else if video =? HLS_VALUE_MIMETYPE_FMP4 then Some (set_stream_parser "qtdemux")
      else None
  | TargetLinux =>
      if video =? HLS_VALUE_MIMETYPE_MP2T then
        Some (fun o => set_video_decoder "avvideodecoder" (set_stream_parser "avmpegtsdemuxer" o))
      else if video =? HLS_VALUE_MIMETYPE_FMP4 then
        Some (fun o => set_video_decoder "avvideodecoder" (set_stream_parser "qtdemux" o))
      else None
  end.
Definition hls_audio_options (audio : Z) : option ((CPipelineOptions -> CPipelineOptions) * bool) :=
  match platform with
  | TargetMac => None
  | TargetWin32 =>
      if audio =? HLS_VALUE_MIMETYPE_FMP4 then
        Some (fun o => set_audio_decoder "dshowwrapper" (set_audio_parser "qtdemux" o), true)
      else if audio =? HLS_VALUE_MIMETYPE_AAC then Some (set_audio_decoder "dshowwrapper", true)
      else None
  | TargetLinux =>
      if audio =? HLS_VALUE_MIMETYPE_FMP4 then
        Some (fun o => set_audio_decoder "avaudiodecoder" (set_audio_parser "qtdemux" o), true)
      else if audio =? HLS_VALUE_MIMETYPE_AAC then
        Some (fun o => set_audio_decoder "avaudiodecoder" (set_audio_parser "aacparse" o), false)
      else None
  end.

Definition CreateHLSPipeline (pVideoSink : ptr) : F pipeline :=
  let! o := options in
  let mime := m_StreamMimeType o in
  if platform == TargetMac then fail ERROR_PLATFORM_UNSUPPORTED
  else if m_PipelineType o == kAudioSourcePipeline then
    match hls_video_options mime with
    | None => fail ERROR_PLATFORM_UNSUPPORTED
    | Some u =>
        set_options u ;!
        match hls_audio_options (m_AudioStreamMimeType o) with
        | None => fail ERROR_PLATFORM_UNSUPPORTED
        | Some (u, bConvertFormat) => set_options u ;! CreateAVPipeline bConvertFormat pVideoSink
        end
    end
  else
    let win := platform == TargetWin32 in
    let dec := if win then "dshowwrapper"%string else "avaudiodecoder"%string in
    if mime =? HLS_VALUE_MIMETYPE_MP2T then
      set_options (fun o =>
        set_video_decoder (if win then "dshowwrapper" else "avvideodecoder")
          (set_audio_decoder dec (set_stream_parser (if win then "dshowwrapper" else "avmpegtsdemuxer") o))) ;!
      CreateAVPipeline win pVideoSink
    else if mime =? HLS_VALUE_MIMETYPE_MP3 then
      set_options (fun o => set_audio_decoder dec (set_stream_parser "mpegaudioparse" o)) ;!
      CreateAudioPipeline false
    else if mime =? HLS_VALUE_MIMETYPE_AAC then
      set_options (fun o => set_audio_decoder dec (if win then o else set_stream_parser "aacparse" o)) ;!
      CreateAudioPipeline false
    else if mime =? HLS_VALUE_MIMETYPE_FMP4 then
      set_options (fun o =>
        let o := set_audio_decoder dec (set_stream_parser "qtdemux" o) in
        if win then o else set_video_decoder "avvideodecoder" o) ;!
      CreateAVPipeline true pVideoSink
    else fail ERROR_PLATFORM_UNSUPPORTED.

(** [CreatePipeline]: by content type. *)
Definition CreatePipeline : F pipeline :=
  let! o := options in
  let ctype x := (m_ContentType o =? x)%string in
  if ctype CONTENT_TYPE_MP4 || ctype CONTENT_TYPE_M4A || ctype CONTENT_TYPE_M4V then
    let! pVideoSink := obtain (CreateElement (Some "appsink"%string)) ERROR_GSTREAMER_VIDEO_SINK_CREATE in
    CreateMP4Pipeline pVideoSink
  else if ctype CONTENT_TYPE_MPA || ctype CONTENT_TYPE_MP3 then CreateMp3AudioPipeline
  else if ctype CONTENT_TYPE_WAV then CreateWavPcmAudioPipeline
  else if ctype CONTENT_TYPE_AIFF then CreateAiffPcmAudioPipeline
  else if ctype CONTENT_TYPE_M3U8 || ctype CONTENT_TYPE_M3U then
    let! pVideoSink := obtain (CreateElement (Some "appsink"%string)) ERROR_GSTREAMER_VIDEO_SINK_CREATE in
    CreateHLSPipeline pVideoSink
  else fail ERROR_LOCATOR_UNSUPPORTED_MEDIA_FORMAT.

(** The separate audio stream of a locator. *)
Definition CreateAudioSource (locator : CLocator) : F unit :=
  if loc_audioCallbacks locator then
    let! streamMimeType := lift (call (CB_Property true HLS_PROP_GET_MIMETYPE 0)) in
    set_options (fun o => o <| m_AudioStreamMimeType := streamMimeType |>) ;!
    let! sb := CreateSourceElement locator true streamMimeType in
    add_element AUDIO_SOURCE (fst sb) ;!
    add_element AUDIO_SOURCE_BUFFER (snd sb) ;!
    set_options (fun o => o <| m_PipelineType := kAudioSourcePipeline |>)
  else fret tt.

(** [CreatePlayerPipeline]; [hasOptions] and [hasPipeline] say whether the
    options pointer and the result pointer are set already. *)
Definition CreatePlayerPipeline (locator : option CLocator) (hasOptions hasPipeline : bool) : F pipeline :=
  match locator with
  | None => fail ERROR_FUNCTION_PARAM_NULL
  | Some locator =>
      require (hasOptions && negb hasPipeline) ERROR_FUNCTION_PARAM_NULL ;!
      require (loc_stream locator) ERROR_LOCATOR_UNSUPPORTED_TYPE ;!
      require (negb (loc_contentType locator =? "")%string) ERROR_LOCATOR_CONTENT_TYPE_NULL ;!
      set_options (fun o => o <| m_ContentType := loc_contentType locator |>) ;!
      require (loc_callbacks locator) ERROR_LOCATOR_NULL ;!
      let! hlsMode := lift (call (CB_Property false HLS_PROP_GET_HLS_MODE 0)) in
      set_options (fun o => o <| m_bHLSModeEnabled := hlsMode =? 1 |>) ;!
      let! streamMimeType := lift (call (CB_Property false HLS_PROP_GET_MIMETYPE 0)) in
      set_options (fun o => o <| m_StreamMimeType := streamMimeType |>) ;!
      let! sb := CreateSourceElement locator false streamMimeType in
      add_element SOURCE (fst sb) ;!
      add_element SOURCE_BUFFER (snd sb) ;!
      CreateAudioSource locator ;!
      CreatePipeline
  end.
End Pipelines.

(** ** Partial correctness of the factory's functions

    [fwp m s Q]: when [m] ends without an error, its result and the fields
    satisfy [Q]. *)

Definition fwp `{Env} {A} (m : F A) (s : factory) (Q : A -> factory -> Prop) : Prop :=
  wp m s (fun r s' _ => match r with inl _ => True | inr a => Q a s' end).

Section FWP.
Context `{EV : Env}.

Lemma fwp_bind {A B} (m : F A) (k : A -> F B) s Q :
  fwp m s (fun a s' => fwp (k a) s' Q) -> fwp (fbind m k) s Q.
Proof.
  intros H. apply wp_bind. eapply wp_mono; [exact H|]. cbn beta. intros [e|a] s' t Ha.
  - apply wp_ret. exact I.
  - exact Ha.
Qed.
Lemma fwp_ret {A} (a : A) s Q : Q a s -> fwp (fret a) s Q.
Proof. intros H. apply wp_ret, H. Qed.
Lemma fwp_fail {A} e s (Q : A -> factory -> Prop) : fwp (fail e) s Q.
Proof. apply wp_ret. exact I. Qed.
Lemma fwp_mono {A} (m : F A) s (P Q : A -> factory -> Prop) :
  fwp m s P -> (forall a s', P a s' -> Q a s') -> fwp m s Q.
Proof. intros H HPQ. eapply wp_mono; [exact H|]. cbn beta. intros [e|a] s' t; [trivial | apply HPQ]. Qed.
Lemma fwp_require (b : bool) e s (Q : unit -> factory -> Prop) : (b = true -> Q tt s) -> fwp (require b e) s Q.
Proof. intros H. unfold require. destruct b; [apply fwp_ret, H; reflexivity | apply fwp_fail]. Qed.

(** Code that only talks to the environment keeps the fields. *)
Definition pure_code {A} (m : M factory A) : Prop := forall s, wp m s (fun _ s' _ => s' = s).

Lemma pure_ret {A} (a : A) : pure_code (ret a).
Proof. intros s. apply wp_ret. reflexivity. Qed.
Lemma pure_call {R} (c : ext R) : pure_code (call c).
Proof. intros s. apply wp_call. reflexivity. Qed.
Lemma pure_gets {A} (f : factory -> A) : pure_code (gets f).
Proof. intros s. apply wp_gets. reflexivity. Qed.
Lemma pure_bind {A B} (m : M factory A) (k : A -> M factory B) :
  pure_code m -> (forall a, pure_code (k a)) -> pure_code (bind m k).
Proof.
  intros Hm Hk s. apply wp_bind. eapply wp_mono; [apply Hm|]. cbn beta. intros a s' t ->.
  eapply wp_mono; [apply Hk|]. cbn beta. auto.
Qed.
Lemma pure_when (b : bool) (m : M factory unit) : pure_code m -> pure_code (when b m).
Proof. intros Hm. destruct b; [exact Hm | apply pure_ret]. Qed.

Lemma fwp_lift {A} (m : M factory A) s (Q : A -> factory -> Prop) :
  pure_code m -> (forall a, Q a s) -> fwp (lift m) s Q.
Proof.
  intros Hm HQ. apply wp_bind. eapply wp_mono; [apply Hm|]. cbn beta. intros a s' t ->.
  apply wp_ret, HQ.
Qed.
Lemma fwp_ensure (c : ext bool) e s (Q : unit -> factory -> Prop) : Q tt s -> fwp (ensure c e) s Q.
Proof. intros HQ. apply fwp_bind, fwp_lift; [apply pure_call|]. intros b. apply fwp_require. auto. Qed.
Lemma fwp_obtain (m : M factory ptr) e s (Q : ptr -> factory -> Prop) :
  pure_code m -> (forall p, non_null p = true -> Q p s) -> fwp (obtain m e) s Q.
Proof.
  intros Hm HQ. apply fwp_bind, fwp_lift; [exact Hm|]. intros p. destruct (non_null p) eqn:E; [|apply fwp_fail].
  apply fwp_ret, HQ, E.
Qed.
Lemma fwp_set_options u s (Q : unit -> factory -> Prop) :
  Q tt (s <| f_options := u (f_options s) |>) -> fwp (set_options u) s Q.
Proof. intros HQ. apply wp_bind, wp_modify, wp_ret. exact HQ. Qed.
Lemma fwp_add_element r e s (Q : unit -> factory -> Prop) :
  Q tt (s <| f_elements := container_add r e (f_elements s) |>) -> fwp (add_element r e) s Q.
Proof. intros HQ. apply wp_bind, wp_modify, wp_ret. exact HQ. Qed.
Lemma fwp_get_element r s (Q : ptr -> factory -> Prop) :
  Q (container_get (f_elements s) r) s -> fwp (get_element r) s Q.
Proof. intros HQ. apply wp_bind, wp_gets, wp_ret. exact HQ. Qed.
Lemma fwp_options s (Q : CPipelineOptions -> factory -> Prop) : Q (f_options s) s -> fwp options s Q.
Proof. intros HQ. apply wp_bind, wp_gets, wp_ret. exact HQ. Qed.
Lemma fwp_elements s (Q : gmap ElementRole ptr -> factory -> Prop) :
  Q (f_elements s) s -> fwp (lift (gets f_elements)) s Q.
Proof. intros HQ. apply wp_bind, wp_gets, wp_ret. exact HQ. Qed.

Lemma pure_CreateElement n : pure_code (CreateElement n).
Proof. destruct n; [apply pure_call | apply pure_ret]. Qed.
Lemma pure_find_by_prefix n it : pure_code (find_by_prefix n it).
Proof.
  induction it as [|[el f| |] it IH]; cbn [find_by_prefix]; try apply pure_ret.
  - destruct (str_has_prefix f n); [apply pure_ret | exact IH].
  - apply pure_bind; [apply pure_call | intros; exact IH].
Qed.
End FWP.

Create HintDb factory discriminated.
#[export] Hint Resolve pure_ret pure_call pure_gets pure_bind pure_when pure_CreateElement
  pure_find_by_prefix : factory.

(** One step of symbolic execution in the factory. *)
Ltac pure_step :=
  repeat first
    [ progress intros
    | apply pure_bind | apply pure_when | apply pure_ret | apply pure_call | apply pure_gets
    | solve [auto with factory nocore]
    | match goal with
      | |- pure_code (if ?b then _ else _) => destruct b
      | |- pure_code (match ?x with _ => _ end) => destruct x
      end ].
Ltac fwp_step :=
  lazymatch goal with
  | |- fwp (fbind _ _) _ _ => apply fwp_bind
  | |- fwp (fret _) _ _ => apply fwp_ret
  | |- fwp (fail _) _ _ => apply fwp_fail
  | |- fwp (require _ _) _ _ => apply fwp_require; intros ?
  | |- fwp (ensure _ _) _ _ => apply fwp_ensure
  | |- fwp (obtain _ _) _ _ => apply fwp_obtain; [solve [pure_step] | intros ? ?]
  | |- fwp (set_options _) _ _ => apply fwp_set_options
  | |- fwp (add_element _ _) _ _ => apply fwp_add_element
  | |- fwp (get_element _) _ _ => apply fwp_get_element
  | |- fwp options _ _ => apply fwp_options
  | |- fwp (lift (gets f_elements)) _ _ => apply fwp_elements
  | |- fwp (lift _) _ _ => apply fwp_lift; [solve [pure_step] | intros ?]
  | |- fwp (if ?b then _ else _) _ _ => destruct b eqn:?
  | |- fwp (match ?x with _ => _ end) _ _ => destruct x eqn:?
  end; cbv beta.
Ltac fwp_steps := repeat fwp_step.

Lemma container_get_add_eq r e m : container_get (container_add r e m) r = e.
Proof. unfold container_get, container_add. rewrite lookup_insert_eq. reflexivity. Qed.
Lemma container_get_add_ne r r' e m : r <> r' -> container_get (container_add r e m) r' = container_get m r'.
Proof. intros H. unfold container_get, container_add. rewrite lookup_insert_ne by exact H. reflexivity. Qed.

(** The container holds an element for the role. *)
Definition has (m : gmap ElementRole ptr) (r : ElementRole) : Prop := non_null (container_get m r) = true.
Definition has_all (l : list ElementRole) (m : gmap ElementRole ptr) : Prop := Forall (has m) l.

Ltac solve_has :=
  unfold has_all, has in *; simpl_set;
  repeat match goal with H : Forall _ (_ :: _) |- _ => inversion_clear H end;
  repeat constructor; simpl_set;
  repeat first [rewrite container_get_add_eq | rewrite container_get_add_ne by discriminate];
  solve [assumption | reflexivity].

Definition audio_roles : list ElementRole :=
  [AUDIO_BIN; AUDIO_QUEUE; AUDIO_EQUALIZER; AUDIO_SPECTRUM; AUDIO_SINK].
Definition video_roles : list ElementRole := [VIDEO_BIN; VIDEO_QUEUE; VIDEO_SINK].

(** The elements a pipeline object of each class can rely on. *)
Definition required_roles (k : PipelineClass) : list ElementRole :=
  [PIPELINE; SOURCE] ++ audio_roles ++
  match k with AudioPlayback => [] | AVPlayback => AV_DEMUXER :: video_roles end.

Section FactorySpecs.
Context `{EV : Env}.

Lemma pure_GetByFactoryName b n : pure_code (GetByFactoryName b n).
Proof. unfold GetByFactoryName. pure_step. Qed.
Lemma pure_CreateAudioSinkElement : pure_code CreateAudioSinkElement.
Proof. apply pure_CreateElement. Qed.
Lemma pure_configure_source a b c d : pure_code (configure_source a b c d).
Proof. unfold configure_source. pure_step. Qed.
Lemma pure_set_queue_limits q : pure_code (set_queue_limits q).
Proof. unfold set_queue_limits. pure_step. Qed.
Hint Resolve pure_GetByFactoryName pure_CreateAudioSinkElement pure_configure_source
  pure_set_queue_limits : factory.

Lemma expose_hls_pad_spec a b s : fwp (expose_hls_pad a b) s (fun _ s' => s' = s).
Proof. unfold expose_hls_pad. fwp_steps; reflexivity. Qed.

Lemma AttachToSource_spec bin src buf el s : fwp (AttachToSource bin src buf el) s (fun _ s' => s' = s).
Proof.
  unfold AttachToSource. fwp_steps; try reflexivity;
    (eapply fwp_mono; [apply expose_hls_pad_spec|]); cbn beta; intros _ s' ->; fwp_steps; reflexivity.
Qed.

(** A source element; only the buffering option changes. *)
Lemma CreateSourceElement_spec loc audio mime s :
  fwp (CreateSourceElement loc audio mime) s (fun sb s' =>
    non_null (fst sb) = true /\ exists b, s' = s <| f_options := f_options s <| m_bBufferingEnabled := b |> |>).
Proof.
  unfold CreateSourceElement. fwp_steps; (split; [assumption | eexists; reflexivity]).
Qed.

Lemma audio_head_spec bin p d c s :
  fwp (audio_head bin p d c) s (fun '(_, q, _, _, _) s' => s' = s /\ non_null q = true).
Proof. unfold audio_head. fwp_steps; (split; [reflexivity | assumption]). Qed.

Lemma audio_tail_spec bin tl s :
  fwp (audio_tail bin tl) s (fun '(eq, sp, _, _, sink) s' =>
    s' = s /\ non_null eq = true /\ non_null sp = true /\ non_null sink = true).
Proof. unfold audio_tail. fwp_steps; bools; (split_and!; [reflexivity | assumption..]). Qed.

(** The audio bin records its elements and touches no other role. *)
Lemma CreateAudioBin_spec p d c s :
  fwp (CreateAudioBin p d c) s (fun _ s' =>
    f_options s' = f_options s /\ has_all audio_roles (f_elements s') /\
    forall r, r ∈ [SOURCE; AUDIO_SOURCE; SOURCE_BUFFER; AUDIO_SOURCE_BUFFER] ->
              container_get (f_elements s') r = container_get (f_elements s) r).
Proof.
  unfold CreateAudioBin. do 4 fwp_step. apply fwp_bind.
  eapply fwp_mono; [apply audio_head_spec|]. cbn beta. intros [[[[pa q] de] hd] tl] s1 [-> Hq].
  apply fwp_bind. eapply fwp_mono; [apply audio_tail_spec|]. cbn beta.
  intros [[[[eq sp] ba] vo] si] s2 (-> & Heq & Hsp & Hsi).
  fwp_steps; (split_and!; [reflexivity | solve_has |]); intros r Hr; simpl_set;
    repeat (rewrite container_get_add_ne; [|intros <-; revert Hr; apply (bool_decide_unpack _); exact I]);
    reflexivity.
Qed.

Lemma CreateVideoBin_spec d sink s :
  fwp (CreateVideoBin d sink) s (fun _ s' =>
    f_options s' = f_options s /\ has_all video_roles (f_elements s') /\
    forall r, r ∈ SOURCE :: audio_roles -> container_get (f_elements s') r = container_get (f_elements s) r).
Proof.
  unfold CreateVideoBin. fwp_steps; bools; (split_and!; [reflexivity | solve_has |]); intros r Hr; simpl_set;
    repeat (rewrite container_get_add_ne; [|intros <-; revert Hr; apply (bool_decide_unpack _); exact I]);
    reflexivity.
Qed.

(** What the callers of a factory function get. *)
Definition complete (k : PipelineClass) (s : factory) (p : pipeline) : Prop :=
  klass p = k /\ has_all (required_roles k) (m_Elements p) /\ m_PlayerState p = Unknown /\
  m_ContentType (m_pOptions p) = m_ContentType (f_options s).

Lemma has_all_transfer l m m' :
  has_all l m -> (forall r, r ∈ l -> container_get m' r = container_get m r) -> has_all l m'.
Proof.
  unfold has_all, has. rewrite !Forall_forall. intros H Hm r Hr. rewrite Hm by exact Hr. auto.
Qed.

Lemma CreateAudioPipeline_spec resume0 probe0 c s :
  fwp (CreateAudioPipeline resume0 probe0 c) s (fun p _ => complete AudioPlayback s p).
Proof.
  unfold CreateAudioPipeline. fwp_steps.
  eapply fwp_mono; [apply CreateAudioBin_spec|]. cbn beta. intros [flags bin] s1 (Ho & Ha & Hs).
  apply fwp_bind. eapply fwp_mono; [apply AttachToSource_spec|]. cbn beta. intros _ s2 ->.
  fwp_steps. assert (Hsrc : has (f_elements s1) SOURCE) by (unfold has; rewrite Hs by set_solver; assumption).
  split_and!; [reflexivity | | reflexivity | exact (f_equal m_ContentType Ho)].
  cbn [m_Elements new_CGstAudioPlaybackPipeline required_roles app audio_roles].
  unfold audio_roles in Ha. solve_has.
Qed.

Lemma attach_audio_source_spec pipe src s : fwp (attach_audio_source pipe src) s (fun _ s' => s' = s).
Proof.
  unfold attach_audio_source. repeat (fwp_step; try reflexivity).
  eapply fwp_mono; [apply AttachToSource_spec|]. cbn beta. intros _ s' ->. fwp_steps. reflexivity.
Qed.

Lemma attach_audio_bin_spec pipe src d b s : fwp (attach_audio_bin pipe src d b) s (fun _ s' => s' = s).
Proof.
  unfold attach_audio_bin. destruct d; fwp_steps; try reflexivity. apply AttachToSource_spec.
Qed.

Lemma complete_AV resume0 probe0 elements flags o s :
  has_all (required_roles AVPlayback) elements -> m_ContentType o = m_ContentType (f_options s) ->
  complete AVPlayback s (new_CGstAVPlaybackPipeline resume0 probe0 elements flags o).
Proof. intros He Ho. split_and!; [reflexivity | exact He | reflexivity | exact Ho]. Qed.

Lemma CreateAVPipeline_spec resume0 probe0 c sink s :
  fwp (CreateAVPipeline resume0 probe0 c sink) s (fun p _ => complete AVPlayback s p).
Proof.
  unfold CreateAVPipeline. fwp_steps.
  eapply fwp_mono; [apply AttachToSource_spec|]. cbn beta. intros _ s1 ->. apply fwp_bind.
  eapply fwp_mono; [apply attach_audio_source_spec|]. cbn beta. intros demux s2 ->. apply fwp_bind.
  eapply fwp_mono; [apply CreateAudioBin_spec|]. cbn beta. intros [flags bin] s3 (Ho & Ha & Hs). apply fwp_bind.
  eapply fwp_mono with (P := fun _ s' => s' = s3).
  { fwp_step; [apply attach_audio_bin_spec | fwp_step; reflexivity]. }
  cbn beta. intros _ s4 ->. apply fwp_bind.
  eapply fwp_mono; [apply CreateVideoBin_spec|]. cbn beta. intros vbin s5 (Ho5 & Hv & Hs5).
  assert (Ha5 : has_all (SOURCE :: audio_roles) (f_elements s5)).
  { eapply has_all_transfer; [|exact Hs5]. constructor; [|exact Ha]. unfold has. rewrite Hs by set_solver. assumption. }
  fwp_steps; apply complete_AV; simpl_set; try congruence; unfold audio_roles, video_roles in *; solve_has.
Qed.

(** Setting options does not change what is built of them. *)
Lemma complete_options k s u p :
  m_ContentType (u (f_options s)) = m_ContentType (f_options s) ->
  complete k (s <| f_options := u (f_options s) |>) p -> complete k s p.
Proof. intros Hu (H1 & H2 & H3 & H4). split_and!; try assumption. rewrite H4. exact Hu. Qed.

(** The content types each platform's build plays through this factory. *)
Definition playable (ct : string) : bool :=
  bool_decide (ct ∈ [CONTENT_TYPE_WAV; CONTENT_TYPE_AIFF]) ||
  ((platform != TargetMac) &&
   bool_decide (ct ∈ [CONTENT_TYPE_MP4; CONTENT_TYPE_M4A; CONTENT_TYPE_M4V; CONTENT_TYPE_MPA;
                      CONTENT_TYPE_MP3; CONTENT_TYPE_M3U8; CONTENT_TYPE_M3U])).

Definition built (s : factory) (p : pipeline) : Prop := complete (klass p) s p.

Lemma complete_built k s p : complete k s p -> built s p.
Proof. intros H. unfold built. rewrite (proj1 H). exact H. Qed.

(** A format function: options, then one of the two pipeline builders. *)
Lemma audio_built resume0 probe0 u c s :
  m_ContentType (u (f_options s)) = m_ContentType (f_options s) ->
  fwp (set_options u ;! CreateAudioPipeline resume0 probe0 c) s (fun p _ => built s p).
Proof.
  intros Hu. fwp_steps. eapply fwp_mono; [apply CreateAudioPipeline_spec|]. cbn beta. intros p _ H.
  eapply complete_built, complete_options; eassumption.
Qed.
Lemma av_built resume0 probe0 u c sink s :
  m_ContentType (u (f_options s)) = m_ContentType (f_options s) ->
  fwp (set_options u ;! CreateAVPipeline resume0 probe0 c sink) s (fun p _ => built s p).
Proof.
  intros Hu. fwp_steps. eapply fwp_mono; [apply CreateAVPipeline_spec|]. cbn beta. intros p _ H.
  eapply complete_built, complete_options; eassumption.
Qed.

Lemma CreateMP4Pipeline_spec resume0 probe0 sink s :
  fwp (CreateMP4Pipeline resume0 probe0 sink) s (fun p _ => built s p /\ platform <> TargetMac).
Proof.
  unfold CreateMP4Pipeline. destruct platform eqn:E; [|..|apply fwp_fail];
    (eapply fwp_mono; [apply av_built; reflexivity|]); (intros ? ? H; split; [exact H | discriminate]).
Qed.
Lemma CreateMp3AudioPipeline_spec resume0 probe0 s :
  fwp (CreateMp3AudioPipeline resume0 probe0) s (fun p _ => built s p /\ platform <> TargetMac).
Proof.
  unfold CreateMp3AudioPipeline. destruct platform eqn:E; [|..|apply fwp_fail];
    (eapply fwp_mono; [apply audio_built; reflexivity|]); (intros ? ? H; split; [exact H | discriminate]).
Qed.

Lemma hls_video_options_type v u o : hls_video_options v = Some u -> m_ContentType (u o) = m_ContentType o.
Proof. unfold hls_video_options. intros H. repeat case_match; simplify_eq; reflexivity. Qed.
Lemma hls_audio_options_type v u c o : hls_audio_options v = Some (u, c) -> m_ContentType (u o) = m_ContentType o.
Proof. unfold hls_audio_options. intros H. repeat case_match; simplify_eq; reflexivity. Qed.

Lemma CreateHLSPipeline_spec resume0 probe0 sink s :
  fwp (CreateHLSPipeline resume0 probe0 sink) s (fun p _ => built s p /\ platform <> TargetMac).
Proof.
  unfold CreateHLSPipeline. do 2 fwp_step. destruct (platform == TargetMac) eqn:Hm; [apply fwp_fail|]. bools.
  eapply fwp_mono; [|intros p s' H; split; [exact H | exact Hm]].
  destruct (m_PipelineType (f_options s) == kAudioSourcePipeline).
  - destruct (hls_video_options _) as [u|] eqn:Eu; [|apply fwp_fail]. do 2 fwp_step.
    destruct (hls_audio_options _) as [[u' c]|] eqn:Ea; [|apply fwp_fail].
    eapply fwp_mono; [apply av_built; eapply hls_audio_options_type, Ea|]. cbn beta. intros p _ H.
    eapply complete_options; [eapply hls_video_options_type, Eu | exact H].
  - generalize (platform == TargetWin32). intros win.
    destruct (_ =? HLS_VALUE_MIMETYPE_MP2T); [apply av_built; destruct win; reflexivity|].
    destruct (_ =? HLS_VALUE_MIMETYPE_MP3); [apply audio_built; destruct win; reflexivity|].
    destruct (_ =? HLS_VALUE_MIMETYPE_AAC); [apply audio_built; destruct win; reflexivity|].
    destruct (_ =? HLS_VALUE_MIMETYPE_FMP4); [apply av_built; destruct win; reflexivity|]. apply fwp_fail.
Qed.

Lemma CreatePipeline_spec resume0 probe0 s :
  fwp (CreatePipeline resume0 probe0) s (fun p _ =>
    built s p /\ playable (m_ContentType (f_options s)) = true).
Proof.
  assert (Hmac : platform <> TargetMac -> (platform != TargetMac) = true)
    by (intros H; apply negb_true_iff, bool_decide_eq_false, H).
  unfold CreatePipeline. do 2 fwp_step. unfold playable. set (ct := m_ContentType (f_options s)).
  assert (Hct : forall x, (ct =? x)%string = true -> ct = x) by (intros x; apply String.eqb_eq).
  repeat match goal with
  | |- fwp (if ?b then _ else _) _ _ =>
      destruct b eqn:?; [bools; match goal with H : (ct =? _)%string = true |- _ => rewrite (Hct _ H) end|]
  end; [..|apply fwp_fail];
    lazymatch goal with
    | |- fwp (CreateMp3AudioPipeline _ _) _ _ => eapply fwp_mono; [apply CreateMp3AudioPipeline_spec|]
    | |- fwp (CreateWavPcmAudioPipeline _ _) _ _ => eapply fwp_mono; [apply audio_built; reflexivity|]
    | |- fwp (CreateAiffPcmAudioPipeline _ _) _ _ => eapply fwp_mono; [apply audio_built; reflexivity|]
    | |- fwp (fbind _ (fun _ => CreateMP4Pipeline _ _ _)) _ _ =>
        fwp_steps; eapply fwp_mono; [apply CreateMP4Pipeline_spec|]
    | |- fwp (fbind _ (fun _ => CreateHLSPipeline _ _ _)) _ _ =>
        fwp_steps; eapply fwp_mono; [apply CreateHLSPipeline_spec|]
    end; cbn beta; intros pl s' Hb;
    lazymatch type of Hb with
    | _ /\ _ => destruct Hb as [Hb Hp]; rewrite (Hmac Hp); split; [exact Hb | reflexivity]
    | _ => split; [exact Hb | reflexivity]
    end.
Qed.

Lemma CreateAudioSource_spec loc s :
  fwp (CreateAudioSource loc) s (fun _ s' => m_ContentType (f_options s') = m_ContentType (f_options s)).
Proof.
  unfold CreateAudioSource. destruct (loc_audioCallbacks loc); [|fwp_steps; reflexivity]. do 5 fwp_step.
  eapply fwp_mono; [apply CreateSourceElement_spec|]. cbn beta. intros sb s1 [_ [b ->]]. fwp_steps. reflexivity.
Qed.

Lemma CreatePlayerPipeline_spec resume0 probe0 loc ho hp s :
  fwp (CreatePlayerPipeline resume0 probe0 (Some loc) ho hp) s (fun p _ =>
    has_all (required_roles (klass p)) (m_Elements p) /\ m_PlayerState p = Unknown /\
    m_ContentType (m_pOptions p) = loc_contentType loc /\ playable (loc_contentType loc) = true).
Proof.
  unfold CreatePlayerPipeline. fwp_steps.
  eapply fwp_mono; [apply CreateSourceElement_spec|]. cbn beta. intros sb s1 [_ [b ->]]. do 4 fwp_step.
  apply fwp_bind. eapply fwp_mono; [apply CreateAudioSource_spec|]. cbn beta. intros _ s2 Hct.
  eapply fwp_mono; [apply CreatePipeline_spec|]. cbn beta. intros p _ [(_ & He & Hs & Hc) Hp].
  rewrite Hct in Hc, Hp. split_and!; [exact He | exact Hs | exact Hc | exact Hp].
Qed.
End FactorySpecs.

(** C37: what the factory hands to the player.  Whatever GStreamer answers, when
    [CreatePlayerPipeline] succeeds it was given a locator, the content type is
    one the platform's build plays (the macOS build of this factory plays PCM
    only), the pipeline's options carry that content type, the player is in
    state [Unknown], and the pipeline object has every element its class relies
    on: source, audio bin, queue, equalizer, spectrum and sink, and for an
    audio-video pipeline the demuxer, video bin, queue and sink. *)
Theorem CreatePlayerPipeline_complete `{Env} (resume0 : bool) (probe0 : Z) (locator : option CLocator)
    (hasOptions hasPipeline : bool) (s : factory) (w : world) (p : pipeline)
    (Hok : oval (CreatePlayerPipeline resume0 probe0 locator hasOptions hasPipeline s w) = inr p) :
  exists loc, locator = Some loc /\
    has_all (required_roles (klass p)) (m_Elements p) /\ m_PlayerState p = Unknown /\
    m_ContentType (m_pOptions p) = loc_contentType loc /\ playable (loc_contentType loc) = true.
Proof.
  destruct locator as [loc|]; [|discriminate Hok]. exists loc. split; [reflexivity|].
  pose proof (CreatePlayerPipeline_spec resume0 probe0 loc hasOptions hasPipeline s w) as Hp.
  cbn beta in Hp. rewrite Hok in Hp. exact Hp.
Qed.

Definition mp4_locator : CLocator := mkLocator true CONTENT_TYPE_MP4 "file:/a.mp4" 1000 true false.
Definition new_factory : factory := mkFactory (new_CPipelineOptions kSingleSourcePipeline) ∅.

(** The pipeline of an MP4 file where every call succeeds. *)
Definition mp4_result : ErrCode + pipeline :=
  oval (@CreatePlayerPipeline (nominal_env TargetLinux) false 0 (Some mp4_locator) true false new_factory tt).
Definition mp4_pipeline : pipeline :=
  match mp4_result with
  | inr p => p
  | inl _ => new_CGstAudioPlaybackPipeline false 0 ∅ 0 (new_CPipelineOptions kSingleSourcePipeline)
  end.

Lemma CreatePlayerPipeline_complete_witness :
  klass mp4_pipeline = AVPlayback /\
  has_all (required_roles (klass mp4_pipeline)) (m_Elements mp4_pipeline).
Proof.
  split; [vm_compute; reflexivity|].
  destruct (@CreatePlayerPipeline_complete (nominal_env TargetLinux) false 0 (Some mp4_locator) true false new_factory tt
              mp4_pipeline ltac:(vm_compute; reflexivity)) as (loc & _ & He & _).
  exact He.
Defined.
