(* ===== verification/LockOrder.v ===== *)
(** * Lock order

    Every way into the pipeline (a call of the player, a message of the bus, a
    callback of GStreamer) as one type, and the proof that all of them take the
    engine's four locks in one fixed order and give all of them back. *)

From S2P Require Import Prelude CFloat MediaTypes GstApi Effects PipelineState AudioPipeline Bus Tracks AppSink Build.

Local Open Scope Z_scope.

Section LockOrder.
Context `{EV : Env}.

Lemma disciplined_virtual {A} n (m k : PM A) :
  disciplined n m -> disciplined n k -> disciplined n (virtual m k).
Proof. intros Hm Hk h Hh. eapply locks_bind; [apply locks_gets|]. intros []; [apply Hm, Hh | apply Hk, Hh]. Qed.
Lemma disciplined_decoder_supports n r c (m : PM unit) :
  disciplined n m -> disciplined n (decoder_supports r c m).
Proof. intros Hm. unfold decoder_supports, PM. intros h Hh. specialize (Hm h Hh). solve_locks; assumption. Qed.
Lemma disciplined_modify n (f : pipeline -> pipeline) : disciplined n (modify f).
Proof. intros h Hh. apply locks_modify. Qed.
Hint Resolve disciplined_virtual disciplined_decoder_supports disciplined_modify : locks.

Lemma disciplined_IsCodecSupported n c : disciplined n (IsCodecSupported c).
Proof.
  apply disciplined_virtual; unfold AV_IsCodecSupported, Audio_IsCodecSupported, PM; solve_locks.
Qed.
Lemma disciplined_Audio_CheckCodecSupport n : disciplined n Audio_CheckCodecSupport.
Proof. unfold Audio_CheckCodecSupport, PM. solve_locks. Qed.
Hint Resolve disciplined_Audio_CheckCodecSupport : locks.
Lemma disciplined_CheckCodecSupport n : disciplined n CheckCodecSupport.
Proof. apply disciplined_virtual; [auto with locks | unfold AV_CheckCodecSupport, PM; solve_locks]. Qed.
Lemma disciplined_LoadDecoder n c : disciplined n (LoadDecoder c).
Proof. apply disciplined_virtual; unfold AV_LoadDecoder, Audio_LoadDecoder, PM; solve_locks. Qed.
Lemma disciplined_add_probe n e p c : disciplined n (add_probe e p c).
Proof. unfold add_probe, PM. solve_locks. Qed.
Hint Resolve disciplined_IsCodecSupported disciplined_CheckCodecSupport disciplined_LoadDecoder
  disciplined_add_probe : locks.
Lemma disciplined_probe_decoder n d : disciplined n (probe_decoder d).
Proof. unfold probe_decoder, PM. solve_locks. Qed.
Hint Resolve disciplined_probe_decoder : locks.
Lemma disciplined_Audio_PostBuildInit n : disciplined n Audio_PostBuildInit.
Proof. unfold Audio_PostBuildInit, PM. solve_locks. Qed.
Hint Resolve disciplined_Audio_PostBuildInit : locks.
Lemma disciplined_PostBuildInit n : disciplined n PostBuildInit.
Proof. apply disciplined_virtual; [auto with locks | unfold AV_PostBuildInit, PM; solve_locks]. Qed.
Hint Resolve disciplined_PostBuildInit : locks.

Lemma disciplined_send_halt n m : disciplined n (send_halt m).
Proof. unfold send_halt, PM. solve_locks. Qed.
Hint Resolve disciplined_send_halt : locks.
Lemma disciplined_link_parser n p : disciplined n (link_parser p).
Proof. unfold link_parser, PM. solve_locks. Qed.
Lemma disciplined_connect_bin n e p r : disciplined n (connect_bin e p r).
Proof. unfold connect_bin, PM. solve_locks. Qed.
Lemma disciplined_bin_connected n r : disciplined n (bin_connected r).
Proof. unfold bin_connected, PM. solve_locks. Qed.
Lemma disciplined_report_link n l a v : disciplined n (report_link l a v).
Proof. unfold report_link, PM. solve_locks. Qed.
Hint Resolve disciplined_link_parser disciplined_connect_bin disciplined_bin_connected
  disciplined_report_link : locks.

Lemma disciplined_OnParserSrcPadAdded e p : disciplined 0 (OnParserSrcPadAdded e p).
Proof. unfold OnParserSrcPadAdded, with_dispose_lock, PM. solve_locks. Qed.
Lemma disciplined_on_pad_added e p : disciplined 0 (on_pad_added e p).
Proof. unfold on_pad_added, with_dispose_lock, PM. solve_locks. Qed.
Lemma disciplined_no_more_pads e : disciplined 0 (no_more_pads e).
Proof. unfold no_more_pads, with_dispose_lock, PM. solve_locks. Qed.
Lemma disciplined_queue_at_limit n q : disciplined n (queue_at_limit q).
Proof. unfold queue_at_limit, PM. solve_locks. Qed.
Hint Resolve disciplined_queue_at_limit : locks.
Lemma disciplined_queue_underrun n e : disciplined n (queue_underrun e).
Proof. unfold queue_underrun, PM. solve_locks. Qed.

Lemma disciplined_static_decoder_bin n : disciplined n static_decoder_bin.
Proof. unfold static_decoder_bin, PM. solve_locks. Qed.
Hint Resolve disciplined_static_decoder_bin : locks.
Lemma disciplined_watch_bus n : disciplined n watch_bus.
Proof. unfold watch_bus, PM. solve_locks. Qed.
Lemma disciplined_start_pipeline n : disciplined n start_pipeline.
Proof. unfold start_pipeline, PM. solve_locks. Qed.
Hint Resolve disciplined_watch_bus disciplined_start_pipeline : locks.
Lemma disciplined_Audio_Init n : disciplined n Audio_Init.
Proof. unfold Audio_Init, PM. solve_locks. Qed.
Hint Resolve disciplined_Audio_Init : locks.
Lemma disciplined_Init n : disciplined n Build.Init.
Proof. apply disciplined_virtual; [auto with locks | unfold AV_Init, PM; solve_locks]. Qed.

Lemma disciplined_destroy_pipeline n p : (n <= 0)%nat -> disciplined n (destroy_pipeline p).
Proof.
  intros Hle. assert (n = 0)%nat as -> by lia. pose proof disciplined_BusCallbackDestroyNotify as Hn.
  unfold destroy_pipeline, PM. intros h Hh. specialize (Hn h Hh). solve_locks; exact Hn.
Qed.
Hint Resolve disciplined_destroy_pipeline : locks.
Lemma disciplined_Audio_Dispose n : (n <= 0)%nat -> disciplined n Audio_Dispose.
Proof.
  intros Hle h Hh. unfold Audio_Dispose. eapply locks_bind; [apply locks_gets|].
  intros [c|]; cbn [when andb]; unfold PM; solve_locks.
Qed.
Hint Resolve disciplined_Audio_Dispose : locks.
Lemma disciplined_Dispose : disciplined 0 Build.Dispose.
Proof. apply disciplined_virtual; [auto with locks | unfold AV_Dispose, PM; solve_locks]. Qed.

Lemma disciplined_SendTrackEvent n : disciplined n SendTrackEvent.
Proof. unfold SendTrackEvent, PM. solve_locks. Qed.
Hint Resolve disciplined_SendTrackEvent : locks.
Lemma disciplined_AudioSinkPadProbe n p t d : disciplined n (AudioSinkPadProbe p t d).
Proof. unfold AudioSinkPadProbe, PM. solve_locks. Qed.
Lemma disciplined_AudioSourcePadProbe n p t d : disciplined n (AudioSourcePadProbe p t d).
Proof. unfold AudioSourcePadProbe, PM. solve_locks. Qed.
Lemma disciplined_VideoDecoderSrcProbe n p t d : disciplined n (VideoDecoderSrcProbe p t d).
Proof.
  unfold VideoDecoderSrcProbe, release_caps, release_pad, SetEncodedVideoFrameRate, PM. solve_locks.
Qed.

Lemma disciplined_check_discont n s b : disciplined n (check_discont s b).
Proof. unfold check_discont, OnAppSinkVideoFrameDiscont, PM. solve_locks. Qed.
Lemma disciplined_rebase_buffer n b : disciplined n (rebase_buffer b).
Proof. unfold rebase_buffer, PM. solve_locks. Qed.
Lemma disciplined_send_frame n s b d : disciplined n (send_frame s b d).
Proof. unfold send_frame, PM. solve_locks. Qed.
Hint Resolve disciplined_check_discont disciplined_rebase_buffer disciplined_send_frame : locks.
Lemma disciplined_OnAppSinkHaveFrame n e : disciplined n (OnAppSinkHaveFrame e).
Proof. unfold OnAppSinkHaveFrame, PM. solve_locks. Qed.
Lemma disciplined_OnAppSinkPreroll n e : disciplined n (OnAppSinkPreroll e).
Proof. unfold OnAppSinkPreroll, PM. solve_locks. Qed.

(** ** Ways in *)

Inductive entry :=
| call_Init | call_Dispose
| call_Play | call_Pause | call_Stop | call_Finish | call_Seek (time : double) | call_SetRate (rate : float)
| call_GetDuration | call_GetStreamTime | call_GetRate | call_GetVolume | call_GetBalance | call_GetAudioSyncDelay
| call_SetVolume (v : float) | call_SetBalance (v : float) | call_SetAudioSyncDelay (millis : Z)
| bus_message (msg : GstMessage) | bus_watch_destroyed
| parser_pad_added (el pad : ptr) | demuxer_pad_added (el pad : ptr) | demuxer_no_more_pads (el : ptr)
| queue_overran (el : ptr) | queue_underran (el : ptr)
| sink_have_frame (el : ptr) | sink_preroll (el : ptr)
| probe_audio_sink (pad : ptr) (type : Z) (data : bool)
| probe_audio_source (pad : ptr) (type : Z) (data : bool)
| probe_video (pad : ptr) (type : Z) (data : bool).

Definition run (e : entry) : PM unit :=
  match e with
  | call_Init => Build.Init ;; ret tt
  | call_Dispose => Build.Dispose
  | call_Play => Play ;; ret tt
  | call_Pause => Pause ;; ret tt
  | call_Stop => Stop ;; ret tt
  | call_Finish => Finish ;; ret tt
  | call_Seek t => Seek t ;; ret tt
  | call_SetRate r => SetRate r ;; ret tt
  | call_GetDuration => GetDuration ;; ret tt
  | call_GetStreamTime => GetStreamTime ;; ret tt
  | call_GetRate => GetRate ;; ret tt
  | call_GetVolume => GetVolume ;; ret tt
  | call_GetBalance => GetBalance ;; ret tt
  | call_GetAudioSyncDelay => GetAudioSyncDelay ;; ret tt
  | call_SetVolume v => SetVolume v ;; ret tt
  | call_SetBalance v => SetBalance v ;; ret tt
  | call_SetAudioSyncDelay d => SetAudioSyncDelay d ;; ret tt
  | bus_message msg => BusCallback msg ;; ret tt
  | bus_watch_destroyed => BusCallbackDestroyNotify
  | parser_pad_added el pad => OnParserSrcPadAdded el pad
  | demuxer_pad_added el pad => on_pad_added el pad
  | demuxer_no_more_pads el => no_more_pads el
  | queue_overran el => queue_overrun el
  | queue_underran el => queue_underrun el
  | sink_have_frame el => OnAppSinkHaveFrame el ;; ret tt
  | sink_preroll el => OnAppSinkPreroll el ;; ret tt
  | probe_audio_sink pad type data => AudioSinkPadProbe pad type data ;; ret tt
  | probe_audio_source pad type data => AudioSourcePadProbe pad type data ;; ret tt
  | probe_video pad type data => VideoDecoderSrcProbe pad type data ;; ret tt
  end.

Hint Resolve disciplined_Init disciplined_Dispose disciplined_BusCallback disciplined_BusCallbackDestroyNotify
  disciplined_OnParserSrcPadAdded disciplined_on_pad_added disciplined_no_more_pads
  disciplined_queue_underrun disciplined_OnAppSinkHaveFrame disciplined_OnAppSinkPreroll
  disciplined_AudioSinkPadProbe disciplined_AudioSourcePadProbe disciplined_VideoDecoderSrcProbe : locks.

Lemma disciplined_then {A} n (m : PM A) : disciplined n m -> disciplined n (m ;; ret tt).
Proof. intros Hm h Hh. eapply locks_bind; [apply Hm, Hh|]. intros. apply locks_ret. Qed.

Lemma disciplined_run e : locks [] (run e) [].
Proof.
  apply (locks_disciplined (run e) []). change (top_rank []) with 0%nat.
  destruct e; cbn [run]; try apply disciplined_then;
    unfold queue_overrun, GetRate, GetVolume, GetBalance, GetAudioSyncDelay, SetVolume, SetBalance, SetAudioSyncDelay, PM;
    first [solve [eauto 2 with locks] | solve_locks].
Qed.

(** C2: no deadlock among the engine's own locks.  Every operation of the
    player (each virtual method of the pipeline that the native methods call),
    every bus message and every callback of GStreamer enters the dispose, seek, stall and state locks only in this order (re-entering the
    innermost is allowed: the critical sections are recursive), leaves the
    innermost first, and has left all of them when it returns, on every path
    and whatever the environment answers. *)
Theorem locks_ordered_and_released (e : entry) (s : pipeline) (w : world) :
  lock_run [] (otrace (run e s w)) = Some [].
Proof. exact (disciplined_run e s w). Qed.
End LockOrder.
