(* ===== verification/StateMachine.v ===== *)
(** * The player's state machine

    What the player state does, as a labelled transition relation
    ([transition]), and the proof that the engine refines it: every bus
    message moves the player state along one edge or not at all, and tells the
    Java side exactly about the edges that are not silent. *)

From S2P Require Import Prelude CFloat MediaTypes GstApi Effects PipelineState AudioPipeline Bus.

Local Open Scope Z_scope.

(** ** The abstract machine *)

(** [transition msg p p']: handling [msg] may take the player from [p] to
    [p']. *)
Inductive transition : GstMessage -> PlayerState -> PlayerState -> Prop :=
| tr_eos p :
    p <> Finished -> transition GST_MESSAGE_EOS p Finished
| tr_error p e d t :
    transition (GST_MESSAGE_ERROR e d t) p Error
| tr_preroll src old :
    old = GST_STATE_READY \/ old = GST_STATE_PAUSED ->
    transition (GST_MESSAGE_STATE_CHANGED src old GST_STATE_PAUSED GST_STATE_VOID_PENDING) Unknown Ready
| tr_play src p :
    p ∈ [Ready; Paused; Stopped; Stalled; Finished] ->
    transition (GST_MESSAGE_STATE_CHANGED src GST_STATE_PAUSED GST_STATE_PLAYING GST_STATE_VOID_PENDING) p Playing
| tr_unprepare src p :
    p ∈ [Ready; Paused; Stopped] ->
    transition (GST_MESSAGE_STATE_CHANGED src GST_STATE_PAUSED GST_STATE_READY GST_STATE_VOID_PENDING) p Unknown
| tr_end src :
    transition (GST_MESSAGE_STATE_CHANGED src GST_STATE_PLAYING GST_STATE_PAUSED GST_STATE_VOID_PENDING)
      Playing Finished
| tr_halt src old p p' :
    old = GST_STATE_PLAYING \/ old = GST_STATE_PAUSED ->
    (p, p') ∈ [(Playing, Stopped); (Playing, Stalled); (Playing, Paused);
               (Stopped, Paused); (Stalled, Paused); (Stalled, Stopped);
               (Finished, Stopped); (Finished, Paused)] ->
    transition (GST_MESSAGE_STATE_CHANGED src old GST_STATE_PAUSED GST_STATE_VOID_PENDING) p p'
| tr_stop src new :
    transition (GST_MESSAGE_STATE_CHANGED src GST_STATE_PAUSED new GST_STATE_VOID_PENDING) Paused Stopped.

(** The edges the Java side is not told about: errors are reported by their
    own event, and leaving [Finished] for [Playing] is a seek or a repeat. *)
Definition silent (p p' : PlayerState) : bool :=
  (p' == Error) || ((p == Finished) && (p' == Playing)).

(** ** What leaves the player state alone *)

(** The fields a handler never changes. *)
Definition fixed (p : pipeline) :=
  (klass p, m_pEventDispatcher p, m_pOptions p, m_Elements p, m_pBusCallbackContent p).

(** The player state is kept and nothing is announced. *)
Definition inert : pipeline -> pipeline -> list obs -> Prop :=
  keeping (fun p => (fixed p, m_PlayerState p)) (fun o => announced o = None).

(** The same, with nothing asked of GStreamer's states either. *)
Definition passive : pipeline -> pipeline -> list obs -> Prop :=
  keeping (fun p => (fixed p, m_PlayerState p, m_PlayerPendingState p, m_fRate p))
    (fun o => announced o = None /\ state_request o = None).

#[export] Instance inert_composable : Composable inert.
Proof. apply keeping_composable. Qed.
#[export] Instance passive_composable : Composable passive.
Proof. apply keeping_composable. Qed.

Lemma passive_inert s s' t : passive s s' t -> inert s s' t.
Proof.
  intros [H1 H2]. split; [unfold fixed in *; congruence|].
  eapply Forall_impl; [exact H2|]. intros o [Ho _]. exact Ho.
Qed.

Ltac frame_side := split; [reflexivity | repeat constructor].
Ltac solve_frame := solve_sat frame_side.

Section Inert.
Context `{EV : Env}.

Lemma passive_IsPlayerState st : sat passive (IsPlayerState st).
Proof. unfold IsPlayerState, PM. solve_frame. Qed.
Lemma passive_IsPlayerPendingState st : sat passive (IsPlayerPendingState st).
Proof. unfold IsPlayerPendingState, PM. solve_frame. Qed.
Lemma passive_element r : sat passive (element r).
Proof. unfold element, PM. solve_frame. Qed.
Hint Resolve passive_IsPlayerState passive_IsPlayerPendingState passive_element : frames.

Lemma passive_send_media_error c : sat passive (send_media_error c).
Proof. unfold send_media_error, PM. solve_frame. Qed.
Hint Resolve passive_send_media_error : frames.

Lemma passive_CheckQueueSize q : sat passive (CheckQueueSize q).
Proof. unfold CheckQueueSize, AV_CheckQueueSize, grow_queue, queue_full, PM. solve_frame. Qed.
Lemma passive_GetDuration : sat passive GetDuration.
Proof. unfold GetDuration, PM. solve_frame. Qed.
Hint Resolve passive_CheckQueueSize passive_GetDuration : frames.
Lemma passive_GetStreamTime : sat passive GetStreamTime.
Proof. unfold GetStreamTime, PM. solve_frame. Qed.
Hint Resolve passive_GetStreamTime : frames.
Lemma passive_SeekPipeline t : sat passive (SeekPipeline t).
Proof. unfold SeekPipeline, PM. solve_frame. Qed.
Hint Resolve passive_SeekPipeline : frames.

Lemma inert_passive {A} (m : PM A) : sat passive m -> sat inert m.
Proof. apply sat_mono, passive_inert. Qed.
Hint Resolve inert_passive : frames.

Lemma inert_Play : sat inert Play.
Proof. unfold Play, PM. solve_frame. Qed.
Lemma inert_InternalPause : sat inert InternalPause.
Proof. unfold InternalPause, PM. solve_frame. Qed.
Lemma inert_Seek t : sat inert (Seek t).
Proof. unfold Seek, PM. solve_frame. Qed.
Lemma inert_send_or_error (e : ext bool) c :
  (forall r, announced (Obs e r) = None) -> sat inert (send_or_error e c).
Proof.
  intros He. unfold send_or_error, PM. apply sat_bind; [typeclasses eauto| |solve_frame].
  apply sat_call. intros. split; [reflexivity | constructor; [apply He | constructor]].
Qed.
End Inert.
#[export] Hint Resolve passive_IsPlayerState passive_IsPlayerPendingState passive_element
  passive_send_media_error passive_CheckQueueSize passive_GetDuration passive_GetStreamTime
  passive_SeekPipeline inert_Play inert_InternalPause inert_Seek : frames.
#[export] Hint Resolve inert_passive | 10 : frames.
#[export] Hint Extern 1 (sat inert (send_or_error _ _)) =>
  (apply inert_send_or_error; reflexivity) : frames.

(** ** One step of the machine *)

Lemma announcements_app t1 t2 : announcements (t1 ++ t2) = announcements t1 ++ announcements t2.
Proof. apply omap_app. Qed.

Lemma announcements_none t : Forall (fun o => announced o = None) t -> announcements t = [].
Proof. induction 1 as [|o t Ho Ht IH]; [reflexivity|]. cbn. rewrite Ho. exact IH. Qed.

Lemma inert_inv s s' t :
  inert s s' t -> fixed s' = fixed s /\ m_PlayerState s' = m_PlayerState s /\ announcements t = [].
Proof. intros [H1 H2]. split_and!; [congruence | congruence | apply announcements_none, H2]. Qed.

Lemma fixed_dispatcher s s' :
  fixed s' = fixed s -> m_pEventDispatcher s' = m_pEventDispatcher s.
Proof. unfold fixed. congruence. Qed.

(** From [s] to [s'] with trace [t], the player either stays or takes one edge
    for [msg] and announces it unless it is silent. *)
Definition one_step (msg : GstMessage) (s s' : pipeline) (t : list obs) : Prop :=
  fixed s' = fixed s /\
  ((m_PlayerState s' = m_PlayerState s /\ announcements t = []) \/
   (m_PlayerState s' <> m_PlayerState s /\
    transition msg (m_PlayerState s) (m_PlayerState s') /\
    announcements t = if m_pEventDispatcher s && negb (silent (m_PlayerState s) (m_PlayerState s'))
                      then [m_PlayerState s'] else [])).

Lemma inert_one_step msg s s' t : inert s s' t -> one_step msg s s' t.
Proof. intros (H1 & H2 & H3)%inert_inv. split; [assumption|]. left. split; assumption. Qed.

(** Code that does not touch the player may run before or after the step. *)
Lemma inert_step_inert msg s0 s1 s2 s3 t0 t1 t2 :
  inert s0 s1 t0 -> one_step msg s1 s2 t1 -> inert s2 s3 t2 ->
  one_step msg s0 s3 (t0 ++ t1 ++ t2).
Proof.
  intros (F0 & P0 & A0)%inert_inv [F1 H1] (F2 & P2 & A2)%inert_inv. unfold one_step.
  rewrite !announcements_app, A0, A2, app_nil_r. cbn [app].
  rewrite P2, <- P0, <- (fixed_dispatcher _ _ F0). split; [congruence | exact H1].
Qed.

Lemma step_inert msg s1 s2 s3 t1 t2 :
  one_step msg s1 s2 t1 -> inert s2 s3 t2 -> one_step msg s1 s3 (t1 ++ t2).
Proof. intros H1 H2. apply (inert_step_inert msg s1 s1 s2 s3 [] t1 t2 (comp_refl s1) H1 H2). Qed.

Lemma inert_step msg s0 s1 s2 t0 t1 :
  inert s0 s1 t0 -> one_step msg s1 s2 t1 -> one_step msg s0 s2 (t0 ++ t1).
Proof.
  intros H0 H1. rewrite <- (app_nil_r t1).
  apply (inert_step_inert msg s0 s1 s2 s2 t0 t1 [] H0 H1 (comp_refl s2)).
Qed.

(** Sequencing, for [wp]: an inert prefix and an inert suffix of the step. *)
Lemma wp_inert_prefix `{Env} {A B} msg (m : PM A) (k : A -> PM B) s :
  sat inert m -> (forall a s1, m_PlayerState s1 = m_PlayerState s -> fixed s1 = fixed s ->
                               wp (k a) s1 (fun _ s2 t => one_step msg s1 s2 t)) ->
  wp (bind m k) s (fun _ s2 t => one_step msg s s2 t).
Proof.
  intros Hm Hk. apply wp_bind. eapply wp_mono; [apply Hm|]. cbn beta. intros a s1 t0 H0.
  destruct (inert_inv _ _ _ H0) as (F0 & P0 & _).
  eapply wp_mono; [apply Hk; assumption|]. cbn beta. intros. eapply inert_step; eassumption.
Qed.

(** The same, when more is known of the prefix's value. *)
Lemma wp_inert_prefix_known `{Env} {A B} (Q : A -> Prop) msg (m : PM A) (k : A -> PM B) s :
  sat inert m -> wp m s (fun a _ _ => Q a) ->
  (forall a s1, Q a -> m_PlayerState s1 = m_PlayerState s ->
                wp (k a) s1 (fun _ s2 t => one_step msg s1 s2 t)) ->
  wp (bind m k) s (fun _ s2 t => one_step msg s s2 t).
Proof.
  intros Hm HQ Hk. apply wp_bind. eapply wp_mono; [apply wp_conj; [apply Hm | apply HQ]|].
  cbn beta. intros a s1 t0 [H0 Ha]. destruct (inert_inv _ _ _ H0) as (_ & P0 & _).
  eapply wp_mono; [apply Hk; assumption|].
  cbn beta. intros. eapply inert_step; eassumption.
Qed.

Lemma wp_inert_suffix `{Env} {A B} msg (m : PM A) (k : A -> PM B) s :
  wp m s (fun _ s1 t => one_step msg s s1 t) -> (forall a, sat inert (k a)) ->
  wp (bind m k) s (fun _ s2 t => one_step msg s s2 t).
Proof.
  intros Hm Hk. apply wp_bind. eapply wp_mono; [apply Hm|]. cbn beta. intros a s1 t0 H0.
  eapply wp_mono; [apply Hk|]. cbn beta. intros. eapply step_inert; eassumption.
Qed.

Lemma wp_inert `{Env} {A} msg (m : PM A) s :
  sat inert m -> wp m s (fun _ s1 t => one_step msg s s1 t).
Proof. intros Hm. eapply wp_mono; [apply Hm|]. cbn beta. intros. apply inert_one_step. assumption. Qed.

(** ** The engine refines the machine *)

Section Refinement.
Context `{EV : Env}.

(** [SetPlayerState] moves the player and announces the move unless it is
    silent or there is nobody to tell. *)
Lemma SetPlayerState_spec (n : PlayerState) (quiet : bool) s :
  wp (SetPlayerState n quiet) s (fun _ s' t =>
    fixed s' = fixed s /\ m_PlayerState s' = n /\
    announcements t = if (n != m_PlayerState s) && m_pEventDispatcher s && negb quiet
                      then [n] else []).
Proof.
  unfold SetPlayerState. do 2 (wp_step; wp_step). wp_step.
  set (upd := n != m_PlayerState s).
  eapply wp_mono with (P := fun _ s' t => fixed s' = fixed s /\ m_PlayerState s' = n /\
    announcements t = if upd && m_pEventDispatcher s && negb quiet then [n] else []).
  - subst upd. wp_step; bools; [|wp_step; subst; rewrite ?bool_decide_eq_true_2 by done; done].
    wp_step. wp_step. destruct (m_pEventDispatcher s) eqn:Hd; destruct quiet; cbn.
    all: try (wp_step; done).
    wp_step. wp_step. eapply wp_bind, wp_call. intros ok.
    eapply wp_mono with (P := fun _ s' t => s' = s <| m_PlayerState := n |> /\ announcements t = []).
    + unfold send_media_error. wp_steps; done.
    + cbn beta. intros [] s' t [-> Ht]. rewrite !announcements_app, Ht. done.
  - cbn beta. intros [] s1 t1 (F1 & P1 & A1).
    eapply wp_mono with (P := fun _ s2 t2 => inert s1 s2 t2).
    + apply (sat_wp inert). unfold PM. solve_frame.
    + cbn beta. intros _ s2 t2 (F2 & P2 & A2)%inert_inv.
      rewrite !announcements_app, A1, A2, !app_nil_r.
      split_and!; [congruence | congruence | reflexivity].
Qed.

(** [SetPlayerState] is one step along an edge, announced as the edge says. *)
Lemma SetPlayerState_step msg n quiet s :
  (n <> m_PlayerState s -> transition msg (m_PlayerState s) n /\ quiet = silent (m_PlayerState s) n) ->
  wp (SetPlayerState n quiet) s (fun _ s' t => one_step msg s s' t).
Proof.
  intros Hn. eapply wp_mono; [apply SetPlayerState_spec|]. cbn beta. intros _ s' t (F & P & A).
  split; [exact F|]. rewrite P, A. destruct (decide (n = m_PlayerState s)) as [->|Hne].
  - left. rewrite bool_decide_eq_true_2 by done. done.
  - right. destruct (Hn Hne) as [Ht ->]. rewrite (bool_decide_eq_false_2 _ Hne). done.
Qed.

Lemma next_player_state_spec src new old s :
  wp (next_player_state new old) s (fun r s' t =>
    t = [] /\ fixed s' = fixed s /\ m_PlayerState s' = m_PlayerState s /\
    (fst r <> m_PlayerState s ->
     transition (GST_MESSAGE_STATE_CHANGED src old new GST_STATE_VOID_PENDING)
       (m_PlayerState s) (fst r) /\ snd r = silent (m_PlayerState s) (fst r))).
Proof.
  unfold next_player_state. do 4 wp_step.
  destruct (m_PlayerState s) eqn:Hp; unfold pause_reached; wp_steps; bools; subst;
    (split_and!; [reflexivity | reflexivity | try exact Hp; reflexivity | cbn [fst snd]; intros Hne]);
    try (contradiction Hne; reflexivity);
    try (destruct_or?; destruct_and?; bools; subst);
    (split; [ econstructor; set_solver | reflexivity ]).
Qed.

Lemma UpdatePlayerState_step src new old s :
  wp (UpdatePlayerState new old) s (fun _ s' t =>
    one_step (GST_MESSAGE_STATE_CHANGED src old new GST_STATE_VOID_PENDING) s s' t).
Proof.
  unfold UpdatePlayerState. apply wp_inert_prefix; [unfold PM; solve_frame|].
  intros _ s1 _ _. apply wp_bind. eapply wp_mono; [apply next_player_state_spec with (src := src)|].
  cbn beta. intros [n quiet] s2 t (-> & F & P & Hedge). cbn [app fst snd] in *. rewrite <- P in Hedge.
  eapply wp_mono; [apply wp_inert_suffix; [apply SetPlayerState_step, Hedge | unfold PM; solve_frame]|].
  cbn beta. intros _ s3 t3 [F3 H3]. split; [congruence|].
  rewrite <- P, <- (fixed_dispatcher _ _ F). exact H3.
Qed.

(** The state tests of a handler neither move nor announce. *)
Lemma inert_andM m k : sat inert m -> sat inert k -> sat inert (andM m k).
Proof. intros. unfold andM, PM. solve_frame; assumption. Qed.
Lemma inert_orM m k : sat inert m -> sat inert k -> sat inert (orM m k).
Proof. intros. unfold orM, PM. solve_frame; assumption. Qed.
Lemma inert_notM m : sat inert m -> sat inert (notM m).
Proof. intros. unfold notM, PM. solve_frame; assumption. Qed.
Lemma inert_ret {A} (a : A) : sat inert (ret a : PM A).
Proof. unfold PM. solve_frame. Qed.
Lemma inert_if {A} (b : bool) (m k : PM A) : sat inert m -> sat inert k -> sat inert (if b then m else k).
Proof. destruct b; auto. Qed.
Lemma inert_test {A} (f : pipeline -> A) (k : A -> PM bool) :
  (forall a, sat inert (k a)) -> sat inert (bind (gets f) k).
Proof. intros. unfold PM in *. solve_frame; auto. Qed.
Hint Resolve inert_andM inert_orM inert_notM inert_ret inert_if inert_test : frames.

Lemma inert_BufferUnderrun : sat inert BufferUnderrun.
Proof. unfold BufferUnderrun, PM. solve_frame. Qed.
Lemma inert_UpdateBufferPosition : sat inert UpdateBufferPosition.
Proof. unfold UpdateBufferPosition, PM. solve_frame. Qed.
Lemma inert_HLSBufferStall : sat inert HLSBufferStall.
Proof. unfold HLSBufferStall, PM. solve_frame. Qed.
Lemma inert_HLSBufferResume b : sat inert (HLSBufferResume b).
Proof. unfold HLSBufferResume, PM. solve_frame. Qed.
Hint Resolve inert_BufferUnderrun inert_UpdateBufferPosition inert_HLSBufferStall
  inert_HLSBufferResume : frames.
Lemma inert_on_application str : sat inert (on_application str).
Proof. unfold on_application, PM. solve_frame. Qed.
Lemma inert_on_element str : sat inert (on_element str).
Proof. unfold on_element, PM. solve_frame. Qed.
Lemma inert_update_clock a b c d : sat inert (update_clock a b c d).
Proof. unfold update_clock, sink_ready, PM. solve_frame. Qed.
Lemma inert_relevant_change a b c : sat inert (relevant_change a b c).
Proof. unfold relevant_change, PM. solve_frame. Qed.
Hint Resolve inert_on_application inert_on_element inert_update_clock inert_relevant_change : frames.

(** Only settled changes are relevant. *)
Lemma relevant_change_settled old new pending s :
  wp (relevant_change old new pending) s (fun b _ _ => b = true -> pending = GST_STATE_VOID_PENDING).
Proof.
  unfold relevant_change, orM, andM, notM, IsPlayerState, IsPlayerPendingState.
  destruct (pending == GST_STATE_VOID_PENDING) eqn:Hs; bools.
  - intros w _. exact Hs.
  - cbn [andb]. rewrite ?andb_false_r. wp_steps; try discriminate; intros ?; bools; discriminate.
Qed.

Lemma on_state_changed_step src old new pending s :
  wp (on_state_changed src old new pending) s (fun _ s' t =>
    one_step (GST_MESSAGE_STATE_CHANGED src old new pending) s s' t).
Proof.
  unfold on_state_changed. apply wp_inert_prefix; [auto with frames|]. intros _ s1 _ _.
  apply wp_inert_prefix; [auto with frames|]. intros pipe s2 _ _.
  apply wp_inert_prefix_known with (Q := fun b => b = true -> pending = GST_STATE_VOID_PENDING).
  - unfold PM. solve_frame.
  - destruct (src == pipe); [apply relevant_change_settled | apply wp_ret; discriminate].
  - intros [] s3 Hb _; [rewrite Hb by reflexivity | apply wp_inert; unfold PM; solve_frame].
    do 2 (apply wp_inert_prefix; [unfold PM; solve_frame | intros ? ? _ _]).
    apply UpdatePlayerState_step.
Qed.

Lemma IsPlayerState_value st s :
  wp (IsPlayerState st) s (fun b _ _ => b = (m_PlayerState s == st)).
Proof. unfold IsPlayerState. wp_steps. reflexivity. Qed.

Lemma on_eos_step s : wp on_eos s (fun _ s' t => one_step GST_MESSAGE_EOS s s' t).
Proof.
  unfold on_eos.
  apply wp_inert_prefix_known with (Q := fun b => b = (m_PlayerState s == Finished));
    [auto with frames | apply IsPlayerState_value |].
  intros b s1 -> P. rewrite <- P. unfold when.
  case_match; bools; [|apply wp_inert; unfold PM; solve_frame].
  apply wp_inert_suffix; [|unfold PM; solve_frame].
  apply SetPlayerState_step. intros Hne. split; [constructor; congruence|].
  destruct (m_PlayerState s1); reflexivity.
Qed.

Lemma on_fatal_error_step e d ts s :
  wp (on_fatal_error e ts) s (fun _ s' t => one_step (GST_MESSAGE_ERROR e d ts) s s' t).
Proof.
  unfold on_fatal_error. do 4 (apply wp_inert_prefix; [unfold PM; solve_frame | intros ? ? _ _]).
  apply wp_inert_suffix; [|unfold PM; solve_frame].
  apply SetPlayerState_step. intros _. split; [constructor|]. reflexivity.
Qed.

Lemma on_error_step e d ts s :
  wp (on_error e d ts) s (fun _ s' t => one_step (GST_MESSAGE_ERROR e d ts) s s' t).
Proof.
  unfold on_error. do 5 (apply wp_inert_prefix; [unfold PM; solve_frame | intros ? ? _ _]).
  destruct e as [e|]; [|apply on_fatal_error_step].
  do 4 (split_if; [apply wp_inert; unfold PM; solve_frame|]).
  apply wp_inert_prefix; [unfold PM; solve_frame | intros ? ? _ _]. apply on_fatal_error_step.
Qed.

Lemma dispatch_step msg s : wp (dispatch msg) s (fun _ s' t => one_step msg s s' t).
Proof.
  destruct msg; cbn [dispatch];
    first [ apply on_eos_step | apply on_error_step | apply on_state_changed_step
          | apply wp_inert; unfold on_duration_changed, on_notice, PM; solve_frame ].
Qed.

(** C1: the engine refines the player's state machine.  Whatever GStreamer
    and the Java side answer, handling a bus message leaves the player state
    where it was, silently, or moves it along exactly one edge of
    [transition] for that message and announces the new state to Java once,
    unless the edge is silent or no dispatcher is set. *)
Theorem BusCallback_refines_machine (msg : GstMessage) (s : pipeline) (w : world) :
  one_step msg s (ostate (BusCallback msg s w)) (otrace (BusCallback msg s w)).
Proof.
  revert w. change (wp (BusCallback msg) s (fun _ s' t => one_step msg s s' t)).
  unfold BusCallback. do 2 (apply wp_inert_prefix; [unfold PM; solve_frame | intros ? ? _ _]).
  do 2 (case_match; [apply wp_inert; unfold PM; solve_frame|]).
  apply wp_inert_suffix; [apply dispatch_step | unfold PM; solve_frame].
Qed.
End Refinement.
