(* ===== verification/Playback.v ===== *)
(** * Transport: what the operations do

    Functional theorems about the player's operations and the messages that
    complete them: what is asked of GStreamer, what the player remembers of the
    request, where the player ends up, and what it tells the Java side. *)

From S2P Require Import Prelude CFloat MediaTypes GstApi Effects PipelineState AudioPipeline Bus Tracks AppSink Build LockOrder StateMachine.

Local Open Scope Z_scope.

Lemma state_requests_app t1 t2 : state_requests (t1 ++ t2) = state_requests t1 ++ state_requests t2.
Proof. apply omap_app. Qed.

Lemma state_requests_none t : Forall (fun o => state_request o = None) t -> state_requests t = [].
Proof. induction 1 as [|o t Ho Ht IH]; [reflexivity|]. cbn. rewrite Ho. exact IH. Qed.

Lemma passive_inv s s' t :
  passive s s' t ->
  fixed s' = fixed s /\ m_PlayerState s' = m_PlayerState s /\ m_PlayerPendingState s' = m_PlayerPendingState s /\
  announcements t = [] /\ state_requests t = [].
Proof.
  intros [H1 H2]. split_and!; [congruence..| |].
  - apply announcements_none. eapply Forall_impl; [exact H2|]. intros o [? ?]. assumption.
  - apply state_requests_none. eapply Forall_impl; [exact H2|]. intros o [? ?]. assumption.
Qed.

(** Whether a trace has a refused state change. *)
Definition some_refused (t : list obs) : bool := existsb refused t.

Lemma some_refused_app t1 t2 : some_refused (t1 ++ t2) = some_refused t1 || some_refused t2.
Proof. apply existsb_app. Qed.

(** Calls that change no state cannot be refused. *)
Lemma refused_request o : state_request o = None -> refused o = false.
Proof. destruct o as [R c r]. destruct c; try reflexivity. discriminate. Qed.
Lemma some_refused_none t : Forall (fun o => state_request o = None) t -> some_refused t = false.
Proof.
  induction 1 as [|o t Ho Ht IH]; [reflexivity|]. cbn. rewrite (refused_request o Ho). exact IH.
Qed.

Lemma passive_refused s s' t : passive s s' t -> some_refused t = false.
Proof. intros [_ H]. apply some_refused_none. eapply Forall_impl; [exact H|]. intros o [? ?]. assumption. Qed.

Section Transport.
Context `{EV : Env}.

(** ** Pausing *)

(** [InternalPause] asks for [PAUSED] once, if the player is not in [Error]
    and there is something to pause. *)
Lemma InternalPause_spec s :
  (f_zero ==. m_fRate s) = false -> m_PlayerState s <> Error ->
  m_PlayerState s <> Finished \/ m_bSeekInvoked s = true \/ m_PlayerPendingState s = Stopped ->
  wp InternalPause s (fun r s' t =>
    state_requests t = [(elem s PIPELINE, GST_STATE_PAUSED)] /\ announcements t = [] /\
    m_PlayerState s' = m_PlayerState s /\ m_PlayerPendingState s' = m_PlayerPendingState s /\
    fixed s' = fixed s /\
    r = if some_refused t then ERROR_GSTREAMER_PIPELINE_STATE_CHANGE else ERROR_NONE).
Proof.
  intros Hrate Herr Hready.
  assert (Hr : ((m_PlayerState s != Finished) || m_bSeekInvoked s || (m_PlayerPendingState s == Stopped))
               && (m_PlayerState s != Error) = true).
  { rewrite (bool_decide_eq_false_2 (m_PlayerState s = Error)) by exact Herr. cbn [negb]. rewrite andb_true_r.
    destruct Hready as [H|[H|H]]; rewrite ?H, ?bool_decide_eq_true_2, ?bool_decide_eq_false_2 by auto;
      cbn [negb orb]; rewrite ?orb_true_r; reflexivity. }
  unfold InternalPause, element. wp_steps; try congruence.
  - apply bool_decide_eq_true in Heqb1. rewrite Heqb1. split_and!; reflexivity.
  - eapply wp_mono; [apply passive_CheckQueueSize|]. cbn beta. intros [] s1 t1 Ht. wp_step.
    rewrite !state_requests_app, !announcements_app, !some_refused_app, (passive_refused _ _ _ Ht).
    destruct (passive_inv _ _ _ Ht) as (F & P & Q & A & R). rewrite A, R. cbn. rewrite Heqb1.
    split_and!; (assumption || reflexivity).
Qed.

Lemma IsPlayerState_passive st s :
  wp (IsPlayerState st) s (fun b s' t => b = (m_PlayerState s == st) /\ s' = s /\ passive s s' t).
Proof. unfold IsPlayerState. wp_steps. split_and!; [reflexivity | reflexivity | frame_side]. Qed.

(** [m_PlayerPendingState = st] under the lock. *)
Lemma set_pending_spec st s :
  wp (set_pending st) s (fun _ s' t => s' = s <| m_PlayerPendingState := st |> /\
    announcements t = [] /\ state_requests t = [] /\ some_refused t = false).
Proof. unfold set_pending. wp_steps. split_and!; reflexivity. Qed.

(** A request of the player that pauses: [Stop] and [Pause] record what it is
    for, ask for [PAUSED] once, and forget it if GStreamer refuses. *)
Definition pause_request (goal : PlayerState) (s s' : pipeline) (t : list obs) (r : ErrCode) : Prop :=
  state_requests t = [(elem s PIPELINE, GST_STATE_PAUSED)] /\ announcements t = [] /\
  m_PlayerState s' = m_PlayerState s /\ fixed s' = fixed s /\
  if some_refused t
  then r = ERROR_GSTREAMER_PIPELINE_STATE_CHANGE /\ m_PlayerPendingState s' = Unknown
  else r = ERROR_NONE /\ m_PlayerPendingState s' = goal.

Lemma pause_with_pending goal s s1 :
  (f_zero ==. m_fRate s) = false -> m_PlayerState s <> Error ->
  m_PlayerState s <> Finished \/ m_bSeekInvoked s = true \/ goal = Stopped ->
  s1 = s <| m_PlayerPendingState := goal |> ->
  wp (let* r := InternalPause in when (r != ERROR_NONE) (set_pending Unknown) ;; ret r) s1
    (fun r s' t => pause_request goal s s' t r).
Proof.
  intros Hrate Herr Hready ->. apply wp_bind.
  eapply wp_mono; [apply InternalPause_spec; [exact Hrate | exact Herr | exact Hready]|].
  cbn beta. intros r s' t (R & A & P & Q & F & ->).
  destruct (some_refused t) eqn:E; cbn [negb]; wp_step.
  - wp_step; [|discriminate]. eapply wp_mono; [apply set_pending_spec|]. cbn beta.
    intros _ s2 t2 (-> & A2 & R2 & E2). wp_step. unfold pause_request.
    rewrite !state_requests_app, !announcements_app, !some_refused_app, A, A2, R, R2, E. cbn [app orb].
    split_and!; (assumption || reflexivity).
  - wp_step; [discriminate|]. do 2 wp_step. unfold pause_request.
    rewrite !state_requests_app, !announcements_app, !some_refused_app, A, R, E. cbn [app orb some_refused existsb].
    split_and!; (assumption || reflexivity).
Qed.

(** The two ways the code writes "undo on failure". *)
Lemma wp_undo (m : PM ErrCode) (undo : PM unit) s Q :
  wp (let* r := m in when (r != ERROR_NONE) undo ;; ret r) s Q ->
  wp (let* r := m in if r != ERROR_NONE then undo ;; ret r else ret ERROR_NONE) s Q.
Proof.
  intros H w. specialize (H w). unfold bind, when, ret in *. cbn in *.
  destruct (bool_decide (oval (m s w) = ERROR_NONE)) eqn:E; cbn in *; [|exact H].
  apply bool_decide_eq_true in E. rewrite E in H. exact H.
Qed.

Lemma pause_request_prefix goal s s' t t0 r :
  state_requests t0 = [] -> announcements t0 = [] -> some_refused t0 = false ->
  pause_request goal s s' t r -> pause_request goal s s' (t0 ++ t) r.
Proof.
  intros H1 H2 H3. unfold pause_request.
  rewrite state_requests_app, announcements_app, some_refused_app, H1, H2, H3. exact (fun H => H).
Qed.

(** Two state tests in front of a body. *)
Lemma wp_skip_tests {A} a b (x : A) (body : PM A) s Q :
  m_PlayerState s <> a -> m_PlayerState s <> b ->
  wp body s (fun r s' t => forall t0, state_requests t0 = [] -> announcements t0 = [] ->
                                      some_refused t0 = false -> Q r s' (t0 ++ t)) ->
  wp (let* p := IsPlayerState a in let* q := if p then ret true else IsPlayerState b in
      if q then ret x else body) s Q.
Proof.
  intros Ha Hb Hbody. apply wp_bind. eapply wp_mono; [apply IsPlayerState_passive|]. cbn beta.
  intros p s1 t1 (-> & -> & P1). rewrite bool_decide_eq_false_2 by exact Ha.
  apply wp_bind. eapply wp_mono; [apply IsPlayerState_passive|]. cbn beta.
  intros q s2 t2 (-> & -> & P2). rewrite bool_decide_eq_false_2 by exact Hb.
  eapply wp_mono; [exact Hbody|]. cbn beta. intros r s' t H. rewrite app_assoc.
  destruct (passive_inv _ _ _ P1) as (_ & _ & _ & A1 & R1).
  destruct (passive_inv _ _ _ P2) as (_ & _ & _ & A2 & R2).
  apply H; rewrite ?state_requests_app, ?announcements_app, ?some_refused_app, ?A1, ?A2, ?R1, ?R2,
    ?(passive_refused _ _ _ P1), ?(passive_refused _ _ _ P2); reflexivity.
Qed.

Lemma Stop_spec s :
  m_PlayerState s <> Stopped -> m_PlayerState s <> Error -> (f_zero ==. m_fRate s) = false ->
  wp Stop s (fun r s' t => pause_request Stopped s s' t r).
Proof.
  intros H1 H2 Hrate. unfold Stop. apply wp_skip_tests; [exact H1 | exact H2 |]. do 2 wp_step. rewrite Hrate.
  apply wp_bind. eapply wp_mono; [apply set_pending_spec|]. cbn beta. intros _ s1 t1 (-> & A1 & R1 & E1).
  apply wp_undo. eapply wp_mono; [eapply pause_with_pending; [exact Hrate | exact H2 | right; right; reflexivity | reflexivity]|]. cbn beta. intros r s' t Hp t0 R0 A0 E0.
  apply pause_request_prefix; [assumption..|]. rewrite app_nil_l. apply pause_request_prefix; assumption.
Qed.

Lemma Pause_spec s :
  m_PlayerState s ∈ [Unknown; Ready; Playing] -> (f_zero ==. m_fRate s) = false ->
  wp Pause s (fun r s' t => pause_request Paused s s' t r).
Proof.
  intros Hs Hrate. unfold Pause.
  assert (Hn : m_PlayerState s <> Paused /\ m_PlayerState s <> Error /\ m_PlayerState s <> Finished /\
               m_PlayerState s <> Stopped /\ m_PlayerState s <> Stalled)
    by (revert Hs; destruct (m_PlayerState s); intros Hs; split_and!; try discriminate;
        exfalso; revert Hs; apply (bool_decide_unpack _); exact I).
  destruct Hn as (H1 & H2 & H3 & H4 & H5).
  apply wp_skip_tests; [exact H1 | exact H2 |]. do 4 wp_step.
  rewrite (bool_decide_eq_false_2 _ H4), (bool_decide_eq_false_2 _ H5). cbn [orb].
  do 4 wp_step. eapply wp_mono; [eapply pause_with_pending; [exact Hrate | exact H2 | left; exact H3 | reflexivity]|]. cbn beta. intros r' s' t Hp t0 R0 A0 E0.
  do 2 (apply pause_request_prefix; [first [assumption | reflexivity]..|]). rewrite app_nil_l.
  do 2 (apply pause_request_prefix; [reflexivity..|]). exact Hp.
Qed.

(** ** The message that completes a request *)

(** The player and its pending request are kept, nothing is announced. *)
Definition steady : pipeline -> pipeline -> list obs -> Prop :=
  keeping (fun p => (fixed p, m_PlayerState p, m_PlayerPendingState p, m_StallOnPause p))
    (fun o => announced o = None).
#[local] Instance steady_composable : Composable steady.
Proof. apply keeping_composable. Qed.

Lemma steady_inv s s' t :
  steady s s' t -> fixed s' = fixed s /\ m_PlayerState s' = m_PlayerState s /\
  m_PlayerPendingState s' = m_PlayerPendingState s /\ m_StallOnPause s' = m_StallOnPause s /\ announcements t = [].
Proof. intros [H1 H2]. split_and!; try congruence. apply announcements_none, H2. Qed.

Lemma steady_IsPlayerState st : sat steady (IsPlayerState st).
Proof. unfold IsPlayerState, PM. solve_frame. Qed.
Lemma steady_IsPlayerPendingState st : sat steady (IsPlayerPendingState st).
Proof. unfold IsPlayerPendingState, PM. solve_frame. Qed.
Lemma steady_element r : sat steady (element r).
Proof. unfold element, PM. solve_frame. Qed.
Lemma steady_GetDuration : sat steady GetDuration.
Proof. unfold GetDuration, IsPlayerState, element, PM. solve_frame. Qed.
Hint Resolve steady_IsPlayerState steady_IsPlayerPendingState steady_element steady_GetDuration : frames.
Lemma steady_GetStreamTime : sat steady GetStreamTime.
Proof. unfold GetStreamTime, PM. solve_frame. Qed.
Lemma steady_Play : sat steady Play.
Proof. unfold Play, PM. solve_frame. Qed.
Hint Resolve steady_GetStreamTime steady_Play : frames.
Lemma steady_UpdateBufferPosition : sat steady UpdateBufferPosition.
Proof. unfold UpdateBufferPosition, send_or_error, send_media_error, andM, notM, PM. solve_frame. Qed.
Lemma steady_update_clock a b c d : sat steady (update_clock a b c d).
Proof. unfold update_clock, sink_ready, PM. solve_frame. Qed.
Lemma steady_relevant_change a b c : sat steady (relevant_change a b c).
Proof. unfold relevant_change, andM, orM, notM, PM. solve_frame. Qed.
Hint Resolve steady_UpdateBufferPosition steady_update_clock steady_relevant_change : frames.

(** Where a player that was playing ends up when GStreamer reports the pause:
    a stop request wins over a stall, a stall over nothing, and a pause
    request over a stall; without any of them the media has ended. *)
Definition halted (s : pipeline) : PlayerState :=
  if m_PlayerPendingState s == Stopped then Stopped
  else if m_StallOnPause s && (m_PlayerPendingState s != Paused) then Stalled
  else if m_PlayerPendingState s == Paused then Paused
  else Finished.

Lemma next_player_state_halted s :
  m_PlayerState s = Playing ->
  wp (next_player_state GST_STATE_PAUSED GST_STATE_PLAYING) s (fun r s' t =>
    r = (halted s, false) /\ t = [] /\ fixed s' = fixed s /\ m_PlayerState s' = Playing /\
    m_PlayerPendingState s' = (if halted s == Stalled then m_PlayerPendingState s
                               else if halted s == Finished then m_PlayerPendingState s else Unknown)).
Proof.
  intros Hs. unfold next_player_state, pause_reached, halted. do 2 (do 2 wp_step). rewrite Hs.
  rewrite (bool_decide_eq_true_2 (GST_STATE_PLAYING = GST_STATE_PLAYING)),
    (bool_decide_eq_true_2 (GST_STATE_PAUSED = GST_STATE_PAUSED)) by reflexivity.
  wp_steps; bools; split_and!; (assumption || reflexivity).
Qed.

Lemma UpdatePlayerState_halted s :
  m_PlayerState s = Playing ->
  wp (UpdatePlayerState GST_STATE_PAUSED GST_STATE_PLAYING) s (fun _ s' t =>
    m_PlayerState s' = halted s /\ fixed s' = fixed s /\
    announcements t = if m_pEventDispatcher s then [halted s] else []).
Proof.
  intros Hs. unfold UpdatePlayerState. do 2 wp_step. apply wp_bind.
  eapply wp_mono; [apply next_player_state_halted, Hs|]. cbn beta. intros rr s1 t1 (-> & -> & F1 & P1 & Q1).
  apply wp_bind. eapply wp_mono; [apply SetPlayerState_spec|]. cbn beta. intros _ s2 t2 (F2 & P2 & A2).
  apply wp_call. intros []. rewrite !announcements_app, A2, P1, (fixed_dispatcher _ _ F1).
  assert (Hh : (halted s != Playing) = true).
  { apply negb_true_iff, bool_decide_eq_false. unfold halted. repeat case_match; discriminate. }
  rewrite Hh. cbn [andb negb]. rewrite andb_true_r. cbn [announcements omap list_omap app].
  split_and!; [exact P2 | congruence |]. destruct (m_pEventDispatcher s); reflexivity.
Qed.

Lemma relevant_change_halted s :
  m_PlayerState s = Playing ->
  wp (relevant_change GST_STATE_PLAYING GST_STATE_PAUSED GST_STATE_VOID_PENDING) s (fun b _ _ => b = true).
Proof.
  intros Hs. unfold relevant_change, orM, andM, notM, IsPlayerState.
  rewrite (bool_decide_eq_true_2 (GST_STATE_VOID_PENDING = GST_STATE_VOID_PENDING)) by reflexivity.
  rewrite (bool_decide_eq_false_2 (GST_STATE_PAUSED = GST_STATE_PLAYING)) by discriminate. cbn [negb andb].
  wp_steps; bools; congruence || reflexivity.
Qed.

(** What the message leaves, for a state the player was in when it came. *)
Definition halts_as (s0 : pipeline) (s' : pipeline) (t : list obs) : Prop :=
  m_PlayerState s' = halted s0 /\ fixed s' = fixed s0 /\
  announcements t = if m_pEventDispatcher s0 then [halted s0] else [].

Lemma steady_halted s s1 t1 : steady s s1 t1 -> halted s1 = halted s.
Proof. intros (_ & _ & Q & R & _)%steady_inv. unfold halted. rewrite Q, R. reflexivity. Qed.

(** Steady code may run before and after. *)
Lemma halts_prefix {A B} (m : PM A) (k : A -> PM B) s :
  sat steady m ->
  (forall a s1, m_PlayerState s1 = m_PlayerState s -> fixed s1 = fixed s -> wp (k a) s1 (fun _ => halts_as s1)) ->
  wp (bind m k) s (fun _ => halts_as s).
Proof.
  intros Hm Hk. apply wp_bind. eapply wp_mono; [apply Hm|]. cbn beta. intros a s1 t1 H1.
  destruct (steady_inv _ _ _ H1) as (F & P & _ & _ & A1).
  eapply wp_mono; [apply Hk; assumption|]. cbn beta. intros _ s2 t2 (P2 & F2 & A2).
  unfold halts_as. rewrite announcements_app, A1, P2, A2, (steady_halted _ _ _ H1), (fixed_dispatcher _ _ F).
  split_and!; [reflexivity | congruence | reflexivity].
Qed.
Lemma halts_suffix {A B} (m : PM A) (k : A -> PM B) s :
  wp m s (fun _ => halts_as s) -> (forall a, sat steady (k a)) -> wp (bind m k) s (fun _ => halts_as s).
Proof.
  intros Hm Hk. apply wp_bind. eapply wp_mono; [apply Hm|]. cbn beta. intros a s1 t1 (P1 & F1 & A1).
  eapply wp_mono; [apply Hk|]. cbn beta. intros b s2 t2 (F2 & P2 & _ & _ & A2)%steady_inv.
  unfold halts_as. rewrite announcements_app, A1, A2, app_nil_r. split_and!; [congruence | congruence | reflexivity].
Qed.

Lemma on_state_changed_halts s :
  m_PlayerState s = Playing ->
  wp (on_state_changed (elem s PIPELINE) GST_STATE_PLAYING GST_STATE_PAUSED GST_STATE_VOID_PENDING) s
    (fun _ => halts_as s).
Proof.
  intros Hs. unfold on_state_changed. apply halts_prefix; [auto with frames|]. intros _ s1 P1 F1.
  assert (E1 : elem s PIPELINE = elem s1 PIPELINE) by (unfold elem; unfold fixed in F1; congruence).
  rewrite E1. unfold element. apply wp_bind, wp_gets. rewrite bool_decide_eq_true_2 by reflexivity. apply wp_bind.
  eapply wp_mono; [apply wp_conj; [apply steady_relevant_change | apply relevant_change_halted; congruence]|].
  cbn beta. intros b s2 t2 [H2 ->].
  destruct (steady_inv _ _ _ H2) as (F2 & P2 & _ & _ & A2).
  eapply wp_mono with (P := fun _ => halts_as s2).
  - apply halts_prefix; [unfold PM; solve_frame|]. intros eos s3 P3 _.
    apply halts_prefix; [unfold PM; solve_frame|]. intros _ s4 P4 _. apply UpdatePlayerState_halted. congruence.
  - intros _ s3 t3 (P3 & F3 & A3). unfold halts_as.
    rewrite !announcements_app, A2, A3, P3, (steady_halted _ _ _ H2), (fixed_dispatcher _ _ F2).
    split_and!; [reflexivity | congruence | reflexivity].
Qed.

Lemma BusCallback_halts s :
  m_PlayerState s = Playing -> m_bIsDisposed (content s) = false -> m_bIsDisposeInProgress (content s) = false ->
  wp (BusCallback (GST_MESSAGE_STATE_CHANGED (elem s PIPELINE) GST_STATE_PLAYING GST_STATE_PAUSED
        GST_STATE_VOID_PENDING)) s (fun _ => halts_as s).
Proof.
  intros Hs Hd Hp. unfold BusCallback. apply wp_bind, wp_call. intros []. apply wp_bind, wp_gets. rewrite Hd, Hp.
  cbn [app]. eapply wp_mono with (P := fun _ => halts_as s); [|cbn; exact (fun _ _ _ H => H)].
  apply halts_suffix; [apply on_state_changed_halts, Hs | unfold PM; solve_frame].
Qed.
End Transport.

(** A pipeline that plays, for concrete runs: one element per role. *)
Definition all_elements : gmap ElementRole ptr :=
  foldr (fun r m => container_add r (Some (role_code r + 10)%nat) m) ∅ all_roles.
Definition player (k : PipelineClass) (st : PlayerState) : pipeline :=
  (new_CGstAudioPlaybackPipeline false 0 all_elements 0 (new_CPipelineOptions kSingleSourcePipeline))
    <| klass := k |> <| m_PlayerState := st |> <| m_pEventDispatcher := true |>
    <| m_bHasAudio := true |> <| m_bHasVideo := true |>
    <| m_pBusCallbackContent := Some (mkBusCallbackContent false false false false) |>.

Definition paused_message (s : pipeline) : GstMessage :=
  GST_MESSAGE_STATE_CHANGED (elem s PIPELINE) GST_STATE_PLAYING GST_STATE_PAUSED GST_STATE_VOID_PENDING.

Lemma fixed_message s s' : fixed s' = fixed s -> paused_message s' = paused_message s.
Proof. unfold paused_message, elem, fixed. intros H. injection H as _ _ _ -> _. reflexivity. Qed.
Lemma fixed_content s s' : fixed s' = fixed s -> content s' = content s.
Proof. unfold content, fixed. intros H. injection H as _ _ _ _ ->. reflexivity. Qed.

(** Nothing is asked of a player that is stopped or failed; with a rate of zero
    only the wish to resume is forgotten. *)
Definition stop_asks (s : pipeline) : bool :=
  negb (m_PlayerState s == Stopped) && negb (m_PlayerState s == Error) && negb (f_zero ==. m_fRate s).
Lemma Stop_idle `{Env} s : stop_asks s = false ->
  wp Stop s (fun r s' t => r = ERROR_NONE /\ state_requests t = [] /\ announcements t = [] /\
    m_PlayerState s' = m_PlayerState s /\ m_PlayerPendingState s' = m_PlayerPendingState s).
Proof.
  intros Hasks. unfold Stop. apply wp_bind. eapply wp_mono; [apply IsPlayerState_passive|]. cbn beta.
  intros p s1 t1 (-> & -> & P1). destruct (passive_inv _ _ _ P1) as (_ & _ & _ & A1 & R1). apply wp_bind.
  eapply wp_mono with (P := fun q s' t => s' = s /\ state_requests t = [] /\ announcements t = [] /\
    q = (m_PlayerState s == Stopped) || (m_PlayerState s == Error)).
  - destruct (m_PlayerState s == Stopped).
    + wp_step. auto.
    + eapply wp_mono; [apply IsPlayerState_passive|]. cbn beta. intros q s2 t2 (-> & -> & P2).
      destruct (passive_inv _ _ _ P2) as (_ & _ & _ & A2 & R2). auto.
  - cbn beta. intros q s2 t2 (-> & R2 & A2 & ->). revert Hasks. unfold stop_asks.
    destruct (m_PlayerState s == Stopped), (m_PlayerState s == Error); cbn [orb negb andb]; intros Hasks.
    4: apply negb_false_iff in Hasks; do 2 wp_step; rewrite Hasks; do 2 wp_step.
    all: wp_step; rewrite !state_requests_app, !announcements_app, R1, R2, A1, A2; split_and!; reflexivity.
Qed.

(** C35: stopping a player, in every state.  [Stop] announces nothing and leaves
    the player state.  In the states [Stopped] and [Error], and with a rate of
    zero, it asks GStreamer for nothing and succeeds.  Otherwise it asks for the
    paused state exactly once.  If GStreamer refuses, it returns the state change
    error and the request is forgotten; if not, it succeeds and the request is
    pending, and when the bus of a player that was playing, and is not being
    disposed of, reports that the pipeline has paused, the player is [Stopped]
    and the Java side is told exactly that. *)
Theorem Stop_completes `{Env} (s : pipeline) (w : world) :
  let o1 := Stop s w in
  let o2 := BusCallback (paused_message s) (ostate o1) (oworld o1) in
  announcements (otrace o1) = [] /\ m_PlayerState (ostate o1) = m_PlayerState s /\
  if stop_asks s then
    state_requests (otrace o1) = [(elem s PIPELINE, GST_STATE_PAUSED)] /\
    if some_refused (otrace o1)
    then oval o1 = ERROR_GSTREAMER_PIPELINE_STATE_CHANGE /\ m_PlayerPendingState (ostate o1) = Unknown
    else oval o1 = ERROR_NONE /\ m_PlayerPendingState (ostate o1) = Stopped /\
      (m_PlayerState s = Playing -> m_bIsDisposed (content s) = false -> m_bIsDisposeInProgress (content s) = false ->
       m_PlayerState (ostate o2) = Stopped /\ announcements (otrace o2) = if m_pEventDispatcher s then [Stopped] else [])
  else state_requests (otrace o1) = [] /\ oval o1 = ERROR_NONE /\ m_PlayerPendingState (ostate o1) = m_PlayerPendingState s.
Proof.
  cbv zeta. destruct (stop_asks s) eqn:K.
  - unfold stop_asks in K. apply andb_prop in K as [K Hrate%negb_true_iff]. apply andb_prop in K as [K1 K2].
    apply negb_true_iff, bool_decide_eq_false in K1, K2.
    destruct (Stop_spec s K1 K2 Hrate w) as (R & A & P & F & T).
    split_and!; [exact A | exact P | exact R |]. destruct (some_refused (otrace (Stop s w))); [exact T|].
    destruct T as [-> Q]. split_and!; [reflexivity | exact Q |]. intros Hst Hd Hp. rewrite <- (fixed_message _ _ F).
    destruct (BusCallback_halts (ostate (Stop s w)) ltac:(congruence)
                ltac:(rewrite (fixed_content _ _ F); exact Hd) ltac:(rewrite (fixed_content _ _ F); exact Hp)
                (oworld (Stop s w))) as (P2 & _ & A2).
    unfold halted in P2, A2. rewrite Q in P2, A2. rewrite (fixed_dispatcher _ _ F) in A2. auto.
  - destruct (Stop_idle s K w) as (V & R & A & P & Q). auto.
Qed.

Lemma Stop_completes_witness :
  let E := nominal_env TargetLinux in
  let s := player AVPlayback Playing in
  let o1 := @Stop E s tt in
  let o2 := @BusCallback E (paused_message s) (ostate o1) (oworld o1) in
  oval o1 = ERROR_NONE /\ m_PlayerState (ostate o2) = Stopped /\ announcements (otrace o2) = [Stopped].
Proof.
  cbv zeta. pose proof (@Stop_completes (nominal_env TargetLinux) (player AVPlayback Playing) tt) as K. cbv zeta in K.
  assert (A : stop_asks (player AVPlayback Playing) = true) by (vm_compute; reflexivity). rewrite A in K. clear A.
  assert (R : some_refused (otrace (@Stop (nominal_env TargetLinux) (player AVPlayback Playing) tt)) = false) by (vm_compute; reflexivity).
  rewrite R in K. destruct K as (_ & _ & _ & V & _ & H). split; [exact V|].
  assert (P : m_PlayerState (player AVPlayback Playing) = Playing) by reflexivity. specialize (H P). clear P.
  destruct H as [H1 H2]; [reflexivity|reflexivity|]. split; [exact H1|exact H2].
Defined.

(** Pausing a playing player, likewise: one request for the paused state,
    undone if refused; when the pipeline has paused, the player is [Paused] and
    that is announced, even if a stall was under way. *)
Theorem Pause_completes `{Env} (s : pipeline) (w : world)
    (Hst : m_PlayerState s = Playing) (Hrate : (f_zero ==. m_fRate s) = false)
    (Hd : m_bIsDisposed (content s) = false) (Hp : m_bIsDisposeInProgress (content s) = false) :
  let o1 := Pause s w in
  let o2 := BusCallback (paused_message s) (ostate o1) (oworld o1) in
  state_requests (otrace o1) = [(elem s PIPELINE, GST_STATE_PAUSED)] /\ announcements (otrace o1) = [] /\
  if some_refused (otrace o1)
  then oval o1 = ERROR_GSTREAMER_PIPELINE_STATE_CHANGE /\ m_PlayerPendingState (ostate o1) = Unknown
  else oval o1 = ERROR_NONE /\ m_PlayerState (ostate o2) = Paused /\
       announcements (otrace o2) = if m_pEventDispatcher s then [Paused] else [].
Proof.
  cbv zeta. destruct (Pause_spec s ltac:(rewrite Hst; set_solver) Hrate w) as (R & A & P & F & T).
  split_and!; [exact R | exact A |]. destruct (some_refused (otrace (Pause s w))); [exact T|].
  destruct T as [-> Q]. rewrite <- (fixed_message _ _ F).
  destruct (BusCallback_halts (ostate (Pause s w)) ltac:(congruence)
              ltac:(rewrite (fixed_content _ _ F); exact Hd) ltac:(rewrite (fixed_content _ _ F); exact Hp)
              (oworld (Pause s w))) as (P2 & _ & A2).
  unfold halted in P2, A2. rewrite Q in P2, A2. rewrite (fixed_dispatcher _ _ F) in A2.
  rewrite andb_false_r in P2, A2. auto.
Qed.

Definition stalling_player : pipeline := (player AudioPlayback Playing) <| m_StallOnPause := true |>.

Lemma Pause_completes_witness :
  let E := nominal_env TargetLinux in
  let s := stalling_player in
  let o1 := @Pause E s tt in
  let o2 := @BusCallback E (paused_message s) (ostate o1) (oworld o1) in
  oval o1 = ERROR_NONE /\ m_PlayerState (ostate o2) = Paused /\ announcements (otrace o2) = [Paused].
Proof.
  pose proof (@Pause_completes (nominal_env TargetLinux) stalling_player tt
                ltac:(reflexivity) ltac:(reflexivity) ltac:(reflexivity) ltac:(reflexivity)) as (_ & _ & H).
  exact H.
Defined.

(** Why a playing pipeline paused.  When the bus reports the pause of a
    playing pipeline, the player becomes [Stopped] if a stop was requested, else
    [Stalled] if the engine paused for lack of data and no pause was requested,
    else [Paused] if a pause was requested, and [Finished] otherwise; the new
    state is announced once. *)
Theorem pause_is_explained `{Env} (s : pipeline) (w : world)
    (Hst : m_PlayerState s = Playing)
    (Hd : m_bIsDisposed (content s) = false) (Hp : m_bIsDisposeInProgress (content s) = false) :
  let o := BusCallback (paused_message s) s w in
  let st := if m_PlayerPendingState s == Stopped then Stopped
            else if m_StallOnPause s && (m_PlayerPendingState s != Paused) then Stalled
            else if m_PlayerPendingState s == Paused then Paused
            else Finished in
  m_PlayerState (ostate o) = st /\ announcements (otrace o) = if m_pEventDispatcher s then [st] else [].
Proof.
  destruct (BusCallback_halts s Hst Hd Hp w) as (P & _ & A). split; [exact P | exact A].
Qed.

Lemma pause_is_explained_witness :
  m_PlayerState (ostate (@BusCallback (nominal_env TargetLinux) (paused_message (player AVPlayback Playing))
                           (player AVPlayback Playing) tt)) = Finished.
Proof.
  exact (proj1 (@pause_is_explained (nominal_env TargetLinux) (player AVPlayback Playing) tt
                  ltac:(reflexivity) ltac:(reflexivity) ltac:(reflexivity))).
Defined.
