(* ===== verification/ErrorState.v ===== *)
(** * The error state

    What happens on the bus when something goes wrong ([on_error] of
    [Bus.v]), and what a player in the [Error] state still does: nothing, with
    one exception. *)

From S2P Require Import Prelude CFloat MediaTypes GstApi Effects PipelineState AudioPipeline Bus Tracks AppSink Build LockOrder StateMachine Playback.

Local Open Scope Z_scope.

(** The player is in [Error], and neither Java nor GStreamer's state machine
    hears of it. *)
Definition dead (s : pipeline) (t : list obs) : Prop :=
  m_PlayerState s = Error /\ announcements t = [] /\ state_requests t = [].

Section Dead.
Context `{EV : Env}.

(** [m] does nothing that matters in the [Error] state. *)
Definition quiet {A} (m : PM A) : Prop :=
  forall s, m_PlayerState s = Error -> wp m s (fun _ s' t => dead s' t).

Lemma quiet_bind {A B} (m : PM A) (k : A -> PM B) : quiet m -> (forall a, quiet (k a)) -> quiet (bind m k).
Proof.
  intros Hm Hk s Hs. apply wp_bind. eapply wp_mono; [apply Hm, Hs|]. cbn beta. intros a s1 t1 (P1 & A1 & R1).
  eapply wp_mono; [apply Hk, P1|]. cbn beta. intros b s2 t2 (P2 & A2 & R2).
  unfold dead. rewrite announcements_app, state_requests_app, A1, A2, R1, R2. auto.
Qed.
Lemma quiet_passive {A} (m : PM A) : sat passive m -> quiet m.
Proof.
  intros Hm s Hs. eapply wp_mono; [apply Hm|]. cbn beta. intros a s1 t1 (F & P & _ & HA & R)%passive_inv.
  split_and!; [congruence | exact HA | exact R].
Qed.
Lemma quiet_ret {A} (a : A) : quiet (ret a).
Proof. intros s Hs. apply wp_ret. split_and!; [exact Hs | reflexivity..]. Qed.
Lemma quiet_ret_bind {A B} (a : A) (k : A -> PM B) : quiet (k a) -> quiet (bind (ret a) k).
Proof. intros Hk s Hs. apply wp_bind, wp_ret. exact (Hk s Hs). Qed.
Lemma quiet_gets {A} (f : pipeline -> A) : quiet (gets f).
Proof. intros s Hs. apply wp_gets. split_and!; [exact Hs | reflexivity..]. Qed.
Lemma quiet_call {R} (c : ext R) :
  (forall r, announced (Obs c r) = None /\ state_request (Obs c r) = None) -> quiet (call c).
Proof.
  intros Hc s Hs. apply wp_call. intros r. destruct (Hc r) as [H1 H2].
  split_and!; [exact Hs | apply announcements_none | apply state_requests_none]; repeat constructor; assumption.
Qed.
Lemma quiet_modify (f : pipeline -> pipeline) :
  (forall s, m_PlayerState (f s) = m_PlayerState s) -> quiet (modify f).
Proof. intros Hf s Hs. apply wp_modify. split_and!; [rewrite Hf; exact Hs | reflexivity..]. Qed.

(** Tests of the player state have a known answer. *)
Lemma quiet_state {B} (k : PlayerState -> PM B) : quiet (k Error) -> quiet (bind (gets m_PlayerState) k).
Proof. intros Hk s Hs. apply wp_bind, wp_gets. rewrite Hs. exact (Hk s Hs). Qed.
Lemma quiet_test {B} st (k : bool -> PM B) :
  quiet (k (bool_decide (Error = st))) -> quiet (bind (IsPlayerState st) k).
Proof.
  intros Hk s Hs. apply wp_bind. eapply wp_mono; [apply IsPlayerState_passive|]. cbn beta.
  intros b s1 t1 (-> & -> & (_ & _ & _ & A1 & R1)%passive_inv). rewrite Hs.
  eapply wp_mono; [apply Hk, Hs|]. cbn beta. intros x s2 t2 (P2 & A2 & R2).
  unfold dead. rewrite announcements_app, state_requests_app, A1, A2, R1, R2. auto.
Qed.
End Dead.

Create HintDb quiet discriminated.
#[export] Hint Resolve quiet_passive | 10 : quiet.

(** Walks through the code with the player state known to be [Error]. *)
Ltac decide_error :=
  repeat match goal with
  | |- context [bool_decide (Error = ?x)] =>
      first [ change (bool_decide (Error = x)) with false | change (bool_decide (Error = x)) with true ]
  end; cbn [negb andb orb].
Ltac quiet_step :=
  lazymatch goal with
  | |- forall _, _ => intros
  | |- quiet (bind (gets m_PlayerState) _) => apply quiet_state; decide_error
  | |- quiet (bind (IsPlayerState _) _) => apply quiet_test; decide_error
  | |- quiet (bind (ret _) _) => apply quiet_ret_bind; decide_error
  | |- quiet (bind _ _) => apply quiet_bind
  | |- quiet (ret _) => apply quiet_ret
  | |- quiet (gets _) => apply quiet_gets
  | |- quiet (enter _) => apply quiet_call; split; reflexivity
  | |- quiet (exit _) => apply quiet_call; split; reflexivity
  | |- quiet (call _) => apply quiet_call; split; reflexivity
  | |- quiet (modify _) => apply quiet_modify; reflexivity
  | |- quiet (when ?b _) => unfold when; destruct b
  | |- quiet (if ?b then _ else _) => destruct b
  | |- quiet (match ?x with _ => _ end) => destruct x
  | |- quiet _ => solve [eauto 40 with quiet frames nocore]
  end; cbv beta.
Ltac solve_quiet := unfold PM in *; repeat quiet_step.

Section ErrorState.
Context `{EV : Env}.

Lemma quiet_Play : quiet Play.
Proof. unfold Play. solve_quiet. Qed.
Lemma quiet_InternalPause : quiet InternalPause.
Proof.
  intros s Hs. unfold InternalPause. wp_steps; bools; try congruence;
    rewrite Hs in *; rewrite ?andb_false_r in *; try discriminate; split_and!; auto.
Qed.
Hint Resolve quiet_Play quiet_InternalPause : quiet.
Lemma quiet_set_pending st : quiet (set_pending st).
Proof. unfold set_pending. solve_quiet. Qed.
Hint Resolve quiet_set_pending : quiet.
Lemma quiet_Stop : quiet Stop.
Proof. unfold Stop. solve_quiet. Qed.
Lemma quiet_Finish : quiet Finish.
Proof. unfold Finish. solve_quiet. Qed.
Lemma quiet_Pause : quiet Pause.
Proof. unfold Pause. solve_quiet. Qed.
Lemma quiet_Seek t : quiet (Seek t).
Proof. unfold Seek. solve_quiet. Qed.
Lemma quiet_SetRate r : quiet (SetRate r).
Proof. unfold SetRate. solve_quiet. Qed.

Lemma passive_send_or_error (e : ext bool) c :
  (forall r, announced (Obs e r) = None /\ state_request (Obs e r) = None) -> sat passive (send_or_error e c).
Proof.
  intros He. unfold send_or_error, PM. apply sat_bind; [typeclasses eauto| |solve_frame].
  apply sat_call. intros. split; [reflexivity | repeat constructor; apply He].
Qed.
Hint Extern 1 (quiet (send_or_error _ _)) =>
  (apply quiet_passive, passive_send_or_error; split; reflexivity) : quiet.

Lemma quiet_SetPlayerState b : quiet (SetPlayerState Error b).
Proof. unfold SetPlayerState, when. solve_quiet. Qed.
Hint Resolve quiet_SetPlayerState : quiet.
Lemma quiet_assoc {A B C} (m : PM A) (k : A -> PM B) (k' : B -> PM C) :
  quiet (bind m (fun a => bind (k a) k')) -> quiet (bind (bind m k) k').
Proof.
  intros H s Hs w. specialize (H s Hs w). unfold bind in *. cbn [oval ostate oworld otrace] in *.
  rewrite <- app_assoc. exact H.
Qed.
Lemma quiet_UpdatePlayerState a b : quiet (UpdatePlayerState a b).
Proof.
  unfold UpdatePlayerState, next_player_state, PM. apply quiet_bind; [solve_quiet|]. intros _.
  apply quiet_assoc, quiet_state, quiet_assoc. solve_quiet.
Qed.
Lemma quiet_UpdateBufferPosition : quiet UpdateBufferPosition.
Proof. unfold UpdateBufferPosition, andM, notM. solve_quiet. Qed.
Lemma quiet_BufferUnderrun : quiet BufferUnderrun.
Proof. unfold BufferUnderrun, orM. solve_quiet. Qed.
Lemma quiet_HLSBufferStall : quiet HLSBufferStall.
Proof. unfold HLSBufferStall. solve_quiet. Qed.
Lemma quiet_HLSBufferResume b : quiet (HLSBufferResume b).
Proof. unfold HLSBufferResume, andM, orM, notM. solve_quiet. Qed.
Hint Resolve quiet_UpdatePlayerState quiet_UpdateBufferPosition quiet_BufferUnderrun quiet_HLSBufferStall
  quiet_HLSBufferResume : quiet.
Lemma quiet_on_application str : quiet (on_application str).
Proof. unfold on_application. solve_quiet. Qed.
Lemma quiet_update_clock a b c d : quiet (update_clock a b c d).
Proof. unfold update_clock, sink_ready. solve_quiet. Qed.
Lemma quiet_relevant_change a b c : quiet (relevant_change a b c).
Proof. unfold relevant_change, andM, orM, notM. solve_quiet. Qed.
Hint Resolve quiet_on_application quiet_update_clock quiet_relevant_change : quiet.
Lemma quiet_on_state_changed a b c d : quiet (on_state_changed a b c d).
Proof. unfold on_state_changed. solve_quiet. Qed.
Lemma quiet_on_fatal_error e t : quiet (on_fatal_error e t).
Proof. unfold on_fatal_error. solve_quiet. Qed.
Hint Resolve quiet_on_state_changed quiet_on_fatal_error : quiet.
Lemma quiet_on_error e d t : quiet (on_error e d t).
Proof. unfold on_error. solve_quiet. Qed.
Hint Resolve quiet_on_error : quiet.

Lemma quiet_dispatch msg : msg <> GST_MESSAGE_EOS -> quiet (dispatch msg).
Proof.
  intros Hm. destruct msg; cbn [dispatch]; unfold on_duration_changed, on_notice, on_element;
    try congruence; solve_quiet.
Qed.
Lemma quiet_BusCallback msg : msg <> GST_MESSAGE_EOS -> quiet (BusCallback msg).
Proof. intros Hm. pose proof (quiet_dispatch msg Hm). unfold BusCallback. solve_quiet; assumption. Qed.

(** The calls of the player and the messages of the bus. *)
Definition of_player (e : entry) : bool :=
  match e with
  | call_Play | call_Pause | call_Stop | call_Finish | call_Seek _ | call_SetRate _
  | call_GetDuration | call_GetStreamTime | call_GetRate | call_GetVolume | call_GetBalance | call_GetAudioSyncDelay
  | call_SetVolume _ | call_SetBalance _ | call_SetAudioSyncDelay _ => true
  | bus_message GST_MESSAGE_EOS => false
  | bus_message _ => true
  | _ => false
  end.

Lemma quiet_run e : of_player e = true -> quiet (run e).
Proof.
  pose proof quiet_Play. pose proof quiet_Pause. pose proof quiet_Stop. pose proof quiet_Finish.
  pose proof quiet_Seek. pose proof quiet_SetRate. pose proof quiet_BusCallback as Hb.
  destruct e as [| | | | | | | | | | | | | | | | | msg| | | | | | | | | | | ]; cbn [of_player run]; try discriminate; intros He;
    unfold GetRate, GetVolume, GetBalance, GetAudioSyncDelay, SetVolume, SetBalance, SetAudioSyncDelay.
  16: { specialize (Hb msg ltac:(intros ->; discriminate)). solve_quiet. }
  all: clear Hb; solve_quiet.
Qed.
End ErrorState.

(** C36: [Error] is final.  Once the player is in the [Error] state, no call of
    the player and no bus message but the end of the stream takes it out of that
    state, announces a state to Java or asks GStreamer for a state change. *)
Theorem Error_is_final `{Env} (e : entry) (s : pipeline) (w : world)
    (Hs : m_PlayerState s = Error) (He : of_player e = true) :
  let o := run e s w in
  m_PlayerState (ostate o) = Error /\ announcements (otrace o) = [] /\ state_requests (otrace o) = [].
Proof. exact (quiet_run e He s Hs w). Qed.

Lemma Error_is_final_witness :
  let o := @run (nominal_env TargetLinux) call_Play (player AVPlayback Error) tt in
  m_PlayerState (ostate o) = Error /\ announcements (otrace o) = [] /\ state_requests (otrace o) = [].
Proof. exact (@Error_is_final (nominal_env TargetLinux) call_Play (player AVPlayback Error) tt eq_refl eq_refl). Defined.

(** The exception.  An end-of-stream message that is still on the bus takes
    a player that has failed from [Error] to [Finished] and announces that: the
    handler tests only that the player is not finished yet. *)
Theorem EOS_leaves_Error `{Env} (s : pipeline) (w : world)
    (Hs : m_PlayerState s = Error)
    (Hd : m_bIsDisposed (content s) = false) (Hp : m_bIsDisposeInProgress (content s) = false) :
  let o := BusCallback GST_MESSAGE_EOS s w in
  m_PlayerState (ostate o) = Finished /\
  announcements (otrace o) = if m_pEventDispatcher s then [Finished] else [].
Proof.
  cbv zeta. revert w.
  change (wp (BusCallback GST_MESSAGE_EOS) s (fun _ s' t => m_PlayerState s' = Finished /\
            announcements t = if m_pEventDispatcher s then [Finished] else [])).
  unfold BusCallback, dispatch, on_eos. do 4 wp_step. rewrite Hd, Hp. do 2 wp_step.
  eapply wp_mono; [apply IsPlayerState_passive|]. cbn beta.
  intros b s1 t1 (-> & -> & (_ & _ & _ & A1 & _)%passive_inv). rewrite Hs.
  change (Error == Finished) with false. cbn [when negb]. wp_step. eapply wp_mono; [apply SetPlayerState_spec|].
  cbn beta. intros _ s2 t2 (F2 & P2 & A2). rewrite Hs in A2. change (Finished == Error) with false in A2.
  wp_steps; rewrite ?announcements_app, ?A1, ?A2; (split; [exact P2|]);
    destruct (m_pEventDispatcher s); reflexivity.
Qed.

Lemma EOS_leaves_Error_witness :
  m_PlayerState (ostate (@BusCallback (nominal_env TargetLinux) GST_MESSAGE_EOS (player AVPlayback Error) tt)) = Finished.
Proof.
  exact (proj1 (@EOS_leaves_Error (nominal_env TargetLinux) (player AVPlayback Error) tt eq_refl eq_refl eq_refl)).
Defined.

(** ** Error messages *)

Lemma media_errors_app t1 t2 : media_errors (t1 ++ t2) = media_errors t1 ++ media_errors t2.
Proof. apply omap_app. Qed.

(** The errors the player survives: the Java side is told (or has been), and
    decides. *)
Definition survives (s : pipeline) (e : GError) : bool :=
  (m_pEventDispatcher s && (ge_domain e == GST_RESOURCE_ERROR) && (ge_code e =? GST_RESOURCE_ERROR_READ)) ||
  ((ge_domain e == GST_STREAM_ERROR) && (ge_code e =? GST_STREAM_ERROR_FAILED) && m_bIgnoreError s) ||
  (m_pEventDispatcher s && (ge_domain e == GST_STREAM_ERROR) &&
   existsb (Z.eqb (ge_code e))
     [GST_STREAM_ERROR_FAILED; GST_STREAM_ERROR_TYPE_NOT_FOUND; GST_STREAM_ERROR_WRONG_TYPE;
      GST_STREAM_ERROR_CODEC_NOT_FOUND; GST_STREAM_ERROR_DECODE]).

Section Errors.
Context `{EV : Env}.

Lemma send_media_error_spec c s :
  wp (send_media_error c) s (fun _ s' t => s' = s /\ state_requests t = [] /\ media_errors t = [c]).
Proof. unfold send_media_error. wp_steps; split_and!; reflexivity. Qed.

(** Tearing the pipeline down. *)
Lemma on_fatal_error_spec e ts s :
  wp (on_fatal_error e ts) s (fun _ s' t =>
    m_PlayerState s' = Error /\ announcements t = [] /\
    state_requests t = if m_PlayerState s == Error then [] else [(elem s PIPELINE, GST_STATE_NULL)]).
Proof.
  unfold on_fatal_error. do 2 wp_step. simpl_set. apply wp_bind.
  eapply wp_mono; [apply IsPlayerState_passive|]. cbn beta. simpl_set.
  intros b s1 t1 (-> & -> & (_ & _ & _ & A1 & R1)%passive_inv).
  unfold element. apply wp_bind, wp_gets. apply wp_bind.
  eapply wp_mono with (P := fun _ s2 t2 => s2 = s <| m_bIgnoreError := false |> /\ announcements t2 = [] /\
    state_requests t2 = if m_PlayerState s == Error then [] else [(elem s PIPELINE, GST_STATE_NULL)]).
  { destruct (m_PlayerState s == Error); cbn [negb]; wp_steps; split_and!; reflexivity. }
  cbn beta. intros _ s2 t2 (-> & A2 & R2). apply wp_bind.
  eapply wp_mono; [apply wp_conj; [apply SetPlayerState_spec|]|].
  { instantiate (1 := fun _ _ t => state_requests t = []).
    unfold SetPlayerState, send_or_error, send_media_error. wp_steps; bools; try discriminate; reflexivity. }
  cbn beta. intros _ s3 t3 [(F3 & P3 & A3) R3]. rewrite andb_false_r in A3.
  eapply wp_mono with (P := fun _ s4 t4 => m_PlayerState s4 = m_PlayerState s3 /\ announcements t4 = [] /\ state_requests t4 = []).
  { unfold send_or_error, send_media_error. wp_steps; split_and!; reflexivity. }
  cbn beta. intros _ s4 t4 (P4 & A4 & R4).
  rewrite !announcements_app, !state_requests_app, A1, A2, A3, A4, R1, R2, R3, R4, !app_nil_r. cbn [app].
  split_and!; [congruence | reflexivity | reflexivity].
Qed.

(** What handling an error message leaves. *)
Definition error_handled (s : pipeline) (e : GError) (s' : pipeline) (t : list obs) : Prop :=
  announcements t = [] /\
  if survives s e
  then m_PlayerState s' = m_PlayerState s /\ state_requests t = [] /\ (List.length (media_errors t) <= 1)%nat
  else m_PlayerState s' = Error /\
       state_requests t = if m_PlayerState s == Error then [] else [(elem s PIPELINE, GST_STATE_NULL)].

Lemma error_handled_prefix s e s' t0 t :
  announcements t0 = [] -> state_requests t0 = [] -> media_errors t0 = [] ->
  error_handled s e s' t -> error_handled s e s' (t0 ++ t).
Proof.
  intros H1 H2 H3. unfold error_handled. rewrite announcements_app, state_requests_app, media_errors_app, H1, H2, H3.
  exact (fun H => H).
Qed.

Lemma survives_handled (m : PM unit) s e :
  survives s e = true ->
  wp m s (fun _ s' t => m_PlayerState s' = m_PlayerState s /\ announcements t = [] /\ state_requests t = [] /\
                        (List.length (media_errors t) <= 1)%nat) ->
  wp m s (fun _ s' t => error_handled s e s' t).
Proof.
  intros Hs Hm. eapply wp_mono; [exact Hm|]. cbn beta. unfold error_handled. rewrite Hs. tauto.
Qed.

Lemma fatal_handled (m : PM unit) s e ts :
  survives s e = false -> sat passive m -> wp (m ;; on_fatal_error (Some e) ts) s (fun _ s' t => error_handled s e s' t).
Proof.
  intros Hs Hm. apply wp_bind. eapply wp_mono; [apply Hm|]. cbn beta.
  intros _ s1 t1 (F1 & P1 & _ & A1 & R1)%passive_inv. eapply wp_mono; [apply on_fatal_error_spec|]. cbn beta.
  intros _ s2 t2 (P2 & A2 & R2). unfold error_handled. rewrite Hs, announcements_app, state_requests_app, A1, A2, R1, R2, P1.
  assert (E : elem s1 PIPELINE = elem s PIPELINE) by (unfold elem; unfold fixed in F1; injection F1 as _ _ _ -> _; reflexivity).
  rewrite E. split_and!; [reflexivity | exact P2 | reflexivity].
Qed.

Ltac survive := apply survives_handled; [|unfold send_media_error; wp_steps; split_and!; first [reflexivity | cbn; lia]].

Lemma on_error_spec e d ts s : wp (on_error (Some e) d ts) s (fun _ s' t => error_handled s e s' t).
Proof.
  unfold on_error. do 2 wp_step. apply wp_bind.
  eapply wp_mono with (P := fun _ s1 t1 => s1 = s /\ announcements t1 = [] /\ state_requests t1 = [] /\ media_errors t1 = []).
  { wp_steps; split_and!; reflexivity. }
  cbn beta. intros _ s1 t1 (-> & A1 & R1 & M1). do 6 wp_step.
  eapply wp_mono with (P := fun _ s' t => error_handled s e s' t).
  2:{ cbn beta. intros _ s' t H. apply error_handled_prefix; [reflexivity..|].
      apply error_handled_prefix; assumption. }
  set (D := m_pEventDispatcher s). set (I := m_bIgnoreError s).
  set (HR := ge_domain e == GST_RESOURCE_ERROR). set (HS := ge_domain e == GST_STREAM_ERROR).
  assert (Hsurv : survives s e = (D && HR && (ge_code e =? GST_RESOURCE_ERROR_READ))
      || (HS && (ge_code e =? GST_STREAM_ERROR_FAILED) && I)
      || (D && HS && ((ge_code e =? GST_STREAM_ERROR_FAILED) || ((ge_code e =? GST_STREAM_ERROR_TYPE_NOT_FOUND)
          || ((ge_code e =? GST_STREAM_ERROR_WRONG_TYPE) || ((ge_code e =? GST_STREAM_ERROR_CODEC_NOT_FOUND)
          || ((ge_code e =? GST_STREAM_ERROR_DECODE) || false))))))) by reflexivity.
  clearbody D I HR HS.
  destruct (_ && (_ =? GST_RESOURCE_ERROR_READ)) eqn:C1; [survive; rewrite Hsurv; reflexivity|].
  destruct (_ && _ && (_ =? GST_STREAM_ERROR_FAILED)) eqn:C2.
  { survive. rewrite Hsurv. bools. subst. rewrite H0. cbn. reflexivity. }
  destruct (_ && _ && (_ || (_ =? GST_STREAM_ERROR_WRONG_TYPE))) eqn:C3.
  { survive. rewrite Hsurv. apply andb_prop in C3 as [[-> ->]%andb_prop [C|C]%orb_prop]; rewrite C; cbn;
      rewrite ?orb_true_r; reflexivity. }
  destruct (_ && _ && (_ || (_ =? GST_STREAM_ERROR_TYPE_NOT_FOUND))) eqn:C4.
  { survive. rewrite Hsurv. apply andb_prop in C4 as [[-> ->]%andb_prop [[C|C]%orb_prop|C]%orb_prop]; rewrite C; cbn;
      rewrite ?orb_true_r; reflexivity. }
  apply fatal_handled; [|unfold PM; solve_frame]. rewrite Hsurv.
  destruct D, HS, I; cbn [andb orb] in *;
    repeat match goal with
    | H : _ || _ = false |- _ => apply orb_false_iff in H as [? ?]
    | H : (_ =? _) = false |- _ => rewrite H; clear H
    end; rewrite ?andb_false_r; reflexivity.
Qed.
End Errors.

Section ErrorMessages.
Context `{EV : Env}.

(** A message that is not dropped is dispatched, between two lock calls. *)
Lemma BusCallback_dispatches msg s (Q : pipeline -> list obs -> Prop) :
  m_bIsDisposed (content s) = false -> m_bIsDisposeInProgress (content s) = false ->
  wp (dispatch msg) s (fun _ s' t => Q s' ([Obs (lock_enter DisposeLock) tt] ++ t ++ [Obs (lock_exit DisposeLock) tt])) ->
  wp (BusCallback msg) s (fun _ s' t => Q s' t).
Proof.
  intros Hd Hp Hm. unfold BusCallback. apply wp_bind, wp_call. intros []. apply wp_bind, wp_gets. rewrite Hd, Hp.
  apply wp_bind. eapply wp_mono; [exact Hm|]. cbn beta. intros _ s' t H.
  apply wp_bind, wp_call. intros []. apply wp_ret. exact H.
Qed.

(** Following the path of a read error, and of the error that comes after. *)
Lemma on_error_read s d ts m :
  m_pEventDispatcher s = true ->
  wp (on_error (Some (mkGError GST_RESOURCE_ERROR GST_RESOURCE_ERROR_READ m)) d ts) s (fun _ s' t =>
    s' = s <| m_bIgnoreError := true |> /\ announcements t = [] /\ state_requests t = [] /\
    media_errors t = [ERROR_LOCATOR_CONNECTION_LOST]).
Proof.
  intros D. unfold on_error, send_media_error.
  wp_steps; rewrite ?D in *; cbn in *; try discriminate; split_and!; reflexivity.
Qed.
Lemma on_error_ignored s d ts m :
  m_bIgnoreError s = true ->
  wp (on_error (Some (mkGError GST_STREAM_ERROR GST_STREAM_ERROR_FAILED m)) d ts) s (fun _ s' t =>
    s' = s <| m_bIgnoreError := false |> /\ announcements t = [] /\ state_requests t = [] /\ media_errors t = []).
Proof.
  intros I. unfold on_error. do 2 wp_step. apply wp_bind.
  eapply wp_mono with (P := fun _ s1 t1 => s1 = s /\ announcements t1 = [] /\ state_requests t1 = [] /\ media_errors t1 = []).
  { wp_steps; split_and!; reflexivity. }
  cbn beta. intros _ s1 t1 (-> & A1 & R1 & M1). do 6 wp_step. rewrite I.
  set (e := mkGError _ _ _). change (ge_domain e == GST_RESOURCE_ERROR) with false. rewrite andb_false_r. cbn [andb].
  change (ge_domain e == GST_STREAM_ERROR) with true. change (ge_code e =? GST_STREAM_ERROR_FAILED) with true. cbn [andb].
  wp_step. rewrite !announcements_app, !state_requests_app, !media_errors_app, A1, R1, M1.
  split_and!; reflexivity.
Qed.

Lemma BusCallback_read_error s m d ts :
  m_pEventDispatcher s = true -> m_bIsDisposed (content s) = false -> m_bIsDisposeInProgress (content s) = false ->
  wp (BusCallback (GST_MESSAGE_ERROR (Some (mkGError GST_RESOURCE_ERROR GST_RESOURCE_ERROR_READ m)) d ts)) s
    (fun _ s' t => s' = s <| m_bIgnoreError := true |> /\ announcements t = [] /\ state_requests t = [] /\
                   media_errors t = [ERROR_LOCATOR_CONNECTION_LOST]).
Proof.
  intros HD Hd Hp. apply BusCallback_dispatches; [assumption..|].
  eapply wp_mono; [apply on_error_read, HD|]. cbn beta. intros _ s' t (-> & A & R & M).
  rewrite !announcements_app, !state_requests_app, !media_errors_app, A, R, M. split_and!; reflexivity.
Qed.
Lemma BusCallback_ignored_error s m d ts :
  m_bIgnoreError s = true -> m_bIsDisposed (content s) = false -> m_bIsDisposeInProgress (content s) = false ->
  wp (BusCallback (GST_MESSAGE_ERROR (Some (mkGError GST_STREAM_ERROR GST_STREAM_ERROR_FAILED m)) d ts)) s
    (fun _ s' t => s' = s <| m_bIgnoreError := false |> /\ announcements t = [] /\ state_requests t = [] /\
                   media_errors t = []).
Proof.
  intros HI Hd Hp. apply BusCallback_dispatches; [assumption..|].
  eapply wp_mono; [apply on_error_ignored, HI|]. cbn beta. intros _ s' t (-> & A & R & M).
  rewrite !announcements_app, !state_requests_app, !media_errors_app, A, R, M. split_and!; reflexivity.
Qed.
End ErrorMessages.

(** Error messages.  Whatever the environment answers, an error on the bus
    announces no player state.  If it is one the player survives (a lost
    connection, the stream error that follows it, or a stream error about
    format or codec), the player stays where it is, nothing is asked of
    GStreamer and at most one media error goes to Java.  Any other error puts
    the player in [Error] and shuts the pipeline down by exactly one request for
    the null state, or by none if the player had failed already. *)
Theorem error_message_handled `{Env} (e : GError) (debug : option string) (timestamp : Z) (s : pipeline) (w : world)
    (Hd : m_bIsDisposed (content s) = false) (Hp : m_bIsDisposeInProgress (content s) = false) :
  let o := BusCallback (GST_MESSAGE_ERROR (Some e) debug timestamp) s w in
  announcements (otrace o) = [] /\
  if survives s e
  then m_PlayerState (ostate o) = m_PlayerState s /\ state_requests (otrace o) = [] /\
       (List.length (media_errors (otrace o)) <= 1)%nat
  else m_PlayerState (ostate o) = Error /\
       state_requests (otrace o) = if m_PlayerState s == Error then [] else [(elem s PIPELINE, GST_STATE_NULL)].
Proof.
  cbv zeta. revert w.
  apply (BusCallback_dispatches (GST_MESSAGE_ERROR (Some e) debug timestamp) s (fun s' t => error_handled s e s' t));
    [assumption..|].
  eapply wp_mono; [apply on_error_spec|]. cbn beta. intros _ s' t Ht.
  apply (error_handled_prefix s e s' [Obs (lock_enter DisposeLock) tt]); [reflexivity..|].
  revert Ht. unfold error_handled. rewrite announcements_app, state_requests_app, media_errors_app, !app_nil_r.
  exact (fun H => H).
Qed.

Definition demux_error : GError := mkGError GST_STREAM_ERROR GST_STREAM_ERROR_DEMUX "bad".

Lemma error_message_handled_witness :
  let s := player AVPlayback Playing in
  let o := @BusCallback (nominal_env TargetLinux) (GST_MESSAGE_ERROR (Some demux_error) None 0) s tt in
  m_PlayerState (ostate o) = Error /\ state_requests (otrace o) = [(Some 10%nat, GST_STATE_NULL)].
Proof.
  exact (proj2 (@error_message_handled (nominal_env TargetLinux) demux_error None 0 (player AVPlayback Playing) tt
                  eq_refl eq_refl)).
Defined.

(** A lost connection is reported once.  The resource read error of a lost
    connection is sent to Java as such, and the generic stream error that
    GStreamer posts right after it is swallowed: over the two messages exactly
    one media error is sent, no state is announced or requested, the player
    stays where it was, and the next error will be handled again. *)
Theorem connection_lost_reported_once `{Env} (m1 m2 : string) (d1 d2 : option string) (t1 t2 : Z)
    (s : pipeline) (w : world) (HD : m_pEventDispatcher s = true)
    (Hd : m_bIsDisposed (content s) = false) (Hp : m_bIsDisposeInProgress (content s) = false) :
  let read_error := mkGError GST_RESOURCE_ERROR GST_RESOURCE_ERROR_READ m1 in
  let failed_error := mkGError GST_STREAM_ERROR GST_STREAM_ERROR_FAILED m2 in
  let o1 := BusCallback (GST_MESSAGE_ERROR (Some read_error) d1 t1) s w in
  let o2 := BusCallback (GST_MESSAGE_ERROR (Some failed_error) d2 t2) (ostate o1) (oworld o1) in
  let t := otrace o1 ++ otrace o2 in
  media_errors t = [ERROR_LOCATOR_CONNECTION_LOST] /\ announcements t = [] /\ state_requests t = [] /\
  m_PlayerState (ostate o2) = m_PlayerState s /\ m_bIgnoreError (ostate o2) = false.
Proof.
  cbv zeta. destruct (BusCallback_read_error s m1 d1 t1 HD Hd Hp w) as (E1 & A1 & R1 & M1).
  rewrite E1 in *. set (w1 := oworld _). clearbody w1.
  set (s1 := s <| m_bIgnoreError := true |>). assert (I1 : m_bIgnoreError s1 = true) by reflexivity.
  destruct (BusCallback_ignored_error s1 m2 d2 t2 I1 Hd Hp w1) as (E2 & A2 & R2 & M2).
  rewrite media_errors_app, announcements_app, state_requests_app, A1, A2, R1, R2, M1, M2, E2.
  split_and!; reflexivity.
Qed.

Lemma connection_lost_reported_once_witness :
  let s := player AVPlayback Playing in
  let o1 := @BusCallback (nominal_env TargetLinux)
    (GST_MESSAGE_ERROR (Some (mkGError GST_RESOURCE_ERROR GST_RESOURCE_ERROR_READ "")) None 0) s tt in
  let o2 := @BusCallback (nominal_env TargetLinux)
    (GST_MESSAGE_ERROR (Some (mkGError GST_STREAM_ERROR GST_STREAM_ERROR_FAILED "")) None 0) (ostate o1) (oworld o1) in
  media_errors (otrace o1 ++ otrace o2) = [ERROR_LOCATOR_CONNECTION_LOST].
Proof.
  exact (proj1 (@connection_lost_reported_once (nominal_env TargetLinux) "" "" None None 0 0
                  (player AVPlayback Playing) tt eq_refl eq_refl eq_refl)).
Defined.
