(* ===== verification/Controls.v ===== *)
(** * Rate, time, volume and delay

    Theorems about the operations of the player that read and set numbers. *)

From S2P Require Import Prelude CFloat MediaTypes GstApi Effects PipelineState AudioPipeline Bus Tracks AppSink Build LockOrder StateMachine Playback.

Local Open Scope Z_scope.

Section Rate.
Context `{EV : Env}.

Lemma passive_rate s s' t : passive s s' t -> m_fRate s' = m_fRate s.
Proof. intros [H _]. congruence. Qed.

Lemma SetRate_spec rate s :
  (f_zero ==. rate) = false ->
  wp (SetRate rate) s (fun r s' t => state_requests t = [] /\
    (r = ERROR_NONE -> m_PlayerState s <> Error -> (rate !=. m_fRate s) = true -> m_fRate s' = rate)).
Proof.
  intros Hr. unfold SetRate. apply wp_bind. eapply wp_mono; [apply IsPlayerState_passive|]. cbn beta.
  intros b s1 t1 (-> & -> & (_ & _ & _ & _ & R1)%passive_inv).
  destruct (m_PlayerState s == Error) eqn:HE; bools.
  { wp_step. rewrite state_requests_app, R1. split; [reflexivity | congruence]. }
  do 2 wp_step. destruct (rate !=. m_fRate s) eqn:Hd; [|wp_step; rewrite !state_requests_app, R1; split; [reflexivity | congruence]].
  rewrite Hr. do 6 wp_step. apply wp_bind. set (s2 := s <| m_fRate := rate |>).
  eapply wp_mono with (P := fun _ s3 t3 => passive s2 s3 t3).
  { apply (sat_wp passive). unfold PM. solve_frame. }
  cbn beta. intros st s3 t3 P3. apply wp_bind.
  eapply wp_mono; [apply passive_SeekPipeline|]. cbn beta. intros err s4 t4 P4.
  assert (Hrate : m_fRate s4 = rate) by (rewrite (passive_rate _ _ _ P4), (passive_rate _ _ _ P3); reflexivity).
  apply passive_inv in P3 as (_ & _ & _ & _ & R3). apply passive_inv in P4 as (_ & _ & _ & _ & R4).
  do 2 wp_step. wp_step.
  - do 4 wp_step. rewrite Hrate, Hr. cbn [andb]. wp_step.
    rewrite !state_requests_app, R1, R3, R4. split; [reflexivity | intros; exact Hrate].
  - wp_step. rewrite !state_requests_app, R1, R3, R4. split; [reflexivity | discriminate].
Qed.
End Rate.

(** Setting a nonzero rate never resumes playback.  When the rate goes from
    zero to a nonzero value the code means to play again if it was playing when
    the rate became zero; but it tests the old rate after it has stored the new
    one, so no call of [SetRate] with a nonzero rate asks GStreamer for any state
    change, whatever the previous rate and the flag. *)
Theorem SetRate_never_resumes `{Env} (rate : float) (s : pipeline) (w : world)
    (Hrate : (f_zero ==. rate) = false) :
  state_requests (otrace (SetRate rate s w)) = [].
Proof. exact (proj1 (SetRate_spec rate s Hrate w)). Qed.

Definition zero_rate_player : pipeline :=
  (player AVPlayback Paused) <| m_fRate := f_zero |> <| m_bResumePlayOnNonzeroRate := true |>.

Lemma SetRate_never_resumes_witness :
  m_bResumePlayOnNonzeroRate zero_rate_player = true /\
  state_requests (otrace (@SetRate (nominal_env TargetLinux) f_one zero_rate_player tt)) = [].
Proof.
  split; [reflexivity|].
  exact (@SetRate_never_resumes (nominal_env TargetLinux) f_one zero_rate_player tt eq_refl).
Defined.

(** The stream time stays within the media.  [GetStreamTime] always
    succeeds; in the [Stopped] and [Error] states the time is zero, and
    otherwise it does not exceed the duration the pipeline last reported, if
    that is known and definite, whatever position GStreamer gives. *)
Theorem GetStreamTime_bounded `{Env} (s : pipeline) (w : world) :
  let o := GetStreamTime s w in
  let '(err, time) := oval o in
  let duration := m_dLastReportedDuration (ostate o) in
  err = ERROR_NONE /\
  if (m_PlayerState s == Stopped) || (m_PlayerState s == Error) then time = d_zero
  else (duration !=. DURATION_UNKNOWN) && (duration !=. DURATION_INDEFINITE) = true -> (duration <. time) = false.
Proof.
  cbv zeta. revert w.
  change (wp GetStreamTime s (fun r s' t => let '(err, time) := r in err = ERROR_NONE /\
    if (m_PlayerState s == Stopped) || (m_PlayerState s == Error) then time = d_zero
    else (m_dLastReportedDuration s' !=. DURATION_UNKNOWN) && (m_dLastReportedDuration s' !=. DURATION_INDEFINITE) = true ->
         (m_dLastReportedDuration s' <. time) = false)).
  unfold GetStreamTime. do 6 wp_step. wp_step; [wp_step; split; reflexivity|].
  unfold element. do 4 wp_step. apply wp_bind.
  eapply wp_mono with (P := fun _ _ _ => True); [intros w; exact I|]. cbn beta. intros pos s1 t1 _.
  do 2 wp_step. apply wp_bind.
  eapply wp_mono with (P := fun _ _ _ => True); [intros w; exact I|]. cbn beta. intros _ s2 t2 _.
  do 3 wp_step. split; [reflexivity|]. intros ->. cbn [andb].
  destruct (_ <. seconds pos) eqn:E; [apply SFltb_irrefl | exact E].
Qed.

(** ** Volume and balance *)

(** The values a trace sets a property to, with the element. *)
Definition property_set (prop : string) (o : obs) : option (ptr * GVal) :=
  match o with
  | Obs (g_object_set el p v) _ => if (p =? prop)%string then Some (el, v) else None
  | _ => None
  end.
Definition property_sets (prop : string) (t : list obs) : list (ptr * GVal) := omap (property_set prop) t.

(** [v] is [x] forced into the range from [lo] to [hi]. *)
Definition forced (lo hi x v : float) : Prop :=
  (lo <=. v) = true /\ (v <=. hi) = true /\ ((lo <=. x) && (x <=. hi) = true -> v = x).

Lemma clamp_forced lo hi x :
  is_nan lo = false -> is_nan hi = false -> is_nan x = false -> (lo <=. hi) = true -> forced lo hi x (clamp lo hi x).
Proof.
  intros Hlo Hhi Hx Hle. destruct (clamp_range lo hi x Hlo Hhi Hx Hle) as [H1 H2]. split_and!; [exact H1 | exact H2|].
  intros [H3 H4]%andb_prop. apply clamp_id; apply SFleb_not_ltb; assumption.
Qed.

(** Volume and balance are kept in range.  For every number the player
    passes (a not-a-number is passed on), unless it is in the [Error] state, one
    property is written: the volume forced between 0 and 1, or the balance
    forced between -1 and 1, and exactly the value itself if it is in range. *)
Theorem volume_balance_in_range `{Env} (x : float) (s : pipeline) (w1 w2 : world)
    (Hx : is_nan x = false) (Hs : m_PlayerState s <> Error) :
  (exists v, forced f_zero f_one x v /\
     property_sets "volume" (otrace (SetVolume x s w1)) = [(elem s AUDIO_VOLUME, GDouble (float_to_double v))]) /\
  (exists v, forced f_minus_one f_one x v /\
     property_sets "panorama" (otrace (SetBalance x s w2)) = [(elem s AUDIO_BALANCE, GDouble (float_to_double v))]).
Proof.
  split; eexists; (split; [apply clamp_forced; [reflexivity | reflexivity | exact Hx | reflexivity]|]).
  - revert w1. refine (_ : wp (SetVolume x) s (fun _ _ t => property_sets "volume" t = _)).
    unfold SetVolume, IsPlayerState, element. wp_steps; bools; congruence || reflexivity.
  - revert w2. refine (_ : wp (SetBalance x) s (fun _ _ t => property_sets "panorama" t = _)).
    unfold SetBalance, IsPlayerState, element. wp_steps; bools; congruence || reflexivity.
Qed.

Lemma volume_balance_in_range_witness :
  (exists v, forced f_zero f_one (Z_to_float 3) v /\
     property_sets "volume" (otrace (@SetVolume (nominal_env TargetLinux) (Z_to_float 3) (player AVPlayback Playing) tt))
     = [(elem (player AVPlayback Playing) AUDIO_VOLUME, GDouble (float_to_double v))]).
Proof.
  exact (proj1 (@volume_balance_in_range (nominal_env TargetLinux) (Z_to_float 3) (player AVPlayback Playing) tt tt
                  ltac:(vm_compute; reflexivity) ltac:(discriminate))).
Defined.

(** ** Audio delay *)

(** An environment that keeps the sink's [ts-offset] property. *)
Definition offset_env (p : Platform) : Env :=
  {| world := Z;
     handle := fun R c w =>
       match c in ext R return R * Z with
       | g_object_set _ "ts-offset" (GInt64 v) => (tt, v)
       | g_object_get_int64 _ "ts-offset" => (w, w)
       | c => (nominal c, w)
       end;
     platform := p |}.

(** The delays a [long] number of milliseconds can hold without the number of
    nanoseconds leaving 64 bits. *)
Definition delay_ok (p : Platform) (millis : Z) : Prop :=
  match p with
  | TargetWin32 => -2147483648 <= millis <= 2147483647
  | _ => -9223372036854 <= millis <= 9223372036854
  end.

Section Delay.
Variable p : Platform.
#[local] Instance delay_env : Env := offset_env p.

Lemma IsPlayerState_offset st s w :
  oval (IsPlayerState st s w) = (m_PlayerState s == st) /\ ostate (IsPlayerState st s w) = s /\
  oworld (IsPlayerState st s w) = w.
Proof. split_and!; reflexivity. Qed.

Lemma SetAudioSyncDelay_offset millis s w :
  m_PlayerState s <> Error ->
  ostate (SetAudioSyncDelay millis s w) = s /\
  oworld (SetAudioSyncDelay millis s w) = s64 (millis * GST_MSECOND).
Proof.
  intros Hs. unfold SetAudioSyncDelay. unfold bind at 1 4.
  destruct (IsPlayerState_offset Error s w) as (-> & -> & ->). rewrite (bool_decide_eq_false_2 _ Hs).
  split; reflexivity.
Qed.

Lemma GetAudioSyncDelay_offset s w :
  m_PlayerState s <> Error ->
  oval (GetAudioSyncDelay s w) = (ERROR_NONE, Some (to_long (Z.quot w 1000000))).
Proof.
  intros Hs. unfold GetAudioSyncDelay. unfold bind at 1.
  destruct (IsPlayerState_offset Error s w) as (-> & -> & ->). rewrite (bool_decide_eq_false_2 _ Hs).
  reflexivity.
Qed.
End Delay.

(** The audio delay reads back.  On an element that keeps its [ts-offset]
    property, a delay set with [SetAudioSyncDelay] is the delay
    [GetAudioSyncDelay] returns, for every number of milliseconds that fits. *)
Theorem audio_delay_roundtrip (p : Platform) (millis : Z) (s : pipeline) (w : Z)
    (Hm : delay_ok p millis) (Hs : m_PlayerState s <> Error) :
  let E := offset_env p in
  let o1 := @SetAudioSyncDelay E millis s w in
  oval (@GetAudioSyncDelay E (ostate o1) (oworld o1)) = (ERROR_NONE, Some millis).
Proof.
  cbv zeta. destruct (SetAudioSyncDelay_offset p millis s w Hs) as [Es Ew].
  unfold delay_env in Es, Ew. rewrite Es, Ew.
  rewrite (GetAudioSyncDelay_offset p s _ Hs).
  assert (Hn : s64 (millis * GST_MSECOND) = millis * GST_MSECOND).
  { apply s64_small. unfold INT64_MIN, INT64_MAX, GST_MSECOND. destruct p; cbn in Hm; lia. }
  rewrite Hn. change GST_MSECOND with 1000000. rewrite Z.quot_mul by discriminate.
  do 2 f_equal. unfold to_long. cbn [platform offset_env delay_env].
  destruct p; cbn [delay_ok] in Hm; [apply s64_small | | apply s64_small].
  - unfold INT64_MIN, INT64_MAX. lia.
  - unfold s32. change (two_p32 / 2) with 2147483648. rewrite Z.mod_small; unfold two_p32; lia.
  - unfold INT64_MIN, INT64_MAX. lia.
Qed.

Lemma audio_delay_roundtrip_witness :
  oval (@GetAudioSyncDelay (offset_env TargetWin32)
          (ostate (@SetAudioSyncDelay (offset_env TargetWin32) (-250) (player AVPlayback Playing) 0))
          (oworld (@SetAudioSyncDelay (offset_env TargetWin32) (-250) (player AVPlayback Playing) 0)))
  = (ERROR_NONE, Some (-250)).
Proof.
  exact (audio_delay_roundtrip TargetWin32 (-250) (player AVPlayback Playing) 0 ltac:(cbn; lia) ltac:(discriminate)).
Defined.
