(* ===== verification/Stalls.v ===== *)
(** * Stalling and resuming

    How the progress buffers make the player stall for lack of data and play
    again ([BufferUnderrun], [UpdateBufferPosition], [HLSBufferStall],
    [HLSBufferResume]), and how the queues of an audio-video pipeline grow. *)

From S2P Require Import Prelude CFloat MediaTypes GstApi Effects PipelineState AudioPipeline Bus Tracks AppSink Build LockOrder StateMachine Playback ErrorState Controls.

Local Open Scope Z_scope.

(** The requests of a trace to play. *)
Definition plays (t : list obs) : bool := existsb (fun r => snd r == GST_STATE_PLAYING) (state_requests t).

Lemma plays_app t1 t2 : plays (t1 ++ t2) = plays t1 || plays t2.
Proof. unfold plays. rewrite state_requests_app. apply existsb_app. Qed.
Lemma plays_none t : state_requests t = [] -> plays t = false.
Proof. unfold plays. intros ->. reflexivity. Qed.

(** The player may be told to play: no pause or stop was asked for. *)
Definition may_play (s : pipeline) : Prop :=
  m_PlayerState s ∈ [Stalled; Playing] /\ m_PlayerPendingState s <> Paused /\ m_PlayerPendingState s <> Stopped.

Section Stalls.
Context `{EV : Env}.

(** Code with a passive first part. *)
Lemma passive_then {A B} (m : PM A) (k : A -> PM B) s (Q : bool -> Prop) :
  sat passive m ->
  (forall a s1, m_PlayerState s1 = m_PlayerState s -> m_PlayerPendingState s1 = m_PlayerPendingState s ->
                wp (k a) s1 (fun _ _ t => Q (plays t))) ->
  wp (bind m k) s (fun _ _ t => Q (plays t)).
Proof.
  intros Hm Hk. apply wp_bind. eapply wp_mono; [apply Hm|]. cbn beta. intros a s1 t1 (_ & P & R & _ & S)%passive_inv.
  eapply wp_mono; [apply Hk; assumption|]. cbn beta. intros _ s2 t2 H. rewrite plays_app, (plays_none _ S). exact H.
Qed.

(** The same, when the value is known to imply something. *)
Lemma passive_then_known {A B} (m : PM A) (k : A -> PM B) s (V : A -> Prop) (Q : bool -> Prop) :
  sat passive m -> wp m s (fun a _ _ => V a) ->
  (forall a s1, V a -> wp (k a) s1 (fun _ _ t => Q (plays t))) ->
  wp (bind m k) s (fun _ _ t => Q (plays t)).
Proof.
  intros Hm HV Hk. apply wp_bind. eapply wp_mono; [apply wp_conj; [apply Hm | apply HV]|].
  cbn beta. intros a s1 t1 [(_ & _ & _ & _ & S)%passive_inv Ha].
  eapply wp_mono; [apply Hk, Ha|]. cbn beta. intros _ s2 t2 H. rewrite plays_app, (plays_none _ S). exact H.
Qed.

Lemma passive_quiet {A} (m : PM A) s (Q : bool -> Prop) : sat passive m -> Q false -> wp m s (fun _ _ t => Q (plays t)).
Proof.
  intros Hm HQ. eapply wp_mono; [apply Hm|]. cbn beta. intros a s1 t1 (_ & _ & _ & _ & S)%passive_inv.
  rewrite (plays_none _ S). exact HQ.
Qed.

Lemma InternalPause_plays s (Q : bool -> Prop) : Q false -> wp InternalPause s (fun _ _ t => Q (plays t)).
Proof.
  intros HQ. unfold InternalPause, element. wp_steps; try exact HQ.
  eapply wp_mono; [apply passive_CheckQueueSize|]. cbn beta. intros [] s1 t1 (_ & _ & _ & _ & S)%passive_inv. wp_step.
  rewrite !plays_app, (plays_none _ S). exact HQ.
Qed.

Lemma IsPlayerPendingState_value st s :
  wp (IsPlayerPendingState st) s (fun b s' _ => b = (m_PlayerPendingState s == st) /\ s' = s).
Proof. unfold IsPlayerPendingState. wp_steps. split; reflexivity. Qed.

Definition not_interrupted : PM bool :=
  andM (notM (IsPlayerPendingState Paused)) (notM (IsPlayerPendingState Stopped)).

Lemma passive_andM m k : sat passive m -> sat passive k -> sat passive (andM m k).
Proof. intros. unfold andM, PM. solve_frame; assumption. Qed.
Lemma passive_orM m k : sat passive m -> sat passive k -> sat passive (orM m k).
Proof. intros. unfold orM, PM. solve_frame; assumption. Qed.
Lemma passive_not_interrupted : sat passive not_interrupted.
Proof. unfold not_interrupted, andM, notM, PM. solve_frame. Qed.
Hint Resolve passive_andM passive_orM passive_not_interrupted : frames.

(** A resume test that begins with a state test. *)
Lemma resume_test st (c : bool) s :
  st ∈ [Stalled; Playing] ->
  wp (andM (IsPlayerState st) (if c then not_interrupted else ret false)) s (fun b _ _ => b = true -> may_play s).
Proof.
  intros Hst. unfold andM, not_interrupted, notM. apply wp_bind.
  eapply wp_mono; [apply IsPlayerState_passive|]. cbn beta. intros b s1 t1 (-> & -> & _).
  destruct (m_PlayerState s == st) eqn:E; [|apply wp_ret; discriminate]. bools.
  destruct c; [|apply wp_ret; discriminate]. unfold andM, IsPlayerPendingState.
  wp_steps; bools; intros; bools; try discriminate. split_and!; [rewrite E; exact Hst | assumption..].
Qed.

Definition allowed (s : pipeline) (played : bool) : Prop := played = true -> may_play s.

(** Code that plays only when it may. *)
Definition polite {A} (m : PM A) : Prop := forall s, wp m s (fun _ _ t => plays t = true -> may_play s).

Lemma may_play_same s s1 :
  m_PlayerState s1 = m_PlayerState s -> m_PlayerPendingState s1 = m_PlayerPendingState s -> may_play s1 -> may_play s.
Proof. unfold may_play. intros -> ->. exact (fun H => H). Qed.

Lemma polite_passive {A} (m : PM A) : sat passive m -> polite m.
Proof. intros H s. apply (passive_quiet m s (allowed s)); [exact H | discriminate]. Qed.

Lemma polite_after {A B} (m : PM A) (k : A -> PM B) : sat passive m -> (forall a, polite (k a)) -> polite (bind m k).
Proof.
  intros Hm Hk s. apply (passive_then m k s (allowed s)); [exact Hm|]. intros a s1 HP HQ. eapply wp_mono; [apply Hk|]. cbn beta.
  intros _ _ t H Ht. eapply may_play_same; eauto.
Qed.

Lemma polite_InternalPause : polite InternalPause.
Proof. intros s. apply (InternalPause_plays s (allowed s)). discriminate. Qed.

Lemma polite_ret {A B} (m : PM A) (b : B) : polite m -> polite (m ;; ret b).
Proof.
  intros H s. apply wp_bind. eapply wp_mono; [apply H|]. cbn beta. intros _ s1 t Ht. apply wp_ret.
  rewrite app_nil_r. exact Ht.
Qed.

Lemma polite_if (b : bool) {A} (m k : PM A) : polite m -> polite k -> polite (if b then m else k).
Proof. destruct b; auto. Qed.

(** A play guarded by a test that implies [may_play]. *)
Lemma polite_guarded (test : PM bool) (tail : bool -> PM unit) :
  sat passive test -> (forall s, wp test s (fun b _ _ => b = true -> may_play s)) -> sat passive (tail false) ->
  polite (let* b := test in tail b).
Proof.
  intros Ht Hv Hf s. apply (passive_then_known test tail s (fun b => b = true -> may_play s) (allowed s)); [exact Ht | apply Hv|].
  intros [] s1 H1.
  - intros w _. apply H1. reflexivity.
  - apply (passive_quiet (tail false) s1 (allowed s)); [exact Hf | discriminate].
Qed.

Hint Extern 1 (sat passive (send_or_error _ _)) =>
  (apply passive_send_or_error; intros; split; reflexivity) : frames.

Lemma polite_UpdateBufferPosition : polite UpdateBufferPosition.
Proof.
  unfold UpdateBufferPosition, PM. do 2 (apply polite_after; [solve_frame | intros]).
  apply polite_if; [|apply polite_passive; solve_frame].
  apply polite_after; [solve_frame | intros [? ?]]. do 3 (apply polite_after; [solve_frame | intros]).
  apply polite_after; [solve_frame | intros [? ?]]. do 5 (apply polite_after; [solve_frame | intros]).
  fold not_interrupted. apply polite_guarded; [apply passive_andM; solve_frame | | solve_frame].
  intros s. apply resume_test. apply (bool_decide_unpack _); exact I.
Qed.

Lemma polite_HLSBufferResume bEOS : polite (HLSBufferResume bEOS).
Proof.
  unfold HLSBufferResume, PM. do 2 (apply polite_after; [solve_frame | intros]). fold not_interrupted.
  assert (Htest : forall s, wp (orM (andM (IsPlayerState Stalled) not_interrupted)
        (let* eos := gets m_bLastProgressValueEOS in
         if eos then andM (IsPlayerState Playing) not_interrupted else ret false)) s (fun b s' t => b = true -> may_play s)).
  { intros s. unfold orM. apply wp_bind.
    eapply wp_mono; [apply wp_conj; [apply (resume_test Stalled true) | apply passive_andM]; [apply (bool_decide_unpack _); exact I | solve_frame..]|].
    cbn beta. intros b s1 t1 [Hb (_ & P & R & _)%passive_inv]. destruct b; [apply wp_ret; exact Hb|].
    do 2 wp_step. destruct (m_bLastProgressValueEOS s1); [|apply wp_ret; discriminate].
    eapply wp_mono; [apply (resume_test Playing true); apply (bool_decide_unpack _); exact I|]. cbn beta.
    intros b s2 t2 H Hb'. eapply may_play_same; eauto. }
  intros s. apply (passive_then_known _ _ s (fun b => b = true -> may_play s) (allowed s)).
  - apply passive_orM; [apply passive_andM; solve_frame|]. solve_frame; apply passive_andM; solve_frame.
  - apply Htest.
  - intros b s1 Hb. apply (passive_then _ _ s1 (allowed s)); [solve_frame|]. intros _ s2 _ _. destruct b.
    + intros w _. apply Hb. reflexivity.
    + apply (passive_quiet _ s2 (allowed s)); [solve_frame | discriminate].
Qed.

Lemma polite_BufferUnderrun : polite BufferUnderrun.
Proof.
  unfold BufferUnderrun, PM. apply polite_after; [do 2 (apply passive_orM; [solve_frame|]); solve_frame | intros []]; [apply polite_passive; solve_frame|].
  apply polite_after; [solve_frame | intros]. apply polite_after; [solve_frame | intros [[? ?] ?]].
  do 6 (apply polite_after; [solve_frame | intros]).
  apply polite_if; [|apply polite_passive; solve_frame]. apply polite_after; [solve_frame | intros].
  apply polite_ret, polite_InternalPause.
Qed.

Lemma polite_HLSBufferStall : polite HLSBufferStall.
Proof.
  unfold HLSBufferStall, PM. apply polite_after; [solve_frame | intros []; cbn [negb]];
    [|apply polite_passive; solve_frame].
  apply polite_after; [solve_frame | intros]. apply polite_after; [solve_frame | intros [[? ?] ?]].
  do 3 (apply polite_after; [solve_frame | intros]). cbv zeta. apply polite_after; [solve_frame | intros].
  apply polite_if; [|apply polite_passive; solve_frame]. apply polite_after; [solve_frame | intros].
  apply polite_ret, polite_InternalPause.
Qed.

Lemma polite_on_application str : polite (on_application str).
Proof.
  unfold on_application, PM. apply polite_if.
  { cbv zeta. do 4 (apply polite_after; [solve_frame | intros]). exact polite_UpdateBufferPosition. }
  apply polite_if; [exact polite_BufferUnderrun|]. apply polite_if; [exact polite_HLSBufferStall|].
  do 2 (apply polite_if; [exact (polite_HLSBufferResume _)|]). apply polite_if.
  { do 3 (apply polite_after; [solve_frame | intros]). exact (polite_HLSBufferResume _). }
  apply polite_if; apply polite_passive; solve_frame.
Qed.

(** *** No message plays against the user's will *)

(** Code that never asks to play. *)
Definition mute (s s' : pipeline) (t : list obs) : Prop := plays t = false.
#[local] Instance mute_composable : Composable mute.
Proof.
  split; [reflexivity|]. intros s1 s2 s3 t1 t2 H1 H2. unfold mute in *. rewrite plays_app, H1, H2. reflexivity.
Qed.

Lemma mute_send_or_error (event : ext bool) c :
  (forall r, state_request (Obs event r) = None) -> sat mute (send_or_error event c).
Proof.
  intros He. unfold send_or_error, send_media_error, PM. apply sat_bind; [typeclasses eauto | |solve_sat ltac:(reflexivity)].
  apply sat_call. intros s r. apply plays_none, state_requests_none. constructor; [apply He | constructor].
Qed.
Lemma mute_passive {A} (m : PM A) : sat passive m -> sat mute m.
Proof. apply sat_mono. intros s s' t (_ & _ & _ & _ & H)%passive_inv. apply plays_none, H. Qed.
Hint Extern 1 (sat mute (send_or_error _ _)) => (apply mute_send_or_error; reflexivity) : frames.
Hint Extern 5 (sat mute _) => (apply mute_passive; solve [eauto 10 with frames nocore]) : frames.

(** Only the entry into [Stalled] plays. *)
Lemma SetPlayerState_plays st b s :
  st <> Stalled \/ m_PlayerState s = Stalled -> wp (SetPlayerState st b) s (fun _ s' t => mute s s' t).
Proof.
  intros Hst. apply wp_bind, wp_call. intros []. apply wp_bind, wp_gets. cbv zeta.
  assert (Hno : (st != m_PlayerState s) && (st == Stalled) = false).
  { destruct Hst as [H|H]; [rewrite (bool_decide_eq_false_2 _ H), andb_false_r; reflexivity|].
    rewrite H. destruct (st == Stalled); reflexivity. }
  rewrite Hno. cbn [andb orb].
  eapply wp_mono with (P := fun _ => mute s);
    [|cbn beta; intros _ s' t Ht; unfold mute; rewrite !plays_app, Ht; reflexivity].
  refine ((_ : sat mute _) s). unfold PM. solve_sat ltac:(reflexivity).
Qed.

Lemma next_player_state_stalls newState oldState s :
  wp (next_player_state newState oldState) s (fun r s' t =>
    plays t = false /\ m_PlayerState s' = m_PlayerState s /\
    (fst r = Stalled -> m_PlayerState s = Stalled \/ may_play s)).
Proof.
  unfold next_player_state, pause_reached, may_play. wp_steps; bools; cbn; split_and!; try reflexivity;
    intros; try discriminate; try congruence; auto.
  all: right; split_and!; [apply (bool_decide_unpack _); exact I | assumption..].
Qed.

Lemma polite_UpdatePlayerState newState oldState : polite (UpdatePlayerState newState oldState).
Proof.
  intros s. unfold UpdatePlayerState. apply wp_bind, wp_call. intros []. apply wp_bind.
  eapply wp_mono; [apply next_player_state_stalls|]. cbn beta. intros [st silent] s1 t1 (N & P & V). cbn [fst] in V.
  destruct (decide (st = Stalled /\ m_PlayerState s1 <> Stalled)) as [[H1 H2]|H].
  - destruct (V H1) as [V'|V']; [congruence|]. intros w _. exact V'.
  - apply wp_bind. eapply wp_mono; [apply SetPlayerState_plays; destruct (decide (st = Stalled)); [right | left; assumption];
      destruct (decide (m_PlayerState s1 = Stalled)); tauto|].
    cbn beta. intros _ s2 t2 M. apply wp_call. intros []. unfold mute in M. cbv beta. rewrite !plays_app, N, M. discriminate.
Qed.
Lemma polite_mute {A} (m : PM A) : sat mute m -> polite m.
Proof. intros H s. eapply wp_mono; [apply H|]. cbn beta. intros _ s' t Ht. rewrite Ht. discriminate. Qed.

Lemma polite_then_mute {A B} (m : PM A) (k : A -> PM B) : polite m -> (forall a, sat mute (k a)) -> polite (bind m k).
Proof.
  intros Hm Hk s. apply wp_bind. eapply wp_mono; [apply Hm|]. cbn beta. intros a s1 t1 H1.
  eapply wp_mono; [apply Hk|]. cbn beta. intros _ s2 t2 H2. rewrite plays_app, H2, orb_false_r. exact H1.
Qed.

Lemma polite_then {A B} (m : PM A) (k : A -> PM B) :
  polite m -> (forall s, wp m s (fun _ s' t => m_PlayerState s' = m_PlayerState s /\ m_PlayerPendingState s' = m_PlayerPendingState s)) ->
  (forall a, polite (k a)) -> polite (bind m k).
Proof.
  intros Hm Hs Hk s. apply wp_bind. eapply wp_mono; [apply wp_conj; [apply Hm | apply Hs]|]. cbn beta.
  intros a s1 t1 [H1 [P Q]]. eapply wp_mono; [apply Hk|]. cbn beta. intros _ s2 t2 H2. rewrite plays_app.
  intros [H|H]%orb_prop; [exact (H1 H) | exact (may_play_same _ _ P Q (H2 H))].
Qed.

Definition same_state : pipeline -> pipeline -> list obs -> Prop :=
  keeping (fun p => (m_PlayerState p, m_PlayerPendingState p)) (fun _ => True).
#[local] Instance same_state_composable : Composable same_state.
Proof. apply keeping_composable. Qed.
Lemma same_state_passive {A} (m : PM A) : sat passive m -> sat same_state m.
Proof.
  apply sat_mono. intros s s' t (_ & P & Q & _)%passive_inv. split; [congruence|]. apply Forall_true. intros; exact I.
Qed.
Lemma same_state_Play : sat same_state Play.
Proof. unfold Play, element, PM. solve_frame. Qed.
Hint Resolve same_state_Play : frames.
Hint Extern 5 (sat same_state _) => (apply same_state_passive; solve [eauto 10 with frames nocore]) : frames.
Lemma same_state_UpdateBufferPosition : sat same_state UpdateBufferPosition.
Proof. unfold UpdateBufferPosition, andM, notM, PM. solve_frame. Qed.

Lemma polite_on_state_changed src a b c : polite (on_state_changed src a b c).
Proof.
  unfold on_state_changed, PM.
  apply polite_after; [unfold update_clock, sink_ready, PM; solve_frame | intros].
  apply polite_after; [solve_frame | intros pipe].
  apply polite_after; [destruct (src == pipe); [unfold relevant_change, orM, andM, notM, PM|]; solve_frame | intros []];
    [|apply polite_passive; solve_frame].
  apply polite_after; [solve_frame | intros eos]. unfold when. destruct (_ && _).
  - apply polite_then; [exact polite_UpdateBufferPosition | | intros; exact (polite_UpdatePlayerState _ _)].
    intros s. eapply wp_mono; [apply same_state_UpdateBufferPosition|]. cbn beta. intros _ s' t [H _]. split; congruence.
  - apply polite_after; [solve_frame | intros; exact (polite_UpdatePlayerState _ _)].
Qed.

Lemma mute_SetPlayerState st b : st <> Stalled -> sat mute (SetPlayerState st b).
Proof. intros Hst s. apply SetPlayerState_plays. left. exact Hst. Qed.
Hint Extern 1 (sat mute (SetPlayerState _ _)) => (apply mute_SetPlayerState; discriminate) : frames.
Lemma mute_on_fatal_error e t : sat mute (on_fatal_error e t).
Proof. unfold on_fatal_error, PM. solve_sat ltac:(reflexivity). Qed.
Hint Resolve mute_on_fatal_error : frames.

Lemma polite_dispatch msg : polite (dispatch msg).
Proof.
  destruct msg; cbn [dispatch]; lazymatch goal with
  | |- polite (on_state_changed _ _ _ _) => exact (polite_on_state_changed _ _ _ _)
  | |- polite (on_application _) => exact (polite_on_application _)
  | |- _ => apply polite_mute; unfold on_duration_changed, on_eos, on_error, on_notice, on_element, PM;
            solve_sat ltac:(reflexivity)
  end.
Qed.

Lemma polite_BusCallback msg : polite (BusCallback msg).
Proof.
  unfold BusCallback, PM. do 2 (apply polite_after; [solve_frame | intros]).
  do 2 (apply polite_if; [apply polite_passive; solve_frame|]).
  apply polite_then_mute; [exact (polite_dispatch msg) | solve_sat ltac:(reflexivity)].
Qed.
End Stalls.

(** No bus message plays against the user's will.  Whatever message the
    bus delivers, in whatever state and environment, if handling it asks
    GStreamer for the playing state then the player was [Stalled] or [Playing]
    and neither a pause nor a stop was waiting to complete. *)
Theorem messages_resume_only_stalls `{Env} (msg : GstMessage) (s : pipeline) (w : world)
    (Hplays : plays (otrace (BusCallback msg s w)) = true) :
  m_PlayerState s ∈ [Stalled; Playing] /\ m_PlayerPendingState s <> Paused /\ m_PlayerPendingState s <> Stopped.
Proof. exact (polite_BusCallback msg s w Hplays). Qed.

Definition hls_message (name : string) : GstMessage := GST_MESSAGE_APPLICATION (mkStructure name []).

Lemma messages_resume_only_stalls_witness :
  plays (otrace (@BusCallback (nominal_env TargetLinux) (hls_message HLS_PB_MESSAGE_RESUME)
                   (player AVPlayback Stalled) tt)) = true /\
  m_PlayerPendingState (player AVPlayback Stalled) <> Paused.
Proof.
  split; [vm_compute; reflexivity|].
  exact (proj1 (proj2 (@messages_resume_only_stalls (nominal_env TargetLinux) (hls_message HLS_PB_MESSAGE_RESUME)
                         (player AVPlayback Stalled) tt ltac:(vm_compute; reflexivity)))).
Defined.

(** ** Stalling *)

(** The state and pending state GStreamer first reports in a trace. *)
Definition state_answer (o : obs) : option (GstState * GstState) :=
  match o with
  | Obs c r => match c in ext R return R -> option (GstState * GstState) with
               | gst_element_get_state _ => fun a => let '(_, state, pending) := a in Some (state, pending)
               | _ => fun _ => None
               end r
  end.
Definition first_state (t : list obs) : option (GstState * GstState) := head (omap state_answer t).

(** When a message about missing data must pause the player. *)
Definition must_stall (name : string) (s : pipeline) (a : option (GstState * GstState)) : bool :=
  match a with
  | Some (state, pending) =>
      (state == GST_STATE_PLAYING) && negb (m_bLastProgressValueEOS s) &&
      if (name =? PB_MESSAGE_UNDERRUN)%string
      then (m_BufferPosition s >. d_zero) && (pending != GST_STATE_PAUSED)
      else (pending == GST_STATE_VOID_PENDING) && negb (m_bHLSPBFull s)
  | None => false
  end.

Section Stalling.
Context `{EV : Env}.

Definition keeps_stall : pipeline -> pipeline -> list obs -> Prop := keeping m_StallOnPause (fun _ => True).
#[local] Instance keeps_stall_composable : Composable keeps_stall.
Proof. apply keeping_composable. Qed.
Lemma InternalPause_keeps_stall : sat keeps_stall InternalPause.
Proof.
  unfold InternalPause, CheckQueueSize, AV_CheckQueueSize, grow_queue, queue_full, IsPlayerState, element, PM. solve_frame.
Qed.

(** The player is pausing for lack of data. *)
Definition stalling (s s' : pipeline) (t : list obs) : Prop :=
  state_requests t = [(elem s PIPELINE, GST_STATE_PAUSED)] /\ announcements t = [] /\
  m_PlayerState s' = m_PlayerState s /\ m_PlayerPendingState s' = m_PlayerPendingState s /\
  fixed s' = fixed s /\ m_StallOnPause s' = true.

Lemma stall_pause s :
  (f_zero ==. m_fRate s) = false -> m_PlayerState s = Playing ->
  wp (m_StallOnPause <~ true ;; InternalPause ;; ret tt) s (fun _ s' t => stalling s s' t).
Proof.
  intros Hrate Hs. do 2 wp_step. apply wp_bind. eapply wp_mono.
  { apply wp_conj; [apply InternalPause_spec | apply InternalPause_keeps_stall]; [exact Hrate | ..];
      change (m_PlayerState (set m_StallOnPause (fun _ => true) s)) with (m_PlayerState s); rewrite Hs;
      [discriminate | left; discriminate]. }
  cbn beta. intros r s1 t1 [(R & A & P & Q & F & _) [K _]]. wp_step. unfold stalling.
  rewrite !state_requests_app, !announcements_app, R, A, P, Q, F, K. split_and!; reflexivity.
Qed.

(** What the decision depends on is kept. *)
Definition frozen : pipeline -> pipeline -> list obs -> Prop :=
  keeping (fun p => (fixed p, m_PlayerState p, m_PlayerPendingState p, m_fRate p,
                     (m_bLastProgressValueEOS p, m_bHLSPBFull p, m_BufferPosition p)))
    (fun o => announced o = None /\ state_request o = None).
#[local] Instance frozen_composable : Composable frozen.
Proof. apply keeping_composable. Qed.
Lemma frozen_passive s s' t : frozen s s' t -> passive s s' t.
Proof. intros [H1 H2]. split; [congruence | exact H2]. Qed.

Lemma frozen_IsPlayerState st : sat frozen (IsPlayerState st).
Proof. unfold IsPlayerState, PM. solve_frame. Qed.
Lemma frozen_GetStreamTime : sat frozen GetStreamTime.
Proof. unfold GetStreamTime, GetDuration, IsPlayerState, element, PM. solve_frame. Qed.
Hint Resolve frozen_IsPlayerState frozen_GetStreamTime : frames.

Definition stall_or_not (name : string) (s s' : pipeline) (t : list obs) : Prop :=
  if must_stall name s (first_state t) then stalling s s' t else passive s s' t.

(** The rest [m] of a handler that began in [s] and is now in [s1] after the
    trace [t0]. *)
Definition stalls_from (name : string) (s : pipeline) {A} (m : PM A) (s1 : pipeline) (t0 : list obs) : Prop :=
  wp m s1 (fun _ s' t => stall_or_not name s s' (t0 ++ t)).

Lemma first_state_app t1 t2 :
  first_state (t1 ++ t2) = match first_state t1 with Some a => Some a | None => first_state t2 end.
Proof. unfold first_state. rewrite omap_app. destruct (omap state_answer t1); reflexivity. Qed.

Lemma stalls_bind name s {A B} (m : PM A) (k : A -> PM B) s1 t0 :
  wp m s1 (fun a s2 t1 => stalls_from name s (k a) s2 (t0 ++ t1)) -> stalls_from name s (bind m k) s1 t0.
Proof.
  intros H. apply wp_bind. eapply wp_mono; [exact H|]. cbn beta. intros a s2 t1 H2.
  eapply wp_mono; [exact H2|]. cbn beta. intros b s3 t2. rewrite app_assoc. exact (fun x => x).
Qed.

(** A step that keeps what the decision depends on, once the answer is known. *)
Lemma stalls_step name s a {A B} (m : PM A) (k : A -> PM B) s1 t0 :
  sat frozen m -> frozen s s1 t0 -> first_state t0 = Some a ->
  (forall x s2 t1, frozen s s2 t1 -> first_state t1 = Some a -> stalls_from name s (k x) s2 t1) ->
  stalls_from name s (bind m k) s1 t0.
Proof.
  intros Hm H0 Ha Hk. apply stalls_bind. eapply wp_mono; [apply Hm|]. cbn beta. intros x s2 t1 H1.
  apply Hk; [eapply comp_trans; eassumption | rewrite first_state_app, Ha; reflexivity].
Qed.

(** The decision itself. *)
Lemma stalls_decide name s s1 t0 a (b : bool) :
  frozen s s1 t0 -> first_state t0 = Some a -> b = must_stall name s (Some a) ->
  (f_zero ==. m_fRate s) = false -> m_PlayerState s = Playing ->
  stalls_from name s (if b then m_StallOnPause <~ true ;; InternalPause ;; ret tt else ret tt) s1 t0.
Proof.
  intros Hf Ha -> Hrate Hs. unfold stalls_from, stall_or_not. pose proof (frozen_passive _ _ _ Hf) as Hpas.
  destruct (passive_inv _ _ _ Hpas) as (F & P & Q & A & R). destruct (must_stall name s (Some a)) eqn:E.
  - eapply wp_mono; [apply stall_pause; destruct Hpas as [Ht _]; congruence|]. cbn beta.
    intros _ s2 t2 (R2 & A2 & P2 & Q2 & F2 & K2). rewrite first_state_app, Ha, E. unfold stalling, elem in *.
    rewrite state_requests_app, announcements_app, R, A, R2, A2.
    assert (E1 : m_Elements s1 = m_Elements s) by (unfold fixed in F; congruence). rewrite E1.
    split_and!; (reflexivity || congruence).
  - wp_step. rewrite first_state_app, Ha, E, app_nil_r. exact Hpas.
Qed.

Lemma stalls_test name s b {A} (m : PM bool) (k : bool -> PM A) s1 t0 :
  sat frozen m -> wp m s1 (fun x _ t => x = b /\ first_state t = None) ->
  frozen s s1 t0 -> first_state t0 = None ->
  (forall s2 t1, frozen s s2 t1 -> first_state t1 = None -> stalls_from name s (k b) s2 t1) ->
  stalls_from name s (bind m k) s1 t0.
Proof.
  intros Hm Hv H0 Ha Hk. apply stalls_bind. eapply wp_mono; [apply wp_conj; [apply Hm | apply Hv]|]. cbn beta.
  intros x s2 t1 (H1 & -> & N). apply Hk; [eapply comp_trans; eassumption | rewrite first_state_app, Ha; exact N].
Qed.

Lemma frozen_inv s s1 t :
  frozen s s1 t -> m_PlayerState s1 = m_PlayerState s /\ m_bLastProgressValueEOS s1 = m_bLastProgressValueEOS s /\
  m_bHLSPBFull s1 = m_bHLSPBFull s /\ m_BufferPosition s1 = m_BufferPosition s.
Proof. intros [H _]. split_and!; congruence. Qed.

Lemma IsPlayerState_silent st s : wp (IsPlayerState st) s (fun b _ t => b = (m_PlayerState s == st) /\ first_state t = None).
Proof. unfold IsPlayerState. wp_steps. split; reflexivity. Qed.

Lemma HLSBufferStall_spec s :
  (f_zero ==. m_fRate s) = false -> m_PlayerState s = Playing ->
  stalls_from HLS_PB_MESSAGE_STALL s HLSBufferStall s [].
Proof.
  intros Hrate Hs. unfold HLSBufferStall.
  eapply stalls_test with (b := true);
    [solve_frame | | apply comp_refl | reflexivity |].
  { eapply wp_mono; [apply IsPlayerState_silent|]. cbn beta. rewrite Hs. exact (fun _ _ _ H => H). }
  intros s1 t1 F1 N1. cbn [negb]. apply stalls_bind, wp_gets.
  apply stalls_bind. apply wp_call. intros [[? state] pending].
  assert (F2 : frozen s s1 ((t1 ++ []) ++ [Obs (gst_element_get_state (elem s1 PIPELINE)) (g, state, pending)]))
    by (rewrite app_nil_r; eapply comp_trans; [exact F1 | frame_side]).
  eapply (stalls_step _ _ (state, pending)); [solve_frame | exact F2 | rewrite app_nil_r, first_state_app, N1; reflexivity|].
  intros [] s3 t3 F3 N3. apply stalls_bind, wp_gets. rewrite app_nil_r. apply stalls_bind, wp_gets. rewrite app_nil_r. cbv zeta.
  apply (stalls_step _ _ (state, pending)); [solve_frame | exact F3 | exact N3|]. intros [] s4 t4 F4 N4.
  apply (stalls_decide _ _ _ _ (state, pending)); [exact F4 | exact N4 | | exact Hrate | exact Hs].
  destruct (frozen_inv _ _ _ F3) as (_ & -> & -> & _). cbn.
  destruct (state == _), (pending == _), (m_bLastProgressValueEOS s), (m_bHLSPBFull s); reflexivity.
Qed.

Lemma BufferUnderrun_spec s :
  (f_zero ==. m_fRate s) = false -> m_PlayerState s = Playing ->
  stalls_from PB_MESSAGE_UNDERRUN s BufferUnderrun s [].
Proof.
  intros Hrate Hs. unfold BufferUnderrun.
  eapply stalls_test with (b := false); [unfold orM, PM; solve_frame | | apply comp_refl | reflexivity |].
  { unfold orM, IsPlayerState. wp_steps; rewrite ?Hs in *; (discriminate || split; reflexivity). }
  intros s1 t1 F1 N1. apply stalls_bind, wp_gets. apply stalls_bind. apply wp_call. intros [[? state] pending].
  assert (F2 : frozen s s1 ((t1 ++ []) ++ [Obs (gst_element_get_state (elem s1 PIPELINE)) (g, state, pending)]))
    by (rewrite app_nil_r; eapply comp_trans; [exact F1 | frame_side]).
  assert (N2 : first_state ((t1 ++ []) ++ [Obs (gst_element_get_state (elem s1 PIPELINE)) (g, state, pending)])
               = Some (state, pending)) by (rewrite app_nil_r, first_state_app, N1; reflexivity).
  apply stalls_bind. eapply wp_mono; [apply wp_conj; [apply IsPlayerState_silent | apply frozen_IsPlayerState]|].
  cbn beta. intros b s2 t2 [[-> _] F2']. destruct (frozen_inv _ _ _ F2) as [-> _]. rewrite Hs.
  eapply (stalls_step _ _ (state, pending));
    [solve_frame | eapply comp_trans; eassumption | rewrite first_state_app, N2; reflexivity|].
  intros _ s3 t3 F3 N3. apply (stalls_step _ _ (state, pending)); [solve_frame | exact F3 | exact N3|].
  intros [] s4 t4 F4 N4. apply stalls_bind, wp_gets. rewrite app_nil_r. apply stalls_bind, wp_gets. rewrite app_nil_r.
  cbv zeta. apply (stalls_step _ _ (state, pending)); [solve_frame | exact F4 | exact N4|]. intros [] s5 t5 F5 N5.
  apply (stalls_decide _ _ _ _ (state, pending)); [exact F5 | exact N5 | | exact Hrate | exact Hs].
  destruct (frozen_inv _ _ _ F4) as (_ & -> & _ & ->). cbn.
  destruct (_ <. _), (state == _), (pending == _), (m_bLastProgressValueEOS s); reflexivity.
Qed.

Lemma dispatch_stall str s :
  gs_name str ∈ [PB_MESSAGE_UNDERRUN; HLS_PB_MESSAGE_STALL] ->
  (f_zero ==. m_fRate s) = false -> m_PlayerState s = Playing ->
  wp (dispatch (GST_MESSAGE_APPLICATION str)) s (fun _ => stall_or_not (gs_name str) s).
Proof.
  intros Hn Hrate Hs. unfold dispatch, on_application, gst_structure_has_name.
  apply elem_of_cons in Hn as [->|Hn]; [|apply list_elem_of_singleton in Hn as ->].
  - exact (BufferUnderrun_spec s Hrate Hs).
  - exact (HLSBufferStall_spec s Hrate Hs).
Qed.

Lemma BusCallback_stall str s :
  gs_name str ∈ [PB_MESSAGE_UNDERRUN; HLS_PB_MESSAGE_STALL] ->
  (f_zero ==. m_fRate s) = false -> m_PlayerState s = Playing ->
  m_bIsDisposed (content s) = false -> m_bIsDisposeInProgress (content s) = false ->
  wp (BusCallback (GST_MESSAGE_APPLICATION str)) s (fun _ s' t =>
    if must_stall (gs_name str) s (first_state t) then stalling s s' t else passive s s' t).
Proof.
  intros Hn Hrate Hs Hd Hp. unfold BusCallback. apply wp_bind, wp_call. intros []. apply wp_bind, wp_gets. rewrite Hd, Hp.
  apply wp_bind. eapply wp_mono; [exact (dispatch_stall str s Hn Hrate Hs)|]. cbn beta. intros _ s' t H.
  apply wp_bind, wp_call. intros []. wp_step. rewrite app_nil_r. unfold stall_or_not in H. cbn [app].
  assert (Hf : first_state (Obs (lock_enter DisposeLock) tt :: t ++ [Obs (lock_exit DisposeLock) tt]) = first_state t).
  { change (?x :: t ++ ?y) with ([x] ++ t ++ y). rewrite !first_state_app. cbn. destruct (first_state t); reflexivity. }
  rewrite Hf. destruct (must_stall _ _ _).
  - unfold stalling in *. change (?x :: t ++ ?y) with ([x] ++ t ++ y). rewrite !state_requests_app, !announcements_app.
    destruct H as (R & A & H). rewrite R, A. split_and!; [reflexivity..|apply H|apply H|apply H|apply H].
  - destruct H as [H1 H2]. split; [exact H1|]. constructor; [split; reflexivity|]. apply Forall_app. split; [exact H2 | repeat constructor].
Qed.
End Stalling.

(** Stalling for lack of data.  When a progress buffer reports an underrun
    (or a live stream a stall) to a playing player, the engine pauses the
    pipeline exactly when GStreamer says it plays, more data is expected and, for
    an underrun, something was buffered and no pause is under way (for a live
    stream, nothing is pending and the buffer is not full).  The pause is asked
    for once and nothing is announced; when it is reached the player is
    [Stalled], and that is announced once.  Otherwise nothing is asked and the
    player keeps playing. *)
Theorem stall_completes `{Env} (str : GstStructure) (s : pipeline) (w : world)
    (Hname : gs_name str ∈ [PB_MESSAGE_UNDERRUN; HLS_PB_MESSAGE_STALL])
    (Hst : m_PlayerState s = Playing) (Hrate : (f_zero ==. m_fRate s) = false)
    (Hpend : m_PlayerPendingState s <> Stopped /\ m_PlayerPendingState s <> Paused)
    (Hd : m_bIsDisposed (content s) = false) (Hp : m_bIsDisposeInProgress (content s) = false) :
  let o1 := BusCallback (GST_MESSAGE_APPLICATION str) s w in
  let o2 := BusCallback (paused_message s) (ostate o1) (oworld o1) in
  announcements (otrace o1) = [] /\
  if must_stall (gs_name str) s (first_state (otrace o1))
  then state_requests (otrace o1) = [(elem s PIPELINE, GST_STATE_PAUSED)] /\ m_PlayerState (ostate o2) = Stalled /\
       announcements (otrace o2) = if m_pEventDispatcher s then [Stalled] else []
  else state_requests (otrace o1) = [] /\ m_PlayerState (ostate o1) = Playing.
Proof.
  cbv zeta. pose proof (BusCallback_stall str s Hname Hrate Hst Hd Hp w) as H1. cbv beta in H1.
  destruct (must_stall _ _ _); [|apply passive_inv in H1 as (_ & P & _ & A & R); split_and!; congruence].
  destruct H1 as (R & A & P & Q & F & K). rewrite <- (fixed_message _ _ F). split_and!; [exact A | exact R |..].
  all: destruct (BusCallback_halts (ostate (BusCallback (GST_MESSAGE_APPLICATION str) s w)) ltac:(congruence)
              ltac:(rewrite (fixed_content _ _ F); exact Hd) ltac:(rewrite (fixed_content _ _ F); exact Hp)
              (oworld (BusCallback (GST_MESSAGE_APPLICATION str) s w))) as (P2 & _ & A2).
  all: unfold halted in P2, A2; destruct Hpend as [H1 H2].
  all: rewrite K, Q, (bool_decide_eq_false_2 _ H1), (bool_decide_eq_false_2 _ H2) in P2, A2.
  all: cbn [negb andb] in P2, A2; rewrite ?(fixed_dispatcher _ _ F) in A2; assumption.
Qed.

Lemma stall_completes_witness :
  let E := nominal_env TargetLinux in
  let s := player AVPlayback Playing in
  let o1 := @BusCallback E (hls_message HLS_PB_MESSAGE_STALL) s tt in
  let o2 := @BusCallback E (paused_message s) (ostate o1) (oworld o1) in
  must_stall HLS_PB_MESSAGE_STALL s (first_state (otrace o1)) = true /\
  m_PlayerState (ostate o2) = Stalled /\ announcements (otrace o2) = [Stalled].
Proof.
  pose proof (@stall_completes (nominal_env TargetLinux) (mkStructure HLS_PB_MESSAGE_STALL []) (player AVPlayback Playing) tt
                ltac:(apply (bool_decide_unpack _); exact I) ltac:(reflexivity) ltac:(reflexivity)
                ltac:(split; discriminate) ltac:(reflexivity) ltac:(reflexivity)) as (_ & H).
  cbv zeta. split; [vm_compute; reflexivity | exact (proj2 H)].
Defined.
