(* ===== verification/Frames.v ===== *)
(** * Delivery of video frames

    What the app-sink callbacks of [AppSink] hand to the Java side: which frame,
    with which time stamp, in which memory; and that each sample taken from the
    sink is released exactly once. *)

From S2P Require Import Prelude CFloat MediaTypes GstApi VideoFrame Effects PipelineState AppSink StateMachine Playback.

Local Open Scope Z_scope.

(** ** Views of a trace *)

Definition frame_sent (o : obs) : option CVideoFrame :=
  match o with Obs (SendNewFrameEvent f) _ => Some f | _ => None end.
Definition frames_sent (t : list obs) : list CVideoFrame := omap frame_sent t.

Definition sample_released (o : obs) : option unit :=
  match o with Obs gst_sample_unref _ => Some tt | _ => None end.
Definition releases (t : list obs) : nat := List.length (omap sample_released t).

(** The sample taken from the sink. *)
Definition sample_taken (o : obs) : option GstSample :=
  match o with
  | Obs c r => match c in ext R return R -> option GstSample with
               | gst_app_sink_pull_sample _ => fun s => s
               | gst_app_sink_pull_preroll _ => fun s => s
               | _ => fun _ => None
               end r
  end.
Definition taken (t : list obs) : option GstSample := head (omap sample_taken t).

(** A buffer with its time relative to the first frame's. *)
Definition rebased (first : Z) (b : GstBuffer) : GstBuffer := set_pts b (rebase first (gb_pts b)).

(** The frame a sample gives, if it gives a valid one. *)
Definition frame_of (p : Platform) (first : Z) (sample : GstSample) : option CVideoFrame :=
  match sample_buffer sample with
  | None => None
  | Some b =>
      let '(ok, f) := Init p (mkSample (Some (rebased first b)) (sample_caps sample)) new_CGstVideoFrame in
      if ok && IsValid f then Some f else None
  end.

(** ** Calls that have nothing to do with frames *)

Definition unframed (o : obs) : Prop := frame_sent o = None /\ sample_released o = None /\ sample_taken o = None.
Definition aside : pipeline -> pipeline -> list obs -> Prop := keeping (fun p => (m_FirstPTS p, m_pEventDispatcher p)) unframed.
#[export] Instance aside_composable : Composable aside.
Proof. apply keeping_composable. Qed.

Lemma omap_none {A B} (f : A -> option B) l : Forall (fun x => f x = None) l -> omap f l = [].
Proof. induction 1 as [|x l Hx Hl IH]; [reflexivity|]. cbn. rewrite Hx. exact IH. Qed.

Lemma frames_sent_app t1 t2 : frames_sent (t1 ++ t2) = frames_sent t1 ++ frames_sent t2.
Proof. apply omap_app. Qed.
Lemma releases_app t1 t2 : releases (t1 ++ t2) = (releases t1 + releases t2)%nat.
Proof. unfold releases. rewrite omap_app, length_app. reflexivity. Qed.
Lemma taken_app t1 t2 : taken (t1 ++ t2) = match taken t1 with Some x => Some x | None => taken t2 end.
Proof. unfold taken. rewrite omap_app. destruct (omap sample_taken t1); reflexivity. Qed.

Lemma aside_inv s s' t :
  aside s s' t -> m_FirstPTS s' = m_FirstPTS s /\ m_pEventDispatcher s' = m_pEventDispatcher s /\
  frames_sent t = [] /\ releases t = 0%nat /\ taken t = None.
Proof.
  intros [H1 H2]. unfold frames_sent, releases, taken.
  rewrite !omap_none by (eapply Forall_impl; [exact H2|]; intros o (? & ? & ?); assumption).
  split_and!; (congruence || reflexivity).
Qed.

Section Delivery.
Context `{EV : Env}.

Lemma aside_check_discont sample b : sat aside (check_discont sample b).
Proof. unfold check_discont, OnAppSinkVideoFrameDiscont, send_media_error, PM. solve_frame. Qed.

Lemma rebase_buffer_spec b s :
  wp (rebase_buffer b) s (fun b' s' t => b' = rebased (m_FirstPTS s) b /\ s' = s /\ aside s s' t).
Proof.
  unfold rebase_buffer, rebased, rebase.
  wp_steps; (split_and!; [|reflexivity|frame_side]); [reflexivity | destruct b; reflexivity].
Qed.

(** [send_frame] sends the frame of the sample if it is valid and there is
    someone to send it to, and releases the sample. *)
Lemma send_frame_spec sample b dispatcher s :
  wp (send_frame sample b dispatcher) s (fun _ s' t =>
    s' = s /\ releases t = 1%nat /\ taken t = None /\
    frames_sent t = let '(ok, f) := Init platform (mkSample (Some b) (sample_caps sample)) new_CGstVideoFrame in
                    if ok && IsValid f && dispatcher then [f] else []).
Proof.
  unfold send_frame, send_or_error, send_media_error.
  destruct (Init platform _ _) as [[] f]; cbn [negb andb]; wp_steps; bools; split_and!; reflexivity.
Qed.

(** What is known after a sample was taken, for a first time [first]. *)
Definition delivered (first : Z) (dispatcher : bool) (t : list obs) : Prop :=
  releases t = match taken t with Some _ => 1%nat | None => 0%nat end /\
  frames_sent t = match taken t with
                  | Some sample => if dispatcher then option_list (frame_of platform first sample) else []
                  | None => []
                  end.

Lemma delivered_intro first (dispatcher : bool) sample o t :
  taken [o] = Some sample -> frames_sent [o] = [] -> releases [o] = 0%nat -> releases t = 1%nat ->
  frames_sent t = (if dispatcher then option_list (frame_of platform first sample) else []) ->
  delivered first dispatcher ([o] ++ t).
Proof.
  intros T F R R2 F2. unfold delivered. rewrite releases_app, frames_sent_app, taken_app, T, F, R, R2, F2. split; reflexivity.
Qed.

(** The tail the two callbacks share, after a prefix [t0]. *)
Lemma send_rebased sample b first (dispatcher : bool) s {A} (a : A) :
  sample_buffer sample = Some b ->
  wp (send_frame sample (rebased first b) dispatcher ;; ret a) s (fun _ s' t =>
    s' = s /\ releases t = 1%nat /\ frames_sent t = if dispatcher then option_list (frame_of platform first sample) else []).
Proof.
  intros Hb. apply wp_bind. eapply wp_mono; [apply send_frame_spec|]. cbn beta. intros _ s2 t2 (-> & R2 & T2 & F2). wp_step.
  rewrite !releases_app, !frames_sent_app, R2, F2. unfold frame_of. rewrite Hb.
  split_and!; [reflexivity..|]. destruct (Init _ _ _) as [ok f]. destruct ok, (IsValid f), dispatcher; reflexivity.
Qed.

Lemma frame_of_none first sample : sample_buffer sample = None -> frame_of platform first sample = None.
Proof. unfold frame_of. intros ->. reflexivity. Qed.

Lemma OnAppSinkHaveFrame_spec e s :
  wp (OnAppSinkHaveFrame e) s (fun _ _ t => delivered (m_FirstPTS s) (m_pEventDispatcher s) t).
Proof.
  unfold OnAppSinkHaveFrame. apply wp_bind, wp_call. intros [sample|]; [|wp_step; split; reflexivity].
  destruct (sample_buffer sample) as [b|] eqn:Hb.
  - apply wp_bind. eapply wp_mono; [apply aside_check_discont|]. cbn beta.
    intros _ s1 t1 (P1 & D1 & F1 & R1 & T1)%aside_inv.
    apply wp_bind. eapply wp_mono; [apply rebase_buffer_spec|]. cbn beta.
    intros b' s2 t2 (-> & -> & (_ & _ & F2 & R2 & T2)%aside_inv). apply wp_bind, wp_gets.
    eapply wp_mono; [apply send_rebased, Hb|]. cbn beta. intros _ s3 t3 (_ & R3 & F3).
    apply (delivered_intro _ _ sample); [reflexivity..| |]; rewrite ?releases_app, ?frames_sent_app, ?R1, ?R2, ?R3, ?F1, ?F2, ?F3.
    + reflexivity.
    + rewrite P1, D1. reflexivity.
  - wp_steps. unfold delivered. cbn. rewrite (frame_of_none _ _ Hb). split; [reflexivity|]. destruct (m_pEventDispatcher s); reflexivity.
Qed.

(** The time of the first frame, as [OnAppSinkPreroll] remembers it. *)
Definition first_time (first : Z) (b : GstBuffer) : Z :=
  if (first =? GST_CLOCK_TIME_NONE) && negb (gb_pts b =? GST_CLOCK_TIME_NONE) then gb_pts b else first.

Definition prerolled (s s' : pipeline) (t : list obs) : Prop :=
  releases t = 1%nat /\
  match taken t with
  | Some (mkSample (Some b) caps) =>
      m_FirstPTS s' = first_time (m_FirstPTS s) b /\
      frames_sent t = if m_pEventDispatcher s
                      then option_list (frame_of platform (first_time (m_FirstPTS s) b) (mkSample (Some b) caps)) else []
  | _ => m_FirstPTS s' = m_FirstPTS s /\ frames_sent t = []
  end.

Lemma remember_first s b :
  wp (when ((m_FirstPTS s =? GST_CLOCK_TIME_NONE) && negb (gb_pts b =? GST_CLOCK_TIME_NONE)) (m_FirstPTS <~ gb_pts b)) s
    (fun _ s' t => m_FirstPTS s' = first_time (m_FirstPTS s) b /\ m_pEventDispatcher s' = m_pEventDispatcher s /\ t = []).
Proof. unfold first_time. wp_steps; split_and!; reflexivity. Qed.

Lemma OnAppSinkPreroll_spec e s : wp (OnAppSinkPreroll e) s (fun _ s' t => prerolled s s' t).
Proof.
  unfold OnAppSinkPreroll. apply wp_bind, wp_call.
  intros [[[b|] caps]|]; cbn [option_map sample_buffer]; [|wp_steps; unfold prerolled; cbn; split_and!; reflexivity..].
  set (sample := {| sample_buffer := Some b; sample_caps := caps |}).
  apply wp_bind, wp_gets. apply wp_bind. eapply wp_mono; [apply remember_first|]. cbn beta. intros _ s1 t1 (P1 & D1 & ->).
  apply wp_bind. eapply wp_mono; [apply aside_check_discont|]. cbn beta. intros _ s2 t2 (P2 & D2 & F2 & R2 & T2)%aside_inv.
  apply wp_bind, wp_gets. unfold prerolled. rewrite <- D1, <- D2. destruct (m_pEventDispatcher s2).
  - apply wp_bind. eapply wp_mono; [apply rebase_buffer_spec|]. cbn beta.
    intros b' s3 t3 (-> & -> & (_ & _ & F3 & R3 & T3)%aside_inv).
    eapply wp_mono; [apply (send_rebased sample b); reflexivity|]. cbn beta. intros _ s4 t4 (-> & R4 & F4).
    rewrite !releases_app, !frames_sent_app, taken_app, R2, R3, R4, F2, F3, F4. cbn.
    split_and!; [reflexivity | congruence |]. rewrite P2, P1. reflexivity.
  - wp_steps. rewrite !releases_app, !frames_sent_app, taken_app, R2, F2. cbn. split_and!; [reflexivity | congruence | reflexivity].
Qed.
End Delivery.

(** ** Frames in memory and in time *)

(** The frame's planes lie in the buffer [b]. *)
Definition in_buffer (b : GstBuffer) (f : CVideoFrame) : Prop :=
  forall i, (i < Z.to_nat (m_uiPlaneCount f))%nat ->
  gb_data b <= GetDataForPlane (Z.of_nat i) f /\
  GetDataForPlane (Z.of_nat i) f + GetSizeForPlane (Z.of_nat i) f <= gb_data b + gb_size b.

Lemma frame_of_inv p first sample f :
  frame_of p first sample = Some f ->
  exists b, sample_buffer sample = Some b /\ IsValid f = true /\ m_dTime f = buffer_time (rebased first b) /\
  (0 <= gb_size b -> in_buffer b f).
Proof.
  unfold frame_of. destruct (sample_buffer sample) as [b|]; [|discriminate].
  destruct (Init _ _ _) as [[] g] eqn:Ei; cbn [andb]; [|discriminate].
  destruct (IsValid g) eqn:Ev; [|discriminate]. intros [= <-]. exists b.
  split_and!; [reflexivity | exact Ev | exact (Init_time _ _ _ _ Ei eq_refl) |].
  intros Hs i Hi. destruct (Init_plane_bounds _ _ _ _ Ei eq_refl Hs Ev i Hi) as (H1 & H2 & _). split; assumption.
Qed.

(** Every frame of a trace comes from the sample taken. *)
Definition sound_frames (first : Z) (t : list obs) : Prop :=
  forall f, f ∈ frames_sent t ->
  exists sample b, taken t = Some sample /\ sample_buffer sample = Some b /\ IsValid f = true /\
  m_dTime f = buffer_time (rebased first b) /\ (0 <= gb_size b -> in_buffer b f).

Lemma sound_frames_intro p first t (d : bool) sample :
  taken t = Some sample -> frames_sent t = (if d then option_list (frame_of p first sample) else []) -> sound_frames first t.
Proof.
  intros Ht Hf f Hin. rewrite Hf in Hin. destruct d; [|apply elem_of_nil in Hin; contradiction].
  destruct (frame_of p first sample) as [g|] eqn:E; cbn in Hin; [|apply elem_of_nil in Hin; contradiction].
  apply list_elem_of_singleton in Hin as ->. destruct (frame_of_inv _ _ _ _ E) as (b & Hb & H). exists sample, b. auto.
Qed.

Section Sound.
Context `{EV : Env}.

Lemma HaveFrame_sound e s w : sound_frames (m_FirstPTS s) (otrace (OnAppSinkHaveFrame e s w)).
Proof.
  destruct (OnAppSinkHaveFrame_spec e s w) as [_ H]. destruct (taken _) as [sample|] eqn:T.
  - eapply sound_frames_intro; eassumption.
  - intros f Hf. rewrite H in Hf. apply elem_of_nil in Hf. contradiction.
Qed.

Lemma Preroll_sound e s w :
  sound_frames (m_FirstPTS (ostate (OnAppSinkPreroll e s w))) (otrace (OnAppSinkPreroll e s w)).
Proof.
  destruct (OnAppSinkPreroll_spec e s w) as [_ H]. destruct (taken _) as [[[b|] caps]|] eqn:T.
  - destruct H as [-> H]. eapply sound_frames_intro; eassumption.
  - destruct H as [_ H]. intros f Hf. rewrite H in Hf. apply elem_of_nil in Hf. contradiction.
  - destruct H as [_ H]. intros f Hf. rewrite H in Hf. apply elem_of_nil in Hf. contradiction.
Qed.
End Sound.

(** Delivery of rendered frames.  Each time the sink has a frame, the
    engine takes one sample and releases it exactly once, whatever goes wrong;
    it sends Java exactly one frame if the sample has a buffer that can be mapped
    and caps that make a valid frame, and none otherwise. *)
Theorem frame_delivered_once `{Env} (e : ptr) (s : pipeline) (w : world) :
  let t := otrace (OnAppSinkHaveFrame e s w) in
  releases t = match taken t with Some _ => 1%nat | None => 0%nat end /\
  frames_sent t = match taken t with
                  | Some sample => if m_pEventDispatcher s
                                   then option_list (frame_of platform (m_FirstPTS s) sample) else []
                  | None => []
                  end.
Proof. exact (OnAppSinkHaveFrame_spec e s w). Qed.

(** C38: what Java gets is safe to read.  Every frame the engine sends, from
    the preroll callback or from the render callback, is valid, and its planes
    lie in the buffer of the sample just taken from the sink. *)
Theorem sent_frames_in_bounds `{Env} (preroll : bool) (e : ptr) (s : pipeline) (w : world) (f : CVideoFrame)
    (Hf : f ∈ frames_sent (otrace (if preroll then OnAppSinkPreroll e s w else OnAppSinkHaveFrame e s w))) :
  let t := otrace (if preroll then OnAppSinkPreroll e s w else OnAppSinkHaveFrame e s w) in
  exists sample b, taken t = Some sample /\ sample_buffer sample = Some b /\ IsValid f = true /\
  (0 <= gb_size b -> in_buffer b f).
Proof.
  destruct preroll;
    [destruct (Preroll_sound e s w f Hf) as (sample & b & H1 & H2 & H3 & _ & H4)
    |destruct (HaveFrame_sound e s w f Hf) as (sample & b & H1 & H2 & H3 & _ & H4)]; eauto 10.
Qed.

(** An environment where the sink answers the two pulls as given. *)
Definition sink_env (prerolled rendered : option GstSample) : Env :=
  scripted_env TargetLinux (fun R c =>
    match c in ext R return option R with
    | gst_app_sink_pull_preroll _ => Some prerolled
    | gst_app_sink_pull_sample _ => Some rendered
    | _ => None
    end).

Lemma head_elem {A} (l : list A) x : head l = Some x -> x ∈ l.
Proof. destruct l; [discriminate|]. intros [= ->]. left. Qed.

(** The frame a run sends first. *)
Definition sent_first (t : list obs) : CVideoFrame :=
  match frames_sent t with f :: _ => f | [] => new_CGstVideoFrame end.

Lemma sent_frames_in_bounds_witness :
  exists sample b,
    taken (otrace (@OnAppSinkHaveFrame (sink_env None (Some sample_4x2)) (Some 1%nat) (player AVPlayback Playing) tt)) = Some sample /\
    sample_buffer sample = Some b /\
    IsValid (sent_first (otrace (@OnAppSinkHaveFrame (sink_env None (Some sample_4x2)) (Some 1%nat) (player AVPlayback Playing) tt))) = true /\
    (0 <= gb_size b -> in_buffer b
      (sent_first (otrace (@OnAppSinkHaveFrame (sink_env None (Some sample_4x2)) (Some 1%nat) (player AVPlayback Playing) tt)))).
Proof.
  apply (@sent_frames_in_bounds (sink_env None (Some sample_4x2)) false (Some 1%nat) (player AVPlayback Playing) tt).
  apply head_elem. vm_compute. reflexivity.
Defined.

Lemma rebase_valid first pts :
  0 <= first <= pts -> pts < GST_CLOCK_TIME_NONE -> rebase first pts = pts - first.
Proof.
  intros H1 H2. unfold rebase.
  rewrite (proj2 (Z.eqb_neq first _)), (proj2 (Z.eqb_neq pts _)), (proj2 (Z.leb_le first pts)) by lia. reflexivity.
Qed.

Lemma time_rebased first b :
  0 <= first <= gb_pts b -> gb_pts b < GST_CLOCK_TIME_NONE ->
  buffer_time (rebased first b) = ddiv (Z_to_double (gb_pts b - first)) (Z_to_double GST_SECOND).
Proof.
  intros H1 H2. unfold rebased, buffer_time. cbn [gb_pts set_pts]. rewrite rebase_valid by assumption.
  rewrite (proj2 (Z.eqb_neq _ _)) by lia. reflexivity.
Qed.

Lemma sound_time first t sample b f :
  sound_frames first t -> f ∈ frames_sent t -> taken t = Some sample -> sample_buffer sample = Some b ->
  m_dTime f = buffer_time (rebased first b).
Proof. intros Hs Hf Ht Hb. destruct (Hs f Hf) as (sample' & b' & H1 & H2 & _ & H3 & _). congruence. Qed.

(** Frame times start at zero.  If the first frame a new pipeline prerolls
    has a valid time, Java gets it with time zero, and a frame rendered later
    is sent with the seconds elapsed since that first frame, however large the
    stream's own first time was. *)
Theorem frame_times_from_first `{Env} (e : ptr) (s : pipeline) (w w2 : world) (b1 b2 : GstBuffer)
    (caps1 caps2 : option GstCaps)
    (Hnew : m_FirstPTS s = GST_CLOCK_TIME_NONE) (Hb1 : 0 <= gb_pts b1) (Hb2 : gb_pts b1 <= gb_pts b2 < GST_CLOCK_TIME_NONE)
    (Hpre : taken (otrace (OnAppSinkPreroll e s w)) = Some (mkSample (Some b1) caps1))
    (Hren : taken (otrace (OnAppSinkHaveFrame e (ostate (OnAppSinkPreroll e s w)) w2)) = Some (mkSample (Some b2) caps2)) :
  (forall f, f ∈ frames_sent (otrace (OnAppSinkPreroll e s w)) -> m_dTime f = d_zero) /\
  (forall f, f ∈ frames_sent (otrace (OnAppSinkHaveFrame e (ostate (OnAppSinkPreroll e s w)) w2)) ->
     m_dTime f = ddiv (Z_to_double (gb_pts b2 - gb_pts b1)) (Z_to_double GST_SECOND)).
Proof.
  pose proof (Preroll_sound e s w) as S1. pose proof (HaveFrame_sound e (ostate (OnAppSinkPreroll e s w)) w2) as S2.
  assert (HF : m_FirstPTS (ostate (OnAppSinkPreroll e s w)) = gb_pts b1).
  { destruct (OnAppSinkPreroll_spec e s w) as [_ H1]. rewrite Hpre in H1. destruct H1 as [-> _]. unfold first_time.
    rewrite Hnew, Z.eqb_refl, (proj2 (Z.eqb_neq _ _)) by lia. reflexivity. }
  rewrite HF in S1, S2. split; intros f Hf.
  - rewrite (sound_time _ _ _ b1 f S1 Hf Hpre eq_refl), time_rebased by lia. rewrite Z.sub_diag. reflexivity.
  - rewrite (sound_time _ _ _ b2 f S2 Hf Hren eq_refl). apply time_rebased; lia.
Qed.

Definition at_time (pts : Z) (sample : GstSample) : GstSample :=
  mkSample (option_map (fun b => set_pts b pts) (sample_buffer sample)) (sample_caps sample).

(** A fragmented stream that starts at ten seconds. *)
Definition late_env : Env :=
  sink_env (Some (at_time 10000000000 sample_4x2)) (Some (at_time 10500000000 sample_4x2)).
Definition new_player : pipeline := (player AVPlayback Playing) <| m_FirstPTS := GST_CLOCK_TIME_NONE |>.

Lemma frame_times_from_first_witness :
  let o1 := @OnAppSinkPreroll late_env (Some 1%nat) new_player tt in
  let o2 := @OnAppSinkHaveFrame late_env (Some 1%nat) (ostate o1) tt in
  m_dTime (sent_first (otrace o1)) = d_zero /\
  m_dTime (sent_first (otrace o2)) = ddiv (Z_to_double 500000000) (Z_to_double GST_SECOND).
Proof.
  cbv zeta.
  pose proof (@frame_times_from_first late_env (Some 1%nat) new_player tt tt
    (mkBuffer 10000000000 false true 4096 12) (mkBuffer 10500000000 false true 4096 12)
    (sample_caps sample_4x2) (sample_caps sample_4x2) ltac:(reflexivity) ltac:(vm_compute; discriminate)
    ltac:(vm_compute; split; [discriminate | reflexivity])
    ltac:(vm_compute; reflexivity) ltac:(vm_compute; reflexivity)) as [H1 H2].
  split; [apply H1 | apply H2]; apply head_elem; vm_compute; reflexivity.
Defined.

(** A frame that is prerolled again loses the first time twice.  The time
    stamp is changed in the buffer itself, and after a pause or a seek the sink
    renders the very buffer it prerolled.  If the stream's first time is [first]
    and the frame's time is at least twice that, the poster frame has the right
    time, but the same frame is then rendered [first] too early. *)
Theorem prerolled_frame_shifted_twice `{Env} (e : ptr) (s : pipeline) (w w2 : world) (b : GstBuffer)
    (caps : option GstCaps)
    (Hfirst : 0 < m_FirstPTS s) (Hb : 2 * m_FirstPTS s <= gb_pts b < GST_CLOCK_TIME_NONE)
    (Hpre : taken (otrace (OnAppSinkPreroll e s w)) = Some (mkSample (Some b) caps))
    (Hren : taken (otrace (OnAppSinkHaveFrame e (ostate (OnAppSinkPreroll e s w)) w2))
            = Some (mkSample (Some (rebased (m_FirstPTS s) b)) caps)) :
  (forall f, f ∈ frames_sent (otrace (OnAppSinkPreroll e s w)) ->
     m_dTime f = ddiv (Z_to_double (gb_pts b - m_FirstPTS s)) (Z_to_double GST_SECOND)) /\
  (forall f, f ∈ frames_sent (otrace (OnAppSinkHaveFrame e (ostate (OnAppSinkPreroll e s w)) w2)) ->
     m_dTime f = ddiv (Z_to_double (gb_pts b - 2 * m_FirstPTS s)) (Z_to_double GST_SECOND)).
Proof.
  pose proof (Preroll_sound e s w) as S1. pose proof (HaveFrame_sound e (ostate (OnAppSinkPreroll e s w)) w2) as S2.
  assert (HF : m_FirstPTS (ostate (OnAppSinkPreroll e s w)) = m_FirstPTS s).
  { destruct (OnAppSinkPreroll_spec e s w) as [_ H1]. rewrite Hpre in H1. destruct H1 as [-> _]. unfold first_time.
    rewrite (proj2 (Z.eqb_neq _ _)) by lia. reflexivity. }
  rewrite HF in S1, S2.
  assert (HP : gb_pts (rebased (m_FirstPTS s) b) = gb_pts b - m_FirstPTS s).
  { unfold rebased. cbn [gb_pts set_pts]. apply rebase_valid; lia. }
  split; intros f Hf.
  - rewrite (sound_time _ _ _ b f S1 Hf Hpre eq_refl). apply time_rebased; lia.
  - rewrite (sound_time _ _ _ _ f S2 Hf Hren eq_refl), time_rebased, HP by (rewrite ?HP; lia).
    replace (gb_pts b - 2 * m_FirstPTS s) with (gb_pts b - m_FirstPTS s - m_FirstPTS s) by lia. reflexivity.
Qed.

(** The stream of the example, paused at 25 s of its own time. *)
Definition seek_env : Env :=
  sink_env (Some (at_time 25000000000 sample_4x2)) (Some (at_time 15000000000 sample_4x2)).
Definition late_player : pipeline := (player AVPlayback Playing) <| m_FirstPTS := 10000000000 |>.

Lemma prerolled_frame_shifted_twice_witness :
  let o1 := @OnAppSinkPreroll seek_env (Some 1%nat) late_player tt in
  let o2 := @OnAppSinkHaveFrame seek_env (Some 1%nat) (ostate o1) tt in
  m_dTime (sent_first (otrace o1)) = Z_to_double 15 /\ m_dTime (sent_first (otrace o2)) = Z_to_double 5.
Proof.
  cbv zeta.
  pose proof (@prerolled_frame_shifted_twice seek_env (Some 1%nat) late_player tt tt
    (mkBuffer 25000000000 false true 4096 12) (sample_caps sample_4x2) ltac:(vm_compute; reflexivity)
    ltac:(vm_compute; split; [discriminate | reflexivity])
    ltac:(vm_compute; reflexivity) ltac:(vm_compute; reflexivity)) as [H1 H2].
  split; [etransitivity; [apply H1|] | etransitivity; [apply H2|]];
    first [apply head_elem; vm_compute; reflexivity | vm_compute; reflexivity].
Defined.
