(* ===== verification/Discovery.v ===== *)
(** * Track discovery: what the probes promise

    The caps a probe takes from a pad are released exactly once (with the one
    exception of the video probe), the audio track is announced exactly once
    whichever of the two audio probes completes it, and what encoding is
    announced. *)

From S2P Require Import Prelude CFloat MediaTypes GstApi Effects PipelineState Tracks StateMachine Playback.

Local Open Scope Z_scope.

(** ** Views of a trace *)

Definition caps_event (o : obs) : Z :=
  match o with
  | Obs c r => match c in ext R return R -> Z with
               | gst_pad_get_current_caps _ => fun caps => match caps with Some _ => 1 | None => 0 end
               | gst_caps_unref => fun _ => -1
               | _ => fun _ => 0
               end r
  end.
(** The references to caps held at the end of a trace, and the lookups of pads
    that found none. *)
Definition caps_held (t : list obs) : Z := foldr (fun o n => caps_event o + n) 0 t.

Definition missing_pad (o : obs) : Z :=
  match o with
  | Obs c r => match c in ext R return R -> Z with
               | gst_element_get_static_pad _ _ => fun pad => match pad with None => 1 | Some _ => 0 end
               | _ => fun _ => 0
               end r
  end.
Definition missing_pads (t : list obs) : Z := foldr (fun o n => missing_pad o + n) 0 t.

Definition track_announced (o : obs) : option CAudioTrack :=
  match o with Obs (SendAudioTrackEvent tr) _ => Some tr | _ => None end.
Definition audio_tracks (t : list obs) : list CAudioTrack := omap track_announced t.

Definition probe_removed (o : obs) : option Z :=
  match o with Obs (gst_pad_remove_probe _ hid) _ => Some hid | _ => None end.
Definition probes_removed (t : list obs) : list Z := omap probe_removed t.

(** The caps a pad answered first. *)
Definition caps_answer (o : obs) : option GstStructure :=
  match o with
  | Obs c r => match c in ext R return R -> option GstStructure with
               | gst_pad_get_current_caps _ => fun caps => match caps with Some (s :: _) => Some s | _ => None end
               | _ => fun _ => None
               end r
  end.
Definition caps_read (t : list obs) : option GstStructure := head (omap caps_answer t).

(** Ends the symbolic execution of a probe: the trace is known. *)
Ltac probe_done := cbn -[sink_info source_info sink_ready_info audio_track]; split_and?; try reflexivity.

Section Discovery.
Context `{EV : Env}.

Lemma SendTrackEvent_spec s :
  wp SendTrackEvent s (fun _ s' t =>
    s' = s /\ caps_held t = 0 /\ probes_removed t = [] /\ omap caps_answer t = [] /\
    audio_tracks t = if m_pEventDispatcher s then [audio_track (m_AudioTrackInfo s)] else []).
Proof. unfold SendTrackEvent, send_or_error, send_media_error. wp_steps; split_and!; reflexivity. Qed.

Lemma caps_held_app t1 t2 : caps_held (t1 ++ t2) = caps_held t1 + caps_held t2.
Proof. unfold caps_held. induction t1 as [|o t1 IH]; [reflexivity|]. cbn [app foldr]. rewrite IH. lia. Qed.
Lemma missing_pads_app t1 t2 : missing_pads (t1 ++ t2) = missing_pads t1 + missing_pads t2.
Proof. unfold missing_pads. induction t1 as [|o t1 IH]; [reflexivity|]. cbn [app foldr]. rewrite IH. lia. Qed.
Lemma audio_tracks_app t1 t2 : audio_tracks (t1 ++ t2) = audio_tracks t1 ++ audio_tracks t2.
Proof. apply omap_app. Qed.
Lemma probes_removed_app t1 t2 : probes_removed (t1 ++ t2) = probes_removed t1 ++ probes_removed t2.
Proof. apply omap_app. Qed.
Lemma caps_read_app t1 t2 : caps_read (t1 ++ t2) = match caps_read t1 with Some x => Some x | None => caps_read t2 end.
Proof. unfold caps_read. rewrite omap_app. destruct (omap caps_answer t1); reflexivity. Qed.

(** The whole effect of the sink probe. *)
Lemma AudioSinkPadProbe_spec pPad type data s :
  wp (AudioSinkPadProbe pPad type data) s (fun r s' t =>
    caps_held t = 0 /\ m_pEventDispatcher s' = m_pEventDispatcher s /\ m_pOptions s' = m_pOptions s /\
    match caps_read t with
    | Some str =>
        r = GST_PAD_PROBE_REMOVE /\ m_AudioTrackInfo s' = sink_info (m_pOptions s) str (m_AudioTrackInfo s) /\
        (if sink_ready_info str
         then audio_tracks t = (if m_pEventDispatcher s then [audio_track (m_AudioTrackInfo s')] else []) /\
              probes_removed t = (if m_audioSourcePadProbeHID s =? 0 then [] else [m_audioSourcePadProbeHID s])
         else audio_tracks t = [] /\ probes_removed t = [])
    | None => r = GST_PAD_PROBE_OK /\ s' = s /\ audio_tracks t = [] /\ probes_removed t = []
    end).
Proof.
  unfold AudioSinkPadProbe. destruct (probe_requested type data); cbn [negb]; [|wp_steps; probe_done].
  apply wp_bind, wp_call. intros [[|str rest]|]; [wp_steps; probe_done | | wp_steps; probe_done].
  unfold SendTrackEvent, send_or_error, send_media_error, element.
  destruct (sink_ready_info str) eqn:Er, (m_pEventDispatcher s) eqn:Ed, (m_audioSourcePadProbeHID s =? 0) eqn:Eh;
    wp_steps; try congruence; cbn -[sink_info sink_ready_info audio_track Z.eqb] in *; rewrite ?Er, ?Ed, ?Eh in *;
    first [discriminate | split_and!; (reflexivity || assumption)].
Qed.

(** The whole effect of the source probe. *)
Lemma AudioSourcePadProbe_spec pPad type data s :
  wp (AudioSourcePadProbe pPad type data) s (fun r s' t =>
    caps_held t = 0 /\
    match caps_read t with
    | Some str =>
        r = GST_PAD_PROBE_REMOVE /\ m_AudioTrackInfo s' = source_info str (m_AudioTrackInfo s) /\
        audio_tracks t = (if m_pEventDispatcher s then [audio_track (m_AudioTrackInfo s')] else [])
    | None => r = GST_PAD_PROBE_OK /\ s' = s /\ audio_tracks t = []
    end).
Proof.
  unfold AudioSourcePadProbe. destruct (probe_requested type data); cbn [negb]; [|wp_steps; probe_done].
  apply wp_bind, wp_call. intros [[|str rest]|]; [wp_steps; probe_done | | wp_steps; probe_done].
  unfold SendTrackEvent, send_or_error, send_media_error. wp_steps; probe_done.
Qed.

Lemma VideoDecoderSrcProbe_caps pPad type data s :
  wp (VideoDecoderSrcProbe pPad type data) s (fun _ _ t => caps_held t = - missing_pads t).
Proof.
  unfold VideoDecoderSrcProbe, release_caps, release_pad, SetEncodedVideoFrameRate, send_or_error, send_media_error, element.
  wp_steps; reflexivity.
Qed.
End Discovery.

(** The audio probes hold no caps.  Whatever the pads answer, each of the
    two audio probes releases the caps it took exactly once. *)
Theorem audio_probes_release_caps `{Env} (source : bool) (pPad : ptr) (type : Z) (data : bool) (s : pipeline) (w : world) :
  caps_held (otrace (if source then AudioSourcePadProbe pPad type data s w else AudioSinkPadProbe pPad type data s w)) = 0.
Proof.
  destruct source; [exact (proj1 (AudioSourcePadProbe_spec pPad type data s w))
                   |exact (proj1 (AudioSinkPadProbe_spec pPad type data s w))].
Qed.

(** The video probe releases the caps of the decoder's source pad twice
    when the decoder has no sink pad, and is balanced otherwise. *)
Theorem video_probe_caps_balance `{Env} (pPad : ptr) (type : Z) (data : bool) (s : pipeline) (w : world) :
  let t := otrace (VideoDecoderSrcProbe pPad type data s w) in
  caps_held t = - missing_pads t.
Proof. exact (VideoDecoderSrcProbe_caps pPad type data s w). Qed.

(** The audio track is complete in the caps of the decoder's sink pad, or is
    completed from those of its source pad. *)
Definition announced_info (o : CPipelineOptions) (sink source : GstStructure) (i : AudioTrackInfo) : AudioTrackInfo :=
  if sink_ready_info sink then sink_info o sink i else source_info source (sink_info o sink i).

(** The audio track is announced exactly once.  With both probes in place,
    the sink probe sees caps first.  If they are complete it announces the track
    and removes the source probe; otherwise it announces nothing, and the source
    probe, when it sees caps, announces the track with the missing fields
    filled in. *)
Theorem audio_track_announced_once `{Env} (sinkPad srcPad : ptr) (type1 type2 : Z) (s : pipeline) (w w2 : world)
    (sink source : GstStructure) (Hdisp : m_pEventDispatcher s = true) (Hhid : m_audioSourcePadProbeHID s <> 0)
    (Hsink : caps_read (otrace (AudioSinkPadProbe sinkPad type1 true s w)) = Some sink)
    (Hsource : caps_read (otrace (AudioSourcePadProbe srcPad type2 true (ostate (AudioSinkPadProbe sinkPad type1 true s w)) w2))
               = Some source) :
  let o1 := AudioSinkPadProbe sinkPad type1 true s w in
  let o2 := AudioSourcePadProbe srcPad type2 true (ostate o1) w2 in
  let t := otrace o1 ++ if probes_removed (otrace o1) == [] then otrace o2 else [] in
  oval o1 = GST_PAD_PROBE_REMOVE /\ oval o2 = GST_PAD_PROBE_REMOVE /\
  (probes_removed (otrace o1) = [] \/ probes_removed (otrace o1) = [m_audioSourcePadProbeHID s]) /\
  audio_tracks t = [audio_track (announced_info (m_pOptions s) sink source (m_AudioTrackInfo s))].
Proof.
  cbv zeta. pose proof (AudioSinkPadProbe_spec sinkPad type1 true s w) as (_ & D1 & _ & H1).
  pose proof (AudioSourcePadProbe_spec srcPad type2 true (ostate (AudioSinkPadProbe sinkPad type1 true s w)) w2) as (_ & H2).
  rewrite Hsink in H1. rewrite Hsource in H2. rewrite D1, Hdisp in H2. rewrite Hdisp in H1.
  rewrite (proj2 (Z.eqb_neq _ _) Hhid) in H1. destruct H1 as (-> & I1 & H1), H2 as (-> & I2 & H2).
  unfold announced_info. destruct (sink_ready_info sink); destruct H1 as [T1 ->]; rewrite audio_tracks_app, T1.
  - rewrite bool_decide_eq_false_2 by discriminate. split_and!; [reflexivity.. | right; reflexivity |]. rewrite I1. reflexivity.
  - rewrite bool_decide_eq_true_2 by reflexivity. split_and!; [reflexivity.. | left; reflexivity |]. rewrite H2, I2, I1. reflexivity.
Qed.

(** AAC in MP4: the sink caps have no layer but are complete; and raw caps with
    no rate, completed by the source. *)
Definition no_rate : GstStructure := mkStructure "audio/mpeg" [("channels"%string, GInt 2); ("mpegversion"%string, GInt 4)].
Definition raw_source : GstStructure := mkStructure "audio/x-raw" [("channels"%string, GInt 6); ("rate"%string, GInt 44100)].
Definition pads_env : Env :=
  scripted_env TargetLinux (fun R c =>
    match c in ext R return option R with
    | gst_pad_get_current_caps pad => Some (if bool_decide (pad = Some 1%nat) then Some [no_rate] else Some [raw_source])
    | _ => None
    end).
Definition probed_player : pipeline := (player AudioPlayback Unknown) <| m_audioSourcePadProbeHID := 7 |>.

Lemma audio_track_announced_once_witness :
  let o1 := @AudioSinkPadProbe pads_env (Some 1%nat) GST_PAD_PROBE_TYPE_BUFFER true probed_player tt in
  let o2 := @AudioSourcePadProbe pads_env (Some 2%nat) GST_PAD_PROBE_TYPE_BUFFER true (ostate o1) tt in
  audio_tracks (otrace o1 ++ otrace o2) =
    [mkAudioTrack 0 "audio/mpeg" AAC true "und" 2 (Z.lor FRONT_RIGHT FRONT_LEFT) (Z_to_float 44100)].
Proof.
  pose proof (@audio_track_announced_once pads_env (Some 1%nat) (Some 2%nat) GST_PAD_PROBE_TYPE_BUFFER
    GST_PAD_PROBE_TYPE_BUFFER probed_player tt tt no_rate raw_source ltac:(reflexivity) ltac:(discriminate)
    ltac:(vm_compute; reflexivity) ltac:(vm_compute; reflexivity)) as (_ & _ & _ & H).
  vm_compute in H. vm_compute. exact H.
Defined.

(** The encoding of other audio streams.  A stream that is neither raw nor
    MPEG nor MP3 is announced as AAC, unless its type begins with the AAC type:
    then, and only then, it is announced as custom. *)
Theorem aac_test_inverted (i : AudioTrackInfo)
    (Hraw : str_contains (mimeType i) "audio/x-raw" = false)
    (Hmpa : str_contains (mimeType i) CONTENT_TYPE_MPA = false)
    (Hmp3 : str_contains (mimeType i) CONTENT_TYPE_MP3 = false) :
  audio_encoding i = if bool_decide (str_find (mimeType i) CONTENT_TYPE_AAC = Some 0%nat) then CUSTOM else AAC.
Proof.
  unfold audio_encoding. rewrite Hraw, Hmpa, Hmp3. cbn [orb].
  destruct (str_find (mimeType i) CONTENT_TYPE_AAC) as [[|n]|]; reflexivity.
Qed.

Lemma aac_test_inverted_witness :
  audio_encoding (mkAudioTrackInfo true 0 "audio/aac" 2 44100 (-1) (-1)) = CUSTOM /\
  audio_encoding (mkAudioTrackInfo true 0 "audio/x-vorbis" 2 44100 (-1) (-1)) = AAC.
Proof.
  split; (rewrite aac_test_inverted; [| vm_compute; reflexivity..]); vm_compute; reflexivity.
Defined.
