(* ===== verification/Lifecycle.v ===== *)
(** * Building up and tearing down

    What [Build] promises: which codec errors are reported, that the probes are
    set up once, that a second audio stream is ignored, and who frees the object
    shared with the bus watch. *)

From S2P Require Import Prelude CFloat MediaTypes GstApi Effects PipelineState AudioPipeline Bus Build StateMachine Playback ErrorState.

Local Open Scope Z_scope.

(** ** Unsupported codecs *)

Section Codecs.
Context `{EV : Env}.

Lemma send_media_error_reports code s :
  wp (send_media_error code) s (fun _ s' t => s' = s /\ media_errors t = [code]).
Proof. unfold send_media_error. wp_steps; split; reflexivity. Qed.

(** The audio pipeline reports its codec when there is no audio. *)
Definition audio_failed (s : pipeline) : bool :=
  negb (m_bHasAudio s) && m_pEventDispatcher s && (m_audioCodecErrorCode s != ERROR_NONE).

Lemma Audio_CheckCodecSupport_spec s :
  wp Audio_CheckCodecSupport s (fun r s' t => r = negb (audio_failed s) /\ s' = s /\
    media_errors t = if audio_failed s then [m_audioCodecErrorCode s] else []).
Proof.
  unfold Audio_CheckCodecSupport, audio_failed. do 6 wp_step.
  destruct (negb (m_bHasAudio s) && _ && _); [|wp_step; split_and!; reflexivity].
  apply wp_bind. eapply wp_mono; [apply send_media_error_reports|]. cbn beta. intros _ s1 t1 [-> E]. wp_step.
  rewrite app_nil_r. split_and!; [reflexivity.. | exact E].
Qed.

Definition video_failed (s : pipeline) : bool :=
  audio_failed s && negb (m_bHasVideo s) && (m_videoCodecErrorCode s != ERROR_NONE).

Lemma CheckCodecSupport_spec s :
  klass s = AVPlayback ->
  wp CheckCodecSupport s (fun r s' t => s' = s /\
    media_errors t = (if audio_failed s then [m_audioCodecErrorCode s] else []) ++
                     (if video_failed s then [m_videoCodecErrorCode s] else [])).
Proof.
  intros Hk. unfold CheckCodecSupport, virtual. apply wp_bind, wp_gets. rewrite Hk.
  unfold AV_CheckCodecSupport. do 2 wp_step. destruct (m_bHasVideo s) eqn:Hv; cbn [negb].
  - eapply wp_mono; [apply Audio_CheckCodecSupport_spec|]. cbn beta. intros r s1 t1 (_ & -> & E).
    split; [reflexivity|]. unfold video_failed. rewrite Hv, andb_false_r, app_nil_r. exact E.
  - apply wp_bind. eapply wp_mono; [apply Audio_CheckCodecSupport_spec|]. cbn beta. intros r s1 t1 (-> & -> & E).
    do 4 wp_step. rewrite negb_involutive. unfold video_failed. rewrite Hv. cbn [negb].
    assert (Hd : audio_failed s && m_pEventDispatcher s = audio_failed s)
      by (unfold audio_failed; destruct (m_bHasAudio s), (m_pEventDispatcher s), (_ != _); reflexivity).
    rewrite Hd, andb_true_r. clear Hd. apply wp_bind. unfold when. destruct (audio_failed s && _).
    + eapply wp_mono; [apply send_media_error_reports|]. cbn beta. intros _ s2 t2 [-> E2]. wp_step.
      rewrite !media_errors_app, E, E2. split; reflexivity.
    + do 2 wp_step. rewrite !media_errors_app, E. split; reflexivity.
Qed.
End Codecs.

(** Which codec errors are reported.  When no more streams are to come, an
    audio-video player that has found no audio reports the audio codec error, if
    there is one; the video codec error is reported only after an audio one, so
    that a video whose only fault is its unsupported video codec fails without
    an error. *)
Theorem codec_errors_reported `{Env} (s : pipeline) (w : world) (Hk : klass s = AVPlayback) :
  let o := CheckCodecSupport s w in
  ostate o = s /\
  media_errors (otrace o) =
    if negb (m_bHasAudio s) && m_pEventDispatcher s && (m_audioCodecErrorCode s != ERROR_NONE)
    then m_audioCodecErrorCode s ::
         (if negb (m_bHasVideo s) && (m_videoCodecErrorCode s != ERROR_NONE) then [m_videoCodecErrorCode s] else [])
    else [].
Proof.
  destruct (CheckCodecSupport_spec s Hk w) as [H1 H2]. split; [exact H1|]. rewrite H2.
  unfold video_failed, audio_failed. destruct (negb (m_bHasAudio s) && _ && _); reflexivity.
Qed.

(** A video-only file with H.265 on a machine that cannot decode it. *)
Definition h265_only : pipeline :=
  (player AVPlayback Unknown) <| m_bHasAudio := false |> <| m_bHasVideo := false |>
    <| m_videoCodecErrorCode := ERROR_MEDIA_H265_FORMAT_UNSUPPORTED |>.

Lemma codec_errors_reported_witness :
  media_errors (otrace (@CheckCodecSupport (nominal_env TargetLinux) h265_only tt)) = [].
Proof. exact (proj2 (@codec_errors_reported (nominal_env TargetLinux) h265_only tt ltac:(reflexivity))). Defined.

(** ** Probes *)

Section Probes.
Context `{EV : Env}.

Definition audio_settled (s : pipeline) : Prop := m_bHasAudio s && negb (m_bAudioInitDone s) = false.
Definition video_settled (s : pipeline) : Prop := m_bHasVideo s && negb (m_bVideoInitDone s) = false.

Definition keeps_streams : pipeline -> pipeline -> list obs -> Prop :=
  keeping (fun p => (klass p, m_bHasAudio p, m_bHasVideo p, m_bVideoInitDone p)) (fun _ => True).
#[local] Instance keeps_streams_composable : Composable keeps_streams.
Proof. apply keeping_composable. Qed.
Lemma keeps_Audio_PostBuildInit : sat keeps_streams Audio_PostBuildInit.
Proof. unfold Audio_PostBuildInit, probe_decoder, add_probe, element, PM. solve_frame. Qed.

(** A prefix about which nothing is needed. *)
Lemma wp_any {A B} (m : PM A) (k : A -> PM B) s (Q : B -> pipeline -> Prop) :
  (forall a s1, wp (k a) s1 (fun b s' _ => Q b s')) -> wp (bind m k) s (fun b s' _ => Q b s').
Proof. intros H w. apply H. Qed.

Lemma Audio_PostBuildInit_settles s :
  wp Audio_PostBuildInit s (fun r s' _ => r = ERROR_NONE -> audio_settled s').
Proof.
  unfold Audio_PostBuildInit. do 4 wp_step. destruct (m_bHasAudio s && _) eqn:E; [|wp_step; intros _; exact E].
  do 5 (apply (wp_any _ _ _ (fun r s' => r = ERROR_NONE -> audio_settled s')); intros).
  destruct (_ != _) eqn:En; [wp_step; intros ->; discriminate|].
  do 3 wp_step. intros _. unfold audio_settled. cbn. apply andb_false_r.
Qed.

Lemma PostBuildInit_settles s :
  wp PostBuildInit s (fun r s' _ => r = ERROR_NONE ->
    klass s' = klass s /\ audio_settled s' /\ (klass s = AVPlayback -> video_settled s')).
Proof.
  assert (HA : forall s0, wp Audio_PostBuildInit s0 (fun r s' _ => r = ERROR_NONE ->
            klass s' = klass s0 /\ audio_settled s' /\ (video_settled s0 -> video_settled s'))).
  { intros s0. eapply wp_mono; [apply wp_conj; [apply Audio_PostBuildInit_settles | apply keeps_Audio_PostBuildInit]|].
    cbn beta. intros r s' t [H1 [H2 _]] Hr. unfold video_settled.
    split_and!; [congruence | exact (H1 Hr) |]. intros Hv. replace (m_bHasVideo s') with (m_bHasVideo s0) by congruence.
    replace (m_bVideoInitDone s') with (m_bVideoInitDone s0) by congruence. exact Hv. }
  unfold PostBuildInit, virtual. do 2 wp_step. destruct (klass s) eqn:Ek.
  - eapply wp_mono; [apply HA|]. cbn beta. intros r s' t H Hr. destruct (H Hr) as (H1 & H2 & _).
    split_and!; [congruence | exact H2 | discriminate].
  - unfold AV_PostBuildInit. do 4 wp_step. destruct (m_bHasVideo s && _) eqn:E.
    2: { eapply wp_mono; [apply HA|]. cbn beta. intros r s' t H Hr. destruct (H Hr) as (H1 & H2 & H3).
         split_and!; [congruence | exact H2 | intros _; exact (H3 E)]. }
    unfold element, add_probe. wp_steps; try discriminate.
    eapply wp_mono; [apply HA|]. cbn beta. intros x s' t H Hx. destruct (H Hx) as (H1 & H2 & H3).
    split_and!; [rewrite H1; exact Ek | exact H2 | intros _; apply H3; unfold video_settled; cbn; apply andb_false_r].
Qed.

Lemma PostBuildInit_settled s :
  audio_settled s -> (klass s = AVPlayback -> video_settled s) ->
  wp PostBuildInit s (fun r s' t => r = ERROR_NONE /\ s' = s /\ t = []).
Proof.
  unfold audio_settled, video_settled. intros Ha Hv.
  assert (HA : wp Audio_PostBuildInit s (fun r s' t => r = ERROR_NONE /\ s' = s /\ t = [])).
  { unfold Audio_PostBuildInit. do 4 wp_step. rewrite Ha. wp_step. split_and!; reflexivity. }
  unfold PostBuildInit, virtual. do 2 wp_step. destruct (klass s) eqn:Ek; [exact HA|].
  unfold AV_PostBuildInit. do 4 wp_step. rewrite (Hv eq_refl). exact HA.
Qed.
End Probes.

(** The probes are set up once.  Pads may be added in any order and
    [PostBuildInit] runs after each; once it has succeeded, running it again
    calls nothing and changes nothing. *)
Theorem PostBuildInit_once `{Env} (s : pipeline) (w w2 : world)
    (Hok : oval (PostBuildInit s w) = ERROR_NONE) :
  let o2 := PostBuildInit (ostate (PostBuildInit s w)) w2 in
  oval o2 = ERROR_NONE /\ ostate o2 = ostate (PostBuildInit s w) /\ otrace o2 = [].
Proof.
  destruct (PostBuildInit_settles s w Hok) as (Hk & Ha & Hv).
  apply PostBuildInit_settled; [exact Ha|]. intros Hk2. apply Hv. congruence.
Qed.

Lemma PostBuildInit_once_witness :
  let o1 := @PostBuildInit (nominal_env TargetLinux) (player AVPlayback Unknown) tt in
  let o2 := @PostBuildInit (nominal_env TargetLinux) (ostate o1) tt in
  otrace o1 <> [] /\ otrace o2 = [].
Proof.
  split; [vm_compute; discriminate|].
  exact (proj2 (proj2 (@PostBuildInit_once (nominal_env TargetLinux) (player AVPlayback Unknown) tt tt
                         ltac:(vm_compute; reflexivity)))).
Defined.

(** ** The object shared with the bus watch *)

(** A trace frees the shared object: how often, and whether its lock is used
    afterwards. *)
Definition content_deleted (o : obs) : bool :=
  match o with Obs (cxx_delete x) _ => (x =? "sBusCallbackContent")%string | _ => false end.
Definition content_deletes (t : list obs) : nat := List.length (List.filter content_deleted t).
Definition uses_content (o : obs) : bool := match lock_op o with Some (_, DisposeLock) => true | _ => false end.
Fixpoint used_after_free (t : list obs) : bool :=
  match t with
  | [] => false
  | o :: t' => (content_deleted o && existsb uses_content t') || used_after_free t'
  end.

(** [g_source_destroy] ran the destroy notification at once. *)
Definition notified_now (o : obs) : bool :=
  match o with
  | Obs c r => match c in ext R return R -> bool with g_source_destroy _ => fun b => b | _ => fun _ => false end r
  end.
Definition notified (t : list obs) : bool := existsb notified_now t.

Section Disposal.
Context `{EV : Env}.

Definition disposed (s' : pipeline) (t : list obs) : Prop :=
  used_after_free t = false /\
  if notified t
  then content_deletes t = 1%nat /\ m_pBusCallbackContent s' = Some (mkBusCallbackContent true true true true)
  else content_deletes t = 0%nat /\ m_pBusCallbackContent s' = Some (mkBusCallbackContent true true false false).

(** Calls that leave the shared object and the elements alone. *)
Definition untouched : pipeline -> pipeline -> list obs -> Prop :=
  keeping (fun p => (m_pBusCallbackContent p, m_Elements p, m_pBusSource p))
    (fun o => content_deleted o = false /\ notified_now o = false).
#[local] Instance untouched_composable : Composable untouched.
Proof. apply keeping_composable. Qed.

(** Disposal has come to the state [s] after the trace [t]: the object is not
    freed, its flags are [c], and [b] is whether the notification has run. *)
Definition phase (c : sBusCallbackContent) (b : bool) (s : pipeline) (t : list obs) : Prop :=
  m_pBusCallbackContent s = Some c /\ existsb content_deleted t = false /\ notified t = b.

(** The rest [m] completes the disposal. *)
Definition completes {A} (m : PM A) (s : pipeline) (t0 : list obs) : Prop :=
  wp m s (fun _ s' t => disposed s' (t0 ++ t)).

Lemma completes_bind {A B} (m : PM A) (k : A -> PM B) s t0 :
  wp m s (fun a s1 t1 => completes (k a) s1 (t0 ++ t1)) -> completes (bind m k) s t0.
Proof.
  intros H. apply wp_bind. eapply wp_mono; [exact H|]. cbn beta. intros a s1 t1 H1.
  eapply wp_mono; [exact H1|]. cbn beta. intros b s2 t2. rewrite app_assoc. exact (fun x => x).
Qed.

Lemma untouched_none {A} (f : A -> bool) t : Forall (fun o => f o = false) t -> existsb f t = false.
Proof. induction 1 as [|o t Ho Ht IH]; [reflexivity|]. cbn. rewrite Ho. exact IH. Qed.

Lemma phase_step c b s s1 t t1 : phase c b s t -> untouched s s1 t1 -> phase c b s1 (t ++ t1).
Proof.
  intros (Hc & Hd & Hn) [H1 H2]. unfold phase, notified in *. rewrite !existsb_app, Hd, Hn.
  rewrite !untouched_none by (eapply Forall_impl; [exact H2|]; intros o [? ?]; assumption).
  rewrite !orb_false_r. split_and!; [congruence | reflexivity..].
Qed.

(** A step that leaves the object alone. *)
Lemma completes_step c b {A B} (m : PM A) (k : A -> PM B) s t :
  sat untouched m -> phase c b s t ->
  (forall a s1 t1, untouched s s1 t1 -> phase c b s1 (t ++ t1) -> completes (k a) s1 (t ++ t1)) ->
  completes (bind m k) s t.
Proof.
  intros Hm Hp Hk. apply completes_bind. eapply wp_mono; [apply Hm|]. cbn beta. intros a s1 t1 H1.
  apply Hk; [exact H1 | exact (phase_step _ _ _ _ _ _ Hp H1)].
Qed.

Lemma no_deletes t : existsb content_deleted t = false -> content_deletes t = 0%nat /\ used_after_free t = false.
Proof.
  unfold content_deletes. induction t as [|o t IH]; [split; reflexivity|]. cbn.
  intros [Ho Ht]%orb_false_iff. rewrite Ho. exact (IH Ht).
Qed.
Lemma used_after_free_app t1 t2 : existsb content_deleted t1 = false -> used_after_free (t1 ++ t2) = used_after_free t2.
Proof.
  induction t1 as [|o t IH]; [reflexivity|]. cbn. intros [Ho Ht]%orb_false_iff. rewrite Ho. exact (IH Ht).
Qed.
Lemma content_deletes_app t1 t2 : content_deletes (t1 ++ t2) = (content_deletes t1 + content_deletes t2)%nat.
Proof. unfold content_deletes. rewrite List.filter_app, length_app. reflexivity. Qed.

(** The last step: the object is disposed of, and freed if the notification
    has come. *)
Lemma completes_end b s t :
  phase (mkBusCallbackContent false true b false) b s t ->
  completes (let* c := gets content in
             set_content (fun c => c <| m_bIsDisposed := true |>) ;;
             exit DisposeLock ;;
             when (m_bFreeMe c)
               (call (cxx_delete "m_DisposeLock") ;;
                call (cxx_delete "sBusCallbackContent") ;;
                set_content (fun c => c <| cb_freed := true |>))) s t.
Proof.
  intros (Hc & Hd & Hn). unfold completes, set_content, content. do 4 wp_step. rewrite Hc. cbn [m_bFreeMe].
  destruct (no_deletes t Hd) as [D0 U0]. destruct b; cbn [when]; wp_steps; unfold disposed;
    rewrite used_after_free_app, content_deletes_app, D0 by exact Hd; unfold notified in *; rewrite existsb_app, Hn;
    simpl_set; rewrite ?Hc; split; try (split; reflexivity); reflexivity.
Qed.

(** The watch goes, with or without its notification. *)
Lemma destroy_pipeline_phase pipe s t q :
  phase (mkBusCallbackContent false true false false) false s t -> m_pBusSource s = Some q ->
  wp (destroy_pipeline pipe) s (fun _ s1 t1 => exists b, phase (mkBusCallbackContent false true b false) b s1 (t ++ t1)).
Proof.
  intros (Hc & Hd & Hn) Hq. unfold destroy_pipeline, BusCallbackDestroyNotify, set_content, content.
  unfold phase, notified in *.
  do 2 wp_step. rewrite Hq. cbn [non_null when]. do 3 wp_step. destruct r; cbn [when].
  - do 4 wp_step. wp_step. rewrite Hc. cbn [m_bIsDisposed when].
    wp_steps. exists true. rewrite !existsb_app, Hd, Hn. simpl_set. rewrite Hc. split_and!; reflexivity.
  - wp_steps. exists false. rewrite !existsb_app, Hd, Hn. simpl_set. split_and!; [exact Hc | reflexivity..].
Qed.

Lemma untouched_source s s1 t : untouched s s1 t -> m_pBusSource s1 = m_pBusSource s.
Proof. intros [H _]. congruence. Qed.

Lemma untouched_elements s s1 t : untouched s s1 t -> m_Elements s1 = m_Elements s.
Proof. intros [H _]. congruence. Qed.

Lemma Audio_Dispose_spec s p q t0 :
  phase (mkBusCallbackContent false false false false) false s t0 ->
  elem s PIPELINE = Some p -> m_pBusSource s = Some q -> completes Audio_Dispose s t0.
Proof.
  intros (Hc & Hd & Hn) Hp Hq. unfold Audio_Dispose, set_content. apply completes_bind, wp_gets. rewrite Hc. cbn [when].
  apply completes_bind. do 4 wp_step. wp_step. unfold element. apply completes_bind, wp_gets.
  set (s1 := set _ _ s). change (elem s1 PIPELINE) with (elem s PIPELINE). rewrite Hp. cbn [non_null when].
  assert (P1 : m_pBusCallbackContent s1 = Some (mkBusCallbackContent false true false false))
    by (unfold s1; simpl_set; rewrite Hc; reflexivity).
  assert (Q1 : m_pBusSource s1 = Some q) by exact Hq. clearbody s1.
  eapply (completes_step (mkBusCallbackContent false true false false) false);
    [unfold PM; solve_frame | | intros _ s2 t2 U2 H2].
  { unfold phase, notified in *. rewrite !existsb_app, Hd, Hn. split_and!; [exact P1 | reflexivity..]. }
  eapply completes_step; [unfold PM; solve_frame | exact H2 | intros _ s3 t3 U3 H3].
  apply completes_bind, wp_gets. unfold content at 1. rewrite (proj1 H3). cbn [andb m_bIsDisposed]. rewrite app_nil_r.
  do 4 (eapply completes_step; [unfold PM; solve_frame | eassumption | intros ? ? ? ? ?]).
  apply completes_bind. eapply wp_mono; [eapply (destroy_pipeline_phase _ _ _ q); [eassumption|]|].
  - repeat match goal with U : untouched _ _ _ |- _ => rewrite (untouched_source _ _ _ U); clear U end. exact Q1.
  - cbn beta. intros _ s7 t7 [b H7']. exact (completes_end b s7 _ H7').
Qed.

(** Calls that cannot touch the object, even freed. *)
Definition aloof : pipeline -> pipeline -> list obs -> Prop :=
  keeping m_pBusCallbackContent (fun o => content_deleted o = false /\ notified_now o = false /\ uses_content o = false).
#[local] Instance aloof_composable : Composable aloof.
Proof. apply keeping_composable. Qed.

Lemma used_after_free_suffix t t2 :
  existsb content_deleted t2 = false -> existsb uses_content t2 = false -> used_after_free (t ++ t2) = used_after_free t.
Proof.
  intros H1 H2. induction t as [|o t IH]; cbn; [apply no_deletes, H1|].
  rewrite IH, existsb_app, H2, orb_false_r. reflexivity.
Qed.

Lemma disposed_aloof s s2 t t2 : disposed s t -> aloof s s2 t2 -> disposed s2 (t ++ t2).
Proof.
  intros [U D] [K F].
  assert (E1 : existsb content_deleted t2 = false) by (apply untouched_none; eapply Forall_impl; [exact F|]; intros o (? & ? & ?); assumption).
  assert (E2 : existsb notified_now t2 = false) by (apply untouched_none; eapply Forall_impl; [exact F|]; intros o (? & ? & ?); assumption).
  assert (E3 : existsb uses_content t2 = false) by (apply untouched_none; eapply Forall_impl; [exact F|]; intros o (? & ? & ?); assumption).
  unfold disposed, notified in *.
  rewrite used_after_free_suffix, existsb_app, content_deletes_app, E2, orb_false_r, (proj1 (no_deletes _ E1)), Nat.add_0_r, K by assumption.
  split; assumption.
Qed.

Lemma Dispose_spec s p q :
  m_pBusCallbackContent s = Some (mkBusCallbackContent false false false false) ->
  elem s PIPELINE = Some p -> m_pBusSource s = Some q -> wp Dispose s (fun _ s' t => disposed s' t).
Proof.
  intros Hc Hp Hq. unfold Dispose, virtual. do 2 wp_step. destruct (klass s).
  { exact (Audio_Dispose_spec s p q [] ltac:(split_and!; [exact Hc | reflexivity..]) Hp Hq). }
  refine ((_ : completes AV_Dispose s [])). unfold AV_Dispose.
  assert (H0 : phase (mkBusCallbackContent false false false false) false s []) by (split_and!; [exact Hc | reflexivity..]).
  do 10 (eapply completes_step; [unfold element, PM; solve_frame | eassumption | intros ? ? ? ? ?]).
  match goal with |- completes (bind _ _) ?s9 _ =>
    assert (Hs : elem s9 PIPELINE = Some p /\ m_pBusSource s9 = Some q) end.
  { unfold elem in *. repeat match goal with U : untouched _ _ _ |- _ =>
      rewrite (untouched_source _ _ _ U), (untouched_elements _ _ _ U); clear U end. split; assumption. }
  apply completes_bind. eapply wp_mono; [eapply (Audio_Dispose_spec _ p q); [eassumption | apply Hs | apply Hs]|].
  cbn beta. intros _ s10 t10 HD. unfold completes.
  eapply wp_mono; [refine ((_ : sat aloof _) s10); unfold element, PM; solve_frame|].
  cbn beta. intros _ s11 t11 HA. exact (disposed_aloof _ _ _ _ HD HA).
Qed.
End Disposal.

(** C39: the object shared with the bus watch is freed exactly once.  Disposing
    of a running pipeline destroys the watch.  If GLib runs the watch's
    notification at once, [Dispose] frees the object itself, after its last use
    of it.  If a message is being handled, the notification comes later: until
    then the object stays, further messages are refused without being handled,
    and the notification frees it. *)
Theorem bus_content_freed_once `{Env} (s : pipeline) (p q : nat) (msg : GstMessage) (w w2 w3 : world)
    (Hc : m_pBusCallbackContent s = Some (mkBusCallbackContent false false false false))
    (Hp : elem s PIPELINE = Some p) (Hq : m_pBusSource s = Some q) :
  let o1 := Dispose s w in
  let o2 := BusCallback msg (ostate o1) w2 in
  let o3 := BusCallbackDestroyNotify (ostate o2) w3 in
  used_after_free (otrace o1) = false /\
  if notified (otrace o1) then content_deletes (otrace o1) = 1%nat
  else content_deletes (otrace o1) = 0%nat /\
       oval o2 = false /\ ostate o2 = ostate o1 /\ content_deletes (otrace o2) = 0%nat /\
       content_deletes (otrace o3) = 1%nat /\ used_after_free (otrace o3) = false.
Proof.
  cbv zeta. destruct (Dispose_spec s p q Hc Hp Hq w) as [U D]. split; [exact U|].
  destruct (notified (otrace (Dispose s w))); [exact (proj1 D)|]. destruct D as [D Hcontent].
  assert (HB : forall s0, m_pBusCallbackContent s0 = Some (mkBusCallbackContent true true false false) ->
    wp (BusCallback msg) s0 (fun r s' t => r = false /\ s' = s0 /\ content_deletes t = 0%nat)).
  { intros s0 H0. unfold BusCallback, content. do 4 wp_step. rewrite H0. cbn [m_bIsDisposed]. wp_steps. split_and!; reflexivity. }
  assert (HN : forall s0, m_pBusCallbackContent s0 = Some (mkBusCallbackContent true true false false) ->
    wp BusCallbackDestroyNotify s0 (fun _ _ t => content_deletes t = 1%nat /\ used_after_free t = false)).
  { intros s0 H0. unfold BusCallbackDestroyNotify, content, set_content. do 4 wp_step. rewrite H0. cbn [m_bIsDisposed when].
    wp_steps. split; reflexivity. }
  destruct (HB _ Hcontent w2) as (R & -> & N). split_and!; [exact D | exact R | reflexivity | exact N | apply HN, Hcontent | apply HN, Hcontent].
Qed.

(** A playing pipeline with its watch. *)
Definition watched : pipeline := (player AVPlayback Playing) <| m_pBusSource := Some 7%nat |>.

(** The watch is busy: its notification is deferred. *)
Definition busy_env : Env :=
  scripted_env TargetLinux (fun R c =>
    match c in ext R return option R with g_source_destroy _ => Some false | _ => None end).

Lemma bus_content_freed_once_witness :
  let o1 := @Dispose busy_env watched tt in
  let o2 := @BusCallback busy_env GST_MESSAGE_EOS (ostate o1) tt in
  let o3 := @BusCallbackDestroyNotify busy_env (ostate o2) tt in
  content_deletes (otrace o1) = 0%nat /\ content_deletes (otrace o3) = 1%nat /\
  content_deletes (otrace (@Dispose (nominal_env TargetLinux) watched tt)) = 1%nat.
Proof.
  cbv zeta.
  pose proof (@bus_content_freed_once busy_env watched 10 7 GST_MESSAGE_EOS tt tt tt
                ltac:(reflexivity) ltac:(vm_compute; reflexivity) ltac:(reflexivity)) as (_ & H).
  pose proof (@bus_content_freed_once (nominal_env TargetLinux) watched 10 7 GST_MESSAGE_EOS tt tt tt
                ltac:(reflexivity) ltac:(vm_compute; reflexivity) ltac:(reflexivity)) as (_ & H2).
  split_and!; [exact (proj1 H) | exact (proj1 (proj2 (proj2 (proj2 (proj2 H))))) | exact H2].
Defined.

(** ** A bus watch that cannot be attached *)

Definition attach_refused (o : obs) : bool :=
  match o with
  | Obs c r => match c in ext R return R -> bool with g_source_attach _ => fun id => id =? 0 | _ => fun _ => false end r
  end.
Definition attach_failed (t : list obs) : bool := existsb attach_refused t.

Section AttachFailure.
Context `{EV : Env}.

(** Code that attaches nothing and frees nothing. *)
Definition detached (s s' : pipeline) (t : list obs) : Prop :=
  attach_failed t = false /\ existsb content_deleted t = false.
#[local] Instance detached_composable : Composable detached.
Proof.
  split; [split; reflexivity|]. intros s1 s2 s3 t1 t2 [A1 D1] [A2 D2]. unfold detached, attach_failed in *.
  rewrite !existsb_app, A1, A2, D1, D2. split; reflexivity.
Qed.
Ltac detached_side := split; reflexivity.

Lemma detached_PostBuildInit : sat detached PostBuildInit.
Proof.
  unfold PostBuildInit, virtual, AV_PostBuildInit, Audio_PostBuildInit, probe_decoder, add_probe, element, PM.
  solve_sat detached_side.
Qed.
Hint Resolve detached_PostBuildInit : frames.
Lemma detached_start_pipeline : sat detached start_pipeline.
Proof. unfold start_pipeline, static_decoder_bin, element, PM. solve_sat detached_side. Qed.

(** The shared object was freed but is still pointed to. *)
Definition dangling (r : ErrCode) (s' : pipeline) (t : list obs) : Prop :=
  attach_failed t = true ->
  r = ERROR_GSTREAMER_BUS_SOURCE_ATTACH /\ content_deletes t = 1%nat /\
  m_pBusCallbackContent s' = Some (mkBusCallbackContent false false false true).

Lemma dangling_prefix r s s1 s' t0 t : detached s s1 t0 -> dangling r s' t -> dangling r s' (t0 ++ t).
Proof.
  intros [A D] H. unfold dangling, attach_failed in *. rewrite existsb_app, A, content_deletes_app, (proj1 (no_deletes _ D)).
  exact H.
Qed.

Lemma watch_bus_dangling s : wp watch_bus s (fun r s' t => dangling r s' t /\ (r = ERROR_NONE -> attach_failed t = false /\ existsb content_deleted t = false)).
Proof.
  unfold watch_bus, set_content, element, dangling, attach_failed. wp_steps; split; intros; try discriminate; try (split; reflexivity).
  - simpl_set. split_and!; reflexivity.
  - cbn in H. rewrite Heqb1 in H. discriminate.
  - cbn. rewrite Heqb1. split; reflexivity.
Qed.

(** A detached step in front. *)
Lemma dangling_step {A} (m : PM A) (k : A -> PM ErrCode) s :
  sat detached m -> (forall a s1, wp (k a) s1 dangling) -> wp (bind m k) s dangling.
Proof.
  intros Hm Hk. apply wp_bind. eapply wp_mono; [apply Hm|]. cbn beta. intros a s1 t1 H1.
  eapply wp_mono; [apply Hk|]. cbn beta. intros r s2 t2. exact (dangling_prefix r s s1 s2 t1 t2 H1).
Qed.
Lemma dangling_detached (m : PM ErrCode) s : sat detached m -> wp m s dangling.
Proof.
  intros Hm. eapply wp_mono; [apply Hm|]. cbn beta. intros r s1 t1 [A D] H. congruence.
Qed.

Lemma Audio_Init_dangling s : wp Audio_Init s dangling.
Proof.
  unfold Audio_Init. do 2 (apply dangling_step; [unfold PM; solve_sat detached_side | intros]).
  destruct (negb a); [apply dangling_detached; unfold PM; solve_sat detached_side|].
  do 2 (apply dangling_step; [unfold PM; solve_sat detached_side | intros]).
  destruct (negb a1); [apply dangling_detached; unfold PM; solve_sat detached_side|].
  do 3 (apply dangling_step; [unfold PM; solve_sat detached_side | intros]).
  destruct (_ != _); [apply dangling_detached; unfold PM; solve_sat detached_side|].
  apply wp_bind. eapply wp_mono; [apply watch_bus_dangling|]. cbn beta. intros r s1' t1 [HD HN].
  destruct (r != ERROR_NONE) eqn:Er; [wp_step; rewrite app_nil_r; exact HD|]. bools.
  eapply wp_mono; [apply dangling_detached, detached_start_pipeline|]. cbn beta. intros r2 s2' t2.
  exact (dangling_prefix r2 s1' s1' s2' t1 t2 (HN Er)).
Qed.

Lemma Init_dangling s : wp Init s dangling.
Proof.
  unfold Init, virtual. do 2 wp_step. destruct (klass s); cbn [app]; [exact (Audio_Init_dangling s)|].
  unfold AV_Init.
  do 11 (apply dangling_step; [unfold element, PM; solve_sat detached_side | intros]). apply Audio_Init_dangling.
Qed.

(** Disposal takes the lock of the shared object whenever it is pointed to. *)
Definition uses {A} (a : A) (s : pipeline) (t : list obs) : Prop := existsb uses_content t = true.
Lemma uses_step {A B} (m : PM A) (k : A -> PM B) s c :
  sat untouched m -> m_pBusCallbackContent s = Some c ->
  (forall a s1, m_pBusCallbackContent s1 = Some c -> wp (k a) s1 uses) -> wp (bind m k) s uses.
Proof.
  intros Hm Hc Hk. apply wp_bind. eapply wp_mono; [apply Hm|]. cbn beta. intros a s1 t1 [H1 _].
  eapply wp_mono; [apply Hk; congruence|]. cbn beta. intros b s2 t2 H2. unfold uses in *. rewrite existsb_app, H2. apply orb_true_r.
Qed.
Lemma uses_bind {A B} (m : PM A) (k : A -> PM B) s : wp m s uses -> wp (bind m k) s uses.
Proof.
  intros Hm. apply wp_bind. eapply wp_mono; [exact Hm|]. cbn beta. intros a s1 t1 H1 w. unfold uses in *.
  rewrite existsb_app, H1. reflexivity.
Qed.
Lemma Audio_Dispose_uses s c : m_pBusCallbackContent s = Some c -> wp Audio_Dispose s uses.
Proof. intros Hc. unfold Audio_Dispose. do 2 wp_step. rewrite Hc. cbn [when]. do 2 apply uses_bind. wp_step. reflexivity. Qed.
Lemma Dispose_uses s c : m_pBusCallbackContent s = Some c -> wp Dispose s uses.
Proof.
  intros Hc. unfold Dispose, virtual. do 2 wp_step. destruct (klass s); [exact (Audio_Dispose_uses s c Hc)|].
  refine ((_ : wp AV_Dispose s uses)). unfold AV_Dispose.
  do 10 (eapply uses_step; [unfold element, PM; solve_frame | eassumption | intros]).
  apply uses_bind. eapply Audio_Dispose_uses. eassumption.
Qed.
End AttachFailure.

(** An unattached bus watch leaves a dangling pointer.  If GLib refuses to
    attach the watch, [Init] fails with the bus error after freeing the shared
    object, but the pipeline keeps pointing to it: disposing of the pipeline
    then takes the lock of an object that is gone. *)
Theorem attach_failure_dangles `{Env} (s : pipeline) (w w2 : world)
    (Hfail : attach_failed (otrace (Init s w)) = true) :
  oval (Init s w) = ERROR_GSTREAMER_BUS_SOURCE_ATTACH /\ content_deletes (otrace (Init s w)) = 1%nat /\
  used_after_free (otrace (Init s w) ++ otrace (Dispose (ostate (Init s w)) w2)) = true.
Proof.
  destruct (Init_dangling s w Hfail) as (R & D & C). split_and!; [exact R | exact D |].
  pose proof (Dispose_uses _ _ C w2) as U. unfold uses in U. clear R C Hfail. revert U D. unfold content_deletes.
  generalize (otrace (Dispose (ostate (Init s w)) w2)) as t2. generalize (otrace (Init s w)) as t1.
  induction t1 as [|o t1 IH]; intros t2 U; [discriminate|]. cbn. destruct (content_deleted o); cbn.
  - intros _. rewrite existsb_app, U, orb_true_r. reflexivity.
  - intros D. exact (IH t2 U D).
Qed.

Definition refusing_env : Env :=
  scripted_env TargetLinux (fun R c =>
    match c in ext R return option R with g_source_attach _ => Some 0 | _ => None end).

Lemma attach_failure_dangles_witness :
  let E := refusing_env in
  let s := player AVPlayback Unknown in
  oval (@Init E s tt) = ERROR_GSTREAMER_BUS_SOURCE_ATTACH /\
  used_after_free (otrace (@Init E s tt) ++ otrace (@Dispose E (ostate (@Init E s tt)) tt)) = true.
Proof.
  pose proof (@attach_failure_dangles refusing_env (player AVPlayback Unknown) tt tt ltac:(vm_compute; reflexivity)) as (H1 & _ & H2).
  split; [exact H1 | exact H2].
Defined.
