(* ===== verification/Sse2.v ===== *)
(** * Byte memory and the SSE2 intrinsics of [emmintrin.h]

    What the colour conversion routines ([ColorSimd.v], [ColorGeneric.v])
    use of the machine: a byte-addressed memory in which an access outside the
    mapped addresses, or a misaligned access of an aligned instruction, is a
    fault; 128-bit registers as lists of sixteen bytes, lowest lane first; and
    the intrinsics, each defined on the lanes its name says.  The second half
    holds the equations that evaluate an intrinsic on registers whose lanes
    are known, collected in the rewrite database [sse]. *)

From S2P Require Import Prelude.
Local Open Scope Z_scope.

(** ** Memory *)

Abbreviation mem := (gmap Z Z).

(** Every cell of a memory holds a byte. *)
Definition is_byte (b : Z) : Prop := 0 <= b < 256.
Definition byte_mem (m : mem) : Prop := map_Forall (fun _ b => is_byte b) m.

(** Code that reads and writes memory; [None] is a fault. *)
Definition MM (A : Type) : Type := mem -> option (A * mem).
Definition mm_ret {A} (a : A) : MM A := fun m => Some (a, m).
Definition mm_bind {A B} (c : MM A) (k : A -> MM B) : MM B := fun m =>
  match c m with Some (a, m') => k a m' | None => None end.
Definition mm_fault {A} : MM A := fun _ => None.

Declare Scope mem_scope.
Delimit Scope mem_scope with mem.
Notation "'let!' x := c 'in' k" := (mm_bind c (fun x => k))
  (at level 10, x name, c at level 100, k at level 200) : mem_scope.
Notation "'do!' c 'in' k" := (mm_bind c (fun _ => k))
  (at level 10, c at level 100, k at level 200) : mem_scope.
Local Open Scope mem_scope.

(** [n] bytes from address [p] on. *)
Fixpoint read (n : nat) (p : Z) (m : mem) : option (list Z) :=
  match n with
  | O => Some []
  | S n => match m !! p, read n (p + 1) m with
           | Some b, Some bs => Some (b :: bs)
           | _, _ => None
           end
  end.
Definition load (n : nat) (p : Z) : MM (list Z) := fun m =>
  match read n p m with Some bs => Some (bs, m) | None => None end.

(** The memory with the bytes [bs] at [p]. *)
Fixpoint upd (p : Z) (bs : list Z) (m : mem) : mem :=
  match bs with
  | [] => m
  | b :: bs => upd (p + 1) bs (<[p := b]> m)
  end.
(** All of [n] addresses from [p] on are mapped. *)
Fixpoint mapped (n : nat) (p : Z) (m : mem) : bool :=
  match n with
  | O => true
  | S n => match m !! p with Some _ => mapped n (p + 1) m | None => false end
  end.
Definition store (p : Z) (bs : list Z) : MM unit := fun m =>
  if mapped (length bs) p m then Some (tt, upd p bs m) else None.

(** ** Lanes *)

Definition u16 (z : Z) : Z := z mod 65536.
Definition s16 (z : Z) : Z := (z + 32768) mod 65536 - 32768.
Definition lo (w : Z) : Z := w mod 256.
Definition hi (w : Z) : Z := w / 256 mod 256.
Definition word (l h : Z) : Z := l + 256 * h.
(** Signed saturation to an unsigned byte. *)
Definition sat_u8 (z : Z) : Z := if z <? 0 then 0 else if 255 <? z then 255 else z.

Definition m128i : Type := list Z.
(** The 16-bit lanes of a register and the register with given lanes. *)
Fixpoint words (r : m128i) : list Z :=
  match r with
  | l :: h :: r => word l h :: words r
  | _ => []
  end.
Fixpoint bytes (ws : list Z) : m128i :=
  match ws with
  | [] => []
  | w :: ws => lo w :: hi w :: bytes ws
  end.

(** [k] chunks of [n] bytes taken from [a] and [b] in turn. *)
Fixpoint zip_chunks (n k : nat) (a b : m128i) : m128i :=
  match k with
  | O => []
  | S k => firstn n a ++ firstn n b ++ zip_chunks n k (skipn n a) (skipn n b)
  end.
Definition unpacklo (n : nat) (a b : m128i) : m128i := zip_chunks n (8 / n) (firstn 8 a) (firstn 8 b).
Definition unpackhi (n : nat) (a b : m128i) : m128i := zip_chunks n (8 / n) (skipn 8 a) (skipn 8 b).

Fixpoint map2 (f : Z -> Z -> Z) (a b : list Z) : list Z :=
  match a, b with
  | x :: a, y :: b => f x y :: map2 f a b
  | _, _ => []
  end.
Definition lift1 (f : Z -> Z) (a : m128i) : m128i := bytes (map f (words a)).
Definition lift2 (f : Z -> Z -> Z) (a b : m128i) : m128i := bytes (map2 f (words a) (words b)).

(** ** The intrinsics *)

Definition mm_setzero_si128 : m128i := repeat 0 16.
Definition mm_set1_epi8 (b : Z) : m128i := repeat (b mod 256) 16.
Definition mm_set1_epi16 (w : Z) : m128i := bytes (repeat w 8).
Definition mm_unpacklo_epi8 := unpacklo 1.
Definition mm_unpackhi_epi8 := unpackhi 1.
Definition mm_unpacklo_epi16 := unpacklo 2.
Definition mm_unpackhi_epi16 := unpackhi 2.
Definition mm_unpacklo_epi32 := unpacklo 4.
Definition mm_unpackhi_epi32 := unpackhi 4.
Definition mm_unpacklo_epi64 := unpacklo 8.
Definition mm_unpackhi_epi64 := unpackhi 8.
Definition mm_add_epi16 := lift2 (fun x y => u16 (x + y)).
Definition mm_sub_epi16 := lift2 (fun x y => u16 (x - y)).
Definition mm_mullo_epi16 := lift2 (fun x y => u16 (x * y)).
Definition mm_mulhi_epu16 := lift2 (fun x y => x * y / 65536).
Definition mm_srli_epi16 (a : m128i) (n : Z) : m128i := lift1 (fun x => x / 2 ^ n) a.
Definition mm_srai_epi16 (a : m128i) (n : Z) : m128i := lift1 (fun x => u16 (s16 x / 2 ^ n)) a.
Definition mm_packus_epi16 (a b : m128i) : m128i := map (fun w => sat_u8 (s16 w)) (words a ++ words b).
Definition mm_srli_si128 (a : m128i) (n : nat) : m128i := skipn n a ++ repeat 0 n.
(** The 32-bit integer [i] in the lowest lane, the rest zero. *)
Definition mm_cvtsi32_si128 (i : Z) : m128i :=
  [i mod 256; i / 256 mod 256; i / 65536 mod 256; i / 16777216 mod 256] ++ repeat 0 12.

Definition aligned (p : Z) : bool := p mod 16 =? 0.
Definition mm_loadl_epi64 (p : Z) : MM m128i := let! b := load 8 p in mm_ret (b ++ repeat 0 8).
Definition mm_loadu_si128 (p : Z) : MM m128i := load 16 p.
Definition mm_load_si128 (p : Z) : MM m128i := if aligned p then load 16 p else mm_fault.
Definition mm_store_si128 (p : Z) (a : m128i) : MM unit := if aligned p then store p a else mm_fault.
Definition mm_storel_epi64 (p : Z) (a : m128i) : MM unit := store p (firstn 8 a).

(** Reading an integer through a cast pointer; little endian. *)
Definition load_uint8 (p : Z) : MM Z :=
  let! b := load 1 p in mm_ret (nth 0 b 0).
Definition load_uint16 (p : Z) : MM Z :=
  let! b := load 2 p in mm_ret (nth 0 b 0 + 256 * nth 1 b 0).
Definition load_int32 (p : Z) : MM Z :=
  let! b := load 4 p in
  mm_ret (s32 (nth 0 b 0 + 256 * nth 1 b 0 + 65536 * nth 2 b 0 + 16777216 * nth 3 b 0)).

(** ** Memory lemmas *)

Lemma upd_lookup_out x bs : forall p m, x < p \/ p + Z.of_nat (length bs) <= x -> upd p bs m !! x = m !! x.
Proof.
  induction bs as [|b bs IH]; intros p m H; [reflexivity|]. cbn [upd length] in *.
  rewrite IH by lia. rewrite lookup_insert_ne by lia. reflexivity.
Qed.

Lemma upd_lookup_in (i : nat) b bs : forall p m, bs !! i = Some b -> upd p bs m !! (p + Z.of_nat i) = Some b.
Proof.
  revert i. induction bs as [|c bs IH]; intros i p m H; [discriminate|]. cbn [upd].
  destruct i as [|i]; cbn in H.
  - injection H as ->. rewrite Z.add_0_r, upd_lookup_out by lia. apply lookup_insert_eq.
  - rewrite <- (IH i (p + 1) (<[p := c]> m) H). f_equal. lia.
Qed.

Lemma upd_app a : forall p b m, upd p (a ++ b) m = upd (p + Z.of_nat (length a)) b (upd p a m).
Proof.
  induction a as [|x a IH]; intros p b m; cbn [app length upd]; [f_equal; lia|].
  rewrite IH. f_equal; lia.
Qed.

Lemma upd_insert_comm a : forall p q b m, q < p \/ p + Z.of_nat (length a) <= q ->
  upd p a (<[q := b]> m) = <[q := b]> (upd p a m).
Proof.
  induction a as [|x a IH]; intros p q b m H; [reflexivity|]. cbn [upd length] in *.
  rewrite insert_insert_ne by lia. apply IH. lia.
Qed.

(** Writes to separate ranges commute. *)
Lemma upd_comm b : forall p q a m,
  p + Z.of_nat (length a) <= q \/ q + Z.of_nat (length b) <= p -> upd p a (upd q b m) = upd q b (upd p a m).
Proof.
  induction b as [|x b IH]; intros p q a m H; [reflexivity|]. cbn [upd length] in *.
  rewrite IH by lia. f_equal. apply upd_insert_comm. lia.
Qed.

(** A write does not change what is read elsewhere. *)
Lemma read_upd n : forall p q bs m,
  p + Z.of_nat n <= q \/ q + Z.of_nat (length bs) <= p -> read n p (upd q bs m) = read n p m.
Proof.
  induction n as [|n IH]; intros p q bs m H; [reflexivity|]. cbn [read].
  rewrite IH by lia. rewrite upd_lookup_out by lia. reflexivity.
Qed.

Lemma mapped_spec n : forall p m, mapped n p m = true <-> forall i, 0 <= i < Z.of_nat n -> is_Some (m !! (p + i)).
Proof.
  induction n as [|n IH]; intros p m; cbn [mapped]; [split; [lia | reflexivity]|]. split.
  - destruct (m !! p) as [b|] eqn:E; [|discriminate]. rewrite IH. intros H i Hi.
    destruct (Z.eq_dec i 0) as [->|]; [rewrite Z.add_0_r, E; eauto|].
    replace (p + i) with (p + 1 + (i - 1)) by lia. apply H. lia.
  - intros H. destruct (H 0 ltac:(lia)) as [b E]. rewrite Z.add_0_r in E. rewrite E. apply IH.
    intros i Hi. replace (p + 1 + i) with (p + (i + 1)) by lia. apply H. lia.
Qed.

Lemma upd_is_Some x bs : forall p m, is_Some (m !! x) -> is_Some (upd p bs m !! x).
Proof.
  induction bs as [|b bs IH]; intros p m H; [exact H|]. cbn [upd]. apply IH.
  destruct (Z.eq_dec p x) as [->|]; [rewrite lookup_insert_eq; eauto | rewrite lookup_insert_ne by lia; exact H].
Qed.

Lemma mapped_upd n p q bs m : mapped n p m = true -> mapped n p (upd q bs m) = true.
Proof. rewrite !mapped_spec. intros H i Hi. apply upd_is_Some, H, Hi. Qed.

Lemma mapped_sub n k p q m :
  p <= q -> q + Z.of_nat k <= p + Z.of_nat n -> mapped n p m = true -> mapped k q m = true.
Proof.
  rewrite !mapped_spec. intros H1 H2 H i Hi. replace (q + i) with (p + (q - p + i)) by lia. apply H. lia.
Qed.

Lemma read_length n : forall p m bs, read n p m = Some bs -> length bs = n.
Proof.
  induction n as [|n IH]; intros p m bs; cbn [read]; [intros [= <-]; reflexivity|].
  destruct (m !! p); [|discriminate]. destruct (read n (p + 1) m) eqn:E; [|discriminate].
  intros [= <-]. cbn. f_equal. eapply IH, E.
Qed.

Lemma read_bytes n m : byte_mem m -> forall p bs, read n p m = Some bs -> Forall is_byte bs.
Proof.
  intros Hm. induction n as [|n IH]; intros p bs; cbn [read]; [intros [= <-]; constructor|].
  destruct (m !! p) as [b|] eqn:Eb; [|discriminate]. destruct (read n (p + 1) m) eqn:E; [|discriminate].
  intros [= <-]. constructor; [apply (Hm _ _ Eb) | eapply IH, E].
Qed.

Lemma read_app a : forall b p m,
  read (a + b) p m = match read a p m, read b (p + Z.of_nat a) m with
                     | Some x, Some y => Some (x ++ y) | _, _ => None end.
Proof.
  induction a as [|a IH]; intros b p m; cbn [Nat.add read].
  - rewrite Z.add_0_r. destruct (read b p m); reflexivity.
  - rewrite IH. destruct (m !! p); [|reflexivity].
    replace (p + 1 + Z.of_nat a) with (p + Z.of_nat (S a)) by lia.
    destruct (read a (p + 1) m); [|reflexivity]. destruct (read b _ m); reflexivity.
Qed.

(** A range that can be read can be read in two parts. *)
Lemma read_split a b p m bs : read (a + b) p m = Some bs ->
  read a p m = Some (firstn a bs) /\ read b (p + Z.of_nat a) m = Some (skipn a bs).
Proof.
  rewrite read_app. destruct (read a p m) as [x|] eqn:Ex; [|discriminate].
  destruct (read b _ m) as [y|] eqn:Ey; [|discriminate]. intros [= <-].
  apply read_length in Ex as <-. rewrite firstn_app, skipn_app, firstn_all, skipn_all, Nat.sub_diag.
  cbn. rewrite app_nil_r. split; reflexivity.
Qed.

Lemma read_lookup n : forall p m bs (c : nat), read n p m = Some bs -> (c < n)%nat -> bs !! c = m !! (p + Z.of_nat c).
Proof.
  induction n as [|n IH]; intros p m bs c E Hc; [lia|]. cbn [read] in E.
  destruct (m !! p) as [b|] eqn:Eb; [|discriminate]. destruct (read n (p + 1) m) as [bs'|] eqn:E'; [|discriminate].
  injection E as <-. destruct c as [|c]; [rewrite Z.add_0_r; symmetry; exact Eb|].
  cbn. rewrite (IH _ _ _ _ E') by lia. f_equal. lia.
Qed.

Lemma mapped_read n : forall p m, mapped n p m = true -> exists bs, read n p m = Some bs.
Proof.
  induction n as [|n IH]; intros p m; cbn [mapped read]; [eauto|].
  destruct (m !! p); [|discriminate]. intros [bs ->]%IH. eauto.
Qed.

#[global] Arguments read : simpl never.
#[global] Arguments upd : simpl never.
#[global] Arguments mapped : simpl never.

(** ** Evaluating the intrinsics

    Registers of 16-bit lanes are kept in the form [bytes ws]; bytes widened
    into the upper or the lower half of their lane are [spread bs] and
    [widen bs]. *)

Lemma word_lo_hi w : word (lo w) (hi w) = u16 w.
Proof. unfold word, lo, hi, u16. divlia. Qed.

Lemma words_bytes ws : words (bytes ws) = map u16 ws.
Proof. induction ws as [|w ws IH]; cbn [bytes words map]; [reflexivity|]. rewrite word_lo_hi, IH. reflexivity. Qed.

Lemma u16_u16 z : u16 (u16 z) = u16 z.
Proof. unfold u16. divlia. Qed.
Lemma s16_u16 z : s16 (u16 z) = s16 z.
Proof. unfold u16, s16. divlia. Qed.
Lemma u16_add x y : u16 (u16 x + u16 y) = u16 (x + y).
Proof. unfold u16. divlia. Qed.
Lemma u16_sub x y : u16 (u16 x - u16 y) = u16 (x - y).
Proof. unfold u16. divlia. Qed.

Lemma map2_ext f g h (E : forall x y, f (h x) (h y) = g x y) a : forall b,
  map2 f (map h a) (map h b) = map2 g a b.
Proof. induction a as [|x a IH]; intros [|y b]; cbn; rewrite ?E, ?IH; reflexivity. Qed.

Lemma add_epi16_bytes a b : mm_add_epi16 (bytes a) (bytes b) = bytes (map2 (fun x y => u16 (x + y)) a b).
Proof. unfold mm_add_epi16, lift2. rewrite !words_bytes. f_equal. apply map2_ext, u16_add. Qed.

Lemma sub_epi16_bytes a b : mm_sub_epi16 (bytes a) (bytes b) = bytes (map2 (fun x y => u16 (x - y)) a b).
Proof. unfold mm_sub_epi16, lift2. rewrite !words_bytes. f_equal. apply map2_ext, u16_sub. Qed.

Lemma srai_epi16_bytes a n : mm_srai_epi16 (bytes a) n = bytes (map (fun x => u16 (s16 x / 2 ^ n)) a).
Proof.
  unfold mm_srai_epi16, lift1. rewrite words_bytes, map_map. f_equal. apply map_ext.
  intros x. rewrite s16_u16. reflexivity.
Qed.

Lemma packus_epi16_bytes a b : mm_packus_epi16 (bytes a) (bytes b) = map (fun w => sat_u8 (s16 w)) (a ++ b).
Proof.
  unfold mm_packus_epi16. rewrite !words_bytes, <- map_app, map_map. apply map_ext.
  intros x. rewrite s16_u16. reflexivity.
Qed.

Lemma packus_epi16_zero a :
  mm_packus_epi16 (bytes a) mm_setzero_si128 = map (fun w => sat_u8 (s16 w)) a ++ repeat 0 8.
Proof. change mm_setzero_si128 with (bytes (repeat 0 8)). rewrite packus_epi16_bytes, map_app. reflexivity. Qed.

Fixpoint spread (bs : list Z) : m128i :=
  match bs with [] => [] | b :: bs => 0 :: b :: spread bs end.
Fixpoint widen (bs : list Z) : m128i :=
  match bs with [] => [] | b :: bs => b :: 0 :: widen bs end.

Lemma words_spread bs : words (spread bs) = map (word 0) bs.
Proof. induction bs as [|b bs IH]; cbn [spread words map]; rewrite ?IH; reflexivity. Qed.
Lemma words_widen bs : words (widen bs) = map (fun b => word b 0) bs.
Proof. induction bs as [|b bs IH]; cbn [widen words map]; rewrite ?IH; reflexivity. Qed.

Section Lanes.
Variables a0 a1 a2 a3 a4 a5 a6 a7 b0 b1 b2 b3 b4 b5 b6 b7 : Z.
Let a := [a0; a1; a2; a3; a4; a5; a6; a7].
Let b := [b0; b1; b2; b3; b4; b5; b6; b7].

Lemma unpacklo_epi8_zero : mm_unpacklo_epi8 mm_setzero_si128 (a0::a1::a2::a3::a4::a5::a6::a7::b) = spread a.
Proof. reflexivity. Qed.
Lemma unpackhi_epi8_zero : mm_unpackhi_epi8 mm_setzero_si128 (a0::a1::a2::a3::a4::a5::a6::a7::b) = spread b.
Proof. reflexivity. Qed.
Lemma unpacklo_epi8_widen : mm_unpacklo_epi8 (a0::a1::a2::a3::a4::a5::a6::a7::b) mm_setzero_si128 = widen a.
Proof. reflexivity. Qed.
Lemma unpackhi_epi8_widen : mm_unpackhi_epi8 (a0::a1::a2::a3::a4::a5::a6::a7::b) mm_setzero_si128 = widen b.
Proof. reflexivity. Qed.

Lemma mulhi_epu16_spread c :
  mm_mulhi_epu16 (spread a) (mm_set1_epi16 c) = bytes (map (fun x => word 0 x * u16 c / 65536) a).
Proof.
  unfold mm_mulhi_epu16, lift2, mm_set1_epi16. rewrite words_spread, words_bytes. reflexivity.
Qed.

Lemma unpacklo_epi16_bytes : mm_unpacklo_epi16 (bytes a) (bytes b) = bytes [a0; b0; a1; b1; a2; b2; a3; b3].
Proof. reflexivity. Qed.
Lemma unpackhi_epi16_bytes : mm_unpackhi_epi16 (bytes a) (bytes b) = bytes [a4; b4; a5; b5; a6; b6; a7; b7].
Proof. reflexivity. Qed.
Lemma unpacklo_epi32_bytes : mm_unpacklo_epi32 (bytes a) (bytes b) = bytes [a0; a1; b0; b1; a2; a3; b2; b3].
Proof. reflexivity. Qed.
Lemma unpackhi_epi32_bytes : mm_unpackhi_epi32 (bytes a) (bytes b) = bytes [a4; a5; b4; b5; a6; a7; b6; b7].
Proof. reflexivity. Qed.
End Lanes.

Create Rewrite HintDb sse.
#[export] Hint Rewrite add_epi16_bytes sub_epi16_bytes srai_epi16_bytes packus_epi16_bytes packus_epi16_zero
  unpacklo_epi8_zero unpackhi_epi8_zero mulhi_epu16_spread unpacklo_epi16_bytes unpackhi_epi16_bytes
  unpacklo_epi32_bytes unpackhi_epi32_bytes : sse.
