(* ===== verification/ColorFrame.v ===== *)
(** * What the colour conversion functions share

    The arguments of a conversion ([image]), the pointers its loops move
    ([cursor]) and the loop over pairs of rows, which the 4:2:0 functions of
    [ColorConverter.c] repeat in their SSE2 and in their portable form
    ([ColorSimd.v], [ColorGeneric.v]). *)

From S2P Require Import Prelude Sse2.
Local Open Scope Z_scope.
Local Open Scope mem_scope.

(** ** Pointers of a row pair

    The functions without alpha have no [px_a1] and [px_a2]. *)
Record cursor := mkCursor {
  px_y1 : Z; px_y2 : Z; pm_u : Z; pm_v : Z; px_a1 : Z; px_a2 : Z; pd1 : Z; pd2 : Z }.

(** Arguments of a conversion; [a] and [a_stride] are not arguments of the
    functions without alpha. *)
Record image := mkImage {
  i_dst : Z; i_dst_stride : Z; i_width : Z; i_height : Z;
  i_y : Z; i_v : Z; i_u : Z; i_a : Z; i_y_stride : Z; i_v_stride : Z; i_u_stride : Z; i_a_stride : Z }.

(** [pY1], [pY2], [pU], [pV], [pA1], [pA2], [pD1] and [pD2]. *)
Definition first_rows (i : image) : cursor :=
  mkCursor (i_y i) (i_y i + i_y_stride i) (i_u i) (i_v i) (i_a i) (i_a i + i_a_stride i) (i_dst i) (i_dst i + i_dst_stride i).
Definition next_rows (i : image) (c : cursor) : cursor :=
  mkCursor (px_y1 c + s32 (2 * i_y_stride i)) (px_y2 c + s32 (2 * i_y_stride i)) (pm_u c + i_u_stride i) (pm_v c + i_v_stride i)
    (px_a1 c + s32 (2 * i_a_stride i)) (px_a2 c + s32 (2 * i_a_stride i))
    (pd1 c + s32 (2 * i_dst_stride i)) (pd2 c + s32 (2 * i_dst_stride i)).

(** [for (jH = 0; jH < (height >> 1); jH++)], with [n] iterations left; the
    body is given the pointers of its two rows. *)
Fixpoint rows (body : cursor -> MM unit) (i : image) (n : nat) (c : cursor) : MM unit :=
  match n with
  | O => mm_ret tt
  | S n => do! body c in rows body i n (next_rows i c)
  end.
