(* ===== verification/ColorSimd.v ===== *)
(** * The SSE2 colour conversion routines of [ColorConverter.c]

    The four functions of the [ENABLE_SIMD_SSE2] half of
    [jfxmedia/Utils/ColorConverter.c], which turn planar YCbCr 4:2:0 frames
    into packed ARGB or BGRA, with or without an alpha plane.  Each converts
    two rows at a time, sixteen columns per step and then eight, four and two
    columns of the rest.  The four steps of each function are one definition
    each ([ARGB32_16], ..., [BGRA32_no_alpha_2]), statement by statement; the
    arithmetic between loading and packing is the same text in the four
    functions and is the definitions [ycc16], [ycc8], [ycc4] and [ycc2].  The
    body of the row loop, again the same text four times, is [row_pair], given
    the steps of the function. *)

From S2P Require Import Prelude Sse2 ColorFrame.
Local Open Scope Z_scope.
Local Open Scope mem_scope.

(** ** Constants *)

Definition x_c0 : m128i := mm_set1_epi16 0x2543.
Definition x_c1 : m128i := mm_set1_epi16 0x4097.
Definition ic1 : Z := 0x4097.
Definition x_c4 : m128i := mm_set1_epi16 0xc8b.
Definition ic4 : Z := 0xc8b.
Definition x_c5 : m128i := mm_set1_epi16 0x1a06.
Definition ic5 : Z := 0x1a06.
Definition x_c8 : m128i := mm_set1_epi16 0x3317.
Definition ic8 : Z := 0x3317.
Definition x_coff0 : m128i := mm_set1_epi16 0xdd60.
Definition icoff0 : Z := s32 0xffffdd60.
Definition x_coff1 : m128i := mm_set1_epi16 0x10f4.
Definition icoff1 : Z := 0x10f4.
Definition x_coff2 : m128i := mm_set1_epi16 0xe420.
Definition icoff2 : Z := s32 0xffffe420.
Definition x_zero : m128i := mm_setzero_si128.
Definition x_one : m128i := mm_set1_epi16 0x0001.
Definition x_aa : m128i := mm_set1_epi8 0xff.

(** The macros [_mm_storeh_epi64] and [PREMULTIPLY_ALPHA]; the second leaves
    its result in its first argument, its scratch registers are dead after. *)
Definition mm_storeh_epi64 (p : Z) (x_a : m128i) : MM unit :=
  let x_ra := mm_srli_si128 x_a 8 in mm_storel_epi64 p x_ra.

Definition PREMULTIPLY_ALPHA (cc aa : m128i) : m128i :=
  let x_temp := mm_unpacklo_epi8 cc x_zero in
  let x_temp1 := mm_unpacklo_epi8 aa x_zero in
  let x_temp1 := mm_add_epi16 x_temp1 x_one in
  let tt := mm_mullo_epi16 x_temp x_temp1 in
  let tt := mm_srli_epi16 tt 8 in
  let x_temp := mm_unpackhi_epi8 cc x_zero in
  let x_temp1 := mm_unpackhi_epi8 aa x_zero in
  let x_temp1 := mm_add_epi16 x_temp1 x_one in
  let x_temp1 := mm_mullo_epi16 x_temp x_temp1 in
  let x_temp1 := mm_srli_epi16 x_temp1 8 in
  mm_packus_epi16 tt x_temp1.

(** ** The arithmetic of a step

    From the chroma and luma lanes to the colour lanes before saturation.  In
    the four-column step the source also multiplies [x_y2], left over from an
    earlier step; nothing reads it before it is loaded again. *)

Definition half_dozen (A : Type) : Type := A * A * A * A * A * A.
Definition dozen (A : Type) : Type := A * A * A * A * A * A * A * A * A * A * A * A.

Definition ycc16 (x_u x_v x_y1 x_y2 x_y3 x_y4 : m128i) : dozen m128i :=
  let x_u0 := mm_mulhi_epu16 x_u x_c1 in let x_b := mm_add_epi16 x_u0 x_coff0 in
  let x_u1 := mm_mulhi_epu16 x_u x_c4 in let x_v1 := mm_mulhi_epu16 x_v x_c5 in
  let x_temp := mm_add_epi16 x_u1 x_v1 in let x_g := mm_sub_epi16 x_coff1 x_temp in
  let x_v2 := mm_mulhi_epu16 x_v x_c8 in let x_r := mm_add_epi16 x_v2 x_coff2 in
  let x_y1 := mm_mulhi_epu16 x_y1 x_c0 in let x_y2 := mm_mulhi_epu16 x_y2 x_c0 in
  let x_y3 := mm_mulhi_epu16 x_y3 x_c0 in let x_y4 := mm_mulhi_epu16 x_y4 x_c0 in
  let x_bak := mm_unpacklo_epi16 x_b x_b in let x_temp := mm_unpacklo_epi32 x_bak x_bak in
  let x_b1 := mm_add_epi16 x_y1 x_temp in let x_temp := mm_unpackhi_epi32 x_bak x_bak in
  let x_b2 := mm_add_epi16 x_y2 x_temp in
  let x_bak := mm_unpackhi_epi16 x_b x_b in let x_temp := mm_unpacklo_epi32 x_bak x_bak in
  let x_b3 := mm_add_epi16 x_y3 x_temp in let x_temp := mm_unpackhi_epi32 x_bak x_bak in
  let x_b4 := mm_add_epi16 x_y4 x_temp in
  let x_bak := mm_unpacklo_epi16 x_g x_g in let x_temp := mm_unpacklo_epi32 x_bak x_bak in
  let x_g1 := mm_add_epi16 x_y1 x_temp in let x_temp := mm_unpackhi_epi32 x_bak x_bak in
  let x_g2 := mm_add_epi16 x_y2 x_temp in
  let x_bak := mm_unpackhi_epi16 x_g x_g in let x_temp := mm_unpacklo_epi32 x_bak x_bak in
  let x_g3 := mm_add_epi16 x_y3 x_temp in let x_temp := mm_unpackhi_epi32 x_bak x_bak in
  let x_g4 := mm_add_epi16 x_y4 x_temp in
  let x_bak := mm_unpacklo_epi16 x_r x_r in let x_temp := mm_unpacklo_epi32 x_bak x_bak in
  let x_r1 := mm_add_epi16 x_y1 x_temp in let x_temp := mm_unpackhi_epi32 x_bak x_bak in
  let x_r2 := mm_add_epi16 x_y2 x_temp in
  let x_bak := mm_unpackhi_epi16 x_r x_r in let x_temp := mm_unpacklo_epi32 x_bak x_bak in
  let x_r3 := mm_add_epi16 x_y3 x_temp in let x_temp := mm_unpackhi_epi32 x_bak x_bak in
  let x_r4 := mm_add_epi16 x_y4 x_temp in
  let x_b1 := mm_srai_epi16 x_b1 5 in let x_b2 := mm_srai_epi16 x_b2 5 in let x_b3 := mm_srai_epi16 x_b3 5 in
  let x_b4 := mm_srai_epi16 x_b4 5 in let x_g1 := mm_srai_epi16 x_g1 5 in let x_g2 := mm_srai_epi16 x_g2 5 in
  let x_g3 := mm_srai_epi16 x_g3 5 in let x_g4 := mm_srai_epi16 x_g4 5 in let x_r1 := mm_srai_epi16 x_r1 5 in
  let x_r2 := mm_srai_epi16 x_r2 5 in let x_r3 := mm_srai_epi16 x_r3 5 in let x_r4 := mm_srai_epi16 x_r4 5 in
  (x_b1, x_b2, x_b3, x_b4, x_g1, x_g2, x_g3, x_g4, x_r1, x_r2, x_r3, x_r4).

Definition ycc8 (x_u x_v x_y1 x_y2 : m128i) : half_dozen m128i :=
  let x_u0 := mm_mulhi_epu16 x_u x_c1 in let x_b := mm_add_epi16 x_u0 x_coff0 in
  let x_u1 := mm_mulhi_epu16 x_u x_c4 in let x_v1 := mm_mulhi_epu16 x_v x_c5 in
  let x_temp := mm_add_epi16 x_u1 x_v1 in let x_g := mm_sub_epi16 x_coff1 x_temp in
  let x_v2 := mm_mulhi_epu16 x_v x_c8 in let x_r := mm_add_epi16 x_v2 x_coff2 in
  let x_y1 := mm_mulhi_epu16 x_y1 x_c0 in let x_y2 := mm_mulhi_epu16 x_y2 x_c0 in
  let x_bak := mm_unpacklo_epi16 x_b x_b in let x_temp := mm_unpacklo_epi32 x_bak x_bak in
  let x_b1 := mm_add_epi16 x_y1 x_temp in let x_temp := mm_unpackhi_epi32 x_bak x_bak in
  let x_b2 := mm_add_epi16 x_y2 x_temp in
  let x_bak := mm_unpacklo_epi16 x_g x_g in let x_temp := mm_unpacklo_epi32 x_bak x_bak in
  let x_g1 := mm_add_epi16 x_y1 x_temp in let x_temp := mm_unpackhi_epi32 x_bak x_bak in
  let x_g2 := mm_add_epi16 x_y2 x_temp in
  let x_bak := mm_unpacklo_epi16 x_r x_r in let x_temp := mm_unpacklo_epi32 x_bak x_bak in
  let x_r1 := mm_add_epi16 x_y1 x_temp in let x_temp := mm_unpackhi_epi32 x_bak x_bak in
  let x_r2 := mm_add_epi16 x_y2 x_temp in
  let x_b1 := mm_srai_epi16 x_b1 5 in let x_b2 := mm_srai_epi16 x_b2 5 in let x_g1 := mm_srai_epi16 x_g1 5 in
  let x_g2 := mm_srai_epi16 x_g2 5 in let x_r1 := mm_srai_epi16 x_r1 5 in let x_r2 := mm_srai_epi16 x_r2 5 in
  (x_b1, x_b2, x_g1, x_g2, x_r1, x_r2).

Definition ycc4 (x_u x_v x_y1 : m128i) : m128i * m128i * m128i :=
  let x_u0 := mm_mulhi_epu16 x_u x_c1 in let x_b := mm_add_epi16 x_u0 x_coff0 in
  let x_u1 := mm_mulhi_epu16 x_u x_c4 in let x_v1 := mm_mulhi_epu16 x_v x_c5 in
  let x_temp := mm_add_epi16 x_u1 x_v1 in let x_g := mm_sub_epi16 x_coff1 x_temp in
  let x_v2 := mm_mulhi_epu16 x_v x_c8 in let x_r := mm_add_epi16 x_v2 x_coff2 in
  let x_y1 := mm_mulhi_epu16 x_y1 x_c0 in
  let x_bak := mm_unpacklo_epi16 x_b x_b in let x_temp := mm_unpacklo_epi32 x_bak x_bak in
  let x_b1 := mm_add_epi16 x_y1 x_temp in
  let x_bak := mm_unpacklo_epi16 x_g x_g in let x_temp := mm_unpacklo_epi32 x_bak x_bak in
  let x_g1 := mm_add_epi16 x_y1 x_temp in
  let x_bak := mm_unpacklo_epi16 x_r x_r in let x_temp := mm_unpacklo_epi32 x_bak x_bak in
  let x_r1 := mm_add_epi16 x_y1 x_temp in
  let x_b1 := mm_srai_epi16 x_b1 5 in let x_g1 := mm_srai_epi16 x_g1 5 in let x_r1 := mm_srai_epi16 x_r1 5 in
  (x_b1, x_g1, x_r1).

Definition ycc2 (iu iv : Z) (x_y1 : m128i) : m128i * m128i * m128i :=
  let iu0 := Z.shiftr (iu * ic1) 8 in let ib := icoff0 + iu0 in
  let iu1 := Z.shiftr (iu * ic4) 8 in let iv1 := Z.shiftr (iv * ic5) 8 in let iTemp := iu1 + iv1 in
  let ig := icoff1 - iTemp in
  let iv2 := Z.shiftr (iv * ic8) 8 in let ir := iv2 + icoff2 in
  let x_y1 := mm_mulhi_epu16 x_y1 x_c0 in
  let x_temp := mm_set1_epi16 ib in let x_b1 := mm_add_epi16 x_y1 x_temp in
  let x_temp := mm_set1_epi16 ig in let x_g1 := mm_add_epi16 x_y1 x_temp in
  let x_temp := mm_set1_epi16 ir in let x_r1 := mm_add_epi16 x_y1 x_temp in
  let x_b1 := mm_srai_epi16 x_b1 5 in let x_g1 := mm_srai_epi16 x_g1 5 in let x_r1 := mm_srai_epi16 x_r1 5 in
  (x_b1, x_g1, x_r1).

(** ** The steps *)

Definition ARGB32_16 (load_si128 : Z -> MM m128i) (c : cursor) : MM cursor :=
  let (px_y1, px_y2, pm_u, pm_v, px_a1, px_a2, pd1, pd2) := c in
  let! x_temp := mm_loadl_epi64 pm_u in let x_u := mm_unpacklo_epi8 x_zero x_temp in let pm_u := pm_u + 8 in
  let! x_temp := mm_loadl_epi64 pm_v in let x_v := mm_unpacklo_epi8 x_zero x_temp in let pm_v := pm_v + 8 in
  let! x_temp := load_si128 px_y1 in let px_y1 := px_y1 + 16 in let! x_temp1 := load_si128 px_y2 in
  let px_y2 := px_y2 + 16 in let x_out := mm_unpacklo_epi16 x_temp x_temp1 in
  let x_y1 := mm_unpacklo_epi8 x_zero x_out in let x_y2 := mm_unpackhi_epi8 x_zero x_out in
  let x_out := mm_unpackhi_epi16 x_temp x_temp1 in let x_y3 := mm_unpacklo_epi8 x_zero x_out in
  let x_y4 := mm_unpackhi_epi8 x_zero x_out in let! x_temp := load_si128 px_a1 in let px_a1 := px_a1 + 16 in
  let! x_temp1 := load_si128 px_a2 in let px_a2 := px_a2 + 16 in let x_a1 := mm_unpacklo_epi16 x_temp x_temp1 in
  let x_a2 := mm_unpackhi_epi16 x_temp x_temp1 in
  let '(x_b1, x_b2, x_b3, x_b4, x_g1, x_g2, x_g3, x_g4, x_r1, x_r2, x_r3, x_r4) := ycc16 x_u x_v x_y1 x_y2 x_y3 x_y4 in
  let x_b := mm_packus_epi16 x_b1 x_b2 in let x_b1 := mm_packus_epi16 x_b3 x_b4 in
  let x_r := mm_packus_epi16 x_r1 x_r2 in let x_r1 := mm_packus_epi16 x_r3 x_r4 in
  let x_g := mm_packus_epi16 x_g1 x_g2 in let x_g1 := mm_packus_epi16 x_g3 x_g4 in
  let x_arl := mm_unpacklo_epi8 x_a1 x_r in let x_arh := mm_unpackhi_epi8 x_a1 x_r in
  let x_gbl := mm_unpacklo_epi8 x_g x_b in let x_gbh := mm_unpackhi_epi8 x_g x_b in
  let x_argbl := mm_unpacklo_epi16 x_arl x_gbl in let x_argbh := mm_unpackhi_epi16 x_arl x_gbl in
  let x_temp := mm_unpacklo_epi64 x_argbl x_argbh in let x_temp1 := mm_unpackhi_epi64 x_argbl x_argbh in
  do! mm_store_si128 pd1 x_temp in let pd1 := pd1 + 16 in
  do! mm_store_si128 pd2 x_temp1 in let pd2 := pd2 + 16 in
  let x_argbl := mm_unpacklo_epi16 x_arh x_gbh in let x_argbh := mm_unpackhi_epi16 x_arh x_gbh in
  let x_temp := mm_unpacklo_epi64 x_argbl x_argbh in let x_temp1 := mm_unpackhi_epi64 x_argbl x_argbh in
  do! mm_store_si128 pd1 x_temp in let pd1 := pd1 + 16 in
  do! mm_store_si128 pd2 x_temp1 in let pd2 := pd2 + 16 in
  let x_arl := mm_unpacklo_epi8 x_a2 x_r1 in let x_arh := mm_unpackhi_epi8 x_a2 x_r1 in
  let x_gbl := mm_unpacklo_epi8 x_g1 x_b1 in let x_gbh := mm_unpackhi_epi8 x_g1 x_b1 in
  let x_argbl := mm_unpacklo_epi16 x_arl x_gbl in let x_argbh := mm_unpackhi_epi16 x_arl x_gbl in
  let x_temp := mm_unpacklo_epi64 x_argbl x_argbh in let x_temp1 := mm_unpackhi_epi64 x_argbl x_argbh in
  do! mm_store_si128 pd1 x_temp in let pd1 := pd1 + 16 in
  do! mm_store_si128 pd2 x_temp1 in let pd2 := pd2 + 16 in
  let x_argbl := mm_unpacklo_epi16 x_arh x_gbh in let x_argbh := mm_unpackhi_epi16 x_arh x_gbh in
  let x_temp := mm_unpacklo_epi64 x_argbl x_argbh in let x_temp1 := mm_unpackhi_epi64 x_argbl x_argbh in
  do! mm_store_si128 pd1 x_temp in let pd1 := pd1 + 16 in
  do! mm_store_si128 pd2 x_temp1 in let pd2 := pd2 + 16 in
  mm_ret (mkCursor px_y1 px_y2 pm_u pm_v px_a1 px_a2 pd1 pd2).

Definition ARGB32_8 (c : cursor) : MM cursor :=
  let (px_y1, px_y2, pm_u, pm_v, px_a1, px_a2, pd1, pd2) := c in
  let! iTemp := load_int32 pm_u in let x_temp := mm_cvtsi32_si128 iTemp in
  let x_u := mm_unpacklo_epi8 x_zero x_temp in let pm_u := pm_u + 4 in
  let! iTemp := load_int32 pm_v in let x_temp := mm_cvtsi32_si128 iTemp in
  let x_v := mm_unpacklo_epi8 x_zero x_temp in let pm_v := pm_v + 4 in
  let! x_temp := mm_loadl_epi64 px_y1 in let px_y1 := px_y1 + 8 in let! x_temp1 := mm_loadl_epi64 px_y2 in
  let px_y2 := px_y2 + 8 in let x_out := mm_unpacklo_epi16 x_temp x_temp1 in
  let x_y1 := mm_unpacklo_epi8 x_zero x_out in let x_y2 := mm_unpackhi_epi8 x_zero x_out in
  let! x_temp := mm_loadl_epi64 px_a1 in let px_a1 := px_a1 + 8 in let! x_temp1 := mm_loadl_epi64 px_a2 in
  let px_a2 := px_a2 + 8 in let x_a1 := mm_unpacklo_epi16 x_temp x_temp1 in
  let '(x_b1, x_b2, x_g1, x_g2, x_r1, x_r2) := ycc8 x_u x_v x_y1 x_y2 in
  let x_b := mm_packus_epi16 x_b1 x_b2 in let x_r := mm_packus_epi16 x_r1 x_r2 in
  let x_g := mm_packus_epi16 x_g1 x_g2 in
  let x_arl := mm_unpacklo_epi8 x_a1 x_r in let x_arh := mm_unpackhi_epi8 x_a1 x_r in
  let x_gbl := mm_unpacklo_epi8 x_g x_b in let x_gbh := mm_unpackhi_epi8 x_g x_b in
  let x_argbl := mm_unpacklo_epi16 x_arl x_gbl in let x_argbh := mm_unpackhi_epi16 x_arl x_gbl in
  let x_temp := mm_unpacklo_epi64 x_argbl x_argbh in let x_temp1 := mm_unpackhi_epi64 x_argbl x_argbh in
  do! mm_store_si128 pd1 x_temp in let pd1 := pd1 + 16 in
  do! mm_store_si128 pd2 x_temp1 in let pd2 := pd2 + 16 in
  let x_argbl := mm_unpacklo_epi16 x_arh x_gbh in let x_argbh := mm_unpackhi_epi16 x_arh x_gbh in
  let x_temp := mm_unpacklo_epi64 x_argbl x_argbh in let x_temp1 := mm_unpackhi_epi64 x_argbl x_argbh in
  do! mm_store_si128 pd1 x_temp in let pd1 := pd1 + 16 in
  do! mm_store_si128 pd2 x_temp1 in let pd2 := pd2 + 16 in
  mm_ret (mkCursor px_y1 px_y2 pm_u pm_v px_a1 px_a2 pd1 pd2).

Definition ARGB32_4 (c : cursor) : MM cursor :=
  let (px_y1, px_y2, pm_u, pm_v, px_a1, px_a2, pd1, pd2) := c in
  let! iTemp := load_uint16 pm_u in let x_temp := mm_cvtsi32_si128 iTemp in
  let x_u := mm_unpacklo_epi8 x_zero x_temp in let pm_u := pm_u + 2 in let! iTemp := load_uint16 pm_v in
  let x_temp := mm_cvtsi32_si128 iTemp in let x_v := mm_unpacklo_epi8 x_zero x_temp in let pm_v := pm_v + 2 in
  let! iTemp := load_int32 px_y1 in let px_y1 := px_y1 + 4 in let x_temp := mm_cvtsi32_si128 iTemp in
  let! iTemp := load_int32 px_y2 in let px_y2 := px_y2 + 4 in let x_temp1 := mm_cvtsi32_si128 iTemp in
  let x_out := mm_unpacklo_epi16 x_temp x_temp1 in let x_y1 := mm_unpacklo_epi8 x_zero x_out in
  let! iTemp := load_int32 px_a1 in let px_a1 := px_a1 + 4 in let x_temp := mm_cvtsi32_si128 iTemp in
  let! iTemp := load_int32 px_a2 in let px_a2 := px_a2 + 4 in let x_temp1 := mm_cvtsi32_si128 iTemp in
  let x_a1 := mm_unpacklo_epi16 x_temp x_temp1 in
  let '(x_b1, x_g1, x_r1) := ycc4 x_u x_v x_y1 in
  let x_b := mm_packus_epi16 x_b1 x_zero in let x_r := mm_packus_epi16 x_r1 x_zero in
  let x_g := mm_packus_epi16 x_g1 x_zero in
  let x_arl := mm_unpacklo_epi8 x_a1 x_r in let x_gbl := mm_unpacklo_epi8 x_g x_b in
  let x_argbl := mm_unpacklo_epi16 x_arl x_gbl in let x_argbh := mm_unpackhi_epi16 x_arl x_gbl in
  let x_temp := mm_unpacklo_epi64 x_argbl x_argbh in let x_temp1 := mm_unpackhi_epi64 x_argbl x_argbh in
  do! mm_store_si128 pd1 x_temp in let pd1 := pd1 + 16 in
  do! mm_store_si128 pd2 x_temp1 in let pd2 := pd2 + 16 in
  mm_ret (mkCursor px_y1 px_y2 pm_u pm_v px_a1 px_a2 pd1 pd2).

Definition ARGB32_2 (c : cursor) : MM cursor :=
  let (px_y1, px_y2, pm_u, pm_v, px_a1, px_a2, pd1, pd2) := c in
  let! iu := load_uint8 pm_u in let pm_u := pm_u + 1 in let! iv := load_uint8 pm_v in let pm_v := pm_v + 1 in
  let! top := load_uint16 px_y1 in let! bottom := load_uint16 px_y2 in
  let iTemp := Z.lor (Z.land top 0xffff) (s32 (Z.shiftl bottom 16)) in let x_temp := mm_cvtsi32_si128 iTemp in
  let x_y1 := mm_unpacklo_epi8 x_zero x_temp in let px_y1 := px_y1 + 2 in let px_y2 := px_y2 + 2 in
  let! top := load_uint16 px_a1 in let! bottom := load_uint16 px_a2 in
  let iTemp := Z.lor (Z.land top 0xffff) (s32 (Z.shiftl bottom 16)) in let x_a1 := mm_cvtsi32_si128 iTemp in
  let px_a1 := px_a1 + 2 in let px_a2 := px_a2 + 2 in
  let '(x_b1, x_g1, x_r1) := ycc2 iu iv x_y1 in
  let x_b := mm_packus_epi16 x_b1 x_zero in let x_r := mm_packus_epi16 x_r1 x_zero in
  let x_g := mm_packus_epi16 x_g1 x_zero in
  let x_arl := mm_unpacklo_epi8 x_a1 x_r in let x_gbl := mm_unpacklo_epi8 x_g x_b in
  let x_argbl := mm_unpacklo_epi16 x_arl x_gbl in do! mm_storel_epi64 pd1 x_argbl in
  do! mm_storeh_epi64 pd2 x_argbl in
  let pd1 := pd1 + 8 in let pd2 := pd2 + 8 in
  mm_ret (mkCursor px_y1 px_y2 pm_u pm_v px_a1 px_a2 pd1 pd2).

Definition ARGB32_no_alpha_16 (load_si128 : Z -> MM m128i) (c : cursor) : MM cursor :=
  let (px_y1, px_y2, pm_u, pm_v, px_a1, px_a2, pd1, pd2) := c in
  let! x_temp := mm_loadl_epi64 pm_u in let x_u := mm_unpacklo_epi8 x_zero x_temp in let pm_u := pm_u + 8 in
  let! x_temp := mm_loadl_epi64 pm_v in let x_v := mm_unpacklo_epi8 x_zero x_temp in let pm_v := pm_v + 8 in
  let! x_temp := load_si128 px_y1 in let px_y1 := px_y1 + 16 in let! x_temp1 := load_si128 px_y2 in
  let px_y2 := px_y2 + 16 in let x_out := mm_unpacklo_epi16 x_temp x_temp1 in
  let x_y1 := mm_unpacklo_epi8 x_zero x_out in let x_y2 := mm_unpackhi_epi8 x_zero x_out in
  let x_out := mm_unpackhi_epi16 x_temp x_temp1 in let x_y3 := mm_unpacklo_epi8 x_zero x_out in
  let x_y4 := mm_unpackhi_epi8 x_zero x_out in
  let '(x_b1, x_b2, x_b3, x_b4, x_g1, x_g2, x_g3, x_g4, x_r1, x_r2, x_r3, x_r4) := ycc16 x_u x_v x_y1 x_y2 x_y3 x_y4 in
  let x_b := mm_packus_epi16 x_b1 x_b2 in let x_b1 := mm_packus_epi16 x_b3 x_b4 in
  let x_r := mm_packus_epi16 x_r1 x_r2 in let x_r1 := mm_packus_epi16 x_r3 x_r4 in
  let x_g := mm_packus_epi16 x_g1 x_g2 in let x_g1 := mm_packus_epi16 x_g3 x_g4 in
  let x_arl := mm_unpacklo_epi8 x_aa x_r in let x_arh := mm_unpackhi_epi8 x_aa x_r in
  let x_gbl := mm_unpacklo_epi8 x_g x_b in let x_gbh := mm_unpackhi_epi8 x_g x_b in
  let x_argbl := mm_unpacklo_epi16 x_arl x_gbl in let x_argbh := mm_unpackhi_epi16 x_arl x_gbl in
  let x_temp := mm_unpacklo_epi64 x_argbl x_argbh in let x_temp1 := mm_unpackhi_epi64 x_argbl x_argbh in
  do! mm_store_si128 pd1 x_temp in let pd1 := pd1 + 16 in
  do! mm_store_si128 pd2 x_temp1 in let pd2 := pd2 + 16 in
  let x_argbl := mm_unpacklo_epi16 x_arh x_gbh in let x_argbh := mm_unpackhi_epi16 x_arh x_gbh in
  let x_temp := mm_unpacklo_epi64 x_argbl x_argbh in let x_temp1 := mm_unpackhi_epi64 x_argbl x_argbh in
  do! mm_store_si128 pd1 x_temp in let pd1 := pd1 + 16 in
  do! mm_store_si128 pd2 x_temp1 in let pd2 := pd2 + 16 in
  let x_arl := mm_unpacklo_epi8 x_aa x_r1 in let x_arh := mm_unpackhi_epi8 x_aa x_r1 in
  let x_gbl := mm_unpacklo_epi8 x_g1 x_b1 in let x_gbh := mm_unpackhi_epi8 x_g1 x_b1 in
  let x_argbl := mm_unpacklo_epi16 x_arl x_gbl in let x_argbh := mm_unpackhi_epi16 x_arl x_gbl in
  let x_temp := mm_unpacklo_epi64 x_argbl x_argbh in let x_temp1 := mm_unpackhi_epi64 x_argbl x_argbh in
  do! mm_store_si128 pd1 x_temp in let pd1 := pd1 + 16 in
  do! mm_store_si128 pd2 x_temp1 in let pd2 := pd2 + 16 in
  let x_argbl := mm_unpacklo_epi16 x_arh x_gbh in let x_argbh := mm_unpackhi_epi16 x_arh x_gbh in
  let x_temp := mm_unpacklo_epi64 x_argbl x_argbh in let x_temp1 := mm_unpackhi_epi64 x_argbl x_argbh in
  do! mm_store_si128 pd1 x_temp in let pd1 := pd1 + 16 in
  do! mm_store_si128 pd2 x_temp1 in let pd2 := pd2 + 16 in
  mm_ret (mkCursor px_y1 px_y2 pm_u pm_v px_a1 px_a2 pd1 pd2).

Definition ARGB32_no_alpha_8 (c : cursor) : MM cursor :=
  let (px_y1, px_y2, pm_u, pm_v, px_a1, px_a2, pd1, pd2) := c in
  let! iTemp := load_int32 pm_u in let x_temp := mm_cvtsi32_si128 iTemp in
  let x_u := mm_unpacklo_epi8 x_zero x_temp in let pm_u := pm_u + 4 in
  let! iTemp := load_int32 pm_v in let x_temp := mm_cvtsi32_si128 iTemp in
  let x_v := mm_unpacklo_epi8 x_zero x_temp in let pm_v := pm_v + 4 in
  let! x_temp := mm_loadl_epi64 px_y1 in let px_y1 := px_y1 + 8 in let! x_temp1 := mm_loadl_epi64 px_y2 in
  let px_y2 := px_y2 + 8 in let x_out := mm_unpacklo_epi16 x_temp x_temp1 in
  let x_y1 := mm_unpacklo_epi8 x_zero x_out in let x_y2 := mm_unpackhi_epi8 x_zero x_out in
  let '(x_b1, x_b2, x_g1, x_g2, x_r1, x_r2) := ycc8 x_u x_v x_y1 x_y2 in
  let x_b := mm_packus_epi16 x_b1 x_b2 in let x_r := mm_packus_epi16 x_r1 x_r2 in
  let x_g := mm_packus_epi16 x_g1 x_g2 in
  let x_arl := mm_unpacklo_epi8 x_aa x_r in let x_arh := mm_unpackhi_epi8 x_aa x_r in
  let x_gbl := mm_unpacklo_epi8 x_g x_b in let x_gbh := mm_unpackhi_epi8 x_g x_b in
  let x_argbl := mm_unpacklo_epi16 x_arl x_gbl in let x_argbh := mm_unpackhi_epi16 x_arl x_gbl in
  let x_temp := mm_unpacklo_epi64 x_argbl x_argbh in let x_temp1 := mm_unpackhi_epi64 x_argbl x_argbh in
  do! mm_store_si128 pd1 x_temp in let pd1 := pd1 + 16 in
  do! mm_store_si128 pd2 x_temp1 in let pd2 := pd2 + 16 in
  let x_argbl := mm_unpacklo_epi16 x_arh x_gbh in let x_argbh := mm_unpackhi_epi16 x_arh x_gbh in
  let x_temp := mm_unpacklo_epi64 x_argbl x_argbh in let x_temp1 := mm_unpackhi_epi64 x_argbl x_argbh in
  do! mm_store_si128 pd1 x_temp in let pd1 := pd1 + 16 in
  do! mm_store_si128 pd2 x_temp1 in let pd2 := pd2 + 16 in
  mm_ret (mkCursor px_y1 px_y2 pm_u pm_v px_a1 px_a2 pd1 pd2).

Definition ARGB32_no_alpha_4 (c : cursor) : MM cursor :=
  let (px_y1, px_y2, pm_u, pm_v, px_a1, px_a2, pd1, pd2) := c in
  let! iTemp := load_uint16 pm_u in let x_temp := mm_cvtsi32_si128 iTemp in
  let x_u := mm_unpacklo_epi8 x_zero x_temp in let pm_u := pm_u + 2 in let! iTemp := load_uint16 pm_v in
  let x_temp := mm_cvtsi32_si128 iTemp in let x_v := mm_unpacklo_epi8 x_zero x_temp in let pm_v := pm_v + 2 in
  let! iTemp := load_int32 px_y1 in let px_y1 := px_y1 + 4 in let x_temp := mm_cvtsi32_si128 iTemp in
  let! iTemp := load_int32 px_y2 in let px_y2 := px_y2 + 4 in let x_temp1 := mm_cvtsi32_si128 iTemp in
  let x_out := mm_unpacklo_epi16 x_temp x_temp1 in let x_y1 := mm_unpacklo_epi8 x_zero x_out in
  let '(x_b1, x_g1, x_r1) := ycc4 x_u x_v x_y1 in
  let x_b := mm_packus_epi16 x_b1 x_zero in let x_r := mm_packus_epi16 x_r1 x_zero in
  let x_g := mm_packus_epi16 x_g1 x_zero in
  let x_arl := mm_unpacklo_epi8 x_aa x_r in let x_gbl := mm_unpacklo_epi8 x_g x_b in
  let x_argbl := mm_unpacklo_epi16 x_arl x_gbl in let x_argbh := mm_unpackhi_epi16 x_arl x_gbl in
  let x_temp := mm_unpacklo_epi64 x_argbl x_argbh in let x_temp1 := mm_unpackhi_epi64 x_argbl x_argbh in
  do! mm_store_si128 pd1 x_temp in let pd1 := pd1 + 16 in
  do! mm_store_si128 pd2 x_temp1 in let pd2 := pd2 + 16 in
  mm_ret (mkCursor px_y1 px_y2 pm_u pm_v px_a1 px_a2 pd1 pd2).

Definition ARGB32_no_alpha_2 (c : cursor) : MM cursor :=
  let (px_y1, px_y2, pm_u, pm_v, px_a1, px_a2, pd1, pd2) := c in
  let! iu := load_uint8 pm_u in let pm_u := pm_u + 1 in let! iv := load_uint8 pm_v in let pm_v := pm_v + 1 in
  let! top := load_uint16 px_y1 in let! bottom := load_uint16 px_y2 in
  let iTemp := Z.lor (Z.land top 0xffff) (s32 (Z.shiftl bottom 16)) in let x_temp := mm_cvtsi32_si128 iTemp in
  let x_y1 := mm_unpacklo_epi8 x_zero x_temp in let px_y1 := px_y1 + 2 in let px_y2 := px_y2 + 2 in
  let '(x_b1, x_g1, x_r1) := ycc2 iu iv x_y1 in
  let x_b := mm_packus_epi16 x_b1 x_zero in let x_r := mm_packus_epi16 x_r1 x_zero in
  let x_g := mm_packus_epi16 x_g1 x_zero in
  let x_arl := mm_unpacklo_epi8 x_aa x_r in let x_gbl := mm_unpacklo_epi8 x_g x_b in
  let x_argbl := mm_unpacklo_epi16 x_arl x_gbl in do! mm_storel_epi64 pd1 x_argbl in
  do! mm_storeh_epi64 pd2 x_argbl in
  let pd1 := pd1 + 8 in let pd2 := pd2 + 8 in
  mm_ret (mkCursor px_y1 px_y2 pm_u pm_v px_a1 px_a2 pd1 pd2).

Definition BGRA32_16 (load_si128 : Z -> MM m128i) (c : cursor) : MM cursor :=
  let (px_y1, px_y2, pm_u, pm_v, px_a1, px_a2, pd1, pd2) := c in
  let! x_temp := mm_loadl_epi64 pm_u in let x_u := mm_unpacklo_epi8 x_zero x_temp in let pm_u := pm_u + 8 in
  let! x_temp := mm_loadl_epi64 pm_v in let x_v := mm_unpacklo_epi8 x_zero x_temp in let pm_v := pm_v + 8 in
  let! x_temp := load_si128 px_y1 in let px_y1 := px_y1 + 16 in let! x_temp1 := load_si128 px_y2 in
  let px_y2 := px_y2 + 16 in let x_out := mm_unpacklo_epi16 x_temp x_temp1 in
  let x_y1 := mm_unpacklo_epi8 x_zero x_out in let x_y2 := mm_unpackhi_epi8 x_zero x_out in
  let x_out := mm_unpackhi_epi16 x_temp x_temp1 in let x_y3 := mm_unpacklo_epi8 x_zero x_out in
  let x_y4 := mm_unpackhi_epi8 x_zero x_out in let! x_temp := load_si128 px_a1 in let px_a1 := px_a1 + 16 in
  let! x_temp1 := load_si128 px_a2 in let px_a2 := px_a2 + 16 in let x_a1 := mm_unpacklo_epi16 x_temp x_temp1 in
  let x_a2 := mm_unpackhi_epi16 x_temp x_temp1 in
  let '(x_b1, x_b2, x_b3, x_b4, x_g1, x_g2, x_g3, x_g4, x_r1, x_r2, x_r3, x_r4) := ycc16 x_u x_v x_y1 x_y2 x_y3 x_y4 in
  let x_b := mm_packus_epi16 x_b1 x_b2 in let x_b := PREMULTIPLY_ALPHA x_b x_a1 in
  let x_b1 := mm_packus_epi16 x_b3 x_b4 in let x_b1 := PREMULTIPLY_ALPHA x_b1 x_a2 in
  let x_r := mm_packus_epi16 x_r1 x_r2 in let x_r := PREMULTIPLY_ALPHA x_r x_a1 in
  let x_r1 := mm_packus_epi16 x_r3 x_r4 in let x_r1 := PREMULTIPLY_ALPHA x_r1 x_a2 in
  let x_g := mm_packus_epi16 x_g1 x_g2 in let x_g := PREMULTIPLY_ALPHA x_g x_a1 in
  let x_g1 := mm_packus_epi16 x_g3 x_g4 in let x_g1 := PREMULTIPLY_ALPHA x_g1 x_a2 in
  let x_bgl := mm_unpacklo_epi8 x_b x_g in let x_bgh := mm_unpackhi_epi8 x_b x_g in
  let x_ral := mm_unpacklo_epi8 x_r x_a1 in let x_rah := mm_unpackhi_epi8 x_r x_a1 in
  let x_bgral := mm_unpacklo_epi16 x_bgl x_ral in let x_bgrah := mm_unpackhi_epi16 x_bgl x_ral in
  let x_temp := mm_unpacklo_epi64 x_bgral x_bgrah in let x_temp1 := mm_unpackhi_epi64 x_bgral x_bgrah in
  do! mm_store_si128 pd1 x_temp in let pd1 := pd1 + 16 in
  do! mm_store_si128 pd2 x_temp1 in let pd2 := pd2 + 16 in
  let x_bgral := mm_unpacklo_epi16 x_bgh x_rah in let x_bgrah := mm_unpackhi_epi16 x_bgh x_rah in
  let x_temp := mm_unpacklo_epi64 x_bgral x_bgrah in let x_temp1 := mm_unpackhi_epi64 x_bgral x_bgrah in
  do! mm_store_si128 pd1 x_temp in let pd1 := pd1 + 16 in
  do! mm_store_si128 pd2 x_temp1 in let pd2 := pd2 + 16 in
  let x_bgl := mm_unpacklo_epi8 x_b1 x_g1 in let x_bgh := mm_unpackhi_epi8 x_b1 x_g1 in
  let x_ral := mm_unpacklo_epi8 x_r1 x_a2 in let x_rah := mm_unpackhi_epi8 x_r1 x_a2 in
  let x_bgral := mm_unpacklo_epi16 x_bgl x_ral in let x_bgrah := mm_unpackhi_epi16 x_bgl x_ral in
  let x_temp := mm_unpacklo_epi64 x_bgral x_bgrah in let x_temp1 := mm_unpackhi_epi64 x_bgral x_bgrah in
  do! mm_store_si128 pd1 x_temp in let pd1 := pd1 + 16 in
  do! mm_store_si128 pd2 x_temp1 in let pd2 := pd2 + 16 in
  let x_bgral := mm_unpacklo_epi16 x_bgh x_rah in let x_bgrah := mm_unpackhi_epi16 x_bgh x_rah in
  let x_temp := mm_unpacklo_epi64 x_bgral x_bgrah in let x_temp1 := mm_unpackhi_epi64 x_bgral x_bgrah in
  do! mm_store_si128 pd1 x_temp in let pd1 := pd1 + 16 in
  do! mm_store_si128 pd2 x_temp1 in let pd2 := pd2 + 16 in
  mm_ret (mkCursor px_y1 px_y2 pm_u pm_v px_a1 px_a2 pd1 pd2).

Definition BGRA32_8 (c : cursor) : MM cursor :=
  let (px_y1, px_y2, pm_u, pm_v, px_a1, px_a2, pd1, pd2) := c in
  let! iTemp := load_int32 pm_u in let x_temp := mm_cvtsi32_si128 iTemp in
  let x_u := mm_unpacklo_epi8 x_zero x_temp in let pm_u := pm_u + 4 in
  let! iTemp := load_int32 pm_v in let x_temp := mm_cvtsi32_si128 iTemp in
  let x_v := mm_unpacklo_epi8 x_zero x_temp in let pm_v := pm_v + 4 in
  let! x_temp := mm_loadl_epi64 px_y1 in let px_y1 := px_y1 + 8 in let! x_temp1 := mm_loadl_epi64 px_y2 in
  let px_y2 := px_y2 + 8 in let x_out := mm_unpacklo_epi16 x_temp x_temp1 in
  let x_y1 := mm_unpacklo_epi8 x_zero x_out in let x_y2 := mm_unpackhi_epi8 x_zero x_out in
  let! x_temp := mm_loadl_epi64 px_a1 in let px_a1 := px_a1 + 8 in let! x_temp1 := mm_loadl_epi64 px_a2 in
  let px_a2 := px_a2 + 8 in let x_a1 := mm_unpacklo_epi16 x_temp x_temp1 in
  let '(x_b1, x_b2, x_g1, x_g2, x_r1, x_r2) := ycc8 x_u x_v x_y1 x_y2 in
  let x_b := mm_packus_epi16 x_b1 x_b2 in let x_b := PREMULTIPLY_ALPHA x_b x_a1 in
  let x_r := mm_packus_epi16 x_r1 x_r2 in let x_r := PREMULTIPLY_ALPHA x_r x_a1 in
  let x_g := mm_packus_epi16 x_g1 x_g2 in let x_g := PREMULTIPLY_ALPHA x_g x_a1 in
  let x_bgl := mm_unpacklo_epi8 x_b x_g in let x_bgh := mm_unpackhi_epi8 x_b x_g in
  let x_ral := mm_unpacklo_epi8 x_r x_a1 in let x_rah := mm_unpackhi_epi8 x_r x_a1 in
  let x_bgral := mm_unpacklo_epi16 x_bgl x_ral in let x_bgrah := mm_unpackhi_epi16 x_bgl x_ral in
  let x_temp := mm_unpacklo_epi64 x_bgral x_bgrah in let x_temp1 := mm_unpackhi_epi64 x_bgral x_bgrah in
  do! mm_store_si128 pd1 x_temp in let pd1 := pd1 + 16 in
  do! mm_store_si128 pd2 x_temp1 in let pd2 := pd2 + 16 in
  let x_bgral := mm_unpacklo_epi16 x_bgh x_rah in let x_bgrah := mm_unpackhi_epi16 x_bgh x_rah in
  let x_temp := mm_unpacklo_epi64 x_bgral x_bgrah in let x_temp1 := mm_unpackhi_epi64 x_bgral x_bgrah in
  do! mm_store_si128 pd1 x_temp in let pd1 := pd1 + 16 in
  do! mm_store_si128 pd2 x_temp1 in let pd2 := pd2 + 16 in
  mm_ret (mkCursor px_y1 px_y2 pm_u pm_v px_a1 px_a2 pd1 pd2).

Definition BGRA32_4 (c : cursor) : MM cursor :=
  let (px_y1, px_y2, pm_u, pm_v, px_a1, px_a2, pd1, pd2) := c in
  let! iTemp := load_uint16 pm_u in let x_temp := mm_cvtsi32_si128 iTemp in
  let x_u := mm_unpacklo_epi8 x_zero x_temp in let pm_u := pm_u + 2 in let! iTemp := load_uint16 pm_v in
  let x_temp := mm_cvtsi32_si128 iTemp in let x_v := mm_unpacklo_epi8 x_zero x_temp in let pm_v := pm_v + 2 in
  let! iTemp := load_int32 px_y1 in let px_y1 := px_y1 + 4 in let x_temp := mm_cvtsi32_si128 iTemp in
  let! iTemp := load_int32 px_y2 in let px_y2 := px_y2 + 4 in let x_temp1 := mm_cvtsi32_si128 iTemp in
  let x_out := mm_unpacklo_epi16 x_temp x_temp1 in let x_y1 := mm_unpacklo_epi8 x_zero x_out in
  let! iTemp := load_int32 px_a1 in let px_a1 := px_a1 + 4 in let x_temp := mm_cvtsi32_si128 iTemp in
  let! iTemp := load_int32 px_a2 in let px_a2 := px_a2 + 4 in let x_temp1 := mm_cvtsi32_si128 iTemp in
  let x_a1 := mm_unpacklo_epi16 x_temp x_temp1 in
  let '(x_b1, x_g1, x_r1) := ycc4 x_u x_v x_y1 in
  let x_b := mm_packus_epi16 x_b1 x_zero in let x_b := PREMULTIPLY_ALPHA x_b x_a1 in
  let x_r := mm_packus_epi16 x_r1 x_zero in let x_r := PREMULTIPLY_ALPHA x_r x_a1 in
  let x_g := mm_packus_epi16 x_g1 x_zero in let x_g := PREMULTIPLY_ALPHA x_g x_a1 in
  let x_bgl := mm_unpacklo_epi8 x_b x_g in let x_ral := mm_unpacklo_epi8 x_r x_a1 in
  let x_bgral := mm_unpacklo_epi16 x_bgl x_ral in let x_bgrah := mm_unpackhi_epi16 x_bgl x_ral in
  let x_temp := mm_unpacklo_epi64 x_bgral x_bgrah in let x_temp1 := mm_unpackhi_epi64 x_bgral x_bgrah in
  do! mm_store_si128 pd1 x_temp in let pd1 := pd1 + 16 in
  do! mm_store_si128 pd2 x_temp1 in let pd2 := pd2 + 16 in
  mm_ret (mkCursor px_y1 px_y2 pm_u pm_v px_a1 px_a2 pd1 pd2).

Definition BGRA32_2 (c : cursor) : MM cursor :=
  let (px_y1, px_y2, pm_u, pm_v, px_a1, px_a2, pd1, pd2) := c in
  let! iu := load_uint8 pm_u in let pm_u := pm_u + 1 in let! iv := load_uint8 pm_v in let pm_v := pm_v + 1 in
  let! top := load_uint16 px_y1 in let! bottom := load_uint16 px_y2 in
  let iTemp := Z.lor (Z.land top 0xffff) (s32 (Z.shiftl bottom 16)) in let x_temp := mm_cvtsi32_si128 iTemp in
  let x_y1 := mm_unpacklo_epi8 x_zero x_temp in let px_y1 := px_y1 + 2 in let px_y2 := px_y2 + 2 in
  let! top := load_uint16 px_a1 in let! bottom := load_uint16 px_a2 in
  let iTemp := Z.lor (Z.land top 0xffff) (s32 (Z.shiftl bottom 16)) in let x_a1 := mm_cvtsi32_si128 iTemp in
  let px_a1 := px_a1 + 2 in let px_a2 := px_a2 + 2 in
  let '(x_b1, x_g1, x_r1) := ycc2 iu iv x_y1 in
  let x_b := mm_packus_epi16 x_b1 x_zero in let x_b := PREMULTIPLY_ALPHA x_b x_a1 in
  let x_r := mm_packus_epi16 x_r1 x_zero in let x_r := PREMULTIPLY_ALPHA x_r x_a1 in
  let x_g := mm_packus_epi16 x_g1 x_zero in let x_g := PREMULTIPLY_ALPHA x_g x_a1 in
  let x_bgl := mm_unpacklo_epi8 x_b x_g in let x_ral := mm_unpacklo_epi8 x_r x_a1 in
  let x_bgral := mm_unpacklo_epi16 x_bgl x_ral in do! mm_storel_epi64 pd1 x_bgral in
  do! mm_storeh_epi64 pd2 x_bgral in
  let pd1 := pd1 + 8 in let pd2 := pd2 + 8 in
  mm_ret (mkCursor px_y1 px_y2 pm_u pm_v px_a1 px_a2 pd1 pd2).

Definition BGRA32_no_alpha_16 (load_si128 : Z -> MM m128i) (c : cursor) : MM cursor :=
  let (px_y1, px_y2, pm_u, pm_v, px_a1, px_a2, pd1, pd2) := c in
  let! x_temp := mm_loadl_epi64 pm_u in let x_u := mm_unpacklo_epi8 x_zero x_temp in let pm_u := pm_u + 8 in
  let! x_temp := mm_loadl_epi64 pm_v in let x_v := mm_unpacklo_epi8 x_zero x_temp in let pm_v := pm_v + 8 in
  let! x_temp := load_si128 px_y1 in let px_y1 := px_y1 + 16 in let! x_temp1 := load_si128 px_y2 in
  let px_y2 := px_y2 + 16 in let x_out := mm_unpacklo_epi16 x_temp x_temp1 in
  let x_y1 := mm_unpacklo_epi8 x_zero x_out in let x_y2 := mm_unpackhi_epi8 x_zero x_out in
  let x_out := mm_unpackhi_epi16 x_temp x_temp1 in let x_y3 := mm_unpacklo_epi8 x_zero x_out in
  let x_y4 := mm_unpackhi_epi8 x_zero x_out in
  let '(x_b1, x_b2, x_b3, x_b4, x_g1, x_g2, x_g3, x_g4, x_r1, x_r2, x_r3, x_r4) := ycc16 x_u x_v x_y1 x_y2 x_y3 x_y4 in
  let x_b := mm_packus_epi16 x_b1 x_b2 in let x_b1 := mm_packus_epi16 x_b3 x_b4 in
  let x_r := mm_packus_epi16 x_r1 x_r2 in let x_r1 := mm_packus_epi16 x_r3 x_r4 in
  let x_g := mm_packus_epi16 x_g1 x_g2 in let x_g1 := mm_packus_epi16 x_g3 x_g4 in
  let x_bgl := mm_unpacklo_epi8 x_b x_g in let x_bgh := mm_unpackhi_epi8 x_b x_g in
  let x_ral := mm_unpacklo_epi8 x_r x_aa in let x_rah := mm_unpackhi_epi8 x_r x_aa in
  let x_bgral := mm_unpacklo_epi16 x_bgl x_ral in let x_bgrah := mm_unpackhi_epi16 x_bgl x_ral in
  let x_temp := mm_unpacklo_epi64 x_bgral x_bgrah in let x_temp1 := mm_unpackhi_epi64 x_bgral x_bgrah in
  do! mm_store_si128 pd1 x_temp in let pd1 := pd1 + 16 in
  do! mm_store_si128 pd2 x_temp1 in let pd2 := pd2 + 16 in
  let x_bgral := mm_unpacklo_epi16 x_bgh x_rah in let x_bgrah := mm_unpackhi_epi16 x_bgh x_rah in
  let x_temp := mm_unpacklo_epi64 x_bgral x_bgrah in let x_temp1 := mm_unpackhi_epi64 x_bgral x_bgrah in
  do! mm_store_si128 pd1 x_temp in let pd1 := pd1 + 16 in
  do! mm_store_si128 pd2 x_temp1 in let pd2 := pd2 + 16 in
  let x_bgl := mm_unpacklo_epi8 x_b1 x_g1 in let x_bgh := mm_unpackhi_epi8 x_b1 x_g1 in
  let x_ral := mm_unpacklo_epi8 x_r1 x_aa in let x_rah := mm_unpackhi_epi8 x_r1 x_aa in
  let x_bgral := mm_unpacklo_epi16 x_bgl x_ral in let x_bgrah := mm_unpackhi_epi16 x_bgl x_ral in
  let x_temp := mm_unpacklo_epi64 x_bgral x_bgrah in let x_temp1 := mm_unpackhi_epi64 x_bgral x_bgrah in
  do! mm_store_si128 pd1 x_temp in let pd1 := pd1 + 16 in
  do! mm_store_si128 pd2 x_temp1 in let pd2 := pd2 + 16 in
  let x_bgral := mm_unpacklo_epi16 x_bgh x_rah in let x_bgrah := mm_unpackhi_epi16 x_bgh x_rah in
  let x_temp := mm_unpacklo_epi64 x_bgral x_bgrah in let x_temp1 := mm_unpackhi_epi64 x_bgral x_bgrah in
  do! mm_store_si128 pd1 x_temp in let pd1 := pd1 + 16 in
  do! mm_store_si128 pd2 x_temp1 in let pd2 := pd2 + 16 in
  mm_ret (mkCursor px_y1 px_y2 pm_u pm_v px_a1 px_a2 pd1 pd2).

Definition BGRA32_no_alpha_8 (c : cursor) : MM cursor :=
  let (px_y1, px_y2, pm_u, pm_v, px_a1, px_a2, pd1, pd2) := c in
  let! iTemp := load_int32 pm_u in let x_temp := mm_cvtsi32_si128 iTemp in
  let x_u := mm_unpacklo_epi8 x_zero x_temp in let pm_u := pm_u + 4 in
  let! iTemp := load_int32 pm_v in let x_temp := mm_cvtsi32_si128 iTemp in
  let x_v := mm_unpacklo_epi8 x_zero x_temp in let pm_v := pm_v + 4 in
  let! x_temp := mm_loadl_epi64 px_y1 in let px_y1 := px_y1 + 8 in let! x_temp1 := mm_loadl_epi64 px_y2 in
  let px_y2 := px_y2 + 8 in let x_out := mm_unpacklo_epi16 x_temp x_temp1 in
  let x_y1 := mm_unpacklo_epi8 x_zero x_out in let x_y2 := mm_unpackhi_epi8 x_zero x_out in
  let '(x_b1, x_b2, x_g1, x_g2, x_r1, x_r2) := ycc8 x_u x_v x_y1 x_y2 in
  let x_b := mm_packus_epi16 x_b1 x_b2 in let x_r := mm_packus_epi16 x_r1 x_r2 in
  let x_g := mm_packus_epi16 x_g1 x_g2 in
  let x_bgl := mm_unpacklo_epi8 x_b x_g in let x_bgh := mm_unpackhi_epi8 x_b x_g in
  let x_ral := mm_unpacklo_epi8 x_r x_aa in let x_rah := mm_unpackhi_epi8 x_r x_aa in
  let x_bgral := mm_unpacklo_epi16 x_bgl x_ral in let x_bgrah := mm_unpackhi_epi16 x_bgl x_ral in
  let x_temp := mm_unpacklo_epi64 x_bgral x_bgrah in let x_temp1 := mm_unpackhi_epi64 x_bgral x_bgrah in
  do! mm_store_si128 pd1 x_temp in let pd1 := pd1 + 16 in
  do! mm_store_si128 pd2 x_temp1 in let pd2 := pd2 + 16 in
  let x_bgral := mm_unpacklo_epi16 x_bgh x_rah in let x_bgrah := mm_unpackhi_epi16 x_bgh x_rah in
  let x_temp := mm_unpacklo_epi64 x_bgral x_bgrah in let x_temp1 := mm_unpackhi_epi64 x_bgral x_bgrah in
  do! mm_store_si128 pd1 x_temp in let pd1 := pd1 + 16 in
  do! mm_store_si128 pd2 x_temp1 in let pd2 := pd2 + 16 in
  mm_ret (mkCursor px_y1 px_y2 pm_u pm_v px_a1 px_a2 pd1 pd2).

Definition BGRA32_no_alpha_4 (c : cursor) : MM cursor :=
  let (px_y1, px_y2, pm_u, pm_v, px_a1, px_a2, pd1, pd2) := c in
  let! iTemp := load_uint16 pm_u in let x_temp := mm_cvtsi32_si128 iTemp in
  let x_u := mm_unpacklo_epi8 x_zero x_temp in let pm_u := pm_u + 2 in let! iTemp := load_uint16 pm_v in
  let x_temp := mm_cvtsi32_si128 iTemp in let x_v := mm_unpacklo_epi8 x_zero x_temp in let pm_v := pm_v + 2 in
  let! iTemp := load_int32 px_y1 in let px_y1 := px_y1 + 4 in let x_temp := mm_cvtsi32_si128 iTemp in
  let! iTemp := load_int32 px_y2 in let px_y2 := px_y2 + 4 in let x_temp1 := mm_cvtsi32_si128 iTemp in
  let x_out := mm_unpacklo_epi16 x_temp x_temp1 in let x_y1 := mm_unpacklo_epi8 x_zero x_out in
  let '(x_b1, x_g1, x_r1) := ycc4 x_u x_v x_y1 in
  let x_b := mm_packus_epi16 x_b1 x_zero in let x_r := mm_packus_epi16 x_r1 x_zero in
  let x_g := mm_packus_epi16 x_g1 x_zero in
  let x_bgl := mm_unpacklo_epi8 x_b x_g in let x_ral := mm_unpacklo_epi8 x_r x_aa in
  let x_bgral := mm_unpacklo_epi16 x_bgl x_ral in let x_bgrah := mm_unpackhi_epi16 x_bgl x_ral in
  let x_temp := mm_unpacklo_epi64 x_bgral x_bgrah in let x_temp1 := mm_unpackhi_epi64 x_bgral x_bgrah in
  do! mm_store_si128 pd1 x_temp in let pd1 := pd1 + 16 in
  do! mm_store_si128 pd2 x_temp1 in let pd2 := pd2 + 16 in
  mm_ret (mkCursor px_y1 px_y2 pm_u pm_v px_a1 px_a2 pd1 pd2).

Definition BGRA32_no_alpha_2 (c : cursor) : MM cursor :=
  let (px_y1, px_y2, pm_u, pm_v, px_a1, px_a2, pd1, pd2) := c in
  let! iu := load_uint8 pm_u in let pm_u := pm_u + 1 in let! iv := load_uint8 pm_v in let pm_v := pm_v + 1 in
  let! top := load_uint16 px_y1 in let! bottom := load_uint16 px_y2 in
  let iTemp := Z.lor (Z.land top 0xffff) (s32 (Z.shiftl bottom 16)) in let x_temp := mm_cvtsi32_si128 iTemp in
  let x_y1 := mm_unpacklo_epi8 x_zero x_temp in let px_y1 := px_y1 + 2 in let px_y2 := px_y2 + 2 in
  let '(x_b1, x_g1, x_r1) := ycc2 iu iv x_y1 in
  let x_b := mm_packus_epi16 x_b1 x_zero in let x_r := mm_packus_epi16 x_r1 x_zero in
  let x_g := mm_packus_epi16 x_g1 x_zero in
  let x_bgl := mm_unpacklo_epi8 x_b x_g in let x_ral := mm_unpacklo_epi8 x_r x_aa in
  let x_bgral := mm_unpacklo_epi16 x_bgl x_ral in do! mm_storel_epi64 pd1 x_bgral in
  do! mm_storeh_epi64 pd2 x_bgral in
  let pd1 := pd1 + 8 in let pd2 := pd2 + 8 in
  mm_ret (mkCursor px_y1 px_y2 pm_u pm_v px_a1 px_a2 pd1 pd2).

(** ** Rows *)

(** The steps of one function; the sixteen-column step is given the load it
    is to use. *)
Record steps := mkSteps {
  step16 : (Z -> MM m128i) -> cursor -> MM cursor;
  step8 : cursor -> MM cursor; step4 : cursor -> MM cursor; step2 : cursor -> MM cursor }.

Definition ARGB32_steps := mkSteps ARGB32_16 ARGB32_8 ARGB32_4 ARGB32_2.
Definition ARGB32_no_alpha_steps := mkSteps ARGB32_no_alpha_16 ARGB32_no_alpha_8 ARGB32_no_alpha_4 ARGB32_no_alpha_2.
Definition BGRA32_steps := mkSteps BGRA32_16 BGRA32_8 BGRA32_4 BGRA32_2.
Definition BGRA32_no_alpha_steps := mkSteps BGRA32_no_alpha_16 BGRA32_no_alpha_8 BGRA32_no_alpha_4 BGRA32_no_alpha_2.

(** [for (; iW <= width - 16; iW += 16)]; the fuel bounds the iterations. *)
Fixpoint loop16 (f : cursor -> MM cursor) (fuel : nat) (width iW : Z) (c : cursor) : MM (Z * cursor) :=
  match fuel with
  | O => mm_fault
  | S fuel =>
      if iW <=? s32 (width - 16) then let! c := f c in loop16 f fuel width (iW + 16) c
      else mm_ret (iW, c)
  end.

(** The body of the row loop. *)
Definition row_pair (k : steps) (load_si128 : Z -> MM m128i) (width : Z) (c : cursor) : MM unit :=
  let! r := loop16 (step16 k load_si128) (S (Z.to_nat width)) width 0 c in
  let '(iW, c) := r in
  let! r := (if iW <=? s32 (width - 8) then let! c := step8 k c in mm_ret (iW + 8, c) else mm_ret (iW, c)) in
  let '(iW, c) := r in
  let! r := (if iW <=? s32 (width - 4) then let! c := step4 k c in mm_ret (iW + 4, c) else mm_ret (iW, c)) in
  let '(iW, c) := r in
  if iW <=? s32 (width - 2) then do! step2 k c in mm_ret tt else mm_ret tt.

(** The aligned load is used when every plane and stride is aligned. *)
Definition load_alpha (i : image) : Z -> MM m128i :=
  if negb (aligned (i_y i)) || negb (aligned (i_u i)) || negb (aligned (i_v i)) || negb (aligned (i_a i))
     || negb (aligned (i_y_stride i)) || negb (aligned (i_u_stride i)) || negb (aligned (i_v_stride i))
     || negb (aligned (i_a_stride i))
  then mm_loadu_si128 else mm_load_si128.
Definition load_no_alpha (i : image) : Z -> MM m128i :=
  if negb (aligned (i_y i)) || negb (aligned (i_u i)) || negb (aligned (i_v i))
     || negb (aligned (i_y_stride i)) || negb (aligned (i_u_stride i)) || negb (aligned (i_v_stride i))
  then mm_loadu_si128 else mm_load_si128.

Definition ColorConvert_YCbCr420p_to_ARGB32 (i : image) : MM Z :=
  do! rows (row_pair ARGB32_steps (load_alpha i) (i_width i)) i
        (Z.to_nat (Z.shiftr (i_height i) 1)) (first_rows i) in mm_ret 0.
Definition ColorConvert_YCbCr420p_to_ARGB32_no_alpha (i : image) : MM Z :=
  do! rows (row_pair ARGB32_no_alpha_steps (load_no_alpha i) (i_width i)) i
        (Z.to_nat (Z.shiftr (i_height i) 1)) (first_rows i) in mm_ret 0.
Definition ColorConvert_YCbCr420p_to_BGRA32 (i : image) : MM Z :=
  do! rows (row_pair BGRA32_steps (load_alpha i) (i_width i)) i
        (Z.to_nat (Z.shiftr (i_height i) 1)) (first_rows i) in mm_ret 0.
Definition ColorConvert_YCbCr420p_to_BGRA32_no_alpha (i : image) : MM Z :=
  do! rows (row_pair BGRA32_no_alpha_steps (load_no_alpha i) (i_width i)) i
        (Z.to_nat (Z.shiftr (i_height i) 1)) (first_rows i) in mm_ret 0.
