(* ===== verification/ColorRows.v ===== *)
(** * Pixels, rows and images

    What a conversion of a 4:2:0 image has to do, independent of how a
    function does it: the pixels of a row, the samples a pair of rows is
    converted from, the promise a step of some columns makes ([StepSpec]),
    and the image as a whole.  A function that keeps the promise on each pair
    of rows leaves every pixel converted and nothing else changed
    ([rows_converted]). *)

From S2P Require Import Prelude Sse2 ColorFrame.
Local Open Scope Z_scope.
Local Open Scope mem_scope.

(** ** Rows of pixels *)

(** A row of pixels: each chroma sample serves two columns. *)
Fixpoint row (px : Z -> Z -> Z -> Z -> list Z) (ys us vs as_ : list Z) : list Z :=
  match ys, us, vs, as_ with
  | y0 :: y1 :: ys, u :: us, v :: vs, a0 :: a1 :: as_ => px y0 u v a0 ++ px y1 u v a1 ++ row px ys us vs as_
  | _, _, _, _ => []
  end.

(** ** The interface *)

(** The pointers after [n] columns. *)
Definition advance (alpha : bool) (n : Z) (c : cursor) : cursor :=
  let na := if alpha then n else 0 in
  mkCursor (px_y1 c + n) (px_y2 c + n) (pm_u c + n / 2) (pm_v c + n / 2)
    (px_a1 c + na) (px_a2 c + na) (pd1 c + 4 * n) (pd2 c + 4 * n).

(** Without an alpha plane any samples serve. *)
Definition alpha_samples (alpha : bool) (n : nat) (p : Z) (m : mem) (as_ : list Z) : Prop :=
  if alpha then read n p m = Some as_ else length as_ = n.

(** The samples under the cursor: [n] columns of two rows. *)
Record samples := mkSamples {
  s_y1 : list Z; s_y2 : list Z; s_u : list Z; s_v : list Z; s_a1 : list Z; s_a2 : list Z }.
Record sampled (alpha : bool) (n : nat) (c : cursor) (m : mem) (s : samples) : Prop := {
  sampled_y1 : read n (px_y1 c) m = Some (s_y1 s);
  sampled_y2 : read n (px_y2 c) m = Some (s_y2 s);
  sampled_u : read (n / 2) (pm_u c) m = Some (s_u s);
  sampled_v : read (n / 2) (pm_v c) m = Some (s_v s);
  sampled_a1 : alpha_samples alpha n (px_a1 c) m (s_a1 s);
  sampled_a2 : alpha_samples alpha n (px_a2 c) m (s_a2 s) }.

(** The destination under the cursor: mapped, the two rows apart. *)
Record writable (n : nat) (c : cursor) (m : mem) : Prop := {
  writable_1 : mapped (4 * n) (pd1 c) m = true;
  writable_2 : mapped (4 * n) (pd2 c) m = true;
  writable_apart : pd1 c + 4 * Z.of_nat n <= pd2 c \/ pd2 c + 4 * Z.of_nat n <= pd1 c }.
Definition dst_aligned (c : cursor) : Prop := aligned (pd1 c) = true /\ aligned (pd2 c) = true.

(** Memory with the pixels of [s] in the two rows. *)
Definition draw (px : Z -> Z -> Z -> Z -> list Z) (c : cursor) (s : samples) (m : mem) : mem :=
  upd (pd2 c) (row px (s_y2 s) (s_u s) (s_v s) (s_a2 s)) (upd (pd1 c) (row px (s_y1 s) (s_u s) (s_v s) (s_a1 s)) m).

Class StepSpec (px : Z -> Z -> Z -> Z -> list Z) (alpha : bool) (n : nat) (pre : cursor -> Prop)
  (f : cursor -> MM cursor) : Prop :=
  step_spec c m s : byte_mem m -> sampled alpha n c m s -> writable n c m -> pre c ->
    f c m = Some (advance alpha (Z.of_nat n) c, draw px c s m).

(** Chunks saved to two rows in turn are the rows saved one after the other. *)
Lemma upd_rows p q a b a' b' m :
  length a = length b -> length a' = length b' ->
  p + Z.of_nat (length (a ++ a')) <= q \/ q + Z.of_nat (length (b ++ b')) <= p ->
  upd (q + Z.of_nat (length b)) b' (upd (p + Z.of_nat (length a)) a' (upd q b (upd p a m)))
  = upd q (b ++ b') (upd p (a ++ a') m).
Proof.
  intros H1 H2 H3. rewrite !length_app in H3. rewrite !upd_app.
  rewrite (upd_comm b (p + Z.of_nat (length a)) q a') by lia. reflexivity.
Qed.

Lemma cursor_eq p1 p2 p3 p4 p5 p6 p7 p8 q1 q2 q3 q4 q5 q6 q7 q8 :
  p1 = q1 -> p2 = q2 -> p3 = q3 -> p4 = q4 -> p5 = q5 -> p6 = q6 -> p7 = q7 -> p8 = q8 ->
  mkCursor p1 p2 p3 p4 p5 p6 p7 p8 = mkCursor q1 q2 q3 q4 q5 q6 q7 q8.
Proof. intros. subst. reflexivity. Qed.

(** ** Pixels and rows *)

Class Pixel (px : Z -> Z -> Z -> Z -> list Z) (alpha : bool) : Prop := {
  pixel_length y u v a : length (px y u v a) = 4%nat;
  pixel_bytes y u v a : is_byte y -> is_byte u -> is_byte v -> (alpha = true -> is_byte a) ->
    Forall is_byte (px y u v a);
  pixel_opaque y u v a a' : alpha = false -> px y u v a = px y u v a' }.

Lemma sat_u8_byte z : is_byte (sat_u8 z).
Proof. unfold is_byte, sat_u8. destruct (Z.ltb_spec z 0); [lia|]. destruct (Z.ltb_spec 255 z); lia. Qed.
Lemma byte_mem_upd bs : forall p m, byte_mem m -> Forall is_byte bs -> byte_mem (upd p bs m).
Proof.
  induction bs as [|b bs IH]; intros p m Hm Hb; [exact Hm|]. inversion_clear Hb.
  apply IH; [|assumption]. apply map_Forall_insert_2; assumption.
Qed.

Section Rows.
Context {px : Z -> Z -> Z -> Z -> list Z} {alpha : bool} `{PX : !Pixel px alpha}.

Lemma row_length us : forall vs ys as_, length vs = length us -> length ys = (2 * length us)%nat ->
  length as_ = (2 * length us)%nat -> length (row px ys us vs as_) = (8 * length us)%nat.
Proof.
  induction us as [|u us IH]; intros vs ys as_ Hv Hy Ha; [destruct ys; [reflexivity | cbn in *; lia]|].
  destruct vs as [|v vs]; [cbn in *; lia|]. destruct ys as [|y0 [|y1 ys]]; [cbn in *; lia ..|].
  destruct as_ as [|a0 [|a1 as_]]; [cbn in *; lia ..|]. cbn [row length] in *.
  rewrite !length_app, !pixel_length, IH by lia. lia.
Qed.

Lemma row_app us us' vs' ys' as' : forall vs ys as_, length vs = length us -> length ys = (2 * length us)%nat ->
  length as_ = (2 * length us)%nat ->
  row px (ys ++ ys') (us ++ us') (vs ++ vs') (as_ ++ as') = row px ys us vs as_ ++ row px ys' us' vs' as'.
Proof.
  induction us as [|u us IH]; intros vs ys as_ Hv Hy Ha; cbn [length] in *.
  - destruct vs; [|cbn in *; lia]. destruct ys; [|cbn in *; lia]. destruct as_; [reflexivity | cbn in *; lia].
  - destruct vs as [|v vs]; [cbn in *; lia|]. destruct ys as [|y0 [|y1 ys]]; [cbn in *; lia ..|].
    destruct as_ as [|a0 [|a1 as_]]; [cbn in *; lia ..|]. cbn [row app length] in *.
    rewrite IH by lia. rewrite !app_assoc. reflexivity.
Qed.

Lemma row_bytes us : forall vs ys as_, Forall is_byte us -> Forall is_byte vs -> Forall is_byte ys ->
  (alpha = true -> Forall is_byte as_) -> Forall is_byte (row px ys us vs as_).
Proof.
  induction us as [|u us IH]; intros vs ys as_ Hu Hv Hy Ha; [destruct ys as [|? [|? ?]]; constructor|].
  destruct vs as [|v vs]; [destruct ys as [|? [|? ?]]; constructor|]. destruct ys as [|y0 [|y1 ys]]; [constructor..|].
  destruct as_ as [|a0 [|a1 as_]]; [constructor..|]. apply Forall_cons in Hu as [Hu Hu'], Hv as [Hv Hv'], Hy as [Hy0 Hy].
  apply Forall_cons in Hy as [Hy1 Hy]. cbn [row].
  assert (Ha' : alpha = true -> is_byte a0 /\ is_byte a1 /\ Forall is_byte as_)
    by (intros E; specialize (Ha E); apply Forall_cons in Ha as [? [? ?]%Forall_cons]; auto).
  apply Forall_app; split; [apply pixel_bytes; try assumption; intros E; apply (Ha' E)|].
  apply Forall_app; split; [apply pixel_bytes; try assumption; intros E; apply (Ha' E)|].
  apply IH; try assumption. intros E. apply (Ha' E).
Qed.

(** Pixel [c] of a row. *)
Lemma row_lookup us (c k : nat) : forall vs ys as_ y u v a, ys !! c = Some y -> us !! (c / 2)%nat = Some u ->
  vs !! (c / 2)%nat = Some v -> as_ !! c = Some a -> (k < 4)%nat -> length ys = (2 * length us)%nat ->
  length as_ = (2 * length us)%nat -> row px ys us vs as_ !! (4 * c + k)%nat = px y u v a !! k.
Proof.
  revert c. induction us as [|u0 us IH]; intros c vs ys as_ y u v a Ey Eu Ev Ea Hk Ly La; [discriminate|].
  destruct vs as [|v0 vs]; [discriminate|]. destruct ys as [|y0 [|y1 ys]]; [cbn in *; lia ..|].
  destruct as_ as [|a0 [|a1 as_]]; [cbn in *; lia ..|]. cbn [row length] in *.
  destruct c as [|[|c]].
  - injection Ey as ->. injection Eu as ->. injection Ev as ->. injection Ea as ->.
    rewrite lookup_app_l by (rewrite pixel_length; lia). reflexivity.
  - injection Ey as ->. injection Eu as ->. injection Ev as ->. injection Ea as ->.
    rewrite lookup_app_r by (rewrite pixel_length; lia). rewrite pixel_length.
    rewrite lookup_app_l by (rewrite pixel_length; lia). f_equal. lia.
  - rewrite lookup_app_r by (rewrite pixel_length; lia). rewrite lookup_app_r by (rewrite !pixel_length; lia).
    rewrite !pixel_length. replace (4 * S (S c) + k - 4 - 4)%nat with (4 * c + k)%nat by lia.
    assert (Ec : (S (S c) / 2 = S (c / 2))%nat) by exact (Nat.div_add_l 1 2 c ltac:(lia)).
    rewrite Ec in Eu, Ev. apply IH; [exact Ey | exact Eu | exact Ev | exact Ea | exact Hk | lia | lia].
Qed.
End Rows.

(** ** One pair of rows *)

(** The ranges a pair of rows is read from; [h] is half the columns. *)
Definition sources (alpha : bool) (h : nat) (c : cursor) : list (Z * nat) :=
  [(px_y1 c, 2 * h)%nat; (px_y2 c, 2 * h)%nat; (pm_u c, h); (pm_v c, h)]
  ++ (if alpha then [(px_a1 c, 2 * h)%nat; (px_a2 c, 2 * h)%nat] else []).
Definition ranges_apart (p : Z) (n : nat) (q : Z) (k : nat) : Prop := p + Z.of_nat n <= q \/ q + Z.of_nat k <= p.
Definition apart (alpha : bool) (h : nat) (c : cursor) : Prop :=
  forall p n, In (p, n) (sources alpha h c) -> ranges_apart p n (pd1 c) (8 * h) /\ ranges_apart p n (pd2 c) (8 * h).

(** A pair of rows that can be converted. *)
Record row_ready (alpha : bool) (h : nat) (c : cursor) (m : mem) (s : samples) : Prop := {
  ready_bytes : byte_mem m;
  ready_sampled : sampled alpha (2 * h) c m s;
  ready_writable : writable (2 * h) c m;
  ready_apart : apart alpha h c }.

Definition take_samples (h : nat) (s : samples) : samples :=
  mkSamples (firstn (2 * h) (s_y1 s)) (firstn (2 * h) (s_y2 s)) (firstn h (s_u s)) (firstn h (s_v s))
    (firstn (2 * h) (s_a1 s)) (firstn (2 * h) (s_a2 s)).
Definition drop_samples (h : nat) (s : samples) : samples :=
  mkSamples (skipn (2 * h) (s_y1 s)) (skipn (2 * h) (s_y2 s)) (skipn h (s_u s)) (skipn h (s_v s))
    (skipn (2 * h) (s_a1 s)) (skipn (2 * h) (s_a2 s)).

Lemma half_double h : (2 * h / 2 = h)%nat.
Proof. rewrite Nat.mul_comm. apply Nat.div_mul. lia. Qed.
Lemma half_double_Z h : Z.of_nat (2 * h) / 2 = Z.of_nat h.
Proof. divlia. Qed.

Lemma alpha_samples_split alpha a b p m l : alpha_samples alpha (2 * (a + b)) p m l ->
  alpha_samples alpha (2 * a) p m (firstn (2 * a) l) /\
  alpha_samples alpha (2 * b) (p + if alpha then Z.of_nat (2 * a) else 0) m (skipn (2 * a) l).
Proof.
  replace (2 * (a + b))%nat with (2 * a + 2 * b)%nat by lia.
  destruct alpha; cbn [alpha_samples]; [apply read_split|]. intros H. rewrite length_firstn, length_skipn. lia.
Qed.

Lemma sampled_split alpha a b c m s : sampled alpha (2 * (a + b)) c m s ->
  sampled alpha (2 * a) c m (take_samples a s) /\
  sampled alpha (2 * b) (advance alpha (Z.of_nat (2 * a)) c) m (drop_samples a s).
Proof.
  intros [R1 R2 R3 R4 R5 R6]. rewrite half_double in R3, R4.
  apply alpha_samples_split in R5 as [R5 R5'], R6 as [R6 R6'].
  replace (2 * (a + b))%nat with (2 * a + 2 * b)%nat in R1, R2 by lia.
  apply read_split in R1 as [R1 R1'], R2 as [R2 R2'], R3 as [R3 R3'], R4 as [R4 R4'].
  split; split; rewrite ?half_double; unfold advance, take_samples, drop_samples;
    cbn [px_y1 px_y2 pm_u pm_v px_a1 px_a2 s_y1 s_y2 s_u s_v s_a1 s_a2]; rewrite ?half_double_Z; assumption.
Qed.

Lemma sampled_lengths alpha h c m s : sampled alpha (2 * h) c m s ->
  length (s_y1 s) = (2 * h)%nat /\ length (s_y2 s) = (2 * h)%nat /\ length (s_u s) = h /\ length (s_v s) = h /\
  length (s_a1 s) = (2 * h)%nat /\ length (s_a2 s) = (2 * h)%nat.
Proof.
  intros [R1 R2 R3 R4 R5 R6]. rewrite half_double in R3, R4.
  apply read_length in R1, R2, R3, R4. repeat split; try assumption;
    (destruct alpha; [eapply read_length; eassumption | assumption]).
Qed.

Lemma sampled_bytes alpha h c m s : byte_mem m -> sampled alpha (2 * h) c m s ->
  Forall is_byte (s_y1 s) /\ Forall is_byte (s_y2 s) /\ Forall is_byte (s_u s) /\ Forall is_byte (s_v s) /\
  (alpha = true -> Forall is_byte (s_a1 s)) /\ (alpha = true -> Forall is_byte (s_a2 s)).
Proof.
  intros Hb [R1 R2 R3 R4 R5 R6]. repeat split; try (eapply read_bytes; eassumption);
    intros ->; eapply read_bytes; eassumption.
Qed.

(** Writes apart from the sources leave the samples alone. *)
Lemma sampled_upd alpha h c m s p bs : sampled alpha (2 * h) c m s ->
  (forall q n, In (q, n) (sources alpha h c) -> ranges_apart q n p (length bs)) -> sampled alpha (2 * h) c (upd p bs m) s.
Proof.
  unfold ranges_apart. intros [R1 R2 R3 R4 R5 R6] H. rewrite half_double in R3, R4.
  split; rewrite ?half_double.
  1-4: rewrite read_upd; [assumption | apply H; cbn; tauto].
  all: destruct alpha; [|assumption]; cbn [alpha_samples] in *; rewrite read_upd; [assumption | apply H; cbn; tauto].
Qed.

(** The sources of the remaining columns lie in the sources of the rows. *)
Lemma sources_advance alpha a b c q n : In (q, n) (sources alpha b (advance alpha (Z.of_nat (2 * a)) c)) ->
  exists p k, In (p, k) (sources alpha (a + b) c) /\ p <= q /\ q + Z.of_nat n <= p + Z.of_nat k.
Proof.
  unfold sources, advance. cbn [px_y1 px_y2 pm_u pm_v px_a1 px_a2]. rewrite half_double_Z.
  intros H. apply in_app_or in H as [H|H].
  - cbn in H. destruct H as [E|[E|[E|[E|[]]]]]; injection E as <- <-;
      lazymatch goal with |- exists p k, _ /\ p <= ?q + _ /\ _ =>
        exists q; eexists; split; [apply in_or_app; left; cbn; eauto 8 | lia] end.
  - destruct alpha; [|destruct H]. cbn in H. destruct H as [E|[E|[]]]; injection E as <- <-;
      lazymatch goal with |- exists p k, _ /\ p <= ?q + _ /\ _ =>
        exists q; eexists; split; [apply in_or_app; right; cbn; eauto 8 | lia] end.
Qed.

Lemma apart_advance alpha a b c : apart alpha (a + b) c ->
  forall q n, In (q, n) (sources alpha b (advance alpha (Z.of_nat (2 * a)) c)) ->
  ranges_apart q n (pd1 c) (8 * (a + b)) /\ ranges_apart q n (pd2 c) (8 * (a + b)).
Proof.
  unfold ranges_apart. intros H q n (p & k & Hin & L1 & L2)%sources_advance. apply H in Hin. unfold ranges_apart in Hin. lia.
Qed.

Section Pair.
Context {px : Z -> Z -> Z -> Z -> list Z} {alpha : bool} `{PX : !Pixel px alpha}.

Lemma draw_lengths h c m s : sampled alpha (2 * h) c m s ->
  length (row px (s_y1 s) (s_u s) (s_v s) (s_a1 s)) = (8 * h)%nat /\
  length (row px (s_y2 s) (s_u s) (s_v s) (s_a2 s)) = (8 * h)%nat.
Proof.
  intros (L1 & L2 & L3 & L4 & L5 & L6)%sampled_lengths. split; rewrite row_length; lia.
Qed.

Lemma draw_empty c m s : sampled alpha 0 c m s -> draw px c s m = m.
Proof.
  intros (L1 & L2 & _)%(sampled_lengths alpha 0). unfold draw.
  destruct (s_y1 s); [|discriminate]. destruct (s_y2 s); [reflexivity | discriminate].
Qed.

(** Drawing a first part of the columns and then the rest. *)
Lemma draw_split a b c m s : sampled alpha (2 * (a + b)) c m s -> writable (2 * (a + b)) c m ->
  draw px (advance alpha (Z.of_nat (2 * a)) c) (drop_samples a s) (draw px c (take_samples a s) m) = draw px c s m.
Proof.
  intros Hs [_ _ W]. pose proof (sampled_split _ _ _ _ _ _ Hs) as [Ha Hb].
  pose proof (sampled_lengths _ _ _ _ _ Ha) as (L1 & L2 & L3 & L4 & L5 & L6).
  pose proof (draw_lengths _ _ _ _ Ha) as [D1 D2]. pose proof (draw_lengths _ _ _ _ Hb) as [D3 D4].
  unfold draw, advance. cbn [pd1 pd2].
  cbn [take_samples drop_samples s_y1 s_y2 s_u s_v s_a1 s_a2] in *.
  replace (pd2 c + 4 * Z.of_nat (2 * a)) with (pd2 c + Z.of_nat (length (row px (firstn (2 * a) (s_y2 s)) (firstn a (s_u s)) (firstn a (s_v s)) (firstn (2 * a) (s_a2 s))))) by lia.
  replace (pd1 c + 4 * Z.of_nat (2 * a)) with (pd1 c + Z.of_nat (length (row px (firstn (2 * a) (s_y1 s)) (firstn a (s_u s)) (firstn a (s_v s)) (firstn (2 * a) (s_a1 s))))) by lia.
  rewrite upd_rows by (rewrite ?length_app; lia).
  rewrite <- !row_app by lia. rewrite !firstn_skipn. reflexivity.
Qed.

(** A step on the first columns of a row pair leaves the rest ready. *)
Lemma step_part a b pre f c m s : StepSpec px alpha (2 * a) pre f -> row_ready alpha (a + b) c m s -> pre c ->
  exists m', f c m = Some (advance alpha (Z.of_nat (2 * a)) c, m') /\
    row_ready alpha b (advance alpha (Z.of_nat (2 * a)) c) m' (drop_samples a s) /\
    draw px (advance alpha (Z.of_nat (2 * a)) c) (drop_samples a s) m' = draw px c s m.
Proof.
  intros Hf [Hb Hs Hw Ha] Hp. pose proof (sampled_split _ _ _ _ _ _ Hs) as [Hs1 Hs2].
  exists (draw px c (take_samples a s) m). pose proof (draw_lengths _ _ _ _ Hs1) as [D1 D2].
  pose proof Hw as [W1 W2 W3]. split; [|split; [|apply (draw_split a b); assumption]].
  - apply Hf; [exact Hb | exact Hs1 | | exact Hp].
    split; [eapply mapped_sub; [| |exact W1]; lia | eapply mapped_sub; [| |exact W2]; lia | lia].
  - pose proof (sampled_bytes _ _ _ _ _ Hb Hs1) as (B1 & B2 & B3 & B4 & B5 & B6). split.
    + unfold draw. apply byte_mem_upd; [apply byte_mem_upd; [exact Hb|]|]; apply row_bytes; assumption.
    + unfold draw. apply sampled_upd; [apply sampled_upd; [exact Hs2|]|]; intros q n Hq;
        apply (apart_advance _ _ _ _ Ha) in Hq; unfold ranges_apart in *; lia.
    + split; unfold draw, advance; cbn [pd1 pd2]; [apply mapped_upd, mapped_upd; eapply mapped_sub; [| |exact W1]; lia
        | apply mapped_upd, mapped_upd; eapply mapped_sub; [| |exact W2]; lia | lia].
    + intros q n Hq. apply (apart_advance _ _ _ _ Ha) in Hq. unfold ranges_apart, advance in *. cbn [pd1 pd2]. lia.
Qed.
End Pair.

(** ** Images *)

(** The functions convert the even part of the width and the height. *)
Definition half_cols (i : image) : nat := Z.to_nat (i_width i / 2).
Definition half_rows (i : image) : Z := i_height i / 2.
Definition dst_row (i : image) (r : Z) : Z := i_dst i + r * i_dst_stride i.

(** A plane of [cols] samples in each of [rows] rows: mapped, and apart from
    the destination. *)
Definition plane_ok (i : image) (m : mem) (p stride rows : Z) (cols : nat) : Prop :=
  forall r, 0 <= r < rows -> mapped cols (p + r * stride) m = true /\
    forall r', 0 <= r' < 2 * half_rows i -> ranges_apart (p + r * stride) cols (dst_row i r') (8 * half_cols i).

(** Strides whose double is an [int32_t]. *)
Definition stride_ok (stride : Z) : Prop := - 1073741824 <= stride < 1073741824.

Record image_ok (alpha : bool) (i : image) (m : mem) : Prop := {
  ok_bytes : byte_mem m;
  ok_width : 0 <= i_width i < 2147483648;
  ok_height : 0 <= i_height i;
  ok_strides : stride_ok (i_y_stride i) /\ stride_ok (i_a_stride i) /\ stride_ok (i_dst_stride i);
  ok_y : plane_ok i m (i_y i) (i_y_stride i) (2 * half_rows i) (2 * half_cols i);
  ok_u : plane_ok i m (i_u i) (i_u_stride i) (half_rows i) (half_cols i);
  ok_v : plane_ok i m (i_v i) (i_v_stride i) (half_rows i) (half_cols i);
  ok_a : alpha = true -> plane_ok i m (i_a i) (i_a_stride i) (2 * half_rows i) (2 * half_cols i);
  ok_dst : forall r, 0 <= r < 2 * half_rows i -> mapped (8 * half_cols i) (dst_row i r) m = true;
  ok_dst_stride : 8 * Z.of_nat (half_cols i) <= i_dst_stride i }.

(** The pixel in row [r] and column [c] of the destination and its samples. *)
Definition byte_at (m : mem) (p : Z) : Z := default 0 (m !! p).
Definition pixel_at (px : Z -> Z -> Z -> Z -> list Z) (i : image) (m : mem) (r c : Z) : list Z :=
  px (byte_at m (i_y i + r * i_y_stride i + c)) (byte_at m (i_u i + r / 2 * i_u_stride i + c / 2))
     (byte_at m (i_v i + r / 2 * i_v_stride i + c / 2)) (byte_at m (i_a i + r * i_a_stride i + c)).

(** [m'] is [m] with every pixel converted and nothing else changed. *)
Definition converted (px : Z -> Z -> Z -> Z -> list Z) (i : image) (m m' : mem) : Prop :=
  (forall r c (k : nat), 0 <= r < 2 * half_rows i -> 0 <= c < 2 * Z.of_nat (half_cols i) -> (k < 4)%nat ->
     m' !! (dst_row i r + 4 * c + Z.of_nat k) = pixel_at px i m r c !! k) /\
  (forall x, (forall r, 0 <= r < 2 * half_rows i -> x < dst_row i r \/ dst_row i r + 8 * Z.of_nat (half_cols i) <= x) ->
     m' !! x = m !! x).

(** *** The row pairs of an image *)

Definition row_cursor (i : image) (j : Z) : cursor :=
  mkCursor (i_y i + 2 * j * i_y_stride i) (i_y i + (2 * j + 1) * i_y_stride i)
    (i_u i + j * i_u_stride i) (i_v i + j * i_v_stride i)
    (i_a i + 2 * j * i_a_stride i) (i_a i + (2 * j + 1) * i_a_stride i) (dst_row i (2 * j)) (dst_row i (2 * j + 1)).

Definition read_all (n : nat) (p : Z) (m : mem) : list Z := default [] (read n p m).
Definition pair_samples (alpha : bool) (i : image) (m : mem) (j : Z) : samples :=
  let c := row_cursor i j in let n := (2 * half_cols i)%nat in
  mkSamples (read_all n (px_y1 c) m) (read_all n (px_y2 c) m)
    (read_all (half_cols i) (pm_u c) m) (read_all (half_cols i) (pm_v c) m)
    (if alpha then read_all n (px_a1 c) m else replicate n 0) (if alpha then read_all n (px_a2 c) m else replicate n 0).

(** [n] row pairs from pair [j] on, with samples taken from [m0]. *)
Fixpoint paint (px : Z -> Z -> Z -> Z -> list Z) (alpha : bool) (i : image) (m0 : mem) (n : nat) (j : Z) (m : mem) : mem :=
  match n with
  | O => m
  | S n => paint px alpha i m0 n (j + 1) (draw px (row_cursor i j) (pair_samples alpha i m0 j) m)
  end.

Section Image.
Context {alpha : bool}.
Context (i : image) (m0 : mem) (OK : image_ok alpha i m0).

Lemma first_rows_cursor : first_rows i = row_cursor i 0.
Proof. unfold first_rows, row_cursor, dst_row. apply cursor_eq; lia. Qed.

Lemma next_rows_cursor j : next_rows i (row_cursor i j) = row_cursor i (j + 1).
Proof using OK.
  destruct OK as [_ _ _ (S1 & S2 & S3) _ _ _ _ _ _]. unfold stride_ok in *. unfold next_rows, row_cursor, dst_row.
  cbn [px_y1 px_y2 pm_u pm_v px_a1 px_a2 pd1 pd2]. rewrite !s32_id by lia. apply cursor_eq; lia.
Qed.

(** Each source of a row pair is a row of its plane. *)
Lemma pair_source j p n : 0 <= j < half_rows i -> In (p, n) (sources alpha (half_cols i) (row_cursor i j)) ->
  mapped n p m0 = true /\ forall r', 0 <= r' < 2 * half_rows i -> ranges_apart p n (dst_row i r') (8 * half_cols i).
Proof using OK.
  destruct OK as [_ _ _ _ Oy Ou Ov Oa _ _]. intros Hj H. unfold sources in H.
  cbn [row_cursor px_y1 px_y2 pm_u pm_v px_a1 px_a2] in H. apply in_app_or in H as [H|H].
  - cbn in H. destruct H as [E|[E|[E|[E|[]]]]]; injection E as <- <-;
      [apply Oy; lia | apply Oy; lia | apply Ou; lia | apply Ov; lia].
  - destruct alpha; [|destruct H]. cbn in H. destruct H as [E|[E|[]]]; injection E as <- <-; (apply Oa; [reflexivity | lia]).
Qed.

(** The memory while rows are painted: sources as at the start. *)
Record painting (m : mem) : Prop := {
  painting_bytes : byte_mem m;
  painting_sources j p n : 0 <= j < half_rows i -> In (p, n) (sources alpha (half_cols i) (row_cursor i j)) ->
    read n p m = read n p m0;
  painting_dst r : 0 <= r < 2 * half_rows i -> mapped (8 * half_cols i) (dst_row i r) m = true }.

Lemma painting_start : painting m0.
Proof using OK. split; [apply OK | reflexivity | apply OK]. Qed.

Lemma read_all_mapped n p m : mapped n p m = true -> read n p m = Some (read_all n p m).
Proof. intros [bs E]%mapped_read. unfold read_all. rewrite E. reflexivity. Qed.

Lemma painting_ready m j : painting m -> 0 <= j < half_rows i ->
  row_ready alpha (half_cols i) (row_cursor i j) m (pair_samples alpha i m0 j).
Proof using OK.
  intros [Hb Hs Hd] Hj.
  assert (R : forall p n, In (p, n) (sources alpha (half_cols i) (row_cursor i j)) -> read n p m = Some (read_all n p m0)).
  { intros p n H. rewrite (Hs j p n Hj H). apply read_all_mapped, (proj1 (pair_source j p n Hj H)). }
  split; [exact Hb | | | ].
  - split; rewrite ?half_double; unfold pair_samples; cbn [s_y1 s_y2 s_u s_v s_a1 s_a2];
      [apply R; cbn; tauto .. | |];
      (unfold alpha_samples; destruct alpha; [apply R; cbn; tauto | apply length_replicate]).
  - pose proof (ok_dst_stride _ _ _ OK). split; cbn [row_cursor pd1 pd2];
      [replace (4 * (2 * half_cols i))%nat with (8 * half_cols i)%nat by lia; apply Hd; lia ..
      | left; unfold dst_row; lia].
  - intros p n H. pose proof (proj2 (pair_source j p n Hj H)) as HA. cbn [row_cursor pd1 pd2]. split; apply HA; lia.
Qed.

Context {px : Z -> Z -> Z -> Z -> list Z} `{PX : !Pixel px alpha}.

Lemma painting_draw m j : painting m -> 0 <= j < half_rows i ->
  painting (draw px (row_cursor i j) (pair_samples alpha i m0 j) m).
Proof using OK PX.
  intros Hp Hj. pose proof (painting_ready m j Hp Hj) as [Hb Hs _ _]. destruct Hp as [_ Hr Hd].
  pose proof (draw_lengths (px := px) _ _ _ _ Hs) as [D1 D2].
  pose proof (sampled_bytes _ _ _ _ _ Hb Hs) as (B1 & B2 & B3 & B4 & B5 & B6). unfold draw. split.
  - apply byte_mem_upd; [apply byte_mem_upd; [exact Hb|]|]; apply (row_bytes (alpha := alpha)); assumption.
  - intros j' p n Hj' H. pose proof (proj2 (pair_source j' p n Hj' H)) as HA. cbn [row_cursor pd1 pd2].
    rewrite !read_upd; [apply (Hr j' p n Hj' H) | |]; rewrite ?D1, ?D2; apply HA; lia.
  - intros r Hr'. apply mapped_upd, mapped_upd, Hd, Hr'.
Qed.

(** The rows of the loop are painted. *)
Lemma rows_spec (body : cursor -> MM unit)
  (Hbody : forall j m s, row_ready alpha (half_cols i) (row_cursor i j) m s ->
     body (row_cursor i j) m = Some (tt, draw px (row_cursor i j) s m)) n : forall j m,
  painting m -> 0 <= j -> j + Z.of_nat n = half_rows i ->
  rows body i n (row_cursor i j) m = Some (tt, paint px alpha i m0 n j m).
Proof using OK PX.
  induction n as [|n IH]; intros j m Hp Hj Hn; [reflexivity|]. cbn [rows paint]. unfold mm_bind.
  rewrite (Hbody j m (pair_samples alpha i m0 j)) by (apply painting_ready; [exact Hp | lia]).
  rewrite next_rows_cursor. apply IH; [apply painting_draw; [exact Hp | lia] | lia | lia].
Qed.

(** *** Looking at the painted image *)

Lemma draw_out m j x : painting m -> 0 <= j < half_rows i ->
  (forall r, 2 * j <= r < 2 * j + 2 -> x < dst_row i r \/ dst_row i r + 8 * Z.of_nat (half_cols i) <= x) ->
  draw px (row_cursor i j) (pair_samples alpha i m0 j) m !! x = m !! x.
Proof using OK PX.
  intros Hp Hj Hx. pose proof (ready_sampled _ _ _ _ _ (painting_ready m j Hp Hj)) as Hs.
  pose proof (draw_lengths (px := px) _ _ _ _ Hs) as [D1 D2]. unfold draw. cbn [row_cursor pd1 pd2].
  pose proof (Hx (2 * j) ltac:(lia)). pose proof (Hx (2 * j + 1) ltac:(lia)).
  rewrite !upd_lookup_out by lia. reflexivity.
Qed.

Lemma paint_out n x : forall j m, painting m -> 0 <= j -> j + Z.of_nat n <= half_rows i ->
  (forall r, 2 * j <= r < 2 * (j + Z.of_nat n) -> x < dst_row i r \/ dst_row i r + 8 * Z.of_nat (half_cols i) <= x) ->
  paint px alpha i m0 n j m !! x = m !! x.
Proof using OK PX.
  induction n as [|n IH]; intros j m Hp Hj Hn Hx; [reflexivity|]. cbn [paint].
  rewrite IH; [|apply painting_draw; [exact Hp | lia] | lia | lia | intros r Hr; apply Hx; lia].
  apply draw_out; [exact Hp | lia | intros r Hr; apply Hx; lia].
Qed.

(** The bytes of row [r]. *)
Definition row_bytes_of (r : Z) : list Z :=
  let s := pair_samples alpha i m0 (r / 2) in
  if r mod 2 =? 0 then row px (s_y1 s) (s_u s) (s_v s) (s_a1 s) else row px (s_y2 s) (s_u s) (s_v s) (s_a2 s).

Lemma draw_in m j r (x : nat) : painting m -> 0 <= j < half_rows i -> 2 * j <= r < 2 * j + 2 -> (x < 8 * half_cols i)%nat ->
  draw px (row_cursor i j) (pair_samples alpha i m0 j) m !! (dst_row i r + Z.of_nat x) = row_bytes_of r !! x.
Proof using OK PX.
  intros Hp Hj Hr Hx. pose proof (ready_sampled _ _ _ _ _ (painting_ready m j Hp Hj)) as Hs.
  pose proof (draw_lengths (px := px) _ _ _ _ Hs) as [D1 D2]. pose proof (ok_dst_stride _ _ _ OK) as Hst.
  unfold row_bytes_of, draw. cbn [row_cursor pd1 pd2]. replace (r / 2) with j by divlia.
  destruct (Z.eqb_spec (r mod 2) 0) as [E|E].
  - replace r with (2 * j) by divlia. rewrite upd_lookup_out by (left; unfold dst_row; lia).
    destruct (lookup_lt_is_Some_2 (row px (s_y1 (pair_samples alpha i m0 j)) (s_u (pair_samples alpha i m0 j))
      (s_v (pair_samples alpha i m0 j)) (s_a1 (pair_samples alpha i m0 j))) x) as [b Eb]; [rewrite D1; exact Hx|].
    rewrite Eb. apply upd_lookup_in, Eb.
  - replace r with (2 * j + 1) by divlia.
    destruct (lookup_lt_is_Some_2 (row px (s_y2 (pair_samples alpha i m0 j)) (s_u (pair_samples alpha i m0 j))
      (s_v (pair_samples alpha i m0 j)) (s_a2 (pair_samples alpha i m0 j))) x) as [b Eb]; [rewrite D2; exact Hx|].
    rewrite Eb. apply upd_lookup_in, Eb.
Qed.

Lemma paint_in n r (x : nat) : (x < 8 * half_cols i)%nat -> forall j m, painting m -> 0 <= j -> j + Z.of_nat n <= half_rows i ->
  2 * j <= r < 2 * (j + Z.of_nat n) -> paint px alpha i m0 n j m !! (dst_row i r + Z.of_nat x) = row_bytes_of r !! x.
Proof using OK PX.
  intros Hx. pose proof (ok_dst_stride _ _ _ OK) as Hst.
  induction n as [|n IH]; intros j m Hp Hj Hn Hr; [lia|]. cbn [paint].
  destruct (Z_lt_le_dec r (2 * j + 2)) as [L|L].
  - rewrite paint_out; [apply draw_in; [exact Hp | lia | lia | exact Hx] | apply painting_draw; [exact Hp | lia] | lia | lia |].
    intros r' Hr'. left. unfold dst_row. nia.
  - apply IH; [apply painting_draw; [exact Hp | lia] | lia | lia | lia].
Qed.

Lemma read_all_lookup n p (c : Z) m : mapped n p m = true -> 0 <= c < Z.of_nat n ->
  read_all n p m !! Z.to_nat c = Some (byte_at m (p + c)).
Proof.
  intros H Hc. rewrite (read_lookup n p m _ (Z.to_nat c) (read_all_mapped n p m H)) by lia.
  apply mapped_spec with (i := c) in H; [|lia]. destruct H as [b E]. unfold byte_at. rewrite Z2Nat.id, E by lia. reflexivity.
Qed.

(** The sample of a plane in row [r] and column [c]. *)
Lemma plane_sample p stride rows cols r c : plane_ok i m0 p stride rows cols -> 0 <= r < rows -> 0 <= c < Z.of_nat cols ->
  read_all cols (p + r * stride) m0 !! Z.to_nat c = Some (byte_at m0 (p + r * stride + c)).
Proof. intros H Hr Hc. apply read_all_lookup; [apply (H r Hr) | exact Hc]. Qed.

Lemma row_bytes_pixel r c (k : nat) : 0 <= r < 2 * half_rows i -> 0 <= c < 2 * Z.of_nat (half_cols i) -> (k < 4)%nat ->
  row_bytes_of r !! (4 * Z.to_nat c + k)%nat = pixel_at px i m0 r c !! k.
Proof using OK PX.
  intros Hr Hc Hk. assert (Hj : 0 <= r / 2 < half_rows i) by divlia.
  pose proof (ready_sampled _ _ _ _ _ (painting_ready m0 (r / 2) painting_start Hj)) as Hs.
  pose proof (sampled_lengths _ _ _ _ _ Hs) as (L1 & L2 & L3 & L4 & L5 & L6).
  assert (Eh : (Z.to_nat c / 2)%nat = Z.to_nat (c / 2)) by (rewrite Z2Nat.inj_div by lia; reflexivity).
  pose proof (plane_sample _ _ _ _ r c (ok_y _ _ _ OK) Hr ltac:(lia)) as Ey.
  pose proof (plane_sample _ _ _ _ (r / 2) (c / 2) (ok_u _ _ _ OK) Hj ltac:(divlia)) as Eu.
  pose proof (plane_sample _ _ _ _ (r / 2) (c / 2) (ok_v _ _ _ OK) Hj ltac:(divlia)) as Ev.
  rewrite <- Eh in Eu, Ev.
  assert (Ea : (if alpha then read_all (2 * half_cols i) (i_a i + r * i_a_stride i) m0 else replicate (2 * half_cols i) 0)
    !! Z.to_nat c = Some (if alpha then byte_at m0 (i_a i + r * i_a_stride i + c) else 0)).
  { pose proof (ok_a _ _ _ OK) as Oa. destruct alpha; [apply (plane_sample _ _ _ _ r c (Oa eq_refl) Hr); lia|].
    apply lookup_replicate_2. lia. }
  assert (Ex : pixel_at px i m0 r c = px (byte_at m0 (i_y i + r * i_y_stride i + c))
    (byte_at m0 (i_u i + r / 2 * i_u_stride i + c / 2)) (byte_at m0 (i_v i + r / 2 * i_v_stride i + c / 2))
    (if alpha then byte_at m0 (i_a i + r * i_a_stride i + c) else 0)).
  { unfold pixel_at. destruct alpha; [reflexivity | apply (pixel_opaque (alpha := false)); reflexivity]. }
  rewrite Ex. unfold row_bytes_of, pair_samples in *. cbn [s_y1 s_y2 s_u s_v s_a1 s_a2] in *.
  cbn [row_cursor px_y1 px_y2 pm_u pm_v px_a1 px_a2] in *.
  destruct (Z.eqb_spec (r mod 2) 0) as [E|E];
    [replace (2 * (r / 2)) with r in * by divlia | replace (2 * (r / 2) + 1) with r in * by divlia];
    (apply (row_lookup (alpha := alpha)); [exact Ey | exact Eu | exact Ev | exact Ea | exact Hk | lia | lia]).
Qed.

Lemma paint_converted : converted px i m0 (paint px alpha i m0 (Z.to_nat (half_rows i)) 0 m0).
Proof using OK PX.
  pose proof (ok_height _ _ _ OK). assert (0 <= half_rows i) by (unfold half_rows; divlia). split.
  - intros r c k Hr Hc Hk. rewrite <- row_bytes_pixel by assumption.
    rewrite <- (paint_in (Z.to_nat (half_rows i)) r (4 * Z.to_nat c + k)%nat ltac:(lia) 0 m0 painting_start) by lia. f_equal. lia.
  - intros x Hx. apply paint_out; [exact painting_start | lia | lia | intros r Hr; apply Hx; lia].
Qed.

(** A row loop whose body draws each pair of rows converts the image. *)
Lemma rows_converted (body : cursor -> MM unit) :
  (forall j m s, row_ready alpha (half_cols i) (row_cursor i j) m s ->
     body (row_cursor i j) m = Some (tt, draw px (row_cursor i j) s m)) ->
  exists m', (do! rows body i (Z.to_nat (Z.shiftr (i_height i) 1)) (first_rows i) in mm_ret 0) m0 = Some (0, m') /\
    converted px i m0 m'.
Proof using OK PX.
  intros Hbody. eexists. split; [|exact paint_converted]. unfold mm_bind.
  rewrite first_rows_cursor, Z.shiftr_div_pow2 by lia. change (i_height i / 2 ^ 1) with (half_rows i).
  pose proof (ok_height _ _ _ OK). assert (0 <= half_rows i) by (unfold half_rows; divlia).
  rewrite (rows_spec body Hbody _ 0 m0 painting_start) by lia. reflexivity.
Qed.
End Image.

(** A 6 by 2 image in a memory of 128 bytes: the destination rows start at
    256 and 288, luma at 320, chroma at 336 and 344, alpha at 352. *)
Definition demo_mem : mem := list_to_map (map (fun n => (256 + Z.of_nat n, Z.of_nat n * 37 mod 256)) (seq 0 128)).
Definition demo_image : image := mkImage 256 32 6 2 320 344 336 352 8 4 4 8.

Lemma demo_plane p stride rows cols : 0 <= rows <= 2 ->
  forallb (fun r => mapped cols (p + r * stride) demo_mem && (288 + 24 <=? p + r * stride)) [0; 1] = true ->
  plane_ok demo_image demo_mem p stride rows cols.
Proof.
  intros Hrows H r Hr. rewrite forallb_forall in H.
  assert (Hin : In r [0; 1]) by (cbn; lia). apply H in Hin. bools. split; [assumption|].
  intros r' Hr'. right. change (2 * half_rows demo_image) with 2 in Hr'.
  unfold dst_row. cbn [i_dst i_dst_stride demo_image]. change (half_cols demo_image) with 3%nat. lia.
Qed.

Lemma demo_ok alpha : image_ok alpha demo_image demo_mem.
Proof.
  split.
  - apply (bool_decide_unpack _). vm_compute. exact I.
  - cbn. lia.
  - cbn. lia.
  - cbn. unfold stride_ok. lia.
  - apply demo_plane; [vm_compute; split; discriminate | vm_compute; reflexivity].
  - apply demo_plane; [vm_compute; split; discriminate | vm_compute; reflexivity].
  - apply demo_plane; [vm_compute; split; discriminate | vm_compute; reflexivity].
  - intros _. apply demo_plane; [vm_compute; split; discriminate | vm_compute; reflexivity].
  - intros r Hr. change (2 * half_rows demo_image) with 2 in Hr.
    assert (r = 0 \/ r = 1) as [->| ->] by lia; vm_compute; reflexivity.
  - vm_compute. discriminate.
Qed.
