(* ===== verification/ColorPixel.v ===== *)
(** * The colour of a pixel and the lanes that compute it

    The reference colour of one pixel, in exact integer arithmetic, and what
    the arithmetic of the SSE2 steps ([ycc16], [ycc8], [ycc4]) leaves in each
    lane: the reference colours before saturation, with no 16-bit overflow on
    the way.  [ColorSteps.v] builds the steps on this. *)

From S2P Require Import Prelude Sse2 ColorFrame ColorRows ColorSimd.
Local Open Scope Z_scope.
Local Open Scope mem_scope.

(** ** The reference colour *)

Definition luma (y : Z) : Z := y * 9539 / 256.
Definition blue (y u : Z) : Z := sat_u8 ((luma y + u * 16535 / 256 - 8864) / 32).
Definition green (y u v : Z) : Z := sat_u8 ((luma y + 4340 - u * 3211 / 256 - v * 6662 / 256) / 32).
Definition red (y v : Z) : Z := sat_u8 ((luma y + v * 13079 / 256 - 7136) / 32).
(** A colour multiplied by its alpha. *)
Definition premultiplied (c a : Z) : Z := c * (a + 1) / 256.

(** The four bytes of a pixel in each of the formats. *)
Definition argb_pixel (y u v a : Z) : list Z := [a; red y v; green y u v; blue y u].
Definition xrgb_pixel (y u v _ : Z) : list Z := [255; red y v; green y u v; blue y u].
Definition bgra_pixel (y u v a : Z) : list Z :=
  [premultiplied (blue y u) a; premultiplied (green y u v) a; premultiplied (red y v) a; a].
Definition bgrx_pixel (y u v _ : Z) : list Z := [blue y u; green y u v; red y v; 255].

(** ** Lanes *)

(** The 16-bit lanes of the colour registers before saturation. *)
Definition lane (y c : Z) : Z := u16 (s16 (u16 (word 0 y * u16 0x2543 / 65536 + c)) / 2 ^ 5).
Definition lane_b (y u _ : Z) : Z := lane y (u16 (word 0 u * u16 0x4097 / 65536 + 0xdd60)).
Definition lane_g (y u v : Z) : Z :=
  lane y (u16 (0x10f4 - u16 (word 0 u * u16 0xc8b / 65536 + word 0 v * u16 0x1a06 / 65536))).
Definition lane_r (y _ v : Z) : Z := lane y (u16 (word 0 v * u16 0x3317 / 65536 + 0xe420)).

(** In a register the luma samples of two rows alternate in pairs, so four
    successive lanes share a chroma sample. *)
Fixpoint quads (f : Z -> Z -> Z -> Z) (ys us vs : list Z) : list Z :=
  match ys, us, vs with
  | y0 :: y1 :: y2 :: y3 :: ys, u :: us, v :: vs => f y0 u v :: f y1 u v :: f y2 u v :: f y3 u v :: quads f ys us vs
  | _, _, _ => []
  end.

Ltac sse := unfold x_c0, x_c1, x_c4, x_c5, x_c8, x_coff0, x_coff1, x_coff2, x_zero; cbv zeta;
  repeat (autorewrite with sse; unfold mm_set1_epi16; cbn [repeat map map2 app]).

Section Ycc.
Variables u0 u1 u2 u3 u4 u5 u6 u7 v0 v1 v2 v3 v4 v5 v6 v7 : Z.
Variables a0 a1 a2 a3 a4 a5 a6 a7 b0 b1 b2 b3 b4 b5 b6 b7 : Z.
Variables c0 c1 c2 c3 c4 c5 c6 c7 d0 d1 d2 d3 d4 d5 d6 d7 : Z.
Let us := [u0; u1; u2; u3; u4; u5; u6; u7].
Let vs := [v0; v1; v2; v3; v4; v5; v6; v7].
Let ya := [a0; a1; a2; a3; a4; a5; a6; a7].
Let yb := [b0; b1; b2; b3; b4; b5; b6; b7].
Let yc := [c0; c1; c2; c3; c4; c5; c6; c7].
Let yd := [d0; d1; d2; d3; d4; d5; d6; d7].
Let lanes (f : Z -> Z -> Z -> Z) (ys : list Z) (k : nat) : m128i := bytes (quads f ys (skipn k us) (skipn k vs)).

Lemma ycc16_spec : ycc16 (spread us) (spread vs) (spread ya) (spread yb) (spread yc) (spread yd)
  = (lanes lane_b ya 0, lanes lane_b yb 2, lanes lane_b yc 4, lanes lane_b yd 6,
     lanes lane_g ya 0, lanes lane_g yb 2, lanes lane_g yc 4, lanes lane_g yd 6,
     lanes lane_r ya 0, lanes lane_r yb 2, lanes lane_r yc 4, lanes lane_r yd 6).
Proof. unfold ycc16, lanes, us, vs, ya, yb, yc, yd. sse. reflexivity. Qed.

Lemma ycc8_spec : ycc8 (spread us) (spread vs) (spread ya) (spread yb)
  = (lanes lane_b ya 0, lanes lane_b yb 2, lanes lane_g ya 0, lanes lane_g yb 2, lanes lane_r ya 0, lanes lane_r yb 2).
Proof. unfold ycc8, lanes, us, vs, ya, yb, yc, yd. sse. reflexivity. Qed.

Lemma ycc4_spec : ycc4 (spread us) (spread vs) (spread ya) = (lanes lane_b ya 0, lanes lane_g ya 0, lanes lane_r ya 0).
Proof. unfold ycc4, lanes, us, vs, ya, yb, yc, yd. sse. reflexivity. Qed.
End Ycc.

(** Saturating a lane gives the reference colour: no 16-bit step overflows. *)
Lemma mulhi_lane x c : word 0 x * c / 65536 = x * c / 256.
Proof. unfold word. rewrite <- (Z.div_mul_cancel_r (x * c) 256 256) by lia. f_equal; lia. Qed.
Lemma luma_range y : is_byte y -> 0 <= luma y <= 9501.
Proof. unfold is_byte, luma. intros. divlia. Qed.

Lemma lane_exact y c z :
  is_byte y -> u16 c = u16 z -> -9000 <= z <= 8000 -> sat_u8 (s16 (lane y (u16 c))) = sat_u8 ((luma y + z) / 32).
Proof.
  intros Hy Hc Hz. unfold lane. rewrite mulhi_lane, Hc, s16_u16. change (y * u16 _ / 256) with (luma y). pose proof (luma_range y Hy).
  assert (E : s16 (u16 (luma y + u16 z)) = luma y + z) by (unfold s16, u16; divlia).
  rewrite E. change (2 ^ 5) with 32. f_equal. unfold s16. divlia.
Qed.

Lemma sat_lane_b y u v : is_byte y -> is_byte u -> sat_u8 (s16 (lane_b y u v)) = blue y u.
Proof.
  intros Hy Hu. unfold lane_b, blue, is_byte in *. rewrite mulhi_lane. change (u16 0x4097) with 16535.
  rewrite (lane_exact y _ (u * 16535 / 256 - 8864)); [f_equal; f_equal; lia | exact Hy | unfold u16; divlia | divlia].
Qed.

Lemma sat_lane_g y u v : is_byte y -> is_byte u -> is_byte v -> sat_u8 (s16 (lane_g y u v)) = green y u v.
Proof.
  intros Hy Hu Hv. unfold lane_g, green, is_byte in *. rewrite !mulhi_lane. change (u16 0xc8b) with 3211. change (u16 0x1a06) with 6662.
  rewrite (lane_exact y _ (4340 - u * 3211 / 256 - v * 6662 / 256));
    [f_equal; f_equal; lia | exact Hy | unfold u16; divlia | divlia].
Qed.

Lemma sat_lane_r y u v : is_byte y -> is_byte v -> sat_u8 (s16 (lane_r y u v)) = red y v.
Proof.
  intros Hy Hv. unfold lane_r, red, is_byte in *. rewrite mulhi_lane. change (u16 0x3317) with 13079.
  rewrite (lane_exact y _ (v * 13079 / 256 - 7136)); [f_equal; f_equal; lia | exact Hy | unfold u16; divlia | divlia].
Qed.

(** The two-column step computes the chroma part in 32-bit integers. *)
Lemma lane_u16 y c : lane y (u16 c) = lane y c.
Proof. unfold lane. f_equal. f_equal. f_equal. unfold u16. divlia. Qed.

Lemma lane_ext y c z : u16 c = u16 z -> lane y c = lane y (u16 z).
Proof. intros <-. symmetry. apply lane_u16. Qed.

Lemma scalar_b y u v : lane y (icoff0 + Z.shiftr (u * ic1) 8) = lane_b y u v.
Proof.
  unfold lane_b. rewrite Z.shiftr_div_pow2, mulhi_lane by lia. apply lane_ext.
  change (u * u16 0x4097) with (u * ic1). change icoff0 with (-8864). change (2 ^ 8) with 256. unfold u16. divlia.
Qed.

Lemma scalar_g y u v : lane y (icoff1 - (Z.shiftr (u * ic4) 8 + Z.shiftr (v * ic5) 8)) = lane_g y u v.
Proof.
  unfold lane_g. rewrite !Z.shiftr_div_pow2, !mulhi_lane by lia. apply lane_ext.
  change (u * u16 0xc8b) with (u * ic4). change (v * u16 0x1a06) with (v * ic5).
  change icoff1 with 0x10f4. change (2 ^ 8) with 256. unfold u16. divlia.
Qed.

Lemma scalar_r y u v : lane y (Z.shiftr (v * ic8) 8 + icoff2) = lane_r y u v.
Proof.
  unfold lane_r. rewrite Z.shiftr_div_pow2, mulhi_lane by lia. apply lane_ext.
  change (v * u16 0x3317) with (v * ic8). change icoff2 with (-7136). change (2 ^ 8) with 256. unfold u16. divlia.
Qed.

Section Ycc2.
Variables a0 a1 a2 a3 a4 a5 a6 a7 : Z.
Let ya := [a0; a1; a2; a3; a4; a5; a6; a7].

Lemma ycc2_spec iu iv : ycc2 iu iv (spread ya)
  = (bytes (map (fun y => lane_b y iu iv) ya), bytes (map (fun y => lane_g y iu iv) ya),
     bytes (map (fun y => lane_r y iu iv) ya)).
Proof.
  transitivity (bytes (map (fun y => lane y (icoff0 + Z.shiftr (iu * ic1) 8)) ya),
    bytes (map (fun y => lane y (icoff1 - (Z.shiftr (iu * ic4) 8 + Z.shiftr (iv * ic5) 8))) ya),
    bytes (map (fun y => lane y (Z.shiftr (iv * ic8) 8 + icoff2)) ya)).
  - unfold ycc2, ya. sse. reflexivity.
  - unfold ya. cbn [map]. rewrite !(scalar_b _ iu iv), !scalar_g, !(scalar_r _ iu iv). reflexivity.
Qed.
End Ycc2.

(** ** Premultiplication *)

Definition pm_lane (c a : Z) : Z :=
  sat_u8 (s16 (u16 (u16 (word c 0 * u16 (word a 0 + u16 1)) / 2 ^ 8))).

Lemma pm_lane_exact c a : is_byte c -> is_byte a -> pm_lane c a = premultiplied c a.
Proof.
  unfold is_byte, pm_lane, premultiplied. intros Hc Ha.
  replace (u16 (word a 0 + u16 1)) with (a + 1) by (unfold word, u16; divlia).
  replace (word c 0) with c by (unfold word; lia).
  assert (0 <= c * (a + 1) < 65536) by nia. remember (c * (a + 1)) as z.
  replace (u16 z) with z by (unfold u16; divlia). change (2 ^ 8) with 256.
  replace (s16 (u16 (z / 256))) with (z / 256) by (unfold s16, u16; divlia).
  unfold sat_u8. assert (0 <= z / 256 <= 255) by divlia.
  destruct (Z.ltb_spec (z / 256) 0); [lia|]. destruct (Z.ltb_spec 255 (z / 256)); lia.
Qed.

Section Premultiply.
Variables a0 a1 a2 a3 a4 a5 a6 a7 b0 b1 b2 b3 b4 b5 b6 b7 : Z.
Variables c0 c1 c2 c3 c4 c5 c6 c7 d0 d1 d2 d3 d4 d5 d6 d7 : Z.

Lemma premultiply_half a c : length a = 8%nat -> length c = 8%nat ->
  mm_srli_epi16 (mm_mullo_epi16 (widen c) (mm_add_epi16 (widen a) x_one)) 8
  = bytes (map2 (fun c a => u16 (word c 0 * u16 (word a 0 + u16 1)) / 2 ^ 8) c a).
Proof.
  intros Ha Hc. unfold mm_srli_epi16, lift1, mm_mullo_epi16, lift2, mm_add_epi16, lift2.
  rewrite !words_bytes, !words_widen. f_equal. unfold x_one, mm_set1_epi16. rewrite words_bytes.
  do 8 (destruct a as [|? a]; [discriminate|]). destruct a; [|discriminate].
  do 8 (destruct c as [|? c]; [discriminate|]). destruct c; [|discriminate].
  cbn [map map2 repeat]. rewrite !u16_u16. reflexivity.
Qed.

Lemma PREMULTIPLY_ALPHA_spec :
  PREMULTIPLY_ALPHA [c0; c1; c2; c3; c4; c5; c6; c7; d0; d1; d2; d3; d4; d5; d6; d7]
    [a0; a1; a2; a3; a4; a5; a6; a7; b0; b1; b2; b3; b4; b5; b6; b7]
  = [pm_lane c0 a0; pm_lane c1 a1; pm_lane c2 a2; pm_lane c3 a3; pm_lane c4 a4; pm_lane c5 a5; pm_lane c6 a6;
     pm_lane c7 a7; pm_lane d0 b0; pm_lane d1 b1; pm_lane d2 b2; pm_lane d3 b3; pm_lane d4 b4; pm_lane d5 b5;
     pm_lane d6 b6; pm_lane d7 b7].
Proof.
  unfold PREMULTIPLY_ALPHA, x_zero. rewrite !unpacklo_epi8_widen, !unpackhi_epi8_widen. cbv zeta.
  rewrite !premultiply_half by reflexivity. unfold mm_packus_epi16. rewrite !words_bytes. reflexivity.
Qed.
End Premultiply.

(** ** The specifications on explicit lanes *)

Lemma ycc16_lanes : ltac:(let t := type of ycc16_spec in let t := eval cbn [spread quads skipn] in t in exact t).
Proof. exact ycc16_spec. Qed.
Lemma ycc8_lanes : ltac:(let t := type of ycc8_spec in let t := eval cbn [spread quads skipn] in t in exact t).
Proof. exact ycc8_spec. Qed.
Lemma ycc4_lanes : ltac:(let t := type of ycc4_spec in let t := eval cbn [spread quads skipn] in t in exact t).
Proof. exact ycc4_spec. Qed.
Lemma ycc2_lanes : ltac:(let t := type of ycc2_spec in let t := eval cbn [spread map] in t in exact t).
Proof. exact ycc2_spec. Qed.
