(* ===== verification/ColorSteps.v ===== *)
(** * What the SSE2 steps do to memory

    Each of the sixteen steps of [ColorSimd.v] writes the reference colours of
    its columns to the two rows it works on and changes nothing else.  The
    steps promise this through the class [StepSpec], discharged here by one
    instance per step; the row loops ([ColorImage.v]) use only the class. *)

From S2P Require Import Prelude Sse2 ColorFrame ColorRows ColorSimd ColorPixel.
Local Open Scope Z_scope.
Local Open Scope mem_scope.

(** A sixteen-byte load that works wherever the sixteen-column step uses it. *)
Definition load_works (alpha : bool) (ld : Z -> MM m128i) (c : cursor) : Prop :=
  forall p m, p = px_y1 c \/ p = px_y2 c \/ (alpha = true /\ (p = px_a1 c \/ p = px_a2 c)) -> ld p m = load 16 p m.

(** ** Running the instructions *)

Section Run.
Context {A : Type}.
Implicit Types (m : mem) (p : Z).

Lemma run_loadl (k : m128i -> MM A) p m bs : read 8 p m = Some bs ->
  mm_bind (mm_loadl_epi64 p) k m = k (bs ++ repeat 0 8) m.
Proof. intros H. unfold mm_loadl_epi64, mm_bind, load. rewrite H. reflexivity. Qed.

Lemma run_load16 (ld : Z -> MM m128i) (k : m128i -> MM A) p m bs : ld p m = load 16 p m -> read 16 p m = Some bs ->
  mm_bind (ld p) k m = k bs m.
Proof. intros E H. unfold mm_bind. rewrite E. unfold load. rewrite H. reflexivity. Qed.

Lemma run_int32 (k : Z -> MM A) p m b0 b1 b2 b3 : read 4 p m = Some [b0; b1; b2; b3] ->
  mm_bind (load_int32 p) k m = k (s32 (b0 + 256 * b1 + 65536 * b2 + 16777216 * b3)) m.
Proof. intros H. unfold load_int32, mm_bind, load. rewrite H. reflexivity. Qed.

Lemma run_uint16 (k : Z -> MM A) p m b0 b1 : read 2 p m = Some [b0; b1] ->
  mm_bind (load_uint16 p) k m = k (b0 + 256 * b1) m.
Proof. intros H. unfold load_uint16, mm_bind, load. rewrite H. reflexivity. Qed.

Lemma run_uint8 (k : Z -> MM A) p m b0 : read 1 p m = Some [b0] -> mm_bind (load_uint8 p) k m = k b0 m.
Proof. intros H. unfold load_uint8, mm_bind, load. rewrite H. reflexivity. Qed.

Lemma run_store (k : unit -> MM A) p m bs : mapped (length bs) p m = true ->
  mm_bind (store p bs) k m = k tt (upd p bs m).
Proof. intros H. unfold mm_bind, store. rewrite H. reflexivity. Qed.

Lemma run_store16 (k : unit -> MM A) p m bs : aligned p = true -> mapped (length bs) p m = true ->
  mm_bind (mm_store_si128 p bs) k m = k tt (upd p bs m).
Proof. intros E H. unfold mm_store_si128. rewrite E. apply run_store, H. Qed.

Lemma run_storel (k : unit -> MM A) p m bs : mapped (length (firstn 8 bs)) p m = true ->
  mm_bind (mm_storel_epi64 p bs) k m = k tt (upd p (firstn 8 bs) m).
Proof. intros H. apply run_store, H. Qed.

Lemma run_storeh (k : unit -> MM A) p m bs : mapped (length (firstn 8 (mm_srli_si128 bs 8))) p m = true ->
  mm_bind (mm_storeh_epi64 p bs) k m = k tt (upd p (firstn 8 (mm_srli_si128 bs 8)) m).
Proof. intros H. apply run_store, H. Qed.
End Run.

Lemma aligned_16 p : aligned p = true -> aligned (p + 16) = true.
Proof. unfold aligned. rewrite !Z.eqb_eq. intros. divlia. Qed.

Section Chunks.
Variables (p q : Z) (a1 a2 a3 a4 b1 b2 b3 b4 : list Z) (m : mem).
Hypotheses (A1 : length a1 = 16%nat) (A2 : length a2 = 16%nat) (A3 : length a3 = 16%nat) (A4 : length a4 = 16%nat).
Hypotheses (B1 : length b1 = 16%nat) (B2 : length b2 = 16%nat) (B3 : length b3 = 16%nat) (B4 : length b4 = 16%nat).

Lemma upd_rows2 : p + 32 <= q \/ q + 32 <= p ->
  upd (q + 16) b2 (upd (p + 16) a2 (upd q b1 (upd p a1 m))) = upd q (b1 ++ b2) (upd p (a1 ++ a2) m).
Proof using A1 A2 B1 B2.
  clear A3 A4 B3 B4. intros H. rewrite <- upd_rows by (rewrite ?length_app; lia). rewrite A1, B1. reflexivity.
Qed.

Lemma upd_rows4 : p + 64 <= q \/ q + 64 <= p ->
  upd (q + 16 + 16 + 16) b4 (upd (p + 16 + 16 + 16) a4 (upd (q + 16 + 16) b3 (upd (p + 16 + 16) a3
    (upd (q + 16) b2 (upd (p + 16) a2 (upd q b1 (upd p a1 m)))))))
  = upd q (((b1 ++ b2) ++ b3) ++ b4) (upd p (((a1 ++ a2) ++ a3) ++ a4) m).
Proof.
  intros H. rewrite upd_rows2 by lia.
  replace (q + 16 + 16 + 16) with (q + Z.of_nat (length ((b1 ++ b2) ++ b3))) by (rewrite !length_app; lia).
  replace (p + 16 + 16 + 16) with (p + Z.of_nat (length ((a1 ++ a2) ++ a3))) by (rewrite !length_app; lia).
  replace (q + 16 + 16) with (q + Z.of_nat (length (b1 ++ b2))) by (rewrite !length_app; lia).
  replace (p + 16 + 16) with (p + Z.of_nat (length (a1 ++ a2))) by (rewrite !length_app; lia).
  rewrite !upd_rows; [reflexivity | rewrite ?length_app; lia ..].
Qed.
End Chunks.

(** ** Integers moved to registers *)

Lemma cvtsi32_int32 b0 b1 b2 b3 : is_byte b0 -> is_byte b1 -> is_byte b2 -> is_byte b3 ->
  mm_cvtsi32_si128 (s32 (b0 + 256 * b1 + 65536 * b2 + 16777216 * b3)) = [b0; b1; b2; b3] ++ repeat 0 12.
Proof.
  unfold is_byte, mm_cvtsi32_si128, s32. intros. change (two_p32 / 2) with 2147483648. change two_p32 with 4294967296.
  f_equal. do 3 (f_equal; [divlia|]). f_equal. divlia.
Qed.

Lemma cvtsi32_uint16 b0 b1 : is_byte b0 -> is_byte b1 ->
  mm_cvtsi32_si128 (b0 + 256 * b1) = [b0; b1] ++ repeat 0 14.
Proof.
  unfold is_byte, mm_cvtsi32_si128. intros. change ([b0; b1] ++ repeat 0 14) with ([b0; b1; 0; 0] ++ repeat 0 12).
  f_equal. do 3 (f_equal; [divlia|]). f_equal. divlia.
Qed.

Lemma lor_shifted a k : 0 <= a < 65536 -> Z.lor a (k * 65536) = a + k * 65536.
Proof.
  intros Ha. symmetry. apply Z.add_nocarry_lor, Z.bits_inj'. intros n Hn. rewrite Z.land_spec, Z.bits_0.
  destruct (Z_lt_le_dec n 16) as [L|L].
  - change 65536 with (2 ^ 16). rewrite Z.mul_pow2_bits_low by lia. apply andb_false_r.
  - replace a with (a mod 2 ^ 16) by (apply Z.mod_small; lia). rewrite Z.mod_pow2_bits_high by lia. reflexivity.
Qed.

Lemma s32_high w : 0 <= w < 65536 -> exists k, s32 (w * 65536) = k * 65536 /\ (k = w \/ k = w - 65536).
Proof.
  intros H. exists (if w <? 32768 then w else w - 65536). unfold s32.
  change (two_p32 / 2) with 2147483648. change two_p32 with 4294967296.
  destruct (Z.ltb_spec w 32768); (split; [divlia | lia]).
Qed.

Lemma cvtsi32_two b0 b1 b2 b3 : is_byte b0 -> is_byte b1 -> is_byte b2 -> is_byte b3 ->
  mm_cvtsi32_si128 (Z.lor (Z.land (b0 + 256 * b1) 0xffff) (s32 (Z.shiftl (b2 + 256 * b3) 16)))
  = [b0; b1; b2; b3] ++ repeat 0 12.
Proof.
  unfold is_byte. intros H0 H1 H2 H3. change 0xffff with (Z.ones 16).
  rewrite Z.land_ones, Z.shiftl_mul_pow2, Z.mod_small by lia. change (2 ^ 16) with 65536.
  destruct (s32_high (b2 + 256 * b3)) as (k & -> & Hk); [lia|]. rewrite lor_shifted by lia.
  unfold mm_cvtsi32_si128. f_equal. do 3 (f_equal; [divlia|]). f_equal. divlia.
Qed.

(** ** Evaluating a step *)

(** Names the samples of a read. *)
Ltac explode L :=
  repeat match type of L with
  | length ?l = S _ => destruct l as [|? ?]; [discriminate L | apply (f_equal pred) in L; cbn [length pred] in L]
  end;
  match type of L with length ?l = O => destruct l; [clear L | discriminate L] end.

Ltac eval_register e :=
  eval lazy beta iota zeta delta [
    mm_unpacklo_epi8 mm_unpackhi_epi8 mm_unpacklo_epi16 mm_unpackhi_epi16 mm_unpacklo_epi32 mm_unpackhi_epi32
    mm_unpacklo_epi64 mm_unpackhi_epi64 unpacklo unpackhi zip_chunks mm_setzero_si128 x_zero mm_set1_epi8 x_aa
    Nat.div Nat.divmod Nat.sub fst snd firstn skipn app repeat map] in e.

(** Replaces the value [e] bound by the first [let] using [E : e = e']. *)
Ltac rewrite_let E :=
  match goal with
  | |- (let x := ?e in @?b x) ?m = ?R =>
      refine (eq_trans (f_equal (fun r => b r m) E) _);
      match type of E with _ = ?e' => let e' := eval_register e' in change (b e' m = R); cbv beta end
  end.

(** One instruction of a step: the reads are hypotheses, the bytes read are
    known to be bytes, and the rows are mapped and aligned. *)
Ltac mapped_row W := repeat apply mapped_upd; refine (mapped_sub _ _ _ _ _ _ _ W); cbn [length firstn mm_srli_si128 skipn app repeat]; lia.
Ltac is_mapped := first [match goal with W : mapped _ _ _ = true |- _ => mapped_row W end].
Ltac is_aligned := repeat apply aligned_16; assumption.
Ltac run_one :=
  lazymatch goal with
  | |- mm_bind (mm_loadl_epi64 ?p) _ ?m = _ =>
      match goal with R : read 8 p m = _ |- _ => refine (eq_trans (run_loadl _ _ _ _ R) _); cbv beta end
  | |- mm_bind (load_int32 ?p) _ ?m = _ =>
      match goal with R : read 4 p m = _ |- _ => refine (eq_trans (run_int32 _ _ _ _ _ _ _ R) _); cbv beta end
  | |- mm_bind (load_uint16 ?p) _ ?m = _ =>
      match goal with R : read 2 p m = _ |- _ => refine (eq_trans (run_uint16 _ _ _ _ _ R) _); cbv beta end
  | |- mm_bind (load_uint8 ?p) _ ?m = _ =>
      match goal with R : read 1 p m = _ |- _ => refine (eq_trans (run_uint8 _ _ _ _ R) _); cbv beta end
  | |- mm_bind (mm_store_si128 _ _) _ _ = _ =>
      refine (eq_trans (run_store16 _ _ _ _ _ _) _); [is_aligned | is_mapped | cbv beta]
  | |- mm_bind (mm_storel_epi64 _ _) _ _ = _ =>
      refine (eq_trans (run_storel _ _ _ _ _) _); [is_mapped | cbv beta]
  | |- mm_bind (mm_storeh_epi64 _ _) _ _ = _ =>
      refine (eq_trans (run_storeh _ _ _ _ _) _); [is_mapped | cbv beta]
  | |- mm_bind (?ld ?p) _ ?m = _ =>
      match goal with E : ld p m = load 16 p m, R : read 16 p m = _ |- _ =>
        refine (eq_trans (run_load16 ld _ _ _ _ E R) _); cbv beta end
  | |- (let x := mm_packus_epi16 (bytes ?l1) (bytes ?l2) in _) _ = _ => rewrite_let (packus_epi16_bytes l1 l2)
  | |- (let x := mm_packus_epi16 (bytes ?l) x_zero in _) _ = _ => rewrite_let (packus_epi16_zero l)
  | |- (let x := mm_cvtsi32_si128 (s32 (?b0 + 256 * ?b1 + 65536 * ?b2 + 16777216 * ?b3)) in _) _ = _ =>
      rewrite_let (cvtsi32_int32 b0 b1 b2 b3 ltac:(assumption) ltac:(assumption) ltac:(assumption) ltac:(assumption))
  | |- (let x := mm_cvtsi32_si128 (?b0 + 256 * ?b1) in _) _ = _ =>
      rewrite_let (cvtsi32_uint16 b0 b1 ltac:(assumption) ltac:(assumption))
  | |- (let x := mm_cvtsi32_si128 (Z.lor (Z.land (?b0 + 256 * ?b1) _) (s32 (Z.shiftl (?b2 + 256 * ?b3) 16))) in _) _ = _ =>
      rewrite_let (cvtsi32_two b0 b1 b2 b3 ltac:(assumption) ltac:(assumption) ltac:(assumption) ltac:(assumption))
  | |- (let x := PREMULTIPLY_ALPHA _ _ in _) _ = _ =>
      match goal with |- (let x := ?e in _) _ = _ =>
        let E := fresh in epose proof PREMULTIPLY_ALPHA_spec as E;
        let T := fresh in assert (T : e = _) by apply PREMULTIPLY_ALPHA_spec; clear E; rewrite_let T; clear T end
  | |- (let x := ?e in @?b x) ?m = ?R => let e' := eval_register e in change (b e' m = R); cbv beta
  | |- match ycc16 _ _ _ _ _ _ with _ => _ end _ = _ => rewrite ycc16_lanes; cbv beta iota
  | |- match ycc8 _ _ _ _ with _ => _ end _ = _ => rewrite ycc8_lanes; cbv beta iota
  | |- match ycc4 _ _ _ with _ => _ end _ = _ => rewrite ycc4_lanes; cbv beta iota
  | |- match ycc2 _ _ _ with _ => _ end _ = _ => rewrite ycc2_lanes; cbv beta iota
  end.

Ltac read_bytes H := let F := fresh "F" in let L := fresh "L" in
  match goal with Hb : byte_mem _ |- _ => pose proof (read_bytes _ _ Hb _ _ H) as F end;
  pose proof (read_length _ _ _ _ H) as L; cbn in L; explode L;
  repeat match type of F with Forall _ (_ :: _) => let F' := fresh in apply Forall_cons in F as [F' F] end; clear F.

(** Opens a step: names its samples, keeps the facts about them. *)
Ltac open_step :=
  let c := fresh "c" in let s := fresh "s" in intros c ? s Hb [R1 R2 R3 R4 R5 R6] [W1 W2 W3] Hpre;
  destruct s, c; unfold alpha_samples in *; cbn in R1, R2, R3, R4, R5, R6, W1, W2, W3, Hpre;
  read_bytes R1; read_bytes R2; read_bytes R3; read_bytes R4;
  lazymatch type of R5 with read _ _ _ = _ => read_bytes R5; read_bytes R6 | _ => explode R5; explode R6 end.

Ltac close_step :=
  unfold mm_ret; apply f_equal, f_equal2;
  [ unfold advance; cbn [px_y1 px_y2 pm_u pm_v px_a1 px_a2 pd1 pd2]; apply cursor_eq; divlia | reflexivity ].

(** ** Pixels as the lanes leave them *)

Definition argb_lanes (y u v a : Z) : list Z :=
  [a; sat_u8 (s16 (lane_r y u v)); sat_u8 (s16 (lane_g y u v)); sat_u8 (s16 (lane_b y u v))].
Definition xrgb_lanes (y u v _ : Z) : list Z :=
  [255; sat_u8 (s16 (lane_r y u v)); sat_u8 (s16 (lane_g y u v)); sat_u8 (s16 (lane_b y u v))].
Definition bgra_lanes (y u v a : Z) : list Z :=
  [pm_lane (sat_u8 (s16 (lane_b y u v))) a; pm_lane (sat_u8 (s16 (lane_g y u v))) a;
   pm_lane (sat_u8 (s16 (lane_r y u v))) a; a].
Definition bgrx_lanes (y u v _ : Z) : list Z :=
  [sat_u8 (s16 (lane_b y u v)); sat_u8 (s16 (lane_g y u v)); sat_u8 (s16 (lane_r y u v)); 255].

(** The steps, first with the pixels as the lanes leave them.  The rows of the
    two-column and four-column steps are one chunk each; the others are saved
    in two and four chunks. *)
Ltac run_step f := cbv delta [f]; cbv beta iota; repeat run_one;
  first [ close_step
        | rewrite upd_rows2; [close_step | reflexivity.. | cbn; lia]
        | rewrite upd_rows4; [close_step | reflexivity.. | cbn; lia] ].
Ltac aligned_step := open_step; match goal with H : dst_aligned _ |- _ =>
  let A1 := fresh "A" in let A2 := fresh "A" in destruct H as [A1 A2]; cbn in A1, A2 end.
Ltac loading_step :=
  open_step; match goal with H : load_works _ _ _ /\ dst_aligned _ |- _ =>
    let Hld := fresh in let A1 := fresh "A" in let A2 := fresh "A" in
    destruct H as [Hld [A1 A2]]; cbn in A1, A2;
    repeat match goal with
    | R : read 16 ?p ?m = Some _ |- _ =>
        lazymatch goal with E : _ p m = load 16 p m |- _ => fail | _ => pose proof (Hld p m ltac:(cbn; tauto)) end
    end end.

Lemma argb_2 : StepSpec argb_lanes true 2 (fun _ => True) ARGB32_2.
Proof. open_step. run_step ARGB32_2. Qed.
Lemma argb_4 : StepSpec argb_lanes true 4 dst_aligned ARGB32_4.
Proof. aligned_step. run_step ARGB32_4. Qed.
Lemma argb_8 : StepSpec argb_lanes true 8 dst_aligned ARGB32_8.
Proof. aligned_step. run_step ARGB32_8. Qed.
Lemma argb_16 ld : StepSpec argb_lanes true 16 (fun c => load_works true ld c /\ dst_aligned c) (ARGB32_16 ld).
Proof. loading_step. run_step ARGB32_16. Qed.

Lemma xrgb_2 : StepSpec xrgb_lanes false 2 (fun _ => True) ARGB32_no_alpha_2.
Proof. open_step. run_step ARGB32_no_alpha_2. Qed.
Lemma xrgb_4 : StepSpec xrgb_lanes false 4 dst_aligned ARGB32_no_alpha_4.
Proof. aligned_step. run_step ARGB32_no_alpha_4. Qed.
Lemma xrgb_8 : StepSpec xrgb_lanes false 8 dst_aligned ARGB32_no_alpha_8.
Proof. aligned_step. run_step ARGB32_no_alpha_8. Qed.
Lemma xrgb_16 ld : StepSpec xrgb_lanes false 16 (fun c => load_works false ld c /\ dst_aligned c) (ARGB32_no_alpha_16 ld).
Proof. loading_step. run_step ARGB32_no_alpha_16. Qed.

Lemma bgra_2 : StepSpec bgra_lanes true 2 (fun _ => True) BGRA32_2.
Proof. open_step. run_step BGRA32_2. Qed.
Lemma bgra_4 : StepSpec bgra_lanes true 4 dst_aligned BGRA32_4.
Proof. aligned_step. run_step BGRA32_4. Qed.
Lemma bgra_8 : StepSpec bgra_lanes true 8 dst_aligned BGRA32_8.
Proof. aligned_step. run_step BGRA32_8. Qed.
Lemma bgra_16 ld : StepSpec bgra_lanes true 16 (fun c => load_works true ld c /\ dst_aligned c) (BGRA32_16 ld).
Proof. loading_step. run_step BGRA32_16. Qed.

Lemma bgrx_2 : StepSpec bgrx_lanes false 2 (fun _ => True) BGRA32_no_alpha_2.
Proof. open_step. run_step BGRA32_no_alpha_2. Qed.
Lemma bgrx_4 : StepSpec bgrx_lanes false 4 dst_aligned BGRA32_no_alpha_4.
Proof. aligned_step. run_step BGRA32_no_alpha_4. Qed.
Lemma bgrx_8 : StepSpec bgrx_lanes false 8 dst_aligned BGRA32_no_alpha_8.
Proof. aligned_step. run_step BGRA32_no_alpha_8. Qed.
Lemma bgrx_16 ld : StepSpec bgrx_lanes false 16 (fun c => load_works false ld c /\ dst_aligned c) (BGRA32_no_alpha_16 ld).
Proof. loading_step. run_step BGRA32_no_alpha_16. Qed.

(** ** The steps draw the reference colours *)

Definition same_pixels (alpha : bool) (px px' : Z -> Z -> Z -> Z -> list Z) : Prop :=
  forall y u v a, is_byte y -> is_byte u -> is_byte v -> (alpha = true -> is_byte a) -> px y u v a = px' y u v a.

Lemma row_ext alpha px px' : same_pixels alpha px px' -> forall us vs ys as_,
  Forall is_byte us -> Forall is_byte vs -> Forall is_byte ys -> (alpha = true -> Forall is_byte as_) ->
  row px ys us vs as_ = row px' ys us vs as_.
Proof.
  intros E. induction us as [|u us IH]; intros vs ys as_ Hu Hv Hy Ha; [destruct ys as [|? [|? ?]]; reflexivity|].
  destruct ys as [|y0 [|y1 ys]]; [reflexivity..|]. destruct vs as [|v vs]; [reflexivity|].
  destruct as_ as [|a0 [|a1 as_]]; [reflexivity..|].
  inversion_clear Hu. inversion_clear Hv. inversion_clear Hy as [|? ? Hy0 Hy'].
  inversion_clear Hy' as [|? ? Hy1 Hy2]. cbn [row].
  rewrite IH; [|assumption..|intros Hal; apply Ha in Hal; inversion_clear Hal as [|? ? _ Hal']; inversion_clear Hal'; assumption].
  rewrite (E y0 u v a0), (E y1 u v a1); try assumption; [reflexivity | |];
    intros Hal; apply Ha in Hal; inversion_clear Hal as [|? ? ? Hal']; inversion_clear Hal'; assumption.
Qed.

Lemma step_ext alpha px px' n pre f :
  same_pixels alpha px px' -> StepSpec px alpha n pre f -> StepSpec px' alpha n pre f.
Proof.
  intros E H c m s Hb [R1 R2 R3 R4 R5 R6] Hw Hp.
  rewrite (H c m s Hb (Build_sampled _ _ _ _ _ R1 R2 R3 R4 R5 R6) Hw Hp). unfold draw.
  assert (HA : forall p l, alpha_samples alpha n p m l -> alpha = true -> Forall is_byte l)
    by (intros p l Hl ->; exact (read_bytes _ _ Hb _ _ Hl)).
  rewrite !(row_ext alpha px px' E); [reflexivity| | | | | | | |];
    first [eapply read_bytes; eassumption | eapply HA; eassumption].
Qed.

Lemma same_argb alpha : same_pixels alpha argb_lanes argb_pixel.
Proof. intros y u v a Hy Hu Hv _. unfold argb_lanes. rewrite sat_lane_r, sat_lane_g, sat_lane_b by assumption. reflexivity. Qed.
Lemma same_xrgb alpha : same_pixels alpha xrgb_lanes xrgb_pixel.
Proof. intros y u v a Hy Hu Hv _. unfold xrgb_lanes. rewrite sat_lane_r, sat_lane_g, sat_lane_b by assumption. reflexivity. Qed.
Lemma same_bgrx alpha : same_pixels alpha bgrx_lanes bgrx_pixel.
Proof. intros y u v a Hy Hu Hv _. unfold bgrx_lanes. rewrite sat_lane_r, sat_lane_g, sat_lane_b by assumption. reflexivity. Qed.

Lemma same_bgra : same_pixels true bgra_lanes bgra_pixel.
Proof.
  intros y u v a Hy Hu Hv Ha. unfold bgra_lanes. specialize (Ha eq_refl).
  rewrite !pm_lane_exact by (assumption || apply sat_u8_byte).
  rewrite sat_lane_r, sat_lane_g, sat_lane_b by assumption. reflexivity.
Qed.

(** What a function's steps promise its row loop. *)
Class StepsSpec (px : Z -> Z -> Z -> Z -> list Z) (alpha : bool) (k : steps) : Prop := {
  spec16 ld : StepSpec px alpha 16 (fun c => load_works alpha ld c /\ dst_aligned c) (step16 k ld);
  spec8 : StepSpec px alpha 8 dst_aligned (step8 k);
  spec4 : StepSpec px alpha 4 dst_aligned (step4 k);
  spec2 : StepSpec px alpha 2 (fun _ => True) (step2 k) }.

#[export] Instance ARGB32_spec : StepsSpec argb_pixel true ARGB32_steps.
Proof. split; [intros ld| | |]; (eapply step_ext; [apply same_argb|]); [apply argb_16 | apply argb_8 | apply argb_4 | apply argb_2]. Qed.
#[export] Instance ARGB32_no_alpha_spec : StepsSpec xrgb_pixel false ARGB32_no_alpha_steps.
Proof. split; [intros ld| | |]; (eapply step_ext; [apply same_xrgb|]); [apply xrgb_16 | apply xrgb_8 | apply xrgb_4 | apply xrgb_2]. Qed.
#[export] Instance BGRA32_spec : StepsSpec bgra_pixel true BGRA32_steps.
Proof. split; [intros ld| | |]; (eapply step_ext; [apply same_bgra|]); [apply bgra_16 | apply bgra_8 | apply bgra_4 | apply bgra_2]. Qed.
#[export] Instance BGRA32_no_alpha_spec : StepsSpec bgrx_pixel false BGRA32_no_alpha_steps.
Proof. split; [intros ld| | |]; (eapply step_ext; [apply same_bgrx|]); [apply bgrx_16 | apply bgrx_8 | apply bgrx_4 | apply bgrx_2]. Qed.
