(* ===== verification/ColorImage.v ===== *)
(** * The SSE2 conversions of whole images

    The row loops of [ColorSimd.v] on any steps that keep the promise of
    [StepsSpec], and from them the four conversion functions: on a
    well-formed image they never fault, never read or write outside the planes
    and the destination, and leave the reference colour in every pixel. *)

From S2P Require Import Prelude Sse2 ColorFrame ColorRows ColorSimd ColorPixel ColorSteps.
Local Open Scope Z_scope.
Local Open Scope mem_scope.

Lemma premultiplied_byte c a : is_byte c -> is_byte a -> is_byte (premultiplied c a).
Proof. unfold is_byte, premultiplied. intros. assert (0 <= c * (a + 1) < 65536) by nia. divlia. Qed.

Ltac solve_pixel := split; [reflexivity | | try discriminate; reflexivity]; intros; repeat first [apply Forall_nil_2 | apply Forall_cons_2];
  first [apply premultiplied_byte; auto; apply sat_u8_byte | apply sat_u8_byte | solve [auto] | unfold is_byte; lia].
#[export] Instance argb_is_pixel : Pixel argb_pixel true.
Proof. solve_pixel. Qed.
#[export] Instance xrgb_is_pixel : Pixel xrgb_pixel false.
Proof. solve_pixel. Qed.
#[export] Instance bgra_is_pixel : Pixel bgra_pixel true.
Proof. solve_pixel. Qed.
#[export] Instance bgrx_is_pixel : Pixel bgrx_pixel false.
Proof. solve_pixel. Qed.

Section Loop.
Context {px : Z -> Z -> Z -> Z -> list Z} {alpha : bool} `{PX : !Pixel px alpha}.

(** ** The row loop *)

(** The load chosen works: it is the unaligned one, or the rows are aligned. *)
Definition src_aligned (c : cursor) : Prop :=
  aligned (px_y1 c) = true /\ aligned (px_y2 c) = true /\
  (alpha = true -> aligned (px_a1 c) = true /\ aligned (px_a2 c) = true).
Definition load_ok (ld : Z -> MM m128i) (c : cursor) : Prop :=
  ld = mm_loadu_si128 \/ (ld = mm_load_si128 /\ src_aligned c).

Lemma load_ok_works ld c : load_ok ld c -> load_works alpha ld c.
Proof.
  intros [E|[E (A1 & A2 & A3)]] p m Hp; subst ld; [reflexivity|]. unfold mm_load_si128.
  destruct Hp as [E|[E|[Ha [E|E]]]]; subst p; [rewrite A1 | rewrite A2 | rewrite (proj1 (A3 Ha)) | rewrite (proj2 (A3 Ha))];
    reflexivity.
Qed.

Lemma aligned_add p k : k mod 16 = 0 -> aligned p = true -> aligned (p + k) = true.
Proof. unfold aligned. rewrite !Z.eqb_eq. intros. divlia. Qed.

Lemma load_ok_advance ld c : load_ok ld c -> load_ok ld (advance alpha 16 c).
Proof.
  intros [H|[H (A1 & A2 & A3)]]; [left; exact H | right; split; [exact H|]].
  unfold src_aligned, advance. cbn [px_y1 px_y2 px_a1 px_a2].
  split; [|split]; [apply aligned_add; [reflexivity | assumption] ..|].
  intros E. destruct (A3 E). rewrite E. split; apply aligned_add; [reflexivity | assumption | reflexivity | assumption].
Qed.

Lemma dst_aligned_advance c k : k mod 4 = 0 -> dst_aligned c -> dst_aligned (advance alpha k c).
Proof. intros E [A1 A2]. unfold dst_aligned, advance. cbn [pd1 pd2]. split; apply aligned_add; try assumption; divlia. Qed.

Context {k : steps} `{K : !StepsSpec px alpha k}.
Context (ld : Z -> MM m128i).

(** Where a row pair stands after the columns up to [iW]: what is left is
    ready, and drawing it completes the rows. *)
Definition row_state (W : Z) (c0 : cursor) (m0 : mem) (s0 : samples) (iW : Z) (c : cursor) (m : mem) : Prop :=
  0 <= iW <= W /\ dst_aligned c /\
  exists s, row_ready alpha (Z.to_nat ((W - iW) / 2)) c m s /\ draw px c s m = draw px c0 s0 m0.

(** A step of [2 * a] columns from such a state. *)
Lemma row_step a pre f W c0 m0 s0 iW c m : StepSpec px alpha (2 * a) pre f -> (1 < a -> Nat.even a = true)%nat ->
  row_state W c0 m0 s0 iW c m -> pre c -> iW + 2 * Z.of_nat a <= W ->
  exists m', f c m = Some (advance alpha (Z.of_nat (2 * a)) c, m') /\
    ((1 < a)%nat -> row_state W c0 m0 s0 (iW + 2 * Z.of_nat a) (advance alpha (Z.of_nat (2 * a)) c) m') /\
    exists s, row_ready alpha (Z.to_nat ((W - (iW + 2 * Z.of_nat a)) / 2)) (advance alpha (Z.of_nat (2 * a)) c) m' s /\
      draw px (advance alpha (Z.of_nat (2 * a)) c) s m' = draw px c0 s0 m0.
Proof.
  intros Hf He (HW & HA & s & Hr & Hd) Hp Hle.
  replace (Z.to_nat ((W - iW) / 2)) with (a + Z.to_nat ((W - (iW + 2 * Z.of_nat a)) / 2))%nat in Hr by divlia.
  destruct (step_part _ _ _ _ _ _ _ Hf Hr Hp) as (m' & E & Hr' & Hd'). exists m'. rewrite Hd in Hd'.
  split; [exact E | split; [|eauto]]. intros L. split; [lia | split; [|eauto]].
  apply dst_aligned_advance; [|exact HA]. destruct (proj1 (Nat.even_spec a) (He L)) as [b ->]. divlia.
Qed.

Lemma loop16_spec W c0 m0 s0 fuel : 0 <= W < 2147483648 -> forall iW c m,
  row_state W c0 m0 s0 iW c m -> load_ok ld c -> (Z.to_nat ((W - iW) / 16) < fuel)%nat ->
  exists iW' c' m', loop16 (step16 k ld) fuel W iW c m = Some ((iW', c'), m') /\
    row_state W c0 m0 s0 iW' c' m' /\ W < iW' + 16.
Proof.
  intros HW. induction fuel as [|fuel IH]; intros iW c m Hs Hl Hf; [lia|]. cbn [loop16].
  rewrite s32_id by lia. pose proof Hs as (Hi & HA & _). destruct (Z.leb_spec iW (W - 16)) as [L|L].
  - destruct (row_step 8 _ _ _ _ _ _ _ _ _ (spec16 ld) ltac:(reflexivity) Hs (conj (load_ok_works _ _ Hl) HA) ltac:(lia))
      as (m' & E & Hs' & _). specialize (Hs' ltac:(lia)). unfold mm_bind. rewrite E.
    apply IH; [exact Hs' | apply load_ok_advance, Hl | divlia].
  - exists iW, c, m. split; [reflexivity | split; [exact Hs | lia]].
Qed.

(** Small steps: taken exactly when the columns are there. *)
Lemma small_step a f W c0 m0 s0 iW c m : StepSpec px alpha (2 * a) dst_aligned f -> (1 < a)%nat -> Nat.even a = true ->
  0 <= W < 2147483648 -> Z.of_nat a < 1073741824 -> row_state W c0 m0 s0 iW c m -> W < iW + 4 * Z.of_nat a ->
  exists iW' c' m',
    (if iW <=? s32 (W - 2 * Z.of_nat a) then let! c := f c in mm_ret (iW + 2 * Z.of_nat a, c) else mm_ret (iW, c)) m
    = Some ((iW', c'), m') /\ row_state W c0 m0 s0 iW' c' m' /\ W < iW' + 2 * Z.of_nat a.
Proof.
  intros Hf Ha He HW Hb Hs HiW. rewrite s32_id by lia. pose proof Hs as (Hi & HA & _).
  destruct (Z.leb_spec iW (W - 2 * Z.of_nat a)) as [L|L].
  - destruct (row_step a _ _ _ _ _ _ _ _ _ Hf (fun _ => He) Hs HA ltac:(lia)) as (m' & E & Hs' & _).
    specialize (Hs' Ha). unfold mm_bind. rewrite E. eexists _, _, _. split; [reflexivity | split; [exact Hs' | lia]].
  - exists iW, c, m. split; [reflexivity | split; [exact Hs | lia]].
Qed.

(** A pair of rows is drawn, whatever its width. *)
Lemma row_pair_spec W c m s : 0 <= W < 2147483648 -> row_ready alpha (Z.to_nat (W / 2)) c m s -> dst_aligned c ->
  load_ok ld c -> row_pair k ld W c m = Some (tt, draw px c s m).
Proof.
  intros HW Hr HA Hl. assert (Hs : row_state W c m s 0 c m).
  { split; [lia | split; [exact HA|]]. exists s. rewrite Z.sub_0_r. split; [exact Hr | reflexivity]. }
  unfold row_pair.
  destruct (loop16_spec W c m s (S (Z.to_nat W)) HW 0 c m Hs Hl ltac:(divlia)) as (i1 & c1 & m1 & E1 & S1 & L1).
  destruct (small_step 4 (step8 k) W c m s i1 c1 m1 spec8 ltac:(lia) eq_refl HW ltac:(lia) S1 ltac:(lia))
    as (i2 & c2 & m2 & E2 & S2 & L2).
  destruct (small_step 2 (step4 k) W c m s i2 c2 m2 spec4 ltac:(lia) eq_refl HW ltac:(lia) S2 ltac:(lia))
    as (i3 & c3 & m3 & E3 & S3 & L3).
  unfold mm_bind at 1. rewrite E1. unfold mm_bind at 1.
  change (2 * Z.of_nat 4) with 8 in E2. change (2 * Z.of_nat 2) with 4 in E3. rewrite E2.
  unfold mm_bind at 1. rewrite E3. rewrite s32_id by lia. pose proof S3 as (Hi & _ & s3 & Hr3 & Hd3).
  destruct (Z.leb_spec i3 (W - 2)) as [L|L].
  - destruct (row_step 1 _ _ _ _ _ _ _ _ _ spec2 ltac:(lia) S3 I ltac:(lia)) as (m4 & E4 & _ & s4 & Hr4 & Hd4).
    unfold mm_bind. rewrite E4. rewrite <- Hd4. unfold mm_ret. do 2 f_equal. symmetry. apply (draw_empty (alpha := alpha)).
    replace (Z.to_nat ((W - (i3 + 2 * Z.of_nat 1)) / 2)) with 0%nat in Hr4 by divlia. apply Hr4.
  - unfold mm_ret. do 2 f_equal. rewrite <- Hd3. symmetry. apply (draw_empty (alpha := alpha)).
    replace (Z.to_nat ((W - i3) / 2)) with 0%nat in Hr3 by divlia. apply Hr3.
Qed.
End Loop.

(** ** The four functions *)

(** The load is chosen by the alignment of the planes and their strides. *)
Lemma aligned_rows p stride r : aligned p = true -> aligned stride = true -> aligned (p + r * stride) = true.
Proof.
  intros A1 A2. apply aligned_add; [|exact A1]. unfold aligned in A2. apply Z.eqb_eq in A2.
  rewrite Z.mul_mod, A2, Z.mul_0_r by lia. reflexivity.
Qed.

Lemma load_alpha_ok i j : load_ok (alpha := true) (load_alpha i) (row_cursor i j).
Proof.
  unfold load_alpha, load_ok, src_aligned.
  destruct (aligned (i_y i)) eqn:?, (aligned (i_u i)), (aligned (i_v i)), (aligned (i_a i)) eqn:?,
    (aligned (i_y_stride i)) eqn:?, (aligned (i_u_stride i)), (aligned (i_v_stride i)), (aligned (i_a_stride i)) eqn:?;
    try (left; reflexivity). right. cbn [negb orb row_cursor px_y1 px_y2 px_a1 px_a2].
  repeat split; intros; apply aligned_rows; assumption.
Qed.

Lemma load_no_alpha_ok i j : load_ok (alpha := false) (load_no_alpha i) (row_cursor i j).
Proof.
  unfold load_no_alpha, load_ok, src_aligned.
  destruct (aligned (i_y i)) eqn:?, (aligned (i_u i)), (aligned (i_v i)),
    (aligned (i_y_stride i)) eqn:?, (aligned (i_u_stride i)), (aligned (i_v_stride i)); try (left; reflexivity).
  right. cbn [negb orb row_cursor px_y1 px_y2 px_a1 px_a2].
  split; [reflexivity|]. split; [apply aligned_rows; assumption|]. split; [apply aligned_rows; assumption | discriminate].
Qed.

Lemma sse2_rows {px alpha} `{PX : !Pixel px alpha} (k : steps) `{K : !StepsSpec px alpha k} ld i m :
  image_ok alpha i m -> aligned (i_dst i) = true -> aligned (i_dst_stride i) = true ->
  (forall j, load_ok (alpha := alpha) ld (row_cursor i j)) ->
  exists m', (do! rows (row_pair k ld (i_width i)) i (Z.to_nat (Z.shiftr (i_height i) 1)) (first_rows i) in mm_ret 0) m
    = Some (0, m') /\ converted px i m m'.
Proof.
  intros OK A1 A2 Hl. apply (rows_converted i m OK). intros j m' s Hr. apply (row_pair_spec ld).
  - apply (ok_width _ _ _ OK).
  - exact Hr.
  - split; cbn [row_cursor pd1 pd2]; apply aligned_rows; assumption.
  - apply Hl.
Qed.

(** The formats, with the pixel and the function of each. *)
Inductive rgb_format := FORMAT_ARGB | FORMAT_XRGB | FORMAT_BGRA | FORMAT_BGRX.
Definition has_alpha (f : rgb_format) : bool :=
  match f with FORMAT_ARGB | FORMAT_BGRA => true | FORMAT_XRGB | FORMAT_BGRX => false end.
Definition pixel_of (f : rgb_format) : Z -> Z -> Z -> Z -> list Z :=
  match f with
  | FORMAT_ARGB => argb_pixel | FORMAT_XRGB => xrgb_pixel | FORMAT_BGRA => bgra_pixel | FORMAT_BGRX => bgrx_pixel
  end.
Definition sse2_convert (f : rgb_format) : image -> MM Z :=
  match f with
  | FORMAT_ARGB => ColorConvert_YCbCr420p_to_ARGB32
  | FORMAT_XRGB => ColorConvert_YCbCr420p_to_ARGB32_no_alpha
  | FORMAT_BGRA => ColorConvert_YCbCr420p_to_BGRA32
  | FORMAT_BGRX => ColorConvert_YCbCr420p_to_BGRA32_no_alpha
  end.

(** Each function converts an image. *)
Lemma sse2_converts f i m : image_ok (has_alpha f) i m ->
  aligned (i_dst i) = true -> aligned (i_dst_stride i) = true ->
  exists m', sse2_convert f i m = Some (0, m') /\ converted (pixel_of f) i m m'.
Proof.
  intros OK A1 A2. destruct f; cbn [sse2_convert pixel_of has_alpha] in *;
    (apply sse2_rows; [exact _.. | exact OK | exact A1 | exact A2 | first [apply load_alpha_ok | apply load_no_alpha_ok]]).
Qed.

(** C4: On an image whose planes and destination are mapped, apart from
    each other and suitably aligned, each SSE2 conversion returns 0 without a
    fault - no access outside the planes' columns, no misaligned aligned
    access - for every width and height; afterwards each pixel of the even
    part of the image is the reference colour of its samples, computed in
    exact arithmetic one pixel at a time, and nothing else has changed. *)
Theorem sse2_conversion_exact f i m : image_ok (has_alpha f) i m ->
  aligned (i_dst i) = true -> aligned (i_dst_stride i) = true ->
  exists m', sse2_convert f i m = Some (0, m') /\ converted (pixel_of f) i m m'.
Proof. exact (sse2_converts f i m). Qed.

Lemma sse2_conversion_exact_witness :
  exists m', sse2_convert FORMAT_BGRA demo_image demo_mem = Some (0, m') /\ converted bgra_pixel demo_image demo_mem m'.
Proof. apply (sse2_conversion_exact FORMAT_BGRA demo_image demo_mem (demo_ok true)); reflexivity. Defined.
