(* ===== verification/ColorGeneric.v ===== *)
(** * The portable colour conversion routines of [ColorConverter.c]

    The functions compiled where SSE2 is not available: BGRA from 4:2:0 with
    and without alpha, a two-by-two block of pixels per iteration, with the
    tables of [ColorTables.v]; the ARGB functions, which are not implemented;
    and the 4:2:2 functions, which are the same on every platform. *)

From S2P Require Import Prelude Sse2 ColorFrame ColorTables ColorRows.
Local Open Scope Z_scope.
Local Open Scope mem_scope.

(** ** Table look-ups and saturation *)

Definition table (t : list Z) (i : Z) : MM Z :=
  if i <? 0 then mm_fault else match t !! Z.to_nat i with Some x => mm_ret x | None => mm_fault end.

(** [TCLAMP_U8(val, dst)] with [pClip = color_tClip + 288 * 2], and
    [SCLAMP_U8(s, dst)]; the destination is one byte. *)
Definition TCLAMP_U8 (val dst : Z) : MM unit := let! b := table color_tClip (val + 288 * 2) in store dst [b].
Definition SCLAMP_U8 (s dst : Z) : MM unit :=
  let v := s in let mask := Z.shiftr (v - 0x1fe) 31 in
  store dst [Z.land (Z.lor (Z.shiftr (u32 v) 1) (u32 (Z.lnot mask))) (u32 (Z.lnot (Z.shiftr v 31))) mod 256].

Definition BBi : Z := 554.
Definition RRi : Z := 446.

(** ** 4:2:0 *)

(** The colours of a block; the cursor holds [say1], [say2], [sau], [sav],
    [a_col1], [a_col2], [da1] and [da2]. *)
Definition block_colours (c : cursor) : MM unit :=
  let (say1, say2, sau, sav, _, _, da1, da2) := c in
  let! sf1 := load_uint8 sau in
  let! sf2 := load_uint8 sav in
  let! sf01 := load_uint8 say1 in
  let! sf03 := load_uint8 (say1 + 1) in
  let! sf02 := load_uint8 say2 in
  let! sf04 := load_uint8 (say2 + 1) in
  let! rv := table color_tRV sf2 in let sfr := rv - RRi in
  let! gu := table color_tGU sf1 in let! gv := table color_tGV sf2 in let sfg := gu - gv in
  let! bu := table color_tBU sf1 in let sfb := bu - BBi in
  let! sf01 := table color_tYY sf01 in
  let! sf03 := table color_tYY sf03 in
  let! sf02 := table color_tYY sf02 in
  let! sf04 := table color_tYY sf04 in
  do! TCLAMP_U8 (sf01 + sfr) (da1 + 2) in
  do! TCLAMP_U8 (sf01 + sfg) (da1 + 1) in
  do! SCLAMP_U8 (sf01 + sfb) (da1 + 0) in
  do! TCLAMP_U8 (sf03 + sfr) (da1 + 6) in
  do! TCLAMP_U8 (sf03 + sfg) (da1 + 5) in
  do! SCLAMP_U8 (sf03 + sfb) (da1 + 4) in
  do! TCLAMP_U8 (sf02 + sfr) (da2 + 2) in
  do! TCLAMP_U8 (sf02 + sfg) (da2 + 1) in
  do! SCLAMP_U8 (sf02 + sfb) (da2 + 0) in
  do! TCLAMP_U8 (sf04 + sfr) (da2 + 6) in
  do! SCLAMP_U8 (sf04 + sfg) (da2 + 5) in
  TCLAMP_U8 (sf04 + sfb) (da2 + 4).

(** The loop body of each function: the colours, the alpha bytes, and the
    pointers of the next block. *)
Definition block_alpha (c : cursor) : MM cursor :=
  do! block_colours c in
  let (say1, say2, sau, sav, a_col1, a_col2, da1, da2) := c in
  let! b := load_uint8 a_col1 in do! store (da1 + 3) [b] in
  let! b := load_uint8 (a_col1 + 1) in do! store (da1 + 7) [b] in
  let! b := load_uint8 a_col2 in do! store (da2 + 3) [b] in
  let! b := load_uint8 (a_col2 + 1) in do! store (da2 + 7) [b] in
  mm_ret (mkCursor (say1 + 2) (say2 + 2) (sau + 1) (sav + 1) (a_col1 + 2) (a_col2 + 2) (da1 + 8) (da2 + 8)).

Definition block_opaque (c : cursor) : MM cursor :=
  do! block_colours c in
  let (say1, say2, sau, sav, a_col1, a_col2, da1, da2) := c in
  do! store (da2 + 7) [0xff] in
  do! store (da2 + 3) [0xff] in
  do! store (da1 + 7) [0xff] in
  do! store (da1 + 3) [0xff] in
  mm_ret (mkCursor (say1 + 2) (say2 + 2) (sau + 1) (sav + 1) a_col1 a_col2 (da1 + 8) (da2 + 8)).

(** [for (i = 0; i < (width >> 1); i++)], with [n] iterations left. *)
Fixpoint blocks (block : cursor -> MM cursor) (n : nat) (c : cursor) : MM unit :=
  match n with
  | O => mm_ret tt
  | S n => let! c := block c in blocks block n c
  end.

(** The tests at the start: null pointers, empty and odd sizes. *)
Definition bad_arguments (i : image) : bool :=
  (i_dst i =? 0) || (i_y i =? 0) || (i_u i =? 0) || (i_v i =? 0)
  || (i_width i <=? 0) || (i_height i <=? 0) || negb (Z.land (Z.lor (i_width i) (i_height i)) 1 =? 0).

Definition generic_420p (block : cursor -> MM cursor) (i : image) : MM Z :=
  if bad_arguments i then mm_ret 1
  else do! rows (blocks block (Z.to_nat (Z.shiftr (i_width i) 1))) i (Z.to_nat (Z.shiftr (i_height i) 1)) (first_rows i) in
       mm_ret 0.

Definition C_YCbCr420p_to_BGRA32 : image -> MM Z := generic_420p block_alpha.
Definition C_YCbCr420p_to_BGRA32_no_alpha : image -> MM Z := generic_420p block_opaque.
(** Not implemented. *)
Definition C_YCbCr420p_to_ARGB32 (i : image) : MM Z := mm_ret 1.
Definition C_YCbCr420p_to_ARGB32_no_alpha (i : image) : MM Z := mm_ret 1.

(** ** 4:2:2

    Samples are interleaved: two luma samples two bytes apart, one sample of
    each chroma plane every four bytes. *)
Record image422 := mkImage422 {
  j_dst : Z; j_dst_stride : Z; j_width : Z; j_height : Z; j_y : Z; j_v : Z; j_u : Z; j_y_stride : Z; j_uv_stride : Z }.

(** [say1], [sau], [sav] and [da1]. *)
Definition block422 (say1 sau sav da1 : Z) : MM unit :=
  let! sf1 := load_uint8 sau in
  let! sf2 := load_uint8 sav in
  let! sf01 := load_uint8 say1 in
  let! sf03 := load_uint8 (say1 + 2) in
  let! rv := table color_tRV sf2 in let sfr := rv - RRi in
  let! gu := table color_tGU sf1 in let! gv := table color_tGV sf2 in let sfg := gu - gv in
  let! bu := table color_tBU sf1 in let sfb := bu - BBi in
  let! sf01 := table color_tYY sf01 in
  let! sf03 := table color_tYY sf03 in
  do! TCLAMP_U8 (sf01 + sfr) (da1 + 2) in
  do! TCLAMP_U8 (sf01 + sfg) (da1 + 1) in
  do! SCLAMP_U8 (sf01 + sfb) (da1 + 0) in
  do! TCLAMP_U8 (sf03 + sfr) (da1 + 6) in
  do! TCLAMP_U8 (sf03 + sfg) (da1 + 5) in
  do! SCLAMP_U8 (sf03 + sfb) (da1 + 4) in
  do! store (da1 + 7) [0xff] in
  store (da1 + 3) [0xff].

Fixpoint blocks422 (n : nat) (say1 sau sav da1 : Z) : MM unit :=
  match n with
  | O => mm_ret tt
  | S n => do! block422 say1 sau sav da1 in blocks422 n (say1 + 4) (sau + 4) (sav + 4) (da1 + 8)
  end.

Fixpoint rows422 (i : image422) (n : nat) (sly1 slu slv dl1 : Z) : MM unit :=
  match n with
  | O => mm_ret tt
  | S n =>
      do! blocks422 (Z.to_nat (Z.shiftr (j_width i) 1)) sly1 slu slv dl1 in
      rows422 i n (sly1 + j_y_stride i) (slu + j_uv_stride i) (slv + j_uv_stride i) (dl1 + j_dst_stride i)
  end.

Definition ColorConvert_YCbCr422p_to_BGRA32_no_alpha (i : image422) : MM Z :=
  if (j_dst i =? 0) || (j_y i =? 0) || (j_u i =? 0) || (j_v i =? 0) then mm_ret 1
  else if (j_width i <=? 0) || (j_height i <=? 0) then mm_ret 1
  else if negb (Z.land (j_width i) 1 =? 0) then mm_ret 1
  else do! rows422 i (Z.to_nat (j_height i)) (j_y i) (j_u i) (j_v i) (j_dst i) in mm_ret 0.
(** Not implemented. *)
Definition ColorConvert_YCbCr422p_to_ARGB32_no_alpha (i : image422) : MM Z := mm_ret 1.

(** ** The colours *)

Definition half (z : Z) : Z := sat_u8 (z / 2).
Definition c_blue (y u : Z) : Z := half (entry color_tYY y + (entry color_tBU u - BBi)).
Definition c_green (y u v : Z) : Z := half (entry color_tYY y + (entry color_tGU u - entry color_tGV v)).
Definition c_red (y v : Z) : Z := half (entry color_tYY y + (entry color_tRV v - RRi)).
Definition c_bgra_pixel (y u v a : Z) : list Z := [c_blue y u; c_green y u v; c_red y v; a].
Definition c_bgrx_pixel (y u v _ : Z) : list Z := [c_blue y u; c_green y u v; c_red y v; 255].

Lemma SCLAMP_exact v : -600 <= v <= 1100 ->
  Z.land (Z.lor (Z.shiftr (u32 v) 1) (u32 (Z.lnot (Z.shiftr (v - 0x1fe) 31)))) (u32 (Z.lnot (Z.shiftr v 31))) mod 256 = half v.
Proof.
  intros H. assert (C : forallb (fun n => let v := Z.of_nat n - 600 in
    Z.land (Z.lor (Z.shiftr (u32 v) 1) (u32 (Z.lnot (Z.shiftr (v - 0x1fe) 31)))) (u32 (Z.lnot (Z.shiftr v 31))) mod 256 =? half v)
    (seq 0 1701) = true) by (vm_compute; reflexivity).
  rewrite forallb_forall in C. specialize (C (Z.to_nat (v + 600)) ltac:(apply in_seq; lia)). cbv zeta in C.
  replace (Z.of_nat (Z.to_nat (v + 600)) - 600) with v in C by lia. apply Z.eqb_eq, C.
Qed.

(** Every sum stays inside the saturation table. *)
Lemma sums_in_table y u v : is_byte y -> is_byte u -> is_byte v ->
  -576 <= entry color_tYY y + (entry color_tBU u - BBi) <= 1087 /\
  -576 <= entry color_tYY y + (entry color_tGU u - entry color_tGV v) <= 1087 /\
  -576 <= entry color_tYY y + (entry color_tRV v - RRi) <= 1087.
Proof.
  intros Hy Hu Hv. destruct (color_tYY_spec y Hy) as [_ ->], (color_tBU_spec u Hu) as [_ ->],
    (color_tGU_spec u Hu) as [_ ->], (color_tGV_spec v Hv) as [_ ->], (color_tRV_spec v Hv) as [_ ->].
  unfold is_byte, rounded, BBi, RRi in *. divlia.
Qed.

(** ** Running a block *)

Lemma run_table {A} (k : Z -> MM A) t i x m : 0 <= i -> t !! Z.to_nat i = Some x -> mm_bind (table t i) k m = k x m.
Proof. intros H E. unfold mm_bind, table. destruct (Z.ltb_spec i 0); [lia|]. rewrite E. reflexivity. Qed.

Lemma run_poke {A} (k : unit -> MM A) p b m : mapped 1 p m = true -> mm_bind (store p [b]) k m = k tt (upd p [b] m).
Proof. intros H. unfold mm_bind, store. cbn [length]. rewrite H. reflexivity. Qed.

Lemma tclamp_store v p m : -576 <= v <= 1087 -> TCLAMP_U8 v p m = store p [half v] m.
Proof. intros H. unfold TCLAMP_U8. apply (run_table (fun b => store p [b])); [lia | apply color_tClip_spec, H]. Qed.

Lemma sclamp_store v p m : -576 <= v <= 1087 -> SCLAMP_U8 v p m = store p [half v] m.
Proof. intros H. unfold SCLAMP_U8. cbv zeta. rewrite SCLAMP_exact by lia. reflexivity. Qed.

Lemma run_tclamp {A} (k : unit -> MM A) v p m : -576 <= v <= 1087 -> mapped 1 p m = true ->
  mm_bind (TCLAMP_U8 v p) k m = k tt (upd p [half v] m).
Proof. intros H Hp. unfold mm_bind. rewrite tclamp_store by exact H. apply run_poke, Hp. Qed.

Lemma run_sclamp {A} (k : unit -> MM A) v p m : -576 <= v <= 1087 -> mapped 1 p m = true ->
  mm_bind (SCLAMP_U8 v p) k m = k tt (upd p [half v] m).
Proof. intros H Hp. unfold mm_bind. rewrite sclamp_store by exact H. apply run_poke, Hp. Qed.

(** Sixteen bytes of two rows, written in the order of the source. *)
Section Scatter.
Variables (p q : Z) (a0 a1 a2 a3 a4 a5 a6 a7 b0 b1 b2 b3 b4 b5 b6 b7 : Z) (m : mem).
Hypothesis H : p + 8 <= q \/ q + 8 <= p.

Definition scatter_colours : mem :=
  upd (q + 4) [b4] (upd (q + 5) [b5] (upd (q + 6) [b6] (upd (q + 0) [b0] (upd (q + 1) [b1] (upd (q + 2) [b2] (
  upd (p + 4) [a4] (upd (p + 5) [a5] (upd (p + 6) [a6] (upd (p + 0) [a0] (upd (p + 1) [a1] (upd (p + 2) [a2] m))))))))))).

Ltac by_lookup := apply map_eq; intros x; lazy beta iota zeta delta [scatter_colours upd];
  rewrite !lookup_insert; repeat (case_decide; [try (exfalso; lia) | try (exfalso; lia)]); reflexivity.

Lemma scatter_alpha :
  upd (q + 7) [b7] (upd (q + 3) [b3] (upd (p + 7) [a7] (upd (p + 3) [a3] scatter_colours)))
  = upd q [b0; b1; b2; b3; b4; b5; b6; b7] (upd p [a0; a1; a2; a3; a4; a5; a6; a7] m).
Proof using H. by_lookup. Qed.

Lemma scatter_opaque :
  upd (p + 3) [a3] (upd (p + 7) [a7] (upd (q + 3) [b3] (upd (q + 7) [b7] scatter_colours)))
  = upd q [b0; b1; b2; b3; b4; b5; b6; b7] (upd p [a0; a1; a2; a3; a4; a5; a6; a7] m).
Proof using H. by_lookup. Qed.
End Scatter.

Lemma run_at {A} (k : Z -> MM A) p m b : m !! p = Some b -> mm_bind (load_uint8 p) k m = k b m.
Proof.
  intros E. unfold load_uint8, mm_bind, load. change (read 1 p m) with (match m !! p with Some b => Some [b] | None => None end).
  rewrite E. reflexivity.
Qed.

Lemma read_2 p m bs : read 2 p m = Some bs -> exists b0 b1, bs = [b0; b1] /\ m !! p = Some b0 /\ m !! (p + 1) = Some b1.
Proof.
  intros H. pose proof (read_length _ _ _ _ H) as L. destruct bs as [|b0 [|b1 [|? ?]]]; [discriminate.. | | discriminate].
  exists b0, b1. pose proof (read_lookup _ _ _ _ 0 H ltac:(lia)) as E0. pose proof (read_lookup _ _ _ _ 1 H ltac:(lia)) as E1.
  rewrite Z.add_0_r in E0. auto.
Qed.
Lemma read_1 p m bs : read 1 p m = Some bs -> exists b, bs = [b] /\ m !! p = Some b.
Proof.
  intros H. pose proof (read_length _ _ _ _ H) as L. destruct bs as [|b [|? ?]]; [discriminate | | discriminate].
  exists b. pose proof (read_lookup _ _ _ _ 0 H ltac:(lia)) as E0. rewrite Z.add_0_r in E0. auto.
Qed.

(** A cell of a mapped range stays mapped. *)
Lemma cell_mapped n p m : mapped n p m = true -> forall k m', 0 <= k < Z.of_nat n ->
  (forall x, is_Some (m !! x) -> is_Some (m' !! x)) -> mapped 1 (p + k) m' = true.
Proof.
  intros W k m' Hk Hm. apply mapped_spec. intros i Hi. apply Hm. rewrite <- Z.add_assoc.
  apply (proj1 (mapped_spec n p m) W). lia.
Qed.
Ltac by_upd := intros ? ?; repeat apply upd_is_Some; assumption.

(** The colours of a block are stored. *)
Lemma block_colours_spec c m y0 y1 y2 y3 u v :
  byte_mem m -> m !! px_y1 c = Some y0 -> m !! (px_y1 c + 1) = Some y1 -> m !! px_y2 c = Some y2 ->
  m !! (px_y2 c + 1) = Some y3 -> m !! pm_u c = Some u -> m !! pm_v c = Some v ->
  mapped 8 (pd1 c) m = true -> mapped 8 (pd2 c) m = true ->
  block_colours c m = Some (tt, scatter_colours (pd1 c) (pd2 c)
    (c_blue y0 u) (c_green y0 u v) (c_red y0 v) (c_blue y1 u) (c_green y1 u v) (c_red y1 v)
    (c_blue y2 u) (c_green y2 u v) (c_red y2 v) (c_blue y3 u) (c_green y3 u v) (c_red y3 v) m).
Proof.
  intros Hb E0 E1 E2 E3 Eu Ev W1 W2. destruct c as [p1 p2 p3 p4 p5 p6 p7 p8].
  cbn [px_y1 px_y2 pm_u pm_v pd1 pd2] in *.
  pose proof (Hb _ _ E0) as B0. pose proof (Hb _ _ E1) as B1. pose proof (Hb _ _ E2) as B2. pose proof (Hb _ _ E3) as B3.
  pose proof (Hb _ _ Eu) as Bu. pose proof (Hb _ _ Ev) as Bv. cbn beta in *.
  pose proof (sums_in_table y0 u v B0 Bu Bv). pose proof (sums_in_table y1 u v B1 Bu Bv).
  pose proof (sums_in_table y2 u v B2 Bu Bv). pose proof (sums_in_table y3 u v B3 Bu Bv).
  cbv delta [block_colours]; cbv beta iota.
  rewrite (run_at _ _ _ _ Eu), (run_at _ _ _ _ Ev), (run_at _ _ _ _ E0), (run_at _ _ _ _ E1), (run_at _ _ _ _ E2), (run_at _ _ _ _ E3).
  rewrite (run_table _ _ _ _ _ (proj1 Bv) (proj1 (color_tRV_spec v Bv))). cbv zeta.
  rewrite (run_table _ _ _ _ _ (proj1 Bu) (proj1 (color_tGU_spec u Bu))).
  rewrite (run_table _ _ _ _ _ (proj1 Bv) (proj1 (color_tGV_spec v Bv))).
  rewrite (run_table _ _ _ _ _ (proj1 Bu) (proj1 (color_tBU_spec u Bu))).
  rewrite (run_table _ _ _ _ _ (proj1 B0) (proj1 (color_tYY_spec y0 B0))).
  rewrite (run_table _ _ _ _ _ (proj1 B1) (proj1 (color_tYY_spec y1 B1))).
  rewrite (run_table _ _ _ _ _ (proj1 B2) (proj1 (color_tYY_spec y2 B2))).
  rewrite (run_table _ _ _ _ _ (proj1 B3) (proj1 (color_tYY_spec y3 B3))).
  do 11 (first [rewrite run_tclamp | rewrite run_sclamp];
    [| lia | first [apply (cell_mapped 8 _ _ W1) | apply (cell_mapped 8 _ _ W2)]; [lia | by_upd]]).
  rewrite tclamp_store by lia. unfold store. cbn [length].
  rewrite (cell_mapped 8 _ _ W2); [reflexivity | lia | by_upd].
Qed.

(** ** The functions *)

Lemma scatter_out p q a0 a1 a2 a4 a5 a6 b0 b1 b2 b4 b5 b6 m x :
  x < p \/ p + 8 <= x -> x < q \/ q + 8 <= x ->
  scatter_colours p q a0 a1 a2 a4 a5 a6 b0 b1 b2 b4 b5 b6 m !! x = m !! x.
Proof. intros Hp Hq. unfold scatter_colours. rewrite !upd_lookup_out by (cbn; lia). reflexivity. Qed.

(** Opens a block: one chroma sample of each plane, two luma samples a row. *)
Ltac open_block :=
  intros c m s Hb [R1 R2 R3 R4 R5 R6] [W1 W2 W3] Hap;
  destruct s as [l1 l2 l3 l4 l5 l6]; cbn [s_y1 s_y2 s_u s_v s_a1 s_a2] in *; change (2 / 2)%nat with 1%nat in *;
  apply read_2 in R1 as (y0 & y1 & -> & E0 & E1); apply read_2 in R2 as (y2 & y3 & -> & E2 & E3);
  apply read_1 in R3 as (u & -> & Eu); apply read_1 in R4 as (v & -> & Ev);
  change (4 * 2)%nat with 8%nat in W1, W2; change (4 * Z.of_nat 2) with 8 in W3.

Lemma block_opaque_spec : StepSpec c_bgrx_pixel false 2 (fun _ => True) block_opaque.
Proof.
  open_block. destruct l5 as [|a0 [|a1 [|? ?]]]; [discriminate.. | | discriminate].
  destruct l6 as [|a2 [|a3 [|? ?]]]; [discriminate.. | | discriminate].
  cbv delta [block_opaque]; cbv beta. unfold mm_bind at 1.
  rewrite (block_colours_spec c m y0 y1 y2 y3 u v) by assumption.
  destruct c as [p1 p2 p3 p4 p5 p6 p7 p8]. cbn [pd1 pd2] in *.
  do 4 (rewrite run_poke; [|first [apply (cell_mapped 8 _ _ W1) | apply (cell_mapped 8 _ _ W2)];
    [lia | by_upd]]).
  rewrite scatter_opaque by lia. unfold mm_ret. apply f_equal, f_equal2; [|reflexivity].
  unfold advance. cbn [px_y1 px_y2 pm_u pm_v px_a1 px_a2 pd1 pd2]. apply cursor_eq; divlia.
Qed.

Lemma block_alpha_spec : StepSpec c_bgra_pixel true 2 (apart true 1) block_alpha.
Proof.
  open_block. cbn [alpha_samples] in *.
  apply read_2 in R5 as (a0 & a1 & -> & F0 & F1); apply read_2 in R6 as (a2 & a3 & -> & F2 & F3).
  pose proof (Hap (px_a1 c) 2%nat ltac:(cbn; tauto)) as [X1 X2].
  pose proof (Hap (px_a2 c) 2%nat ltac:(cbn; tauto)) as [X3 X4]. unfold ranges_apart in *. clear Hap.
  cbv delta [block_alpha]; cbv beta. unfold mm_bind at 1.
  rewrite (block_colours_spec c m y0 y1 y2 y3 u v) by assumption.
  destruct c as [p1 p2 p3 p4 p5 p6 p7 p8]. cbn [px_a1 px_a2 pd1 pd2] in *.
  assert (G : forall x a (m' : mem), m !! x = Some a -> x < p7 \/ p7 + 8 <= x -> x < p8 \/ p8 + 8 <= x ->
    m' !! x = scatter_colours p7 p8 (c_blue y0 u) (c_green y0 u v) (c_red y0 v) (c_blue y1 u) (c_green y1 u v) (c_red y1 v)
      (c_blue y2 u) (c_green y2 u v) (c_red y2 v) (c_blue y3 u) (c_green y3 u v) (c_red y3 v) m !! x -> m' !! x = Some a)
    by (intros x a m' E Hp Hq ->; rewrite scatter_out by assumption; exact E).
  rewrite (run_at _ _ _ a0) by (eapply G; [exact F0 | lia | lia | reflexivity]).
  rewrite run_poke; [|apply (cell_mapped 8 _ _ W1); [lia | by_upd]].
  rewrite (run_at _ _ _ a1) by (eapply G; [exact F1 | lia | lia | apply upd_lookup_out; cbn; lia]).
  rewrite run_poke; [|apply (cell_mapped 8 _ _ W1); [lia | by_upd]].
  rewrite (run_at _ _ _ a2) by (eapply G; [exact F2 | lia | lia | rewrite !upd_lookup_out by (cbn; lia); reflexivity]).
  rewrite run_poke; [|apply (cell_mapped 8 _ _ W2); [lia | by_upd]].
  rewrite (run_at _ _ _ a3) by (eapply G; [exact F3 | lia | lia | rewrite !upd_lookup_out by (cbn; lia); reflexivity]).
  rewrite run_poke; [|apply (cell_mapped 8 _ _ W2); [lia | by_upd]].
  rewrite scatter_alpha by lia. unfold mm_ret. apply f_equal, f_equal2; [|reflexivity].
  unfold advance. cbn [px_y1 px_y2 pm_u pm_v px_a1 px_a2 pd1 pd2]. apply cursor_eq; divlia.
Qed.

Lemma half_byte z : is_byte (half z).
Proof. apply sat_u8_byte. Qed.
#[export] Instance c_bgra_is_pixel : Pixel c_bgra_pixel true.
Proof.
  split; [reflexivity | | discriminate]. intros y u v a _ _ _ Ha.
  repeat first [apply Forall_nil_2 | apply Forall_cons_2]; [apply half_byte.. | exact (Ha eq_refl)].
Qed.
#[export] Instance c_bgrx_is_pixel : Pixel c_bgrx_pixel false.
Proof.
  split; [reflexivity | | reflexivity]. intros y u v a _ _ _ Ha.
  repeat first [apply Forall_nil_2 | apply Forall_cons_2]; [apply half_byte.. | unfold is_byte; lia].
Qed.

(** The columns of a pair of rows. *)
Lemma blocks_spec px alpha (PX : Pixel px alpha) block pre (HB : StepSpec px alpha 2 pre block)
  (Hpre : forall h c, apart alpha (S h) c -> pre c) n : forall c m s,
  row_ready alpha n c m s -> blocks block n c m = Some (tt, draw px c s m).
Proof.
  induction n as [|n IH]; intros c m s Hr.
  - rewrite (draw_empty (alpha := alpha)); [reflexivity | apply Hr].
  - destruct (step_part 1 n pre block c m s HB Hr (Hpre n c (ready_apart _ _ _ _ _ Hr))) as (m' & E & Hr' & Hd).
    cbn [blocks]. unfold mm_bind. rewrite E, <- Hd. apply IH, Hr'.
Qed.

Lemma apart_first alpha h c : apart alpha (S h) c -> apart alpha 1 c.
Proof.
  intros H p n Hin. unfold apart, ranges_apart in *.
  assert (exists n', In (p, n') (sources alpha (S h) c) /\ (n <= n')%nat) as (n' & Hin' & L).
  { unfold sources in *. apply in_app_or in Hin as [Hin|Hin].
    - cbn in Hin. destruct Hin as [E|[E|[E|[E|[]]]]]; injection E as <- <-;
        (eexists; split; [apply in_or_app; left; cbn; eauto 8 | lia]).
    - destruct alpha; [|destruct Hin]. cbn in Hin. destruct Hin as [E|[E|[]]]; injection E as <- <-;
        (eexists; split; [apply in_or_app; right; cbn; eauto 8 | lia]). }
  apply H in Hin'. lia.
Qed.

Definition c_convert (alpha : bool) : image -> MM Z :=
  if alpha then C_YCbCr420p_to_BGRA32 else C_YCbCr420p_to_BGRA32_no_alpha.
Definition c_pixel (alpha : bool) : Z -> Z -> Z -> Z -> list Z := if alpha then c_bgra_pixel else c_bgrx_pixel.

Lemma c_converts alpha i m : bad_arguments i = false -> image_ok alpha i m ->
  exists m', c_convert alpha i m = Some (0, m') /\ converted (c_pixel alpha) i m m'.
Proof.
  assert (E : c_convert alpha i = generic_420p (if alpha then block_alpha else block_opaque) i)
    by (destruct alpha; reflexivity).
  rewrite E. unfold generic_420p. intros ->. intros OK.
  destruct alpha; apply (rows_converted i m OK); intros j m' s Hr; rewrite Z.shiftr_div_pow2 by lia.
  - apply (blocks_spec _ true _ _ _ block_alpha_spec); [apply apart_first | exact Hr].
  - apply (blocks_spec _ false _ _ _ block_opaque_spec); [intros; exact I | exact Hr].
Qed.

(** C30: The portable 4:2:0 conversions: null pointers and empty or odd sizes
    are refused with 1 and nothing is read or written; otherwise, on an image
    whose planes and destination are mapped and apart, the function returns 0
    without a fault - every table index is inside its table - and every pixel
    is the table colour of its samples, nothing else changed. *)
Theorem c_conversion_exact alpha i m :
  (bad_arguments i = true -> c_convert alpha i m = Some (1, m)) /\
  (bad_arguments i = false -> image_ok alpha i m ->
   exists m', c_convert alpha i m = Some (0, m') /\ converted (c_pixel alpha) i m m').
Proof.
  split; [|exact (c_converts alpha i m)]. intros H. destruct alpha; cbv [c_convert C_YCbCr420p_to_BGRA32 C_YCbCr420p_to_BGRA32_no_alpha generic_420p]; rewrite H; reflexivity.
Qed.

Lemma c_conversion_exact_witness :
  c_convert true (mkImage 256 32 5 2 320 344 336 352 8 4 4 8) demo_mem = Some (1, demo_mem) /\
  exists m', c_convert true demo_image demo_mem = Some (0, m') /\ converted c_bgra_pixel demo_image demo_mem m'.
Proof.
  split; [apply (proj1 (c_conversion_exact true (mkImage 256 32 5 2 320 344 336 352 8 4 4 8) demo_mem)); reflexivity|].
  apply (proj2 (c_conversion_exact true demo_image demo_mem)); [reflexivity | apply demo_ok].
Defined.
