(* ===== verification/Color422.v ===== *)
(** * The 4:2:2 conversion

    [ColorConvert_YCbCr422p_to_BGRA32_no_alpha], the one 4:2:2 function that
    is implemented: what it refuses, what it reads and what it leaves in the
    destination. *)

From S2P Require Import Prelude Sse2 ColorFrame ColorTables ColorRows ColorGeneric.
Local Open Scope Z_scope.
Local Open Scope mem_scope.

(** ** One row *)

(** The cells the [n] blocks of a row read. *)
Fixpoint cells422 (n : nat) (say1 sau sav : Z) : list Z :=
  match n with
  | O => []
  | S n => [say1; say1 + 2; sau; sav] ++ cells422 n (say1 + 4) (sau + 4) (sav + 4)
  end.
(** The bytes they write, with samples from [m0]. *)
Fixpoint bytes422 (m0 : mem) (n : nat) (say1 sau sav : Z) : list Z :=
  match n with
  | O => []
  | S n =>
      c_bgrx_pixel (byte_at m0 say1) (byte_at m0 sau) (byte_at m0 sav) 0
      ++ c_bgrx_pixel (byte_at m0 (say1 + 2)) (byte_at m0 sau) (byte_at m0 sav) 0
      ++ bytes422 m0 n (say1 + 4) (sau + 4) (sav + 4)
  end.

Lemma bytes422_length m0 n : forall say1 sau sav, length (bytes422 m0 n say1 sau sav) = (8 * n)%nat.
Proof. induction n as [|n IH]; intros; [reflexivity|]. cbn [bytes422]. rewrite !length_app, IH. cbn. lia. Qed.

(** A cell that still holds the byte it held in [m0]. *)
Definition kept (m0 m : mem) (x : Z) : Prop := is_Some (m0 !! x) /\ m !! x = m0 !! x.

Lemma kept_byte m0 m x : kept m0 m x -> m !! x = Some (byte_at m0 x).
Proof. intros [[b E] E']. unfold byte_at. rewrite E', E. reflexivity. Qed.

Lemma scatter422 p a0 a1 a2 a4 a5 a6 m :
  upd (p + 3) [255] (upd (p + 7) [255] (upd (p + 4) [a4] (upd (p + 5) [a5] (upd (p + 6) [a6]
    (upd (p + 0) [a0] (upd (p + 1) [a1] (upd (p + 2) [a2] m)))))))
  = upd p ([a0; a1; a2; 255] ++ [a4; a5; a6; 255]) m.
Proof.
  apply map_eq. intros x. lazy beta iota zeta delta [upd app].
  rewrite !lookup_insert. repeat (case_decide; [try (exfalso; lia) | try (exfalso; lia)]); reflexivity.
Qed.

Lemma block422_spec m0 say1 sau sav da1 m : byte_mem m0 -> kept m0 m say1 -> kept m0 m (say1 + 2) ->
  kept m0 m sau -> kept m0 m sav -> mapped 8 da1 m = true ->
  block422 say1 sau sav da1 m = Some (tt, upd da1 (bytes422 m0 1 say1 sau sav) m).
Proof.
  intros Hb K0 K1 Ku Kv W. 
  assert (B : forall x, kept m0 m x -> is_byte (byte_at m0 x))
    by (intros x [[b E] _]; unfold byte_at; rewrite E; exact (Hb _ _ E)).
  pose proof (B _ K0) as B0. pose proof (B _ K1) as B1. pose proof (B _ Ku) as Bu. pose proof (B _ Kv) as Bv.
  pose proof (sums_in_table _ _ _ B0 Bu Bv). pose proof (sums_in_table _ _ _ B1 Bu Bv).
  apply kept_byte in K0, K1, Ku, Kv. cbv delta [block422]; cbv beta.
  rewrite (run_at _ _ _ _ Ku), (run_at _ _ _ _ Kv), (run_at _ _ _ _ K0), (run_at _ _ _ _ K1).
  rewrite (run_table _ _ _ _ _ (proj1 Bv) (proj1 (color_tRV_spec _ Bv))). cbv zeta.
  rewrite (run_table _ _ _ _ _ (proj1 Bu) (proj1 (color_tGU_spec _ Bu))).
  rewrite (run_table _ _ _ _ _ (proj1 Bv) (proj1 (color_tGV_spec _ Bv))).
  rewrite (run_table _ _ _ _ _ (proj1 Bu) (proj1 (color_tBU_spec _ Bu))).
  rewrite (run_table _ _ _ _ _ (proj1 B0) (proj1 (color_tYY_spec _ B0))).
  rewrite (run_table _ _ _ _ _ (proj1 B1) (proj1 (color_tYY_spec _ B1))).
  do 6 (first [rewrite run_tclamp | rewrite run_sclamp]; [| lia | apply (cell_mapped 8 _ _ W); [lia | by_upd]]).
  rewrite run_poke by (apply (cell_mapped 8 _ _ W); [lia | by_upd]).
  unfold store. cbn [length]. rewrite (cell_mapped 8 _ _ W) by (lia || by_upd). rewrite scatter422. reflexivity.
Qed.

Lemma kept_upd m0 m x p bs : kept m0 m x -> x < p \/ p + Z.of_nat (length bs) <= x -> kept m0 (upd p bs m) x.
Proof. intros [H E] Hx. split; [exact H|]. rewrite upd_lookup_out by exact Hx. exact E. Qed.

Lemma blocks422_spec m0 n : byte_mem m0 -> forall say1 sau sav da1 m,
  (forall x, In x (cells422 n say1 sau sav) -> kept m0 m x /\ (x < da1 \/ da1 + 8 * Z.of_nat n <= x)) ->
  mapped (8 * n) da1 m = true ->
  blocks422 n say1 sau sav da1 m = Some (tt, upd da1 (bytes422 m0 n say1 sau sav) m).
Proof.
  intros Hb. induction n as [|n IH]; intros say1 sau sav da1 m HC W; [reflexivity|]. cbn [blocks422]. unfold mm_bind.
  rewrite (block422_spec m0); [| exact Hb | apply HC; cbn; tauto | apply HC; cbn; tauto | apply HC; cbn; tauto
    | apply HC; cbn; tauto | eapply mapped_sub; [| |exact W]; lia].
  rewrite IH.
  - change (bytes422 m0 (S n) say1 sau sav) with (bytes422 m0 1 say1 sau sav ++ bytes422 m0 n (say1 + 4) (sau + 4) (sav + 4)).
    rewrite upd_app. reflexivity.
  - intros x Hx. destruct (HC x) as [HK Hd]; [cbn; tauto|]. split; [|lia]. apply kept_upd; [exact HK | cbn; lia].
  - apply mapped_upd. eapply mapped_sub; [| |exact W]; lia.
Qed.

(** ** Images *)

Definition cols422 (i : image422) : nat := Z.to_nat (j_width i / 2).
Definition dst_row422 (i : image422) (r : Z) : Z := j_dst i + r * j_dst_stride i.
Definition row_cells (i : image422) (r : Z) : list Z :=
  cells422 (cols422 i) (j_y i + r * j_y_stride i) (j_u i + r * j_uv_stride i) (j_v i + r * j_uv_stride i).
Definition row_bytes422 (m0 : mem) (i : image422) (r : Z) : list Z :=
  bytes422 m0 (cols422 i) (j_y i + r * j_y_stride i) (j_u i + r * j_uv_stride i) (j_v i + r * j_uv_stride i).

Record image422_ok (i : image422) (m : mem) : Prop := {
  ok422_bytes : byte_mem m;
  ok422_cells r x : 0 <= r < j_height i -> In x (row_cells i r) -> is_Some (m !! x) /\
    forall r', 0 <= r' < j_height i -> x < dst_row422 i r' \/ dst_row422 i r' + 8 * Z.of_nat (cols422 i) <= x;
  ok422_dst r : 0 <= r < j_height i -> mapped (8 * cols422 i) (dst_row422 i r) m = true;
  ok422_stride : 8 * Z.of_nat (cols422 i) <= j_dst_stride i }.

Definition bad_arguments422 (i : image422) : bool :=
  (j_dst i =? 0) || (j_y i =? 0) || (j_u i =? 0) || (j_v i =? 0)
  || (j_width i <=? 0) || (j_height i <=? 0) || negb (Z.land (j_width i) 1 =? 0).

(** The pixel in row [r] and column [c]. *)
Definition pixel422 (i : image422) (m : mem) (r c : Z) : list Z :=
  c_bgrx_pixel (byte_at m (j_y i + r * j_y_stride i + 2 * c)) (byte_at m (j_u i + r * j_uv_stride i + 4 * (c / 2)))
    (byte_at m (j_v i + r * j_uv_stride i + 4 * (c / 2))) 0.
Definition converted422 (i : image422) (m m' : mem) : Prop :=
  (forall r c (k : nat), 0 <= r < j_height i -> 0 <= c < j_width i -> (k < 4)%nat ->
     m' !! (dst_row422 i r + 4 * c + Z.of_nat k) = pixel422 i m r c !! k) /\
  (forall x, (forall r, 0 <= r < j_height i -> x < dst_row422 i r \/ dst_row422 i r + 4 * j_width i <= x) ->
     m' !! x = m !! x).

Fixpoint paint422 (m0 : mem) (i : image422) (n : nat) (r : Z) (m : mem) : mem :=
  match n with
  | O => m
  | S n => paint422 m0 i n (r + 1) (upd (dst_row422 i r) (row_bytes422 m0 i r) m)
  end.

Section Image422.
Context (i : image422) (m0 : mem) (OK : image422_ok i m0).

Definition painting422 (m : mem) : Prop :=
  (forall r x, 0 <= r < j_height i -> In x (row_cells i r) -> kept m0 m x) /\
  (forall r, 0 <= r < j_height i -> mapped (8 * cols422 i) (dst_row422 i r) m = true).

Lemma painting422_step m r : painting422 m -> 0 <= r < j_height i ->
  painting422 (upd (dst_row422 i r) (row_bytes422 m0 i r) m).
Proof using OK.
  intros [HK HD] Hr. split.
  - intros r' x Hr' Hx. apply kept_upd; [exact (HK r' x Hr' Hx)|]. unfold row_bytes422. rewrite bytes422_length.
    pose proof (proj2 (ok422_cells _ _ OK r' x Hr' Hx) r Hr). lia.
  - intros r' Hr'. apply mapped_upd, HD, Hr'.
Qed.

Lemma rows422_spec n : forall r m, painting422 m -> 0 <= r -> r + Z.of_nat n = j_height i ->
  rows422 i n (j_y i + r * j_y_stride i) (j_u i + r * j_uv_stride i) (j_v i + r * j_uv_stride i) (dst_row422 i r) m
  = Some (tt, paint422 m0 i n r m).
Proof using OK.
  induction n as [|n IH]; intros r m Hp Hr Hn; [reflexivity|]. cbn [rows422 paint422]. unfold mm_bind.
  rewrite Z.shiftr_div_pow2 by lia. change (j_width i / 2 ^ 1) with (j_width i / 2).
  rewrite (blocks422_spec m0); [| apply OK | | apply (proj2 Hp); lia].
  - rewrite <- (IH (r + 1)) by (try apply painting422_step; try exact Hp; lia). unfold dst_row422.
    rewrite !Z.mul_add_distr_r, !Z.mul_1_l, !Z.add_assoc. reflexivity.
  - intros x Hx. split; [apply (proj1 Hp r); [lia | exact Hx]|].
    pose proof (proj2 (ok422_cells _ _ OK r x ltac:(lia) Hx) r ltac:(lia)). unfold cols422 in *. lia.
Qed.

Lemma paint422_out n x : forall r m,
  (forall r', r <= r' < r + Z.of_nat n -> x < dst_row422 i r' \/ dst_row422 i r' + 8 * Z.of_nat (cols422 i) <= x) ->
  paint422 m0 i n r m !! x = m !! x.
Proof.
  induction n as [|n IH]; intros r m Hx; [reflexivity|]. cbn [paint422].
  rewrite IH by (intros r' Hr'; apply Hx; lia). apply upd_lookup_out. unfold row_bytes422. rewrite bytes422_length.
  pose proof (Hx r ltac:(lia)). lia.
Qed.

Lemma paint422_in n r (x : nat) : (x < 8 * cols422 i)%nat -> forall r0 m, r0 <= r < r0 + Z.of_nat n ->
  paint422 m0 i n r0 m !! (dst_row422 i r + Z.of_nat x) = row_bytes422 m0 i r !! x.
Proof using OK.
  intros Hx. pose proof (ok422_stride _ _ OK) as Hst. induction n as [|n IH]; intros r0 m Hr; [lia|]. cbn [paint422].
  destruct (Z.eq_dec r r0) as [->|N]; [|apply IH; lia].
  rewrite paint422_out by (intros r' Hr'; left; unfold dst_row422; nia).
  destruct (lookup_lt_is_Some_2 (row_bytes422 m0 i r0) x) as [b E]; [unfold row_bytes422; rewrite bytes422_length; exact Hx|].
  rewrite E. apply upd_lookup_in, E.
Qed.
End Image422.

Lemma bytes422_lookup m0 (k : nat) : (k < 4)%nat -> forall n (c : nat) y u v, (c < 2 * n)%nat ->
  bytes422 m0 n y u v !! (4 * c + k)%nat
  = c_bgrx_pixel (byte_at m0 (y + 2 * Z.of_nat c)) (byte_at m0 (u + 4 * Z.of_nat (c / 2))) (byte_at m0 (v + 4 * Z.of_nat (c / 2))) 0 !! k.
Proof.
  intros Hk. induction n as [|n IH]; intros c y u v Hc; [lia|]. cbn [bytes422]. destruct c as [|[|c]].
  - rewrite lookup_app_l by (cbn; lia). cbn [Z.of_nat Nat.div]. rewrite !Z.mul_0_r, !Z.add_0_r. reflexivity.
  - rewrite lookup_app_r by (cbn; lia). rewrite lookup_app_l by (cbn; lia).
    change (Z.of_nat (1 / 2)) with 0. rewrite !Z.mul_0_r, !Z.add_0_r. f_equal. cbn [length c_bgrx_pixel]. lia.
  - rewrite !lookup_app_r by (cbn; lia).
    replace (4 * S (S c) + k - _ - _)%nat with (4 * c + k)%nat by (cbn; lia). rewrite IH by lia.
    replace (S (S c) / 2)%nat with (S (c / 2)) by (symmetry; exact (Nat.div_add_l 1 2 c ltac:(lia))).
    replace (y + 2 * Z.of_nat (S (S c))) with (y + 4 + 2 * Z.of_nat c) by lia.
    replace (u + 4 * Z.of_nat (S (c / 2))) with (u + 4 + 4 * Z.of_nat (c / 2)) by lia.
    replace (v + 4 * Z.of_nat (S (c / 2))) with (v + 4 + 4 * Z.of_nat (c / 2)) by lia. reflexivity.
Qed.

(** The 4:2:2 conversion refuses null pointers, empty images and odd
    widths with 1 and touches nothing; otherwise it returns 0 without a fault,
    and every pixel is the table colour of its own luma sample and of the
    chroma samples it shares with its neighbour, nothing else changed. *)
Theorem convert422_exact i m :
  (bad_arguments422 i = true -> ColorConvert_YCbCr422p_to_BGRA32_no_alpha i m = Some (1, m)) /\
  (bad_arguments422 i = false -> image422_ok i m ->
   exists m', ColorConvert_YCbCr422p_to_BGRA32_no_alpha i m = Some (0, m') /\ converted422 i m m').
Proof.
  unfold bad_arguments422, ColorConvert_YCbCr422p_to_BGRA32_no_alpha.
  destruct (_ || (j_v i =? 0)) eqn:E1; cbn [orb]; [split; [reflexivity | discriminate]|].
  destruct (j_width i <=? 0) eqn:E2; cbn [orb]; [split; [reflexivity | discriminate]|].
  destruct (j_height i <=? 0) eqn:E3; cbn [orb]; [split; [reflexivity | discriminate]|].
  destruct (negb _) eqn:E4; [split; [reflexivity | discriminate]|]. split; [discriminate|]. intros _ OK. bools.
  assert (Ew : j_width i = 2 * Z.of_nat (cols422 i)).
  { unfold cols422. change 1 with (Z.ones 1) in *. rewrite Z.land_ones in * by lia. change (2 ^ 1) with 2 in *. divlia. }
  exists (paint422 m i (Z.to_nat (j_height i)) 0 m). split.
  - unfold mm_bind. pose proof (rows422_spec i m OK (Z.to_nat (j_height i)) 0 m) as R.
    rewrite !Z.mul_0_l, !Z.add_0_r in R. unfold dst_row422 in R. rewrite Z.mul_0_l, Z.add_0_r in R. rewrite R; [reflexivity | | lia | lia].
    split; [intros r x Hr Hx; split; [apply (ok422_cells _ _ OK r x Hr Hx) | reflexivity] | apply OK].
  - split.
    + intros r c k Hr Hc Hk. replace (dst_row422 i r + 4 * c + Z.of_nat k) with (dst_row422 i r + Z.of_nat (4 * Z.to_nat c + k)) by lia.
      rewrite (paint422_in i m OK) by lia. unfold row_bytes422. rewrite bytes422_lookup by lia.
      rewrite Nat2Z.inj_div, Z2Nat.id by lia. reflexivity.
    + intros x Hx. apply paint422_out. intros r Hr. pose proof (Hx r ltac:(lia)). lia.
Qed.

(** A 4 by 2 image of interleaved samples at 320. *)
Definition demo_422 : image422 := mkImage422 256 32 4 2 321 322 320 16 16.

Lemma demo_422_ok : image422_ok demo_422 demo_mem.
Proof.
  assert (C : forallb (fun r => forallb (fun x => (312 <=? x) && match demo_mem !! x with Some _ => true | None => false end)
    (row_cells demo_422 r)) [0; 1] = true) by (vm_compute; reflexivity).
  rewrite forallb_forall in C. split.
  - apply (demo_ok false).
  - intros r x Hr Hx. change (j_height demo_422) with 2 in *. specialize (C r ltac:(cbn; lia)).
    rewrite forallb_forall in C. specialize (C x Hx). destruct (demo_mem !! x); bools; [|discriminate]. split; [eauto|].
    intros r' Hr'. right. unfold dst_row422. cbn [j_dst j_dst_stride demo_422]. change (cols422 demo_422) with 2%nat. lia.
  - intros r Hr. change (j_height demo_422) with 2 in Hr. assert (r = 0 \/ r = 1) as [->| ->] by lia; vm_compute; reflexivity.
  - vm_compute. discriminate.
Qed.

Lemma convert422_exact_witness :
  exists m', ColorConvert_YCbCr422p_to_BGRA32_no_alpha demo_422 demo_mem = Some (0, m') /\ converted422 demo_422 demo_mem m'.
Proof. apply (proj2 (convert422_exact demo_422 demo_mem)); [reflexivity | exact demo_422_ok]. Defined.
