(* ===== verification/ColorAgree.v ===== *)
(** * The SSE2 and the portable conversion agree

    The two implementations of the BGRA conversion are compiled on different
    platforms and computed with different arithmetic: sixteen-bit products on
    one side, rounded tables on the other.  Without alpha they agree to one
    level per colour.  With alpha they do not: only the SSE2 function
    multiplies the colours by it. *)

From S2P Require Import Prelude Sse2 ColorFrame ColorTables ColorRows ColorSimd ColorPixel ColorSteps ColorImage ColorGeneric.
Local Open Scope Z_scope.
Local Open Scope mem_scope.

(** ** Colours *)

Lemma sat_close a b : Z.abs (a - b) <= 1 -> Z.abs (sat_u8 a - sat_u8 b) <= 1.
Proof. unfold sat_u8. intros. repeat split_if; bools; lia. Qed.

Lemma blue_close y u : is_byte y -> is_byte u -> Z.abs (blue y u - c_blue y u) <= 1.
Proof.
  intros Hy Hu. unfold blue, c_blue, half. apply sat_close.
  destruct (color_tYY_spec y Hy) as [_ ->], (color_tBU_spec u Hu) as [_ ->].
  unfold is_byte, luma, rounded, BBi in *. divlia.
Qed.

Lemma green_close y u v : is_byte y -> is_byte u -> is_byte v -> Z.abs (green y u v - c_green y u v) <= 1.
Proof.
  intros Hy Hu Hv. unfold green, c_green, half. apply sat_close.
  destruct (color_tYY_spec y Hy) as [_ ->], (color_tGU_spec u Hu) as [_ ->], (color_tGV_spec v Hv) as [_ ->].
  unfold is_byte, luma, rounded in *. divlia.
Qed.

Lemma red_close y v : is_byte y -> is_byte v -> Z.abs (red y v - c_red y v) <= 1.
Proof.
  intros Hy Hv. unfold red, c_red, half. apply sat_close.
  destruct (color_tYY_spec y Hy) as [_ ->], (color_tRV_spec v Hv) as [_ ->].
  unfold is_byte, luma, rounded, RRi in *. divlia.
Qed.

(** ** Images *)

(** Two cells that hold bytes at most one apart, or are both unmapped. *)
Definition close (b b' : option Z) : Prop :=
  match b, b' with
  | Some x, Some y => Z.abs (x - y) <= 1
  | None, None => True
  | _, _ => False
  end.

Lemma close_refl b : close b b.
Proof. destruct b; cbn; [lia | exact I]. Qed.

Lemma bgrx_close y u v a (k : nat) : is_byte y -> is_byte u -> is_byte v -> (k < 4)%nat ->
  close (bgrx_pixel y u v a !! k) (c_bgrx_pixel y u v a !! k).
Proof.
  intros Hy Hu Hv Hk. destruct k as [|[|[|[|k]]]]; cbn [bgrx_pixel c_bgrx_pixel lookup close];
    [apply blue_close; assumption | apply green_close; assumption | apply red_close; assumption | cbn; lia | lia].
Qed.

(** The samples of a pixel are bytes. *)
Lemma byte_at_byte m p : byte_mem m -> is_byte (byte_at m p).
Proof. intros Hb. unfold byte_at. destruct (m !! p) as [b|] eqn:E; cbn; [exact (Hb _ _ E) | unfold is_byte; lia]. Qed.

(** Every address is outside the destination or belongs to a pixel. *)
Lemma address_cases i x : 8 * Z.of_nat (half_cols i) <= i_dst_stride i ->
  (forall r, 0 <= r < 2 * half_rows i -> x < dst_row i r \/ dst_row i r + 8 * Z.of_nat (half_cols i) <= x) \/
  exists r c (k : nat), 0 <= r < 2 * half_rows i /\ 0 <= c < 2 * Z.of_nat (half_cols i) /\ (k < 4)%nat /\
    x = dst_row i r + 4 * c + Z.of_nat k.
Proof.
  intros Hs. destruct (half_cols i) as [|h] eqn:Eh; [left; lia|]. rewrite <- Eh in *. assert (Hc : 0 < Z.of_nat (half_cols i)) by lia.
  clear h Eh. set (d := i_dst_stride i) in *. set (n := Z.of_nat (half_cols i)) in *.
  pose (r := (x - i_dst i) / d). pose (o := (x - i_dst i) mod d).
  assert (E : x = i_dst i + r * d + o) by (unfold r, o; pose proof (Z.div_mod (x - i_dst i) d); lia).
  assert (Ho : 0 <= o < d) by (apply Z.mod_pos_bound; lia). clearbody r o.
  destruct (decide (0 <= r < 2 * half_rows i /\ o < 8 * n)) as [[Hr Hn]|N]; [right | left].
  - exists r, (o / 4), (Z.to_nat (o mod 4)). unfold dst_row. fold d. split; [exact Hr|]. split; [divlia|]. split; divlia.
  - intros r' Hr'. unfold dst_row. fold d. destruct (Z.lt_trichotomy r r') as [L|[->|L]]; [left; nia | right; lia | right; nia].
Qed.

(** C29: On every image that both accept, the SSE2 and the portable BGRA
    conversion without alpha both succeed and leave the same memory up to one
    level per colour byte: no byte differs by more than one, and outside the
    pixels neither changes anything. *)
Theorem bgrx_implementations_agree i m :
  image_ok false i m -> bad_arguments i = false -> aligned (i_dst i) = true -> aligned (i_dst_stride i) = true ->
  exists m1 m2, ColorConvert_YCbCr420p_to_BGRA32_no_alpha i m = Some (0, m1) /\
    C_YCbCr420p_to_BGRA32_no_alpha i m = Some (0, m2) /\ forall x, close (m1 !! x) (m2 !! x).
Proof.
  intros OK HB A1 A2. destruct (sse2_converts FORMAT_BGRX i m OK A1 A2) as (m1 & E1 & P1 & O1).
  destruct (c_converts false i m HB OK) as (m2 & E2 & P2 & O2). exists m1, m2. split; [exact E1 | split; [exact E2|]].
  intros x. destruct (address_cases i x (ok_dst_stride _ _ _ OK)) as [Hx|(r & c & k & Hr & Hc & Hk & ->)].
  - rewrite (O1 x Hx), (O2 x Hx). apply close_refl.
  - rewrite P1, P2 by assumption. apply bgrx_close; [apply byte_at_byte, OK .. | exact Hk].
Qed.

Lemma bgrx_implementations_agree_witness :
  exists m1 m2, ColorConvert_YCbCr420p_to_BGRA32_no_alpha demo_image demo_mem = Some (0, m1) /\
    C_YCbCr420p_to_BGRA32_no_alpha demo_image demo_mem = Some (0, m2) /\ forall x, close (m1 !! x) (m2 !! x).
Proof. apply (bgrx_implementations_agree demo_image demo_mem (demo_ok false)); reflexivity. Defined.

(** ** Alpha *)

Lemma premultiplied_le c a : is_byte c -> is_byte a -> premultiplied c a <= a.
Proof. unfold is_byte, premultiplied. intros. apply Z.lt_succ_r, Z.div_lt_upper_bound; nia. Qed.

Lemma read_4 p m l : length l = 4%nat -> (forall k, (k < 4)%nat -> m !! (p + Z.of_nat k) = l !! k) -> read 4 p m = Some l.
Proof.
  intros L H. destruct (mapped_read 4 p m) as [bs E].
  { apply mapped_spec. intros i Hi. specialize (H (Z.to_nat i) ltac:(lia)). rewrite Z2Nat.id in H by lia. rewrite H.
    apply lookup_lt_is_Some. lia. }
  rewrite E. f_equal. pose proof (read_length _ _ _ _ E) as Lb. apply list_eq. intros k.
  destruct (Nat.lt_ge_cases k 4) as [Hk|Hk]; [|rewrite !lookup_ge_None_2 by lia; reflexivity].
  rewrite (read_lookup _ _ _ _ k E Hk). apply H, Hk.
Qed.

(** The four bytes of the pixel in row [r] and column [c]. *)
Definition pixel_bytes_at (i : image) (m : mem) (r c : Z) : option (list Z) := read 4 (dst_row i r + 4 * c) m.

(** The frame type made by the BGRA conversion is premultiplied.  The
    SSE2 function makes it so: in every converted pixel no colour exceeds the
    alpha.  The portable function copies the alpha beside the plain colours: it
    stores the colours of the opaque pixel whatever the alpha is. *)
Theorem only_sse2_premultiplies i m :
  image_ok true i m -> bad_arguments i = false -> aligned (i_dst i) = true -> aligned (i_dst_stride i) = true ->
  exists m1 m2, ColorConvert_YCbCr420p_to_BGRA32 i m = Some (0, m1) /\ C_YCbCr420p_to_BGRA32 i m = Some (0, m2) /\
    forall r c, 0 <= r < 2 * half_rows i -> 0 <= c < 2 * Z.of_nat (half_cols i) ->
      (exists b g rd a, pixel_bytes_at i m1 r c = Some [b; g; rd; a] /\ b <= a /\ g <= a /\ rd <= a) /\
      exists b g rd a, pixel_bytes_at i m2 r c = Some [b; g; rd; a] /\
        pixel_at c_bgrx_pixel i m r c = [b; g; rd; 255].
Proof.
  intros OK HB A1 A2. destruct (sse2_converts FORMAT_BGRA i m OK A1 A2) as (m1 & E1 & P1 & _).
  destruct (c_converts true i m HB OK) as (m2 & E2 & P2 & _). exists m1, m2. split; [exact E1 | split; [exact E2|]].
  intros r c Hr Hc. pose proof (ok_bytes _ _ _ OK) as Hb.
  assert (R : forall px m', (forall k, (k < 4)%nat -> m' !! (dst_row i r + 4 * c + Z.of_nat k) = pixel_at px i m r c !! k) ->
    forall b0 b1 b2 b3, pixel_at px i m r c = [b0; b1; b2; b3] -> pixel_bytes_at i m' r c = Some [b0; b1; b2; b3]).
  { intros px m' P b0 b1 b2 b3 E. apply read_4; [reflexivity|]. intros k Hk. rewrite P, E by exact Hk. reflexivity. }
  split.
  - do 4 eexists. split; [apply (R _ m1 (fun k Hk => P1 r c k Hr Hc Hk)); reflexivity|].
    split_and!; apply premultiplied_le; try apply sat_u8_byte; apply byte_at_byte, Hb.
  - do 4 eexists. split; [apply (R _ m2 (fun k Hk => P2 r c k Hr Hc Hk)); reflexivity|]. reflexivity.
Qed.

Lemma only_sse2_premultiplies_witness :
  exists m1 m2, ColorConvert_YCbCr420p_to_BGRA32 demo_image demo_mem = Some (0, m1) /\
    C_YCbCr420p_to_BGRA32 demo_image demo_mem = Some (0, m2) /\
    exists b g rd a, pixel_bytes_at demo_image m2 0 0 = Some [b; g; rd; a] /\
      pixel_at c_bgrx_pixel demo_image demo_mem 0 0 = [b; g; rd; 255].
Proof.
  destruct (only_sse2_premultiplies demo_image demo_mem (demo_ok true) ltac:(reflexivity) ltac:(reflexivity) ltac:(reflexivity))
    as (m1 & m2 & E1 & E2 & H). exists m1, m2. split; [exact E1 | split; [exact E2|]].
  apply (H 0 0); (split; [lia | vm_compute; reflexivity]).
Defined.
