(* ===== verification/ColorFlow.v ===== *)
(** * From a decoded frame to its RGB image

    The composition of the frame layout ([VideoFrame.v]), the conversion of
    the frame ([FrameConvert.v]) and the colour routines ([ColorImage.v]): the
    addresses, strides and sizes that [ConvertFromYCbCr420p] hands to a routine
    are ones the routine converts without leaving the frame's buffer. *)

From S2P Require Import Prelude CFloat MediaTypes GstApi VideoFrame FrameConvert FrameLayout Sse2 ColorFrame ColorRows ColorSimd ColorPixel ColorSteps ColorImage.
Local Open Scope Z_scope.
Local Open Scope mem_scope.

(** ** Running a conversion job *)

(** The arguments of the call; the routines take [int32_t] sizes and strides. *)
Definition image_of (dst : Z) (j : ConvertJob) : image :=
  let plane k := nth k (cj_planes j) 0 in
  let stride k := s32 (nth k (cj_strides j) 0) in
  mkImage dst (s32 (cj_dest_stride j)) (s32 (cj_width j)) (s32 (cj_height j))
    (plane 0%nat) (plane 1%nat) (plane 2%nat) (plane 3%nat) (stride 0%nat) (stride 1%nat) (stride 2%nat) (stride 3%nat).

(** The routine a job names. *)
Definition job_format (type : FrameType) (f : CVideoFrame) : rgb_format :=
  match type with
  | ARGB => if gst_bHasAlpha f then FORMAT_ARGB else FORMAT_XRGB
  | _ => if gst_bHasAlpha f then FORMAT_BGRA else FORMAT_BGRX
  end.
Definition routine (name : string) : image -> MM Z :=
  if (name =? "YCbCr420p_to_ARGB32")%string then ColorConvert_YCbCr420p_to_ARGB32
  else if (name =? "YCbCr420p_to_ARGB32_no_alpha")%string then ColorConvert_YCbCr420p_to_ARGB32_no_alpha
  else if (name =? "YCbCr420p_to_BGRA32")%string then ColorConvert_YCbCr420p_to_BGRA32
  else if (name =? "YCbCr420p_to_BGRA32_no_alpha")%string then ColorConvert_YCbCr420p_to_BGRA32_no_alpha
  else fun _ => mm_fault.
Definition run_job (dst : Z) (j : ConvertJob) : MM Z := routine (cj_function j) (image_of dst j).

Lemma run_job_420p type dst stride f :
  run_job dst (job_420p type stride f) = sse2_convert (job_format type f) (image_of dst (job_420p type stride f)).
Proof. unfold run_job, job_420p, chroma_index, job_format. destruct (m_bIsI420 f), (gst_bHasAlpha f), type; reflexivity. Qed.

Lemma job_format_alpha type f : has_alpha (job_format type f) = gst_bHasAlpha f.
Proof. unfold job_format. destruct type, (gst_bHasAlpha f); reflexivity. Qed.

(** ** Planes of a 4:2:0 frame *)

(** Each row of each plane is as long as the image needs. *)
Definition strides_cover (f : CVideoFrame) : bool :=
  let stride k := arr_get (m_puiPlaneStrides f) k in
  (m_uiEncodedWidth f <=? stride 0%nat) && (m_uiEncodedWidth f / 2 <=? stride 1%nat)
  && (m_uiEncodedWidth f / 2 <=? stride 2%nat) && (negb (gst_bHasAlpha f) || (m_uiEncodedWidth f <=? stride 3%nat))
  && forallb (fun k => stride k <? 1073741824) [0; 1; 2; 3]%nat.

(** ** Memory of a conversion *)

(** A range of bytes of memory. *)
Definition backed (p n : Z) (m : mem) : Prop := mapped (Z.to_nat n) p m = true.
Definition disjoint_ranges (p n q k : Z) : Prop := p + n <= q \/ q + k <= p.

Lemma backed_sub p n q k m : backed p n m -> 0 <= k -> p <= q -> q + k <= p + n -> backed q k m.
Proof. unfold backed. intros H Hk Hq Hn. eapply mapped_sub; [| |exact H]; lia. Qed.

(** What a job has to satisfy for its routine to convert it. *)
Section Job.
Context (i : image) (m : mem) (base size dsize : Z).
Hypothesis Hstride : 8 * Z.of_nat (half_cols i) <= i_dst_stride i.
Hypothesis Hdsize : i_dst_stride i * (2 * half_rows i) <= dsize.
Hypothesis Hbuffer : backed base size m.
Hypothesis Hdest : backed (i_dst i) dsize m.
Hypothesis Hapart : disjoint_ranges base size (i_dst i) dsize.

Lemma dst_row_range r : 0 <= r < 2 * half_rows i ->
  i_dst i <= dst_row i r /\ dst_row i r + 8 * Z.of_nat (half_cols i) <= i_dst i + dsize.
Proof using Hstride Hdsize. intros Hr. unfold dst_row. nia. Qed.

Lemma plane_in_buffer p stride rows n (cols : nat) :
  base <= p -> p + stride * rows <= base + size -> Z.of_nat cols <= stride -> n <= rows ->
  plane_ok i m p stride n cols.
Proof using Hstride Hdsize Hbuffer Hapart.
  intros Hp He Hc Hn r Hr. assert (base <= p + r * stride /\ p + r * stride + Z.of_nat cols <= base + size) by nia.
  split.
  - eapply mapped_sub; [| |exact Hbuffer]; lia.
  - intros r' Hr'. pose proof (dst_row_range r' Hr'). unfold ranges_apart, disjoint_ranges in *. lia.
Qed.
End Job.

(** ** Frames *)

Section Frame.
Context (type : FrameType) (f : CVideoFrame) (dst stride dsize base size : Z) (m : mem).
Let i := image_of dst (job_420p type stride f).
Hypothesis Hf : typed f.
Hypothesis Hcount : m_uiPlaneCount f = if gst_bHasAlpha f then 4 else 3.
Hypothesis Hplanes : forall k, (k < Z.to_nat (m_uiPlaneCount f))%nat ->
  base <= arr_get (m_pvPlaneData f) k /\
  arr_get (m_pvPlaneData f) k
  + arr_get (m_puiPlaneStrides f) k * (if (Nat.eqb k 1 || Nat.eqb k 2)%bool then m_uiEncodedHeight f / 2 else m_uiEncodedHeight f)
    <= base + size.
Hypothesis Hcover : strides_cover f = true.
Hypothesis Hgeometry : rgb_geometry (m_uiEncodedWidth f) (m_uiEncodedHeight f) = Some (stride, dsize).
Hypothesis Hwidth : 0 < m_uiEncodedWidth f < 268435440.
Hypothesis Hbytes : byte_mem m.
Hypothesis Hbuffer : backed base size m.
Hypothesis Hdest : backed dst dsize m.
Hypothesis Hapart : disjoint_ranges base size dst dsize.

(** The size of the destination. *)
Lemma geometry_facts : stride = align16 (4 * m_uiEncodedWidth f) /\ dsize = stride * m_uiEncodedHeight f /\
  0 < m_uiEncodedHeight f < 2147483648 /\ 16 <= stride < 1073741824.
Proof using Hgeometry Hf Hwidth.
  pose proof (typed_sizes f Hf) as (_ & _ & Hw & Hh). pose proof Hgeometry as G.
  rewrite rgb_geometry_eq in G by assumption. destruct (_ && _) eqn:E; [|discriminate]. injection G as E1 E2.
  pose proof (align16_bounds (4 * m_uiEncodedWidth f)) as B.
  assert (H16 : 16 <= align16 (4 * m_uiEncodedWidth f)) by (rewrite align16_eq; divlia).
  rewrite !andb_true_iff in E. destruct E as [[E3%Z.ltb_lt E4%Z.leb_le] E5%Z.leb_le]. rewrite E1 in *.
  unfold UINT_MAX, two_p32 in *. assert (16 * m_uiEncodedHeight f <= stride * m_uiEncodedHeight f) by (apply Z.mul_le_mono_nonneg_r; lia).
  split_and!; [reflexivity | congruence | lia | lia | exact H16 | lia].
Qed.

(** Strides, bounded and covering. *)
Lemma cover_facts : let s k := arr_get (m_puiPlaneStrides f) k in
  m_uiEncodedWidth f <= s 0%nat /\ m_uiEncodedWidth f / 2 <= s 1%nat /\ m_uiEncodedWidth f / 2 <= s 2%nat /\
  (gst_bHasAlpha f = true -> m_uiEncodedWidth f <= s 3%nat) /\ (forall k, (k < 4)%nat -> 0 <= s k < 1073741824).
Proof using Hcover Hf.
  pose proof Hcover as C. unfold strides_cover in C. cbn [forallb] in C. rewrite !andb_true_iff in C. cbv zeta.
  destruct C as ((((C0%Z.leb_le & C1%Z.leb_le) & C2%Z.leb_le) & C3) & S0 & S1 & S2 & S3 & _). apply Z.ltb_lt in S0, S1, S2, S3.
  split_and!; try assumption.
  - intros E. rewrite E in C3. apply Z.leb_le, C3.
  - intros k Hk. split; [apply (typed_stride f k Hf)|]. destruct k as [|[|[|[|k]]]]; [assumption .. | lia].
Qed.

Lemma job_fields :
  i_dst i = dst /\ i_dst_stride i = stride /\ i_width i = m_uiEncodedWidth f /\ i_height i = m_uiEncodedHeight f /\
  i_y i = arr_get (m_pvPlaneData f) 0 /\ i_y_stride i = arr_get (m_puiPlaneStrides f) 0 /\
  (exists u v, (u = 1 \/ u = 2)%nat /\ (v = 1 \/ v = 2)%nat /\
    i_u i = arr_get (m_pvPlaneData f) u /\ i_u_stride i = arr_get (m_puiPlaneStrides f) u /\
    i_v i = arr_get (m_pvPlaneData f) v /\ i_v_stride i = arr_get (m_puiPlaneStrides f) v) /\
  (gst_bHasAlpha f = true -> i_a i = arr_get (m_pvPlaneData f) 3) /\
  i_a_stride i = if gst_bHasAlpha f then arr_get (m_puiPlaneStrides f) 3 else 0.
Proof using Hf Hcover Hgeometry Hwidth.
  clear Hcount Hplanes. destruct geometry_facts as (_ & _ & Hh & Hs). destruct cover_facts as (_ & _ & _ & _ & Cs).
  pose proof (Cs 0%nat ltac:(lia)). pose proof (Cs 1%nat ltac:(lia)). pose proof (Cs 2%nat ltac:(lia)). pose proof (Cs 3%nat ltac:(lia)).
  unfold i, image_of, job_420p, chroma_index. destruct (m_bIsI420 f), (gst_bHasAlpha f); cbn -[s32 arr_get];
    rewrite !s32_id by lia;
    (split_and!; [reflexivity .. | first [exists 1%nat, 2%nat; by split_and!; auto | exists 2%nat, 1%nat; by split_and!; auto]
      | intros E; first [reflexivity | discriminate E] | reflexivity]).
Qed.

Lemma job_image_ok : image_ok (gst_bHasAlpha f) i m.
Proof.
  destruct geometry_facts as (Es & Ed & Hh & Hs). destruct cover_facts as (C0 & C1 & C2 & C3 & Cs).
  destruct job_fields as (F1 & F2 & F3 & F4 & F5 & F6 & (u & v & Hu & Hv & F7 & F8 & F9 & F10) & F11 & F12).
  assert (Hc : Z.of_nat (half_cols i) = m_uiEncodedWidth f / 2) by (unfold half_cols; rewrite F3; divlia).
  assert (Hr : half_rows i = m_uiEncodedHeight f / 2) by (unfold half_rows; rewrite F4; reflexivity).
  pose proof (align16_bounds (4 * m_uiEncodedWidth f)) as B. rewrite <- Es in B.
  assert (S1 : 8 * Z.of_nat (half_cols i) <= i_dst_stride i) by (rewrite F2, Hc; divlia).
  assert (S2 : i_dst_stride i * (2 * half_rows i) <= dsize)
    by (rewrite F2, Hr, Ed; apply Z.mul_le_mono_nonneg_l; [lia | divlia]).
  pose proof (plane_in_buffer i m base size dsize S1 S2 Hbuffer ltac:(rewrite F1; exact Hapart)) as P.
  assert (Plane : forall k stride n cols, (k < Z.to_nat (m_uiPlaneCount f))%nat -> stride = arr_get (m_puiPlaneStrides f) k ->
    Z.of_nat cols <= stride ->
    n <= (if (Nat.eqb k 1 || Nat.eqb k 2)%bool then m_uiEncodedHeight f / 2 else m_uiEncodedHeight f) ->
    plane_ok i m (arr_get (m_pvPlaneData f) k) stride n cols).
  { intros k st n cols Hk -> Hcols Hn. destruct (Hplanes k Hk) as [P1 P2]. exact (P _ _ _ n cols P1 P2 Hcols Hn). }
  assert (H3 : 3 <= m_uiPlaneCount f) by (rewrite Hcount; destruct (gst_bHasAlpha f); lia).
  assert (Chroma : forall k, (k = 1 \/ k = 2)%nat ->
    plane_ok i m (arr_get (m_pvPlaneData f) k) (arr_get (m_puiPlaneStrides f) k) (half_rows i) (half_cols i)).
  { intros k Hk. apply Plane; [lia | reflexivity | destruct Hk as [E|E]; rewrite E; lia | destruct Hk as [E|E]; rewrite E; cbn; lia]. }
  split.
  - exact Hbytes.
  - rewrite F3. lia.
  - rewrite F4. lia.
  - unfold stride_ok. rewrite F6, F12, F2. pose proof (Cs 0%nat ltac:(lia)). pose proof (Cs 3%nat ltac:(lia)).
    destruct (gst_bHasAlpha f); lia.
  - rewrite F5, F6. apply Plane; [lia | reflexivity | divlia | cbn; rewrite Hr; divlia].
  - rewrite F7, F8. apply Chroma, Hu.
  - rewrite F9, F10. apply Chroma, Hv.
  - intros E. rewrite (F11 E), F12, E. rewrite E in Hcount. specialize (C3 E).
    apply Plane; [lia | reflexivity | divlia | cbn; rewrite Hr; divlia].
  - intros r Hrr. pose proof (dst_row_range i dsize S1 S2 r Hrr). rewrite F1 in *.
    eapply mapped_sub; [| |exact Hdest]; lia.
  - exact S1.
Qed.

(** Outside the destination nothing is a pixel. *)
Lemma job_outside x : x < dst \/ dst + dsize <= x ->
  forall r, 0 <= r < 2 * half_rows i -> x < dst_row i r \/ dst_row i r + 8 * Z.of_nat (half_cols i) <= x.
Proof.
  intros Hx r Hr. pose proof (ok_dst_stride _ _ _ job_image_ok) as S1.
  destruct geometry_facts as (Es & Ed & Hh & Hs).
  destruct job_fields as (F1 & F2 & _ & F4 & _).
  assert (S2 : i_dst_stride i * (2 * half_rows i) <= dsize)
    by (unfold half_rows; rewrite F2, F4, Ed; apply Z.mul_le_mono_nonneg_l; [lia | divlia]).
  pose proof (dst_row_range i dsize S1 S2 r Hr). rewrite F1 in *. lia.
Qed.
End Frame.

(** The planes of a valid frame, by index. *)
Lemma frame_planes p sample b f :
  Init p sample new_CGstVideoFrame = (true, f) -> sample_buffer sample = Some b -> 0 <= gb_size b -> IsValid f = true ->
  m_typeFrame f = YCbCr_420p -> (m_uiPlaneCount f = if gst_bHasAlpha f then 4 else 3) ->
  forall k, (k < Z.to_nat (m_uiPlaneCount f))%nat ->
  gb_data b <= arr_get (m_pvPlaneData f) k /\
  arr_get (m_pvPlaneData f) k
  + arr_get (m_puiPlaneStrides f) k * (if (Nat.eqb k 1 || Nat.eqb k 2)%bool then m_uiEncodedHeight f / 2 else m_uiEncodedHeight f)
    <= gb_data b + gb_size b.
Proof.
  intros Hi Hb Hs Hv Ht Hc k Hk. pose proof (Init_plane_bounds p sample b f Hi Hb Hs Hv k Hk) as (B1 & B2 & B3).
  rewrite B3 in B2. unfold GetDataForPlane, GetStrideForPlane, MAX_PLANE_COUNT, plane_rows in *. rewrite Ht in *.
  rewrite (proj2 (Z.ltb_lt (Z.of_nat k) 4)), Nat2Z.id in * by (destruct (gst_bHasAlpha f); lia).
  rewrite bool_decide_eq_true_2 in B2 by reflexivity. split; assumption.
Qed.

(** C28: Memory safety of a conversion, from the sample to the image.  Take a
    valid 4:2:0 frame that [Init] made of a mapped sample, whose strides cover
    its encoded width, which is below 268435440, and the destination geometry
    computed for it; let the buffer and a sixteen-byte aligned destination of
    that size be in memory, apart from each other.  Then the routine the
    conversion calls succeeds: it reads only the frame's buffer, writes only the
    destination, and leaves in it the colour, computed from the frame's planes,
    of every pixel of the even part of the image, that is of its width and its
    height rounded down to even numbers; every other byte, those of an odd last
    column or row among them, keeps its value. *)
Theorem frame_conversion_safe p sample b f type dst stride dsize m
    (Hinit : Init p sample new_CGstVideoFrame = (true, f)) (Hb : sample_buffer sample = Some b)
    (Hsize : 0 <= gb_size b) (Hvalid : IsValid f = true) (Htype : m_typeFrame f = YCbCr_420p)
    (Hcover : strides_cover f = true) (Hwidth : 0 < m_uiEncodedWidth f < 268435440)
    (Hgeometry : rgb_geometry (m_uiEncodedWidth f) (m_uiEncodedHeight f) = Some (stride, dsize))
    (Hbytes : byte_mem m) (Hbuffer : backed (gb_data b) (gb_size b) m) (Hdest : backed dst dsize m)
    (Hapart : disjoint_ranges (gb_data b) (gb_size b) dst dsize) (Haligned : aligned dst = true) :
  let j := job_420p type stride f in
  exists m', run_job dst j m = Some (0, m') /\
    (forall x, x < dst \/ dst + dsize <= x -> m' !! x = m !! x) /\
    ColorRows.converted (pixel_of (job_format type f)) (image_of dst j) m m'.
Proof.
  assert (Ht : typed f) by (pose proof (typed_Init p sample _ typed_new) as T; rewrite Hinit in T; exact T).
  pose proof (Init_420p_planes p sample b f Hinit Hb Hvalid Htype) as Hcount.
  assert (Hplanes := frame_planes p sample b f Hinit Hb Hsize Hvalid Htype Hcount).
  assert (OK := job_image_ok type f dst stride dsize _ _ m Ht Hcount Hplanes Hcover Hgeometry Hwidth Hbytes Hbuffer Hdest Hapart).
  assert (Out := job_outside type f dst stride dsize _ _ m Ht Hcount Hplanes Hcover Hgeometry Hwidth Hbytes Hbuffer Hdest Hapart).
  destruct (job_fields type f dst stride dsize Ht Hcover Hgeometry Hwidth) as (F1 & F2 & _).
  destruct (geometry_facts f stride dsize Ht Hgeometry Hwidth) as (Es & _).
  intros j. subst j. rewrite run_job_420p, <- (job_format_alpha type f) in *.
  destruct (sse2_converts _ _ m OK) as (m' & E & C).
  - rewrite F1. exact Haligned.
  - rewrite F2, Es, align16_eq. unfold aligned. rewrite Z.mod_mul by lia. reflexivity.
  - exists m'. split; [exact E | split; [|exact C]]. intros x Hx. apply C, Out, Hx.
Qed.

(** The frame of 4 by 2 in memory, and room for its image. *)
Definition frame_mem : mem :=
  list_to_map (map (fun n => (4096 + Z.of_nat n, Z.of_nat n * 19 mod 256)) (seq 0 12)
               ++ map (fun n => (8192 + Z.of_nat n, 0)) (seq 0 32)).

Lemma frame_conversion_safe_witness :
  let j := job_420p BGRA_PRE 16 frame_4x2 in
  exists m', run_job 8192 j frame_mem = Some (0, m') /\
    (forall x, x < 8192 \/ 8192 + 32 <= x -> m' !! x = frame_mem !! x) /\
    ColorRows.converted bgrx_pixel (image_of 8192 j) frame_mem m'.
Proof.
  apply (frame_conversion_safe TargetLinux sample_4x2 (mkBuffer 0 false true 4096 12) frame_4x2 BGRA_PRE 8192 16 32 frame_mem);
    try (vm_compute; reflexivity).
  - cbn. lia.
  - vm_compute. split; reflexivity.
  - apply (bool_decide_unpack _). vm_compute. exact I.
  - left. cbn. lia.
Defined.

(** ** Strides that do not cover the width *)

(** A frame of 16 by 2 whose caps give strides of one byte. *)
Definition caps_narrow : GstStructure :=
  mkStructure "video/x-raw-yuv"
    [("width"%string, GInt 16); ("height"%string, GInt 2); ("format"%string, GString "YV12");
     ("stride-y"%string, GInt 1); ("stride-v"%string, GInt 1); ("stride-u"%string, GInt 1)].
Definition sample_narrow : GstSample := mkSample (Some (mkBuffer 0 false true 4096 4)) (Some [caps_narrow]).
Definition frame_narrow : CVideoFrame := snd (Init TargetLinux sample_narrow new_CGstVideoFrame).
Definition narrow_mem : mem :=
  list_to_map (map (fun n => (4096 + Z.of_nat n, 0)) (seq 0 4) ++ map (fun n => (8192 + Z.of_nat n, 0)) (seq 0 128)).

(** The plane checks are about sizes, not strides: caps whose strides are
    smaller than the width make a frame that is valid, and its conversion reads
    outside the frame's buffer. *)
Theorem narrow_strides_accepted :
  fst (Init TargetLinux sample_narrow new_CGstVideoFrame) = true /\ IsValid frame_narrow = true /\
  rgb_geometry (m_uiEncodedWidth frame_narrow) (m_uiEncodedHeight frame_narrow) = Some (64, 128) /\
  strides_cover frame_narrow = false /\ backed 4096 4 narrow_mem /\ backed 8192 128 narrow_mem /\
  run_job 8192 (job_420p BGRA_PRE 64 frame_narrow) narrow_mem = None.
Proof. split_and!; vm_compute; reflexivity. Qed.
