(* ===== verification/PluginApi.v ===== *)
(** * What the project's GStreamer plugins see of GStreamer

    The elements of [gstreamer/plugins] ([javasource.c], [progressbuffer.c],
    [hlsprogressbuffer.c]) run on the streaming threads of a pipeline.  This
    file holds the data they exchange (segments, events, buffers, flow
    results), the calls they make, and the monad their code is written in:
    state passing over the element's fields, every call answered by an
    environment and recorded, a fault where C dereferences a null pointer or
    leaves an array.  Nothing is assumed of the answers. *)

From S2P Require Import Prelude CFloat MediaTypes GstApi.
Local Open Scope Z_scope.

(** ** Data *)

Inductive GstFlow := FLOW_OK | FLOW_NOT_LINKED | FLOW_FLUSHING | FLOW_EOS | FLOW_ERROR.
#[export] Instance GstFlow_eq_dec : EqDecision GstFlow.
Proof. solve_decision. Defined.

Inductive Format := FORMAT_UNDEFINED | FORMAT_BYTES | FORMAT_TIME.
#[export] Instance Format_eq_dec : EqDecision Format.
Proof. solve_decision. Defined.

Inductive PadMode := PAD_MODE_NONE | PAD_MODE_PUSH | PAD_MODE_PULL.
#[export] Instance PadMode_eq_dec : EqDecision PadMode.
Proof. solve_decision. Defined.

Inductive SeekType := SEEK_TYPE_NONE | SEEK_TYPE_SET | SEEK_TYPE_END.
#[export] Instance SeekType_eq_dec : EqDecision SeekType.
Proof. solve_decision. Defined.

(** [GstStateChange], as far as the elements tell the transitions apart. *)
Inductive StateChange :=
| NULL_TO_READY | READY_TO_PAUSED | PAUSED_TO_PLAYING | PLAYING_TO_PAUSED | PAUSED_TO_READY | READY_TO_NULL.

Definition SEGMENT_FLAG_UPDATE : Z := 32.
(** [-1] as an unsigned 64-bit value. *)
Definition UNKNOWN_64 : Z := two_p64 - 1.

(** [GstSegment]: the positions are unsigned 64-bit values. *)
Record GstSegment := mkSegment {
  sg_flags : Z; sg_rate : double; sg_format : Format;
  sg_start : Z; sg_stop : Z; sg_time : Z; sg_position : Z }.
Definition gst_segment_init (format : Format) : GstSegment := mkSegment 0 d_one format 0 UNKNOWN_64 0 0.
#[export] Instance eta_GstSegment : Eta GstSegment :=
  eta_ap (eta_ap (eta_ap (eta_ap (eta_ap (eta_ap (eta_ap (eta_pure mkSegment)
    sg_flags) sg_rate) sg_format) sg_start) sg_stop) sg_time) sg_position.

(** The parameters of a seek event. *)
Record GstSeek := mkSeek {
  sk_rate : double; sk_format : Format; sk_flags : Z;
  sk_start_type : SeekType; sk_start : Z; sk_stop_type : SeekType; sk_stop : Z }.

Inductive GstEvent :=
| EvStreamStart
| EvSegment (s : GstSegment)
| EvEos
| EvFlushStart (seqnum : Z)
| EvFlushStop (seqnum : Z)
| EvSeek (s : GstSeek) (seqnum : Z)
| EvCaps (mimetype : string) (mpegversion : option Z)
| EvRangeReady
| EvOther (serialized : bool).

(** [GST_EVENT_IS_SERIALIZED]. *)
Definition is_serialized (e : GstEvent) : bool :=
  match e with
  | EvStreamStart | EvSegment _ | EvEos | EvFlushStop _ | EvCaps _ _ | EvRangeReady => true
  | EvFlushStart _ | EvSeek _ _ => false
  | EvOther s => s
  end.
Definition is_eos (e : GstEvent) : bool := match e with EvEos => true | _ => false end.

(** A buffer of stream data. *)
Record DataBuffer := mkDataBuffer {
  db_offset : Z; db_data : list Z; db_discont : bool; db_pts : Z; db_dts : Z }.
Definition db_size (b : DataBuffer) : Z := Z.of_nat (length (db_data b)).
#[export] Instance eta_DataBuffer : Eta DataBuffer :=
  eta_ap (eta_ap (eta_ap (eta_ap (eta_ap (eta_pure mkDataBuffer)
    db_offset) db_data) db_discont) db_pts) db_dts.

(** The pads of an element. *)
Inductive Pad := SinkPad | SrcPad.
Inductive Cond := AddCond | DelCond.

(** ** Calls *)

Inductive pcall : Type -> Type :=
(* locks and threads *)
| g_mutex_lock : pcall unit
| g_mutex_unlock : pcall unit
| g_cond_signal (c : Cond) : pcall unit
| stream_lock : pcall unit
| stream_unlock : pcall unit
| g_thread_new : pcall bool
| g_thread_join : pcall unit
(* pads *)
| pad_is_linked : pcall bool
| pad_start_task : pcall bool
| pad_stop_task : pcall bool
| pad_pause_task : pcall unit
| pad_push (b : DataBuffer) : pcall GstFlow
| pad_push_event (p : Pad) (e : GstEvent) : pcall bool
| pad_event_default (e : GstEvent) : pcall bool
| pad_query_default : pcall bool
| create_source_pad : pcall unit
(* messages and references *)
| post_message (m : GstMessage) : pcall unit
| event_ref (e : GstEvent) : pcall unit
| event_unref (e : GstEvent) : pcall unit
| buffer_unref : pcall unit
| parent_change_state : pcall GstStateChangeReturn
(* the cache file *)
| os_mkstemp : pcall bool
| os_open : pcall bool
| os_unlink : pcall bool
| os_close (write : bool) : pcall unit
| os_write (size : Z) : pcall Z
| os_read (size : Z) : pcall Z
| os_lseek (position : Z) : pcall bool
(* memory *)
| try_malloc (size : Z) : pcall bool
| g_free : pcall unit
| buffer_new (size : Z) : pcall bool
| buffer_map : pcall bool
| buffer_unmap : pcall unit
(* time *)
| g_timer_elapsed : pcall double
| g_timer_start : pcall unit
(* signals of the Java source *)
| sig_seek_data (position : Z) : pcall Z
| sig_read_next_block : pcall Z
| sig_read_block (position size : Z) : pcall Z
| sig_copy_block (size : Z) : pcall (list Z)
| sig_close_connection : pcall unit
| sig_property (prop value : Z) : pcall Z.

(** A call with its answer. *)
Inductive pobs : Type := PObs : forall R : Type, pcall R -> R -> pobs.
Global Arguments PObs {R} c r.

Class PEnv := {
  pworld : Type;
  panswer : forall R : Type, pcall R -> pworld -> R * pworld }.
Global Arguments panswer {_ R} c w.

(** ** The monad *)

Definition PM `{PEnv} (S A : Type) : Type := S -> pworld -> option (A * S * pworld * list pobs).

Section Monad.
Context `{EV : PEnv} {S : Type}.

Definition pret {A} (a : A) : PM S A := fun s w => Some (a, s, w, []).
Definition pbind {A B} (m : PM S A) (k : A -> PM S B) : PM S B := fun s w =>
  match m s w with
  | None => None
  | Some (a, s1, w1, t1) =>
      match k a s1 w1 with
      | None => None
      | Some (b, s2, w2, t2) => Some (b, s2, w2, t1 ++ t2)
      end
  end.
Definition pgets {A} (f : S -> A) : PM S A := fun s w => Some (f s, s, w, []).
Definition pmodify (f : S -> S) : PM S unit := fun s w => Some (tt, f s, w, []).
Definition pfault {A} : PM S A := fun _ _ => None.
Definition ask {R} (c : pcall R) : PM S R := fun s w =>
  let '(r, w') := panswer c w in Some (r, s, w', [PObs c r]).
Definition pwhen (b : bool) (m : PM S unit) : PM S unit := if b then m else pret tt.
End Monad.

(** Code that works on a part of the state; a fault where there is none. *)
Definition zoom `{PEnv} {S T A} (get : S -> option T) (put : T -> S -> S) (m : PM T A) : PM S A := fun s w =>
  match get s with
  | None => None
  | Some c => match m c w with
              | Some (a, c', w', t) => Some (a, put c' s, w', t)
              | None => None
              end
  end.

Declare Scope plugin_scope.
Delimit Scope plugin_scope with plugin.
Notation "'let*' x := m 'in' k" := (pbind m (fun x => k))
  (at level 10, x name, m at level 100, k at level 200) : plugin_scope.
Notation "'let*' ' p := m 'in' k" := (pbind m (fun x => match x with p => k end))
  (at level 10, p pattern, m at level 100, k at level 200) : plugin_scope.
Notation "m ;; k" := (pbind m (fun _ => k)) (at level 100, k at level 200, right associativity) : plugin_scope.
Notation "f <~ v" := (pmodify (fun s => set f (fun _ => v) s)) (at level 95, no associativity) : plugin_scope.

(** ** Weakest preconditions

    [pwp m s Q]: from the fields [s], in every environment, [m] does not fault
    and ends with a value, fields and calls that satisfy [Q].  [plwp] allows a
    fault. *)
Definition pwpf `{PEnv} (F : Prop) {S A} (m : PM S A) (s : S) (Q : A -> S -> list pobs -> Prop) : Prop :=
  forall w, match m s w with Some (a, s', _, t) => Q a s' t | None => F end.
Abbreviation pwp := (pwpf False).
Abbreviation plwp := (pwpf True).

Section WP.
Context `{EV : PEnv} (F : Prop) {S : Type}.

Lemma pwp_ret {A} (a : A) (s : S) Q : Q a s [] -> pwpf F (pret a) s Q.
Proof. intros H w. exact H. Qed.
Lemma pwp_bind {A B} (m : PM S A) (k : A -> PM S B) s Q :
  pwpf F m s (fun a s' t => pwpf F (k a) s' (fun b s'' t' => Q b s'' (t ++ t'))) -> pwpf F (pbind m k) s Q.
Proof.
  intros H w. specialize (H w). unfold pbind. destruct (m s w) as [[[[a s1] w1] t1]|]; [|exact H].
  specialize (H w1). destruct (k a s1 w1) as [[[[b s2] w2] t2]|]; exact H.
Qed.
Lemma pwp_gets {A} (f : S -> A) s Q : Q (f s) s [] -> pwpf F (pgets f) s Q.
Proof. intros H w. exact H. Qed.
Lemma pwp_modify (f : S -> S) s Q : Q tt (f s) [] -> pwpf F (pmodify f) s Q.
Proof. intros H w. exact H. Qed.
Lemma pwp_ask {R} (c : pcall R) (s : S) Q : (forall r, Q r s [PObs c r]) -> pwpf F (ask c) s Q.
Proof. intros H w. unfold ask. destruct (panswer c w) as [r w']. apply H. Qed.
Lemma pwp_when b (m : PM S unit) s Q : (b = true -> pwpf F m s Q) -> (b = false -> Q tt s []) -> pwpf F (pwhen b m) s Q.
Proof. destruct b; intros H1 H2; [apply H1; reflexivity | apply pwp_ret, H2; reflexivity]. Qed.
Lemma pwp_mono {A} (m : PM S A) s (P Q : A -> S -> list pobs -> Prop) :
  pwpf F m s P -> (forall a s' t, P a s' t -> Q a s' t) -> pwpf F m s Q.
Proof. intros H HPQ w. specialize (H w). destruct (m s w) as [[[[a s1] w1] t1]|]; [apply HPQ, H | exact H]. Qed.
Lemma pwp_zoom {T A} (get : S -> option T) (put : T -> S -> S) (m : PM T A) s c Q :
  get s = Some c -> pwpf F m c (fun a c' t => Q a (put c' s) t) -> pwpf F (zoom get put m) s Q.
Proof.
  intros E H w. unfold zoom. rewrite E. specialize (H w). destruct (m c w) as [[[[a c'] w'] t]|]; exact H.
Qed.
End WP.

(** Where a fault is allowed it also ends the code. *)
Lemma plwp_fault `{PEnv} {S A} (s : S) (Q : A -> S -> list pobs -> Prop) : plwp pfault s Q.
Proof. intros w. exact I. Qed.
Lemma plwp_pwp `{PEnv} {S A} (m : PM S A) s Q : pwp m s Q -> plwp m s Q.
Proof. intros Hm w. specialize (Hm w). destruct (m s w) as [[[[a s1] w1] t1]|]; [exact Hm | exact I]. Qed.
Lemma plwp_zoom `{PEnv} {S T A} (get : S -> option T) (put : T -> S -> S) (m : PM T A) s Q :
  (forall c, get s = Some c -> plwp m c (fun a c' t => Q a (put c' s) t)) -> plwp (zoom get put m) s Q.
Proof.
  intros H1 w. unfold zoom. destruct (get s) as [c|] eqn:E; [|exact I].
  specialize (H1 c eq_refl w). destruct (m c w) as [[[[a c'] w'] t]|]; exact H1.
Qed.

(** One step of symbolic execution. *)
Ltac pstep :=
  lazymatch goal with
  | |- pwpf _ (pbind _ _) _ _ => apply pwp_bind
  | |- pwpf _ (pret _) _ _ => apply pwp_ret
  | |- pwpf _ (pgets _) _ _ => apply pwp_gets
  | |- pwpf _ (pmodify _) _ _ => apply pwp_modify
  | |- pwpf _ (ask _) _ _ => apply pwp_ask; intros
  | |- pwpf _ (pwhen _ _) _ _ => apply pwp_when; intros
  | |- pwpf True pfault _ _ => apply plwp_fault
  | |- pwpf _ (if ?b then _ else _) _ _ => destruct b eqn:?
  | |- pwpf _ (match ?x with _ => _ end) _ _ => destruct x eqn:?
  end; cbv beta.
Ltac psteps := repeat (pstep; simpl_set).

(** ** An environment in which nothing fails *)

Definition nominal_answer {R} (c : pcall R) : R :=
  match c with
  | g_mutex_lock | g_mutex_unlock | g_cond_signal _ | stream_lock | stream_unlock | g_thread_join | pad_pause_task
  | create_source_pad | post_message _ | event_ref _ | event_unref _ | buffer_unref | os_close _ | g_free | buffer_unmap
  | g_timer_start | sig_close_connection => tt
  | g_thread_new | pad_is_linked | pad_start_task | pad_stop_task | pad_push_event _ _ | pad_event_default _
  | pad_query_default | os_mkstemp | os_open | os_unlink | os_lseek _ | try_malloc _ | buffer_new _ | buffer_map => true
  | pad_push _ => FLOW_OK
  | parent_change_state => GST_STATE_CHANGE_SUCCESS
  | os_write n | os_read n => n
  | g_timer_elapsed => d_zero
  | sig_seek_data p => p
  | sig_read_next_block => -1
  | sig_read_block _ n => n
  | sig_copy_block n => repeat 0 (Z.to_nat n)
  | sig_property _ _ => 0
  end.
(** The environment that gives each call a fixed answer. *)
Definition fixed_env (f : forall R, pcall R -> R) : PEnv :=
  {| pworld := unit; panswer := fun R c w => (f R c, w) |}.
Definition nominal_penv : PEnv := fixed_env (@nominal_answer).

(** [m] can end with these results, in some environment. *)
Definition runs {S A} (m : forall E : PEnv, PM S A) (s : S) (a : A) (s' : S) (t : list pobs) : Prop :=
  exists (E : PEnv) (w w' : pworld), m E s w = Some (a, s', w', t).

Lemma runs_plwp {S A} (m : forall E : PEnv, PM S A) s a s' t (Q : A -> S -> list pobs -> Prop) :
  (forall E : PEnv, plwp (m E) s Q) -> runs m s a s' t -> Q a s' t.
Proof. intros H (E & w & w' & R). specialize (H E w). rewrite R in H. exact H. Qed.

(** ** The bytes of a source *)

(** [n] bytes of the source from offset [o] on. *)
Definition bytes_of (src : Z -> Z) (o : Z) (n : nat) : list Z := map (fun k => src (o + Z.of_nat k)) (seq 0 n).
Lemma bytes_of_length src o n : length (bytes_of src o n) = n.
Proof. unfold bytes_of. rewrite length_map. apply length_seq. Qed.
Lemma bytes_of_cons src o n : bytes_of src o (S n) = src o :: bytes_of src (o + 1) n.
Proof.
  unfold bytes_of. cbn [seq map]. rewrite <- seq_shift, map_map, Z.add_0_r. f_equal. apply map_ext. intros k. f_equal. lia.
Qed.
Lemma bytes_of_app src a b : forall o, bytes_of src o a ++ bytes_of src (o + Z.of_nat a) b = bytes_of src o (a + b).
Proof.
  induction a as [|a IH]; intros o; [rewrite Z.add_0_r; reflexivity|]. cbn [Nat.add]. rewrite !bytes_of_cons, <- IH.
  cbn [app]. do 2 f_equal. f_equal. lia.
Qed.

(** A computed run in the environment where nothing fails. *)
Ltac run_nominal := exists nominal_penv, tt, tt; vm_compute; reflexivity.
