(* ===== verification/FileCache.v ===== *)
(** * The cache file ([plugins/progressbuffer/posix/filecache.c])

    A temporary file with one handle to write and one to read, each with the
    position the cache believes it is at.  The kernel is modelled by the
    content of the file and the offset of each handle; a write may be short or
    fail, a read may be short or fail.  Positions are 64-bit file offsets,
    which a file cannot exceed. *)

From S2P Require Import Prelude CFloat MediaTypes GstApi PluginApi.
Local Open Scope Z_scope.
Local Open Scope plugin_scope.

Definition DEFAULT_BUFFER_SIZE : Z := 4096.

(** [struct _Cache], with the file behind its handles. *)
Record Cache := mkCache {
  c_file : list Z; c_woff : Z; c_roff : Z; read_position : Z; write_position : Z }.
#[export] Instance eta_Cache : Eta Cache :=
  eta_ap (eta_ap (eta_ap (eta_ap (eta_ap (eta_pure mkCache)
    c_file) c_woff) c_roff) read_position) write_position.

(** ** The kernel *)

(** The first [n] bytes, zeros where there are none. *)
Definition take_pad (n : nat) (l : list Z) : list Z := firstn n l ++ repeat 0 (n - length l).
Definition overwrite (off : nat) (bytes file : list Z) : list Z :=
  take_pad off file ++ bytes ++ skipn (off + length bytes) file.

Section Kernel.
Context `{EV : PEnv}.

(** [write(writeHandle, data, size)]: how many bytes were written, or -1. *)
Definition kernel_write (data : list Z) : PM Cache Z :=
  let* n := ask (os_write (Z.of_nat (length data))) in
  if n <? 0 then pret (-1)
  else
    let bytes := firstn (Z.to_nat n) data in
    let* off := pgets c_woff in
    pmodify (fun c => c <| c_file := overwrite (Z.to_nat off) bytes (c_file c) |>
                        <| c_woff := off + Z.of_nat (length bytes) |>) ;;
    pret (Z.of_nat (length bytes)).

(** [read(readHandle, data, size)]: the result and the bytes; zero only at the
    end of the file. *)
Definition kernel_read (size : Z) : PM Cache (Z * list Z) :=
  let* n := ask (os_read size) in
  if n <? 0 then pret (-1, [])
  else
    let* c := pgets (fun c => c) in
    let available := firstn (Z.to_nat size) (skipn (Z.to_nat (c_roff c)) (c_file c)) in
    let bytes := firstn (Nat.max 1 (Z.to_nat n)) available in
    c_roff <~ c_roff c + Z.of_nat (length bytes) ;;
    pret (Z.of_nat (length bytes), bytes).
End Kernel.

(** ** The operations *)

Section Operations.
Context `{EV : PEnv}.

Definition create_cache {S} : PM S (option Cache) :=
  let* result := ask (try_malloc 40) in
  if negb result then pret None
  else
    let* writeHandle := ask os_mkstemp in
    let* readHandle := ask os_open in
    if negb writeHandle || negb readHandle then ask g_free ;; pret None
    else
      let* unlinked := ask os_unlink in
      if negb unlinked then ask (os_close true) ;; ask (os_close false) ;; ask g_free ;; pret None
      else pret (Some (mkCache [] 0 0 0 0)).

Definition destroy_cache {S} : PM S unit :=
  ask (os_close true) ;; ask (os_close false) ;; ask g_free ;; ask g_free.

Definition cache_write_buffer (buffer : DataBuffer) : PM Cache unit :=
  let* mapped := ask buffer_map in
  if mapped then
    let* written := kernel_write (db_data buffer) in
    pwhen (0 <? written) (pmodify (fun c => c <| write_position := write_position c + written |>)) ;;
    ask buffer_unmap
  else pret tt.

Definition cache_read_buffer : PM Cache (Z * option DataBuffer) :=
  let* data := ask (try_malloc DEFAULT_BUFFER_SIZE) in
  if data then
    let* c := pgets (fun c => c) in
    let ahead := write_position c - read_position c in
    let size := if (0 <? ahead) && (ahead <? DEFAULT_BUFFER_SIZE) then ahead else DEFAULT_BUFFER_SIZE in
    let* '(read_bytes, bytes) := kernel_read size in
    if 0 <? read_bytes then
      let* wrapped := ask (buffer_new DEFAULT_BUFFER_SIZE) in
      pmodify (fun c => c <| read_position := read_position c + read_bytes |>) ;;
      let* position := pgets read_position in
      pret (position, if wrapped then Some (mkDataBuffer (read_position c) bytes false GST_CLOCK_TIME_NONE GST_CLOCK_TIME_NONE)
                      else None)
    else ask g_free ;; pret (0, None)
  else pret (0, None).

Definition cache_set_write_position (position : Z) : PM Cache bool :=
  let* current := pgets write_position in
  if position =? current then pret true
  else
    let* result := ask (os_lseek position) in
    if result && (0 <=? position) then c_woff <~ position ;; write_position <~ position ;; pret true
    else pret false.

Definition cache_set_read_position (position : Z) : PM Cache bool :=
  let* current := pgets read_position in
  if position =? current then pret true
  else
    let* result := ask (os_lseek position) in
    if result && (0 <=? position) then c_roff <~ position ;; read_position <~ position ;; pret true
    else pret false.

Definition cache_read_buffer_from_position (start_position size : Z) : PM Cache (GstFlow * option DataBuffer) :=
  let* positioned := cache_set_read_position start_position in
  if positioned then
    let* data := ask (try_malloc size) in
    if data then
      let* '(read_bytes, bytes) := kernel_read size in
      let* position := pgets read_position in
      let* result :=
        (if read_bytes =? size then
           let* wrapped := ask (buffer_new size) in
           pret (if wrapped then (FLOW_OK, Some (mkDataBuffer position bytes false GST_CLOCK_TIME_NONE GST_CLOCK_TIME_NONE))
                 else (FLOW_ERROR, None))
         else ask g_free ;; pret (FLOW_ERROR, None)) in
      pmodify (fun c => c <| read_position := read_position c + read_bytes |>) ;;
      pret result
    else pret (FLOW_ERROR, None)
  else pret (FLOW_ERROR, None).
End Operations.

Definition cache_has_enough_data (c : Cache) : bool := read_position c <? write_position c.

(** ** What a cache holds *)

(** The bytes written since the write position was last set to zero. *)
Definition stored (c : Cache) : list Z := firstn (Z.to_nat (write_position c)) (c_file c).

Record cache_ok (c : Cache) : Prop := {
  ok_woff : c_woff c = write_position c;
  ok_roff : c_roff c = read_position c;
  ok_write : 0 <= write_position c <= Z.of_nat (length (c_file c));
  ok_read : 0 <= read_position c }.

(** [n] elements from position [p] on. *)
Definition slice (l : list Z) (p n : Z) : list Z := firstn (Z.to_nat n) (skipn (Z.to_nat p) l).

Lemma stored_length c : cache_ok c -> Z.of_nat (length (stored c)) = write_position c.
Proof. intros [_ _ H _]. unfold stored. rewrite length_firstn. lia. Qed.

Lemma overwrite_length off bytes file : (off <= length file)%nat ->
  length (overwrite off bytes file) = Nat.max (length file) (off + length bytes).
Proof.
  intros H. unfold overwrite, take_pad. rewrite !length_app, length_firstn, repeat_length, length_skipn. lia.
Qed.

Lemma overwrite_prefix off bytes file : (off <= length file)%nat ->
  firstn (off + length bytes) (overwrite off bytes file) = firstn off file ++ bytes.
Proof.
  intros H. unfold overwrite, take_pad. replace (off - length file)%nat with 0%nat by lia. cbn [repeat]. rewrite app_nil_r.
  rewrite app_assoc, firstn_app, length_app, length_firstn.
  replace (off + length bytes - (Nat.min off (length file) + length bytes))%nat with 0%nat by lia.
  cbn [firstn]. rewrite app_nil_r. apply firstn_all2. rewrite length_app, length_firstn. lia.
Qed.

(** A call whose failure loses data: a buffer that cannot be mapped or a write
    that takes fewer bytes than it is given. *)
Definition complete (o : pobs) : bool :=
  match o with
  | @PObs R c r => match c in pcall R return R -> bool with
                   | os_write n => fun r => n <=? r
                   | buffer_map => fun r => r
                   | _ => fun _ => true
                   end r
  end.
Definition all_complete (t : list pobs) : Prop := forallb complete t = true.

Lemma all_complete_app t t' : all_complete (t ++ t') <-> all_complete t /\ all_complete t'.
Proof. unfold all_complete. rewrite forallb_app. apply andb_true_iff. Qed.

(** The calls on which the cache file depends succeeded: it was created, no
    write was short, no position was refused. *)
Definition os_fine (o : pobs) : bool :=
  match o with
  | @PObs R c r => match c in pcall R return R -> bool with
                   | os_write n => fun r => n <=? r
                   | os_lseek p => fun r => r && (0 <=? p)
                   | buffer_map | os_mkstemp | os_open | os_unlink | try_malloc _ => fun r => r
                   | _ => fun _ => true
                   end r
  end.
Definition os_ok (t : list pobs) : Prop := forallb os_fine t = true.

Lemma os_ok_app t t' : os_ok (t ++ t') <-> os_ok t /\ os_ok t'.
Proof. unfold os_ok. rewrite forallb_app. apply andb_true_iff. Qed.
Lemma os_ok_complete t : os_ok t -> all_complete t.
Proof.
  unfold os_ok, all_complete. rewrite !forallb_forall. intros H o Ho. specialize (H o Ho).
  destruct o as [R c r]. destruct c; try reflexivity; exact H.
Qed.

(** A buffer that cannot be wrapped is lost. *)
Definition wrapped (o : pobs) : bool :=
  match o with
  | @PObs R c r => match c in pcall R return R -> bool with
                   | buffer_new _ => fun r => r
                   | _ => fun _ => true
                   end r
  end.
Definition all_wrapped (t : list pobs) : Prop := forallb wrapped t = true.
Lemma all_wrapped_app t t' : all_wrapped (t ++ t') <-> all_wrapped t /\ all_wrapped t'.
Proof. unfold all_wrapped. rewrite forallb_app. apply andb_true_iff. Qed.

(** ** Weakest preconditions of the operations *)

Section Specs.
Context `{EV : PEnv}.

(** Bytes appended at the write position. *)
Definition append (bytes : list Z) (c : Cache) : Cache :=
  mkCache (overwrite (Z.to_nat (write_position c)) bytes (c_file c)) (write_position c + Z.of_nat (length bytes))
    (c_roff c) (read_position c) (write_position c + Z.of_nat (length bytes)).

Lemma append_ok bytes c : cache_ok c -> cache_ok (append bytes c) /\ stored (append bytes c) = stored c ++ bytes.
Proof.
  intros [H1 H2 H3 H4]. split.
  - split; cbn; [reflexivity | exact H2 | rewrite overwrite_length by lia; lia | exact H4].
  - unfold stored, append. cbn [write_position c_file].
    replace (Z.to_nat (write_position c + _)) with (Z.to_nat (write_position c) + length bytes)%nat by lia.
    apply overwrite_prefix. lia.
Qed.

Lemma append_nil c : cache_ok c -> append [] c = c.
Proof.
  intros [H1 H2 H3 H4]. destruct c as [f w r rp wp]. unfold append, overwrite, take_pad. cbn in *. rewrite Z.add_0_r, Nat.add_0_r.
  replace (Z.to_nat wp - length f)%nat with 0%nat by lia. cbn [repeat]. rewrite app_nil_r, firstn_skipn. congruence.
Qed.

Lemma kernel_write_spec data c : cache_ok c ->
  pwp (kernel_write data) c (fun n c' t =>
    (n = -1 /\ c' = c /\ ~ all_complete t) \/
    exists k, n = Z.of_nat (length (firstn k data)) /\
      c' = append (firstn k data) c <| write_position := write_position c |> /\
      (all_complete t -> firstn k data = data)).
Proof.
  intros [H1 H2 H3 H4]. unfold kernel_write. psteps; [left | right].
  - split; [reflexivity | split; [reflexivity|]]. unfold all_complete. cbn. intros Hc. bools. lia.
  - exists (Z.to_nat r). split; [reflexivity|]. split.
    + rewrite H1. destruct c. reflexivity.
    + unfold all_complete. cbn. intros. bools. apply firstn_all2. lia.
Qed.

Lemma cache_write_spec b c : cache_ok c ->
  pwp (cache_write_buffer b) c (fun _ c' t => exists k, c' = append (firstn k (db_data b)) c /\
    (all_complete t -> firstn k (db_data b) = db_data b)).
Proof.
  intros OK. unfold cache_write_buffer. psteps.
  2:{ exists 0%nat. cbn [firstn]. rewrite append_nil by exact OK. split; [reflexivity|]. unfold all_complete. cbn. discriminate. }
  eapply pwp_mono; [apply kernel_write_spec, OK|]. cbn beta. intros n c' t [(-> & -> & Hn)|(k & -> & -> & Hk)].
  - psteps; [discriminate|]. exists 0%nat. cbn [firstn]. rewrite append_nil by exact OK. split; [reflexivity|].
    rewrite !all_complete_app. tauto.
  - psteps; exists k; (split; [|rewrite !all_complete_app; tauto]); bools.
    + destruct c. reflexivity.
    + destruct (firstn k (db_data b)) as [|x l] eqn:E; [|cbn [length] in *; lia].
      rewrite append_nil by exact OK. destruct c. reflexivity.
Qed.

(** Bytes read at the read position. *)
Definition advance_read (n : Z) (c : Cache) : Cache := c <| c_roff := c_roff c + n |> <| read_position := read_position c + n |>.

Lemma advance_ok n c : 0 <= n -> cache_ok c -> cache_ok (advance_read n c) /\ stored (advance_read n c) = stored c.
Proof. intros Hn [H1 H2 H3 H4]. split; [|reflexivity]. unfold advance_read. split; simpl_set; [exact H1 | lia | exact H3 | lia]. Qed.

Lemma kernel_read_spec size c : cache_ok c -> 0 < size ->
  pwp (kernel_read size) c (fun '(n, bytes) c' t =>
    (n = -1 /\ bytes = [] /\ c' = c) \/
    (n = Z.of_nat (length bytes) /\ c' = c <| c_roff := c_roff c + n |> /\ (length bytes <= Z.to_nat size)%nat /\
     bytes = firstn (length bytes) (skipn (Z.to_nat (read_position c)) (c_file c)) /\
     (read_position c < Z.of_nat (length (c_file c)) -> bytes <> []))).
Proof.
  intros [H1 H2 H3 H4] Hs. unfold kernel_read. psteps; [left; auto | right]. bools. rewrite H2.
  set (l := skipn _ _). set (k := Nat.max 1 (Z.to_nat r)). split; [reflexivity|]. split; [reflexivity|].
  split; [rewrite !length_firstn; lia|]. split.
  - rewrite firstn_firstn, length_firstn. generalize (Nat.min k (Z.to_nat size)). intros n.
    destruct (Nat.le_gt_cases n (length l)) as [L|L].
    + rewrite Nat.min_l by exact L. reflexivity.
    + rewrite Nat.min_r, !firstn_all2 by lia. reflexivity.
  - intros Hr E%(f_equal length). rewrite !length_firstn in E. subst l k. rewrite length_skipn in E. cbn in E. lia.
Qed.

(** What is read lies in what was written, when there is enough data. *)
Lemma slice_stored c n : cache_ok c -> read_position c + Z.of_nat n <= write_position c ->
  firstn n (skipn (Z.to_nat (read_position c)) (c_file c)) = slice (stored c) (read_position c) (Z.of_nat n).
Proof.
  intros [H1 H2 H3 H4] Hn. unfold slice, stored. rewrite Nat2Z.id, skipn_firstn_comm, firstn_firstn. f_equal. lia.
Qed.

Lemma cache_read_spec c : cache_ok c -> cache_has_enough_data c = true ->
  pwp cache_read_buffer c (fun '(position, buffer) c' t =>
    (position = 0 /\ buffer = None /\ c' = c) \/
    exists bytes, let n := Z.of_nat (length bytes) in
      0 < n <= DEFAULT_BUFFER_SIZE /\ read_position c + n <= write_position c /\
      bytes = slice (stored c) (read_position c) n /\ c' = advance_read n c /\ position = read_position c + n /\
      (buffer = None /\ ~ all_wrapped t \/ exists pts dts, buffer = Some (mkDataBuffer (read_position c) bytes false pts dts))).
Proof.
  intros OK He. pose proof OK as [H1 H2 H3 H4]. unfold cache_has_enough_data in He. bools. unfold cache_read_buffer.
  psteps; [|left; auto]. cbv zeta. set (size := if _ && _ then _ else _).
  assert (Hs : 0 < size <= DEFAULT_BUFFER_SIZE /\ size <= write_position c - read_position c).
  { subst size. unfold DEFAULT_BUFFER_SIZE. split_if; bools; lia. }
  eapply pwp_mono; [apply kernel_read_spec; [exact OK | lia]|]. cbn beta.
  intros [n bytes] c' t [(-> & -> & ->)|(-> & -> & Hl & Hb & Hne)].
  - psteps; [discriminate ..|]. left. auto.
  - assert (bytes <> []) by (apply Hne; lia). destruct bytes as [|b bytes]; [congruence|]. set (bs := b :: bytes) in *.
    assert (0 < Z.of_nat (length bs)) by (cbn; lia). clearbody bs. psteps; [|bools; lia].
    right. exists bs. cbv zeta. split; [lia|]. split; [lia|].
    split; [rewrite Hb at 1; apply slice_stored; [exact OK | lia]|]. split; [destruct c; reflexivity|]. split; [reflexivity|].
    destruct r0; [right; eauto | left]. split; [reflexivity|]. rewrite !all_wrapped_app. cbn. unfold all_wrapped. cbn. intuition discriminate.
Qed.

(** Setting a position. *)
Lemma cache_set_read_spec p c : cache_ok c -> pwp (cache_set_read_position p) c (fun b c' t =>
  (b = true /\ 0 <= p /\ c' = c <| c_roff := p |> <| read_position := p |>) \/ (b = false /\ c' = c /\ ~ os_ok t)).
Proof.
  intros [H1 H2 H3 H4]. unfold cache_set_read_position. psteps.
  - left. bools. subst p. split; [reflexivity | split; [exact H4|]]. destruct c. cbn in *. subst. reflexivity.
  - left. bools. auto.
  - right. split_and!; [reflexivity..|]. unfold os_ok. cbn. rewrite Heqb0. discriminate.
Qed.

Lemma cache_set_write_spec p c : cache_ok c -> pwp (cache_set_write_position p) c (fun b c' t =>
  (b = true /\ 0 <= p /\ c' = c <| c_woff := p |> <| write_position := p |>) \/ (b = false /\ c' = c /\ ~ os_ok t)).
Proof.
  intros [H1 H2 H3 H4]. unfold cache_set_write_position. psteps.
  - left. bools. subst p. split; [reflexivity | split; [lia|]]. destruct c. cbn in *. subst. reflexivity.
  - left. bools. auto.
  - right. split_and!; [reflexivity..|]. unfold os_ok. cbn. rewrite Heqb0. discriminate.
Qed.
(** A new cache is empty. *)
Lemma create_cache_spec {S} (e : S) : pwp create_cache e (fun r e' t => e' = e /\ (os_ok t -> r = Some (mkCache [] 0 0 0 0))).
Proof.
  unfold create_cache. psteps; (split; [reflexivity|]); try reflexivity; unfold os_ok; cbn; intros H; exfalso;
    repeat match goal with b : bool |- _ => destruct b; try discriminate end.
Qed.

Lemma destroy_cache_spec {S} (e : S) Q : (forall t, Q tt e t) -> pwp destroy_cache e Q.
Proof. intros H. unfold destroy_cache. psteps. destruct r2. apply H. Qed.
End Specs.

(** ** The cache as a stream *)

(** What the elements do to a cache between two resets: write buffers, and
    read one when there is enough data. *)
Inductive cache_op := CWrite (b : DataBuffer) | CRead.

(** The bytes read by a sequence of operations. *)
Fixpoint cache_run `{PEnv} (ops : list cache_op) : PM Cache (list Z) :=
  match ops with
  | [] => pret []
  | CWrite b :: ops => cache_write_buffer b ;; cache_run ops
  | CRead :: ops =>
      let* c := pgets (fun c => c) in
      if cache_has_enough_data c then
        let* '(_, buffer) := cache_read_buffer in
        let* out := cache_run ops in
        pret (match buffer with Some b => db_data b ++ out | None => out end)
      else cache_run ops
  end.
Fixpoint written (ops : list cache_op) : list Z :=
  match ops with
  | [] => []
  | CWrite b :: ops => db_data b ++ written ops
  | CRead :: ops => written ops
  end.
Lemma slice_join l p a b : 0 <= p -> 0 <= a -> 0 <= b -> slice l p a ++ slice l (p + a) b = slice l p (a + b).
Proof.
  intros Hp Ha Hb. unfold slice. rewrite !Z2Nat.inj_add, <- drop_drop by lia. apply take_take_drop.
Qed.
Lemma slice_app l m p n : 0 <= p -> 0 <= n -> p + n <= Z.of_nat (length l) -> slice (l ++ m) p n = slice l p n.
Proof.
  intros Hp Hn Hl. unfold slice. rewrite skipn_app, firstn_app, length_skipn.
  replace (Z.to_nat n - (length l - Z.to_nat p))%nat with 0%nat by lia. cbn [firstn]. apply app_nil_r.
Qed.
Lemma slice_0 l n : slice l 0 n = firstn (Z.to_nat n) l.
Proof. reflexivity. Qed.
Lemma slice_nil l p : slice l p 0 = [].
Proof. reflexivity. Qed.

Section Stream.
Context `{EV : PEnv}.

(** Between resets the bytes read are consecutive bytes of those written. *)
Lemma cache_run_spec ops : forall c, cache_ok c -> read_position c <= write_position c ->
  pwp (cache_run ops) c (fun out c' t =>
    cache_ok c' /\ read_position c <= read_position c' <= write_position c' /\ write_position c <= write_position c' /\
    (exists more, stored c' = stored c ++ more) /\
    (all_complete t -> stored c' = stored c ++ written ops) /\
    (all_wrapped t -> out = slice (stored c') (read_position c) (read_position c' - read_position c))).
Proof.
  induction ops as [|[b|] ops IH]; intros c OK Hrw; cbn [cache_run written].
  - psteps. rewrite Z.sub_diag, slice_nil. split_and!; try lia; auto; [exists []|intros _]; rewrite app_nil_r; reflexivity.
  - psteps. eapply pwp_mono; [apply cache_write_spec, OK|]. cbn beta. intros [] c1 t1 (k & -> & Hk).
    destruct (append_ok (firstn k (db_data b)) c OK) as [OK1 St1].
    eapply pwp_mono; [apply (IH _ OK1); cbn; lia|]. cbn beta. intros out c2 t2 (OK2 & R1 & R2 & (more & M) & A & B).
    cbn [append read_position write_position] in *. rewrite St1 in *. split_and!; [exact OK2 | lia | lia | lia | | |].
    + exists (firstn k (db_data b) ++ more). rewrite app_assoc. exact M.
    + intros [C1 C2]%all_complete_app. rewrite (A C2), (Hk C1), app_assoc. reflexivity.
    + intros [_ W]%all_wrapped_app. exact (B W).
  - psteps; [|apply IH; assumption]. eapply pwp_mono; [apply cache_read_spec; assumption|]. cbn beta.
    intros [position buffer] c1 t1 [(-> & -> & ->)|(bytes & Hn & Hw & Hb & -> & -> & Hbuf)]; cbv zeta in *.
    + psteps. eapply pwp_mono; [apply (IH _ OK Hrw)|]. cbn beta. intros out c2 t2 (OK2 & R1 & R2 & M & A & B). psteps.
      rewrite !all_complete_app, !all_wrapped_app. split_and!; [exact OK2 | lia | lia | lia | exact M | tauto |tauto].
    + destruct (advance_ok (Z.of_nat (length bytes)) c ltac:(lia) OK) as [OK1 St1]. unfold advance_read in *. psteps.
      eapply pwp_mono; [apply (IH _ OK1); simpl_set; lia|]. cbn beta. intros out c2 t2 (OK2 & R1 & R2 & (more & M) & A & B).
      psteps. revert R1 R2 M A B. rewrite St1. simpl_set. intros R1 R2 M A B.
      rewrite !all_complete_app, !all_wrapped_app. split_and!; [exact OK2 | lia | lia | lia | eauto | tauto |].
      intros (_ & W1 & W2 & _). destruct Hbuf as [[_ Hbuf]|(pts & dts & ->)]; [contradiction|]. cbn [db_data].
      rewrite (B W2), M. pose proof (stored_length c OK). pose proof (ok_read c OK). rewrite Hb at 1.
      rewrite <- (slice_app (stored c) more), slice_join by lia. f_equal. lia.
Qed.
End Stream.

(** C33: What a cache gives back.  A new cache through which buffers are
    written and read in any order holds exactly the bytes that were written,
    as long as no write is short, and the buffers read from it, one after the
    other, are exactly the first of these bytes, up to the read position. *)
Theorem cache_roundtrip `{PEnv} ops :
  pwp (cache_run ops) (mkCache [] 0 0 0 0) (fun out c' t =>
    cache_ok c' /\ read_position c' <= write_position c' /\
    (all_complete t -> all_wrapped t ->
     stored c' = written ops /\ out = firstn (Z.to_nat (read_position c')) (written ops))).
Proof.
  assert (OK : cache_ok (mkCache [] 0 0 0 0)) by (split; cbn; lia).
  eapply pwp_mono; [apply (cache_run_spec ops _ OK); cbn; lia|]. cbn beta. intros out c' t (OK' & R1 & R2 & M & A & B).
  split; [exact OK' | split; [lia|]]. intros C W. specialize (A C). specialize (B W). cbn in A. rewrite A in B. cbn [read_position] in B.
  split; [exact A|]. rewrite Z.sub_0_r, slice_0 in B. exact B.
Qed.
