(* ===== verification/ProgressBuffer.v ===== *)
(** * The progress buffer ([plugins/progressbuffer/progressbuffer.c])

    The element between the Java source and the parser of a file or HTTP
    stream.  The source's thread writes into the cache file (chain function
    and sink events), a task on the source pad reads it and pushes it on
    (push mode) or the parser asks for ranges of it (pull mode).  Taking and
    releasing the lock are calls like others; where the lock is released in
    the middle of a function, the function is split into the sections that
    other threads can come between. *)

From S2P Require Import Prelude CFloat MediaTypes GstApi PluginApi FileCache.
Local Open Scope Z_scope.
Local Open Scope plugin_scope.

Definition NO_RANGE_REQUEST : Z := -1.
Definition EOS_SIGNAL_LIMIT : Z := 1.
Definition MSG_BUFFERING : string := "pb_buffering".
Definition MSG_UNDERRUN : string := "pb_underrun".

(** [struct _ProgressBuffer]; a pad and a thread are there or not.  GObject
    clears an instance, so fields without an initialiser start as zero. *)
Record ProgressBuffer := mkProgressBuffer {
  pb_srcpad : bool;
  pb_cache : option Cache;
  pb_pending_src_event : option GstEvent;
  pb_cache_read_offset : Z;
  pb_sink_segment : GstSegment;
  pb_last_update : double;
  pb_threshold : double;
  pb_subtotal : Z;
  pb_bandwidth : double;
  pb_prebuffer_time : double;
  pb_wait_tolerance : double;
  pb_unexpected : bool;
  pb_srcresult : GstFlow;
  pb_eos : bool;
  pb_signal_limit : Z;
  pb_instant_seek : bool;
  pb_is_source_seeking : bool;
  pb_range_start : Z;
  pb_range_stop : Z;
  pb_monitor_thread : bool }.
#[export] Instance eta_ProgressBuffer : Eta ProgressBuffer :=
  eta_ap (eta_ap (eta_ap (eta_ap (eta_ap (eta_ap (eta_ap (eta_ap (eta_ap (eta_ap (eta_ap (eta_ap (eta_ap (eta_ap
  (eta_ap (eta_ap (eta_ap (eta_ap (eta_ap (eta_ap (eta_pure mkProgressBuffer)
    pb_srcpad) pb_cache) pb_pending_src_event) pb_cache_read_offset) pb_sink_segment) pb_last_update) pb_threshold)
    pb_subtotal) pb_bandwidth) pb_prebuffer_time) pb_wait_tolerance) pb_unexpected) pb_srcresult) pb_eos)
    pb_signal_limit) pb_instant_seek) pb_is_source_seeking) pb_range_start) pb_range_stop) pb_monitor_thread.

Definition flush_data (e : ProgressBuffer) : ProgressBuffer :=
  e <| pb_last_update := d_zero |> <| pb_bandwidth := d_zero |> <| pb_subtotal := 0 |>
    <| pb_pending_src_event := None |> <| pb_sink_segment := gst_segment_init FORMAT_BYTES |>
    <| pb_range_start := NO_RANGE_REQUEST |> <| pb_range_stop := NO_RANGE_REQUEST |>.

(** A new element with the default properties. *)
Definition progress_buffer_init : ProgressBuffer :=
  flush_data (mkProgressBuffer false None None 0 (gst_segment_init FORMAT_BYTES) d_zero d_one 0 d_zero
    (Z_to_double 2) (Z_to_double 2) false FLOW_OK false 0 false false 0 0 false).

Inductive pb_property := PROP_THRESHOLD | PROP_BANDWIDTH | PROP_PREBUFFER_TIME | PROP_WAIT_TOLERANCE.

Section Element.
Context `{EV : PEnv}.
Abbreviation M := (PM ProgressBuffer).

Definition progress_buffer_set_property (p : pb_property) (v : double) : M unit :=
  match p with
  | PROP_THRESHOLD => pb_threshold <~ v
  | PROP_PREBUFFER_TIME => pb_prebuffer_time <~ v
  | PROP_WAIT_TOLERANCE => pb_wait_tolerance <~ v
  | PROP_BANDWIDTH => pret tt
  end.

Definition progress_buffer_get_property (p : pb_property) : M double :=
  pgets (match p with
         | PROP_THRESHOLD => pb_threshold
         | PROP_BANDWIDTH => pb_bandwidth
         | PROP_PREBUFFER_TIME => pb_prebuffer_time
         | PROP_WAIT_TOLERANCE => pb_wait_tolerance
         end).

(** ** Pending events *)

Definition progress_buffer_set_pending_event (new_event : option GstEvent) : M unit :=
  let* old := pgets pb_pending_src_event in
  match old with Some ev => ask (event_unref ev) | None => pret tt end ;;
  pb_pending_src_event <~ new_event.

Definition pending_is_eos (e : ProgressBuffer) : bool :=
  match pb_pending_src_event e with Some ev => is_eos ev | None => false end.

Definition reset_eos (clear_pending_event : bool) : M unit :=
  pb_eos <~ false ;;
  pb_signal_limit <~ EOS_SIGNAL_LIMIT ;;
  pwhen clear_pending_event (progress_buffer_set_pending_event None).

(** [pending_eos] counts the signal it reports. *)
Definition pending_eos : M bool :=
  let* e := pgets (fun e => e) in
  let result := pb_eos e && (0 <? pb_signal_limit e) in
  pwhen result (pb_signal_limit <~ pb_signal_limit e - 1) ;;
  pret result.

(** ** Messages *)

Definition percent (s : GstSegment) : double :=
  dmul (ddiv (Z_to_double (sg_position s)) (Z_to_double (sg_stop s))) (Z_to_double 100).

Definition buffering_message (e : ProgressBuffer) : GstMessage :=
  let s := pb_sink_segment e in
  GST_MESSAGE_APPLICATION (mkStructure MSG_BUFFERING
    [("start"%string, GInt64 (s64 (sg_start s))); ("position"%string, GInt64 (s64 (sg_position s)));
     ("stop"%string, GInt64 (s64 (sg_stop s))); ("eos"%string, GBool (pb_eos e))]).

Definition send_position_message (mandatory : bool) : M bool :=
  let* e := pgets (fun e => e) in
  let percent := percent (pb_sink_segment e) in
  let mandatory := mandatory || (dsub percent (pb_last_update e) >. pb_threshold e) in
  pwhen mandatory (ask (post_message (buffering_message e)) ;; pb_last_update <~ percent) ;;
  pret mandatory.

Definition send_underrun_message : M unit :=
  ask (post_message (GST_MESSAGE_APPLICATION (mkStructure MSG_UNDERRUN []))).

Definition post_error (domain : GstErrorDomain) (code : Z) (text : string) : M unit :=
  ask (post_message (GST_MESSAGE_ERROR (Some (mkGError domain code text)) None 0)).

(** ** Items from the source *)

(** The cache of the element; a fault where it is null. *)
Definition on_cache {A} (m : PM Cache A) : M A :=
  zoom pb_cache (fun c e => e <| pb_cache := Some c |>) m.

Definition signal_if (signal : bool) : M GstFlow :=
  pwhen signal (ask (g_cond_signal AddCond)) ;; pret FLOW_OK.

(** A buffer. *)
Definition enqueue_buffer (b : DataBuffer) : M GstFlow :=
  pmodify (fun e => e <| pb_sink_segment := pb_sink_segment e <| sg_position := u64 (db_offset b + db_size b) |> |>) ;;
  let* e := pgets (fun e => e) in
  if sg_stop (pb_sink_segment e) <? sg_position (pb_sink_segment e) then pret FLOW_ERROR
  else
    on_cache (cache_write_buffer b) ;;
    let* elapsed := ask g_timer_elapsed in
    pmodify (fun e => e <| pb_subtotal := u64 (pb_subtotal e + db_size b) |>) ;;
    pwhen (elapsed >. d_one)
      (pmodify (fun e => e <| pb_bandwidth := ddiv (Z_to_double (pb_subtotal e)) elapsed |> <| pb_subtotal := 0 |>) ;;
       ask g_timer_start) ;;
    let* signal := send_position_message false in
    signal_if signal.

Definition enqueue_eos : M GstFlow :=
  pb_eos <~ true ;;
  pmodify (fun e => let s := pb_sink_segment e in
    if sg_position s <? sg_stop s then e <| pb_sink_segment := s <| sg_stop := sg_position s |> |> else e) ;;
  let* e := pgets (fun e => e) in
  pwhen (negb (pending_is_eos e)) (progress_buffer_set_pending_event None) ;;
  let* signal := send_position_message true in
  ask (event_unref EvEos) ;;
  signal_if signal.

(** An updating segment starts a new cache, another one reuses it from the
    start; [false] when no cache can be created. *)
Definition prepare_cache (segment : GstSegment) : M bool :=
  if Z.land (sg_flags segment) SEGMENT_FLAG_UPDATE =? SEGMENT_FLAG_UPDATE then
    let* old := pgets pb_cache in
    match old with Some _ => destroy_cache | None => pret tt end ;;
    let* new := create_cache in
    pb_cache <~ new ;;
    pret (match new with Some _ => true | None => false end)
  else
    on_cache (cache_set_write_position 0) ;;
    on_cache (cache_set_read_position 0) ;;
    pb_cache_read_offset <~ sg_start segment ;;
    pret true.

Definition enqueue_segment (segment : GstSegment) : M GstFlow :=
  pb_unexpected <~ false ;;
  if negb (bool_decide (sg_format segment = FORMAT_BYTES)) then
    post_error GST_STREAM_ERROR 11 "GST_FORMAT_BYTES buffers expected." ;;
    ask (event_unref (EvSegment segment)) ;;
    pret FLOW_ERROR
  else if u64 (sg_stop segment - sg_start segment) <=? 0 then
    post_error GST_STREAM_ERROR GST_STREAM_ERROR_WRONG_TYPE "Only limited content is supported by progressbuffer." ;;
    ask (event_unref (EvSegment segment)) ;;
    pret FLOW_ERROR
  else
    let* ready := prepare_cache segment in
    if negb ready then
      post_error GST_RESOURCE_ERROR 7 "Couldn't create backing cache" ;;
      ask (event_unref (EvSegment segment)) ;;
      pret FLOW_ERROR
    else
      pb_sink_segment <~ segment ;;
      progress_buffer_set_pending_event (Some (EvSegment segment)) ;;
      pb_instant_seek <~ true ;;
      let* signal := send_position_message true in
      signal_if signal.

Definition enqueue_event (ev : GstEvent) : M GstFlow :=
  match ev with
  | EvEos => enqueue_eos
  | EvSegment segment => enqueue_segment segment
  | _ => ask (event_unref ev) ;; pret FLOW_OK
  end.

Definition progress_buffer_create_sourcepad : M unit :=
  pb_srcpad <~ true ;; ask create_source_pad.

Definition progress_buffer_chain (data : DataBuffer) : M GstFlow :=
  ask g_mutex_lock ;;
  let* e := pgets (fun e => e) in
  let* result := (if pb_eos e || pb_unexpected e then pret FLOW_EOS else enqueue_buffer data) in
  ask g_mutex_unlock ;;
  ask buffer_unref ;;
  let* srcpad := pgets pb_srcpad in
  pwhen (negb (bool_decide (result = FLOW_ERROR)) && negb srcpad) progress_buffer_create_sourcepad ;;
  pret result.

Definition is_flush (ev : GstEvent) : bool :=
  match ev with EvFlushStart _ | EvFlushStop _ => true | _ => false end.
Definition is_flush_stop (ev : GstEvent) : bool :=
  match ev with EvFlushStop _ => true | _ => false end.

Definition progress_buffer_sink_event (ev : GstEvent) : M bool :=
  let* e := pgets (fun e => e) in
  if pb_is_source_seeking e && is_flush ev then ask (event_unref ev) ;; pret true
  else if is_serialized ev && negb (is_flush_stop ev) then
    ask g_mutex_lock ;;
    let* e := pgets (fun e => e) in
    let* result := (if pb_eos e then ask (event_unref ev) ;; pret false
                    else enqueue_event ev ;; pret true) in
    ask g_mutex_unlock ;;
    pret result
  else ask (pad_push_event SrcPad ev).

(** ** The task of the source pad *)

(** Where the function stands when it releases the lock: waiting, about to
    push an event or a buffer, or done. *)
Inductive loop_exit :=
| LWait (skip : bool)
| LEvent (ev : GstEvent) (result : GstFlow)
| LBuffer (b : DataBuffer)
| LDone (result : GstFlow).

(** The code from [next_item] to where the lock is released; [fuel] bounds the
    jumps back to [next_item], [None] is out of fuel. *)
Fixpoint next_item (fuel : nat) (skip : bool) : M (option loop_exit) :=
  match fuel with
  | O => pret None
  | S fuel =>
      let* e := pgets (fun e => e) in
      let* wait :=
        (if bool_decide (pb_srcresult e = FLOW_OK) && bool_decide (pb_pending_src_event e = None) then
           let* enough := on_cache (pgets cache_has_enough_data) in
           pret (negb enough || negb (pb_instant_seek e))
         else pret false) in
      if wait then pwhen (pb_instant_seek e) send_underrun_message ;; pret (Some (LWait skip))
      else
        match pb_srcresult e with
        | FLOW_OK =>
            match pb_pending_src_event e with
            | Some ev =>
                ask (event_ref ev) ;;
                progress_buffer_set_pending_event None ;;
                let known := match ev with EvEos | EvSegment _ => true | _ => false end in
                if negb known && skip then ask (event_unref ev) ;; next_item fuel skip
                else
                  let result := if is_eos ev then FLOW_EOS else FLOW_OK in
                  pb_srcresult <~ result ;;
                  ask g_mutex_unlock ;;
                  pret (Some (LEvent ev result))
            | None =>
                let* '(position, buffer) := on_cache cache_read_buffer in
                let read_position := u64 (position + pb_cache_read_offset e) in
                match buffer with
                | None => pfault
                | Some b =>
                    let b := b <| db_offset := u64 (read_position - db_size b) |> in
                    pwhen (read_position =? sg_stop (pb_sink_segment e)) (progress_buffer_set_pending_event (Some EvEos)) ;;
                    if skip then ask buffer_unref ;; next_item fuel skip
                    else ask g_mutex_unlock ;; pret (Some (LBuffer b))
                end
            end
        | result =>
            pwhen skip (pb_unexpected <~ true) ;;
            ask g_mutex_unlock ;;
            pret (Some (LDone (if skip then FLOW_OK else result)))
        end
  end.

(** The start of the function, the return from the wait, and the two ways it
    goes on after a push. *)
Definition loop_enter (fuel : nat) : M (option loop_exit) := ask g_mutex_lock ;; next_item fuel false.
Definition loop_wake (fuel : nat) (skip : bool) : M (option loop_exit) := next_item fuel skip.
Definition loop_push_event (ev : GstEvent) (result : GstFlow) : M (option loop_exit) :=
  ask (pad_push_event SrcPad ev) ;; pret (Some (LDone result)).
Definition loop_push_buffer (fuel : nat) (b : DataBuffer) : M (option loop_exit) :=
  let* result := ask (pad_push b) in
  match result with
  | FLOW_EOS => ask g_mutex_lock ;; next_item fuel true
  | _ => ask g_mutex_lock ;; pb_srcresult <~ result ;; ask g_mutex_unlock ;; pret (Some (LDone result))
  end.
Definition loop_finish (result : GstFlow) : M unit :=
  pwhen (negb (bool_decide (result = FLOW_OK))) (ask pad_pause_task).

(** ** Seeking in push mode *)

Definition seek_segment (s : GstSeek) (e : ProgressBuffer) : GstSegment :=
  gst_segment_init FORMAT_BYTES <| sg_rate := sk_rate s |> <| sg_start := u64 (sk_start s) |>
    <| sg_stop := sg_stop (pb_sink_segment e) |> <| sg_position := u64 (sk_start s) |>.

Definition seek_in_cache (s : GstSeek) : M unit :=
  let* e := pgets (fun e => e) in
  on_cache (cache_set_read_position (sk_start s - pb_cache_read_offset e)) ;;
  progress_buffer_set_pending_event (Some (EvSegment (seek_segment s e))).

Definition flushing (s : GstSeek) : bool := negb (Z.land (sk_flags s) GST_SEEK_FLAG_FLUSH =? 0).

(** Refused seeks return [false]; otherwise the task is told to stop. *)
Definition seek_begin (s : GstSeek) (seqnum : Z) : M bool :=
  if negb (bool_decide (sk_format s = FORMAT_BYTES)) || negb (bool_decide (sk_start_type s = SEEK_TYPE_SET)) then pret false
  else if negb (bool_decide (sk_stop_type s = SEEK_TYPE_NONE)) then
    ask (post_message (GST_MESSAGE_WARNING
      (Some (mkGError OTHER_ERROR_DOMAIN 9 "stop_type != GST_SEEK_TYPE_NONE. Seeking to stop is not supported.")) None)) ;;
    pret false
  else
    pwhen (flushing s) (ask (pad_push_event SrcPad (EvFlushStart seqnum)) ;; pret tt) ;;
    ask g_mutex_lock ;;
    pb_srcresult <~ FLOW_FLUSHING ;;
    ask (g_cond_signal AddCond) ;;
    ask g_mutex_unlock ;;
    pret true.

(** A position the cache has, or will soon have. *)
Definition seek_is_instant (s : GstSeek) (e : ProgressBuffer) : bool :=
  let seg := pb_sink_segment e in
  (sg_start seg <=? u64 (sk_start s))
  && (Z_to_double (s64 (sk_start s - s64 (sg_position seg))) <=. dmul (pb_bandwidth e) (pb_wait_tolerance e)).

(** With the stream lock, when the task has stopped. *)
Definition seek_stopped (s : GstSeek) : M unit :=
  ask stream_lock ;;
  ask g_mutex_lock ;;
  pb_srcresult <~ FLOW_OK ;;
  pmodify (fun e => e <| pb_instant_seek := seek_is_instant s e |>) ;;
  let* instant := pgets pb_instant_seek in
  (if instant then seek_in_cache s else reset_eos true) ;;
  ask g_mutex_unlock ;;
  pwhen (negb instant) (pb_is_source_seeking <~ true).

(** The source was asked to seek and answered. *)
Definition seek_answered (s : GstSeek) (accepted : bool) : M unit :=
  pwhen (negb accepted) (pb_instant_seek <~ true ;; seek_in_cache s) ;;
  pb_is_source_seeking <~ false.

Definition seek_end (s : GstSeek) (seqnum : Z) : M unit :=
  pwhen (flushing s) (ask (pad_push_event SrcPad (EvFlushStop seqnum)) ;; pret tt) ;;
  ask pad_start_task ;;
  ask stream_unlock ;;
  ask (event_unref (EvSeek s seqnum)).

(** The whole function; other threads run between its parts. *)
Definition progress_buffer_perform_push_seek (s : GstSeek) (seqnum : Z) : M bool :=
  let* accepted := seek_begin s seqnum in
  if negb accepted then pret false
  else
    seek_stopped s ;;
    let* instant := pgets pb_instant_seek in
    pwhen (negb instant)
      (let* answer := ask (pad_push_event SinkPad
         (EvSeek (mkSeek (sk_rate s) FORMAT_BYTES (sk_flags s) SEEK_TYPE_SET (sk_start s) SEEK_TYPE_NONE 0) seqnum)) in
       seek_answered s answer) ;;
    seek_end s seqnum ;;
    pret true.

Definition progress_buffer_src_event (mode : PadMode) (ev : GstEvent) : M bool :=
  match mode, ev with
  | PAD_MODE_PUSH, EvSeek s seqnum => progress_buffer_perform_push_seek s seqnum
  | PAD_MODE_PULL, _ => ask (event_unref ev) ;; pret true
  | _, _ => ask (pad_event_default ev)
  end.

(** ** Pull mode *)

Definition valid_range (v : Z) : bool := negb (v =? NO_RANGE_REQUEST).
Definition pending_range_start (e : ProgressBuffer) : bool :=
  valid_range (pb_range_start e) && (u64 (pb_range_start e) <? sg_start (pb_sink_segment e)).
Definition pending_range_stop (e : ProgressBuffer) : bool :=
  valid_range (pb_range_stop e) && (sg_position (pb_sink_segment e) <? u64 (pb_range_stop e)).

(** The monitor thread from [check_loop] to where it waits, announces a range
    or returns. *)
Inductive monitor_exit := MWait | MReady | MStop.
Definition check_range : M monitor_exit :=
  let* e := pgets (fun e => e) in
  let* wait :=
    (if bool_decide (pb_srcresult e = FLOW_OK) then
       let* at_eos := pending_eos in
       pret (negb at_eos && (pending_range_start e || pending_range_stop e
             || (negb (valid_range (pb_range_start e)) && negb (valid_range (pb_range_stop e)))))
     else pret false) in
  if wait then pret MWait
  else if bool_decide (pb_srcresult e = FLOW_OK) && (valid_range (pb_range_start e) || valid_range (pb_range_stop e)) then
    pmodify (fun e => e <| pb_range_stop := NO_RANGE_REQUEST |> <| pb_range_start := NO_RANGE_REQUEST |>) ;;
    ask g_mutex_unlock ;;
    ask (pad_push_event SrcPad EvRangeReady) ;;
    ask g_mutex_lock ;;
    pret MReady
  else ask g_mutex_unlock ;; pret MStop.

Definition progress_buffer_getrange (start_position size : Z) : M (GstFlow * option DataBuffer) :=
  let end_position := u64 (start_position + size) in
  ask g_mutex_lock ;;
  let* e := pgets (fun e => e) in
  let seg := pb_sink_segment e in
  let* '(answer, needs_seeking) :=
    (if sg_stop seg <? end_position then pret ((FLOW_EOS, None), false)
     else if (sg_start seg <=? start_position) && (end_position <=? sg_position seg) then
       let* r := on_cache (cache_read_buffer_from_position (s64 start_position) size) in pret (r, false)
     else
       let needs_seeking := start_position <? sg_start seg in
       pwhen needs_seeking (pb_range_start <~ s64 start_position ;; reset_eos true) ;;
       let* needs_seeking :=
         (if sg_position seg <? end_position then
            let stop := s64 (end_position + double_to_gint64 (dmul (pb_bandwidth e) (pb_prebuffer_time e))) in
            pb_range_stop <~ (if sg_stop seg <? u64 stop then s64 (sg_stop seg) else stop) ;;
            pret ((pb_bandwidth e >. d_zero)
                  && (Z_to_double (u64 (end_position - sg_position seg)) >. dmul (pb_bandwidth e) (pb_wait_tolerance e)))
          else pret needs_seeking) in
       send_underrun_message ;;
       pret ((FLOW_FLUSHING, None), needs_seeking)) in
  ask g_mutex_unlock ;;
  let* rate := pgets (fun e => sg_rate (pb_sink_segment e)) in
  pwhen needs_seeking
    (ask (pad_push_event SinkPad
       (EvSeek (mkSeek rate FORMAT_BYTES 0 SEEK_TYPE_SET (s64 start_position) SEEK_TYPE_NONE 0) 0)) ;; pret tt) ;;
  pret answer.

(** ** Activation and state changes *)

Definition activated : M unit :=
  ask g_mutex_lock ;;
  pb_srcresult <~ FLOW_OK ;;
  reset_eos false ;;
  pb_unexpected <~ false ;;
  ask g_mutex_unlock.
Definition deactivated : M unit :=
  ask g_mutex_lock ;;
  pb_srcresult <~ FLOW_FLUSHING ;;
  ask (g_cond_signal AddCond) ;;
  ask g_mutex_unlock.

Definition progress_buffer_activatepull_src (active : bool) : M bool :=
  let* thread := pgets pb_monitor_thread in
  if active then
    activated ;;
    (if thread then pret tt else let* started := ask g_thread_new in pb_monitor_thread <~ started) ;;
    pgets pb_monitor_thread
  else
    pwhen thread (deactivated ;; ask g_thread_join ;; pb_monitor_thread <~ false) ;;
    pret true.

Definition progress_buffer_activatepush_src (active : bool) : M bool :=
  if active then
    activated ;;
    let* linked := ask pad_is_linked in
    if linked then ask pad_start_task else pret false
  else deactivated ;; ask pad_stop_task.

Definition progress_buffer_activatemode (mode : PadMode) (active : bool) : M bool :=
  match mode with
  | PAD_MODE_PUSH => progress_buffer_activatepush_src active
  | PAD_MODE_PULL => progress_buffer_activatepull_src active
  | PAD_MODE_NONE => pret false
  end.

Definition progress_buffer_change_state (transition : StateChange) : M GstStateChangeReturn :=
  let* ret := ask parent_change_state in
  match ret, transition with
  | GST_STATE_CHANGE_FAILURE, _ => pret ret
  | _, PAUSED_TO_READY =>
      ask g_mutex_lock ;;
      pb_srcresult <~ FLOW_FLUSHING ;;
      pmodify flush_data ;;
      ask (g_cond_signal AddCond) ;;
      ask g_mutex_unlock ;;
      pret ret
  | _, _ => pret ret
  end.

Definition progress_buffer_finalize : M unit :=
  let* e := pgets (fun e => e) in
  match pb_pending_src_event e with Some ev => ask (event_unref ev) | None => pret tt end ;;
  match pb_cache e with Some _ => destroy_cache | None => pret tt end.
End Element.
