(* ===== verification/ProgressStream.v ===== *)
(** * The progress buffer as a stream

    The task of the source pad ends its critical section whatever it finds
    ([next_item_ends]), and what it pushes downstream in push mode is the
    source's stream: in every interleaving of the source's thread, the task
    and seeks, each buffer holds the bytes of the source at the offset it
    carries, and between two segments the buffers follow one another without
    gap or overlap ([push_mode_stream]). *)

From S2P Require Import Prelude CFloat MediaTypes GstApi PluginApi FileCache ProgressBuffer.
Local Open Scope Z_scope.
Local Open Scope plugin_scope.

(** ** Termination *)

(** Bytes left in the cache and the pending event bound the jumps back. *)
Definition items_left (e : ProgressBuffer) : Z :=
  2 * (match pb_cache e with Some c => Z.max 0 (write_position c - read_position c) | None => 0 end)
  + (match pb_pending_src_event e with Some _ => 1 | None => 0 end).
Definition cache_well (e : ProgressBuffer) : Prop := forall c, pb_cache e = Some c -> cache_ok c.

Section Items.
Context `{EV : PEnv}.

(** Reading from the element's cache. *)
Lemma set_pending_event_spec F ev (e : ProgressBuffer) Q :
  (forall t, Q tt (e <| pb_pending_src_event := ev |>) t) -> pwpf F (progress_buffer_set_pending_event ev) e Q.
Proof. intros H. unfold progress_buffer_set_pending_event. psteps; apply H. Qed.

Lemma pending_none_spec e : bool_decide (pb_pending_src_event e = None) = true -> pb_pending_src_event e = None.
Proof. apply bool_decide_eq_true. Qed.

(** What the wait condition decides. *)
Lemma wait_spec e Q :
  (pb_srcresult e <> FLOW_OK -> Q false e []) ->
  (forall ev, pb_srcresult e = FLOW_OK -> pb_pending_src_event e = Some ev -> Q false e []) ->
  (forall c b t, pb_srcresult e = FLOW_OK -> pb_pending_src_event e = None -> pb_cache e = Some c ->
     b = negb (cache_has_enough_data c) || negb (pb_instant_seek e) -> Q b e t) ->
  plwp (if bool_decide (pb_srcresult e = FLOW_OK) && bool_decide (pb_pending_src_event e = None) then
          let* enough := on_cache (pgets cache_has_enough_data) in
          pret (negb enough || negb (pb_instant_seek e))
        else pret false) e Q.
Proof.
  intros H1 H2 H3. case_bool_decide as E1; cbn [andb]; [|pstep; apply H1, E1].
  destruct (pb_pending_src_event e) as [ev|] eqn:E2.
  - case_bool_decide; [discriminate|]. pstep. eapply H2; [exact E1 | reflexivity].
  - case_bool_decide; [|congruence]. pstep. apply plwp_zoom. intros c Ec. psteps.
    rewrite <- Ec. replace (e <| pb_cache := pb_cache e |>) with e by (destruct e; reflexivity).
    eapply H3; [exact E1 | reflexivity | exact Ec | reflexivity].
Qed.

Definition known_event (ev : GstEvent) : bool := match ev with EvEos | EvSegment _ => true | _ => false end.
Definition eos_if (b : bool) (e : ProgressBuffer) : ProgressBuffer := if b then e <| pb_pending_src_event := Some EvEos |> else e.
(** The element after [n] bytes were read from its cache [c]. *)
Definition after_read (c : Cache) (n : Z) (e : ProgressBuffer) : ProgressBuffer :=
  eos_if (u64 (read_position c + n + pb_cache_read_offset e) =? sg_stop (pb_sink_segment e))
    (e <| pb_cache := Some (advance_read n c) |>).

(** One round of [next_item]. *)
Section Round.
Variables (fuel : nat) (skip : bool) (e : ProgressBuffer) (Q : option loop_exit -> ProgressBuffer -> Prop).
Let Qt : option loop_exit -> ProgressBuffer -> list pobs -> Prop := fun r s _ => Q r s.
Hypothesis OK : cache_well e.
Hypothesis Hwait : forall c, pb_srcresult e = FLOW_OK -> pb_pending_src_event e = None -> pb_cache e = Some c ->
  cache_has_enough_data c = false \/ pb_instant_seek e = false -> Q (Some (LWait skip)) e.
Hypothesis Hstop : pb_srcresult e <> FLOW_OK ->
  Q (Some (LDone (if skip then FLOW_OK else pb_srcresult e))) (if skip then e <| pb_unexpected := true |> else e).
Hypothesis Hevent : forall ev, pb_srcresult e = FLOW_OK -> pb_pending_src_event e = Some ev ->
  let e' := e <| pb_pending_src_event := None |> in
  let result := if is_eos ev then FLOW_EOS else FLOW_OK in
  if negb (known_event ev) && skip then plwp (next_item fuel skip) e' Qt
  else Q (Some (LEvent ev result)) (e' <| pb_srcresult := result |>).
Hypothesis Hread : forall c bytes pts dts, pb_srcresult e = FLOW_OK -> pb_pending_src_event e = None ->
  pb_cache e = Some c -> cache_has_enough_data c = true -> pb_instant_seek e = true ->
  let n := Z.of_nat (length bytes) in
  0 < n <= DEFAULT_BUFFER_SIZE -> read_position c + n <= write_position c -> bytes = slice (stored c) (read_position c) n ->
  if skip then plwp (next_item fuel skip) (after_read c n e) Qt
  else Q (Some (LBuffer (mkDataBuffer (u64 (u64 (read_position c + n + pb_cache_read_offset e) - n)) bytes false pts dts)))
         (after_read c n e).

Lemma next_item_round : plwp (next_item (S fuel) skip) e Qt.
Proof using All.
  cbn [next_item]. pstep. pstep. pstep. apply wait_spec.
  - intros H. destruct (pb_srcresult e) eqn:E; [congruence| | | |];
      (psteps; unfold Qt; pose proof (Hstop ltac:(congruence)) as K; destruct skip; (discriminate || exact K)).
  - intros ev E1 E2. rewrite E1, E2. cbn beta. pstep. pstep. pstep. apply set_pending_event_spec. intros t.
    pose proof (Hevent ev E1 E2) as K'. cbv zeta in K'. fold (known_event ev).
    destruct (negb (known_event ev) && skip) eqn:K.
    + pstep. pstep. exact K'.
    + psteps. exact K'.
  - intros c b t E1 E2 E3 Eb. destruct b.
    + symmetry in Eb. apply orb_prop in Eb. assert (K : Q (Some (LWait skip)) e).
      { apply (Hwait c E1 E2 E3). destruct Eb as [Eb%negb_true_iff|Eb%negb_true_iff]; auto. }
      unfold send_underrun_message. psteps; exact K.
    + symmetry in Eb. apply orb_false_elim in Eb as [Ee%negb_false_iff Ei%negb_false_iff].
      rewrite E1, E2. pstep. apply (pwp_zoom _ _ _ _ _ c); [exact E3|].
      eapply pwp_mono; [apply plwp_pwp, cache_read_spec; [apply OK, E3 | exact Ee]|]. cbn beta.
      intros [position buffer] c' t' [(-> & -> & ->)|(bytes & Hn & Hw & Hb & -> & -> & Hbuf)]; [pstep|].
      destruct Hbuf as [[-> _]|(pts & dts & ->)]; [pstep|]. cbv zeta in *.
      pose proof (Hread c bytes pts dts E1 E2 E3 Ee Ei Hn Hw Hb) as K. cbv zeta in K. unfold after_read, eos_if in K.
      change (db_size (mkDataBuffer (read_position c) bytes false pts dts)) with (Z.of_nat (length bytes)).
      simpl_set. pstep. apply pwp_when; intros E; rewrite E in K; [apply set_pending_event_spec; intros t2|];
        (destruct skip; psteps; exact K).
Qed.
End Round.
End Items.

(** Reading keeps the cache well formed and brings the end nearer. *)
Lemma after_read_well c n e : pb_cache e = Some c -> cache_well e -> 0 <= n -> cache_well (after_read c n e).
Proof.
  intros Ec He Hn c' H. unfold after_read, eos_if in H.
  assert (c' = advance_read n c) as -> by (destruct (_ =? _); revert H; simpl_set; intros; congruence).
  apply advance_ok; [exact Hn | apply He, Ec].
Qed.

Lemma after_read_left c n e : pb_cache e = Some c -> pb_pending_src_event e = None ->
  0 < n -> read_position c + n <= write_position c -> items_left (after_read c n e) < items_left e.
Proof.
  intros Ec Ep Hn Hw. unfold items_left. rewrite Ec, Ep. unfold after_read, eos_if, advance_read.
  destruct (_ =? _); simpl_set; cbv iota; simpl_set; rewrite ?Ep; cbv iota; lia.
Qed.

(** C34: The task never spins with the lock held.  However often downstream
    asks it to skip, the critical section of [progress_buffer_loop] reaches a
    point where the lock is released - it waits, pushes an event or a buffer,
    or returns - after a number of rounds bounded by what the cache and the
    pending event hold. *)
Theorem next_item_ends `{PEnv} (fuel : nat) (skip : bool) (e : ProgressBuffer)
    (Hcache : cache_well e) (Hfuel : items_left e < Z.of_nat fuel) :
  plwp (next_item fuel skip) e (fun r _ _ => r <> None).
Proof.
  revert skip e Hcache Hfuel. induction fuel as [|fuel IH]; intros skip e OK Hf.
  { unfold items_left in Hf. destruct (pb_cache e), (pb_pending_src_event e); lia. }
  apply (next_item_round fuel skip e (fun r _ => r <> None)); try discriminate; try exact OK.
  - intros ev E1 E2. cbv zeta. split_if; [|discriminate]. apply IH; [exact OK|].
    unfold items_left in *. simpl_set. rewrite E2 in Hf. lia.
  - intros c bytes pts dts E1 E2 E3 _ _ n Hn Hw _. destruct skip; [|discriminate].
    apply IH; [apply after_read_well; [exact E3 | exact OK | lia]|].
    pose proof (after_read_left c n e E3 E2 ltac:(lia) Hw). lia.
Qed.

Lemma next_item_ends_witness :
  exists t, runs (fun E => @next_item E 12 true)
    (progress_buffer_init <| pb_cache := Some (mkCache [1; 2; 3; 4; 5] 5 0 0 5) |> <| pb_instant_seek := true |>)
    (Some (LWait true))
    (progress_buffer_init <| pb_cache := Some (mkCache [1; 2; 3; 4; 5] 5 5 5 5) |> <| pb_instant_seek := true |>) t /\
  forall E : PEnv, plwp (@next_item E 12 true)
    (progress_buffer_init <| pb_cache := Some (mkCache [1; 2; 3; 4; 5] 5 0 0 5) |> <| pb_instant_seek := true |>)
    (fun r _ _ => r <> None).
Proof.
  eexists. split.
  - exists nominal_penv, tt, tt. vm_compute. reflexivity.
  - intros E. apply (@next_item_ends E 12 true).
    + intros c [= <-]. split; cbn; lia.
    + vm_compute. reflexivity.
Defined.

(** ** Push mode as a system of threads *)

(** Where the task is: between two calls of its function, or at an exit. *)
Inductive task := Idle | At (x : loop_exit).

Record conf := mkConf {
  cf_element : ProgressBuffer;
  cf_task : task;
  cf_next : Z;                  (* where the source goes on *)
  cf_seek : option GstSeek }.   (* a seek the source has not answered *)

(** What reaches the element downstream, its refusal of more data, and a segment
    that will not reach it, because the end of the stream overtook it. *)
Inductive delivery := DSegment (s : GstSegment) | DEos | DBuffer (b : DataBuffer) | DRefused | DLost.

Definition delivered (x : loop_exit) : list delivery :=
  match x with
  | LEvent (EvSegment s) _ => [DSegment s]
  | LEvent EvEos _ => [DEos]
  | LBuffer b => [DBuffer b]
  | _ => []
  end.

(** Downstream has answered that it wants no more data. *)
Definition refusal (o : pobs) : bool :=
  match o with
  | @PObs R c r => match c in pcall R return R -> bool with
                   | pad_push _ => fun r => bool_decide (r = FLOW_EOS)
                   | _ => fun _ => false
                   end r
  end.

Definition LIMIT : Z := 9223372036854775808.

(** A segment that the task has not pushed yet. *)
Definition pending_segment (e : ProgressBuffer) : bool :=
  match pb_pending_src_event e with Some (EvSegment _) => true | _ => false end.

Definition lost (e e' : ProgressBuffer) : list delivery :=
  if pending_segment e && negb (pending_segment e') then [DLost] else [].

Definition with_element (c : conf) (e : ProgressBuffer) : conf := mkConf e (cf_task c) (cf_next c) (cf_seek c).

Section Steps.
Variable src : Z -> Z.

(** A step of the element's own threads: its task, and the seeks and
    activations that reach its source pad. *)
Inductive pb_own (c : conf) : list delivery -> conf -> Prop :=
| step_enter fuel x e' t :
    cf_task c = Idle -> runs (fun E => @loop_enter E fuel) (cf_element c) (Some x) e' t ->
    pb_own c (delivered x) (mkConf e' (At x) (cf_next c) (cf_seek c))
| step_wake fuel skip x e' t :
    cf_task c = At (LWait skip) -> runs (fun E => @loop_wake E fuel skip) (cf_element c) (Some x) e' t ->
    pb_own c (delivered x) (mkConf e' (At x) (cf_next c) (cf_seek c))
| step_push_event ev result x e' t :
    cf_task c = At (LEvent ev result) -> runs (fun E => @loop_push_event E ev result) (cf_element c) (Some x) e' t ->
    pb_own c [] (mkConf e' (At x) (cf_next c) (cf_seek c))
| step_push_buffer fuel b x e' t :
    cf_task c = At (LBuffer b) -> runs (fun E => @loop_push_buffer E fuel b) (cf_element c) (Some x) e' t ->
    pb_own c (if existsb refusal t then DRefused :: delivered x else delivered x) (mkConf e' (At x) (cf_next c) (cf_seek c))
| step_finish result e' t :
    cf_task c = At (LDone result) -> runs (fun E => @loop_finish E result) (cf_element c) tt e' t ->
    pb_own c [] (mkConf e' Idle (cf_next c) (cf_seek c))
| step_seek_begin s seqnum r e' t :
    runs (fun E => @seek_begin E s seqnum) (cf_element c) r e' t ->
    pb_own c [] (with_element c e')
| step_seek_stopped s e' t :
    cf_task c = Idle -> 0 <= sk_start s < LIMIT -> runs (fun E => @seek_stopped E s) (cf_element c) tt e' t -> os_ok t ->
    pb_own c [] (mkConf e' (cf_task c) (cf_next c) (if pb_instant_seek e' then None else Some s))
| step_seek_answered s accepted e' t :
    cf_seek c = Some s -> 0 <= sk_start s < LIMIT -> runs (fun E => @seek_answered E s accepted) (cf_element c) tt e' t -> os_ok t ->
    pb_own c [] (mkConf e' (cf_task c) (cf_next c) None)
| step_seek_end s seqnum e' t :
    runs (fun E => @seek_end E s seqnum) (cf_element c) tt e' t ->
    pb_own c [] (with_element c e')
| step_activate active r e' t :
    runs (fun E => @progress_buffer_activatepush_src E active) (cf_element c) r e' t ->
    pb_own c [] (with_element c e')
| step_property p v e' t :
    runs (fun E => @progress_buffer_set_property E p v) (cf_element c) tt e' t ->
    pb_own c [] (with_element c e').

(** One step of one thread.  The source delivers its bytes in order, in
    segments it starts in bytes; the first starts a new cache at the offset of
    the cache.  The end of the stream may come while a segment waits to be
    pushed, and then takes its place ([eos_drops_segment]).  The operating
    system reads and writes the cache file as asked ([os_ok]). *)
Inductive pb_step (c : conf) : list delivery -> conf -> Prop :=
| step_buffer b r e' t :
    db_offset b = cf_next c -> db_data b = bytes_of src (cf_next c) (length (db_data b)) -> cf_next c + db_size b < LIMIT ->
    runs (fun E => @progress_buffer_chain E b) (cf_element c) r e' t -> os_ok t ->
    pb_step c [] (mkConf e' (cf_task c) (if bool_decide (r = FLOW_OK) then cf_next c + db_size b else cf_next c) (cf_seek c))
| step_segment s r e' t :
    sg_format s = FORMAT_BYTES -> 0 <= sg_start s < sg_stop s -> sg_stop s < LIMIT -> sg_position s = sg_start s ->
    (Z.land (sg_flags s) SEGMENT_FLAG_UPDATE = SEGMENT_FLAG_UPDATE -> sg_start s = pb_cache_read_offset (cf_element c)) ->
    pb_eos (cf_element c) = false ->
    runs (fun E => @progress_buffer_sink_event E (EvSegment s)) (cf_element c) r e' t -> os_ok t ->
    pb_step c [] (mkConf e' (cf_task c) (sg_start s) (cf_seek c))
| step_sink_event ev r e' t :
    (forall s, ev = EvSegment s -> pb_eos (cf_element c) = true) ->
    runs (fun E => @progress_buffer_sink_event E ev) (cf_element c) r e' t ->
    pb_step c (lost (cf_element c) e') (with_element c e')
| step_own ds c' : pb_own c ds c' -> pb_step c ds c'.

Inductive pb_exec : conf -> list delivery -> conf -> Prop :=
| exec_refl c : pb_exec c [] c
| exec_step c ds c' ds' c'' : pb_step c ds c' -> pb_exec c' ds' c'' -> pb_exec c (ds ++ ds') c''.

(** ** What downstream may rely on *)

(** The offset of the next buffer: the position of the segment, then the end
    of each buffer; unknown before the first segment, after a refusal and after a
    segment that was lost. *)
Definition expect_after (ex : option Z) (d : delivery) : option Z :=
  match d with
  | DSegment s => Some (sg_position s)
  | DBuffer b => match ex with Some o => Some (o + db_size b) | None => None end
  | DEos => ex
  | DRefused | DLost => None
  end.
Definition faithful (ex : option Z) (d : delivery) : Prop :=
  match d with
  | DBuffer b => 0 < db_size b <= DEFAULT_BUFFER_SIZE /\ db_data b = bytes_of src (db_offset b) (length (db_data b)) /\
                 (forall o, ex = Some o -> db_offset b = o)
  | _ => True
  end.
Fixpoint stream_ok (ex : option Z) (ds : list delivery) : Prop :=
  match ds with
  | [] => True
  | d :: ds => faithful ex d /\ stream_ok (expect_after ex d) ds
  end.
Definition expect_all (ex : option Z) (ds : list delivery) : option Z := fold_left expect_after ds ex.
End Steps.

(** ** The invariant *)

(** What the invariant looks at. *)
Definition view (e : ProgressBuffer) := (pb_cache e, pb_cache_read_offset e, pb_pending_src_event e, pb_instant_seek e).

Record stored_from (src : Z -> Z) (next offset : Z) (c : Cache) : Prop := {
  sf_ok : cache_ok c;
  sf_offset : 0 <= offset;
  sf_next : next = offset + write_position c;
  sf_limit : next < LIMIT /\ offset + read_position c < LIMIT;
  sf_bytes : stored c = bytes_of src offset (Z.to_nat (write_position c)) }.

(** [v] is the view of an element whose source goes on at [next] and whose
    downstream expects [ex]. *)
Definition view_inv (src : Z -> Z) (next : Z) (ex : option Z) (v : option Cache * Z * option GstEvent * bool) : Prop :=
  let '(cache, offset, pending, instant) := v in
  match cache with
  | None => pending = None /\ ex = None
  | Some c =>
      stored_from src next offset c /\
      (instant = true ->
       match pending with
       | Some (EvSegment s) => sg_position s = offset + read_position c
       | _ => forall o, ex = Some o -> o = offset + read_position c
       end)
  end.

Lemma bytes_of_slice src o n p k : 0 <= p -> 0 <= k -> p + k <= Z.of_nat n ->
  slice (bytes_of src o n) p k = bytes_of src (o + p) (Z.to_nat k).
Proof.
  intros Hp Hk Hn. unfold slice. set (a := Z.to_nat p). set (b := Z.to_nat k). set (r := (n - a - b)%nat).
  replace n with (a + (b + r))%nat by lia. replace (o + p) with (o + Z.of_nat a) by lia.
  rewrite <- !bytes_of_app, skipn_app, bytes_of_length, Nat.sub_diag, skipn_all2 by (rewrite bytes_of_length; lia).
  rewrite app_nil_l, drop_0, firstn_app, bytes_of_length, Nat.sub_diag, take_0.
  rewrite app_nil_r. apply firstn_all2. rewrite bytes_of_length. lia.
Qed.

(** ** What each operation does to the view *)

Definition set_cache (v : option Cache * Z * option GstEvent * bool) (c : Cache) :=
  let '(_, offset, pending, instant) := v in (Some c, offset, pending, instant).

Section Views.
Context `{EV : PEnv}.

Lemma send_position_view m e : pwp (send_position_message m) e (fun _ e' _ => view e' = view e).
Proof. unfold send_position_message. psteps; reflexivity. Qed.

Lemma reset_eos_view b e : pwp (reset_eos b) e (fun _ e' _ =>
  view e' = (pb_cache e, pb_cache_read_offset e, if b then None else pb_pending_src_event e, pb_instant_seek e)).
Proof.
  unfold reset_eos. psteps; [apply set_pending_event_spec; intros t; subst b; reflexivity | subst b; reflexivity].
Qed.

Lemma signal_view m e : pwp (let* signal := send_position_message m in signal_if signal) e (fun r e' _ => r = FLOW_OK /\ view e' = view e).
Proof.
  pstep. eapply pwp_mono; [apply send_position_view|]. cbn beta. intros s e' t Hv. unfold signal_if. psteps; auto.
Qed.

(** A buffer is appended to the cache, or nothing happens. *)
Lemma enqueue_buffer_view b e : cache_well e -> plwp (enqueue_buffer b) e (fun r e' t =>
  (r = FLOW_OK /\ exists c k, pb_cache e = Some c /\ view e' = set_cache (view e) (append (firstn k (db_data b)) c) /\
     (all_complete t -> firstn k (db_data b) = db_data b)) \/
  (r <> FLOW_OK /\ view e' = view e)).
Proof.
  intros OK. unfold enqueue_buffer. psteps; [right; split; [discriminate | reflexivity]|].
  apply plwp_zoom. simpl_set. intros c Ec.
  eapply pwp_mono; [apply plwp_pwp, cache_write_spec, OK, Ec|]. cbn beta. intros [] c' t (k & -> & Hk).
  pstep. pstep. pstep. pstep. pstep. pstep; [pstep; pstep; pstep|];
    (eapply pwp_mono; [apply plwp_pwp, signal_view|]; cbn beta; intros r' e' t' [-> Hv]; left; split; [reflexivity|];
     exists c, k; split; [exact Ec|]; split; [rewrite Hv; reflexivity | rewrite !all_complete_app; tauto]).
Qed.

Lemma chain_view b e : cache_well e -> plwp (progress_buffer_chain b) e (fun r e' t =>
  (r = FLOW_OK /\ exists c k, pb_cache e = Some c /\ view e' = set_cache (view e) (append (firstn k (db_data b)) c) /\
     (all_complete t -> firstn k (db_data b) = db_data b)) \/
  (r <> FLOW_OK /\ view e' = view e)).
Proof.
  intros OK. unfold progress_buffer_chain, progress_buffer_create_sourcepad. pstep. pstep. pstep. pstep. pstep. pstep.
  - psteps; right; (split; [discriminate | reflexivity]).
  - eapply pwp_mono; [apply enqueue_buffer_view, OK|]. cbn beta.
    intros r2 e' t [(-> & c & k & Ec & Hv & Hk)|[Hr Hv]]; psteps;
      first [right; split; [exact Hr | rewrite <- Hv; reflexivity]
            | left; split; [reflexivity|]; exists c, k; split; [exact Ec|]; split; [rewrite <- Hv; reflexivity|];
              rewrite !all_complete_app; tauto].
Qed.

(** The cache is empty again, and its offset is the segment's. *)
Lemma prepare_cache_view s e : cache_well e -> plwp (prepare_cache s) e (fun r e' t =>
  pb_pending_src_event e' = pb_pending_src_event e /\ (os_ok t ->
    r = true /\ exists c, cache_ok c /\ read_position c = 0 /\ write_position c = 0 /\
    view e' = (Some c, if Z.land (sg_flags s) SEGMENT_FLAG_UPDATE =? SEGMENT_FLAG_UPDATE then pb_cache_read_offset e
                       else sg_start s, pb_pending_src_event e, pb_instant_seek e))).
Proof.
  intros OK. unfold prepare_cache. destruct (_ =? _).
  - pstep. pstep. pstep.
    assert (K : forall t0, plwp (let* new := create_cache in pb_cache <~ new ;; pret (match new with Some _ => true | None => false end)) e
      (fun r e' t => pb_pending_src_event e' = pb_pending_src_event e /\ (os_ok (t0 ++ t) ->
        r = true /\ exists c, cache_ok c /\ read_position c = 0 /\ write_position c = 0 /\
        view e' = (Some c, pb_cache_read_offset e, pb_pending_src_event e, pb_instant_seek e)))).
    { intros t0. pstep. eapply pwp_mono; [apply plwp_pwp, create_cache_spec|]. cbn beta. intros c e' t [-> Hc]. psteps.
      split; [reflexivity|]. rewrite !os_ok_app. intros (_ & H & _). rewrite (Hc H). split; [reflexivity|].
      exists (mkCache [] 0 0 0 0). split; [split; cbn; lia | auto]. }
    destruct (pb_cache e).
    + apply plwp_pwp, destroy_cache_spec. intros t. apply K.
    + pstep. apply K.
  - pstep. apply plwp_zoom. intros c Ec. eapply pwp_mono; [apply plwp_pwp, cache_set_write_spec, OK, Ec|]. cbn beta.
    intros b1 c1 t1 H1. pstep. apply plwp_zoom. simpl_set. intros c1' [= <-].
    assert (O1 : os_ok t1 -> c1 = c <| c_woff := 0 |> <| write_position := 0 |>) by (destruct H1 as [(_ & _ & ->)|(_ & _ & N)]; tauto).
    assert (OK1 : cache_ok c1).
    { destruct H1 as [(_ & _ & ->)|(_ & -> & _)]; [|apply OK, Ec]. destruct (OK c Ec). split; simpl_set; (assumption || lia). }
    eapply pwp_mono; [apply plwp_pwp, cache_set_read_spec, OK1|]. cbn beta. intros b2 c2 t2 H2.
    psteps. split; [reflexivity|]. rewrite !os_ok_app. intros (T1 & T2 & _). rewrite (O1 T1) in *. split; [reflexivity|].
    destruct H2 as [(_ & _ & ->)|(_ & _ & N)]; [|tauto]. eexists. split; [|split; [|split; [|reflexivity]]]; [|reflexivity..].
    destruct OK1. split; simpl_set; (assumption || lia).
Qed.

Lemma enqueue_segment_view s e : cache_well e -> sg_format s = FORMAT_BYTES -> 0 <= sg_start s < sg_stop s -> sg_stop s < LIMIT ->
  plwp (enqueue_segment s) e (fun _ e' t => os_ok t ->
    exists c, cache_ok c /\ read_position c = 0 /\ write_position c = 0 /\
      view e' = (Some c, if Z.land (sg_flags s) SEGMENT_FLAG_UPDATE =? SEGMENT_FLAG_UPDATE then pb_cache_read_offset e
                         else sg_start s, Some (EvSegment s), true)).
Proof.
  intros OK Hf Hr Hl. unfold enqueue_segment. pstep. pstep. rewrite Hf. rewrite bool_decide_eq_true_2 by reflexivity. cbn [negb].
  rewrite u64_small by (unfold is_u64, two_p64, LIMIT in *; lia). rewrite (proj2 (Z.leb_gt _ _)) by lia.
  pstep. eapply pwp_mono; [apply prepare_cache_view, OK|]. cbn beta. intros r e' t [Hp Hc].
  destruct r; cbn [negb].
  - pstep. pstep. pstep. apply set_pending_event_spec. intros t1. pstep. pstep. eapply pwp_mono; [apply plwp_pwp, signal_view|].
    cbn beta. intros r e2 t2 [-> Hv]. rewrite !os_ok_app. intros (_ & T & _). destruct (Hc T) as (_ & c & H1 & H2 & H3 & Hw).
    exists c. split_and!; try assumption. rewrite Hv. revert Hw. unfold view. simpl_set. congruence.
  - unfold post_error. psteps. rewrite !os_ok_app. intros (_ & T & _). destruct (Hc T) as [? _]. discriminate.
Qed.

Lemma enqueue_eos_view e : pwp enqueue_eos e (fun _ e' _ =>
  view e' = (pb_cache e, pb_cache_read_offset e, if pending_is_eos e then pb_pending_src_event e else None, pb_instant_seek e)).
Proof.
  unfold enqueue_eos. pstep. pstep. pstep. pstep. pstep. pstep. match goal with |- pwpf _ _ ?x _ => set (e1 := x) end.
  assert (V : view e1 = view e) by (subst e1; split_if; reflexivity). clearbody e1. unfold view in *. injection V as V1 V2 V3 V4.
  assert (P : pending_is_eos e1 = pending_is_eos e) by (unfold pending_is_eos; rewrite V3; reflexivity). rewrite <- P, <- V1, <- V2, <- V3, <- V4.
  pstep. pstep; [apply set_pending_event_spec; intros t1|];
    (pstep; eapply pwp_mono; [apply send_position_view|]; cbn beta; intros m e2 t2 Hv; unfold view in Hv; unfold signal_if;
     psteps; rewrite Hv; destruct (pending_is_eos e1); (discriminate || reflexivity)).
Qed.

Lemma sink_event_view ev e :
  (forall s, ev = EvSegment s -> pb_eos e = true) ->
  plwp (progress_buffer_sink_event ev) e (fun _ e' _ => view e' = view e \/
    view e' = (pb_cache e, pb_cache_read_offset e, None, pb_instant_seek e)).
Proof.
  intros Hs. unfold progress_buffer_sink_event. pstep. pstep. pstep; [psteps; left; reflexivity|].
  pstep; [|psteps; left; reflexivity]. pstep. pstep. pstep. pstep. pstep. pstep.
  - psteps; left; reflexivity.
  - destruct ev as [|s| | | | | | |]; cbn [enqueue_event]; try (psteps; left; reflexivity).
    + specialize (Hs s eq_refl). congruence.
    + pstep. eapply pwp_mono; [apply plwp_pwp, enqueue_eos_view|]. cbn beta. intros r1 e1 t1 Hv. psteps.
      destruct (pending_is_eos e) eqn:P; [left | right]; exact Hv.
Qed.

(** Seeks. *)
Lemma seek_in_cache_view s e : cache_well e -> plwp (seek_in_cache s) e (fun _ e' t => os_ok t ->
  0 <= sk_start s - pb_cache_read_offset e /\ exists c seg, pb_cache e = Some c /\ sg_position seg = u64 (sk_start s) /\
  view e' = (Some (c <| c_roff := sk_start s - pb_cache_read_offset e |> <| read_position := sk_start s - pb_cache_read_offset e |>),
             pb_cache_read_offset e, Some (EvSegment seg), pb_instant_seek e)).
Proof.
  intros OK. unfold seek_in_cache. pstep. pstep. pstep. apply plwp_zoom. intros c Ec.
  eapply pwp_mono; [apply plwp_pwp, cache_set_read_spec, OK, Ec|]. cbn beta. intros b c' t H. apply set_pending_event_spec. intros t2.
  rewrite !os_ok_app. intros (_ & T & _). destruct H as [(_ & Hp & ->)|(_ & _ & N)]; [|tauto]. split; [exact Hp|].
  exists c, (seek_segment s e). split_and!; [exact Ec | reflexivity | reflexivity].
Qed.

Lemma seek_begin_view s n e : pwp (seek_begin s n) e (fun _ e' _ => view e' = view e).
Proof. unfold seek_begin. psteps; reflexivity. Qed.

Lemma seek_stopped_view s e : cache_well e -> plwp (seek_stopped s) e (fun _ e' t => os_ok t ->
  if pb_instant_seek e' then
    0 <= sk_start s - pb_cache_read_offset e /\ exists c seg, pb_cache e = Some c /\ sg_position seg = u64 (sk_start s) /\
    view e' = (Some (c <| c_roff := sk_start s - pb_cache_read_offset e |> <| read_position := sk_start s - pb_cache_read_offset e |>),
               pb_cache_read_offset e, Some (EvSegment seg), true)
  else view e' = (pb_cache e, pb_cache_read_offset e, None, false)).
Proof.
  intros OK. unfold seek_stopped. do 11 pstep. simpl_set.
  destruct (seek_is_instant s e) eqn:I.
  - eapply pwp_mono; [apply seek_in_cache_view; exact OK|]. cbn beta. intros [] e' t H. pstep. apply pwp_ask. intros []. pstep; [discriminate|].
    rewrite !os_ok_app in *. destruct H as (Hp & c & seg & Ec & Es & Hv); [tauto|].
    unfold view in Hv |- *. revert Hv. simpl_set. intros Hv. injection Hv as V1 V2 V3 V4. rewrite V4. split; [exact Hp|].
    exists c, seg. split_and!; [exact Ec | exact Es | congruence].
  - eapply pwp_mono; [apply plwp_pwp, reset_eos_view|]. cbn beta. intros [] e' t Hv. pstep. apply pwp_ask. intros []. pstep; [|discriminate]. pstep. intros _.
    unfold view in Hv |- *. revert Hv. simpl_set. intros Hv. injection Hv as V1 V2 V3 V4. rewrite V4. congruence.
Qed.

Lemma seek_answered_view s accepted e : cache_well e -> plwp (seek_answered s accepted) e (fun _ e' t => os_ok t ->
  if accepted then view e' = view e
  else 0 <= sk_start s - pb_cache_read_offset e /\ exists c seg, pb_cache e = Some c /\ sg_position seg = u64 (sk_start s) /\
    view e' = (Some (c <| c_roff := sk_start s - pb_cache_read_offset e |> <| read_position := sk_start s - pb_cache_read_offset e |>),
               pb_cache_read_offset e, Some (EvSegment seg), true)).
Proof.
  intros OK. unfold seek_answered. destruct accepted; cbn [negb pwhen]; [psteps; reflexivity|].
  pstep. pstep. pstep. eapply pwp_mono; [apply seek_in_cache_view; exact OK|]. cbn beta. intros [] e' t H. psteps.
  rewrite !os_ok_app. intros T. destruct H as (Hp & c & seg & Ec & Es & Hv); [tauto|].
  unfold view in Hv |- *. revert Hv. simpl_set. intros Hv. injection Hv as V1 V2 V3 V4. split; [exact Hp|].
  exists c, seg. split_and!; [exact Ec | exact Es | congruence].
Qed.

Lemma seek_end_view s n e : pwp (seek_end s n) e (fun _ e' _ => view e' = view e).
Proof. unfold seek_end. psteps; reflexivity. Qed.

Lemma activatepush_view active e : pwp (progress_buffer_activatepush_src active) e (fun _ e' _ => view e' = view e).
Proof.
  unfold progress_buffer_activatepush_src. destruct active; pstep.
  - unfold activated. do 5 pstep. eapply pwp_mono; [apply reset_eos_view|]. cbn beta iota. intros [] e' t Hv. psteps; exact Hv.
  - unfold deactivated. psteps; reflexivity.
Qed.

Lemma set_property_view p v e : pwp (progress_buffer_set_property p v) e (fun _ e' _ => view e' = view e).
Proof. destruct p; cbn; psteps; reflexivity. Qed.
End Views.

(** ** The invariant is kept *)

Section Invariant.
Variable src : Z -> Z.

Abbreviation inv next ex e := (view_inv src next ex (view e)).

Lemma inv_well next ex e : inv next ex e -> cache_well e.
Proof. intros H c Ec. unfold view_inv, view in H. rewrite Ec in H. apply H. Qed.

Lemma inv_forget next ex e : inv next ex e -> inv next None e.
Proof.
  unfold view_inv, view. destruct (pb_cache e); [|tauto]. intros [H1 H2]. split; [exact H1|]. intros Hi. specialize (H2 Hi).
  destruct (pb_pending_src_event e) as [[]|]; (exact H2 || discriminate).
Qed.

Lemma stored_append next offset c bytes : stored_from src next offset c ->
  bytes = bytes_of src next (length bytes) -> next + Z.of_nat (length bytes) < LIMIT ->
  stored_from src (next + Z.of_nat (length bytes)) offset (append bytes c).
Proof.
  intros [H1 H2 H3 [H4 H5] H6] Hb Hl. pose proof (ok_write c H1) as Hw. destruct (append_ok bytes c H1) as [A1 A2].
  split; [exact A1 | exact H2 | cbn; lia | cbn; lia|]. rewrite A2, H6. cbn [append write_position]. rewrite Hb at 1.
  replace next with (offset + Z.of_nat (Z.to_nat (write_position c))) at 1 by lia. rewrite bytes_of_app. f_equal. lia.
Qed.

Lemma inv_append next ex e e' c bytes : inv next ex e -> pb_cache e = Some c -> view e' = set_cache (view e) (append bytes c) ->
  bytes = bytes_of src next (length bytes) -> next + Z.of_nat (length bytes) < LIMIT ->
  inv (next + Z.of_nat (length bytes)) ex e'.
Proof.
  intros H Ec -> Hb Hl. unfold view_inv, view, set_cache in *. rewrite Ec in H. destruct H as [H1 H2].
  split; [apply stored_append; assumption | exact H2].
Qed.

(** A new segment, and a seek within the cache. *)
Lemma inv_segment start ex e s c : cache_ok c -> read_position c = 0 -> write_position c = 0 -> 0 <= start < LIMIT ->
  sg_position s = start -> view e = (Some c, start, Some (EvSegment s), true) -> inv start ex e.
Proof.
  intros H1 H2 H3 H4 H5 ->. cbn [view_inv]. rewrite H2. split; [|intros _; lia].
  split; rewrite ?H2, ?H3; [exact H1 | lia | lia | lia|].
  pose proof (stored_length c H1) as L. destruct (stored c); [reflexivity | cbn in L; lia].
Qed.

Lemma inv_cache_seek next ex ex' e e' c s seg : inv next ex e -> pb_cache e = Some c -> 0 <= sk_start s < LIMIT ->
  0 <= sk_start s - pb_cache_read_offset e -> sg_position seg = u64 (sk_start s) ->
  view e' = (Some (c <| c_roff := sk_start s - pb_cache_read_offset e |> <| read_position := sk_start s - pb_cache_read_offset e |>),
             pb_cache_read_offset e, Some (EvSegment seg), true) ->
  inv next ex' e'.
Proof.
  intros H Ec Hs Hp Hg ->. unfold view_inv, view in *. rewrite Ec in H. destruct H as [[H1 H2 H3 H4 H5] _].
  rewrite u64_small in Hg by (unfold is_u64, two_p64, LIMIT in *; lia). split; [|intros _; simpl_set; lia].
  destruct H1. split; [split|..]; simpl_set; (assumption || lia).
Qed.

(** What the task finds.  In skip mode nothing is expected. *)
Lemma next_item_view `{EV : PEnv} fuel skip : forall next ex e,
  inv next ex e -> (skip = true -> ex = None) ->
  plwp (next_item fuel skip) e (fun r e' _ => forall x, r = Some x ->
    stream_ok src ex (delivered x) /\ inv next (expect_all ex (delivered x)) e' /\ (x = LWait true -> ex = None)).
Proof.
  induction fuel as [|fuel IH]; intros next ex e H Hx; [cbn; pstep; discriminate|].
  apply (next_item_round fuel skip e (fun r e' => forall x, r = Some x ->
    stream_ok src ex (delivered x) /\ inv next (expect_all ex (delivered x)) e' /\ (x = LWait true -> ex = None))).
  - eapply inv_well, H.
  - intros c _ _ _ _ x [= <-]. split_and!; [exact I | exact H | intros [= ->]; apply Hx; reflexivity].
  - intros _ x [= <-]. split_and!; [exact I | destruct skip; exact H | discriminate].
  - intros ev E1 E2 e' result. assert (V : view e' = (pb_cache e, pb_cache_read_offset e, None, pb_instant_seek e)) by reflexivity.
    assert (K : forall ex', (ex' = ex \/ ex' = None) -> (forall s, ev <> EvSegment s) -> inv next ex' e').
    { intros ex' Hex Hs. rewrite V. unfold view_inv, view in *. rewrite E2 in H. destruct (pb_cache e); [|destruct H; discriminate].
      destruct H as [H1 H2]. split; [exact H1|]. intros Hi. specialize (H2 Hi).
      destruct Hex as [-> | ->]; [|discriminate]. destruct ev; (exact H2 || destruct (Hs _ eq_refl)). }
    destruct (negb (known_event ev) && skip) eqn:B.
    + apply andb_prop in B as [B ->]. rewrite (Hx eq_refl) in *. apply IH; [|auto].
      apply K; [auto|]. intros s ->. discriminate.
    + intros x [= <-]. split; [destruct ev; cbn; tauto|]. split; [|discriminate].
      destruct ev as [|s| | | | | | |]; try (apply (K ex); [auto | discriminate]).
      unfold view_inv, view in *. rewrite E2 in H. subst e'. simpl_set. destruct (pb_cache e); [|destruct H; discriminate].
      destruct H as [H1 H2]. split; [exact H1|]. intros Hi o [= <-]. apply H2, Hi.
  - intros c bytes pts dts E1 E2 E3 Ee Ei n Hn Hw Hb. set (off := pb_cache_read_offset e).
    assert (S : stored_from src next off c /\ (forall o, ex = Some o -> o = off + read_position c)).
    { unfold view_inv, view in H. rewrite E2, E3, Ei in H. destruct H as [H1 H2]. split; [exact H1 | apply H2; reflexivity]. }
    destruct S as [[S1 S2 S3 S4 S5] Sx]. pose proof (ok_read c S1) as Hr.
    assert (Hn64 : u64 (read_position c + n + off) = read_position c + n + off)
      by (apply u64_small; unfold is_u64, two_p64, LIMIT in *; lia).
    assert (K : forall ex', (forall o, ex' = Some o -> o = off + (read_position c + n)) -> inv next ex' (after_read c n e)).
    { intros ex' He'. unfold after_read, eos_if. destruct (_ =? _);
        unfold view_inv, view; simpl_set; rewrite ?E2;
        (split; [|intros _; exact He']); destruct (advance_ok n c ltac:(lia) S1) as [A1 A2];
        (split; [exact A1 | exact S2 | exact S3 | fold off; change (read_position (advance_read n c)) with (read_position c + n); lia | rewrite A2; exact S5]). }
    destruct skip.
    + rewrite (Hx eq_refl) in *. apply IH; [apply K; discriminate | auto].
    + intros x [= <-]. fold off. rewrite Hn64. replace (read_position c + n + off - n) with (off + read_position c) by lia.
      rewrite u64_small by (unfold is_u64, two_p64, LIMIT in *; lia). cbn [delivered stream_ok faithful expect_all fold_left expect_after].
      unfold db_size. cbn [db_offset db_data]. fold n. split_and!; try exact I; try discriminate; try lia.
      * rewrite Hb at 1. rewrite S5, bytes_of_slice by lia. f_equal. lia.
      * intros o Ho. specialize (Sx o Ho). lia.
      * apply K. intros o. destruct ex as [o'|]; [|discriminate]. specialize (Sx o' eq_refl). intros [= <-]. lia.
Qed.

(** The invariant of a configuration whose downstream expects [ex]. *)
Definition conf_inv (ex : option Z) (c : conf) : Prop :=
  inv (cf_next c) ex (cf_element c) /\ (cf_task c = At (LWait true) -> ex = None).

Lemma conf_with ex c e' : conf_inv ex c -> inv (cf_next c) ex e' -> conf_inv ex (with_element c e').
Proof. intros [_ H2] H. split; assumption. Qed.
Lemma conf_view ex c e' sk : conf_inv ex c -> view e' = view (cf_element c) -> conf_inv ex (mkConf e' (cf_task c) (cf_next c) sk).
Proof. intros [H1 H2] Hv. split; [cbn [cf_next cf_element]; rewrite Hv; exact H1 | exact H2]. Qed.

(** A step keeps the invariant and delivers what is expected. *)
Definition step_fine (ex : option Z) (ds : list delivery) (c' : conf) : Prop :=
  stream_ok src ex ds /\ conf_inv (expect_all ex ds) c'.
Lemma silent_step ex c' : conf_inv ex c' -> step_fine ex [] c'.
Proof. split; [exact I | assumption]. Qed.

Lemma fine_buffer ex c b r e' t : conf_inv ex c ->
  db_offset b = cf_next c -> db_data b = bytes_of src (cf_next c) (length (db_data b)) -> cf_next c + db_size b < LIMIT ->
  runs (fun E => @progress_buffer_chain E b) (cf_element c) r e' t -> os_ok t ->
  conf_inv ex (mkConf e' (cf_task c) (if bool_decide (r = FLOW_OK) then cf_next c + db_size b else cf_next c) (cf_seek c)).
Proof.
  intros [H1 H2] _ Hb Hl R T. split; [|exact H2]. cbn [cf_next cf_element].
  pose proof (runs_plwp _ _ _ _ _ _ (fun E => @chain_view E b _ (inv_well _ _ _ H1)) R) as V. cbn beta in V.
  destruct V as [(-> & d & k & Ec & Hv & Hk)|[Hr Hv]].
  - rewrite bool_decide_eq_true_2 by reflexivity. rewrite (Hk (os_ok_complete t T)) in Hv. eapply inv_append; eassumption.
  - rewrite bool_decide_eq_false_2 by exact Hr. rewrite Hv. exact H1.
Qed.

Lemma fine_segment ex c s r e' t : conf_inv ex c ->
  sg_format s = FORMAT_BYTES -> 0 <= sg_start s < sg_stop s -> sg_stop s < LIMIT -> sg_position s = sg_start s ->
  (Z.land (sg_flags s) SEGMENT_FLAG_UPDATE = SEGMENT_FLAG_UPDATE -> sg_start s = pb_cache_read_offset (cf_element c)) ->
  pb_eos (cf_element c) = false ->
  runs (fun E => @progress_buffer_sink_event E (EvSegment s)) (cf_element c) r e' t -> os_ok t ->
  conf_inv ex (mkConf e' (cf_task c) (sg_start s) (cf_seek c)).
Proof.
  intros [H1 H2] Hf Hr Hl Hp Hu He R. revert e' t R. assert (K : forall E : PEnv,
    plwp (@progress_buffer_sink_event E (EvSegment s)) (cf_element c) (fun _ e' t => os_ok t -> inv (sg_start s) ex e')).
  { intros E. unfold progress_buffer_sink_event. pstep. pstep. pstep; [cbn [is_flush] in *; bools; discriminate|].
    pstep; [|cbn in *; discriminate]. pstep. pstep. pstep. pstep. pstep. rewrite He. pstep. cbn [enqueue_event].
    eapply pwp_mono; [apply enqueue_segment_view; [eapply inv_well, H1 | exact Hf | exact Hr | exact Hl]|]. cbn beta.
    intros r1 e1 t1 Hc. psteps. rewrite !os_ok_app. intros T.
    destruct Hc as (d & D1 & D2 & D3 & Hv); [tauto|].
    apply (inv_segment _ _ _ s d); [exact D1 | exact D2 | exact D3 | lia | exact Hp|]. rewrite Hv.
    destruct (_ =? _) eqn:B; bools; [rewrite Hu by exact B|]; reflexivity. }
  intros e' t R T. split; [|exact H2]. exact (runs_plwp _ _ _ _ _ _ K R T).
Qed.

Lemma fine_sink_event ex c ev r e' t : conf_inv ex c ->
  (forall s, ev = EvSegment s -> pb_eos (cf_element c) = true) ->
  runs (fun E => @progress_buffer_sink_event E ev) (cf_element c) r e' t ->
  step_fine ex (lost (cf_element c) e') (with_element c e').
Proof.
  intros [H1 H2] Hs R.
  pose proof (runs_plwp _ _ _ _ _ _ (fun E => @sink_event_view E ev _ Hs) R) as V. cbn beta in V.
  unfold step_fine, lost. destruct V as [V | V].
  - replace (pending_segment e') with (pending_segment (cf_element c)) by (unfold pending_segment; injection V as _ _ -> _; reflexivity).
    rewrite andb_negb_r. apply silent_step, conf_with; [split; assumption|]. rewrite V. exact H1.
  - replace (pending_segment e') with false by (unfold pending_segment; injection V as _ _ -> _; reflexivity). rewrite andb_true_r.
    assert (K : forall ex', (ex' = ex \/ ex' = None) -> (pending_segment (cf_element c) = true -> ex' = None) -> conf_inv ex' (with_element c e')).
    { intros ex' Hx Hp. split; [|intros T; specialize (H2 T); destruct Hx; congruence]. cbn [cf_next cf_element with_element]. rewrite V.
      unfold view_inv, view, pending_segment in *. destruct (pb_cache _); [|destruct H1, Hx; split; congruence].
      destruct H1 as [K1 K2]. split; [exact K1|]. intros Hi o E. specialize (K2 Hi). destruct Hx as [-> | ->]; [|discriminate].
      destruct (pb_pending_src_event _) as [[]|]; try (apply K2, E). specialize (Hp eq_refl). congruence. }
    destruct (pending_segment (cf_element c)); (split; [repeat split|]); apply K; auto; discriminate.
Qed.

(** The task goes on from [m]. *)
Lemma fine_task (m : forall E : PEnv, PM ProgressBuffer (option loop_exit)) ex c x e' t :
  (forall E : PEnv, plwp (m E) (cf_element c) (fun r e' _ => forall x, r = Some x ->
     stream_ok src ex (delivered x) /\ inv (cf_next c) (expect_all ex (delivered x)) e' /\ (x = LWait true -> ex = None))) ->
  runs m (cf_element c) (Some x) e' t ->
  step_fine ex (delivered x) (mkConf e' (At x) (cf_next c) (cf_seek c)).
Proof.
  intros Hm R. destruct (runs_plwp m _ _ _ _ _ Hm R x eq_refl) as (H1 & H2 & H3).
  split; [exact H1|]. split; [exact H2|]. cbn [cf_task]. intros [= ->]. apply H3. reflexivity.
Qed.

Lemma runs_view {A} (m : forall E : PEnv, PM ProgressBuffer A) e r e' t :
  (forall E : PEnv, pwp (m E) e (fun _ e' _ => view e' = view e)) -> runs m e r e' t -> view e' = view e.
Proof. intros H. apply (runs_plwp m e r e' t (fun _ e' _ => view e' = view e)). intros E. apply plwp_pwp, H. Qed.

Lemma fine_push_buffer fuel ex c b x e' t : conf_inv ex c ->
  runs (fun E => @loop_push_buffer E fuel b) (cf_element c) (Some x) e' t ->
  step_fine ex (if existsb refusal t then DRefused :: delivered x else delivered x) (mkConf e' (At x) (cf_next c) (cf_seek c)).
Proof.
  intros [H1 H2] R. set (e := cf_element c) in *.
  assert (K : forall E : PEnv, plwp (@loop_push_buffer E fuel b) e (fun r e' t => forall x, r = Some x ->
    let ex' := if existsb refusal t then None else ex in
    stream_ok src ex' (delivered x) /\ inv (cf_next c) (expect_all ex' (delivered x)) e' /\ (x = LWait true -> ex' = None))).
  { intros E. unfold loop_push_buffer. pstep. pstep. destruct r.
    all: try solve [psteps; intros x1 [= <-]; cbn [delivered stream_ok expect_all fold_left]; split; [exact I|];
      (split; [|discriminate]); (destruct (existsb _ _); [eapply inv_forget, H1 | exact H1])].
    pstep. pstep. eapply pwp_mono; [apply (next_item_view fuel true (cf_next c) None e); [eapply inv_forget, H1 | reflexivity]|].
    cbn beta. intros r1 e1 t1 H x1 ->. cbn [app existsb refusal]. rewrite bool_decide_eq_true_2 by reflexivity. apply H. reflexivity. }
  pose proof (runs_plwp _ _ _ _ _ _ K R x eq_refl) as V. cbv zeta in V. destruct (existsb refusal t); destruct V as (V1 & V2 & V3).
  - split; [split; [exact I | exact V1]|]. split; [exact V2|]. cbn [cf_task]. intros [= ->]. reflexivity.
  - split; [exact V1|]. split; [exact V2|]. cbn [cf_task]. intros [= ->]. apply V3. reflexivity.
Qed.

Lemma fine_own ex c ds c' : conf_inv ex c -> pb_own c ds c' -> step_fine ex ds c'.
Proof.
  intros H S. pose proof (inv_well _ _ _ (proj1 H)) as OK. destruct S.
  - eapply fine_task; [|eassumption]. intros E. unfold loop_enter. pstep. pstep.
    apply next_item_view; [apply H | discriminate].
  - eapply fine_task; [|eassumption]. intros E. apply next_item_view; [apply H|]. intros ->. apply H. assumption.
  - pose proof (fun E => ltac:(unfold loop_push_event; psteps; split; [eexists; reflexivity | reflexivity]) :
      @pwpf E True _ _ (@loop_push_event E ev result) (cf_element c)
        (fun r e' _ => (exists y, r = Some (LDone y)) /\ view e' = view (cf_element c))) as K.
    apply (runs_plwp _ _ _ _ _ _ K) in H1 as [[y [= ->]] Hv]. apply silent_step. destruct H as [H H'].
    split; cbn [cf_next cf_element cf_task]; [rewrite Hv; exact H | discriminate].
  - eapply fine_push_buffer; eassumption.
  - pose proof (fun E => ltac:(unfold loop_finish; psteps; reflexivity) :
      @pwpf E True _ _ (@loop_finish E result) (cf_element c) (fun _ e' _ => view e' = view (cf_element c))) as K.
    apply (runs_plwp _ _ _ _ _ _ K) in H1. apply silent_step. destruct H as [H H'].
    split; cbn [cf_next cf_element cf_task]; [rewrite H1; exact H | discriminate].
  - apply silent_step, conf_view; [exact H|]. eapply runs_view; [|eassumption]. intros E. apply seek_begin_view.
  - pose proof (runs_plwp _ _ _ _ _ _ (fun E => @seek_stopped_view E s _ OK) ltac:(eassumption) ltac:(assumption)) as V.
    apply silent_step. destruct H as [H H']. split; [cbn [cf_next cf_element]|exact H']. destruct (pb_instant_seek e').
    + destruct V as (Hp & d & seg & Ec & Es & Hv). eapply inv_cache_seek; eassumption.
    + rewrite V. unfold view_inv, view in *. destruct (pb_cache _); [split; [apply H | discriminate] | tauto].
  - pose proof (runs_plwp _ _ _ _ _ _ (fun E => @seek_answered_view E s accepted _ OK) ltac:(eassumption) ltac:(assumption)) as V.
    cbn beta in V. apply silent_step. destruct accepted; [apply conf_view; assumption|].
    destruct H as [H H'], V as (Hp & d & seg & Ec & Es & Hv). split; [|exact H']. eapply inv_cache_seek; eassumption.
  - apply silent_step, conf_view; [exact H|]. eapply runs_view; [|eassumption]. intros E. apply seek_end_view.
  - apply silent_step, conf_view; [exact H|]. eapply runs_view; [|eassumption]. intros E. apply activatepush_view.
  - apply silent_step, conf_view; [exact H|]. eapply runs_view; [|eassumption]. intros E. apply set_property_view.
Qed.

Lemma fine_step ex c ds c' : conf_inv ex c -> pb_step src c ds c' -> step_fine ex ds c'.
Proof.
  intros H S. destruct S.
  - apply silent_step. eapply fine_buffer; eassumption.
  - apply silent_step. eapply fine_segment; eassumption.
  - eapply fine_sink_event; eassumption.
  - eapply fine_own; eassumption.
Qed.

Lemma stream_ok_app ds ds' : forall ex, stream_ok src ex ds -> stream_ok src (expect_all ex ds) ds' -> stream_ok src ex (ds ++ ds').
Proof. induction ds as [|d ds IH]; intros ex; [auto|]. intros [H1 H2] H. split; [exact H1|]. apply IH; assumption. Qed.

Lemma fine_exec ex c ds c' : conf_inv ex c -> pb_exec src c ds c' -> stream_ok src ex ds.
Proof.
  intros H X. revert ex H. induction X as [c|c ds c' ds' c'' S _ IH]; intros ex H; [exact I|].
  destruct (fine_step _ _ _ _ H S) as [H1 H2]. apply stream_ok_app; [exact H1 | apply IH, H2].
Qed.
End Invariant.

(** A new element, before the source is linked. *)
Definition conf_init : conf := mkConf progress_buffer_init Idle 0 None.

Lemma init_view : view progress_buffer_init = (None, 0, None, false).
Proof. vm_compute. reflexivity. Qed.
Lemma init_inv src : conf_inv src None conf_init.
Proof. unfold conf_inv, conf_init. cbn [cf_next cf_element cf_task]. rewrite init_view. split; [split; reflexivity | discriminate]. Qed.


Definition demo_src (o : Z) : Z := o mod 251.
Definition demo_segment : GstSegment :=
  gst_segment_init FORMAT_BYTES <| sg_stop := 200 |> <| sg_flags := SEGMENT_FLAG_UPDATE |>.
Definition demo_buffer : DataBuffer := mkDataBuffer 0 (bytes_of demo_src 0 8) false GST_CLOCK_TIME_NONE GST_CLOCK_TIME_NONE.


(** End of stream before the segment was pushed makes downstream lose it:
    the pending event is cleared, and the first thing the task pushes is data. *)
Theorem eos_drops_segment : exists r1 r2 r3 e1 e2 e3 e4 t1 t2 t3 t4,
  runs (fun E => @progress_buffer_sink_event E (EvSegment demo_segment)) progress_buffer_init r1 e1 t1 /\
  runs (fun E => @progress_buffer_chain E demo_buffer) e1 r2 e2 t2 /\
  runs (fun E => @progress_buffer_sink_event E EvEos) e2 r3 e3 t3 /\
  runs (fun E => @loop_enter E 5) e3 (Some (LBuffer demo_buffer)) e4 t4.
Proof. do 11 eexists. split; [run_nominal|]. split; [run_nominal|]. split; [run_nominal|]. run_nominal. Qed.
