(* ===== verification/HLSBuffer.v ===== *)
(** * The HLS buffer ([plugins/progressbuffer/hlsprogressbuffer.c])

    Between the Java source and the parser of an HTTP live stream: a ring of
    three cache files, one per segment of the playlist.  The source's thread
    fills the slot at the write index, a task on the source pad drains the slot
    at the read index.  Functions that release the lock are split there. *)

From S2P Require Import Prelude CFloat MediaTypes GstApi PluginApi FileCache Bus.
Local Open Scope Z_scope.
Local Open Scope plugin_scope.

Definition NUM_OF_CACHED_SEGMENTS : Z := 3.

(** One index of the four parallel arrays. *)
Record HLSSlot := mkHLSSlot {
  hs_cache : option Cache;
  hs_size : Z;
  hs_write_ready : bool;
  hs_discont : bool }.
#[export] Instance eta_HLSSlot : Eta HLSSlot :=
  eta_ap (eta_ap (eta_ap (eta_ap (eta_pure mkHLSSlot) hs_cache) hs_size) hs_write_ready) hs_discont.

(** [struct _HLSProgressBuffer]; [set_src_caps] is set and never read. *)
Record HLSProgressBuffer := mkHLSProgressBuffer {
  hb_slots : list HLSSlot;
  hb_write_index : Z;
  hb_read_index : Z;
  hb_send_new_segment : bool;
  hb_set_src_caps : bool;
  hb_is_flushing : bool;
  hb_is_eos : bool;
  hb_srcresult : GstFlow;
  hb_buffer_pts : Z }.
#[export] Instance eta_HLSProgressBuffer : Eta HLSProgressBuffer :=
  eta_ap (eta_ap (eta_ap (eta_ap (eta_ap (eta_ap (eta_ap (eta_ap (eta_ap (eta_pure mkHLSProgressBuffer)
    hb_slots) hb_write_index) hb_read_index) hb_send_new_segment) hb_set_src_caps) hb_is_flushing) hb_is_eos)
    hb_srcresult) hb_buffer_pts.

(** An index into an array of C: nothing below zero or past the end. *)
Definition array_at {A} (i : Z) (l : list A) : option A := if i <? 0 then None else l !! Z.to_nat i.
Definition slot_at (i : Z) (e : HLSProgressBuffer) : option HLSSlot := array_at i (hb_slots e).
Definition put_slot (i : Z) (s : HLSSlot) (e : HLSProgressBuffer) : HLSProgressBuffer :=
  e <| hb_slots := <[Z.to_nat i := s]> (hb_slots e) |>.
Definition next_index (i : Z) : Z := Z.rem (i + 1) NUM_OF_CACHED_SEGMENTS.

Section Element.
Context `{EV : PEnv}.
Abbreviation M := (PM HLSProgressBuffer).

Definition on_slot {A} (i : Z) (m : PM HLSSlot A) : M A := zoom (slot_at i) (put_slot i) m.
Definition in_cache {A} (m : PM Cache A) : PM HLSSlot A := zoom hs_cache (fun c s => s <| hs_cache := Some c |>) m.

Definition send_message (name : string) : M unit :=
  ask (post_message (GST_MESSAGE_APPLICATION (mkStructure name []))).
Definition send_hls_resume_message : M unit := send_message HLS_PB_MESSAGE_RESUME.
Definition send_hls_eos_message : M unit := send_message HLS_PB_MESSAGE_HLS_EOS.
Definition send_hls_full_message : M unit := send_message HLS_PB_MESSAGE_FULL.
Definition send_hls_not_full_message : M unit := send_message HLS_PB_MESSAGE_NOT_FULL.

(** ** Life cycle *)

Definition new_slot {S} : PM S HLSSlot :=
  let* cache := create_cache in pret (mkHLSSlot cache 0 true false).

(** The loop over the three slots. *)
Definition hls_progress_buffer_init : PM unit HLSProgressBuffer :=
  let* s0 := new_slot in
  let* s1 := new_slot in
  let* s2 := new_slot in
  pret (mkHLSProgressBuffer [s0; s1; s2] (-1) 0 true true false false FLOW_OK GST_CLOCK_TIME_NONE).

Fixpoint destroy_slots (slots : list HLSSlot) : M unit :=
  match slots with
  | [] => pret tt
  | s :: slots => match hs_cache s with Some _ => destroy_cache | None => pret tt end ;; destroy_slots slots
  end.
Definition hls_progress_buffer_finalize : M unit :=
  let* e := pgets (fun e => e) in destroy_slots (hb_slots e).

Definition hls_progress_buffer_activatepush_src (active : bool) : M bool :=
  if active then
    ask g_mutex_lock ;;
    hb_srcresult <~ FLOW_OK ;;
    ask g_mutex_unlock ;;
    let* linked := ask pad_is_linked in
    if linked then ask pad_start_task else pret true
  else
    ask g_mutex_lock ;;
    hb_srcresult <~ FLOW_FLUSHING ;;
    ask (g_cond_signal AddCond) ;;
    ask (g_cond_signal DelCond) ;;
    ask g_mutex_unlock ;;
    ask pad_stop_task.

Definition hls_progress_buffer_activatemode (mode : PadMode) (active : bool) : M bool :=
  match mode with
  | PAD_MODE_PUSH => hls_progress_buffer_activatepush_src active
  | _ => pret false
  end.

(** The body of the loop of [hls_progress_buffer_flush_data]. *)
Definition flush_slot : PM HLSSlot unit :=
  let* s := pgets (fun s => s) in
  match hs_cache s with
  | Some _ =>
      in_cache (cache_set_write_position 0) ;;
      in_cache (cache_set_read_position 0) ;;
      hs_size <~ 0 ;;
      hs_write_ready <~ true
  | None => pret tt
  end.
Definition hls_progress_buffer_flush_data : M unit :=
  ask g_mutex_lock ;;
  hb_srcresult <~ FLOW_FLUSHING ;;
  ask (g_cond_signal AddCond) ;;
  ask (g_cond_signal DelCond) ;;
  hb_write_index <~ -1 ;;
  hb_read_index <~ 0 ;;
  on_slot 0 flush_slot ;; on_slot 1 flush_slot ;; on_slot 2 flush_slot ;;
  ask g_mutex_unlock.

Definition hls_progress_buffer_change_state (transition : StateChange) : M GstStateChangeReturn :=
  match transition with PAUSED_TO_READY => hls_progress_buffer_flush_data | _ => pret tt end ;;
  ask parent_change_state.

(** ** Data from the source *)

Definition hls_progress_buffer_chain (data : DataBuffer) : M GstFlow :=
  let* e := pgets (fun e => e) in
  if hb_is_flushing e || hb_is_eos e then ask buffer_unref ;; pret FLOW_FLUSHING
  else
    ask g_mutex_lock ;;
    let* e := pgets (fun e => e) in
    pwhen (negb (bool_decide (hb_srcresult e = FLOW_FLUSHING)))
      (on_slot (hb_write_index e) (pwhen (db_discont data) (hs_discont <~ true) ;; in_cache (cache_write_buffer data)) ;;
       ask (g_cond_signal AddCond)) ;;
    ask g_mutex_unlock ;;
    ask buffer_unref ;;
    pret FLOW_OK.

(** ** The task of the source pad *)

(** Where the function stands when it releases the lock. *)
Inductive hls_exit :=
| HWait
| HPush (b : DataBuffer)
| HDone (result : GstFlow).

(** From the test of the wait loop to the next release of the lock. *)
Definition hls_next : M hls_exit :=
  let* e := pgets (fun e => e) in
  let* wait :=
    (if bool_decide (hb_srcresult e = FLOW_OK) then
       let* enough := on_slot (hb_read_index e) (in_cache (pgets cache_has_enough_data)) in pret (negb enough)
     else pret false) in
  if wait && negb (hb_is_eos e) then pret HWait
  else
    pwhen wait (ask (pad_push_event SrcPad EvEos) ;; hb_srcresult <~ FLOW_FLUSHING) ;;
    let* result := pgets hb_srcresult in
    if bool_decide (result = FLOW_OK) then
      let i := hb_read_index e in
      let* '(read_position, buffer) := on_slot i (in_cache cache_read_buffer) in
      match buffer with
      | None => pfault
      | Some buffer =>
          let* s := on_slot i (let* s := pgets (fun s => s) in pwhen (hs_discont s) (hs_discont <~ false) ;; pret s) in
          let buffer := if hs_discont s then buffer <| db_discont := true |> else buffer in
          pwhen (read_position =? hs_size s)
            (on_slot i (hs_write_ready <~ true) ;;
             hb_read_index <~ next_index i ;;
             send_hls_not_full_message ;;
             ask (g_cond_signal DelCond)) ;;
          let pts := hb_buffer_pts e in
          let stamped := negb (pts =? GST_CLOCK_TIME_NONE) in
          pwhen stamped (hb_buffer_pts <~ GST_CLOCK_TIME_NONE) ;;
          ask g_mutex_unlock ;;
          pret (HPush (if stamped then buffer <| db_pts := pts |> <| db_dts := pts |> else buffer))
      end
    else ask g_mutex_unlock ;; pret (HDone result).

(** The start of the function, the push of the buffer, the end. *)
Definition hls_enter : M hls_exit := ask g_mutex_lock ;; hls_next.
Definition hls_push (b : DataBuffer) : M hls_exit :=
  let* result := ask (pad_push b) in
  ask g_mutex_lock ;;
  let* src := pgets hb_srcresult in
  let keep := bool_decide (src = FLOW_OK) || negb (bool_decide (result = FLOW_OK)) in
  pwhen keep (hb_srcresult <~ result) ;;
  ask g_mutex_unlock ;;
  pret (HDone (if keep then result else src)).
Definition hls_finish (result : GstFlow) : M unit :=
  let* flushing := pgets hb_is_flushing in
  pwhen (negb (bool_decide (result = FLOW_OK)) && negb flushing) (ask pad_pause_task).

(** ** Events from the source *)

(** Where the segment handler stands: the event is refused, the lock is
    released to announce a full ring, or the slot is taken. *)
Inductive segment_exit := SegRefused | SegFull | SegTaken.

(** Up to the second critical section; [false] when the event is dropped. *)
Definition segment_begin (segment : GstSegment) : M bool :=
  ask g_mutex_lock ;;
  let* e := pgets (fun e => e) in
  if negb (bool_decide (hb_srcresult e = FLOW_OK)) then
    ask (event_unref (EvSegment segment)) ;; ask g_mutex_unlock ;; pret false
  else
    ask g_mutex_unlock ;;
    pwhen (hb_is_eos e)
      (hb_is_eos <~ false ;;
       hb_srcresult <~ FLOW_OK ;;
       let* linked := ask pad_is_linked in
       pwhen linked (ask pad_start_task ;; pret tt)) ;;
    ask (event_unref (EvSegment segment)) ;;
    pret true.

(** The segment that downstream sees: the source sets the position in time. *)
Definition time_segment (segment : GstSegment) : GstSegment :=
  gst_segment_init FORMAT_TIME <| sg_flags := sg_flags segment |> <| sg_rate := sg_rate segment |>
    <| sg_start := sg_start segment |> <| sg_stop := UNKNOWN_64 |> <| sg_position := sg_position segment |>
    <| sg_time := sg_time segment |>.
Definition segment_push (segment : GstSegment) : M bool :=
  let* send := pgets hb_send_new_segment in
  if send then
    hb_buffer_pts <~ sg_position segment ;;
    hb_send_new_segment <~ false ;;
    ask (pad_push_event SrcPad (EvSegment (time_segment segment)))
  else pret true.

(** The test of the wait loop, and what follows the loop. *)
Definition segment_take (segment : GstSegment) : M segment_exit :=
  let* e := pgets (fun e => e) in
  let* wait :=
    (if bool_decide (hb_srcresult e = FLOW_OK) then
       let* ready := on_slot (hb_write_index e) (pgets hs_write_ready) in pret (negb ready)
     else pret false) in
  if wait then ask g_mutex_unlock ;; pret SegFull
  else
    on_slot (hb_write_index e)
      (hs_size <~ u32 (sg_stop segment) ;;
       hs_write_ready <~ false ;;
       in_cache (cache_set_write_position 0) ;;
       in_cache (cache_set_read_position 0) ;; pret tt) ;;
    ask g_mutex_unlock ;;
    send_hls_resume_message ;;
    pret SegTaken.

Definition segment_next (segment : GstSegment) : M segment_exit :=
  ask g_mutex_lock ;;
  pmodify (fun e => e <| hb_write_index := next_index (hb_write_index e) |>) ;;
  segment_take segment.
(** The ring was full: the message goes out without the lock, then the thread
    waits whatever happened in between. *)
Definition segment_full : M unit := send_hls_full_message ;; ask g_mutex_lock.
Definition segment_wake (segment : GstSegment) : M segment_exit :=
  let* result := pgets hb_srcresult in
  if bool_decide (result = FLOW_OK) then segment_take segment
  else ask g_mutex_unlock ;; pret SegRefused.

(** The flush is announced first; the data goes when downstream has let go. *)
Definition flush_start_begin (seqnum : Z) : M bool :=
  ask g_mutex_lock ;;
  hb_is_flushing <~ true ;;
  ask g_mutex_unlock ;;
  ask (pad_push_event SrcPad (EvFlushStart seqnum)).
Definition flush_start_end : M unit :=
  hls_progress_buffer_flush_data ;;
  let* linked := ask pad_is_linked in
  pwhen linked (ask pad_pause_task).

Definition flush_stop (seqnum : Z) : M bool :=
  let* ret := ask (pad_push_event SrcPad (EvFlushStop seqnum)) in
  ask g_mutex_lock ;;
  hb_send_new_segment <~ true ;;
  hb_is_flushing <~ false ;;
  hb_srcresult <~ FLOW_OK ;;
  let* eos := pgets hb_is_eos in
  pwhen (negb eos)
    (let* linked := ask pad_is_linked in
     pwhen linked (ask pad_start_task ;; pret tt)) ;;
  ask g_mutex_unlock ;;
  pret ret.

Definition end_of_stream : M bool :=
  send_hls_eos_message ;;
  ask g_mutex_lock ;;
  hb_is_eos <~ true ;;
  ask (g_cond_signal AddCond) ;;
  ask g_mutex_unlock ;;
  ask (event_unref EvEos) ;;
  pret true.

(** The handler when no other thread comes between; [None] where it is left
    waiting for a slot. *)
Definition hls_progress_buffer_sink_event (ev : GstEvent) : M (option bool) :=
  match ev with
  | EvSegment segment =>
      let* begun := segment_begin segment in
      if negb begun then pret (Some true)
      else
        let* ret := segment_push segment in
        let* exit := segment_next segment in
        match exit with
        | SegFull => segment_full ;; pret None
        | _ => pret (Some ret)
        end
  | EvFlushStart seqnum => let* ret := flush_start_begin seqnum in flush_start_end ;; pret (Some ret)
  | EvFlushStop seqnum => let* ret := flush_stop seqnum in pret (Some ret)
  | EvEos => let* ret := end_of_stream in pret (Some ret)
  | _ => let* ret := ask (pad_push_event SrcPad ev) in pret (Some ret)
  end.
End Element.
