(* ===== verification/HLSRing.v ===== *)
(** * The ring of the HLS buffer is a queue of segments

    Every interleaving of the source's thread, the task and flushes keeps the
    three slots in step with a queue of at most three segments
    ([ring]); what the task pushes downstream is what the source wrote, in
    order, with nothing lost, repeated or overwritten before it was read
    ([hls_ring_is_queue]). *)

From S2P Require Import Prelude CFloat MediaTypes GstApi PluginApi FileCache Bus HLSBuffer.
Local Open Scope Z_scope.
Local Open Scope plugin_scope.

(** ** The queue *)

(** A segment: the size its event announced, the bytes written so far and how
    many of them the task has read. *)
Record HLSSegment := mkHLSSegment { hg_size : Z; hg_bytes : list Z; hg_taken : Z }.
Definition unread (g : HLSSegment) : list Z := skipn (Z.to_nat (hg_taken g)) (hg_bytes g).
Definition queued (q : list HLSSegment) : list Z := concat (map unread q).

(** ** The system *)

(** Where the task and the source's thread are. *)
Inductive htask := HIdle | HAt (x : hls_exit).
Inductive hwriter := WIdle | WBegun (s : GstSegment) | WPushed (s : GstSegment) | WFull (s : GstSegment) | WWait (s : GstSegment).
Inductive hflush := NotFlushing | FlushBegun | Flushed.
#[export] Instance hflush_eq_dec : EqDecision hflush.
Proof. solve_decision. Defined.

(** [hc_left]: the bytes the source still owes the segment it announced.
    [hc_written], [hc_delivered]: what was accepted from the source and what
    was pushed downstream since the last flush. *)
Record hconf := mkHConf {
  hc_element : HLSProgressBuffer;
  hc_task : htask;
  hc_writer : hwriter;
  hc_flush : hflush;
  hc_left : Z;
  hc_written : list Z;
  hc_delivered : list Z }.
#[export] Instance eta_hconf : Eta hconf :=
  eta_ap (eta_ap (eta_ap (eta_ap (eta_ap (eta_ap (eta_ap (eta_pure mkHConf)
    hc_element) hc_task) hc_writer) hc_flush) hc_left) hc_written) hc_delivered.

(** A buffer that the chain function stores. *)
Definition accepts (e : HLSProgressBuffer) : bool :=
  negb (hb_is_flushing e || hb_is_eos e) && negb (bool_decide (hb_srcresult e = FLOW_FLUSHING)).

Definition pushed (x : hls_exit) : list Z := match x with HPush b => db_data b | _ => [] end.
Definition at_task (c : hconf) (e : HLSProgressBuffer) (x : hls_exit) : hconf :=
  c <| hc_element := e |> <| hc_task := HAt x |> <| hc_delivered := hc_delivered c ++ pushed x |>.
(** The source's thread after it asked for a slot. *)
Definition after_take (c : hconf) (s : GstSegment) (e : HLSProgressBuffer) (x : segment_exit) : hconf :=
  match x with
  | SegRefused => c <| hc_element := e |> <| hc_writer := WIdle |> <| hc_left := sg_stop s |>
  | SegFull => c <| hc_element := e |> <| hc_writer := WFull s |>
  | SegTaken => c <| hc_element := e |> <| hc_writer := WIdle |> <| hc_left := sg_stop s |>
  end.

(** One step of one thread, between activation and deactivation of the pads.
    The source never sends more than the segment announced, announces segments
    below four gigabytes, and sends FLUSH_STOP on its streaming thread after
    FLUSH_START was handled. *)
Inductive hls_step (c : hconf) : hconf -> Prop :=
| hstep_chain b r e' t :
    hc_writer c = WIdle -> (accepts (hc_element c) = true -> 0 < db_size b <= hc_left c) ->
    runs (fun E => @hls_progress_buffer_chain E b) (hc_element c) r e' t -> os_ok t ->
    hls_step c (if accepts (hc_element c)
                then c <| hc_element := e' |> <| hc_left := hc_left c - db_size b |> <| hc_written := hc_written c ++ db_data b |>
                else c <| hc_element := e' |>)
| hstep_begin s r e' t :
    hc_writer c = WIdle -> 0 <= sg_stop s < two_p32 ->
    runs (fun E => @segment_begin E s) (hc_element c) r e' t ->
    hls_step c (c <| hc_element := e' |> <| hc_writer := if r then WBegun s else WIdle |>
                  <| hc_left := if r then hc_left c else sg_stop s |>)
| hstep_push_segment s r e' t :
    hc_writer c = WBegun s -> runs (fun E => @segment_push E s) (hc_element c) r e' t ->
    hls_step c (c <| hc_element := e' |> <| hc_writer := WPushed s |>)
| hstep_next s x e' t :
    hc_writer c = WPushed s -> 0 <= sg_stop s < two_p32 ->
    runs (fun E => @segment_next E s) (hc_element c) x e' t -> os_ok t ->
    hls_step c (after_take c s e' x)
| hstep_full s e' t :
    hc_writer c = WFull s -> runs (fun E => @segment_full E) (hc_element c) tt e' t ->
    hls_step c (c <| hc_element := e' |> <| hc_writer := WWait s |>)
| hstep_segment_wake s x e' t :
    hc_writer c = WWait s -> 0 <= sg_stop s < two_p32 ->
    runs (fun E => @segment_wake E s) (hc_element c) x e' t -> os_ok t ->
    hls_step c (after_take c s e' x)
| hstep_eos r e' t :
    hc_writer c = WIdle -> runs (fun E => @end_of_stream E) (hc_element c) r e' t ->
    hls_step c (c <| hc_element := e' |>)
| hstep_enter x e' t :
    hc_task c = HIdle -> runs (fun E => @hls_enter E) (hc_element c) x e' t ->
    hls_step c (at_task c e' x)
| hstep_wake x e' t :
    hc_task c = HAt HWait -> runs (fun E => @hls_next E) (hc_element c) x e' t ->
    hls_step c (at_task c e' x)
| hstep_push b x e' t :
    hc_task c = HAt (HPush b) -> runs (fun E => @hls_push E b) (hc_element c) x e' t ->
    hls_step c (c <| hc_element := e' |> <| hc_task := HAt x |>)
| hstep_finish r e' t :
    hc_task c = HAt (HDone r) -> runs (fun E => @hls_finish E r) (hc_element c) tt e' t ->
    hls_step c (c <| hc_element := e' |> <| hc_task := HIdle |>)
| hstep_flush_begin n r e' t :
    hc_flush c = NotFlushing -> runs (fun E => @flush_start_begin E n) (hc_element c) r e' t ->
    hls_step c (c <| hc_element := e' |> <| hc_flush := FlushBegun |>)
| hstep_flush_end e' t :
    hc_flush c = FlushBegun -> runs (fun E => @flush_start_end E) (hc_element c) tt e' t -> os_ok t ->
    hls_step c (c <| hc_element := e' |> <| hc_flush := Flushed |> <| hc_left := 0 |> <| hc_written := [] |> <| hc_delivered := [] |>)
| hstep_flush_stop n r e' t :
    hc_flush c = Flushed -> hc_writer c = WIdle -> runs (fun E => @flush_stop E n) (hc_element c) r e' t ->
    hls_step c (c <| hc_element := e' |> <| hc_flush := NotFlushing |> <| hc_left := 0 |>).

Inductive hls_exec : hconf -> hconf -> Prop :=
| hexec_refl c : hls_exec c c
| hexec_step c c' c'' : hls_step c c' -> hls_exec c' c'' -> hls_exec c c''.

(** ** The ring and the queue *)

(** A slot that holds a segment, and a slot that is free. *)
Definition slot_holds (s : HLSSlot) (g : option HLSSegment) : Prop :=
  exists c, hs_cache s = Some c /\
  match g with
  | Some g => hs_write_ready s = false /\ hs_size s = hg_size g /\ cache_ok c /\ stored c = hg_bytes g /\ read_position c = hg_taken g /\
      0 <= hg_taken g <= Z.of_nat (length (hg_bytes g)) /\ Z.of_nat (length (hg_bytes g)) <= hg_size g
  | None => hs_write_ready s = true /\ cache_ok c /\ read_position c = write_position c
  end.

(** The slots, from the read index on, hold the segments of the queue. *)
Definition ring (slots : list HLSSlot) (r : Z) (q : list HLSSegment) : Prop :=
  length slots = 3%nat /\ 0 <= r < 3 /\ Z.of_nat (length q) <= 3 /\
  forall i, 0 <= i < 3 -> exists s, array_at ((r + i) mod 3) slots = Some s /\ slot_holds s (q !! Z.to_nat i).

(** Slots with a cache, whatever they hold. *)
Definition slot_well (s : HLSSlot) : Prop := exists c, hs_cache s = Some c /\ cache_ok c.
Definition slots_well (slots : list HLSSlot) : Prop := length slots = 3%nat /\ Forall slot_well slots.

Lemma array_at_put {A} (i j : Z) (x : A) l : 0 <= i < Z.of_nat (length l) ->
  array_at j (<[Z.to_nat i := x]> l) = if j =? i then Some x else array_at j l.
Proof.
  intros Hi. unfold array_at. destruct (Z.ltb_spec j 0) as [Hj|Hj].
  - destruct (Z.eqb_spec j i); [lia | reflexivity].
  - destruct (Z.eqb_spec j i) as [->|Hne].
    + apply list_lookup_insert_eq. lia.
    + apply list_lookup_insert_ne. lia.
Qed.

(** One slot changes together with its place in the queue. *)
Lemma ring_update slots r q q' i s : ring slots r q -> 0 <= i < 3 -> Z.of_nat (length q') <= 3 ->
  slot_holds s (q' !! Z.to_nat i) -> (forall j, 0 <= j < 3 -> j <> i -> q' !! Z.to_nat j = q !! Z.to_nat j) ->
  ring (<[Z.to_nat ((r + i) mod 3) := s]> slots) r q'.
Proof.
  intros (H1 & H2 & H3 & H4) Hi Hq Hs Hj. split; [rewrite length_insert; exact H1|]. split; [exact H2|]. split; [exact Hq|].
  intros j Hj3. destruct (H4 j Hj3) as (s0 & E & H). destruct (Z.eq_dec j i) as [->|Hne].
  - exists s. split; [|exact Hs]. rewrite array_at_put, Z.eqb_refl by (rewrite H1; divlia). reflexivity.
  - exists s0. split; [|rewrite Hj by assumption; exact H]. rewrite array_at_put by (rewrite H1; divlia).
    destruct (Z.eqb_spec ((r + j) mod 3) ((r + i) mod 3)); [divlia | exact E].
Qed.

(** The first segment leaves the queue. *)
Lemma ring_pop slots r g q s : ring slots r (g :: q) -> slot_holds s None ->
  ring (<[Z.to_nat r := s]> slots) (next_index r) q.
Proof.
  intros (H1 & H2 & H3 & H4) Hs. cbn [length] in H3. unfold next_index, NUM_OF_CACHED_SEGMENTS. rewrite Z.rem_mod_nonneg by lia.
  split; [rewrite length_insert; exact H1|]. split; [divlia|]. split; [lia|]. intros i Hi.
  destruct (Z.eq_dec i 2) as [->|Hne].
  - exists s. replace (((r + 1) mod 3 + 2) mod 3) with r by divlia. rewrite array_at_put, Z.eqb_refl by lia.
    split; [reflexivity|]. rewrite (proj2 (lookup_ge_None q (Z.to_nat 2))) by lia. exact Hs.
  - destruct (H4 (i + 1) ltac:(lia)) as (s0 & E & H). exists s0.
    replace (((r + 1) mod 3 + i) mod 3) with ((r + (i + 1)) mod 3) by divlia.
    rewrite array_at_put by lia. destruct (Z.eqb_spec ((r + (i + 1)) mod 3) r); [divlia|]. split; [exact E|].
    replace (Z.to_nat (i + 1)) with (S (Z.to_nat i)) in H by lia. exact H.
Qed.

(** ** What each operation does to the ring *)

Record hview := mkHView { hv_slots : list HLSSlot; hv_w : Z; hv_r : Z; hv_result : GstFlow; hv_flushing : bool }.
Definition view (e : HLSProgressBuffer) : hview :=
  mkHView (hb_slots e) (hb_write_index e) (hb_read_index e) (hb_srcresult e) (hb_is_flushing e).

Section Views.
Context `{EV : PEnv}.

(** Code on one slot. *)
Lemma on_slot_spec {A} i (m : PM HLSSlot A) e Q :
  (forall s, slot_at i e = Some s -> plwp m s (fun a s' t => Q a (put_slot i s' e) t)) -> plwp (on_slot i m) e Q.
Proof. exact (plwp_zoom (slot_at i) (put_slot i) m e Q). Qed.
Lemma in_cache_spec {A} (m : PM Cache A) s Q :
  (forall c, hs_cache s = Some c -> plwp m c (fun a c' t => Q a (s <| hs_cache := Some c' |>) t)) -> plwp (in_cache m) s Q.
Proof. exact (plwp_zoom hs_cache (fun c s => s <| hs_cache := Some c |>) m s Q). Qed.

Lemma slot_at_range i e s : slot_at i e = Some s -> 0 <= i < Z.of_nat (length (hb_slots e)).
Proof.
  unfold slot_at, array_at. destruct (Z.ltb_spec i 0); [discriminate|]. intros L%lookup_lt_Some. lia.
Qed.
Lemma slots_well_at i e s : slots_well (hb_slots e) -> slot_at i e = Some s -> slot_well s.
Proof.
  intros [_ H]. unfold slot_at, array_at. destruct (Z.ltb_spec i 0); [discriminate|]. intros L.
  apply (Forall_lookup_1 _ _ _ _ H L).
Qed.
Lemma slots_well_put i s e : slots_well (hb_slots e) -> slot_well s -> slots_well (hb_slots (put_slot i s e)).
Proof.
  intros [H1 H2] Hs. unfold put_slot. simpl_set. split; [rewrite length_insert; exact H1 | apply Forall_insert; assumption].
Qed.

Lemma put_same i s e : slot_at i e = Some s -> put_slot i s e = e.
Proof.
  unfold slot_at, array_at. destruct (Z.ltb_spec i 0); [discriminate|]. intros L. destruct e. unfold put_slot, set. cbn in *.
  rewrite list_insert_id by exact L. reflexivity.
Qed.
Lemma slot_at_put i s s0 e : slot_at i e = Some s0 -> slot_at i (put_slot i s e) = Some s.
Proof.
  intros H%slot_at_range. unfold slot_at, put_slot. simpl_set. rewrite array_at_put, Z.eqb_refl by exact H. reflexivity.
Qed.
Lemma put_put i s s' e : put_slot i s' (put_slot i s e) = put_slot i s' e.
Proof. destruct e. unfold put_slot, set. cbn. rewrite list_insert_insert_eq. reflexivity. Qed.
Lemma read_slot_spec {A} i (f : Cache -> A) e Q :
  (forall s c, slot_at i e = Some s -> hs_cache s = Some c -> Q (f c) e []) -> plwp (on_slot i (in_cache (pgets f))) e Q.
Proof.
  intros H. apply on_slot_spec. intros s Es. apply in_cache_spec. intros c Ec. pstep.
  replace (s <| hs_cache := Some c |>) with s by (destruct s; cbn in Ec; subst; reflexivity).
  rewrite put_same by exact Es. exact (H s c Es Ec).
Qed.

(** A buffer is appended to the slot of the write index, if it is accepted. *)
Lemma ring_chain_view b e : slots_well (hb_slots e) -> plwp (hls_progress_buffer_chain b) e (fun _ e' t => os_ok t ->
  if accepts e then exists s c s', slot_at (hb_write_index e) e = Some s /\ hs_cache s = Some c /\
    s' = s <| hs_cache := Some (append (db_data b) c) |> <| hs_discont := hs_discont s' |> /\
    view e' = view (put_slot (hb_write_index e) s' e)
  else view e' = view e).
Proof.
  intros OK. unfold hls_progress_buffer_chain, accepts. pstep. pstep. destruct (hb_is_flushing e || hb_is_eos e); cbn [negb andb].
  - psteps. reflexivity.
  - pstep. pstep. pstep. pstep. pstep. pstep; rewrite H; [|psteps; reflexivity].
    pstep. apply on_slot_spec. intros s Es. destruct (slots_well_at _ _ _ OK Es) as (c & Ec & OKc).
    assert (K : forall s1 t0, hs_cache s1 = Some c -> hs_size s1 = hs_size s -> hs_write_ready s1 = hs_write_ready s ->
      plwp (in_cache (cache_write_buffer b)) s1 (fun _ s' t => os_ok (t0 ++ t) ->
        s' = s <| hs_cache := Some (append (db_data b) c) |> <| hs_discont := hs_discont s' |>)).
    { intros s1 t0 E1 E2 E3. apply in_cache_spec. intros c1 Ec1. assert (c1 = c) as -> by congruence.
      eapply pwp_mono; [apply plwp_pwp, cache_write_spec, OKc|]. cbn beta. intros _ c' t (k & -> & Hk).
      rewrite os_ok_app. intros [_ T]. rewrite (Hk (os_ok_complete _ T)). destruct s, s1. cbn in E1, E2, E3. subst. reflexivity. }
    pstep. pstep.
    + pstep. eapply pwp_mono; [apply (K _ []); [exact Ec | reflexivity..]|]. cbn beta. intros [] s' t Hs'. psteps.
      rewrite !os_ok_app. intros T. exists s, c, s'. split_and!; [exact Es | exact Ec | apply Hs'; apply T | reflexivity].
    + eapply pwp_mono; [apply (K _ []); [exact Ec | reflexivity..]|]. cbn beta. intros [] s' t Hs'. psteps.
      rewrite !os_ok_app. intros T. exists s, c, s'. split_and!; [exact Es | exact Ec | apply Hs'; apply T | reflexivity].
Qed.

(** The task waits, ends, or reads a buffer of the slot of the read index. *)
Definition next_outcome (e : HLSProgressBuffer) (x : hls_exit) (e' : HLSProgressBuffer) : Prop :=
  match x with
  | HWait => view e' = view e
  | HDone r => exists r', (hb_srcresult e <> FLOW_OK -> r' <> FLOW_OK) /\ view e' = view (e <| hb_srcresult := r' |>)
  | HPush b => hb_srcresult e = FLOW_OK /\ exists s c, let n := db_size b in
      slot_at (hb_read_index e) e = Some s /\ hs_cache s = Some c /\ 0 < n /\ read_position c + n <= write_position c /\
      db_data b = slice (stored c) (read_position c) n /\
      let last := read_position c + n =? hs_size s in
      view e' = view (put_slot (hb_read_index e)
        (mkHLSSlot (Some (advance_read n c)) (hs_size s) (if last then true else hs_write_ready s) false)
        (if last then e <| hb_read_index := next_index (hb_read_index e) |> else e))
  end.
Lemma next_view e : slots_well (hb_slots e) -> plwp hls_next e (fun x e' _ => next_outcome e x e').
Proof.
  intros OK. unfold hls_next. pstep. pstep. pstep. destruct (hb_srcresult e) eqn:R.
  2-5: rewrite bool_decide_eq_false_2 by discriminate; pstep; cbn [andb]; psteps; rewrite ?R in *; bools; try congruence;
    exists (hb_srcresult e); rewrite R; (split; [discriminate | destruct e; cbn in *; subst; reflexivity]).
  rewrite bool_decide_eq_true_2 by reflexivity. pstep. apply read_slot_spec. intros s c Es Ec. pstep.
  destruct (cache_has_enough_data c) eqn:He; cbn [negb andb].
  2:{ destruct (hb_is_eos e); cbn [negb pwhen]; psteps; [bools; discriminate | | reflexivity].
      exists FLOW_FLUSHING. split; [congruence | reflexivity]. }
  cbn [pwhen]. pstep. pstep. pstep. pstep. rewrite R, bool_decide_eq_true_2 by reflexivity. pstep.
  destruct (slots_well_at _ _ _ OK Es) as (c0 & Ec0 & OKc). assert (c0 = c) as -> by congruence.
  apply on_slot_spec. intros s1 Es1. assert (s1 = s) as -> by congruence. apply in_cache_spec.
  intros c1 Ec1. assert (c1 = c) as -> by congruence.
  eapply pwp_mono; [apply plwp_pwp, cache_read_spec; assumption|]. cbn beta.
  intros [position buffer] c' t [(-> & -> & ->)|(bytes & Hn & Hw & Hb & -> & -> & Hbuf)]; [pstep|].
  destruct Hbuf as [[-> _]|(pts & dts & ->)]; [pstep|]. cbv zeta in *. set (n := Z.of_nat (length bytes)) in *.
  pstep. apply on_slot_spec. intros s2 Es2. rewrite (slot_at_put _ _ _ _ Es) in Es2. injection Es2 as <-.
  set (i := hb_read_index e) in *. set (s3 := mkHLSSlot (Some (advance_read n c)) (hs_size s) (hs_write_ready s) false).
  assert (K : forall (buffer : DataBuffer) (discont : HLSSlot) e1, db_data buffer = bytes -> hs_size discont = hs_size s ->
    e1 = put_slot i s3 e ->
    plwp (pwhen (read_position c + n =? hs_size discont)
            (on_slot i (hs_write_ready <~ true) ;; hb_read_index <~ next_index i ;; send_hls_not_full_message ;; ask (g_cond_signal DelCond)) ;;
          pwhen (negb (hb_buffer_pts e =? GST_CLOCK_TIME_NONE)) (hb_buffer_pts <~ GST_CLOCK_TIME_NONE) ;;
          ask g_mutex_unlock ;;
          pret (HPush (if negb (hb_buffer_pts e =? GST_CLOCK_TIME_NONE)
                       then buffer <| db_pts := hb_buffer_pts e |> <| db_dts := hb_buffer_pts e |> else buffer))) e1
      (fun x e' _ => exists b, x = HPush b /\ db_data b = bytes /\
         view e' = view (put_slot i (mkHLSSlot (Some (advance_read n c)) (hs_size s) (if read_position c + n =? hs_size s then true else hs_write_ready s) false)
           (if read_position c + n =? hs_size s then e <| hb_read_index := next_index i |> else e)))).
  { intros buffer discont e1 Hb1 -> ->. unfold send_hls_not_full_message, send_message. pstep. pstep; rewrite H.
    - pstep. apply on_slot_spec. intros s4 Es4. rewrite (slot_at_put _ _ _ _ Es) in Es4. injection Es4 as <-. pstep. rewrite put_put.
      destruct (negb _); psteps; try discriminate; (eexists; split; [reflexivity|]; (split; [exact Hb1 | reflexivity])).
    - destruct (negb _); psteps; try discriminate; (eexists; split; [reflexivity|]; (split; [exact Hb1 | reflexivity])). }
  assert (F : forall x e', (exists b, x = HPush b /\ db_data b = bytes /\ view e' = view (put_slot i
      (mkHLSSlot (Some (advance_read n c)) (hs_size s) (if read_position c + n =? hs_size s then true else hs_write_ready s) false)
      (if read_position c + n =? hs_size s then e <| hb_read_index := next_index i |> else e))) -> next_outcome e x e').
  { intros x e' (b & -> & <- & Hv). split; [exact R|]. exists s, c. cbv zeta. unfold db_size. fold n i. split_and!; (assumption || lia). }
  pstep. pstep. pstep. pstep; simpl_set; [pstep|]; pstep; rewrite put_put;
    (eapply pwp_mono; [|intros x e' t' Hx; exact (F x e' Hx)]);
    (eapply pwp_mono; [eapply K; [destruct (hs_discont _); reflexivity | reflexivity |]|]); try (intros x e' t' Hx; exact Hx).
  - destruct s. reflexivity.
  - destruct s. cbn in H |- *. unfold s3. cbn. revert H. unfold set. cbn. intros ->. reflexivity.
Qed.

Lemma push_view b e : plwp (hls_push b) e (fun x e' _ => (exists r, x = HDone r) /\
  exists r', (hb_srcresult e <> FLOW_OK -> r' <> FLOW_OK) /\ view e' = view (e <| hb_srcresult := r' |>)).
Proof.
  unfold hls_push. pstep. pstep. psteps; (split; [eauto|]).
  - exists r. split; [|reflexivity]. intros N. bools; [contradiction | assumption].
  - exists (hb_srcresult e). split; [auto | destruct e; reflexivity].
Qed.

Lemma finish_view r e : plwp (hls_finish r) e (fun _ e' _ => view e' = view e).
Proof. unfold hls_finish. psteps; reflexivity. Qed.

Lemma begin_view s e : plwp (segment_begin s) e (fun b e' _ => view e' = view e /\ (b = true <-> hb_srcresult e = FLOW_OK)).
Proof.
  unfold segment_begin. pstep. pstep. pstep. pstep. case_bool_decide as R; cbn [negb].
  - psteps; (split; [unfold view; simpl_set; rewrite ?R; reflexivity | tauto]).
  - psteps. split; [reflexivity|]. intuition discriminate.
Qed.

Lemma segment_push_view s e : plwp (segment_push s) e (fun _ e' _ => view e' = view e).
Proof. unfold segment_push. psteps; reflexivity. Qed.
Lemma full_view e : plwp segment_full e (fun _ e' _ => view e' = view e).
Proof. unfold segment_full, send_hls_full_message, send_message. psteps; reflexivity. Qed.
Lemma eos_view e : plwp end_of_stream e (fun _ e' _ => view e' = view e).
Proof. unfold end_of_stream, send_hls_eos_message, send_message. psteps; reflexivity. Qed.
Lemma flush_begin_view n e : plwp (flush_start_begin n) e (fun _ e' _ => view e' = view (e <| hb_is_flushing := true |>)).
Proof. unfold flush_start_begin. psteps; reflexivity. Qed.
Lemma flush_stop_view n e : plwp (flush_stop n) e (fun _ e' _ =>
  view e' = view (e <| hb_is_flushing := false |> <| hb_srcresult := FLOW_OK |>)).
Proof. unfold flush_stop. psteps; reflexivity. Qed.

(** A cache set back to its start. *)
Definition rewound (c : Cache) : Prop := cache_ok c /\ read_position c = 0 /\ write_position c = 0.
Lemma rewind_spec {A} (k : PM HLSSlot A) s c Q : hs_cache s = Some c -> cache_ok c ->
  (forall s' t1 t2, (os_ok t1 -> os_ok t2 -> exists c', rewound c' /\ s' = s <| hs_cache := Some c' |>) ->
     plwp k s' (fun a s'' t => Q a s'' (t1 ++ t2 ++ t))) ->
  plwp (in_cache (cache_set_write_position 0) ;; in_cache (cache_set_read_position 0) ;; k) s Q.
Proof.
  intros Ec OK K. pstep. apply in_cache_spec. intros c1 E1. assert (c1 = c) as -> by congruence.
  eapply pwp_mono; [apply plwp_pwp, cache_set_write_spec, OK|]. cbn beta. intros b1 c1 t1 H1. pstep. apply in_cache_spec. simpl_set.
  intros c2 E2. injection E2 as <-.
  assert (OK1 : cache_ok c1).
  { destruct H1 as [(_ & _ & ->)|(_ & -> & _)]; [|exact OK]. destruct OK. split; simpl_set; (assumption || lia). }
  eapply pwp_mono; [apply plwp_pwp, cache_set_read_spec, OK1|]. cbn beta. intros b2 c2 t2 H2. apply K. intros T1 T2.
  destruct H1 as [(_ & _ & W)|(_ & _ & N)]; [|tauto]. destruct H2 as [(_ & _ & ->)|(_ & _ & N)]; [|tauto].
  eexists. split; [|destruct s; reflexivity]. destruct OK1. split; [split|split]; simpl_set; subst c1; try assumption; try lia; reflexivity.
Qed.

(** The ring is full, or the slot of the write index is taken. *)
Definition take_outcome (s : GstSegment) (e : HLSProgressBuffer) (x : segment_exit) (e' : HLSProgressBuffer) : Prop :=
  exists old, slot_at (hb_write_index e) e = Some old /\
  match x with
  | SegRefused => False
  | SegFull => hb_srcresult e = FLOW_OK /\ hs_write_ready old = false /\ view e' = view e
  | SegTaken => (hb_srcresult e = FLOW_OK -> hs_write_ready old = true) /\
      exists c, rewound c /\ view e' = view (put_slot (hb_write_index e) (mkHLSSlot (Some c) (u32 (sg_stop s)) false (hs_discont old)) e)
  end.

Lemma take_view s e : slots_well (hb_slots e) -> plwp (segment_take s) e (fun x e' t => os_ok t -> take_outcome s e x e').
Proof.
  intros OK. unfold segment_take.
  assert (T : forall e1 t0, e1 = e -> (hb_srcresult e = FLOW_OK -> exists old, slot_at (hb_write_index e) e = Some old /\ hs_write_ready old = true) ->
    plwp (on_slot (hb_write_index e) (hs_size <~ u32 (sg_stop s) ;; hs_write_ready <~ false ;;
            in_cache (cache_set_write_position 0) ;; in_cache (cache_set_read_position 0) ;; pret tt) ;;
          ask g_mutex_unlock ;; send_hls_resume_message ;; pret SegTaken) e1
      (fun x e' t => os_ok (t0 ++ t) -> take_outcome s e x e')).
  { intros e1 t0 -> Hr. pstep. apply on_slot_spec. intros old Eo. destruct (slots_well_at _ _ _ OK Eo) as (c & Ec & OKc).
    pstep. pstep. pstep. pstep. eapply rewind_spec; [exact Ec | exact OKc|]. intros s' t1 t2 H. pstep.
    unfold send_hls_resume_message, send_message. psteps. rewrite !os_ok_app. intros T.
    destruct H as (c' & Hc & ->); [apply T..|]. exists old. split; [exact Eo|]. split.
    - intros R. destruct (Hr R) as (old' & Eo' & Hold). congruence.
    - exists c'. split; [exact Hc|]. destruct old. reflexivity. }
  pstep. pstep. pstep. case_bool_decide as R.
  - pstep. apply on_slot_spec. intros old Eo. pstep. rewrite put_same by exact Eo. pstep.
    destruct (hs_write_ready old) eqn:W; cbn [negb].
    + apply (T e ([] ++ ([] ++ []))); [reflexivity|]. eauto.
    + psteps. intros _. exists old. auto.
  - pstep. apply (T e ([] ++ [])); [reflexivity | tauto].
Qed.

Lemma segment_next_view s e : slots_well (hb_slots e) -> plwp (segment_next s) e (fun x e' t => os_ok t ->
  take_outcome s (e <| hb_write_index := next_index (hb_write_index e) |>) x e').
Proof.
  intros OK. unfold segment_next. pstep. pstep. pstep. pstep. eapply pwp_mono; [apply take_view; exact OK|].
  intros x e' t H T. apply H. rewrite !os_ok_app in T. apply T.
Qed.
Lemma segment_wake_view s e : slots_well (hb_slots e) -> plwp (segment_wake s) e (fun x e' t => os_ok t ->
  if bool_decide (hb_srcresult e = FLOW_OK) then take_outcome s e x e' else x = SegRefused /\ view e' = view e).
Proof.
  intros OK. unfold segment_wake. pstep. pstep. destruct (bool_decide _).
  - eapply pwp_mono; [apply take_view; exact OK|]. intros x e' t H T. apply H. rewrite !os_ok_app in T. apply T.
  - psteps. auto.
Qed.

(** After a flush every slot is free and empty. *)
Lemma flush_slot_spec s : slot_well s -> plwp flush_slot s (fun _ s' t => os_ok t ->
  exists c, rewound c /\ s' = mkHLSSlot (Some c) 0 true (hs_discont s)).
Proof.
  intros (c & Ec & OKc). unfold flush_slot. pstep. pstep. rewrite Ec. eapply rewind_spec; [exact Ec | exact OKc|].
  intros s' t1 t2 H. psteps. rewrite !os_ok_app. intros T. destruct H as (c' & Hc & ->); [apply T..|].
  exists c'. split; [exact Hc|]. destruct s. reflexivity.
Qed.

Definition free_slot (s : HLSSlot) : Prop := exists c d, rewound c /\ s = mkHLSSlot (Some c) 0 true d.
Lemma flush_end_view e : slots_well (hb_slots e) -> plwp flush_start_end e (fun _ e' t => os_ok t ->
  exists s0 s1 s2, free_slot s0 /\ free_slot s1 /\ free_slot s2 /\
  view e' = mkHView [s0; s1; s2] (-1) 0 FLOW_FLUSHING (hb_is_flushing e)).
Proof.
  intros [L W]. destruct e as [slots w r snd caps fl eos res pts]. cbn [hb_slots] in *.
  destruct slots as [|a0 [|a1 [|a2 [|]]]]; try discriminate. apply Forall_cons in W as [W0 W]. apply Forall_cons in W as [W1 W].
  apply Forall_cons in W as [W2 _].
  unfold flush_start_end, hls_progress_buffer_flush_data. do 13 pstep.
  pstep. apply on_slot_spec. intros s E. injection E as <-. eapply pwp_mono; [apply flush_slot_spec, W0|]. cbn beta. intros _ s0 t0 H0.
  pstep. apply on_slot_spec. intros s E. injection E as <-. eapply pwp_mono; [apply flush_slot_spec, W1|]. cbn beta. intros _ s1 t1 H1.
  pstep. apply on_slot_spec. intros s E. injection E as <-. eapply pwp_mono; [apply flush_slot_spec, W2|]. cbn beta. intros _ s2 t2 H2.
  assert (F : os_ok t0 -> os_ok t1 -> os_ok t2 -> free_slot s0 /\ free_slot s1 /\ free_slot s2).
  { intros T0 T1 T2. destruct (H0 T0) as (c0 & ? & ?), (H1 T1) as (c1 & ? & ?), (H2 T2) as (c2 & ? & ?).
    split_and!; do 2 eexists; eauto. }
  psteps; intros; match goal with T : os_ok (_ ++ _) |- _ => rewrite !os_ok_app in T; destruct F as (F0 & F1 & F2); try apply T end;
    exists s0, s1, s2; split_and!; auto; reflexivity.
Qed.
End Views.

(** ** The invariant *)

Definition waiting (w : hwriter) : bool := match w with WFull _ | WWait _ => true | _ => false end.
(** The write index: the slot after the last segment, once it was claimed. *)
Definition index_ok (v : hview) (w : hwriter) (fl : hflush) (k : Z) : Prop :=
  -1 <= hv_w v < 3 /\
  (waiting w = true /\ fl <> Flushed -> hv_w v = (hv_r v + k) mod 3) /\
  (waiting w = false \/ fl = Flushed -> next_index (hv_w v) = (hv_r v + k) mod 3).
(** What the source may still send fits the last segment. *)
Definition left_ok (left : Z) (w : hwriter) (fl : hflush) (q : list HLSSegment) : Prop :=
  w = WIdle -> fl <> Flushed ->
  match last q with Some g => Z.of_nat (length (hg_bytes g)) + left <= hg_size g | None => left <= 0 end.

Record in_step (v : hview) (w : hwriter) (fl : hflush) (left : Z) (written delivered : list Z) (q : list HLSSegment) : Prop := {
  is_ring : ring (hv_slots v) (hv_r v) q;
  is_index : index_ok v w fl (Z.of_nat (length q));
  is_left : left_ok left w fl q;
  is_bytes : written = delivered ++ queued q;
  is_flushed : fl = Flushed -> hv_result v <> FLOW_OK /\ (q = [] \/ w = WIdle) }.

Definition view_inv (v : hview) (w : hwriter) (fl : hflush) (left : Z) (written delivered : list Z) : Prop :=
  slots_well (hv_slots v) /\ (fl <> NotFlushing -> hv_flushing v = true) /\
  (exists rest, written = delivered ++ rest) /\
  ((exists q, in_step v w fl left written delivered q) \/ (hv_result v <> FLOW_OK /\ fl <> Flushed)).

Definition hconf_inv (c : hconf) : Prop :=
  view_inv (view (hc_element c)) (hc_writer c) (hc_flush c) (hc_left c) (hc_written c) (hc_delivered c).

Lemma holds_well s g : slot_holds s g -> slot_well s.
Proof. intros (c & E & H). exists c. split; [exact E|]. destruct g; apply H. Qed.

Lemma next_index_mod w : -1 <= w -> next_index w = (w + 1) mod 3.
Proof. intros H. unfold next_index, NUM_OF_CACHED_SEGMENTS. apply Z.rem_mod_nonneg; lia. Qed.

(** The slot at position [i] of the queue. *)
Lemma ring_at slots r q i j s : ring slots r q -> 0 <= i < 3 -> j = (r + i) mod 3 -> array_at j slots = Some s ->
  slot_holds s (q !! Z.to_nat i).
Proof. intros (_ & _ & _ & H) Hi -> E. destruct (H i Hi) as (s' & E' & Hs). congruence. Qed.

Lemma ring_full slots r q s : ring slots r q -> array_at ((r + Z.of_nat (length q)) mod 3) slots = Some s -> hs_write_ready s = true ->
  Z.of_nat (length q) < 3.
Proof.
  intros R E W. pose proof R as (_ & Hr & Hq & _). destruct (Z.eq_dec (Z.of_nat (length q)) 3) as [Hk|]; [exfalso | lia].
  destruct q as [|g q]; [cbn in Hk; lia|]. rewrite Hk in E.
  destruct (ring_at _ _ _ 0 ((r + 3) mod 3) s R ltac:(lia) ltac:(divlia) E) as (c & _ & H). cbn in H. destruct H. congruence.
Qed.

(** A step that changes only what the invariant does not look at, and the
    result of the source pad. *)
Lemma inv_result v w fl left wr dl r' : view_inv v w fl left wr dl -> (hv_result v <> FLOW_OK -> r' <> FLOW_OK) ->
  view_inv (mkHView (hv_slots v) (hv_w v) (hv_r v) r' (hv_flushing v)) w fl left wr dl.
Proof.
  intros (H1 & H2 & H3 & H4) Hr. split; [exact H1|]. split; [exact H2|]. split; [exact H3|].
  destruct H4 as [(q & [K1 K2 K3 K4 K5])|[K1 K2]]; [left; exists q | right; split; [apply Hr, K1 | exact K2]].
  split; try assumption. intros E. destruct (K5 E). split; [apply Hr; assumption | assumption].
Qed.

(** The task reads from the first segment. *)
Lemma inv_read e e' s c b w fl left wr dl :
  view_inv (view e) w fl left wr dl -> hb_srcresult e = FLOW_OK ->
  slot_at (hb_read_index e) e = Some s -> hs_cache s = Some c -> 0 < db_size b -> read_position c + db_size b <= write_position c ->
  db_data b = slice (stored c) (read_position c) (db_size b) ->
  view e' = view (put_slot (hb_read_index e)
        (mkHLSSlot (Some (advance_read (db_size b) c)) (hs_size s) (if read_position c + db_size b =? hs_size s then true else hs_write_ready s) false)
        (if read_position c + db_size b =? hs_size s then e <| hb_read_index := next_index (hb_read_index e) |> else e)) ->
  view_inv (view e') w fl left wr (dl ++ db_data b).
Proof.
  intros (H1 & H2 & H3 & H4) R Es Ec Hn Hw Hb Hv. destruct H4 as [(q & [K1 K2 K3 K4 K5])|[K _]]; [|cbn in K; congruence].
  cbn [view hv_slots hv_r hv_w hv_result hv_flushing] in *. pose proof K1 as (L & Hr & _).
  pose proof (ring_at _ _ _ 0 (hb_read_index e) s K1 ltac:(lia) ltac:(divlia) Es) as (c0 & Ec0 & Hs).
  assert (c0 = c) as -> by congruence. destruct q as [|g q].
  { destruct Hs as (_ & _ & Hs). lia. }
  cbn in Hs. destruct Hs as (S1 & S2 & S3 & S4 & S5 & S6 & S7). set (n := db_size b) in *.
  pose proof (stored_length c S3) as SL. rewrite S4 in SL. destruct (advance_ok n c ltac:(lia) S3) as [A1 A2].
  set (g' := mkHLSSegment (hg_size g) (hg_bytes g) (hg_taken g + n)).
  assert (U : unread g = db_data b ++ unread g').
  { unfold unread, g'. cbn [hg_taken hg_bytes]. rewrite Hb, S4, S5. unfold slice.
    replace (Z.to_nat (hg_taken g + n)) with (Z.to_nat (hg_taken g) + Z.to_nat n)%nat by lia.
    rewrite <- drop_drop. symmetry. apply take_drop. }
  assert (W : slots_well (hv_slots (view e'))).
  { rewrite Hv. cbn [view hv_slots]. destruct (_ =? _); apply slots_well_put; try exact H1;
      (eexists; split; [reflexivity | exact A1]). }
  split; [exact W|]. split; [rewrite Hv; destruct (_ =? _); exact H2|].
  assert (Q : wr = (dl ++ db_data b) ++ queued (g' :: q)).
  { rewrite K4. unfold queued. cbn [map concat]. rewrite U, !app_assoc. reflexivity. }
  split; [eexists; exact Q|]. left. rewrite Hv. destruct (Z.eqb_spec (read_position c + n) (hs_size s)) as [E|E].
  - exists q. cbn [length] in K2. split.
    + apply (ring_pop _ _ g); [exact K1|]. eexists. split; [reflexivity|]. cbn [hs_write_ready]. split; [reflexivity|].
      split; [exact A1|]. change (read_position c + n = write_position c). lia.
    + destruct K2 as (I1 & I2 & I3). split; [exact I1|]. cbn [view hv_w hv_r] in *. unfold put_slot. simpl_set.
      rewrite (next_index_mod (hb_read_index e)) by lia. split; intros I; [rewrite (I2 I) | rewrite (I3 I)]; divlia.
    + intros I1 I2. specialize (K3 I1 I2). destruct q as [|g2 q]; [cbn in K3 |- *; lia | exact K3].
    + rewrite Q. unfold queued. cbn [map concat]. unfold unread, g'. cbn [hg_taken hg_bytes]. rewrite skipn_all2 by lia. reflexivity.
    + intros I. destruct (K5 I) as [I1 _]. cbn in I1. congruence.
  - exists (g' :: q). split.
    + cbn [view hv_slots hv_r]. unfold put_slot. simpl_set. replace (hb_read_index e) with ((hb_read_index e + 0) mod 3) at 1 by divlia.
      apply (ring_update _ _ (g :: q)); [exact K1 | lia | apply K1 | |].
      * eexists. split; [reflexivity|]. cbn [hs_write_ready hs_size g' hg_size hg_bytes hg_taken lookup list_lookup Z.to_nat].
        change (read_position (advance_read n c)) with (read_position c + n). rewrite A2.
        split_and!; unfold g'; cbn [hg_size hg_bytes hg_taken]; (assumption || lia).
      * intros j Hj Hne. destruct (Z.to_nat j) eqn:Ej; [lia | reflexivity].
    + exact K2.
    + intros I1 I2. specialize (K3 I1 I2). destruct q; exact K3.
    + exact Q.
    + intros I. destruct (K5 I) as [I1 _]. cbn in I1. congruence.
Qed.

(** The source's thread asks for the slot it has claimed. *)
Definition claimed (v : hview) (fl : hflush) (written delivered : list Z) : Prop :=
  exists q, ring (hv_slots v) (hv_r v) q /\ hv_w v = (hv_r v + Z.of_nat (length q)) mod 3 /\ written = delivered ++ queued q /\
    (fl = Flushed -> hv_result v <> FLOW_OK /\ q = []).

Lemma inv_take s e x e' c : 0 <= sg_stop s < two_p32 ->
  slots_well (hb_slots e) -> (hc_flush c <> NotFlushing -> hb_is_flushing e = true) ->
  (exists rest, hc_written c = hc_delivered c ++ rest) ->
  claimed (view e) (hc_flush c) (hc_written c) (hc_delivered c) \/ (hb_srcresult e <> FLOW_OK /\ hc_flush c <> Flushed) ->
  take_outcome s e x e' -> hconf_inv (after_take c s e' x).
Proof.
  intros Hs H1 H2 H3 H4 (old & Eo & Hx). unfold hconf_inv, after_take. destruct x; [destruct Hx | |]; simpl_set.
  - destruct Hx as (R & W & ->). split; [exact H1|]. split; [exact H2|]. split; [exact H3|].
    destruct H4 as [(q & K1 & K2 & K3 & K4)|[K _]]; [left; exists q | contradiction]. cbn [view hv_slots hv_w hv_r hv_result] in *.
    split; [exact K1 | | intros; discriminate | exact K3 | intros I; destruct (K4 I); contradiction].
    pose proof K1 as (_ & Hr & _). split; [cbn [view hv_w]; divlia|]. split; [intros _; exact K2|].
    intros [I|I]; [discriminate|]. destruct (K4 I). contradiction.
  - destruct Hx as (W & d & (D1 & D2 & D3) & Hv). set (s' := mkHLSSlot _ _ _ _) in Hv.
    assert (SW : slot_well s') by (eexists; split; [reflexivity | exact D1]).
    assert (V : view e' = mkHView (<[Z.to_nat (hb_write_index e) := s']> (hb_slots e)) (hb_write_index e) (hb_read_index e) (hb_srcresult e) (hb_is_flushing e))
      by exact Hv.
    rewrite V. split; [exact (slots_well_put (hb_write_index e) s' e H1 SW)|]. split; [exact H2|]. split; [exact H3|].
    assert (A : claimed (view e) (hc_flush c) (hc_written c) (hc_delivered c) ->
                (hb_srcresult e = FLOW_OK \/ hc_flush c = Flushed) ->
                exists q, in_step (mkHView (<[Z.to_nat (hb_write_index e) := s']> (hb_slots e)) (hb_write_index e) (hb_read_index e) (hb_srcresult e) (hb_is_flushing e))
                  WIdle (hc_flush c) (sg_stop s) (hc_written c) (hc_delivered c) q).
    { intros (q & K1 & K2 & K3 & K4) Hor. cbn [view hv_slots hv_w hv_r hv_result] in *.
      assert (L : Z.of_nat (length q) < 3).
      { destruct Hor as [R|F]; [|destruct (K4 F) as [_ ->]; reflexivity]. eapply ring_full; [exact K1 | | apply W, R].
        rewrite <- K2. exact Eo. }
      set (g := mkHLSSegment (sg_stop s) [] 0). exists (q ++ [g]). pose proof K1 as (_ & Hr & _).
      split; cbn [hv_slots hv_w hv_r hv_result].
      - rewrite K2 at 1. apply (ring_update _ _ q); [exact K1 | lia | rewrite length_app; cbn; lia | |].
        + rewrite Nat2Z.id, list_lookup_middle by reflexivity. exists d. split; [reflexivity|]. cbn. rewrite u32_small by exact Hs.
          pose proof (stored_length d D1) as SL. rewrite D3 in SL. destruct (stored d); [|cbn in SL; lia]. split_and!; (reflexivity || assumption || lia).
        + intros j Hj Hne. destruct (Z.lt_ge_cases j (Z.of_nat (length q))); [apply lookup_app_l; lia|].
          rewrite (proj2 (lookup_ge_None q _)) by lia. apply lookup_ge_None. rewrite length_app. cbn. lia.
      - rewrite length_app. split; [cbn [hv_w]; divlia|]. split; [intros [I _]; discriminate|]. intros _. cbn [hv_w hv_r length].
        rewrite next_index_mod by divlia. divlia.
      - intros _ _. rewrite last_snoc. cbn. lia.
      - rewrite K3. unfold queued. rewrite map_app, concat_app. cbn. rewrite app_nil_r. reflexivity.
      - intros I. destruct (K4 I). auto. }
    cbn [hc_writer hc_flush hc_left hc_written hc_delivered hv_result].
    destruct (decide (hb_srcresult e = FLOW_OK)) as [R|R].
    + destruct H4 as [H4|[H4 _]]; [left; apply A; auto | contradiction].
    + destruct H4 as [H4|[_ H4]]; [|right; auto].
      destruct (hc_flush c) eqn:F; [right; split; [exact R | discriminate] | right; split; [exact R | discriminate] | left; apply A; auto].
Qed.

(** Bytes are appended to the last segment. *)
Lemma ring_inv_append e e' b s d s' fl left wr dl :
  view_inv (view e) WIdle fl left wr dl -> accepts e = true -> 0 < db_size b <= left ->
  slot_at (hb_write_index e) e = Some s -> hs_cache s = Some d ->
  s' = s <| hs_cache := Some (append (db_data b) d) |> <| hs_discont := hs_discont s' |> ->
  view e' = view (put_slot (hb_write_index e) s' e) ->
  view_inv (view e') WIdle fl (left - db_size b) (wr ++ db_data b) dl.
Proof.
  intros (H1 & H2 & H3 & H4) Ha Hb Es Ed Hs' Hv. unfold accepts in Ha. bools.
  destruct (slots_well_at _ _ _ H1 Es) as (d' & Ed' & OKd). assert (d' = d) as -> by congruence.
  destruct (append_ok (db_data b) d OKd) as [A1 A2].
  assert (Ec' : hs_cache s' = Some (append (db_data b) d)) by (rewrite Hs'; reflexivity).
  assert (Ew' : hs_write_ready s' = hs_write_ready s) by (rewrite Hs'; reflexivity).
  assert (Ez' : hs_size s' = hs_size s) by (rewrite Hs'; reflexivity). clear Hs'.
  assert (V : view e' = mkHView (<[Z.to_nat (hb_write_index e) := s']> (hb_slots e)) (hb_write_index e) (hb_read_index e) (hb_srcresult e) (hb_is_flushing e))
    by exact Hv.
  rewrite V. split; [exact (slots_well_put (hb_write_index e) s' e H1 (ex_intro _ _ (conj Ec' A1)))|]. split; [exact H2|].
  split; [destruct H3 as [rest ->]; exists (rest ++ db_data b); symmetry; apply app_assoc|].
  destruct H4 as [(q & [K1 K2 K3 K4 K5])|H4]; [left | right; exact H4]. cbn [view hv_slots hv_w hv_r hv_result] in *.
  assert (F : fl <> Flushed). { intros ->. cbn [hv_flushing view] in H2. rewrite H2 in *; discriminate. }
  specialize (K3 eq_refl F). destruct q as [|g0 q0] using rev_ind; [cbn in K3; lia|]. clear IHq0.
  rewrite last_snoc in K3. destruct K2 as (I1 & _ & I3). specialize (I3 (or_introl eq_refl)). cbn [view hv_w hv_r] in I1, I3.
  rewrite length_app in I3. cbn [length] in I3. pose proof K1 as (L3 & Hr & L & _). rewrite length_app in L. cbn [length] in L.
  pose proof (slot_at_range _ _ _ Es) as Hrange. rewrite next_index_mod in I3 by lia.
  assert (Ew : hb_write_index e = (hb_read_index e + Z.of_nat (length q0)) mod 3) by divlia.
  pose proof (ring_at _ _ _ (Z.of_nat (length q0)) (hb_write_index e) s K1 ltac:(lia) Ew Es) as (d1 & Ed1 & Hh).
  assert (d1 = d) as -> by congruence. rewrite Nat2Z.id, list_lookup_middle in Hh by reflexivity.
  destruct Hh as (S1 & S2 & S3 & S4 & S5 & S6 & S7).
  set (g' := mkHLSSegment (hg_size g0) (hg_bytes g0 ++ db_data b) (hg_taken g0)). exists (q0 ++ [g']).
  assert (LB : Z.of_nat (length (hg_bytes g')) = Z.of_nat (length (hg_bytes g0)) + db_size b)
    by (unfold g', db_size; cbn; rewrite length_app; lia).
  split; cbn [hv_slots hv_w hv_r hv_result].
  - rewrite Ew at 1. apply (ring_update _ _ (q0 ++ [g0])); [exact K1 | lia | rewrite length_app; cbn; lia | |].
    + rewrite Nat2Z.id, list_lookup_middle by reflexivity. eexists. split; [exact Ec'|].
      change (read_position (append (db_data b) d)) with (read_position d).
      rewrite Ew', Ez', A2, S4. change (hg_size g') with (hg_size g0). change (hg_taken g') with (hg_taken g0).
      split_and!; (assumption || reflexivity || lia).
    + intros j Hj Hne. destruct (Z.lt_ge_cases j (Z.of_nat (length q0))); [rewrite !lookup_app_l by lia; reflexivity|].
      rewrite !(proj2 (lookup_ge_None _ _)) by (rewrite length_app; cbn; lia). reflexivity.
  - rewrite length_app. cbn [length]. split; [exact I1|]. split; [intros [I _]; discriminate|]. intros _. cbn [hv_w hv_r].
    rewrite next_index_mod by lia. exact I3.
  - intros _ _. rewrite last_snoc. change (hg_size g') with (hg_size g0). lia.
  - rewrite K4. unfold queued. rewrite !map_app, !concat_app. cbn [map concat]. rewrite !app_nil_r, <- !app_assoc. do 2 f_equal.
    unfold unread, g'. cbn [hg_bytes hg_taken]. rewrite skipn_app. f_equal.
    replace (Z.to_nat (hg_taken g0) - length (hg_bytes g0))%nat with 0%nat by lia. reflexivity.
  - intros I. contradiction.
Qed.

(** A step of the source's thread or of the flush that leaves the ring alone. *)
Lemma inv_writer v w w' fl left wr dl : view_inv v w fl left wr dl -> waiting w' = waiting w -> w' <> WIdle ->
  (fl = Flushed -> w <> WIdle \/ hv_result v = FLOW_OK) -> view_inv v w' fl left wr dl.
Proof.
  intros (H1 & H2 & H3 & H4) Hw Hi Hf. split; [exact H1|]. split; [exact H2|]. split; [exact H3|].
  destruct H4 as [(q & [K1 K2 K3 K4 K5])|H4]; [left; exists q | right; exact H4]. split; [exact K1 | | | exact K4|].
  - unfold index_ok in *. rewrite Hw. exact K2.
  - intros I. contradiction.
  - intros I. destruct (K5 I) as [R Q]. split; [exact R|]. left. destruct (Hf I); [tauto | contradiction].
Qed.
(** The source's thread gives up: a segment that was refused. *)
Lemma inv_refused v w fl left left' wr dl : view_inv v w fl left wr dl -> hv_result v <> FLOW_OK -> view_inv v WIdle fl left' wr dl.
Proof.
  intros (H1 & H2 & H3 & H4) R. split; [exact H1|]. split; [exact H2|]. split; [exact H3|].
  destruct (decide (fl = Flushed)) as [->|F]; [|right; auto]. destruct H4 as [(q & [K1 K2 K3 K4 K5])|[_ H4]]; [left; exists q | contradiction].
  split; [exact K1 | | intros _ I; contradiction | exact K4|].
  - destruct K2 as (I1 & _ & I3). split; [exact I1|]. split; [intros [I _]; discriminate | intros _; apply I3; auto].
  - intros _. auto.
Qed.

Lemma inv_claimed v w fl left wr dl : view_inv v w fl left wr dl -> waiting w = true -> hv_result v = FLOW_OK -> claimed v fl wr dl.
Proof.
  intros (_ & _ & _ & H4) Hw R. destruct H4 as [(q & [K1 K2 K3 K4 K5])|[K _]]; [|contradiction].
  assert (F : fl <> Flushed) by (intros ->; destruct (K5 eq_refl); contradiction).
  exists q. destruct K2 as (_ & I2 & _). split_and!; [exact K1 | apply I2; auto | exact K4 | intros; contradiction].
Qed.
Lemma inv_next v w s fl left wr dl : view_inv v w fl left wr dl -> w = WPushed s ->
  claimed (mkHView (hv_slots v) (next_index (hv_w v)) (hv_r v) (hv_result v) (hv_flushing v)) fl wr dl \/ (hv_result v <> FLOW_OK /\ fl <> Flushed).
Proof.
  intros (_ & _ & _ & H4) ->. destruct H4 as [(q & [K1 K2 K3 K4 K5])|H4]; [left; exists q | right; exact H4].
  destruct K2 as (_ & _ & I3). split_and!; [exact K1 | apply I3; auto | exact K4|].
  intros I. destruct (K5 I) as [R [Q|Q]]; [auto | discriminate].
Qed.

Lemma inv_task c e x : hconf_inv c -> next_outcome (hc_element c) x e -> hconf_inv (at_task c e x).
Proof.
  intros H Hx. unfold hconf_inv, at_task in *. simpl_set. destruct x as [|b|r].
  - cbn in Hx. rewrite Hx, app_nil_r. exact H.
  - destruct Hx as (R & s & d & Es & Ed & Hn & Hw & Hb & Hv). cbn [pushed]. eapply inv_read; eassumption.
  - destruct Hx as (r' & Hr & ->). rewrite app_nil_r. apply (inv_result _ _ _ _ _ _ r' H Hr).
Qed.

(** A new ring of free slots. *)
Lemma free_ring s0 s1 s2 : free_slot s0 -> free_slot s1 -> free_slot s2 -> ring [s0; s1; s2] 0 [].
Proof.
  intros H0 H1 H2. split; [reflexivity|]. split; [lia|]. split; [cbn; lia|]. intros i Hi.
  assert (F : forall s, free_slot s -> slot_holds s None).
  { intros s (d & b & (D1 & D2 & D3) & ->). exists d. split; [reflexivity|]. split; [reflexivity|]. split; [exact D1 | lia]. }
  assert (E : i = 0 \/ i = 1 \/ i = 2) by lia. destruct E as [-> | [-> | ->]]; (eexists; split; [reflexivity | apply F; assumption]).
Qed.
Lemma free_well s : free_slot s -> slot_well s.
Proof. intros (d & b & (D1 & _) & ->). exists d. split; [reflexivity | exact D1]. Qed.
Lemma inv_free s0 s1 s2 w r fl flushing left :
  free_slot s0 -> free_slot s1 -> free_slot s2 -> waiting w = false \/ fl = Flushed -> (fl = Flushed -> r <> FLOW_OK) ->
  (fl <> NotFlushing -> flushing = true) -> left <= 0 ->
  view_inv (mkHView [s0; s1; s2] (-1) 0 r flushing) w fl left [] [].
Proof.
  intros F0 F1 F2 Hw Hr Hf Hl. split; [|split; [exact Hf | split; [exists []; reflexivity | left; exists []]]].
  - split; [reflexivity|]. repeat (apply Forall_cons; split; [apply free_well; assumption|]). apply Forall_nil. exact I.
  - split; cbn [hv_slots hv_r hv_result]; [apply free_ring; assumption | | intros _ _; exact Hl | reflexivity|].
    + split; [cbn; lia|]. split; [intros [I1 I2]; destruct Hw; congruence | reflexivity].
    + intros I. auto.
Qed.

Lemma ring_init_view `{EV : PEnv} : pwp hls_progress_buffer_init tt (fun e _ t => os_ok t ->
  exists s0 s1 s2, free_slot s0 /\ free_slot s1 /\ free_slot s2 /\ view e = mkHView [s0; s1; s2] (-1) 0 FLOW_OK false).
Proof.
  assert (N : pwp new_slot tt (fun s _ t => os_ok t -> free_slot s)).
  { unfold new_slot. pstep. eapply pwp_mono; [apply create_cache_spec|]. cbn beta. intros c u t [-> Hc]. psteps. rewrite os_ok_app.
    intros [T _]. rewrite (Hc T). exists (mkCache [] 0 0 0 0), false. split; [|reflexivity]. split; [split; cbn; lia | auto]. }
  unfold hls_progress_buffer_init. pstep. eapply pwp_mono; [exact N|]. cbn beta. intros s0 [] t0 F0.
  pstep. eapply pwp_mono; [exact N|]. cbn beta. intros s1 [] t1 F1. pstep. eapply pwp_mono; [exact N|]. cbn beta. intros s2 [] t2 F2.
  pstep. rewrite !os_ok_app. intros T. exists s0, s1, s2. split_and!; [apply F0, T | apply F1, T | apply F2, T | reflexivity].
Qed.

Lemma hconf_step c c' : hconf_inv c -> hls_step c c' -> hconf_inv c'.
Proof.
  intros H S. pose proof H as (OK & Hfl & Hrest & _).
  cbn [view hv_slots hv_flushing hv_w hv_r hv_result] in OK, Hfl. destruct S.
  - pose proof (runs_plwp _ _ _ _ _ _ (fun E => @ring_chain_view E b _ OK) H2 H3) as V. cbn beta in V.
    destruct (accepts (hc_element c)) eqn:A; unfold hconf_inv in *; simpl_set; [|rewrite V; exact H].
    destruct V as (s & d & s' & Es & Ed & Es' & Hv). rewrite H0 in *. eapply ring_inv_append; eauto.
  - destruct (runs_plwp _ _ _ _ _ _ (fun E => @begin_view E s _) H2) as [V R]. unfold hconf_inv in *. simpl_set. rewrite V, H0 in *. destruct r.
    + eapply inv_writer; [exact H | reflexivity | discriminate|]. intros _. right. apply R. reflexivity.
    + eapply inv_refused; [exact H|]. intros R'. apply R in R'. discriminate.
  - pose proof (runs_plwp _ _ _ _ _ (fun _ e' _ => view e' = view (hc_element c)) (fun E => @segment_push_view E s _) H1) as V.
    cbn beta in V. unfold hconf_inv in *. simpl_set. rewrite V, H0 in *.
    eapply inv_writer; [exact H | reflexivity | discriminate|]. intros _. left. discriminate.
  - eapply inv_take; [eassumption | | | | | exact (runs_plwp _ _ _ _ _ _ (fun E => @segment_next_view E s _ OK) H2 H3)].
    + exact OK.
    + exact Hfl.
    + exact Hrest.
    + exact (inv_next _ _ s _ _ _ _ H H0).
  - pose proof (runs_plwp _ _ _ _ _ (fun _ e' _ => view e' = view (hc_element c)) (fun E => @full_view E _) H1) as V.
    cbn beta in V. unfold hconf_inv in *. simpl_set. rewrite V, H0 in *.
    eapply inv_writer; [exact H | reflexivity | discriminate|]. intros _. left. discriminate.
  - pose proof (runs_plwp _ _ _ _ _ _ (fun E => @segment_wake_view E s _ OK) H2 H3) as V. cbn beta in V.
    case_bool_decide as R.
    + eapply inv_take; [eassumption | exact OK | exact Hfl | exact Hrest | left | exact V].
      eapply inv_claimed; [exact H | rewrite H0; reflexivity | exact R].
    + destruct V as [-> V]. unfold hconf_inv, after_take in *. simpl_set. rewrite V. eapply inv_refused; [exact H | exact R].
  - pose proof (runs_plwp _ _ _ _ _ (fun _ e' _ => view e' = view (hc_element c)) (fun E => @eos_view E _) H1) as V.
    cbn beta in V. unfold hconf_inv in *. simpl_set. rewrite V. exact H.
  - apply inv_task; [exact H|]. refine (runs_plwp (fun E => @hls_enter E) _ _ _ _ (fun x e' _ => next_outcome (hc_element c) x e') _ H1).
    intros E. unfold hls_enter. pstep. pstep. apply next_view, OK.
  - apply inv_task; [exact H|]. exact (runs_plwp (fun E => @hls_next E) _ _ _ _ _ (fun E => @next_view E _ OK) H1).
  - destruct (runs_plwp _ _ _ _ _ _ (fun E => @push_view E b _) H1) as (_ & r' & Hr & V). unfold hconf_inv in *. simpl_set.
    rewrite V. apply (inv_result _ _ _ _ _ _ r' H Hr).
  - pose proof (runs_plwp _ _ _ _ _ (fun _ e' _ => view e' = view (hc_element c)) (fun E => @finish_view E r _) H1) as V.
    cbn beta in V. unfold hconf_inv in *. simpl_set. rewrite V. exact H.
  - pose proof (runs_plwp _ _ _ _ _ (fun _ e' _ => view e' = view (hc_element c <| hb_is_flushing := true |>)) (fun E => @flush_begin_view E n _) H1) as V.
    cbn beta in V. unfold hconf_inv in *. simpl_set. rewrite V, H0 in *. destruct H as (_ & _ & _ & H).
    split; [exact OK|]. split; [reflexivity|]. split; [exact Hrest|].
    destruct H as [(q & [K1 K2 K3 K4 K5])|[H _]]; [left; exists q | right; split; [exact H | discriminate]].
    split; [exact K1 | | | exact K4 | discriminate].
    + destruct K2 as (I1 & I2 & I3). split; [exact I1|]. split; [intros [I _]; apply I2; split; [exact I | discriminate]|].
      intros [I|I]; [apply I3; auto | discriminate].
    + intros I _. apply K3; [exact I | discriminate].
  - destruct (runs_plwp _ _ _ _ _ _ (fun E => @flush_end_view E _ OK) H1 H2) as (s0 & s1 & s2 & F0 & F1 & F2 & V).
    unfold hconf_inv in *. simpl_set. rewrite V. apply inv_free; try assumption; try auto; try lia; try discriminate.
    intros _. apply Hfl. rewrite H0. discriminate.
  - pose proof (runs_plwp _ _ _ _ _ (fun _ e' _ => view e' = view (hc_element c <| hb_is_flushing := false |> <| hb_srcresult := FLOW_OK |>))
      (fun E => @flush_stop_view E n _) H2) as V.
    cbn beta in V. unfold hconf_inv in *. simpl_set. rewrite V, H0, H1 in *. destruct H as (_ & _ & _ & H).
    split; [exact OK|]. split; [contradiction|]. split; [exact Hrest|].
    destruct H as [(q & [K1 K2 K3 K4 K5])|[_ H]]; [left; exists q | contradiction].
    split; [exact K1 | | | exact K4 | discriminate].
    + destruct K2 as (I1 & I2 & I3). split; [exact I1|]. split; [intros [I _]; discriminate|]. intros _. apply I3. auto.
    + intros _ _. destruct q as [|g q0 _] using rev_ind; [cbn; lia|]. rewrite last_snoc. destruct K1 as (_ & _ & L & K1).
      rewrite length_app in L. cbn [length] in L.
      destruct (K1 (Z.of_nat (length q0)) ltac:(lia)) as (s & _ & d & _ & Hh). rewrite Nat2Z.id, list_lookup_middle in Hh by reflexivity.
      destruct Hh as (_ & _ & _ & _ & _ & _ & Hh). lia.
Qed.

Lemma hconf_exec c c' : hconf_inv c -> hls_exec c c' -> hconf_inv c'.
Proof. intros H X. induction X; [exact H|]. eauto using hconf_step. Qed.

(** A new element, before the pads are linked. *)
Definition hconf_init (e : HLSProgressBuffer) : hconf := mkHConf e HIdle WIdle NotFlushing 0 [] [].


Definition demo_slot : HLSSlot := mkHLSSlot (Some (mkCache [] 0 0 0 0)) 0 true false.
Definition demo_element : HLSProgressBuffer :=
  mkHLSProgressBuffer [demo_slot; demo_slot; demo_slot] (-1) 0 true true false false FLOW_OK GST_CLOCK_TIME_NONE.
Definition demo_segment : GstSegment := gst_segment_init FORMAT_BYTES <| sg_stop := 5 |>.
Definition demo_buffer : DataBuffer := mkDataBuffer 0 [1; 2; 3; 4; 5] false 0 0.


(** A segment that follows a delivered end of stream is dropped: the code that
    restarts the task is behind the test that the task has not ended. *)
Theorem segment_after_eos_refused : exists e1 e2 e3 t1 t2 t3,
  runs (fun E => @end_of_stream E) demo_element true e1 t1 /\
  runs (fun E => @hls_enter E) e1 (HDone FLOW_FLUSHING) e2 t2 /\
  runs (fun E => @segment_begin E demo_segment) e2 false e3 t3 /\ hb_is_eos e3 = true /\ hb_srcresult e3 = FLOW_FLUSHING.
Proof.
  do 6 eexists. split; [run_nominal|]. split; [run_nominal|]. split; [run_nominal|]. split; vm_compute; reflexivity.
Qed.

(** A wake-up can be lost: the task frees the slot while the source's thread
    announces the full ring without the lock, and the thread then waits for a
    slot that is ready. *)
Definition full_slot (n : Z) : HLSSlot := mkHLSSlot (Some (mkCache [n] 1 0 0 1)) 1 false false.
Definition full_element : HLSProgressBuffer :=
  mkHLSProgressBuffer [full_slot 1; full_slot 2; full_slot 3] 2 0 false true false false FLOW_OK GST_CLOCK_TIME_NONE.
Definition signals_waiter (o : pobs) : bool :=
  match o with @PObs R c _ => match c with g_cond_signal DelCond => true | _ => false end end.
Theorem full_ring_wakeup_lost : exists b e1 e2 e3 t1 t2 t3,
  runs (fun E => @segment_next E demo_segment) full_element SegFull e1 t1 /\
  runs (fun E => @hls_enter E) e1 (HPush b) e2 t2 /\ existsb signals_waiter t2 = true /\
  runs (fun E => @segment_full E) e2 tt e3 t3 /\
  option_map hs_write_ready (slot_at (hb_write_index e3) e3) = Some true.
Proof.
  do 7 eexists. split; [run_nominal|]. split; [run_nominal|]. split; [vm_compute; reflexivity|]. split; [run_nominal|].
  vm_compute. reflexivity.
Qed.
