(* ===== verification/JavaSource.v ===== *)
(** * The Java source ([plugins/javasource/javasource.c])

    The element that reads the media data from Java: its signals are handled
    by the locator's stream callbacks.  In push mode a task sends the stream
    start, a segment and the blocks Java reads; in pull mode downstream asks
    for ranges; an HTTP live stream is read segment by segment. *)

From S2P Require Import Prelude CFloat MediaTypes GstApi PluginApi.
Local Open Scope Z_scope.
Local Open Scope plugin_scope.

Definition MAX_READ_SIZE : Z := 65536.
Definition EOS_CODE : Z := -1.
Definition OTHER_ERROR_CODE : Z := -2.
Definition HLS_PROP_GET_DURATION : Z := 1.
Definition HLS_PROP_LOAD_SEGMENT : Z := 4.
Definition HLS_PROP_SEGMENT_START_TIME : Z := 5.
Definition HLS_VALUE_FLOAT_MULTIPLIER : Z := 1000.
Definition MODE_DEFAULT : Z := 1.
Definition MODE_HLS : Z := 2.
Definition MODE_HLS_LIVE : Z := 4.

(** The event types the element keeps in [pending_event]. *)
Inductive Pending := PENDING_UNKNOWN | PENDING_STREAM_START | PENDING_SEGMENT | PENDING_EOS.
#[export] Instance Pending_eq_dec : EqDecision Pending.
Proof. solve_decision. Defined.

(** [struct _JavaSource]. *)
Record JavaSource := mkJavaSource {
  js_srcresult : GstFlow;
  js_pending_event : Pending;
  js_position : Z;
  js_position_time : Z;
  js_size : Z;
  js_is_seekable : bool;
  js_is_random_access : bool;
  js_update : bool;
  js_discont : bool;
  js_mode : Z;
  js_stop_on_pause : bool;
  js_location : option string;
  js_mimetype : option string;
  js_rate : double }.
#[export] Instance eta_JavaSource : Eta JavaSource :=
  eta_ap (eta_ap (eta_ap (eta_ap (eta_ap (eta_ap (eta_ap (eta_ap (eta_ap (eta_ap (eta_ap (eta_ap (eta_ap (eta_ap
  (eta_pure mkJavaSource)
    js_srcresult) js_pending_event) js_position) js_position_time) js_size) js_is_seekable) js_is_random_access)
    js_update) js_discont) js_mode) js_stop_on_pause) js_location) js_mimetype) js_rate.

(** A new element: GObject sets the defaults of the construct properties. *)
Definition java_source_init : JavaSource :=
  mkJavaSource FLOW_OK PENDING_UNKNOWN 0 0 (-1) false false false false MODE_DEFAULT true None None d_one.

Inductive js_property :=
| PROP_SIZE (v : Z) | PROP_IS_SEEKABLE (v : bool) | PROP_IS_RANDOM_ACCESS (v : bool) | PROP_STOP_ON_PAUSE (v : bool)
| PROP_LOCATION (v : option string) | PROP_MIMETYPE (v : option string) | PROP_HLS_MODE (v : bool).

Definition has_mode (m : Z) (e : JavaSource) : bool := Z.land (js_mode e) m =? m.

(** [strstr(s, sub) != NULL]. *)
Fixpoint contains (sub s : string) : bool :=
  String.prefix sub s || match s with EmptyString => false | String _ s => contains sub s end.

Section Element.
Context `{EV : PEnv}.
Abbreviation M := (PM JavaSource).

Definition java_source_set_property (p : js_property) : M unit :=
  match p with
  | PROP_SIZE v => js_size <~ v
  | PROP_IS_SEEKABLE v => js_is_seekable <~ v
  | PROP_IS_RANDOM_ACCESS v => js_is_random_access <~ v
  | PROP_STOP_ON_PAUSE v => js_stop_on_pause <~ v
  | PROP_LOCATION v => js_location <~ v
  | PROP_HLS_MODE v => js_mode <~ (if v then MODE_HLS else MODE_DEFAULT)
  | PROP_MIMETYPE v => js_mimetype <~ v
  end.
Definition java_source_get_property : M (option string) := pgets js_location.

Definition java_source_finalize : M unit :=
  ask g_free ;;
  let* mimetype := pgets js_mimetype in
  match mimetype with Some _ => ask g_free | None => pret tt end.

Definition set_result (r : GstFlow) : M unit := ask g_mutex_lock ;; js_srcresult <~ r ;; ask g_mutex_unlock.

Definition java_source_activatemode (mode : PadMode) (active : bool) : M bool :=
  match mode with
  | PAD_MODE_PUSH =>
      if active then
        set_result FLOW_OK ;;
        let* linked := ask pad_is_linked in
        if linked then ask pad_start_task else pret true
      else set_result FLOW_FLUSHING ;; ask pad_stop_task
  | PAD_MODE_PULL => pret true
  | PAD_MODE_NONE => pret false
  end.

(** ** Seeking *)

Definition seek_flushes (s : GstSeek) : bool := negb (Z.land (sk_flags s) GST_SEEK_FLAG_FLUSH =? 0).

(** Up to the stream lock: a refused format, or the task is told to stop. *)
Definition seek_request (s : GstSeek) (seqnum : Z) : M bool :=
  let* e := pgets (fun e => e) in
  if negb (bool_decide (sk_format s = FORMAT_BYTES)) && has_mode MODE_DEFAULT e then pret false
  else if negb (bool_decide (sk_format s = FORMAT_TIME)) && has_mode MODE_HLS e then pret false
  else
    pwhen (seek_flushes s) (ask (pad_push_event SrcPad (EvFlushStart seqnum)) ;; pret tt) ;;
    set_result FLOW_FLUSHING ;;
    pret true.

(** The rest; a live stream asks Java before it takes the stream lock. *)
Definition seek_perform (s : GstSeek) (seqnum : Z) : M bool :=
  let* e := pgets (fun e => e) in
  pwhen (negb (has_mode MODE_HLS_LIVE e)) (ask stream_lock) ;;
  let position := if has_mode MODE_HLS e then Z.quot (sk_start s) GST_SECOND else sk_start s in
  let* new_position := ask (sig_seek_data position) in
  pwhen (has_mode MODE_HLS_LIVE e) (ask stream_lock) ;;
  pwhen (0 <=? new_position)
    (js_rate <~ sk_rate s ;;
     js_pending_event <~ PENDING_SEGMENT ;;
     pmodify (fun e => if has_mode MODE_HLS e
       then e <| js_position := 0 |> <| js_position_time := Z.quot (s64 (new_position * GST_SECOND)) HLS_VALUE_FLOAT_MULTIPLIER |>
       else e <| js_position := position |> <| js_position_time := 0 |>) ;;
     js_discont <~ true ;;
     js_update <~ false) ;;
  set_result FLOW_OK ;;
  pwhen (seek_flushes s) (ask (pad_push_event SrcPad (EvFlushStop seqnum)) ;; pret tt) ;;
  ask pad_start_task ;;
  ask stream_unlock ;;
  ask (event_unref (EvSeek s seqnum)) ;;
  pret (0 <=? new_position).

Definition java_source_perform_seek (s : GstSeek) (seqnum : Z) : M bool :=
  let* accepted := seek_request s seqnum in
  if accepted then seek_perform s seqnum else pret false.

Definition java_source_event (ev : GstEvent) : M bool :=
  let* seekable := pgets js_is_seekable in
  match ev with
  | EvSeek s seqnum => if seekable then java_source_perform_seek s seqnum else ask (pad_event_default ev)
  | _ => ask (pad_event_default ev)
  end.

(** ** The task of the source pad *)

(** [gst_pad_push_event(srcpad, ev) ? GST_FLOW_OK : GST_FLOW_FLUSHING]. *)
Definition push_event (ev : GstEvent) : M GstFlow :=
  let* ok := ask (pad_push_event SrcPad ev) in pret (if ok then FLOW_OK else FLOW_FLUSHING).

Definition byte_segment (e : JavaSource) : GstSegment :=
  gst_segment_init FORMAT_BYTES <| sg_flags := if js_update e then SEGMENT_FLAG_UPDATE else 0 |> <| sg_rate := js_rate e |>.
Definition default_segment (e : JavaSource) : GstSegment :=
  byte_segment e <| sg_start := u64 (js_position e) |> <| sg_stop := u64 (js_size e) |> <| sg_position := u64 (js_position e) |>.
Definition hls_segment (e : JavaSource) (result start_time : Z) : GstSegment :=
  byte_segment e <| sg_start := u64 (Z.quot (start_time * GST_SECOND) HLS_VALUE_FLOAT_MULTIPLIER) |> <| sg_stop := u64 result |>
    <| sg_time := u64 (js_position_time e) |> <| sg_position := u64 (js_position_time e) |>.

(** The caps of the first buffer, when Java has announced a type. *)
Definition push_caps : M unit :=
  let* mimetype := pgets js_mimetype in
  match mimetype with
  | Some m =>
      ask (pad_push_event SrcPad (if contains "audio/aac" m then EvCaps "audio/mpeg" (Some 4) else EvCaps m None)) ;;
      ask g_free ;;
      js_mimetype <~ None
  | None => pret tt
  end.

(** One block of [size] bytes, or nothing when there is no memory for it. *)
Definition push_block (size : Z) : M GstFlow :=
  let* buffer := ask (buffer_new size) in
  if buffer then
    let* mapped := ask buffer_map in
    if mapped then
      let* bytes := ask (sig_copy_block size) in
      ask buffer_unmap ;;
      let* e := pgets (fun e => e) in
      js_discont <~ false ;;
      push_caps ;;
      let* result := ask (pad_push (mkDataBuffer (u64 (js_position e)) (firstn (Z.to_nat size) (bytes ++ repeat 0 (Z.to_nat size)))
        (js_discont e) GST_CLOCK_TIME_NONE GST_CLOCK_TIME_NONE)) in
      pmodify (fun e => if bool_decide (js_pending_event e = PENDING_SEGMENT) then e
                        else e <| js_position := s64 (js_position e + size) |>) ;;
      pret result
    else pret FLOW_ERROR
  else pret FLOW_OK.

(** From [next_event] to the end of the switch; [fuel] bounds the jumps back. *)
Fixpoint next_event (fuel : nat) : M (option GstFlow) :=
  match fuel with
  | O => pret None
  | S fuel =>
      let* e := pgets (fun e => e) in
      match js_pending_event e with
      | PENDING_STREAM_START =>
          let* result := push_event EvStreamStart in
          js_pending_event <~ PENDING_SEGMENT ;;
          pret (Some result)
      | PENDING_SEGMENT =>
          if has_mode MODE_HLS e then
            let* result := ask (sig_property HLS_PROP_LOAD_SEGMENT 0) in
            let* start_time := ask (sig_property HLS_PROP_SEGMENT_START_TIME 0) in
            ask g_mutex_lock ;;
            let* srcresult := pgets js_srcresult in
            ask g_mutex_unlock ;;
            if bool_decide (srcresult = FLOW_FLUSHING) then pret (Some FLOW_OK)
            else if result =? -1 then js_pending_event <~ PENDING_EOS ;; next_event fuel
            else
              pwhen (result <? 0) (js_discont <~ true) ;;
              let* pushed := push_event (EvSegment (hls_segment e (if result <? 0 then s32 (- result) else result) start_time)) in
              js_pending_event <~ PENDING_UNKNOWN ;;
              pret (Some pushed)
          else
            let* pushed := push_event (EvSegment (default_segment e)) in
            js_pending_event <~ PENDING_UNKNOWN ;;
            pret (Some pushed)
      | PENDING_EOS => ask (pad_push_event SrcPad EvEos) ;; pret (Some FLOW_EOS)
      | PENDING_UNKNOWN =>
          let* size := ask sig_read_next_block in
          if 0 <? size then
            let* result := push_block size in
            if bool_decide (result = FLOW_EOS) then js_pending_event <~ PENDING_EOS ;; next_event fuel
            else pret (Some result)
          else if has_mode MODE_DEFAULT e && (size =? EOS_CODE) then js_pending_event <~ PENDING_EOS ;; next_event fuel
          else if has_mode MODE_HLS e && (size =? EOS_CODE) then js_pending_event <~ PENDING_SEGMENT ;; next_event fuel
          else if size =? OTHER_ERROR_CODE then pret (Some FLOW_FLUSHING)
          else pret (Some FLOW_OK)
      end
  end.

(** No path jumps back more than twice. *)
Definition next_event_fuel : nat := 3.

(** The three sections of the function; the element's lock is free between. *)
Definition loop_begin : M GstFlow :=
  ask g_mutex_lock ;; let* result := pgets js_srcresult in ask g_mutex_unlock ;; pret result.
Definition loop_body (result : GstFlow) : M (option GstFlow) :=
  if bool_decide (result = FLOW_OK) then next_event next_event_fuel else pret (Some result).
Definition loop_end (result : GstFlow) : M unit :=
  ask g_mutex_lock ;;
  let* src := pgets js_srcresult in
  let keep := bool_decide (src = FLOW_OK) || negb (bool_decide (result = FLOW_OK)) in
  pwhen keep (js_srcresult <~ result) ;;
  ask g_mutex_unlock ;;
  pwhen (negb (bool_decide ((if keep then result else src) = FLOW_OK))) (ask pad_pause_task).

(** ** Queries *)

Inductive Query := QUERY_DURATION (f : Format) | QUERY_SCHEDULING | QUERY_SEEKING (f : Format) | QUERY_OTHER.
Inductive Answer :=
| NO_ANSWER
| ANSWER_DURATION (f : Format) (duration : Z)
| ANSWER_SCHEDULING (mode : PadMode)
| ANSWER_SEEKING (start stop : Z)
| ANSWER_DEFAULT (ok : bool).

Definition java_source_query (q : Query) : M Answer :=
  let* e := pgets (fun e => e) in
  match q with
  | QUERY_DURATION f =>
      if has_mode MODE_HLS e then
        if negb (bool_decide (f = FORMAT_TIME)) then pret NO_ANSWER
        else
          let* duration := ask (sig_property HLS_PROP_GET_DURATION 0) in
          pwhen (duration <? 0) (js_mode <~ Z.lor (js_mode e) MODE_HLS_LIVE) ;;
          pret (ANSWER_DURATION FORMAT_TIME (Z.quot (duration * GST_SECOND) HLS_VALUE_FLOAT_MULTIPLIER))
      else if negb (bool_decide (f = FORMAT_BYTES)) then pret NO_ANSWER
      else pret (ANSWER_DURATION FORMAT_BYTES (js_size e))
  | QUERY_SCHEDULING => pret (ANSWER_SCHEDULING (if js_is_random_access e then PAD_MODE_PULL else PAD_MODE_PUSH))
  | QUERY_SEEKING f =>
      if negb (bool_decide (f = FORMAT_BYTES)) || negb (js_is_seekable e) then pret NO_ANSWER
      else pret (ANSWER_SEEKING 0 (js_size e))
  | QUERY_OTHER => let* ok := ask pad_query_default in pret (ANSWER_DEFAULT ok)
  end.

(** ** Pull mode *)

Inductive range_exit := RangeData (bytes : list Z) | RangeEos.

(** The loop of [java_source_getrange]; [data] is what was copied so far. *)
Fixpoint read_range (fuel : nat) (offset length : Z) (data : list Z) : M (option range_exit) :=
  let read := Z.of_nat (List.length data) in
  match fuel with
  | O => pret None
  | S fuel =>
      if read <? length then
        let toRead := if MAX_READ_SIZE <=? length - read then MAX_READ_SIZE else length - read in
        let* size := ask (sig_read_block (u64 (offset + read)) toRead) in
        if (0 <? size) && (size <=? toRead) then
          let* bytes := ask (sig_copy_block size) in
          let data := data ++ firstn (Z.to_nat size) (bytes ++ repeat 0 (Z.to_nat size)) in
          if size <? toRead then pret (Some (RangeData data)) else read_range fuel offset length data
        else if (size =? EOS_CODE) || (size =? 0) then ask buffer_unmap ;; ask buffer_unref ;; pret (Some RangeEos)
        else read_range fuel offset length data
      else pret (Some (RangeData data))
  end.

Definition java_source_getrange (fuel : nat) (offset length : Z) : M (option (GstFlow * option DataBuffer)) :=
  let* buf := ask (buffer_new length) in
  if negb buf then pret (Some (FLOW_ERROR, None))
  else
    let* mapped := ask buffer_map in
    if negb mapped then ask buffer_unref ;; pret (Some (FLOW_ERROR, None))
    else
      let* exit := read_range fuel offset length [] in
      match exit with
      | None => pret None
      | Some RangeEos => pret (Some (FLOW_EOS, None))
      | Some (RangeData bytes) =>
          ask buffer_unmap ;;
          pret (Some (FLOW_OK, Some (mkDataBuffer offset bytes false GST_CLOCK_TIME_NONE GST_CLOCK_TIME_NONE)))
      end.

(** ** State changes *)

Definition java_source_change_state (transition : StateChange) : M GstStateChangeReturn :=
  match transition with
  | READY_TO_PAUSED =>
      ask stream_lock ;;
      pmodify (fun e => e <| js_pending_event := PENDING_STREAM_START |> <| js_position := 0 |> <| js_position_time := 0 |>
                          <| js_discont := false |> <| js_update := negb (has_mode MODE_HLS e) |>) ;;
      ask stream_unlock ;;
      set_result FLOW_OK
  | PAUSED_TO_PLAYING =>
      ask g_mutex_lock ;;
      let* stop := pgets js_stop_on_pause in
      pwhen stop (js_srcresult <~ FLOW_OK) ;;
      ask g_mutex_unlock
  | _ => pret tt
  end ;;
  let* ret := ask parent_change_state in
  if bool_decide (ret = GST_STATE_CHANGE_FAILURE) then pret ret
  else
    match transition with
    | PLAYING_TO_PAUSED =>
        ask g_mutex_lock ;;
        let* stop := pgets js_stop_on_pause in
        pwhen stop (js_srcresult <~ FLOW_FLUSHING) ;;
        ask g_mutex_unlock
    | READY_TO_NULL =>
        ask g_mutex_lock ;;
        let* stop := pgets js_stop_on_pause in
        pwhen (negb stop) (js_srcresult <~ FLOW_FLUSHING) ;;
        js_size <~ -1 ;;
        ask sig_close_connection ;;
        ask g_mutex_unlock
    | _ => pret tt
    end ;;
    pret ret.
End Element.
