(* ===== verification/JavaStream.v ===== *)
(** * The Java source as a stream

    In push mode the buffers follow one another from the segment on
    ([java_source_contiguous]), and the task returns after at most two jumps
    back ([java_source_loop_ends]).  In pull mode a range holds the bytes of
    the source and reading it ends ([getrange_reads]), unless Java keeps
    answering with an error ([getrange_spins]). *)

From S2P Require Import Prelude CFloat MediaTypes GstApi PluginApi JavaSource.
Local Open Scope Z_scope.
Local Open Scope plugin_scope.

(** ** Push mode *)

Section Loop.
Context `{EV : PEnv}.

Lemma push_event_spec ev e : pwp (push_event ev) e (fun _ e' _ => e' = e).
Proof. unfold push_event. psteps. reflexivity. Qed.

Lemma next_event_pending fuel e : pwp (next_event fuel) e (fun r _ _ => match js_pending_event e with
  | PENDING_UNKNOWN => (3 <= fuel)%nat
  | PENDING_SEGMENT => (2 <= fuel)%nat
  | _ => (1 <= fuel)%nat
  end -> r <> None).
Proof.
  revert e. induction fuel as [|fuel IH]; intros e.
  { cbn. pstep. destruct (js_pending_event e); lia. }
  assert (EOS : forall e', js_pending_event e' = PENDING_EOS -> pwp (next_event fuel) e' (fun r _ _ => (1 <= fuel)%nat -> r <> None)).
  { intros e' E. eapply pwp_mono; [apply IH|]. cbn beta. rewrite E. auto. }
  assert (SEG : forall e', js_pending_event e' = PENDING_SEGMENT -> pwp (next_event fuel) e' (fun r _ _ => (2 <= fuel)%nat -> r <> None)).
  { intros e' E. eapply pwp_mono; [apply IH|]. cbn beta. rewrite E. auto. }
  cbn [next_event]. unfold push_event. pstep. pstep. destruct (js_pending_event e) eqn:P.
  - pstep. pstep. pstep.
    + pstep. eapply pwp_mono with (P := fun _ _ _ => True); [|intros result e' t _].
      { unfold push_block, push_caps. psteps; exact I. }
      pstep; [|pstep; discriminate]. pstep. pstep. eapply pwp_mono; [apply EOS; reflexivity|]. cbn beta. intros r1 e1 t1 H Hf. apply H. lia.
    + pstep; [pstep; pstep; eapply pwp_mono; [apply EOS; reflexivity|]; cbn beta; intros r1 e1 t1 H Hf; apply H; lia|].
      pstep; [pstep; pstep; eapply pwp_mono; [apply SEG; reflexivity|]; cbn beta; intros r1 e1 t1 H Hf; apply H; lia|].
      pstep; pstep; discriminate.
  - psteps; discriminate.
  - pstep; [|psteps; discriminate]. do 10 pstep. pstep; [pstep; discriminate|].
    pstep; [pstep; pstep; eapply pwp_mono; [apply EOS; reflexivity|]; cbn beta; intros r3 e1 t1 H Hf; apply H; lia|].
    psteps; discriminate.
  - psteps. discriminate.
Qed.
End Loop.

(** The task of the Java source always returns: from the start of its
    function it jumps back to [next_event] at most twice - a read error or the
    end of the data asks for the next segment, its refusal for the end of the
    stream - whatever Java and downstream answer. *)
Theorem java_source_loop_ends `{PEnv} (result : GstFlow) (e : JavaSource) :
  pwp (loop_body result) e (fun r _ _ => r <> None).
Proof.
  unfold loop_body. pstep; [|pstep; discriminate]. eapply pwp_mono; [apply next_event_pending|]. cbn beta.
  intros r e' t Hr. apply Hr. unfold next_event_fuel. destruct (js_pending_event e); lia.
Qed.

(** *** Contiguous buffers *)

(** Where the task is between its sections. *)
Inductive jtask := JIdle | JBody (result : GstFlow) | JEnd (result : GstFlow).
Record jconf := mkJConf { jc_element : JavaSource; jc_task : jtask }.

(** What reaches downstream. *)
Inductive jpush := JSegment (s : GstSegment) | JBuffer (b : DataBuffer).
Definition jpush_of (o : pobs) : list jpush :=
  match o with
  | @PObs R c r =>
      match c with
      | pad_push b => [JBuffer b]
      | pad_push_event SrcPad (EvSegment s) => [JSegment s]
      | _ => []
      end
  end.
Definition jpushes (t : list pobs) : list jpush := concat (map jpush_of t).

(** One section of one thread.  The stream lock keeps seeks and the start of
    the pipeline apart from the task. *)
Inductive jstep (c : jconf) : list pobs -> jconf -> Prop :=
| jstep_begin r e' t :
    jc_task c = JIdle -> runs (fun E => @loop_begin E) (jc_element c) r e' t -> jstep c t (mkJConf e' (JBody r))
| jstep_body r r' e' t :
    jc_task c = JBody r -> runs (fun E => @loop_body E r) (jc_element c) (Some r') e' t -> jstep c t (mkJConf e' (JEnd r'))
| jstep_end r e' t :
    jc_task c = JEnd r -> runs (fun E => @loop_end E r) (jc_element c) tt e' t -> jstep c t (mkJConf e' JIdle)
| jstep_request s n r e' t :
    runs (fun E => @seek_request E s n) (jc_element c) r e' t -> jstep c t (mkJConf e' (jc_task c))
| jstep_seek s n r e' t :
    jc_task c = JIdle -> runs (fun E => @seek_perform E s n) (jc_element c) r e' t -> jstep c t (mkJConf e' (jc_task c))
| jstep_start r e' t :
    jc_task c = JIdle -> runs (fun E => @java_source_change_state E READY_TO_PAUSED) (jc_element c) r e' t ->
    jstep c t (mkJConf e' (jc_task c))
| jstep_state tr r e' t :
    tr <> READY_TO_PAUSED -> runs (fun E => @java_source_change_state E tr) (jc_element c) r e' t -> jstep c t (mkJConf e' (jc_task c))
| jstep_activate m active r e' t :
    runs (fun E => @java_source_activatemode E m active) (jc_element c) r e' t -> jstep c t (mkJConf e' (jc_task c))
| jstep_query q r e' t :
    runs (fun E => @java_source_query E q) (jc_element c) r e' t -> jstep c t (mkJConf e' (jc_task c)).
Inductive jexec : jconf -> list pobs -> jconf -> Prop :=
| jexec_refl c : jexec c [] c
| jexec_step c t c' t' c'' : jstep c t c' -> jexec c' t' c'' -> jexec c (t ++ t') c''.

(** Buffers follow the segment's start and one another; [None] before the
    first segment, when there is no buffer. *)
Definition jexpect (ex : option Z) (p : jpush) : option Z :=
  match p with JSegment s => Some (sg_start s) | JBuffer b => option_map (fun o => u64 (o + db_size b)) ex end.
Fixpoint contiguous (ex : option Z) (ps : list jpush) : Prop :=
  match ps with
  | [] => True
  | p :: ps => match p with JBuffer b => 0 < db_size b /\ ex = Some (db_offset b) | JSegment _ => True end /\ contiguous (jexpect ex p) ps
  end.

Lemma jpushes_app t t' : jpushes (t ++ t') = jpushes t ++ jpushes t'.
Proof. unfold jpushes. rewrite map_app, concat_app. reflexivity. Qed.
Lemma contiguous_app ps qs : forall ex, contiguous ex ps -> contiguous (fold_left jexpect ps ex) qs -> contiguous ex (ps ++ qs).
Proof. induction ps as [|p ps IH]; intros ex; [auto|]. intros [H1 H2] H. split; [exact H1 | apply IH; assumption]. Qed.

(** The element knows where the buffers go on, unless it owes an event. *)
Definition jinv (ex : option Z) (e : JavaSource) : Prop :=
  has_mode MODE_HLS e = false /\ (js_pending_event e = PENDING_UNKNOWN -> ex = Some (u64 (js_position e))).
Definition jpost (ex : option Z) {A} (_ : A) (e : JavaSource) (t : list pobs) : Prop :=
  contiguous ex (jpushes t) /\ jinv (fold_left jexpect (jpushes t) ex) e.

Lemma u64_s64 x : u64 (s64 x) = u64 x.
Proof. unfold u64, s64. rewrite Zminus_mod_idemp_l. f_equal. lia. Qed.

Section Contiguous.
Context `{EV : PEnv}.

(** Code that pushes nothing. *)
Lemma jpost_quiet {A} ex (a : A) e t : jpushes t = [] -> jinv ex e -> jpost ex a e t.
Proof. intros Ht H. unfold jpost. rewrite Ht. split; [exact I | exact H]. Qed.
Lemma jpost_app {A} ex (a : A) e t t' : contiguous ex (jpushes t) -> jpost (fold_left jexpect (jpushes t) ex) a e t' -> jpost ex a e (t ++ t').
Proof.
  intros H1 [H2 H3]. unfold jpost. rewrite jpushes_app, fold_left_app. split; [apply contiguous_app|]; assumption.
Qed.

Lemma push_caps_spec e : pwp push_caps e (fun _ e' t => jpushes t = [] /\ e' = e <| js_mimetype := None |>).
Proof.
  unfold push_caps. pstep. pstep. destruct (js_mimetype e) as [m|] eqn:E; psteps.
  - split; [destruct (contains _ m); reflexivity | reflexivity].
  - split; [reflexivity|]. destruct e. cbn in E. subst. reflexivity.
Qed.

Lemma push_block_spec size ex e : 0 < size -> jinv ex e -> js_pending_event e = PENDING_UNKNOWN -> pwp (push_block size) e (jpost ex).
Proof.
  intros Hs [H1 H2] P. unfold push_block. specialize (H2 P).
  assert (Q : jinv ex e) by (split; auto).
  pstep. pstep. pstep; [|pstep; apply jpost_quiet; [reflexivity | exact Q]].
  pstep. pstep. pstep; [|pstep; apply jpost_quiet; [reflexivity | exact Q]].
  do 8 pstep. pstep. eapply pwp_mono; [apply push_caps_spec|]. cbn beta. intros [] e1 t1 [Ht ->]. psteps.
  unfold jpost. rewrite !jpushes_app, Ht. cbn [jpushes map concat jpush_of app fold_left jexpect].
  set (b := mkDataBuffer _ _ _ _ _).
  assert (S : db_size b = size).
  { unfold b, db_size. cbn [db_data]. rewrite length_firstn, length_app, repeat_length. lia. }
  rewrite P. rewrite bool_decide_eq_false_2 by discriminate. split; [split; [rewrite S; auto | exact I]|].
  split; [exact H1|]. simpl_set. intros _. rewrite S, H2. cbn [option_map]. f_equal. rewrite u64_s64. unfold u64. apply Zplus_mod_idemp_l.
Qed.

Lemma next_event_jpost fuel : forall ex e, jinv ex e -> pwp (next_event fuel) e (jpost ex).
Proof.
  induction fuel as [|fuel IH]; intros ex e H.
  { cbn. pstep. apply jpost_quiet; [reflexivity | exact H]. }
  assert (OWE : forall e' p, p <> PENDING_UNKNOWN -> has_mode MODE_HLS e' = false -> jinv ex (e' <| js_pending_event := p |>)).
  { intros e' p Hp Hm. split; [exact Hm|]. simpl_set. contradiction. }
  destruct H as [H1 H2]. cbn [next_event]. unfold push_event. pstep. pstep. destruct (js_pending_event e) eqn:P.
  - pstep. pstep. pstep.
    + bools. pstep. eapply pwp_mono; [apply (push_block_spec _ ex); [assumption | split; auto | exact P]|]. intros result e' t [K1 K2].
      pstep.
      * pstep. pstep. eapply pwp_mono; [apply (IH (fold_left jexpect (jpushes t) ex)); split; [exact (proj1 K2) | discriminate]|].
        intros r1 e1 t1 K. apply (jpost_app _ _ _ [_]); [exact I|]. apply jpost_app; assumption.
      * pstep. apply (jpost_app _ _ _ [_]); [exact I|]. apply jpost_app; [exact K1|]. apply jpost_quiet; [reflexivity | exact K2].
    + pstep; [pstep; pstep; eapply pwp_mono; [apply (IH ex), OWE; [discriminate | exact H1]|]; intros r1 e1 t1 K; exact K|].
      pstep; [bools; congruence|]. pstep; pstep; (apply jpost_quiet; [reflexivity | split; auto]).
  - psteps; (apply jpost_quiet; [reflexivity|]; split; [exact H1 | discriminate]).
  - rewrite H1. psteps; (split; [split; exact I|]); (split; [exact H1|]; intros _; reflexivity).
  - psteps. apply jpost_quiet; [reflexivity|]. split; [exact H1 | congruence].
Qed.

(** What a quiet operation keeps. *)
Definition same_stream (e e' : JavaSource) : Prop :=
  has_mode MODE_HLS e = false -> has_mode MODE_HLS e' = false /\
  (js_pending_event e' = PENDING_UNKNOWN -> js_pending_event e = PENDING_UNKNOWN /\ js_position e' = js_position e).
Lemma quiet_jpost {A} ex (m : PM JavaSource A) e : jinv ex e -> pwp m e (fun _ e' t => jpushes t = [] /\ same_stream e e') -> pwp m e (jpost ex).
Proof.
  intros [H1 H2] Hm. eapply pwp_mono; [exact Hm|]. intros a e' t [Ht He]. apply jpost_quiet; [exact Ht|].
  destruct (He H1) as [K1 K2]. split; [exact K1|]. intros P. destruct (K2 P) as [K3 ->]. auto.
Qed.

Lemma set_result_spec r e : pwp (set_result r) e (fun _ e' t => jpushes t = [] /\ e' = e <| js_srcresult := r |>).
Proof. unfold set_result. psteps. split; reflexivity. Qed.

Ltac quiet_ends := psteps; (split; [reflexivity | intros ?; split; [assumption | simpl_set; (auto || discriminate)]]).

Lemma loop_begin_quiet e : pwp loop_begin e (fun _ e' t => jpushes t = [] /\ same_stream e e').
Proof. unfold loop_begin. quiet_ends. Qed.
Lemma loop_end_quiet r e : pwp (loop_end r) e (fun _ e' t => jpushes t = [] /\ same_stream e e').
Proof. unfold loop_end. quiet_ends. Qed.
Lemma activate_quiet m active e : pwp (java_source_activatemode m active) e (fun _ e' t => jpushes t = [] /\ same_stream e e').
Proof. unfold java_source_activatemode, set_result. quiet_ends. Qed.
Lemma request_quiet s n e : pwp (seek_request s n) e (fun _ e' t => jpushes t = [] /\ same_stream e e').
Proof. unfold seek_request, set_result. quiet_ends. Qed.
Lemma state_quiet tr e : pwp (java_source_change_state tr) e (fun _ e' t => jpushes t = [] /\ same_stream e e').
Proof. unfold java_source_change_state, set_result. destruct tr; quiet_ends. Qed.
Lemma query_quiet q e : pwp (java_source_query q) e (fun _ e' t => jpushes t = [] /\ same_stream e e').
Proof.
  unfold java_source_query. psteps; (split; [reflexivity|]); intros Hm; try congruence; (split; [assumption|]); auto.
Qed.
Lemma seek_quiet s n e : pwp (seek_perform s n) e (fun _ e' t => jpushes t = [] /\ same_stream e e').
Proof.
  unfold seek_perform, set_result. psteps; (split; [reflexivity|]); intros Hm; simpl_set;
    repeat match goal with |- context [if has_mode MODE_HLS ?x then _ else _] => change (has_mode MODE_HLS x) with (has_mode MODE_HLS e); rewrite Hm end;
    (split; [exact Hm|]); simpl_set; (auto || discriminate).
Qed.
End Contiguous.

Lemma jstep_keeps ex c t c' : jinv ex (jc_element c) -> jstep c t c' -> jpost ex tt (jc_element c') t.
Proof.
  assert (K : forall A (m : forall E : PEnv, PM JavaSource A) e r e' t', (forall E : PEnv, pwp (m E) e (jpost ex)) -> runs m e r e' t' -> jpost ex tt e' t').
  { intros A m e r e' t' Hm R. exact (runs_plwp m e r e' t' (jpost ex) (fun E => plwp_pwp _ _ _ (Hm E)) R). }
  intros H S. destruct S; cbn [jc_element];
    match goal with R : runs _ _ _ _ _ |- _ => refine (K _ _ _ _ _ _ _ R) end; intros E.
  - apply quiet_jpost; [exact H | apply loop_begin_quiet].
  - unfold loop_body. pstep; [|pstep; apply jpost_quiet; [reflexivity | exact H]]. apply next_event_jpost, H.
  - apply quiet_jpost; [exact H | apply loop_end_quiet].
  - apply quiet_jpost; [exact H | apply request_quiet].
  - apply quiet_jpost; [exact H | apply seek_quiet].
  - apply quiet_jpost; [exact H | apply state_quiet].
  - apply quiet_jpost; [exact H | apply state_quiet].
  - apply quiet_jpost; [exact H | apply activate_quiet].
  - apply quiet_jpost; [exact H | apply query_quiet].
Qed.

Lemma jexec_contiguous c t c' : jexec c t c' -> forall ex, jinv ex (jc_element c) -> contiguous ex (jpushes t).
Proof.
  induction 1 as [c|c t c' t' c'' S _ IH]; intros ex H; [exact I|]. destruct (jstep_keeps _ _ _ _ H S) as [H1 H2].
  rewrite jpushes_app. apply contiguous_app; [exact H1 | apply IH, H2].
Qed.

(** C32: Outside HLS the Java source pushes a contiguous stream.  From the
    moment the element leaves READY, however the task, seeks, state changes,
    (de)activation and queries interleave, no buffer precedes the first
    segment, every buffer is non-empty and starts at the segment's position or
    at the end of the buffer before it; a seek is followed by a segment before
    any data. *)
Theorem java_source_contiguous (e : JavaSource) (t : list pobs) (c : jconf)
    (Hmode : has_mode MODE_HLS e = false) (Hready : js_pending_event e = PENDING_STREAM_START)
    (Hexec : jexec (mkJConf e JIdle) t c) : contiguous None (jpushes t).
Proof. eapply jexec_contiguous; [exact Hexec|]. split; [exact Hmode|]. cbn [jc_element]. rewrite Hready. discriminate. Qed.

(** ** Pull mode *)

(** Java delivers the bytes of [src]: an answer is the end of the data or no
    more than was asked for, and the block copied is the one just read. *)
Fixpoint honest (src : Z -> Z) (at_ : Z) (t : list pobs) : Prop :=
  match t with
  | [] => True
  | @PObs R c r :: t =>
      match c in pcall R return R -> Prop with
      | sig_read_block p n => fun r => (r = EOS_CODE \/ 0 <= r <= n) /\ honest src p t
      | sig_copy_block n => fun r => r = bytes_of src at_ (Z.to_nat n) /\ honest src at_ t
      | _ => fun _ => honest src at_ t
      end r
  end.
(** A block shorter than it could have been. *)
Definition short_read (o : pobs) : bool :=
  match o with
  | @PObs R c r => match c in pcall R return R -> bool with
                   | sig_read_block _ n => fun r => (0 <? r) && (r <? n)
                   | _ => fun _ => false
                   end r
  end.
(** Blocks needed for [n] bytes, and the round that finds nothing left. *)
Definition rounds (n : Z) : Z := (n + MAX_READ_SIZE - 1) / MAX_READ_SIZE + 1.

Lemma read_range_any `{PEnv} fuel offset length : forall data e, pwp (read_range fuel offset length data) e (fun _ _ _ => True).
Proof.
  induction fuel as [|fuel IH]; intros data e; cbn [read_range]; [pstep; exact I|].
  repeat first [exact I | pstep | eapply pwp_mono; [apply IH|]; intros; exact I].
Qed.

Lemma read_range_spec `{PEnv} src offset length fuel : forall k e,
  0 <= offset -> Z.of_nat k <= length -> offset + length <= two_p64 -> rounds (length - Z.of_nat k) <= Z.of_nat fuel ->
  pwp (read_range fuel offset length (bytes_of src offset k)) e (fun r _ t => forall a, honest src a t ->
    match r with
    | None => False
    | Some RangeEos => True
    | Some (RangeData bytes) => exists k', bytes = bytes_of src offset k' /\ Z.of_nat k' <= length /\
        (Z.of_nat k' < length -> existsb short_read t = true)
    end).
Proof.
  induction fuel as [|fuel IH]; intros k e Ho Hk Hl Hf.
  { exfalso. unfold rounds, MAX_READ_SIZE in Hf. cbn [Z.of_nat] in Hf. divlia. }
  cbn [read_range]. rewrite bytes_of_length. pstep.
  2:{ pstep. intros a _. exists k. bools. split; [reflexivity|]. split; lia. }
  cbv zeta. set (toRead := if _ <=? _ then _ else _). bools.
  assert (HtoRead : 0 < toRead <= length - Z.of_nat k).
  { unfold toRead, MAX_READ_SIZE. split_if; bools; lia. }
  assert (Hrounds : rounds (length - (Z.of_nat k + toRead)) <= Z.of_nat fuel).
  { unfold rounds, toRead, MAX_READ_SIZE in *. revert Hf. split_if; bools; intros Hf; divlia. }
  rewrite u64_small by (unfold is_u64; lia). pstep. pstep. rename r into size. pstep.
  - bools. pstep. pstep. rename r into bytes.
    assert (D : forall a, honest src a [PObs (sig_read_block (offset + Z.of_nat k) toRead) size; PObs (sig_copy_block size) bytes] ->
      bytes_of src offset k ++ firstn (Z.to_nat size) (bytes ++ repeat 0 (Z.to_nat size)) = bytes_of src offset (k + Z.to_nat size)).
    { intros a (_ & -> & _). rewrite firstn_app, bytes_of_length, Nat.sub_diag, take_0, app_nil_r.
      rewrite firstn_all2 by (rewrite bytes_of_length; lia). apply bytes_of_app. }
    cbv zeta. pstep.
    + pstep. intros a Ha. rewrite (D a) by exact Ha. exists (k + Z.to_nat size)%nat. bools. split; [reflexivity|]. split; [lia|].
      intros _. cbn [app existsb short_read]. rewrite (proj2 (Z.ltb_lt 0 size)), (proj2 (Z.ltb_lt size toRead)) by lia. reflexivity.
    + bools. assert (size = toRead) as -> by lia. intros w.
      set (data := bytes_of src offset k ++ _) in *.
      clearbody data. destruct (decide (data = bytes_of src offset (k + Z.to_nat toRead))) as [-> | Hne].
      * pose proof (IH (k + Z.to_nat toRead)%nat e Ho ltac:(lia) Hl
          ltac:(replace (Z.of_nat (k + Z.to_nat toRead)) with (Z.of_nat k + toRead) by lia; exact Hrounds) w) as K.
        destruct (read_range _ _ _ _ e w) as [[[[r e'] w'] t]|]; [|exact K].
        intros a Ha. specialize (K (offset + Z.of_nat k)).
        assert (Ht : honest src (offset + Z.of_nat k) t) by apply Ha. specialize (K Ht).
        destruct r as [[]|]; try exact K. destruct K as (k' & K1 & K2 & K3). exists k'. split; [exact K1|]. split; [exact K2|].
        intros L. cbn [app existsb]. rewrite (K3 L). apply orb_true_r.
      * assert (T : pwp (read_range fuel offset length data) e (fun _ _ _ => True)) by (apply read_range_any).
        specialize (T w). destruct (read_range _ _ _ _ e w) as [[[[r e'] w'] t]|]; [|exact T].
        intros a Ha. exfalso. apply Hne, (D a). split; [apply Ha|]. split; [apply Ha | exact I].
  - pstep; [psteps; exact (fun _ _ => I)|]. intros w.
    assert (T : pwp (read_range fuel offset length (bytes_of src offset k)) e (fun _ _ _ => True)) by (apply read_range_any).
    specialize (T w). destruct (read_range _ _ _ _ e w) as [[[[r e'] w'] t]|]; [|exact T].
    intros a (Ha & _). exfalso. bools. apply andb_false_iff in Heqb0. bools. lia.
Qed.

(** A range of the source.  Against Java answers that deliver the bytes
    of [src], reading a range ends after one round for each block of
    [MAX_READ_SIZE] and one more; a buffer that is returned carries the offset
    asked for and the bytes of the source from there on, never more than
    asked for and less only after Java came back short; no buffer comes with
    an error or the end of the stream. *)
Theorem getrange_reads `{PEnv} (src : Z -> Z) (fuel : nat) (offset length : Z) (e : JavaSource)
    (Hoffset : 0 <= offset) (Hlength : 0 <= length) (Hrange : offset + length <= two_p64) (Hfuel : rounds length <= Z.of_nat fuel) :
  pwp (java_source_getrange fuel offset length) e (fun r _ t => honest src 0 t -> exists flow buffer, r = Some (flow, buffer) /\
    match flow with
    | FLOW_OK => exists b k, buffer = Some b /\ db_offset b = offset /\ db_data b = bytes_of src offset k /\
        Z.of_nat k <= length /\ (Z.of_nat k < length -> existsb short_read t = true)
    | _ => buffer = None
    end).
Proof.
  unfold java_source_getrange. pstep. pstep. pstep; [psteps; intros _; do 2 eexists; split; reflexivity|].
  pstep. pstep. pstep; [psteps; intros _; do 2 eexists; split; reflexivity|].
  pstep. eapply pwp_mono; [apply (read_range_spec src offset length fuel 0 e); try assumption; cbn [Z.of_nat]; rewrite ?Z.sub_0_r; assumption|].
  cbn beta. intros x e' t Hx. destruct x as [[bytes|]|].
  - psteps. intros Ha. do 2 eexists. split; [reflexivity|]. cbn beta iota.
    assert (Ht : honest src 0 t).
    { cbn [app honest] in Ha. clear - Ha. revert Ha. generalize 0. induction t as [|[R c r'] t IH]; intros a Ha; [exact I|].
      destruct c; cbn [app honest] in *; try (apply IH; exact Ha); (destruct Ha as [H1 H2]; split; [exact H1 | apply IH; exact H2]). }
    destruct (Hx 0 Ht) as (k & K1 & K2 & K3). exists (mkDataBuffer offset bytes false GST_CLOCK_TIME_NONE GST_CLOCK_TIME_NONE), k.
    split_and!; try assumption; try reflexivity. intros L. rewrite !existsb_app, (K3 L). cbn [existsb short_read app].
    rewrite ?orb_true_r. reflexivity.
  - psteps. intros _. do 2 eexists. split; reflexivity.
  - psteps. intros Ha. exfalso. apply (Hx 0). cbn [app honest] in Ha. rewrite app_nil_r in Ha. exact Ha.
Qed.

Definition demo_src (o : Z) : Z := o mod 251.
(** Java answers of a source of 100 bytes. *)
Definition demo_answer {R} (c : pcall R) : R :=
  match c with
  | sig_read_next_block => 3
  | sig_read_block p n => if 100 <=? p then EOS_CODE else Z.min n (100 - p)
  | sig_copy_block n => bytes_of demo_src 90 (Z.to_nat n)
  | c => nominal_answer c
  end.
Definition demo_penv : PEnv := fixed_env (@demo_answer).

Lemma getrange_reads_witness :
  (exists b e t, @java_source_getrange demo_penv 2 90 40 java_source_init tt = Some (Some (FLOW_OK, Some b), e, tt, t) /\
     honest demo_src 0 t /\ db_data b = bytes_of demo_src 90 10) /\
  @pwpf demo_penv False _ _ (@java_source_getrange demo_penv 2 90 40) java_source_init (fun r _ t => honest demo_src 0 t ->
    exists flow buffer, r = Some (flow, buffer) /\
    match flow with
    | FLOW_OK => exists b k, buffer = Some b /\ db_offset b = 90 /\ db_data b = bytes_of demo_src 90 k /\
        Z.of_nat k <= 40 /\ (Z.of_nat k < 40 -> existsb short_read t = true)
    | _ => buffer = None
    end).
Proof.
  split.
  - do 3 eexists. split; [vm_compute; reflexivity|]. split; [|vm_compute; reflexivity].
    cbn [honest app]. split; [right; lia|]. split; [vm_compute; reflexivity | exact I].
  - apply (@getrange_reads demo_penv demo_src 2 90 40 java_source_init); unfold two_p64, rounds, MAX_READ_SIZE; try lia. vm_compute. discriminate.
Defined.

(** When Java answers every request with an error, the loop of
    [java_source_getrange] asks again for ever: no number of rounds is enough. *)
Definition failing_answer {R} (c : pcall R) : R :=
  match c with sig_read_block _ _ => OTHER_ERROR_CODE | c => nominal_answer c end.
Definition failing_penv : PEnv := fixed_env (@failing_answer).
Theorem getrange_spins (fuel : nat) (e : JavaSource) :
  exists t, @java_source_getrange failing_penv fuel 0 10 e tt = Some (None, e, tt, t).
Proof.
  assert (L : forall fuel, exists t, @read_range failing_penv fuel 0 10 [] e tt = Some (None, e, tt, t)).
  { clear fuel. induction fuel as [|fuel [t IH]]; [eexists; reflexivity|].
    exists (PObs (sig_read_block 0 10) OTHER_ERROR_CODE :: t).
    exact (f_equal (fun o => match o with
      | Some (r, s, w, t) => Some (r, s, w, PObs (sig_read_block 0 10) OTHER_ERROR_CODE :: t)
      | None => None
      end) IH). }
  destruct (L fuel) as [t Ht]. eexists. unfold java_source_getrange. unfold pbind. cbn -[read_range]. rewrite Ht. reflexivity.
Qed.

Lemma java_source_contiguous_witness : exists t c,
  let e := java_source_init <| js_pending_event := PENDING_STREAM_START |> in
  jexec (mkJConf e JIdle) t c /\ length (jpushes t) = 2%nat /\ contiguous None (jpushes t).
Proof.
  assert (X : exists t c, jexec (mkJConf (java_source_init <| js_pending_event := PENDING_STREAM_START |>) JIdle) t c /\ length (jpushes t) = 2%nat).
  { do 2 eexists. split.
    - eapply jexec_step. { apply (jstep_begin _ FLOW_OK); [reflexivity | exists demo_penv, tt, tt; vm_compute; reflexivity]. }
      eapply jexec_step. { eapply (jstep_body _ FLOW_OK FLOW_OK); [reflexivity | exists demo_penv, tt, tt; vm_compute; reflexivity]. }
      eapply jexec_step. { eapply (jstep_end _ FLOW_OK); [reflexivity | exists demo_penv, tt, tt; vm_compute; reflexivity]. }
      eapply jexec_step. { apply (jstep_begin _ FLOW_OK); [reflexivity | exists demo_penv, tt, tt; vm_compute; reflexivity]. }
      eapply jexec_step. { eapply (jstep_body _ FLOW_OK FLOW_OK); [reflexivity | exists demo_penv, tt, tt; vm_compute; reflexivity]. }
      eapply jexec_step. { eapply (jstep_end _ FLOW_OK); [reflexivity | exists demo_penv, tt, tt; vm_compute; reflexivity]. }
      eapply jexec_step. { apply (jstep_begin _ FLOW_OK); [reflexivity | exists demo_penv, tt, tt; vm_compute; reflexivity]. }
      eapply jexec_step. { eapply (jstep_body _ FLOW_OK FLOW_OK); [reflexivity | exists demo_penv, tt, tt; vm_compute; reflexivity]. }
      apply jexec_refl.
    - vm_compute. reflexivity. }
  destruct X as (t & c & X & L). exists t, c. split; [exact X|]. split; [exact L|].
  apply (java_source_contiguous (java_source_init <| js_pending_event := PENDING_STREAM_START |>) t c); [vm_compute; reflexivity | reflexivity | exact X].
Defined.
