(* ===== verification/JavaProgress.v ===== *)
(** * From Java to the decoder: the source linked to the progress buffer

    [javasource.c] pushes into [progressbuffer.c].  Here the two elements run
    together: every buffer and event that a section of the source's code pushes
    is handled by the progress buffer, whose answer is the answer the source
    sees, while the progress buffer's own threads go on in between.
    [java_to_decoder_stream] shows that the bytes that leave the progress buffer
    are Java's, at the offsets they carry, and go on where the last left off;
    [failed_seek_skips_block] shows what a seek does to that when Java refuses
    it and the block before it was not taken. *)

From S2P Require Import Prelude CFloat MediaTypes GstApi PluginApi FileCache ProgressBuffer ProgressStream JavaSource JavaStream.
Local Open Scope Z_scope.
Local Open Scope plugin_scope.

(** ** What crosses the link *)

Inductive feed := FBuffer (b : DataBuffer) (r : GstFlow) | FEvent (ev : GstEvent) (ok : bool).
Definition feed_of (o : pobs) : list feed :=
  match o with
  | @PObs R c r =>
      match c in pcall R return R -> list feed with
      | pad_push b => fun r => [FBuffer b r]
      | pad_push_event SrcPad ev => fun ok => [FEvent ev ok]
      | _ => fun _ => []
      end r
  end.
Definition feeds (t : list pobs) : list feed := concat (map feed_of t).

(** The progress buffer handles what the source pushes, in order, and its own
    threads go on in between.  The end of the stream may take the place of a
    segment, as in [pb_step]. *)
Inductive fed : list feed -> conf -> list delivery -> conf -> Prop :=
| fed_done c : fed [] c [] c
| fed_own fs c ds c1 ds' c' : pb_own c ds c1 -> fed fs c1 ds' c' -> fed fs c (ds ++ ds') c'
| fed_buffer b r e' t fs c ds c' :
    runs (fun E => @progress_buffer_chain E b) (cf_element c) r e' t -> os_ok t ->
    fed fs (mkConf e' (cf_task c) (if bool_decide (r = FLOW_OK) then cf_next c + db_size b else cf_next c) (cf_seek c)) ds c' ->
    fed (FBuffer b r :: fs) c ds c'
| fed_segment s ok e' t fs c ds c' :
    runs (fun E => @progress_buffer_sink_event E (EvSegment s)) (cf_element c) ok e' t -> os_ok t ->
    fed fs (mkConf e' (cf_task c) (if pb_eos (cf_element c) then cf_next c else sg_start s) (cf_seek c)) ds c' ->
    fed (FEvent (EvSegment s) ok :: fs) c ds c'
| fed_event ev ok e' t fs c ds c' :
    (forall s, ev <> EvSegment s) ->
    runs (fun E => @progress_buffer_sink_event E ev) (cf_element c) ok e' t ->
    fed fs (with_element c e') ds c' ->
    fed (FEvent ev ok :: fs) c (lost (cf_element c) e' ++ ds) c'.

(** Java copies the bytes of the stream, and never offers more than there
    are. *)
Definition java_answer (src : Z -> Z) (e : JavaSource) (o : pobs) : Prop :=
  match o with
  | @PObs R c r =>
      match c in pcall R return R -> Prop with
      | sig_copy_block n => fun r => r = bytes_of src (js_position e) (Z.to_nat n)
      | sig_read_next_block => fun r => js_position e + r <= js_size e
      | _ => fun _ => True
      end r
  end.

(** One section of the source between its start and its stop; seeks that Java
    accepts stay inside the stream. *)
Inductive source_step (src : Z -> Z) (j : jconf) : list pobs -> jconf -> Prop :=
| source_begin r e' t :
    jc_task j = JIdle -> runs (fun E => @loop_begin E) (jc_element j) r e' t -> source_step src j t (mkJConf e' (JBody r))
| source_body r r' e' t :
    jc_task j = JBody r -> runs (fun E => @loop_body E r) (jc_element j) (Some r') e' t ->
    Forall (java_answer src (jc_element j)) t -> source_step src j t (mkJConf e' (JEnd r'))
| source_end r e' t :
    jc_task j = JEnd r -> runs (fun E => @loop_end E r) (jc_element j) tt e' t -> source_step src j t (mkJConf e' JIdle)
| source_request s n r e' t :
    runs (fun E => @seek_request E s n) (jc_element j) r e' t -> source_step src j t (mkJConf e' (jc_task j))
| source_seek s n e' t :
    jc_task j = JIdle -> 0 <= sk_start s < js_size (jc_element j) ->
    runs (fun E => @seek_perform E s n) (jc_element j) true e' t -> source_step src j t (mkJConf e' JIdle)
| source_query q r e' t :
    runs (fun E => @java_source_query E q) (jc_element j) r e' t -> source_step src j t (mkJConf e' (jc_task j))
| source_state tr r e' t :
    tr = PAUSED_TO_PLAYING \/ tr = PLAYING_TO_PAUSED -> js_stop_on_pause (jc_element j) = false ->
    runs (fun E => @java_source_change_state E tr) (jc_element j) r e' t -> source_step src j t (mkJConf e' (jc_task j)).

(** The two elements together.  Java may refuse a seek when the progress buffer
    took the block pushed last; what happens otherwise is
    [failed_seek_skips_block]. *)
Inductive pipe_exec (src : Z -> Z) : jconf -> conf -> list delivery -> jconf -> conf -> Prop :=
| pipe_refl j c : pipe_exec src j c [] j c
| pipe_own j c ds c1 ds' j' c' : pb_own c ds c1 -> pipe_exec src j c1 ds' j' c' -> pipe_exec src j c (ds ++ ds') j' c'
| pipe_source j c t j1 ds c1 ds' j' c' :
    source_step src j t j1 -> fed (feeds t) c ds c1 -> pipe_exec src j1 c1 ds' j' c' -> pipe_exec src j c (ds ++ ds') j' c'
| pipe_refused j c s n e' t ds c1 ds' j' c' :
    jc_task j = JIdle -> (js_pending_event (jc_element j) = PENDING_UNKNOWN -> cf_next c = js_position (jc_element j)) ->
    runs (fun E => @seek_perform E s n) (jc_element j) false e' t -> fed (feeds t) c ds c1 ->
    pipe_exec src (mkJConf e' JIdle) c1 ds' j' c' -> pipe_exec src j c (ds ++ ds') j' c'.

(** ** The progress buffer while it is fed *)

Definition offset_of (c : conf) : Z := pb_cache_read_offset (cf_element c).

Lemma view_offset e e' : view e' = view e -> pb_cache_read_offset e' = pb_cache_read_offset e.
Proof. intros H. injection H. auto. Qed.

(** The task does not move the cache's offset. *)
Lemma next_item_offset `{EV : PEnv} o fuel skip : forall e,
  cache_well e -> pb_cache_read_offset e = o ->
  plwp (next_item fuel skip) e (fun _ e' _ => pb_cache_read_offset e' = o).
Proof.
  induction fuel as [|fuel IH]; intros e OK Ho; [cbn; pstep; exact Ho|].
  apply (next_item_round fuel skip e (fun _ e' => pb_cache_read_offset e' = o)).
  - exact OK.
  - intros. exact Ho.
  - intros. destruct skip; exact Ho.
  - intros ev E1 E2. cbv zeta. destruct (_ && _); [|exact Ho]. apply IH; [exact OK|exact Ho].
  - intros c bytes pts dts E1 E2 E3 Ee Ei n Hn Hw Hb.
    assert (pb_cache_read_offset (after_read c n e) = o) as H
      by (unfold after_read, eos_if; destruct (_ =? _); exact Ho).
    destruct skip; [|exact H]. apply IH; [apply after_read_well; [exact E3|exact OK|lia]|exact H].
Qed.

Lemma runs_offset {A} (m : forall E : PEnv, PM ProgressBuffer A) e r e' t :
  (forall E : PEnv, plwp (m E) e (fun _ e' _ => pb_cache_read_offset e' = pb_cache_read_offset e)) ->
  runs m e r e' t -> pb_cache_read_offset e' = pb_cache_read_offset e.
Proof. intros H R. exact (runs_plwp _ _ _ _ _ _ H R). Qed.

Lemma own_keeps c ds c' : cache_well (cf_element c) -> pb_own c ds c' -> cf_next c' = cf_next c /\ offset_of c' = offset_of c.
Proof.
  intros OK S.
  assert (V : forall A (m : forall E : PEnv, PM ProgressBuffer A) r e' t,
    (forall E : PEnv, pwp (m E) (cf_element c) (fun _ e' _ => view e' = view (cf_element c))) ->
    runs m (cf_element c) r e' t -> pb_cache_read_offset e' = pb_cache_read_offset (cf_element c)).
  { intros A m r e' t H R. apply view_offset. eapply runs_view; eassumption. }
  destruct S; (split; [reflexivity|]); unfold offset_of; cbn [cf_element with_element];
    match goal with R : runs _ _ _ _ _ |- _ => revert R end; intros R.
  - eapply runs_offset; [|exact R]. intros E. unfold loop_enter. pstep. pstep. apply next_item_offset; [exact OK|reflexivity].
  - eapply runs_offset; [|exact R]. intros E. apply next_item_offset; [exact OK|reflexivity].
  - eapply runs_offset; [|exact R]. intros E. unfold loop_push_event. psteps; reflexivity.
  - eapply runs_offset; [|exact R]. intros E. unfold loop_push_buffer. pstep. pstep. destruct r.
    all: try solve [psteps; reflexivity].
    pstep. pstep. apply next_item_offset; [exact OK|reflexivity].
  - eapply runs_offset; [|exact R]. intros E. unfold loop_finish. psteps; reflexivity.
  - eapply V; [|exact R]. intros E. apply seek_begin_view.
  - pose proof (runs_plwp _ _ _ _ _ _ (fun E => @seek_stopped_view E s _ OK) R) as P. cbn beta in P.
    specialize (P ltac:(assumption)). destruct (pb_instant_seek e').
    + destruct P as (_ & d & seg & _ & _ & Hv). injection Hv as _ Hv _. exact Hv.
    + injection P as _ P _. exact P.
  - pose proof (runs_plwp _ _ _ _ _ _ (fun E => @seek_answered_view E s accepted _ OK) R) as P. cbn beta in P.
    specialize (P ltac:(assumption)). destruct accepted; [apply view_offset, P|].
    destruct P as (_ & d & seg & _ & _ & Hv). injection Hv as _ Hv _. exact Hv.
  - eapply V; [|exact R]. intros E. apply seek_end_view.
  - eapply V; [|exact R]. intros E. apply activatepush_view.
  - eapply V; [|exact R]. intros E. apply set_property_view.
Qed.

Section Fed.
Variable src : Z -> Z.

Definition conf_ok (c : conf) : Prop := exists ex, conf_inv src ex c.

Lemma conf_ok_well c : conf_ok c -> cache_well (cf_element c).
Proof. intros [ex H]. eapply inv_well, H. Qed.

Lemma exec_one c ds c' : pb_step src c ds c' -> pb_exec src c ds c'.
Proof. intros S. rewrite <- (app_nil_r ds). eapply exec_step; [exact S|apply exec_refl]. Qed.

Lemma exec_app c ds c1 ds' c' : pb_exec src c ds c1 -> pb_exec src c1 ds' c' -> pb_exec src c (ds ++ ds') c'.
Proof.
  induction 1 as [c|c ds c1 ds1 c2 S _ IH]; intros H; [exact H|]. rewrite <- app_assoc. eapply exec_step; [exact S|apply IH, H].
Qed.

(** An execution delivers what is expected and keeps the invariant. *)
Lemma exec_fine ex c ds c' : conf_inv src ex c -> pb_exec src c ds c' -> conf_inv src (expect_all ex ds) c'.
Proof.
  intros H X. revert ex H. induction X as [c|c ds c1 ds' c' S _ IH]; intros ex H; [exact H|].
  unfold expect_all. rewrite fold_left_app. apply IH. eapply fine_step; eassumption.
Qed.

Lemma exec_ok c ds c' : conf_ok c -> pb_exec src c ds c' -> conf_ok c'.
Proof. intros [ex H] X. eexists. eapply exec_fine; eassumption. Qed.

Lemma fed_app fs gs c ds c' : fed (fs ++ gs) c ds c' ->
  exists ds1 c1 ds2, fed fs c ds1 c1 /\ fed gs c1 ds2 c' /\ ds = ds1 ++ ds2.
Proof.
  intros H. remember (fs ++ gs) as hs eqn:E. revert fs E.
  induction H as [c|hs c ds c1 ds' c' S H IH|b r e' t hs c ds c' R T H IH|s ok e' t hs c ds c' R T H IH|ev ok e' t hs c ds c' Hs R H IH];
    intros fs E.
  - symmetry in E. apply app_eq_nil in E as [-> ->]. exists [], c, []. repeat split; constructor.
  - destruct (IH fs E) as (d1 & c2 & d2 & H1 & H2 & ->). exists (ds ++ d1), c2, d2.
    split; [eapply fed_own; eassumption|]. split; [exact H2|apply app_assoc].
  - destruct fs as [|f fs]; [cbn in E; subst gs; exists [], c, ds; split; [constructor|]; split; [eapply fed_buffer; eassumption|reflexivity]|].
    injection E as <- E. destruct (IH fs E) as (d1 & c2 & d2 & H1 & H2 & ->). exists d1, c2, d2.
    split; [eapply fed_buffer; eassumption|auto].
  - destruct fs as [|f fs]; [cbn in E; subst gs; exists [], c, ds; split; [constructor|]; split; [eapply fed_segment; eassumption|reflexivity]|].
    injection E as <- E. destruct (IH fs E) as (d1 & c2 & d2 & H1 & H2 & ->). exists d1, c2, d2.
    split; [eapply fed_segment; eassumption|auto].
  - destruct fs as [|f fs]; [cbn in E; subst gs; exists [], c, (lost (cf_element c) e' ++ ds); split; [constructor|]; split; [eapply fed_event; eassumption|reflexivity]|].
    injection E as <- E. destruct (IH fs E) as (d1 & c2 & d2 & H1 & H2 & ->). exists (lost (cf_element c) e' ++ d1), c2, d2.
    split; [eapply fed_event; eassumption|]. split; [exact H2|apply app_assoc].
Qed.

(** Events that carry no position. *)
Definition quiet_feed (f : feed) : Prop := match f with FEvent (EvSegment _) _ | FBuffer _ _ => False | _ => True end.

(** The position of the stream and the offset of the cache stay. *)
Definition keeps (c c' : conf) : Prop := cf_next c' = cf_next c /\ offset_of c' = offset_of c.

Lemma keeps_trans c c1 c' : keeps c c1 -> keeps c1 c' -> keeps c c'.
Proof. intros [H1 H2] [H3 H4]. split; congruence. Qed.

Lemma own_fed c ds c1 : conf_ok c -> pb_own c ds c1 -> pb_exec src c ds c1 /\ conf_ok c1 /\ keeps c c1.
Proof.
  intros OK S. assert (X : pb_exec src c ds c1) by (apply exec_one, step_own, S).
  split; [exact X|]. split; [eapply exec_ok; eassumption|]. eapply own_keeps; [apply conf_ok_well, OK|exact S].
Qed.

Lemma fed_quiet fs c ds c' : Forall quiet_feed fs -> conf_ok c -> fed fs c ds c' -> pb_exec src c ds c' /\ keeps c c'.
Proof.
  intros Q OK H. revert Q OK.
  induction H as [c|hs c ds c1 ds' c' S H IH|b r e' t hs c ds c' R T H IH|s ok e' t hs c ds c' R T H IH|ev ok e' t hs c ds c' Hs R H IH];
    intros Q OK; try (apply Forall_cons in Q as [Q1 Q]; cbn in Q1; tauto).
  - split; [constructor|split; reflexivity].
  - destruct (own_fed _ _ _ OK S) as (X & OK1 & K). destruct (IH Q OK1) as [X1 K1].
    split; [eapply exec_app; eassumption|eapply keeps_trans; eassumption].
  - apply Forall_cons in Q as [_ Q].
    assert (X : pb_exec src c (lost (cf_element c) e') (with_element c e')).
    { apply exec_one. eapply step_sink_event; [intros s E; destruct (Hs s E)|exact R]. }
    destruct (IH Q (exec_ok _ _ _ OK X)) as [X1 K1]. split; [exact (exec_app _ _ _ _ _ X X1)|].
    eapply keeps_trans; [|exact K1]. split; [reflexivity|].
    pose proof (runs_plwp _ _ _ _ _ _ (fun E => @sink_event_view E ev (cf_element c) (fun s E => False_ind _ (Hs s E))) R) as V.
    unfold offset_of. cbn [cf_element with_element]. cbn beta in V.
    destruct V as [V|V]; [apply view_offset, V|]. injection V as _ V _. exact V.
Qed.

(** One buffer that goes on where the stream stands. *)
Lemma fed_one_buffer b r c ds c' :
  conf_ok c -> db_offset b = cf_next c -> db_data b = bytes_of src (cf_next c) (length (db_data b)) -> cf_next c + db_size b < LIMIT ->
  fed [FBuffer b r] c ds c' ->
  pb_exec src c ds c' /\ offset_of c' = offset_of c /\ (r = FLOW_OK -> cf_next c' = cf_next c + db_size b).
Proof.
  intros OK Ho Hd Hl H. remember [FBuffer b r] as fs eqn:E. revert OK Ho Hd Hl E.
  induction H as [c|hs c ds c1 ds' c' S H IH|b' r' e' t hs c ds c' R T H IH|s ok e' t hs c ds c' R T H IH|ev ok e' t hs c ds c' Hs R H IH];
    intros OK Ho Hd Hl E; try discriminate.
  - destruct (own_fed _ _ _ OK S) as (X & OK1 & K1 & K2). rewrite <- K1 in Ho, Hd, Hl.
    destruct (IH OK1 Ho Hd Hl E) as (X1 & O1 & N1). rewrite K1 in N1.
    split; [eapply exec_app; eassumption|]. split; [congruence|exact N1].
  - injection E as -> -> ->. clear IH.
    match type of H with fed [] ?c1 _ _ => set (c1' := c1) in * end.
    assert (X : pb_exec src c [] c1') by (apply exec_one; eapply step_buffer; eassumption).
    destruct (fed_quiet [] _ _ _ (Forall_nil_2 _) (exec_ok _ _ _ OK X) H) as [X1 [K1 K2]].
    split; [exact (exec_app _ _ _ _ _ X X1)|]. split.
    + rewrite K2. unfold offset_of, c1'. cbn [cf_element].
      pose proof (runs_plwp _ _ _ _ _ _ (fun E => @chain_view E b _ (conf_ok_well _ OK)) R) as V. cbn beta in V.
      destruct V as [(_ & d & k & _ & Hv & _)|[_ Hv]]; [|apply view_offset, Hv].
      unfold view, set_cache in Hv. injection Hv as _ Hv _. exact Hv.
    + intros ->. rewrite K1. reflexivity.
Qed.

(** After the end of the stream a segment is refused. *)
Lemma segment_refused `{EV : PEnv} s e : pb_eos e = true ->
  pwp (progress_buffer_sink_event (EvSegment s)) e (fun ok _ _ => ok = false).
Proof.
  intros He. unfold progress_buffer_sink_event. pstep. pstep. pstep; [cbn [is_flush] in *; bools; discriminate|].
  pstep; [|cbn in *; discriminate]. pstep. pstep. pstep. pstep. pstep. rewrite He. psteps. reflexivity.
Qed.

Lemma refused_segment_stays s c ok e' t : pb_eos (cf_element c) = true ->
  runs (fun E => @progress_buffer_sink_event E (EvSegment s)) (cf_element c) ok e' t -> lost (cf_element c) e' = [].
Proof.
  intros He R. assert (V : view e' = view (cf_element c)).
  { eapply runs_view; [|exact R]. intros E. unfold progress_buffer_sink_event. pstep. pstep. pstep; [cbn [is_flush] in *; bools; discriminate|].
    pstep; [|cbn in *; discriminate]. pstep. pstep. pstep. pstep. pstep. rewrite He. psteps. reflexivity. }
  unfold lost, pending_segment. injection V as _ _ -> _. rewrite andb_negb_r. reflexivity.
Qed.

(** One segment, in bytes, that an update starts at the cache's offset. *)
Lemma fed_one_segment s ok c ds c' :
  conf_ok c -> sg_format s = FORMAT_BYTES -> 0 <= sg_start s < sg_stop s -> sg_stop s < LIMIT -> sg_position s = sg_start s ->
  (Z.land (sg_flags s) SEGMENT_FLAG_UPDATE = SEGMENT_FLAG_UPDATE -> sg_start s = offset_of c) ->
  fed [FEvent (EvSegment s) ok] c ds c' ->
  pb_exec src c ds c' /\ (ok = true -> cf_next c' = sg_start s).
Proof.
  intros OK Hf Hr Hl Hp Hu H. remember [FEvent (EvSegment s) ok] as fs eqn:E. revert OK Hu E.
  induction H as [c|hs c ds c1 ds' c' S H IH|b' r' e' t hs c ds c' R T H IH|s' ok' e' t hs c ds c' R T H IH|ev ok' e' t hs c ds c' Hs R H IH];
    intros OK Hu E; try discriminate.
  - destruct (own_fed _ _ _ OK S) as (X & OK1 & K1 & K2). rewrite <- K2 in Hu. destruct (IH OK1 Hu E) as (X1 & N1).
    split; [eapply exec_app; eassumption|exact N1].
  - injection E as -> -> ->. clear IH.
    match type of H with fed [] ?c1 _ _ => set (c1' := c1) in * end.
    assert (X : pb_exec src c [] c1' /\ (ok = true -> cf_next c1' = sg_start s)).
    { unfold c1'. destruct (pb_eos (cf_element c)) eqn:Ee.
      - split; [|intros ->; pose proof (runs_plwp _ _ _ _ _ _ (fun E => plwp_pwp _ _ _ (@segment_refused E s _ Ee)) R) as F; discriminate F].
        apply exec_one. rewrite <- (refused_segment_stays _ _ _ _ _ Ee R). eapply (step_sink_event _ _ (EvSegment s)); [intros; exact Ee|exact R].
      - split; [|reflexivity]. apply exec_one. eapply step_segment; eassumption. }
    destruct X as [X N]. destruct (fed_quiet [] _ _ _ (Forall_nil_2 _) (exec_ok _ _ _ OK X) H) as [X1 [K1 _]].
    split; [exact (exec_app _ _ _ _ _ X X1)|]. rewrite K1. exact N.
  - injection E as -> -> ->. destruct (Hs s eq_refl).
Qed.
End Fed.

(** ** What a section of the source pushes *)

Lemma feeds_app t t' : feeds (t ++ t') = feeds t ++ feeds t'.
Proof. unfold feeds. rewrite map_app, concat_app. reflexivity. Qed.

(** The element's fields that push mode does not change. *)
Definition fixed_fields (e : JavaSource) := (js_mode e, js_stop_on_pause e, js_size e, js_update e).

(** A segment is still to be pushed. *)
Definition owes_segment (e : JavaSource) : Prop :=
  js_pending_event e = PENDING_STREAM_START \/ js_pending_event e = PENDING_SEGMENT.

Section Body.
Variable src : Z -> Z.

(** The buffer [b] is the next block of the stream. *)
Definition next_block (e : JavaSource) (b : DataBuffer) : Prop :=
  db_offset b = u64 (js_position e) /\ db_data b = bytes_of src (js_position e) (length (db_data b)) /\
  0 < db_size b /\ js_position e + db_size b <= js_size e.

Inductive pushed_by_body (e : JavaSource) (r' : GstFlow) (e' : JavaSource) (fs : list feed) : Prop :=
| pushed_quiet :
    Forall quiet_feed fs -> js_position e' = js_position e ->
    (js_pending_event e' = PENDING_UNKNOWN -> js_pending_event e = PENDING_UNKNOWN) -> (owes_segment e' -> owes_segment e) ->
    pushed_by_body e r' e' fs
| pushed_segment ok :
    js_pending_event e = PENDING_SEGMENT -> fs = [FEvent (EvSegment (default_segment e)) ok] ->
    js_position e' = js_position e -> js_pending_event e' = PENDING_UNKNOWN -> (r' = FLOW_OK -> ok = true) ->
    pushed_by_body e r' e' fs
| pushed_buffer early b res late :
    js_pending_event e = PENDING_UNKNOWN -> fs = early ++ FBuffer b res :: late -> Forall quiet_feed early -> Forall quiet_feed late ->
    next_block e b -> js_position e' = s64 (js_position e + db_size b) -> ~ owes_segment e' -> (r' = FLOW_OK -> res = FLOW_OK) ->
    pushed_by_body e r' e' fs.

Context `{EV : PEnv}.

Lemma push_caps_feeds e : pwp push_caps e (fun _ e' t => Forall quiet_feed (feeds t) /\ e' = e <| js_mimetype := None |>).
Proof.
  unfold push_caps. pstep. pstep. destruct (js_mimetype e) as [m|] eqn:E; psteps.
  - split; [destruct (contains _ m); repeat constructor|reflexivity].
  - split; [constructor|]. destruct e. cbn in E. subst. reflexivity.
Qed.

Lemma push_block_feeds size e0 e :
  0 < size -> js_pending_event e = PENDING_UNKNOWN -> js_position e = js_position e0 -> js_size e = js_size e0 ->
  js_position e0 + size <= js_size e0 ->
  pwp (push_block size) e (fun res e' t => Forall (java_answer src e0) t ->
    fixed_fields e' = fixed_fields e /\ js_pending_event e' = PENDING_UNKNOWN /\
    ((Forall quiet_feed (feeds t) /\ js_position e' = js_position e /\ res <> FLOW_EOS) \/
     exists early b, feeds t = early ++ [FBuffer b res] /\ Forall quiet_feed early /\ next_block e0 b /\
       js_position e' = s64 (js_position e0 + db_size b))).
Proof.
  intros Hs P Hp Hsz Hl. unfold push_block.
  pstep. pstep. pstep; [|pstep; intros _; split; [reflexivity|]; split; [exact P|]; left; split; [constructor|]; split; [reflexivity|discriminate]].
  pstep. pstep. pstep; [|pstep; intros _; split; [reflexivity|]; split; [exact P|]; left; split; [constructor|]; split; [reflexivity|discriminate]].
  do 8 pstep. pstep. eapply pwp_mono; [apply push_caps_feeds|]. cbn beta. intros [] e1 t1 [Ht ->]. psteps.
  rewrite P. rewrite bool_decide_eq_false_2 by discriminate. intros HJ.
  split; [reflexivity|]. split; [exact P|]. right.
  match goal with |- context [@PObs GstFlow (pad_push ?b0) ?r0] => set (b := b0) in *; rename r0 into res end.
  exists (feeds t1), b. rewrite !feeds_app. cbn [feeds map concat feed_of app].
  assert (db_data b = bytes_of src (js_position e0) (Z.to_nat size)) as D.
  { unfold b. cbn [db_data]. rewrite Forall_forall in HJ.
    match goal with |- context [firstn _ (?bytes ++ _)] => assert (bytes = bytes_of src (js_position e0) (Z.to_nat size)) as -> end.
    { exact (HJ (PObs (sig_copy_block size) _) ltac:(rewrite !elem_of_app, !elem_of_cons; tauto)). }
    rewrite firstn_app, bytes_of_length, Nat.sub_diag, take_0, app_nil_r. apply firstn_all2. rewrite bytes_of_length. lia. }
  assert (db_size b = size) as S by (unfold db_size; rewrite D, bytes_of_length; lia).
  split; [reflexivity|]. split; [exact Ht|]. split.
  - split; [unfold b; cbn [db_offset]; simpl_set; rewrite Hp; reflexivity|]. split; [rewrite D at 1; f_equal; rewrite D, bytes_of_length; reflexivity|].
    rewrite S. lia.
  - simpl_set. rewrite Hp, S. reflexivity.
Qed.

(** The end of the stream: one event, and the task is done. *)
Lemma eos_feeds fuel e : js_pending_event e = PENDING_EOS ->
  pwp (next_event fuel) e (fun r e' t => Forall quiet_feed (feeds t) /\ e' = e /\ r <> Some FLOW_OK).
Proof.
  intros P. destruct fuel as [|fuel]; cbn [next_event]; [psteps; split; [constructor|split; [reflexivity|discriminate]]|].
  pstep. pstep. rewrite P. psteps. split; [repeat constructor|]. split; [reflexivity|discriminate].
Qed.

Lemma body_feeds r0 e :
  has_mode MODE_HLS e = false ->
  pwp (loop_body r0) e (fun r e' t => forall r', r = Some r' -> Forall (java_answer src e) t ->
    fixed_fields e' = fixed_fields e /\ (r0 <> FLOW_OK -> feeds t = [] /\ e' = e /\ r' = r0) /\
    pushed_by_body e r' e' (feeds t)).
Proof.
  intros Hm. unfold loop_body. pstep; bools.
  2: { pstep. intros r' [= ->] _. split; [reflexivity|]. split; [auto|].
       apply pushed_quiet; auto. }
  enough (H : pwp (next_event next_event_fuel) e (fun r e' t => forall r', r = Some r' -> Forall (java_answer src e) t ->
    fixed_fields e' = fixed_fields e /\ pushed_by_body e r' e' (feeds t))).
  { eapply pwp_mono; [exact H|]. cbn beta. intros r e' t K r' Er HJ. destruct (K r' Er HJ) as [K1 K2].
    split; [exact K1|]. split; [congruence|exact K2]. }
  set (n := 2%nat). change next_event_fuel with (S n). clearbody n. cbn [next_event]. unfold push_event. pstep. pstep. destruct (js_pending_event e) eqn:P.
  - pstep. pstep. pstep.
    + bools. rename r into size.
      destruct (Z.le_gt_cases (js_position e + size) (js_size e)) as [Hl|Hl].
      2: { eapply pwp_mono with (P := fun _ _ _ => True).
           - pstep. eapply pwp_mono with (P := fun _ _ _ => True); [unfold push_block, push_caps; psteps; exact I|].
             intros. pstep; [|pstep; exact I]. pstep. pstep. eapply pwp_mono; [apply eos_feeds; reflexivity|]. intros; exact I.
           - intros r e' t _ r' _ HJ. exfalso. cbn [app] in HJ. apply Forall_cons in HJ as [HJ _]. cbn in HJ. lia. }
      pstep. eapply pwp_mono; [apply (push_block_feeds size e e); auto|]. cbn beta. intros res e1 t1 K. pstep; bools.
      * subst res. pstep. pstep. eapply pwp_mono; [apply eos_feeds; reflexivity|]. cbn beta. intros r2 e2 t2 (Q2 & -> & R2) r' -> HJ.
        cbn [app] in HJ. apply Forall_cons in HJ as [_ HJ]. apply Forall_app in HJ as [HJ _]. destruct (K HJ) as (K1 & _ & [(_ & _ & K3)|(early & b & K3 & K4 & K5 & K6)]); [congruence|].
        split; [exact K1|].
        eapply (pushed_buffer _ _ _ _ early b FLOW_EOS); [exact P| |exact K4|exact Q2|exact K5|exact K6|intros [O|O]; discriminate|congruence].
        rewrite !feeds_app, K3. cbn [feeds map concat feed_of app]. rewrite <- app_assoc. reflexivity.
      * pstep. intros r' [= <-] HJ. cbn [app] in HJ. apply Forall_cons in HJ as [_ HJ]. apply Forall_app in HJ as [HJ _].
        destruct (K HJ) as (K1 & K2 & [(K3 & K4 & _)|(early & b & K3 & K4 & K5 & K6)]); (split; [exact K1|]).
        -- apply pushed_quiet; [rewrite !feeds_app; cbn [feeds map concat feed_of app]; rewrite app_nil_r; exact K3|exact K4|intros _; exact P|].
           intros [O|O]; congruence.
        -- eapply (pushed_buffer _ _ _ _ early b res []); [exact P| |exact K4|constructor|exact K5|exact K6|intros [O|O]; congruence|auto].
           rewrite !feeds_app, K3. cbn [feeds map concat feed_of app]. rewrite app_nil_r. reflexivity.
    + pstep.
      { pstep. pstep. eapply pwp_mono; [apply eos_feeds; reflexivity|]. cbn beta. intros r2 e2 t2 (Q2 & -> & R2) r' -> HJ.
        split; [reflexivity|]. apply pushed_quiet; [rewrite !feeds_app; exact Q2|reflexivity|discriminate|intros [O|O]; discriminate]. }
      pstep; [bools; congruence|]. pstep; pstep; intros r' _ _; (split; [reflexivity|]);
        (apply pushed_quiet; [constructor|reflexivity|auto|auto]).
  - psteps. intros r' _ _. split; [reflexivity|].
    apply pushed_quiet; [repeat constructor|reflexivity|discriminate|]. intros _. left. exact P.
  - rewrite Hm. psteps; intros r' [= <-] _; (split; [reflexivity|]);
      (eapply pushed_segment; [exact P|reflexivity|reflexivity|reflexivity|intros F; first [exact F | reflexivity | discriminate F | revert F; split_if; intros F; first [reflexivity | discriminate F]]]).
  - psteps. intros r' [= <-] _. split; [reflexivity|]. apply pushed_quiet; [repeat constructor|reflexivity|auto|auto].
Qed.
End Body.

(** ** The two elements together *)

(** The task will push what comes next. *)
Definition will_push (j : jconf) : Prop :=
  match jc_task j with
  | JIdle => js_srcresult (jc_element j) = FLOW_OK
  | JBody r => r = FLOW_OK
  | JEnd r => r = FLOW_OK /\ js_srcresult (jc_element j) = FLOW_OK
  end.

Section Linked.
Variable src : Z -> Z.

(** The source stands inside its stream, and the progress buffer where the
    source goes on, unless a segment or a refusal is between them. *)
Definition source_fits (e : JavaSource) (c : conf) : Prop :=
  has_mode MODE_HLS e = false /\ js_size e < LIMIT /\ 0 <= js_position e <= js_size e /\
  (owes_segment e -> js_position e < js_size e /\ (js_update e = true -> js_position e = 0 /\ offset_of c = 0)).
Definition linked (j : jconf) (c : conf) : Prop :=
  conf_ok src c /\ source_fits (jc_element j) c /\
  (js_pending_event (jc_element j) = PENDING_UNKNOWN -> will_push j -> cf_next c = js_position (jc_element j)).

(** A section that pushes nothing that carries a position. *)
Definition quiet_section (j : jconf) (t : list pobs) (j' : jconf) : Prop :=
  Forall quiet_feed (feeds t) /\
  let e := jc_element j in let e' := jc_element j' in
  fixed_fields e' = fixed_fields e /\ js_position e' = js_position e /\ js_pending_event e' = js_pending_event e /\
  (will_push j' -> will_push j).

Lemma quiet_links j t j' c ds c' :
  linked j c -> quiet_section j t j' -> fed (feeds t) c ds c' -> pb_exec src c ds c' /\ linked j' c'.
Proof.
  intros (OK & (F1 & F2 & F3 & F4) & N) (Q & FF & Hp & He & Hw) H. destruct (fed_quiet src _ _ _ _ Q OK H) as [X [K1 K2]].
  split; [exact X|]. injection FF as E1 E2 E3 E4. split; [eapply exec_ok; eassumption|]. split.
  - unfold source_fits, has_mode, owes_segment. rewrite E1, E3, E4, Hp, He, K2. repeat split; first [exact F1 | exact F2 | apply F3 | apply F4]; assumption.
  - rewrite He, Hp, K1. auto.
Qed.

(** Operations that change the result at most, and only to a refusal. *)
Definition only_refuses (e e' : JavaSource) (t : list pobs) : Prop :=
  Forall quiet_feed (feeds t) /\ fixed_fields e' = fixed_fields e /\ js_position e' = js_position e /\
  js_pending_event e' = js_pending_event e /\ (js_srcresult e' = FLOW_OK -> js_srcresult e = FLOW_OK).

Section Sections.
Context `{EV : PEnv}.
Ltac refuses :=
  psteps; bools; repeat match goal with |- _ /\ _ => split end; simpl_set;
  first [solve [repeat constructor] | reflexivity | solve [auto] | intros; congruence].

Lemma begin_refuses e : pwp loop_begin e (fun r e' t => r = js_srcresult e /\ e' = e /\ Forall quiet_feed (feeds t)).
Proof. unfold loop_begin. refuses. Qed.
Lemma end_refuses r e : pwp (loop_end r) e (fun _ e' t => only_refuses e e' t /\ (js_srcresult e' = FLOW_OK -> r = FLOW_OK)).
Proof.
  unfold loop_end, only_refuses. destruct (bool_decide (js_srcresult e = FLOW_OK)) eqn:E1, (bool_decide (r = FLOW_OK)) eqn:E2; refuses.
Qed.
Lemma request_refuses s n e : pwp (seek_request s n) e (fun _ e' t => only_refuses e e' t).
Proof. unfold seek_request, set_result, only_refuses. refuses. Qed.
Lemma query_refuses q e : has_mode MODE_HLS e = false -> pwp (java_source_query q) e (fun _ e' t => only_refuses e e' t).
Proof. intros Hm. unfold java_source_query, only_refuses. destruct q; refuses. Qed.
Lemma state_refuses tr e : tr = PAUSED_TO_PLAYING \/ tr = PLAYING_TO_PAUSED -> js_stop_on_pause e = false ->
  pwp (java_source_change_state tr) e (fun _ e' t => only_refuses e e' t).
Proof. intros [-> | ->] Hs; unfold java_source_change_state, only_refuses; refuses. Qed.

(** An accepted seek owes a segment at the position sought. *)
Lemma seek_moves s n e : has_mode MODE_HLS e = false ->
  pwp (seek_perform s n) e (fun r e' t => r = true -> Forall quiet_feed (feeds t) /\
    e' = e <| js_rate := sk_rate s |> <| js_pending_event := PENDING_SEGMENT |> <| js_position := sk_start s |> <| js_position_time := 0 |>
           <| js_discont := true |> <| js_update := false |> <| js_srcresult := FLOW_OK |>).
Proof.
  intros Hm. unfold seek_perform, set_result. psteps; intros F; try (bools; lia); try discriminate F; simpl_set.
  all: repeat match goal with |- context [if has_mode MODE_HLS ?x then _ else _] => change (has_mode MODE_HLS x) with (has_mode MODE_HLS e); rewrite Hm end.
  all: (split; [repeat constructor | reflexivity]).
Qed.
(** A refused seek only lets the task go on. *)
Lemma seek_refused s n e : pwp (seek_perform s n) e (fun r e' t => r = false -> Forall quiet_feed (feeds t) /\ e' = e <| js_srcresult := FLOW_OK |>).
Proof. unfold seek_perform, set_result. psteps; intros F; bools; try lia; try congruence; (split; [repeat constructor|reflexivity]). Qed.
End Sections.

Lemma refuses_quiet j e' t : only_refuses (jc_element j) e' t -> quiet_section j t (mkJConf e' (jc_task j)).
Proof.
  intros (Q & F & P & E & R). repeat (split; [assumption|]). unfold will_push. cbn [jc_task jc_element].
  destruct (jc_task j); [exact R|auto|]. intros [R1 R2]. auto.
Qed.

(** The three kinds of sections. *)
Inductive section_kind (j : jconf) (t : list pobs) (j' : jconf) : Prop :=
| kind_quiet : quiet_section j t j' -> section_kind j t j'
| kind_body r r' :
    jc_task j = JBody r -> jc_task j' = JEnd r' -> Forall (java_answer src (jc_element j)) t ->
    runs (fun E => @loop_body E r) (jc_element j) (Some r') (jc_element j') t -> section_kind j t j'
| kind_seek :
    Forall quiet_feed (feeds t) -> js_mode (jc_element j') = js_mode (jc_element j) -> js_size (jc_element j') = js_size (jc_element j) ->
    0 <= js_position (jc_element j') < js_size (jc_element j) -> js_pending_event (jc_element j') = PENDING_SEGMENT ->
    js_update (jc_element j') = false -> section_kind j t j'.

Lemma source_kinds j t j' : has_mode MODE_HLS (jc_element j) = false -> source_step src j t j' -> section_kind j t j'.
Proof.
  intros Hm S.
  assert (K : forall A (m : forall E : PEnv, PM JavaSource A) r e' t (P : A -> JavaSource -> list pobs -> Prop),
    (forall E : PEnv, pwp (m E) (jc_element j) P) -> runs m (jc_element j) r e' t -> P r e' t).
  { intros A m r e' t' P H R. exact (runs_plwp _ _ _ _ _ P (fun E => plwp_pwp _ _ _ (H E)) R). }
  destruct S as [r e' t T R|r r' e' t T R J|r e' t T R|s n r e' t R|s n e' t T Hs R|q r e' t R|tr r e' t Ht Hs R].
  - destruct (K _ _ _ _ _ _ (fun E => @begin_refuses E _) R) as (-> & -> & Q). apply kind_quiet. split; [exact Q|].
    repeat (split; [reflexivity|]). unfold will_push. rewrite T. auto.
  - eapply kind_body; eauto.
  - destruct (K _ _ _ _ _ _ (fun E => @end_refuses E _ _) R) as ((Q & F & P & E & Hr) & Hr'). apply kind_quiet.
    repeat (split; [assumption|]). unfold will_push. rewrite T. cbn. auto.
  - apply kind_quiet, refuses_quiet, (K _ _ _ _ _ _ (fun E => @request_refuses E _ _ _) R).
  - destruct (K _ _ _ _ _ _ (fun E => @seek_moves E _ _ _ Hm) R eq_refl) as [Q ->]. apply kind_seek; simpl_set; auto.
  - apply kind_quiet, refuses_quiet, (K _ _ _ _ _ _ (fun E => @query_refuses E _ _ Hm) R).
  - apply kind_quiet, refuses_quiet, (K _ _ _ _ _ _ (fun E => @state_refuses E _ _ Ht Hs) R).
Qed.

(** A seek: the position of the stream is known again after its segment. *)
Lemma seek_links j t j' c ds c' : linked j c ->
  Forall quiet_feed (feeds t) -> js_mode (jc_element j') = js_mode (jc_element j) -> js_size (jc_element j') = js_size (jc_element j) ->
  0 <= js_position (jc_element j') < js_size (jc_element j) -> js_pending_event (jc_element j') = PENDING_SEGMENT ->
  js_update (jc_element j') = false -> fed (feeds t) c ds c' -> pb_exec src c ds c' /\ linked j' c'.
Proof.
  intros (OK & (F1 & F2 & _) & _) Q Em Es Hp Hs Hu H. destruct (fed_quiet src _ _ _ _ Q OK H) as [X _].
  split; [exact X|]. split; [eapply exec_ok; eassumption|]. unfold source_fits, has_mode. rewrite Em, Es, Hs, Hu.
  split; [repeat split; first [exact F1 | lia | discriminate | auto]|discriminate].
Qed.

Lemma default_segment_fields e : 0 <= js_position e <= js_size e -> js_size e < LIMIT ->
  sg_format (default_segment e) = FORMAT_BYTES /\ sg_start (default_segment e) = js_position e /\
  sg_stop (default_segment e) = js_size e /\ sg_position (default_segment e) = js_position e /\
  sg_flags (default_segment e) = (if js_update e then SEGMENT_FLAG_UPDATE else 0).
Proof.
  intros H1 H2. unfold default_segment, byte_segment. simpl_set. rewrite !u64_small by (unfold is_u64, two_p64, LIMIT in *; lia). auto.
Qed.

(** The body of the task. *)
Lemma body_links j t j' r r' c ds c' : linked j c -> jc_task j = JBody r -> jc_task j' = JEnd r' ->
  Forall (java_answer src (jc_element j)) t -> runs (fun E => @loop_body E r) (jc_element j) (Some r') (jc_element j') t ->
  fed (feeds t) c ds c' -> pb_exec src c ds c' /\ linked j' c'.
Proof.
  intros (OK & (F1 & F2 & F3 & F4) & N) T T' J R H.
  destruct (runs_plwp _ _ _ _ _ _ (fun E => plwp_pwp _ _ _ (@body_feeds src E r _ F1)) R _ eq_refl J) as (FF & Hr & B).
  injection FF as E1 E2 E3 E4. unfold will_push in N. rewrite T in N. unfold linked, source_fits, will_push, has_mode. rewrite T', E1, E3, E4.
  destruct (decide (r = FLOW_OK)) as [-> | Hn].
  2: { destruct (Hr Hn) as (Ht & He & ->). rewrite Ht in H. destruct (fed_quiet src _ _ _ _ (Forall_nil_2 _) OK H) as [X [K1 K2]].
       split; [exact X|]. split; [eapply exec_ok; eassumption|]. rewrite He, K2. split; [auto|]. intros _ [F _]. contradiction. }
  set (e := jc_element j) in *. set (e' := jc_element j') in *.
  destruct B as [Q Hp He Ho|ok P Ht Hp He Hok|early b res late P Ht Q1 Q2 (B1 & B2 & B3 & B4) Hp Ho Hres].
  - destruct (fed_quiet src _ _ _ _ Q OK H) as [X [K1 K2]]. rewrite Hp, K1, K2. split; [exact X|].
    split; [eapply exec_ok; eassumption|].
    split; [split; [exact F1|]; split; [exact F2|]; split; [exact F3|]; auto|]. intros U _. apply N; auto.
  - rewrite Ht in H. destruct (F4 (or_intror P)) as [L U].
    destruct (default_segment_fields e F3 F2) as (S1 & S2 & S3 & S4 & S5).
    destruct (fed_one_segment src (default_segment e) ok c ds c' OK) as [X K]; rewrite ?S1, ?S2, ?S3, ?S4, ?S5; try lia; try reflexivity.
    + destruct (js_update e); [|discriminate]. intros _. destruct (U eq_refl). congruence.
    + exact H.
    + split; [exact X|]. split; [eapply exec_ok; eassumption|].
      split; [rewrite Hp; split; [exact F1|]; split; [exact F2|]; split; [exact F3|]; intros [O|O]; congruence|].
      intros _ [-> _]. rewrite (K (Hok eq_refl)), S2, Hp. reflexivity.
  - rewrite Ht in H. apply fed_app in H as (d1 & c1 & d2 & H1 & H2 & ->).
    destruct (fed_quiet src _ _ _ _ Q1 OK H1) as [X1 [K1 _]]. assert (OK1 := exec_ok src _ _ _ OK X1).
    change (FBuffer b res :: late) with ([FBuffer b res] ++ late) in H2. apply fed_app in H2 as (d3 & c2 & d4 & H3 & H4 & ->).
    rewrite u64_small in B1 by (unfold is_u64, two_p64, LIMIT in *; lia).
    destruct (decide (cf_next c = js_position e)) as [En | Hne]; [|destruct (Hne (N P eq_refl))].
    destruct (fed_one_buffer src b res c1 d3 c2 OK1) as (X3 & _ & K3); [congruence|rewrite K1, En; exact B2|rewrite K1, En; lia|exact H3|].
    assert (OK2 := exec_ok src _ _ _ OK1 X3). destruct (fed_quiet src _ _ _ _ Q2 OK2 H4) as [X4 [K4 _]].
    split; [eapply exec_app; [exact X1|]; eapply exec_app; eassumption|]. split; [eapply exec_ok; eassumption|].
    rewrite Hp. rewrite s64_small by (unfold INT64_MIN, INT64_MAX, LIMIT in *; lia).
    split; [split; [exact F1|]; split; [exact F2|]; split; [lia|contradiction]|].
    intros _ [-> _]. rewrite K4, K3 by auto. lia.
Qed.

Lemma source_links j t j' c ds c' : linked j c -> source_step src j t j' -> fed (feeds t) c ds c' -> pb_exec src c ds c' /\ linked j' c'.
Proof.
  intros L S H. destruct (source_kinds j t j') as [Q|r r' T T' J R|Q Em Es Hp Hs Hu]; [apply L|exact S| | |].
  - eapply quiet_links; eassumption.
  - eapply body_links; eassumption.
  - eapply seek_links; eassumption.
Qed.

Lemma refused_links j c s n e' t ds c' : linked j c -> jc_task j = JIdle ->
  (js_pending_event (jc_element j) = PENDING_UNKNOWN -> cf_next c = js_position (jc_element j)) ->
  runs (fun E => @seek_perform E s n) (jc_element j) false e' t -> fed (feeds t) c ds c' -> pb_exec src c ds c' /\ linked (mkJConf e' JIdle) c'.
Proof.
  intros (OK & F & _) T N R H.
  destruct (runs_plwp _ _ _ _ _ _ (fun E => plwp_pwp _ _ _ (@seek_refused E s n _)) R eq_refl) as [Q ->].
  destruct (fed_quiet src _ _ _ _ Q OK H) as [X [K1 K2]]. split; [exact X|]. split; [eapply exec_ok; eassumption|].
  split; [unfold source_fits in *; rewrite K2; exact F|]. intros P _. rewrite K1. exact (N P).
Qed.

Lemma pipe_links j c ds j' c' : pipe_exec src j c ds j' c' -> linked j c -> pb_exec src c ds c'.
Proof.
  induction 1 as [j c|j c ds c1 ds' j' c' S _ IH|j c t j1 ds c1 ds' j' c' S H _ IH|j c s n e' t ds c1 ds' j' c' T N R H _ IH]; intros L; [constructor| | |].
  - destruct L as (OK & F & N). destruct (own_fed src _ _ _ OK S) as (X & OK1 & K1 & K2). eapply exec_app; [exact X|]. apply IH.
    split; [exact OK1|]. unfold source_fits. rewrite K1, K2. split; assumption.
  - destruct (source_links _ _ _ _ _ _ L S H) as [X L1]. eapply exec_app; [exact X|apply IH, L1].
  - destruct (refused_links _ _ _ _ _ _ _ _ L T N R H) as [X L1]. eapply exec_app; [exact X|apply IH, L1].
Qed.
End Linked.


(** A stream of 200 bytes, of which Java delivers the first block. *)
Definition linked_answer {R} (c : pcall R) : R :=
  match c with
  | sig_read_next_block => 8
  | sig_copy_block n => bytes_of demo_src 0 (Z.to_nat n)
  | c => nominal_answer c
  end.
Definition started : JavaSource :=
  java_source_init <| js_size := 200 |> <| js_pending_event := PENDING_STREAM_START |> <| js_update := true |>.

Lemma fed_computed fs t c ds c' : feeds t = fs -> fed fs c ds c' -> fed (feeds t) c ds c'.
Proof. intros ->. auto. Qed.

Lemma fed_nothing_lost ev ok e' t c c' : (forall s, ev <> EvSegment s) ->
  runs (fun E => @progress_buffer_sink_event E ev) (cf_element c) ok e' t -> lost (cf_element c) e' = [] ->
  fed [] (with_element c e') [] c' -> fed [FEvent ev ok] c [] c'.
Proof. intros N R L H. change (@nil delivery) with ([] ++ @nil delivery). rewrite <- L at 1. eapply fed_event; eassumption. Qed.

Ltac run_linked := exists (fixed_env (@linked_answer)), tt, tt; vm_compute; reflexivity.
(** A section of the source, and what it feeds by [feed]. *)
Ltac linked_section ctor feed :=
  eapply (pipe_source _ _ _ _ _ [] _ _);
  [eapply ctor; [reflexivity | run_linked | ..]; vm_compute; repeat constructor; discriminate
  |eapply fed_computed; [vm_compute; reflexivity | feed] |].
Ltac feed_event := eapply fed_nothing_lost; [discriminate | run_nominal | vm_compute; reflexivity | apply fed_done].
Ltac feed_segment := eapply fed_segment; [run_nominal | vm_compute; reflexivity | apply fed_done].
Ltac feed_buffer := eapply fed_buffer; [run_nominal | vm_compute; reflexivity | apply fed_done].


(** ** A seek that Java refuses *)

Section FailedSeek.
Context `{EV : PEnv}.

Lemma push_block_moves size e : 0 < size -> js_pending_event e = PENDING_UNKNOWN ->
  pwp (push_block size) e (fun _ e' t => has_mode MODE_HLS e' = has_mode MODE_HLS e /\ js_pending_event e' = PENDING_UNKNOWN /\
    forall b r, FBuffer b r ∈ feeds t -> db_offset b = u64 (js_position e) /\ js_position e' = s64 (js_position e + db_size b)).
Proof.
  intros Hs P. unfold push_block.
  pstep. pstep. pstep; [|pstep; split; [reflexivity|]; split; [exact P|]; intros ? ? F; inversion F].
  pstep. pstep. pstep; [|pstep; split; [reflexivity|]; split; [exact P|]; intros ? ? F; inversion F].
  do 8 pstep. pstep. eapply pwp_mono; [apply push_caps_feeds|]. cbn beta. intros [] e1 t1 [Ht ->]. psteps.
  rewrite P, bool_decide_eq_false_2 by discriminate. split; [reflexivity|]. split; [exact P|].
  intros b r' H. rewrite !feeds_app, !elem_of_app in H. cbn [feeds map concat feed_of app] in H.
  rewrite Forall_forall in Ht.
  rewrite ?elem_of_cons, ?elem_of_nil in H. decompose [or] H; try contradiction;
    [match goal with H : _ ∈ feeds _ |- _ => destruct (Ht _ H) end|]; clear H.
  match goal with H : FBuffer _ _ = FBuffer _ _ |- _ => injection H as -> _ end.
  cbn [db_offset]. split; [reflexivity|]. simpl_set. do 2 f_equal.
  unfold db_size. cbn [db_data]. rewrite length_firstn, length_app, repeat_length. lia.
Qed.

End FailedSeek.

(** A seek that Java refuses loses a block.  The position moves past a
    block whether or not downstream took it; when the progress buffer refuses
    the block because it is being flushed for a seek, and Java then refuses
    that seek, the task is told to go on, no segment is owed, and the next
    buffer starts behind the block that nobody has. *)
Theorem failed_seek_skips_block `{PEnv} (size : Z) (s : GstSeek) (n : Z) (e : JavaSource)
    (Hsize : 0 < size) (Hpending : js_pending_event e = PENDING_UNKNOWN) :
  pwp (let* r := push_block size in loop_end r ;; seek_perform s n) e (fun ok e' t => ok = false ->
    js_srcresult e' = FLOW_OK /\ js_pending_event e' = PENDING_UNKNOWN /\
    forall b r, FBuffer b r ∈ feeds t -> db_offset b = u64 (js_position e) /\ js_position e' = s64 (js_position e + db_size b)).
Proof.
  pstep. eapply pwp_mono; [apply push_block_moves; assumption|]. cbn beta. intros r e1 t1 (_ & P & B).
  pstep. eapply pwp_mono; [apply end_refuses|]. cbn beta. intros [] e2 t2 ((Q & _ & Hp & He & _) & _).
  eapply pwp_mono; [apply seek_refused|]. cbn beta. intros ok e3 t3 K F. destruct (K F) as [Q3 ->]. simpl_set.
  split; [reflexivity|]. split; [congruence|]. intros b r'. rewrite !feeds_app, !elem_of_app. rewrite Hp.
  rewrite Forall_forall in Q, Q3. intros [Hb|[Hb|Hb]]; [exact (B b r' Hb)|destruct (Q _ Hb)|destruct (Q3 _ Hb)].
Qed.

Definition refusing_answer {R} (c : pcall R) : R :=
  match c with
  | pad_push _ => FLOW_FLUSHING
  | sig_seek_data _ => -1
  | c => linked_answer c
  end.

Lemma failed_seek_skips_block_witness : exists e' t,
  @pbind _ _ _ _ (@push_block (fixed_env (@refusing_answer)) 8)
    (fun r => loop_end r ;; seek_perform (mkSeek d_one FORMAT_BYTES GST_SEEK_FLAG_FLUSH SEEK_TYPE_SET 100 SEEK_TYPE_NONE 0) 3)
    (started <| js_pending_event := PENDING_UNKNOWN |>) tt = Some (false, e', tt, t) /\
  FBuffer demo_buffer FLOW_FLUSHING ∈ feeds t /\ js_srcresult e' = FLOW_OK /\ js_pending_event e' = PENDING_UNKNOWN /\ js_position e' = 8.
Proof.
  eexists. eexists. split; [vm_compute; reflexivity|]. split; [vm_compute; left|].
  pose proof (@failed_seek_skips_block (fixed_env (@refusing_answer)) 8
    (mkSeek d_one FORMAT_BYTES GST_SEEK_FLAG_FLUSH SEEK_TYPE_SET 100 SEEK_TYPE_NONE 0) 3
    (started <| js_pending_event := PENDING_UNKNOWN |>) eq_refl eq_refl tt eq_refl) as (H1 & H2 & H3).
  split; [exact H1|]. split; [exact H2|]. exact (proj2 (H3 demo_buffer FLOW_FLUSHING ltac:(vm_compute; left))).
Defined.
