(* ===== verification/DecoraApi.v ===== *)
(** * What the software image filters share

    The native filters of the Decora effects ([native-decora/SSE*.cc]) read one
    Java [int] array and write another.  This file holds the language they are
    written in: [jint] arithmetic whose overflow, division by zero, conversion
    out of range and accesses outside an array are undefined ([ub]), the
    counted loop, the critical sections of the JNI, and [checkRange]
    ([SSEUtils.cc]).  A theorem that a filter is [Done] therefore says that no
    execution of it is undefined. *)

From Stdlib Require Import Floats.SpecFloat.
From S2P Require Import Prelude CFloat Float32.
Local Open Scope Z_scope.

(** ** Undefined behaviour *)

Inductive undefined := OutOfBounds | DivideByZero | IntOverflow | FloatToInt | BadShift | Uninitialised | NullPointer.

Inductive ub (A : Type) :=
  | Done (a : A)
  | Undefined (why : undefined).
Global Arguments Done {A} a.
Global Arguments Undefined {A} why.

Definition ub_bind {A B} (m : ub A) (k : A -> ub B) : ub B :=
  match m with Done a => k a | Undefined w => Undefined w end.

Declare Scope ub_scope.
Delimit Scope ub_scope with ub.
Notation "'do*' x := m 'in' k" := (ub_bind m (fun x => k))
  (at level 10, x binder, m at level 100, k at level 200) : ub_scope.
Notation "'do*' ' p := m 'in' k" := (ub_bind m (fun x => match x with p => k end))
  (at level 10, p pattern, m at level 100, k at level 200) : ub_scope.
Local Open Scope ub_scope.

(** ** [jint] *)

Definition INT_MAX : Z := 2147483647.
Definition INT_MIN : Z := -2147483648.

Definition is_jint (z : Z) : bool := (INT_MIN <=? z) && (z <=? INT_MAX).
Definition jint (z : Z) : ub Z := if is_jint z then Done z else Undefined IntOverflow.
Definition iadd (a b : Z) : ub Z := jint (a + b).
Definition isub (a b : Z) : ub Z := jint (a - b).
Definition imul (a b : Z) : ub Z := jint (a * b).
Definition idiv (a b : Z) : ub Z := if b =? 0 then Undefined DivideByZero else jint (Z.quot a b).

(** [v << n] of a signed integer: defined when [v] is not negative and the
    result fits an unsigned integer, which is then converted. *)
Definition ishl (v n : Z) : ub Z :=
  if (0 <=? v) && (Z.shiftl v n <=? UINT_MAX) then Done (s32 (Z.shiftl v n)) else Undefined BadShift.

(** [(jint) f] *)
Definition float_to_jint (f : float) : ub Z :=
  match trunc f with
  | Some z => if is_jint z then Done z else Undefined FloatToInt
  | None => Undefined FloatToInt
  end.

(** [(rgb >> n) & 0xff] *)
Definition chan (rgb n : Z) : Z := Z.land (Z.shiftr rgb n) 255.

(** ** Arrays *)

Definition rd {A} (a : list A) (i : Z) : ub A :=
  if 0 <=? i then match a !! Z.to_nat i with Some v => Done v | None => Undefined OutOfBounds end
  else Undefined OutOfBounds.
Definition wr {A} (a : list A) (i : Z) (v : A) : ub (list A) :=
  if (0 <=? i) && (i <? Z.of_nat (length a)) then Done (<[Z.to_nat i := v]> a) else Undefined OutOfBounds.

(** ** [for (jint i = 0; i < n; i++)] *)

Fixpoint for_from {S} (k : nat) (i : Z) (body : Z -> S -> ub S) (s : S) : ub S :=
  match k with
  | O => Done s
  | Datatypes.S k => do* s' := body i s in for_from k (i + 1) body s'
  end.
Definition for_to {S} (n : Z) (body : Z -> S -> ub S) (s : S) : ub S := for_from (Z.to_nat n) 0 body s.

(** ** The Java side *)

(** A reference to an [int] array; [None] is [NULL]. *)
Definition jintArray := option (list Z).

(** Whether the virtual machine can give a pointer to the elements of the
    source and of the destination. *)
Record JNIEnv := mkJNIEnv { src_pinned : bool; dst_pinned : bool }.

(** Critical sections entered and left; [true] is the mode that copies the
    elements back ([0]), [false] is [JNI_ABORT]. *)
Inductive jni_event := GetSource | GetDestination | ReleaseSource (copy : bool) | ReleaseDestination (copy : bool).

(** What a filter leaves: the destination's elements and the trace of its
    critical sections. *)
Definition filtered : Type := list Z * list jni_event.

(** Every filter wraps its loops in the same acquisition of the two arrays,
    which are different objects.  (The lines are those of the first one.) *)
Definition with_pixels (env : JNIEnv) (dst src : list Z) (body : ub (list Z)) : ub filtered :=
  if negb (src_pinned env) then Done (dst, [])
  else if negb (dst_pinned env) then Done (dst, [GetSource; ReleaseSource false])
  else do* dst' := body in
       Done (dst', [GetSource; GetDestination; ReleaseDestination true; ReleaseSource false]).

(** A local array filled by [GetFloatArrayRegion(a, 0, n, buffer)]: when the
    Java array is shorter the call throws and the buffer stays uninitialised. *)
Definition GetFloatArrayRegion (a : list float) (n : Z) : list (option float) :=
  if n <=? Z.of_nat (length a) then map Some (take (Z.to_nat n) a) else repeat None (Z.to_nat n).

(** Reading an element of such a buffer. *)
Definition rdf (buffer : list (option float)) (i : Z) : ub float :=
  do* v := rd buffer i in match v with Some f => Done f | None => Undefined Uninitialised end.

(** ** [checkRange] *)

Definition array_length (a : jintArray) : Z := match a with Some l => Z.of_nat (length l) | None => 0 end.
Definition is_null (a : jintArray) : bool := match a with None => true | Some _ => false end.

Definition checkRange (dstPixels_arr : jintArray) (dstw dsth : Z) (srcPixels_arr : jintArray) (srcw srch : Z) : bool :=
  is_null srcPixels_arr || is_null dstPixels_arr ||
  (srcw <=? 0) || (srch <=? 0) || (srcw >? INT_MAX ÷ srch) ||
  (dstw <=? 0) || (dsth <=? 0) || (dstw >? INT_MAX ÷ dsth) ||
  (srcw * srch >? array_length srcPixels_arr) ||
  (dstw * dsth >? array_length dstPixels_arr).

(** ** Rules *)

Definition yields {A} (m : ub A) (P : A -> Prop) : Prop := exists a, m = Done a /\ P a.

Lemma yields_done {A} (a : A) (P : A -> Prop) : P a -> yields (Done a) P.
Proof. intros H. exists a. auto. Qed.

Lemma yields_bind {A B} (m : ub A) (k : A -> ub B) (P : A -> Prop) (Q : B -> Prop) :
  yields m P -> (forall a, P a -> yields (k a) Q) -> yields (ub_bind m k) Q.
Proof. intros (a & -> & H) Hk. exact (Hk a H). Qed.

Lemma yields_mono {A} (m : ub A) (P Q : A -> Prop) : yields m P -> (forall a, P a -> Q a) -> yields m Q.
Proof. intros (a & -> & H) HPQ. exists a. auto. Qed.

(** A counted loop keeps an invariant indexed by its counter. *)
Lemma for_to_yields {S} (I : Z -> S -> Prop) n body (s : S) :
  0 <= n ->
  (forall i s, 0 <= i < n -> I i s -> yields (body i s) (I (i + 1))) ->
  I 0 s -> yields (for_to n body s) (I n).
Proof.
  intros Hn Hb. unfold for_to.
  assert (forall k i s, 0 <= i -> i + Z.of_nat k = n -> I i s -> yields (for_from k i body s) (I n)) as H.
  { induction k as [|k IH]; intros i t Hi Hk Ht; cbn [for_from].
    - apply yields_done. replace n with i by lia. exact Ht.
    - apply (yields_bind _ _ (I (i + 1))); [apply Hb; [lia|exact Ht]|].
      intros t' Ht'. apply IH; [lia|lia|exact Ht']. }
  apply H; lia.
Qed.

(** ** Steps of which only some undefined behaviour is left

    [ok] is what may be left: nothing ([yields]), or conversions out of range
    ([converts]). *)

Definition runs {A} (ok : undefined -> Prop) (m : ub A) (P : A -> Prop) : Prop :=
  match m with Done a => P a | Undefined w => ok w end.

Lemma runs_done {A} ok (a : A) (P : A -> Prop) : P a -> runs ok (Done a) P.
Proof. auto. Qed.
Lemma runs_bind {A B} ok (m : ub A) (k : A -> ub B) (P : A -> Prop) (Q : B -> Prop) :
  runs ok m P -> (forall a, P a -> runs ok (k a) Q) -> runs ok (ub_bind m k) Q.
Proof. destruct m; cbn; auto. Qed.
Lemma runs_mono {A} ok (m : ub A) (P Q : A -> Prop) : runs ok m P -> (forall a, P a -> Q a) -> runs ok m Q.
Proof. destruct m; cbn; auto. Qed.
Lemma yields_runs {A} ok (m : ub A) (P : A -> Prop) : yields m P -> runs ok m P.
Proof. intros (a & -> & H). exact H. Qed.
Lemma runs_yields {A} (m : ub A) (P : A -> Prop) : runs (fun _ => False) m P -> yields m P.
Proof. destruct m as [a|w]; cbn; [apply yields_done|contradiction]. Qed.
Lemma runs_for_to {S} ok (I : Z -> S -> Prop) n body (s : S) :
  (forall i s, 0 <= i < n -> I i s -> runs ok (body i s) (I (i + 1))) ->
  I 0 s -> runs ok (for_to n body s) (I (Z.max 0 n)).
Proof.
  intros Hb. unfold for_to.
  assert (forall k i s, 0 <= i -> i + Z.of_nat k = Z.max 0 n -> I i s -> runs ok (for_from k i body s) (I (Z.max 0 n))) as H.
  { induction k as [|k IH]; intros i t Hi Hk Ht; cbn [for_from].
    - cbn. replace (Z.max 0 n) with i by lia. exact Ht.
    - apply (runs_bind _ _ _ (I (i + 1))); [apply Hb; [lia|exact Ht]|].
      intros t' Ht'. apply IH; [lia|lia|exact Ht']. }
  apply H; lia.
Qed.

Definition converts {A} : ub A -> (A -> Prop) -> Prop := runs (fun w => w = FloatToInt).

Lemma converts_bind {A B} (m : ub A) (k : A -> ub B) (P : A -> Prop) (Q : B -> Prop) :
  converts m P -> (forall a, P a -> converts (k a) Q) -> converts (ub_bind m k) Q.
Proof. apply runs_bind. Qed.

Lemma converts_yields {A} (m : ub A) (P : A -> Prop) : yields m P -> converts m P.
Proof. apply yields_runs. Qed.

Lemma converts_mono {A} (m : ub A) (P Q : A -> Prop) : converts m P -> (forall a, P a -> Q a) -> converts m Q.
Proof. apply runs_mono. Qed.

Lemma for_to_converts {S} (I : Z -> S -> Prop) n body (s : S) :
  (forall i s, 0 <= i < n -> I i s -> converts (body i s) (I (i + 1))) ->
  I 0 s -> converts (for_to n body s) (I (Z.max 0 n)).
Proof. apply runs_for_to. Qed.

Lemma jint_done z : INT_MIN <= z <= INT_MAX -> jint z = Done z.
Proof.
  intros H. unfold jint, is_jint. destruct (Z.leb_spec INT_MIN z), (Z.leb_spec z INT_MAX); try lia. reflexivity.
Qed.

Lemma idiv_done a b : 0 <= a <= INT_MAX -> 0 < b -> idiv a b = Done (a / b).
Proof.
  intros Ha Hb. unfold idiv. destruct (Z.eqb_spec b 0); [lia|].
  rewrite Z.quot_div_nonneg by lia. apply jint_done. unfold INT_MIN, INT_MAX in *.
  pose proof (Z.div_pos a b). pose proof (Z.div_le_upper_bound a b a). nia.
Qed.

Lemma ishl_done v n : 0 <= n -> 0 <= v -> v * 2 ^ n <= UINT_MAX -> ishl v n = Done (s32 (v * 2 ^ n)).
Proof.
  intros Hn Hv Hm. unfold ishl. rewrite Z.shiftl_mul_pow2 by exact Hn.
  destruct (Z.leb_spec 0 v), (Z.leb_spec (v * 2 ^ n) UINT_MAX); try lia. reflexivity.
Qed.

Lemma rd_done {A} (a : list A) i v : 0 <= i -> a !! Z.to_nat i = Some v -> rd a i = Done v.
Proof. intros Hi H. unfold rd. rewrite H. destruct (Z.leb_spec 0 i); [reflexivity|lia]. Qed.

Lemma wr_done {A} (a : list A) i (v : A) : 0 <= i < Z.of_nat (length a) -> wr a i v = Done (<[Z.to_nat i := v]> a).
Proof.
  intros H. unfold wr. destruct (Z.leb_spec 0 i), (Z.ltb_spec i (Z.of_nat (length a))); try lia. reflexivity.
Qed.

Lemma chan_range rgb n : 0 <= chan rgb n <= 255.
Proof.
  unfold chan. change 255 with (Z.ones 8). rewrite Z.land_ones by lia.
  pose proof (Z.mod_pos_bound (Z.shiftr rgb n) (2 ^ 8)). change (2 ^ 8) with 256 in *. change (Z.ones 8) with 255. lia.
Qed.

Lemma checkRange_accepts dst dstw dsth src srcw srch :
  checkRange (Some dst) dstw dsth (Some src) srcw srch = false <->
  0 < srcw /\ 0 < srch /\ srcw * srch <= INT_MAX /\ 0 < dstw /\ 0 < dsth /\ dstw * dsth <= INT_MAX /\
  srcw * srch <= Z.of_nat (length src) /\ dstw * dsth <= Z.of_nat (length dst).
Proof.
  assert (forall w h, 0 < h -> (w <= INT_MAX ÷ h <-> w * h <= INT_MAX)) as Hq.
  { intros w h Hh. rewrite Z.quot_div_nonneg by (unfold INT_MAX; lia). rewrite (Z.mul_comm w h).
    split; intros H; [apply div_guard in H; lia|apply Z.div_le_lower_bound; assumption]. }
  unfold checkRange. cbn [is_null array_length orb]. rewrite !orb_false_iff, !Z.leb_gt.
  rewrite !Z.gtb_ltb, !Z.ltb_ge. split.
  - intros H. pose proof (Hq srcw srch). pose proof (Hq dstw dsth). intuition lia.
  - intros H. pose proof (Hq srcw srch). pose proof (Hq dstw dsth). intuition lia.
Qed.
