(* ===== verification/Argb.v ===== *)
(** * Pixels of four bytes

    The image components of JavaFX hold a pixel in one [int]: alpha, red, green
    and blue, from the highest byte to the lowest.  This file relates the shifts
    and masks of the code to the four values. *)

From S2P Require Import Prelude CFloat Float32 DecoraApi.
Local Open Scope Z_scope.
Local Open Scope ub_scope.

(** A pixel from its channels. *)
Definition pack (a r g b : Z) : Z := s32 (a * 2 ^ 24 + r * 2 ^ 16 + g * 2 ^ 8 + b).

(** The bit position of a channel. *)
Inductive channel : Z -> Prop := alpha : channel 24 | red : channel 16 | green : channel 8 | blue : channel 0.

Lemma s32_split v :
  0 <= v < 2 ^ 32 -> s32 v = if v <? 2 ^ 31 then v else v - 2 ^ 32.
Proof.
  intros H. unfold s32. change (two_p32 / 2) with (2 ^ 31). change two_p32 with (2 ^ 32).
  destruct (Z.ltb_spec v (2 ^ 31)) as [L|L].
  - rewrite Z.mod_small; lia.
  - replace (v + 2 ^ 31) with (v - 2 ^ 31 + 1 * 2 ^ 32) by lia. rewrite Z.mod_add, Z.mod_small; lia.
Qed.

Lemma pack_done a r g b :
  0 <= a <= 255 -> 0 <= r <= 255 -> 0 <= g <= 255 -> 0 <= b <= 255 ->
  (do* a := ishl a 24 in do* r := ishl r 16 in do* g := ishl g 8 in do* b := ishl b 0 in
   do* ar := iadd a r in do* arg := iadd ar g in iadd arg b) = Done (pack a r g b).
Proof.
  intros Ha Hr Hg Hb. unfold pack.
  rewrite !ishl_done by (unfold UINT_MAX, two_p32; lia). cbn [ub_bind].
  rewrite Z.pow_0_r, Z.mul_1_r. rewrite !s32_split by lia.
  destruct (Z.ltb_spec (a * 2 ^ 24) (2 ^ 31)), (Z.ltb_spec (r * 2 ^ 16) (2 ^ 31)),
    (Z.ltb_spec (g * 2 ^ 8) (2 ^ 31)), (Z.ltb_spec b (2 ^ 31)),
    (Z.ltb_spec (a * 2 ^ 24 + r * 2 ^ 16 + g * 2 ^ 8 + b) (2 ^ 31)); try lia;
    unfold iadd; rewrite !jint_done by (unfold INT_MIN, INT_MAX; lia); cbn [ub_bind];
    rewrite !jint_done by (unfold INT_MIN, INT_MAX; lia); cbn [ub_bind];
    rewrite !jint_done by (unfold INT_MIN, INT_MAX; lia); f_equal; lia.
Qed.

Lemma chan_spec v n : 0 <= n -> chan v n = (v / 2 ^ n) mod 256.
Proof. intros H. unfold chan. change 255 with (Z.ones 8). rewrite Z.land_ones, Z.shiftr_div_pow2 by lia. reflexivity. Qed.

Lemma chan_s32 v n : 0 <= n <= 24 -> 0 <= v < 2 ^ 32 -> chan (s32 v) n = chan v n.
Proof.
  intros Hn Hv. rewrite s32_split by exact Hv. destruct (v <? 2 ^ 31); [reflexivity|].
  rewrite !chan_spec by lia. rewrite (pow2_diff n 32) by lia.
  replace (v - 2 ^ (32 - n) * 2 ^ n) with (v + - (2 ^ (32 - n)) * 2 ^ n) by lia.
  rewrite Z.div_add by (pose proof (pow2_pos n); lia).
  replace (v / 2 ^ n + - 2 ^ (32 - n)) with (v / 2 ^ n + - (2 ^ (24 - n)) * 256).
  - apply Z.mod_add. lia.
  - replace (32 - n) with (24 - n + 8) by lia. rewrite Z.pow_add_r by lia. lia.
Qed.

Lemma chan_pack a r g b :
  0 <= a <= 255 -> 0 <= r <= 255 -> 0 <= g <= 255 -> 0 <= b <= 255 ->
  chan (pack a r g b) 24 = a /\ chan (pack a r g b) 16 = r /\ chan (pack a r g b) 8 = g /\ chan (pack a r g b) 0 = b.
Proof.
  intros Ha Hr Hg Hb. unfold pack. rewrite !chan_s32 by lia. rewrite !chan_spec by lia.
  change (2 ^ 24) with 16777216. change (2 ^ 16) with 65536. change (2 ^ 8) with 256. change (2 ^ 0) with 1.
  repeat split; divlia.
Qed.

Lemma lor_low h l k : 0 <= k -> 0 <= l < 2 ^ k -> Z.lor (h * 2 ^ k) l = h * 2 ^ k + l.
Proof.
  intros Hk Hl. symmetry. apply Z.add_nocarry_lor, Z.bits_inj'. intros n Hn.
  rewrite Z.land_spec, Z.bits_0. destruct (Z.lt_ge_cases n k).
  - rewrite Z.mul_pow2_bits_low by lia. reflexivity.
  - destruct (Z.eq_dec l 0) as [->|]; [rewrite Z.bits_0; apply andb_false_r|].
    rewrite (Z.bits_above_log2 l n); [apply andb_false_r|lia|]. apply Z.log2_lt_pow2; [lia|].
    pose proof (pow2_mono k n ltac:(lia)). lia.
Qed.

(** Combining the four shifted channels with [|]. *)
Lemma lor_pack a r g b :
  0 <= a <= 255 -> 0 <= r <= 255 -> 0 <= g <= 255 -> 0 <= b <= 255 ->
  Z.lor (Z.lor (Z.lor (s32 (a * 2 ^ 24)) (s32 (r * 2 ^ 16))) (s32 (g * 2 ^ 8))) (s32 (b * 2 ^ 0)) = pack a r g b.
Proof.
  intros Ha Hr Hg Hb. unfold pack. rewrite Z.pow_0_r, Z.mul_1_r. rewrite !s32_split by lia.
  change (2 ^ 31) with 2147483648. change (2 ^ 32) with 4294967296.
  change (2 ^ 24) with 16777216. change (2 ^ 16) with 65536. change (2 ^ 8) with 256.
  assert (forall h, Z.lor (Z.lor (Z.lor (h * 16777216) (r * 65536)) (g * 256)) b =
    h * 16777216 + (r * 65536 + g * 256 + b)) as L.
  { intros h. pose proof (lor_low h (r * 65536) 24 ltac:(lia)) as L1. pose proof (lor_low (h * 256 + r) (g * 256) 16 ltac:(lia)) as L2.
    pose proof (lor_low ((h * 256 + r) * 256 + g) b 8 ltac:(lia)) as L3.
    change (2 ^ 24) with 16777216 in L1. change (2 ^ 16) with 65536 in L2. change (2 ^ 8) with 256 in L3.
    rewrite L1 by lia. replace (h * 16777216 + r * 65536) with ((h * 256 + r) * 65536) by lia.
    rewrite L2 by lia. replace ((h * 256 + r) * 65536 + g * 256) with (((h * 256 + r) * 256 + g) * 256) by lia.
    rewrite L3 by lia. lia. }
  destruct (Z.ltb_spec (r * 65536) 2147483648), (Z.ltb_spec (g * 256) 2147483648), (Z.ltb_spec b 2147483648); try lia.
  destruct (Z.ltb_spec (a * 16777216) 2147483648), (Z.ltb_spec (a * 16777216 + r * 65536 + g * 256 + b) 2147483648); try lia.
  - rewrite L. lia.
  - replace (a * 16777216 - 4294967296) with ((a - 256) * 16777216) by lia. rewrite L. lia.
Qed.

Lemma lor_last r g b a : Z.lor (Z.lor (Z.lor r g) b) a = Z.lor (Z.lor (Z.lor a r) g) b.
Proof. rewrite (Z.lor_comm _ a), !Z.lor_assoc. reflexivity. Qed.
