(* ===== verification/Painted.v ===== *)
(** * Windows and painted images

    The specification side of the image filters: sums of the pixels under a
    sliding window, and images in which a set of pixels has been painted and
    the rest is untouched.  The filters address pixel [(x, y)] at an index
    [ix x y] of their array; [raster] says that the pixels of an image are
    inside the array and do not overlap. *)

From S2P Require Import Prelude CFloat Float32 DecoraApi.
Local Open Scope Z_scope.

(** ** Window sums *)

(** The sum of [f] over the [k] positions that end at [x]. *)
Fixpoint box_sum (f : Z -> Z) (k : nat) (x : Z) : Z :=
  match k with
  | O => 0
  | S k => f (x - Z.of_nat k) + box_sum f k x
  end.

(** Moving the window one position: the value that leaves is subtracted, the
    value that enters is added. *)
Lemma box_sum_slide f k x : box_sum f k x = box_sum f k (x - 1) - f (x - Z.of_nat k) + f x.
Proof.
  induction k as [|k IH]; cbn [box_sum]; [rewrite Z.sub_0_r; lia|].
  rewrite IH. replace (x - 1 - Z.of_nat k) with (x - Z.of_nat (S k)) by lia. lia.
Qed.

Lemma box_sum_bounds f k x m : (forall i, 0 <= f i <= m) -> 0 <= box_sum f k x <= Z.of_nat k * m.
Proof.
  intros H. induction k as [|k IH]; cbn [box_sum]; [lia|]. pose proof (H (x - Z.of_nat k)). lia.
Qed.

(** What is left of a window when the oldest value leaves it. *)
Lemma box_sum_leave f k x m :
  (0 < k)%nat -> (forall i, 0 <= f i <= m) ->
  0 <= box_sum f k (x - 1) - f (x - Z.of_nat k) <= Z.of_nat k * m - m.
Proof.
  intros Hk H. destruct k as [|k]; [lia|]. cbn [box_sum].
  replace (x - 1 - Z.of_nat k) with (x - Z.of_nat (S k)) by lia.
  pose proof (box_sum_bounds f k (x - 1) m H). lia.
Qed.

Lemma box_sum_zero f k x : (forall i, i <= x -> f i = 0) -> box_sum f k x = 0.
Proof.
  intros H. induction k as [|k IH]; cbn [box_sum]; [reflexivity|]. rewrite IH, H by lia. reflexivity.
Qed.

Lemma box_sum_const f k x c :
  (forall j, 0 <= j < Z.of_nat k -> f (x - j) = c) -> box_sum f k x = Z.of_nat k * c.
Proof.
  intros H. induction k as [|k IH]; cbn [box_sum]; [lia|].
  rewrite H, IH by (intros; try apply H; lia). lia.
Qed.

(** ** Images *)

(** The pixel at index [i]. *)
Definition pixel (a : list Z) (i : Z) : Z := nth (Z.to_nat i) a 0.

(** A line of [n] pixels, black and transparent on both sides. *)
Definition line (n : Z) (get : Z -> Z) (i : Z) : Z := if (0 <=? i) && (i <? n) then get i else 0.

Lemma line_in n get i : 0 <= i < n -> line n get i = get i.
Proof. intros H. unfold line. destruct (Z.leb_spec 0 i), (Z.ltb_spec i n); try lia. reflexivity. Qed.

Lemma line_out n get i : i < 0 \/ n <= i -> line n get i = 0.
Proof. intros H. unfold line. destruct (Z.leb_spec 0 i), (Z.ltb_spec i n); try lia; reflexivity. Qed.

Lemma chan_line n get i c : chan (line n get i) c = line n (fun j => chan (get j) c) i.
Proof. unfold line. destruct (_ && _); [reflexivity|]. unfold chan. rewrite Z.shiftr_0_l. reflexivity. Qed.

Lemma rd_pixel a i : 0 <= i < Z.of_nat (length a) -> rd a i = Done (pixel a i).
Proof.
  intros H. apply rd_done; [lia|]. unfold pixel.
  destruct (lookup_lt_is_Some_2 a (Z.to_nat i)) as [v E]; [lia|].
  rewrite nth_lookup, E. reflexivity.
Qed.

Definition in_image (w h x y : Z) : Prop := 0 <= x < w /\ 0 <= y < h.

(** The pixels of a [w] by [h] image are addressed by [ix] inside an array of
    [len] elements, without overlap. *)
Definition raster (ix : Z -> Z -> Z) (w h len : Z) : Prop :=
  (forall x y, in_image w h x y -> 0 <= ix x y < len) /\
  (forall x y x' y', in_image w h x y -> in_image w h x' y' -> ix x y = ix x' y' -> x = x' /\ y = y').

(** Rows one after the other, [scan] elements apart. *)
Definition row_major (scan x y : Z) : Z := y * scan + x.

(** A row lies inside the rows that contain it. *)
Lemma row_range y h s : 0 <= y < h -> 0 <= s -> 0 <= y * s /\ y * s + s <= h * s.
Proof.
  intros Hy Hs. split; [apply Z.mul_nonneg_nonneg; lia|].
  replace (y * s + s) with ((y + 1) * s) by lia. apply Z.mul_le_mono_nonneg_r; lia.
Qed.

Lemma row_major_raster w h scan len : w <= scan -> h * scan <= len -> raster (row_major scan) w h len.
Proof.
  intros Hw Hl. unfold raster, in_image, row_major. split; [intros; nia|].
  intros x y x' y' H H' E. assert (y = y') as -> by nia. lia.
Qed.

(** [d] is [dst] with the pixels of [D] painted with [f]. *)
Definition painted (D : Z -> Z -> Prop) (ix f : Z -> Z -> Z) (dst d : list Z) : Prop :=
  length d = length dst /\
  (forall x y, D x y -> d !! Z.to_nat (ix x y) = Some (f x y)) /\
  (forall i, (forall x y, D x y -> Z.to_nat (ix x y) <> i) -> d !! i = dst !! i).

Lemma painted_none ix f dst : painted (fun _ _ => False) ix f dst dst.
Proof. repeat split; auto. tauto. Qed.

Lemma painted_ext D D' ix f dst d :
  (forall x y, D x y <-> D' x y) -> painted D ix f dst d -> painted D' ix f dst d.
Proof.
  intros H (H1 & H2 & H3). split; [exact H1|]. split.
  - intros x y Hd. apply H2, H, Hd.
  - intros i Hi. apply H3. intros x y Hd. apply Hi, H, Hd.
Qed.

(** Painting one more pixel. *)
Lemma painted_step ix w h D f dst d x y :
  raster ix w h (Z.of_nat (length dst)) ->
  (forall x y, D x y -> in_image w h x y) -> in_image w h x y ->
  painted D ix f dst d ->
  yields (wr d (ix x y) (f x y)) (painted (fun x' y' => D x' y' \/ (x' = x /\ y' = y)) ix f dst).
Proof.
  intros [Hr Hi] HD Hxy (H1 & H2 & H3). pose proof (Hr x y Hxy) as Hb.
  rewrite wr_done by lia. apply yields_done. split; [rewrite length_insert; exact H1|]. split.
  - intros x' y' [Hd|[-> ->]].
    + destruct (decide (ix x y = ix x' y')) as [E|E].
      * destruct (Hi x y x' y' Hxy (HD x' y' Hd) E) as [-> ->]. apply list_lookup_insert_eq. lia.
      * rewrite list_lookup_insert_ne; [apply H2; exact Hd|].
        pose proof (Hr x' y' (HD x' y' Hd)). lia.
    + apply list_lookup_insert_eq. lia.
  - intros i Hne. rewrite list_lookup_insert_ne; [apply H3; intros; apply Hne; tauto|].
    apply Hne. tauto.
Qed.

(** Pixels painted so far: by whole rows, by whole columns. *)
Definition rows_before (w y0 x0 : Z) (x y : Z) : Prop :=
  (0 <= x < w /\ 0 <= y < y0) \/ (0 <= x < x0 /\ y = y0).
Definition columns_before (h x0 y0 : Z) (x y : Z) : Prop :=
  (0 <= x < x0 /\ 0 <= y < h) \/ (x = x0 /\ 0 <= y < y0).

Ltac regions := unfold rows_before, columns_before, in_image in *; intros; nia.

Lemma rows_start w x y : rows_before w 0 0 x y <-> False.
Proof. regions. Qed.
Lemma rows_pixel w y0 x0 x y :
  0 <= x0 -> rows_before w y0 x0 x y \/ (x = x0 /\ y = y0) <-> rows_before w y0 (x0 + 1) x y.
Proof. regions. Qed.
Lemma rows_line w y0 x y : 0 <= y0 -> rows_before w y0 w x y <-> rows_before w (y0 + 1) 0 x y.
Proof. regions. Qed.
Lemma rows_end w h x y : rows_before w h 0 x y <-> in_image w h x y.
Proof. regions. Qed.
Lemma rows_inside w h y0 x0 x y : 0 <= y0 < h -> 0 <= x0 <= w -> rows_before w y0 x0 x y -> in_image w h x y.
Proof. regions. Qed.

Lemma columns_start h x y : columns_before h 0 0 x y <-> False.
Proof. regions. Qed.
Lemma columns_pixel h x0 y0 x y :
  0 <= y0 -> columns_before h x0 y0 x y \/ (x = x0 /\ y = y0) <-> columns_before h x0 (y0 + 1) x y.
Proof. regions. Qed.
Lemma columns_line h x0 x y : 0 <= x0 -> columns_before h x0 h x y <-> columns_before h (x0 + 1) 0 x y.
Proof. regions. Qed.
Lemma columns_end w h x y : columns_before h w 0 x y <-> in_image w h x y.
Proof. regions. Qed.
Lemma columns_inside w h y0 x0 x y : 0 <= x0 < w -> 0 <= y0 <= h -> columns_before h x0 y0 x y -> in_image w h x y.
Proof. regions. Qed.
