(* ===== verification/BoxBlur.v ===== *)
(** * Box blur ([SSEBoxBlurPeer.cc])

    The two passes of the software box blur.  Each pass slides a window along
    the lines of the source and keeps the four channel sums of the pixels under
    it; [filterHorizontal_is_box_blur] and [filterVertical_is_box_blur] show
    that every destination pixel is the scaled sum of its whole window, that
    nothing else of the destination changes, and that the run is defined. *)

From Stdlib Require Import Floats.SpecFloat.
From S2P Require Import Prelude CFloat Float32 DecoraApi Argb Painted.
Local Open Scope Z_scope.
Local Open Scope ub_scope.

(** ** The code *)

(** The four accumulators. *)
Record sums := mkSums { suma : Z; sumr : Z; sumg : Z; sumb : Z }.
Definition no_sums : sums := mkSums 0 0 0 0.

(** [suma -= (rgb >> 24) & 0xff; ...], and the same with [+=]. *)
Definition accumulate (op : Z -> Z -> ub Z) (s : sums) (rgb : Z) : ub sums :=
  do* a := op (suma s) (chan rgb 24) in
  do* r := op (sumr s) (chan rgb 16) in
  do* g := op (sumg s) (chan rgb 8) in
  do* b := op (sumb s) (chan rgb 0) in
  Done (mkSums a r g b).

(** [((sum * kscale) >> 23) << n] *)
Definition scaled_channel (sum kscale n : Z) : ub Z :=
  do* p := imul sum kscale in ishl (Z.shiftr p 23) n.

Definition blurred (s : sums) (kscale : Z) : ub Z :=
  do* a := scaled_channel (suma s) kscale 24 in
  do* r := scaled_channel (sumr s) kscale 16 in
  do* g := scaled_channel (sumg s) kscale 8 in
  do* b := scaled_channel (sumb s) kscale 0 in
  do* ar := iadd a r in
  do* arg := iadd ar g in
  iadd arg b.

(** The body of the loop over [x]. *)
Definition horizontal_pixel (src : list Z) (srcw hsize kscale srcoff dstoff x : Z)
    (st : sums * list Z) : ub (sums * list Z) :=
  let '(s, dst) := st in
  do* rgb := (if x >=? hsize then do* o := iadd srcoff x in do* i := isub o hsize in rd src i else Done 0) in
  do* s := accumulate isub s rgb in
  do* rgb := (if x <? srcw then do* i := iadd srcoff x in rd src i else Done 0) in
  do* s := accumulate iadd s rgb in
  do* p := blurred s kscale in
  do* i := iadd dstoff x in
  do* dst := wr dst i p in
  Done (s, dst).

(** The body of the loop over [y]; the state is [srcoff], [dstoff] and the
    destination. *)
Definition horizontal_row (src : list Z) (dstw dstscan srcw srcscan hsize kscale y : Z)
    (st : Z * Z * list Z) : ub (Z * Z * list Z) :=
  let '(srcoff, dstoff, dst) := st in
  do* '(_, dst) := for_to dstw (horizontal_pixel src srcw hsize kscale srcoff dstoff) (no_sums, dst) in
  do* srcoff := iadd srcoff srcscan in
  do* dstoff := iadd dstoff dstscan in
  Done (srcoff, dstoff, dst).

Definition filterHorizontal (env : JNIEnv)
    (dstPixels_arr : jintArray) (dstw dsth dstscan : Z)
    (srcPixels_arr : jintArray) (srcw srch srcscan : Z) : ub filtered :=
  match dstPixels_arr, srcPixels_arr with
  | Some dst, Some src =>
      if checkRange dstPixels_arr dstw dsth srcPixels_arr srcw srch || (dsth >? srch) then Done (dst, [])
      else with_pixels env dst src
        (do* d := isub dstw srcw in
         do* hsize := iadd d 1 in
         do* area := imul hsize 255 in
         do* kscale := idiv INT_MAX area in
         do* '(_, _, dst) := for_to dsth (horizontal_row src dstw dstscan srcw srcscan hsize kscale) (0, 0, dst) in
         Done dst)
  | _, _ => Done (default [] dstPixels_arr, [])
  end.

(** The body of the loop over [y]; the state is [srcoff], [dstoff], the sums
    and the destination. *)
Definition vertical_pixel (src : list Z) (dstscan srch srcscan voff kscale y : Z)
    (st : Z * Z * sums * list Z) : ub (Z * Z * sums * list Z) :=
  let '(srcoff, dstoff, s, dst) := st in
  do* rgb := (if srcoff >=? voff then do* i := isub srcoff voff in rd src i else Done 0) in
  do* s := accumulate isub s rgb in
  do* rgb := (if y <? srch then rd src srcoff else Done 0) in
  do* s := accumulate iadd s rgb in
  do* p := blurred s kscale in
  do* dst := wr dst dstoff p in
  do* srcoff := iadd srcoff srcscan in
  do* dstoff := iadd dstoff dstscan in
  Done (srcoff, dstoff, s, dst).

Definition vertical_column (src : list Z) (dsth dstscan srch srcscan voff kscale x : Z) (dst : list Z) : ub (list Z) :=
  do* '(_, _, _, dst) := for_to dsth (vertical_pixel src dstscan srch srcscan voff kscale) (x, x, no_sums, dst) in
  Done dst.

Definition filterVertical (env : JNIEnv)
    (dstPixels_arr : jintArray) (dstw dsth dstscan : Z)
    (srcPixels_arr : jintArray) (srcw srch srcscan : Z) : ub filtered :=
  match dstPixels_arr, srcPixels_arr with
  | Some dst, Some src =>
      if checkRange dstPixels_arr dstw dsth srcPixels_arr srcw srch || (dstw >? srcw) then Done (dst, [])
      else with_pixels env dst src
        (do* d := isub dsth srch in
         do* vsize := iadd d 1 in
         do* area := imul vsize 255 in
         do* kscale := idiv INT_MAX area in
         do* voff := imul vsize srcscan in
         for_to dstw (vertical_column src dsth dstscan srch srcscan voff kscale) dst)
  | _, _ => Done (default [] dstPixels_arr, [])
  end.

(** ** What a pass computes *)

(** The channel sums of the [k] pixels of the line [f] that end at [x]. *)
Definition window (f : Z -> Z) (k : nat) (x : Z) (c : Z) : Z := box_sum (fun i => chan (f i) c) k x.
Definition window_sums (f : Z -> Z) (k : nat) (x : Z) : sums :=
  mkSums (window f k x 24) (window f k x 16) (window f k x 8) (window f k x 0).

(** A channel: the sum, scaled so that a full window gives 255. *)
Definition box_channel (k sum : Z) : Z := sum * (INT_MAX / (k * 255)) / 2 ^ 23.
Definition box_pixel (f : Z -> Z) (k x : Z) : Z :=
  let c n := box_channel k (window f (Z.to_nat k) x n) in pack (c 24) (c 16) (c 8) (c 0).

(** The two images are inside their arrays, with rows that do not overlap. *)
Definition sound_images (dst : list Z) (dstw dsth dstscan : Z) (src : list Z) (srcw srch srcscan : Z) : Prop :=
  0 < srcw <= srcscan /\ 0 < srch /\ srch * srcscan <= Z.of_nat (length src) <= INT_MAX /\
  0 < dstw <= dstscan /\ 0 < dsth /\ dsth * dstscan <= Z.of_nat (length dst) <= INT_MAX.

(** Row [y] of the source, and column [x]. *)
Definition source_row (src : list Z) (srcw srcscan y : Z) : Z -> Z := line srcw (fun x => pixel src (row_major srcscan x y)).
Definition source_column (src : list Z) (srch srcscan x : Z) : Z -> Z := line srch (fun y => pixel src (row_major srcscan x y)).

(** ** One pixel *)

Lemma window_range f k x c : 0 <= window f k x c <= Z.of_nat k * 255.
Proof. apply box_sum_bounds. intros i. apply chan_range. Qed.

Lemma box_channel_range k sum : 0 < k -> 0 <= sum <= k * 255 -> 0 <= box_channel k sum <= 255.
Proof.
  intros Hk Hs. unfold box_channel, INT_MAX. pose proof (Z.mul_div_le 2147483647 (k * 255) ltac:(lia)).
  pose proof (Z.div_pos 2147483647 (k * 255) ltac:(lia) ltac:(lia)) as Hq.
  set (q := 2147483647 / (k * 255)) in *. assert (0 <= sum * q <= 2147483647) by nia.
  split; [apply Z.div_pos; lia|]. apply Z.lt_succ_r, Z.div_lt_upper_bound; lia.
Qed.

Lemma scaled_channel_done k sum n :
  0 < k -> k * 255 <= INT_MAX -> 0 <= sum <= k * 255 ->
  scaled_channel sum (INT_MAX / (k * 255)) n = ishl (box_channel k sum) n.
Proof.
  intros Hk Hm Hs. unfold scaled_channel, imul, box_channel.
  pose proof (Z.mul_div_le INT_MAX (k * 255) ltac:(lia)).
  pose proof (Z.div_pos INT_MAX (k * 255) ltac:(unfold INT_MAX; lia) ltac:(lia)) as Hq.
  rewrite jint_done by (unfold INT_MIN, INT_MAX in *; nia). cbn [ub_bind].
  rewrite Z.shiftr_div_pow2 by lia. reflexivity.
Qed.

Lemma blurred_done f k x :
  0 < k -> k * 255 <= INT_MAX ->
  blurred (window_sums f (Z.to_nat k) x) (INT_MAX / (k * 255)) = Done (box_pixel f k x).
Proof.
  intros Hk Hm. unfold blurred, window_sums. cbn [suma sumr sumg sumb].
  assert (forall c, 0 <= window f (Z.to_nat k) x c <= k * 255) as W.
  { intros c. pose proof (window_range f (Z.to_nat k) x c). lia. }
  rewrite !scaled_channel_done by auto. apply pack_done; apply box_channel_range; auto.
Qed.

(** Sliding the window in one channel: the pixel that leaves, then the pixel
    that enters. *)
Lemma window_slide f k x c :
  (0 < k)%nat -> Z.of_nat k * 255 <= INT_MAX ->
  (do* w := isub (window f k (x - 1) c) (chan (f (x - Z.of_nat k)) c) in iadd w (chan (f x) c)) =
    Done (window f k x c).
Proof.
  intros Hk Hm. unfold window.
  pose proof (box_sum_leave (fun i => chan (f i) c) k x 255 Hk (fun i => chan_range (f i) c)) as L.
  pose proof (box_sum_bounds (fun i => chan (f i) c) k x 255 (fun i => chan_range (f i) c)) as B.
  pose proof (box_sum_slide (fun i => chan (f i) c) k x) as E. cbv beta in *.
  unfold isub, iadd, INT_MAX in *.
  rewrite jint_done by (unfold INT_MIN, INT_MAX; lia). cbn [ub_bind].
  rewrite jint_done by (unfold INT_MIN, INT_MAX; lia). f_equal. lia.
Qed.

Lemma accumulate_slide f k x :
  (0 < k)%nat -> Z.of_nat k * 255 <= INT_MAX ->
  (do* s := accumulate isub (window_sums f k (x - 1)) (f (x - Z.of_nat k)) in accumulate iadd s (f x)) =
  Done (window_sums f k x).
Proof.
  intros Hk Hm. pose proof (fun c => window_slide f k x c Hk Hm) as C.
  pose proof (C 24) as Ca. pose proof (C 16) as Cr. pose proof (C 8) as Cg. pose proof (C 0) as Cb.
  unfold accumulate, window_sums. cbn [suma sumr sumg sumb].
  destruct (isub (window f k (x - 1) 24) _); [|discriminate].
  destruct (isub (window f k (x - 1) 16) _); [|discriminate].
  destruct (isub (window f k (x - 1) 8) _); [|discriminate].
  destruct (isub (window f k (x - 1) 0) _); [|discriminate].
  cbn [ub_bind suma sumr sumg sumb] in *. rewrite Ca, Cr, Cg, Cb. reflexivity.
Qed.

(** Before the first pixel of a line the window is empty. *)
Lemma window_before_line n get k : window_sums (line n get) k (-1) = no_sums.
Proof.
  unfold window_sums, window, no_sums.
  f_equal; apply box_sum_zero; intros i Hi; rewrite line_out by lia; reflexivity.
Qed.

(** ** The horizontal pass *)

Section Horizontal.

Context (dst : list Z) (dstw dsth dstscan : Z) (src : list Z) (srcw srch srcscan : Z).
Context (OK : sound_images dst dstw dsth dstscan src srcw srch srcscan).
Context (Hrows : dsth <= srch) (Hwider : srcw <= dstw).

Local Abbreviation hsize := (dstw - srcw + 1).

Context (Hsize : hsize * 255 <= INT_MAX) (Hroom : Z.of_nat (length src) + dstw <= INT_MAX).

Local Abbreviation out := (fun x y => box_pixel (source_row src srcw srcscan y) hsize x).

Lemma horizontal_reads y x :
  0 <= y < dsth -> 0 <= x < dstw ->
  (if x >=? hsize then do* o := iadd (y * srcscan) x in do* i := isub o hsize in rd src i else Done 0) =
    Done (source_row src srcw srcscan y (x - hsize)) /\
  (if x <? srcw then do* i := iadd (y * srcscan) x in rd src i else Done 0) =
    Done (source_row src srcw srcscan y x).
Proof using OK Hrows Hwider Hroom.
  destruct OK as (O1 & O2 & O3 & O4 & O5 & O6). intros Hy Hx. unfold source_row, row_major.
  assert (0 <= y * srcscan /\ y * srcscan + srcw <= Z.of_nat (length src)) as B by nia.
  rewrite Z.geb_leb. split.
  - destruct (Z.leb_spec hsize x); [|rewrite line_out by lia; reflexivity].
    rewrite line_in by lia. unfold iadd, isub, INT_MIN, INT_MAX in *.
    rewrite jint_done by (unfold INT_MIN, INT_MAX; lia). cbn [ub_bind].
    rewrite jint_done by (unfold INT_MIN, INT_MAX; lia). cbn [ub_bind].
    rewrite rd_pixel by lia. do 2 f_equal. lia.
  - destruct (Z.ltb_spec x srcw); [|rewrite line_out by lia; reflexivity].
    rewrite line_in by lia. unfold iadd, INT_MIN, INT_MAX in *.
    rewrite jint_done by (unfold INT_MIN, INT_MAX; lia). cbn [ub_bind].
    apply rd_pixel. lia.
Qed.

Lemma horizontal_pixel_yields y x d :
  0 <= y < dsth -> 0 <= x < dstw ->
  painted (rows_before dstw y x) (row_major dstscan) out dst d ->
  yields (horizontal_pixel src srcw hsize (INT_MAX / (hsize * 255)) (y * srcscan) (y * dstscan) x
            (window_sums (source_row src srcw srcscan y) (Z.to_nat hsize) (x - 1), d))
    (fun '(s, d) => s = window_sums (source_row src srcw srcscan y) (Z.to_nat hsize) (x + 1 - 1) /\
       painted (rows_before dstw y (x + 1)) (row_major dstscan) out dst d).
Proof using OK Hrows Hwider Hroom Hsize.
  intros Hy Hx Hp. destruct (horizontal_reads y x Hy Hx) as [R1 R2].
  pose proof (accumulate_slide (source_row src srcw srcscan y) (Z.to_nat hsize) x ltac:(lia) ltac:(lia)) as A.
  replace (x - Z.of_nat (Z.to_nat hsize)) with (x - hsize) in A by lia.
  unfold horizontal_pixel. rewrite R1. cbn [ub_bind]. destruct (accumulate isub _ _) as [s|]; [|discriminate].
  cbn [ub_bind] in *. rewrite R2. cbn [ub_bind]. rewrite A. cbn [ub_bind].
  rewrite blurred_done by lia. cbn [ub_bind]. unfold iadd.
  destruct OK as (O1 & O2 & O3 & O4 & O5 & O6).
  rewrite jint_done by (unfold INT_MIN, INT_MAX in *; nia). cbn [ub_bind].
  eapply yields_bind.
  - apply (painted_step (row_major dstscan) dstw dsth (rows_before dstw y x) out dst d x y).
    + apply row_major_raster; lia.
    + intros x' y'. apply rows_inside; lia.
    + split; lia.
    + exact Hp.
  - intros d' Hd'. apply yields_done. split; [f_equal; lia|].
    eapply painted_ext; [|exact Hd']. intros x' y'. apply rows_pixel. lia.
Qed.

Lemma horizontal_row_yields y d :
  0 <= y < dsth -> painted (rows_before dstw y 0) (row_major dstscan) out dst d ->
  yields (horizontal_row src dstw dstscan srcw srcscan hsize (INT_MAX / (hsize * 255)) y
            (y * srcscan, y * dstscan, d))
    (fun '(so, doff, d) => so = (y + 1) * srcscan /\ doff = (y + 1) * dstscan /\
       painted (rows_before dstw (y + 1) 0) (row_major dstscan) out dst d).
Proof using OK Hrows Hwider Hroom Hsize.
  intros Hy Hp. unfold horizontal_row. pose proof OK as (O1 & O2 & O3 & O4 & O5 & O6).
  eapply yields_bind.
  - apply (for_to_yields (fun x '(s, d) => s = window_sums (source_row src srcw srcscan y) (Z.to_nat hsize) (x - 1) /\
      painted (rows_before dstw y x) (row_major dstscan) out dst d)); [lia| |].
    + intros x [s d'] Hx [-> Hd]. apply horizontal_pixel_yields; assumption.
    + split; [symmetry; apply window_before_line|exact Hp].
  - intros [s d'] [_ Hd]. unfold iadd. rewrite jint_done by (unfold INT_MIN, INT_MAX in *; nia). cbn [ub_bind].
    rewrite jint_done by (unfold INT_MIN, INT_MAX in *; nia). cbn [ub_bind]. apply yields_done.
    split; [lia|]. split; [lia|]. eapply painted_ext; [|exact Hd]. intros x' y'. apply rows_line. lia.
Qed.

Lemma horizontal_loops :
  yields (do* '(_, _, dst) := for_to dsth (horizontal_row src dstw dstscan srcw srcscan hsize (INT_MAX / (hsize * 255))) (0, 0, dst) in
          Done dst)
    (painted (in_image dstw dsth) (row_major dstscan) out dst).
Proof using OK Hrows Hwider Hroom Hsize.
  eapply yields_bind.
  - apply (for_to_yields (fun y '(so, doff, d) => so = y * srcscan /\ doff = y * dstscan /\
      painted (rows_before dstw y 0) (row_major dstscan) out dst d)).
    + destruct OK. lia.
    + intros y [[so doff] d] Hy (-> & -> & Hd). apply horizontal_row_yields; assumption.
    + split; [lia|]. split; [lia|]. eapply painted_ext; [|apply painted_none]. intros x y. symmetry. apply rows_start.
  - intros [[so doff] d] (_ & _ & Hd). apply yields_done. eapply painted_ext; [|exact Hd]. intros x y. apply rows_end.
Qed.

End Horizontal.

(** ** The vertical pass *)

Section Vertical.

Context (dst : list Z) (dstw dsth dstscan : Z) (src : list Z) (srcw srch srcscan : Z).
Context (OK : sound_images dst dstw dsth dstscan src srcw srch srcscan).
Context (Hcols : dstw <= srcw) (Htaller : srch <= dsth).

Local Abbreviation vsize := (dsth - srch + 1).

Context (Hsize : vsize * 255 <= INT_MAX).
Context (Hsrc : dsth * srcscan + dstw <= INT_MAX) (Hdst : dsth * dstscan + dstw <= INT_MAX).

Local Abbreviation out := (fun x y => box_pixel (source_column src srch srcscan x) vsize y).

Lemma vertical_reads x y :
  0 <= x < dstw -> 0 <= y < dsth ->
  (if row_major srcscan x y >=? vsize * srcscan
   then do* i := isub (row_major srcscan x y) (vsize * srcscan) in rd src i else Done 0) =
    Done (source_column src srch srcscan x (y - vsize)) /\
  (if y <? srch then rd src (row_major srcscan x y) else Done 0) = Done (source_column src srch srcscan x y).
Proof using OK Hcols Htaller Hsrc Hdst Hsize.
  destruct OK as (O1 & O2 & O3 & O4 & O5 & O6). intros Hx Hy. unfold source_column, row_major.
  pose proof (row_range y dsth srcscan Hy ltac:(lia)) as B0. rewrite Z.geb_leb. split.
  - destruct (Z.leb_spec (vsize * srcscan) (y * srcscan + x)) as [H|H].
    + assert (vsize <= y) as Hv.
      { apply Z.nlt_ge. intros Hlt. pose proof (row_range y vsize srcscan ltac:(lia) ltac:(lia)). lia. }
      rewrite line_in by lia. unfold isub.
      replace (y * srcscan + x - vsize * srcscan) with ((y - vsize) * srcscan + x) by ring.
      pose proof (row_range (y - vsize) srch srcscan ltac:(lia) ltac:(lia)) as B.
      rewrite jint_done by (unfold INT_MIN, INT_MAX in *; lia). cbn [ub_bind]. apply rd_pixel. lia.
    + rewrite line_out; [reflexivity|]. left. apply Z.lt_sub_0, Z.nle_gt. intros Hle.
      pose proof (Z.mul_le_mono_nonneg_r vsize y srcscan ltac:(lia) Hle). lia.
  - destruct (Z.ltb_spec y srch); [|rewrite line_out by lia; reflexivity].
    rewrite line_in by lia. apply rd_pixel.
    pose proof (row_range y srch srcscan ltac:(lia) ltac:(lia)). lia.
Qed.

Lemma vertical_pixel_yields x y d :
  0 <= x < dstw -> 0 <= y < dsth ->
  painted (columns_before dsth x y) (row_major dstscan) out dst d ->
  yields (vertical_pixel src dstscan srch srcscan (vsize * srcscan) (INT_MAX / (vsize * 255)) y
            (row_major srcscan x y, row_major dstscan x y,
             window_sums (source_column src srch srcscan x) (Z.to_nat vsize) (y - 1), d))
    (fun '(so, doff, s, d) => so = row_major srcscan x (y + 1) /\ doff = row_major dstscan x (y + 1) /\
       s = window_sums (source_column src srch srcscan x) (Z.to_nat vsize) (y + 1 - 1) /\
       painted (columns_before dsth x (y + 1)) (row_major dstscan) out dst d).
Proof using OK Hcols Htaller Hsrc Hdst Hsize.
  intros Hx Hy Hp. destruct (vertical_reads x y Hx Hy) as [R1 R2].
  pose proof (accumulate_slide (source_column src srch srcscan x) (Z.to_nat vsize) y ltac:(lia) ltac:(lia)) as A.
  replace (y - Z.of_nat (Z.to_nat vsize)) with (y - vsize) in A by lia.
  unfold vertical_pixel. rewrite R1. cbn [ub_bind]. destruct (accumulate isub _ _) as [s|]; [|discriminate].
  cbn [ub_bind] in *. rewrite R2. cbn [ub_bind]. rewrite A. cbn [ub_bind].
  rewrite blurred_done by lia. cbn [ub_bind]. unfold iadd.
  destruct OK as (O1 & O2 & O3 & O4 & O5 & O6).
  eapply yields_bind.
  - apply (painted_step (row_major dstscan) dstw dsth (columns_before dsth x y) out dst d x y).
    + apply row_major_raster; lia.
    + intros x' y'. apply columns_inside; lia.
    + split; lia.
    + exact Hp.
  - intros d' Hd'. pose proof (row_range y dsth srcscan Hy ltac:(lia)).
    pose proof (row_range y dsth dstscan Hy ltac:(lia)). unfold row_major.
    rewrite jint_done by (unfold INT_MIN, INT_MAX in *; lia). cbn [ub_bind].
    rewrite jint_done by (unfold INT_MIN, INT_MAX in *; lia). cbn [ub_bind].
    apply yields_done. split; [lia|]. split; [lia|]. split; [f_equal; lia|].
    eapply painted_ext; [|exact Hd']. intros x' y'. apply columns_pixel. lia.
Qed.

Lemma vertical_column_yields x d :
  0 <= x < dstw -> painted (columns_before dsth x 0) (row_major dstscan) out dst d ->
  yields (vertical_column src dsth dstscan srch srcscan (vsize * srcscan) (INT_MAX / (vsize * 255)) x d)
    (painted (columns_before dsth (x + 1) 0) (row_major dstscan) out dst).
Proof using OK Hcols Htaller Hsrc Hdst Hsize.
  intros Hx Hp. unfold vertical_column. eapply yields_bind.
  - apply (for_to_yields (fun y '(so, doff, s, d) => so = row_major srcscan x y /\ doff = row_major dstscan x y /\
      s = window_sums (source_column src srch srcscan x) (Z.to_nat vsize) (y - 1) /\
      painted (columns_before dsth x y) (row_major dstscan) out dst d)); [destruct OK; lia| |].
    + intros y [[[so doff] s] d'] Hy (-> & -> & -> & Hd). apply vertical_pixel_yields; assumption.
    + split; [unfold row_major; lia|]. split; [unfold row_major; lia|].
      split; [symmetry; apply window_before_line|exact Hp].
  - intros [[[so doff] s] d'] (_ & _ & _ & Hd). apply yields_done.
    eapply painted_ext; [|exact Hd]. intros x' y'. apply columns_line. lia.
Qed.

Lemma vertical_loops :
  yields (for_to dstw (vertical_column src dsth dstscan srch srcscan (vsize * srcscan) (INT_MAX / (vsize * 255))) dst)
    (painted (in_image dstw dsth) (row_major dstscan) out dst).
Proof using OK Hcols Htaller Hsrc Hdst Hsize.
  eapply yields_mono.
  - apply (for_to_yields (fun x => painted (columns_before dsth x 0) (row_major dstscan) out dst)).
    + destruct OK. lia.
    + intros x d Hx Hd. apply vertical_column_yields; assumption.
    + eapply painted_ext; [|apply painted_none]. intros x y. symmetry. apply columns_start.
  - intros d Hd. eapply painted_ext; [|exact Hd]. intros x y. apply columns_end.
Qed.

End Vertical.

(** ** The entry points *)

Lemma sound_checkRange dst dstw dsth dstscan src srcw srch srcscan :
  sound_images dst dstw dsth dstscan src srcw srch srcscan ->
  checkRange (Some dst) dstw dsth (Some src) srcw srch = false.
Proof.
  intros (O1 & O2 & O3 & O4 & O5 & O6). apply checkRange_accepts.
  assert (srcw * srch <= srch * srcscan) by nia. assert (dstw * dsth <= dsth * dstscan) by nia. lia.
Qed.

(** The trace of a run that acquired both arrays. *)
Definition both_released : list jni_event := [GetSource; GetDestination; ReleaseDestination true; ReleaseSource false].

Lemma window_size n m : 0 < m -> m <= n -> n <= INT_MAX -> (n - m + 1) * 255 <= INT_MAX ->
  isub n m = Done (n - m) /\ iadd (n - m) 1 = Done (n - m + 1) /\
  imul (n - m + 1) 255 = Done ((n - m + 1) * 255) /\
  idiv INT_MAX ((n - m + 1) * 255) = Done (INT_MAX / ((n - m + 1) * 255)).
Proof.
  intros H1 H2 H3 H4. unfold isub, iadd, imul. rewrite !jint_done by (unfold INT_MIN, INT_MAX in *; lia).
  rewrite idiv_done by (unfold INT_MAX in *; lia). auto.
Qed.

Lemma horizontal_paints env dst dstw dsth dstscan src srcw srch srcscan
  (Hpin : src_pinned env = true /\ dst_pinned env = true)
  (OK : sound_images dst dstw dsth dstscan src srcw srch srcscan)
  (Hrows : dsth <= srch) (Hwider : srcw <= dstw)
  (Hsize : (dstw - srcw + 1) * 255 <= INT_MAX) (Hroom : Z.of_nat (length src) + dstw <= INT_MAX) :
  yields (filterHorizontal env (Some dst) dstw dsth dstscan (Some src) srcw srch srcscan)
    (fun '(d, trace) => trace = both_released /\
       painted (in_image dstw dsth) (row_major dstscan)
         (fun x y => box_pixel (source_row src srcw srcscan y) (dstw - srcw + 1) x) dst d).
Proof.
  unfold filterHorizontal, with_pixels. rewrite (sound_checkRange _ _ _ _ _ _ _ _ OK).
  destruct Hpin as [-> ->]. cbn [orb negb]. rewrite Z.gtb_ltb. destruct (Z.ltb_spec srch dsth); [lia|].
  destruct (window_size dstw srcw) as (E1 & E2 & E3 & E4); [destruct OK; lia|lia|destruct OK; lia|exact Hsize|].
  rewrite E1. cbn [ub_bind]. rewrite E2. cbn [ub_bind]. rewrite E3. cbn [ub_bind]. rewrite E4. cbn [ub_bind].
  eapply yields_bind; [apply (horizontal_loops _ _ _ _ _ _ srch); assumption|].
  intros d Hd. apply yields_done. split; [reflexivity|exact Hd].
Qed.

Lemma vertical_paints env dst dstw dsth dstscan src srcw srch srcscan
  (Hpin : src_pinned env = true /\ dst_pinned env = true)
  (OK : sound_images dst dstw dsth dstscan src srcw srch srcscan)
  (Hcols : dstw <= srcw) (Htaller : srch <= dsth)
  (Hsize : (dsth - srch + 1) * 255 <= INT_MAX)
  (Hsrc : dsth * srcscan + dstw <= INT_MAX) (Hdst : dsth * dstscan + dstw <= INT_MAX) :
  yields (filterVertical env (Some dst) dstw dsth dstscan (Some src) srcw srch srcscan)
    (fun '(d, trace) => trace = both_released /\
       painted (in_image dstw dsth) (row_major dstscan)
         (fun x y => box_pixel (source_column src srch srcscan x) (dsth - srch + 1) y) dst d).
Proof.
  pose proof OK as (O1 & O2 & O3 & O4 & O5 & O6).
  pose proof (Z.mul_le_mono_nonneg_l 1 dstscan dsth ltac:(lia) ltac:(lia)).
  pose proof (Z.mul_le_mono_nonneg_r (dsth - srch + 1) dsth srcscan ltac:(lia) ltac:(lia)).
  pose proof (Z.mul_nonneg_nonneg (dsth - srch + 1) srcscan ltac:(lia) ltac:(lia)).
  unfold filterVertical, with_pixels. rewrite (sound_checkRange _ _ _ _ _ _ _ _ OK).
  destruct Hpin as [-> ->]. cbn [orb negb]. rewrite Z.gtb_ltb. destruct (Z.ltb_spec srcw dstw); [lia|].
  destruct (window_size dsth srch) as (E1 & E2 & E3 & E4); [destruct OK; lia|lia|destruct OK; lia|exact Hsize|].
  rewrite E1. cbn [ub_bind]. rewrite E2. cbn [ub_bind]. rewrite E3. cbn [ub_bind]. rewrite E4. cbn [ub_bind].
  unfold imul at 1. rewrite jint_done by (unfold INT_MIN in *; lia). cbn [ub_bind].
  eapply yields_bind; [apply (vertical_loops _ _ _ _ _ srcw); assumption|].
  intros d Hd. apply yields_done. split; [reflexivity|exact Hd].
Qed.

(** C19: [filterHorizontal] is a box blur: on sound images it is defined, every
    destination pixel [(x, y)] is the scaled channel sums of the [hsize] source
    pixels of row [y] that end at column [x], and no other element of the
    destination changes. *)
Theorem filterHorizontal_is_box_blur env dst dstw dsth dstscan src srcw srch srcscan
  (Hpin : src_pinned env = true /\ dst_pinned env = true)
  (OK : sound_images dst dstw dsth dstscan src srcw srch srcscan)
  (Hrows : dsth <= srch) (Hwider : srcw <= dstw)
  (Hsize : (dstw - srcw + 1) * 255 <= INT_MAX) (Hroom : Z.of_nat (length src) + dstw <= INT_MAX) :
  yields (filterHorizontal env (Some dst) dstw dsth dstscan (Some src) srcw srch srcscan)
    (fun '(d, trace) => trace = both_released /\
       painted (in_image dstw dsth) (row_major dstscan)
         (fun x y => box_pixel (source_row src srcw srcscan y) (dstw - srcw + 1) x) dst d).
Proof. apply horizontal_paints; assumption. Qed.

(** [filterVertical] is a box blur of the columns, in the same sense. *)
Theorem filterVertical_is_box_blur env dst dstw dsth dstscan src srcw srch srcscan
  (Hpin : src_pinned env = true /\ dst_pinned env = true)
  (OK : sound_images dst dstw dsth dstscan src srcw srch srcscan)
  (Hcols : dstw <= srcw) (Htaller : srch <= dsth)
  (Hsize : (dsth - srch + 1) * 255 <= INT_MAX)
  (Hsrc : dsth * srcscan + dstw <= INT_MAX) (Hdst : dsth * dstscan + dstw <= INT_MAX) :
  yields (filterVertical env (Some dst) dstw dsth dstscan (Some src) srcw srch srcscan)
    (fun '(d, trace) => trace = both_released /\
       painted (in_image dstw dsth) (row_major dstscan)
         (fun x y => box_pixel (source_column src srch srcscan x) (dsth - srch + 1) y) dst d).
Proof. apply vertical_paints; assumption. Qed.

(** ** The channels of a blurred pixel *)

Lemma box_pixel_channel f k x c :
  0 < k -> channel c -> chan (box_pixel f k x) c = box_channel k (window f (Z.to_nat k) x c).
Proof.
  intros Hk Hc. unfold box_pixel.
  assert (forall n, 0 <= box_channel k (window f (Z.to_nat k) x n) <= 255) as R.
  { intros n. apply box_channel_range; [exact Hk|]. pose proof (window_range f (Z.to_nat k) x n). lia. }
  destruct (chan_pack _ _ _ _ (R 24) (R 16) (R 8) (R 0)) as (A & B & C & D). destruct Hc; assumption.
Qed.

Lemma box_channel_full k : 0 < k <= 32896 -> box_channel k (k * 255) = 255.
Proof.
  intros Hk. unfold box_channel, INT_MAX. change (2 ^ 23) with 8388608.
  pose proof (Z.div_mod 2147483647 (k * 255) ltac:(lia)). pose proof (Z.mod_pos_bound 2147483647 (k * 255) ltac:(lia)).
  symmetry. apply (Z.div_unique _ _ _ (k * 255 * (2147483647 / (k * 255)) - 8388608 * 255)); lia.
Qed.

Lemma box_sum_le f g k x : (forall i, f i <= g i) -> box_sum f k x <= box_sum g k x.
Proof.
  intros H. induction k as [|k IH]; cbn [box_sum]; [lia|]. pose proof (H (x - Z.of_nat k)). lia.
Qed.

Lemma box_channel_mono k s t : 0 < k -> s <= t -> box_channel k s <= box_channel k t.
Proof.
  intros Hk H. unfold box_channel. apply Z.div_le_mono; [lia|].
  apply Z.mul_le_mono_nonneg_r; [apply Z.div_pos; unfold INT_MAX; lia|exact H].
Qed.

Lemma box_pixel_premultiplied f k x : 0 < k ->
  (forall i c, channel c -> chan (f i) c <= chan (f i) 24) ->
  forall c, channel c -> chan (box_pixel f k x) c <= chan (box_pixel f k x) 24.
Proof.
  intros Hk Hp c Hc. rewrite !box_pixel_channel by (auto using channel).
  apply box_channel_mono; [exact Hk|]. apply box_sum_le. intros i. apply Hp. exact Hc.
Qed.

Lemma box_pixel_full f k x c : 0 < k <= 32896 -> channel c ->
  (forall j, 0 <= j < k -> chan (f (x - j)) c = 255) -> chan (box_pixel f k x) c = 255.
Proof.
  intros Hk Hc Hf. rewrite box_pixel_channel by (auto; lia). unfold window.
  rewrite (box_sum_const _ _ _ 255) by (intros j Hj; apply Hf; lia).
  rewrite Z2Nat.id by lia. apply box_channel_full. exact Hk.
Qed.

(** No colour channel of the image exceeds alpha; the channel [c] is full
    between two corners. *)
Definition premultiplied (w h scan : Z) (a : list Z) : Prop := forall x y c, in_image w h x y -> channel c ->
  chan (pixel a (row_major scan x y)) c <= chan (pixel a (row_major scan x y)) 24.
Definition full_between (c x0 y0 x1 y1 scan : Z) (a : list Z) : Prop := forall x y, x0 <= x < x1 -> y0 <= y < y1 ->
  chan (pixel a (row_major scan x y)) c = 255.

Lemma line_premultiplied n f : (forall i c, 0 <= i < n -> channel c -> chan (f i) c <= chan (f i) 24) ->
  forall i c, channel c -> chan (line n f i) c <= chan (line n f i) 24.
Proof.
  intros H i c Hc. unfold line. destruct (Z.leb_spec 0 i), (Z.ltb_spec i n); cbn [andb]; try apply H; auto; try lia.
  all: unfold chan; rewrite !Z.shiftr_0_l; reflexivity.
Qed.

(** A painted image has the colours it was painted with. *)
Lemma painted_pixel w h scan f dst d x y :
  painted (in_image w h) (row_major scan) f dst d -> in_image w h x y -> pixel d (row_major scan x y) = f x y.
Proof. intros (_ & H & _) Hxy. unfold pixel. apply nth_lookup_Some, H, Hxy. Qed.

Lemma line_inside n f i : 0 <= i < n -> line n f i = f i.
Proof. intros H. unfold line. destruct (Z.leb_spec 0 i), (Z.ltb_spec i n); try lia. reflexivity. Qed.

(** What the pass over the rows keeps, and the pass over the columns. *)
Section Passes.
Variables (w h scan w' h' scan' k : Z) (src dst d : list Z).
Hypothesis (Hk : 0 < k <= 32896).

Lemma rows_keep :
  painted (in_image w' h') (row_major scan') (fun x y => box_pixel (source_row src w scan y) k x) dst d -> h' <= h ->
  premultiplied w h scan src -> premultiplied w' h' scan' d.
Proof using Hk.
  intros HP Hh Hp x y c Hxy Hc. rewrite (painted_pixel _ _ _ _ _ _ _ _ HP Hxy). apply box_pixel_premultiplied; [lia| |exact Hc].
  apply line_premultiplied. intros i c' Hi Hc'. apply Hp; [|exact Hc']. unfold in_image in *. lia.
Qed.
Lemma columns_keep :
  painted (in_image w' h') (row_major scan') (fun x y => box_pixel (source_column src h scan x) k y) dst d -> w' <= w ->
  premultiplied w h scan src -> premultiplied w' h' scan' d.
Proof using Hk.
  intros HP Hw Hp x y c Hxy Hc. rewrite (painted_pixel _ _ _ _ _ _ _ _ HP Hxy). apply box_pixel_premultiplied; [lia| |exact Hc].
  apply line_premultiplied. intros i c' Hi Hc'. apply Hp; [|exact Hc']. unfold in_image in *. lia.
Qed.

Lemma rows_full c x0 y0 x1 y1 : channel c ->
  painted (in_image w' h') (row_major scan') (fun x y => box_pixel (source_row src w scan y) k x) dst d ->
  0 <= x0 -> x1 <= w -> x1 <= w' -> 0 <= y0 -> y1 <= h' ->
  full_between c x0 y0 x1 y1 scan src -> full_between c (x0 + k - 1) y0 x1 y1 scan' d.
Proof using Hk.
  intros Hc HP H1 H2 H3 H4 H5 Hf x y Hx Hy. rewrite (painted_pixel _ _ _ _ _ _ _ _ HP) by (unfold in_image; lia).
  apply box_pixel_full; auto. intros j Hj. unfold source_row. rewrite line_inside by lia. apply Hf; lia.
Qed.
Lemma columns_full c x0 y0 x1 y1 : channel c ->
  painted (in_image w' h') (row_major scan') (fun x y => box_pixel (source_column src h scan x) k y) dst d ->
  0 <= x0 -> x1 <= w' -> 0 <= y0 -> y1 <= h -> y1 <= h' ->
  full_between c x0 y0 x1 y1 scan src -> full_between c x0 (y0 + k - 1) x1 y1 scan' d.
Proof using Hk.
  intros Hc HP H1 H2 H3 H4 H5 Hf x y Hx Hy. rewrite (painted_pixel _ _ _ _ _ _ _ _ HP) by (unfold in_image; lia).
  apply box_pixel_full; auto. intros j Hj. unfold source_column. rewrite line_inside by lia. apply Hf; lia.
Qed.
End Passes.

(** C22: The two passes of a blur, one after the other, on sound images with
    windows of at most 32896 pixels: an image of premultiplied pixels (no
    colour channel exceeds alpha) stays premultiplied, and where every window
    lies inside the source a channel that is full everywhere stays 255, so the
    inside of an opaque image is not darkened. *)
Theorem box_blur_keeps_premultiplied env tmp tmpscan dst dstw dsth dstscan src srcw srch srcscan
  (Hpin : src_pinned env = true /\ dst_pinned env = true)
  (OK1 : sound_images tmp dstw srch tmpscan src srcw srch srcscan)
  (OK2 : forall t, length t = length tmp -> sound_images dst dstw dsth dstscan t dstw srch tmpscan)
  (Hwider : srcw <= dstw) (Htaller : srch <= dsth)
  (Hsize : dstw - srcw + 1 <= 32896 /\ dsth - srch + 1 <= 32896) (Hroom : Z.of_nat (length src) + dstw <= INT_MAX)
  (Htmp : dsth * tmpscan + dstw <= INT_MAX) (Hdst : dsth * dstscan + dstw <= INT_MAX) :
  yields (do* '(t, _) := filterHorizontal env (Some tmp) dstw srch tmpscan (Some src) srcw srch srcscan in
          filterVertical env (Some dst) dstw dsth dstscan (Some t) dstw srch tmpscan)
    (fun '(d, _) =>
      (premultiplied srcw srch srcscan src -> premultiplied dstw dsth dstscan d) /\
      forall c, channel c -> full_between c 0 0 srcw srch srcscan src -> full_between c (dstw - srcw) (dsth - srch) srcw srch dstscan d).
Proof.
  pose proof OK1 as (S1 & S2 & _). 
  eapply yields_bind; [apply horizontal_paints; auto; unfold INT_MAX in *; lia|]. intros [t tr] [_ P1].
  assert (OK := OK2 t (proj1 P1)).
  eapply yields_mono; [apply vertical_paints; auto; unfold INT_MAX in *; lia|]. intros [d tr'] [_ P2]. split.
  - intros Hp. eapply columns_keep; [|exact P2| |eapply rows_keep; [|exact P1| |exact Hp]]; lia.
  - intros c Hc Hf. replace (dstw - srcw) with (0 + (dstw - srcw + 1) - 1) by lia. replace (dsth - srch) with (0 + (dsth - srch + 1) - 1) by lia.
    eapply columns_full; [|exact Hc|exact P2| | | | | |eapply rows_full; [|exact Hc|exact P1| | | | | |exact Hf]]; lia.
Qed.

(** ** What the range check lets through *)

(** [checkRange] does not compare the two widths: a destination one column
    narrower than the source makes the window empty, and the scale is a
    division by zero. *)
Theorem narrower_destination_traps env dst dstw dsth dstscan src srcw srch srcscan
  (Hpin : src_pinned env = true /\ dst_pinned env = true)
  (Hchecked : checkRange (Some dst) dstw dsth (Some src) srcw srch = false)
  (Hrows : dsth <= srch) (Hnarrow : dstw = srcw - 1) :
  filterHorizontal env (Some dst) dstw dsth dstscan (Some src) srcw srch srcscan = Undefined DivideByZero.
Proof.
  unfold filterHorizontal, with_pixels. rewrite Hchecked. destruct Hpin as [-> ->]. cbn [orb negb].
  rewrite Z.gtb_ltb. destruct (Z.ltb_spec srch dsth); [lia|].
  replace (isub dstw srcw) with (Done (-1)) by (subst dstw; unfold isub; rewrite jint_done; [f_equal|unfold INT_MIN, INT_MAX]; lia).
  reflexivity.
Qed.

(** The strides are not checked either: rows ten elements apart leave a
    two-element array. *)
Lemma wide_stride_escapes :
  checkRange (Some [0; 0]) 1 2 (Some [0; 0]) 1 2 = false /\
  filterHorizontal (mkJNIEnv true true) (Some [0; 0]) 1 2 1 (Some [0; 0]) 1 2 10 = Undefined OutOfBounds.
Proof. split; reflexivity. Qed.

(** ** Instances *)

Lemma demo_sound : sound_images [0;0;0;0;0] 5 1 5 [-1; -1; -1] 3 1 3.
Proof. unfold sound_images, INT_MAX. cbn [length]. lia. Qed.

Lemma filterHorizontal_is_box_blur_witness :
  yields (filterHorizontal (mkJNIEnv true true) (Some [0;0;0;0;0]) 5 1 5 (Some [-1; -1; -1]) 3 1 3)
    (fun '(d, trace) => trace = both_released /\
       painted (in_image 5 1) (row_major 5) (fun x y => box_pixel (source_row [-1; -1; -1] 3 3 y) 3 x) [0;0;0;0;0] d).
Proof.
  apply (filterHorizontal_is_box_blur (mkJNIEnv true true) [0;0;0;0;0] 5 1 5 [-1; -1; -1] 3 1 3);
    [split; reflexivity|exact demo_sound|unfold INT_MAX; cbn [length]; lia..].
Defined.

Lemma filterVertical_is_box_blur_witness :
  yields (filterVertical (mkJNIEnv true true) (Some [0;0;0]) 1 3 1 (Some [-1; -1]) 1 2 1)
    (fun '(d, trace) => trace = both_released /\
       painted (in_image 1 3) (row_major 1) (fun x y => box_pixel (source_column [-1; -1] 2 1 x) 2 y) [0;0;0] d).
Proof.
  apply (filterVertical_is_box_blur (mkJNIEnv true true) [0;0;0] 1 3 1 [-1; -1] 1 2 1);
    [split; reflexivity|unfold sound_images|..]; unfold INT_MAX; cbn [length]; lia.
Defined.

Lemma box_blur_keeps_premultiplied_witness :
  yields (do* '(t, _) := filterHorizontal (mkJNIEnv true true) (Some [0;0;0]) 3 1 3 (Some [-1; -1]) 2 1 2 in
          filterVertical (mkJNIEnv true true) (Some [0;0;0]) 3 1 3 (Some t) 3 1 3)
    (fun '(d, _) =>
      (premultiplied 2 1 2 [-1; -1] -> premultiplied 3 1 3 d) /\
      forall c, channel c -> full_between c 0 0 2 1 2 [-1; -1] -> full_between c 1 0 2 1 3 d).
Proof.
  apply (box_blur_keeps_premultiplied (mkJNIEnv true true) [0;0;0] 3 [0;0;0] 3 1 3 [-1; -1] 2 1 2);
    [split; reflexivity|unfold sound_images|intros t Ht; unfold sound_images; rewrite Ht|..]; unfold INT_MAX; cbn [length]; lia.
Defined.

Lemma narrower_destination_traps_witness :
  filterHorizontal (mkJNIEnv true true) (Some [0]) 1 1 1 (Some [0; 0]) 2 1 2 = Undefined DivideByZero.
Proof.
  apply (narrower_destination_traps (mkJNIEnv true true) [0] 1 1 1 [0; 0] 2 1 2);
    [split; reflexivity|reflexivity|lia|reflexivity].
Defined.
