(* ===== verification/BoxShadow.v ===== *)
(** * Box shadow ([SSEBoxShadowPeer.cc])

    The shadow passes keep only the alpha sum of the window.  The [spread]
    argument lowers the sum [amax] that already counts as opaque; sums below
    [amin] are transparent, and the ones between are scaled.  The last vertical
    pass colours the result.  The theorems show each pass equal to its
    definition on whole windows, and defined, for a spread between 0 and 1. *)

From Stdlib Require Import Floats.SpecFloat.
From S2P Require Import Prelude CFloat Float32 DecoraApi Argb Painted BoxBlur.
Local Open Scope Z_scope.
Local Open Scope ub_scope.

(** ** The code *)

(** [jint amax = hsize * 255; amax += (jint) ((255 - amax) * spread);] *)
Definition spread_amax (hsize : Z) (spread : float) : ub Z :=
  do* amax := imul hsize 255 in
  do* d := isub 255 amax in
  do* t := float_to_jint (fmul (Z_to_float d) spread) in
  iadd amax t.

(** The colour of a sum in the passes that make a black shadow. *)
Definition black (amin amax kscale suma : Z) : ub Z :=
  if suma <? amin then Done 0
  else if suma >=? amax then Done (s32 0xff000000)
  else do* p := imul suma kscale in ishl (Z.shiftr p 23) 24.

(** [suma -= (rgb >> 24) & 0xff] and [suma += ...] *)
Definition horizontal_black_pixel (src : list Z) (srcw hsize amin amax kscale srcoff dstoff x : Z)
    (st : Z * list Z) : ub (Z * list Z) :=
  let '(suma, dst) := st in
  do* rgb := (if x >=? hsize then do* o := iadd srcoff x in do* i := isub o hsize in rd src i else Done 0) in
  do* suma := isub suma (chan rgb 24) in
  do* rgb := (if x <? srcw then do* i := iadd srcoff x in rd src i else Done 0) in
  do* suma := iadd suma (chan rgb 24) in
  do* p := black amin amax kscale suma in
  do* i := iadd dstoff x in
  do* dst := wr dst i p in
  Done (suma, dst).

Definition horizontal_black_row (src : list Z) (dstw dstscan srcw srcscan hsize amin amax kscale y : Z)
    (st : Z * Z * list Z) : ub (Z * Z * list Z) :=
  let '(srcoff, dstoff, dst) := st in
  do* '(_, dst) := for_to dstw (horizontal_black_pixel src srcw hsize amin amax kscale srcoff dstoff) (0, dst) in
  do* srcoff := iadd srcoff srcscan in
  do* dstoff := iadd dstoff dstscan in
  Done (srcoff, dstoff, dst).

Definition filterHorizontalBlack (env : JNIEnv)
    (dstPixels_arr : jintArray) (dstw dsth dstscan : Z)
    (srcPixels_arr : jintArray) (srcw srch srcscan : Z) (spread : float) : ub filtered :=
  match dstPixels_arr, srcPixels_arr with
  | Some dst, Some src =>
      if checkRange dstPixels_arr dstw dsth srcPixels_arr srcw srch || (dsth >? srch) then Done (dst, [])
      else with_pixels env dst src
        (do* d := isub dstw srcw in
         do* hsize := iadd d 1 in
         do* amax := spread_amax hsize spread in
         do* kscale := idiv INT_MAX amax in
         do* amin := idiv amax 255 in
         do* '(_, _, dst) :=
           for_to dsth (horizontal_black_row src dstw dstscan srcw srcscan hsize amin amax kscale) (0, 0, dst) in
         Done dst)
  | _, _ => Done (default [] dstPixels_arr, [])
  end.

(** The vertical passes, with the colour of a sum as [colour]. *)
Definition vertical_sum_pixel (colour : Z -> ub Z) (src : list Z) (dstscan srch srcscan voff y : Z)
    (st : Z * Z * Z * list Z) : ub (Z * Z * Z * list Z) :=
  let '(srcoff, dstoff, suma, dst) := st in
  do* rgb := (if srcoff >=? voff then do* i := isub srcoff voff in rd src i else Done 0) in
  do* suma := isub suma (chan rgb 24) in
  do* rgb := (if y <? srch then rd src srcoff else Done 0) in
  do* suma := iadd suma (chan rgb 24) in
  do* p := colour suma in
  do* dst := wr dst dstoff p in
  do* srcoff := iadd srcoff srcscan in
  do* dstoff := iadd dstoff dstscan in
  Done (srcoff, dstoff, suma, dst).

Definition vertical_sum_column (colour : Z -> ub Z) (src : list Z) (dsth dstscan srch srcscan voff x : Z)
    (dst : list Z) : ub (list Z) :=
  do* '(_, _, _, dst) := for_to dsth (vertical_sum_pixel colour src dstscan srch srcscan voff) (x, x, 0, dst) in
  Done dst.

Definition filterVerticalBlack (env : JNIEnv)
    (dstPixels_arr : jintArray) (dstw dsth dstscan : Z)
    (srcPixels_arr : jintArray) (srcw srch srcscan : Z) (spread : float) : ub filtered :=
  match dstPixels_arr, srcPixels_arr with
  | Some dst, Some src =>
      if checkRange dstPixels_arr dstw dsth srcPixels_arr srcw srch || (dstw >? srcw) then Done (dst, [])
      else with_pixels env dst src
        (do* d := isub dsth srch in
         do* vsize := iadd d 1 in
         do* amax := spread_amax vsize spread in
         do* kscale := idiv INT_MAX amax in
         do* amin := idiv amax 255 in
         do* voff := imul vsize srcscan in
         for_to dstw (vertical_sum_column (black amin amax kscale) src dsth dstscan srch srcscan voff) dst)
  | _, _ => Done (default [] dstPixels_arr, [])
  end.

(** [(jint) (c * 255)] for the four components, shifted into place. *)
Definition shadow_component (c : float) (n : Z) : ub Z :=
  do* v := float_to_jint (fmul c (Z_to_float 255)) in ishl v n.

(** [(jint) (kscalea * c)] *)
Definition scaled_scale (kscalea : Z) (c : float) : ub Z := float_to_jint (fmul (Z_to_float kscalea) c).

(** The colour of a sum in the pass that tints the shadow. *)
Definition tinted (amin amax shadowRGB kscalea kscaler kscaleg kscaleb suma : Z) : ub Z :=
  if suma <? amin then Done 0
  else if suma >=? amax then Done shadowRGB
  else
    do* a := scaled_channel suma kscalea 24 in
    do* r := scaled_channel suma kscaler 16 in
    do* g := scaled_channel suma kscaleg 8 in
    do* b := scaled_channel suma kscaleb 0 in
    Done (Z.lor (Z.lor (Z.lor a r) g) b).

Definition filterVertical_tinted (env : JNIEnv)
    (dstPixels_arr : jintArray) (dstw dsth dstscan : Z)
    (srcPixels_arr : jintArray) (srcw srch srcscan : Z) (spread : float) (shadowColor_arr : list float) : ub filtered :=
  match dstPixels_arr, srcPixels_arr with
  | Some dst, Some src =>
      if checkRange dstPixels_arr dstw dsth srcPixels_arr srcw srch || (dstw >? srcw) then Done (dst, [])
      else
        let shadowColor := GetFloatArrayRegion shadowColor_arr 4 in
        with_pixels env dst src
        (do* d := isub dsth srch in
         do* vsize := iadd d 1 in
         do* amax := spread_amax vsize spread in
         do* kscalea := idiv INT_MAX amax in
         do* c0 := rdf shadowColor 0 in do* c1 := rdf shadowColor 1 in
         do* c2 := rdf shadowColor 2 in do* c3 := rdf shadowColor 3 in
         do* kscaler := scaled_scale kscalea c0 in
         do* kscaleg := scaled_scale kscalea c1 in
         do* kscaleb := scaled_scale kscalea c2 in
         do* kscalea := scaled_scale kscalea c3 in
         do* amin := idiv amax 255 in
         do* voff := imul vsize srcscan in
         do* r := shadow_component c0 16 in do* g := shadow_component c1 8 in
         do* b := shadow_component c2 0 in do* a := shadow_component c3 24 in
         let shadowRGB := Z.lor (Z.lor (Z.lor r g) b) a in
         for_to dstw (vertical_sum_column (tinted amin amax shadowRGB kscalea kscaler kscaleg kscaleb)
                        src dsth dstscan srch srcscan voff) dst)
  | _, _ => Done (default [] dstPixels_arr, [])
  end.

(** ** What the passes compute *)

(** The alpha of a window sum. *)
Definition shadow_alpha (amax sum : Z) : Z :=
  if sum <? amax / 255 then 0 else if sum >=? amax then 255 else sum * (INT_MAX / amax) / 2 ^ 23.
Definition black_pixel (amax : Z) (f : Z -> Z) (k x : Z) : Z :=
  pack (shadow_alpha amax (window f (Z.to_nat k) x 24)) 0 0 0.

(** The integer part of a component times [n]. *)
Definition times (n : Z) (c : float) : Z := default 0 (trunc (fmul (Z_to_float n) c)).
Definition full (c : float) : Z := default 0 (trunc (fmul c (Z_to_float 255))).

Definition tinted_pixel (amax : Z) (c0 c1 c2 c3 : float) (f : Z -> Z) (k x : Z) : Z :=
  let sum := window f (Z.to_nat k) x 24 in
  let part c := sum * times (INT_MAX / amax) c / 2 ^ 23 in
  if sum <? amax / 255 then 0
  else if sum >=? amax then pack (full c3) (full c0) (full c1) (full c2)
  else pack (part c3) (part c0) (part c1) (part c2).

(** A number between 0 and 1. *)
Definition fraction (x : float) : Prop := f_number x /\ (f_zero <=. x) = true /\ (x <=. f_one) = true.

(** ** Products with a fraction *)

Lemma f_zero_number : f_number f_zero /\ fval f_zero = 0.
Proof. repeat split. Qed.

Lemma fraction_val x : fraction x -> f_finite x /\ 0 <= fval x <= f_unit.
Proof.
  intros (Hx & H0 & H1).
  assert (f_number f_one /\ fval f_one = f_unit) as [N1 E1] by (vm_compute; auto).
  destruct f_zero_number as [N0 E0].
  rewrite fleb_spec, Z.leb_le, E0 in H0 by assumption. rewrite fleb_spec, Z.leb_le, E1 in H1 by assumption.
  split; [|lia]. destruct Hx as [Hv Hn]. split; [exact Hv|].
  apply (sval_is_finite 24 128); [exact Hn|]. fold (fval x). pose proof f_unit_pos.
  replace (2 ^ (128 + - emin 24 128)) with (2 ^ 128 * f_unit)
    by (unfold f_unit; rewrite <- Z.pow_add_r by lia; reflexivity).
  set (b := 2 ^ 128). assert (1 < b) by reflexivity. clearbody b. nia.
Qed.

(** The conversion of a number between two integers lands between them. *)
Lemma float_to_jint_between r lo hi :
  f_finite r -> lo * f_unit <= fval r <= hi * f_unit -> INT_MIN <= lo -> hi <= INT_MAX ->
  let z := default 0 (trunc r) in float_to_jint r = Done z /\ lo <= z <= hi.
Proof.
  intros Hr Hv Hl Hh. pose proof f_unit_pos as Hu. unfold float_to_jint. rewrite (f_trunc r Hr). cbn [default].
  pose proof (Z.quot_le_mono _ _ f_unit Hu (proj1 Hv)) as Q1. pose proof (Z.quot_le_mono _ _ f_unit Hu (proj2 Hv)) as Q2.
  rewrite Z.quot_mul in Q1, Q2 by lia. cbv zeta. split; [|cbn; lia].
  unfold is_jint. destruct (Z.leb_spec INT_MIN (fval r ÷ f_unit)), (Z.leb_spec (fval r ÷ f_unit) INT_MAX); try lia.
  reflexivity.
Qed.

(** An integer of at most 24 bits times a fraction, truncated. *)
Lemma times_fraction n c :
  Z.abs n <= 2 ^ 24 -> fraction c ->
  float_to_jint (fmul (Z_to_float n) c) = Done (times n c) /\ Z.min 0 n <= times n c <= Z.max 0 n.
Proof.
  intros Hn Hc. destruct (fraction_val c Hc) as [Fc Vc]. destruct (Z_to_float_exact n Hn) as [Fn Vn].
  pose proof f_unit_pos as Hu. change (2 ^ 24) with 16777216 in Hn.
  destruct (f_rounded_between _ _ (Z.min 0 n) (Z.max 0 n) (fmul_rounded _ _ Fn Fc)) as [Ff Vf].
  - change (2 ^ 24) with 16777216. lia.
  - change (2 ^ 24) with 16777216. lia.
  - rewrite Vn. set (u := f_unit) in *. clearbody u.
    assert (u * fval c <= u * u) as U by (apply Z.mul_le_mono_nonneg_l; lia).
    assert (0 <= u * fval c) by (apply Z.mul_nonneg_nonneg; lia).
    rewrite <- !Z.mul_assoc. set (p := u * fval c) in *. set (q := u * u) in *. clearbody p q. nia.
  - apply float_to_jint_between; [exact Ff|exact Vf|unfold INT_MIN; lia|unfold INT_MAX; lia].
Qed.

Lemma full_fraction c :
  fraction c -> float_to_jint (fmul c (Z_to_float 255)) = Done (full c) /\ 0 <= full c <= 255.
Proof.
  intros Hc. destruct (fraction_val c Hc) as [Fc Vc]. destruct (Z_to_float_exact 255 ltac:(lia)) as [Fn Vn].
  pose proof f_unit_pos as Hu.
  destruct (f_rounded_between _ _ 0 255 (fmul_rounded _ _ Fc Fn)) as [Ff Vf]; [lia..| |].
  - rewrite Vn. set (u := f_unit) in *. clearbody u. nia.
  - apply float_to_jint_between; [exact Ff|exact Vf|unfold INT_MIN; lia|unfold INT_MAX; lia].
Qed.

(** The limit of a window of [k] pixels: from [k * 255] down to 255, by the
    integer part of the spread's share of the way. *)
Definition spread_limit (k : Z) (spread : float) : Z := k * 255 + times (255 - k * 255) spread.
Lemma spread_amax_done k spread :
  0 < k -> k * 255 - 255 <= 2 ^ 24 -> fraction spread ->
  spread_amax k spread = Done (spread_limit k spread) /\ 255 <= spread_limit k spread <= k * 255.
Proof.
  intros Hk Hm Hs. change (2 ^ 24) with 16777216 in Hm.
  destruct (times_fraction (255 - k * 255) spread) as [E B]; [change (2 ^ 24) with 16777216; lia|exact Hs|].
  unfold spread_limit, spread_amax, imul, isub, iadd. rewrite jint_done by (unfold INT_MIN, INT_MAX; lia). cbn [ub_bind].
  rewrite jint_done by (unfold INT_MIN, INT_MAX; lia). cbn [ub_bind]. rewrite E. cbn [ub_bind].
  rewrite jint_done by (unfold INT_MIN, INT_MAX; lia). split; [reflexivity|lia].
Qed.

(** ** The colour of a sum *)

(** A sum below [amax] times a scale below [INT_MAX / amax] stays in range. *)
Lemma scaled_sum sum amax k :
  0 < amax -> 0 <= sum <= amax -> 0 <= k <= INT_MAX / amax ->
  0 <= sum * k <= INT_MAX /\ 0 <= sum * k / 2 ^ 23 <= 255.
Proof.
  intros Ha Hs Hk. pose proof (Z.mul_div_le INT_MAX amax Ha).
  assert (sum * k <= amax * (INT_MAX / amax)) by (apply Z.mul_le_mono_nonneg; lia).
  assert (0 <= sum * k) by (apply Z.mul_nonneg_nonneg; lia).
  split; [lia|]. unfold INT_MAX in *. split; [apply Z.div_pos; lia|].
  apply Z.lt_succ_r, Z.div_lt_upper_bound; lia.
Qed.

Lemma shadow_alpha_range amax sum : 0 < amax -> 0 <= sum -> 0 <= shadow_alpha amax sum <= 255.
Proof.
  intros Ha Hs. unfold shadow_alpha. destruct (sum <? _); [lia|]. rewrite Z.geb_leb.
  destruct (Z.leb_spec amax sum); [lia|]. apply (scaled_sum sum amax (INT_MAX / amax)); [lia|lia|].
  split; [apply Z.div_pos; unfold INT_MAX; lia|lia].
Qed.

Lemma black_done amax sum :
  0 < amax -> 0 <= sum -> black (amax / 255) amax (INT_MAX / amax) sum = Done (pack (shadow_alpha amax sum) 0 0 0).
Proof.
  intros Ha Hs. unfold black, shadow_alpha. destruct (sum <? _); [reflexivity|]. rewrite Z.geb_leb.
  destruct (Z.leb_spec amax sum); [reflexivity|].
  pose proof (scaled_sum sum amax (INT_MAX / amax) Ha ltac:(lia)) as [R1 R2].
  { split; [apply Z.div_pos; unfold INT_MAX; lia|lia]. }
  unfold imul. rewrite jint_done by (unfold INT_MIN in *; lia). cbn [ub_bind]. rewrite Z.shiftr_div_pow2 by lia.
  rewrite ishl_done by (unfold UINT_MAX, two_p32; lia). unfold pack. do 2 f_equal. lia.
Qed.

(** A channel of at most 255 shifted into place. *)
Lemma ishl_channel v n : 0 <= v <= 255 -> 0 <= n <= 24 -> ishl v n = Done (s32 (v * 2 ^ n)).
Proof.
  intros Hv Hn. apply ishl_done; [lia|lia|]. pose proof (pow2_mono n 24 ltac:(lia)). pose proof (pow2_pos n ltac:(lia)).
  change (2 ^ 24) with 16777216 in *. set (p := 2 ^ n) in *. clearbody p. unfold UINT_MAX, two_p32. nia.
Qed.

Lemma tinted_done amax c0 c1 c2 c3 f k x :
  255 <= amax <= INT_MAX -> fraction c0 -> fraction c1 -> fraction c2 -> fraction c3 ->
  let t := times (INT_MAX / amax) in
  tinted (amax / 255) amax (pack (full c3) (full c0) (full c1) (full c2)) (t c3) (t c0) (t c1) (t c2)
    (window f (Z.to_nat k) x 24) = Done (tinted_pixel amax c0 c1 c2 c3 f k x).
Proof.
  intros Ha H0 H1 H2 H3 t. unfold tinted, tinted_pixel. set (sum := window _ _ _ _).
  assert (0 <= sum) as Hs by (unfold sum; pose proof (window_range f (Z.to_nat k) x 24); lia).
  destruct (sum <? _); [reflexivity|]. rewrite Z.geb_leb.
  destruct (Z.leb_spec amax sum); [reflexivity|]. fold t.
  assert (0 <= INT_MAX / amax <= 8421504) as Hq.
  { split; [apply Z.div_pos; unfold INT_MAX; lia|]. apply Z.lt_succ_r, Z.div_lt_upper_bound; unfold INT_MAX; lia. }
  assert (forall c, fraction c -> 0 <= t c <= INT_MAX / amax) as T.
  { intros c Hc. destruct (times_fraction (INT_MAX / amax) c) as [_ B]; [change (2 ^ 24) with 16777216; lia|exact Hc|].
    unfold t. lia. }
  assert (forall c n, fraction c -> 0 <= n <= 24 ->
    scaled_channel sum (t c) n = Done (s32 (sum * t c / 2 ^ 23 * 2 ^ n)) /\ 0 <= sum * t c / 2 ^ 23 <= 255) as C.
  { intros c n Hc Hn. destruct (scaled_sum sum amax (t c) ltac:(lia) ltac:(lia) (T c Hc)) as [R1 R2].
    unfold scaled_channel, imul. rewrite jint_done by (unfold INT_MIN; lia). cbn [ub_bind].
    rewrite Z.shiftr_div_pow2, ishl_channel by lia. auto. }
  destruct (C c3 24 H3 ltac:(lia)) as [-> B3], (C c0 16 H0 ltac:(lia)) as [-> B0].
  destruct (C c1 8 H1 ltac:(lia)) as [-> B1], (C c2 0 H2 ltac:(lia)) as [-> B2]. cbn [ub_bind].
  rewrite lor_pack by assumption. reflexivity.
Qed.

Lemma window_before f n k : window (line n f) k (-1) 24 = 0.
Proof. unfold window. apply box_sum_zero. intros i Hi. rewrite line_out by lia. reflexivity. Qed.

(** ** The horizontal pass *)

Section HorizontalBlack.

Context (dst : list Z) (dstw dsth dstscan : Z) (src : list Z) (srcw srch srcscan amax : Z).
Context (OK : sound_images dst dstw dsth dstscan src srcw srch srcscan).
Context (Hrows : dsth <= srch) (Hwider : srcw <= dstw).

Local Abbreviation hsize := (dstw - srcw + 1).

Context (Hsize : hsize * 255 <= INT_MAX) (Hroom : Z.of_nat (length src) + dstw <= INT_MAX).
Context (Hamax : 0 < amax).

Local Abbreviation out := (fun x y => black_pixel amax (source_row src srcw srcscan y) hsize x).
Local Abbreviation sum_before := (fun y x => window (source_row src srcw srcscan y) (Z.to_nat hsize) (x - 1) 24).

Lemma horizontal_black_pixel_yields y x d :
  0 <= y < dsth -> 0 <= x < dstw ->
  painted (rows_before dstw y x) (row_major dstscan) out dst d ->
  yields (horizontal_black_pixel src srcw hsize (amax / 255) amax (INT_MAX / amax) (y * srcscan) (y * dstscan) x
            (sum_before y x, d))
    (fun '(s, d) => s = sum_before y (x + 1) /\ painted (rows_before dstw y (x + 1)) (row_major dstscan) out dst d).
Proof using OK Hrows Hwider Hroom Hsize Hamax.
  intros Hy Hx Hp.
  destruct (horizontal_reads dst dstw dsth dstscan src srcw srch srcscan OK Hrows Hwider Hroom y x Hy Hx) as [R1 R2].
  pose proof (window_slide (source_row src srcw srcscan y) (Z.to_nat hsize) x 24 ltac:(lia) ltac:(lia)) as A.
  replace (x - Z.of_nat (Z.to_nat hsize)) with (x - hsize) in A by lia.
  unfold horizontal_black_pixel. rewrite R1. cbn [ub_bind]. destruct (isub _ _) as [s|]; [|discriminate].
  cbn [ub_bind] in *. rewrite R2. cbn [ub_bind]. rewrite A. cbn [ub_bind].
  pose proof (window_range (source_row src srcw srcscan y) (Z.to_nat hsize) x 24) as W.
  rewrite black_done by lia. cbn [ub_bind]. unfold iadd.
  destruct OK as (O1 & O2 & O3 & O4 & O5 & O6). pose proof (row_range y dsth dstscan Hy ltac:(lia)).
  rewrite jint_done by (unfold INT_MIN, INT_MAX in *; lia). cbn [ub_bind].
  eapply yields_bind.
  - apply (painted_step (row_major dstscan) dstw dsth (rows_before dstw y x) out dst d x y).
    + apply row_major_raster; lia.
    + intros x' y'. apply rows_inside; lia.
    + split; lia.
    + exact Hp.
  - intros d' Hd'. apply yields_done. split; [f_equal; lia|].
    eapply painted_ext; [|exact Hd']. intros x' y'. apply rows_pixel. lia.
Qed.

Lemma horizontal_black_row_yields y d :
  0 <= y < dsth -> painted (rows_before dstw y 0) (row_major dstscan) out dst d ->
  yields (horizontal_black_row src dstw dstscan srcw srcscan hsize (amax / 255) amax (INT_MAX / amax) y
            (y * srcscan, y * dstscan, d))
    (fun '(so, doff, d) => so = (y + 1) * srcscan /\ doff = (y + 1) * dstscan /\
       painted (rows_before dstw (y + 1) 0) (row_major dstscan) out dst d).
Proof using OK Hrows Hwider Hroom Hsize Hamax.
  intros Hy Hp. unfold horizontal_black_row. pose proof OK as (O1 & O2 & O3 & O4 & O5 & O6).
  pose proof (row_range y dsth dstscan Hy ltac:(lia)). pose proof (row_range y srch srcscan ltac:(lia) ltac:(lia)).
  eapply yields_bind.
  - apply (for_to_yields (fun x '(s, d) => s = sum_before y x /\
      painted (rows_before dstw y x) (row_major dstscan) out dst d)); [lia| |].
    + intros x [s d'] Hx [-> Hd]. apply horizontal_black_pixel_yields; assumption.
    + split; [symmetry; apply window_before|exact Hp].
  - intros [s d'] [_ Hd]. unfold iadd. rewrite jint_done by (unfold INT_MIN, INT_MAX in *; lia). cbn [ub_bind].
    rewrite jint_done by (unfold INT_MIN, INT_MAX in *; lia). cbn [ub_bind]. apply yields_done.
    split; [lia|]. split; [lia|]. eapply painted_ext; [|exact Hd]. intros x' y'. apply rows_line. lia.
Qed.

Lemma horizontal_black_loops :
  yields (do* '(_, _, dst) :=
            for_to dsth (horizontal_black_row src dstw dstscan srcw srcscan hsize (amax / 255) amax (INT_MAX / amax))
              (0, 0, dst) in
          Done dst)
    (painted (in_image dstw dsth) (row_major dstscan) out dst).
Proof using OK Hrows Hwider Hroom Hsize Hamax.
  eapply yields_bind.
  - apply (for_to_yields (fun y '(so, doff, d) => so = y * srcscan /\ doff = y * dstscan /\
      painted (rows_before dstw y 0) (row_major dstscan) out dst d)).
    + destruct OK. lia.
    + intros y [[so doff] d] Hy (-> & -> & Hd). apply horizontal_black_row_yields; assumption.
    + split; [lia|]. split; [lia|]. eapply painted_ext; [|apply painted_none]. intros x y. symmetry. apply rows_start.
  - intros [[so doff] d] (_ & _ & Hd). apply yields_done. eapply painted_ext; [|exact Hd]. intros x y. apply rows_end.
Qed.

End HorizontalBlack.

(** ** The vertical passes, for any colour of a sum *)

Section VerticalSum.

Context (dst : list Z) (dstw dsth dstscan : Z) (src : list Z) (srcw srch srcscan : Z).
Context (OK : sound_images dst dstw dsth dstscan src srcw srch srcscan).
Context (Hcols : dstw <= srcw) (Htaller : srch <= dsth).

Local Abbreviation vsize := (dsth - srch + 1).

Context (Hsize : vsize * 255 <= INT_MAX).
Context (Hsrc : dsth * srcscan + dstw <= INT_MAX) (Hdst : dsth * dstscan + dstw <= INT_MAX).
Context (colour : Z -> ub Z) (spec : (Z -> Z) -> Z -> Z).
Context (Hcolour : forall f x, colour (window f (Z.to_nat vsize) x 24) = Done (spec f x)).

Local Abbreviation out := (fun x y => spec (source_column src srch srcscan x) y).
Local Abbreviation sum_before := (fun x y => window (source_column src srch srcscan x) (Z.to_nat vsize) (y - 1) 24).

Lemma vertical_sum_pixel_yields x y d :
  0 <= x < dstw -> 0 <= y < dsth ->
  painted (columns_before dsth x y) (row_major dstscan) out dst d ->
  yields (vertical_sum_pixel colour src dstscan srch srcscan (vsize * srcscan) y
            (row_major srcscan x y, row_major dstscan x y, sum_before x y, d))
    (fun '(so, doff, s, d) => so = row_major srcscan x (y + 1) /\ doff = row_major dstscan x (y + 1) /\
       s = sum_before x (y + 1) /\ painted (columns_before dsth x (y + 1)) (row_major dstscan) out dst d).
Proof using OK Hcols Htaller Hsrc Hdst Hsize Hcolour.
  intros Hx Hy Hp.
  destruct (vertical_reads dst dstw dsth dstscan src srcw srch srcscan OK Hcols Htaller Hsize Hsrc Hdst x y Hx Hy) as [R1 R2].
  pose proof (window_slide (source_column src srch srcscan x) (Z.to_nat vsize) y 24 ltac:(lia) ltac:(lia)) as A.
  replace (y - Z.of_nat (Z.to_nat vsize)) with (y - vsize) in A by lia.
  unfold vertical_sum_pixel. rewrite R1. cbn [ub_bind]. destruct (isub (window _ _ _ _) _) as [s|]; [|discriminate].
  cbn [ub_bind] in *. rewrite R2. cbn [ub_bind]. rewrite A. cbn [ub_bind]. rewrite Hcolour. cbn [ub_bind]. unfold iadd.
  destruct OK as (O1 & O2 & O3 & O4 & O5 & O6).
  eapply yields_bind.
  - apply (painted_step (row_major dstscan) dstw dsth (columns_before dsth x y) out dst d x y).
    + apply row_major_raster; lia.
    + intros x' y'. apply columns_inside; lia.
    + split; lia.
    + exact Hp.
  - intros d' Hd'. pose proof (row_range y dsth srcscan Hy ltac:(lia)).
    pose proof (row_range y dsth dstscan Hy ltac:(lia)). unfold row_major.
    rewrite jint_done by (unfold INT_MIN, INT_MAX in *; lia). cbn [ub_bind].
    rewrite jint_done by (unfold INT_MIN, INT_MAX in *; lia). cbn [ub_bind].
    apply yields_done. split; [lia|]. split; [lia|]. split; [f_equal; lia|].
    eapply painted_ext; [|exact Hd']. intros x' y'. apply columns_pixel. lia.
Qed.

Lemma vertical_sum_column_yields x d :
  0 <= x < dstw -> painted (columns_before dsth x 0) (row_major dstscan) out dst d ->
  yields (vertical_sum_column colour src dsth dstscan srch srcscan (vsize * srcscan) x d)
    (painted (columns_before dsth (x + 1) 0) (row_major dstscan) out dst).
Proof using OK Hcols Htaller Hsrc Hdst Hsize Hcolour.
  intros Hx Hp. unfold vertical_sum_column. eapply yields_bind.
  - apply (for_to_yields (fun y '(so, doff, s, d) => so = row_major srcscan x y /\ doff = row_major dstscan x y /\
      s = sum_before x y /\ painted (columns_before dsth x y) (row_major dstscan) out dst d)); [destruct OK; lia| |].
    + intros y [[[so doff] s] d'] Hy (-> & -> & -> & Hd). apply vertical_sum_pixel_yields; assumption.
    + split; [unfold row_major; lia|]. split; [unfold row_major; lia|].
      split; [symmetry; apply window_before|exact Hp].
  - intros [[[so doff] s] d'] (_ & _ & _ & Hd). apply yields_done.
    eapply painted_ext; [|exact Hd]. intros x' y'. apply columns_line. lia.
Qed.

Lemma vertical_sum_loops :
  yields (for_to dstw (vertical_sum_column colour src dsth dstscan srch srcscan (vsize * srcscan)) dst)
    (painted (in_image dstw dsth) (row_major dstscan) out dst).
Proof using OK Hcols Htaller Hsrc Hdst Hsize Hcolour.
  eapply yields_mono.
  - apply (for_to_yields (fun x => painted (columns_before dsth x 0) (row_major dstscan) out dst)).
    + destruct OK. lia.
    + intros x d Hx Hd. apply vertical_sum_column_yields; assumption.
    + eapply painted_ext; [|apply painted_none]. intros x y. symmetry. apply columns_start.
  - intros d Hd. eapply painted_ext; [|exact Hd]. intros x y. apply columns_end.
Qed.

End VerticalSum.

(** ** The entry points *)

(** The destination of a pass: defined, with both arrays released. *)
Definition filters_to (run : ub filtered) (dst : list Z) (w h scan : Z) (out : Z -> Z -> Z) : Prop :=
  yields run (fun '(d, trace) => trace = both_released /\ painted (in_image w h) (row_major scan) out dst d).

Lemma inv_done amax : 255 <= amax <= INT_MAX ->
  idiv INT_MAX amax = Done (INT_MAX / amax) /\ idiv amax 255 = Done (amax / 255).
Proof. intros H. rewrite !idiv_done by (unfold INT_MAX in *; lia). auto. Qed.

(** Prepares a run for its loops: the range check passed, the arrays are
    acquired and the window is [n - m + 1] pixels. *)
Ltac enter Hpin OK n m Hk :=
  rewrite (sound_checkRange _ _ _ _ _ _ _ _ OK); destruct Hpin as [-> ->]; cbn [orb negb];
  rewrite Z.gtb_ltb;
  match goal with |- context [?a <? ?b] => destruct (Z.ltb_spec a b); [lia|] end;
  destruct (window_size n m) as (E1 & E2 & _ & _); [lia|lia|lia|unfold INT_MAX; lia|];
  rewrite E1; cbn [ub_bind]; rewrite E2; cbn [ub_bind].

(** [filterHorizontalBlack] with a spread between 0 and 1, on a window of
    at most 65794 pixels: the run is defined, and every destination pixel is
    black with the alpha of its window, clamped at [spread_limit]. *)
Theorem filterHorizontalBlack_is_box_shadow env dst dstw dsth dstscan src srcw srch srcscan spread
  (Hpin : src_pinned env = true /\ dst_pinned env = true)
  (OK : sound_images dst dstw dsth dstscan src srcw srch srcscan)
  (Hrows : dsth <= srch) (Hwider : srcw <= dstw) (Hspread : fraction spread)
  (Hsize : dstw - srcw + 1 <= 65794) (Hroom : Z.of_nat (length src) + dstw <= INT_MAX) :
  let amax := spread_limit (dstw - srcw + 1) spread in 255 <= amax <= (dstw - srcw + 1) * 255 /\
  filters_to (filterHorizontalBlack env (Some dst) dstw dsth dstscan (Some src) srcw srch srcscan spread)
    dst dstw dsth dstscan (fun x y => black_pixel amax (source_row src srcw srcscan y) (dstw - srcw + 1) x).
Proof.
  pose proof OK as (O1 & O2 & O3 & O4 & O5 & O6). unfold filterHorizontalBlack, with_pixels, filters_to.
  enter Hpin OK dstw srcw Hsize.
  destruct (spread_amax_done (dstw - srcw + 1) spread) as [E B]; [lia|lia|exact Hspread|].
  split; [exact B|]. rewrite E. cbn [ub_bind]. set (amax := spread_limit _ _) in *. clearbody amax.
  destruct (inv_done amax) as [E3 E4]; [unfold INT_MAX; lia|]. rewrite E3. cbn [ub_bind]. rewrite E4. cbn [ub_bind].
  eapply yields_bind; [apply (horizontal_black_loops _ _ _ _ _ _ srch); try assumption; unfold INT_MAX; lia|].
  intros d Hd. apply yields_done. split; [reflexivity|exact Hd].
Qed.

(** C20: The vertical passes, in the same sense, for windows of at most 65794
    pixels: [filterVerticalBlack] makes the black shadow of the columns, and
    [filterVertical] tints it with the shadow colour.  A pixel has the sum of the
    alphas of its window as share of [amax], clamped there; [amax] is the limit
    that the spread sets, [k * 255] for a spread of 0 and less the greater it is. *)
Theorem filterVertical_is_box_shadow env dst dstw dsth dstscan src srcw srch srcscan spread c0 c1 c2 c3
  (Hpin : src_pinned env = true /\ dst_pinned env = true)
  (OK : sound_images dst dstw dsth dstscan src srcw srch srcscan)
  (Hcols : dstw <= srcw) (Htaller : srch <= dsth) (Hspread : fraction spread)
  (Hcolour : Forall fraction [c0; c1; c2; c3]) (Hsize : dsth - srch + 1 <= 65794)
  (Hsrc : dsth * srcscan + dstw <= INT_MAX) (Hdst : dsth * dstscan + dstw <= INT_MAX) :
  let amax := spread_limit (dsth - srch + 1) spread in 255 <= amax <= (dsth - srch + 1) * 255 /\
  filters_to (filterVerticalBlack env (Some dst) dstw dsth dstscan (Some src) srcw srch srcscan spread)
    dst dstw dsth dstscan (fun x y => black_pixel amax (source_column src srch srcscan x) (dsth - srch + 1) y) /\
  filters_to (filterVertical_tinted env (Some dst) dstw dsth dstscan (Some src) srcw srch srcscan spread [c0; c1; c2; c3])
    dst dstw dsth dstscan (fun x y => tinted_pixel amax c0 c1 c2 c3 (source_column src srch srcscan x) (dsth - srch + 1) y).
Proof.
  pose proof OK as (O1 & O2 & O3 & O4 & O5 & O6).
  pose proof (Z.mul_le_mono_nonneg_l 1 dstscan dsth ltac:(lia) ltac:(lia)).
  pose proof (Z.mul_le_mono_nonneg_r (dsth - srch + 1) dsth srcscan ltac:(lia) ltac:(lia)).
  pose proof (Z.mul_nonneg_nonneg (dsth - srch + 1) srcscan ltac:(lia) ltac:(lia)).
  destruct (spread_amax_done (dsth - srch + 1) spread) as [E B]; [lia|lia|exact Hspread|].
  split; [exact B|]. set (amax := spread_limit _ _) in *. clearbody amax.
  destruct (inv_done amax) as [E3 E4]; [unfold INT_MAX; lia|].
  assert (imul (dsth - srch + 1) srcscan = Done ((dsth - srch + 1) * srcscan)) as E5
    by (unfold imul; apply jint_done; unfold INT_MIN; lia).
  unfold filters_to, filterVerticalBlack, filterVertical_tinted, with_pixels. split.
  - enter Hpin OK dsth srch Hsize. rewrite E. cbn [ub_bind]. rewrite E3. cbn [ub_bind]. rewrite E4. cbn [ub_bind].
    rewrite E5. cbn [ub_bind].
    eapply yields_bind.
    + apply (vertical_sum_loops dst dstw dsth dstscan src srcw srch srcscan OK Hcols Htaller ltac:(unfold INT_MAX; lia)
        Hsrc Hdst _ (fun f x => black_pixel amax f (dsth - srch + 1) x)).
      intros f x. pose proof (window_range f (Z.to_nat (dsth - srch + 1)) x 24). apply black_done; lia.
    + intros d Hd. apply yields_done. split; [reflexivity|exact Hd].
  - assert (0 <= INT_MAX / amax <= 8421504) as Hq.
    { split; [apply Z.div_pos; unfold INT_MAX; lia|]. apply Z.lt_succ_r, Z.div_lt_upper_bound; unfold INT_MAX; lia. }
    assert (forall c, fraction c -> scaled_scale (INT_MAX / amax) c = Done (times (INT_MAX / amax) c)) as Es.
    { intros c Hc. apply times_fraction; [change (2 ^ 24) with 16777216; lia|exact Hc]. }
    assert (forall c n, fraction c -> 0 <= n <= 24 -> shadow_component c n = Done (s32 (full c * 2 ^ n)) /\ 0 <= full c <= 255) as Ec.
    { intros c n Hc Hn. destruct (full_fraction c Hc) as [F1 F2]. unfold shadow_component. rewrite F1. cbn [ub_bind].
      rewrite ishl_channel by assumption. auto. }
    apply Forall_cons in Hcolour as [F0 Hcolour]. apply Forall_cons in Hcolour as [F1 Hcolour].
    apply Forall_cons in Hcolour as [F2 Hcolour]. apply Forall_cons in Hcolour as [F3 _].
    enter Hpin OK dsth srch Hsize. rewrite E. cbn [ub_bind]. rewrite E3. cbn [ub_bind].
    change (rdf (GetFloatArrayRegion [c0; c1; c2; c3] 4) 0) with (Done c0).
    change (rdf (GetFloatArrayRegion [c0; c1; c2; c3] 4) 1) with (Done c1).
    change (rdf (GetFloatArrayRegion [c0; c1; c2; c3] 4) 2) with (Done c2).
    change (rdf (GetFloatArrayRegion [c0; c1; c2; c3] 4) 3) with (Done c3). cbn [ub_bind].
    rewrite !Es by assumption. cbn [ub_bind]. rewrite E4. cbn [ub_bind]. rewrite E5. cbn [ub_bind].
    destruct (Ec c0 16 F0 ltac:(lia)) as [-> B0], (Ec c1 8 F1 ltac:(lia)) as [-> B1],
      (Ec c2 0 F2 ltac:(lia)) as [-> B2], (Ec c3 24 F3 ltac:(lia)) as [-> B3]. cbn [ub_bind].
    rewrite lor_last, lor_pack by assumption.
    eapply yields_bind.
    + apply (vertical_sum_loops dst dstw dsth dstscan src srcw srch srcscan OK Hcols Htaller ltac:(unfold INT_MAX; lia)
        Hsrc Hdst _ (fun f x => tinted_pixel amax c0 c1 c2 c3 f (dsth - srch + 1) x)).
      intros f x. apply tinted_done; try assumption. unfold INT_MAX. lia.
    + intros d Hd. apply yields_done. split; [reflexivity|exact Hd].
Qed.

(** ** Instances *)

Definition f_half : float := Eval vm_compute in SFdiv 24 128 (Z_to_float 1) (Z_to_float 2).

Lemma half_fraction : fraction f_half.
Proof. repeat split. Qed.

Lemma filterHorizontalBlack_is_box_shadow_witness :
  spread_limit 3 f_half = 510 /\
  filters_to (filterHorizontalBlack (mkJNIEnv true true) (Some [0;0;0;0;0]) 5 1 5 (Some [-1; -1; -1]) 3 1 3 f_half)
    [0;0;0;0;0] 5 1 5 (fun x y => black_pixel 510 (source_row [-1; -1; -1] 3 3 y) 3 x).
Proof.
  split; [vm_compute; reflexivity|].
  apply (filterHorizontalBlack_is_box_shadow (mkJNIEnv true true) [0;0;0;0;0] 5 1 5 [-1; -1; -1] 3 1 3 f_half);
    [split; reflexivity|exact demo_sound|lia|lia|exact half_fraction|lia|unfold INT_MAX; cbn [length]; lia].
Defined.

Lemma filterVertical_is_box_shadow_witness :
  spread_limit 2 f_half = 383 /\
  filters_to (filterVerticalBlack (mkJNIEnv true true) (Some [0;0;0]) 1 3 1 (Some [-1; -1]) 1 2 1 f_half)
    [0;0;0] 1 3 1 (fun x y => black_pixel 383 (source_column [-1; -1] 2 1 x) 2 y) /\
  filters_to (filterVertical_tinted (mkJNIEnv true true) (Some [0;0;0]) 1 3 1 (Some [-1; -1]) 1 2 1 f_half [f_half; f_zero; f_half; f_one])
    [0;0;0] 1 3 1 (fun x y => tinted_pixel 383 f_half f_zero f_half f_one (source_column [-1; -1] 2 1 x) 2 y).
Proof.
  split; [vm_compute; reflexivity|].
  apply (filterVertical_is_box_shadow (mkJNIEnv true true) [0;0;0] 1 3 1 [-1; -1] 1 2 1 f_half f_half f_zero f_half f_one);
    [split; reflexivity|unfold sound_images, INT_MAX; cbn [length]; lia|lia|lia|exact half_fraction| |lia|unfold INT_MAX; lia..].
  repeat constructor.
Defined.
