(* ===== verification/Convolve.v ===== *)
(** * Linear convolution along lines ([SSELinearConvolvePeer.cc],
    [SSELinearConvolveShadowPeer.cc])

    [filterHV] convolves every line of an image with a kernel of at most 128
    weights.  The pixels of the last [kernelSize] columns are kept in a circular
    buffer, and the kernel is stored twice so that the loop over the buffer can
    start its weights anywhere.  The theorems show that this computes the
    convolution: each weight meets the pixel at its distance, whatever slot
    holds it, and no index leaves its array. *)

From Stdlib Require Import Floats.SpecFloat.
From S2P Require Import Prelude CFloat Float32 DecoraApi Argb Painted BoxBlur BoxShadow.
Local Open Scope Z_scope.
Local Open Scope ub_scope.

(** ** The code *)

(** [#define cmin 1.0f], [#define cmax (255.0f - 1.0f/32.0f)] *)
Definition cmin : float := f_one.
Definition cmax : float := Eval vm_compute in fsub (Z_to_float 255) (SFdiv 24 128 f_one (Z_to_float 32)).

(** [((f) < cmin) ? 0 : (((f) > cmax) ? 255 : ((jint) (f)))] *)
Definition fvaltobyte (f : float) : ub Z :=
  if f <. cmin then Done 0 else if f >. cmax then Done 255 else float_to_jint f.

(** A local array of [n] floats; [f_set] and [rdf] write and read it. *)
Definition local_floats (n : nat) : list (option float) := repeat None n.
Definition f_set (a : list (option float)) (i : Z) (v : float) : ub (list (option float)) := wr a i (Some v).

(** [kvals], filled from the Java array. *)
Definition kernel_values (weights : list float) (kernelSize : Z) : list (option float) :=
  GetFloatArrayRegion weights (kernelSize * 2) ++ local_floats (Z.to_nat (256 - kernelSize * 2)).

Record fsums := mkFsums { fsuma : float; fsumr : float; fsumg : float; fsumb : float }.

(** The loop over the buffer, [for (i = 0; i < kernelSize*4; i += 4)], with
    [i = 4 * j]. *)
Definition weigh (kvals cvals : list (option float)) (koff j : Z) (s : fsums) : ub fsums :=
  do* factor := rdf kvals (koff + j) in
  do* a := rdf cvals (4 * j + 0) in
  do* r := rdf cvals (4 * j + 1) in
  do* g := rdf cvals (4 * j + 2) in
  do* b := rdf cvals (4 * j + 3) in
  Done (mkFsums (fadd (fsuma s) (fmul a factor)) (fadd (fsumr s) (fmul r factor))
                (fadd (fsumg s) (fmul g factor)) (fadd (fsumb s) (fmul b factor))).

(** [if (--koff <= 0) koff += kernelSize;] *)
Definition bump_koff (kernelSize koff : Z) : Z :=
  let koff := koff - 1 in if koff <=? 0 then koff + kernelSize else koff.

(** The loop state over a line. *)
Record line_state := mkLine { l_dstoff : Z; l_srcoff : Z; l_koff : Z; l_vals : list (option float); l_dst : list Z }.

Definition convolve_pixel (kvals : list (option float)) (kernelSize : Z) (src : list Z) (dcolinc srccols scolinc c : Z)
    (st : line_state) : ub line_state :=
  let i := (kernelSize - l_koff st) * 4 in
  do* rgb := (if c <? srccols then rd src (l_srcoff st) else Done 0) in
  do* cvals := f_set (l_vals st) (i + 0) (Z_to_float (chan rgb 24)) in
  do* cvals := f_set cvals (i + 1) (Z_to_float (chan rgb 16)) in
  do* cvals := f_set cvals (i + 2) (Z_to_float (chan rgb 8)) in
  do* cvals := f_set cvals (i + 3) (Z_to_float (chan rgb 0)) in
  let koff := bump_koff kernelSize (l_koff st) in
  do* s := for_to kernelSize (weigh kvals cvals koff) (mkFsums f_zero f_zero f_zero f_zero) in
  do* a := fvaltobyte (fsuma s) in do* r := fvaltobyte (fsumr s) in
  do* g := fvaltobyte (fsumg s) in do* b := fvaltobyte (fsumb s) in
  do* p := (do* a := ishl a 24 in do* r := ishl r 16 in do* g := ishl g 8 in do* b := ishl b 0 in
            do* ar := iadd a r in do* arg := iadd ar g in iadd arg b) in
  do* dst := wr (l_dst st) (l_dstoff st) p in
  do* dstoff := iadd (l_dstoff st) dcolinc in
  do* srcoff := iadd (l_srcoff st) scolinc in
  Done (mkLine dstoff srcoff koff cvals dst).

(** The body of the loop over the lines; the state is [dstrow], [srcrow], the
    buffer and the destination. *)
Definition convolve_line (kvals : list (option float)) (kernelSize : Z) (src : list Z)
    (dstcols dcolinc drowinc srccols scolinc srowinc r : Z)
    (st : Z * Z * list (option float) * list Z) : ub (Z * Z * list (option float) * list Z) :=
  let '(dstrow, srcrow, cvals, dst) := st in
  do* cvals := for_to (kernelSize * 4) (fun i cvals => f_set cvals i f_zero) cvals in
  do* st := for_to dstcols (convolve_pixel kvals kernelSize src dcolinc srccols scolinc)
              (mkLine dstrow srcrow kernelSize cvals dst) in
  do* dstrow := iadd dstrow drowinc in
  do* srcrow := iadd srcrow srowinc in
  Done (dstrow, srcrow, l_vals st, l_dst st).

Definition filterHV (env : JNIEnv)
    (dstPixels_arr : jintArray) (dstcols dstrows dcolinc drowinc : Z)
    (srcPixels_arr : jintArray) (srccols srcrows scolinc srowinc : Z) (kvals_arr : list float) : ub filtered :=
  match dstPixels_arr, srcPixels_arr with
  | Some dst, Some src =>
      if checkRange dstPixels_arr dstcols dstrows srcPixels_arr srccols srcrows || (dstrows >? srcrows) then Done (dst, [])
      else
        let kernelSize := Z.of_nat (length kvals_arr) ÷ 2 in
        if kernelSize >? 128 then Done (dst, [])
        else
          let kvals := kernel_values kvals_arr kernelSize in
          with_pixels env dst src
            (do* '(_, _, _, dst) :=
               for_to dstrows (convolve_line kvals kernelSize src dstcols dcolinc drowinc srccols scolinc srowinc)
                 (0, 0, local_floats 512, dst) in
             Done dst)
  | _, _ => Done (default [] dstPixels_arr, [])
  end.

(** *** The shadow variant *)

(** One entry of [shadowRGBs]: [(int) (shadowColor[0] * i) << 16 | ...] *)
Definition shadow_entry (c0 c1 c2 c3 : float) (i : Z) : ub Z :=
  let part c n := do* v := float_to_jint (fmul c (Z_to_float i)) in ishl v n in
  do* r := part c0 16 in do* g := part c1 8 in do* b := part c2 0 in do* a := part c3 24 in
  Done (Z.lor (Z.lor (Z.lor r g) b) a).

Definition shadow_table (c0 c1 c2 c3 : float) : ub (list Z) :=
  for_to 256 (fun i t => do* e := shadow_entry c0 c1 c2 c3 i in Done (t ++ [e])) [].

Definition f_minus_half : float := Eval vm_compute in SFdiv 24 128 (Z_to_float (-1)) (Z_to_float 2).
Definition f_254 : float := Eval vm_compute in Z_to_float 254.

Definition shadow_colour (table : list Z) (sum : float) : ub Z :=
  if sum <. f_zero then Done 0
  else if f_254 <=. sum then rd table 255
  else do* i := float_to_jint sum in rd table (i + 1).

Definition shadow_convolve_pixel (table : list Z) (kvals : list (option float)) (kernelSize : Z) (src : list Z)
    (dcolinc srccols scolinc c : Z) (st : line_state) : ub line_state :=
  do* rgb := (if c <? srccols then rd src (l_srcoff st) else Done 0) in
  do* avals := f_set (l_vals st) (kernelSize - l_koff st) (Z_to_float (chan rgb 24)) in
  let koff := bump_koff kernelSize (l_koff st) in
  do* sum := for_to kernelSize (fun i sum =>
               do* a := rdf avals i in do* k := rdf kvals (koff + i) in Done (fadd sum (fmul a k))) f_minus_half in
  do* p := shadow_colour table sum in
  do* dst := wr (l_dst st) (l_dstoff st) p in
  do* dstoff := iadd (l_dstoff st) dcolinc in
  do* srcoff := iadd (l_srcoff st) scolinc in
  Done (mkLine dstoff srcoff koff avals dst).

Definition shadow_convolve_line (table : list Z) (kvals : list (option float)) (kernelSize : Z) (src : list Z)
    (dstcols dcolinc drowinc srccols scolinc srowinc r : Z)
    (st : Z * Z * list (option float) * list Z) : ub (Z * Z * list (option float) * list Z) :=
  let '(dstrow, srcrow, avals, dst) := st in
  do* avals := for_to kernelSize (fun i avals => f_set avals i f_zero) avals in
  do* st := for_to dstcols (shadow_convolve_pixel table kvals kernelSize src dcolinc srccols scolinc)
              (mkLine dstrow srcrow kernelSize avals dst) in
  do* dstrow := iadd dstrow drowinc in
  do* srcrow := iadd srcrow srowinc in
  Done (dstrow, srcrow, l_vals st, l_dst st).

Definition shadow_filterHV (env : JNIEnv)
    (dstPixels_arr : jintArray) (dstcols dstrows dcolinc drowinc : Z)
    (srcPixels_arr : jintArray) (srccols srcrows scolinc srowinc : Z)
    (kvals_arr shadowColor_arr : list float) : ub filtered :=
  match dstPixels_arr, srcPixels_arr with
  | Some dst, Some src =>
      if checkRange dstPixels_arr dstcols dstrows srcPixels_arr srccols srcrows || (dstrows >? srcrows) then Done (dst, [])
      else
        let kernelSize := Z.of_nat (length kvals_arr) ÷ 2 in
        if kernelSize >? 128 then Done (dst, [])
        else
          let kvals := kernel_values kvals_arr kernelSize in
          let shadowColor := GetFloatArrayRegion shadowColor_arr 4 in
          do* c0 := rdf shadowColor 0 in do* c1 := rdf shadowColor 1 in
          do* c2 := rdf shadowColor 2 in do* c3 := rdf shadowColor 3 in
          do* table := shadow_table c0 c1 c2 c3 in
          with_pixels env dst src
            (do* '(_, _, _, dst) :=
               for_to dstrows (shadow_convolve_line table kvals kernelSize src dstcols dcolinc drowinc srccols scolinc srowinc)
                 (0, 0, local_floats 128, dst) in
             Done dst)
  | _, _ => Done (default [] dstPixels_arr, [])
  end.

(** ** The circular buffer *)

(** How far back the column that slot [i] holds lies, once column [c] is
    stored; and the column slot [i] holds before that. *)
Definition age (K c i : Z) : Z := (c - i) mod K.
Definition held (K c i : Z) : Z := c - 1 - age K (c - 1) i.
(** [koff] at the start of column [c]. *)
Definition koff_at (K c : Z) : Z := K - c mod K.

Lemma age_range K c i : 0 < K -> 0 <= age K c i < K.
Proof. intros H. apply Z.mod_pos_bound. exact H. Qed.

Lemma age_cases K c i :
  0 < K -> 0 <= i < K -> age K c i = if i <=? c mod K then c mod K - i else c mod K - i + K.
Proof.
  intros HK Hi. unfold age. pose proof (Z.div_mod c K ltac:(lia)) as D. pose proof (Z.mod_pos_bound c K HK) as B.
  destruct (Z.leb_spec i (c mod K)); symmetry.
  - apply (Z.mod_unique_pos _ _ (c / K)); lia.
  - apply (Z.mod_unique_pos _ _ (c / K - 1)); lia.
Qed.

Lemma mod_succ K c : 0 < K -> (c + 1) mod K = if c mod K =? K - 1 then 0 else c mod K + 1.
Proof.
  intros HK. pose proof (Z.div_mod c K ltac:(lia)) as D. pose proof (Z.mod_pos_bound c K HK) as B.
  destruct (Z.eqb_spec (c mod K) (K - 1)); symmetry.
  - apply (Z.mod_unique_pos _ _ (c / K + 1)); lia.
  - apply (Z.mod_unique_pos _ _ (c / K)); lia.
Qed.

(** Storing column [c] in its slot makes every slot hold its column. *)
Lemma held_next K c i :
  0 < K -> 0 <= i < K -> held K (c + 1) i = if i =? c mod K then c else held K c i.
Proof.
  intros HK Hi. unfold held. replace (c + 1 - 1) with c by lia. pose proof (Z.mod_pos_bound c K HK) as B.
  pose proof (mod_succ K (c - 1) HK) as S. replace (c - 1 + 1) with c in S by lia.
  pose proof (Z.mod_pos_bound (c - 1) K HK) as B'. rewrite !age_cases by assumption.
  destruct (Z.eqb_spec i (c mod K)), (Z.eqb_spec ((c - 1) mod K) (K - 1)),
    (Z.leb_spec i (c mod K)), (Z.leb_spec i ((c - 1) mod K)); lia.
Qed.

Lemma bump_koff_at K c : 0 < K -> bump_koff K (koff_at K c) = koff_at K (c + 1).
Proof.
  intros HK. unfold bump_koff, koff_at. rewrite mod_succ by exact HK. pose proof (Z.mod_pos_bound c K HK).
  destruct (Z.leb_spec (K - c mod K - 1) 0), (Z.eqb_spec (c mod K) (K - 1)); lia.
Qed.

(** The weight slot [i] meets: the kernel is stored twice, and both candidates
    are the weight for the slot's age. *)
Lemma weight_index K c i :
  0 < K -> 0 <= i < K ->
  koff_at K (c + 1) + i = K - 1 - age K c i \/ koff_at K (c + 1) + i = 2 * K - 1 - age K c i.
Proof.
  intros HK Hi. unfold koff_at. rewrite mod_succ, age_cases by assumption. pose proof (Z.mod_pos_bound c K HK).
  destruct (Z.eqb_spec (c mod K) (K - 1)), (Z.leb_spec i (c mod K)); lia.
Qed.

Lemma held_start K i : 0 < K -> held K 0 i < 0.
Proof. intros HK. unfold held. pose proof (age_range K (0 - 1) i HK). lia. Qed.

(** ** Sums of products that are not negative *)

Definition nonneg (x : float) : Prop := f_number x /\ 0 <= fval x.

Lemma nonneg_zero : nonneg f_zero.
Proof. repeat split. cbn. lia. Qed.

(** At least minus one half, the start of the shadow's sum. *)
Definition above (lo : float) (x : float) : Prop := f_number x /\ fval lo <= fval x.

Lemma fmul_nonneg x y : f_finite x -> f_finite y -> 0 <= fval x -> 0 <= fval y -> nonneg (fmul x y).
Proof.
  intros Fx Fy Hx Hy. pose proof (fmul_rounded x y Fx Fy) as R. split; [eapply f_rounded_number; exact R|].
  eapply rounded_nonneg; [exact R|]. apply Z.mul_nonneg_nonneg; assumption.
Qed.

(** Adding a value that is not negative keeps a finite lower bound that is not
    positive, through overflow to infinity. *)
Lemma fadd_above lo x y :
  f_finite lo -> fval lo <= 0 -> above lo x -> nonneg y -> above lo (fadd x y).
Proof.
  intros Flo Hlo [[Vx Nx] Hx] [[Vy Ny] Hy].
  assert (- 2 ^ 277 < fval lo) as Hb.
  { pose proof (mag_finite 24 128 ltac:(lia) ltac:(lia) lo (proj1 Flo) (proj2 Flo)) as M.
    change (128 + - emin 24 128) with 277 in M. unfold fval, sval. pose proof (mag_nonneg 24 128 lo).
    destruct (sign lo); lia. }
  assert (forall z, f_number z -> fval lo <= fval z -> is_finite z = false -> z = S754_infinity false) as Hinf.
  { intros z [Vz Nz] Hz Fz. destruct z as [s|s| |s m e]; try discriminate. destruct s; [|reflexivity].
    exfalso. assert (fval (S754_infinity true) = - 2 ^ 277) as E by reflexivity. lia. }
  destruct (is_finite x) eqn:Fx; [destruct (is_finite y) eqn:Fy|].
  - pose proof (fadd_rounded x y (conj Vx Fx) (conj Vy Fy)) as R. split; [eapply f_rounded_number; exact R|].
    destruct R as (_ & _ & R).
    apply (R (fval lo) (sval_representable 24 128 lo (proj1 Flo))).
    change (2 ^ (- emin 24 128)) with f_unit. pose proof f_unit_pos. apply Z.mul_le_mono_nonneg_r; lia.
  - rewrite (Hinf y) by (try split; auto; lia). destruct x as [s|s| |s m e]; try discriminate;
      cbn [fadd SFadd]; (split; [split; reflexivity|]);
      pose proof (pow2_pos 277); change (fval (S754_infinity false)) with (2 ^ 277); lia.
  - rewrite (Hinf x) by (try split; auto; lia).
    assert (fadd (S754_infinity false) y = S754_infinity false) as ->.
    { destruct y as [s|s| |s m e]; try discriminate; try reflexivity. destruct s; [|reflexivity].
      exfalso. assert (fval (S754_infinity true) = - 2 ^ 277) as E by reflexivity. pose proof (pow2_pos 277). lia. }
    split; [split; reflexivity|]. pose proof (pow2_pos 277).
    change (fval (S754_infinity false)) with (2 ^ 277). lia.
Qed.

(** ** What a line computes *)

(** The sum over the slots, in their order, of pixel times weight: the pixel
    [d] columns back meets the weight [w d]. *)
Fixpoint conv_sum (w : Z -> float) (f : Z -> Z) (K c sh : Z) (start : float) (n : nat) : float :=
  match n with
  | O => start
  | S n => let d := age K c (Z.of_nat n) in
           fadd (conv_sum w f K c sh start n) (fmul (Z_to_float (chan (f (c - d)) sh)) (w d))
  end.

(** The weight for the distance [d]. *)
Definition weight (weights : list float) (K d : Z) : float := nth (Z.to_nat (K - 1 - d)) weights f_zero.

Definition clamp_byte (f : float) : Z :=
  if f <. cmin then 0 else if f >. cmax then 255 else default 0 (trunc f).

Definition convolved_pixel (weights : list float) (K : Z) (f : Z -> Z) (c : Z) : Z :=
  let part sh := clamp_byte (conv_sum (weight weights K) f K c sh f_zero (Z.to_nat K)) in
  pack (part 24) (part 16) (part 8) (part 0).

(** A kernel as the Java side passes it: [K] weights, twice, finite and not
    negative. *)
Definition kernel (weights : list float) (K : Z) : Prop :=
  0 < K <= 128 /\ Z.of_nat (length weights) = 2 * K /\
  (forall j, 0 <= j < K -> nth (Z.to_nat (K + j)) weights f_zero = nth (Z.to_nat j) weights f_zero) /\
  (forall j, 0 <= j < 2 * K -> f_finite (nth (Z.to_nat j) weights f_zero) /\ 0 <= fval (nth (Z.to_nat j) weights f_zero)).

Lemma nth_rd {A} (l : list A) i d : 0 <= i < Z.of_nat (length l) -> rd l i = Done (nth (Z.to_nat i) l d).
Proof.
  intros H. apply rd_done; [lia|]. destruct (lookup_lt_is_Some_2 l (Z.to_nat i)) as [v E]; [lia|].
  rewrite nth_lookup, E. reflexivity.
Qed.

Lemma kernel_values_read weights K i :
  kernel weights K -> 0 <= i < 2 * K -> rdf (kernel_values weights K) i = Done (nth (Z.to_nat i) weights f_zero).
Proof.
  intros (HK & HL & _) Hi. unfold rdf, kernel_values, GetFloatArrayRegion.
  destruct (Z.leb_spec (K * 2) (Z.of_nat (length weights))); [|lia].
  rewrite (firstn_all2 weights) by lia.
  assert ((map Some weights ++ local_floats (Z.to_nat (256 - K * 2))) !! Z.to_nat i = Some (Some (nth (Z.to_nat i) weights f_zero))) as E.
  { rewrite lookup_app_l by (rewrite length_map; lia). rewrite <- list_fmap_map || idtac.
    destruct (lookup_lt_is_Some_2 weights (Z.to_nat i)) as [v Ev]; [lia|].
    change (map Some weights) with (Some <$> weights). rewrite list_lookup_fmap, nth_lookup, Ev. reflexivity. }
  rewrite (rd_done _ _ _ (proj1 Hi) E). reflexivity.
Qed.

(** The weight read for slot [i] is the weight for its age. *)
Lemma weight_read weights K c i :
  kernel weights K -> 0 <= i < K ->
  rdf (kernel_values weights K) (koff_at K (c + 1) + i) = Done (weight weights K (age K c i)).
Proof.
  intros HK Hi. pose proof HK as (HK1 & HL & HP & _). pose proof (age_range K c i ltac:(lia)) as A. unfold weight.
  destruct (weight_index K c i) as [E|E]; [lia|exact Hi| |]; rewrite E, kernel_values_read by (auto; lia); [reflexivity|].
  f_equal. rewrite <- (HP (K - 1 - age K c i)) by lia. do 2 f_equal. lia.
Qed.

(** *** The buffer of the colour variant: four values per slot. *)

Definition slots (f : Z -> Z) (K c : Z) (vals : list (option float)) : Prop :=
  length vals = 512%nat /\
  forall i n, 0 <= i < K -> 0 <= n < 4 ->
    vals !! Z.to_nat (4 * i + n) = Some (Some (Z_to_float (chan (f (held K c i)) (24 - 8 * n)))).

Lemma f_set_done a i v : 0 <= i < Z.of_nat (length a) -> f_set a i v = Done (<[Z.to_nat i := Some v]> a).
Proof. apply wr_done. Qed.

Lemma slot_read f K c vals i n :
  slots f K c vals -> 0 <= i < K -> 0 <= n < 4 ->
  rdf vals (4 * i + n) = Done (Z_to_float (chan (f (held K c i)) (24 - 8 * n))).
Proof. intros [_ H] Hi Hn. unfold rdf. rewrite (rd_done vals (4 * i + n) _ ltac:(lia) (H i n Hi Hn)). reflexivity. Qed.

(** Storing the four channels of column [c]. *)
Lemma store_pixel f K c vals :
  0 < K <= 128 -> slots f K c vals ->
  let i := (K - koff_at K c) * 4 in let rgb := f c in
  yields (do* v := f_set vals (i + 0) (Z_to_float (chan rgb 24)) in
          do* v := f_set v (i + 1) (Z_to_float (chan rgb 16)) in
          do* v := f_set v (i + 2) (Z_to_float (chan rgb 8)) in
          f_set v (i + 3) (Z_to_float (chan rgb 0))) (slots f K (c + 1)).
Proof.
  intros HK [HL H] i rgb. pose proof (Z.mod_pos_bound c K ltac:(lia)) as B. unfold koff_at in i.
  assert (i = 4 * (c mod K)) as Ei by (unfold i; lia). clearbody i. subst i.
  rewrite f_set_done by lia. cbn [ub_bind]. rewrite f_set_done by (rewrite !length_insert; lia). cbn [ub_bind].
  rewrite f_set_done by (rewrite !length_insert; lia). cbn [ub_bind].
  rewrite f_set_done by (rewrite !length_insert; lia). apply yields_done.
  split; [rewrite !length_insert; exact HL|]. intros j n Hj Hn. rewrite held_next by lia.
  destruct (Z.eqb_spec j (c mod K)) as [->|Hne].
  - assert (n = 0 \/ n = 1 \/ n = 2 \/ n = 3) as [-> | [-> | [-> | ->]]] by lia;
      repeat (rewrite list_lookup_insert_ne by lia); rewrite list_lookup_insert_eq by (rewrite ?length_insert; lia); reflexivity.
  - rewrite !list_lookup_insert_ne by lia. apply H; assumption.
Qed.

(** Clearing the buffer at the start of a line. *)
Lemma clear_slots n k get K vals :
  0 < K <= 128 -> length vals = 512%nat -> k = K * 4 ->
  yields (for_to k (fun i v => f_set v i f_zero) vals) (slots (line n get) K 0).
Proof.
  intros HK HL ->.
  apply (yields_mono _ (fun v => length v = 512%nat /\ forall i, 0 <= i < K * 4 -> v !! Z.to_nat i = Some (Some f_zero))).
  - apply (for_to_yields (fun k v => length v = 512%nat /\ forall i, 0 <= i < k -> v !! Z.to_nat i = Some (Some f_zero))); [lia| |].
    + intros i v Hi [Hl Hv]. rewrite f_set_done by lia. apply yields_done. rewrite length_insert. split; [exact Hl|].
      intros j Hj. destruct (decide (j = i)) as [->|]; [apply list_lookup_insert_eq; lia|].
      rewrite list_lookup_insert_ne by lia. apply Hv. lia.
    + split; [exact HL|]. lia.
  - intros v [Hl Hv]. split; [exact Hl|]. intros i m Hi Hm. rewrite Hv by lia.
    pose proof (held_start K i ltac:(lia)). rewrite line_out by lia. unfold chan. rewrite Z.shiftr_0_l. reflexivity.
Qed.

Lemma held_age K c i : held K (c + 1) i = c - age K c i.
Proof. unfold held. replace (c + 1 - 1) with c by lia. reflexivity. Qed.

(** The loop over the buffer. *)
Lemma weigh_sums f weights K c vals :
  kernel weights K -> slots f K (c + 1) vals ->
  let sum sh := conv_sum (weight weights K) f K c sh f_zero (Z.to_nat K) in
  for_to K (weigh (kernel_values weights K) vals (koff_at K (c + 1))) (mkFsums f_zero f_zero f_zero f_zero) =
  Done (mkFsums (sum 24) (sum 16) (sum 8) (sum 0)).
Proof.
  intros HK Hs sum. pose proof HK as (HK1 & _).
  set (at_ := fun j => mkFsums (conv_sum (weight weights K) f K c 24 f_zero (Z.to_nat j)) (conv_sum (weight weights K) f K c 16 f_zero (Z.to_nat j))
    (conv_sum (weight weights K) f K c 8 f_zero (Z.to_nat j)) (conv_sum (weight weights K) f K c 0 f_zero (Z.to_nat j))).
  destruct (for_to_yields (fun j s => s = at_ j) K (weigh (kernel_values weights K) vals (koff_at K (c + 1)))
    (mkFsums f_zero f_zero f_zero f_zero)) as (s & -> & ->); [lia| |reflexivity|reflexivity].
  intros j s Hj ->. unfold weigh. rewrite weight_read by assumption. cbn [ub_bind].
  rewrite !(slot_read f K (c + 1)) by (auto; lia). cbn [ub_bind]. rewrite held_age. apply yields_done.
  unfold at_. replace (Z.to_nat (j + 1)) with (S (Z.to_nat j)) by lia. cbn [conv_sum fsuma fsumr fsumg fsumb].
  rewrite Z2Nat.id by lia. reflexivity.
Qed.

(** ** The value of a pixel *)

Lemma conv_sum_above lo w f K c sh n :
  0 < K -> f_finite lo -> fval lo <= 0 ->
  (forall d, 0 <= d < K -> f_finite (w d) /\ 0 <= fval (w d)) -> above lo (conv_sum w f K c sh lo n).
Proof.
  intros HK Flo Hlo Hw. induction n as [|n IH]; cbn [conv_sum].
  - split; [apply f_finite_number; exact Flo|lia].
  - destruct (Hw _ (age_range K c (Z.of_nat n) HK)) as [Fw Pw].
    pose proof (chan_range (f (c - age K c (Z.of_nat n))) sh) as B.
    destruct (Z_to_float_exact (chan (f (c - age K c (Z.of_nat n))) sh)) as [Fc Vc]; [lia|].
    apply fadd_above; [exact Flo|exact Hlo|exact IH|]. apply fmul_nonneg; try assumption.
    rewrite Vc. pose proof f_unit_pos. apply Z.mul_nonneg_nonneg; lia.
Qed.

Lemma kernel_weights weights K d : kernel weights K -> 0 <= d < K ->
  f_finite (weight weights K d) /\ 0 <= fval (weight weights K d).
Proof. intros (HK & _ & _ & H) Hd. apply H. lia. Qed.

Lemma f_below_finite x hi : f_number x -> - 2 ^ 24 * f_unit <= fval x -> fval x <= hi * f_unit -> hi <= 2 ^ 24 -> f_finite x.
Proof.
  intros [Vx Nx] Hl Hh Hi. split; [exact Vx|]. apply (sval_is_finite 24 128); [exact Nx|]. fold (fval x).
  replace (2 ^ (128 + - emin 24 128)) with (2 ^ 128 * f_unit) by (unfold f_unit; rewrite <- Z.pow_add_r by lia; reflexivity).
  pose proof f_unit_pos. change (2 ^ 24) with 16777216 in *.
  set (b := 2 ^ 128). assert (16777216 < b) by reflexivity. clearbody b. nia.
Qed.

Lemma fvaltobyte_done f : nonneg f -> fvaltobyte f = Done (clamp_byte f) /\ 0 <= clamp_byte f <= 255.
Proof.
  intros [Nf Pf]. assert (f_number cmin /\ fval cmin = f_unit) as [N1 E1] by (split; [split; reflexivity|reflexivity]).
  assert (f_number cmax /\ fval cmax <= 255 * f_unit) as [N2 E2] by (split; [split; reflexivity|apply Z.leb_le; vm_compute; reflexivity]).
  unfold fvaltobyte, clamp_byte. rewrite !fltb_spec by assumption. rewrite E1.
  destruct (Z.ltb_spec (fval f) f_unit); [split; [reflexivity|lia]|].
  destruct (Z.ltb_spec (fval cmax) (fval f)); [split; [reflexivity|lia]|]. pose proof f_unit_pos.
  destruct (float_to_jint_between f 1 255) as [E B]; [|lia|unfold INT_MIN; lia|unfold INT_MAX; lia|].
  - apply (f_below_finite f 255); [exact Nf|lia|lia|lia].
  - split; [exact E|lia].
Qed.

(** ** The colour variant *)

(** Pixel [c] of line [r]. *)
Definition grid (colinc rowinc c r : Z) : Z := r * rowinc + c * colinc.
Definition source_line (src : list Z) (srccols scolinc srowinc r : Z) : Z -> Z :=
  line srccols (fun c => pixel src (grid scolinc srowinc c r)).

(** The lines of the two images are inside their arrays, those of the
    destination do not overlap, and the offsets fit an [int]. *)
Definition sound_lines (dst : list Z) (dstcols dstrows dcolinc drowinc : Z)
    (src : list Z) (srccols srcrows scolinc srowinc : Z) : Prop :=
  raster (grid dcolinc drowinc) dstcols dstrows (Z.of_nat (length dst)) /\
  (forall c r, in_image srccols srcrows c r -> 0 <= grid scolinc srowinc c r < Z.of_nat (length src)) /\
  0 <= dcolinc /\ 0 <= drowinc /\ 0 <= scolinc /\ 0 <= srowinc /\
  dstrows * drowinc + dstcols * dcolinc <= INT_MAX /\ dstrows * srowinc + dstcols * scolinc <= INT_MAX.

Section Lines.

Context (dst : list Z) (dstcols dstrows dcolinc drowinc : Z).
Context (src : list Z) (srccols srcrows scolinc srowinc : Z) (weights : list float) (K : Z).
Context (OK : sound_lines dst dstcols dstrows dcolinc drowinc src srccols srcrows scolinc srowinc).
Context (Hcols : 0 < dstcols) (Hrows : 0 < dstrows <= srcrows) (HK : kernel weights K).

Local Abbreviation kvals := (kernel_values weights K).
Local Abbreviation src_line := (source_line src srccols scolinc srowinc).

Lemma line_read r c :
  0 <= r < dstrows -> 0 <= c ->
  (if c <? srccols then rd src (grid scolinc srowinc c r) else Done 0) = Done (src_line r c).
Proof using OK Hrows.
  destruct OK as (_ & S & _). intros Hr Hc. unfold source_line.
  destruct (Z.ltb_spec c srccols); [|rewrite line_out by lia; reflexivity].
  rewrite line_in by lia. apply rd_pixel, S. split; lia.
Qed.

(** Moving to the next column stays in range. *)
Lemma next_offsets r c :
  0 <= r < dstrows -> 0 <= c < dstcols ->
  iadd (grid dcolinc drowinc c r) dcolinc = Done (grid dcolinc drowinc (c + 1) r) /\
  iadd (grid scolinc srowinc c r) scolinc = Done (grid scolinc srowinc (c + 1) r).
Proof using OK.
  destruct OK as (_ & _ & O1 & O2 & O3 & O4 & O5 & O6). intros Hr Hc. unfold iadd, grid.
  pose proof (row_range r dstrows drowinc Hr O2). pose proof (row_range c dstcols dcolinc Hc O1).
  pose proof (row_range r dstrows srowinc Hr O4). pose proof (row_range c dstcols scolinc Hc O3).
  rewrite !jint_done by (unfold INT_MIN; lia). split; f_equal; lia.
Qed.

Lemma next_rows r :
  0 <= r < dstrows ->
  iadd (grid dcolinc drowinc 0 r) drowinc = Done (grid dcolinc drowinc 0 (r + 1)) /\
  iadd (grid scolinc srowinc 0 r) srowinc = Done (grid scolinc srowinc 0 (r + 1)).
Proof using OK Hcols.
  destruct OK as (_ & _ & O1 & O2 & O3 & O4 & O5 & O6). intros Hr. unfold iadd, grid.
  pose proof (row_range r dstrows drowinc Hr O2). pose proof (row_range r dstrows srowinc Hr O4).
  pose proof (Z.mul_nonneg_nonneg dstcols dcolinc ltac:(lia) O1). pose proof (Z.mul_nonneg_nonneg dstcols scolinc ltac:(lia) O3).
  rewrite !jint_done by (unfold INT_MIN; lia). split; f_equal; lia.
Qed.

Local Abbreviation out := (fun c r => convolved_pixel weights K (src_line r) c).

(** The loop state before column [c] of line [r]. *)
Definition line_inv (slots_ : (Z -> Z) -> Z -> Z -> list (option float) -> Prop) (out : Z -> Z -> Z)
    (r c : Z) (st : line_state) : Prop :=
  l_dstoff st = grid dcolinc drowinc c r /\ l_srcoff st = grid scolinc srowinc c r /\ l_koff st = koff_at K c /\
  slots_ (src_line r) K c (l_vals st) /\ painted (rows_before dstcols r c) (grid dcolinc drowinc) out dst (l_dst st).

Lemma convolve_pixel_yields r c st :
  0 <= r < dstrows -> 0 <= c < dstcols -> line_inv slots out r c st ->
  yields (convolve_pixel kvals K src dcolinc srccols scolinc c st) (line_inv slots out r (c + 1)).
Proof using OK Hcols Hrows HK.
  intros Hr Hc (I1 & I2 & I3 & I4 & I5). pose proof HK as (HK1 & _).
  unfold convolve_pixel. rewrite I2, line_read by lia. cbn [ub_bind]. rewrite I3.
  pose proof (store_pixel _ K c _ HK1 I4) as (v & E & Hv). cbv zeta in E.
  destruct (f_set (l_vals st) _ _) as [v1|]; [|discriminate]. cbn [ub_bind] in *.
  destruct (f_set v1 _ _) as [v2|]; [|discriminate]. cbn [ub_bind] in *.
  destruct (f_set v2 _ _) as [v3|]; [|discriminate]. cbn [ub_bind] in *. rewrite E. cbn [ub_bind].
  rewrite bump_koff_at, (weigh_sums (src_line r)) by (auto; lia). cbn [ub_bind fsuma fsumr fsumg fsumb].
  assert (forall sh, nonneg (conv_sum (weight weights K) (src_line r) K c sh f_zero (Z.to_nat K))) as Hs.
  { intros sh. apply (conv_sum_above f_zero); [lia|split; reflexivity|cbn; lia|].
    intros d Hd. apply kernel_weights; assumption. }
  destruct (fvaltobyte_done _ (Hs 24)) as [-> B1], (fvaltobyte_done _ (Hs 16)) as [-> B2].
  destruct (fvaltobyte_done _ (Hs 8)) as [-> B3], (fvaltobyte_done _ (Hs 0)) as [-> B4]. cbn [ub_bind].
  rewrite pack_done by assumption. cbn [ub_bind]. rewrite I1.
  eapply yields_bind.
  - apply (painted_step (grid dcolinc drowinc) dstcols dstrows (rows_before dstcols r c) out dst (l_dst st) c r).
    + apply OK.
    + intros c' r'. apply rows_inside; lia.
    + split; lia.
    + exact I5.
  - intros d Hd. destruct (next_offsets r c Hr Hc) as [-> ->]. cbn [ub_bind]. apply yields_done.
    split; [reflexivity|]. split; [reflexivity|]. split; [reflexivity|]. split; [exact Hv|].
    eapply painted_ext; [|exact Hd]. intros c' r'. apply rows_pixel. lia.
Qed.

(** The state between two lines. *)
Definition lines_inv (size : nat) (out : Z -> Z -> Z) (r : Z) (st : Z * Z * list (option float) * list Z) : Prop :=
  let '(dstrow, srcrow, vals, d) := st in
  dstrow = grid dcolinc drowinc 0 r /\ srcrow = grid scolinc srowinc 0 r /\ length vals = size /\
  painted (rows_before dstcols r 0) (grid dcolinc drowinc) out dst d.

Lemma koff_start : koff_at K 0 = K.
Proof using HK. destruct HK as (HK1 & _). unfold koff_at. rewrite Z.mod_0_l by lia. lia. Qed.

Lemma convolve_line_yields r st :
  0 <= r < dstrows -> lines_inv 512 out r st ->
  yields (convolve_line kvals K src dstcols dcolinc drowinc srccols scolinc srowinc r st) (lines_inv 512 out (r + 1)).
Proof using OK Hcols Hrows HK.
  intros Hr. destruct st as [[[dstrow srcrow] vals] d]. intros (-> & -> & Hl & Hd). unfold convolve_line.
  eapply yields_bind; [apply (clear_slots srccols _ (fun c => pixel src (grid scolinc srowinc c r)) K); [apply HK|exact Hl|reflexivity]|].
  intros v Hv. eapply yields_bind.
  - apply (for_to_yields (line_inv slots out r)); [lia| |].
    + intros c st Hc. apply convolve_pixel_yields; assumption.
    + split; [reflexivity|]. split; [reflexivity|]. split; [symmetry; apply koff_start|]. split; [exact Hv|exact Hd].
  - intros st (_ & _ & _ & Hs & Hp). destruct (next_rows r Hr) as [-> ->]. cbn [ub_bind]. apply yields_done.
    split; [reflexivity|]. split; [reflexivity|]. split; [apply Hs|].
    eapply painted_ext; [|exact Hp]. intros c' r'. apply rows_line. lia.
Qed.

Lemma convolve_loops :
  yields (do* '(_, _, _, dst) :=
            for_to dstrows (convolve_line kvals K src dstcols dcolinc drowinc srccols scolinc srowinc)
              (0, 0, local_floats 512, dst) in Done dst)
    (painted (in_image dstcols dstrows) (grid dcolinc drowinc) out dst).
Proof using OK Hcols Hrows HK.
  eapply yields_bind.
  - apply (for_to_yields (lines_inv 512 out)); [lia| |].
    + intros r st Hr. apply convolve_line_yields; assumption.
    + split; [reflexivity|]. split; [reflexivity|]. split; [reflexivity|].
      eapply painted_ext; [|apply painted_none]. intros c r. symmetry. apply rows_start.
  - intros [[[dstrow srcrow] v] d] (_ & _ & _ & Hd). apply yields_done.
    eapply painted_ext; [|exact Hd]. intros c r. apply rows_end.
Qed.

(** ** The shadow variant *)

(** Entry [i] of the table of shadow colours. *)
Definition shadow_rgb (c0 c1 c2 c3 : float) (i : Z) : Z :=
  let part c := default 0 (trunc (fmul c (Z_to_float i))) in pack (part c3) (part c0) (part c1) (part c2).

Definition shadow_pixel (c0 c1 c2 c3 : float) (weights : list float) (K : Z) (f : Z -> Z) (c : Z) : Z :=
  let sum := conv_sum (weight weights K) f K c 24 f_minus_half (Z.to_nat K) in
  if sum <. f_zero then 0
  else shadow_rgb c0 c1 c2 c3 (if f_254 <=. sum then 255 else default 0 (trunc sum) + 1).

Lemma part_fraction c i :
  fraction c -> 0 <= i <= 255 ->
  float_to_jint (fmul c (Z_to_float i)) = Done (default 0 (trunc (fmul c (Z_to_float i)))) /\
  0 <= default 0 (trunc (fmul c (Z_to_float i))) <= 255.
Proof using Type.
  intros Hc Hi. destruct (fraction_val c Hc) as [Fc Vc]. destruct (Z_to_float_exact i ltac:(lia)) as [Fn Vn].
  pose proof f_unit_pos as Hu.
  destruct (f_rounded_between _ _ 0 255 (fmul_rounded _ _ Fc Fn)) as [Ff Vf]; [lia..| |].
  - rewrite Vn. set (u := f_unit) in *. clearbody u.
    assert (0 <= i * u <= 255 * u) by (split; [apply Z.mul_nonneg_nonneg|apply Z.mul_le_mono_nonneg_r]; lia).
    assert (0 <= fval c * (i * u) <= u * (255 * u)) by (split; [apply Z.mul_nonneg_nonneg|apply Z.mul_le_mono_nonneg]; lia). lia.
  - apply float_to_jint_between; [exact Ff|exact Vf|unfold INT_MIN; lia|unfold INT_MAX; lia].
Qed.

Lemma shadow_table_done c0 c1 c2 c3 :
  Forall fraction [c0; c1; c2; c3] ->
  shadow_table c0 c1 c2 c3 = Done (map (fun i => shadow_rgb c0 c1 c2 c3 (Z.of_nat i)) (seq 0 256)).
Proof using Type.
  intros H. apply Forall_cons in H as [F0 H]. apply Forall_cons in H as [F1 H].
  apply Forall_cons in H as [F2 H]. apply Forall_cons in H as [F3 _].
  destruct (for_to_yields (fun n t => t = map (fun i => shadow_rgb c0 c1 c2 c3 (Z.of_nat i)) (seq 0 (Z.to_nat n))) 256
    (fun i t => do* e := shadow_entry c0 c1 c2 c3 i in Done (t ++ [e])) []) as (t & E & ->); [lia| |reflexivity|exact E].
  intros i t Hi ->. unfold shadow_entry.
  destruct (part_fraction c0 i F0 ltac:(lia)) as [-> B0], (part_fraction c1 i F1 ltac:(lia)) as [-> B1],
    (part_fraction c2 i F2 ltac:(lia)) as [-> B2], (part_fraction c3 i F3 ltac:(lia)) as [-> B3]. cbn [ub_bind].
  rewrite !ishl_channel by lia. cbn [ub_bind]. rewrite lor_last, lor_pack by assumption. apply yields_done.
  replace (Z.to_nat (i + 1)) with (S (Z.to_nat i)) by lia. rewrite seq_S, map_app. cbn [map].
  f_equal. f_equal. unfold shadow_rgb. cbn [Nat.add]. rewrite Z2Nat.id by lia. reflexivity.
Qed.

Lemma table_read c0 c1 c2 c3 i :
  0 <= i < 256 ->
  rd (map (fun i => shadow_rgb c0 c1 c2 c3 (Z.of_nat i)) (seq 0 256)) i = Done (shadow_rgb c0 c1 c2 c3 i).
Proof using Type.
  intros Hi. apply rd_done; [lia|].
  change (map (fun i => shadow_rgb c0 c1 c2 c3 (Z.of_nat i)) (seq 0 256))
    with ((fun i => shadow_rgb c0 c1 c2 c3 (Z.of_nat i)) <$> seq 0 256).
  rewrite list_lookup_fmap, lookup_seq_lt by lia. cbn [fmap option_fmap option_map]. do 2 f_equal. lia.
Qed.

Lemma shadow_colour_done c0 c1 c2 c3 sum :
  above f_minus_half sum ->
  shadow_colour (map (fun i => shadow_rgb c0 c1 c2 c3 (Z.of_nat i)) (seq 0 256)) sum =
  Done (if sum <. f_zero then 0 else shadow_rgb c0 c1 c2 c3 (if f_254 <=. sum then 255 else default 0 (trunc sum) + 1)).
Proof using Type.
  intros [Ns _]. assert (f_number f_254 /\ fval f_254 = 254 * f_unit) as [N2 E2] by (split; [split; reflexivity|reflexivity]).
  destruct f_zero_number as [N0 E0]. unfold shadow_colour.
  rewrite fltb_spec, fleb_spec by assumption. rewrite E0, E2.
  destruct (Z.ltb_spec (fval sum) 0); [reflexivity|].
  destruct (Z.leb_spec (254 * f_unit) (fval sum)); [apply table_read; lia|].
  pose proof f_unit_pos.
  destruct (float_to_jint_between sum 0 254) as [-> B]; [|lia|unfold INT_MIN; lia|unfold INT_MAX; lia|].
  - apply (f_below_finite sum 254); [exact Ns|lia|lia|lia].
  - cbn [ub_bind]. apply table_read. lia.
Qed.

(** The buffer: one value per slot. *)
Definition slots1 (f : Z -> Z) (K c : Z) (vals : list (option float)) : Prop :=
  length vals = 128%nat /\
  forall i, 0 <= i < K -> vals !! Z.to_nat i = Some (Some (Z_to_float (chan (f (held K c i)) 24))).

Lemma clear_slots1 n get K' vals :
  0 < K' <= 128 -> length vals = 128%nat ->
  yields (for_to K' (fun i v => f_set v i f_zero) vals) (slots1 (line n get) K' 0).
Proof using Type.
  intros HK' HL.
  apply (yields_mono _ (fun v => length v = 128%nat /\ forall i, 0 <= i < K' -> v !! Z.to_nat i = Some (Some f_zero))).
  - apply (for_to_yields (fun k v => length v = 128%nat /\ forall i, 0 <= i < k -> v !! Z.to_nat i = Some (Some f_zero))); [lia| |].
    + intros i v Hi [Hl Hv]. rewrite f_set_done by lia. apply yields_done. rewrite length_insert. split; [exact Hl|].
      intros j Hj. destruct (decide (j = i)) as [->|]; [apply list_lookup_insert_eq; lia|].
      rewrite list_lookup_insert_ne by lia. apply Hv. lia.
    + split; [exact HL|]. lia.
  - intros v [Hl Hv]. split; [exact Hl|]. intros i Hi. rewrite Hv by lia.
    pose proof (held_start K' i ltac:(lia)). rewrite line_out by lia. reflexivity.
Qed.

Lemma store_alpha f K' c vals :
  0 < K' <= 128 -> slots1 f K' c vals ->
  yields (f_set vals (K' - koff_at K' c) (Z_to_float (chan (f c) 24))) (slots1 f K' (c + 1)).
Proof using Type.
  intros HK' [HL H]. pose proof (Z.mod_pos_bound c K' ltac:(lia)) as B. unfold koff_at.
  replace (K' - (K' - c mod K')) with (c mod K') by lia. rewrite f_set_done by lia. apply yields_done.
  split; [rewrite length_insert; exact HL|]. intros j Hj. rewrite held_next by lia.
  destruct (Z.eqb_spec j (c mod K')) as [->|Hne]; [apply list_lookup_insert_eq; lia|].
  rewrite list_lookup_insert_ne by lia. apply H. exact Hj.
Qed.

Lemma weigh_alpha f c vals :
  slots1 f K (c + 1) vals ->
  for_to K (fun i sum => do* a := rdf vals i in do* k := rdf kvals (koff_at K (c + 1) + i) in Done (fadd sum (fmul a k))) f_minus_half =
  Done (conv_sum (weight weights K) f K c 24 f_minus_half (Z.to_nat K)).
Proof using HK.
  intros [HL Hs]. pose proof HK as (HK1 & _).
  destruct (for_to_yields (fun j s => s = conv_sum (weight weights K) f K c 24 f_minus_half (Z.to_nat j)) K
    (fun i sum => do* a := rdf vals i in do* k := rdf kvals (koff_at K (c + 1) + i) in Done (fadd sum (fmul a k))) f_minus_half)
    as (s & -> & ->); [lia| |reflexivity|reflexivity].
  intros j s Hj ->. unfold rdf at 1. rewrite (rd_done vals j _ ltac:(lia) (Hs j Hj)). cbn [ub_bind].
  rewrite weight_read by assumption. cbn [ub_bind]. rewrite held_age. apply yields_done.
  replace (Z.to_nat (j + 1)) with (S (Z.to_nat j)) by lia. cbn [conv_sum]. rewrite Z2Nat.id by lia. reflexivity.
Qed.

Context (c0 c1 c2 c3 : float).

Local Abbreviation table := (map (fun i => shadow_rgb c0 c1 c2 c3 (Z.of_nat i)) (seq 0 256)).
Local Abbreviation out1 := (fun c r => shadow_pixel c0 c1 c2 c3 weights K (src_line r) c).

Lemma shadow_pixel_yields r c st :
  0 <= r < dstrows -> 0 <= c < dstcols -> line_inv slots1 out1 r c st ->
  yields (shadow_convolve_pixel table kvals K src dcolinc srccols scolinc c st) (line_inv slots1 out1 r (c + 1)).
Proof using OK Hcols Hrows HK.
  intros Hr Hc (I1 & I2 & I3 & I4 & I5). pose proof HK as (HK1 & _).
  unfold shadow_convolve_pixel. rewrite I2, line_read by lia. cbn [ub_bind]. rewrite I3.
  destruct (store_alpha _ K c _ HK1 I4) as (v & -> & Hv). cbn [ub_bind].
  rewrite bump_koff_at, (weigh_alpha (src_line r)) by (auto; lia). cbn [ub_bind].
  rewrite shadow_colour_done.
  2: { apply conv_sum_above; [lia|split; reflexivity| |intros d Hd; apply kernel_weights; assumption].
       apply Z.leb_le. vm_compute. reflexivity. }
  cbn [ub_bind]. rewrite I1.
  eapply yields_bind.
  - apply (painted_step (grid dcolinc drowinc) dstcols dstrows (rows_before dstcols r c) out1 dst (l_dst st) c r).
    + apply OK.
    + intros c' r'. apply rows_inside; lia.
    + split; lia.
    + exact I5.
  - intros d Hd. destruct (next_offsets r c Hr Hc) as [-> ->]. cbn [ub_bind]. apply yields_done.
    split; [reflexivity|]. split; [reflexivity|]. split; [reflexivity|]. split; [exact Hv|].
    eapply painted_ext; [|exact Hd]. intros c' r'. apply rows_pixel. lia.
Qed.

Lemma shadow_line_yields r st :
  0 <= r < dstrows -> lines_inv 128 out1 r st ->
  yields (shadow_convolve_line table kvals K src dstcols dcolinc drowinc srccols scolinc srowinc r st) (lines_inv 128 out1 (r + 1)).
Proof using OK Hcols Hrows HK.
  intros Hr. destruct st as [[[dstrow srcrow] vals] d]. intros (-> & -> & Hl & Hd). unfold shadow_convolve_line.
  eapply yields_bind; [apply (clear_slots1 srccols (fun c => pixel src (grid scolinc srowinc c r)) K); [apply HK|exact Hl]|].
  intros v Hv. eapply yields_bind.
  - apply (for_to_yields (line_inv slots1 out1 r)); [lia| |].
    + intros c st Hc. apply shadow_pixel_yields; assumption.
    + split; [reflexivity|]. split; [reflexivity|]. split; [symmetry; apply koff_start|]. split; [exact Hv|exact Hd].
  - intros st (_ & _ & _ & Hs & Hp). destruct (next_rows r Hr) as [-> ->]. cbn [ub_bind]. apply yields_done.
    split; [reflexivity|]. split; [reflexivity|]. split; [apply Hs|].
    eapply painted_ext; [|exact Hp]. intros c' r'. apply rows_line. lia.
Qed.

Lemma shadow_loops :
  yields (do* '(_, _, _, dst) :=
            for_to dstrows (shadow_convolve_line table kvals K src dstcols dcolinc drowinc srccols scolinc srowinc)
              (0, 0, local_floats 128, dst) in Done dst)
    (painted (in_image dstcols dstrows) (grid dcolinc drowinc) out1 dst).
Proof using OK Hcols Hrows HK.
  eapply yields_bind.
  - apply (for_to_yields (lines_inv 128 out1)); [lia| |].
    + intros r st Hr. apply shadow_line_yields; assumption.
    + split; [reflexivity|]. split; [reflexivity|]. split; [reflexivity|].
      eapply painted_ext; [|apply painted_none]. intros c r. symmetry. apply rows_start.
  - intros [[[dstrow srcrow] v] d] (_ & _ & _ & Hd). apply yields_done.
    eapply painted_ext; [|exact Hd]. intros c r. apply rows_end.
Qed.

End Lines.

(** ** The entry points *)

Lemma checked_positive dst dstcols dstrows src srccols srcrows :
  checkRange (Some dst) dstcols dstrows (Some src) srccols srcrows = false ->
  0 < dstcols /\ 0 < dstrows /\ 0 < srccols /\ 0 < srcrows.
Proof. intros H. apply checkRange_accepts in H. lia. Qed.

Lemma kernel_size weights K :
  kernel weights K -> Z.of_nat (length weights) ÷ 2 = K /\ (K >? 128) = false.
Proof.
  intros (HK & HL & _). rewrite HL, Z.gtb_ltb. split; [rewrite Z.mul_comm; apply Z.quot_mul; lia|apply Z.ltb_ge; lia].
Qed.

(** C18: [filterHV] convolves: with a kernel of at most 128 weights passed
    twice, and lines inside their arrays, the run is defined (no index of the
    circular buffer, the kernel or an image escapes, and every sum converts to
    a byte); pixel [c] of every destination line is the sum of the source pixels
    [d] columns back times the weight for [d], clamped, and nothing else of the
    destination changes. *)
Theorem filterHV_is_convolution env dst dstcols dstrows dcolinc drowinc src srccols srcrows scolinc srowinc weights K
  (Hpin : src_pinned env = true /\ dst_pinned env = true)
  (OK : sound_lines dst dstcols dstrows dcolinc drowinc src srccols srcrows scolinc srowinc)
  (Hchecked : checkRange (Some dst) dstcols dstrows (Some src) srccols srcrows = false)
  (Hrows : dstrows <= srcrows) (HK : kernel weights K) :
  yields (filterHV env (Some dst) dstcols dstrows dcolinc drowinc (Some src) srccols srcrows scolinc srowinc weights)
    (fun '(d, trace) => trace = both_released /\
       painted (in_image dstcols dstrows) (grid dcolinc drowinc)
         (fun c r => convolved_pixel weights K (source_line src srccols scolinc srowinc r) c) dst d).
Proof.
  destruct (checked_positive _ _ _ _ _ _ Hchecked) as (P1 & P2 & P3 & P4).
  unfold filterHV, with_pixels. rewrite Hchecked, Z.gtb_ltb. destruct (Z.ltb_spec srcrows dstrows); [lia|].
  destruct (kernel_size weights K HK) as [-> ->]. destruct Hpin as [-> ->]. cbn [orb negb].
  eapply yields_bind; [apply (convolve_loops _ _ _ _ _ _ _ srcrows); auto; lia|].
  intros d Hd. apply yields_done. split; [reflexivity|exact Hd].
Qed.

(** The shadow variant convolves the alpha channel, with a sum that starts
    at minus one half, and looks the result up in the table of the shadow
    colour's 256 shades. *)
Theorem shadow_filterHV_is_convolution env dst dstcols dstrows dcolinc drowinc src srccols srcrows scolinc srowinc weights K c0 c1 c2 c3
  (Hpin : src_pinned env = true /\ dst_pinned env = true)
  (OK : sound_lines dst dstcols dstrows dcolinc drowinc src srccols srcrows scolinc srowinc)
  (Hchecked : checkRange (Some dst) dstcols dstrows (Some src) srccols srcrows = false)
  (Hrows : dstrows <= srcrows) (HK : kernel weights K) (Hcolour : Forall fraction [c0; c1; c2; c3]) :
  yields (shadow_filterHV env (Some dst) dstcols dstrows dcolinc drowinc (Some src) srccols srcrows scolinc srowinc weights [c0; c1; c2; c3])
    (fun '(d, trace) => trace = both_released /\
       painted (in_image dstcols dstrows) (grid dcolinc drowinc)
         (fun c r => shadow_pixel c0 c1 c2 c3 weights K (source_line src srccols scolinc srowinc r) c) dst d).
Proof.
  destruct (checked_positive _ _ _ _ _ _ Hchecked) as (P1 & P2 & P3 & P4).
  unfold shadow_filterHV, with_pixels. rewrite Hchecked, Z.gtb_ltb. destruct (Z.ltb_spec srcrows dstrows); [lia|].
  destruct (kernel_size weights K HK) as [-> ->]. destruct Hpin as [-> ->]. cbn [orb negb].
  change (rdf (GetFloatArrayRegion [c0; c1; c2; c3] 4) 0) with (Done c0).
  change (rdf (GetFloatArrayRegion [c0; c1; c2; c3] 4) 1) with (Done c1).
  change (rdf (GetFloatArrayRegion [c0; c1; c2; c3] 4) 2) with (Done c2).
  change (rdf (GetFloatArrayRegion [c0; c1; c2; c3] 4) 3) with (Done c3). cbn [ub_bind].
  rewrite shadow_table_done by assumption. cbn [ub_bind].
  eapply yields_bind; [apply (shadow_loops _ _ _ _ _ _ _ srcrows); auto; lia|].
  intros d Hd. apply yields_done. split; [reflexivity|exact Hd].
Qed.

(** A kernel array shorter than two elements is not rejected: [koff] then
    counts down without wrapping, the buffer index grows with every column, and
    column 128 is stored after the end of the local array. *)
Lemma empty_kernel_overruns :
  filterHV (mkJNIEnv true true) (Some (repeat 0 129)) 129 1 1 129 (Some [0]) 1 1 1 1 [] = Undefined OutOfBounds /\
  shadow_filterHV (mkJNIEnv true true) (Some (repeat 0 129)) 129 1 1 129 (Some [0]) 1 1 1 1 [] [f_one; f_one; f_one; f_one] = Undefined OutOfBounds.
Proof. split; vm_compute; reflexivity. Qed.

(** ** Instances *)

Lemma demo_lines : sound_lines [0;0;0;0] 4 1 1 4 [-1; -1; -1] 3 1 1 3.
Proof.
  unfold sound_lines, raster, in_image, grid, INT_MAX. cbn [length].
  split; [split; intros; lia|]. split; [intros; lia|]. lia.
Qed.

Lemma demo_kernel : kernel [f_half; f_half; f_half; f_half] 2.
Proof.
  unfold kernel. cbn [length]. split; [lia|]. split; [reflexivity|]. split; intros j Hj.
  - assert (j = 0 \/ j = 1) as [-> | ->] by lia; reflexivity.
  - assert (j = 0 \/ j = 1 \/ j = 2 \/ j = 3) as [-> | [-> | [-> | ->]]] by lia;
      (split; [split; reflexivity|apply Z.leb_le; vm_compute; reflexivity]).
Qed.

Lemma filterHV_is_convolution_witness :
  yields (filterHV (mkJNIEnv true true) (Some [0;0;0;0]) 4 1 1 4 (Some [-1; -1; -1]) 3 1 1 3 [f_half; f_half; f_half; f_half])
    (fun '(d, trace) => trace = both_released /\
       painted (in_image 4 1) (grid 1 4)
         (fun c r => convolved_pixel [f_half; f_half; f_half; f_half] 2 (source_line [-1; -1; -1] 3 1 3 r) c) [0;0;0;0] d).
Proof.
  apply (filterHV_is_convolution (mkJNIEnv true true) [0;0;0;0] 4 1 1 4 [-1; -1; -1] 3 1 1 3
    [f_half; f_half; f_half; f_half] 2); [split; reflexivity|exact demo_lines|reflexivity|lia|exact demo_kernel].
Defined.

Lemma shadow_filterHV_is_convolution_witness :
  yields (shadow_filterHV (mkJNIEnv true true) (Some [0;0;0;0]) 4 1 1 4 (Some [-1; -1; -1]) 3 1 1 3
            [f_half; f_half; f_half; f_half] [f_half; f_zero; f_half; f_one])
    (fun '(d, trace) => trace = both_released /\
       painted (in_image 4 1) (grid 1 4)
         (fun c r => shadow_pixel f_half f_zero f_half f_one [f_half; f_half; f_half; f_half] 2
                       (source_line [-1; -1; -1] 3 1 3 r) c) [0;0;0;0] d).
Proof.
  apply (shadow_filterHV_is_convolution (mkJNIEnv true true) [0;0;0;0] 4 1 1 4 [-1; -1; -1] 3 1 1 3
    [f_half; f_half; f_half; f_half] 2 f_half f_zero f_half f_one);
    [split; reflexivity|exact demo_lines|reflexivity|lia|exact demo_kernel|repeat constructor].
Defined.
