(* ===== verification/Sampling.v ===== *)
(** * Sampled convolution ([SSEUtils.cc], [filterVector])

    The general case of the linear convolution walks a vector over the source
    for every destination pixel and samples it bilinearly ([laccumsample]) or
    at the nearest pixel (the shadow variant).  Sample positions are [float]s
    computed by repeated addition.  The theorems show that no sample is read
    outside the source, for any positions: the only undefined step is the
    conversion of a position that does not fit an [int]. *)

From Stdlib Require Import Floats.SpecFloat.
From S2P Require Import Prelude CFloat Float32 DecoraApi Argb Painted BoxBlur BoxShadow Convolve.
Local Open Scope Z_scope.
Local Open Scope ub_scope.

(** ** Samples *)

(** [fvals]: red, green, blue and alpha in the order of their indices. *)
Record fvals := mkFvals { fval_r : float; fval_g : float; fval_b : float; fval_a : float }.
Definition no_fvals : fvals := mkFvals f_zero f_zero f_zero f_zero.

Definition laccum (pixel : Z) (mul : float) (v : fvals) : fvals :=
  let mul := fdiv mul (Z_to_float 255) in
  mkFvals (fadd (fval_r v) (fmul (Z_to_float (chan pixel 16)) mul))
          (fadd (fval_g v) (fmul (Z_to_float (chan pixel 8)) mul))
          (fadd (fval_b v) (fmul (Z_to_float (chan pixel 0)) mul))
          (fadd (fval_a v) (fmul (Z_to_float (chan pixel 24)) mul)).

(** [f_half] added: [floc + 0.5f]. *)
Definition centred (f : float) : float := fadd f f_half.

(** The box of four pixels around a sample, shared by the three samplers: the
    position tests, the fractions and the offsets.  [take i fract v] is the
    accumulation of element [i], [unit] the elements per pixel and [weigh_] the
    factor applied to a fraction. *)
Definition sample_box {V} (take : Z -> float -> V -> ub V) (unit_ : Z) (weigh_ : float -> float)
    (x y : float) (w h scan : Z) (v : V) : ub V :=
  do* ix := float_to_jint x in
  do* iy := float_to_jint y in
  if (x >. f_zero) && (y >. f_zero) && (ix <=? w) && (iy <=? h) then
    let x := fsub x (Z_to_float ix) in
    let y := fsub y (Z_to_float iy) in
    do* row := imul iy scan in
    do* o := iadd row ix in
    do* offset := imul unit_ o in
    let fract := fmul x y in
    do* v := (if iy <? h then
                do* v := (if ix <? w then take offset (weigh_ fract) v else Done v) in
                if ix >? 0 then do* i := isub offset unit_ in take i (weigh_ (fsub y fract)) v else Done v
              else Done v) in
    if iy >? 0 then
      do* back := imul scan unit_ in
      do* up := isub offset back in
      do* v := (if ix <? w then take up (weigh_ (fsub x fract)) v else Done v) in
      if ix >? 0 then
        do* i := isub up unit_ in take i (weigh_ (fadd (fsub (fsub f_one x) y) fract)) v
      else Done v
    else Done v
  else Done v.

Definition lsample (img : list Z) (floc_x floc_y : float) (w h scan : Z) : ub fvals :=
  sample_box (fun i f v => do* p := rd img i in Done (laccum p f v)) 1 (fun f => f)
    (centred (fmul floc_x (Z_to_float w))) (centred (fmul floc_y (Z_to_float h))) w h scan no_fvals.

Definition laccumsample (img : list Z) (fpix_x fpix_y : float) (w h scan : Z) (factor : float) (v : fvals) : ub fvals :=
  let factor := fmul factor (Z_to_float 255) in
  sample_box (fun i f v => do* p := rd img i in Done (laccum p f v)) 1 (fun f => fmul f factor)
    (centred fpix_x) (centred fpix_y) w h scan v.

Definition faccum (map : list float) (offset : Z) (fract : float) (v : fvals) : ub fvals :=
  do* a := rd map offset in
  do* b := rd map (offset + 1) in
  do* c := rd map (offset + 2) in
  do* d := rd map (offset + 3) in
  Done (mkFvals (fadd (fval_r v) (fmul a fract)) (fadd (fval_g v) (fmul b fract))
                (fadd (fval_b v) (fmul c fract)) (fadd (fval_a v) (fmul d fract))).

Definition fsample (map : list float) (floc_x floc_y : float) (w h scan : Z) : ub fvals :=
  sample_box (faccum map) 4 (fun f => f)
    (centred (fmul floc_x (Z_to_float w))) (centred (fmul floc_y (Z_to_float h))) w h scan no_fvals.

(** ** [filterVector] *)

(** One destination pixel of the colour variant: [count] samples from
    [(srcx + offsetx, srcy + offsety)], [(deltax, deltay)] apart. *)
Definition vector_pixel (src : list Z) (srcw srch srcscan : Z) (weights : list (option float)) (count : Z)
    (offsetx offsety deltax deltay srcx srcy : float) : ub Z :=
  do* '(_, _, v) := for_to count (fun i '(sampx, sampy, v) =>
      do* wt := rdf weights i in
      do* v := laccumsample src sampx sampy srcw srch srcscan wt v in
      Done (fadd sampx deltax, fadd sampy deltay, v))
    (fadd srcx offsetx, fadd srcy offsety, no_fvals) in
  do* a := fvaltobyte (fval_a v) in do* r := fvaltobyte (fval_r v) in
  do* g := fvaltobyte (fval_g v) in do* b := fvaltobyte (fval_b v) in
  do* a := ishl a 24 in do* r := ishl r 16 in do* g := ishl g 8 in do* b := ishl b 0 in
  do* ar := iadd a r in do* arg := iadd ar g in iadd arg b.

(** One destination pixel of the shadow variant: the alphas under the samples,
    without interpolation. *)
Definition f_255 : float := Eval vm_compute in Z_to_float 255.

Definition vector_shadow_pixel (src : list Z) (srcw srch srcscan : Z) (weights : list (option float)) (count : Z)
    (c0 c1 c2 c3 offsetx offsety deltax deltay srcx srcy : float) : ub Z :=
  do* '(_, _, sum) := for_to count (fun i '(sampx, sampy, sum) =>
      do* sum :=
        (if (f_zero <=. sampx) && (f_zero <=. sampy) then
           do* ix := float_to_jint sampx in
           do* iy := float_to_jint sampy in
           if (ix <? srcw) && (iy <? srch) then
             do* row := imul iy srcscan in do* o := iadd row ix in
             do* argb := rd src o in
             do* wt := rdf weights i in
             Done (fadd sum (fmul (Z_to_float (chan argb 24)) wt))
           else Done sum
         else Done sum) in
      Done (fadd sampx deltax, fadd sampy deltay, sum))
    (fadd srcx offsetx, fadd srcy offsety, f_zero) in
  let sum := if sum <. f_zero then f_zero else if sum >. f_255 then f_255 else sum in
  let part c n := do* v := float_to_jint (fmul c sum) in ishl v n in
  do* r := part c0 16 in do* g := part c1 8 in do* b := part c2 0 in do* a := part c3 24 in
  Done (Z.lor (Z.lor (Z.lor r g) b) a).

(** The two loops over the destination, with the pixel at a position as
    [pixel_at]. *)
Definition vector_row (pixel_at : float -> float -> ub Z) (dstw : Z) (dxcol dycol : float) (srcx0 srcy0 : float)
    (dstrow : Z) (dst : list Z) : ub (list Z) :=
  do* '(_, _, dst) := for_to dstw (fun dx '(srcx, srcy, dst) =>
      do* p := pixel_at srcx srcy in
      do* i := iadd dstrow dx in
      do* dst := wr dst i p in
      Done (fadd srcx dxcol, fadd srcy dycol, dst)) (srcx0, srcy0, dst) in
  Done dst.

Definition vector_rows (pixel_at : float -> float -> ub Z) (dst : list Z) (dstw dsth dstscan : Z)
    (srcx0 srcy0 dxcol dycol dxrow dyrow : float) : ub (list Z) :=
  let srcx0 := fadd srcx0 (fmul (fadd dxrow dxcol) f_half) in
  let srcy0 := fadd srcy0 (fmul (fadd dyrow dycol) f_half) in
  do* '(_, _, _, dst) := for_to dsth (fun dy '(srcx0, srcy0, dstrow, dst) =>
      do* dst := vector_row pixel_at dstw dxcol dycol srcx0 srcy0 dstrow dst in
      do* dstrow := iadd dstrow dstscan in
      Done (fadd srcx0 dxrow, fadd srcy0 dyrow, dstrow, dst)) (srcx0, srcy0, 0, dst) in
  Done dst.

(** The arguments that describe the walk: [offset], [delta], and the steps
    between columns and between rows. *)
Record vector := mkVector {
  offsetx : float; offsety : float; deltax : float; deltay : float;
  dxcol : float; dycol : float; dxrow : float; dyrow : float }.

Definition filterVector (env : JNIEnv) (dst : list Z) (dstw dsth dstscan : Z) (src : list Z) (srcw srch srcscan : Z)
    (weights_arr : list float) (count : Z) (srcx0 srcy0 : float) (v : vector) : ub filtered :=
  if count >? 128 then Done (dst, [])
  else
    let weights := GetFloatArrayRegion weights_arr count in
    with_pixels env dst src
      (vector_rows
         (vector_pixel src srcw srch srcscan weights count (offsetx v) (offsety v) (deltax v) (deltay v))
         dst dstw dsth dstscan srcx0 srcy0 (dxcol v) (dycol v) (dxrow v) (dyrow v)).

Definition shadow_filterVector (env : JNIEnv) (dst : list Z) (dstw dsth dstscan : Z) (src : list Z) (srcw srch srcscan : Z)
    (weights_arr : list float) (count : Z) (srcx0 srcy0 : float) (v : vector) (shadowColor_arr : list float) : ub filtered :=
  if count >? 128 then Done (dst, [])
  else
    let weights := GetFloatArrayRegion weights_arr count in
    let shadowColor := GetFloatArrayRegion shadowColor_arr 4 in
    with_pixels env dst src
      (do* c0 := rdf shadowColor 0 in do* c1 := rdf shadowColor 1 in
       do* c2 := rdf shadowColor 2 in do* c3 := rdf shadowColor 3 in
       vector_rows
         (vector_shadow_pixel src srcw srch srcscan weights count c0 c1 c2 c3 (offsetx v) (offsety v) (deltax v) (deltay v))
         dst dstw dsth dstscan srcx0 srcy0 (dxcol v) (dycol v) (dxrow v) (dyrow v)).

(** A positive position converts to an index that is not negative. *)
Lemma convert_positive f : (f >. f_zero) = true \/ (f_zero <=. f) = true -> converts (float_to_jint f) (fun z => 0 <= z <= INT_MAX).
Proof.
  intros H. unfold float_to_jint, is_jint. destruct f as [s|s| |s m e]; cbn [trunc]; try reflexivity.
  - cbn. unfold INT_MAX. lia.
  - assert (s = false) as -> by (destruct s; [destruct H; discriminate|reflexivity]).
    assert (0 <= (if 0 <=? e then Z.shiftl (Zpos m) e else Z.shiftr (Zpos m) (- e))) as Hp.
    { destruct (0 <=? e); [apply Z.shiftl_nonneg|apply Z.shiftr_nonneg]; lia. }
    destruct (_ && _) eqn:E; [|reflexivity]. cbn. bools. lia.
Qed.

(** Any conversion either fails or gives an [int]. *)
Lemma convert_any f : converts (float_to_jint f) (fun z => INT_MIN <= z <= INT_MAX).
Proof.
  unfold float_to_jint, is_jint. destruct (trunc f) as [z|]; [|reflexivity].
  destruct (_ && _) eqn:E; [|reflexivity]. cbn. bools. lia.
Qed.

Lemma half_valid : f_valid f_half.
Proof. reflexivity. Qed.
#[export] Hint Resolve half_valid : floats.

(** ** The box of a sample stays in the image *)

(** The image's pixels are inside an array of [len] elements, [scan] apart, and
    the offsets fit an [int]. *)
Definition sampled_image (w h scan unit_ len : Z) : Prop :=
  0 <= w <= scan /\ 0 <= h /\ 0 < unit_ /\ unit_ * (h * scan) <= len /\ unit_ * (h * scan + w) <= INT_MAX.

Section Box.

Context {V : Type} (take : Z -> float -> V -> ub V) (unit_ : Z) (weigh_ : float -> float) (w h scan len : Z).
Context (Inv : V -> Prop) (OK : sampled_image w h scan unit_ len).
Context (Htake : forall x y f v, in_image w h x y -> f_valid f -> Inv v -> converts (take (unit_ * (y * scan + x)) f v) Inv).
Context (Hweigh : forall f, f_valid f -> f_valid (weigh_ f)).

Lemma box_index x y : 0 <= x <= w -> 0 <= y <= h ->
  imul y scan = Done (y * scan) /\ iadd (y * scan) x = Done (y * scan + x) /\
  imul unit_ (y * scan + x) = Done (unit_ * (y * scan + x)) /\
  0 <= y * scan <= h * scan /\ 0 <= unit_ * (y * scan + x) <= INT_MAX.
Proof using OK.
  destruct OK as (O1 & O2 & O3 & O4 & O5). intros Hx Hy.
  assert (0 <= y * scan <= h * scan) as B1 by (split; [apply Z.mul_nonneg_nonneg|apply Z.mul_le_mono_nonneg_r]; lia).
  assert (0 <= unit_ * (y * scan + x) <= unit_ * (h * scan + w)) as B2
    by (split; [apply Z.mul_nonneg_nonneg|apply Z.mul_le_mono_nonneg_l]; lia).
  assert (1 * (h * scan + w) <= unit_ * (h * scan + w)) as B3 by (apply Z.mul_le_mono_nonneg_r; lia).
  unfold imul, iadd. rewrite !jint_done by (unfold INT_MIN; lia). repeat split; lia.
Qed.

(** The index of the row above. *)
Lemma box_above x y : 0 <= x <= w -> 0 < y <= h ->
  imul scan unit_ = Done (scan * unit_) /\
  isub (unit_ * (y * scan + x)) (scan * unit_) = Done (unit_ * ((y - 1) * scan + x)) /\
  0 <= unit_ * ((y - 1) * scan + x).
Proof using OK.
  intros Hx Hy. destruct (box_index x y) as (_ & _ & _ & _ & B); [lia|lia|].
  destruct OK as (O1 & O2 & O3 & O4 & O5).
  assert (0 <= unit_ * ((y - 1) * scan + x)) as B1 by (apply Z.mul_nonneg_nonneg; [lia|];
    pose proof (Z.mul_nonneg_nonneg (y - 1) scan); lia).
  assert (unit_ * ((y - 1) * scan + x) = unit_ * (y * scan + x) - scan * unit_) as E by ring.
  assert (0 <= scan * unit_) by (apply Z.mul_nonneg_nonneg; lia).
  unfold imul, isub. rewrite !jint_done by (unfold INT_MIN; lia). rewrite <- E. auto.
Qed.

Lemma box_left x y : 0 < x <= w -> 0 <= unit_ * (y * scan + x) <= INT_MAX ->
  isub (unit_ * (y * scan + x)) unit_ = Done (unit_ * (y * scan + (x - 1))).
Proof using OK.
  destruct OK as (O1 & O2 & O3 & O4 & O5). intros Hx Hy. unfold isub.
  assert (unit_ * 1 <= unit_ * (h * scan + w)) by (apply Z.mul_le_mono_nonneg_l; [lia|]; pose proof (Z.mul_nonneg_nonneg h scan); lia).
  rewrite jint_done by (unfold INT_MIN, INT_MAX in *; lia). f_equal. ring.
Qed.

(** Two neighbours of a row: the sample's column, and the one before it. *)
Lemma take_pair x y f g v :
  0 <= x <= w -> 0 <= y < h -> 0 <= unit_ * (y * scan + x) <= INT_MAX -> f_valid f -> f_valid g -> Inv v ->
  converts (do* v := (if x <? w then take (unit_ * (y * scan + x)) f v else Done v) in
            if x >? 0 then do* i := isub (unit_ * (y * scan + x)) unit_ in take i g v else Done v) Inv.
Proof using OK Htake.
  intros Hx Hy Hb Vf Vg Hv. apply (converts_bind _ _ Inv).
  - destruct (Z.ltb_spec x w); [|exact Hv]. apply Htake; [split; lia|exact Vf|exact Hv].
  - intros v' Hv'. rewrite Z.gtb_ltb. destruct (Z.ltb_spec 0 x); [|exact Hv'].
    rewrite box_left by lia. cbn [ub_bind]. apply Htake; [split; lia|exact Vg|exact Hv'].
Qed.

Lemma sample_box_converts x y v :
  f_valid x -> f_valid y -> Inv v -> converts (sample_box take unit_ weigh_ x y w h scan v) Inv.
Proof using OK Htake Hweigh.
  intros Vx Vy Hv. unfold sample_box.
  destruct (float_to_jint x) as [ix|] eqn:Ex; [|pose proof (convert_any x) as C; rewrite Ex in C; exact C].
  destruct (float_to_jint y) as [iy|] eqn:Ey; [|pose proof (convert_any y) as C; rewrite Ey in C; exact C].
  cbn [ub_bind]. destruct (f_zero <. x) eqn:Px; [|exact Hv]. destruct (f_zero <. y) eqn:Py; [|exact Hv].
  destruct (Z.leb_spec ix w) as [Wx|]; [|exact Hv]. destruct (Z.leb_spec iy h) as [Wy|]; [|exact Hv]. cbn [andb].
  pose proof (convert_positive x (or_introl Px)) as Bx. rewrite Ex in Bx. cbn in Bx.
  pose proof (convert_positive y (or_introl Py)) as By. rewrite Ey in By. cbn in By.
  destruct (box_index ix iy) as (E1 & E2 & E3 & B1 & B2); [lia|lia|].
  rewrite E1. cbn [ub_bind]. rewrite E2. cbn [ub_bind]. rewrite E3. cbn [ub_bind].
  apply (converts_bind _ _ Inv).
  - destruct (Z.ltb_spec iy h); [|exact Hv]. apply take_pair; auto with floats; lia.
  - intros v' Hv'. rewrite Z.gtb_ltb. destruct (Z.ltb_spec 0 iy); [|exact Hv'].
    destruct (box_above ix iy) as (A1 & A2 & A3); [lia|lia|]. rewrite A1. cbn [ub_bind]. rewrite A2. cbn [ub_bind].
    apply take_pair; auto 8 with floats; [lia|lia|].
    split; [exact A3|]. destruct OK as (O1 & O2 & O3 & O4 & O5).
    apply Z.le_trans with (unit_ * (iy * scan + ix)); [|lia]. apply Z.mul_le_mono_nonneg_l; lia.
Qed.

End Box.

(** ** The samplers *)

Definition fvals_valid (v : fvals) : Prop :=
  f_valid (fval_r v) /\ f_valid (fval_g v) /\ f_valid (fval_b v) /\ f_valid (fval_a v).

Lemma laccum_valid p f v : f_valid f -> fvals_valid v -> fvals_valid (laccum p f v).
Proof. intros Hf (H1 & H2 & H3 & H4). unfold fvals_valid, laccum. cbn. auto 10 with floats. Qed.

Lemma no_fvals_valid : fvals_valid no_fvals.
Proof. repeat split. Qed.

Lemma sampled_index w h scan unit_ len x y :
  sampled_image w h scan unit_ len -> in_image w h x y ->
  0 <= unit_ * (y * scan + x) /\ unit_ * (y * scan + x) + unit_ <= len.
Proof.
  intros (O1 & O2 & O3 & O4 & O5) [Hx Hy]. pose proof (row_range y h scan Hy ltac:(lia)) as R.
  split; [apply Z.mul_nonneg_nonneg; lia|].
  apply Z.le_trans with (unit_ * (h * scan)); [|exact O4].
  replace (unit_ * (y * scan + x) + unit_) with (unit_ * (y * scan + x + 1)) by ring.
  apply Z.mul_le_mono_nonneg_l; lia.
Qed.

Lemma take_pixel img w h scan x y f v :
  sampled_image w h scan 1 (Z.of_nat (length img)) -> in_image w h x y -> f_valid f -> fvals_valid v ->
  converts (do* p := rd img (1 * (y * scan + x)) in Done (laccum p f v)) fvals_valid.
Proof.
  intros OK Hxy Hf Hv. pose proof (sampled_index _ _ _ _ _ _ _ OK Hxy). rewrite rd_pixel by lia.
  cbn. apply laccum_valid; assumption.
Qed.

Lemma take_floats map w h scan x y f v :
  Forall f_valid map -> sampled_image w h scan 4 (Z.of_nat (length map)) -> in_image w h x y -> f_valid f -> fvals_valid v ->
  converts (faccum map (4 * (y * scan + x)) f v) fvals_valid.
Proof.
  intros Hm OK Hxy Hf (H1 & H2 & H3 & H4). pose proof (sampled_index _ _ _ _ _ _ _ OK Hxy) as B. unfold faccum.
  assert (forall i, 0 <= i < Z.of_nat (length map) -> exists a, rd map i = Done a /\ f_valid a) as R.
  { intros i Hi. destruct (lookup_lt_is_Some_2 map (Z.to_nat i)) as [a E]; [lia|]. exists a.
    split; [apply rd_done; [lia|exact E]|]. eapply Forall_lookup_1; [exact Hm|exact E]. }
  destruct (R (4 * (y * scan + x))) as (a & -> & Va); [lia|]. cbn [ub_bind].
  destruct (R (4 * (y * scan + x) + 1)) as (b & -> & Vb); [lia|]. cbn [ub_bind].
  destruct (R (4 * (y * scan + x) + 2)) as (c & -> & Vc); [lia|]. cbn [ub_bind].
  destruct (R (4 * (y * scan + x) + 3)) as (d & -> & Vd); [lia|]. cbn [ub_bind].
  unfold converts, fvals_valid. cbn. auto 10 with floats.
Qed.

Lemma laccumsample_converts img x y w h scan factor v :
  sampled_image w h scan 1 (Z.of_nat (length img)) -> f_valid x -> f_valid y -> f_valid factor -> fvals_valid v ->
  converts (laccumsample img x y w h scan factor v) fvals_valid.
Proof.
  intros OK Vx Vy Vf Hv. apply (sample_box_converts _ 1 _ w h scan _ _ OK); unfold centred; auto with floats.
  intros. eapply take_pixel; eassumption.
Qed.

(** C21: No sampler reads outside its image, wherever the sample lies: with
    positions and factors of any value, NaN and infinities included, the only
    undefined step is the conversion of a position that does not fit an
    [int]. *)
Theorem samplers_stay_inside img map x y w h scan factor v
  (Himg : sampled_image w h scan 1 (Z.of_nat (length img)))
  (Hmap : sampled_image w h scan 4 (Z.of_nat (length map))) (Hvals : Forall f_valid map)
  (Vx : f_valid x) (Vy : f_valid y) (Vf : f_valid factor) (Hv : fvals_valid v) :
  converts (lsample img x y w h scan) fvals_valid /\
  converts (laccumsample img x y w h scan factor v) fvals_valid /\
  converts (fsample map x y w h scan) fvals_valid.
Proof.
  split; [|split].
  - apply (sample_box_converts _ 1 _ w h scan _ _ Himg); unfold centred; auto using no_fvals_valid with floats.
    intros. eapply take_pixel; eassumption.
  - apply laccumsample_converts; assumption.
  - apply (sample_box_converts _ 4 _ w h scan _ _ Hmap); unfold centred; auto using no_fvals_valid with floats.
    intros. eapply take_floats; eassumption.
Qed.

(** ** The pixels *)

Lemma fvaltobyte_converts f : f_valid f -> converts (fvaltobyte f) (fun v => 0 <= v <= 255).
Proof.
  intros Vf. destruct (is_nan f) eqn:Nf; [destruct f; try discriminate; reflexivity|].
  destruct (f <. f_zero) eqn:Z0.
  - assert ((f <. cmin) = true) as E.
    { assert (f_number cmin /\ 0 <= fval cmin) as [N1 E1] by (split; [split; reflexivity|apply Z.leb_le; reflexivity]).
      destruct f_zero_number as [N0 E0].
      rewrite fltb_spec in * by (auto; split; assumption). apply Z.ltb_lt in Z0. apply Z.ltb_lt. lia. }
    unfold fvaltobyte. rewrite E. cbn. lia.
  - destruct f_zero_number as [N0 E0].
    destruct (fvaltobyte_done f) as [E B].
    + split; [split; assumption|]. rewrite fltb_spec in Z0 by (auto; split; assumption). apply Z.ltb_ge in Z0. lia.
    + rewrite E. exact B.
Qed.

(** The positions a walk visits. *)
Definition walk (step : float) (n : Z) (start : float) : float := Nat.iter (Z.to_nat n) (fun p => fadd p step) start.

Lemma walk_next step n start : 0 <= n -> fadd (walk step n start) step = walk step (n + 1) start.
Proof. intros Hn. unfold walk. replace (Z.to_nat (n + 1)) with (S (Z.to_nat n)) by lia. reflexivity. Qed.

Lemma walk_valid step n start : f_valid step -> f_valid start -> f_valid (walk step n start).
Proof. intros Hs H0. unfold walk. induction (Z.to_nat n); cbn; auto with floats. Qed.

Lemma rdf_converts weights n i :
  Forall f_valid weights -> 0 <= i < n -> n <= Z.of_nat (length weights) ->
  converts (rdf (GetFloatArrayRegion weights n) i) f_valid.
Proof.
  intros Hw Hi Hn. unfold GetFloatArrayRegion. destruct (Z.leb_spec n (Z.of_nat (length weights))); [|lia].
  unfold rdf, rd. destruct (Z.leb_spec 0 i); [|lia].
  change (map Some (take (Z.to_nat n) weights)) with (Some <$> take (Z.to_nat n) weights).
  rewrite list_lookup_fmap, lookup_take_lt by lia.
  destruct (lookup_lt_is_Some_2 weights (Z.to_nat i)) as [a E]; [lia|]. rewrite E. cbn.
  eapply Forall_lookup_1; eassumption.
Qed.

(** A component times the clamped sum of the shadow fits a byte. *)
Lemma clamped_part c sum n :
  fraction c -> f_valid sum -> 0 <= n <= 24 ->
  let s := if sum <. f_zero then f_zero else if sum >. f_255 then f_255 else sum in
  converts (do* v := float_to_jint (fmul c s) in ishl v n) (fun _ => True).
Proof.
  intros Hc Vs Hn s. destruct (fraction_val c Hc) as [Fc Vc].
  assert (f_number f_255 /\ fval f_255 = 255 * f_unit) as [N2 E2] by (split; [split; reflexivity|reflexivity]).
  destruct f_zero_number as [N0 E0]. pose proof f_unit_pos as Hu.
  destruct (is_nan sum) eqn:Ns.
  { assert (fmul c s = S754_nan) as -> by (subst s; destruct sum; try discriminate; destruct c as [|[]| |]; reflexivity). reflexivity. }
  assert (f_number s /\ 0 <= fval s <= 255 * f_unit) as [Nf B].
  { subst s. rewrite !fltb_spec by (auto; split; assumption). rewrite E0, E2.
    destruct (Z.ltb_spec (fval sum) 0); [rewrite E0; split; [exact N0|lia]|].
    destruct (Z.ltb_spec (255 * f_unit) (fval sum)); [rewrite E2; split; [exact N2|lia]|].
    split; [split; assumption|lia]. }
  clearbody s.
  assert (f_finite s) as Ff by (apply (f_below_finite s 255); [exact Nf|lia|lia|lia]).
  destruct (f_rounded_between _ _ 0 255 (fmul_rounded _ _ Fc Ff)) as [Fm Vm]; [lia..| |].
  { assert (0 <= fval c * fval s <= f_unit * (255 * f_unit)) by
      (split; [apply Z.mul_nonneg_nonneg|apply Z.mul_le_mono_nonneg]; lia). lia. }
  destruct (float_to_jint_between _ 0 255 Fm Vm) as [-> Bz]; [unfold INT_MIN; lia|unfold INT_MAX; lia|].
  cbn [ub_bind]. rewrite ishl_channel by assumption. exact I.
Qed.

Section Pixels.

Context (src : list Z) (srcw srch srcscan : Z) (weights : list float) (count : Z).
Context (OK : sampled_image srcw srch srcscan 1 (Z.of_nat (length src))).
Context (Hw : Forall f_valid weights) (Hcount : count <= Z.of_nat (length weights)).
Context (ox oy stepx stepy : float) (Vox : f_valid ox) (Voy : f_valid oy) (Vsx : f_valid stepx) (Vsy : f_valid stepy).

Lemma vector_pixel_converts x y :
  f_valid x -> f_valid y ->
  converts (vector_pixel src srcw srch srcscan (GetFloatArrayRegion weights count) count ox oy stepx stepy x y)
    (fun _ => True).
Proof using OK Hw Hcount Vox Voy Vsx Vsy.
  intros Vx Vy. unfold vector_pixel. eapply converts_bind.
  - apply (for_to_converts (fun i '(sx, sy, v) => f_valid sx /\ f_valid sy /\ fvals_valid v)).
    + intros i [[sx sy] v] Hi (Hx & Hy & Hv). eapply converts_bind; [apply rdf_converts; eassumption|].
      intros wt Vwt. eapply converts_bind; [apply laccumsample_converts; eassumption|].
      intros v' Hv'. cbn. auto with floats.
    + repeat split; auto with floats.
  - intros [[sx sy] v] (_ & _ & V1 & V2 & V3 & V4).
    eapply converts_bind; [apply fvaltobyte_converts; exact V4|]. intros a Ha.
    eapply converts_bind; [apply fvaltobyte_converts; exact V1|]. intros r Hr.
    eapply converts_bind; [apply fvaltobyte_converts; exact V2|]. intros g Hg.
    eapply converts_bind; [apply fvaltobyte_converts; exact V3|]. intros b Hb.
    rewrite pack_done by assumption. exact I.
Qed.

Lemma vector_shadow_pixel_converts c0 c1 c2 c3 x y :
  Forall fraction [c0; c1; c2; c3] -> f_valid x -> f_valid y ->
  converts (vector_shadow_pixel src srcw srch srcscan (GetFloatArrayRegion weights count) count c0 c1 c2 c3 ox oy stepx stepy x y)
    (fun _ => True).
Proof using OK Hw Hcount Vox Voy Vsx Vsy.
  intros Hc Vx Vy. apply Forall_cons in Hc as [F0 Hc]. apply Forall_cons in Hc as [F1 Hc].
  apply Forall_cons in Hc as [F2 Hc]. apply Forall_cons in Hc as [F3 _].
  unfold vector_shadow_pixel. eapply converts_bind.
  - apply (for_to_converts (fun i '(sx, sy, sum) => f_valid sx /\ f_valid sy /\ f_valid sum)).
    + intros i [[sx sy] sum] Hi (Hx & Hy & Hs). apply (converts_bind _ _ f_valid); [|intros; cbn; auto with floats].
      destruct (f_zero <=. sx) eqn:Px; [|exact Hs]. destruct (f_zero <=. sy) eqn:Py; [|exact Hs]. cbn [andb].
      eapply converts_bind; [apply convert_positive; right; exact Px|]. intros ix [Bx _].
      eapply converts_bind; [apply convert_positive; right; exact Py|]. intros iy [By _].
      destruct (Z.ltb_spec ix srcw); [|exact Hs]. destruct (Z.ltb_spec iy srch); [|exact Hs]. cbn [andb].
      destruct (box_index 1 srcw srch srcscan _ OK ix iy) as (E1 & E2 & _); [lia|lia|].
      rewrite E1. cbn [ub_bind]. rewrite E2. cbn [ub_bind].
      pose proof (sampled_index _ _ _ _ _ ix iy OK ltac:(split; lia)). rewrite rd_pixel by lia. cbn [ub_bind].
      eapply converts_bind; [apply rdf_converts; eassumption|]. intros wt Vwt. cbn. auto with floats.
    + repeat split; auto with floats.
  - intros [[sx sy] sum] (_ & _ & Vs).
    eapply converts_bind; [apply (clamped_part c0 sum 16); auto; lia|]. intros r _.
    eapply converts_bind; [apply (clamped_part c1 sum 8); auto; lia|]. intros g _.
    eapply converts_bind; [apply (clamped_part c2 sum 0); auto; lia|]. intros b _.
    eapply converts_bind; [apply (clamped_part c3 sum 24); auto; lia|]. intros a _. exact I.
Qed.

End Pixels.

(** ** The walk over the destination *)

(** The value of a run that is defined. *)
Definition value (m : ub Z) : Z := match m with Done v => v | Undefined _ => 0 end.

Section Walk.

Context (pixel_at : float -> float -> ub Z) (dst : list Z) (dstw dsth dstscan : Z).
Context (Hdst : 0 < dstw <= dstscan) (Hfits : 0 <= dsth /\ dsth * dstscan <= Z.of_nat (length dst) <= INT_MAX).
Context (x0 y0 xcol ycol xrow yrow : float).
Context (Vx0 : f_valid x0) (Vy0 : f_valid y0) (Vxcol : f_valid xcol) (Vycol : f_valid ycol).
Context (Vxrow : f_valid xrow) (Vyrow : f_valid yrow).
Context (Hpixel : forall x y, f_valid x -> f_valid y -> converts (pixel_at x y) (fun _ => True)).

Local Abbreviation startx := (fadd x0 (fmul (fadd xrow xcol) f_half)).
Local Abbreviation starty := (fadd y0 (fmul (fadd yrow ycol) f_half)).

(** The position of destination pixel [(x, y)]. *)
Local Abbreviation posx := (fun x y => walk xcol x (walk xrow y startx)).
Local Abbreviation posy := (fun x y => walk ycol x (walk yrow y starty)).
Local Abbreviation out := (fun x y => value (pixel_at (posx x y) (posy x y))).

Lemma positions_valid x y : f_valid (posx x y) /\ f_valid (posy x y).
Proof using Vx0 Vy0 Vxcol Vycol Vxrow Vyrow. split; apply walk_valid; auto; apply walk_valid; auto with floats. Qed.

Lemma vector_row_converts y d :
  0 <= y < dsth -> painted (rows_before dstw y 0) (row_major dstscan) out dst d ->
  converts (vector_row pixel_at dstw xcol ycol (walk xrow y startx) (walk yrow y starty) (y * dstscan) d)
    (painted (rows_before dstw (y + 1) 0) (row_major dstscan) out dst).
Proof using Hdst Hfits Vx0 Vy0 Vxcol Vycol Vxrow Vyrow Hpixel.
  intros Hy Hd. unfold vector_row. eapply converts_bind.
  - apply (for_to_converts (fun x '(px, py, d) => px = posx x y /\ py = posy x y /\
      painted (rows_before dstw y x) (row_major dstscan) out dst d)).
    + intros x [[px py] d'] Hx (-> & -> & Hp).
      destruct (positions_valid x y) as [Px Py]. pose proof (Hpixel _ _ Px Py) as C.
      destruct (pixel_at (posx x y) (posy x y)) as [p|] eqn:E; [|exact C]. cbn [ub_bind].
      pose proof (row_range y dsth dstscan Hy ltac:(lia)) as R. unfold iadd.
      rewrite jint_done by (unfold INT_MIN; lia). cbn [ub_bind].
      assert (p = out x y) as -> by (cbv beta; rewrite E; reflexivity).
      eapply converts_bind.
      * apply converts_yields, (painted_step (row_major dstscan) dstw dsth (rows_before dstw y x) out dst d' x y).
        -- apply row_major_raster; lia.
        -- intros x' y'. apply rows_inside; lia.
        -- split; lia.
        -- exact Hp.
      * intros d2 Hd2. cbn [converts]. rewrite !walk_next by lia. split; [reflexivity|]. split; [reflexivity|].
        eapply painted_ext; [|exact Hd2]. intros x' y'. apply rows_pixel. lia.
    + split; [reflexivity|]. split; [reflexivity|]. exact Hd.
  - intros [[px py] d'] (_ & _ & Hp). cbn [converts]. replace (Z.max 0 dstw) with dstw in Hp by lia.
    eapply painted_ext; [|exact Hp]. intros x' y'. apply rows_line. lia.
Qed.

Lemma vector_rows_converts :
  converts (vector_rows pixel_at dst dstw dsth dstscan x0 y0 xcol ycol xrow yrow)
    (painted (in_image dstw dsth) (row_major dstscan) out dst).
Proof using Hdst Hfits Vx0 Vy0 Vxcol Vycol Vxrow Vyrow Hpixel.
  unfold vector_rows. cbv zeta. eapply converts_bind.
  - apply (for_to_converts (fun y '(px, py, row, d) => px = walk xrow y startx /\ py = walk yrow y starty /\
      row = y * dstscan /\ painted (rows_before dstw y 0) (row_major dstscan) out dst d)).
    + intros y [[[px py] row] d] Hy (-> & -> & -> & Hd). eapply converts_bind; [apply vector_row_converts; assumption|].
      intros d' Hd'. pose proof (row_range y dsth dstscan Hy ltac:(lia)) as R. unfold iadd.
      rewrite jint_done by (unfold INT_MIN; lia). cbn [ub_bind converts]. rewrite !walk_next by lia.
      split; [reflexivity|]. split; [reflexivity|]. split; [lia|exact Hd'].
    + split; [reflexivity|]. split; [reflexivity|]. split; [reflexivity|].
      eapply painted_ext; [|apply painted_none]. intros x y. symmetry. apply rows_start.
  - intros [[[px py] row] d] (_ & _ & _ & Hd). cbn [converts]. replace (Z.max 0 dsth) with dsth in Hd by lia.
    eapply painted_ext; [|exact Hd]. intros x y. apply rows_end.
Qed.

End Walk.

(** The vectors of a call are well represented floats. *)
Definition vector_valid (v : vector) : Prop :=
  f_valid (offsetx v) /\ f_valid (offsety v) /\ f_valid (deltax v) /\ f_valid (deltay v) /\
  f_valid (dxcol v) /\ f_valid (dycol v) /\ f_valid (dxrow v) /\ f_valid (dyrow v).

(** Where the walk of a call samples for destination pixel [(x, y)]. *)
Definition position_x (x0 : float) (v : vector) (x y : Z) : float :=
  walk (dxcol v) x (walk (dxrow v) y (fadd x0 (fmul (fadd (dxrow v) (dxcol v)) f_half))).
Definition position_y (y0 : float) (v : vector) (x y : Z) : float :=
  walk (dycol v) x (walk (dyrow v) y (fadd y0 (fmul (fadd (dyrow v) (dycol v)) f_half))).

(** [filterVector] for any positions, steps and weights, NaN and
    infinities included: a run never leaves the source, the weights or the
    destination, and its only undefined step is a conversion out of range; a
    run without one paints every destination pixel [(x, y)] with the sum of the
    samples that start at its position, and nothing else.  The same holds of
    the shadow variant. *)
Theorem filterVector_stays_inside env dst dstw dsth dstscan src srcw srch srcscan weights count x0 y0 v c0 c1 c2 c3
  (Hpin : src_pinned env = true /\ dst_pinned env = true)
  (Hdst : 0 < dstw <= dstscan) (Hfits : 0 <= dsth /\ dsth * dstscan <= Z.of_nat (length dst) <= INT_MAX)
  (Hsrc : sampled_image srcw srch srcscan 1 (Z.of_nat (length src)))
  (Hw : Forall f_valid weights) (Hcount : count <= 128 /\ count <= Z.of_nat (length weights))
  (Vx0 : f_valid x0) (Vy0 : f_valid y0) (Vv : vector_valid v) (Hcolour : Forall fraction [c0; c1; c2; c3]) :
  let kernel := GetFloatArrayRegion weights count in
  let paints out := fun '(d, trace) => trace = both_released /\ painted (in_image dstw dsth) (row_major dstscan)
                      (fun x y => value (out (position_x x0 v x y) (position_y y0 v x y))) dst d in
  converts (filterVector env dst dstw dsth dstscan src srcw srch srcscan weights count x0 y0 v)
    (paints (vector_pixel src srcw srch srcscan kernel count (offsetx v) (offsety v) (deltax v) (deltay v))) /\
  converts (shadow_filterVector env dst dstw dsth dstscan src srcw srch srcscan weights count x0 y0 v [c0; c1; c2; c3])
    (paints (vector_shadow_pixel src srcw srch srcscan kernel count c0 c1 c2 c3 (offsetx v) (offsety v) (deltax v) (deltay v))).
Proof.
  intros kernel paints. destruct Vv as (V1 & V2 & V3 & V4 & V5 & V6 & V7 & V8).
  unfold filterVector, shadow_filterVector, with_pixels. rewrite Z.gtb_ltb.
  destruct (Z.ltb_spec 128 count); [lia|]. destruct Hpin as [-> ->]. cbn [negb].
  change (rdf (GetFloatArrayRegion [c0; c1; c2; c3] 4) 0) with (Done c0).
  change (rdf (GetFloatArrayRegion [c0; c1; c2; c3] 4) 1) with (Done c1).
  change (rdf (GetFloatArrayRegion [c0; c1; c2; c3] 4) 2) with (Done c2).
  change (rdf (GetFloatArrayRegion [c0; c1; c2; c3] 4) 3) with (Done c3). cbn [ub_bind].
  split; (eapply converts_bind; [apply vector_rows_converts; try assumption|]).
  - intros x y Hx Hy. apply vector_pixel_converts; (assumption || apply Hcount).
  - intros d Hd. split; [reflexivity|exact Hd].
  - intros x y Hx Hy. apply vector_shadow_pixel_converts; (assumption || apply Hcount).
  - intros d Hd. split; [reflexivity|exact Hd].
Qed.

(** A position that does not fit an [int] is converted before it is tested:
    the range test of the next line comes too late. *)
Lemma far_position_undefined :
  laccumsample [0] (Z_to_float 4294967296) f_zero 1 1 1 f_one no_fvals = Undefined FloatToInt.
Proof. vm_compute. reflexivity. Qed.

(** ** Instances *)

Definition demo_vector : vector := mkVector f_zero f_zero f_one f_zero f_one f_zero f_zero f_one.

Lemma samplers_stay_inside_witness :
  converts (lsample [-1; -1] f_half f_half 2 1 2) fvals_valid /\
  converts (laccumsample [-1; -1] f_half f_half 2 1 2 f_one no_fvals) fvals_valid /\
  converts (fsample (repeat f_one 8) f_half f_half 2 1 2) fvals_valid.
Proof.
  apply (samplers_stay_inside [-1; -1] (repeat f_one 8) f_half f_half 2 1 2 f_one no_fvals);
    [unfold sampled_image, INT_MAX; cbn [length]; lia|unfold sampled_image, INT_MAX; rewrite repeat_length; lia
    |repeat constructor|reflexivity..|repeat split].
Defined.

Lemma filterVector_stays_inside_witness :
  let kernel := GetFloatArrayRegion [f_half; f_half] 2 in
  converts (filterVector (mkJNIEnv true true) [0; 0] 2 1 2 [-1; -1] 2 1 2 [f_half; f_half] 2 f_zero f_zero demo_vector)
    (fun '(d, trace) => trace = both_released /\ painted (in_image 2 1) (row_major 2)
       (fun x y => value (vector_pixel [-1; -1] 2 1 2 kernel 2 f_zero f_zero f_one f_zero
                            (position_x f_zero demo_vector x y) (position_y f_zero demo_vector x y))) [0; 0] d).
Proof.
  intros kernel.
  refine (proj1 (filterVector_stays_inside (mkJNIEnv true true) [0; 0] 2 1 2 [-1; -1] 2 1 2 [f_half; f_half] 2 f_zero f_zero
    demo_vector f_one f_one f_one f_one _ _ _ _ _ _ _ _ _ _));
    [split; reflexivity|lia|unfold INT_MAX; cbn [length]; lia|unfold sampled_image, INT_MAX; cbn [length]; lia
    |repeat constructor|cbn [length]; lia|reflexivity|reflexivity|repeat split|repeat constructor].
Defined.
