(* ===== verification/JniApi.v ===== *)
(** * The Java Native Interface as the engine uses it

    The code under [JM/jni] talks to the Java virtual machine through JNI.  Its
    functions are programs over the calls below ([prog]); what a call needs and
    what it may answer are JNI's documented rules ([allowed], [answers]): no
    call but the listed ones while an exception is pending, only live
    references and known methods, arguments as the method's signature says.
    [wp] is the weakest precondition over every machine that keeps the rules;
    [run] executes a program against one of them. *)

From Stdlib Require Import Ascii.
From S2P Require Import Prelude CFloat.
Local Open Scope Z_scope.

(** ** References, objects and methods *)

(** A reference; [None] is [NULL]. *)
Definition ref := option positive.
Inductive jobject := JString (s : string) | JClass (name : string) | JObject | JArray (id : positive) (length : nat).

(** A [jmethodID] or [jfieldID], known by name and signature. *)
Definition jmethodID := option (string * string).

(** What is passed for a variadic argument, by its C type; [CLong] is a
    [long] where the signature may say [int]. *)
Inductive jarg := AInt (z : Z) | ALong (z : Z) | ACLong (z : Z) | ABool (b : bool) | ADouble (d : double) | AFloat (f : float) | AObject (o : ref).
(** What the Java method gets. *)
Inductive jvalue := VInt (z : Z) | VLong (z : Z) | VBool (b : bool) | VDouble (d : double) | VFloat (f : float) | VObject (o : option jobject).

(** *** Signatures *)

Inductive jtype := TBoolean | TInt | TLong | TFloat | TDouble | TVoid | TObject.

(** The types of a signature; the name of a class ends at a semicolon. *)
Fixpoint types (in_class : bool) (s : string) : option (list jtype) :=
  match s with
  | EmptyString => if in_class then None else Some []
  | String c s =>
      let ty t := option_map (cons t) (types false s) in
      if in_class then types (negb (bool_decide (c = ";"%char))) s
      else if bool_decide (c = "Z"%char) then ty TBoolean
      else if bool_decide (c = "I"%char) then ty TInt
      else if bool_decide (c = "J"%char) then ty TLong
      else if bool_decide (c = "F"%char) then ty TFloat
      else if bool_decide (c = "D"%char) then ty TDouble
      else if bool_decide (c = "V"%char) then ty TVoid
      else if bool_decide (c = "L"%char) then option_map (cons TObject) (types true s)
      else if bool_decide (c = "("%char) || bool_decide (c = ")"%char) then types false s
      else None
  end.

Definition fits_int (z : Z) : bool := (- 2147483648 <=? z) && (z <=? 2147483647).
Definition fits_long (z : Z) : bool := (INT64_MIN <=? z) && (z <=? INT64_MAX).

(** An argument may be passed for a parameter. *)
Definition passes (a : jarg) (t : jtype) : bool :=
  match a, t with
  | AInt z, TInt => fits_int z
  | ACLong z, TInt => fits_int z
  | ALong z, TLong => fits_long z
  | ABool _, TBoolean | ADouble _, TDouble | AFloat _, TFloat | AObject _, TObject => true
  | _, _ => false
  end.
Fixpoint all_pass (args : list jarg) (ts : list jtype) (result : jtype) : bool :=
  match args, ts with
  | [], [t] => match t, result with
               | TVoid, TVoid | TInt, TInt | TLong, TLong | TBoolean, TBoolean | TObject, TObject => true
               | _, _ => false
               end
  | a :: args, t :: ts => passes a t && all_pass args ts result
  | _, _ => false
  end.
Definition matches (sig : string) (args : list jarg) (result : jtype) : bool :=
  match types false sig with Some ts => all_pass args ts result | None => false end.

(** ** The calls *)

(** The family of a [Call...Method] function, by the type of its result. *)
Inductive kind := KVoid | KBoolean | KInt | KLong | KObject.
Definition kind_type (k : kind) : jtype :=
  match k with KVoid => TVoid | KBoolean => TBoolean | KInt => TInt | KLong => TLong | KObject => TObject end.
Definition result (k : kind) : Type :=
  match k with KVoid => unit | KBoolean => bool | KInt | KLong => Z | KObject => ref end.

Inductive jcall : Type -> Type :=
| GetJavaVM : jcall bool
| GetEnv : jcall bool
| AttachCurrentThreadAsDaemon : jcall bool
| DetachCurrentThread : jcall unit
| ExceptionCheck : jcall bool
| ExceptionOccurred : jcall ref
| ExceptionClear : jcall unit
| NewLocalRef (o : ref) : jcall ref
| DeleteLocalRef (o : ref) : jcall unit
| NewGlobalRef (o : ref) : jcall ref
| DeleteGlobalRef (o : ref) : jcall unit
| FindClass (name : string) : jcall ref
| GetObjectClass (o : ref) : jcall ref
| GetMethodID (class : ref) (name sig : string) : jcall jmethodID
| GetStaticMethodID (class : ref) (name sig : string) : jcall jmethodID
| GetFieldID (class : ref) (name sig : string) : jcall jmethodID
| NewStringUTF (s : string) : jcall ref
| GetStringUTFChars (o : ref) : jcall (option string)
| ReleaseStringUTFChars (o : ref) : jcall unit
| CallMethod (k : kind) (o : ref) (m : jmethodID) (args : list jarg) : jcall (result k)
| ThrowNew (class : ref) (message : string) : jcall unit
| NewObject (class : ref) (m : jmethodID) (args : list jarg) : jcall ref
| GetObjectField (o : ref) (f : jmethodID) : jcall ref
| GetDirectBufferAddress (o : ref) : jcall (option (list Z))
| SetFloatArrayRegion (a : ref) (values : list float) : jcall unit
| SetLongArrayRegion (a : ref) (values : list Z) : jcall unit
| SetDoubleArrayRegion (a : ref) (values : list double) : jcall unit.

Abbreviation CallVoidMethod := (CallMethod KVoid).
Abbreviation CallBooleanMethod := (CallMethod KBoolean).
Abbreviation CallIntMethod := (CallMethod KInt).
Abbreviation CallLongMethod := (CallMethod KLong).
Abbreviation CallObjectMethod := (CallMethod KObject).

Definition nonnull {A} (o : option A) : bool := match o with Some _ => true | None => false end.

(** ** Programs *)

Inductive prog (A : Type) : Type :=
| Ret (a : A)
| Ask {R} (c : jcall R) (k : R -> prog A).
Arguments Ret {A} a.
Arguments Ask {A R} c k.

Fixpoint bind {A B} (p : prog A) (f : A -> prog B) : prog B :=
  match p with
  | Ret a => f a
  | Ask c k => Ask c (fun r => bind (k r) f)
  end.
Definition jni {R} (c : jcall R) : prog R := Ask c Ret.

Declare Scope jni_scope.
Delimit Scope jni_scope with jni.
Notation "'let*' x := p 'in' q" := (bind p (fun x => q))
  (at level 10, x name, p at level 100, q at level 200) : jni_scope.
Notation "'let*' ' x := p 'in' q" := (bind p (fun y => match y with x => q end))
  (at level 10, x pattern, p at level 100, q at level 200) : jni_scope.
Notation "p ;; q" := (bind p (fun _ => q)) (at level 100, q at level 200, right associativity) : jni_scope.
Local Open Scope jni_scope.
Definition when (b : bool) (p : prog unit) : prog unit := if b then p else Ret tt.

(** ** The machine, as seen from one thread *)

(** A call of a Java method, with its outcome: [None] is an exception. *)
Record java_call := mkCall { called : string; passed : list jvalue; outcome : option Z }.

Record jvm := mkJvm {
  attached : bool;
  pending : bool;
  raised : nat;                     (* exceptions raised so far *)
  locals : gmap positive jobject;   (* live local references of the thread *)
  globals : gmap positive jobject;  (* live global references *)
  calls : list java_call }.         (* Java methods called so far *)
Definition with_attached (b : bool) (j : jvm) : jvm := mkJvm b (pending j) (raised j) (locals j) (globals j) (calls j).
Definition with_pending (b : bool) (j : jvm) : jvm := mkJvm (attached j) b (raised j) (locals j) (globals j) (calls j).
Definition with_locals (l : gmap positive jobject) (j : jvm) : jvm := mkJvm (attached j) (pending j) (raised j) l (globals j) (calls j).
Definition with_globals (g : gmap positive jobject) (j : jvm) : jvm := mkJvm (attached j) (pending j) (raised j) (locals j) g (calls j).
Definition with_calls (c : list java_call) (j : jvm) : jvm := mkJvm (attached j) (pending j) (raised j) (locals j) (globals j) c.

(** What a reference refers to. *)
Definition object_of (j : jvm) (o : ref) : option jobject :=
  match o with Some l => match locals j !! l with Some x => Some x | None => globals j !! l end | None => None end.
Definition live (j : jvm) (o : ref) : bool := match object_of j o with Some _ => true | None => false end.
Definition live_or_null (j : jvm) (o : ref) : bool := match o with None => true | _ => live j o end.
Definition is_local (j : jvm) (o : ref) : bool := match o with Some l => match locals j !! l with Some _ => true | None => false end | None => true end.
Definition is_global (j : jvm) (o : ref) : bool := match o with Some l => match globals j !! l with Some _ => true | None => false end | None => true end.
Definition is_string (j : jvm) (o : ref) : bool := match object_of j o with Some (JString _) => true | _ => false end.
Definition arg_live (j : jvm) (a : jarg) : bool := match a with AObject o => live_or_null j o | _ => true end.
Definition value_of (j : jvm) (a : jarg) : jvalue :=
  match a with
  | AInt z | ACLong z => VInt z
  | ALong z => VLong z
  | ABool b => VBool b
  | ADouble d => VDouble d
  | AFloat f => VFloat f
  | AObject o => VObject (object_of j o)
  end.
Definition method_ok (m : jmethodID) (args : list jarg) (t : jtype) : bool :=
  match m with Some (_, sig) => matches sig args t | None => false end.

(** JNI's rules for a call. *)
Definition allowed {R} (c : jcall R) (j : jvm) : bool :=
  match c with
  | GetEnv | AttachCurrentThreadAsDaemon => true
  | ExceptionCheck | ExceptionOccurred | ExceptionClear | DetachCurrentThread => attached j
  | DeleteLocalRef o => attached j && is_local j o
  | DeleteGlobalRef o => attached j && is_global j o
  | ReleaseStringUTFChars o => attached j && is_string j o
  | c => attached j && negb (pending j) &&
      match c with
      | NewLocalRef o | NewGlobalRef o => live_or_null j o
      | GetObjectClass o | GetDirectBufferAddress o | ThrowNew o _ => live j o
      | GetMethodID o _ _ | GetStaticMethodID o _ _ | GetFieldID o _ _ => live j o
      | GetStringUTFChars o => is_string j o
      | CallMethod k o m args => live j o && method_ok m args (kind_type k) && forallb (arg_live j) args
      | NewObject o m args => live j o && method_ok m args TVoid && forallb (arg_live j) args
      | GetObjectField o f => live j o && match f with Some _ => true | None => false end
      | SetFloatArrayRegion o _ | SetLongArrayRegion o _ | SetDoubleArrayRegion o _ => match object_of j o with Some (JArray _ _) => true | _ => false end
      | _ => true
      end
  end.

Definition raise (j : jvm) : jvm := mkJvm (attached j) true (S (raised j)) (locals j) (globals j) (calls j).
Definition fresh (l : positive) (j : jvm) : Prop := locals j !! l = None /\ globals j !! l = None.
Definition with_local (l : positive) (x : jobject) (j : jvm) : jvm := with_locals (<[l := x]> (locals j)) j.
Definition log_call (m : jmethodID) (args : list jarg) (out : option Z) (j : jvm) : jvm :=
  with_calls (calls j ++ [mkCall (match m with Some (name, _) => name | None => EmptyString end) (map (value_of j) args) out]) j.

(** Values put into an array from its beginning, logged like a call; an
    exception when they do not fit. *)
Definition set_region (a : ref) (name : string) (vs : list jvalue) (j : jvm) : jvm :=
  match object_of j a with
  | Some (JArray id n) =>
      if (length vs <=? n)%nat then with_calls (calls j ++ [mkCall name (VObject (Some (JArray id n)) :: vs) (Some 0)]) j else raise j
  | _ => raise j
  end.
Definition set_floats (a : ref) (vs : list float) : jvm -> jvm := set_region a "SetFloatArrayRegion" (map VFloat vs).
Definition set_longs (a : ref) (vs : list Z) : jvm -> jvm := set_region a "SetLongArrayRegion" (map VLong vs).
Definition set_doubles (a : ref) (vs : list double) : jvm -> jvm := set_region a "SetDoubleArrayRegion" (map VDouble vs).
(** A new local reference to [x]. *)
Definition new_local (x : jobject) (j : jvm) (r : ref) (j' : jvm) : Prop := exists l, fresh l j /\ r = Some l /\ j' = with_local l x j.
(** [NULL] with an exception, or a new local reference to [x]. *)
Definition local_or_raise (x : jobject) (j : jvm) (r : ref) (j' : jvm) : Prop := new_local x j r j' \/ (r = None /\ j' = raise j).
(** The identifier asked for, or [NULL] with an exception. *)
Definition id_or_raise (name sig : string) (j : jvm) (r : jmethodID) (j' : jvm) : Prop :=
  (r = Some (name, sig) /\ j' = j) \/ (r = None /\ j' = raise j).

Definition outcome_of (k : kind) : result k -> Z :=
  match k with KVoid => fun _ => 0 | KBoolean => fun b => if b then 1 else 0 | KInt | KLong => fun z => z | KObject => fun _ => 0 end.
Definition in_range (k : kind) : result k -> Prop :=
  match k with KInt => fun z => fits_int z = true | KLong => fun z => fits_long z = true | _ => fun _ => True end.

(** What machines may differ in: whether the text of an exception can be had,
    that is, [toString] returns a string and its characters are available;
    whether the machine itself can always be had from an environment; whether
    there is always memory for one more global reference; and whether the field
    that is read holds an object; and what the memory of a buffer may be,
    [None] when the buffer is not a direct one. *)
Class Machine := {
  text_available : bool; machine_available : bool; globals_available : bool; field_set : bool;
  memory_holds : option (list Z) -> Prop }.

(** A method that returns a string, by its signature. *)
Definition returns_string (m : jmethodID) : bool :=
  match m with
  | Some (_, sig) => String.eqb (substring (String.length sig - 19) 19 sig) ")Ljava/lang/String;"
  | None => false
  end%string.
(** The result of a method that returns: [NULL] or a new reference for an
    object. *)
Definition returned `{Machine} (k : kind) (m : jmethodID) (j : jvm) : result k -> jvm -> Prop :=
  match k with
  | KObject => fun r j' =>
      if returns_string m then
        (exists s, new_local (JString s) j r j') \/
        ((m = Some ("toString", "()Ljava/lang/String;") -> text_available = false) /\ r = None /\ j' = j)
      else (r = None /\ j' = j) \/ new_local JObject j r j'
  | k => fun r j' => in_range k r /\ j' = j
  end%string.

(** JNI's answers to a call that keeps the rules. *)
Definition answers `{Machine} {R} (c : jcall R) : jvm -> R -> jvm -> Prop :=
  match c with
  | GetJavaVM => fun j r j' => (r = true /\ j' = j) \/ (machine_available = false /\ r = false /\ (j' = j \/ j' = raise j))
  | GetEnv => fun j r j' => r = attached j /\ j' = j
  | AttachCurrentThreadAsDaemon => fun j r j' => j' = if r then with_attached true j else j
  | DetachCurrentThread => fun j _ j' => j' = with_attached false (with_locals ∅ j)
  | ExceptionCheck => fun j r j' => r = pending j /\ j' = j
  | ExceptionOccurred => fun j r j' => if pending j then new_local JObject j r j' else r = None /\ j' = j
  | ExceptionClear => fun j _ j' => j' = with_pending false j
  | NewLocalRef o => fun j r j' =>
      (r = None /\ j' = j) \/ (exists x, object_of j o = Some x /\ new_local x j r j')
  | DeleteLocalRef o => fun j _ j' => j' = match o with Some l => with_locals (delete l (locals j)) j | None => j end
  | NewGlobalRef o => fun j r j' =>
      (r = None /\ j' = j /\ (globals_available = true -> o = None)) \/
      (exists x l, object_of j o = Some x /\ fresh l j /\ r = Some l /\ j' = with_globals (<[l := x]> (globals j)) j)
  | DeleteGlobalRef o => fun j _ j' => j' = match o with Some l => with_globals (delete l (globals j)) j | None => j end
  | FindClass name => fun j r j' => local_or_raise (JClass name) j r j'
  | GetObjectClass o => fun j r j' => exists name, new_local (JClass name) j r j'
  | GetMethodID _ name sig | GetStaticMethodID _ name sig | GetFieldID _ name sig => fun j r j' => id_or_raise name sig j r j'
  | NewStringUTF s => fun j r j' => local_or_raise (JString s) j r j'
  | GetStringUTFChars o => fun j r j' =>
      (exists s, object_of j o = Some (JString s) /\ r = Some s /\ j' = j) \/ (text_available = false /\ r = None /\ j' = raise j)
  | ReleaseStringUTFChars _ => fun j _ j' => j' = j
  | CallMethod k o m args => fun j r j' =>
      (returned k m (log_call m args (Some (outcome_of k r)) j) r j' ) \/ j' = raise (log_call m args None j)
  | ThrowNew o _ => fun j _ j' => j' = raise j
  | NewObject o m args => fun j r j' => local_or_raise JObject j r j'
  | GetObjectField o f => fun j r j' => (field_set = false /\ r = None /\ j' = j) \/ new_local JObject j r j'
  | GetDirectBufferAddress o => fun j r j' => memory_holds r /\ j' = j
  | SetFloatArrayRegion a vs => fun j _ j' => j' = set_floats a vs j
  | SetLongArrayRegion a vs => fun j _ j' => j' = set_longs a vs j
  | SetDoubleArrayRegion a vs => fun j _ j' => j' = set_doubles a vs j
  end.

(** ** Executions *)

(** The weakest precondition: no call breaks a rule, whatever the answers. *)
Fixpoint wp `{Machine} {A} (p : prog A) (j : jvm) (Q : A -> jvm -> Prop) : Prop :=
  match p with
  | Ret a => Q a j
  | Ask c k => allowed c j = true /\ forall r j', answers c j r j' -> wp (k r) j' Q
  end.

(** A machine that can be executed; [None] when a call breaks a rule. *)
Definition oracle := forall R, jcall R -> jvm -> R * jvm.
Fixpoint run {A} (o : oracle) (p : prog A) (j : jvm) : option (A * jvm) :=
  match p with
  | Ret a => Some (a, j)
  | Ask c k => if allowed c j then let '(r, j') := o _ c j in run o (k r) j' else None
  end.
(** The oracle keeps JNI's rules. *)
Definition faithful `{Machine} (o : oracle) : Prop :=
  forall R (c : jcall R) j, allowed c j = true -> let '(r, j') := o R c j in answers c j r j'.

Section Rules.
Context `{MACHINE : Machine}.

Lemma jwp_mono {A} (p : prog A) : forall j (P Q : A -> jvm -> Prop),
  wp p j P -> (forall a j', P a j' -> Q a j') -> wp p j Q.
Proof.
  induction p as [a|R c k IH]; intros j P Q H HQ; cbn in *; [apply HQ, H|]. destruct H as [H1 H2].
  split; [exact H1|]. intros r j' Hr. eapply IH; [apply H2, Hr|exact HQ].
Qed.

Lemma jwp_bind {A B} (p : prog A) (f : A -> prog B) : forall j Q,
  wp p j (fun a j' => wp (f a) j' Q) -> wp (bind p f) j Q.
Proof.
  induction p as [a|R c k IH]; intros j Q H; cbn in *; [exact H|]. destruct H as [H1 H2].
  split; [exact H1|]. intros r j' Hr. apply IH, H2, Hr.
Qed.

(** What holds in every machine holds in one that is executed. *)
Lemma wp_run {A} (o : oracle) (p : prog A) : faithful o -> forall j Q, wp p j Q ->
  exists a j', run o p j = Some (a, j') /\ Q a j'.
Proof.
  intros F. induction p as [a|R c k IH]; intros j Q H; cbn in *; [eauto|]. destruct H as [H1 H2]. rewrite H1.
  pose proof (F R c j H1) as K. destruct (o R c j) as [r j']. apply IH, H2, K.
Qed.
End Rules.

(** ** Symbolic execution *)

Ltac jdecompose :=
  repeat match goal with
  | H : _ \/ _ |- _ => destruct H
  | H : _ /\ _ |- _ => destruct H
  | H : exists _, _ |- _ => destruct H
  | H : ?x = ?x -> _ |- _ => specialize (H eq_refl)
  | H : ?x = _ |- _ => is_var x; subst x
  | H : _ = ?x |- _ => is_var x; subst x
  end.

(** References that are new differ from the others; a reference that is
    deleted was inserted before. *)
Ltac jmaps :=
  repeat match goal with
  | H : <[_:=_]> _ !! _ = None |- _ => apply lookup_insert_None in H as [? ?]
  | |- context [delete ?i (<[?i:=?x]> ?m)] =>
      rewrite (delete_insert_id m i x) by (rewrite ?lookup_insert_ne by congruence; assumption)
  | |- context [delete ?i (<[?j:=?x]> ?m)] => rewrite (delete_insert_ne m i j x) by congruence
  end.

(** A signature that is given is parsed. *)
Ltac jsignature :=
  repeat match goal with |- context [types false ?s] => let v := eval vm_compute in (types false s) in change (types false s) with v end.

Ltac jallowed :=
  unfold is_local, is_global, is_string, live_or_null, live, object_of, arg_live, method_ok, matches; jsignature;
  cbn [attached pending raised locals globals calls negb andb all_pass passes kind_type forallb];
  simplify_map_eq; try reflexivity.
Ltac jcbn := cbn [wp bind jni when nonnull negb andb orb allowed attached pending raised locals globals calls].
Ltac jcbn_in H :=
  unfold answers in H; cbn [pending] in H;
  unfold returned, local_or_raise, id_or_raise in H;
  repeat match type of H with context [returns_string ?m] => let v := eval vm_compute in (returns_string m) in change (returns_string m) with v in H end; cbn beta iota in H;
  unfold new_local, fresh, raise, log_call, with_local in H;
  unfold with_attached, with_pending, with_locals, with_globals, with_calls in H;
  cbn [attached pending raised locals globals calls object_of map] in H.

(** One call, with every answer, or one condition. *)
Ltac jstep :=
  jcbn;
  match goal with
  | |- _ = true /\ (forall _, _) =>
      split; [solve [jallowed] | let H := fresh "H" in intros ? ? H; jcbn_in H; jdecompose; simplify_eq; try congruence; jmaps]
  | |- wp (if ?b then _ else _) _ _ => destruct b eqn:?
  | |- wp (match ?b with _ => _ end) _ _ => destruct b eqn:?
  end.
