(* ===== verification/JniUtils.v ===== *)
(** * Using the machine ([jni/JniUtils.cpp])

    Getting an environment for the current thread, attaching it when it is not
    known to the machine, and clearing or reporting exceptions.  The lemmas say
    what each leaves behind; [reportException] leaks one reference for each
    exception that it prints. *)

From S2P Require Import Prelude CFloat JniApi.
Local Open Scope Z_scope.
Local Open Scope jni_scope.

(** A thread's environment, and whether it was attached to get it. *)
Definition GetJavaEnvironment (vm : bool) : prog (bool * bool) :=
  if vm then
    let* known := jni GetEnv in
    if known then Ret (true, false)
    else let* ok := jni AttachCurrentThreadAsDaemon in Ret (ok, true)
  else Ret (false, false).

(** A block with a [CJavaEnvironment] made from the machine: the constructor,
    the block and the destructor. *)
Definition with_environment {A} (vm : bool) (body : bool -> prog A) : prog A :=
  let* '(environment, attached) := GetJavaEnvironment vm in
  let* a := body environment in
  when (attached && environment)
    (let* ok := jni GetJavaVM in when ok (jni DetachCurrentThread)) ;;
  Ret a.

(** The pattern of the callers: an environment, then a local reference to an
    object that a global one is kept for; without either, [default]. *)
Definition with_object {A} (vm : bool) (instance : ref) (default : A) (body : ref -> prog A) : prog A :=
  with_environment vm (fun pEnv =>
    if pEnv then
      let* object := jni (NewLocalRef instance) in
      if nonnull object then body object else Ret default
    else Ret default).

Definition hasException (environment : bool) : prog bool :=
  if environment then jni ExceptionCheck else Ret false.

Definition clearException (environment : bool) : prog bool :=
  let* e := hasException environment in
  if e then jni ExceptionClear ;; Ret true else Ret false.

Definition reportException (environment : bool) : prog bool :=
  if environment then
    let* exc := jni ExceptionOccurred in
    if nonnull exc then
      jni ExceptionClear ;;
      let* cid := jni (FindClass "java/lang/Throwable") in
      let* e := clearException environment in
      when (negb e && nonnull cid)
        (let* mid := jni (GetMethodID cid "toString" "()Ljava/lang/String;") in
         let* e := clearException environment in
         when (negb e)
           (let* jmsg := jni (CallObjectMethod exc mid []) in
            let* e := clearException environment in
            when (negb e)
              (let* pmsg := jni (GetStringUTFChars jmsg) in
               jni (ReleaseStringUTFChars jmsg))) ;;
         jni (DeleteLocalRef cid)) ;;
      jni (DeleteLocalRef exc) ;;
      Ret true
    else Ret false
  else Ret false.

(** The class to throw: the one asked for, or [java.lang.Exception]. *)
Definition pick_class (type : option string) : prog ref :=
  match type with
  | Some type =>
      let* klass := jni (FindClass type) in
      let* e := jni ExceptionCheck in
      when e (jni ExceptionClear) ;;
      Ret klass
  | None => Ret None
  end.
Definition throw_class (message : string) (klass : ref) : prog unit :=
  if nonnull klass then jni (ThrowNew klass message)
  else
    let* klass := jni (FindClass "java/lang/Exception") in
    let* e := jni ExceptionCheck in
    if e || negb (nonnull klass) then jni ExceptionClear
    else jni (ThrowNew klass message).
(** Nothing when an exception is pending already, or without an environment. *)
Definition ThrowJavaException (env : bool) (type : option string) (message : string) : prog unit :=
  if env then
    let* e := jni ExceptionCheck in
    if e then Ret tt
    else
      let* klass := pick_class type in
      throw_class message klass
  else Ret tt.

(** ** Operations one after the other *)

Fixpoint each {X Y} (op : X -> prog Y) (xs : list X) : prog (list Y) :=
  match xs with
  | [] => Ret []
  | x :: xs => let* y := op x in let* ys := each op xs in Ret (y :: ys)
  end.

(** Their effects, chained. *)
Fixpoint chained {X Y} (R : X -> list java_call -> Y -> list java_call -> Prop) (xs : list X) (ys : list Y) (before after : list java_call) : Prop :=
  match xs, ys with
  | [], [] => after = before
  | x :: xs, y :: ys => exists middle, R x before y middle /\ chained R xs ys middle after
  | _, _ => False
  end.

Lemma chained_silent {X Y} (R : X -> Y -> Prop) xs : forall ys before after,
  chained (fun x b y a => R x y /\ a = b) xs ys before after -> Forall2 R xs ys /\ after = before.
Proof.
  induction xs as [|x xs IH]; intros [|y ys] b a; cbn; try tauto; [auto|]. intros (m & [H ->] & K).
  destruct (IH _ _ _ K) as [F ->]. auto.
Qed.

(** Nothing that the thread sees but the exception flag differs. *)
Definition same_but_pending (j j' : jvm) : Prop :=
  attached j' = attached j /\ raised j' = raised j /\ locals j' = locals j /\ globals j' = globals j /\ calls j' = calls j.

(** The Java methods of the player or the stream, without the texts of
    exceptions. *)
Definition java_calls (j : jvm) : list java_call := filter (fun c => called c <> "toString"%string) (calls j).

(** A call of another method is one of them. *)
Lemma java_calls_log j name sig args out : name <> "toString"%string ->
  java_calls (log_call (Some (name, sig)) args out j) = java_calls j ++ [mkCall name (map (value_of j) args) out].
Proof.
  intros H. unfold java_calls, log_call, with_calls. cbn [calls]. rewrite filter_app. f_equal. rewrite filter_cons_True by exact H. reflexivity.
Qed.

(** The thread goes on as before: nothing pending, at most one reference more
    for each exception that was raised. *)
Record grows (j j' : jvm) : Prop := mkGrows {
  g_attached : attached j' = attached j;
  g_pending : pending j' = false;
  g_raised : (raised j <= raised j')%nat;
  g_locals : locals j ⊆ locals j';
  g_leaks : (size (locals j') <= size (locals j) + (raised j' - raised j))%nat }.

Lemma grows_refl j : pending j = false -> grows j j.
Proof. intros H. split; auto; lia. Qed.
Lemma grows_trans j j1 j2 : grows j j1 -> grows j1 j2 -> grows j j2.
Proof.
  intros [A1 P1 R1 S1 L1] [A2 P2 R2 S2 L2]. split; try congruence; try lia. etransitivity; eassumption.
Qed.

(** Without an exception nothing is left. *)
Lemma grows_balanced j j' : grows j j' -> raised j' = raised j -> locals j' = locals j.
Proof.
  intros [_ _ _ S L] E. rewrite E, Nat.sub_diag, Nat.add_0_r in L.
  symmetry. apply map_subseteq_size_eq; [exact S|]. lia.
Qed.

Lemma java_calls_text C a o : filter (fun c => called c <> "toString"%string) (C ++ [mkCall "toString" a o]) = filter (fun c => called c <> "toString"%string) C.
Proof. rewrite filter_app, filter_cons_False by (cbn; auto). apply app_nil_r. Qed.

(** A thread outside any JNI operation: nothing pending, and no references
    when the machine does not know it. *)
Definition idle (j : jvm) : Prop := pending j = false /\ (attached j = false -> locals j = ∅).
(** It is as before, with a reference for some of the exceptions raised
    meanwhile; nothing at all when the operation attached the thread. *)
Record settles (j j' : jvm) : Prop := mkSettles {
  s_attached : attached j' = attached j;
  s_pending : pending j' = false;
  s_raised : (raised j <= raised j')%nat;
  s_locals : if attached j then locals j ⊆ locals j' /\ (size (locals j') <= size (locals j) + (raised j' - raised j))%nat else locals j' = ∅ }.

Lemma settles_refl j : idle j -> settles j j.
Proof. intros [H1 H2]. split; auto. destruct (attached j); [split; [reflexivity|lia]|auto]. Qed.
Lemma settles_idle j j' : settles j j' -> idle j'.
Proof. intros [A P _ L]. split; [exact P|]. rewrite A. destruct (attached j); [discriminate|auto]. Qed.

Lemma settles_trans j j1 j2 : settles j j1 -> settles j1 j2 -> settles j j2.
Proof.
  intros [A P R L] [A' P' R' L']. split; [congruence|exact P'|lia|]. rewrite A in L'. destruct (attached j); [|exact L'].
  destruct L as [S1 N1], L' as [S2 N2]. split; [etransitivity; eassumption|lia].
Qed.

(** Both of a machine's services work. *)
Definition sound_machine `{Machine} : Prop := text_available = true /\ machine_available = true.

Ltac grows_ends :=
  split; cbn [attached pending raised locals globals with_pending];
  first [reflexivity | lia | apply insert_subseteq; assumption | rewrite ?map_size_insert_None by assumption; lia
        | unfold java_calls; cbn [calls]; rewrite ?java_calls_text; reflexivity].

(** After an exception was printed: at most its text is left. *)
Record printed (j j' : jvm) : Prop := mkPrinted {
  p_attached : attached j' = attached j;
  p_pending : pending j' = false;
  p_raised : (raised j <= raised j')%nat;
  p_locals : locals j ⊆ locals j';
  p_leaks : (size (locals j') <= S (size (locals j)))%nat;
  p_globals : globals j' = globals j;
  p_calls : java_calls j' = java_calls j }.

Section Utils.
Context `{MACHINE : Machine}.

Lemma reportException_rule j (Q : bool -> jvm -> Prop) : text_available = true -> attached j = true ->
  (if pending j then forall j', printed j j' -> Q true j' else Q false j) -> wp (reportException true) j Q.
Proof.
  intros HT HA H. unfold reportException, clearException, hasException, when.
  destruct j as [a p n L G C]. cbn [attached pending] in *. subst a. destruct p; repeat jstep; cbn [wp]; try exact H.
  all: apply H; grows_ends.
Qed.

(** After an exception was raised and printed. *)
Lemma printed_grows j j' : printed (raise j) j' -> grows j j' /\ java_calls j' = java_calls j /\ globals j' = globals j.
Proof. intros [P1 P2 P3 P4 P5 P6 P7]. cbn in *. split; [split; auto; lia|auto]. Qed.

(** A string for Java, reported when it cannot be made. *)
Lemma string_rule {A} s (k : ref -> bool -> prog A) j Q :
  text_available = true -> attached j = true -> pending j = false ->
  (forall l, fresh l j -> wp (k (Some l) false) (with_local l (JString s) j) Q) ->
  (forall j', grows j j' -> java_calls j' = java_calls j -> globals j' = globals j -> wp (k None true) j' Q) ->
  wp (let* r := jni (NewStringUTF s) in let* e := reportException true in k r e) j Q.
Proof.
  intros HT HA HP H1 H2. cbn [wp bind jni]. split; [unfold allowed; rewrite HA, HP; reflexivity|].
  intros r j' [(l & F & -> & ->)|[-> ->]]; apply jwp_bind, reportException_rule; auto; cbn [pending with_local with_locals raise].
  - rewrite HP. apply H1, F.
  - intros j' P. destruct (printed_grows _ _ P) as (G & C & B). apply H2; assumption.
Qed.

(** A method without a result, reported when it throws. *)
Lemma call_rule {A} o m args (k : bool -> prog A) j Q :
  text_available = true -> attached j = true -> pending j = false -> allowed (CallVoidMethod o m args) j = true ->
  wp (k false) (log_call m args (Some 0) j) Q ->
  (forall j', grows j j' -> java_calls j' = java_calls (log_call m args None j) -> globals j' = globals j -> wp (k true) j' Q) ->
  wp (jni (CallVoidMethod o m args) ;; let* e := reportException true in k e) j Q.
Proof.
  intros HT HA HP HO H1 H2. cbn [wp bind jni]. split; [exact HO|].
  intros r j' [[_ ->]| ->]; apply jwp_bind, reportException_rule; auto; cbn [pending log_call with_calls raise].
  - rewrite HP. exact H1.
  - intros j' P. destruct (printed_grows (log_call m args None j) _ P) as (G & C & B). apply H2; [|exact C|exact B].
    destruct G. split; assumption.
Qed.

(** Java sees one exception, the pending one if there is any; only when not even
    [java.lang.Exception] is found, none. *)
Lemma ThrowJavaException_rule type message j : attached j = true ->
  wp (ThrowJavaException true type message) j (fun _ j' => attached j' = true /\ globals j' = globals j /\ java_calls j' = java_calls j /\
    if pending j then j' = j else pending j' = true \/ (raised j < raised j')%nat).
Proof.
  intros HA. unfold ThrowJavaException, pick_class, throw_class, when. destruct j as [a p n L G C]. cbn [attached pending] in *. subst a.
  destruct p; [repeat jstep; cbn [wp]; auto|]. destruct type; repeat jstep; cbn [wp]; unfold java_calls; cbn; (split_and!; auto; lia).
Qed.

Lemma delete_rule {A} l (k : prog A) j Q : attached j = true -> is_Some (locals j !! l) ->
  wp k (with_locals (delete l (locals j)) j) Q -> wp (jni (DeleteLocalRef (Some l)) ;; k) j Q.
Proof.
  intros HA [x HL] H. cbn [wp bind jni]. split; [unfold allowed, is_local; rewrite HA, HL; reflexivity|]. intros [] j' ->. exact H.
Qed.

(** Giving back a reference taken before. *)
Lemma grows_delete j l x j' : fresh l j -> grows (with_local l x j) j' -> grows j (with_locals (delete l (locals j')) j') /\ is_Some (locals j' !! l).
Proof.
  intros [F _] [G1 G2 G3 G4 G5]. cbn in *.
  assert (HL : locals j' !! l = Some x) by (eapply lookup_weaken; [apply lookup_insert_eq|exact G4]).
  split; [|rewrite HL; eauto]. split; cbn; auto.
  - apply map_subseteq_spec. intros i y Hi. rewrite lookup_delete_ne by (intros ->; congruence).
    eapply lookup_weaken; [|exact G4]. rewrite lookup_insert_ne by (intros ->; congruence). exact Hi.
  - rewrite (map_size_insert_None _ _ _ F) in G5. rewrite map_size_delete_Some by eauto. lia.
Qed.

Lemma clearException_rule j Q : attached j = true -> Q (pending j) (with_pending false j) -> wp (clearException true) j Q.
Proof.
  intros HA H. unfold clearException, hasException. destruct j as [a p n L G C]. cbn [attached pending] in *. subst a.
  destruct p; repeat jstep; exact H.
Qed.

(** An operation in an environment, with what it does to the calls and the
    global references. *)
Lemma with_environment_rule {A} vm (body : bool -> prog A) j (R : A -> list java_call -> gmap positive jobject -> Prop) :
  sound_machine -> idle j ->
  wp (body false) j (fun a j' => j' = j /\ R a (java_calls j) (globals j)) ->
  (forall j1, attached j1 = true -> pending j1 = false -> globals j1 = globals j -> java_calls j1 = java_calls j -> locals j1 = locals j ->
     wp (body true) j1 (fun a j' => grows j1 j' /\ R a (java_calls j') (globals j'))) ->
  wp (with_environment vm body) j (fun a j' => settles j j' /\ R a (java_calls j') (globals j')).
Proof.
  intros [_ HM] I H0 H1. unfold with_environment, GetJavaEnvironment, when.
  assert (N : wp (let* a := body false in (if false && false then let* ok := jni GetJavaVM in when ok (jni DetachCurrentThread) else Ret tt) ;; Ret a) j
    (fun a j' => settles j j' /\ R a (java_calls j') (globals j'))).
  { apply jwp_bind. eapply jwp_mono; [exact H0|]. intros a j' [-> HR]. cbn [wp bind andb]. split; [apply settles_refl, I|exact HR]. }
  destruct vm; cbn [wp bind jni]; [|exact N]. split; [reflexivity|]. intros known j' [-> ->].
  destruct I as [P L]. destruct (attached j) eqn:HA; cbn [wp bind jni].
  - apply jwp_bind. eapply jwp_mono; [apply H1; auto|]. intros a j' [G HR]. cbn [wp bind andb]. split; [|exact HR].
    destruct G as [G1 G2 G3 G4 G5]. split; auto. rewrite HA. auto.
  - split; [reflexivity|]. intros ok j' ->. destruct ok; [|exact N].
    apply jwp_bind. eapply jwp_mono; [apply (H1 (with_attached true j)); auto|]. intros a j' [G HR]. destruct G as [G1 G2 G3 G4 G5]. cbn [attached with_attached] in G1.
    cbn [wp bind andb jni]. split; [unfold allowed; rewrite G1, G2; reflexivity|]. intros ok j2 [[-> ->]|[F _]]; [|congruence].
    cbn [wp bind jni when]. split; [exact G1|]. intros [] j3 ->. cbn [wp]. split; [|exact HR].
    split; cbn; auto. rewrite HA. reflexivity.
Qed.
Lemma local_live j1 l x : locals j1 !! l = Some x -> object_of j1 (Some l) = Some x.
Proof. intros H. unfold object_of. rewrite H. reflexivity. Qed.

(** The object's global reference, if there is one, is good. *)
Definition instance_ok (instance : ref) (j : jvm) : Prop := forall g, instance = Some g -> is_Some (globals j !! g).

Lemma with_object_rule {A} vm instance (default : A) body j (R : A -> list java_call -> Prop) :
  sound_machine -> idle j -> instance_ok instance j ->
  R default (java_calls j) ->
  (forall j0 l x, attached j0 = true -> pending j0 = false -> java_calls j0 = java_calls j -> fresh l j0 ->
     wp (body (Some l)) (with_local l x j0) (fun a j' => grows j0 j' /\ R a (java_calls j') /\ globals j' = globals j0)) ->
  wp (with_object vm instance default body) j (fun a j' => settles j j' /\ R a (java_calls j') /\ globals j' = globals j).
Proof.
  intros HM HI HR H0 H1. unfold with_object.
  apply (with_environment_rule _ _ _ (fun a cs gs => R a cs /\ gs = globals j)); [exact HM|exact HI|cbn; auto|].
  intros j1 A1 P1 G1 C1 _. cbn [wp bind jni]. split.
  - unfold allowed, live_or_null, live, object_of. rewrite A1, P1. destruct instance as [g|] eqn:E; [|reflexivity].
    destruct (HR g eq_refl) as [x Hx]. rewrite G1, Hx. destruct (locals j1 !! g); reflexivity.
  - intros r j' [[-> ->]|(x & Hx & l & F & -> & ->)]; cbn [nonnull wp].
    + split; [apply grows_refl, P1|]. rewrite C1, G1. auto.
    + eapply jwp_mono; [apply (H1 j1 l x); assumption|]. cbn beta. intros a j' (G & B & E). split; [exact G|]. split; [exact B|congruence].
Qed.

(** Without the object nothing is called. *)
Lemma no_object_rule {A} vm (default : A) body j : sound_machine -> idle j ->
  wp (with_object vm None default body) j (fun a j' => settles j j' /\ (a = default /\ java_calls j' = java_calls j) /\ globals j' = globals j).
Proof.
  intros HM I. unfold with_object.
  eapply jwp_mono; [apply (with_environment_rule _ _ _ (fun a cs gs => (a = default /\ cs = java_calls j) /\ gs = globals j)); [exact HM|exact I|cbn; auto|]|auto].
  intros j1 A1 P1 G1 C1 _. cbn [wp bind jni]. split; [unfold allowed; rewrite A1, P1; reflexivity|].
  intros r j' [[-> ->]|(x & F & _)]; [|discriminate]. cbn [nonnull wp]. split; [apply grows_refl, P1|]. rewrite C1, G1. auto.
Qed.

(** The last call of such a block gives back the object. *)
Lemma release_rule {A} l x j0 j' (a : A) (Q : A -> list java_call -> Prop) : attached j0 = true -> fresh l j0 ->
  grows (with_local l x j0) j' -> Q a (java_calls j') -> globals j' = globals j0 ->
  wp (jni (DeleteLocalRef (Some l)) ;; Ret a) j' (fun a j'' => grows j0 j'' /\ Q a (java_calls j'') /\ globals j'' = globals j0).
Proof.
  intros A0 F G H E. destruct (grows_delete _ _ _ _ F G) as [G' L].
  apply delete_rule; [rewrite (g_attached _ _ G); exact A0|exact L|]. cbn [wp]. auto.
Qed.

(** A thread that the machine knows needs no attaching. *)
Lemma attached_rule {A} (body : bool -> prog A) j Q : attached j = true ->
  wp (body true) j Q -> wp (with_environment true body) j Q.
Proof.
  intros A0 H. unfold with_environment, GetJavaEnvironment. cbn [wp bind jni]. split; [reflexivity|].
  intros known j' [-> ->]. rewrite A0. cbn [wp bind]. apply jwp_bind. eapply jwp_mono; [exact H|]. auto.
Qed.

(** Nothing but printed exceptions. *)
Definition quiet (j j' : jvm) : Prop := grows j j' /\ java_calls j' = java_calls j /\ globals j' = globals j.
Lemma quiet_refl j : pending j = false -> quiet j j.
Proof. intros H. split; [apply grows_refl, H|auto]. Qed.
Lemma quiet_trans j j1 j2 : quiet j j1 -> quiet j1 j2 -> quiet j j2.
Proof. intros (G & C & E) (G' & C' & E'). split; [eapply grows_trans; eassumption|split; congruence]. Qed.
Lemma printed_quiet j j' : printed (raise j) j' -> quiet j j'.
Proof. intros H. destruct (printed_grows _ _ H) as (G & C & E). split; auto. Qed.

(** An operation that settles can be repeated. *)
Lemma each_rule {X Y} (op : X -> prog Y) (P : X -> Prop) R gs :
  (forall x j, P x -> idle j -> globals j = gs ->
     wp (op x) j (fun y j' => settles j j' /\ R x (java_calls j) y (java_calls j') /\ globals j' = globals j)) ->
  forall xs j, Forall P xs -> idle j -> globals j = gs ->
  wp (each op xs) j (fun ys j' => settles j j' /\ chained R xs ys (java_calls j) (java_calls j') /\ globals j' = globals j).
Proof.
  intros H. induction xs as [|x xs IH]; intros j F I G; cbn [each].
  - cbn [wp chained]. split; [apply settles_refl, I|auto].
  - inversion F as [|? ? F1 Fs]. subst. apply jwp_bind. eapply jwp_mono; [apply H; auto|]. cbn beta. intros y j1 (S1 & R1 & G1).
    apply jwp_bind. eapply jwp_mono; [apply IH; [exact Fs|eapply settles_idle, S1|congruence]|]. cbn beta. intros ys j2 (S2 & R2 & G2).
    cbn [wp chained]. split; [eapply settles_trans; eassumption|]. split; [eauto|congruence].
Qed.
End Utils.
