(* ===== verification/JniRun.v ===== *)
(** * A machine to run against

    [calm] is a machine on which nothing fails: every call that JNI allows
    succeeds, methods return what [reply] says of their names, and the buffer of
    a stream is [memory].  [without] is the same machine for a class that lacks
    one method.  Both keep JNI's rules ([calm_faithful], [without_faithful]), so
    what the weakest preconditions promise holds of their executions. *)

From S2P Require Import Prelude CFloat JniApi JniUtils.
Local Open Scope Z_scope.

(** A reference that is not in use. *)
Definition unused (j : jvm) : positive := stdpp.base.fresh (dom (locals j) ∪ dom (globals j)).
Lemma unused_fresh j : fresh (unused j) j.
Proof.
  pose proof (is_fresh (dom (locals j) ∪ dom (globals j))) as H. fold (unused j) in H.
  apply not_elem_of_union in H as [H1 H2]. split; apply not_elem_of_dom; assumption.
Qed.

#[export] Instance all_services : Machine := { text_available := true; machine_available := true; globals_available := true; field_set := true; memory_holds := fun m => m <> None }.
Lemma all_sound : sound_machine.
Proof. split; reflexivity. Qed.

Section Calm.
Variables (reply : string -> Z) (memory : list Z).

Definition new (x : jobject) (j : jvm) : ref * jvm := (Some (unused j), with_local (unused j) x j).

(** What a method returns, and the machine after it. *)
Definition replied (k : kind) (m : jmethodID) (args : list jarg) (j : jvm) : result k * jvm :=
  let z := match m with Some (name, _) => reply name | None => 0 end in
  match k with
  | KVoid => (tt, log_call m args (Some 0) j)
  | KBoolean => (negb (z =? 0), log_call m args (Some (if z =? 0 then 0 else 1)) j)
  | KInt => let z := if fits_int z then z else 0 in (z, log_call m args (Some z) j)
  | KLong => let z := if fits_long z then z else 0 in (z, log_call m args (Some z) j)
  | KObject => new (if returns_string m then JString "java" else JObject) (log_call m args (Some 0) j)
  end.

Definition calm : oracle := fun R c j =>
  match c in jcall R return R * jvm with
  | GetJavaVM => (true, j)
  | GetEnv => (attached j, j)
  | AttachCurrentThreadAsDaemon => (true, with_attached true j)
  | DetachCurrentThread => (tt, with_attached false (with_locals ∅ j))
  | ExceptionCheck => (pending j, j)
  | ExceptionOccurred => if pending j then new JObject j else (None, j)
  | ExceptionClear => (tt, with_pending false j)
  | NewLocalRef o => match object_of j o with Some x => new x j | None => (None, j) end
  | DeleteLocalRef o => (tt, match o with Some l => with_locals (delete l (locals j)) j | None => j end)
  | NewGlobalRef o =>
      match object_of j o with
      | Some x => (Some (unused j), with_globals (<[unused j := x]> (globals j)) j)
      | None => (None, j)
      end
  | DeleteGlobalRef o => (tt, match o with Some l => with_globals (delete l (globals j)) j | None => j end)
  | FindClass name => new (JClass name) j
  | GetObjectClass _ => new (JClass "java/lang/Object") j
  | GetMethodID _ name sig => (Some (name, sig), j)
  | GetStaticMethodID _ name sig => (Some (name, sig), j)
  | GetFieldID _ name sig => (Some (name, sig), j)
  | NewStringUTF s => new (JString s) j
  | GetStringUTFChars o => (match object_of j o with Some (JString s) => Some s | _ => None end, j)
  | ReleaseStringUTFChars _ => (tt, j)
  | CallMethod k o m args => replied k m args j
  | ThrowNew _ _ => (tt, raise j)
  | NewObject _ _ _ => new JObject j
  | GetObjectField _ _ => new JObject j
  | GetDirectBufferAddress _ => (Some memory, j)
  | SetFloatArrayRegion a vs => (tt, set_floats a vs j)
  | SetLongArrayRegion a vs => (tt, set_longs a vs j)
  | SetDoubleArrayRegion a vs => (tt, set_doubles a vs j)
  end.

(** A class without the method [absent]. *)
Definition without (absent : string) : oracle := fun R c j =>
  match c in jcall R return R * jvm with
  | GetMethodID o name sig => if decide (name = absent) then (None, raise j) else (Some (name, sig), j)
  | c => calm _ c j
  end.

(** The method [thrower] throws; what the call returns then has no meaning, and
    is [left] here. *)
Definition throwing (thrower : string) (left : Z) : oracle := fun R c j =>
  match c in jcall R return R * jvm with
  | CallMethod k o m args =>
      if decide (option_map fst m = Some thrower) then
        (match k return result k with KInt | KLong => left | KVoid => tt | KBoolean => negb (left =? 0) | KObject => None end, raise (log_call m args None j))
      else calm _ (CallMethod k o m args) j
  | c => calm _ c j
  end.

Lemma new_is_new x j : new_local x j (fst (new x j)) (snd (new x j)).
Proof. exists (unused j). split; [apply unused_fresh|auto]. Qed.

Lemma replied_returned k m args j :
  let '(r, j') := replied k m args j in returned k m (log_call m args (Some (outcome_of k r)) j) r j'.
Proof.
  unfold replied, returned, in_range, outcome_of. set (z := match m with Some (name, _) => reply name | None => 0 end).
  destruct k; [auto| | | |].
  - destruct (z =? 0); auto.
  - destruct (fits_int z) eqn:E; auto.
  - destruct (fits_long z) eqn:E; auto.
  - destruct (returns_string m); [left; exists "java"%string|right]; apply new_is_new.
Qed.

Lemma calm_faithful : faithful calm.
Proof.
  intros R c j Ha. pose proof (unused_fresh j) as F. pose proof (fun x => new_is_new x j) as N. unfold new in N. cbn [fst snd] in N.
  destruct c; cbn [calm]; unfold answers, local_or_raise, id_or_raise, new; auto; try (split; [discriminate|reflexivity]).
  - destruct (pending j); [apply N|auto].
  - destruct (object_of j o) as [x|]; [right; exists x; auto|auto].
  - destruct (object_of j o) as [x|] eqn:E; [right; exists x, (unused j); auto|]. left. split; [reflexivity|]. split; [reflexivity|].
    intros _. destruct o as [l|]; [|reflexivity]. exfalso. cbn [allowed live_or_null] in Ha. unfold live in Ha. rewrite E, andb_false_r in Ha. discriminate.
  - exists "java/lang/Object"%string. apply N.
  - destruct (object_of j o) as [[s|?| |??]|] eqn:E; [left; eauto| | | |]; exfalso; cbn in Ha; unfold is_string in Ha; rewrite E, andb_false_r in Ha; discriminate.
  - pose proof (replied_returned k m args j) as H. destruct (replied k m args j) as [r j']. left. exact H.
Qed.

Lemma without_faithful absent : faithful (without absent).
Proof.
  intros R c j Ha. pose proof (calm_faithful R c j Ha) as H. destruct c; try exact H.
  cbn [without]. unfold answers, id_or_raise. destruct (decide (name = absent)); auto.
Qed.

Lemma throwing_faithful thrower left : faithful (throwing thrower left).
Proof.
  intros R c j Ha. pose proof (calm_faithful R c j Ha) as H. destruct c; try exact H.
  cbn [throwing]. destruct (decide _); [|exact H]. right. reflexivity.
Qed.
End Calm.

Definition no_reply (_ : string) : Z := 0.
