(* ===== verification/EventDispatch.v ===== *)
(** * Events for the Java player ([jni/JavaPlayerEventDispatcher.cpp])

    Whatever the pipeline has to tell goes through this object: it keeps the
    machine and a global reference to the Java player, and calls one Java
    method for each event. *)

From S2P Require Import Prelude CFloat MediaTypes JniApi JniUtils.
Local Open Scope Z_scope.
Local Open Scope jni_scope.

(** The methods whose identifiers [Init] looks up. *)
Inductive method :=
| sendWarning | sendPlayerMediaErrorEvent | sendPlayerHaltEvent | sendPlayerStateEvent | sendNewFrameEvent
| sendFrameSizeChangedEvent | sendAudioTrack | sendVideoTrack | sendSubtitleTrack | sendMarkerEvent
| sendBufferProgressEvent | sendDurationUpdateEvent | sendAudioSpectrumEvent.
#[export] Instance method_eq_dec : EqDecision method.
Proof. solve_decision. Defined.

Definition method_name (m : method) : string :=
  match m with
  | sendWarning => "sendWarning"
  | sendPlayerMediaErrorEvent => "sendPlayerMediaErrorEvent"
  | sendPlayerHaltEvent => "sendPlayerHaltEvent"
  | sendPlayerStateEvent => "sendPlayerStateEvent"
  | sendNewFrameEvent => "sendNewFrameEvent"
  | sendFrameSizeChangedEvent => "sendFrameSizeChangedEvent"
  | sendAudioTrack => "sendAudioTrack"
  | sendVideoTrack => "sendVideoTrack"
  | sendSubtitleTrack => "sendSubtitleTrack"
  | sendMarkerEvent => "sendMarkerEvent"
  | sendBufferProgressEvent => "sendBufferProgressEvent"
  | sendDurationUpdateEvent => "sendDurationUpdateEvent"
  | sendAudioSpectrumEvent => "sendAudioSpectrumEvent"
  end.
Definition method_sig (m : method) : string :=
  match m with
  | sendWarning => "(ILjava/lang/String;)V"
  | sendPlayerMediaErrorEvent => "(I)V"
  | sendPlayerHaltEvent => "(Ljava/lang/String;D)V"
  | sendPlayerStateEvent => "(ID)V"
  | sendNewFrameEvent => "(J)V"
  | sendFrameSizeChangedEvent => "(II)V"
  | sendAudioTrack => "(ZJLjava/lang/String;ILjava/lang/String;IIF)V"
  | sendVideoTrack => "(ZJLjava/lang/String;IIIFZ)V"
  | sendSubtitleTrack => "(ZJLjava/lang/String;ILjava/lang/String;)V"
  | sendMarkerEvent => "(Ljava/lang/String;D)V"
  | sendBufferProgressEvent => "(DJJJ)V"
  | sendDurationUpdateEvent => "(D)V"
  | sendAudioSpectrumEvent => "(DDZ)V"
  end.
(** The order of the look-ups. *)
Definition methods : list method :=
  [sendWarning; sendPlayerMediaErrorEvent; sendPlayerHaltEvent; sendPlayerStateEvent; sendNewFrameEvent;
   sendFrameSizeChangedEvent; sendAudioTrack; sendVideoTrack; sendSubtitleTrack; sendMarkerEvent;
   sendBufferProgressEvent; sendDurationUpdateEvent; sendAudioSpectrumEvent].

(** The members of the object, and the static ones. *)
Record dispatcher := mkDispatcher { m_PlayerVM : bool; m_PlayerInstance : ref; m_MediaReference : Z }.
Record statics := mkStatics { areJMethodIDsInitialized : bool; m_Method : method -> jmethodID }.
#[export] Instance eta_dispatcher : Eta dispatcher :=
  eta_ap (eta_ap (eta_ap (eta_pure mkDispatcher) m_PlayerVM) m_PlayerInstance) m_MediaReference.

Definition new_dispatcher : dispatcher := mkDispatcher false None 0.
Definition no_statics : statics := mkStatics false (fun _ => None).
Definition set_method (m : method) (id : jmethodID) (ids : method -> jmethodID) : method -> jmethodID :=
  fun m' => if decide (m' = m) then id else ids m'.

(** ** Init and Dispose *)

(** The chain of look-ups; it stops at the first that fails. *)
Fixpoint look_up (klass : ref) (ms : list method) (ids : method -> jmethodID) : prog (bool * (method -> jmethodID)) :=
  match ms with
  | [] => Ret (false, ids)
  | m :: ms =>
      let* id := jni (GetMethodID klass (method_name m) (method_sig m)) in
      let ids := set_method m id ids in
      let* e := reportException true in
      if e || negb (nonnull id) then Ret (true, ids) else look_up klass ms ids
  end.

Definition Init (player : ref) (media : Z) (d : dispatcher) (s : statics) : prog (dispatcher * statics) :=
  let* ok := jni GetJavaVM in
  if negb ok then
    let* e := jni ExceptionCheck in
    when e (jni ExceptionClear) ;;
    Ret (d, s)
  else
    let* instance := jni (NewGlobalRef player) in
    let d := mkDispatcher true instance media in
    if areJMethodIDsInitialized s then Ret (d, s)
    else
      let* klass := jni (GetObjectClass instance) in
      let* '(hasException, ids) := look_up klass methods (m_Method s) in
      jni (DeleteLocalRef klass) ;;
      Ret (d, mkStatics (negb hasException) ids).

Definition Dispose (d : dispatcher) : prog dispatcher :=
  with_environment (m_PlayerVM d) (fun pEnv =>
    if pEnv then jni (DeleteGlobalRef (m_PlayerInstance d)) ;; Ret (d <| m_PlayerInstance := None |>)
    else Ret d).

(** ** Events *)

(** With a local reference to the player, if there still is one. *)
Definition with_player {A} (d : dispatcher) (default : A) (body : ref -> prog A) : prog A :=
  with_object (m_PlayerVM d) (m_PlayerInstance d) default body.

(** The call, the release of the player, and the report, as most of the
    functions do it. *)
Definition send (d : dispatcher) (s : statics) (m : method) (args : list jarg) : prog bool :=
  with_player d false (fun localPlayer =>
    jni (CallVoidMethod localPlayer (m_Method s m) args) ;;
    jni (DeleteLocalRef localPlayer) ;;
    let* e := reportException true in
    Ret (negb e)).

Definition Warning (d : dispatcher) (s : statics) (warningCode : Z) (warningMessage : option string) : prog unit :=
  with_player d tt (fun localPlayer =>
    match warningMessage with
    | Some message =>
        let* jmessage := jni (NewStringUTF message) in
        let* e := reportException true in
        when (negb e && nonnull jmessage)
          (jni (CallVoidMethod localPlayer (m_Method s sendWarning) [AInt warningCode; AObject jmessage]) ;;
           reportException true ;;
           jni (DeleteLocalRef jmessage))
    | None => Ret tt
    end ;;
    jni (DeleteLocalRef localPlayer)).

Definition SendPlayerMediaErrorEvent (d : dispatcher) (s : statics) (errorCode : Z) : prog bool :=
  send d s sendPlayerMediaErrorEvent [AInt errorCode].

Definition SendPlayerHaltEvent (d : dispatcher) (s : statics) (message : string) (time : double) : prog bool :=
  with_player d false (fun localPlayer =>
    let* jmessage := jni (NewStringUTF message) in
    let* e := reportException true in
    let* bSucceeded :=
      (if negb e && nonnull jmessage then
         jni (CallVoidMethod localPlayer (m_Method s sendPlayerHaltEvent) [AObject jmessage; ADouble time]) ;;
         jni (DeleteLocalRef jmessage) ;;
         let* e := reportException true in
         Ret (negb e)
       else Ret false) in
    jni (DeleteLocalRef localPlayer) ;;
    Ret bSucceeded).

(** The states of [CPipeline] and of the Java player; a C [long] is passed. *)
Definition java_state (newState : Z) : option Z :=
  if newState =? PlayerState_value Unknown then Some 100
  else if newState =? PlayerState_value Ready then Some 101
  else if newState =? PlayerState_value Playing then Some 102
  else if newState =? PlayerState_value Paused then Some 103
  else if newState =? PlayerState_value Stopped then Some 104
  else if newState =? PlayerState_value Stalled then Some 105
  else if newState =? PlayerState_value Finished then Some 106
  else if newState =? PlayerState_value Error then Some 107
  else None.

Definition SendPlayerStateEvent (d : dispatcher) (s : statics) (newState : Z) (presentTime : double) : prog bool :=
  match java_state newState with
  | Some newJavaState => send d s sendPlayerStateEvent [ACLong newJavaState; ADouble presentTime]
  | None => Ret false
  end.

Definition SendNewFrameEvent (d : dispatcher) (s : statics) (pVideoFrame : Z) : prog bool :=
  send d s sendNewFrameEvent [ALong pVideoFrame].
Definition SendFrameSizeChangedEvent (d : dispatcher) (s : statics) (width height : Z) : prog bool :=
  send d s sendFrameSizeChangedEvent [AInt width; AInt height].

(** [CTrack::Encoding] as an [int]. *)
Definition Encoding_value (e : Encoding) : Z :=
  match e with NONE => 0 | PCM => 1 | MPEG1AUDIO => 2 | MPEG1LAYER3 => 3 | AAC => 4 | H264 => 5 | H265 => 6 | CUSTOM => 7 end.

Definition REAR_CENTER : Z := 0x20.
(** The channel mask, bit by bit; the Java constants have the same values. *)
Definition java_mask (nativeChannelMask : Z) : Z :=
  let bit native java mask := if negb (Z.land nativeChannelMask native =? 0) then Z.lor mask java else mask in
  bit REAR_CENTER 0x20 (bit REAR_RIGHT 0x10 (bit REAR_LEFT 0x08 (bit FRONT_CENTER 0x04 (bit FRONT_RIGHT 0x02
    (bit FRONT_LEFT 0x01 (bit CHANNEL_UNKNOWN 0 0)))))).

(** With a Java string, which is given back afterwards. *)
Definition with_string (text : string) (body : ref -> prog bool) : prog bool :=
  let* jtext := jni (NewStringUTF text) in
  let* e := reportException true in
  if negb e && nonnull jtext then
    let* ok := body jtext in
    jni (DeleteLocalRef jtext) ;;
    Ret ok
  else Ret false.
(** The functions that pass a name first. *)
Definition send_named (d : dispatcher) (name : string) (body : ref -> ref -> prog bool) : prog bool :=
  with_player d false (fun localPlayer =>
    let* bSucceeded := with_string name (body localPlayer) in
    jni (DeleteLocalRef localPlayer) ;;
    Ret bSucceeded).
Definition call_reported (localPlayer : ref) (m : jmethodID) (args : list jarg) : prog bool :=
  jni (CallVoidMethod localPlayer m args) ;;
  let* e := reportException true in
  Ret (negb e).

Definition SendAudioTrackEvent (d : dispatcher) (s : statics) (pTrack : CAudioTrack) : prog bool :=
  send_named d (at_name pTrack) (fun localPlayer name =>
    with_string (at_language pTrack) (fun language =>
      call_reported localPlayer (m_Method s sendAudioTrack)
        [ABool (at_enabled pTrack); ALong (at_trackID pTrack); AObject name; AInt (Encoding_value (at_encoding pTrack));
         AObject language; AInt (at_numChannels pTrack); AInt (java_mask (at_channelMask pTrack)); AFloat (at_sampleRate pTrack)])).

Definition SendVideoTrackEvent (d : dispatcher) (s : statics) (pTrack : CVideoTrack) : prog bool :=
  send_named d (vt_name pTrack) (fun localPlayer name =>
    call_reported localPlayer (m_Method s sendVideoTrack)
      [ABool (vt_enabled pTrack); ALong (vt_trackID pTrack); AObject name; AInt (Encoding_value (vt_encoding pTrack));
       AInt (vt_width pTrack); AInt (vt_height pTrack); AFloat (vt_frameRate pTrack); ABool (vt_hasAlpha pTrack)]).

Record CSubtitleTrack := mkSubtitleTrack {
  st_trackID : Z; st_name : string; st_encoding : Encoding; st_enabled : bool; st_language : string }.
Definition SendSubtitleTrackEvent (d : dispatcher) (s : statics) (pTrack : CSubtitleTrack) : prog bool :=
  send_named d (st_name pTrack) (fun localPlayer name =>
    with_string (st_language pTrack) (fun language =>
      call_reported localPlayer (m_Method s sendSubtitleTrack)
        [ABool (st_enabled pTrack); ALong (st_trackID pTrack); AObject name; AInt (Encoding_value (st_encoding pTrack)); AObject language])).

Definition SendMarkerEvent (d : dispatcher) (s : statics) (name : string) (time : double) : prog bool :=
  send_named d name (fun localPlayer jname =>
    call_reported localPlayer (m_Method s sendMarkerEvent) [AObject jname; ADouble time]).

Definition SendBufferProgressEvent (d : dispatcher) (s : statics) (clipDuration : double) (start stop position : Z) : prog bool :=
  send d s sendBufferProgressEvent [ADouble clipDuration; ALong start; ALong stop; ALong position].
Definition SendDurationUpdateEvent (d : dispatcher) (s : statics) (time : double) : prog bool :=
  send d s sendDurationUpdateEvent [ADouble time].
Definition SendAudioSpectrumEvent (d : dispatcher) (s : statics) (time duration : double) (queryTimestamp : bool) : prog bool :=
  send d s sendAudioSpectrumEvent [ADouble time; ADouble duration; ABool queryTimestamp].

(** ** What is delivered *)

(** The call of [m] with [vals] went through, or it did not, and nothing else
    was called. *)
Definition delivered (m : method) (vals : list jvalue) (before : list java_call) (r : bool) (after : list java_call) : Prop :=
  if r then after = before ++ [mkCall (method_name m) vals (Some 0)]
  else after = before \/ after = before ++ [mkCall (method_name m) vals None].

(** The object is initialised: it has the identifiers, and the player it
    refers to, if it still does, is there. *)
Definition ready (d : dispatcher) (s : statics) (j : jvm) : Prop :=
  (forall m, m_Method s m = Some (method_name m, method_sig m)) /\
  instance_ok (m_PlayerInstance d) j.

(** Arguments that are not references. *)
Definition plain (a : jarg) : bool := match a with AObject _ => false | _ => true end.
Definition plain_value (a : jarg) : jvalue :=
  match a with AInt z | ACLong z => VInt z | ALong z => VLong z | ABool b => VBool b | ADouble d => VDouble d | AFloat f => VFloat f | AObject _ => VObject None end.

Lemma plain_values j args : forallb plain args = true -> map (value_of j) args = map plain_value args.
Proof. induction args as [|[] args IH]; cbn; intros H; try discriminate; f_equal; auto. Qed.
Lemma plain_live j args : forallb plain args = true -> forallb (arg_live j) args = true.
Proof. induction args as [|[] args IH]; cbn; intros H; try discriminate; auto. Qed.

Lemma java_calls_logged j m args out :
  java_calls (log_call (Some (method_name m, method_sig m)) args out j) = java_calls j ++ [mkCall (method_name m) (map (value_of j) args) out].
Proof. apply java_calls_log. destruct m; discriminate. Qed.

Section Events.
Context `{MACHINE : Machine}.
Variables (d : dispatcher) (s : statics) (j : jvm).
Hypothesis (HM : sound_machine) (HI : idle j) (HR : ready d s j).

Lemma with_player_rule {A} (default : A) body (R : A -> list java_call -> Prop) :
  R default (java_calls j) ->
  (forall j0 l x, attached j0 = true -> pending j0 = false -> java_calls j0 = java_calls j -> fresh l j0 ->
     wp (body (Some l)) (with_local l x j0) (fun a j' => grows j0 j' /\ R a (java_calls j') /\ globals j' = globals j0)) ->
  wp (with_player d default body) j (fun a j' => settles j j' /\ R a (java_calls j') /\ globals j' = globals j).
Proof using HM HI HR.
  intros H0 H1. apply with_object_rule; [exact HM|exact HI|apply HR|exact H0|exact H1].
Qed.

(** A call, the release of a reference, and the report. *)
Lemma call_delete_rule m o args l x j0 : attached j0 = true -> pending j0 = false -> fresh l j0 ->
  live (with_local l x j0) o = true -> matches (method_sig m) args TVoid = true -> forallb (arg_live (with_local l x j0)) args = true ->
  wp (jni (CallVoidMethod o (m_Method s m) args) ;; jni (DeleteLocalRef (Some l)) ;; let* e := reportException true in Ret (negb e)) (with_local l x j0)
    (fun r j' => grows j0 j' /\ delivered m (map (value_of (with_local l x j0)) args) (java_calls j0) r (java_calls j') /\ globals j' = globals j0).
Proof using HM HR.
  intros A P F L M V. destruct HM as [HT _]. rewrite (proj1 HR m). cbn [wp bind jni]. split.
  - unfold allowed, method_ok. cbn [kind_type]. change (attached (with_local l x j0)) with (attached j0). change (pending (with_local l x j0)) with (pending j0).
    rewrite A, P, L, M, V. reflexivity.
  - intros r j' [[_ ->]| ->]; (apply delete_rule; [exact A|cbn; rewrite lookup_insert_eq; eauto|]);
      cbn [locals log_call raise with_calls with_local with_locals]; rewrite delete_insert_id by apply F;
      (apply jwp_bind, reportException_rule; [exact HT|exact A|]); cbn [pending log_call raise with_calls with_local with_locals].
    + rewrite P. cbn [wp negb]. split; [split; cbn; auto; lia|]. split; [|reflexivity]. exact (java_calls_logged (with_local l x j0) m args (Some 0)).
    + intros j' Pr. cbn [wp negb]. destruct Pr as [B1 B2 B3 B4 B5 B6 B7]. cbn in B1, B2, B3, B4, B5, B6.
      split; [split; cbn; try congruence; try lia; exact B4|]. split; [|exact B6]. right. rewrite B7.
      exact (java_calls_logged (with_local l x j0) m args None).
Qed.

(** The functions that pass no string. *)
Lemma send_rule m args : matches (method_sig m) args TVoid = true -> forallb plain args = true ->
  wp (send d s m args) j (fun r j' => settles j j' /\ delivered m (map plain_value args) (java_calls j) r (java_calls j') /\ globals j' = globals j).
Proof using HM HI HR.
  intros Hm Hp. unfold send. apply (with_player_rule false _ (delivered m (map plain_value args) (java_calls j))); [left; reflexivity|].
  intros j0 l x A P C F. rewrite <- C, <- (plain_values (with_local l x j0)) by exact Hp.
  apply call_delete_rule; auto using plain_live. unfold live, object_of. cbn. rewrite lookup_insert_eq. reflexivity.
Qed.

Lemma with_string_rule text body j1 (R : bool -> list java_call -> Prop) :
  attached j1 = true -> pending j1 = false -> R false (java_calls j1) ->
  (forall k, fresh k j1 -> wp (body (Some k)) (with_local k (JString text) j1)
     (fun ok j' => grows (with_local k (JString text) j1) j' /\ R ok (java_calls j') /\ globals j' = globals j1)) ->
  wp (with_string text body) j1 (fun ok j' => grows j1 j' /\ R ok (java_calls j') /\ globals j' = globals j1).
Proof using HM.
  intros A P R0 H. unfold with_string. apply string_rule; [apply HM|exact A|exact P| |].
  - intros k F. cbn [negb andb nonnull]. apply jwp_bind. eapply jwp_mono; [apply H, F|]. cbn beta. intros ok j' (G & K & E).
    destruct (grows_delete _ _ _ _ F G) as [G' L]. apply delete_rule; [rewrite (g_attached _ _ G); exact A|exact L|]. cbn [wp]. auto.
  - intros j' G C E. cbn [negb andb wp]. rewrite C. auto.
Qed.

Lemma call_then_rule {A} o m args (k : bool -> prog A) j1 Q : attached j1 = true -> pending j1 = false ->
  live j1 o = true -> matches (method_sig m) args TVoid = true -> forallb (arg_live j1) args = true ->
  (forall ok j', grows j1 j' -> delivered m (map (value_of j1) args) (java_calls j1) ok (java_calls j') -> globals j' = globals j1 ->
     wp (k (negb ok)) j' Q) ->
  wp (jni (CallVoidMethod o (m_Method s m) args) ;; let* e := reportException true in k e) j1 Q.
Proof using HM HR.
  intros A1 P L M V H. rewrite (proj1 HR m). apply call_rule; [apply HM|exact A1|exact P| | |].
  - unfold allowed, method_ok. cbn [kind_type]. rewrite A1, P, L, M, V. reflexivity.
  - apply (H true); [split; cbn; auto; lia|apply java_calls_logged|reflexivity].
  - intros j' G C E. apply (H false); [exact G| |exact E]. right. rewrite C. apply java_calls_logged.
Qed.

Lemma call_reported_rule o m args j1 : attached j1 = true -> pending j1 = false ->
  live j1 o = true -> matches (method_sig m) args TVoid = true -> forallb (arg_live j1) args = true ->
  wp (call_reported o (m_Method s m) args) j1
    (fun ok j' => grows j1 j' /\ delivered m (map (value_of j1) args) (java_calls j1) ok (java_calls j') /\ globals j' = globals j1).
Proof using HM HR.
  intros A P L M V. apply (call_then_rule o m args (fun e => Ret (negb e))); auto.
  intros ok j' G D E. cbn [wp]. rewrite negb_involutive. auto.
Qed.

Lemma send_named_rule name body (R : bool -> list java_call -> Prop) :
  R false (java_calls j) ->
  (forall j1 l k x, attached j1 = true -> pending j1 = false -> java_calls j1 = java_calls j ->
     locals j1 !! l = Some x -> locals j1 !! k = Some (JString name) ->
     wp (body (Some l) (Some k)) j1 (fun ok j' => grows j1 j' /\ R ok (java_calls j') /\ globals j' = globals j1)) ->
  wp (send_named d name body) j (fun ok j' => settles j j' /\ R ok (java_calls j') /\ globals j' = globals j).
Proof using HM HI HR.
  intros R0 H. unfold send_named. apply with_player_rule; [exact R0|]. intros j0 l x A P C F. apply jwp_bind.
  eapply jwp_mono; [apply (with_string_rule name (body (Some l)) (with_local l x j0) R)|]; [exact A|exact P| | |].
  - change (java_calls (with_local l x j0)) with (java_calls j0). rewrite C. exact R0.
  - intros k K. apply (H (with_local k (JString name) (with_local l x j0)) l k x); [exact A|exact P|exact C| |apply lookup_insert_eq].
    cbn. destruct K as [K _]. cbn in K. apply lookup_insert_None in K as [_ K]. rewrite lookup_insert_ne by congruence. apply lookup_insert_eq.
  - cbn beta. intros ok j' (G & K & E). destruct (grows_delete _ _ _ _ F G) as [G' L].
    apply delete_rule; [rewrite (g_attached _ _ G); exact A|exact L|]. cbn [wp]. auto.
Qed.

(** A string beside the reference to the player. *)
Lemma two_locals l k x t j0 : fresh k (with_local l x j0) ->
  object_of (with_local k (JString t) (with_local l x j0)) (Some l) = Some x /\
  object_of (with_local k (JString t) (with_local l x j0)) (Some k) = Some (JString t).
Proof.
  intros [K _]. cbn in K. apply lookup_insert_None in K as [_ K].
  split; apply local_live; cbn; [rewrite lookup_insert_ne by congruence|]; apply lookup_insert_eq.
Qed.

Lemma halt_rule message time :
  wp (SendPlayerHaltEvent d s message time) j (fun ok j' => settles j j' /\
    delivered sendPlayerHaltEvent [VObject (Some (JString message)); VDouble time] (java_calls j) ok (java_calls j') /\ globals j' = globals j).
Proof using HM HI HR.
  unfold SendPlayerHaltEvent. apply (with_player_rule false _ (delivered sendPlayerHaltEvent [VObject (Some (JString message)); VDouble time] (java_calls j))).
  { left. reflexivity. }
  intros j0 l x A P C F. apply string_rule; [apply HM|exact A|exact P| |].
  - intros k K. cbn [negb andb nonnull]. destruct (two_locals l k x message j0 K) as [Ol Ok].
    apply jwp_bind. eapply jwp_mono; [apply (call_delete_rule sendPlayerHaltEvent (Some l) [AObject (Some k); ADouble time] k (JString message) (with_local l x j0)); auto|].
    + unfold live. rewrite Ol. reflexivity.
    + cbn [forallb arg_live live_or_null]. unfold live. rewrite Ok. reflexivity.
    + cbn beta. cbn [map value_of]. rewrite Ok. intros ok j' (G & D & E).
      apply (release_rule l x j0 j' ok (delivered _ _ _)); auto. rewrite <- C. exact D.
  - intros j' G C' E. cbn [negb andb bind]. apply (release_rule l x j0 j' false (delivered _ _ _)); auto. left. rewrite <- C. exact C'.
Qed.

Lemma warning_rule code message : fits_int code = true ->
  wp (Warning d s code message) j (fun _ j' => settles j j' /\
    match message with
    | Some text => exists ok, delivered sendWarning [VInt code; VObject (Some (JString text))] (java_calls j) ok (java_calls j')
    | None => java_calls j' = java_calls j
    end /\ globals j' = globals j).
Proof using HM HI HR.
  intros Hc. unfold Warning.
  set (Q := fun (_ : unit) cs => match message with
    | Some text => exists ok, delivered sendWarning [VInt code; VObject (Some (JString text))] (java_calls j) ok cs
    | None => cs = java_calls j
    end).
  apply (with_player_rule tt _ Q).
  { unfold Q. destruct message; [exists false; left; reflexivity|reflexivity]. }
  intros j0 l x A P C F.
  destruct message as [text|]; [|apply (release_rule l x j0 _ tt Q); auto using grows_refl].
  apply jwp_bind, string_rule; [apply HM|exact A|exact P| |].
  2:{ intros j' G C' E. cbn [negb andb when wp]. apply (release_rule l x j0 j' tt Q); auto. exists false. left. rewrite <- C. exact C'. }
  intros k K. cbn [negb andb nonnull when]. destruct (two_locals l k x text j0 K) as [Ol Ok].
  apply (call_then_rule (Some l) sendWarning [AInt code; AObject (Some k)] (fun _ => jni (DeleteLocalRef (Some k)))); auto.
  - unfold live. rewrite Ol. reflexivity.
  - unfold matches. jsignature. cbn [all_pass passes]. rewrite Hc. reflexivity.
  - cbn [forallb arg_live live_or_null]. unfold live. rewrite Ok. reflexivity.
  - cbn [map value_of]. rewrite Ok. intros ok j' G D E. destruct (grows_delete _ _ _ _ K G) as [G' L].
    cbn [wp jni]. split; [unfold allowed, is_local; rewrite (g_attached _ _ G); destruct L as [y ->]; cbn; rewrite A; reflexivity|].
    intros [] j'' H. cbn in H. subst j''. apply (release_rule l x j0 _ tt Q); auto. exists ok. rewrite <- C. exact D.
Qed.
End Events.

(** ** The events *)

Inductive event :=
| EWarning (code : Z) (message : option string)
| EMediaError (code : Z)
| EHalt (message : string) (time : double)
| EState (state : Z) (time : double)
| EFrame (frame : Z)
| EFrameSize (width height : Z)
| EAudioTrack (track : CAudioTrack)
| EVideoTrack (track : CVideoTrack)
| ESubtitleTrack (track : CSubtitleTrack)
| EMarker (name : string) (time : double)
| EBufferProgress (duration : double) (start stop position : Z)
| EDuration (time : double)
| ESpectrum (time duration : double) (query : bool).

Definition send_event (d : dispatcher) (s : statics) (e : event) : prog bool :=
  match e with
  | EWarning code message => Warning d s code message ;; Ret true
  | EMediaError code => SendPlayerMediaErrorEvent d s code
  | EHalt message time => SendPlayerHaltEvent d s message time
  | EState state time => SendPlayerStateEvent d s state time
  | EFrame frame => SendNewFrameEvent d s frame
  | EFrameSize width height => SendFrameSizeChangedEvent d s width height
  | EAudioTrack track => SendAudioTrackEvent d s track
  | EVideoTrack track => SendVideoTrackEvent d s track
  | ESubtitleTrack track => SendSubtitleTrackEvent d s track
  | EMarker name time => SendMarkerEvent d s name time
  | EBufferProgress duration start stop position => SendBufferProgressEvent d s duration start stop position
  | EDuration time => SendDurationUpdateEvent d s time
  | ESpectrum time duration query => SendAudioSpectrumEvent d s time duration query
  end.

(** The Java call an event stands for. *)
Definition text (s : string) : jvalue := VObject (Some (JString s)).
Definition event_call (e : event) : option (method * list jvalue) :=
  match e with
  | EWarning code message => option_map (fun t => (sendWarning, [VInt code; text t])) message
  | EMediaError code => Some (sendPlayerMediaErrorEvent, [VInt code])
  | EHalt message time => Some (sendPlayerHaltEvent, [text message; VDouble time])
  | EState state time => option_map (fun st => (sendPlayerStateEvent, [VInt st; VDouble time])) (java_state state)
  | EFrame frame => Some (sendNewFrameEvent, [VLong frame])
  | EFrameSize width height => Some (sendFrameSizeChangedEvent, [VInt width; VInt height])
  | EAudioTrack t => Some (sendAudioTrack, [VBool (at_enabled t); VLong (at_trackID t); text (at_name t);
      VInt (Encoding_value (at_encoding t)); text (at_language t); VInt (at_numChannels t); VInt (Z.land (at_channelMask t) 63); VFloat (at_sampleRate t)])
  | EVideoTrack t => Some (sendVideoTrack, [VBool (vt_enabled t); VLong (vt_trackID t); text (vt_name t);
      VInt (Encoding_value (vt_encoding t)); VInt (vt_width t); VInt (vt_height t); VFloat (vt_frameRate t); VBool (vt_hasAlpha t)])
  | ESubtitleTrack t => Some (sendSubtitleTrack, [VBool (st_enabled t); VLong (st_trackID t); text (st_name t);
      VInt (Encoding_value (st_encoding t)); text (st_language t)])
  | EMarker name time => Some (sendMarkerEvent, [text name; VDouble time])
  | EBufferProgress duration start stop position => Some (sendBufferProgressEvent, [VDouble duration; VLong start; VLong stop; VLong position])
  | EDuration time => Some (sendDurationUpdateEvent, [VDouble time])
  | ESpectrum time duration query => Some (sendAudioSpectrumEvent, [VDouble time; VDouble duration; VBool query])
  end.

(** Its numbers have the width of their C types. *)
Definition event_fits (e : event) : bool :=
  match e with
  | EWarning code _ | EMediaError code => fits_int code
  | EState state _ => fits_int state
  | EFrame frame => fits_long frame
  | EFrameSize width height => fits_int width && fits_int height
  | EAudioTrack t => fits_long (at_trackID t) && fits_int (at_numChannels t) && fits_int (at_channelMask t)
  | EVideoTrack t => fits_long (vt_trackID t) && fits_int (vt_width t) && fits_int (vt_height t)
  | ESubtitleTrack t => fits_long (st_trackID t)
  | EBufferProgress _ start stop position => fits_long start && fits_long stop && fits_long position
  | _ => true
  end.

(** The mask keeps the six bits that have a meaning. *)
Lemma land_bit m n : 0 <= n -> Z.land m (2 ^ n) = if Z.testbit m n then 2 ^ n else 0.
Proof.
  intros H. apply Z.bits_inj'. intros i Hi. rewrite Z.land_spec, Z.pow2_bits_eqb by exact H.
  destruct (Z.eqb_spec n i) as [->|E].
  - rewrite andb_true_r. destruct (Z.testbit m i); [rewrite Z.pow2_bits_true by exact H|rewrite Z.bits_0]; reflexivity.
  - rewrite andb_false_r. destruct (Z.testbit m n); [rewrite Z.pow2_bits_eqb by exact H|rewrite Z.bits_0; reflexivity].
    symmetry. apply Z.eqb_neq, E.
Qed.
Lemma set_bit m n a : 0 <= n -> (if negb (Z.land m (2 ^ n) =? 0) then Z.lor a (2 ^ n) else a) = Z.lor a (Z.land m (2 ^ n)).
Proof.
  intros H. rewrite land_bit by exact H. assert (0 < 2 ^ n) by lia.
  destruct (Z.testbit m n); [|cbn [Z.eqb negb]; rewrite Z.lor_0_r; reflexivity].
  destruct (Z.eqb_spec (2 ^ n) 0); [lia|reflexivity].
Qed.
Lemma java_mask_bits mask : java_mask mask = Z.land mask 63.
Proof.
  unfold java_mask, REAR_CENTER, REAR_RIGHT, REAR_LEFT, FRONT_CENTER, FRONT_RIGHT, FRONT_LEFT, CHANNEL_UNKNOWN.
  rewrite Z.land_0_r. cbn [Z.eqb negb].
  change 0x20 with (2 ^ 5). change 0x10 with (2 ^ 4). change 0x08 with (2 ^ 3). change 0x04 with (2 ^ 2). change 0x02 with (2 ^ 1). change 0x01 with (2 ^ 0).
  rewrite !set_bit by lia. rewrite Z.lor_0_l, <- !Z.land_lor_distr_r. reflexivity.
Qed.

(** An event reaches the Java player as its call, once at most, and never
    something else; what it returns says whether the method ran through. *)
Definition event_result (e : event) (before : list java_call) (ok : bool) (after : list java_call) : Prop :=
  match e, event_call e with
  | EWarning _ _, Some (m, vals) => exists done, delivered m vals before done after
  | EWarning _ _, None => after = before
  | _, Some (m, vals) => delivered m vals before ok after
  | _, None => ok = false /\ after = before
  end.

(** The numbers that the functions compute fit too. *)
Lemma java_state_fits state st : java_state state = Some st -> fits_int st = true.
Proof. unfold java_state. intros H. repeat case_match; simplify_eq; reflexivity. Qed.
Lemma Encoding_fits e : fits_int (Encoding_value e) = true.
Proof. destruct e; reflexivity. Qed.
Lemma java_mask_fits mask : fits_int (java_mask mask) = true.
Proof.
  rewrite java_mask_bits. change 63 with (Z.ones 6). rewrite Z.land_ones by lia.
  pose proof (Z.mod_pos_bound mask (2 ^ 6)). unfold fits_int. lia.
Qed.

(** The arguments are those of the signature. *)
Ltac fits :=
  unfold matches; jsignature; cbn [all_pass passes forallb plain]; rewrite ?Encoding_fits, ?java_mask_fits;
  rewrite ?andb_true_iff in *; intuition auto.

Section Tracks.
Context `{MACHINE : Machine}.
Variables (d : dispatcher) (s : statics) (j : jvm).
Hypothesis (HM : sound_machine) (HI : idle j) (HR : ready d s j).

(** A call that passes the name first, and one that passes the language too. *)
Lemma named_call_rule name m args vals :
  (forall k, matches (method_sig m) (args (Some k)) TVoid = true) ->
  (forall j1 k, locals j1 !! k = Some (JString name) -> forallb (arg_live j1) (args (Some k)) = true /\ map (value_of j1) (args (Some k)) = vals) ->
  wp (send_named d name (fun localPlayer jname => call_reported localPlayer (m_Method s m) (args jname))) j
    (fun ok j' => settles j j' /\ delivered m vals (java_calls j) ok (java_calls j') /\ globals j' = globals j).
Proof using HM HI HR.
  intros Hm Hv. apply (send_named_rule d s j HM HI HR name _ (delivered m vals (java_calls j))); [left; reflexivity|].
  intros j1 l k x A P C L K. destruct (Hv j1 k K) as [V <-]. rewrite <- C.
  apply (call_reported_rule d s j HM HR); auto. unfold live. rewrite (local_live _ _ _ L). reflexivity.
Qed.
Lemma named_language_rule name language m args vals :
  (forall k i, matches (method_sig m) (args (Some k) (Some i)) TVoid = true) ->
  (forall j1 k i, locals j1 !! k = Some (JString name) -> locals j1 !! i = Some (JString language) ->
     forallb (arg_live j1) (args (Some k) (Some i)) = true /\ map (value_of j1) (args (Some k) (Some i)) = vals) ->
  wp (send_named d name (fun localPlayer jname => with_string language (fun jlanguage =>
        call_reported localPlayer (m_Method s m) (args jname jlanguage)))) j
    (fun ok j' => settles j j' /\ delivered m vals (java_calls j) ok (java_calls j') /\ globals j' = globals j).
Proof using HM HI HR.
  intros Hm Hv. apply (send_named_rule d s j HM HI HR name _ (delivered m vals (java_calls j))); [left; reflexivity|].
  intros j1 l k x A P C L K. rewrite <- C.
  apply (with_string_rule HM language _ j1 (delivered m vals (java_calls j1))); auto; [left; reflexivity|]. intros i F.
  set (j2 := with_local i (JString language) j1).
  assert (O : forall n y, locals j1 !! n = Some y -> locals j2 !! n = Some y).
  { intros n y Hn. cbn. rewrite lookup_insert_ne; [exact Hn|]. intros ->. destruct F. congruence. }
  destruct (Hv j2 k i (O _ _ K) (lookup_insert_eq _ _ _)) as [V <-].
  change (java_calls j1) with (java_calls j2). change (globals j1) with (globals j2).
  apply (call_reported_rule d s j HM HR); auto. unfold live. rewrite (local_live _ _ _ (O _ _ L)). reflexivity.
Qed.
End Tracks.

Lemma event_rule `{MACHINE : Machine} d s j e : sound_machine -> idle j -> ready d s j -> event_fits e = true ->
  wp (send_event d s e) j (fun ok j' => settles j j' /\ event_result e (java_calls j) ok (java_calls j') /\ globals j' = globals j).
Proof.
  intros HM HI HR Hf. destruct e; cbn [send_event event_fits] in *.
  - apply jwp_bind. eapply jwp_mono; [apply (warning_rule d s j); auto|]. cbn beta. intros _ j' (S & D & G). cbn [wp].
    split; [exact S|]. split; [|exact G]. destruct message; exact D.
  - apply (send_rule d s j HM HI HR sendPlayerMediaErrorEvent [AInt code]); fits.
  - apply (halt_rule d s j HM HI HR).
  - unfold SendPlayerStateEvent, event_result. cbn [event_call]. destruct (java_state state) as [st|] eqn:E; cbn [option_map].
    + apply (send_rule d s j HM HI HR sendPlayerStateEvent [ACLong st; ADouble time]); [|reflexivity]. pose proof (java_state_fits _ _ E). fits.
    + cbn [wp]. split; [apply settles_refl, HI|auto].
  - apply (send_rule d s j HM HI HR sendNewFrameEvent [ALong frame]); fits.
  - apply (send_rule d s j HM HI HR sendFrameSizeChangedEvent [AInt width; AInt height]); fits.
  - apply (named_language_rule d s j HM HI HR); [intros; fits|]. intros j1 k i K I. cbn [forallb map arg_live live_or_null value_of live].
    unfold live. rewrite (local_live _ _ _ K), (local_live _ _ _ I), java_mask_bits. auto.
  - apply (named_call_rule d s j HM HI HR); [intros; fits|]. intros j1 k K. cbn [forallb map arg_live live_or_null value_of].
    unfold live. rewrite (local_live _ _ _ K). auto.
  - apply (named_language_rule d s j HM HI HR); [intros; fits|]. intros j1 k i K I. cbn [forallb map arg_live live_or_null value_of].
    unfold live. rewrite (local_live _ _ _ K), (local_live _ _ _ I). auto.
  - apply (named_call_rule d s j HM HI HR); [intros; fits|]. intros j1 k K. cbn [forallb map arg_live live_or_null value_of].
    unfold live. rewrite (local_live _ _ _ K). auto.
  - apply (send_rule d s j HM HI HR sendBufferProgressEvent [ADouble duration; ALong start; ALong stop; ALong position]); fits.
  - apply (send_rule d s j HM HI HR sendDurationUpdateEvent [ADouble time]); fits.
  - apply (send_rule d s j HM HI HR sendAudioSpectrumEvent [ADouble time; ADouble duration; ABool query]); fits.
Qed.
