(* ===== verification/EventSession.v ===== *)
(** * The dispatcher's life ([jni/JavaPlayerEventDispatcher.cpp])

    [Init] looks up the methods and takes a global reference to the player,
    [Dispose] gives it up.  Here is what a dispatcher that is ready delivers
    over a whole session, that it is silent once disposed of, and what happens
    after an [Init] that failed. *)

From S2P Require Import Prelude CFloat MediaTypes JniApi JniUtils JniRun EventDispatch.
Local Open Scope Z_scope.
Local Open Scope jni_scope.

(** ** Init *)

(** The identifiers that were looked up are those of the methods. *)
Definition right_id (ids : method -> jmethodID) (m : method) : Prop := ids m = Some (method_name m, method_sig m).
Definition statics_ok (s : statics) : Prop := areJMethodIDsInitialized s = true -> forall m, right_id (m_Method s) m.

Lemma methods_all m : In m methods.
Proof. destruct m; cbn; tauto. Qed.

Section Init.
Context `{MACHINE : Machine}.

Lemma look_up_rule klass ms : text_available = true -> forall ids j,
  attached j = true -> pending j = false -> live j klass = true ->
  wp (look_up klass ms ids) j (fun '(failed, ids') j' => quiet j j' /\
    (failed = false -> forall m, right_id ids m \/ In m ms -> right_id ids' m)).
Proof.
  intros HT. induction ms as [|m ms IH]; intros ids j A P L; cbn [look_up].
  - cbn [wp]. split; [apply quiet_refl, P|]. intros _ m [H|[]]. exact H.
  - cbn [wp bind jni]. split; [unfold allowed; rewrite A, P, L; reflexivity|].
    intros id j' [[-> ->]|[-> ->]]; apply jwp_bind, reportException_rule; auto; cbn [pending raise].
    + rewrite P. cbn [orb negb nonnull]. eapply jwp_mono; [apply IH; assumption|]. intros [failed ids'] j' [Q H]. split; [exact Q|].
      intros F m' Hm. apply (H F). unfold right_id, set_method in *. destruct (decide (m' = m)) as [->|N]; [auto|].
      destruct Hm as [Hm|[Hm|Hm]]; [auto|congruence|auto].
    + intros j' Pr. cbn [orb wp]. destruct (printed_grows _ _ Pr) as (G & C & E). split; [split; auto|discriminate].
Qed.
Lemma object_live j o : live j o = true -> exists x l, o = Some l /\ object_of j o = Some x.
Proof. unfold live. destruct o as [l|]; [|discriminate]. destruct (object_of j (Some l)) as [x|]; [eauto|discriminate]. Qed.
End Init.

(** [Init] makes the object ready unless a look-up fails; it refers to the
    player by a global reference of its own. *)
Theorem Init_ready `{MACHINE : Machine} player media s j : sound_machine -> globals_available = true ->
  attached j = true -> pending j = false -> live j player = true -> statics_ok s ->
  wp (Init player media new_dispatcher s) j (fun '(d, s') j' =>
    grows j j' /\ java_calls j' = java_calls j /\ m_PlayerVM d = true /\ m_MediaReference d = media /\ statics_ok s' /\
    (exists g, m_PlayerInstance d = Some g /\ globals j !! g = None /\ globals j' !! g = object_of j player /\ delete g (globals j') = globals j) /\
    (areJMethodIDsInitialized s' = true -> ready d s' j')).
Proof.
  intros [HT HV] HG A P L HS. unfold Init. cbn [wp bind jni]. split; [unfold allowed; rewrite A, P; reflexivity|].
  intros ok j' [[-> ->]|[F _]]; [|congruence]. cbn [negb wp bind jni].
  split; [unfold allowed, live_or_null; rewrite A, P, L; destruct player; reflexivity|].
  intros r j1 [(-> & -> & N)|(x & g & O & F & -> & ->)].
  { rewrite (N HG) in L. discriminate L. }
  set (j1 := with_globals (<[g:=x]> (globals j)) j).
  assert (G1 : globals j1 !! g = object_of j player) by (rewrite O; apply lookup_insert_eq).
  assert (D1 : delete g (globals j1) = globals j) by apply delete_insert_id, F.
  destruct (areJMethodIDsInitialized s) eqn:HI.
  - cbn [wp m_PlayerVM m_MediaReference m_PlayerInstance]. split; [split; cbn; auto; lia|]. split; [reflexivity|].
    split; [reflexivity|]. split; [reflexivity|]. split; [exact HS|]. split; [exists g; split_and!; [reflexivity|apply F|exact G1|exact D1]|].
    intros _. split; [exact (HS HI)|]. intros g' [= <-]. rewrite G1, O. eauto.
  - cbn [wp bind jni]. split.
    { unfold allowed, live, object_of. cbn. rewrite lookup_insert_eq, A, P. destruct (locals j !! g); reflexivity. }
    intros k j2 (name & l & Fl & -> & ->). change (fresh l j1) in Fl. apply jwp_bind.
    eapply jwp_mono; [apply (look_up_rule (Some l) methods HT (m_Method s) (with_local l (JClass name) j1)); [exact A|exact P|]|].
    { unfold live, object_of. cbn. rewrite lookup_insert_eq. reflexivity. }
    intros [failed ids] j3 [(G & C & E) H]. destruct (grows_delete _ _ _ _ Fl G) as [G' Hl].
    apply delete_rule; [rewrite (g_attached _ _ G); exact A|exact Hl|]. cbn [wp m_PlayerVM m_MediaReference m_PlayerInstance].
    assert (G3 : globals j3 !! g = object_of j player) by (rewrite E; exact G1).
    split; [destruct G'; split; auto|]. split; [exact C|]. split; [reflexivity|]. split; [reflexivity|].
    assert (S : statics_ok (mkStatics (negb failed) ids)).
    { intros B m. cbn in *. apply (H (proj1 (negb_true_iff _) B)). right. apply methods_all. }
    split; [exact S|]. split; [exists g; split_and!; [reflexivity|apply F|exact G3|change (delete g (globals j3) = globals j); rewrite E; exact D1]|].
    intros B. split; [exact (S B)|]. intros g' [= <-]. cbn. rewrite G3, O. eauto.
Qed.

(** ** Dispose *)

Section Closing.
Context `{MACHINE : Machine}.

Lemma Dispose_rule d j : attached j = true -> pending j = false -> m_PlayerVM d = true -> instance_ok (m_PlayerInstance d) j ->
  wp (Dispose d) j (fun d' j' => d' = d <| m_PlayerInstance := None |> /\ j' = with_globals (match m_PlayerInstance d with Some g => delete g (globals j) | None => globals j end) j).
Proof.
  intros A P V L. unfold Dispose. rewrite V. apply attached_rule; [exact A|]. cbn [wp bind jni]. split.
  - unfold allowed, is_global. rewrite A. destruct (m_PlayerInstance d) as [g|]; [|reflexivity]. destruct (L g eq_refl) as [x ->]. reflexivity.
  - intros [] j' H. cbn in H. subst j'. split; [reflexivity|]. destruct (m_PlayerInstance d); [reflexivity|]. destruct j; reflexivity.
Qed.

Lemma disposed_none d : m_PlayerInstance (d <| m_PlayerInstance := None |>) = None.
Proof. simpl_set. reflexivity. Qed.

(** Without a player, nothing is called; the identifiers do not matter. *)
Lemma no_player_rule {A} d (default : A) body j : sound_machine -> idle j -> m_PlayerInstance d = None ->
  wp (with_player d default body) j (fun a j' => settles j j' /\ (a = default /\ java_calls j' = java_calls j) /\ globals j' = globals j).
Proof. intros HM I N. unfold with_player. rewrite N. apply no_object_rule; assumption. Qed.
End Closing.

Definition late_result (e : event) (ok : bool) : Prop := match e with EWarning _ _ => True | _ => ok = false end.

Lemma disposed_silent `{MACHINE : Machine} d s e j : sound_machine -> idle j -> m_PlayerInstance d = None ->
  wp (send_event d s e) j (fun ok j' => settles j j' /\ (late_result e ok /\ java_calls j' = java_calls j) /\ globals j' = globals j).
Proof.
  intros HM I N. destruct e; cbn [send_event late_result].
  1: apply jwp_bind; eapply jwp_mono; [apply no_player_rule; assumption|]; intros [] j' (S & (_ & C) & G); cbn [wp]; auto.
  3: unfold SendPlayerStateEvent; destruct (java_state state); [|cbn [wp]; split; [apply settles_refl, I|auto]].
  all: apply no_player_rule; assumption.
Qed.

(** ** A session *)

(** What is sent until the object is disposed of, and afterwards. *)
Definition session (d : dispatcher) (s : statics) (es late : list event) : prog (list bool * list bool) :=
  let* oks := each (send_event d s) es in
  let* d := Dispose d in
  let* lates := each (send_event d s) late in
  Ret (oks, lates).


(** *** Executions *)

Definition java_player : positive := 1.
Definition thread : jvm := mkJvm true false 0 ∅ {[ java_player := JObject ]} [].

Definition sample (m : method) : event :=
  match m with
  | sendWarning => EWarning 1 (Some "text"%string)
  | sendPlayerMediaErrorEvent => EMediaError 1
  | sendPlayerHaltEvent => EHalt "text" (Z_to_double 0)
  | sendPlayerStateEvent => EState (PlayerState_value Playing) (Z_to_double 0)
  | sendNewFrameEvent => EFrame 4096
  | sendFrameSizeChangedEvent => EFrameSize 640 480
  | sendAudioTrack => EAudioTrack (mkAudioTrack 0 "audio/mpeg" AAC true "und" 2 3 (Z_to_float 44100))
  | sendVideoTrack => EVideoTrack (mkVideoTrack 0 "video/x-h264" H264 true 640 480 (Z_to_float 25) false)
  | sendSubtitleTrack => ESubtitleTrack (mkSubtitleTrack 0 "text" NONE true "en")
  | sendMarkerEvent => EMarker "text" (Z_to_double 0)
  | sendBufferProgressEvent => EBufferProgress (Z_to_double 60) 0 4096 1024
  | sendDurationUpdateEvent => EDuration (Z_to_double 60)
  | sendAudioSpectrumEvent => ESpectrum (Z_to_double 0) (Z_to_double 1) false
  end.

Definition init_then (e : event) : prog bool :=
  let* '(d, s) := Init (Some java_player) 7 new_dispatcher no_statics in send_event d s e.

Example all_methods_called m :
  option_map (fun '(ok, j) => (ok, map called (java_calls j), size (locals j))) (run (calm no_reply []) (init_then (sample m)) thread) =
  Some (true, [method_name m], 0%nat).
Proof. destruct m; vm_compute; reflexivity. Qed.

(** The methods that are looked up from [m] on. *)
Fixpoint looked_up_from (m : method) (ms : list method) : list method :=
  match ms with
  | [] => []
  | m' :: rest => if decide (m' = m) then ms else looked_up_from m rest
  end.

(** When one look-up fails, [Init] says nothing to its caller and the player
    stays set: an event whose method was to be looked up then, or later, is
    called without an identifier. *)
Theorem failed_init_calls_null m m' : In m' (looked_up_from m methods) ->
  option_map (fun '(d, s, _) => (nonnull (m_PlayerInstance d), areJMethodIDsInitialized s, m_Method s m'))
    (run (without no_reply [] (method_name m)) (Init (Some java_player) 7 new_dispatcher no_statics) thread) = Some (true, false, None) /\
  run (without no_reply [] (method_name m)) (init_then (sample m')) thread = None.
Proof.
  intros H. destruct m; vm_compute in H;
    repeat (destruct H as [<-|H]; [split; vm_compute; reflexivity|]); destruct H.
Qed.

Lemma Init_ready_witness : exists a j',
  run (calm no_reply []) (Init (Some java_player) 7 new_dispatcher no_statics) thread = Some (a, j') /\
  areJMethodIDsInitialized (snd a) = true /\ ready (fst a) (snd a) j'.
Proof.
  destruct (wp_run _ _ (calm_faithful no_reply []) _ _ (Init_ready (Some java_player) 7 no_statics thread all_sound eq_refl eq_refl eq_refl eq_refl
    ltac:(discriminate))) as ([d s] & j' & E & _ & _ & _ & _ & _ & _ & R).
  exists (d, s), j'. cbn [fst snd]. split; [exact E|].
  assert (B : areJMethodIDsInitialized s = true).
  { assert (K : option_map (fun '(d, s, _) => areJMethodIDsInitialized s) (run (calm no_reply []) (Init (Some java_player) 7 new_dispatcher no_statics) thread) = Some true)
      by (vm_compute; reflexivity). rewrite E in K. injection K as K. exact K. }
  split; [exact B|exact (R B)].
Defined.

Definition known : statics := mkStatics true (fun m => Some (method_name m, method_sig m)).
Definition playing : dispatcher := mkDispatcher true (Some java_player) 7.

Lemma failed_init_calls_null_witness :
  run (without no_reply [] "sendMarkerEvent") (init_then (sample sendAudioSpectrumEvent)) thread = None.
Proof. apply (failed_init_calls_null sendMarkerEvent sendAudioSpectrumEvent). vm_compute. tauto. Defined.

(** ** Java objects made here *)

(** Any object; the constructor's identifier is kept from call to call. *)
Definition CreateObject (cid : jmethodID) (class_name signature : string) (value : list jarg) : prog (ref * jmethodID) :=
  let* classe := jni (FindClass class_name) in
  let* e := reportException true in
  if e || negb (nonnull classe) then Ret (None, cid)
  else
    let* '(failed, cid) :=
      (if nonnull cid then Ret (false, cid)
       else
         let* cid := jni (GetMethodID classe "<init>" signature) in
         let* e := reportException true in
         if e || negb (nonnull cid) then jni (DeleteLocalRef classe) ;; Ret (true, cid) else Ret (false, cid)) in
    if failed then Ret (None, cid)
    else
      let* result := jni (NewObject classe cid value) in
      reportException true ;;
      jni (DeleteLocalRef classe) ;;
      Ret (result, cid).

Definition CreateBoolean (cid : jmethodID) (boolean_value : bool) := CreateObject cid "java/lang/Boolean" "(Z)V" [ABool boolean_value].
Definition CreateInteger (cid : jmethodID) (int_value : Z) := CreateObject cid "java/lang/Integer" "(I)V" [AInt int_value].
Definition CreateLong (cid : jmethodID) (long_value : Z) := CreateObject cid "java/lang/Long" "(J)V" [ALong long_value].
Definition CreateDouble (cid : jmethodID) (double_value : double) := CreateObject cid "java/lang/Double" "(D)V" [ADouble double_value].
(** From nanoseconds to milliseconds. *)
Definition CreateDuration (cid : jmethodID) (duration : Z) :=
  CreateObject cid "javafx/util/Duration" "(D)V" [ADouble (ddiv (Z_to_double duration) (Z_to_double 1000000))].

Lemma grows_with_local l x j1 j2 : fresh l j2 -> grows j1 j2 -> grows (with_local l x j1) (with_local l x j2).
Proof.
  intros [F _] [A P R S L]. split; cbn; auto; [apply insert_mono, S|].
  assert (F1 : locals j1 !! l = None) by (eapply lookup_weaken_None; eassumption).
  rewrite !map_size_insert_None by assumption. lia.
Qed.
Lemma with_local_comm k l x y j : k <> l -> with_local k x (with_local l y j) = with_local l y (with_local k x j).
Proof. intros H. unfold with_local, with_locals. cbn. rewrite insert_insert_ne by exact H. reflexivity. Qed.

(** Such an object is the one reference that stays. *)
Lemma CreateObject_rule `{MACHINE : Machine} cid class_name signature value j :
  text_available = true -> attached j = true -> pending j = false ->
  (cid = None \/ cid = Some ("<init>", signature)%string) -> matches signature value TVoid = true -> forallb plain value = true ->
  wp (CreateObject cid class_name signature value) j (fun '(r, cid') j' =>
    (cid' = None \/ cid' = Some ("<init>", signature)%string) /\
    match r with None => grows j j' | Some l => locals j !! l = None /\ grows (with_local l JObject j) j' end).
Proof.
  intros HT A P HC HV HP. unfold CreateObject. cbn [wp bind jni]. split; [unfold allowed; rewrite A, P; reflexivity|].
  intros r j' [(k & F & -> & ->)|[-> ->]]; apply jwp_bind, reportException_rule; auto; cbn [pending with_local with_locals raise].
  2:{ intros j' Pr. cbn [orb wp]. split; [exact HC|]. apply printed_grows, Pr. }
  rewrite P. cbn [orb negb nonnull].
  set (j1 := with_local k (JClass class_name) j).
  assert (release : forall {B} (p : prog B) j2 Q, grows j1 j2 ->
    (forall j3, grows j j3 -> wp p j3 Q) -> wp (jni (DeleteLocalRef (Some k)) ;; p) j2 Q).
  { intros B p j2 Q G H. destruct (grows_delete _ _ _ _ F G) as [G' L]. apply delete_rule; [rewrite (g_attached _ _ G); exact A|exact L|]. apply H, G'. }
  assert (live1 : forall j2, grows j1 j2 -> live j2 (Some k) = true).
  { intros j2 G. unfold live, object_of. assert (K : locals j2 !! k = Some (JClass class_name)); [|rewrite K; reflexivity].
    eapply lookup_weaken; [|apply G]. cbn. apply lookup_insert_eq. }
  apply jwp_bind. eapply (jwp_mono _ _ (fun '(failed, cid') j2 => if failed : bool then cid' = None /\ grows j j2 else cid' = Some ("<init>", signature)%string /\ grows j1 j2)).
  - destruct HC as [-> | ->]; cbn [nonnull wp bind jni]; [|split; [reflexivity|apply grows_refl, P]].
    split; [unfold allowed; rewrite live1 by (apply grows_refl, P); cbn; rewrite A, P; reflexivity|].
    intros id j2 [[-> ->]|[-> ->]]; apply jwp_bind, reportException_rule; auto; cbn [pending with_local with_locals raise].
    + subst j1. cbn [pending with_local with_locals]. rewrite P. cbn [orb negb nonnull wp]. split; [reflexivity|]. apply grows_refl, P.
    + intros j2 Pr. cbn [orb]. apply release; [apply printed_grows, Pr|]. intros j3 G. cbn [wp]. auto.
  - intros [[] cid'] j2 [-> G]; cbn [wp bind jni]; [auto|]. split.
    { unfold allowed, method_ok. rewrite live1, HV, plain_live by assumption. rewrite (g_attached _ _ G), (g_pending _ _ G). cbn. rewrite A. reflexivity. }
    intros o j3 [(l & Fl & -> & ->)|[-> ->]]; apply jwp_bind, reportException_rule; auto; cbn [pending with_local with_locals raise];
      try (cbn; rewrite (g_attached _ _ G); exact A).
    + rewrite (g_pending _ _ G). assert (N : l <> k).
      { intros ->. pose proof (live1 j2 G) as K. unfold live, object_of in K. destruct Fl as [E1 E2]. rewrite E1, E2 in K. discriminate K. }
      pose proof (grows_with_local l JObject _ _ Fl G) as G3. unfold j1 in G3. rewrite with_local_comm in G3 by exact N.
      assert (F2 : fresh k (with_local l JObject j)) by (destruct F as [F1 F2]; split; [cbn; rewrite lookup_insert_ne by exact N; exact F1|exact F2]).
      destruct (grows_delete _ _ _ _ F2 G3) as [G4 L4]. apply delete_rule; [cbn; rewrite (g_attached _ _ G); exact A|exact L4|].
      cbn [wp]. split; [auto|]. split; [|exact G4].
      eapply lookup_weaken_None; [exact (proj1 Fl)|]. etransitivity; [apply insert_subseteq, F|exact (g_locals _ _ G)].
    + intros j3 Pr. apply release; [eapply grows_trans; [exact G|apply printed_grows, Pr]|]. intros j4 G4. cbn [wp]. auto.
Qed.
