(* ===== verification/StreamCallbacks.v ===== *)
(** * Reading the media from Java ([jni/JavaInputStreamCallbacks.cpp])

    The locator's stream: a global reference to a Java [ConnectionHolder] and
    one Java method for each request of the source element.  What a request
    returns is what Java returned, or the value for a stream that is closed. *)

From S2P Require Import Prelude CFloat JniApi JniUtils.
Local Open Scope Z_scope.
Local Open Scope jni_scope.

(** The methods of [ConnectionHolder]; its field [buffer] is looked up first. *)
Inductive member := needBuffer | readNextBlock | readBlock | isSeekable | isRandomAccess | seek | closeConnection | property.
#[export] Instance member_eq_dec : EqDecision member.
Proof. solve_decision. Defined.
Definition member_name (m : member) : string :=
  match m with
  | needBuffer => "needBuffer" | readNextBlock => "readNextBlock" | readBlock => "readBlock" | isSeekable => "isSeekable"
  | isRandomAccess => "isRandomAccess" | seek => "seek" | closeConnection => "closeConnection" | property => "property"
  end.
Definition member_sig (m : member) : string :=
  match m with
  | needBuffer => "()Z" | readNextBlock => "()I" | readBlock => "(JI)I" | isSeekable => "()Z"
  | isRandomAccess => "()Z" | seek => "(J)J" | closeConnection => "()V" | property => "(II)I"
  end.
Definition members : list member := [needBuffer; readNextBlock; readBlock; isSeekable; isRandomAccess; seek; closeConnection; property].

(** The object; [m_jvm] has no value before [Init]. *)
Record callbacks := mkCallbacks { m_jvm : bool; m_ConnectionHolder : ref }.
(** The identifiers, shared by all streams. *)
Record stream_ids := mkStreamIds { methodIDsInitialized : bool; m_BufferFID : jmethodID; m_MID : member -> jmethodID }.
Definition no_ids : stream_ids := mkStreamIds false None (fun _ => None).
Definition set_member (m : member) (id : jmethodID) (ids : member -> jmethodID) : member -> jmethodID :=
  fun m' => if decide (m' = m) then id else ids m'.

(** ** Init *)

Fixpoint look_up_members (javaEnv : bool) (klass : ref) (ms : list member) (ids : member -> jmethodID) : prog (bool * (member -> jmethodID)) :=
  match ms with
  | [] => Ret (false, ids)
  | m :: ms =>
      let* id := jni (GetMethodID klass (member_name m) (member_sig m)) in
      let ids := set_member m id ids in
      let* e := reportException javaEnv in
      if e || negb (nonnull id) then Ret (true, ids) else look_up_members javaEnv klass ms ids
  end.
Definition look_up_all (javaEnv : bool) (klass : ref) (s : stream_ids) : prog (bool * stream_ids) :=
  let* fid := jni (GetFieldID klass "buffer" "Ljava/nio/ByteBuffer;") in
  let* e := reportException javaEnv in
  if e || negb (nonnull fid) then Ret (true, mkStreamIds false fid (m_MID s))
  else
    let* '(hasException, ids) := look_up_members javaEnv klass members (m_MID s) in
    Ret (hasException, mkStreamIds (negb hasException) fid ids).

Definition look_up_class (javaEnv : bool) (s : stream_ids) : prog (bool * stream_ids) :=
  let* klass := jni (FindClass "com/sun/media/jfxmedia/locator/ConnectionHolder") in
  let* e := reportException javaEnv in
  let* '(hasException, s) :=
    (if e || negb (nonnull klass) then Ret (true, mkStreamIds false (m_BufferFID s) (m_MID s)) else look_up_all javaEnv klass s) in
  when (nonnull klass) (jni (DeleteLocalRef klass)) ;;
  Ret (negb hasException, s).

Definition stream_init (jConnectionHolder : ref) (c : callbacks) (s : stream_ids) : prog (bool * callbacks * stream_ids) :=
  if negb (nonnull jConnectionHolder) then Ret (false, c, s)
  else
    let* vm := jni GetJavaVM in
    let* e := jni ExceptionCheck in
    if e then jni ExceptionClear ;; Ret (false, mkCallbacks false (m_ConnectionHolder c), s)
    else
      let jvm := if vm then true else m_jvm c in
      with_environment jvm (fun javaEnv =>
        let* holder := jni (NewGlobalRef jConnectionHolder) in
        let c := mkCallbacks jvm holder in
        if negb (nonnull holder) then reportException javaEnv ;; Ret (false, c, s)
        else if methodIDsInitialized s then Ret (true, c, s)
        else let* '(ok, s) := look_up_class javaEnv s in Ret (ok, c, s)).

(** ** Requests *)

Definition with_connection {A} (c : callbacks) (default : A) (body : ref -> prog A) : prog A :=
  with_object (m_jvm c) (m_ConnectionHolder c) default body.

(** The exception is cleared after the connection was given back, and when
    there is no connection. *)
Definition NeedBuffer (c : callbacks) (s : stream_ids) : prog bool :=
  with_environment (m_jvm c) (fun pEnv =>
    if pEnv then
      let* connection := jni (NewLocalRef (m_ConnectionHolder c)) in
      let* result :=
        (if nonnull connection then
           let* result := jni (CallBooleanMethod connection (m_MID s needBuffer) []) in
           jni (DeleteLocalRef connection) ;;
           Ret result
         else Ret false) in
      clearException true ;;
      Ret result
    else Ret false).

(** The other methods with a result; [f] is what an exception makes of it. *)
Definition ask_java (k : kind) (c : callbacks) (s : stream_ids) (default : result k) (m : member) (args : list jarg) (f : bool -> result k -> result k) : prog (result k) :=
  with_connection c default (fun connection =>
    let* result := jni (CallMethod k connection (m_MID s m) args) in
    let* e := clearException true in
    jni (DeleteLocalRef connection) ;;
    Ret (f e result)).
Definition or_minus_two (e : bool) (r : Z) : Z := if e then -2 else r.
Definition as_it_is {A} (_ : bool) (r : A) : A := r.

Definition ReadNextBlock (c : callbacks) (s : stream_ids) : prog Z :=
  ask_java KInt c s (-1) readNextBlock [] or_minus_two.
Definition ReadBlock (c : callbacks) (s : stream_ids) (position size : Z) : prog Z :=
  ask_java KInt c s (-1) readBlock [ALong position; AInt size] or_minus_two.
Definition IsSeekable (c : callbacks) (s : stream_ids) : prog bool :=
  ask_java KBoolean c s false isSeekable [] as_it_is.
Definition IsRandomAccess (c : callbacks) (s : stream_ids) : prog bool :=
  ask_java KBoolean c s false isRandomAccess [] as_it_is.
Definition Seek (c : callbacks) (s : stream_ids) (position : Z) : prog Z :=
  ask_java KLong c s (-1) seek [ALong position] as_it_is.
Definition Property (c : callbacks) (s : stream_ids) (prop value : Z) : prog Z :=
  ask_java KInt c s 0 property [AInt prop; AInt value] as_it_is.

(** What becomes of the destination; [Overrun] is a [memcpy] from [NULL], or of
    more bytes than there are. *)
Inductive copied := Untouched | Copied (bytes : list Z) | Overrun.
Definition memcpy_from (data : option (list Z)) (size : Z) : copied :=
  match data with
  | Some bytes => if (0 <=? size) && (size <=? Z.of_nat (length bytes)) then Copied (take (Z.to_nat size) bytes) else Overrun
  | None => Overrun
  end.
Definition CopyBlock (c : callbacks) (s : stream_ids) (size : Z) : prog copied :=
  with_connection c Untouched (fun connection =>
    let* buffer := jni (GetObjectField connection (m_BufferFID s)) in
    let* data := jni (GetDirectBufferAddress buffer) in
    let destination := memcpy_from data size in
    jni (DeleteLocalRef buffer) ;;
    jni (DeleteLocalRef connection) ;;
    Ret destination).

Definition tell_closed (s : stream_ids) (connection : ref) : prog unit :=
  when (nonnull connection)
    (jni (CallVoidMethod connection (m_MID s closeConnection) []) ;;
     clearException true ;;
     jni (DeleteLocalRef connection)).
Definition CloseConnection (c : callbacks) (s : stream_ids) : prog callbacks :=
  with_environment (m_jvm c) (fun pEnv =>
    if pEnv then
      let* connection := jni (NewLocalRef (m_ConnectionHolder c)) in
      tell_closed s connection ;;
      jni (DeleteGlobalRef (m_ConnectionHolder c)) ;;
      Ret (mkCallbacks (m_jvm c) None)
    else Ret c).

(** ** The requests of the source element *)

Inductive request :=
| QNeedBuffer | QReadNextBlock | QReadBlock (position size : Z) | QIsSeekable | QIsRandomAccess | QSeek (position : Z) | QProperty (prop value : Z).
Definition serve (c : callbacks) (s : stream_ids) (q : request) : prog Z :=
  match q with
  | QNeedBuffer => let* b := NeedBuffer c s in Ret (Z.b2z b)
  | QReadNextBlock => ReadNextBlock c s
  | QReadBlock position size => ReadBlock c s position size
  | QIsSeekable => let* b := IsSeekable c s in Ret (Z.b2z b)
  | QIsRandomAccess => let* b := IsRandomAccess c s in Ret (Z.b2z b)
  | QSeek position => Seek c s position
  | QProperty prop value => Property c s prop value
  end.

(** The Java call behind a request, what is returned without it, and what a
    method that throws leaves: the code of the source element for the reads, and
    otherwise whatever JNI returned with the exception, to which it gives no
    meaning. *)
Definition request_member (q : request) : member :=
  match q with
  | QNeedBuffer => needBuffer | QReadNextBlock => readNextBlock | QReadBlock _ _ => readBlock | QIsSeekable => isSeekable
  | QIsRandomAccess => isRandomAccess | QSeek _ => seek | QProperty _ _ => property
  end.
Definition request_args (q : request) : list jvalue :=
  match q with
  | QReadBlock position size => [VLong position; VInt size]
  | QSeek position => [VLong position]
  | QProperty prop value => [VInt prop; VInt value]
  | _ => []
  end.
Definition request_fits (q : request) : bool :=
  match q with
  | QReadBlock position size => fits_long position && fits_int size
  | QSeek position => fits_long position
  | QProperty prop value => fits_int prop && fits_int value
  | _ => true
  end.
Definition closed_value (q : request) : Z :=
  match q with QReadNextBlock | QReadBlock _ _ | QSeek _ => -1 | _ => 0 end.
Definition thrown (q : request) (r : Z) : Prop :=
  match q with
  | QReadNextBlock | QReadBlock _ _ => r = -2
  | QNeedBuffer | QIsSeekable | QIsRandomAccess => r = 0 \/ r = 1
  | QSeek _ | QProperty _ _ => True
  end.
Definition served (q : request) (before : list java_call) (r : Z) (after : list java_call) : Prop :=
  (r = closed_value q /\ after = before) \/
  after = before ++ [mkCall (member_name (request_member q)) (request_args q) (Some r)] \/
  (thrown q r /\ after = before ++ [mkCall (member_name (request_member q)) (request_args q) None]).

(** ** What a request does *)

Definition stream_ready (c : callbacks) (s : stream_ids) (j : jvm) : Prop :=
  (forall m, m_MID s m = Some (member_name m, member_sig m)) /\ m_BufferFID s = Some ("buffer", "Ljava/nio/ByteBuffer;")%string /\
  instance_ok (m_ConnectionHolder c) j.

Lemma member_calls j m args out :
  java_calls (log_call (Some (member_name m, member_sig m)) args out j) = java_calls j ++ [mkCall (member_name m) (map (value_of j) args) out].
Proof. apply java_calls_log. destruct m; discriminate. Qed.

(** The results of a kind are numbers, and nothing else changes. *)
Definition scalar (k : kind) : bool := match k with KObject => false | _ => true end.
Lemma scalar_returned `{MACHINE : Machine} k m j r j' : scalar k = true -> returned k m j r j' -> j' = j.
Proof. destruct k; intros H; try discriminate; intros [_ ->]; reflexivity. Qed.

Section Requests.
Context `{MACHINE : Machine}.
Variables (c : callbacks) (s : stream_ids) (j : jvm).
Hypothesis (HM : sound_machine) (HI : idle j) (HR : stream_ready c s j).

(** What a call may have done: it returned [r], or it threw. *)
Definition asked (k : kind) (m : member) (vals : list jvalue) (f : bool -> result k -> result k) (before : list java_call) (x : result k) (after : list java_call) : Prop :=
  exists r, (x = f false r /\ after = before ++ [mkCall (member_name m) vals (Some (outcome_of k r))]) \/
            (x = f true r /\ after = before ++ [mkCall (member_name m) vals None]).

Lemma call_clear_rule {A} k o m args (p : bool -> result k -> prog A) j1 Q : scalar k = true ->
  attached j1 = true -> pending j1 = false ->
  live j1 o = true -> matches (member_sig m) args (kind_type k) = true -> forallb (arg_live j1) args = true ->
  (forall r, let j2 := log_call (Some (member_name m, member_sig m)) args (Some (outcome_of k r)) j1 in wp (p false r) j2 Q) ->
  (forall r j2, j2 = with_pending false (raise (log_call (Some (member_name m, member_sig m)) args None j1)) -> wp (p true r) j2 Q) ->
  wp (let* r := jni (CallMethod k o (m_MID s m) args) in let* e := clearException true in p e r) j1 Q.
Proof using HR.
  intros K A1 P L M V H1 H2. rewrite (proj1 HR m). cbn [wp bind jni]. split.
  - unfold allowed, method_ok. rewrite A1, P, L, M, V. reflexivity.
  - intros r j' [H| ->]; [apply scalar_returned in H as ->; [|exact K]|]; apply jwp_bind, clearException_rule; try exact A1.
    + cbn [pending log_call with_calls]. rewrite P. specialize (H1 r). cbv zeta in H1.
      replace (with_pending false _) with (log_call (Some (member_name m, member_sig m)) args (Some (outcome_of k r)) j1); [exact H1|].
      destruct j1. cbn in P. subst. reflexivity.
    + apply H2. reflexivity.
Qed.

Lemma ask_java_rule k default m args f : scalar k = true ->
  matches (member_sig m) args (kind_type k) = true -> forallb (fun a => match a with AObject _ => false | _ => true end) args = true ->
  wp (ask_java k c s default m args f) j (fun x j' => settles j j' /\
    ((x = default /\ java_calls j' = java_calls j) \/ asked k m (map (value_of j) args) f (java_calls j) x (java_calls j')) /\ globals j' = globals j).
Proof using HM HI HR.
  intros K M V. unfold ask_java, with_connection.
  apply (with_object_rule _ _ default _ j (fun x cs => (x = default /\ cs = java_calls j) \/ asked k m (map (value_of j) args) f (java_calls j) x cs));
    [exact HM|exact HI|apply HR|auto|].
  intros j0 l x A P C F. set (jl := with_local l x j0).
  assert (Ev : map (value_of jl) args = map (value_of j) args) by (clear - V; induction args as [|[] args IH]; cbn in *; try discriminate; f_equal; auto).
  assert (El : forallb (arg_live jl) args = true) by (clear - V; induction args as [|[] args IH]; cbn in *; try discriminate; auto).
  apply (call_clear_rule k (Some l) m args (fun e r => jni (DeleteLocalRef (Some l)) ;; Ret (f e r))); try assumption.
  - unfold live. rewrite (local_live jl l x); [reflexivity|apply lookup_insert_eq].
  - intros r j2. apply (release_rule l x j0 j2 _ (fun y cs => (y = default /\ cs = java_calls j) \/ asked k m (map (value_of j) args) f (java_calls j) y cs)); auto.
    + subst j2. split; cbn; auto; lia.
    + right. exists r. left. split; [reflexivity|]. subst j2. rewrite member_calls, Ev. change (java_calls jl) with (java_calls j0). rewrite C. reflexivity.
  - intros r j2 E2. apply (release_rule l x j0 j2 _ (fun y cs => (y = default /\ cs = java_calls j) \/ asked k m (map (value_of j) args) f (java_calls j) y cs)); subst j2; auto.
    + split; cbn; auto; lia.
    + right. exists r. right. split; [reflexivity|].
      change (java_calls (with_pending false (raise ?z))) with (java_calls z). rewrite member_calls, Ev. change (java_calls jl) with (java_calls j0). rewrite C. reflexivity.
Qed.

(** The exception is cleared last here. *)
Lemma NeedBuffer_rule : wp (NeedBuffer c s) j (fun x j' => settles j j' /\
  ((x = false /\ java_calls j' = java_calls j) \/ asked KBoolean needBuffer [] as_it_is (java_calls j) x (java_calls j')) /\ globals j' = globals j).
Proof using HM HI HR.
  unfold NeedBuffer.
  apply (with_environment_rule _ _ _ (fun x cs gs => ((x = false /\ cs = java_calls j) \/ asked KBoolean needBuffer [] as_it_is (java_calls j) x cs) /\ gs = globals j));
    [exact HM|exact HI|cbn; auto|].
  intros j1 A P G C _. rewrite (proj1 HR needBuffer). cbn [wp bind jni]. split.
  { unfold allowed, live_or_null, live, object_of. rewrite A, P. destruct (m_ConnectionHolder c) as [g|] eqn:E; [|reflexivity].
    destruct (proj2 (proj2 HR) g E) as [x Hx]. rewrite G, Hx. destruct (locals j1 !! g); reflexivity. }
  intros r j' [[-> ->]|(x & _ & l & F & -> & ->)]; cbn [nonnull].
  { cbn [wp bind]. apply jwp_bind, clearException_rule; [exact A|]. cbn [wp].
    split; [split; cbn; auto; lia|]. split; [left; split; [reflexivity|exact C]|exact G]. }
  cbn [wp bind jni]. split.
  { unfold allowed, live, object_of. cbn. rewrite A, P, lookup_insert_eq. reflexivity. }
  intros r j' [H| ->]; [apply (scalar_returned KBoolean) in H as ->; [|reflexivity]|].
  all: split; [unfold allowed, is_local; cbn; rewrite A, lookup_insert_eq; reflexivity|]; intros [] j2 E2; cbn in E2; subst j2;
    rewrite delete_insert_id by apply F; apply jwp_bind, clearException_rule; [exact A|]; cbn [wp];
    (split; [split; cbn; auto; lia|]); (split; [|exact G]); right; exists r; rewrite <- C.
  - left. split; [reflexivity|]. exact (member_calls (with_local l x j1) needBuffer [] (Some (if r then 1 else 0))).
  - right. split; [reflexivity|]. exact (member_calls (with_local l x j1) needBuffer [] None).
Qed.

Lemma copy_block_rule size : field_set = true -> (forall data, memory_holds data -> exists bytes, data = Some bytes /\ 0 <= size <= Z.of_nat (length bytes)) ->
  wp (CopyBlock c s size) j (fun x j' => settles j j' /\
    ((x = Untouched \/ exists bytes, memory_holds (Some bytes) /\ x = Copied (take (Z.to_nat size) bytes)) /\ java_calls j' = java_calls j) /\ globals j' = globals j).
Proof using HM HI HR.
  intros HF HB. unfold CopyBlock, with_connection.
  set (R := fun x cs => (x = Untouched \/ exists bytes, memory_holds (Some bytes) /\ x = Copied (take (Z.to_nat size) bytes)) /\ cs = java_calls j).
  apply (with_object_rule _ _ Untouched _ j R); [exact HM|exact HI|apply HR|unfold R; auto|].
  intros j0 l x A P C F. rewrite (proj1 (proj2 HR)). cbn [wp bind jni]. split.
  { unfold allowed, live, object_of. cbn. rewrite A, P, lookup_insert_eq. reflexivity. }
  intros r j' [(E & _)|(k & K & -> & ->)]; [congruence|]. split.
  { unfold allowed, live, object_of. cbn. rewrite A, P, lookup_insert_eq. reflexivity. }
  intros data j' [Hd ->]. destruct (HB data Hd) as (bytes & -> & Hs). split.
  { unfold allowed, is_local. cbn. rewrite A, lookup_insert_eq. reflexivity. }
  intros [] j' E. cbn in E. subst j'. rewrite delete_insert_id by apply K.
  apply (release_rule l x j0 _ _ R); auto.
  - split; cbn; auto; lia.
  - split; [|exact C]. right. exists bytes. split; [exact Hd|]. unfold memcpy_from. destruct ((0 <=? size) && (size <=? Z.of_nat (length bytes))) eqn:B; [reflexivity|lia].
Qed.
End Requests.

(** The answers that are truth values, as numbers. *)
Lemma truth_value `{MACHINE : Machine} q (p : prog bool) j :
  request_args q = [] -> closed_value q = 0 -> (forall b, thrown q (Z.b2z b)) ->
  wp p j (fun x j' => settles j j' /\
    ((x = false /\ java_calls j' = java_calls j) \/ asked KBoolean (request_member q) [] as_it_is (java_calls j) x (java_calls j')) /\ globals j' = globals j) ->
  wp (let* b := p in Ret (Z.b2z b)) j (fun r j' => settles j j' /\ served q (java_calls j) r (java_calls j') /\ globals j' = globals j).
Proof.
  intros Ha Hc Ht H. apply jwp_bind. eapply jwp_mono; [exact H|]. cbn beta. intros x j' (S & D & G). cbn [wp]. split; [exact S|]. split; [|exact G].
  unfold served. rewrite Ha, Hc. destruct D as [[-> C]|(r & [[-> C]|[-> C]])]; auto.
Qed.

(** Every request, whatever the machine and Java do. *)
Lemma requests_served_rule `{MACHINE : Machine} c s j q : sound_machine -> idle j -> stream_ready c s j -> request_fits q = true ->
  wp (serve c s q) j (fun r j' => settles j j' /\ served q (java_calls j) r (java_calls j') /\ globals j' = globals j).
Proof.
  intros HM HI HR Hf.
  pose proof (fun k d m args f => ask_java_rule c s j HM HI HR k d m args f) as Q.
  destruct q; cbn [serve request_fits] in *; try (apply truth_value; [reflexivity|reflexivity|intros []; cbn; auto|]).
  - apply (NeedBuffer_rule c s j HM HI HR).
  - eapply jwp_mono; [apply (Q KInt); reflexivity|]. cbn beta. intros x j' (S & D & G). split; [exact S|]. split; [|exact G].
    destruct D as [[-> C]|(r & [[-> C]|[-> C]])]; unfold served, thrown; auto.
  - eapply jwp_mono; [apply (Q KInt); [reflexivity| |reflexivity]|].
    { unfold matches. jsignature. cbn [all_pass passes kind_type]. rewrite andb_true_r. exact Hf. }
    cbn beta. intros x j' (S & D & G). split; [exact S|]. split; [|exact G].
    destruct D as [[-> C]|(r & [[-> C]|[-> C]])]; unfold served, thrown; auto.
  - apply (Q KBoolean); reflexivity.
  - apply (Q KBoolean); reflexivity.
  - eapply jwp_mono; [apply (Q KLong); [reflexivity| |reflexivity]|].
    { unfold matches. jsignature. cbn [all_pass passes kind_type]. rewrite andb_true_r. exact Hf. }
    cbn beta. intros x j' (S & D & G). split; [exact S|]. split; [|exact G].
    destruct D as [[-> C]|(r & [[-> C]|[-> C]])]; unfold served, thrown; auto.
  - eapply jwp_mono; [apply (Q KInt); [reflexivity| |reflexivity]|].
    { unfold matches. jsignature. cbn [all_pass passes kind_type]. rewrite andb_true_r. exact Hf. }
    cbn beta. intros x j' (S & D & G). split; [exact S|]. split; [|exact G].
    destruct D as [[-> C]|(r & [[-> C]|[-> C]])]; unfold served, thrown; auto.
Qed.
