(* ===== verification/StreamSession.v ===== *)
(** * The stream's life ([jni/JavaInputStreamCallbacks.cpp])

    What the callbacks answer from [Init] to [CloseConnection] and after it,
    and the cases that are not noticed: a failed [Init] keeps its reference,
    and a [seek] that throws counts as one that succeeded. *)

From S2P Require Import Prelude CFloat JniApi JniUtils JniRun StreamCallbacks.
Local Open Scope Z_scope.
Local Open Scope jni_scope.

(** ** Closing *)

Definition told (before after : list java_call) : Prop :=
  after = before \/ exists out, after = before ++ [mkCall "closeConnection" [] out].

Lemma tell_closed_rule `{MACHINE : Machine} c s j l x : stream_ready c s j -> attached j = true -> pending j = false -> fresh l j ->
  wp (tell_closed s (Some l)) (with_local l x j) (fun _ j' => grows j j' /\ told (java_calls j) (java_calls j') /\ globals j' = globals j).
Proof.
  intros R A P F. unfold tell_closed. cbn [nonnull when].
  assert (D : forall j2, attached j2 = true -> locals j2 = <[l:=x]> (locals j) ->
    wp (jni (DeleteLocalRef (Some l))) j2 (fun _ j' => j' = with_locals (locals j) j2)).
  { intros j2 A2 L2. cbn [wp jni]. split; [unfold allowed, is_local; rewrite A2, L2, lookup_insert_eq; reflexivity|].
    intros [] j' E. cbn in E. subst j'. rewrite L2, delete_insert_id by apply F. reflexivity. }
  apply (call_clear_rule c s j R KVoid (Some l) closeConnection [] (fun _ _ => jni (DeleteLocalRef (Some l)))); auto.
  - unfold live. rewrite (local_live _ l x); [reflexivity|apply lookup_insert_eq].
  - intros r j2. eapply jwp_mono; [apply D; [exact A|reflexivity]|]. cbn beta. intros _ j' ->.
    split; [split; cbn; auto; lia|]. split; [|reflexivity]. right. eexists. exact (member_calls (with_local l x j) closeConnection [] (Some 0)).
  - intros r j2 ->. eapply jwp_mono; [apply D; [exact A|reflexivity]|]. cbn beta. intros _ j' ->.
    split; [split; cbn; auto; lia|]. split; [|reflexivity]. right. eexists. exact (member_calls (with_local l x j) closeConnection [] None).
Qed.

(** After [CloseConnection] the object has no connection; Java was told, once,
    unless there was none. *)
Lemma CloseConnection_rule `{MACHINE : Machine} c s j : idle j -> attached j = true -> m_jvm c = true -> stream_ready c s j ->
  wp (CloseConnection c s) j (fun c' j' => c' = mkCallbacks true None /\ settles j j' /\ told (java_calls j) (java_calls j') /\
    globals j' = match m_ConnectionHolder c with Some g => delete g (globals j) | None => globals j end).
Proof.
  intros [P I] A V R. unfold CloseConnection. rewrite V. apply attached_rule; [exact A|].
  set (h := m_ConnectionHolder c).
  assert (HG : forall g, h = Some g -> is_Some (globals j !! g)) by apply R.
  cbn [wp bind jni]. split.
  { unfold allowed, live_or_null, live, object_of. rewrite A, P. destruct h as [g|]; [|reflexivity].
    destruct (HG g eq_refl) as [x ->]. destruct (locals j !! g); reflexivity. }
  intros r j' Hr. apply jwp_bind.
  apply (jwp_mono _ _ (fun _ j1 => grows j j1 /\ told (java_calls j) (java_calls j1) /\ globals j1 = globals j)).
  - destruct Hr as [[-> ->]|(x & _ & l & F & -> & ->)]; [|apply (tell_closed_rule c); assumption].
    cbn [tell_closed nonnull when wp]. split; [apply grows_refl, P|]. split; [left|]; reflexivity.
  - intros _ j1 (G & T & E). cbn [wp bind jni]. split.
    { unfold allowed, is_global. rewrite (g_attached _ _ G), A. destruct h as [g|]; [|reflexivity]. rewrite E. destruct (HG g eq_refl) as [x ->]. reflexivity. }
    intros [] j2 E2. cbn in E2. split; [reflexivity|].
    assert (S : settles j j1) by (destruct G; split; auto; rewrite A; auto).
    destruct h as [g|]; subst j2; [|auto]. rewrite E. split; [destruct S; split; auto|auto].
Qed.

(** A closed stream answers by itself. *)
Lemma closed_served `{MACHINE : Machine} c s j q : sound_machine -> idle j -> m_ConnectionHolder c = None ->
  wp (serve c s q) j (fun r j' => settles j j' /\ (r = closed_value q /\ java_calls j' = java_calls j) /\ globals j' = globals j).
Proof.
  intros HM I N.
  assert (Z : forall k d m args f, wp (ask_java k c s d m args f) j (fun r j' => settles j j' /\ (r = d /\ java_calls j' = java_calls j) /\ globals j' = globals j)).
  { intros. unfold ask_java, with_connection. rewrite N. apply no_object_rule; assumption. }
  assert (B : forall p, wp p j (fun r j' => settles j j' /\ (r = false /\ java_calls j' = java_calls j) /\ globals j' = globals j) ->
    wp (let* b := p in Ret (Z.b2z b)) j (fun r j' => settles j j' /\ (r = 0 /\ java_calls j' = java_calls j) /\ globals j' = globals j)).
  { intros p H. apply jwp_bind. eapply jwp_mono; [exact H|]. cbn beta. intros b j' (S & (-> & C) & G). cbn [wp]. auto. }
  destruct q; cbn [serve closed_value]; try apply B; try apply (Z KBoolean); try apply (Z KInt); try apply (Z KLong).
  unfold NeedBuffer. rewrite N.
  eapply jwp_mono; [apply (with_environment_rule _ _ _ (fun a cs gs => (a = false /\ cs = java_calls j) /\ gs = globals j)); [exact HM|exact I|cbn; auto|]|auto].
  intros j1 A P G C _. cbn [wp bind jni]. split; [unfold allowed; rewrite A, P; reflexivity|].
  intros r j' [[-> ->]|(x & F & _)]; [|discriminate]. cbn [nonnull wp bind]. apply jwp_bind, clearException_rule; [exact A|]. cbn [wp].
  split; [split; cbn; auto; lia|]. split; [split; [reflexivity|exact C]|exact G].
Qed.

(** ** A session *)

(** What is requested until the connection is closed, and afterwards. *)
Definition stream_session (c : callbacks) (s : stream_ids) (qs late : list request) : prog (list Z * list Z) :=
  let* rs := each (serve c s) qs in
  let* c := CloseConnection c s in
  let* lates := each (serve c s) late in
  Ret (rs, lates).

Lemma closed_values qs rs : Forall2 (fun q r => r = closed_value q) qs rs -> rs = map closed_value qs.
Proof. intros H. induction H; cbn; congruence. Qed.


(** ** Init *)

Definition right_member (ids : member -> jmethodID) (m : member) : Prop := ids m = Some (member_name m, member_sig m).
Definition ids_ok (s : stream_ids) : Prop :=
  methodIDsInitialized s = true -> (forall m, right_member (m_MID s) m) /\ m_BufferFID s = Some ("buffer", "Ljava/nio/ByteBuffer;")%string.

Section Init.
Context `{MACHINE : Machine}.

Lemma look_up_members_rule klass ms : text_available = true -> forall ids j,
  attached j = true -> pending j = false -> live j klass = true ->
  wp (look_up_members true klass ms ids) j (fun '(failed, ids') j' => quiet j j' /\
    (failed = false -> forall m, right_member ids m \/ In m ms -> right_member ids' m)).
Proof.
  intros HT. induction ms as [|m ms IH]; intros ids j A P L; cbn [look_up_members].
  - cbn [wp]. split; [apply quiet_refl, P|]. intros _ m [H|[]]. exact H.
  - cbn [wp bind jni]. split; [unfold allowed; rewrite A, P, L; reflexivity|].
    intros id j' [[-> ->]|[-> ->]]; apply jwp_bind, reportException_rule; auto; cbn [pending raise].
    + rewrite P. cbn [orb negb nonnull]. eapply jwp_mono; [apply IH; assumption|]. intros [failed ids'] j' [Q H]. split; [exact Q|].
      intros F m' Hm. apply (H F). unfold right_member, set_member in *. destruct (decide (m' = m)) as [->|N]; [auto|].
      destruct Hm as [Hm|[Hm|Hm]]; [auto|congruence|auto].
    + intros j' Pr. cbn [orb wp]. split; [apply printed_quiet, Pr|discriminate].
Qed.

Lemma look_up_all_rule klass s j : text_available = true -> attached j = true -> pending j = false -> live j klass = true ->
  wp (look_up_all true klass s) j (fun '(failed, s') j' => quiet j j' /\ methodIDsInitialized s' = negb failed /\ ids_ok s').
Proof.
  intros HT A P L. unfold look_up_all. cbn [wp bind jni]. split; [unfold allowed; rewrite A, P, L; reflexivity|].
  intros id j' [[-> ->]|[-> ->]]; apply jwp_bind, reportException_rule; auto; cbn [pending raise].
  - rewrite P. cbn [orb negb nonnull]. apply jwp_bind. eapply jwp_mono; [apply look_up_members_rule; auto|].
    intros [failed ids'] j' [Q H]. cbn [wp]. split; [exact Q|]. split; [reflexivity|]. intros B. split; [|reflexivity].
    intros m. apply H; [apply negb_true_iff, B|]. right. destruct m; cbn; tauto.
  - intros j' Pr. cbn [orb wp]. split; [apply printed_quiet, Pr|]. split; [reflexivity|]. discriminate.
Qed.

Lemma look_up_class_rule s j : text_available = true -> attached j = true -> pending j = false ->
  wp (look_up_class true s) j (fun '(ok, s') j' => quiet j j' /\ methodIDsInitialized s' = ok /\ ids_ok s').
Proof.
  intros HT A P. unfold look_up_class. cbn [wp bind jni]. split; [unfold allowed; rewrite A, P; reflexivity|].
  intros r j' [(l & F & -> & ->)|[-> ->]]; apply jwp_bind, reportException_rule; auto; cbn [pending raise with_local with_locals].
  - rewrite P. cbn [orb negb nonnull]. apply jwp_bind. eapply jwp_mono; [apply look_up_all_rule; auto|].
    { unfold live. rewrite (local_live _ l (JClass "com/sun/media/jfxmedia/locator/ConnectionHolder")); [reflexivity|apply lookup_insert_eq]. }
    intros [failed s'] j' ((G & C & E) & B & O). cbn [when]. destruct (grows_delete _ _ _ _ F G) as [G' L].
    apply delete_rule; [rewrite (g_attached _ _ G); exact A|exact L|]. cbn [wp]. split; [split; [exact G'|split; assumption]|]. auto.
  - intros j' Pr. cbn [orb bind when nonnull wp negb]. split; [apply printed_quiet, Pr|]. split; [reflexivity|discriminate].
Qed.
End Init.

(** [Init] succeeds only when every identifier is there; the object then keeps a
    reference of its own to the holder.  Without one nothing is kept. *)
Theorem stream_init_ready `{MACHINE : Machine} holder c s j : sound_machine -> attached j = true -> pending j = false ->
  live_or_null j holder = true -> ids_ok s ->
  wp (stream_init holder c s) j (fun '(ok, c', s') j' => grows j j' /\ java_calls j' = java_calls j /\ ids_ok s' /\
    if ok then m_jvm c' = true /\ stream_ready c' s' j' /\
      exists g, m_ConnectionHolder c' = Some g /\ globals j !! g = None /\ globals j' !! g = object_of j holder /\ delete g (globals j') = globals j
    else holder = None \/ m_jvm c' = true).
Proof.
  intros [HT HV] A P L HS. unfold stream_init. destruct holder as [h|]; cbn [nonnull negb].
  2:{ cbn [wp]. split; [apply grows_refl, P|]. auto. }
  cbn [wp bind jni]. split; [unfold allowed; rewrite A, P; reflexivity|]. intros vm j' [[-> ->]|[F _]]; [|congruence].
  split; [exact A|]. intros e j' [-> ->]. rewrite P. apply attached_rule; [exact A|].
  cbn [wp bind jni]. split; [unfold allowed; rewrite A, P, L; reflexivity|].
  intros r j1 [(-> & -> & _)|(x & g & O & F & -> & ->)]; cbn [nonnull negb].
  { apply jwp_bind, reportException_rule; [exact HT|exact A|]. rewrite P. cbn [wp m_jvm]. split; [apply grows_refl, P|]. auto. }
  set (j1 := with_globals (<[g:=x]> (globals j)) j).
  assert (K : forall (ok : bool) (s' : stream_ids) j2, quiet j1 j2 -> methodIDsInitialized s' = ok -> ids_ok s' ->
    grows j j2 /\ java_calls j2 = java_calls j /\ ids_ok s' /\
    if ok then m_jvm (mkCallbacks true (Some g)) = true /\ stream_ready (mkCallbacks true (Some g)) s' j2 /\
      exists g', Some g = Some g' /\ globals j !! g' = None /\ globals j2 !! g' = object_of j (Some h) /\ delete g' (globals j2) = globals j
    else Some h = None \/ true = true).
  { intros ok s' j2 (G & C & E) B O'. assert (Eg : globals j2 !! g = Some x) by (rewrite E; apply lookup_insert_eq).
    split; [destruct G; split; auto|]. split; [exact C|]. split; [exact O'|]. destruct ok; [|auto]. split; [reflexivity|].
    destruct (O' B) as [M Fd]. split.
    - split; [exact M|]. split; [exact Fd|]. intros g' [= <-]. rewrite Eg. eauto.
    - exists g. split; [reflexivity|]. split; [apply F|]. rewrite Eg, O. split; [reflexivity|]. rewrite E. cbn. rewrite delete_insert_id by apply F. reflexivity. }
  destruct (methodIDsInitialized s) eqn:HI.
  - cbn [wp]. apply (K true s j1); auto. apply quiet_refl, P.
  - apply jwp_bind. eapply jwp_mono; [apply look_up_class_rule; auto|]. intros [ok s'] j2 (Q & B & O'). cbn [wp]. apply K; assumption.
Qed.

(** A failed [Init] keeps the reference to the holder: nobody deletes it, since
    the destructor does nothing and the callers do not close the connection of
    an object that is not initialised. *)
Definition java_holder : positive := 1.
Definition opened : jvm := mkJvm true false 0 {[ java_holder := JObject ]} ∅ [].
Theorem failed_stream_init_leaks m :
  option_map (fun '(ok, c, _, j) => (ok, nonnull (m_ConnectionHolder c), size (globals j)))
    (run (without no_reply [] (member_name m)) (stream_init (Some java_holder) (mkCallbacks false None) no_ids) opened) =
  Some (false, true, 1%nat).
Proof. destruct m; vm_compute; reflexivity. Qed.

(** *** Executions *)

Definition replies (name : string) : Z := if decide (name = "readNextBlock")%string then 3 else if decide (name = "seek")%string then 100 else 1.
Definition all_ids : stream_ids := mkStreamIds true (Some ("buffer", "Ljava/nio/ByteBuffer;")%string) (fun m => Some (member_name m, member_sig m)).
Definition open_stream : callbacks := mkCallbacks true (Some java_holder).
Definition streaming : jvm := mkJvm true false 0 ∅ {[ java_holder := JObject ]} [].
Definition requests : list request := [QNeedBuffer; QReadNextBlock; QReadBlock 4096 512; QIsSeekable; QIsRandomAccess; QSeek 100; QProperty 1 0].

(** When Java's [seek] throws, what the call leaves is returned as the position
    found; a read that throws returns the code for it. *)
Theorem thrown_seek_accepted z :
  option_map (fun '(r, j) => (r, java_calls j)) (run (throwing replies [] "seek" z) (Seek open_stream all_ids 100) streaming) =
    Some (z, [mkCall "seek" [VLong 100] None]) /\
  option_map (fun '(r, j) => (r, java_calls j)) (run (throwing replies [] "readBlock" z) (ReadBlock open_stream all_ids 100 10) streaming) =
    Some (-2, [mkCall "readBlock" [VLong 100; VInt 10] None]).
Proof. split; vm_compute; reflexivity. Qed.


Example requests_answered :
  option_map (fun '(rs, lates, j) => (rs, lates, map called (java_calls j)))
    (run (calm replies []) (stream_session open_stream all_ids requests [QReadNextBlock; QSeek 0]) streaming) =
  Some ([1; 3; 1; 1; 1; 100; 1], [-1; -1],
    ["needBuffer"; "readNextBlock"; "readBlock"; "isSeekable"; "isRandomAccess"; "seek"; "property"; "closeConnection"]%string).
Proof. vm_compute. reflexivity. Qed.

Lemma stream_init_ready_witness : exists ok c s j',
  run (calm replies []) (stream_init (Some java_holder) (mkCallbacks false None) no_ids) opened = Some (ok, c, s, j') /\ ok = true /\ stream_ready c s j'.
Proof.
  destruct (wp_run _ _ (calm_faithful replies []) _ _ (stream_init_ready (Some java_holder) (mkCallbacks false None) no_ids opened all_sound eq_refl eq_refl eq_refl
    ltac:(discriminate))) as ([[ok c] s] & j' & E & _ & _ & _ & R).
  exists ok, c, s, j'. split; [exact E|].
  assert (B : ok = true).
  { assert (K : option_map (fun '(ok, _, _, _) => ok) (run (calm replies []) (stream_init (Some java_holder) (mkCallbacks false None) no_ids) opened) = Some true)
      by (vm_compute; reflexivity). rewrite E in K. injection K as K. exact K. }
  subst ok. split; [reflexivity|apply R].
Defined.
