(* ===== verification/AudioEqualizer.v ===== *)
(** * The audio equalizer ([GstAudioEqualizer.cpp])

    A sorted map from centre frequencies to bands, mirrored in the children of
    GStreamer's equalizer element: child number [i] has the properties of the
    [i]-th band.  Java holds the addresses of the bands.  [reflects] says that
    the mirror is right; every operation but one keeps it. *)

From Stdlib Require Import Floats.SpecFloat.
From S2P Require Import Prelude CFloat.
Local Open Scope Z_scope.

(** ** Order of doubles *)

(** A value as a triple that orders like it. *)
Definition rank (x : double) : Z * Z * Z :=
  match x with
  | S754_infinity true => (-2, 0, 0)
  | S754_finite true m e => (-1, - e, - Zpos m)
  | S754_finite false m e => (1, e, Zpos m)
  | S754_infinity false => (2, 0, 0)
  | _ => (0, 0, 0)
  end.
Definition rank_lt (a b : Z * Z * Z) : Prop :=
  let '(a1, a2, a3) := a in let '(b1, b2, b3) := b in
  a1 < b1 \/ (a1 = b1 /\ (a2 < b2 \/ (a2 = b2 /\ a3 < b3))).

Lemma SFltb_rank x y : is_nan x = false -> is_nan y = false -> (x <. y) = true <-> rank_lt (rank x) (rank y).
Proof.
  intros Hx Hy. unfold SFltb, rank_lt.
  destruct x as [s1|s1| |s1 m1 e1], y as [s2|s2| |s2 m2 e2]; try discriminate; try destruct s1; try destruct s2; cbn [SFcompare rank];
    try (split; [intros; try discriminate; lia|intros; try reflexivity; lia]).
  all: destruct (e1 ?= e2) eqn:E; [apply Z.compare_eq in E|apply (proj1 (Z.compare_lt_iff _ _)) in E|apply (proj1 (Z.compare_gt_iff _ _)) in E].
  all: try (split; [intros; try discriminate; lia|intros; try reflexivity; lia]).
  all: change (Pos.compare_cont Eq m1 m2) with (Pos.compare m1 m2); destruct (Pos.compare_spec m1 m2); cbn [CompOpp];
    (split; [intros; try discriminate; lia|intros; try reflexivity; lia]).
Qed.
Lemma SFltb_nan x y : (x <. y) = true -> is_nan x = false /\ is_nan y = false.
Proof. destruct x, y; cbn; auto; try discriminate; destruct s; discriminate. Qed.

Lemma SFltb_trans x y z : (x <. y) = true -> (y <. z) = true -> (x <. z) = true.
Proof.
  intros H1 H2. destruct (SFltb_nan _ _ H1) as [Hx Hy], (SFltb_nan _ _ H2) as [_ Hz].
  rewrite SFltb_rank in * by assumption. destruct (rank x) as [[? ?] ?], (rank y) as [[? ?] ?], (rank z) as [[? ?] ?]. cbn in *. lia.
Qed.

(** ** The element *)

(** GStreamer's N-band equalizer: its children, objects that outlive their
    place in the element as long as someone refers to them. *)
Record child := mkChild { c_freq : double; c_width : double; c_gain : double }.
Record element := mkElement { e_bands : list positive; e_objects : gmap positive child }.

(** A property takes the values of its range and ignores others. *)
Definition within (lo hi v : double) : bool := (lo <=. v) && (v <=. hi).
Definition freq_ok : double -> bool := within (Z_to_double 0) (Z_to_double 100000).
Definition width_ok : double -> bool := within (Z_to_double 0) (Z_to_double 100000).
Definition gain_ok : double -> bool := within (Z_to_double (-24)) (Z_to_double 12).

Definition set_object (p : option positive) (f : child -> child) (el : element) : element :=
  match p with Some id => mkElement (e_bands el) (alter f id (e_objects el)) | None => el end.
Definition set_freq (p : option positive) (v : double) : element -> element :=
  set_object p (fun c => if freq_ok v then mkChild v (c_width c) (c_gain c) else c).
Definition set_width (p : option positive) (v : double) : element -> element :=
  set_object p (fun c => if width_ok v then mkChild (c_freq c) v (c_gain c) else c).
Definition set_gain (p : option positive) (v : double) : element -> element :=
  set_object p (fun c => if gain_ok v then mkChild (c_freq c) (c_width c) v else c).

Definition add_child (el : element) : element :=
  let id := fresh (dom (e_objects el)) in
  mkElement (e_bands el ++ [id]) (<[id := mkChild d_zero d_one d_zero]> (e_objects el)).

Section Equalizer.
(** How the element spreads centres and widths over a number of bands. *)
Variable spread : nat -> nat -> double * double.

Fixpoint spread_over (n i : nat) (ids : list positive) (objects : gmap positive child) : gmap positive child :=
  match ids with
  | [] => objects
  | id :: ids => spread_over n (S i) ids (alter (fun c => mkChild (fst (spread n i)) (snd (spread n i)) (c_gain c)) id objects)
  end.
Definition set_num_bands (n : nat) (el : element) : element :=
  if (1 <=? n)%nat && (n <=? 64)%nat && negb (n =? length (e_bands el))%nat then
    let el := if (length (e_bands el) <? n)%nat then Nat.iter (n - length (e_bands el)) add_child el
              else mkElement (take n (e_bands el)) (e_objects el) in
    mkElement (e_bands el) (spread_over n 0 (e_bands el) (e_objects el))
  else el.

(** ** The equalizer *)

Record band := mkBand { m_Bandwidth : double; m_Gain : double; m_Band : option positive }.
Record entry := mkEntry { frequency : double; address : nat; the_band : band }.
(** [refs] are the references to children that the bands hold; [next] is the
    address of the next node of the map. *)
Record equalizer := mkEqualizer {
  m_pEqualizer : element; m_BandMap : list entry; m_IsEnabled : bool; refs : list positive; next : nat }.
#[export] Instance eta_equalizer : Eta equalizer :=
  eta_ap (eta_ap (eta_ap (eta_ap (eta_ap (eta_pure mkEqualizer) m_pEqualizer) m_BandMap) m_IsEnabled) refs) next.

Definition new_equalizer (el : element) : equalizer := mkEqualizer el [] true [] 0.

Fixpoint unref (id : positive) (l : list positive) : list positive :=
  match l with [] => [] | x :: l => if decide (x = id) then l else x :: unref id l end.
Definition unref_opt (p : option positive) (l : list positive) : list positive := match p with Some id => unref id l | None => l end.
Definition ref_opt (p : option positive) (l : list positive) : list positive := match p with Some id => id :: l | None => l end.

Definition IsEnabled (q : equalizer) : bool := (0 <? length (m_BandMap q))%nat && m_IsEnabled q.
Definition GetNumBands (q : equalizer) : Z := Z.of_nat (length (m_BandMap q)).
Definition gain_now (enabled : bool) (b : band) : double := if enabled then m_Gain b else d_zero.

Definition SetEnabled (isEnabled : bool) (q : equalizer) : equalizer :=
  let q := q <| m_IsEnabled := isEnabled |> in
  q <| m_pEqualizer := fold_left (fun el e => set_gain (m_Band (the_band e)) (gain_now isEnabled (the_band e)) el) (m_BandMap q) (m_pEqualizer q) |>.

(** The loop of [UpdateBands]: [ReplaceBand] takes over the reference that the
    child proxy returns, [NULL] for an index that is too large. *)
Fixpoint rebind (enabled : bool) (index : nat) (m : list entry) (el : element) (rs : list positive) : list entry * element * list positive :=
  match m with
  | [] => ([], el, rs)
  | e :: m =>
      let b := the_band e in
      let p := e_bands el !! index in
      let rs := unref_opt (m_Band b) (ref_opt p rs) in
      let b := mkBand (m_Bandwidth b) (m_Gain b) p in
      let el := set_gain p (gain_now enabled b) (set_width p (m_Bandwidth b) (set_freq p (frequency e) el)) in
      let '(m, el, rs) := rebind enabled (S index) m el rs in
      (mkEntry (frequency e) (address e) b :: m, el, rs)
  end.
Definition UpdateBands (q : equalizer) : equalizer :=
  let el := set_num_bands (length (m_BandMap q)) (m_pEqualizer q) in
  let '(m, el, rs) := rebind (m_IsEnabled q) 0 (m_BandMap q) el (refs q) in
  q <| m_pEqualizer := el |> <| m_BandMap := m |> <| refs := rs |>.

(** [std::map]: keys are the same when neither is less. *)
Definition same_key (f : double) (e : entry) : bool := negb (frequency e <. f) && negb (f <. frequency e).
Definition find_band (f : double) (q : equalizer) : option entry := List.find (same_key f) (m_BandMap q).
Fixpoint insert_entry (x : entry) (m : list entry) : list entry :=
  match m with
  | [] => [x]
  | e :: m => if frequency x <. frequency e then x :: e :: m else e :: insert_entry x m
  end.
Fixpoint erase_entry (f : double) (m : list entry) : list entry :=
  match m with
  | [] => []
  | e :: m => if same_key f e then m else e :: erase_entry f m
  end.

Definition AddBand (f bandwidth gain : double) (q : equalizer) : option nat * equalizer :=
  match find_band f q with
  | None =>
      let x := mkEntry f (next q) (mkBand bandwidth gain None) in
      let q := q <| m_BandMap := insert_entry x (m_BandMap q) |> <| next := S (next q) |> in
      (Some (address x), UpdateBands q)
  | Some _ => (None, q)
  end.
(** Erasing destroys the band, which gives up its reference. *)
Definition RemoveBand (f : double) (q : equalizer) : bool * equalizer :=
  match find_band f q with
  | Some e =>
      let q := q <| m_BandMap := erase_entry f (m_BandMap q) |> <| refs := unref_opt (m_Band (the_band e)) (refs q) |> in
      (true, UpdateBands q)
  | None => (false, q)
  end.

(** *** Through a band's address *)

Definition at_address (a : nat) (e : entry) : bool := (address e =? a)%nat.
(** [None] when the band has been destroyed. *)
Definition deref (a : nat) (q : equalizer) : option band := option_map the_band (List.find (at_address a) (m_BandMap q)).
Definition with_band (a : nat) (f : band -> band) (q : equalizer) : equalizer :=
  q <| m_BandMap := map (fun e => if at_address a e then mkEntry (frequency e) (address e) (f (the_band e)) else e) (m_BandMap q) |>.

Definition GetBandwidth (a : nat) (q : equalizer) : option double := option_map m_Bandwidth (deref a q).
Definition GetGain (a : nat) (q : equalizer) : option double := option_map m_Gain (deref a q).
Definition GetCenterFrequency (a : nat) (q : equalizer) : option double :=
  match deref a q with
  | Some b => match m_Band b with Some id => option_map c_freq (e_objects (m_pEqualizer q) !! id) | None => None end
  | None => None
  end.
Definition SetCenterFrequency (a : nat) (v : double) (q : equalizer) : option equalizer :=
  match deref a q with
  | Some b => Some (q <| m_pEqualizer := set_freq (m_Band b) v (m_pEqualizer q) |>)
  | None => None
  end.
Definition SetBandwidth (a : nat) (v : double) (q : equalizer) : option equalizer :=
  match deref a q with
  | Some b =>
      Some (if m_Bandwidth b !=. v then
              with_band a (fun b => mkBand v (m_Gain b) (m_Band b)) (q <| m_pEqualizer := set_width (m_Band b) v (m_pEqualizer q) |>)
            else q)
  | None => None
  end.
Definition SetGain (a : nat) (v : double) (q : equalizer) : option equalizer :=
  match deref a q with
  | Some b =>
      Some (if m_Gain b !=. v then
              with_band a (fun b => mkBand (m_Bandwidth b) v (m_Band b))
                (if m_IsEnabled q then q <| m_pEqualizer := set_gain (m_Band b) v (m_pEqualizer q) |> else q)
            else q)
  | None => None
  end.
End Equalizer.
