(* ===== verification/EqualizerMirror.v ===== *)
(** * The equalizer's children are its bands

    The proofs for [AudioEqualizer]: whatever is added, removed, enabled or set
    through a band, the element's children have the properties of the bands in
    ascending order of frequency, and each band holds one reference. *)

From Stdlib Require Import Sorted Floats.SpecFloat.
From S2P Require Import Prelude CFloat AudioEqualizer.
Local Open Scope Z_scope.

(** ** The element *)

Record element_ok (el : element) : Prop := {
  el_distinct : NoDup (e_bands el);
  el_alive : forall id, id ∈ e_bands el -> is_Some (e_objects el !! id) }.

Lemma set_object_bands p f el : e_bands (set_object p f el) = e_bands el.
Proof. destruct p; reflexivity. Qed.
Lemma set_object_alive p f el id : is_Some (e_objects (set_object p f el) !! id) <-> is_Some (e_objects el !! id).
Proof. destruct p; cbn; [rewrite lookup_alter_is_Some|]; reflexivity. Qed.
Lemma set_object_ok p f el : element_ok el -> element_ok (set_object p f el).
Proof.
  intros [H1 H2]. split; [rewrite set_object_bands; exact H1|]. intros id. rewrite set_object_bands, set_object_alive. apply H2.
Qed.
Lemma set_object_other p f el id : p <> Some id -> e_objects (set_object p f el) !! id = e_objects el !! id.
Proof. destruct p as [o|]; intros H; cbn; [rewrite lookup_alter_ne by congruence|]; reflexivity. Qed.
Lemma set_object_same id f el : e_objects (set_object (Some id) f el) !! id = f <$> e_objects el !! id.
Proof. apply lookup_alter_eq. Qed.

Lemma add_child_ok el : element_ok el -> element_ok (add_child el) /\ length (e_bands (add_child el)) = S (length (e_bands el)).
Proof.
  intros [H1 H2]. unfold add_child. set (id := stdpp.base.fresh (dom (e_objects el))).
  assert (N : e_objects el !! id = None) by apply not_elem_of_dom, is_fresh.
  split; [split; cbn|cbn; rewrite length_app; cbn; lia].
  - apply NoDup_app. split; [exact H1|]. split; [|apply NoDup_singleton]. intros x Hx E. apply list_elem_of_singleton in E. subst x.
    destruct (H2 id Hx) as [c Hc]. congruence.
  - intros x Hx. apply elem_of_app in Hx as [Hx|Hx].
    + rewrite lookup_insert_ne by (intros <-; destruct (H2 id Hx); congruence). apply H2, Hx.
    + apply list_elem_of_singleton in Hx. subst x. rewrite lookup_insert_eq. eauto.
Qed.
Lemma add_children_ok n el : element_ok el -> element_ok (Nat.iter n add_child el) /\ length (e_bands (Nat.iter n add_child el)) = (n + length (e_bands el))%nat.
Proof.
  intros H. induction n as [|n [IH1 IH2]]; [auto|]. change (Nat.iter (S n) add_child el) with (add_child (Nat.iter n add_child el)). destruct (add_child_ok _ IH1) as [A B]. split; [exact A|]. rewrite B, IH2. lia.
Qed.

Section Mirror.
Variable spread : nat -> nat -> double * double.

Lemma spread_over_alive n ids : forall i objects id, is_Some (spread_over spread n i ids objects !! id) <-> is_Some (objects !! id).
Proof.
  induction ids as [|x ids IH]; intros i objects id; cbn; [reflexivity|]. rewrite IH. apply lookup_alter_is_Some.
Qed.

Lemma set_num_bands_ok n el : element_ok el ->
  element_ok (set_num_bands spread n el) /\ ((1 <= n <= 64)%nat -> length (e_bands (set_num_bands spread n el)) = n).
Proof.
  intros H. unfold set_num_bands.
  destruct ((1 <=? n)%nat && (n <=? 64)%nat && negb (n =? length (e_bands el))%nat) eqn:E.
  2:{ split; [exact H|]. intros Hn. apply andb_false_iff in E as [E|E]; [apply andb_false_iff in E as [E|E]; [apply Nat.leb_gt in E|apply Nat.leb_gt in E]; lia|].
      apply negb_false_iff, Nat.eqb_eq in E. auto. }
  set (el1 := if (length (e_bands el) <? n)%nat then _ else _).
  assert (H1 : element_ok el1 /\ length (e_bands el1) = n).
  { unfold el1. destruct (Nat.ltb_spec (length (e_bands el)) n).
    - destruct (add_children_ok (n - length (e_bands el)) el H) as [A B]. split; [exact A|]. rewrite B. lia.
    - destruct H as [D L]. split; [split; cbn|cbn; rewrite length_take; lia].
      + apply (sublist_NoDup _ (e_bands el)); [exact D|apply sublist_take].
      + intros id Hid. apply L. eapply elem_of_sublist; [exact Hid|apply sublist_take]. }
  clearbody el1. destruct H1 as [[D L] Hn]. split; [|intros _; exact Hn]. split; cbn; [exact D|].
  intros id Hid. apply spread_over_alive, L, Hid.
Qed.

(** ** The bands *)

(** Values that the properties take. *)
Definition entry_ok (e : entry) : Prop :=
  freq_ok (frequency e) = true /\ width_ok (m_Bandwidth (the_band e)) = true /\ gain_ok (m_Gain (the_band e)) = true.
Lemma gain_now_ok enabled b : gain_ok (m_Gain b) = true -> gain_ok (gain_now enabled b) = true.
Proof. destruct enabled; intros H; [exact H|reflexivity]. Qed.

(** What the child of a band should be. *)
Definition wanted (enabled : bool) (e : entry) : child := mkChild (frequency e) (m_Bandwidth (the_band e)) (gain_now enabled (the_band e)).
(** The band has the child at its index, with its values. *)
Definition bound (enabled : bool) (el : element) (i : nat) (e : entry) : Prop :=
  exists id, e_bands el !! i = Some id /\ m_Band (the_band e) = Some id /\ e_objects el !! id = Some (wanted enabled e).
(** The references of the bands. *)
Definition held (m : list entry) : list positive := omap (fun e => m_Band (the_band e)) m.
(** Two entries that differ in the child only. *)
Definition same_entry (e e' : entry) : Prop :=
  frequency e' = frequency e /\ address e' = address e /\ m_Bandwidth (the_band e') = m_Bandwidth (the_band e) /\ m_Gain (the_band e') = m_Gain (the_band e).

Lemma unref_perm id l : id ∈ l -> id :: unref id l ≡ₚ l.
Proof.
  induction l as [|x l IH]; intros H; [apply not_elem_of_nil in H as []|]. cbn. destruct (decide (x = id)) as [->|N]; [reflexivity|].
  rewrite Permutation_swap. f_equiv. apply IH. apply elem_of_cons in H as [H|H]; [congruence|exact H].
Qed.
Lemma unref_opt_perm p l m : l ≡ₚ ref_opt p m -> unref_opt p l ≡ₚ m.
Proof.
  destruct p as [id|]; cbn; intros H; [|exact H]. apply (Permutation_cons_inv (a := id)). rewrite <- H. apply unref_perm.
  rewrite H. left.
Qed.

(** One round of the loop. *)
Definition set_all (id : positive) (enabled : bool) (e : entry) (el : element) : element :=
  set_gain (Some id) (gain_now enabled (the_band e)) (set_width (Some id) (m_Bandwidth (the_band e)) (set_freq (Some id) (frequency e) el)).
Lemma set_all_ok id enabled e el : element_ok el -> element_ok (set_all id enabled e el) /\ e_bands (set_all id enabled e el) = e_bands el.
Proof. intros H. split; [do 3 apply set_object_ok; exact H|]. unfold set_all, set_gain, set_width, set_freq. rewrite !set_object_bands. reflexivity. Qed.
Lemma set_all_same id enabled e el : entry_ok e -> is_Some (e_objects el !! id) ->
  e_objects (set_all id enabled e el) !! id = Some (wanted enabled e).
Proof.
  intros (F & W & G) [c Hc]. unfold set_all, set_gain, set_width, set_freq. rewrite !set_object_same, Hc. cbn. rewrite F, W, gain_now_ok by exact G. reflexivity.
Qed.
Lemma set_all_other id enabled e el id' : id' <> id -> e_objects (set_all id enabled e el) !! id' = e_objects el !! id'.
Proof. intros H. unfold set_all, set_gain, set_width, set_freq. rewrite !set_object_other by congruence. reflexivity. Qed.

Lemma rebind_spec enabled m : forall i el rs R, element_ok el -> Forall entry_ok m -> (i + length m <= length (e_bands el))%nat ->
  rs ≡ₚ held m ++ R ->
  let '(m', el', rs') := rebind enabled i m el rs in
  element_ok el' /\ e_bands el' = e_bands el /\ Forall2 same_entry m m' /\
  (forall k e', m' !! k = Some e' -> bound enabled el' (i + k) e') /\
  (forall k id, (k < i)%nat -> e_bands el !! k = Some id -> e_objects el' !! id = e_objects el !! id) /\
  rs' ≡ₚ held m' ++ R.
Proof.
  induction m as [|e m IH]; intros i el rs R H V L P; cbn [rebind].
  { split_and!; auto. intros k e' Hk. rewrite lookup_nil in Hk. discriminate. }
  cbn [length] in L. inversion V as [|? ? V1 Vm]. subst.
  destruct (lookup_lt_is_Some_2 (e_bands el) i) as [id Hid]; [lia|]. rewrite Hid. cbn [ref_opt].
  destruct (set_all_ok id enabled e el H) as [H1 B1]. set (el1 := set_all id enabled e el) in *.
  match goal with |- context [rebind enabled (S i) m ?x _] => change x with el1 end. cbn [m_Band m_Bandwidth m_Gain].
  assert (P1 : unref_opt (m_Band (the_band e)) (id :: rs) ≡ₚ held m ++ id :: R).
  { apply unref_opt_perm. rewrite P. unfold held. cbn [omap list_omap]. destruct (m_Band (the_band e)); cbn; solve_Permutation. }
  assert (L1 : (S i + length m <= length (e_bands el1))%nat) by (rewrite B1; lia).
  specialize (IH (S i) el1 _ (id :: R) H1 Vm L1 P1). rewrite B1 in IH. revert IH.
  destruct (rebind enabled (S i) m el1 (unref_opt (m_Band (the_band e)) (id :: rs))) as [[m' el'] rs'].
  intros (O & B & S2 & K & U & Q).
  split; [exact O|]. split; [exact B|]. split; [constructor; [split_and!; reflexivity|exact S2]|]. split; [|split].
  - intros [|k] e' Hk; cbn in Hk.
    + injection Hk as <-. exists id. rewrite Nat.add_0_r, B. split; [exact Hid|]. split; [reflexivity|].
      rewrite (U i id); [|lia|exact Hid]. unfold el1. rewrite set_all_same; [reflexivity|exact V1|]. apply H. eapply list_elem_of_lookup_2, Hid.
    + rewrite <- Nat.add_succ_comm. apply K, Hk.
  - intros k x Hk Hx. rewrite (U k x); [|lia|exact Hx]. unfold el1. apply set_all_other. intros ->.
    pose proof (NoDup_lookup _ _ _ _ (el_distinct _ H) Hx Hid). lia.
  - rewrite Q. unfold held. cbn [omap list_omap the_band m_Band]. solve_Permutation.
Qed.

(** ** The equalizer *)

Definition ascending : list entry -> Prop := StronglySorted (fun a b => (frequency a <. frequency b) = true).
Record sound (q : equalizer) : Prop := {
  s_element : element_ok (m_pEqualizer q);
  s_ascending : ascending (m_BandMap q);
  s_values : Forall entry_ok (m_BandMap q);
  s_nodes : NoDup (map address (m_BandMap q));
  s_next : Forall (fun e => (address e < next q)%nat) (m_BandMap q);
  s_refs : refs q ≡ₚ held (m_BandMap q) }.
Record mirrored (q : equalizer) : Prop := {
  m_bound : forall k e, m_BandMap q !! k = Some e -> bound (m_IsEnabled q) (m_pEqualizer q) k e;
  m_length : m_BandMap q <> [] -> length (e_bands (m_pEqualizer q)) = length (m_BandMap q) }.

Lemma same_keys m m' : Forall2 same_entry m m' -> map frequency m' = map frequency m /\ map address m' = map address m.
Proof. intros H. induction H as [|e e' m m' (F & A & _) _ [IH1 IH2]]; [auto|]. cbn. split; congruence. Qed.
Lemma same_values m m' : Forall2 same_entry m m' -> Forall entry_ok m -> Forall entry_ok m'.
Proof.
  intros H. induction H as [|e e' m m' (F & A & W & G) _ IH]; [auto|]. intros V. inversion V as [|? ? (V1 & V2 & V3) Vm]. subst.
  constructor; [|auto]. unfold entry_ok. rewrite F, W, G. auto.
Qed.
Lemma ascending_keys m : ascending m <-> StronglySorted (fun a b => (a <. b) = true) (map frequency m).
Proof.
  unfold ascending. split; induction m as [|e m IH]; intros H; cbn in *; constructor; inversion H; subst; auto; rewrite ?Forall_map in *; auto.
Qed.

(** After [UpdateBands] everything is in place, whatever was before. *)
Lemma UpdateBands_mirrors q : sound q -> (length (m_BandMap q) <= 64)%nat ->
  sound (UpdateBands spread q) /\ mirrored (UpdateBands spread q) /\ Forall2 same_entry (m_BandMap q) (m_BandMap (UpdateBands spread q)).
Proof.
  intros [E A V N X P] L. unfold UpdateBands.
  destruct (set_num_bands_ok (length (m_BandMap q)) _ E) as [E1 L1]. set (el := set_num_bands spread _ _) in *.
  assert (B : (0 + length (m_BandMap q) <= length (e_bands el))%nat).
  { destruct (m_BandMap q) as [|e m] eqn:Em; cbn; [lia|]. cbn in L1, L. rewrite L1; lia. }
  pose proof (rebind_spec (m_IsEnabled q) (m_BandMap q) 0 el (refs q) [] E1 V B) as H. rewrite app_nil_r in H. specialize (H P). revert H.
  destruct (rebind (m_IsEnabled q) 0 (m_BandMap q) el (refs q)) as [[m' el'] rs']. intros (O & B2 & S2 & K & _ & Q). rewrite app_nil_r in Q.
  destruct (same_keys _ _ S2) as [Kf Ka].
  simpl_set. split; [|split; [|exact S2]].
  - split; simpl_set; [exact O| | |rewrite Ka; exact N| |exact Q].
    + apply ascending_keys. rewrite Kf. apply ascending_keys, A.
    + eapply same_values; eassumption.
    + rewrite <- (Forall_map address (fun a => (a < next q)%nat)), Ka, Forall_map. exact X.
  - split; simpl_set; [exact K|]. intros Hm. rewrite B2. rewrite <- (Forall2_length _ _ _ S2). apply L1.
    destruct (m_BandMap q) as [|e m]; [inversion S2; subst; congruence|cbn in *; lia].
Qed.
End Mirror.
