(* ===== verification/EqualizerOps.v ===== *)
(** * The equalizer's operations

    Every operation that Java can ask for keeps the mirror of
    [EqualizerMirror]; setting a centre frequency is the exception, and an
    equalizer without bands leaves the element as it was. *)

From Stdlib Require Import Sorted Floats.SpecFloat.
From S2P Require Import Prelude CFloat AudioEqualizer EqualizerMirror.
Local Open Scope Z_scope.

(** ** The map *)

Lemma within_number lo hi v : within lo hi v = true -> is_nan v = false.
Proof. destruct v; try reflexivity. unfold within. destruct lo; cbn; discriminate. Qed.

Lemma insert_entry_perm x m : insert_entry x m ≡ₚ x :: m.
Proof. induction m as [|e m IH]; [reflexivity|]. cbn. destruct (frequency x <. frequency e); [reflexivity|]. rewrite IH. apply perm_swap. Qed.

Lemma insert_entry_ascending x m : ascending m ->
  Forall (fun e => (frequency e <. frequency x) = true \/ (frequency x <. frequency e) = true) m -> ascending (insert_entry x m).
Proof.
  intros A H. induction A as [|e m A IH F]; cbn; [constructor; constructor|].
  inversion H as [|? ? H1 Hm]. subst. destruct (frequency x <. frequency e) eqn:E.
  - constructor; [constructor; assumption|]. constructor; [exact E|]. eapply Forall_impl; [exact F|]. intros e' He. eapply SFltb_trans; eassumption.
  - constructor; [apply IH, Hm|]. rewrite insert_entry_perm. constructor; [|exact F]. destruct H1 as [H1|H1]; [exact H1|congruence].
Qed.

(** A key that is not found can be put in order. *)
Lemma not_found_apart f q : is_nan f = false -> Forall entry_ok (m_BandMap q) -> find_band f q = None ->
  Forall (fun e => (frequency e <. f) = true \/ (f <. frequency e) = true) (m_BandMap q).
Proof.
  intros Hf V N. apply Forall_forall. intros e He. unfold find_band in N. pose proof (List.find_none _ _ N e (proj1 (list_elem_of_In _ _) He)) as K.
  unfold same_key in K. apply andb_false_iff in K as [K|K]; apply negb_false_iff in K; auto.
Qed.

(** The entry that is found, and the rest. *)
Lemma find_erase f m e : List.find (same_key f) m = Some e -> exists m1 m2, m = m1 ++ e :: m2 /\ erase_entry f m = m1 ++ m2.
Proof.
  induction m as [|x m IH]; cbn; [discriminate|]. destruct (same_key f x) eqn:E.
  - intros [= ->]. exists [], m. auto.
  - intros H. destruct (IH H) as (m1 & m2 & -> & ->). exists (x :: m1), m2. auto.
Qed.
Lemma sublist_Forall {A} (P : A -> Prop) m m' : sublist m m' -> Forall P m' -> Forall P m.
Proof. intros H F. apply Forall_forall. intros e He. rewrite Forall_forall in F. apply F. eapply elem_of_sublist; eassumption. Qed.
Lemma ascending_sublist m m' : sublist m m' -> ascending m' -> ascending m.
Proof.
  intros H. induction H as [|e m m' H IH|e m m' H IH]; intros A; [exact A| |]; inversion A as [|? ? A1 F]; subst; [|apply IH, A1].
  constructor; [apply IH, A1|]. eapply sublist_Forall; eassumption.
Qed.

Definition good (q : equalizer) : Prop := sound q /\ mirrored q /\ (length (m_BandMap q) <= 64)%nat.

Section Operations.
Variable spread : nat -> nat -> double * double.

Lemma held_perm m m' : m ≡ₚ m' -> held m ≡ₚ held m'.
Proof. intros H. unfold held. rewrite H. reflexivity. Qed.

(** *** AddBand and RemoveBand *)

Lemma AddBand_new f bandwidth gain q : freq_ok f = true -> width_ok bandwidth = true -> gain_ok gain = true ->
  (length (m_BandMap q) < 64)%nat -> sound q -> find_band f q = None ->
  let q' := snd (AddBand spread f bandwidth gain q) in
  good q' /\ Forall2 same_entry (insert_entry (mkEntry f (next q) (mkBand bandwidth gain None)) (m_BandMap q)) (m_BandMap q').
Proof.
  intros Hf Hw Hg L S E. unfold AddBand. rewrite E. cbn [snd]. cbv zeta.
  set (x := mkEntry f (next q) (mkBand bandwidth gain None)).
  pose proof (insert_entry_perm x (m_BandMap q)) as P.
  assert (S1 : sound (q <| m_BandMap := insert_entry x (m_BandMap q) |> <| next := Datatypes.S (next q) |>)).
  { destruct S as [S1 S2 S3 S4 S5 S6]. split; simpl_set; [exact S1| | | | |].
    - apply insert_entry_ascending; [exact S2|]. apply not_found_apart; [eapply within_number, Hf|exact S3|exact E].
    - rewrite P. constructor; [split_and!; assumption|exact S3].
    - rewrite P. cbn. constructor; [|exact S4]. intros Hx. apply list_elem_of_fmap in Hx as (e & He & Hin).
      rewrite Forall_forall in S5. specialize (S5 e Hin). lia.
    - rewrite P. constructor; [cbn; lia|]. eapply Forall_impl; [exact S5|]. cbn. lia.
    - rewrite S6. symmetry. exact (held_perm _ _ P). }
  assert (L1 : (length (insert_entry x (m_BandMap q)) <= 64)%nat) by (rewrite P; cbn; lia).
  destruct (UpdateBands_mirrors spread _ S1) as (A & B & C); [simpl_set; exact L1|]. revert A B C. simpl_set. intros A B C.
  split; [|exact C]. split; [exact A|]. split; [exact B|]. rewrite <- (Forall2_length _ _ _ C). exact L1.
Qed.
Lemma AddBand_mirrors f bandwidth gain q : freq_ok f = true -> width_ok bandwidth = true -> gain_ok gain = true ->
  (length (m_BandMap q) < 64)%nat -> good q -> good (snd (AddBand spread f bandwidth gain q)).
Proof.
  intros Hf Hw Hg L G. destruct (find_band f q) as [e|] eqn:E; [unfold AddBand; rewrite E; exact G|].
  apply (AddBand_new f bandwidth gain q Hf Hw Hg L (proj1 G) E).
Qed.

Lemma RemoveBand_mirrors f q : good q -> good (snd (RemoveBand spread f q)).
Proof.
  intros (S & M & L). unfold RemoveBand, find_band. destruct (List.find (same_key f) (m_BandMap q)) as [e|] eqn:E; [|split_and!; auto]. cbn [snd].
  destruct (find_erase _ _ _ E) as (m1 & m2 & Em & ->).
  assert (Sub : sublist (m1 ++ m2) (m_BandMap q)) by (rewrite Em; apply sublist_app; [reflexivity|apply sublist_cons; reflexivity]).
  assert (S1 : sound (q <| m_BandMap := m1 ++ m2 |> <| refs := unref_opt (m_Band (the_band e)) (refs q) |>)).
  { destruct S as [S1 S2 S3 S4 S5 S6]. split; simpl_set; [exact S1| | | | |].
    - eapply ascending_sublist; eassumption.
    - eapply sublist_Forall; eassumption.
    - eapply sublist_NoDup; [exact S4|]. apply fmap_sublist, Sub.
    - eapply sublist_Forall; eassumption.
    - apply unref_opt_perm. rewrite S6, Em. unfold held. rewrite !omap_app. cbn. destruct (m_Band (the_band e)); cbn; solve_Permutation. }
  apply sublist_length in Sub.
  destruct (UpdateBands_mirrors spread _ S1) as (A & B & C); [|split; [exact A|split; [exact B|]]; rewrite <- (Forall2_length _ _ _ C)];
    simpl_set; lia.
Qed.

(** *** Through a band *)

(** A band's child is its own. *)
Lemma bound_apart q k k' e e' id : sound q -> mirrored q -> m_BandMap q !! k = Some e -> m_BandMap q !! k' = Some e' -> k <> k' ->
  m_Band (the_band e) = Some id -> m_Band (the_band e') <> Some id.
Proof using Type.
  intros S M Hk Hk' N He He'. destruct (m_bound _ M _ _ Hk) as (i & B & I & _), (m_bound _ M _ _ Hk') as (i' & B' & I' & _).
  rewrite He in I. rewrite He' in I'. injection I as <-. injection I' as <-. apply N. exact (NoDup_lookup _ _ _ _ (el_distinct _ (s_element _ S)) B B').
Qed.

(** New values for one band and the same ones for its child. *)
Lemma touch_mirrors q k e e' g : sound q -> mirrored q -> m_BandMap q !! k = Some e ->
  frequency e' = frequency e -> address e' = address e -> m_Band (the_band e') = m_Band (the_band e) -> entry_ok e' ->
  g (wanted (m_IsEnabled q) e) = wanted (m_IsEnabled q) e' ->
  let q' := q <| m_pEqualizer := set_object (m_Band (the_band e)) g (m_pEqualizer q) |> <| m_BandMap := <[k := e']> (m_BandMap q) |> in
  sound q' /\ mirrored q'.
Proof using Type.
  intros S M Hk F A B V G. cbv zeta.
  assert (Keep : forall {X} (p : entry -> X), p e' = p e -> map p (<[k := e']> (m_BandMap q)) = map p (m_BandMap q)).
  { intros X p Hp. change (p <$> <[k := e']> (m_BandMap q) = p <$> m_BandMap q). rewrite list_fmap_insert, Hp. apply list_insert_id.
    rewrite list_lookup_fmap, Hk. reflexivity. }
  assert (H : held (<[k := e']> (m_BandMap q)) = held (m_BandMap q)).
  { assert (T : forall m, held m = omap id (map (fun e => m_Band (the_band e)) m)) by (induction m as [|x m IH]; [reflexivity|]; unfold held in *; cbn; destruct (m_Band (the_band x)); cbn; rewrite IH; reflexivity).
    rewrite !T. f_equal. exact (Keep _ (fun e => m_Band (the_band e)) B). }
  split.
  - destruct S as [S1 S2 S3 S4 S5 S6]. split; simpl_set; [apply set_object_ok, S1| | | | |].
    + apply ascending_keys. rewrite (Keep _ frequency F). apply ascending_keys, S2.
    + apply Forall_insert; assumption.
    + rewrite (Keep _ address A). exact S4.
    + apply Forall_insert; [exact S5|]. rewrite A. rewrite Forall_lookup in S5. eapply S5, Hk.
    + rewrite H. exact S6.
  - split; simpl_set.
    + intros k' x Hx. apply list_lookup_insert_Some in Hx as [(-> & <- & _)|[N Hx]]; unfold bound; rewrite set_object_bands.
      * destruct (m_bound _ M _ _ Hk) as (i & Bi & Ii & Oi). exists i. rewrite B. split; [exact Bi|]. split; [exact Ii|].
        rewrite Ii, set_object_same, Oi. cbn. rewrite G. reflexivity.
      * destruct (m_bound _ M _ _ Hx) as (i & Bi & Ii & Oi). exists i. split; [exact Bi|]. split; [exact Ii|].
        rewrite set_object_other; [exact Oi|]. eapply bound_apart; eassumption || (intros ->; congruence).
    + intros N. rewrite set_object_bands, length_insert. apply (m_length _ M). intros E. rewrite E in N. destruct k; apply N; reflexivity.
Qed.

(** The band at an address. *)
Lemma deref_entry a q b : deref a q = Some b -> exists k e, m_BandMap q !! k = Some e /\ address e = a /\ the_band e = b.
Proof using Type.
  unfold deref. destruct (List.find (at_address a) (m_BandMap q)) as [e|] eqn:E; [|discriminate]. intros [= <-].
  apply List.find_some in E as [I A]. apply list_elem_of_In, list_elem_of_lookup in I as [k Hk]. exists k, e. apply Nat.eqb_eq in A. auto.
Qed.
Lemma with_band_entry a f q k e : NoDup (map address (m_BandMap q)) -> m_BandMap q !! k = Some e -> address e = a ->
  with_band a f q = q <| m_BandMap := <[k := mkEntry (frequency e) (address e) (f (the_band e))]> (m_BandMap q) |>.
Proof using Type.
  intros S Hk <-. unfold with_band. set (g := fun e0 : entry => if at_address (address e) e0 then _ else _).
  cut (map g (m_BandMap q) = <[k := mkEntry (frequency e) (address e) (f (the_band e))]> (m_BandMap q)); [intros ->; reflexivity|].
  apply list_eq. intros i. unfold g.
  change (map ?g ?l) with (g <$> l). rewrite list_lookup_fmap. destruct (decide (i = k)) as [->|N].
  - rewrite list_lookup_insert_eq by (eapply lookup_lt_Some, Hk). rewrite Hk. cbn. unfold at_address. rewrite Nat.eqb_refl. reflexivity.
  - rewrite list_lookup_insert_ne by congruence. destruct (m_BandMap q !! i) as [x|] eqn:Hx; [|reflexivity]. cbn. f_equal.
    unfold at_address. destruct (Nat.eqb_spec (address x) (address e)) as [E|E]; [|reflexivity]. exfalso. apply N.
    apply (NoDup_lookup _ i k (address e) S); [rewrite <- E|]; [rewrite (list_lookup_fmap address), Hx|rewrite (list_lookup_fmap address), Hk]; reflexivity.
Qed.
Lemma set_object_id p el : set_object p (fun c => c) el = el.
Proof using Type. destruct p, el; cbn; [|reflexivity]. f_equal. apply alter_id. auto. Qed.

Lemma SetGain_mirrors a v q q' : gain_ok v = true -> sound q -> mirrored q -> SetGain a v q = Some q' -> sound q' /\ mirrored q'.
Proof using Type.
  intros Hv S M. unfold SetGain. destruct (deref a q) as [b|] eqn:D; [|discriminate]. intros [= <-].
  destruct (m_Gain b !=. v); [|auto]. destruct (deref_entry _ _ _ D) as (k & e & Hk & A & <-).
  set (e' := mkEntry (frequency e) (address e) (mkBand (m_Bandwidth (the_band e)) v (m_Band (the_band e)))).
  destruct (Forall_lookup_1 _ _ _ _ (s_values _ S) Hk) as (V1 & V2 & V3).
  assert (V : entry_ok e') by (split_and!; assumption).
  destruct (m_IsEnabled q) eqn:E.
  - pose proof (touch_mirrors q k e e' (fun c => if gain_ok v then mkChild (c_freq c) (c_width c) v else c) S M Hk eq_refl eq_refl eq_refl V) as T.
    rewrite E, Hv in T. specialize (T eq_refl). cbv zeta in T.
    erewrite with_band_entry; [|simpl_set; apply S|simpl_set; exact Hk|exact A]. simpl_set. unfold set_gain. rewrite Hv. exact T.
  - pose proof (touch_mirrors q k e e' (fun c => c) S M Hk eq_refl eq_refl eq_refl V) as T.
    rewrite E in T. specialize (T eq_refl). cbv zeta in T. rewrite set_object_id in T.
    erewrite with_band_entry; [|apply S|exact Hk|exact A]. exact T.
Qed.

Lemma SetBandwidth_mirrors a v q q' : width_ok v = true -> sound q -> mirrored q -> SetBandwidth a v q = Some q' -> sound q' /\ mirrored q'.
Proof using Type.
  intros Hv S M. unfold SetBandwidth. destruct (deref a q) as [b|] eqn:D; [|discriminate]. intros [= <-].
  destruct (m_Bandwidth b !=. v); [|auto]. destruct (deref_entry _ _ _ D) as (k & e & Hk & A & <-).
  set (e' := mkEntry (frequency e) (address e) (mkBand v (m_Gain (the_band e)) (m_Band (the_band e)))).
  destruct (Forall_lookup_1 _ _ _ _ (s_values _ S) Hk) as (V1 & V2 & V3).
  assert (V : entry_ok e') by (split_and!; assumption).
  pose proof (touch_mirrors q k e e' (fun c => if width_ok v then mkChild (c_freq c) v (c_gain c) else c) S M Hk eq_refl eq_refl eq_refl V) as T.
  rewrite Hv in T. specialize (T eq_refl). cbv zeta in T.
  erewrite with_band_entry; [|simpl_set; apply S|simpl_set; exact Hk|exact A]. simpl_set. unfold set_width. rewrite Hv. exact T.
Qed.

(** *** SetEnabled *)

Lemma bound_held m l : forall i, (forall k e, m !! k = Some e -> exists id, l !! (i + k)%nat = Some id /\ m_Band (the_band e) = Some id) ->
  held m = take (length m) (drop i l).
Proof using Type.
  induction m as [|e m IH]; intros i H; [reflexivity|]. destruct (H 0%nat e eq_refl) as (id & L & B). rewrite Nat.add_0_r in L.
  rewrite (drop_S _ _ _ L). unfold held in *. cbn. rewrite B. f_equal. apply IH. intros k x Hx.
  destruct (H (S k) x Hx) as (id' & L' & B'). rewrite <- Nat.add_succ_comm in L'. eauto.
Qed.
Lemma held_distinct q : sound q -> mirrored q -> NoDup (held (m_BandMap q)).
Proof using Type.
  intros S M. rewrite (bound_held _ (e_bands (m_pEqualizer q)) 0); [|intros k e Hk; destruct (m_bound _ M k e Hk) as (id & L & B & _); eauto].
  eapply sublist_NoDup; [apply (el_distinct _ (s_element _ S))|]. apply sublist_take.
Qed.

Lemma enable_spec enabled m : forall el, NoDup (held m) -> Forall entry_ok m -> element_ok el ->
  let el' := fold_left (fun el e => set_gain (m_Band (the_band e)) (gain_now enabled (the_band e)) el) m el in
  element_ok el' /\ e_bands el' = e_bands el /\
  (forall id, id ∉ held m -> e_objects el' !! id = e_objects el !! id) /\
  (forall e id c, e ∈ m -> m_Band (the_band e) = Some id -> e_objects el !! id = Some c ->
     e_objects el' !! id = Some (mkChild (c_freq c) (c_width c) (gain_now enabled (the_band e)))).
Proof using Type.
  induction m as [|x m IH]; intros el N V O; cbn [fold_left].
  { split_and!; auto. intros e id c He. apply not_elem_of_nil in He as []. }
  inversion V as [|? ? (V1 & V2 & V3) Vm]. subst. pose proof (gain_now_ok enabled (the_band x) V3) as G.
  set (el1 := set_gain _ _ el). assert (O1 : element_ok el1) by (apply set_object_ok, O).
  assert (B1 : e_bands el1 = e_bands el) by apply set_object_bands.
  assert (Hh : held (x :: m) = match m_Band (the_band x) with Some id => id :: held m | None => held m end) by (unfold held; cbn; destruct (m_Band (the_band x)); reflexivity).
  rewrite Hh in N |- *.
  assert (Nm : NoDup (held m)) by (destruct (m_Band (the_band x)); [inversion N|]; assumption).
  destruct (IH el1 Nm Vm O1) as (A1 & A2 & A3 & A4). split; [exact A1|]. split; [congruence|]. split.
  - intros id Hid. rewrite A3 by (destruct (m_Band (the_band x)); [intros ?; apply Hid; right; assumption|exact Hid]). unfold el1, set_gain. apply set_object_other.
    intros E. rewrite E in Hid. apply Hid. left.
  - intros e id c He Hb Hc. apply elem_of_cons in He as [->|He].
    + rewrite Hb in N. inversion N as [|? ? N1 N2]. subst. rewrite A3 by exact N1. unfold el1, set_gain. rewrite Hb, set_object_same, Hc. cbn. rewrite G. reflexivity.
    + apply A4; [exact He|exact Hb|]. unfold el1, set_gain. rewrite set_object_other; [exact Hc|]. intros E. rewrite E in N. inversion N as [|? ? N1 N2]. subst.
      apply N1. unfold held. apply list_elem_of_omap. eauto.
Qed.

Lemma SetEnabled_mirrors b q : sound q -> mirrored q -> sound (SetEnabled b q) /\ mirrored (SetEnabled b q).
Proof using Type.
  intros S M. destruct (enable_spec b (m_BandMap q) (m_pEqualizer q) (held_distinct q S M) (s_values _ S) (s_element _ S)) as (O & B & _ & K).
  unfold SetEnabled. simpl_set. split; [destruct S; split; simpl_set; assumption|].
  split; simpl_set; [|rewrite B; apply M]. intros k e Hk. destruct (m_bound _ M k e Hk) as (id & L & Hb & C).
  exists id. rewrite B. split; [exact L|]. split; [exact Hb|]. rewrite (K e id _ (list_elem_of_lookup_2 _ _ _ Hk) Hb C). reflexivity.
Qed.

(** ** Sequences of operations *)

Inductive op :=
| OAdd (f bandwidth gain : double) | ORemove (f : double) | OEnable (b : bool) | OBandwidth (a : nat) (v : double) | OGain (a : nat) (v : double).
(** [None] when a band is used that has been removed. *)
Definition exec (o : op) (q : equalizer) : option equalizer :=
  match o with
  | OAdd f bandwidth gain => Some (snd (AddBand spread f bandwidth gain q))
  | ORemove f => Some (snd (RemoveBand spread f q))
  | OEnable b => Some (SetEnabled b q)
  | OBandwidth a v => SetBandwidth a v q
  | OGain a v => SetGain a v q
  end.
(** The values lie in the ranges of the properties, and there is room. *)
Definition op_ok (o : op) (q : equalizer) : Prop :=
  match o with
  | OAdd f bandwidth gain => freq_ok f = true /\ width_ok bandwidth = true /\ gain_ok gain = true /\ (length (m_BandMap q) < 64)%nat
  | OBandwidth _ v => width_ok v = true
  | OGain _ v => gain_ok v = true
  | _ => True
  end.
Inductive reach (q0 : equalizer) : equalizer -> Prop :=
| reach_refl : reach q0 q0
| reach_op q o q' : reach q0 q -> op_ok o q -> exec o q = Some q' -> reach q0 q'.

(** The element sounds like the map: child by child, in order of frequency, the
    values of the bands, with no gain while the equalizer is off. *)
Definition children (q : equalizer) : list (option child) := map (fun id => e_objects (m_pEqualizer q) !! id) (e_bands (m_pEqualizer q)).

Lemma good_children q : good q -> m_BandMap q <> [] -> children q = map (fun e => Some (wanted (m_IsEnabled q) e)) (m_BandMap q).
Proof using Type.
  intros (S & M & _) N. unfold children. apply list_eq. intros k.
  change (map ?g ?l) with (g <$> l). rewrite !list_lookup_fmap. destruct (m_BandMap q !! k) as [e|] eqn:Hk.
  - destruct (m_bound _ M k e Hk) as (id & -> & _ & C). cbn. rewrite C. reflexivity.
  - apply lookup_ge_None in Hk. rewrite (lookup_ge_None_2 (e_bands (m_pEqualizer q)) k); [reflexivity|]. rewrite (m_length _ M N). exact Hk.
Qed.

Lemma exec_good o q q' : good q -> op_ok o q -> exec o q = Some q' -> good q'.
Proof using Type.
  intros (S & M & L) H E. destruct o; cbn in *.
  - injection E as <-. destruct H as (Hf & Hw & Hg & Hl). apply AddBand_mirrors; split_and?; auto. split_and!; auto.
  - injection E as <-. apply RemoveBand_mirrors; split_and!; auto.
  - injection E as <-. destruct (SetEnabled_mirrors b q S M). split_and!; auto.
  - unfold good. destruct (SetBandwidth_mirrors a v q q' H S M E). split_and!; auto.
    unfold SetBandwidth in E. destruct (deref a q); [|discriminate]. injection E as <-. destruct (_ !=. _); [|exact L]. unfold with_band. simpl_set. rewrite length_map. exact L.
  - unfold good. destruct (SetGain_mirrors a v q q' H S M E). split_and!; auto.
    unfold SetGain in E. destruct (deref a q); [|discriminate]. injection E as <-. destruct (_ !=. _); [|exact L]. unfold with_band. simpl_set. rewrite length_map.
    destruct (m_IsEnabled q); exact L.
Qed.

Lemma new_good el : element_ok el -> good (new_equalizer el).
Proof using Type.
  intros H. split; [split; cbn; auto; constructor|]. split; [|cbn; lia]. split; cbn; [intros k e Hk; rewrite lookup_nil in Hk; discriminate|congruence].
Qed.

(** C16: Over every sequence that adds, removes, enables and disables bands and sets
    their widths and gains - with values in the ranges of the element's
    properties, at most 64 bands, no use of a band that has been removed, and no
    centre frequency moved ([centre_frequency_returns]) - the children of the
    element are the bands of the map in ascending order of frequency as long as
    the map is not empty ([last_band_stays]), each band holds one reference to its
    child, and no other reference is held. *)
Theorem equalizer_mirrors_bands el q : element_ok el -> reach (new_equalizer el) q ->
  (m_BandMap q <> [] -> children q = map (fun e => Some (wanted (m_IsEnabled q) e)) (m_BandMap q)) /\
  ascending (m_BandMap q) /\ refs q ≡ₚ held (m_BandMap q).
Proof using Type.
  intros H R. assert (G : good q) by (induction R as [|q o q' R IH K E]; [apply new_good, H|eapply exec_good; eassumption]).
  split; [apply good_children, G|]. destruct G as ([_ A _ _ _ P] & _). auto.
Qed.

(** The band at the address of an entry. *)
Lemma deref_at q k e : NoDup (map address (m_BandMap q)) -> m_BandMap q !! k = Some e -> deref (address e) q = Some (the_band e).
Proof using Type.
  intros N Hk. unfold deref. destruct (List.find (at_address (address e)) (m_BandMap q)) as [x|] eqn:E.
  - apply List.find_some in E as [I A]. apply Nat.eqb_eq in A. apply list_elem_of_In, list_elem_of_lookup in I as [i Hi].
    assert (i = k) as ->; [|cbn; congruence]. apply (NoDup_lookup _ i k (address e) N); [rewrite <- A|]; [rewrite (list_lookup_fmap address), Hi|rewrite (list_lookup_fmap address), Hk]; reflexivity.
  - exfalso. pose proof (List.find_none _ _ E e) as K. unfold at_address in K. rewrite Nat.eqb_refl in K. discriminate K.
    apply list_elem_of_In. eapply list_elem_of_lookup_2, Hk.
Qed.

(** A centre frequency that was set reaches the child only: the map still has
    the band under the old one, which returns when a band is added. *)
Theorem centre_frequency_returns v f bandwidth gain q q1 a2 q2 e :
  good q -> In e (m_BandMap q) -> SetCenterFrequency (address e) v q = Some q1 ->
  freq_ok f = true -> width_ok bandwidth = true -> gain_ok gain = true -> (length (m_BandMap q) < 64)%nat ->
  AddBand spread f bandwidth gain q1 = (Some a2, q2) ->
  m_BandMap q1 = m_BandMap q /\ GetCenterFrequency (address e) q2 = Some (frequency e).
Proof using Type.
  intros (S & M & L) He E1 Hf Hw Hg Hl E2. unfold SetCenterFrequency in E1. destruct (deref (address e) q) as [b|]; [|discriminate].
  injection E1 as E1. assert (Em : m_BandMap q1 = m_BandMap q) by (subst q1; reflexivity). split; [exact Em|].
  assert (S1 : sound q1) by (subst q1; destruct S; split; simpl_set; auto; apply set_object_ok; assumption).
  assert (N : find_band f q1 = None) by (unfold AddBand in E2; destruct (find_band f q1); [discriminate|reflexivity]).
  rewrite <- Em in Hl, He. destruct (AddBand_new f bandwidth gain q1 Hf Hw Hg Hl S1 N) as [(S2 & M2 & _) F].
  rewrite E2 in S2, M2, F. cbn [snd] in S2, M2, F.
  assert (K : e ∈ insert_entry (mkEntry f (next q1) (mkBand bandwidth gain None)) (m_BandMap q1)).
  { rewrite insert_entry_perm. right. apply list_elem_of_In, He. }
  apply list_elem_of_lookup in K as [k Hk]. destruct (Forall2_lookup_l _ _ _ _ _ F Hk) as (e2 & Hk2 & Fr & Ad & _).
  destruct (m_bound _ M2 k e2 Hk2) as (id & _ & B & C). unfold GetCenterFrequency.
  rewrite <- Ad, (deref_at q2 k e2 (s_nodes _ S2) Hk2), B, C. cbn. rewrite Fr. reflexivity.
Qed.

(** Removing the last band takes it out of the map only: the element has at
    least one child, and that keeps the values of the band; switching the
    equalizer off no longer reaches it. *)
Theorem last_band_stays q e : good q -> m_BandMap q = [e] ->
  let q' := snd (RemoveBand spread (frequency e) q) in
  m_BandMap q' = [] /\ IsEnabled q' = false /\ children q' = [Some (wanted (m_IsEnabled q) e)] /\ children (SetEnabled false q') = children q'.
Proof using Type.
  intros G E. cbv zeta. pose proof (good_children q G) as C. rewrite E in C. specialize (C ltac:(discriminate)).
  unfold RemoveBand, find_band. rewrite E. cbn [List.find]. unfold same_key at 1. rewrite SFltb_irrefl. cbn [negb andb snd].
  cbn [erase_entry]. unfold same_key. rewrite SFltb_irrefl. cbn [negb andb].
  unfold UpdateBands. simpl_set. cbn [length rebind]. unfold set_num_bands. cbn [Nat.leb andb]. simpl_set.
  split; [reflexivity|]. split; [reflexivity|]. split; [exact C|reflexivity].
Qed.
End Operations.

(** *** Executions *)

(** A new element has ten children. *)
Definition ten_bands : element := Nat.iter 10 add_child (mkElement [] ∅).
Lemma ten_bands_ok : element_ok ten_bands.
Proof. apply add_children_ok. split; [constructor|]. intros id H. apply not_elem_of_nil in H as []. Qed.
Definition even_spread (n i : nat) : double * double := (Z_to_double (Z.of_nat (i * 1000)), Z_to_double 500).
Definition hz (z : Z) : double := Z_to_double z.
Definition add (f bandwidth gain : Z) (q : equalizer) : equalizer := snd (AddBand even_spread (hz f) (hz bandwidth) (hz gain) q).
Definition one_band : equalizer := add 4000 300 (-3) (new_equalizer ten_bands).
Definition two_bands : equalizer := add 100 20 6 one_band.

Lemma add_ok f bandwidth gain : freq_ok (hz f) && width_ok (hz bandwidth) && gain_ok (hz gain) = true -> forall q,
  (length (m_BandMap q) <? 64)%nat = true -> op_ok (OAdd (hz f) (hz bandwidth) (hz gain)) q.
Proof. intros H q L. apply andb_prop in H as [H H3]. apply andb_prop in H as [H1 H2]. apply Nat.ltb_lt in L. repeat split; assumption. Qed.
Lemma one_band_reached : reach even_spread (new_equalizer ten_bands) one_band.
Proof.
  apply (reach_op _ _ (new_equalizer ten_bands) (OAdd (hz 4000) (hz 300) (hz (-3)))); [apply reach_refl| |reflexivity].
  apply add_ok; vm_compute; reflexivity.
Qed.
Lemma two_bands_reached : reach even_spread (new_equalizer ten_bands) two_bands.
Proof.
  apply (reach_op _ _ one_band (OAdd (hz 100) (hz 20) (hz 6))); [apply one_band_reached| |reflexivity].
  apply add_ok; vm_compute; reflexivity.
Qed.
Lemma reach_good q : reach even_spread (new_equalizer ten_bands) q -> good q.
Proof. intros R. induction R as [|q o q' R IH K E]; [apply new_good, ten_bands_ok|eapply exec_good; eassumption]. Qed.

(** What is in a map. *)
Definition listing (q : equalizer) : list (nat * double * double * double) :=
  map (fun e => (address e, frequency e, m_Bandwidth (the_band e), gain_now (m_IsEnabled q) (the_band e))) (m_BandMap q).
Lemma one_band_listing : listing one_band = [(0%nat, hz 4000, hz 300, hz (-3))].
Proof. vm_compute. reflexivity. Qed.
Lemma two_bands_listing : listing two_bands = [(1%nat, hz 100, hz 20, hz 6); (0%nat, hz 4000, hz 300, hz (-3))].
Proof. vm_compute. reflexivity. Qed.
Lemma wanted_listing q : map (fun e => Some (wanted (m_IsEnabled q) e)) (m_BandMap q) = map (fun '(_, f, w, g) => Some (mkChild f w g)) (listing q).
Proof. unfold listing. rewrite map_map. reflexivity. Qed.

Lemma equalizer_mirrors_bands_witness : exists q, reach even_spread (new_equalizer ten_bands) q /\
  children q = [Some (mkChild (hz 100) (hz 20) (hz 6)); Some (mkChild (hz 4000) (hz 300) (hz (-3)))] /\ refs q ≡ₚ held (m_BandMap q).
Proof.
  exists two_bands. split; [exact two_bands_reached|].
  destruct (equalizer_mirrors_bands even_spread ten_bands two_bands ten_bands_ok two_bands_reached) as (C & _ & P).
  split; [|exact P]. rewrite C.
  - rewrite wanted_listing, two_bands_listing. reflexivity.
  - intros E. pose proof two_bands_listing as K. unfold listing in K. rewrite E in K. discriminate K.
Defined.

Definition moved : option equalizer := SetCenterFrequency 0 (hz 5000) one_band.
Definition moved_and_added : option (option nat * equalizer) := option_map (AddBand even_spread (hz 900) (hz 20) (hz 1)) moved.
Lemma moved_listing : option_map (GetCenterFrequency 0) moved = Some (Some (hz 5000)) /\ option_map fst moved_and_added = Some (Some 1%nat).
Proof. split; vm_compute; reflexivity. Qed.
Lemma one_entry q a f w g : listing q = [(a, f, w, g)] -> exists e, m_BandMap q = [e] /\ address e = a /\ frequency e = f.
Proof. unfold listing. destruct (m_BandMap q) as [|e [|]]; try discriminate. intros H. injection H. eauto. Qed.

Lemma centre_frequency_returns_witness : exists q1 q2,
  SetCenterFrequency 0 (hz 5000) one_band = Some q1 /\ GetCenterFrequency 0 q1 = Some (hz 5000) /\
  AddBand even_spread (hz 900) (hz 20) (hz 1) q1 = (Some 1%nat, q2) /\ GetCenterFrequency 0 q2 = Some (hz 4000).
Proof.
  destruct moved_listing as [K1 K2]. unfold moved_and_added in K2. unfold moved in *.
  destruct (SetCenterFrequency 0 (hz 5000) one_band) as [q1|] eqn:E1; [|discriminate K1]. cbn [option_map] in K1, K2. injection K1 as K1.
  destruct (AddBand even_spread (hz 900) (hz 20) (hz 1) q1) as [a2 q2] eqn:E2. cbn [fst] in K2. injection K2 as ->.
  destruct (one_entry _ _ _ _ _ one_band_listing) as (e & Em & A & F).
  exists q1, q2. split; [reflexivity|]. split; [exact K1|]. split; [exact E2|]. rewrite <- F. rewrite <- A in E1 |- *.
  assert (V : freq_ok (hz 900) = true /\ width_ok (hz 20) = true /\ gain_ok (hz 1) = true) by (repeat split; vm_compute; reflexivity).
  assert (I : In e (m_BandMap one_band)) by (rewrite Em; left; reflexivity).
  assert (L : (length (m_BandMap one_band) < 64)%nat) by (rewrite Em; cbn; lia).
  exact (proj2 (centre_frequency_returns even_spread (hz 5000) (hz 900) (hz 20) (hz 1) one_band q1 1 q2 e
    (reach_good _ one_band_reached) I E1 (proj1 V) (proj1 (proj2 V)) (proj2 (proj2 V)) L E2)).
Defined.

Lemma last_band_stays_witness : exists e, m_BandMap one_band = [e] /\
  children (snd (RemoveBand even_spread (frequency e) one_band)) = [Some (mkChild (hz 4000) (hz 300) (hz (-3)))].
Proof.
  destruct (one_entry _ _ _ _ _ one_band_listing) as (e & Em & _ & _). exists e. split; [exact Em|].
  destruct (last_band_stays even_spread one_band e (reach_good _ one_band_reached) Em) as (_ & _ & C & _).
  rewrite C. change [Some (wanted (m_IsEnabled one_band) e)] with (map (fun e => Some (wanted (m_IsEnabled one_band) e)) [e]).
  rewrite <- Em, wanted_listing, one_band_listing. reflexivity.
Defined.

(** A band that was removed must not be used again. *)
Example removed_band_dangles : SetGain 1 (hz 3) (snd (RemoveBand even_spread (hz 100) two_bands)) = None.
Proof. vm_compute. reflexivity. Qed.
