(* ===== verification/AudioSpectrum.v ===== *)
(** * The audio spectrum ([GstAudioSpectrum.cpp], [jni/JavaBandsHolder.cpp])

    The magnitudes and phases that GStreamer measures are copied into two Java
    arrays.  A reference-counted holder keeps the arrays; Java replaces it when
    the number of bands changes, while the thread of the bus may be using it. *)

From S2P Require Import Prelude CFloat JniApi JniUtils JniRun.
Local Open Scope Z_scope.
Local Open Scope jni_scope.

(** ** The holder of the arrays *)

Record bands_holder := mkHolder { m_Bands : Z; m_jvm : bool; m_Magnitudes : ref; m_Phases : ref }.

(** [None] when the machine cannot be had; the caller then deletes the object. *)
Definition holder_init (bands : Z) (magnitudes phases : ref) : prog (option bands_holder) :=
  let* vm := jni GetJavaVM in
  let* e := jni ExceptionCheck in
  if e then jni ExceptionClear ;; Ret None
  else
    let* m := jni (NewGlobalRef magnitudes) in
    let* p := jni (NewGlobalRef phases) in
    Ret (Some (mkHolder bands vm m p)).

Definition holder_destroy (h : bands_holder) : prog unit :=
  if m_jvm h then
    with_environment (m_jvm h) (fun pEnv =>
      if pEnv then
        when (nonnull (m_Magnitudes h)) (jni (DeleteGlobalRef (m_Magnitudes h))) ;;
        when (nonnull (m_Phases h)) (jni (DeleteGlobalRef (m_Phases h)))
      else Ret tt)
  else Ret tt.

(** The two copies. *)
Definition copy_bands (localMagnitudes localPhases : ref) (magnitudes phases : list float) : prog unit :=
  if nonnull localMagnitudes && nonnull localPhases then
    jni (SetFloatArrayRegion localMagnitudes magnitudes) ;;
    let* e := clearException true in
    when (negb e) (jni (SetFloatArrayRegion localPhases phases) ;; clearException true ;; Ret tt)
  else Ret tt.
Definition holder_update (h : bands_holder) (size : Z) (magnitudes phases : list float) : prog unit :=
  if negb (m_Bands h =? size) || negb (m_jvm h) then Ret tt
  else
    with_environment (m_jvm h) (fun pEnv =>
      if pEnv then
        let* localMagnitudes := jni (NewLocalRef (m_Magnitudes h)) in
        let* localPhases := jni (NewLocalRef (m_Phases h)) in
        copy_bands localMagnitudes localPhases magnitudes phases ;;
        jni (DeleteLocalRef localMagnitudes) ;;
        jni (DeleteLocalRef localPhases)
      else Ret tt).

(** The arrays are there, as long as the holder's number of bands. *)
Definition holder_ok (h : bands_holder) (mid pid : positive) (j : jvm) : Prop :=
  exists m p, m_Magnitudes h = Some m /\ m_Phases h = Some p /\ 0 <= m_Bands h /\
    globals j !! m = Some (JArray mid (Z.to_nat (m_Bands h))) /\ globals j !! p = Some (JArray pid (Z.to_nat (m_Bands h))).

Definition written (id : positive) (n : nat) (vs : list float) : java_call :=
  mkCall "SetFloatArrayRegion" (VObject (Some (JArray id n)) :: map VFloat vs) (Some 0).

Section Holder.
Context `{MACHINE : Machine}.

Lemma set_region_fits a id n vs j : object_of j a = Some (JArray id n) -> (length vs <= n)%nat ->
  set_floats a vs j = with_calls (calls j ++ [written id n vs]) j.
Proof. intros H L. unfold set_floats, set_region. rewrite H, length_map. destruct (Nat.leb_spec (length vs) n); [reflexivity|lia]. Qed.

Lemma copy_bands_rule a b ia ib n va vb j : attached j = true -> pending j = false ->
  object_of j (Some a) = Some (JArray ia n) -> object_of j (Some b) = Some (JArray ib n) -> (length va <= n)%nat -> (length vb <= n)%nat ->
  wp (copy_bands (Some a) (Some b) va vb) j (fun _ j' => j' = with_calls (calls j ++ [written ia n va; written ib n vb]) j).
Proof.
  intros A P Oa Ob La Lb. unfold copy_bands. cbn [nonnull andb wp bind jni]. split; [unfold allowed; rewrite Oa, A, P; reflexivity|].
  intros [] j1 E. cbn in E. rewrite (set_region_fits _ _ _ _ _ Oa La) in E. subst j1.
  apply jwp_bind, clearException_rule; [exact A|]. cbn [pending with_calls]. rewrite P. cbn [negb when wp bind jni].
  replace (with_pending false _) with (with_calls (calls j ++ [written ia n va]) j) by (destruct j; cbn in P; subst; reflexivity).
  set (j1 := with_calls (calls j ++ [written ia n va]) j). assert (Ob1 : object_of j1 (Some b) = Some (JArray ib n)) by exact Ob.
  split; [unfold allowed; rewrite Ob1; cbn; rewrite A, P; reflexivity|]. intros [] j2 E. cbn in E. rewrite (set_region_fits _ _ _ _ _ Ob1 Lb) in E. subst j2.
  apply jwp_bind, clearException_rule; [exact A|]. cbn [wp]. destruct j. cbn in P. subst. cbn. unfold with_pending, with_calls. cbn. rewrite <- app_assoc. reflexivity.
Qed.

Lemma new_local_answers o x j r j' : object_of j o = Some x -> answers (NewLocalRef o) j r j' ->
  (r = None /\ j' = j) \/ exists l, fresh l j /\ r = Some l /\ j' = with_local l x j.
Proof. intros O [H|(y & Hy & l & F & -> & ->)]; [left; exact H|right]. exists l. split; [exact F|]. split; [reflexivity|]. congruence. Qed.
Lemma object_with_local o x l y j : object_of j o = Some x -> fresh l j -> object_of (with_local l y j) o = Some x.
Proof.
  intros H [F1 F2]. destruct o as [k|]; [|discriminate]. unfold object_of in *. cbn. destruct (decide (l = k)) as [->|N].
  - rewrite F1, F2 in H. discriminate.
  - rewrite lookup_insert_ne by exact N. exact H.
Qed.
Lemma released_pair a b j : attached j = true -> is_local j a = true ->
  is_local (with_locals (match a with Some l => delete l (locals j) | None => locals j end) j) b = true ->
  wp (jni (DeleteLocalRef a) ;; jni (DeleteLocalRef b)) j (fun _ j' =>
    j' = with_locals (match b with Some l => delete l | None => fun m => m end (match a with Some l => delete l (locals j) | None => locals j end)) j).
Proof.
  intros A La Lb. cbn [wp bind jni]. split; [unfold allowed; rewrite A, La; reflexivity|]. intros [] j1 E. cbn in E.
  assert (E1 : j1 = with_locals (match a with Some l => delete l (locals j) | None => locals j end) j) by (subst j1; destruct a; [|destruct j]; reflexivity).
  clear E. subst j1. split; [unfold allowed; rewrite Lb; cbn; rewrite A; reflexivity|]. intros [] j2 E. cbn in E. subst j2.
  destruct b; reflexivity.
Qed.

(** References never have the same value in both tables. *)
Definition apart (j : jvm) : Prop := forall l, is_Some (locals j !! l) -> globals j !! l = None.
Lemma global_object j g x : apart j -> globals j !! g = Some x -> object_of j (Some g) = Some x.
Proof. intros H G. unfold object_of. destruct (locals j !! g) as [y|] eqn:E; [|exact G]. rewrite (H g) in G by eauto. discriminate. Qed.

(** Two local references, or none where the machine gives none. *)
Definition local_or_null (x : jobject) (j : jvm) (r : ref) (j' : jvm) : Prop :=
  (r = None /\ j' = j) \/ exists l, fresh l j /\ r = Some l /\ j' = with_local l x j.
Lemma two_locals_released a b x y j j1 j2 : local_or_null x j a j1 -> local_or_null y j1 b j2 ->
  is_local j2 a = true /\
  is_local (with_locals (match a with Some l => delete l (locals j2) | None => locals j2 end) j2) b = true /\
  match b with Some l => delete l | None => fun m => m end (match a with Some l => delete l (locals j2) | None => locals j2 end) = locals j /\
  (forall l k, a = Some l -> b = Some k -> object_of j2 a = Some x /\ object_of j2 b = Some y) /\
  attached j2 = attached j /\ pending j2 = pending j /\ raised j2 = raised j /\ globals j2 = globals j /\ calls j2 = calls j.
Proof.
  intros [[-> ->]|(l & [F _] & -> & ->)] [[-> ->]|(k & [K _] & -> & ->)]; cbn in *.
  - split_and!; auto. discriminate.
  - rewrite lookup_insert_eq, delete_insert_id by exact K. split_and!; auto. discriminate.
  - rewrite lookup_insert_eq, delete_insert_id by exact F. split_and!; auto. discriminate.
  - apply lookup_insert_None in K as [K N].
    rewrite lookup_insert_ne, lookup_insert_eq by congruence. split; [reflexivity|].
    rewrite delete_insert_ne by congruence. rewrite delete_insert_id by exact F. rewrite lookup_insert_eq, delete_insert_id by exact K.
    split_and!; auto. intros ? ? [= <-] [= <-]. rewrite lookup_insert_eq. auto.
Qed.

Lemma copy_or_skip a b ia ib va vb j : attached j = true -> pending j = false ->
  (forall l k, a = Some l -> b = Some k -> object_of j a = Some (JArray ia (length va)) /\ object_of j b = Some (JArray ib (length vb))) -> length va = length vb ->
  wp (copy_bands a b va vb) j (fun _ j' => exists extra, j' = with_calls (calls j ++ extra) j /\
    (extra = [] \/ extra = [written ia (length va) va; written ib (length vb) vb])).
Proof.
  intros A P O L. assert (N : j = with_calls (calls j ++ []) j) by (destruct j; unfold with_calls; cbn; rewrite app_nil_r; reflexivity).
  destruct a as [a|], b as [b|]; try (exists []; auto). destruct (O a b eq_refl eq_refl) as [Oa Ob]. rewrite L in Oa |- *.
  eapply jwp_mono; [apply (copy_bands_rule a b ia ib (length vb)); auto; lia|]. cbn beta. intros _ j' ->. eauto.
Qed.

(** The arrays get the new values together, or stay as they are. *)
Lemma holder_update_rule h mid pid size va vb j : sound_machine -> idle j -> apart j -> holder_ok h mid pid j ->
  Z.of_nat (length va) = size -> Z.of_nat (length vb) = size ->
  wp (holder_update h size va vb) j (fun _ j' => settles j j' /\
    (java_calls j' = java_calls j \/
     (size = m_Bands h /\ java_calls j' = java_calls j ++ [written mid (length va) va; written pid (length vb) vb])) /\ globals j' = globals j).
Proof.
  intros HM I D (m & p & Em & Ep & Hb & Gm & Gp) La Lb. unfold holder_update.
  destruct (negb (m_Bands h =? size) || negb (m_jvm h)) eqn:G; [cbn [wp]; split; [apply settles_refl, I|auto]|].
  apply orb_false_iff in G as [G V]. apply negb_false_iff, Z.eqb_eq in G. apply negb_false_iff in V. rewrite V, Em, Ep.
  set (R := fun cs => cs = java_calls j \/ (size = m_Bands h /\ cs = java_calls j ++ [written mid (length va) va; written pid (length vb) vb])).
  apply (with_environment_rule _ _ _ (fun _ cs gs => R cs /\ gs = globals j)); [exact HM|exact I|cbn; unfold R; auto|].
  intros j1 A P Gl C L1.
  assert (D1 : apart j1) by (unfold apart; rewrite L1, Gl; exact D).
  assert (Om : object_of j1 (Some m) = Some (JArray mid (length va))) by (apply global_object; [exact D1|]; rewrite Gl, Gm; do 2 f_equal; lia).
  assert (Op : object_of j1 (Some p) = Some (JArray pid (length vb))) by (apply global_object; [exact D1|]; rewrite Gl, Gp; do 2 f_equal; lia).
  cbn [wp bind jni]. split; [unfold allowed, live_or_null, live; rewrite A, P, Om; reflexivity|].
  intros r1 j2 H1. apply (new_local_answers _ _ _ _ _ Om) in H1.
  assert (J2 : object_of j2 (Some p) = Some (JArray pid (length vb)) /\ attached j2 = true /\ pending j2 = false).
  { destruct H1 as [[_ ->]|(l & F & _ & ->)]; [auto|]. split; [apply object_with_local; assumption|auto]. }
  destruct J2 as (Op2 & A2 & P2). split; [unfold allowed, live_or_null, live; rewrite A2, P2, Op2; reflexivity|].
  intros r2 j3 H2. apply (new_local_answers _ _ _ _ _ Op2) in H2.
  destruct (two_locals_released _ _ _ _ _ _ _ H1 H2) as (T1 & T2 & T3 & T4 & T5 & T6 & T7 & T8 & T9).
  apply jwp_bind. eapply jwp_mono; [apply (copy_or_skip r1 r2 mid pid va vb j3); [congruence|congruence|exact T4|lia]|].
  cbn beta. intros _ j4 (extra & -> & He). eapply jwp_mono; [apply released_pair; [cbn; congruence|exact T1|exact T2]|].
  cbn beta. intros _ j5 ->. cbn [locals with_calls]. rewrite T3. split.
  - split; cbn; [congruence|congruence|lia|reflexivity|lia].
  - split; [|cbn; congruence]. unfold R, java_calls. cbn. rewrite T9. destruct He as [-> | ->]; [left; rewrite app_nil_r; exact C|right].
    split; [auto|]. rewrite filter_app. f_equal. exact C.
Qed.

(** The holder keeps references of its own, and gives them up in the end. *)
Lemma holder_init_rule bands magnitudes phases mid pid j : sound_machine -> globals_available = true -> attached j = true -> pending j = false ->
  0 <= bands -> object_of j magnitudes = Some (JArray mid (Z.to_nat bands)) -> object_of j phases = Some (JArray pid (Z.to_nat bands)) -> apart j ->
  wp (holder_init bands magnitudes phases) j (fun o j' => exists h m p, o = Some h /\ h = mkHolder bands true (Some m) (Some p) /\
    holder_ok h mid pid j' /\ apart j' /\ m <> p /\ globals j !! m = None /\ globals j !! p = None /\
    j' = with_globals (<[p := JArray pid (Z.to_nat bands)]> (<[m := JArray mid (Z.to_nat bands)]> (globals j))) j).
Proof.
  intros [_ HV] HG A P Hb Om Op D. unfold holder_init. cbn [wp bind jni]. split; [unfold allowed; rewrite A, P; reflexivity|].
  intros vm j' [[-> ->]|[F _]]; [|congruence]. split; [exact A|]. intros e j' [-> ->]. rewrite P. cbn [wp bind jni].
  split; [unfold allowed, live_or_null, live; rewrite A, P, Om; destruct magnitudes; reflexivity|].
  intros r j1 [(-> & -> & N)|(x & m & O & F & -> & ->)]; [rewrite (N HG) in Om; discriminate|]. assert (x = JArray mid (Z.to_nat bands)) as -> by congruence.
  set (j1 := with_globals _ j). destruct F as [F1 F2].
  assert (Op1 : object_of j1 phases = Some (JArray pid (Z.to_nat bands))).
  { destruct phases as [p|]; [|discriminate]. unfold object_of in *. cbn. destruct (locals j !! p); [exact Op|].
    rewrite lookup_insert_ne by (intros ->; congruence). exact Op. }
  split; [unfold allowed, live_or_null, live; rewrite Op1; cbn; rewrite A, P; destruct phases; reflexivity|].
  intros r j2 [(-> & -> & N)|(x & p & O2 & [F3 F4] & -> & ->)]; [rewrite (N HG) in Op; discriminate|]. assert (x = JArray pid (Z.to_nat bands)) as -> by congruence.
  cbn in F3, F4. apply lookup_insert_None in F4 as [F4 F5]. cbn [wp].
  eexists _, m, p. split; [reflexivity|]. split; [reflexivity|]. split; [|split; [|split_and!; auto]].
  - exists m, p. cbn. split_and!; auto; [rewrite lookup_insert_ne by congruence|]; apply lookup_insert_eq.
  - intros l [y Hy]. cbn in Hy |- *. rewrite !lookup_insert_ne by (intros ->; congruence). apply D. eauto.
Qed.

Lemma holder_destroy_rule h m p j : attached j = true -> m_jvm h = true -> m_Magnitudes h = Some m -> m_Phases h = Some p -> m <> p ->
  is_Some (globals j !! m) -> is_Some (globals j !! p) ->
  wp (holder_destroy h) j (fun _ j' => j' = with_globals (delete p (delete m (globals j))) j).
Proof.
  intros A V Em Ep N [x Hm] [y Hp]. unfold holder_destroy. rewrite V. apply attached_rule; [exact A|]. rewrite Em, Ep. cbn [nonnull when wp bind jni].
  split; [unfold allowed, is_global; rewrite A, Hm; reflexivity|]. intros [] j1 E. cbn in E. subst j1.
  split; [unfold allowed, is_global; cbn; rewrite lookup_delete_ne by exact N; rewrite A, Hp; reflexivity|]. intros [] j2 E. exact E.
Qed.
End Holder.

(** ** The element's properties *)

Record spectrum := mkSpectrum { post_messages : bool; bands : Z; interval : Z; threshold : Z }.
Definition GST_SECOND_d : double := Eval vm_compute in Z_to_double 1000000000.
(** [(guint64)(interval * GST_SECOND)], undefined outside the type. *)
Definition to_interval (v : double) : option Z :=
  match trunc (dmul v GST_SECOND_d) with
  | Some z => if (0 <=? z) && (z <? two_p64) then Some z else None
  | None => None
  end.
Definition spectrum_SetEnabled (b : bool) (e : spectrum) : spectrum := mkSpectrum b (bands e) (interval e) (threshold e).
Definition spectrum_IsEnabled (e : spectrum) : bool := post_messages e.
Definition spectrum_SetInterval (v : double) (e : spectrum) : option spectrum :=
  option_map (fun z => mkSpectrum (post_messages e) (bands e) z (threshold e)) (to_interval v).
Definition spectrum_GetInterval (e : spectrum) : double := ddiv (Z_to_double (interval e)) GST_SECOND_d.
Definition spectrum_SetThreshold (t : Z) (e : spectrum) : spectrum := mkSpectrum (post_messages e) (bands e) (interval e) t.
Definition spectrum_GetThreshold (e : spectrum) : Z := threshold e.
Definition spectrum_GetBands (e : spectrum) : Z := u64 (bands e).
Definition spectrum_new (enabled : bool) (e : spectrum) : spectrum := spectrum_SetEnabled enabled e.

(** ** A holder's life *)

Definition holder_life (bands : Z) (magnitudes phases : ref) (va vb : list float) : prog unit :=
  let* o := holder_init bands magnitudes phases in
  match o with
  | Some h => holder_update h (Z.of_nat (length va)) va vb ;; holder_destroy h
  | None => Ret tt
  end.

(** From [nativeSetBands] to the last release, with an update between: both
    arrays get their values, magnitudes first, or neither does; a size other than
    that of the arrays changes nothing; the global references are given back. *)
Theorem holder_life_balanced `{MACHINE : Machine} bands magnitudes phases mid pid va vb j : sound_machine -> globals_available = true ->
  attached j = true -> pending j = false -> 0 <= bands -> apart j ->
  object_of j magnitudes = Some (JArray mid (Z.to_nat bands)) -> object_of j phases = Some (JArray pid (Z.to_nat bands)) -> length va = length vb ->
  wp (holder_life bands magnitudes phases va vb) j (fun _ j' => attached j' = true /\ pending j' = false /\ globals j' = globals j /\
    (java_calls j' = java_calls j \/
     (Z.of_nat (length va) = bands /\ java_calls j' = java_calls j ++ [written mid (length va) va; written pid (length vb) vb]))).
Proof.
  intros HM HG A P Hb D Om Op L. unfold holder_life. apply jwp_bind.
  eapply jwp_mono; [apply (holder_init_rule bands magnitudes phases mid pid j); assumption|].
  cbn beta. intros o j1 (h & m & p & -> & Eh & O & D1 & N & Fm & Fp & ->). set (j1 := with_globals _ j) in *.
  apply jwp_bind. eapply jwp_mono; [apply (holder_update_rule h mid pid _ va vb j1); auto; try (rewrite L; reflexivity)|].
  { split; [exact P|]. cbn. congruence. }
  cbn beta. intros _ j2 (S & C & G).
  eapply jwp_mono; [apply (holder_destroy_rule h m p j2); subst h; auto|].
  - rewrite (s_attached _ _ S). exact A.
  - rewrite G. cbn. rewrite lookup_insert_ne, lookup_insert_eq by congruence. eauto.
  - rewrite G. cbn. rewrite lookup_insert_eq. eauto.
  - cbn beta. intros _ j3 ->. cbn [attached pending globals with_globals]. split; [rewrite (s_attached _ _ S); exact A|]. split; [apply S|]. split.
    + rewrite G. cbn. rewrite delete_insert_ne by congruence. rewrite (delete_insert_id (globals j) m) by exact Fm. apply delete_insert_id. exact Fp.
    + destruct C as [C|[B C]]; [left; exact C|right]. split; [subst h; exact B|exact C].
Qed.

Definition arrays : jvm := mkJvm true false 0 {[ 1%positive := JArray 1 3; 2%positive := JArray 2 3 ]} ∅ [].
Definition levels : list float := [f_zero; f_one; f_minus_one].
Lemma holder_life_balanced_witness : exists j',
  JniApi.run (calm no_reply []) (holder_life 3 (Some 1%positive) (Some 2%positive) levels levels) arrays = Some (tt, j') /\ globals j' = ∅ /\
  (java_calls j' = [] \/ java_calls j' = [written 1 3 levels; written 2 3 levels]).
Proof.
  assert (D : apart arrays) by (intros l _; apply lookup_empty).
  pose proof (holder_life_balanced 3 (Some 1%positive) (Some 2%positive) 1 2 levels levels arrays all_sound eq_refl eq_refl eq_refl ltac:(lia) D eq_refl eq_refl eq_refl) as H.
  destruct (wp_run _ _ (calm_faithful no_reply []) _ _ H) as ([] & j' & E & _ & _ & G & C). exists j'. split; [exact E|]. split; [exact G|].
  destruct C as [C|[_ C]]; [left|right]; exact C.
Defined.
Example holder_life_writes :
  option_map (fun '(_, j) => java_calls j) (JniApi.run (calm no_reply []) (holder_life 3 (Some 1%positive) (Some 2%positive) levels levels) arrays) =
  Some [written 1 3 levels; written 2 3 levels].
Proof. vm_compute. reflexivity. Qed.
