(* ===== verification/SpectrumRace.v ===== *)
(** * Replacing the holder while it is used ([GstAudioSpectrum.cpp])

    [SetBands] runs on a Java thread, [UpdateBands] on the thread of the bus.
    The reference count keeps a holder alive that the bus thread has counted,
    but between reading the pointer and counting there is a gap. *)

From S2P Require Import Prelude.
Local Open Scope Z_scope.

(** Where each thread is; the holder it has in hand may be [NULL]. *)
Inductive java_pc := JIdle | JGot (old : option positive) (new : positive) | JSwapped (old : option positive).
Inductive bus_pc := BIdle | BGot (holder : option positive) | BCounted (holder : option positive) | BUsed (holder : option positive).
#[export] Instance java_pc_eq_dec : EqDecision java_pc.
Proof. solve_decision. Defined.
#[export] Instance bus_pc_eq_dec : EqDecision bus_pc.
Proof. solve_decision. Defined.

(** The holders that are not deleted, with their counts. *)
Record shared := mkShared { heap : gmap positive Z; m_pHolder : option positive; java : java_pc; bus : bus_pc }.
Definition start : shared := mkShared ∅ None JIdle BIdle.

(** What a step can do: go on, be out of turn, or use a holder that is not
    there. *)
Inductive outcome := Next (s : shared) | Disabled | Fault.

(** [AddRef] and [ReleaseRef] ignore [NULL]. *)
Definition AddRef (h : option positive) (H : gmap positive Z) : option (gmap positive Z) :=
  match h with
  | None => Some H
  | Some p => match H !! p with Some n => Some (<[p := n + 1]> H) | None => None end
  end.
Definition ReleaseRef (h : option positive) (H : gmap positive Z) : option (gmap positive Z) :=
  match h with
  | None => Some H
  | Some p => match H !! p with Some n => Some (if n =? 1 then delete p H else <[p := n - 1]> H) | None => None end
  end.

Inductive action :=
| SetBands_get (new : positive)   (* a new holder, InitRef; read the old one *)
| SetBands_set
| SetBands_release
| UpdateBands_get
| UpdateBands_count
| UpdateBands_use                  (* the virtual call on the holder *)
| UpdateBands_release
| Delete_spectrum.

#[export] Instance action_eq_dec : EqDecision action.
Proof. solve_decision. Defined.

Definition step (a : action) (s : shared) : outcome :=
  let heap_or_fault (o : option (gmap positive Z)) (k : gmap positive Z -> shared) := match o with Some H => Next (k H) | None => Fault end in
  match a, java s, bus s with
  | SetBands_get new, JIdle, b =>
      match heap s !! new with
      | None => Next (mkShared (<[new := 1]> (heap s)) (m_pHolder s) (JGot (m_pHolder s) new) b)
      | Some _ => Disabled
      end
  | SetBands_set, JGot old new, b => Next (mkShared (heap s) (Some new) (JSwapped old) b)
  | SetBands_release, JSwapped old, b => heap_or_fault (ReleaseRef old (heap s)) (fun H => mkShared H (m_pHolder s) JIdle b)
  | UpdateBands_get, j, BIdle => Next (mkShared (heap s) (m_pHolder s) j (BGot (m_pHolder s)))
  | UpdateBands_count, j, BGot h => heap_or_fault (AddRef h (heap s)) (fun H => mkShared H (m_pHolder s) j (BCounted h))
  | UpdateBands_use, j, BCounted h =>
      match h with
      | Some p => match heap s !! p with Some _ => Next (mkShared (heap s) (m_pHolder s) j (BUsed h)) | None => Fault end
      | None => Fault
      end
  | UpdateBands_release, j, BUsed h => heap_or_fault (ReleaseRef h (heap s)) (fun H => mkShared H (m_pHolder s) j BIdle)
  | Delete_spectrum, JIdle, BIdle => heap_or_fault (ReleaseRef (m_pHolder s) (heap s)) (fun H => mkShared H None JIdle BIdle)
  | _, _, _ => Disabled
  end.

Fixpoint run (l : list action) (s : shared) : outcome :=
  match l with
  | [] => Next s
  | a :: l => match step a s with Next s => run l s | o => o end
  end.

(** ** Counted references *)

Definition one (b : bool) : Z := if b then 1 else 0.
Definition java_holds (j : java_pc) (p : positive) : Z :=
  match j with JIdle => 0 | JGot _ new => one (bool_decide (new = p)) | JSwapped old => one (bool_decide (old = Some p)) end.
Definition bus_holds (b : bus_pc) (p : positive) : Z :=
  match b with BIdle | BGot _ => 0 | BCounted h | BUsed h => one (bool_decide (h = Some p)) end.
(** The references to a holder that are counted. *)
Definition counted (s : shared) (p : positive) : Z := one (bool_decide (m_pHolder s = Some p)) + java_holds (java s) p + bus_holds (bus s) p.

Definition tally (n : Z) : option Z := if n =? 0 then None else Some n.
(** The count of every holder is the number of references to it, and a holder
    without one has been deleted. *)
Definition balanced (s : shared) : Prop :=
  (forall p, heap s !! p = tally (counted s p)) /\
  match java s with JGot old _ => old = m_pHolder s | _ => True end.

Lemma one_nonneg b : 0 <= one b.
Proof. destruct b; cbn; lia. Qed.
Lemma counted_nonneg s p : 0 <= counted s p.
Proof.
  unfold counted. pose proof (one_nonneg (bool_decide (m_pHolder s = Some p))).
  assert (0 <= java_holds (java s) p) by (destruct (java s); cbn; auto using one_nonneg; lia).
  assert (0 <= bus_holds (bus s) p) by (destruct (bus s); cbn; auto using one_nonneg; lia). lia.
Qed.

Lemma tally_some n : 0 < n -> tally n = Some n.
Proof. intros H. unfold tally. destruct (Z.eqb_spec n 0); [lia|reflexivity]. Qed.

(** Counting one reference more or less. *)
Lemma AddRef_tally h H c : (forall p, H !! p = tally (c p)) -> (forall p, 0 <= c p) ->
  match AddRef h H with
  | Some H' => forall p, H' !! p = tally (c p + one (bool_decide (h = Some p)))
  | None => exists p, h = Some p /\ c p = 0
  end.
Proof.
  intros E P. destruct h as [q|]; cbn.
  - rewrite E. unfold tally at 1. destruct (Z.eqb_spec (c q) 0) as [Z0|Z0]; [eauto|]. intros p. pose proof (P q).
    destruct (decide (q = p)) as [->|N].
    + rewrite lookup_insert_eq, bool_decide_eq_true_2 by reflexivity. cbn. rewrite tally_some by lia. reflexivity.
    + rewrite lookup_insert_ne, bool_decide_eq_false_2 by congruence. cbn. rewrite Z.add_0_r. apply E.
  - intros p. rewrite bool_decide_eq_false_2 by discriminate. cbn. rewrite Z.add_0_r. apply E.
Qed.
Lemma ReleaseRef_tally h H c : (forall p, H !! p = tally (c p)) -> (forall p, one (bool_decide (h = Some p)) <= c p) ->
  exists H', ReleaseRef h H = Some H' /\ forall p, H' !! p = tally (c p - one (bool_decide (h = Some p))).
Proof.
  intros E P. destruct h as [q|]; cbn.
  - pose proof (P q) as Pq. rewrite bool_decide_eq_true_2 in Pq by reflexivity. cbn in Pq.
    rewrite E, tally_some by lia. eexists. split; [reflexivity|]. intros p. destruct (decide (q = p)) as [->|N].
    + rewrite bool_decide_eq_true_2 by reflexivity. cbn. unfold tally. destruct (Z.eqb_spec (c p) 1) as [E1|E1].
      * rewrite lookup_delete_eq. destruct (Z.eqb_spec (c p - 1) 0); [reflexivity|lia].
      * rewrite lookup_insert_eq. destruct (Z.eqb_spec (c p - 1) 0); [lia|reflexivity].
    + rewrite bool_decide_eq_false_2 by congruence. cbn. rewrite Z.sub_0_r, <- E. destruct (c q =? 1); [apply lookup_delete_ne, N|apply lookup_insert_ne, N].
  - eexists. split; [reflexivity|]. intros p. rewrite bool_decide_eq_false_2 by discriminate. cbn. rewrite Z.sub_0_r. apply E.
Qed.

Lemma tally_moves H s s' : (forall p, H !! p = tally (counted s p)) -> (forall p, counted s' p = counted s p) -> heap s' = H -> forall p, heap s' !! p = tally (counted s' p).
Proof. intros E C -> p. rewrite C. apply E. Qed.

Ltac tallied := unfold counted; cbn [m_pHolder java bus java_holds bus_holds]; unfold one; repeat case_bool_decide; simplify_eq; try lia.

(** The only steps that go wrong: counting a holder that was deleted since it
    was read, and using [NULL]. *)
Lemma step_balanced a s : balanced s ->
  match step a s with
  | Next s' => balanced s'
  | Disabled => True
  | Fault => (a = UpdateBands_count /\ exists p, bus s = BGot (Some p) /\ counted s p = 0) \/ (a = UpdateBands_use /\ bus s = BCounted None)
  end.
Proof.
  intros [E J]. pose proof (counted_nonneg s) as P. destruct s as [H h j b]. cbn [heap m_pHolder java bus] in *.
  destruct a as [n| | | | | | |]; cbn [step java bus heap m_pHolder].
  - destruct j; [|exact I|exact I]. destruct (H !! n) eqn:Hn; [exact I|]. split; [|reflexivity]. cbn [heap]. intros p.
    assert (C : counted (mkShared H h JIdle b) n = 0).
    { pose proof (E n) as K. rewrite Hn in K. unfold tally in K. destruct (Z.eqb_spec (counted (mkShared H h JIdle b) n) 0); [assumption|discriminate]. }
    destruct (decide (n = p)) as [->|N].
    + rewrite lookup_insert_eq. replace (counted _ p) with (counted (mkShared H h JIdle b) p + 1) by (tallied). rewrite C. reflexivity.
    + rewrite lookup_insert_ne by exact N. rewrite E. f_equal. tallied.
  - destruct j as [|old new|]; [exact I| |exact I]. subst old. split; [|exact I].
    apply (tally_moves H (mkShared H h (JGot h new) b)); [exact E| |reflexivity]. intros p. tallied.
  - destruct j as [| |old]; [exact I|exact I|].
    destruct (ReleaseRef_tally old H _ E) as (H' & -> & E').
    { intros p. pose proof (one_nonneg (bool_decide (h = Some p))). assert (0 <= bus_holds b p) by (destruct b; cbn; auto using one_nonneg; lia).
      unfold counted. cbn [java_holds java m_pHolder bus]. lia. }
    split; [|exact I]. cbn [heap]. intros p. rewrite E'. f_equal. unfold counted. cbn [java_holds java m_pHolder bus]. lia.
  - destruct b; [|exact I|exact I|exact I]. split; [|exact J]. exact E.
  - destruct b as [|g| |]; [exact I| |exact I|exact I]. pose proof (AddRef_tally g H _ E P) as K. destruct (AddRef g H) as [H'|].
    + split; [|exact J]. cbn [heap]. intros p. rewrite K. f_equal. unfold counted. cbn [bus_holds java m_pHolder bus]. lia.
    + left. destruct K as (p & -> & K). split; [reflexivity|]. eauto.
  - destruct b as [| |g|]; [exact I|exact I| |exact I]. destruct g as [p|]; [|right; auto].
    pose proof (E p) as K. rewrite tally_some in K.
    + rewrite K. split; [exact E|exact J].
    + assert (0 <= java_holds j p) by (destruct j; cbn; auto using one_nonneg; lia). pose proof (one_nonneg (bool_decide (h = Some p))).
      assert (bus_holds (BCounted (Some p)) p = 1) by (cbn; rewrite bool_decide_eq_true_2 by reflexivity; reflexivity).
      unfold counted. cbn [m_pHolder java bus]. lia.
  - destruct b as [| | |g]; [exact I|exact I|exact I|]. destruct (ReleaseRef_tally g H _ E) as (H' & -> & E').
    { intros p. pose proof (one_nonneg (bool_decide (h = Some p))). assert (0 <= java_holds j p) by (destruct j; cbn; auto using one_nonneg; lia).
      unfold counted. cbn [bus_holds java m_pHolder bus]. lia. }
    split; [|exact J]. cbn [heap]. intros p. rewrite E'. f_equal. unfold counted. cbn [bus_holds java m_pHolder bus]. lia.
  - destruct j; [|exact I|exact I]. destruct b; [|exact I|exact I|exact I]. destruct (ReleaseRef_tally h H _ E) as (H' & -> & E').
    { intros p. unfold counted. cbn. lia. }
    split; [|exact I]. cbn [heap]. intros p. rewrite E'. f_equal. unfold counted. cbn. rewrite (bool_decide_eq_false_2 (None = Some p)) by discriminate. cbn. lia.
Qed.

(** ** Schedules *)

(** The two uses that go wrong: counting a holder to which no reference is left
    since the bus thread read the pointer, and calling the holder when none was
    set. *)
Definition goes_wrong (a : action) (s : shared) : Prop :=
  (a = UpdateBands_count /\ exists p, bus s = BGot (Some p) /\ counted s p = 0 /\ heap s !! p = None) \/
  (a = UpdateBands_use /\ bus s = BCounted None).

Lemma start_balanced : balanced start.
Proof. split; [|exact I]. intros p. unfold counted, tally. cbn. rewrite bool_decide_eq_false_2 by discriminate. reflexivity. Qed.

Lemma run_balanced l : forall s, balanced s ->
  match run l s with
  | Next s' => balanced s'
  | Disabled => True
  | Fault => exists before a after s', l = before ++ a :: after /\ run before s = Next s' /\ balanced s' /\ goes_wrong a s'
  end.
Proof.
  induction l as [|a l IH]; intros s B; cbn [run]; [exact B|].
  pose proof (step_balanced a s B) as K. destruct (step a s) as [s'| |] eqn:E.
  - specialize (IH s' K). destruct (run l s'); [exact IH|exact I|]. destruct IH as (before & x & after & s'' & -> & R & H).
    exists (a :: before), x, after, s''. split; [reflexivity|]. split; [cbn [run]; rewrite E; exact R|exact H].
  - exact I.
  - exists [], a, l, s. split; [reflexivity|]. split; [reflexivity|]. split; [exact B|]. destruct K as [(-> & p & Hp & C)|H]; [left|right; exact H].
    split; [reflexivity|]. exists p. split; [exact Hp|]. split; [exact C|]. rewrite (proj1 B p), C. reflexivity.
Qed.

(** C40: Every schedule of [SetBands], [UpdateBands] and the destructor, in the
    steps of the code, from a new spectrum.  As long as nothing goes wrong the
    count of every holder is exactly the number of references to it, and a
    holder without one has been deleted.  Only two steps can go wrong: the bus
    thread counts a holder that was replaced and deleted since it read the
    pointer, or it calls the holder of a spectrum that never got one; in
    particular a holder that is counted is never deleted before it is released,
    and none is released twice. *)
Theorem holder_faults l :
  match run l start with
  | Next s => balanced s
  | Disabled => True
  | Fault => exists before a after s, l = before ++ a :: after /\ run before start = Next s /\ balanced s /\ goes_wrong a s
  end.
Proof. apply run_balanced, start_balanced. Qed.

(** Both happen: with a replacement between reading and counting, and without
    [SetBands] at the first message. *)
Definition set_bands (n : positive) : list action := [SetBands_get n; SetBands_set; SetBands_release].
Theorem spectrum_update_races :
  run (set_bands 1 ++ UpdateBands_get :: set_bands 2 ++ [UpdateBands_count]) start = Fault /\
  run [UpdateBands_get; UpdateBands_count; UpdateBands_use] start = Fault.
Proof. split; vm_compute; reflexivity. Qed.

(** An update that counts before the replacement is safe, and keeps the old holder
    until it is done. *)
Definition mixed : list action :=
  set_bands 1 ++ [UpdateBands_get; UpdateBands_count; SetBands_get 2; SetBands_set; SetBands_release; UpdateBands_use; UpdateBands_release].
Example mixed_keeps_the_holder : match run mixed start with Next s => map_to_list (heap s) = [(2%positive, 1)] | _ => False end.
Proof. vm_compute. reflexivity. Qed.
