(* ===== verification/MediaManager.v ===== *)
(** * The media manager's main loop ([GstMediaManager.cpp])

    [Init] starts the thread of the main loop and waits until the loop exists;
    the thread then waits for the first player to start it.  Two condition
    variables, two mutexes and four threads: the state space is finite, and the
    theorems hold because they hold in every state that can be reached. *)

From S2P Require Import Prelude.

(** ** The threads *)

(** [CGstMediaManager::Init], from the creation of the thread on. *)
Inductive init_pc := I_create | I_lock | I_test | I_waiting | I_woken | I_unlock | I_finish | I_done (ok : bool).
(** [run_loop]. *)
Inductive loop_pc := R_none | R_lock | R_create | R_signal | R_unlock | R_lock_start | R_test | R_waiting | R_woken | R_unlock_start | R_running | R_ended.
(** [StartMainLoop], called by the pipelines of two players. *)
Inductive start_pc := S_check | S_lock | S_set | S_signal | S_unlock | S_done.

#[export] Instance init_pc_eq_dec : EqDecision init_pc.
Proof. solve_decision. Defined.
#[export] Instance loop_pc_eq_dec : EqDecision loop_pc.
Proof. solve_decision. Defined.
#[export] Instance start_pc_eq_dec : EqDecision start_pc.
Proof. solve_decision. Defined.

Record state := mkState {
  pc_init : init_pc; pc_loop : loop_pc; pc_a : start_pc; pc_b : start_pc;
  runloop_locked : bool; startloop_locked : bool;
  m_pMainLoop : bool; m_bMainLoopCreateFailed : bool; m_bStartMainLoop : bool;
  cleared : bool;   (* m_RunloopMutex and m_RunloopCond *)
  misused : bool    (* one of them was used afterwards *) }.
#[export] Instance state_eq_dec : EqDecision state.
Proof. solve_decision. Defined.
#[export] Instance eta_state : Eta state :=
  eta_ap (eta_ap (eta_ap (eta_ap (eta_ap (eta_ap (eta_ap (eta_ap (eta_ap (eta_ap (eta_ap (eta_pure mkState)
    pc_init) pc_loop) pc_a) pc_b) runloop_locked) startloop_locked) m_pMainLoop) m_bMainLoopCreateFailed) m_bStartMainLoop) cleared) misused.
Definition begin : state := mkState I_create R_none S_check S_check false false false false false false false.

(** A use of the mutex or the condition that [Init] clears. *)
Definition use (s : state) : state := s <| misused := misused s || cleared s |>.

Section Steps.
(** Whether the main loop can be created. *)
Variable loop_ok : bool.

Definition init_step (s : state) : list state :=
  match pc_init s with
  | I_create => [s <| pc_loop := R_lock |> <| pc_init := I_lock |>]
  | I_lock | I_woken => if runloop_locked s then [] else [use s <| runloop_locked := true |> <| pc_init := I_test |>]
  | I_test => if m_pMainLoop s then [s <| pc_init := I_unlock |>] else [use s <| runloop_locked := false |> <| pc_init := I_waiting |>]
  | I_unlock => [use s <| runloop_locked := false |> <| pc_init := I_finish |>]
  | I_finish => [s <| cleared := true |> <| pc_init := I_done (negb (m_bMainLoopCreateFailed s)) |>]
  | I_waiting | I_done _ => []
  end.
Definition loop_step (s : state) : list state :=
  match pc_loop s with
  | R_lock => if runloop_locked s then [] else [use s <| runloop_locked := true |> <| pc_loop := R_create |>]
  | R_create => [s <| m_pMainLoop := loop_ok |> <| m_bMainLoopCreateFailed := negb loop_ok |> <| pc_loop := R_signal |>]
  | R_signal => [use s <| pc_init := match pc_init s with I_waiting => I_woken | pc => pc end |> <| pc_loop := R_unlock |>]
  | R_unlock => [use s <| runloop_locked := false |> <| pc_loop := if m_pMainLoop s then R_lock_start else R_ended |>]
  | R_lock_start | R_woken => if startloop_locked s then [] else [s <| startloop_locked := true |> <| pc_loop := R_test |>]
  | R_test => if m_bStartMainLoop s then [s <| pc_loop := R_unlock_start |>] else [s <| startloop_locked := false |> <| pc_loop := R_waiting |>]
  | R_unlock_start => [s <| startloop_locked := false |> <| pc_loop := R_running |>]
  | R_none | R_waiting | R_running | R_ended => []
  end.
(** The players exist once the manager does. *)
Definition start_step (pc : start_pc) (set_pc : start_pc -> state -> state) (s : state) : list state :=
  if negb (bool_decide (pc_init s = I_done true)) then []
  else match pc with
  | S_check => [set_pc (if m_bStartMainLoop s then S_done else S_lock) s]
  | S_lock => if startloop_locked s then [] else [set_pc S_set (s <| startloop_locked := true |>)]
  | S_set => [set_pc S_signal (s <| m_bStartMainLoop := true |>)]
  | S_signal => [set_pc S_unlock (s <| pc_loop := match pc_loop s with R_waiting => R_woken | pc => pc end |>)]
  | S_unlock => [set_pc S_done (s <| startloop_locked := false |>)]
  | S_done => []
  end.
Definition steps (s : state) : list state :=
  init_step s ++ loop_step s ++ start_step (pc_a s) (fun pc s => s <| pc_a := pc |>) s ++ start_step (pc_b s) (fun pc s => s <| pc_b := pc |>) s.
(** A wait may end without a signal. *)
Definition wakeups (s : state) : list state :=
  match pc_init s with I_waiting => [s <| pc_init := I_woken |>] | _ => [] end ++ match pc_loop s with R_waiting => [s <| pc_loop := R_woken |>] | _ => [] end.

Inductive reach : state -> Prop :=
| reach_begin : reach begin
| reach_step s s' : reach s -> In s' (steps s ++ wakeups s) -> reach s'.
(** Without such wake-ups. *)
Inductive progress : state -> state -> Prop :=
| progress_refl s : progress s s
| progress_step s s' s'' : In s' (steps s) -> progress s' s'' -> progress s s''.

(** *** Exploring the states *)

Fixpoint add_new (new seen : list state) : list state * list state :=
  match new with
  | [] => ([], seen)
  | s :: new => if existsb (fun x => bool_decide (x = s)) seen then add_new new seen
                else let '(fresh, seen) := add_new new (s :: seen) in (s :: fresh, seen)
  end.
Fixpoint explore (fuel : nat) (frontier seen : list state) : list state :=
  match fuel with
  | O => seen
  | S fuel =>
      match frontier with
      | [] => seen
      | _ => let '(fresh, seen) := add_new (concat (map (fun s => steps s ++ wakeups s) frontier)) seen in explore fuel fresh seen
      end
  end.
Definition closed (states : list state) : bool :=
  forallb (fun s => forallb (fun s' => existsb (fun x => bool_decide (x = s')) states) (steps s ++ wakeups s)) states.
End Steps.

Definition states (loop_ok : bool) : list state := explore loop_ok 60 [begin] [begin].

(** ** Every reachable state is listed *)

Definition listed (l : list state) (s : state) : bool := existsb (fun x => bool_decide (x = s)) l.
Lemma listed_spec l s : listed l s = true <-> In s l.
Proof.
  unfold listed. rewrite existsb_exists. split.
  - intros (x & Hx & E). apply bool_decide_eq_true in E. subst x. exact Hx.
  - intros H. exists s. split; [exact H|]. apply bool_decide_eq_true. reflexivity.
Qed.
Lemma closed_reach loop_ok l : listed l begin = true -> closed loop_ok l = true -> forall s, reach loop_ok s -> In s l.
Proof.
  intros B C s R. induction R as [|s s' R IH K]; [apply listed_spec, B|].
  unfold closed in C. rewrite forallb_forall in C. specialize (C s IH). rewrite forallb_forall in C. apply listed_spec, C, K.
Qed.
Lemma reach_states loop_ok s : reach loop_ok s -> In s (states loop_ok).
Proof. apply closed_reach; destruct loop_ok; vm_compute; reflexivity. Qed.

(** What holds of each of them holds of what can be reached. *)
Lemma reach_check loop_ok (P : state -> bool) : forallb P (states loop_ok) = true -> forall s, reach loop_ok s -> P s = true.
Proof. intros H s R. rewrite forallb_forall in H. apply H, reach_states, R. Qed.

(** ** Progress *)

(** Every step that is not a chance wake-up makes this smaller. *)
Definition rank (s : state) : nat :=
  match pc_init s with I_create => 100 | I_lock | I_woken => 6 | I_test => 5 | I_waiting => 4 | I_unlock => 3 | I_finish => 2 | I_done _ => 0 end +
  match pc_loop s with
  | R_none => 0 | R_lock => 40 | R_create => 38 | R_signal => 36 | R_unlock => 30 | R_lock_start | R_woken => 16 | R_test => 15 | R_waiting => 14
  | R_unlock_start => 10 | R_running | R_ended => 0
  end +
  let start pc := match pc with S_check => 20 | S_lock => 18 | S_set => 16 | S_signal => 14 | S_unlock => 6 | S_done => 0 end in
  start (pc_a s) + start (pc_b s).
Definition final (s : state) : bool :=
  bool_decide (pc_init s = I_done true) && bool_decide (pc_loop s = R_running) && bool_decide (pc_a s = S_done) && bool_decide (pc_b s = S_done).

Definition descends (loop_ok : bool) (s : state) : bool := forallb (fun s' => (rank s' <? rank s)%nat) (steps loop_ok s).

Lemma progress_to_end loop_ok (P : state -> bool) :
  (forall s, reach loop_ok s -> descends loop_ok s = true) ->
  (forall s, reach loop_ok s -> steps loop_ok s = [] -> P s = true) ->
  forall s, reach loop_ok s -> exists s', progress loop_ok s s' /\ P s' = true.
Proof.
  intros D E s. remember (rank s) as n eqn:Hn. assert (L : (rank s <= n)%nat) by lia. clear Hn. revert s L.
  induction n as [n IH] using lt_wf_ind. intros s L R. destruct (steps loop_ok s) as [|s' l] eqn:Es.
  - exists s. split; [apply progress_refl|apply E; assumption].
  - pose proof (D s R) as K. unfold descends in K. rewrite Es in K. cbn in K. apply andb_prop in K as [K _]. apply Nat.ltb_lt in K.
    assert (I : In s' (steps loop_ok s)) by (rewrite Es; left; reflexivity).
    destruct (IH (rank s') ltac:(lia) s' (le_n _)) as (s2 & Pr & F).
    { eapply reach_step; [exact R|]. apply in_or_app. left. exact I. }
    exists s2. split; [|exact F]. eapply progress_step; eassumption.
Qed.

(** What the states show. *)
Definition handed_over (s : state) : bool :=
  negb (misused s) && match pc_init s with I_done ok => ok && m_pMainLoop s | _ => true end &&
  match pc_loop s with R_running => m_bStartMainLoop s && bool_decide (pc_init s = I_done true) | _ => true end.
Definition abandoned (s : state) : bool := bool_decide (pc_init s = I_waiting) && bool_decide (pc_loop s = R_ended).
Definition ends_in (loop_ok : bool) (P : state -> bool) (s : state) : bool := match steps loop_ok s with [] => P s | _ => true end.
Definition not_done (s : state) : bool := match pc_init s with I_done _ => false | _ => true end.

Lemma all_handed_over loop_ok s : reach loop_ok s -> handed_over s = true.
Proof. apply reach_check. destruct loop_ok; vm_compute; reflexivity. Qed.
Lemma all_descend loop_ok s : reach loop_ok s -> descends loop_ok s = true.
Proof. apply reach_check. destruct loop_ok; vm_compute; reflexivity. Qed.
Lemma all_end_final s : reach true s -> ends_in true final s = true.
Proof. apply reach_check. vm_compute. reflexivity. Qed.
Lemma all_end_abandoned s : reach false s -> ends_in false abandoned s = true.
Proof. apply reach_check. vm_compute. reflexivity. Qed.
Lemma all_not_done s : reach false s -> not_done s = true.
Proof. apply reach_check. vm_compute. reflexivity. Qed.

(** The end of a run, whether or not the loop can be created. *)
Definition ended (loop_ok : bool) (s : state) : bool := if loop_ok then final s else abandoned s.
Lemma all_end loop_ok s : reach loop_ok s -> steps loop_ok s = [] -> ended loop_ok s = true.
Proof.
  intros R E. destruct loop_ok; [pose proof (all_end_final s R) as F|pose proof (all_end_abandoned s R) as F]; unfold ends_in in F; rewrite E in F; exact F.
Qed.
Lemma end_reached loop_ok s : reach loop_ok s -> exists s', progress loop_ok s s' /\ ended loop_ok s' = true.
Proof. apply (progress_to_end loop_ok (ended loop_ok)); [apply all_descend|apply all_end]. Qed.

(** C17: The hand-over, in every interleaving of [Init], the main loop thread and
    two players.  Whether or not the loop can be created: the mutex and the
    condition that [Init] clears are not used afterwards; [Init] returns only with
    success and a main loop; the loop runs only after a player asked for it; and
    every step but a chance wake-up makes [rank] smaller.  When the loop can be
    created all threads get through from every state; when it cannot, [Init]
    is left waiting for a thread that has ended. *)
Theorem main_loop_handshake loop_ok s : reach loop_ok s ->
  misused s = false /\ (forall ok, pc_init s = I_done ok -> loop_ok = true /\ ok = true /\ m_pMainLoop s = true) /\
  (pc_loop s = R_running -> m_bStartMainLoop s = true /\ pc_init s = I_done true) /\
  (forall s', In s' (steps loop_ok s) -> (rank s' < rank s)%nat) /\
  exists s', progress loop_ok s s' /\
    if loop_ok then final s' = true else pc_init s' = I_waiting /\ pc_loop s' = R_ended.
Proof.
  intros R. pose proof (all_handed_over loop_ok s R) as C. apply andb_prop in C as [C C3]. apply andb_prop in C as [C1 C2].
  split; [apply negb_true_iff, C1|]. split; [|split; [|split]].
  - intros ok E. rewrite E in C2. apply andb_prop in C2. split; [|exact C2].
    destruct loop_ok; [reflexivity|]. pose proof (all_not_done s R) as N. unfold not_done in N. rewrite E in N. discriminate N.
  - intros E. rewrite E in C3. apply andb_prop in C3 as [C4 C5]. apply bool_decide_eq_true in C5. auto.
  - intros s' Hs'. pose proof (all_descend loop_ok s R) as K. unfold descends in K. rewrite forallb_forall in K. apply Nat.ltb_lt, K, Hs'.
  - destruct (end_reached loop_ok s R) as (s' & P & F). exists s'. split; [exact P|]. destruct loop_ok; [exact F|].
    apply andb_prop in F as [F1 F2]. apply bool_decide_eq_true in F1, F2. auto.
Qed.

(** When the main loop cannot be created, [Init] never returns, so that its
    error code for this is never seen; it ends up waiting for a thread that has
    ended. *)
Theorem failed_main_loop_hangs s : reach false s ->
  (forall ok, pc_init s <> I_done ok) /\ exists s', progress false s s' /\ pc_init s' = I_waiting /\ pc_loop s' = R_ended.
Proof.
  intros R. split.
  - intros ok E. pose proof (all_not_done s R) as C. unfold not_done in C. rewrite E in C. discriminate C.
  - destruct (end_reached false s R) as (s' & P & F). apply andb_prop in F as [F1 F2]. apply bool_decide_eq_true in F1, F2. eauto.
Qed.

Lemma main_loop_handshake_witness : exists s', progress true begin s' /\ final s' = true.
Proof. apply (main_loop_handshake true begin (reach_begin true)). Defined.
Lemma failed_main_loop_hangs_witness : exists s', progress false begin s' /\ pc_init s' = I_waiting /\ pc_loop s' = R_ended.
Proof. apply (failed_main_loop_hangs begin (reach_begin false)). Defined.
