(* ===== verification/PiscesPixel.v ===== *)
(** * Pixel arithmetic of the software renderer ([native-prism-sw])

    The blending functions of [PiscesBlit.c] and the interpolation of
    [PiscesPaint.c], on pixels of premultiplied bytes.  Shifts into the sign bit
    wrap, as with the compilers in use. *)

From S2P Require Import Prelude CFloat Float32 DecoraApi Argb.
Local Open Scope Z_scope.
Local Open Scope ub_scope.

(** ** [PiscesBlit.c] *)

Definition div255 (x : Z) : Z := Z.shiftr (x * 257 + 257) 16.

(** [(a << 24) | (r << 16) | (g << 8) | b] *)
Definition argb (a r g b : Z) : Z :=
  Z.lor (Z.lor (Z.lor (s32 (Z.shiftl a 24)) (s32 (Z.shiftl r 16))) (s32 (Z.shiftl g 8))) b.

(** The pixel [*intData] is the last argument. *)
Definition blendSrcOver8888_pre (aval sred sgreen sblue ival : Z) : Z :=
  let oneminusaval := 255 - aval in
  let oalpha := div255 (255 * aval + oneminusaval * chan ival 24) in
  let ored := div255 (sred * aval + oneminusaval * chan ival 16) in
  let ogreen := div255 (sgreen * aval + oneminusaval * chan ival 8) in
  let oblue := div255 (sblue * aval + oneminusaval * chan ival 0) in
  argb oalpha ored ogreen oblue.

Definition blendSrcOver8888_pre_pre (frac aval sred sgreen sblue ival : Z) : Z :=
  let aval2 := Z.shiftr (aval * frac) 8 in
  let oneminusaval := 255 - aval2 in
  let oalpha := aval2 + div255 (oneminusaval * chan ival 24) in
  let ored := Z.shiftr (sred * frac) 8 + div255 (oneminusaval * chan ival 16) in
  let ogreen := Z.shiftr (sgreen * frac) 8 + div255 (oneminusaval * chan ival 8) in
  let oblue := Z.shiftr (sblue * frac) 8 + div255 (oneminusaval * chan ival 0) in
  argb oalpha ored ogreen oblue.

Definition blendSrcOver8888_pre_pre_fullFrac (aval sred sgreen sblue ival : Z) : Z :=
  let oneminusaval := 255 - aval in
  let oalpha := aval + div255 (oneminusaval * chan ival 24) in
  let ored := sred + div255 (oneminusaval * chan ival 16) in
  let ogreen := sgreen + div255 (oneminusaval * chan ival 8) in
  let oblue := sblue + div255 (oneminusaval * chan ival 0) in
  argb oalpha ored ogreen oblue.

(** The two tables are [gammaArray] and [invGammaArray]. *)
Definition blendLCDSrcOver8888_pre (gammaArray invGammaArray : list Z) (ared agreen ablue sred sgreen sblue ival : Z) : ub Z :=
  do* dred := rd invGammaArray (chan ival 16) in
  do* dgreen := rd invGammaArray (chan ival 8) in
  do* dblue := rd invGammaArray (chan ival 0) in
  let ored := div255 (ared * sred + (255 - ared) * dred) in
  let ogreen := div255 (agreen * sgreen + (255 - agreen) * dgreen) in
  let oblue := div255 (ablue * sblue + (255 - ablue) * dblue) in
  do* ored := rd gammaArray ored in
  do* ogreen := rd gammaArray ogreen in
  do* oblue := rd gammaArray oblue in
  Done (argb 255 ored ogreen oblue).

Definition blendSrc8888_pre (aval raaval sred sgreen sblue ival : Z) : Z :=
  let denom := 255 * aval + chan ival 24 * raaval in
  if denom =? 0 then 0
  else
    let oalpha := div255 denom in
    let ored := div255 (aval * sred + raaval * chan ival 16) in
    let ogreen := div255 (aval * sgreen + raaval * chan ival 8) in
    let oblue := div255 (aval * sblue + raaval * chan ival 0) in
    argb oalpha ored ogreen oblue.

Definition blendSrc8888_pre_pre (aval raaval sred sgreen sblue ival : Z) : Z :=
  let denom := 255 * aval + chan ival 24 * raaval in
  if denom =? 0 then 0
  else
    let oalpha := div255 denom in
    let ored := sred + div255 (raaval * chan ival 16) in
    let ogreen := sgreen + div255 (raaval * chan ival 8) in
    let oblue := sblue + div255 (raaval * chan ival 0) in
    argb oalpha ored ogreen oblue.

(** ** [PiscesPaint.c] *)

Definition CYCLE_NONE : Z := 0.
Definition CYCLE_REPEAT : Z := 1.
Definition CYCLE_REFLECT : Z := 2.

Definition interp (x0 x1 frac : Z) : Z := Z.shiftr (Z.shiftl x0 16 + (x1 - x0) * frac + 0x8000) 16.

Definition pad (ifrac cycleMethod : Z) : Z :=
  if cycleMethod =? CYCLE_NONE then if ifrac <? 0 then 0 else if ifrac >? 0xffff then 0xffff else ifrac
  else if cycleMethod =? CYCLE_REPEAT then Z.land ifrac 0xffff
  else if cycleMethod =? CYCLE_REFLECT then
    let ifrac := if ifrac <? 0 then s32 (- ifrac) else ifrac in
    let ifrac := Z.land ifrac 0x1ffff in
    if ifrac >? 0xffff then 0x1ffff - ifrac else ifrac
  else ifrac.

Definition interpolate2points (p0 p1 frac : Z) : Z :=
  let c n := interp (chan p0 n) (chan p1 n) frac in argb (c 24) (c 16) (c 8) (c 0).
Definition interpolate4points (p00 p01 p10 p11 hfrac vfrac : Z) : Z :=
  let c n := interp (interp (chan p00 n) (chan p01 n) hfrac) (interp (chan p10 n) (chan p11 n) hfrac) vfrac in
  argb (c 24) (c 16) (c 8) (c 0).
(** The constant [0xff000000] is an alpha of 255. *)
Definition interpolate2pointsNoAlpha (p0 p1 frac : Z) : Z :=
  let c n := interp (chan p0 n) (chan p1 n) frac in argb 255 (c 16) (c 8) (c 0).
Definition interpolate4pointsNoAlpha (p00 p01 p10 p11 hfrac vfrac : Z) : Z :=
  let c n := interp (interp (chan p00 n) (chan p01 n) hfrac) (interp (chan p10 n) (chan p11 n) hfrac) vfrac in
  argb 255 (c 16) (c 8) (c 0).

(** C's remainder has the sign of the dividend. *)
Definition lmod (x y : Z) : ub Z :=
  if y =? 0 then Undefined DivideByZero
  else let x := Z.rem x y in Done (if x <? 0 then x + y else x).

(** ** Bytes *)

Definition byte (z : Z) : Prop := 0 <= z <= 255.
Lemma chan_byte p n : byte (chan p n).
Proof. apply chan_range. Qed.

(** [div255] is the exact quotient for everything the blends give it. *)
Lemma div255_floor x : 0 <= x <= 65535 -> div255 x = x / 255.
Proof.
  intros H. unfold div255. rewrite Z.shiftr_div_pow2 by lia. change (2 ^ 16) with 65536. divlia.
Qed.
Lemma div255_between x lo hi : 0 <= 255 * lo <= x -> x <= 255 * hi -> hi <= 255 -> lo <= div255 x <= hi.
Proof. intros H1 H2 H3. rewrite div255_floor by lia. divlia. Qed.
Lemma div255_mono x y : 0 <= x <= y -> y <= 65535 -> div255 x <= div255 y.
Proof. intros H1 H2. rewrite !div255_floor by lia. divlia. Qed.

Lemma argb_pack a r g b : byte a -> byte r -> byte g -> byte b -> argb a r g b = pack a r g b.
Proof.
  unfold byte. intros Ha Hr Hg Hb. unfold argb. rewrite !Z.shiftl_mul_pow2 by lia.
  rewrite <- (lor_pack a r g b) by assumption. do 2 f_equal. rewrite Z.mul_1_r, s32_id; lia.
Qed.

(** The premultiplied pixels: no colour exceeds the alpha. *)
Definition pre (p : Z) : Prop := forall c, channel c -> chan p c <= chan p 24.

Lemma argb_chans a r g b : byte a -> byte r -> byte g -> byte b ->
  chan (argb a r g b) 24 = a /\ chan (argb a r g b) 16 = r /\ chan (argb a r g b) 8 = g /\ chan (argb a r g b) 0 = b.
Proof. intros Ha Hr Hg Hb. rewrite argb_pack by assumption. apply chan_pack; assumption. Qed.
Lemma pre_argb a r g b : byte a -> 0 <= r <= a -> 0 <= g <= a -> 0 <= b <= a -> pre (argb a r g b).
Proof.
  unfold byte. intros Ha Hr Hg Hb c Hc. destruct (argb_chans a r g b) as (E1 & E2 & E3 & E4); unfold byte; try lia.
  destruct Hc; rewrite ?E1, ?E2, ?E3, ?E4; lia.
Qed.

(** Products of bytes, as the mixtures need them. *)
Lemma mix_bounds s a d : 0 <= s <= 255 -> 0 <= a <= 255 -> 0 <= d <= 255 -> 0 <= s * a + (255 - a) * d <= 255 * 255.
Proof. nia. Qed.
Lemma scaled_bounds s a f : 0 <= s <= a -> a <= 255 -> 0 <= f <= 256 -> 0 <= Z.shiftr (s * f) 8 <= Z.shiftr (a * f) 8 /\ Z.shiftr (a * f) 8 <= a.
Proof.
  intros Hs Ha Hf. rewrite !Z.shiftr_div_pow2 by lia. change (2 ^ 8) with 256.
  assert (0 <= s * f <= a * f) by nia. assert (a * f <= a * 256) by nia. generalize dependent (s * f). generalize dependent (a * f). intros. divlia.
Qed.

(** *** Source over *)

Section Blends.
Variable p : Z.
Hypothesis Hp : pre p.

Lemma over_pre aval r g b : byte aval -> byte r -> byte g -> byte b -> pre (blendSrcOver8888_pre aval r g b p).
Proof using Hp.
  unfold byte. intros Ha Hr Hg Hb. pose proof (chan_byte p 24) as D. unfold byte in D.
  assert (forall s c, 0 <= s <= 255 -> channel c -> 0 <= div255 (s * aval + (255 - aval) * chan p c) <= div255 (255 * aval + (255 - aval) * chan p 24)) as K.
  { intros s c Hs Hc. pose proof (Hp c Hc). pose proof (chan_byte p c) as C. unfold byte in C.
    pose proof (mix_bounds s aval (chan p c)). pose proof (mix_bounds 255 aval (chan p 24)).
    split; [apply (div255_between _ 0 255); lia|]. apply div255_mono; [|lia]. split; [lia|]. nia. }
  apply pre_argb; try (apply K; [lia|constructor]).
  pose proof (mix_bounds 255 aval (chan p 24)). unfold byte. apply div255_between; lia.
Qed.

Lemma over_sum_pre a s1 s2 s3 : byte a -> 0 <= s1 <= a -> 0 <= s2 <= a -> 0 <= s3 <= a ->
  pre (argb (a + div255 ((255 - a) * chan p 24)) (s1 + div255 ((255 - a) * chan p 16)) (s2 + div255 ((255 - a) * chan p 8)) (s3 + div255 ((255 - a) * chan p 0))).
Proof using Hp.
  unfold byte. intros Ha H1 H2 H3. pose proof (chan_byte p 24) as D. unfold byte in D.
  assert (forall c, channel c -> 0 <= div255 ((255 - a) * chan p c) <= div255 ((255 - a) * chan p 24)) as K.
  { intros c Hc. pose proof (Hp c Hc). pose proof (chan_byte p c) as C. unfold byte in C.
    split; [apply (div255_between _ 0 255); nia|]. apply div255_mono; nia. }
  assert (div255 ((255 - a) * chan p 24) <= 255 - a) by (apply (div255_between _ 0); nia).
  pose proof (K 24 alpha). apply pre_argb; [unfold byte; lia|..]; match goal with |- context [chan p ?c] => pose proof (K c ltac:(constructor)) end; lia.
Qed.
Lemma over_pre_pre frac aval r g b : 0 <= frac <= 256 -> byte aval -> 0 <= r <= aval -> 0 <= g <= aval -> 0 <= b <= aval ->
  pre (blendSrcOver8888_pre_pre frac aval r g b p).
Proof using Hp.
  unfold byte. intros Hf Ha Hr Hg Hb. unfold blendSrcOver8888_pre_pre. cbv zeta.
  assert (forall s, 0 <= s <= aval -> 0 <= Z.shiftr (s * frac) 8 <= Z.shiftr (aval * frac) 8) as K by (intros; apply scaled_bounds; lia).
  apply over_sum_pre; try (apply K; assumption). unfold byte; destruct (scaled_bounds aval aval frac) as [K1 K2]; [lia|lia|lia|]. lia.
Qed.
Lemma over_full_pre aval r g b : byte aval -> 0 <= r <= aval -> 0 <= g <= aval -> 0 <= b <= aval ->
  pre (blendSrcOver8888_pre_pre_fullFrac aval r g b p).
Proof using Hp. intros. apply over_sum_pre; assumption. Qed.

(** *** Source *)

Lemma src_pre aval raaval r g b : 0 <= aval -> 0 <= raaval -> aval + raaval <= 255 -> byte r -> byte g -> byte b ->
  pre (blendSrc8888_pre aval raaval r g b p).
Proof using Hp.
  unfold byte. intros Ha Hq Hs Hr Hg Hb. unfold blendSrc8888_pre. cbv zeta.
  destruct (_ =? 0); [intros c Hc; destruct Hc; vm_compute; discriminate|]. pose proof (chan_byte p 24) as D. unfold byte in D.
  assert (forall s c, 0 <= s <= 255 -> channel c -> 0 <= div255 (aval * s + raaval * chan p c) <= div255 (255 * aval + chan p 24 * raaval)) as K.
  { intros s c Hs1 Hc. pose proof (Hp c Hc). pose proof (chan_byte p c) as C. unfold byte in C.
    assert (aval * s <= 255 * aval) by nia. assert (raaval * chan p c <= chan p 24 * raaval) by nia.
    assert (255 * aval + chan p 24 * raaval <= 65025) by nia.
    split; [apply (div255_between _ 0 255); nia|]. apply div255_mono; nia. }
  apply pre_argb; [|apply K; [lia|constructor]..]. unfold byte. apply div255_between; nia.
Qed.
Lemma src_pre_pre aval raaval r g b : 0 <= aval -> 0 <= raaval -> aval + raaval <= 255 -> 0 <= r <= aval -> 0 <= g <= aval -> 0 <= b <= aval ->
  pre (blendSrc8888_pre_pre aval raaval r g b p).
Proof using Hp.
  intros Ha Hq Hs Hr Hg Hb. unfold blendSrc8888_pre_pre. cbv zeta.
  destruct (_ =? 0); [intros c Hc; destruct Hc; vm_compute; discriminate|]. pose proof (chan_byte p 24) as D. unfold byte in D.
  assert (chan p 24 * raaval <= 255 * raaval) as K1 by nia.
  assert (forall s c, 0 <= s <= aval -> channel c -> 0 <= s + div255 (raaval * chan p c) <= div255 (255 * aval + chan p 24 * raaval)) as K.
  { intros s c Hs1 Hc. pose proof (Hp c Hc). pose proof (chan_byte p c) as C. unfold byte in C.
    assert (0 <= raaval * chan p c <= chan p 24 * raaval) by nia. rewrite !div255_floor by nia.
    revert H0 K1. generalize (raaval * chan p c) (chan p 24 * raaval). intros. divlia. }
  apply pre_argb; [|apply K; [lia|constructor]..]. unfold byte. apply div255_between; nia.
Qed.

(** The blend of sub-pixel text leaves an opaque pixel, whatever it was before. *)
Definition gamma_table (t : list Z) : Prop := length t = 256%nat /\ Forall byte t.
Lemma gamma_read t i : gamma_table t -> byte i -> exists v, rd t i = Done v /\ byte v.
Proof.
  intros [L F] H. unfold byte in H. unfold rd. destruct (Z.leb_spec 0 i); [|lia].
  destruct (lookup_lt_is_Some_2 t (Z.to_nat i)) as [v E]; [lia|]. rewrite E. exists v. split; [reflexivity|].
  exact (Forall_lookup_1 _ _ _ _ F E).
Qed.
Lemma lcd_opaque gammaArray invGammaArray ared agreen ablue r g b : gamma_table gammaArray -> gamma_table invGammaArray ->
  byte ared -> byte agreen -> byte ablue -> byte r -> byte g -> byte b ->
  exists v, blendLCDSrcOver8888_pre gammaArray invGammaArray ared agreen ablue r g b p = Done v /\ pre v /\ chan v 24 = 255.
Proof using.
  intros G I Ar Ag Ab Br Bg Bb. unfold blendLCDSrcOver8888_pre.
  assert (M : forall a s d, byte a -> byte s -> byte d -> byte (div255 (a * s + (255 - a) * d))) by (unfold byte; intros; apply div255_between; nia).
  destruct (gamma_read _ _ I (chan_byte p 16)) as (dr & -> & Dr), (gamma_read _ _ I (chan_byte p 8)) as (dg & -> & Dg),
    (gamma_read _ _ I (chan_byte p 0)) as (db & -> & Db). cbn [ub_bind].
  destruct (gamma_read _ _ G (M ared r dr Ar Br Dr)) as (vr & -> & Vr), (gamma_read _ _ G (M agreen g dg Ag Bg Dg)) as (vg & -> & Vg),
    (gamma_read _ _ G (M ablue b db Ab Bb Db)) as (vb & -> & Vb). cbn [ub_bind].
  assert (B : byte 255) by (unfold byte; lia). eexists. split; [reflexivity|].
  split; [exact (pre_argb 255 vr vg vb B Vr Vg Vb)|exact (proj1 (argb_chans 255 vr vg vb B Vr Vg Vb))].
Qed.
End Blends.

(** C27: Every blend function keeps the surface premultiplied: over with a plain
    colour of any coverage, over with a premultiplied one under any fraction;
    source with a plain or a premultiplied colour, as long as the weights of
    colour and destination are together at most a whole and the premultiplied
    colour is scaled with its weight ([PiscesBlit] has the callers that break this); and the blend of sub-pixel text, with tables of 256
    bytes, leaves an opaque pixel. *)
Theorem blends_keep_premultiplied p : pre p ->
  (forall aval r g b, byte aval -> byte r -> byte g -> byte b -> pre (blendSrcOver8888_pre aval r g b p)) /\
  (forall frac aval r g b, 0 <= frac <= 256 -> byte aval -> 0 <= r <= aval -> 0 <= g <= aval -> 0 <= b <= aval ->
    pre (blendSrcOver8888_pre_pre frac aval r g b p) /\ pre (blendSrcOver8888_pre_pre_fullFrac aval r g b p)) /\
  (forall aval raaval r g b, 0 <= aval -> 0 <= raaval -> aval + raaval <= 255 -> byte r -> byte g -> byte b ->
    pre (blendSrc8888_pre aval raaval r g b p)) /\
  (forall aval raaval r g b, 0 <= aval -> 0 <= raaval -> aval + raaval <= 255 -> 0 <= r <= aval -> 0 <= g <= aval -> 0 <= b <= aval ->
    pre (blendSrc8888_pre_pre aval raaval r g b p)) /\
  (forall gammaArray invGammaArray ared agreen ablue r g b, gamma_table gammaArray -> gamma_table invGammaArray ->
    byte ared -> byte agreen -> byte ablue -> byte r -> byte g -> byte b ->
    exists v, blendLCDSrcOver8888_pre gammaArray invGammaArray ared agreen ablue r g b p = Done v /\ pre v /\ chan v 24 = 255).
Proof.
  intros Hp. split; [|split; [|split; [|split]]]; intros.
  - apply over_pre; assumption.
  - split; [apply over_pre_pre|apply over_full_pre]; assumption.
  - apply src_pre; assumption.
  - apply src_pre_pre; assumption.
  - apply lcd_opaque; assumption.
Qed.

(** Over, channel by channel: the mixture of the two colours, rounded down. *)
Lemma over_channels aval r g b p : byte aval -> byte r -> byte g -> byte b ->
  let q := blendSrcOver8888_pre aval r g b p in
  let mixed s n := (s * aval + (255 - aval) * chan p n) / 255 in
  chan q 24 = mixed 255 24 /\ chan q 16 = mixed r 16 /\ chan q 8 = mixed g 8 /\ chan q 0 = mixed b 0.
Proof.
  intros Ha Hr Hg Hb q mixed. unfold byte in *.
  assert (forall s n, 0 <= s <= 255 -> div255 (s * aval + (255 - aval) * chan p n) = mixed s n /\ 0 <= mixed s n <= 255) as K.
  { intros s n Hs. pose proof (chan_byte p n) as C. unfold byte in C. pose proof (mix_bounds s aval (chan p n) Hs Ha C).
    unfold mixed. rewrite div255_floor by lia. split; [reflexivity|divlia]. }
  subst q. unfold blendSrcOver8888_pre. cbv zeta.
  destruct (K 255 24), (K r 16 Hr), (K g 8 Hg), (K b 0 Hb); try lia.
  destruct (argb_chans (div255 (255 * aval + (255 - aval) * chan p 24)) (div255 (r * aval + (255 - aval) * chan p 16))
    (div255 (g * aval + (255 - aval) * chan p 8)) (div255 (b * aval + (255 - aval) * chan p 0))) as (E1 & E2 & E3 & E4); unfold byte; try lia.
Qed.

(** An opaque colour replaces what is there. *)
Lemma over_opaque r g b p : byte r -> byte g -> byte b -> blendSrcOver8888_pre 255 r g b p = argb 255 r g b.
Proof.
  unfold byte. intros Hr Hg Hb. unfold blendSrcOver8888_pre. cbv zeta. rewrite !Z.sub_diag, !Z.mul_0_l, !Z.add_0_r.
  rewrite !div255_floor by lia. rewrite !Z.div_mul by lia. reflexivity.
Qed.

(** ** Interpolation *)

Lemma interp_eq x0 x1 f : interp x0 x1 f = (x0 * (65536 - f) + x1 * f + 32768) / 65536.
Proof. unfold interp. rewrite Z.shiftr_div_pow2, Z.shiftl_mul_pow2 by lia. f_equal. change (2 ^ 16) with 65536. lia. Qed.
Lemma interp_between x0 x1 f lo hi : 0 <= f <= 65536 -> lo <= x0 <= hi -> lo <= x1 <= hi -> lo <= interp x0 x1 f <= hi.
Proof. intros Hf H0 H1. rewrite interp_eq. assert (lo * 65536 <= x0 * (65536 - f) + x1 * f <= hi * 65536) by nia. divlia. Qed.
Lemma interp_mono x0 x1 y0 y1 f : 0 <= f <= 65536 -> x0 <= y0 -> x1 <= y1 -> interp x0 x1 f <= interp y0 y1 f.
Proof. intros Hf H0 H1. rewrite !interp_eq. apply Z.div_le_mono; [lia|]. nia. Qed.
Lemma interp_byte x0 x1 f : 0 <= f <= 65536 -> byte x0 -> byte x1 -> byte (interp x0 x1 f).
Proof. intros Hf H0 H1. apply interp_between; assumption. Qed.

Definition fraction (f : Z) : Prop := 0 <= f <= 0xffff.
Lemma fraction_65536 f : fraction f -> 0 <= f <= 65536.
Proof. unfold fraction. lia. Qed.

(** A colour channel and the alpha, interpolated alike. *)
Lemma interp_under x0 x1 a0 a1 f : 0 <= f <= 65536 -> 0 <= x0 <= a0 -> 0 <= x1 <= a1 -> 0 <= interp x0 x1 f <= interp a0 a1 f.
Proof. intros Hf H0 H1. split; [|apply interp_mono; lia]. apply (interp_between x0 x1 f 0 (Z.max x0 x1)); lia. Qed.
Lemma pre_chan p c : pre p -> channel c -> 0 <= chan p c <= chan p 24.
Proof. intros H C. split; [apply chan_byte|apply H, C]. Qed.

Lemma interpolate2_pre p0 p1 f : fraction f -> pre p0 -> pre p1 -> pre (interpolate2points p0 p1 f).
Proof.
  intros Hf%fraction_65536 H0 H1. unfold interpolate2points. cbv zeta.
  apply pre_argb; [apply interp_byte; auto using chan_byte|..]; apply interp_under; auto using pre_chan, red, green, blue.
Qed.
Lemma interpolate4_pre p00 p01 p10 p11 hf vf : fraction hf -> fraction vf -> pre p00 -> pre p01 -> pre p10 -> pre p11 ->
  pre (interpolate4points p00 p01 p10 p11 hf vf).
Proof.
  intros Hh%fraction_65536 Hv%fraction_65536 H0 H1 H2 H3. unfold interpolate4points. cbv zeta.
  apply pre_argb; [auto using interp_byte, chan_byte|..];
    (apply interp_under; [exact Hv|apply interp_under..]; auto using pre_chan, red, green, blue).
Qed.
Lemma pre_opaque r g b : byte r -> byte g -> byte b -> pre (argb 255 r g b).
Proof. unfold byte. intros. apply pre_argb; unfold byte; lia. Qed.
Lemma interpolate2_opaque p0 p1 f : fraction f -> pre (interpolate2pointsNoAlpha p0 p1 f).
Proof. intros Hf%fraction_65536. apply pre_opaque; apply interp_byte; auto using chan_byte. Qed.
Lemma interpolate4_opaque p00 p01 p10 p11 hf vf : fraction hf -> fraction vf -> pre (interpolate4pointsNoAlpha p00 p01 p10 p11 hf vf).
Proof.
  intros Hh%fraction_65536 Hv%fraction_65536. apply pre_opaque; auto 10 using interp_byte, chan_byte.
Qed.

(** ** Cycles *)

(** A gradient's position: held at the ends, repeated, or reflected. *)
Definition cycled (i m : Z) : Z :=
  if m =? CYCLE_NONE then Z.max 0 (Z.min i 65535)
  else if m =? CYCLE_REPEAT then i mod 65536
  else let r := Z.abs i mod 131072 in Z.min r (131071 - r).
Lemma pad_cycled i m : INT_MIN < i <= INT_MAX -> 0 <= m <= 2 -> pad i m = cycled i m.
Proof.
  unfold INT_MIN, INT_MAX. intros Hi Hm. unfold pad, cycled, CYCLE_NONE, CYCLE_REPEAT, CYCLE_REFLECT.
  change 0xffff with (Z.ones 16). change 0x1ffff with (Z.ones 17). rewrite !Z.land_ones by lia.
  change (Z.ones 16) with 65535. change (Z.ones 17) with 131071. change (2 ^ 16) with 65536. change (2 ^ 17) with 131072.
  assert (m = 0 \/ m = 1 \/ m = 2) as [->|[->| ->]] by lia; cbn [Z.eqb Pos.eqb].
  - rewrite Z.gtb_ltb. destruct (Z.ltb_spec i 0), (Z.ltb_spec 65535 i); lia.
  - reflexivity.
  - assert ((if i <? 0 then s32 (- i) else i) = Z.abs i) as -> by (destruct (Z.ltb_spec i 0); [rewrite s32_id|]; lia).
    pose proof (Z.mod_pos_bound (Z.abs i) 131072). rewrite Z.gtb_ltb. destruct (Z.ltb_spec 65535 (Z.abs i mod 131072)); lia.
Qed.
Lemma cycled_range i m : 0 <= cycled i m <= 65535.
Proof.
  unfold cycled. destruct (m =? _); [lia|]. destruct (m =? _); [pose proof (Z.mod_pos_bound i 65536); lia|].
  pose proof (Z.mod_pos_bound (Z.abs i) 131072). cbv zeta. lia.
Qed.
Lemma pad_range i m : INT_MIN <= i <= INT_MAX -> 0 <= m <= 2 -> 0 <= pad i m <= 65535.
Proof.
  intros Hi Hm. destruct (Z.eq_dec i INT_MIN) as [->|N]; [|rewrite pad_cycled by lia; apply cycled_range].
  assert (m = 0 \/ m = 1 \/ m = 2) as [->|[->| ->]] by lia; vm_compute; split; discriminate.
Qed.

(** ** A pixel and its channels *)

Definition is_pixel (p : Z) : Prop := INT_MIN <= p <= INT_MAX.
Lemma argb_of_chans p : is_pixel p -> argb (chan p 24) (chan p 16) (chan p 8) (chan p 0) = p.
Proof.
  unfold is_pixel, INT_MIN, INT_MAX. intros H. rewrite argb_pack by apply chan_byte. unfold pack. rewrite !chan_spec by lia.
  change (2 ^ 24) with 16777216. change (2 ^ 16) with 65536. change (2 ^ 8) with 256. change (2 ^ 0) with 1. rewrite Z.div_1_r.
  replace (_ + _) with (p mod 4294967296) by divlia.
  unfold s32. change (two_p32 / 2) with 2147483648. change two_p32 with 4294967296. divlia.
Qed.
Lemma s32_is_pixel z : is_pixel (s32 z).
Proof. unfold is_pixel, s32, INT_MIN, INT_MAX. change (two_p32 / 2) with 2147483648. change two_p32 with 4294967296. pose proof (Z.mod_pos_bound (z + 2147483648) 4294967296). lia. Qed.
Lemma argb_is_pixel a r g b : byte a -> byte r -> byte g -> byte b -> is_pixel (argb a r g b).
Proof. intros. rewrite argb_pack by assumption. apply s32_is_pixel. Qed.

(** The shortcuts of full coverage agree with the general mixture. *)
Lemma full_fraction_eq cval p : blendSrcOver8888_pre_pre 256 (chan cval 24) (chan cval 16) (chan cval 8) (chan cval 0) p =
  blendSrcOver8888_pre_pre_fullFrac (chan cval 24) (chan cval 16) (chan cval 8) (chan cval 0) p.
Proof.
  assert (forall v, Z.shiftr (v * 256) 8 = v) as E by (intros; rewrite Z.shiftr_div_pow2 by lia; change (2 ^ 8) with 256; apply Z.div_mul; lia).
  unfold blendSrcOver8888_pre_pre, blendSrcOver8888_pre_pre_fullFrac. cbv zeta. rewrite !E. reflexivity.
Qed.
Lemma div255_255 c : byte c -> div255 (255 * c) = c.
Proof. unfold byte. intros H. rewrite div255_floor by lia. rewrite Z.mul_comm. apply Z.div_mul. lia. Qed.
Lemma full_transparent cval p : pre cval -> chan cval 24 = 0 -> is_pixel p ->
  blendSrcOver8888_pre_pre_fullFrac (chan cval 24) (chan cval 16) (chan cval 8) (chan cval 0) p = p.
Proof.
  intros Hp E0 J. assert (forall c, channel c -> chan cval c = 0) as Z0.
  { intros c Hc. pose proof (Hp c Hc). pose proof (chan_byte cval c) as B. unfold byte in B. lia. }
  unfold blendSrcOver8888_pre_pre_fullFrac. cbv zeta. rewrite !Z0 by constructor. rewrite Z.sub_0_r, !div255_255 by apply chan_byte. rewrite !Z.add_0_l.
  apply argb_of_chans, J.
Qed.
Lemma full_opaque cval p : chan cval 24 = 255 -> is_pixel cval ->
  blendSrcOver8888_pre_pre_fullFrac (chan cval 24) (chan cval 16) (chan cval 8) (chan cval 0) p = cval.
Proof.
  intros E J. unfold blendSrcOver8888_pre_pre_fullFrac. cbv zeta. rewrite E, Z.sub_diag, !Z.mul_0_l. change (div255 0) with 0. rewrite !Z.add_0_r.
  rewrite <- E. apply argb_of_chans, J.
Qed.

(** The theorem on the blends, at a pixel. *)
Lemma blends_keep_premultiplied_witness : let p := argb 128 64 32 16 in
  pre (blendSrcOver8888_pre 128 255 0 0 p) /\ pre (blendSrcOver8888_pre_pre 200 128 128 0 0 p).
Proof.
  intros p. assert (pre p) as Hp by (apply pre_argb; unfold byte; lia). destruct (blends_keep_premultiplied p Hp) as (O & P & _).
  assert (byte 128 /\ byte 255 /\ byte 0) as (B1 & B2 & B3) by (unfold byte; lia).
  split; [exact (O 128 255 0 0 B1 B2 B3 B3)|]. destruct (P 200 128 128 0 0) as [Q _]; [lia|exact B1|lia|lia|lia|exact Q].
Defined.
