(* ===== verification/PiscesRdr.v ===== *)
(** * The software renderer's state and rows ([PiscesRenderer.h])

    The renderer keeps what Java has set (colours, composite rule, mask, clip),
    a copy of the surface's layout, the routines chosen for these, and the
    rectangle being drawn.  The arrays its pointers refer to are apart.  The row
    functions of [PiscesBlit.c] all walk along rows of the surface and update one
    pixel after the other; the walk and what it paints are stated once. *)

From S2P Require Import Prelude CFloat Float32 DecoraApi Argb Painted PiscesPixel.
Local Open Scope Z_scope.
Local Open Scope ub_scope.

(** ** The renderer *)

Definition COMPOSITE_CLEAR : Z := 0.
Definition COMPOSITE_SRC : Z := 1.
Definition COMPOSITE_SRC_OVER : Z := 2.
Definition TYPE_INT_ARGB_PRE : Z := 1.
Definition MAX_ALPHA : Z := 255.
Definition NO_MASK : Z := 0.
Definition ALPHA_MASK : Z := 1.
Definition LCD_ALPHA_MASK : Z := 2.
Definition PAINT_FLAT_COLOR : Z := 0.
Definition PAINT_LINEAR_GRADIENT : Z := 1.
Definition PAINT_RADIAL_GRADIENT : Z := 2.
Definition PAINT_TEXTURE8888 : Z := 4.
Definition PAINT_TEXTURE8888_MULTIPLY : Z := 5.

Record colour := mkColour { c_red : Z; c_green : Z; c_blue : Z; c_alpha : Z }.
#[export] Instance colour_eq_dec : EqDecision colour.
Proof. solve_decision. Defined.
Record surface := mkSurface { s_width : Z; s_height : Z; s_offset : Z; s_scanlineStride : Z; s_pixelStride : Z; s_imageType : Z }.

(** The routines the function pointers can refer to; [None] is [NULL]. *)
Inductive blit :=
| BlitSrcOver8888_pre | BlitPTSrcOver8888_pre | BlitSrc8888_pre | BlitPTSrc8888_pre
| BlitSrcOverMask8888_pre | BlitPTSrcOverMask8888_pre | BlitSrcMask8888_pre | BlitPTSrcMask8888_pre
| BlitSrcOverLCDMask8888_pre.
Inductive emit := EmitLineSource8888_pre | EmitLineSourceOver8888_pre | EmitLinePTSource8888_pre | EmitLinePTSourceOver8888_pre.
Inductive paint_generator := GenLinearGradientPaint | GenRadialGradientPaint | GenTexturePaint | GenTexturePaintMultiply.
#[export] Instance blit_eq_dec : EqDecision blit.
Proof. solve_decision. Defined.
#[export] Instance emit_eq_dec : EqDecision emit.
Proof. solve_decision. Defined.

(** Four routines for one kind of mask: over and source, with the colour and
    with the paint. *)
Record blits := mkBlits { SourceOver : option blit; PT_SourceOver : option blit; Source : option blit; PT_Source : option blit }.
Record routines := mkRoutines {
  NoMask : blits; Mask : blits; LCDMask : blits;                      (* chosen by the surface *)
  _bl_Clear : option blit; _bl_PT_Clear : option blit; _clearRect : bool;
  _el_Source : option emit; _el_SourceOver : option emit; _el_PT_Source : option emit; _el_PT_SourceOver : option emit;
  _bl_mask : blits;                                                   (* by the mask *)
  _bl : option blit; _bl_PT : option blit; _el : option emit; _el_PT : option emit;   (* by the composite rule *)
  _emitRows : option blit; _emitLine : option emit; _genPaint : option paint_generator (* by the paint *) }.
#[export] Instance eta_routines : Eta routines :=
  eta_ap (eta_ap (eta_ap (eta_ap (eta_ap (eta_ap (eta_ap (eta_ap (eta_ap (eta_ap (eta_ap (eta_ap (eta_ap (eta_ap (eta_ap (eta_ap (eta_ap (eta_ap
    (eta_pure mkRoutines) NoMask) Mask) LCDMask) _bl_Clear) _bl_PT_Clear) _clearRect) _el_Source) _el_SourceOver) _el_PT_Source) _el_PT_SourceOver)
    _bl_mask) _bl) _bl_PT) _el) _el_PT) _emitRows) _emitLine) _genPaint.
Definition no_blits : blits := mkBlits None None None None.
Definition no_routines : routines := mkRoutines no_blits no_blits no_blits None None false None None None None no_blits None None None None None None None.

(** The rectangle being drawn. *)
Record window := mkWindow {
  _minTouched : Z; _maxTouched : Z; _currX : Z; _currY : Z; _currImageOffset : Z; _alphaWidth : Z;
  _el_lfrac : Z; _el_rfrac : Z; _maskOffset : Z; _rowAAInt : Z (* offset in the row of deltas *) }.
#[export] Instance eta_window : Eta window :=
  eta_ap (eta_ap (eta_ap (eta_ap (eta_ap (eta_ap (eta_ap (eta_ap (eta_ap (eta_ap (eta_pure mkWindow)
    _minTouched) _maxTouched) _currX) _currY) _currImageOffset) _alphaWidth) _el_lfrac) _el_rfrac) _maskOffset) _rowAAInt.

Record clip := mkClip { _clip_bbMinX : Z; _clip_bbMinY : Z; _clip_bbMaxX : Z; _clip_bbMaxY : Z }.

Record renderer := mkRenderer {
  _paintMode : Z; _prevPaintMode : Z; _compositeRule : Z; _maskType : Z;
  _u : colour;          (* _ured, _ugreen, _ublue, _ualpha *)
  _c : colour;          (* _cred, _cgreen, _cblue, _calpha *)
  _surface : surface;
  _image : surface;     (* _width, _height, _imageOffset and so on *)
  _routines : routines; _window : window; _clip : clip; _rendererState : Z }.
#[export] Instance eta_renderer : Eta renderer :=
  eta_ap (eta_ap (eta_ap (eta_ap (eta_ap (eta_ap (eta_ap (eta_ap (eta_ap (eta_ap (eta_ap (eta_ap (eta_pure mkRenderer)
    _paintMode) _prevPaintMode) _compositeRule) _maskType) _u) _c) _surface) _image) _routines) _window) _clip) _rendererState.

Definition _imageScanlineStride (rdr : renderer) : Z := s_scanlineStride (_image rdr).
Definition _imagePixelStride (rdr : renderer) : Z := s_pixelStride (_image rdr).

(** What the pointers refer to: the surface's pixels, the paint buffer, the
    mask, the map from coverage to alpha, and the row of coverage deltas. *)
Record arrays := mkArrays { intData : list Z; _paint : list Z; _mask_byteData : list Z; alphaMap : list Z; rowAA : list Z }.
#[export] Instance eta_arrays : Eta arrays :=
  eta_ap (eta_ap (eta_ap (eta_ap (eta_ap (eta_pure mkArrays) intData) _paint) _mask_byteData) alphaMap) rowAA.

(** ** Walking along the rows *)

(** What happens to a pixel. *)
Inductive update := Keep | Store (p : Z) | Blend (f : Z -> Z).
Definition put (d : list Z) (i : Z) (u : update) : ub (list Z) :=
  match u with
  | Keep => Done d
  | Store p => wr d i p
  | Blend f => do* old := rd d i in wr d i (f old)
  end.

(** The number of rounds of [while (a < am) { ... a += stride }], [am - a] being
    [w]; the pixel stride of every surface is positive. *)
Definition rounds (w stride : Z) : Z := (w + stride - 1) / stride.

(** One pixel: the pointer [a] and the index [aidx] of the paint move on. *)
Definition emit_pixel (ps : Z) (u : Z -> ub update) (st : Z * Z * list Z) : ub (Z * Z * list Z) :=
  let '(a, aidx, d) := st in
  do* u := u aidx in
  do* d := put d a u in
  Done (a + ps, aidx + 1, d).
Definition emit_edge (ps : Z) (u : option (Z -> ub update)) (st : Z * Z * list Z) : ub (Z * Z * list Z) :=
  match u with Some u => emit_pixel ps u st | None => Done st end.
(** A row of an [emitLine] function: the left edge, [w] pixels, the right edge. *)
Definition emit_row (ps w : Z) (left : option (Z -> ub update)) (middle : Z -> ub update) (right : option (Z -> ub update)) (a aidx : Z) (d : list Z) : ub (list Z) :=
  do* st := emit_edge ps left (a, aidx, d) in
  do* st := for_to (rounds w ps) (fun _ st => emit_pixel ps middle st) st in
  do* '(_, _, d) := emit_edge ps right st in
  Done d.
(** Its rows. *)
Definition emit_rows (rdr : renderer) (height : Z) (row : Z -> Z -> list Z -> ub (list Z)) (d : list Z) : ub (list Z) :=
  let win := _window rdr in
  do* '(_, _, d) := for_to height (fun _ '(imageOffset, paint_offset, d) =>
      do* d := row (imageOffset + _minTouched win * _imagePixelStride rdr) paint_offset d in
      Done (imageOffset + _imageScanlineStride rdr, paint_offset + _alphaWidth win, d))
    (_currImageOffset win, 0, d) in
  Done d.
(** A row of a [blit] function: [w] pixels whose updates are numbered. *)
Definition blit_pixel (ps : Z) (u : Z -> ub update) (k : Z) (st : Z * list Z) : ub (Z * list Z) :=
  let '(iidx, d) := st in
  do* u := u k in
  do* d := put d iidx u in
  Done (iidx + ps, d).
Definition blit_row (ps w : Z) (u : Z -> ub update) (iidx : Z) (d : list Z) : ub (list Z) :=
  do* '(_, d) := for_to w (blit_pixel ps u) (iidx, d) in Done d.

(** ** What a walk paints *)

Definition value_of (u : update) (old : Z) : Z :=
  match u with Keep => old | Store p => p | Blend f => f old end.

Lemma painted_old ix w h (D : Z -> Z -> Prop) f dst d x y : raster ix w h (Z.of_nat (length dst)) -> (forall x y, D x y -> in_image w h x y) ->
  in_image w h x y -> ~ D x y -> painted D ix f dst d -> rd d (ix x y) = Done (pixel dst (ix x y)).
Proof.
  intros [R1 R2] HD Hxy N (L & _ & O). destruct (R1 x y Hxy) as [B1 B2].
  assert (rd dst (ix x y) = Done (pixel dst (ix x y))) as E by (apply rd_pixel; lia).
  revert E. unfold rd. rewrite O; [auto|]. intros x' y' D' E. apply N.
  destruct (R1 x' y' (HD _ _ D')). destruct (R2 x' y' x y) as [-> ->]; auto. lia.
Qed.

Lemma put_paints ix w h (D : Z -> Z -> Prop) f dst d x y u : raster ix w h (Z.of_nat (length dst)) -> (forall x y, D x y -> in_image w h x y) ->
  in_image w h x y -> ~ D x y -> f x y = value_of u (pixel dst (ix x y)) -> painted D ix f dst d ->
  yields (put d (ix x y) u) (painted (fun x' y' => D x' y' \/ (x' = x /\ y' = y)) ix f dst).
Proof.
  intros R HD Hxy N V P. pose proof (painted_old _ _ _ _ _ _ _ _ _ R HD Hxy N P) as O.
  destruct u as [|p|g]; cbn [put value_of] in *.
  - apply yields_done. destruct P as (L & P1 & P2). split; [exact L|]. split.
    + intros x' y' [K|[-> ->]]; [apply P1, K|]. rewrite V. unfold rd in O. destruct (0 <=? _); [|discriminate].
      destruct (d !! _); congruence.
    + intros i Hi. apply P2. intros. apply Hi. auto.
  - rewrite <- V. eapply painted_step; eassumption.
  - rewrite O. cbn [ub_bind]. rewrite <- V. eapply painted_step; eassumption.
Qed.

(** Pixel [(x, y)] of the rectangle: [scan] pixels from row to row. *)
Definition at_row (base scan x y : Z) : Z := base + y * scan + x.

Lemma at_row_raster base scan w h len : 0 <= base -> w <= scan -> base + (h - 1) * scan + w <= len -> raster (at_row base scan) w h len.
Proof.
  intros Hb Hw Hl. unfold raster, at_row, in_image. split.
  - intros x y [Hx Hy]. assert (y * scan <= (h - 1) * scan) by nia. nia.
  - intros x y x' y' [Hx Hy] [Hx' Hy'] E. assert (y = y') as -> by nia. lia.
Qed.

Section Rows.
Variables (base scan W H : Z) (dst : list Z) (upd : Z -> Z -> update).
Hypothesis (HR : raster (at_row base scan) W H (Z.of_nat (length dst))) (HW : 0 < W).
Let ix := at_row base scan.
(** The rectangle as it is left. *)
Definition updated (x y : Z) : Z := value_of (upd x y) (pixel dst (at_row base scan x y)).
Let done_before (y x : Z) (d : list Z) : Prop := painted (rows_before W y x) ix updated dst d.

Lemma put_row y x d : 0 <= y < H -> 0 <= x < W -> done_before y x d -> yields (put d (ix x y) (upd x y)) (done_before y (x + 1)).
Proof using HR.
  intros Hy Hx P. eapply yields_mono; [eapply (put_paints ix W H); [exact HR| | | | |exact P]|].
  - intros x' y'. apply rows_inside; lia.
  - split; lia.
  - unfold rows_before. lia.
  - reflexivity.
  - intros d' P'. eapply painted_ext; [|exact P']. intros. apply rows_pixel. lia.
Qed.

(** *** The [emitLine] functions *)

Definition emitted (y x : Z) (st : Z * Z * list Z) : Prop :=
  let '(a, aidx, d) := st in a = ix x y /\ aidx = y * W + x /\ done_before y x d.

Lemma emit_pixel_rule u y x st : 0 <= y < H -> 0 <= x < W -> u (y * W + x) = Done (upd x y) -> emitted y x st ->
  yields (emit_pixel 1 u st) (emitted y (x + 1)).
Proof using HR.
  intros Hy Hx U. destruct st as [[a aidx] d]. intros (-> & -> & P). cbn [emit_pixel]. rewrite U. cbn [ub_bind].
  eapply yields_bind; [apply put_row; eassumption|]. intros d' P'. apply yields_done. cbn. split; [unfold ix, at_row; lia|]. split; [lia|exact P'].
Qed.

(** Which of the three updates a row's pixel gets. *)
Definition row_update (left right : option (Z -> ub update)) (middle : Z -> ub update) (x : Z) : Z -> ub update :=
  match left, right with
  | Some u, _ => if x =? 0 then u else match right with Some u => if x =? W - 1 then u else middle | None => middle end
  | None, Some u => if x =? W - 1 then u else middle
  | None, None => middle
  end.
Definition edges (left right : option (Z -> ub update)) : Z :=
  (match left with Some _ => 1 | None => 0 end) + (match right with Some _ => 1 | None => 0 end).

Lemma emit_row_rule left right middle y d : 0 <= y < H -> edges left right <= W ->
  (forall x, 0 <= x < W -> row_update left right middle x (y * W + x) = Done (upd x y)) -> done_before y 0 d ->
  yields (emit_row 1 (W - edges left right) left middle right (ix 0 y) (y * W) d) (done_before y W).
Proof using HR HW.
  intros Hy He U P. unfold emit_row. set (l := match left with Some _ => 1 | None => 0 end). set (r := match right with Some _ => 1 | None => 0 end).
  assert (E : edges left right = l + r) by reflexivity. rewrite E in *.
  assert (0 <= l <= 1 /\ 0 <= r <= 1) as [Hl Hr] by (subst l r; destruct left, right; lia).
  eapply (yields_bind _ _ (emitted y l)).
  { assert (emitted y 0 (ix 0 y, y * W, d)) as S0 by (cbn; split; [reflexivity|split; [lia|exact P]]).
    subst l. destruct left as [u|]; cbn [emit_edge]; [|apply yields_done; exact S0].
    change 1 with (0 + 1). apply (emit_pixel_rule u y 0); [exact Hy|lia| |exact S0]. specialize (U 0 ltac:(lia)). unfold row_update in U. cbn [Z.eqb] in U. exact U. }
  intros st S1. eapply (yields_bind _ _ (emitted y (W - r))).
  { unfold rounds. rewrite Z.div_1_r. replace (W - (l + r) + 1 - 1) with (W - (l + r)) by lia.
    replace (W - r) with (l + (W - (l + r))) by lia.
    apply (for_to_yields (fun i => emitted y (l + i))); [lia| |rewrite Z.add_0_r; exact S1].
    intros i st' Hi S2. replace (l + (i + 1)) with (l + i + 1) by lia. apply emit_pixel_rule; [exact Hy|lia| |exact S2].
    rewrite <- U by lia. unfold row_update. subst l r.
    destruct left as [u|], right as [u'|]; try (destruct (Z.eqb_spec (1 + i) 0); [lia|]); try reflexivity;
      match goal with |- context [?x =? W - 1] => destruct (Z.eqb_spec x (W - 1)); [lia|reflexivity] end. }
  intros st2 S2. eapply (yields_bind _ _ (emitted y W)).
  { subst r. destruct right as [u|]; cbn [emit_edge]; [|apply yields_done; rewrite Z.sub_0_r in S2; exact S2].
    pose proof (emit_pixel_rule u y (W - 1) st2 Hy) as K. replace (W - 1 + 1) with W in K by lia. apply K; [lia| |exact S2].
    rewrite <- U by lia. unfold row_update. rewrite Z.eqb_refl. subst l. destruct left; [|reflexivity].
    destruct (Z.eqb_spec (W - 1) 0); [lia|reflexivity]. }
  intros [[a aidx] d'] (_ & _ & P'). apply yields_done. exact P'.
Qed.

(** *** The [blit] functions *)

Lemma blit_row_rule u y d : 0 <= y < H -> (forall x, 0 <= x < W -> u x = Done (upd x y)) -> done_before y 0 d ->
  yields (blit_row 1 W u (ix 0 y) d) (done_before y W).
Proof using HR HW.
  intros Hy U P. unfold blit_row. eapply (yields_bind _ _ (fun '(i, d) => done_before y W d)).
  - eapply yields_mono; [apply (for_to_yields (fun x '(i, d) => i = ix x y /\ done_before y x d)); [lia| |split; [reflexivity|exact P]]|].
    + intros x [i d'] Hx [-> P']. cbn [blit_pixel]. rewrite U by lia. cbn [ub_bind].
      eapply yields_bind; [apply put_row; eassumption|]. intros d2 P2. apply yields_done. split; [unfold ix, at_row; lia|exact P2].
    + intros [i d'] [_ P']. exact P'.
  - intros [i d'] P'. apply yields_done. exact P'.
Qed.

Lemma before_start d : d = dst -> done_before 0 0 d.
Proof using. intros ->. eapply painted_ext; [|apply painted_none]. intros. split; [tauto|apply rows_start]. Qed.
Lemma before_line y d : 0 <= y -> done_before y W d -> done_before (y + 1) 0 d.
Proof using. intros Hy. apply painted_ext. intros. apply rows_line, Hy. Qed.
Lemma before_end d : done_before H 0 d -> painted (in_image W H) ix updated dst d.
Proof using. apply painted_ext. intros. apply rows_end. Qed.
End Rows.

(** A renderer whose rectangle has [w] columns and starts at [(x, y)] of a
    surface of [width] columns; for the examples. *)
Definition sample_renderer (c : colour) (width height x y w lfrac rfrac : Z) : renderer :=
  let s := mkSurface width height 0 width 1 TYPE_INT_ARGB_PRE in
  mkRenderer PAINT_FLAT_COLOR PAINT_FLAT_COLOR COMPOSITE_SRC_OVER NO_MASK c c s s no_routines
    (mkWindow x (x + w - 1) x y (y * width) w lfrac rfrac 0 0) (mkClip 0 0 (width - 1) (height - 1)) 0.
