(* ===== verification/PiscesBlit.v ===== *)
(** * Drawing rows ([PiscesBlit.c])

    The [emitLine] functions draw rows of a rectangle whose left and right
    columns may be covered in part; the [blit] functions draw a row whose
    coverage comes from a mask or from a row of deltas.  Each exists for the
    colour and for a row of paint, and for the rules source and source-over. *)

From S2P Require Import Prelude CFloat Float32 DecoraApi Argb Painted PiscesPixel PiscesRdr.
Local Open Scope Z_scope.
Local Open Scope ub_scope.

(** ** [emitLine] *)

Definition flag (z : Z) : Z := if z =? 0 then 0 else 1.
(** [if (frac) { ... }] *)
Definition on (frac : Z) (u : Z -> ub update) : option (Z -> ub update) := if frac =? 0 then None else Some u.
Definition plain (u : update) (_ : Z) : ub update := Done u.
Definition from_paint (paint : list Z) (u : Z -> update) (aidx : Z) : ub update := do* cval := rd paint aidx in Done (u cval).
(** [(jint) (((jlong) f * frac) >> 16)] *)
Definition scaled_frac (f frac : Z) : Z := s32 (Z.shiftr (f * frac) 16).

Definition emitLineSource8888_pre (rdr : renderer) (height frac : Z) (d : list Z) : ub (list Z) :=
  let '(mkColour cred cgreen cblue calpha) := _c rdr in
  let lfrac := _el_lfrac (_window rdr) in
  let rfrac := _el_rfrac (_window rdr) in
  let w := _alphaWidth (_window rdr) - flag lfrac - flag rfrac in
  let blend f := plain (Blend (blendSrc8888_pre calpha (255 - Z.shiftr f 8) cred cgreen cblue)) in
  if frac =? 0x10000 then
    let pre_red := Z.shiftr ((calpha + 1) * cred) 8 in
    let pre_green := Z.shiftr ((calpha + 1) * cgreen) 8 in
    let pre_blue := Z.shiftr ((calpha + 1) * cblue) 8 in
    let pixel := argb calpha pre_red pre_green pre_blue in
    emit_rows rdr height (emit_row (_imagePixelStride rdr) w (on lfrac (blend lfrac)) (plain (Store pixel)) (on rfrac (blend rfrac))) d
  else
    let lfrac := scaled_frac lfrac frac in
    let rfrac := scaled_frac rfrac frac in
    emit_rows rdr height (emit_row (_imagePixelStride rdr) w (on lfrac (blend lfrac)) (blend frac) (on rfrac (blend rfrac))) d.

Definition emitLinePTSource8888_pre (rdr : renderer) (paint : list Z) (height frac : Z) (d : list Z) : ub (list Z) :=
  let lfrac := scaled_frac (_el_lfrac (_window rdr)) frac in
  let rfrac := scaled_frac (_el_rfrac (_window rdr)) frac in
  let w := _alphaWidth (_window rdr) - flag lfrac - flag rfrac in
  let blend f := from_paint paint (fun cval =>
    Blend (blendSrc8888_pre_pre (chan cval 24) (255 - Z.shiftr f 8) (chan cval 16) (chan cval 8) (chan cval 0))) in
  let middle := if frac =? 0x10000 then from_paint paint Store else blend frac in
  emit_rows rdr height (emit_row (_imagePixelStride rdr) w (on lfrac (blend lfrac)) middle (on rfrac (blend rfrac))) d.

Definition emitLineSourceOver8888_pre (rdr : renderer) (height frac : Z) (d : list Z) : ub (list Z) :=
  let '(mkColour cred cgreen cblue calpha) := _c rdr in
  let alpha := Z.shiftr (calpha * frac) 16 in
  let lfrac := _el_lfrac (_window rdr) in
  let rfrac := _el_rfrac (_window rdr) in
  let w := _alphaWidth (_window rdr) - flag lfrac - flag rfrac in
  let blend a := plain (Blend (blendSrcOver8888_pre a cred cgreen cblue)) in
  if alpha =? MAX_ALPHA then
    let solid_pixel := argb 255 cred cgreen cblue in
    emit_rows rdr height (emit_row (_imagePixelStride rdr) w (on lfrac (blend (Z.shiftr lfrac 8))) (plain (Store solid_pixel)) (on rfrac (blend (Z.shiftr rfrac 8)))) d
  else
    let lalpha := Z.shiftr (lfrac * alpha) 16 in
    let ralpha := Z.shiftr (rfrac * alpha) 16 in
    emit_rows rdr height (emit_row (_imagePixelStride rdr) w (on lfrac (blend lalpha)) (blend alpha) (on rfrac (blend ralpha))) d.

(** The pixels of full coverage. *)
Definition over_paint (cval : Z) : update :=
  let palpha := chan cval 24 in
  if palpha =? 0 then Keep
  else if palpha =? MAX_ALPHA then Store cval
  else Blend (blendSrcOver8888_pre_pre_fullFrac palpha (chan cval 16) (chan cval 8) (chan cval 0)).
Definition emitLinePTSourceOver8888_pre (rdr : renderer) (paint : list Z) (height frac : Z) (d : list Z) : ub (list Z) :=
  let lfrac := scaled_frac (_el_lfrac (_window rdr)) frac in
  let rfrac := scaled_frac (_el_rfrac (_window rdr)) frac in
  let w := _alphaWidth (_window rdr) - flag lfrac - flag rfrac in
  let blend f := from_paint paint (fun cval =>
    Blend (blendSrcOver8888_pre_pre (Z.shiftr f 8) (chan cval 24) (chan cval 16) (chan cval 8) (chan cval 0))) in
  let middle := if frac =? 0x10000 then from_paint paint over_paint else blend frac in
  emit_rows rdr height (emit_row (_imagePixelStride rdr) w (on lfrac (blend lfrac)) middle (on rfrac (blend rfrac))) d.

(** ** [blit] *)

Definition touched_width (rdr : renderer) : Z :=
  let win := _window rdr in if _maxTouched win >=? _minTouched win then _maxTouched win - _minTouched win + 1 else 0.

(** With a mask: [alpha] bytes of it for each pixel, [stride] from row to row. *)
Definition blit_mask (rdr : renderer) (alpha stride : Z) (u : Z -> Z -> ub update) (height : Z) (d : list Z) : ub (list Z) :=
  let win := _window rdr in
  do* '(_, _, d) := for_to height (fun _ '(imageOffset, alphaOffset, d) =>
      do* d := blit_row (_imagePixelStride rdr) (touched_width rdr) (fun k => u (alphaOffset + alpha * k) k)
                 (imageOffset + _minTouched win * _imagePixelStride rdr) d in
      Done (imageOffset + _imageScanlineStride rdr, alphaOffset + stride, d))
    (_currImageOffset win, _maskOffset win, d) in
  Done d.
(** With deltas: their running sum selects the coverage, and they are cleared. *)
Definition delta_pixel (rdr : renderer) (u : Z -> Z -> ub update) (k : Z) (st : Z * list Z * Z * list Z) : ub (Z * list Z * Z * list Z) :=
  let '(aval_relative, row, iidx, d) := st in
  let a := _rowAAInt (_window rdr) + k in
  do* delta := rd row a in
  let aval_relative := aval_relative + delta in
  do* row := wr row a 0 in
  do* u := u aval_relative k in
  do* d := put d iidx u in
  Done (aval_relative, row, iidx + _imagePixelStride rdr, d).
Definition blit_deltas (rdr : renderer) (u : Z -> Z -> ub update) (height : Z) (m : list Z * list Z) : ub (list Z * list Z) :=
  let win := _window rdr in
  do* '(_, row, d) := for_to height (fun _ '(imageOffset, row, d) =>
      do* '(_, row, _, d) := for_to (touched_width rdr) (delta_pixel rdr u)
                               (0, row, imageOffset + _minTouched win * _imagePixelStride rdr, d) in
      Done (imageOffset + _imageScanlineStride rdr, row, d))
    (_currImageOffset win, fst m, snd m) in
  Done (row, d).

(** The updates.  A coverage is a byte, [& 0xff]. *)
Definition src_colour (c : colour) (acoverage : Z) : update :=
  let '(mkColour cred cgreen cblue calpha) := c in
  if acoverage =? MAX_ALPHA then Store (argb calpha cred cgreen cblue)
  else if acoverage >? 0 then
    let aval := Z.shiftr ((acoverage + 1) * calpha) 8 in Blend (blendSrc8888_pre aval (255 - acoverage) cred cgreen cblue)
  else Keep.
Definition src_paint (cval acoverage : Z) : update :=
  if acoverage =? MAX_ALPHA then Store cval
  else if acoverage >? 0 then
    let aval := Z.shiftr ((acoverage + 1) * chan cval 24) 8 in
    Blend (blendSrc8888_pre_pre aval (255 - acoverage) (chan cval 16) (chan cval 8) (chan cval 0))
  else Keep.
Definition over_colour (c : colour) (aval : Z) : update :=
  let '(mkColour cred cgreen cblue calpha) := c in
  let aval := Z.shiftr ((aval + 1) * calpha) 8 in
  if aval =? MAX_ALPHA then Store (argb 255 cred cgreen cblue)
  else if aval >? 0 then Blend (blendSrcOver8888_pre aval cred cgreen cblue)
  else Keep.
Definition over_masked_paint (cval malpha : Z) : update :=
  let palpha := chan cval 24 in
  let aval := Z.shiftr ((malpha + 1) * palpha) 8 in
  if aval =? MAX_ALPHA then Store cval
  else if aval >? 0 then Blend (blendSrcOver8888_pre_pre (malpha + 1) palpha (chan cval 16) (chan cval 8) (chan cval 0))
  else Keep.

Definition mask_at (mask : list Z) (i : Z) : ub Z := do* v := rd mask i in Done (Z.land v 0xff).
(** A coverage of zero is skipped. *)
Definition unless_zero (v : Z) (u : ub update) : ub update := if v =? 0 then Done Keep else u.

Definition blitSrc8888_pre (rdr : renderer) (map : list Z) : Z -> list Z * list Z -> ub (list Z * list Z) :=
  blit_deltas rdr (fun rel _ => do* acoverage := mask_at map rel in Done (src_colour (_c rdr) acoverage)).
Definition blitPTSrc8888_pre (rdr : renderer) (map paint : list Z) : Z -> list Z * list Z -> ub (list Z * list Z) :=
  blit_deltas rdr (fun rel k =>
    do* cval := rd paint k in do* acoverage := mask_at map rel in Done (src_paint cval acoverage)).
Definition blitSrcOver8888_pre (rdr : renderer) (map : list Z) : Z -> list Z * list Z -> ub (list Z * list Z) :=
  blit_deltas rdr (fun rel _ =>
    unless_zero rel (do* aval := mask_at map rel in Done (over_colour (_c rdr) aval))).
Definition blitPTSrcOver8888_pre (rdr : renderer) (map paint : list Z) : Z -> list Z * list Z -> ub (list Z * list Z) :=
  blit_deltas rdr (fun rel k =>
    do* cval := rd paint k in
    unless_zero rel (do* malpha := mask_at map rel in Done (over_masked_paint cval malpha))).

Definition blitSrcMask8888_pre (rdr : renderer) (mask : list Z) : Z -> list Z -> ub (list Z) :=
  blit_mask rdr 1 (_alphaWidth (_window rdr)) (fun a _ => do* acoverage := mask_at mask a in Done (src_colour (_c rdr) acoverage)).
Definition blitPTSrcMask8888_pre (rdr : renderer) (mask paint : list Z) : Z -> list Z -> ub (list Z) :=
  blit_mask rdr 1 0 (fun a k =>
    do* cval := rd paint k in do* acoverage := mask_at mask a in Done (src_paint cval acoverage)).
Definition blitSrcOverMask8888_pre (rdr : renderer) (mask : list Z) : Z -> list Z -> ub (list Z) :=
  blit_mask rdr 1 (_alphaWidth (_window rdr)) (fun a _ =>
    do* v := rd mask a in unless_zero v (Done (over_colour (_c rdr) (Z.land v 0xff)))).
Definition blitPTSrcOverMask8888_pre (rdr : renderer) (mask paint : list Z) : Z -> list Z -> ub (list Z) :=
  blit_mask rdr 1 0 (fun a k =>
    do* v := rd mask a in
    unless_zero v (do* cval := rd paint k in Done (over_masked_paint cval (Z.land v 0xff)))).

(** Three bytes of mask for each pixel, and colours through the gamma tables:
    the blend computes its value in the memory, so it is a [Store] here. *)
Definition lcd_pixel (gammaArray invGammaArray : list Z) (c : colour) (ared agreen ablue ival : Z) : ub Z :=
  let '(mkColour cred cgreen cblue calpha) := c in
  let scale a := if calpha <? MAX_ALPHA then Z.shiftr ((a + 1) * calpha) 8 else a in
  let ared := scale ared in
  let agreen := scale agreen in
  let ablue := scale ablue in
  if Z.land (Z.land ared agreen) ablue =? MAX_ALPHA then Done (argb 255 cred cgreen cblue)
  else blendLCDSrcOver8888_pre gammaArray invGammaArray ared agreen ablue cred cgreen cblue ival.
Definition blitSrcOverLCDMask8888_pre (rdr : renderer) (gammaArray invGammaArray mask : list Z) (height : Z) (d : list Z) : ub (list Z) :=
  let win := _window rdr in
  let ps := _imagePixelStride rdr in
  do* calpha := rd invGammaArray (c_alpha (_c rdr)) in
  do* cred := rd invGammaArray (c_red (_c rdr)) in
  do* cgreen := rd invGammaArray (c_green (_c rdr)) in
  do* cblue := rd invGammaArray (c_blue (_c rdr)) in
  do* '(_, _, d) := for_to height (fun _ '(imageOffset, alphaOffset, d) =>
      do* '(_, d) := for_to (touched_width rdr) (fun k '(iidx, d) =>
          do* ared := mask_at mask (alphaOffset + 3 * k) in
          do* agreen := mask_at mask (alphaOffset + 3 * k + 1) in
          do* ablue := mask_at mask (alphaOffset + 3 * k + 2) in
          do* ival := rd d iidx in
          do* p := lcd_pixel gammaArray invGammaArray (mkColour cred cgreen cblue calpha) ared agreen ablue ival in
          do* d := wr d iidx p in
          Done (iidx + ps, d)) (imageOffset + _minTouched win * ps, d) in
      Done (imageOffset + _imageScanlineStride rdr, alphaOffset + _alphaWidth win, d))
    (_currImageOffset win, _maskOffset win, d) in
  Done d.

(** ** [clearRect8888_any] *)

Definition set_run (n : Z) (i v : Z) (d : list Z) : ub (list Z) := for_to n (fun k d => wr d (i + k) v) d.
Definition copy_run (n : Z) (to from : Z) (d : list Z) : ub (list Z) :=
  for_to n (fun k d => do* v := rd d (from + k) in wr d (to + k) v) d.

Definition clearRect8888_any (rdr : renderer) (x y w h : Z) (d : list Z) : ub (list Z) :=
  let '(mkColour cred cgreen cblue calpha) := _c rdr in
  let cval := argb calpha cred cgreen cblue in
  let scan := _imageScanlineStride rdr in
  let start := s_offset (_image rdr) + y * scan + x * _imagePixelStride rdr in
  if cval =? 0 then
    if (x =? 0) && (w =? s_width (_image rdr)) then set_run (w * h) start 0 d
    else for_to h (fun j d => set_run w (start + j * scan) 0 d) d
  else
    do* d := set_run w start cval d in
    for_to (h - 1) (fun j d => copy_run w (start + (j + 1) * scan) start d) d.

(** ** What the routines paint *)

(** The rectangle [_minTouched .. _maxTouched] by [height] rows is inside the
    array of the surface, and its rows do not overlap. *)
Definition base_of (rdr : renderer) : Z := _currImageOffset (_window rdr) + _minTouched (_window rdr).
Definition place (rdr : renderer) : Z -> Z -> Z := at_row (base_of rdr) (_imageScanlineStride rdr).
Record rect_ok (rdr : renderer) (height len : Z) : Prop := {
  ro_stride : _imagePixelStride rdr = 1;
  ro_width : 0 < _alphaWidth (_window rdr);
  ro_touched : _maxTouched (_window rdr) = _minTouched (_window rdr) + _alphaWidth (_window rdr) - 1;
  ro_height : 0 <= height;
  ro_raster : raster (place rdr) (_alphaWidth (_window rdr)) height len }.

(** A pixel of the drawn rectangle; the others are as they were. *)
Definition drawn (rdr : renderer) (height : Z) (f : Z -> Z -> Z -> Z) (dst d : list Z) : Prop :=
  painted (in_image (_alphaWidth (_window rdr)) height) (place rdr) (fun x y => f x y (pixel dst (place rdr x y))) dst d.

Lemma painted_values D ix f g dst d : (forall x y, D x y -> f x y = g x y) -> painted D ix f dst d -> painted D ix g dst d.
Proof. intros E (L & P & O). split; [exact L|]. split; [|exact O]. intros x y H. rewrite <- E by exact H. apply P, H. Qed.

Lemma on_edges lfrac rfrac u v : edges (on lfrac u) (on rfrac v) = flag lfrac + flag rfrac.
Proof. unfold edges, on, flag. destruct (lfrac =? 0), (rfrac =? 0); reflexivity. Qed.

Section Drawing.
Variables (rdr : renderer) (height : Z) (dst : list Z).
Hypothesis (OK : rect_ok rdr height (Z.of_nat (length dst))).
Abbreviation W := (_alphaWidth (_window rdr)).
Abbreviation win := (_window rdr).

Lemma emit_rule left right middle (upd : Z -> Z -> update) w : edges left right <= W -> w = W - edges left right ->
  (forall x y, 0 <= x < W -> 0 <= y < height -> row_update W left right middle x (y * W + x) = Done (upd x y)) ->
  yields (emit_rows rdr height (emit_row (_imagePixelStride rdr) w left middle right) dst) (drawn rdr height (fun x y => value_of (upd x y)) dst).
Proof using OK.
  intros He -> U. destruct OK as [S Wp _ Hh R]. rewrite S. unfold emit_rows. rewrite S.
  set (scan := _imageScanlineStride rdr). set (base := base_of rdr).
  set (before := fun y x d => painted (rows_before W y x) (at_row base scan) (updated base scan dst upd) dst d).
  eapply (yields_bind _ _ (fun '(_, _, d) => before height 0 d)).
  - eapply yields_mono; [apply (for_to_yields (fun y '(o, p, d) => o + _minTouched win = at_row base scan 0 y /\ p = y * W /\ before y 0 d))|].
    + exact Hh.
    + intros y [[o p] d] Hy (Ho & Hp & P). eapply (yields_bind _ _ (before y W)).
      * replace (o + _minTouched win * 1) with (at_row base scan 0 y) by lia. rewrite Hp.
        apply (emit_row_rule base scan W height dst upd R Wp); [exact Hy|exact He| |exact P]. intros x Hx. apply U; assumption.
      * intros d' P'. apply yields_done. split; [unfold at_row in *; lia|]. split; [lia|]. apply before_line; [lia|exact P'].
    + split; [unfold at_row, base, base_of; lia|]. split; [reflexivity|]. apply before_start. reflexivity.
    + intros [[o p] d] (_ & _ & P). exact P.
  - intros [[o p] d] P. apply yields_done. apply (before_end base scan W height dst upd). exact P.
Qed.

Lemma blit_mask_rule alpha stride u (upd : Z -> Z -> update) :
  (forall x y, 0 <= x < W -> 0 <= y < height -> u (_maskOffset win + stride * y + alpha * x) x = Done (upd x y)) ->
  yields (blit_mask rdr alpha stride u height dst) (drawn rdr height (fun x y => value_of (upd x y)) dst).
Proof using OK.
  intros U. destruct OK as [S Wp T Hh R]. unfold blit_mask.
  assert (touched_width rdr = W) as ->.
  { unfold touched_width. rewrite Z.geb_leb. destruct (Z.leb_spec (_minTouched win) (_maxTouched win)); lia. }
  rewrite S. set (scan := _imageScanlineStride rdr). set (base := base_of rdr).
  set (before := fun y x d => painted (rows_before W y x) (at_row base scan) (updated base scan dst upd) dst d).
  eapply (yields_bind _ _ (fun '(_, _, d) => before height 0 d)).
  - eapply yields_mono; [apply (for_to_yields (fun y '(o, m, d) => o + _minTouched win = at_row base scan 0 y /\ m = _maskOffset win + stride * y /\ before y 0 d))|].
    + exact Hh.
    + intros y [[o m] d] Hy (Ho & Hm & P). eapply (yields_bind _ _ (before y W)).
      * replace (o + _minTouched win * 1) with (at_row base scan 0 y) by lia. rewrite Hm.
        apply (blit_row_rule base scan W height dst upd R Wp); [exact Hy| |exact P]. intros x Hx. apply U; assumption.
      * intros d' P'. apply yields_done. split; [unfold at_row in *; lia|]. split; [lia|]. apply before_line; [lia|exact P'].
    + split; [unfold at_row, base, base_of; lia|]. split; [lia|]. apply before_start. reflexivity.
    + intros [[o m] d] (_ & _ & P). exact P.
  - intros [[o m] d] P. apply yields_done. apply (before_end base scan W height dst upd). exact P.
Qed.
End Drawing.

(** ** Rectangles of the colour *)

(** What a column gets: its edge, if that is covered in part. *)
Definition pick {A} (rdr : renderer) (lfrac rfrac : Z) (l r m : A) (x : Z) : A :=
  if (x =? 0) && negb (lfrac =? 0) then l else if (x =? _alphaWidth (_window rdr) - 1) && negb (rfrac =? 0) then r else m.

Lemma row_update_pick rdr lfrac rfrac u v m x :
  row_update (_alphaWidth (_window rdr)) (on lfrac u) (on rfrac v) m x = pick rdr lfrac rfrac u v m x.
Proof. unfold row_update, on, pick. destruct (lfrac =? 0), (rfrac =? 0), (x =? 0), (x =? _); reflexivity. Qed.
Lemma pick_apply {A B} (g : A -> B) rdr lfrac rfrac l r m x : g (pick rdr lfrac rfrac l r m x) = pick rdr lfrac rfrac (g l) (g r) (g m) x.
Proof. unfold pick. destruct (_ && _); [reflexivity|]. destruct (_ && _); reflexivity. Qed.
Lemma pick_ind {A} (P : A -> Prop) rdr lfrac rfrac l r m x : (lfrac <> 0 -> P l) -> (rfrac <> 0 -> P r) -> P m -> P (pick rdr lfrac rfrac l r m x).
Proof.
  intros Hl Hr Hm. unfold pick. destruct (Z.eqb_spec lfrac 0), (Z.eqb_spec rfrac 0); rewrite ?andb_true_r, ?andb_false_r;
    repeat match goal with |- context [if ?b then _ else _] => destruct b end; auto.
Qed.

Definition colour_ok (c : colour) : Prop := byte (c_red c) /\ byte (c_green c) /\ byte (c_blue c) /\ byte (c_alpha c).
(** A coverage in 16.16; the edges are covered in part or not marked. *)
Definition coverage (f : Z) : Prop := 0 <= f <= 0x10000.
Definition edges_ok (rdr : renderer) : Prop :=
  let win := _window rdr in
  0 <= _el_lfrac win < 0x10000 /\ 0 <= _el_rfrac win < 0x10000 /\ flag (_el_lfrac win) + flag (_el_rfrac win) <= _alphaWidth win.

(** The alpha of a column of the colour, [alpha] being that of the row. *)
Definition edge_alpha (f alpha : Z) : Z := if alpha =? MAX_ALPHA then Z.shiftr f 8 else Z.shiftr (f * alpha) 16.
Definition column_alpha (rdr : renderer) (alpha : Z) : Z -> Z :=
  let win := _window rdr in
  pick rdr (_el_lfrac win) (_el_rfrac win) (edge_alpha (_el_lfrac win) alpha) (edge_alpha (_el_rfrac win) alpha) alpha.
Definition row_alpha (c : colour) (frac : Z) : Z := Z.shiftr (c_alpha c * frac) 16.

Lemma row_alpha_byte c frac : colour_ok c -> coverage frac -> byte (row_alpha c frac).
Proof.
  intros (_ & _ & _ & H) F. unfold byte, coverage, row_alpha in *. rewrite Z.shiftr_div_pow2 by lia. change (2 ^ 16) with 65536.
  assert (0 <= c_alpha c * frac <= 255 * 65536) by nia. revert H0. generalize (c_alpha c * frac). intros. divlia.
Qed.
Lemma edge_alpha_byte f alpha : 0 <= f < 0x10000 -> byte alpha -> byte (edge_alpha f alpha).
Proof.
  intros F A. unfold byte, edge_alpha in *. destruct (_ =? _); rewrite Z.shiftr_div_pow2 by lia.
  - change (2 ^ 8) with 256. divlia.
  - change (2 ^ 16) with 65536. assert (0 <= f * alpha <= 65536 * 255) by nia. revert H. generalize (f * alpha). intros. divlia.
Qed.
Lemma column_alpha_byte rdr alpha x : edges_ok rdr -> byte alpha -> byte (column_alpha rdr alpha x).
Proof. intros (L & R & _) A. unfold column_alpha. apply pick_ind; intros; try apply edge_alpha_byte; assumption. Qed.

Section Colour.
Variables (rdr : renderer) (height : Z) (dst : list Z).
Hypothesis (OK : rect_ok rdr height (Z.of_nat (length dst))) (EO : edges_ok rdr).
Abbreviation W := (_alphaWidth (_window rdr)).

(** [emit_rule] for a colour: three updates. *)
Lemma emit_plain_rule lfrac rfrac l r m w g : flag lfrac + flag rfrac <= W -> w = W - flag lfrac - flag rfrac ->
  (forall x old, 0 <= x < W -> value_of (pick rdr lfrac rfrac l r m x) old = g x old) ->
  yields (emit_rows rdr height (emit_row (_imagePixelStride rdr) w (on lfrac (plain l)) (plain m) (on rfrac (plain r))) dst) (drawn rdr height (fun x _ => g x) dst).
Proof using OK.
  intros He Ew G. eapply yields_mono.
  - apply (emit_rule rdr height dst OK _ _ _ (fun x _ => pick rdr lfrac rfrac l r m x)); rewrite ?on_edges; [exact He|lia|].
    intros x y Hx Hy. rewrite row_update_pick. change (plain l) with (fun _ : Z => Done l). unfold plain, pick. destruct (_ && _); [reflexivity|]. destruct (_ && _); reflexivity.
  - intros d. apply painted_values. intros x y [Hx _]. apply G, Hx.
Qed.

(** Source over: each pixel is mixed once, with the alpha of its column. *)
Lemma emitLineSourceOver_draws frac : colour_ok (_c rdr) -> coverage frac ->
  yields (emitLineSourceOver8888_pre rdr height frac dst) (drawn rdr height (fun x _ =>
    blendSrcOver8888_pre (column_alpha rdr (row_alpha (_c rdr) frac) x) (c_red (_c rdr)) (c_green (_c rdr)) (c_blue (_c rdr))) dst).
Proof using OK EO.
  intros C F. pose proof (row_alpha_byte _ _ C F) as B. unfold emitLineSourceOver8888_pre, row_alpha in *. destruct C as (Cr & Cg & Cb & Ca).
  destruct (_c rdr) as [cred cgreen cblue calpha]. cbn [c_red c_green c_blue c_alpha] in *. destruct EO as (L & R & E). cbv zeta.
  set (alpha := Z.shiftr (calpha * frac) 16) in *. unfold column_alpha, edge_alpha. cbv zeta.
  destruct (Z.eqb_spec alpha MAX_ALPHA) as [EA|NA]; apply emit_plain_rule; try lia; intros x old Hx; unfold pick.
  - destruct (_ && _); [reflexivity|]. destruct (_ && _); [reflexivity|]. cbn [value_of]. rewrite EA. symmetry. apply over_opaque; assumption.
  - destruct (_ && _); [reflexivity|]. destruct (_ && _); reflexivity.
Qed.

(** Source under full coverage, without partly covered edges: the colour,
    premultiplied. *)
Definition premultiplied_colour (c : colour) : Z :=
  let m v := Z.shiftr ((c_alpha c + 1) * v) 8 in argb (c_alpha c) (m (c_red c)) (m (c_green c)) (m (c_blue c)).
Lemma emitLineSource_fills : _el_lfrac (_window rdr) = 0 -> _el_rfrac (_window rdr) = 0 ->
  yields (emitLineSource8888_pre rdr height 0x10000 dst) (drawn rdr height (fun _ _ _ => premultiplied_colour (_c rdr)) dst).
Proof using OK EO.
  intros L R. unfold emitLineSource8888_pre, premultiplied_colour. destruct (_c rdr) as [cred cgreen cblue calpha]. cbv zeta. rewrite L, R.
  change (0x10000 =? 0x10000) with true. cbn iota. destruct OK as [_ Wp _ _ _]. apply emit_plain_rule; unfold flag; cbn [Z.eqb]; try lia.
  intros x old Hx. unfold pick. rewrite !andb_false_r. reflexivity.
Qed.
End Colour.

(** ** Rectangles of a paint *)

Lemma scaled_frac_eq f frac : 0 <= f < 0x10000 -> coverage frac -> scaled_frac f frac = f * frac / 65536.
Proof.
  unfold coverage, scaled_frac. intros Hf Hc. rewrite Z.shiftr_div_pow2 by lia. change (2 ^ 16) with 65536. apply s32_id.
  assert (0 <= f * frac <= 65535 * 65536) by nia. revert H. generalize (f * frac). intros. divlia.
Qed.
Lemma scaled_frac_range f frac : 0 <= f < 0x10000 -> coverage frac -> 0 <= scaled_frac f frac < 0x10000 /\ flag (scaled_frac f frac) <= flag f.
Proof.
  intros Hf Hc. rewrite scaled_frac_eq by assumption. unfold coverage in Hc. assert (0 <= f * frac <= f * 65536) as K by nia. split.
  - revert K. generalize (f * frac). intros. divlia.
  - unfold flag. destruct (Z.eqb_spec f 0) as [->|N]; [reflexivity|]. destruct (_ =? 0); lia.
Qed.

(** The fraction, of 256, in which a column of a row gets its paint. *)
Definition column_fraction (rdr : renderer) (frac : Z) : Z -> Z :=
  let l := scaled_frac (_el_lfrac (_window rdr)) frac in
  let r := scaled_frac (_el_rfrac (_window rdr)) frac in
  pick rdr l r (Z.shiftr l 8) (Z.shiftr r 8) (Z.shiftr frac 8).
Lemma column_fraction_range rdr frac x : edges_ok rdr -> coverage frac -> 0 <= column_fraction rdr frac x <= 256.
Proof.
  intros (L & R & _) C. destruct (scaled_frac_range _ _ L C) as [L1 _], (scaled_frac_range _ _ R C) as [R1 _]. unfold coverage in C.
  unfold column_fraction. apply (pick_ind (fun v => 0 <= v <= 256)); intros; rewrite Z.shiftr_div_pow2 by lia; change (2 ^ 8) with 256; divlia.
Qed.

(** The first [n] pixels of the buffer have been computed. *)
Definition paint_ok (n : Z) (paint : list Z) : Prop :=
  n <= Z.of_nat (length paint) /\ forall i, 0 <= i < n -> is_pixel (pixel paint i) /\ pre (pixel paint i).
Lemma paint_pixel n paint i : paint_ok n paint -> 0 <= i < n -> rd paint i = Done (pixel paint i) /\ is_pixel (pixel paint i) /\ pre (pixel paint i).
Proof. intros [L F] Hi. split; [apply rd_pixel; lia|apply F, Hi]. Qed.
(** Over with a paint, [f] of 256. *)
Definition over_with (f cval : Z) : Z -> Z := blendSrcOver8888_pre_pre f (chan cval 24) (chan cval 16) (chan cval 8) (chan cval 0).
Lemma over_paint_full cval p : is_pixel cval -> pre cval -> is_pixel p -> value_of (over_paint cval) p = over_with 256 cval p.
Proof.
  intros J Hp Jp. unfold over_paint, over_with. cbv zeta. rewrite full_fraction_eq.
  destruct (Z.eqb_spec (chan cval 24) 0) as [E|N]; [symmetry; apply full_transparent; assumption|].
  destruct (Z.eqb_spec (chan cval 24) MAX_ALPHA) as [E|N']; [symmetry; apply full_opaque; assumption|reflexivity].
Qed.

Lemma place_pixel rdr height dst x y : rect_ok rdr height (Z.of_nat (length dst)) -> Forall is_pixel dst ->
  0 <= x < _alphaWidth (_window rdr) -> 0 <= y < height -> is_pixel (pixel dst (place rdr x y)).
Proof.
  intros OK DO Hx Hy. destruct (ro_raster _ _ _ OK) as [R _]. destruct (R x y ltac:(split; lia)) as [R1 R2].
  pose proof (rd_pixel dst _ (conj R1 R2)) as E. unfold rd in E. destruct (0 <=? _); [|discriminate]. destruct (dst !! _) eqn:K; [|discriminate].
  injection E as <-. eapply (proj1 (Forall_lookup _ _) DO), K.
Qed.

Section Paint.
Variables (rdr : renderer) (height : Z) (dst paint : list Z).
Hypothesis (OK : rect_ok rdr height (Z.of_nat (length dst))) (EO : edges_ok rdr).
Abbreviation W := (_alphaWidth (_window rdr)).
Hypothesis (PO : paint_ok (W * height) paint) (DO : forall x y, 0 <= x < W -> 0 <= y < height -> is_pixel (pixel dst (place rdr x y))).
Let cval (x y : Z) : Z := pixel paint (y * W + x).

Lemma paint_read x y : 0 <= x < W -> 0 <= y < height -> rd paint (y * W + x) = Done (cval x y) /\ is_pixel (cval x y) /\ pre (cval x y).
Proof using PO. intros Hx Hy. eapply paint_pixel; [exact PO|]. nia. Qed.
(** Source over with a paint: the same, with the fraction of the column. *)
Lemma emitLinePTSourceOver_draws frac : coverage frac ->
  yields (emitLinePTSourceOver8888_pre rdr paint height frac dst)
    (drawn rdr height (fun x y => over_with (column_fraction rdr frac x) (pixel paint (y * W + x))) dst).
Proof using OK EO PO DO.
  intros C. destruct EO as (L & R & E). destruct (scaled_frac_range _ _ L C) as [L1 L2], (scaled_frac_range _ _ R C) as [R1 R2].
  unfold emitLinePTSourceOver8888_pre. cbv zeta. set (lf := scaled_frac _ frac) in *. set (rf := scaled_frac (_el_rfrac _) frac) in *.
  set (mid := if frac =? 0x10000 then over_paint else fun c => Blend (over_with (Z.shiftr frac 8) c)).
  set (upd := fun x y => pick rdr lf rf (Blend (over_with (Z.shiftr lf 8) (cval x y))) (Blend (over_with (Z.shiftr rf 8) (cval x y))) (mid (cval x y)) x).
  eapply yields_mono.
  - apply (emit_rule rdr height dst OK _ _ _ upd); rewrite ?on_edges; [lia|lia|].
    intros x y Hx Hy. rewrite row_update_pick. destruct (paint_read x y Hx Hy) as [Rd _].
    unfold upd, pick, from_paint. destruct (_ && _); [rewrite Rd; reflexivity|]. destruct (_ && _); [rewrite Rd; reflexivity|].
    subst mid. destruct (frac =? 0x10000); rewrite Rd; reflexivity.
  - intros d. apply painted_values. intros x y [Hx Hy]. unfold upd, column_fraction, pick. fold lf rf cval.
    destruct (_ && _); [reflexivity|]. destruct (_ && _); [reflexivity|]. subst mid. destruct (Z.eqb_spec frac 0x10000) as [->|N]; [|reflexivity].
    destruct (paint_read x y Hx Hy) as (_ & J & Pr). apply over_paint_full; auto.
Qed.
End Paint.

(** ** Masks *)

Definition jbyte (v : Z) : Prop := -128 <= v <= 127.
Lemma land_byte v : byte (Z.land v 0xff).
Proof. unfold byte. change 0xff with (Z.ones 8). rewrite Z.land_ones by lia. change (Z.ones 8) with 255. pose proof (Z.mod_pos_bound v (2 ^ 8)). change (2 ^ 8) with 256 in *. lia. Qed.
Lemma land_zero v : jbyte v -> v <> 0 -> Z.land v 0xff <> 0.
Proof. unfold jbyte. intros H N. change 0xff with (Z.ones 8). rewrite Z.land_ones by lia. change (2 ^ 8) with 256. divlia. Qed.

(** The alpha of the colour under a coverage. *)
Definition covered_alpha (c : colour) (m : Z) : Z := Z.shiftr ((m + 1) * c_alpha c) 8.
Lemma covered_alpha_byte c m : colour_ok c -> byte m -> byte (covered_alpha c m).
Proof.
  intros (_ & _ & _ & A) M. unfold byte, covered_alpha in *. rewrite Z.shiftr_div_pow2 by lia. change (2 ^ 8) with 256.
  assert (0 <= (m + 1) * c_alpha c <= 256 * 255) as K by nia. revert K. generalize ((m + 1) * c_alpha c). intros. divlia.
Qed.
Lemma over_nothing r g b p : is_pixel p -> blendSrcOver8888_pre 0 r g b p = p.
Proof.
  intros J. unfold blendSrcOver8888_pre. cbv zeta. rewrite !Z.mul_0_r, !Z.sub_0_r, !Z.add_0_l. rewrite !div255_255 by apply chan_byte. apply argb_of_chans, J.
Qed.
(** Skipping a pixel, and storing the colour, are what the mixture would do. *)
Lemma over_colour_value c m p : colour_ok c -> is_pixel p ->
  value_of (over_colour c m) p = blendSrcOver8888_pre (covered_alpha c m) (c_red c) (c_green c) (c_blue c) p \/ covered_alpha c m < 0.
Proof.
  intros (Cr & Cg & Cb & Ca) J. unfold over_colour, covered_alpha. destruct c as [r g b a]. cbn [c_red c_green c_blue c_alpha] in *. cbv zeta.
  set (v := Z.shiftr ((m + 1) * a) 8). destruct (Z.eqb_spec v MAX_ALPHA) as [->|N]; [left; symmetry; apply over_opaque; assumption|].
  rewrite Z.gtb_ltb. destruct (Z.ltb_spec 0 v); [left; reflexivity|]. destruct (Z.eq_dec v 0) as [->|]; [left; symmetry; apply over_nothing, J|right; lia].
Qed.
Lemma over_masked_paint_value cval m p : is_pixel cval -> pre cval -> is_pixel p -> byte m ->
  value_of (over_masked_paint cval m) p = over_with (m + 1) cval p.
Proof.
  intros J Hp Jp M. unfold byte in M. unfold over_masked_paint, over_with. cbv zeta. pose proof (chan_byte cval 24) as A. unfold byte in A.
  destruct (Z.eqb_spec (Z.shiftr ((m + 1) * chan cval 24) 8) MAX_ALPHA) as [E|N].
  - assert (m = 255 /\ chan cval 24 = 255) as [-> E'].
    { rewrite Z.shiftr_div_pow2 in E by lia. change (2 ^ 8) with 256 in E. unfold MAX_ALPHA in E. revert A E. generalize (chan cval 24). intros z A E.
      assert ((m + 1) * z >= 65280) by divlia. nia. }
    cbn [value_of]. change (255 + 1) with 256. rewrite full_fraction_eq. symmetry. apply full_opaque; assumption.
  - rewrite Z.gtb_ltb. destruct (Z.ltb_spec 0 (Z.shiftr ((m + 1) * chan cval 24) 8)) as [|Z0]; [reflexivity|]. cbn [value_of].
    assert (forall c, channel c -> Z.shiftr (chan cval c * (m + 1)) 8 = 0) as Q.
    { intros c Hc. pose proof (Hp c Hc). pose proof (chan_byte cval c) as B. unfold byte in B. rewrite Z.shiftr_div_pow2 in * by lia. change (2 ^ 8) with 256 in *.
      assert (0 <= chan cval c * (m + 1) <= (m + 1) * chan cval 24) as K by nia. revert K Z0. generalize (chan cval c * (m + 1)), ((m + 1) * chan cval 24). intros. divlia. }
    unfold blendSrcOver8888_pre_pre. cbv zeta. rewrite !Q by constructor. rewrite !Z.sub_0_r, !div255_255 by apply chan_byte. rewrite !Z.add_0_l. symmetry. apply argb_of_chans, Jp.
Qed.

Section Masks.
Variables (rdr : renderer) (height : Z) (dst mask : list Z).
Hypothesis (OK : rect_ok rdr height (Z.of_nat (length dst))) (MB : Forall jbyte mask) (MO : 0 <= _maskOffset (_window rdr)).
Abbreviation W := (_alphaWidth (_window rdr)).
Hypothesis (DO : forall x y, 0 <= x < W -> 0 <= y < height -> is_pixel (pixel dst (place rdr x y))).
Abbreviation offset := (_maskOffset (_window rdr)).

Lemma mask_read i : 0 <= i < Z.of_nat (length mask) -> rd mask i = Done (pixel mask i) /\ jbyte (pixel mask i).
Proof using MB.
  intros Hi. pose proof (rd_pixel mask i Hi) as E. split; [exact E|]. unfold rd in E. destruct (0 <=? i); [|discriminate].
  destruct (mask !! Z.to_nat i) eqn:K; [|discriminate]. injection E as <-. eapply (proj1 (Forall_lookup _ _) MB), K.
Qed.

(** Source over through a mask: each pixel is mixed with the alpha its byte
    leaves of the colour. *)
Lemma blitSrcOverMask_draws : colour_ok (_c rdr) -> offset + W * height <= Z.of_nat (length mask) ->
  yields (blitSrcOverMask8888_pre rdr mask height dst) (drawn rdr height (fun x y =>
    blendSrcOver8888_pre (covered_alpha (_c rdr) (Z.land (pixel mask (offset + W * y + x)) 0xff)) (c_red (_c rdr)) (c_green (_c rdr)) (c_blue (_c rdr))) dst).
Proof using OK DO MB MO.
  intros C L. set (m := fun x y => pixel mask (offset + W * y + x)). eapply yields_mono.
  - apply (blit_mask_rule rdr height dst OK _ _ _ (fun x y => if m x y =? 0 then Keep else over_colour (_c rdr) (Z.land (m x y) 0xff))).
    intros x y Hx Hy. rewrite Z.mul_1_l. destruct (mask_read (offset + W * y + x)) as [E _]; [nia|]. rewrite E. cbn [ub_bind]. unfold unless_zero. fold (m x y).
    destruct (m x y =? 0); reflexivity.
  - intros d. apply painted_values. intros x y [Hx Hy]. fold (m x y).
    assert (is_pixel (pixel dst (place rdr x y))) as J by (apply DO; assumption).
    pose proof (covered_alpha_byte _ _ C (land_byte (m x y))) as B. unfold byte in B.
    destruct (Z.eqb_spec (m x y) 0) as [->|N].
    + cbn [value_of]. replace (covered_alpha (_c rdr) (Z.land 0 255)) with 0; [symmetry; apply over_nothing, J|]. unfold covered_alpha. rewrite Z.land_0_l.
      rewrite Z.shiftr_div_pow2 by lia. destruct C as (_ & _ & _ & A). unfold byte in A. change (2 ^ 8) with 256. divlia.
    + destruct (over_colour_value (_c rdr) (Z.land (m x y) 0xff) _ C J) as [E|E]; [exact E|lia].
Qed.

(** And with a row of paint. *)
Lemma blitPTSrcOverMask_draws paint : paint_ok W paint -> offset + W <= Z.of_nat (length mask) ->
  yields (blitPTSrcOverMask8888_pre rdr mask paint height dst) (drawn rdr height (fun x _ =>
    over_with (Z.land (pixel mask (offset + x)) 0xff + 1) (pixel paint x)) dst).
Proof using OK DO MB MO.
  intros PO L. set (m := fun x => pixel mask (offset + x)). eapply yields_mono.
  - apply (blit_mask_rule rdr height dst OK _ _ _ (fun x _ => if m x =? 0 then Keep else over_masked_paint (pixel paint x) (Z.land (m x) 0xff))).
    intros x y Hx Hy. rewrite Z.mul_0_l, Z.add_0_r, Z.mul_1_l. destruct (mask_read (offset + x)) as [E _]; [lia|]. rewrite E. cbn [ub_bind]. unfold unless_zero. fold (m x).
    destruct (m x =? 0); [reflexivity|]. destruct (paint_pixel _ _ x PO Hx) as [-> _]. reflexivity.
  - intros d. apply painted_values. intros x y [Hx Hy]. fold (m x).
    assert (is_pixel (pixel dst (place rdr x y))) as J by (apply DO; assumption).
    destruct (paint_pixel _ _ x PO Hx) as (_ & Jc & Pc). destruct (Z.eqb_spec (m x) 0) as [->|N].
    + rewrite <- (over_masked_paint_value _ _ _ Jc Pc J) by apply land_byte. cbn [value_of]. rewrite Z.land_0_l. unfold over_masked_paint. cbv zeta.
      rewrite Z.add_0_l, Z.mul_1_l. pose proof (chan_byte (pixel paint x) 24) as B. unfold byte in B.
      replace (Z.shiftr (chan (pixel paint x) 24) 8) with 0 by (rewrite Z.shiftr_div_pow2 by lia; change (2 ^ 8) with 256; divlia). reflexivity.
    + apply over_masked_paint_value; auto using land_byte.
Qed.
End Masks.

(** ** Rows of deltas *)

(** The coverage of a pixel is found through the sum of the deltas up to it. *)
Fixpoint running (row : list Z) (start : Z) (n : nat) : Z :=
  match n with O => 0 | S n => running row start n + pixel row (start + Z.of_nat n) end.

Section Deltas.
Variables (rdr : renderer) (dst row : list Z).
Hypothesis (OK : rect_ok rdr 1 (Z.of_nat (length dst))).
Abbreviation W := (_alphaWidth (_window rdr)).
Abbreviation start := (_rowAAInt (_window rdr)).
Hypothesis (RO : 0 <= start /\ start + W <= Z.of_nat (length row)).
Let sum (x : Z) : Z := running row start (Z.to_nat (x + 1)).

(** The row is drawn and its deltas are cleared for the next one. *)
Lemma blit_deltas_rule u (upd : Z -> update) : (forall x, 0 <= x < W -> u (sum x) x = Done (upd x)) ->
  yields (blit_deltas rdr u 1 (row, dst)) (fun '(row', d) =>
    painted (in_image W 1) (at_row start W) (fun _ _ => 0) row row' /\ drawn rdr 1 (fun x _ => value_of (upd x)) dst d).
Proof using OK RO.
  intros U. destruct OK as [S Wp T _ R]. unfold blit_deltas. cbn [fst snd].
  assert (touched_width rdr = W) as -> by (unfold touched_width; rewrite Z.geb_leb; destruct (Z.leb_spec (_minTouched (_window rdr)) (_maxTouched (_window rdr))); lia).
  set (scan := _imageScanlineStride rdr). set (base := base_of rdr). rewrite S. rewrite Z.mul_1_r. fold (base_of rdr). fold base.
  assert (R0 : raster (at_row start W) W 1 (Z.of_nat (length row))) by (apply at_row_raster; lia).
  set (cleared := fun x r => painted (rows_before W 0 x) (at_row start W) (updated start W row (fun _ _ => Store 0)) row r).
  set (before := fun x d => painted (rows_before W 0 x) (at_row base scan) (updated base scan dst (fun x _ => upd x)) dst d).
  assert (yields (for_to W (delta_pixel rdr u) (0, row, base, dst)) (fun '(_, r, _, d) => cleared W r /\ before W d)) as K.
  { eapply yields_mono; [apply (for_to_yields (fun x '(rel, r, i, d) => rel = running row start (Z.to_nat x) /\ i = at_row base scan x 0 /\ cleared x r /\ before x d))|].
    - lia.
    - intros x [[[rel r] i] d] Hx (-> & -> & Cl & B). cbn [delta_pixel].
      replace (start + x) with (at_row start W x 0) by (unfold at_row; lia).
      assert (rd r (at_row start W x 0) = Done (pixel row (at_row start W x 0))) as ->.
      { eapply (painted_old (at_row start W) W 1); [exact R0| | | |exact Cl]; [intros ? ?; apply rows_inside; lia|split; lia|unfold rows_before; lia]. }
      cbn [ub_bind]. rewrite S.
      eapply (yields_bind _ _ (cleared (x + 1))); [apply (put_row start W W 1 row (fun _ _ => Store 0) R0 0 x r); [lia|exact Hx|exact Cl]|]. intros r' Cl'.
      assert (running row start (Z.to_nat x) + pixel row (at_row start W x 0) = sum x) as ->.
      { unfold sum. replace (Z.to_nat (x + 1)) with (Datatypes.S (Z.to_nat x)) by lia. cbn [running]. rewrite Z2Nat.id by lia. f_equal. unfold at_row. f_equal. lia. }
      rewrite U by exact Hx. cbn [ub_bind].
      eapply (yields_bind _ _ (before (x + 1))); [apply (put_row base scan W 1 dst (fun x _ => upd x) R 0 x d); [lia|exact Hx|exact B]|]. intros d' B'.
      apply yields_done. split; [reflexivity|]. split; [unfold at_row; lia|]. auto.
    - split; [reflexivity|]. split; [unfold at_row; lia|]. split; apply before_start; reflexivity.
    - intros [[[rel r] i] d] (_ & _ & Cl & B). auto. }
  unfold for_to at 1. change (Z.to_nat 1) with 1%nat. cbn [for_from]. destruct K as ([[[rel r] i] d] & E & Cl & B).
  unfold base, base_of in E. cbn [ub_bind]. rewrite E. cbn [ub_bind]. apply yields_done. split.
  - eapply painted_ext; [|exact Cl]. intros x y. unfold rows_before, in_image. lia.
  - eapply painted_ext; [|exact B]. intros x y. unfold rows_before, in_image. lia.
Qed.

(** Source over through a row of deltas. *)
Lemma blitSrcOver_draws map : colour_ok (_c rdr) -> Forall is_pixel dst -> (forall x, 0 <= x < W -> 0 <= sum x < Z.of_nat (length map)) ->
  yields (blitSrcOver8888_pre rdr map 1 (row, dst)) (fun '(row', d) =>
    painted (in_image W 1) (at_row start W) (fun _ _ => 0) row row' /\
    drawn rdr 1 (fun x _ => blendSrcOver8888_pre (if sum x =? 0 then 0 else covered_alpha (_c rdr) (Z.land (pixel map (sum x)) 0xff))
      (c_red (_c rdr)) (c_green (_c rdr)) (c_blue (_c rdr))) dst d).
Proof using OK RO.
  intros C DO HS. eapply yields_mono.
  - apply (blit_deltas_rule _ (fun x => if sum x =? 0 then Keep else over_colour (_c rdr) (Z.land (pixel map (sum x)) 0xff))).
    intros x Hx. unfold unless_zero. destruct (sum x =? 0); [reflexivity|]. unfold mask_at. rewrite rd_pixel by (apply HS, Hx). reflexivity.
  - intros [row' d] [Cl D]. split; [exact Cl|]. eapply painted_values; [|exact D]. intros x y [Hx Hy]. cbn beta.
    assert (is_pixel (pixel dst (place rdr x y))) as J by (apply (place_pixel rdr 1); assumption).
    destruct (sum x =? 0); [symmetry; apply over_nothing, J|].
    destruct (over_colour_value (_c rdr) (Z.land (pixel map (sum x)) 0xff) _ C J) as [E|E]; [exact E|].
    pose proof (covered_alpha_byte _ _ C (land_byte (pixel map (sum x)))) as B. unfold byte in B. lia.
Qed.
End Deltas.

(** ** Where the surface does not stay premultiplied *)

(** The rule source with partly covered edges: the colour's alpha is not reduced
    by the coverage, so the two weights are more than a whole.  Half of opaque
    white on opaque white leaves a colour whose bytes have overflowed. *)
Example source_edge_overflows : let c := mkColour 255 255 255 255 in
  emitLineSource8888_pre (sample_renderer c 2 1 0 0 2 0x8000 0) 1 0x10000
    [argb 255 255 255 255; 0] = Done [argb 125 125 125 125; argb 255 255 255 255].
Proof. vm_compute. reflexivity. Qed.
Example source_paint_edge_overflows : let p := argb 255 255 255 255 in
  emitLinePTSource8888_pre (sample_renderer (mkColour 0 0 0 0) 2 1 0 0 2 0x8000 0) [p; p] 1 0x10000 [p; 0] = Done [argb 125 127 127 126; p].
Proof. vm_compute. reflexivity. Qed.

(** Under full coverage the colour is stored as it is, not multiplied with its
    alpha. *)
Example source_mask_is_not_premultiplied : exists p, value_of (src_colour (mkColour 255 0 0 128) 255) 0 = p /\ ~ pre p.
Proof. eexists. split; [vm_compute; reflexivity|]. intros H. specialize (H 16 red). vm_compute in H. apply H. reflexivity. Qed.
(** A paint under partial coverage: its alpha is reduced and its colours are not. *)
Example source_paint_mask_is_not_premultiplied : exists p, value_of (src_paint (argb 255 255 255 255) 127) 0 = p /\ ~ pre p.
Proof. eexists. split; [vm_compute; reflexivity|]. intros H. specialize (H 16 red). vm_compute in H. apply H. reflexivity. Qed.

(** The number of pixels between the edges is found before the fractions are
    reduced: when the reduced one is nothing, the edge is left out and the row
    is a pixel short.  (Half of the row's height is covered, and the pixel is
    opaque.) *)
Example source_row_is_a_pixel_short : let c := mkColour 255 255 255 255 in
  emitLineSource8888_pre (sample_renderer c 2 1 0 0 2 1 0) 1 0x8000 [0; 0] = Done [argb 255 255 255 255; 0].
Proof. vm_compute. reflexivity. Qed.
