(* ===== verification/PiscesPaint.v ===== *)
(** * Paints ([PiscesPaint.c])

    Before a rectangle is drawn with a paint, its pixels are computed into the
    paint buffer, [_alphaWidth] for each row: the colours of a gradient, or the
    texels of a texture under an affine map in 16.16 coordinates.  The two
    theorems say that every pixel of the buffer is computed, from inside the
    gradient's table and the texture's data, and that it is premultiplied. *)

From Stdlib Require Import Floats.SpecFloat.
From S2P Require Import Prelude CFloat Float32 DecoraApi Argb Painted PiscesPixel PiscesRdr PiscesBlit.
Local Open Scope Z_scope.
Local Open Scope ub_scope.

(** ** What the renderer keeps of its paints *)

Definition LG_GRADIENT_MAP_SIZE : Z := 8.
Definition GRADIENT_MAP_SIZE : Z := 256.

Record gradient := mkGradient {
  _gradient_cycleMethod : Z; _gradient_colors : list Z;
  _lg_mx : float; _lg_my : float; _lg_b : float;
  _rg_a00 : float; _rg_a01 : float; _rg_a02 : float; _rg_a10 : float; _rg_a11 : float; _rg_a12 : float;
  _rg_cx : float; _rg_cy : float; _rg_fx : float; _rg_fy : float; _rg_r : float; _rg_rsq : float;
  _rg_a00a00 : float; _rg_a10a10 : float; _rg_a00a10 : float }.

Definition TEXTURE_TRANSFORM_IDENTITY : Z := 1.
Definition TEXTURE_TRANSFORM_TRANSLATE : Z := 2.
Definition TEXTURE_TRANSFORM_SCALE_TRANSLATE : Z := 3.
Definition TEXTURE_TRANSFORM_GENERIC : Z := 4.

Record texture := mkTexture {
  _texture_intData : list Z; _texture_hasAlpha : bool;
  _texture_imageWidth : Z; _texture_imageHeight : Z; _texture_stride : Z;
  _texture_txMin : Z; _texture_tyMin : Z; _texture_txMax : Z; _texture_tyMax : Z;
  _texture_repeat : bool;
  _texture_m00 : Z; _texture_m01 : Z; _texture_m02 : Z; _texture_m10 : Z; _texture_m11 : Z; _texture_m12 : Z;
  _texture_interpolate : bool; _texture_transformType : Z }.

(** ** Rows of paint *)

(** [for (j = 0; j < height; j++, y++) { ... for (i = 0; i < width; i++, pidx++) ... }]:
    [start] is what a row begins with, [step] gives a pixel and what the next
    one needs. *)
Definition paint_pixels {S} (step : S -> ub (Z * S)) (st : Z * S * list Z) : ub (Z * S * list Z) :=
  let '(pidx, s, paint) := st in
  do* '(v, s) := step s in
  do* paint := wr paint pidx v in
  Done (pidx + 1, s, paint).
Definition paint_rows {S} (rdr : renderer) (height : Z) (start : Z -> ub S) (step : S -> ub (Z * S)) (paint : list Z) : ub (list Z) :=
  let width := _alphaWidth (_window rdr) in
  for_to height (fun j paint =>
    do* s := start (_currY (_window rdr) + j) in
    do* '(_, _, paint) := for_to width (fun _ => paint_pixels step) (j * width, s, paint) in
    Done paint) paint.

(** ** Gradients *)

Section Gradient_generators.
(** The operators of [jfloat]. *)
Local Infix "*." := fmul (at level 40, left associativity).
Local Infix "/." := fdiv (at level 40, left associativity).
Local Infix "+." := fadd (at level 50, left associativity).
Local Infix "-." := fsub (at level 50, left associativity).

Definition f_2 : float := Eval vm_compute in Z_to_float 2.
Definition f_65536 : float := Eval vm_compute in Z_to_float 65536.

(** The colour at a position of the gradient in 16.16. *)
Definition gradient_colour (g : gradient) (ifrac : Z) : ub Z :=
  rd (_gradient_colors g) (Z.shiftr (pad ifrac (_gradient_cycleMethod g)) (16 - LG_GRADIENT_MAP_SIZE)).

Definition genLinearGradientPaint (g : gradient) (rdr : renderer) (height : Z) : list Z -> ub (list Z) :=
  let mx := _lg_mx g in let my := _lg_my g in let b := _lg_b g in
  paint_rows rdr height
    (fun y => Done (Z_to_float (_currX (_window rdr)) *. mx +. Z_to_float y *. my +. b))
    (fun frac =>
       do* ifrac := float_to_jint frac in
       do* c := gradient_colour g ifrac in
       Done (c, frac +. mx)).

(** [sqrt] and the sum with its result are of type [double]. *)
Definition dadd : double -> double -> double := SFadd 53 1024.
Definition dsqrt : double -> double := SFsqrt 53 1024.

Definition genRadialGradientPaint (g : gradient) (rdr : renderer) (height : Z) : list Z -> ub (list Z) :=
  let a00 := _rg_a00 g in let a01 := _rg_a01 g in let a02 := _rg_a02 g in
  let a10 := _rg_a10 g in let a11 := _rg_a11 g in let a12 := _rg_a12 g in
  let a00a00 := _rg_a00a00 g in let a10a10 := _rg_a10a10 g in let a00a10 := _rg_a00a10 g in
  let cx := _rg_cx g in let cy := _rg_cy g in let fx := _rg_fx g in let fy := _rg_fy g in let rsq := _rg_rsq g in
  paint_rows rdr height
    (fun y =>
       let x := Z_to_float (_currX (_window rdr)) in
       let y := Z_to_float y in
       let txx := x *. a00 +. y *. a01 +. a02 in
       let tyy := x *. a10 +. y *. a11 +. a12 in
       let fxx := fx -. txx in
       let fyy := fy -. tyy in
       let A := fxx *. fxx +. fyy *. fyy in
       let cfx := cx -. fx in
       let cfy := cy -. fy in
       let cfxcfx := cfx *. cfx in
       let cfycfy := cfy *. cfy in
       let cfxcfy := cfx *. cfy in
       let B := cfx *. fxx +. cfy *. fyy in
       let B2 := SFopp B *. f_2 in
       let C := cfxcfx +. cfycfy -. rsq in
       let C2 := f_2 *. C in
       let _C := f_one /. C in
       let _Csq := _C *. _C in
       let U := SFopp B *. _C in
       let dU := (a00 *. cfx +. a10 *. cfy) *. _C in
       let V := (B *. B -. A *. C) *. _Csq in
       let sube := f_2 *. a00a10 *. cfxcfy in
       let dV := (sube +.
                  (a00a00 *. (cfxcfx -. C) +. a00 *. (B2 *. cfx +. C2 *. fxx)) +.
                  (a10a10 *. (cfycfy -. C) +. a10 *. (B2 *. cfy +. C2 *. fyy))) *. _Csq in
       let tmp := a00a00 *. cfycfy -. sube +. a10a10 *. cfxcfx in
       let ddV := f_2 *. ((a00a00 +. a10a10) *. rsq -. tmp) *. _Csq in
       Done (f_65536 *. U, f_65536 *. f_65536 *. V, f_65536 *. dU, f_65536 *. f_65536 *. dV, f_65536 *. f_65536 *. ddV))
    (fun '(U, V, dU, dV, ddV) =>
       let V := if V <. f_zero then f_zero else V in
       do* ifrac := float_to_jint (dadd (float_to_double U) (dsqrt (float_to_double V))) in
       do* c := gradient_colour g ifrac in
       Done (c, (U +. dU, V +. dV, dU, dV +. ddV, ddV))).

End Gradient_generators.

(** ** Textures *)

Definition isInBoundsNoRepeat (a min max : Z) : bool := negb ((a <? min) || (a >? max)).
(** The position [la] goes along with its integer part [a]; [(max+1) << 16] is
    of type [jint]. *)
Definition checkBoundsRepeat (a la min max : Z) : ub (Z * Z) :=
  if (a <? min) || (a >? max) then
    if max >=? 0 then
      do* la := lmod la (s32 (Z.shiftl (max + 1) 16)) in Done (s32 (Z.shiftr la 16), la)
    else Done (0, 0)
  else Done (a, la).
Definition checkBoundsNoRepeat (a la min max : Z) : ub (Z * Z) :=
  Done (if a <? min then min else if a >? max then max else a, la).

Definition getPointsToInterpolate (data : list Z) (sidx stride p00 tx txMax ty tyMax : Z) : ub (Z * Z * Z) :=
  let sidx2 := if ty >=? tyMax then sidx else sidx + stride in
  let isXin := tx <? txMax in
  do* pts0 := if isXin then rd data (sidx + 1) else Done p00 in
  do* pts1 := rd data sidx2 in
  do* pts2 := if isXin then rd data (sidx2 + 1) else rd data sidx2 in
  Done (pts0, pts1, pts2).
Definition getPointsToInterpolateRepeat (data : list Z) (sidx stride p00 tx txMax ty tyMax : Z) : ub (Z * Z * Z) :=
  let sidx2 := if ty >=? tyMax then Z.max tx 0 else sidx + stride in
  let isXin := tx <? txMax in
  do* pts0 := if isXin then rd data (sidx + 1) else rd data (sidx - Z.max tx 0) in
  do* pts1 := rd data sidx2 in
  do* pts2 := if isXin then rd data (sidx2 + 1) else rd data (sidx2 - Z.max tx 0) in
  Done (pts0, pts1, pts2).

(** The loops of the six modes differ in the checks, in the neighbours and in
    whether there is an alpha. *)
Definition checkBounds (t : texture) : Z -> Z -> Z -> Z -> ub (Z * Z) :=
  if _texture_repeat t then checkBoundsRepeat else checkBoundsNoRepeat.
Definition texel (t : texture) (tx ty hfrac vfrac : Z) : ub Z :=
  let data := _texture_intData t in
  let sidx := Z.max 0 ty * _texture_stride t + Z.max 0 tx in
  do* p00 := rd data sidx in
  if negb (_texture_interpolate t) then Done p00
  else
    let points := if _texture_repeat t then getPointsToInterpolateRepeat else getPointsToInterpolate in
    do* '(pts0, pts1, pts2) := points data sidx (_texture_stride t) p00 tx (_texture_imageWidth t - 1) ty (_texture_imageHeight t - 1) in
    let four := if _texture_hasAlpha t then interpolate4points else interpolate4pointsNoAlpha in
    let two := if _texture_hasAlpha t then interpolate2points else interpolate2pointsNoAlpha in
    Done (if negb (hfrac =? 0) && negb (vfrac =? 0) then four p00 pts0 pts1 pts2 hfrac vfrac
          else if negb (hfrac =? 0) then two p00 pts0 hfrac
          else if negb (vfrac =? 0) then two p00 pts1 vfrac
          else p00).

Definition low16 (v : Z) : Z := Z.land v 0xffff.
Definition integer_part (v : Z) : Z := s32 (Z.shiftr v 16).

(** *** A translation *)

Definition translate_row (t : texture) (x y : Z) : ub (Z * Z * Z * Z) :=
  let ltx := s64 (s32 (Z.shiftl x 16) + _texture_m02 t) in
  let lty := s64 (s32 (Z.shiftl y 16) + _texture_m12 t) in
  do* '(ty, _) := checkBounds t (integer_part lty) lty (_texture_tyMin t - 1) (_texture_tyMax t) in
  Done (ltx, ty, low16 ltx, low16 lty).
Definition translate_pixel (t : texture) (s : Z * Z * Z * Z) : ub (Z * (Z * Z * Z * Z)) :=
  let '(ltx, ty, hfrac, vfrac) := s in
  do* '(tx, ltx) := checkBounds t (integer_part ltx) ltx (_texture_txMin t - 1) (_texture_txMax t) in
  do* v := texel t tx ty hfrac vfrac in
  Done (v, (s64 (ltx + 0x10000), ty, hfrac, vfrac)).
(** Neither repeated nor interpolated: the first texel as long as [tx] is too
    small, a run of the texture's row, and then its last texel. *)
Definition translate_copy (t : texture) (width ltx ty pidx : Z) (paint : list Z) : ub (list Z) :=
  let data := _texture_intData t in
  let txtRow := Z.max 0 ty * _texture_stride t in
  let fill n from paint texel := for_to n (fun k paint => do* v := rd data (txtRow + texel k) in wr paint (pidx + from + k) v) paint in
  let tx := integer_part ltx in
  let before := Z.max 0 (Z.min (_texture_txMin t - tx) width) in
  let tx := tx + before in
  do* paint := fill before 0 paint (fun _ => _texture_txMin t) in
  let len := Z.max 0 (Z.min (width - before) (_texture_txMax t - tx + 1)) in
  do* paint := fill len before paint (fun k => tx + k) in
  fill (width - before - len) (before + len) paint (fun _ => _texture_txMax t).
Definition genTranslate (t : texture) (rdr : renderer) (height : Z) (paint : list Z) : ub (list Z) :=
  let width := _alphaWidth (_window rdr) in
  if _texture_repeat t || _texture_interpolate t then
    paint_rows rdr height (translate_row t (_currX (_window rdr))) (translate_pixel t) paint
  else
    for_to height (fun j paint =>
      do* '(ltx, ty, _, _) := translate_row t (_currX (_window rdr)) (_currY (_window rdr) + j) in
      translate_copy t width ltx ty (j * width) paint) paint.

(** *** A scale, and any affine map *)

Definition affine_row (t : texture) (x y : Z) : ub (Z * Z) :=
  Done (s64 (x * _texture_m00 t + y * _texture_m01 t + _texture_m02 t), s64 (x * _texture_m10 t + y * _texture_m11 t + _texture_m12 t)).
Definition scale_pixel (t : texture) (s : Z * Z) : ub (Z * (Z * Z)) :=
  let '(ltx, lty) := s in
  let hfrac := low16 ltx in
  let vfrac := low16 lty in
  do* '(tx, ltx) := checkBounds t (integer_part ltx) ltx (_texture_txMin t - 1) (_texture_txMax t) in
  do* '(ty, lty) := checkBounds t (integer_part lty) lty (_texture_tyMin t - 1) (_texture_tyMax t) in
  do* v := texel t tx ty hfrac vfrac in
  Done (v, (s64 (ltx + _texture_m00 t), s64 (lty + _texture_m10 t))).
(** Outside a texture that is not repeated there is nothing. *)
Definition generic_pixel (t : texture) (s : Z * Z) : ub (Z * (Z * Z)) :=
  if _texture_repeat t then scale_pixel t s
  else
    let '(ltx, lty) := s in
    let tx := integer_part ltx in
    let ty := integer_part lty in
    let inBounds := isInBoundsNoRepeat tx (_texture_txMin t - 1) (_texture_txMax t) && isInBoundsNoRepeat ty (_texture_tyMin t - 1) (_texture_tyMax t) in
    do* v := if inBounds then texel t tx ty (low16 ltx) (low16 lty) else Done 0 in
    Done (v, (s64 (ltx + _texture_m00 t), s64 (lty + _texture_m10 t))).

Definition genTexturePaintTarget (t : texture) (rdr : renderer) (height : Z) (paint : list Z) : ub (list Z) :=
  let type := _texture_transformType t in
  if (type =? TEXTURE_TRANSFORM_IDENTITY) || (type =? TEXTURE_TRANSFORM_TRANSLATE) then genTranslate t rdr height paint
  else if type =? TEXTURE_TRANSFORM_SCALE_TRANSLATE then paint_rows rdr height (affine_row t (_currX (_window rdr))) (scale_pixel t) paint
  else if type =? TEXTURE_TRANSFORM_GENERIC then paint_rows rdr height (affine_row t (_currX (_window rdr))) (generic_pixel t) paint
  else Done paint.

(** *** Multiplied with the paint set before *)

(** One channel: [colour] is the colour it is multiplied with, if there is one. *)
Definition times (a b : Z) : Z := Z.shiftr (a * b) 8.
Definition multiply_rows (rdr : renderer) (height : Z) (f : Z -> Z -> ub Z) (paint : list Z) : ub (list Z) :=
  let win := _window rdr in
  let w := _maxTouched win - _minTouched win + 1 in
  for_to height (fun i paint =>
    let idx := i * _alphaWidth win in
    for_to w (fun j paint => do* v := rd paint (idx + j) in do* v := f (idx + j) v in wr paint (idx + j) v) paint) paint.
Definition multiply_alpha (palpha_1 tval : Z) : Z :=
  argb (times palpha_1 (chan tval 24)) (times palpha_1 (chan tval 16)) (times palpha_1 (chan tval 8)) (times palpha_1 (chan tval 0)).
Definition multiply_colour (palpha_1 red green blue tval : Z) : Z :=
  argb (times palpha_1 (chan tval 24)) (times (times (red + 1) (chan tval 16)) palpha_1)
    (times (times (green + 1) (chan tval 8)) palpha_1) (times (times (blue + 1) (chan tval 0)) palpha_1).

(** [malloc] says whether the buffer for the texture can be had. *)
Definition genTexturePaintMultiply (malloc : bool) (t : texture) (g : gradient) (rdr : renderer) (height : Z) (paint : list Z) : ub (list Z) :=
  let win := _window rdr in
  let w := _maxTouched win - _minTouched win + 1 in
  let '(mkColour cred cgreen cblue calpha) := _c rdr in
  let mode := _prevPaintMode rdr in
  if mode =? PAINT_FLAT_COLOR then
    do* paint := genTexturePaintTarget t rdr height paint in
    let palpha_1 := calpha + 1 in
    if (cred =? 0xff) && (cgreen =? 0xff) && (cblue =? 0xff) then
      if calpha <? 0xff then multiply_rows rdr height (fun _ tval => Done (multiply_alpha palpha_1 tval)) paint else Done paint
    else multiply_rows rdr height (fun _ tval => Done (multiply_colour palpha_1 cred cgreen cblue tval)) paint
  else if (mode =? PAINT_LINEAR_GRADIENT) || (mode =? PAINT_RADIAL_GRADIENT) then
    if (w >? 0) && (height >? 0) && (w <? INT_MAX / height / 4) then
      if malloc then
        do* paint := if mode =? PAINT_LINEAR_GRADIENT then genLinearGradientPaint g rdr height paint else genRadialGradientPaint g rdr height paint in
        do* imagePaint := genTexturePaintTarget t rdr height (repeat 0 (Z.to_nat (w * height))) in
        multiply_rows rdr height (fun i pval =>
          do* tval := rd imagePaint i in
          Done (multiply_colour (chan pval 24 + 1) (chan pval 16) (chan pval 8) (chan pval 0) tval)) paint
      else Done paint
    else Done paint
  else Done paint.

(** ** The rows that are computed *)

Section Rows.
Variables (W : Z) (V : Z -> Z -> Z -> Prop) (len : nat).
(** The pixels [V] holds of, by their column and row, in a buffer of [len]. *)
Definition filled (D : Z -> Z -> Prop) (paint : list Z) : Prop :=
  length paint = len /\ forall x y, D x y -> V x y (pixel paint (y * W + x)).

Lemma pixel_insert a i j v : 0 <= i < Z.of_nat (length a) -> 0 <= j -> pixel (<[Z.to_nat i := v]> a) j = if i =? j then v else pixel a j.
Proof.
  intros Hi Hj. unfold pixel. rewrite !nth_lookup. destruct (Z.eqb_spec i j) as [->|N].
  - rewrite list_lookup_insert_eq by lia. reflexivity.
  - rewrite list_lookup_insert_ne by lia. reflexivity.
Qed.

Lemma filled_step y0 x0 v paint : 0 <= x0 < W -> 0 <= y0 -> (y0 + 1) * W <= Z.of_nat len -> V x0 y0 v ->
  filled (rows_before W y0 x0) paint -> yields (wr paint (y0 * W + x0) v) (filled (rows_before W y0 (x0 + 1))).
Proof using.
  intros Hx Hy Hl Hv [L F]. assert (0 <= y0 * W + x0 < Z.of_nat (length paint)) as Hi by nia.
  rewrite wr_done by exact Hi. apply yields_done. split; [rewrite length_insert; exact L|].
  intros x y H%rows_pixel; [|lia]. assert (0 <= y * W + x) by (unfold rows_before in H; nia). rewrite pixel_insert by assumption.
  destruct (Z.eqb_spec (y0 * W + x0) (y * W + x)) as [E|E].
  - assert (x = x0 /\ y = y0) as [-> ->]; [|exact Hv]. unfold rows_before in H. assert (y = y0) by nia. lia.
  - destruct H as [H|[-> ->]]; [apply F, H|lia].
Qed.
End Rows.

(** [J y x s]: what the row's state is before pixel [(x, y)]. *)
Lemma paint_rows_rule {S} ok (J : Z -> Z -> S -> Prop) V rdr height start step paint :
  0 <= _alphaWidth (_window rdr) -> 0 <= height -> _alphaWidth (_window rdr) * height <= Z.of_nat (length paint) ->
  (forall y, 0 <= y < height -> runs ok (start (_currY (_window rdr) + y)) (J y 0)) ->
  (forall x y s, 0 <= x < _alphaWidth (_window rdr) -> 0 <= y < height -> J y x s -> runs ok (step s) (fun '(v, s) => V x y v /\ J y (x + 1) s)) ->
  runs ok (paint_rows rdr height start step paint) (filled (_alphaWidth (_window rdr)) V (length paint) (in_image (_alphaWidth (_window rdr)) height)).
Proof.
  intros HW Hh HL Hst Hsp. unfold paint_rows. set (W := _alphaWidth (_window rdr)) in *. cbv zeta.
  set (F := fun y x => filled W V (length paint) (rows_before W y x)).
  eapply runs_mono; [apply (runs_for_to ok (fun y => F y 0))|].
  - intros y b Hy HF. eapply runs_bind; [apply Hst, Hy|]. intros s Hs.
    eapply (runs_bind _ _ _ (fun '(_, _, b) => F (y + 1) 0 b)); [|intros [[i t] c] H; exact H].
    eapply runs_mono; [apply (runs_for_to ok (fun x '(i, s, b) => i = y * W + x /\ J y x s /\ F y x b))|].
    + intros x [[i t] c] Hx (-> & Ht & HF'). cbn [paint_pixels]. eapply runs_bind; [apply (Hsp x y t Hx Hy Ht)|].
      intros [v t'] [Hv Ht']. eapply runs_bind; [apply yields_runs, (filled_step W V (length paint) y x v c)|]; try assumption; try lia; [nia|].
      intros c' HF2. apply runs_done. split; [lia|]. split; assumption.
    + split; [lia|]. split; [exact Hs|]. exact HF.
    + intros [[i t] c] (_ & _ & [L H]). rewrite Z.max_r in H by exact HW. split; [exact L|].
      intros x' y' H'%rows_line; [apply H, H'|lia].
  - split; [reflexivity|]. intros x y []%rows_start.
  - intros b [L H]. rewrite Z.max_r in H by exact Hh. split; [exact L|]. intros x y Hxy. apply H, rows_end, Hxy.
Qed.

(** Every computed pixel is one of a premultiplied surface. *)
Definition good (p : Z) : Prop := is_pixel p /\ pre p.
Lemma filled_paint_ok W H V len paint : 0 < W -> W * H <= Z.of_nat len -> (forall x y v, V x y v -> good v) ->
  filled W V len (in_image W H) paint -> paint_ok (W * H) paint.
Proof.
  intros HW HL HV [L F]. split; [lia|]. intros i Hi.
  assert (in_image W H (i mod W) (i / W)) as I.
  { pose proof (Z.mod_pos_bound i W). split; [lia|]. split; [apply Z.div_pos; lia|]. apply Z.div_lt_upper_bound; lia. }
  specialize (F _ _ I). replace (i / W * W + i mod W) with i in F by (pose proof (Z.div_mod i W); lia). apply (HV _ _ _ F).
Qed.

(** ** Gradients *)

Record gradient_ok (g : gradient) : Prop := {
  go_colors : Z.of_nat (length (_gradient_colors g)) = GRADIENT_MAP_SIZE;
  go_good : Forall good (_gradient_colors g);
  go_cycle : 0 <= _gradient_cycleMethod g <= 2 }.

(** The colour at a position: one of the 256, by the cycle method. *)
Definition colour_at (g : gradient) (ifrac : Z) : Z := pixel (_gradient_colors g) (Z.shiftr (pad ifrac (_gradient_cycleMethod g)) 8).
Lemma gradient_colour_found g ifrac : gradient_ok g -> INT_MIN <= ifrac <= INT_MAX ->
  gradient_colour g ifrac = Done (colour_at g ifrac) /\ good (colour_at g ifrac).
Proof.
  intros [L G C] Hi. unfold gradient_colour, colour_at. change (16 - LG_GRADIENT_MAP_SIZE) with 8.
  pose proof (pad_range ifrac _ Hi C) as P. set (k := Z.shiftr _ 8).
  assert (0 <= k < 256) as K by (subst k; rewrite Z.shiftr_div_pow2 by lia; change (2 ^ 8) with 256; divlia).
  unfold GRADIENT_MAP_SIZE in L. pose proof (rd_pixel (_gradient_colors g) k ltac:(lia)) as E. split; [exact E|].
  unfold rd in E. destruct (0 <=? k); [|discriminate]. destruct (_ !! Z.to_nat k) eqn:Q; [|discriminate]. injection E as <-.
  eapply (proj1 (Forall_lookup _ _) G), Q.
Qed.
Lemma float_to_jint_converts f : converts (float_to_jint f) (fun z => float_to_jint f = Done z /\ INT_MIN <= z <= INT_MAX).
Proof.
  unfold float_to_jint. destruct (trunc f) as [z|]; [|reflexivity]. destruct (is_jint z) eqn:E; [|reflexivity].
  split; [reflexivity|]. unfold is_jint in E. lia.
Qed.

Section Gradients.
Variables (g : gradient) (rdr : renderer) (height : Z) (paint : list Z).
Abbreviation W := (_alphaWidth (_window rdr)).
Hypothesis (GO : gradient_ok g) (HW : 0 < W) (Hh : 0 <= height) (HL : W * height <= Z.of_nat (length paint)).

(** The position at column [x] of row [y]: the increments are added one by one. *)
Definition linear_position (x y : Z) : float :=
  Nat.iter (Z.to_nat x) (fun f => fadd f (_lg_mx g))
    (fadd (fadd (fmul (Z_to_float (_currX (_window rdr))) (_lg_mx g)) (fmul (Z_to_float (_currY (_window rdr) + y)) (_lg_my g))) (_lg_b g)).
Definition linear_value (x y v : Z) : Prop := exists i, float_to_jint (linear_position x y) = Done i /\ v = colour_at g i /\ good v.

Lemma linear_rows : converts (genLinearGradientPaint g rdr height paint) (filled W linear_value (length paint) (in_image W height)).
Proof using GO HW Hh HL.
  apply (paint_rows_rule _ (fun y x f => f = linear_position x y)); try assumption; try lia.
  - intros y Hy. reflexivity.
  - intros x y f Hx Hy ->. eapply runs_bind; [apply float_to_jint_converts|]. intros i [E Hi].
    destruct (gradient_colour_found g i GO Hi) as [-> G]. cbn [ub_bind runs]. split; [exists i; auto|].
    unfold linear_position. replace (Z.to_nat (x + 1)) with (S (Z.to_nat x)) by lia. reflexivity.
Qed.
Lemma radial_rows : converts (genRadialGradientPaint g rdr height paint)
  (filled W (fun _ _ v => exists i, v = colour_at g i /\ good v) (length paint) (in_image W height)).
Proof using GO HW Hh HL.
  apply (paint_rows_rule _ (fun _ _ _ => True)); try assumption; try lia; [reflexivity|].
  intros x y [[[[U V] dU] dV] ddV] Hx Hy _. cbv zeta. eapply runs_bind; [apply float_to_jint_converts|]. intros i [_ Hi].
  destruct (gradient_colour_found g i GO Hi) as [-> G]. cbn [ub_bind runs]. split; [exists i; auto|exact I].
Qed.
End Gradients.

(** ** Textures *)

(** The texels from [(txMin, tyMin)] to [(txMax, tyMax)] of an image whose rows
    are in the data; an interpolated one has at least two rows and two columns. *)
Record texture_ok (t : texture) : Prop := {
  to_x : 0 <= _texture_txMin t <= _texture_txMax t; to_y : 0 <= _texture_tyMin t <= _texture_tyMax t;
  to_width : _texture_txMax t < _texture_imageWidth t; to_height : _texture_tyMax t < _texture_imageHeight t;
  to_stride : _texture_imageWidth t <= _texture_stride t;
  to_data : (_texture_imageHeight t - 1) * _texture_stride t + _texture_imageWidth t <= Z.of_nat (length (_texture_intData t));
  to_good : Forall good (_texture_intData t);
  to_type : TEXTURE_TRANSFORM_IDENTITY <= _texture_transformType t <= TEXTURE_TRANSFORM_GENERIC;
  to_interpolate : _texture_interpolate t = true -> 2 <= _texture_imageWidth t /\ 2 <= _texture_imageHeight t;
  to_repeat : _texture_repeat t = true -> _texture_imageWidth t < 32768 /\ _texture_imageHeight t < 32768 }.

Lemma lmod_mod x y : 0 < y -> lmod x y = Done (x mod y).
Proof.
  intros H. unfold lmod. destruct (Z.eqb_spec y 0); [lia|]. f_equal.
  destruct (Z.ltb_spec (Z.rem x y) 0) as [L|L].
  - pose proof (Z.quot_rem x y ltac:(lia)). pose proof (Z.rem_bound_abs x y ltac:(lia)). apply (Z.mod_unique_pos x y (Z.quot x y - 1)); lia.
  - pose proof (Z.quot_rem x y ltac:(lia)). pose proof (Z.rem_bound_abs x y ltac:(lia)). apply (Z.mod_unique_pos x y (Z.quot x y)); lia.
Qed.
(** Whatever the position, a repeated or a held coordinate is in the texture, or
    one before its first. *)
Lemma checkBounds_inside t a la mn mx n : 0 <= mn <= mx -> mx < n -> (_texture_repeat t = true -> n < 32768) ->
  yields (checkBounds t a la (mn - 1) mx) (fun '(a, _) => -1 <= a <= mx).
Proof.
  intros Hm Hn Hr. unfold checkBounds. destruct (_texture_repeat t).
  - unfold checkBoundsRepeat. rewrite Z.gtb_ltb. destruct (Z.ltb_spec a (mn - 1)), (Z.ltb_spec mx a); cbn [orb]; try (apply yields_done; lia);
      specialize (Hr eq_refl); (destruct (Z.geb_spec mx 0); [|lia]);
      (assert (s32 (Z.shiftl (mx + 1) 16) = (mx + 1) * 65536) as -> by (rewrite Z.shiftl_mul_pow2 by lia; apply s32_id; change (2 ^ 16) with 65536; unfold INT_MIN, INT_MAX; lia));
      rewrite lmod_mod by lia; cbn [ub_bind]; apply yields_done;
      pose proof (Z.mod_pos_bound la ((mx + 1) * 65536)); rewrite Z.shiftr_div_pow2 by lia; change (2 ^ 16) with 65536;
      (assert (0 <= la mod ((mx + 1) * 65536) / 65536 <= mx) by divlia); rewrite s32_id; lia.
  - unfold checkBoundsNoRepeat. apply yields_done. rewrite Z.gtb_ltb. destruct (Z.ltb_spec a (mn - 1)), (Z.ltb_spec mx a); lia.
Qed.

Lemma low16_fraction v : fraction (low16 v).
Proof.
  unfold fraction, low16. change 0xffff with (Z.ones 16). rewrite Z.land_ones by lia. pose proof (Z.mod_pos_bound v (2 ^ 16)).
  change (Z.ones 16) with 65535. change (2 ^ 16) with 65536 in *. lia.
Qed.
Lemma interp_chan_byte p0 p1 n f : fraction f -> byte (interp (chan p0 n) (chan p1 n) f).
Proof. intros Hf%fraction_65536. auto using interp_byte, chan_byte. Qed.
Lemma interpolate_good p00 p01 p10 p11 h v : fraction h -> fraction v -> good p00 -> good p01 -> good p10 -> good p11 ->
  good (interpolate2points p00 p01 h) /\ good (interpolate2pointsNoAlpha p00 p01 h) /\
  good (interpolate4points p00 p01 p10 p11 h v) /\ good (interpolate4pointsNoAlpha p00 p01 p10 p11 h v).
Proof.
  intros Hh Hv (_ & H0) (_ & H1) (_ & H2) (_ & H3). assert (byte 255) by (unfold byte; lia).
  assert (forall q0 q1 q2 q3 n, byte (interp (interp (chan q0 n) (chan q1 n) h) (interp (chan q2 n) (chan q3 n) h) v)) as K
    by (intros; apply interp_byte; [apply fraction_65536, Hv|apply interp_chan_byte, Hh..]).
  split; [|split; [|split]].
  - split; [unfold interpolate2points; cbv beta zeta; apply argb_is_pixel; apply interp_chan_byte, Hh|apply interpolate2_pre; assumption].
  - split; [unfold interpolate2pointsNoAlpha; cbv beta zeta; apply argb_is_pixel; [assumption|apply interp_chan_byte, Hh..]|apply interpolate2_opaque; assumption].
  - split; [unfold interpolate4points; cbv beta zeta; apply argb_is_pixel; apply K|apply interpolate4_pre; assumption].
  - split; [unfold interpolate4pointsNoAlpha; cbv beta zeta; apply argb_is_pixel; [assumption|apply K..]|apply interpolate4_opaque; assumption].
Qed.

Section Texels.
Variables (t : texture).
Hypothesis TO : texture_ok t.
Abbreviation data := (_texture_intData t).

Lemma data_read i : 0 <= i < Z.of_nat (length data) -> yields (rd data i) good.
Proof using TO.
  intros Hi. pose proof (rd_pixel _ _ Hi) as E. exists (pixel data i). split; [exact E|]. unfold rd in E. destruct (0 <=? i); [|discriminate].
  destruct (_ !! Z.to_nat i) eqn:Q; [|discriminate]. injection E as <-. eapply (proj1 (Forall_lookup _ _) (to_good _ TO)), Q.
Qed.
(** A texel of the image. *)
Lemma texel_read x y i : 0 <= x < _texture_imageWidth t -> 0 <= y < _texture_imageHeight t -> i = y * _texture_stride t + x -> yields (rd data i) good.
Proof using TO. intros Hx Hy ->. apply data_read. pose proof (to_data _ TO). pose proof (to_stride _ TO). nia. Qed.

(** The four points that are interpolated are all read inside the data. *)
Lemma points_read tx ty p00 : _texture_interpolate t = true ->
  -1 <= tx < _texture_imageWidth t -> -1 <= ty < _texture_imageHeight t -> good p00 ->
  yields ((if _texture_repeat t then getPointsToInterpolateRepeat else getPointsToInterpolate) data
            (Z.max 0 ty * _texture_stride t + Z.max 0 tx) (_texture_stride t) p00 tx (_texture_imageWidth t - 1) ty (_texture_imageHeight t - 1))
    (fun '(pts0, pts1, pts2) => good pts0 /\ good pts1 /\ good pts2).
Proof using TO.
  intros I Hx Hy G. destruct (to_interpolate _ TO I) as [W2 H2].
  set (cx := Z.max 0 tx). set (cy := Z.max 0 ty).
  assert (0 <= cx < _texture_imageWidth t /\ 0 <= cy < _texture_imageHeight t) as [Cx Cy] by lia.
  destruct (_texture_repeat t); unfold getPointsToInterpolateRepeat, getPointsToInterpolate; rewrite ?(Z.max_comm tx 0); fold cx; cbv zeta.
  - set (ny := if ty >=? _texture_imageHeight t - 1 then 0 else cy + 1). set (nx := if tx <? _texture_imageWidth t - 1 then cx + 1 else 0).
    assert (0 <= ny < _texture_imageHeight t) as Ny by (subst ny; destruct (Z.geb_spec ty (_texture_imageHeight t - 1)); lia).
    assert (0 <= nx < _texture_imageWidth t) as Nx by (subst nx; destruct (Z.ltb_spec tx (_texture_imageWidth t - 1)); lia).
    assert ((if ty >=? _texture_imageHeight t - 1 then cx else cy * _texture_stride t + cx + _texture_stride t) = ny * _texture_stride t + cx) as ->
      by (subst ny; destruct (_ >=? _); lia).
    eapply (yields_bind _ _ good); [subst nx; destruct (_ <? _); [apply (texel_read (cx + 1) cy)|apply (texel_read 0 cy)]; lia|]. intros p0 G0.
    eapply (yields_bind _ _ good); [apply (texel_read cx ny); lia|]. intros p1 G1.
    eapply (yields_bind _ _ good); [subst nx; destruct (_ <? _); [apply (texel_read (cx + 1) ny)|apply (texel_read 0 ny)]; lia|]. intros p2 G2.
    apply yields_done. auto.
  - set (ny := if ty >=? _texture_imageHeight t - 1 then cy else cy + 1).
    assert (0 <= ny < _texture_imageHeight t) as Ny by (subst ny; destruct (Z.geb_spec ty (_texture_imageHeight t - 1)); lia).
    assert ((if ty >=? _texture_imageHeight t - 1 then cy * _texture_stride t + cx else cy * _texture_stride t + cx + _texture_stride t) = ny * _texture_stride t + cx) as ->
      by (subst ny; destruct (_ >=? _); lia).
    destruct (Z.ltb_spec tx (_texture_imageWidth t - 1)).
    + eapply (yields_bind _ _ good); [apply (texel_read (cx + 1) cy); lia|]. intros p0 G0.
      eapply (yields_bind _ _ good); [apply (texel_read cx ny); lia|]. intros p1 G1.
      eapply (yields_bind _ _ good); [apply (texel_read (cx + 1) ny); lia|]. intros p2 G2. apply yields_done. auto.
    + cbn [ub_bind]. eapply (yields_bind _ _ good); [apply (texel_read cx ny); lia|]. intros p1 G1.
      eapply (yields_bind _ _ good); [apply (texel_read cx ny); lia|]. intros p2 G2. apply yields_done. auto.
Qed.

Lemma texel_good tx ty h v : -1 <= tx < _texture_imageWidth t -> -1 <= ty < _texture_imageHeight t -> fraction h -> fraction v ->
  yields (texel t tx ty h v) good.
Proof using TO.
  intros Hx Hy Hh Hv. unfold texel. cbv zeta. pose proof (to_x _ TO). pose proof (to_y _ TO). pose proof (to_width _ TO). pose proof (to_height _ TO).
  eapply (yields_bind _ _ good); [apply (texel_read (Z.max 0 tx) (Z.max 0 ty)); lia|]. intros p00 G.
  destruct (_texture_interpolate t) eqn:I; cbn [negb]; [|apply yields_done, G].
  eapply yields_bind; [apply points_read; assumption|]. intros [[p0 p1] p2] (G0 & G1 & G2). apply yields_done.
  destruct (interpolate_good p00 p0 p1 p2 h v Hh Hv G G0 G1 G2) as (K1 & K2 & K3 & K4).
  destruct (interpolate_good p00 p1 p1 p2 v h Hv Hh G G1 G1 G2) as (K5 & K6 & _).
  destruct (_texture_hasAlpha t), (negb (h =? 0)), (negb (v =? 0)); assumption.
Qed.

(** *** Pixels of the three kinds of map *)

Lemma checkBounds_x a la : yields (checkBounds t a la (_texture_txMin t - 1) (_texture_txMax t)) (fun '(a, _) => -1 <= a < _texture_imageWidth t).
Proof using TO.
  destruct TO. eapply yields_mono; [apply (checkBounds_inside _ _ _ _ _ (_texture_imageWidth t)); auto|]; [intros R; apply to_repeat0, R|].
  intros [a' la'] H. lia.
Qed.
Lemma checkBounds_y a la : yields (checkBounds t a la (_texture_tyMin t - 1) (_texture_tyMax t)) (fun '(a, _) => -1 <= a < _texture_imageHeight t).
Proof using TO.
  destruct TO. eapply yields_mono; [apply (checkBounds_inside _ _ _ _ _ (_texture_imageHeight t)); auto|]; [intros R; apply to_repeat0, R|].
  intros [a' la'] H. lia.
Qed.

Lemma scale_pixel_good s : yields (scale_pixel t s) (fun '(v, _) => good v).
Proof using TO.
  destruct s as [ltx lty]. unfold scale_pixel. cbv zeta. eapply yields_bind; [apply checkBounds_x|]. intros [tx ltx'] Hx.
  eapply yields_bind; [apply checkBounds_y|]. intros [ty lty'] Hy.
  eapply yields_bind; [apply (texel_good tx ty); auto using low16_fraction|]. intros v G. apply yields_done, G.
Qed.
Lemma good_0 : good 0.
Proof. split; [unfold is_pixel, INT_MIN, INT_MAX; lia|]. intros c Hc. destruct Hc; vm_compute; discriminate. Qed.
Lemma generic_pixel_good s : yields (generic_pixel t s) (fun '(v, _) => good v).
Proof using TO.
  unfold generic_pixel. destruct (_texture_repeat t); [apply scale_pixel_good|]. destruct s as [ltx lty]. cbv zeta.
  eapply (yields_bind _ _ good); [|intros v G; apply yields_done, G].
  destruct (_ && _) eqn:B; [|apply yields_done, good_0]. apply andb_prop in B as [Bx By]. unfold isInBoundsNoRepeat in *.
  apply negb_true_iff, orb_false_iff in Bx as [Bx1 Bx2]. apply negb_true_iff, orb_false_iff in By as [By1 By2].
  destruct TO. apply texel_good; auto using low16_fraction; lia.
Qed.

Lemma translate_row_ok x y : yields (translate_row t x y) (fun '(_, ty, h, v) => -1 <= ty < _texture_imageHeight t /\ fraction h /\ fraction v).
Proof using TO.
  unfold translate_row. cbv zeta. eapply yields_bind; [apply checkBounds_y|]. intros [ty lty] Hy. apply yields_done. auto using low16_fraction.
Qed.
End Texels.

Section Texture_rows.
Variables (t : texture) (rdr : renderer) (height : Z) (paint : list Z).
Abbreviation W := (_alphaWidth (_window rdr)).
Abbreviation all_good := (filled W (fun _ _ v => good v) (length paint) (in_image W height)).
Hypothesis (TO : texture_ok t) (HW : 0 < W) (Hh : 0 <= height) (HL : W * height <= Z.of_nat (length paint)).

(** Rows whose pixels are good whatever the state. *)
Lemma paint_rows_good {S} (start : Z -> ub S) step : (forall y, yields (start y) (fun _ => True)) -> (forall s, yields (step s) (fun '(v, _) => good v)) ->
  yields (paint_rows rdr height start step paint) all_good.
Proof using HW Hh HL.
  intros Hst Hsp. apply runs_yields. apply (paint_rows_rule _ (fun _ _ _ => True)); try assumption; try lia.
  - intros y _. apply yields_runs, Hst.
  - intros x y s _ _ _. eapply runs_mono; [apply yields_runs, Hsp|]. intros [v s'] G. auto.
Qed.

(** The run of a row that is copied: each of its three parts lies in the row of
    the buffer, and column [x] has the texel of column [tx + x], held between
    the first and the last. *)
Lemma fill_rule (V : Z -> Z -> Z -> Prop) y from n src (b : list Z) : 0 <= y < height -> 0 <= from -> 0 <= n -> from + n <= W ->
  (forall k, 0 <= k < n -> yields (rd (_texture_intData t) (src k)) (V (from + k) y)) ->
  filled W V (length paint) (rows_before W y from) b ->
  yields (for_to n (fun k b => do* v := rd (_texture_intData t) (src k) in wr b (y * W + from + k) v) b)
    (filled W V (length paint) (rows_before W y (from + n))).
Proof using HL.
  intros Hy Hf Hn Hs R F. clear TO HW Hh. apply (for_to_yields (fun k => filled W V (length paint) (rows_before W y (from + k)))); [exact Hn| |rewrite Z.add_0_r; exact F].
  intros k c Hk Fk. eapply yields_bind; [apply R, Hk|]. intros v G. rewrite <- Z.add_assoc.
  replace (from + (k + 1)) with (from + k + 1) by lia. apply filled_step; try assumption; try lia. nia.
Qed.
Definition held_column (tx : Z) : Z := Z.max (_texture_txMin t) (Z.min (_texture_txMax t) tx).
Lemma translate_copy_rule (V : Z -> Z -> Z -> Prop) y ltx ty b : 0 <= y < height ->
  (forall x, 0 <= x < W -> yields (rd (_texture_intData t) (Z.max 0 ty * _texture_stride t + held_column (integer_part ltx + x))) (V x y)) ->
  filled W V (length paint) (rows_before W y 0) b ->
  yields (translate_copy t W ltx ty (y * W) b) (filled W V (length paint) (rows_before W y W)).
Proof using TO HW HL.
  intros Hy R F. unfold translate_copy. cbv zeta. set (tx := integer_part ltx) in *. set (before := Z.max 0 (Z.min (_texture_txMin t - tx) W)).
  set (len := Z.max 0 (Z.min (W - before) (_texture_txMax t - (tx + before) + 1))).
  assert (0 <= before /\ 0 <= len /\ before + len <= W) as (B1 & B2 & B3) by (subst before len; lia). pose proof (to_x _ TO).
  assert (forall from n src, 0 <= from -> from + n <= W -> (forall k, 0 <= k < n -> src k = Z.max 0 ty * _texture_stride t + held_column (tx + (from + k))) ->
    forall k, 0 <= k < n -> yields (rd (_texture_intData t) (src k)) (V (from + k) y)) as S
    by (intros from n src Hf Hn Hs k Hk; rewrite Hs by exact Hk; apply R; lia).
  eapply yields_bind; [apply (fill_rule V y 0 before (fun _ => Z.max 0 ty * _texture_stride t + _texture_txMin t)); try assumption; try lia;
    apply S; try lia; intros; unfold held_column; subst before; lia|].
  rewrite Z.add_0_l. intros b1 F1.
  eapply yields_bind; [apply (fill_rule V y before len (fun k => Z.max 0 ty * _texture_stride t + (tx + before + k))); try assumption;
    apply S; try lia; intros; unfold held_column; subst before len; lia|].
  intros b2 F2. eapply yields_mono;
    [apply (fill_rule V y (before + len) (W - before - len) (fun _ => Z.max 0 ty * _texture_stride t + _texture_txMax t)); try assumption; try lia;
     apply S; try lia; intros; unfold held_column; subst before len; lia|].
  intros b3. replace (before + len + (W - before - len)) with W by lia. auto.
Qed.
Lemma held_column_inside tx : 0 <= held_column tx < _texture_imageWidth t.
Proof using TO. clear HW Hh HL. pose proof (to_x _ TO). pose proof (to_width _ TO). unfold held_column. lia. Qed.
Lemma translate_copy_good y ltx ty b : 0 <= y < height -> -1 <= ty < _texture_imageHeight t ->
  filled W (fun _ _ v => good v) (length paint) (rows_before W y 0) b ->
  yields (translate_copy t W ltx ty (y * W) b) (filled W (fun _ _ v => good v) (length paint) (rows_before W y W)).
Proof using TO HW HL.
  intros Hy Ht. apply translate_copy_rule; [exact Hy|]. intros x Hx. pose proof (held_column_inside (integer_part ltx + x)).
  pose proof (to_y _ TO). pose proof (to_height _ TO). apply (texel_read t TO (held_column (integer_part ltx + x)) (Z.max 0 ty)); lia.
Qed.

Lemma texture_rows : yields (genTexturePaintTarget t rdr height paint) all_good.
Proof using TO HW Hh HL.
  unfold genTexturePaintTarget. cbv zeta. set (ty := _texture_transformType t).
  destruct (_ || _) eqn:E1; [|destruct (Z.eqb_spec ty TEXTURE_TRANSFORM_SCALE_TRANSLATE); [|destruct (Z.eqb_spec ty TEXTURE_TRANSFORM_GENERIC)]].
  - clear E1. unfold genTranslate. destruct (_texture_repeat t || _texture_interpolate t).
    + apply runs_yields.
      apply (paint_rows_rule _ (fun _ _ '(_, ty, h, v) => -1 <= ty < _texture_imageHeight t /\ fraction h /\ fraction v)); try assumption; try lia.
      * intros y _. apply yields_runs, translate_row_ok, TO.
      * intros x y [[[ltx ty'] h] v] _ _ (Hy & H & V). unfold translate_pixel. eapply runs_bind; [apply yields_runs, checkBounds_x, TO|]. intros [tx ltx'] Hx.
        eapply runs_bind; [apply yields_runs, (texel_good t TO tx ty' h v); assumption|]. intros p G. apply runs_done. auto.
    + eapply yields_mono; [apply (for_to_yields (fun y => filled W (fun _ _ v => good v) (length paint) (rows_before W y 0))); [exact Hh| |]|].
      * intros y b Hy F. eapply yields_bind; [apply translate_row_ok, TO|]. intros [[[ltx ty'] h] v] (Ht & _).
        eapply yields_mono; [apply translate_copy_good; assumption|]. intros c [L G]. split; [exact L|]. intros x' y' H%rows_line; [apply G, H|lia].
      * split; [reflexivity|]. intros x y []%rows_start.
      * intros b [L G]. split; [exact L|]. intros x y Hxy. apply G, rows_end, Hxy.
  - apply paint_rows_good; [intros y; apply yields_done; exact I|apply scale_pixel_good, TO].
  - apply paint_rows_good; [intros y; apply yields_done; exact I|apply generic_pixel_good, TO].
  - exfalso. pose proof (to_type _ TO) as T. apply orb_false_iff in E1. fold ty in T. clearbody ty. revert T E1 n n0.
    unfold TEXTURE_TRANSFORM_IDENTITY, TEXTURE_TRANSFORM_TRANSLATE, TEXTURE_TRANSFORM_SCALE_TRANSLATE, TEXTURE_TRANSFORM_GENERIC. lia.
Qed.
(** A texture moved by whole pixels, neither repeated nor interpolated: each
    pixel is the texel at its place, held at the borders of the part in use; the
    row before that part counts as part of it. *)
Definition held_row (ty : Z) : Z := Z.max 0 (Z.max (_texture_tyMin t - 1) (Z.min (_texture_tyMax t) ty)).
Definition moved_texel (X Y : Z) : Z := pixel (_texture_intData t) (held_row Y * _texture_stride t + held_column X).
Record moved (dx dy : Z) : Prop := {
  mv_repeat : _texture_repeat t = false; mv_interpolate : _texture_interpolate t = false;
  mv_type : _texture_transformType t = TEXTURE_TRANSFORM_IDENTITY \/ _texture_transformType t = TEXTURE_TRANSFORM_TRANSLATE;
  mv_x : _texture_m02 t = dx * 65536; mv_y : _texture_m12 t = dy * 65536 }.
Definition small (v : Z) : Prop := -32768 <= v < 32768.
Lemma moved_position v d : small v -> small d -> integer_part (s64 (s32 (Z.shiftl v 16) + d * 65536)) = v + d.
Proof using.
  clear TO HW Hh HL. unfold small, integer_part. intros Hv Hd. rewrite Z.shiftl_mul_pow2 by lia. change (2 ^ 16) with 65536. rewrite (s32_id (v * 65536)) by (unfold INT_MIN, INT_MAX; lia).
  rewrite s64_small by (unfold INT64_MIN, INT64_MAX; lia). replace (v * 65536 + d * 65536) with ((v + d) * 65536) by lia. rewrite Z.shiftr_div_pow2 by lia. change (2 ^ 16) with 65536.
  rewrite Z.div_mul by lia. apply s32_id. unfold INT_MIN, INT_MAX. lia.
Qed.
Lemma held_between a la mn mx : mn <= mx -> checkBoundsNoRepeat a la mn mx = Done (Z.max mn (Z.min mx a), la).
Proof using.
  clear TO HW Hh HL. intros H. unfold checkBoundsNoRepeat. rewrite Z.gtb_ltb. destruct (Z.ltb_spec a mn), (Z.ltb_spec mx a); repeat f_equal; lia.
Qed.
Lemma texture_copied dx dy : moved dx dy -> small dx -> small dy -> small (_currX (_window rdr)) ->
  (forall y, 0 <= y < height -> small (_currY (_window rdr) + y)) ->
  yields (genTexturePaintTarget t rdr height paint)
    (filled W (fun x y v => v = moved_texel (_currX (_window rdr) + dx + x) (_currY (_window rdr) + y + dy) /\ good v) (length paint) (in_image W height)).
Proof using TO HW Hh HL.
  intros M Sdx Sdy SX SY. set (V := fun x y v => _ /\ _). unfold genTexturePaintTarget. cbv zeta.
  assert ((_texture_transformType t =? TEXTURE_TRANSFORM_IDENTITY) || (_texture_transformType t =? TEXTURE_TRANSFORM_TRANSLATE) = true) as ->
    by (destruct (mv_type _ _ M) as [-> | ->]; reflexivity).
  unfold genTranslate. rewrite (mv_repeat _ _ M), (mv_interpolate _ _ M). cbn [orb].
  eapply yields_mono; [apply (for_to_yields (fun y => filled W V (length paint) (rows_before W y 0))); [exact Hh| |]|].
  - intros y b Hy F. unfold translate_row, checkBounds. cbv zeta. rewrite (mv_repeat _ _ M), (mv_x _ _ M), (mv_y _ _ M).
    rewrite (moved_position (_currY (_window rdr) + y)) by auto. rewrite held_between by (pose proof (to_y _ TO); lia). cbn [ub_bind].
    set (ty := Z.max _ _). assert (Z.max 0 ty = held_row (_currY (_window rdr) + y + dy)) as Et by reflexivity. clearbody ty.
    eapply yields_mono; [apply (translate_copy_rule V); [exact Hy| |exact F]|].
    + intros x Hx. rewrite Et, moved_position by assumption. pose proof (held_column_inside (_currX (_window rdr) + dx + x)) as C.
      assert (0 <= held_row (_currY (_window rdr) + y + dy) < _texture_imageHeight t) as R
        by (unfold held_row; pose proof (to_y _ TO); pose proof (to_height _ TO); lia).
      destruct (texel_read t TO _ _ _ C R eq_refl) as (v & E & G). exists v. split; [exact E|]. split; [|exact G].
      unfold moved_texel, pixel. unfold rd in E. destruct (0 <=? _); [|discriminate]. destruct (_ !! _) eqn:K; [|discriminate]. injection E as <-.
      symmetry. apply nth_lookup_Some. exact K.
    + intros c [L G]. split; [exact L|]. intros x' y' H%rows_line; [apply G, H|lia].
  - split; [reflexivity|]. intros x y []%rows_start.
  - intros b [L G]. split; [exact L|]. intros x y Hxy. apply G, rows_end, Hxy.
Qed.
End Texture_rows.

(** ** Multiplied textures *)

Lemma times_bounds p x a : 1 <= p <= 256 -> 0 <= x <= a -> a <= 255 -> 0 <= times p x <= times p a /\ times p a <= a /\ times p x = times x p.
Proof.
  intros Hp Hx Ha. unfold times. rewrite (Z.mul_comm p x), (Z.mul_comm p a).
  destruct (scaled_bounds x a p) as [B1 B2]; [exact Hx|exact Ha|lia|]. auto.
Qed.
Lemma argb_good a r g b : 0 <= a <= 255 -> 0 <= r <= a -> 0 <= g <= a -> 0 <= b <= a -> good (argb a r g b).
Proof. intros. split; [apply argb_is_pixel|apply pre_argb]; unfold byte; lia. Qed.
Lemma multiply_colour_good p r g b v : 1 <= p <= 256 -> byte r -> byte g -> byte b -> good v -> good (multiply_colour p r g b v).
Proof.
  unfold byte. intros Hp Hr Hg Hb [_ Hv]. pose proof (chan_byte v 24) as A. unfold byte in A.
  assert (forall k c, 0 <= k <= 255 -> channel c -> 0 <= times (times (k + 1) (chan v c)) p <= times p (chan v 24)) as K.
  { intros k c Hk Hc. pose proof (pre_chan v c Hv Hc). destruct (times_bounds (k + 1) (chan v c) (chan v 24)) as (B1 & B2 & _); try lia.
    destruct (times_bounds p (times (k + 1) (chan v c)) (chan v 24)) as (B3 & B4 & <-); lia. }
  assert (0 <= times p (chan v 24) <= 255) as P by (destruct (times_bounds p (chan v 24) (chan v 24)) as (B1 & B2 & _); lia).
  unfold multiply_colour. pose proof (K r 16 Hr red) as R. pose proof (K g 8 Hg green) as G. pose proof (K b 0 Hb blue) as B.
  apply argb_good; assumption.
Qed.
Lemma multiply_alpha_good p v : 1 <= p <= 256 -> good v -> good (multiply_alpha p v).
Proof.
  intros Hp [_ Hv]. pose proof (chan_byte v 24) as A. unfold byte in A.
  assert (forall c, channel c -> 0 <= times p (chan v c) <= times p (chan v 24)) as K.
  { intros c Hc. pose proof (pre_chan v c Hv Hc). apply times_bounds; lia. }
  assert (0 <= times p (chan v 24) <= 255) as P by (destruct (times_bounds p (chan v 24) (chan v 24)) as (B1 & B2 & _); lia).
  unfold multiply_alpha. apply argb_good; [exact P|apply K; constructor..].
Qed.

Lemma paint_ok_wr n b i v : paint_ok n b -> 0 <= i < n -> good v -> yields (wr b i v) (paint_ok n).
Proof.
  intros [L F] Hi G. rewrite wr_done by lia. apply yields_done. split; [rewrite length_insert; exact L|].
  intros j Hj. rewrite pixel_insert by lia. destruct (i =? j); [exact G|apply F, Hj].
Qed.
Lemma multiply_rows_good rdr height f b : _maxTouched (_window rdr) - _minTouched (_window rdr) + 1 = _alphaWidth (_window rdr) -> 0 <= height ->
  (forall i v, 0 <= i < _alphaWidth (_window rdr) * height -> good v -> yields (f i v) good) ->
  paint_ok (_alphaWidth (_window rdr) * height) b -> yields (multiply_rows rdr height f b) (paint_ok (_alphaWidth (_window rdr) * height)).
Proof.
  intros HW Hh Hf B. unfold multiply_rows. rewrite HW. set (W := _alphaWidth (_window rdr)) in *.
  apply runs_yields. eapply runs_mono; [apply (runs_for_to _ (fun _ => paint_ok (W * height)))|intros b' H; exact H]; [|exact B].
  intros y c Hy C. cbv zeta. eapply runs_mono; [apply (runs_for_to _ (fun _ => paint_ok (W * height)))|intros b' H; exact H]; [|exact C].
  intros x d Hx D. assert (0 <= y * W + x < W * height) as Hi by nia.
  destruct (paint_pixel _ _ _ D Hi) as [-> G]. cbn [ub_bind].
  eapply runs_bind; [apply yields_runs, (Hf _ _ Hi G)|]. intros v Gv. apply yields_runs, paint_ok_wr; assumption.
Qed.

(** ** The generators *)

Section Generators.
Variables (t : texture) (g : gradient) (rdr : renderer) (height : Z) (paint : list Z).
Abbreviation W := (_alphaWidth (_window rdr)).
Hypothesis (HW : 0 < W) (Hh : 0 <= height) (HL : W * height <= Z.of_nat (length paint)).
Hypothesis (HT : _maxTouched (_window rdr) - _minTouched (_window rdr) + 1 = W).

Lemma linear_ok : gradient_ok g -> converts (genLinearGradientPaint g rdr height paint) (paint_ok (W * height)).
Proof using HW Hh HL.
  intros GO. eapply converts_mono; [apply linear_rows; assumption|]. intros b. apply filled_paint_ok; try assumption. intros x y v (i & _ & _ & G). exact G.
Qed.
Lemma radial_ok : gradient_ok g -> converts (genRadialGradientPaint g rdr height paint) (paint_ok (W * height)).
Proof using HW Hh HL.
  intros GO. eapply converts_mono; [apply radial_rows; assumption|]. intros b. apply filled_paint_ok; try assumption. intros x y v (i & _ & G). exact G.
Qed.
Lemma texture_paint_ok : texture_ok t -> yields (genTexturePaintTarget t rdr height paint) (paint_ok (W * height)).
Proof using HW Hh HL. intros TO. eapply yields_mono; [apply texture_rows; assumption|]. intros b. apply filled_paint_ok; auto. Qed.
End Generators.

Definition plain_or_gradient (mode : Z) : Prop := mode = PAINT_FLAT_COLOR \/ mode = PAINT_LINEAR_GRADIENT \/ mode = PAINT_RADIAL_GRADIENT.

Lemma multiply_ok t g rdr height paint : let W := _alphaWidth (_window rdr) in
  0 < W -> 0 < height -> W * height <= Z.of_nat (length paint) -> _maxTouched (_window rdr) - _minTouched (_window rdr) + 1 = W ->
  W < INT_MAX / height / 4 -> texture_ok t -> gradient_ok g -> colour_ok (_c rdr) -> plain_or_gradient (_prevPaintMode rdr) ->
  converts (genTexturePaintMultiply true t g rdr height paint) (paint_ok (W * height)).
Proof.
  intros W HW Hh HL HT HI TO GO (Cr & Cg & Cb & Ca) M. unfold genTexturePaintMultiply. destruct (_c rdr) as [cred cgreen cblue calpha].
  cbn [c_red c_green c_blue c_alpha] in *. cbv zeta. rewrite HT. unfold byte in *.
  destruct (Z.eqb_spec (_prevPaintMode rdr) PAINT_FLAT_COLOR) as [_|N].
  - eapply converts_bind; [apply converts_yields, (texture_paint_ok t rdr height paint HW ltac:(lia) HL TO)|]. fold W. intros b B.
    assert (forall p, 1 <= p <= 256 -> forall i v, 0 <= i < W * height -> good v -> yields (Done (multiply_alpha p v)) good) as KA
      by (intros; apply yields_done, multiply_alpha_good; assumption).
    assert (forall i v, 0 <= i < W * height -> good v -> yields (Done (multiply_colour (calpha + 1) cred cgreen cblue v)) good) as KC
      by (intros; apply yields_done, multiply_colour_good; unfold byte; lia || assumption).
    destruct (_ && _); [destruct (_ <? _); [|exact B]|];
      apply converts_yields, multiply_rows_good; try assumption; try lia. apply KA. lia.
  - assert ((_prevPaintMode rdr =? PAINT_LINEAR_GRADIENT) || (_prevPaintMode rdr =? PAINT_RADIAL_GRADIENT) = true) as ->.
    { destruct M as [M|[M|M]]; [contradiction| |]; rewrite M; reflexivity. }
    assert ((W >? 0) && (height >? 0) && (W <? INT_MAX / height / 4) = true) as -> by (rewrite !Z.gtb_ltb; lia).
    eapply (converts_bind _ _ (paint_ok (W * height))).
    { destruct (_ =? _); [apply linear_ok|apply radial_ok]; try assumption; lia. }
    intros b B. eapply converts_bind; [apply converts_yields, (texture_paint_ok t rdr height); try assumption; try lia; rewrite repeat_length; fold W; nia|].
    fold W. intros im I. apply converts_yields, multiply_rows_good; try assumption; try lia.
    intros i v Hi Gv. destruct (paint_pixel _ _ _ I Hi) as [-> Gi]. cbn [ub_bind]. apply yields_done.
    apply multiply_colour_good; auto using chan_byte. pose proof (chan_byte v 24) as A. unfold byte in A. lia.
Qed.

(** ** What the paints promise *)

(** The linear gradient: column [x] of row [y] has the table's colour at the
    position [x*mx + y*my + b], which is held, repeated or reflected; nothing is
    read outside the table and only a position that is no [jint] is undefined. *)
Theorem linear_gradient_paints g rdr height paint : gradient_ok g ->
  0 < _alphaWidth (_window rdr) -> 0 <= height -> _alphaWidth (_window rdr) * height <= Z.of_nat (length paint) ->
  converts (genLinearGradientPaint g rdr height paint) (fun b => length b = length paint /\
    forall x y, in_image (_alphaWidth (_window rdr)) height x y -> exists i, float_to_jint (linear_position g rdr x y) = Done i /\
      pixel b (y * _alphaWidth (_window rdr) + x) = pixel (_gradient_colors g) (Z.shiftr (pad i (_gradient_cycleMethod g)) 8)).
Proof.
  intros GO HW Hh HL. eapply converts_mono; [apply (linear_rows g rdr height paint GO HW Hh HL)|]. intros b [L F]. split; [exact L|].
  intros x y Hxy. destruct (F x y Hxy) as (i & E & K & _). exists i. auto.
Qed.

(** C23: Textures of every transform, repeated or not and interpolated or not, are
    read inside their data at any position, and fill the buffer with
    premultiplied pixels.  The part in use lies in the data, which are
    premultiplied; an interpolated texture has at least two rows and two columns
    ([one_texel_is_read_outside]), a repeated one fewer than 32768 of each
    ([wide_texture_divides_by_zero]). *)
Theorem textures_are_sampled_inside t rdr height paint : texture_ok t ->
  0 < _alphaWidth (_window rdr) -> 0 <= height -> _alphaWidth (_window rdr) * height <= Z.of_nat (length paint) ->
  yields (genTexturePaintTarget t rdr height paint) (fun b => length b = length paint /\
    forall x y, in_image (_alphaWidth (_window rdr)) height x y -> good (pixel b (y * _alphaWidth (_window rdr) + x))).
Proof. intros TO HW Hh HL. apply (texture_rows t rdr height paint TO HW Hh HL). Qed.

Definition sample_texture (w h : Z) (data : list Z) (interpolate repeats : bool) (type m00 m02 m12 : Z) : texture :=
  mkTexture data true w h w 0 0 (w - 1) (h - 1) repeats m00 0 m02 0 m00 m12 interpolate type.
Definition black_white : texture := sample_texture 2 2 [argb 255 0 0 0; argb 255 255 255 255; argb 255 0 0 0; argb 255 255 255 255] true false
  TEXTURE_TRANSFORM_TRANSLATE 65536 (- 16384) 0.

Lemma textures_are_sampled_inside_witness : yields (genTexturePaintTarget black_white (sample_renderer (mkColour 0 0 0 255) 4 4 0 0 3 0 0) 2 (repeat 0 6))
  (fun b => length b = 6%nat /\ forall x y, in_image 3 2 x y -> good (pixel b (y * 3 + x))).
Proof.
  apply (textures_are_sampled_inside black_white (sample_renderer (mkColour 0 0 0 255) 4 4 0 0 3 0 0) 2 (repeat 0 6)); try (cbn; lia).
  split; cbn; try lia; try (intros; discriminate); try (unfold TEXTURE_TRANSFORM_IDENTITY, TEXTURE_TRANSFORM_TRANSLATE, TEXTURE_TRANSFORM_GENERIC; lia).
  repeat constructor; try (apply argb_is_pixel; unfold byte; lia); apply pre_argb; unfold byte; lia.
Defined.

Lemma linear_gradient_paints_witness :
  let g := mkGradient CYCLE_REPEAT (repeat 0 256) f_one f_zero f_zero f_zero f_zero f_zero f_zero f_zero f_zero f_zero f_zero f_zero f_zero f_zero f_zero f_zero f_zero f_zero in
  converts (genLinearGradientPaint g (sample_renderer (mkColour 0 0 0 255) 4 4 0 0 3 0 0) 2 (repeat 0 6)) (fun b => length b = 6%nat /\
    forall x y, in_image 3 2 x y -> exists i, float_to_jint (linear_position g (sample_renderer (mkColour 0 0 0 255) 4 4 0 0 3 0 0) x y) = Done i /\
      pixel b (y * 3 + x) = pixel (repeat 0 256) (Z.shiftr (pad i CYCLE_REPEAT) 8)).
Proof.
  intros g. apply (linear_gradient_paints g (sample_renderer (mkColour 0 0 0 255) 4 4 0 0 3 0 0) 2 (repeat 0 6)); try (cbn; lia).
  split; [reflexivity| |vm_compute; split; discriminate]. apply List.Forall_forall. intros v ->%repeat_spec. apply good_0.
Defined.

(** A quarter of a texel before the first column the texture is mixed with the
    column on the other side: the texel is three quarters white, where the first
    column, black, should be held. *)
Example left_border_mixes_the_second_column :
  genTexturePaintTarget black_white (sample_renderer (mkColour 0 0 0 255) 4 4 0 0 1 0 0) 1 [0] = Done [argb 255 191 191 191].
Proof. vm_compute. reflexivity. Qed.

(** One row or one column is too little for the interpolation: its second row,
    or column, is read. *)
Example one_texel_is_read_outside : let t := sample_texture 1 1 [0] true false TEXTURE_TRANSFORM_SCALE_TRANSLATE 32768 (- 32768) (- 32768) in
  genTexturePaintTarget t (sample_renderer (mkColour 0 0 0 255) 4 4 0 0 2 0 0) 2 [0; 0; 0; 0] = Undefined OutOfBounds.
Proof. vm_compute. reflexivity. Qed.

(** A repeated texture of 65536 columns: [(max + 1) << 16] is zero. *)
Example wide_texture_divides_by_zero : checkBoundsRepeat 65536 (65536 * 65536) (- 1) 65535 = Undefined DivideByZero.
Proof. vm_compute. reflexivity. Qed.
