(* ===== verification/PiscesRenderer.v ===== *)
(** * The renderer's routines ([PiscesRenderer.inl])

    What Java sets only marks what depends on it as invalid; before anything is
    drawn, [VALIDATE_BLITTING] brings the colour, the copy of the surface's layout
    and the chosen routines up to date, each level of choice by the level above.
    The theorem: whatever was called before, after the validation the routines
    are those the mask, the rule and the paint call for. *)

From Stdlib Require Import Floats.SpecFloat.
From S2P Require Import Prelude CFloat Float32 DecoraApi Argb Painted PiscesPixel PiscesRdr PiscesBlit PiscesPaint.
Local Open Scope Z_scope.
Local Open Scope ub_scope.

(** ** Flags *)

Definition INVALID_COLOR_ALPHA_MAP : Z := 1.
Definition INVALID_PAINT_ALPHA_MAP : Z := 2.
Definition INVALID_INTERNAL_COLOR : Z := 8.
Definition INVALID_RENDERER_SURFACE : Z := 16.
Definition INVALID_COMPOSITE_DEPENDED_ROUTINES : Z := 32.
Definition INVALID_PAINT_DEPENDED_ROUTINES : Z := 64.
Definition INVALID_MASK_DEPENDED_ROUTINES : Z := 128.
Definition INVALID_BLITTING_MASK : Z :=
  Z.lor (Z.lor (Z.lor (Z.lor INVALID_INTERNAL_COLOR INVALID_RENDERER_SURFACE) INVALID_COMPOSITE_DEPENDED_ROUTINES) INVALID_PAINT_DEPENDED_ROUTINES)
    INVALID_MASK_DEPENDED_ROUTINES.
Definition INVALID_ALL : Z := Z.lor (Z.lor INVALID_COLOR_ALPHA_MAP INVALID_PAINT_ALPHA_MAP) INVALID_BLITTING_MASK.

Definition has (state flag : Z) : bool := negb (Z.land state flag =? 0).
(** [_rendererState |= flag] and [_rendererState &= ~flag] *)
Definition invalidate (flag : Z) (rdr : renderer) : renderer := rdr <| _rendererState := Z.lor (_rendererState rdr) flag |>.
Definition validated (flag : Z) (rdr : renderer) : renderer := rdr <| _rendererState := Z.land (_rendererState rdr) (Z.lnot flag) |>.

(** ** What Java sets *)

(** The memory comes from [calloc]. *)
Definition createCommon (s : surface) : renderer :=
  let black := mkColour 0 0 0 0 in
  mkRenderer PAINT_FLAT_COLOR 0 COMPOSITE_SRC_OVER NO_MASK black black s (mkSurface 0 0 0 0 0 (- 1)) no_routines
    (mkWindow 0 0 0 0 0 0 0 0 0 0) (mkClip 0 0 (s_width s - 1) (s_height s - 1)) INVALID_ALL.

Definition renderer_setClip (rdr : renderer) (minX minY width height : Z) : renderer :=
  rdr <| _clip := mkClip minX minY (minX + width - 1) (minY + height - 1) |>.

Definition setPaintMode (rdr : renderer) (newPaintMode : Z) : renderer :=
  if _paintMode rdr =? newPaintMode then rdr
  else
    let rdr := invalidate INVALID_PAINT_DEPENDED_ROUTINES rdr in
    rdr <| _prevPaintMode := _paintMode rdr |> <| _paintMode := newPaintMode |>.

Definition renderer_setColor (rdr : renderer) (red green blue alpha : Z) : renderer :=
  let c := mkColour red green blue alpha in
  let rdr :=
    if bool_decide (_u rdr = c) then rdr
    else
      let alpha_set := negb (c_alpha (_u rdr) =? alpha) in
      let rdr := invalidate INVALID_INTERNAL_COLOR rdr in
      let rdr := if alpha_set then invalidate (Z.lor INVALID_COLOR_ALPHA_MAP INVALID_PAINT_ALPHA_MAP) rdr else rdr in
      rdr <| _u := c |> in
  setPaintMode rdr PAINT_FLAT_COLOR.

Definition renderer_setCompositeRule (rdr : renderer) (compositeRule : Z) : renderer :=
  if _compositeRule rdr =? compositeRule then rdr
  else
    let rdr := invalidate (Z.lor INVALID_INTERNAL_COLOR INVALID_COMPOSITE_DEPENDED_ROUTINES) rdr in
    let rdr :=
      if (compositeRule =? COMPOSITE_SRC_OVER)
         || (((compositeRule =? COMPOSITE_CLEAR) || (compositeRule =? COMPOSITE_SRC)) && (s_imageType (_image rdr) =? TYPE_INT_ARGB_PRE))
      then invalidate (Z.lor INVALID_COLOR_ALPHA_MAP INVALID_PAINT_ALPHA_MAP) rdr else rdr in
    rdr <| _compositeRule := compositeRule |>.

(** The bytes of the mask are an argument of what draws with it. *)
Definition renderer_setMask (rdr : renderer) (maskType : Z) : renderer :=
  invalidate (Z.lor INVALID_BLITTING_MASK INVALID_MASK_DEPENDED_ROUTINES) (rdr <| _maskType := maskType |>).
Definition renderer_removeMask (rdr : renderer) : renderer :=
  invalidate (Z.lor INVALID_BLITTING_MASK INVALID_MASK_DEPENDED_ROUTINES) (rdr <| _maskType := NO_MASK |>).

(** ** Validation *)

Definition updateInternalColor (rdr : renderer) : renderer :=
  let c := if _compositeRule rdr =? COMPOSITE_CLEAR then mkColour 0 0 0 0 else _u rdr in
  validated INVALID_INTERNAL_COLOR (rdr <| _c := c |>).

Definition updatePaintDependedRoutines (rdr : renderer) : renderer :=
  let r := _routines rdr in
  let mode := _paintMode rdr in
  let with_paint g := r <| _genPaint := Some g |> <| _emitRows := _bl_PT r |> <| _emitLine := _el_PT r |> in
  let r :=
    if mode =? PAINT_LINEAR_GRADIENT then with_paint GenLinearGradientPaint
    else if mode =? PAINT_RADIAL_GRADIENT then with_paint GenRadialGradientPaint
    else if mode =? PAINT_TEXTURE8888 then with_paint GenTexturePaint
    else if mode =? PAINT_TEXTURE8888_MULTIPLY then with_paint GenTexturePaintMultiply
    else if mode =? PAINT_FLAT_COLOR then r <| _genPaint := None |> <| _emitRows := _bl r |> <| _emitLine := _el r |>
    else r in
  validated INVALID_PAINT_DEPENDED_ROUTINES (rdr <| _routines := r |>).

Definition updateCompositeDependedRoutines (rdr : renderer) : renderer :=
  let r := _routines rdr in
  let rule := _compositeRule rdr in
  let r :=
    if rule =? COMPOSITE_SRC_OVER then
      r <| _bl := SourceOver (_bl_mask r) |> <| _bl_PT := PT_SourceOver (_bl_mask r) |> <| _el := _el_SourceOver r |> <| _el_PT := _el_PT_SourceOver r |>
    else if rule =? COMPOSITE_SRC then
      r <| _bl := Source (_bl_mask r) |> <| _bl_PT := PT_Source (_bl_mask r) |> <| _el := _el_Source r |> <| _el_PT := _el_PT_Source r |>
    else if rule =? COMPOSITE_CLEAR then
      r <| _bl := _bl_Clear r |> <| _bl_PT := _bl_PT_Clear r |> <| _el := _el_Source r |> <| _el_PT := _el_Source r |>
    else r in
  validated INVALID_COMPOSITE_DEPENDED_ROUTINES (updatePaintDependedRoutines (rdr <| _routines := r |>)).

Definition updateMaskDependedRoutines (rdr : renderer) : renderer :=
  let r := _routines rdr in
  let mask := _maskType rdr in
  let r :=
    if mask =? NO_MASK then r <| _bl_mask := NoMask r |>
    else if mask =? ALPHA_MASK then r <| _bl_mask := Mask r |>
    else if mask =? LCD_ALPHA_MASK then r <| _bl_mask := LCDMask r |>
    else r in
  validated INVALID_MASK_DEPENDED_ROUTINES (updateCompositeDependedRoutines (rdr <| _routines := r |>)).

Definition updateSurfaceDependedRoutines (rdr : renderer) : renderer :=
  let r := _routines rdr in
  let r :=
    if s_imageType (_image rdr) =? TYPE_INT_ARGB_PRE then
      r <| NoMask := mkBlits (Some BlitSrcOver8888_pre) (Some BlitPTSrcOver8888_pre) (Some BlitSrc8888_pre) (Some BlitPTSrc8888_pre) |>
        <| Mask := mkBlits (Some BlitSrcOverMask8888_pre) (Some BlitPTSrcOverMask8888_pre) (Some BlitSrcMask8888_pre) (Some BlitPTSrcMask8888_pre) |>
        <| LCDMask := mkBlits (Some BlitSrcOverLCDMask8888_pre) None None None |>
        <| _bl_Clear := Some BlitSrc8888_pre |> <| _bl_PT_Clear := Some BlitSrc8888_pre |> <| _clearRect := true |>
        <| _el_Source := Some EmitLineSource8888_pre |> <| _el_SourceOver := Some EmitLineSourceOver8888_pre |>
        <| _el_PT_Source := Some EmitLinePTSource8888_pre |> <| _el_PT_SourceOver := Some EmitLinePTSourceOver8888_pre |>
    else r in
  updateMaskDependedRoutines (rdr <| _routines := r |>).

Definition updateRendererSurface (rdr : renderer) : renderer :=
  let s := _surface rdr in
  let type := s_imageType (_image rdr) in
  let rdr := rdr <| _image := mkSurface (s_width s) (s_height s) (s_offset s) (s_scanlineStride s) (s_pixelStride s) type |> in
  let rdr :=
    if type =? s_imageType s then rdr
    else
      let rdr :=
        if negb (_compositeRule rdr =? COMPOSITE_SRC_OVER) && (s_imageType s =? TYPE_INT_ARGB_PRE)
        then invalidate (Z.lor INVALID_COLOR_ALPHA_MAP INVALID_PAINT_ALPHA_MAP) rdr else rdr in
      updateSurfaceDependedRoutines (rdr <| _image := s |>) in
  validated INVALID_RENDERER_SURFACE rdr.

(** [__state] is what the flags were at the beginning. *)
Definition VALIDATE_BLITTING (rdr : renderer) : renderer :=
  let state := _rendererState rdr in
  if has state INVALID_BLITTING_MASK then
    let rdr := if has state INVALID_RENDERER_SURFACE then updateRendererSurface rdr else rdr in
    let rdr := if has state INVALID_INTERNAL_COLOR then updateInternalColor rdr else rdr in
    if has state INVALID_MASK_DEPENDED_ROUTINES then updateMaskDependedRoutines rdr
    else if has state INVALID_COMPOSITE_DEPENDED_ROUTINES then updateCompositeDependedRoutines rdr
    else if has state INVALID_PAINT_DEPENDED_ROUTINES then updatePaintDependedRoutines rdr
    else rdr
  else rdr.
Definition INVALIDATE_RENDERER_SURFACE : renderer -> renderer := invalidate INVALID_RENDERER_SURFACE.

(** ** The choice *)

(** The specification: what is drawn with, by the mask, the rule and the paint. *)
Definition mask_blits (mask : Z) : blits :=
  if mask =? ALPHA_MASK then mkBlits (Some BlitSrcOverMask8888_pre) (Some BlitPTSrcOverMask8888_pre) (Some BlitSrcMask8888_pre) (Some BlitPTSrcMask8888_pre)
  else if mask =? LCD_ALPHA_MASK then mkBlits (Some BlitSrcOverLCDMask8888_pre) None None None
  else mkBlits (Some BlitSrcOver8888_pre) (Some BlitPTSrcOver8888_pre) (Some BlitSrc8888_pre) (Some BlitPTSrc8888_pre).
Definition generator (mode : Z) : option paint_generator :=
  if mode =? PAINT_LINEAR_GRADIENT then Some GenLinearGradientPaint
  else if mode =? PAINT_RADIAL_GRADIENT then Some GenRadialGradientPaint
  else if mode =? PAINT_TEXTURE8888 then Some GenTexturePaint
  else if mode =? PAINT_TEXTURE8888_MULTIPLY then Some GenTexturePaintMultiply
  else None.
Definition row_blit (mask rule mode : Z) : option blit :=
  let b := mask_blits mask in
  if rule =? COMPOSITE_CLEAR then Some BlitSrc8888_pre
  else if rule =? COMPOSITE_SRC then if mode =? PAINT_FLAT_COLOR then Source b else PT_Source b
  else if mode =? PAINT_FLAT_COLOR then SourceOver b else PT_SourceOver b.
Definition line_emit (rule mode : Z) : emit :=
  if rule =? COMPOSITE_CLEAR then EmitLineSource8888_pre
  else if rule =? COMPOSITE_SRC then if mode =? PAINT_FLAT_COLOR then EmitLineSource8888_pre else EmitLinePTSource8888_pre
  else if mode =? PAINT_FLAT_COLOR then EmitLineSourceOver8888_pre else EmitLinePTSourceOver8888_pre.

(** ** Flags set and cleared *)

Lemma has_lor st f g : has (Z.lor st g) f = has st f || has g f.
Proof.
  unfold has. rewrite Z.land_lor_distr_l. destruct (Z.eqb_spec (Z.lor (Z.land st f) (Z.land g f)) 0) as [E|N].
  - apply Z.lor_eq_0_iff in E as [-> ->]. reflexivity.
  - destruct (Z.eqb_spec (Z.land st f) 0) as [E1|], (Z.eqb_spec (Z.land g f) 0) as [E2|]; cbn; try reflexivity.
    exfalso. apply N. rewrite E1, E2. reflexivity.
Qed.
Lemma has_cleared st f g : has (Z.land st (Z.lnot g)) f = has st (Z.land f (Z.lnot g)).
Proof. unfold has. rewrite <- Z.land_assoc, (Z.land_comm (Z.lnot g) f). reflexivity. Qed.
Lemma has_none st : has st 0 = false.
Proof. unfold has. rewrite Z.land_0_r. reflexivity. Qed.
(** The flags that are looked at are single bits of [INVALID_BLITTING_MASK]. *)
Lemma has_blitting st : has st INVALID_BLITTING_MASK =
  has st INVALID_INTERNAL_COLOR || has st INVALID_RENDERER_SURFACE || has st INVALID_COMPOSITE_DEPENDED_ROUTINES ||
  has st INVALID_PAINT_DEPENDED_ROUTINES || has st INVALID_MASK_DEPENDED_ROUTINES.
Proof.
  assert (forall a b, has a b = has b a) as C by (intros; unfold has; rewrite Z.land_comm; reflexivity).
  assert (forall f g, has st (Z.lor f g) = has st f || has st g) as K by (intros; rewrite C, has_lor, !(C _ st); reflexivity).
  unfold INVALID_BLITTING_MASK. rewrite !K. reflexivity.
Qed.

Definition dirty (rdr : renderer) (f : Z) : bool := has (_rendererState rdr) f.
Lemma dirty_invalidate rdr f g : dirty (invalidate g rdr) f = dirty rdr f || has g f.
Proof. apply has_lor. Qed.
Lemma dirty_validated rdr f g : dirty (validated g rdr) f = dirty rdr (Z.land f (Z.lnot g)).
Proof. apply has_cleared. Qed.

(** Evaluates the masks that are constants. *)
Ltac flags :=
  repeat (rewrite dirty_invalidate || rewrite dirty_validated);
  repeat match goal with
  | |- context [dirty ?r (Z.land ?f ?g)] => let v := eval vm_compute in (Z.land f g) in change (Z.land f g) with v
  | |- context [has ?f ?g] => let v := eval vm_compute in (has f g) in change (has f g) with v
  end; rewrite ?orb_false_r, ?orb_true_r.

(** ** What is current at each level *)

Definition mode_ok (mode : Z) : Prop := mode = 0 \/ mode = 1 \/ mode = 2 \/ mode = 4 \/ mode = 5.
Definition surface_current (r : routines) : Prop :=
  NoMask r = mask_blits NO_MASK /\ Mask r = mask_blits ALPHA_MASK /\ LCDMask r = mask_blits LCD_ALPHA_MASK /\
  _bl_Clear r = Some BlitSrc8888_pre /\ _bl_PT_Clear r = Some BlitSrc8888_pre /\ _clearRect r = true /\
  _el_Source r = Some EmitLineSource8888_pre /\ _el_SourceOver r = Some EmitLineSourceOver8888_pre /\
  _el_PT_Source r = Some EmitLinePTSource8888_pre /\ _el_PT_SourceOver r = Some EmitLinePTSourceOver8888_pre.
Definition mask_current (mask : Z) (r : routines) : Prop := _bl_mask r = mask_blits mask.
Definition rule_current (mask rule : Z) (r : routines) : Prop :=
  _bl r = row_blit mask rule PAINT_FLAT_COLOR /\ _bl_PT r = row_blit mask rule PAINT_TEXTURE8888 /\
  _el r = Some (line_emit rule PAINT_FLAT_COLOR) /\ _el_PT r = Some (line_emit rule PAINT_TEXTURE8888).
Definition paint_current (mask rule mode : Z) (r : routines) : Prop :=
  _genPaint r = generator mode /\ _emitRows r = row_blit mask rule mode /\ _emitLine r = Some (line_emit rule mode).
Definition colour_of (rule : Z) (u : colour) : colour := if rule =? COMPOSITE_CLEAR then mkColour 0 0 0 0 else u.

(** What a renderer keeps while its routines are updated. *)
Definition same_settings (a b : renderer) : Prop :=
  _paintMode a = _paintMode b /\ _prevPaintMode a = _prevPaintMode b /\ _compositeRule a = _compositeRule b /\ _maskType a = _maskType b /\
  _u a = _u b /\ _surface a = _surface b /\ _clip a = _clip b /\ _window a = _window b.
Lemma same_refl a : same_settings a a.
Proof. repeat split. Qed.

Record settings_ok (rdr : renderer) : Prop := {
  so_mode : mode_ok (_paintMode rdr); so_rule : 0 <= _compositeRule rdr <= 2; so_mask : 0 <= _maskType rdr <= 2;
  so_type : s_imageType (_surface rdr) = TYPE_INT_ARGB_PRE }.

Lemma paint_updated rdr : let mask := _maskType rdr in let rule := _compositeRule rdr in
  mode_ok (_paintMode rdr) -> rule_current mask rule (_routines rdr) ->
  let r := _routines (updatePaintDependedRoutines rdr) in
  paint_current mask rule (_paintMode rdr) r /\ rule_current mask rule r /\ (mask_current mask (_routines rdr) -> mask_current mask r) /\
  (surface_current (_routines rdr) -> surface_current r).
Proof.
  intros mask rule M (B & BP & E & EP). unfold updatePaintDependedRoutines. cbv zeta. unfold paint_current, rule_current, row_blit, line_emit in *.
  destruct M as [M|[M|[M|[M|M]]]]; rewrite M; cbn [Z.eqb Pos.eqb] in *;
    (split; [split; [reflexivity|split; [exact B || exact BP|exact E || exact EP]]|split; [exact (conj B (conj BP (conj E EP)))|split; intros K; exact K]]).
Qed.

Lemma rule_updated rdr : let mask := _maskType rdr in let rule := _compositeRule rdr in
  mode_ok (_paintMode rdr) -> 0 <= rule <= 2 -> mask_current mask (_routines rdr) -> surface_current (_routines rdr) ->
  let r := _routines (updateCompositeDependedRoutines rdr) in
  paint_current mask rule (_paintMode rdr) r /\ rule_current mask rule r /\ mask_current mask r /\ surface_current r.
Proof.
  intros mask rule M R MC SC. unfold updateCompositeDependedRoutines. cbv zeta.
  match goal with |- context [updatePaintDependedRoutines ?x] => set (rdr' := x) end.
  assert (rule_current mask rule (_routines rdr') /\ mask_current mask (_routines rdr') /\ surface_current (_routines rdr')) as (RC & MC' & SC').
  { subst rdr'. fold rule. unfold mask_current in *. pose proof SC as (_ & _ & _ & C1 & C2 & _ & E1 & E2 & E3 & E4).
    assert (rule = 0 \/ rule = 1 \/ rule = 2) as [->|[->| ->]] by lia; cbn [Z.eqb Pos.eqb]; (split; [|split; [exact MC|exact SC]]);
      [exact (conj C1 (conj C2 (conj E1 E1)))|
       refine (conj _ (conj _ (conj E1 E3)));
       [exact (f_equal Source MC)|exact (f_equal PT_Source MC)]|
       refine (conj _ (conj _ (conj E2 E4))); [exact (f_equal SourceOver MC)|exact (f_equal PT_SourceOver MC)]]. }
  destruct (paint_updated rdr' M RC) as (P1 & P2 & P3 & P4). split; [exact P1|]. split; [exact P2|]. split; [exact (P3 MC')|exact (P4 SC')].
Qed.

Lemma mask_updated rdr : let mask := _maskType rdr in let rule := _compositeRule rdr in
  mode_ok (_paintMode rdr) -> 0 <= rule <= 2 -> 0 <= mask <= 2 -> surface_current (_routines rdr) ->
  let r := _routines (updateMaskDependedRoutines rdr) in
  paint_current mask rule (_paintMode rdr) r /\ rule_current mask rule r /\ mask_current mask r /\ surface_current r.
Proof.
  intros mask rule M R K SC. unfold updateMaskDependedRoutines. cbv zeta.
  match goal with |- context [updateCompositeDependedRoutines ?x] => set (rdr' := x) end.
  assert (mask_current mask (_routines rdr') /\ surface_current (_routines rdr')) as (MC & SC').
  { subst rdr'. fold mask. pose proof SC as (N & A & L & _). assert (mask = 0 \/ mask = 1 \/ mask = 2) as [->|[->| ->]] by lia; cbn [Z.eqb Pos.eqb];
      (split; [|exact SC]); [exact N|exact A|exact L]. }
  exact (rule_updated rdr' M R MC SC').
Qed.

Lemma surface_updated rdr : let mask := _maskType rdr in let rule := _compositeRule rdr in
  mode_ok (_paintMode rdr) -> 0 <= rule <= 2 -> 0 <= mask <= 2 -> s_imageType (_image rdr) = TYPE_INT_ARGB_PRE ->
  let r := _routines (updateSurfaceDependedRoutines rdr) in
  paint_current mask rule (_paintMode rdr) r /\ rule_current mask rule r /\ mask_current mask r /\ surface_current r.
Proof.
  intros mask rule M R K T. unfold updateSurfaceDependedRoutines. cbv zeta. rewrite T, Z.eqb_refl.
  match goal with |- context [updateMaskDependedRoutines ?x] => set (rdr' := x) end.
  assert (surface_current (_routines rdr')) as SC by (repeat split).
  exact (mask_updated rdr' M R K SC).
Qed.

(** ** The invariant *)

Abbreviation INTERNAL := INVALID_INTERNAL_COLOR.
Abbreviation SURFACE := INVALID_RENDERER_SURFACE.
Abbreviation RULE := INVALID_COMPOSITE_DEPENDED_ROUTINES.
Abbreviation PAINT := INVALID_PAINT_DEPENDED_ROUTINES.
Abbreviation MASK := INVALID_MASK_DEPENDED_ROUTINES.

(** What is not marked is current; a level is current when neither it nor the
    levels above it are marked. *)
Definition current (known : bool) (rdr0 rdr : renderer) : Prop :=
  let mask := _maskType rdr in let rule := _compositeRule rdr in let r := _routines rdr in
  known = true ->
  surface_current r /\
  (dirty rdr0 MASK = false -> mask_current mask r) /\
  (dirty rdr0 MASK = false -> dirty rdr0 RULE = false -> rule_current mask rule r) /\
  (dirty rdr0 MASK = false -> dirty rdr0 RULE = false -> dirty rdr0 PAINT = false -> paint_current mask rule (_paintMode rdr) r).
Definition known (rdr : renderer) : bool := s_imageType (_image rdr) =? TYPE_INT_ARGB_PRE.

Record valid (rdr : renderer) : Prop := {
  v_settings : settings_ok rdr;
  v_known : known rdr = true \/ dirty rdr SURFACE = true;
  v_routines : current (known rdr) rdr rdr;
  v_colour : dirty rdr INTERNAL = false -> _c rdr = colour_of (_compositeRule rdr) (_u rdr);
  v_image : dirty rdr SURFACE = false -> _image rdr = _surface rdr }.

(** Everything is current and nothing is marked. *)
Record validated_for (rdr : renderer) : Prop := {
  vf_flags : has (_rendererState rdr) INVALID_BLITTING_MASK = false;
  vf_image : _image rdr = _surface rdr;
  vf_colour : _c rdr = colour_of (_compositeRule rdr) (_u rdr);
  vf_clear : _clearRect (_routines rdr) = true;
  vf_paint : paint_current (_maskType rdr) (_compositeRule rdr) (_paintMode rdr) (_routines rdr) }.

Lemma createCommon_valid s : s_imageType s = TYPE_INT_ARGB_PRE -> valid (createCommon s).
Proof.
  intros T. split.
  - split; cbn; [left; reflexivity|unfold COMPOSITE_SRC_OVER; lia|unfold NO_MASK; lia|exact T].
  - right. reflexivity.
  - intros K. discriminate K.
  - intros D. vm_compute in D. discriminate D.
  - intros D. vm_compute in D. discriminate D.
Qed.

(** *** The updates keep the settings *)

Lemma paint_same rdr : same_settings (updatePaintDependedRoutines rdr) rdr.
Proof. repeat split. Qed.
Lemma rule_same rdr : same_settings (updateCompositeDependedRoutines rdr) rdr.
Proof. repeat split. Qed.
Lemma mask_same rdr : same_settings (updateMaskDependedRoutines rdr) rdr.
Proof. repeat split. Qed.
Lemma surface_same rdr : same_settings (updateSurfaceDependedRoutines rdr) rdr.
Proof. repeat split. Qed.
Lemma same_trans a b c : same_settings a b -> same_settings b c -> same_settings a c.
Proof. unfold same_settings. intuition congruence. Qed.

(** The flags that are left. *)
Lemma paint_flags rdr f : dirty (updatePaintDependedRoutines rdr) f = dirty rdr (Z.land f (Z.lnot PAINT)).
Proof. apply has_cleared. Qed.
Lemma rule_flags rdr f : dirty (updateCompositeDependedRoutines rdr) f = dirty rdr (Z.land (Z.land f (Z.lnot RULE)) (Z.lnot PAINT)).
Proof. unfold updateCompositeDependedRoutines. cbv zeta. rewrite dirty_validated, paint_flags. reflexivity. Qed.
Lemma mask_flags rdr f : dirty (updateMaskDependedRoutines rdr) f = dirty rdr (Z.land (Z.land (Z.land f (Z.lnot MASK)) (Z.lnot RULE)) (Z.lnot PAINT)).
Proof. unfold updateMaskDependedRoutines. cbv zeta. rewrite dirty_validated, rule_flags. reflexivity. Qed.
Lemma surface_flags rdr f : dirty (updateSurfaceDependedRoutines rdr) f = dirty rdr (Z.land (Z.land (Z.land f (Z.lnot MASK)) (Z.lnot RULE)) (Z.lnot PAINT)).
Proof. unfold updateSurfaceDependedRoutines. cbv zeta. rewrite mask_flags. reflexivity. Qed.

(** *** The first step: the surface *)

Lemma surface_step rdr : valid rdr -> let r1 := if dirty rdr SURFACE then updateRendererSurface rdr else rdr in
  same_settings r1 rdr /\ _image r1 = _surface rdr /\ current true rdr r1 /\ _c r1 = _c rdr /\
  dirty r1 SURFACE = false /\ dirty r1 INTERNAL = dirty rdr INTERNAL /\
  (forall f, f = RULE \/ f = PAINT \/ f = MASK -> dirty rdr f = false -> dirty r1 f = false).
Proof.
  intros V r1. destruct V as [S K R C I]. subst r1. destruct (dirty rdr SURFACE) eqn:D.
  - unfold updateRendererSurface. cbv zeta. destruct (Z.eqb_spec (s_imageType (_image rdr)) (s_imageType (_surface rdr))) as [E|N].
    + assert (known rdr = true) as Kn by (unfold known; rewrite E, (so_type _ S); reflexivity).
      split; [repeat split|]. split; [cbn; rewrite E; destruct (_surface rdr); reflexivity|]. split; [intros _; exact (R Kn)|].
      split; [reflexivity|]. split; [flags; apply has_none|]. split; [flags; reflexivity|].
      intros f F Df. assert (dirty (validated SURFACE rdr) f = false); [|assumption]. destruct F as [->|[->| ->]]; flags; exact Df.
    + match goal with |- context [updateSurfaceDependedRoutines ?x] => set (r0 := x) end.
      assert (same_settings r0 rdr) as SS by (subst r0; destruct (_ && _); repeat split).
      assert (_image r0 = _surface rdr) as Im by (subst r0; destruct (_ && _); reflexivity).
      assert (_c r0 = _c rdr) as Cc by (subst r0; destruct (_ && _); reflexivity).
      assert (forall f, f = INTERNAL \/ f = RULE \/ f = PAINT \/ f = MASK -> dirty r0 f = dirty rdr f) as Df.
      { intros f F. subst r0. destruct (_ && _); [|reflexivity].
        transitivity (dirty (invalidate (Z.lor INVALID_COLOR_ALPHA_MAP INVALID_PAINT_ALPHA_MAP) rdr) f); [reflexivity|]. destruct F as [->|[->|[->| ->]]]; flags; reflexivity. }
      clearbody r0. pose proof SS as (S1 & S2 & S3 & S4 & S5 & S6 & S7 & S8). destruct S as [M1 M2 M3 M4].
      destruct (surface_updated r0) as (P & Ru & M & Su); [rewrite S1; exact M1|rewrite S3; exact M2|rewrite S4; exact M3|rewrite Im; exact M4|].
      pose proof (surface_same r0) as U. pose proof (surface_flags r0) as Fl.
      assert (_image (updateSurfaceDependedRoutines r0) = _image r0) as Ui by reflexivity. assert (_c (updateSurfaceDependedRoutines r0) = _c r0) as Uc by reflexivity.
      set (u := updateSurfaceDependedRoutines r0) in *. clearbody u. pose proof U as (U1 & U2 & U3 & U4 & _).
      rewrite <- U4, <- U3, <- U1 in P. rewrite <- U4, <- U3 in Ru. rewrite <- U4 in M.
      split; [exact (same_trans u r0 rdr U SS)|]. split; [transitivity (_image u); [reflexivity|congruence]|].
      split; [intros _; exact (conj Su (conj (fun _ => M) (conj (fun _ _ => Ru) (fun _ _ _ => P))))|]. split; [transitivity (_c u); [reflexivity|congruence]|].
      split; [rewrite dirty_validated; apply has_none|].
      split; [rewrite dirty_validated, Fl; apply Df; auto|].
      intros f F Hf. rewrite dirty_validated, Fl. destruct F as [->|[->| ->]]; apply has_none.
  - destruct K as [K|K]; [|discriminate]. split; [apply same_refl|]. split; [apply I, eq_refl|]. split; [intros _; exact (R K)|]. auto 10.
Qed.

(** *** The colour, and the routines *)

Definition all_current (rdr : renderer) : Prop :=
  let mask := _maskType rdr in let rule := _compositeRule rdr in let r := _routines rdr in
  paint_current mask rule (_paintMode rdr) r /\ rule_current mask rule r /\ mask_current mask r /\ surface_current r.

Lemma colour_step r1 rdr : same_settings r1 rdr -> (dirty rdr INTERNAL = false -> _c r1 = colour_of (_compositeRule rdr) (_u rdr)) ->
  dirty r1 INTERNAL = dirty rdr INTERNAL ->
  let r2 := if dirty rdr INTERNAL then updateInternalColor r1 else r1 in
  same_settings r2 rdr /\ _image r2 = _image r1 /\ _routines r2 = _routines r1 /\ _c r2 = colour_of (_compositeRule rdr) (_u rdr) /\
  dirty r2 INTERNAL = false /\ (forall f, f = SURFACE \/ f = RULE \/ f = PAINT \/ f = MASK -> dirty r2 f = dirty r1 f).
Proof.
  intros SS C D r2. subst r2. destruct (dirty rdr INTERNAL) eqn:E.
  - pose proof SS as (S1 & S2 & S3 & S4 & S5 & S6 & S7 & S8). unfold updateInternalColor. cbv zeta.
    split; [exact SS|]. split; [reflexivity|]. split; [reflexivity|]. split.
    + transitivity (colour_of (_compositeRule r1) (_u r1)); [reflexivity|congruence].
    + split; [rewrite dirty_validated; apply has_none|]. intros f [->|[->|[->| ->]]]; rewrite dirty_validated; reflexivity.
  - split; [exact SS|]. auto 10.
Qed.

Lemma all_current_updated r2 rdr : settings_ok rdr -> same_settings r2 rdr -> current true rdr r2 ->
  (forall f, f = RULE \/ f = PAINT \/ f = MASK -> dirty rdr f = false -> dirty r2 f = false) ->
  let r3 := if dirty rdr MASK then updateMaskDependedRoutines r2
            else if dirty rdr RULE then updateCompositeDependedRoutines r2
            else if dirty rdr PAINT then updatePaintDependedRoutines r2 else r2 in
  same_settings r3 r2 /\ _image r3 = _image r2 /\ _c r3 = _c r2 /\ all_current r3 /\
  (forall f, f = RULE \/ f = PAINT \/ f = MASK -> dirty r3 f = false) /\ (forall f, f = INTERNAL \/ f = SURFACE -> dirty r3 f = dirty r2 f).
Proof.
  intros [M1 M2 M3 _] (S1 & S2 & S3 & S4 & _) Cu Df r3. destruct (Cu eq_refl) as (Su & Ma & Ru & Pa). rewrite <- S1 in M1. rewrite <- S3 in M2. rewrite <- S4 in M3.
  assert (forall u, same_settings u r2 -> paint_current (_maskType r2) (_compositeRule r2) (_paintMode r2) (_routines u) /\ rule_current (_maskType r2) (_compositeRule r2) (_routines u) /\
      mask_current (_maskType r2) (_routines u) /\ surface_current (_routines u) -> all_current u) as Back.
  { intros u (U1 & U2 & U3 & U4 & _) H. unfold all_current. cbv zeta. rewrite U1, U3, U4. exact H. }
  subst r3. destruct (dirty rdr MASK) eqn:DM; [|destruct (dirty rdr RULE) eqn:DR; [|destruct (dirty rdr PAINT) eqn:DP]].
  - pose proof (mask_same r2) as U. split; [exact U|]. split; [reflexivity|]. split; [reflexivity|].
    split; [apply Back; [exact U|apply mask_updated; assumption]|].
    split; intros f F; rewrite mask_flags; [destruct F as [->|[->| ->]]; apply has_none|destruct F as [->| ->]; reflexivity].
  - pose proof (rule_same r2) as U. split; [exact U|]. split; [reflexivity|]. split; [reflexivity|].
    split; [apply Back; [exact U|apply rule_updated; auto]|].
    split; intros f F; rewrite rule_flags; [destruct F as [->|[->| ->]]; [apply has_none|apply has_none|apply Df; auto]|destruct F as [->| ->]; reflexivity].
  - pose proof (paint_same r2) as U. split; [exact U|]. split; [reflexivity|]. split; [reflexivity|].
    split; [apply Back; [exact U|]; destruct (paint_updated r2 M1 (Ru eq_refl eq_refl)) as (P1 & P2 & P3 & P4); exact (conj P1 (conj P2 (conj (P3 (Ma eq_refl)) (P4 Su))))|].
    split; intros f F; rewrite paint_flags; [destruct F as [->|[->| ->]]; [apply Df; auto|apply has_none|apply Df; auto]|destruct F as [->| ->]; reflexivity].
  - split; [apply same_refl|]. split; [reflexivity|]. split; [reflexivity|]. split; [apply Back; [apply same_refl|auto]|].
    split; [intros f [->|[->| ->]]; apply Df; auto|reflexivity].
Qed.

Lemma validate_all rdr : valid rdr -> let v := VALIDATE_BLITTING rdr in
  same_settings v rdr /\ _image v = _surface rdr /\ _c v = colour_of (_compositeRule rdr) (_u rdr) /\ all_current v /\
  has (_rendererState v) INVALID_BLITTING_MASK = false.
Proof.
  intros V v. subst v. unfold VALIDATE_BLITTING. cbv zeta. pose proof (has_blitting (_rendererState rdr)) as HB.
  change (has (_rendererState rdr)) with (dirty rdr) in *. destruct (dirty rdr INVALID_BLITTING_MASK) eqn:B.
  - destruct (surface_step rdr V) as (S1 & I1 & C1 & K1 & DS & DI & DF). cbv zeta in *. set (r1 := if dirty rdr SURFACE then _ else _) in *. clearbody r1.
    assert (dirty rdr INTERNAL = false -> _c r1 = colour_of (_compositeRule rdr) (_u rdr)) as CC by (intros E; rewrite K1; exact (v_colour _ V E)).
    destruct (colour_step r1 rdr S1 CC DI) as (S2 & I2 & R2 & K2 & DI2 & DF2). cbv zeta in *.
    set (r2 := if dirty rdr INTERNAL then _ else _) in *. clearbody r2.
    assert (current true rdr r2) as C2.
    { pose proof S1 as (A1 & _ & A3 & A4 & _). pose proof S2 as (B1 & _ & B3 & B4 & _). unfold current in *. cbv zeta in *. rewrite R2, B1, B3, B4. rewrite A1, A3, A4 in C1. exact C1. }
    destruct (all_current_updated r2 rdr (v_settings _ V) S2 C2) as (S3 & I3 & K3 & A3 & F3 & G3).
    { intros f F E. rewrite DF2 by tauto. apply DF; assumption. }
    cbv zeta in *. set (r3 := if dirty rdr MASK then _ else _) in *. clearbody r3.
    split; [exact (same_trans _ _ _ S3 S2)|]. split; [congruence|]. split; [congruence|]. split; [exact A3|].
    rewrite has_blitting. change (has (_rendererState r3)) with (dirty r3).
    rewrite (F3 RULE), (F3 PAINT), (F3 MASK), (G3 INTERNAL), (G3 SURFACE), DI2, (DF2 SURFACE), DS by auto. reflexivity.
  - symmetry in HB. rewrite !orb_false_iff in HB. destruct HB as ((((H1 & H2) & H3) & H4) & H5).
    split; [apply same_refl|]. split; [apply (v_image _ V), H2|]. split; [apply (v_colour _ V), H1|]. split; [|exact B].
    destruct (v_known _ V) as [K|K]; [|congruence]. destruct (v_routines _ V K) as (A1 & A2 & A3 & A4). unfold all_current. cbv zeta. auto.
Qed.

(** ** Every renderer is valid *)

Lemma valid_settings r rdr : valid rdr -> _surface r = _surface rdr -> _image r = _image rdr -> _routines r = _routines rdr -> _c r = _c rdr ->
  mode_ok (_paintMode r) -> 0 <= _compositeRule r <= 2 -> 0 <= _maskType r <= 2 ->
  (forall f, f = INTERNAL \/ f = SURFACE \/ f = RULE \/ f = PAINT \/ f = MASK -> dirty r f = false -> dirty rdr f = false) ->
  (dirty r MASK = false -> _maskType r = _maskType rdr) ->
  (dirty r RULE = false -> _compositeRule r = _compositeRule rdr) ->
  (dirty r PAINT = false -> _paintMode r = _paintMode rdr) ->
  (dirty r INTERNAL = false -> _u r = _u rdr /\ _compositeRule r = _compositeRule rdr) -> valid r.
Proof.
  intros [S K R C I] Es Ei Er Ec M1 M2 M3 D DM DR DP DI. split.
  - split; [assumption..|rewrite Es; apply (so_type _ S)].
  - unfold known in *. rewrite Ei. destruct K as [K|K]; [auto|]. destruct (dirty r SURFACE) eqn:E; [auto|]. rewrite (D SURFACE) in K by auto. discriminate.
  - unfold current, known in *. cbv zeta in *. rewrite Ei, Er. intros Kn. destruct (R Kn) as (A1 & A2 & A3 & A4). split; [exact A1|].
    split; [intros H; rewrite (DM H); apply A2, D; auto|].
    split; [intros H H1; rewrite (DM H), (DR H1); apply A3; apply D; auto|].
    intros H H1 H2. rewrite (DM H), (DR H1), (DP H2). apply A4; apply D; auto.
  - intros H. destruct (DI H) as [-> ->]. rewrite Ec. apply C, D; auto.
  - intros H. rewrite Ei, Es. apply I, D; auto.
Qed.

(** The calls a renderer gets between its creation and a validation.  What is
    drawn moves its window, and sets the strides its image has already: see
    [set_strides_same]. *)
Inductive renderer_step : renderer -> renderer -> Prop :=
| Step_setClip rdr x y w h : renderer_step rdr (renderer_setClip rdr x y w h)
| Step_setColor rdr r g b a : renderer_step rdr (renderer_setColor rdr r g b a)
| Step_setCompositeRule rdr rule : 0 <= rule <= 2 -> renderer_step rdr (renderer_setCompositeRule rdr rule)
| Step_setPaintMode rdr mode : mode_ok mode -> renderer_step rdr (setPaintMode rdr mode)
| Step_setMask rdr mask : 0 <= mask <= 2 -> renderer_step rdr (renderer_setMask rdr mask)
| Step_removeMask rdr : renderer_step rdr (renderer_removeMask rdr)
| Step_invalidate rdr : renderer_step rdr (INVALIDATE_RENDERER_SURFACE rdr)
| Step_validate rdr : renderer_step rdr (VALIDATE_BLITTING rdr)
| Step_window rdr win : renderer_step rdr (rdr <| _window := win |>).

Lemma invalidate_dirty flag rdr f : dirty (invalidate flag rdr) f = false -> dirty rdr f = false.
Proof. rewrite dirty_invalidate. intros H%orb_false_iff. apply H. Qed.
Lemma setPaintMode_valid rdr mode : valid rdr -> mode_ok mode -> valid (setPaintMode rdr mode).
Proof.
  intros V M. unfold setPaintMode. destruct (_ =? _); [exact V|]. destruct (v_settings _ V) as [M1 M2 M3 M4].
  apply (valid_settings _ rdr V); try reflexivity; try assumption; auto.
  - intros f _. apply invalidate_dirty.
  - intros D. exfalso. change (dirty (invalidate PAINT rdr) PAINT = false) in D. revert D. flags. discriminate.
Qed.
Lemma validate_valid rdr : valid rdr -> valid (VALIDATE_BLITTING rdr).
Proof.
  intros V. destruct (validate_all rdr V) as ((S1 & S2 & S3 & S4 & S5 & S6 & S7 & S8) & I & C & (A1 & A2 & A3 & A4) & F).
  destruct (v_settings _ V) as [M1 M2 M3 M4]. set (v := VALIDATE_BLITTING rdr) in *. clearbody v. split.
  - split; congruence.
  - left. unfold known. rewrite I, M4. reflexivity.
  - intros _. auto 10.
  - intros _. rewrite S3, S5. exact C.
  - intros _. rewrite S6. exact I.
Qed.

Lemma invalidate_valid flag rdr : valid rdr -> valid (invalidate flag rdr).
Proof.
  intros V. destruct (v_settings _ V) as [M1 M2 M3 M4].
  apply (valid_settings _ rdr V); try reflexivity; try assumption; auto. intros f _. apply invalidate_dirty.
Qed.
Lemma set_colour_valid rdr c : valid rdr -> dirty rdr INTERNAL = true -> valid (rdr <| _u := c |>).
Proof.
  intros V D. destruct (v_settings _ V) as [M1 M2 M3 M4]. apply (valid_settings _ rdr V); try reflexivity; try assumption; auto.
  intros E. change (dirty rdr INTERNAL = false) in E. congruence.
Qed.
Lemma set_rule_valid rdr rule : valid rdr -> 0 <= rule <= 2 -> dirty rdr INTERNAL = true -> dirty rdr RULE = true -> valid (rdr <| _compositeRule := rule |>).
Proof.
  intros V R D1 D2. destruct (v_settings _ V) as [M1 M2 M3 M4]. apply (valid_settings _ rdr V); try reflexivity; try assumption; auto; intros E.
  - change (dirty rdr RULE = false) in E. congruence.
  - change (dirty rdr INTERNAL = false) in E. congruence.
Qed.
Lemma set_mask_valid rdr mask : valid rdr -> 0 <= mask <= 2 -> valid (invalidate (Z.lor INVALID_BLITTING_MASK MASK) (rdr <| _maskType := mask |>)).
Proof.
  intros V R. destruct (v_settings _ V) as [M1 M2 M3 M4]. apply (valid_settings _ rdr V); try reflexivity; try assumption; auto.
  - intros f _ H%invalidate_dirty. exact H.
  - intros E. exfalso. revert E. flags. discriminate.
Qed.

Lemma renderer_step_valid a b : valid a -> renderer_step a b -> valid b.
Proof.
  intros V St. pose proof V as [[M1 M2 M3 M4] _ _ _ _]. destruct St.
  - apply (valid_settings _ rdr V); try reflexivity; auto.
  - unfold renderer_setColor. cbv zeta. apply setPaintMode_valid; [|left; reflexivity]. destruct (bool_decide _); [exact V|].
    assert (dirty (invalidate INTERNAL rdr) INTERNAL = true) as D by (flags; reflexivity).
    destruct (negb _); apply set_colour_valid; auto using invalidate_valid. rewrite dirty_invalidate, D. reflexivity.
  - unfold renderer_setCompositeRule. destruct (_ =? _); [exact V|]. cbv zeta.
    assert (dirty (invalidate (Z.lor INTERNAL RULE) rdr) INTERNAL = true /\ dirty (invalidate (Z.lor INTERNAL RULE) rdr) RULE = true) as [D1 D2] by (split; flags; reflexivity).
    destruct (_ || _); apply set_rule_valid; auto using invalidate_valid; rewrite dirty_invalidate, ?D1, ?D2; reflexivity.
  - apply setPaintMode_valid; assumption.
  - apply set_mask_valid; assumption.
  - apply set_mask_valid; [assumption|unfold NO_MASK; lia].
  - apply invalidate_valid, V.
  - apply validate_valid, V.
  - apply (valid_settings _ rdr V); try reflexivity; auto.
Qed.

Lemma reachable_valid s rdr : s_imageType s = TYPE_INT_ARGB_PRE -> rtc renderer_step (createCommon s) rdr -> valid rdr.
Proof.
  intros T. apply (rtc_ind_r (fun r => valid r)); [apply createCommon_valid, T|]. intros a b _ St V. exact (renderer_step_valid a b V St).
Qed.

Lemma step_surface a b : renderer_step a b -> valid a -> _surface b = _surface a.
Proof.
  intros St V. destruct St; try reflexivity.
  - unfold renderer_setColor, setPaintMode. cbv zeta. destruct (_ =? _), (bool_decide _); try reflexivity; destruct (negb _); reflexivity.
  - unfold renderer_setCompositeRule. destruct (_ =? _); [reflexivity|]. cbv zeta. destruct (_ || _); reflexivity.
  - unfold setPaintMode. destruct (_ =? _); reflexivity.
  - destruct (validate_all rdr V) as ((_ & _ & _ & _ & _ & S & _) & _). exact S.
Qed.
Lemma reachable_surface s rdr : s_imageType s = TYPE_INT_ARGB_PRE -> rtc renderer_step (createCommon s) rdr -> _surface rdr = s.
Proof.
  intros T. apply (rtc_ind_r (fun r => _surface r = s)); [reflexivity|]. intros a b R St E.
  rewrite (step_surface a b St); [exact E|]. eapply reachable_valid; eassumption.
Qed.

(** C13: Whatever was set, drawn and validated before, a validation leaves nothing
    that is drawn with marked, and the renderer has the surface's layout, the
    colour by the rule, and the routines that the mask, the rule and the paint
    call for; the settings are as they were. *)
Theorem validation_is_up_to_date s rdr : s_imageType s = TYPE_INT_ARGB_PRE -> rtc renderer_step (createCommon s) rdr ->
  let v := VALIDATE_BLITTING rdr in
  has (_rendererState v) INVALID_BLITTING_MASK = false /\ same_settings v rdr /\ _image v = s /\
  _c v = (if _compositeRule rdr =? COMPOSITE_CLEAR then mkColour 0 0 0 0 else _u rdr) /\
  _genPaint (_routines v) = generator (_paintMode rdr) /\
  _emitRows (_routines v) = row_blit (_maskType rdr) (_compositeRule rdr) (_paintMode rdr) /\
  _emitLine (_routines v) = Some (line_emit (_compositeRule rdr) (_paintMode rdr)).
Proof.
  intros T R. cbv zeta. destruct (validate_all rdr (reachable_valid s rdr T R)) as (S & I & C & (P & _) & F).
  pose proof S as (S1 & S2 & S3 & S4 & _). set (v := VALIDATE_BLITTING rdr) in *. clearbody v. destruct P as (P1 & P2 & P3).
  rewrite S1 in P1. rewrite S1, S3, S4 in P2. rewrite S1, S3 in P3. rewrite (reachable_surface s rdr T R) in I. auto 10.
Qed.

Lemma validation_is_up_to_date_witness : let s := mkSurface 4 4 0 4 1 TYPE_INT_ARGB_PRE in
  let rdr := renderer_setMask (renderer_setCompositeRule (VALIDATE_BLITTING (renderer_setColor (createCommon s) 1 2 3 255)) COMPOSITE_SRC) ALPHA_MASK in
  _emitRows (_routines (VALIDATE_BLITTING rdr)) = Some BlitSrcMask8888_pre.
Proof.
  intros s rdr. assert (rtc renderer_step (createCommon s) rdr) as R.
  { subst rdr. eapply rtc_l; [apply (Step_setColor _ 1 2 3 255)|]. eapply rtc_l; [apply Step_validate|].
    eapply rtc_l; [apply (Step_setCompositeRule _ COMPOSITE_SRC); unfold COMPOSITE_SRC; lia|].
    eapply rtc_l; [apply (Step_setMask _ ALPHA_MASK); unfold ALPHA_MASK; lia|]. apply rtc_refl. }
  destruct (validation_is_up_to_date s rdr eq_refl R) as (_ & _ & _ & _ & _ & E & _). exact E.
Defined.

(** Under the rule clear a mask is drawn by the routine that reads the row of
    deltas, and a mask of three bytes has no routine for a paint or for the rule
    source. *)
Example clear_ignores_the_mask : row_blit ALPHA_MASK COMPOSITE_CLEAR PAINT_FLAT_COLOR = Some BlitSrc8888_pre /\
  row_blit LCD_ALPHA_MASK COMPOSITE_SRC_OVER PAINT_TEXTURE8888 = None /\ row_blit LCD_ALPHA_MASK COMPOSITE_SRC PAINT_FLAT_COLOR = None.
Proof. repeat split. Qed.
