(* ===== verification/PiscesFill.v ===== *)
(** * Filling ([JPiscesRenderer.c], [JJavaSurface.c])

    The native methods that draw: a rectangle in 16.16 coordinates whose border
    pixels are covered in part, a mask of coverages, a row of coverage deltas, and
    the clearing of a rectangle.  Each acquires the pixels of the surface,
    validates the renderer, sets the rectangle's window, and calls the chosen
    routines for bands of rows. *)

From S2P Require Import Prelude CFloat Float32 DecoraApi Argb Painted PiscesPixel PiscesRdr PiscesBlit PiscesPaint PiscesRenderer.
Local Open Scope Z_scope.
Local Open Scope ub_scope.

(** ** The surface's pixels *)

(** What [JavaSurface.initialize] makes. *)
Definition JavaSurface_initialize (dataType width height : Z) : surface := mkSurface width height 0 width 1 dataType.

Inductive acquired := Acquired | OutOfRange | NotPinned.
(** [dataArrayLength / width] is reached with a width of zero. *)
Definition surface_acquire (s : surface) (dataArrayLength : Z) (pinned : bool) : ub acquired :=
  let width := s_width s in
  let height := s_height s in
  if (width <? 0) || (height <? 0) then Done OutOfRange
  else
    do* rows := idiv dataArrayLength width in
    if rows <? height then Done OutOfRange
    else Done (if pinned then Acquired else NotPinned).

(** What is drawn with and on. *)
Record canvas := mkCanvas { cv_rdr : renderer; cv_mem : arrays }.
#[export] Instance eta_canvas : Eta canvas := eta_ap (eta_ap (eta_pure mkCanvas) cv_rdr) cv_mem.
Inductive thrown := NoException | IllegalArgumentException | OutOfMemoryError.

(** [ACQUIRE_SURFACE] and [RELEASE_SURFACE]: the block between them is skipped
    only when the array cannot be pinned.  When it is too short an exception is
    thrown and the block goes on with [NULL], which has no element. *)
Definition with_surface (pinned : bool) (cv : canvas) (block : canvas -> ub canvas) : ub (canvas * thrown) :=
  let pixels := intData (cv_mem cv) in
  do* a := surface_acquire (_surface (cv_rdr cv)) (Z.of_nat (length pixels)) pinned in
  match a with
  | Acquired => do* cv := block cv in Done (cv, NoException)
  | OutOfRange =>
      do* cv := block (cv <| cv_mem := cv_mem cv <| intData := [] |> |>) in
      Done (cv <| cv_mem := cv_mem cv <| intData := pixels |> |>, IllegalArgumentException)
  | NotPinned => Done (cv, OutOfMemoryError)
  end.

(** ** The routines *)

(** What the paints are made of, the gamma tables, and whether there is memory. *)
Record scene := mkScene { sc_gradient : gradient; sc_texture : texture; gammaArray : list Z; invGammaArray : list Z; sc_malloc : bool }.

(** A buffer that is too short is replaced by a cleared one. *)
Definition ALLOC3 (malloc : bool) (array : list Z) (len : Z) : list Z :=
  if Z.of_nat (length array) <? len then if malloc then repeat 0 (Z.to_nat len) else [] else array.

Definition run_paint (sc : scene) (g : paint_generator) (rdr : renderer) (height : Z) (paint : list Z) : ub (list Z) :=
  match g with
  | GenLinearGradientPaint => genLinearGradientPaint (sc_gradient sc) rdr height paint
  | GenRadialGradientPaint => genRadialGradientPaint (sc_gradient sc) rdr height paint
  | GenTexturePaint => genTexturePaintTarget (sc_texture sc) rdr height paint
  | GenTexturePaintMultiply => genTexturePaintMultiply (sc_malloc sc) (sc_texture sc) (sc_gradient sc) rdr height paint
  end.
(** [if (rdr->_genPaint) { ALLOC3(rdr->_paint, jint, l); rdr->_genPaint(rdr, height); }] *)
Definition gen_paint (sc : scene) (height : Z) (cv : canvas) : ub canvas :=
  let rdr := cv_rdr cv in
  match _genPaint (_routines rdr) with
  | None => Done cv
  | Some g =>
      do* paint := run_paint sc g rdr height (ALLOC3 (sc_malloc sc) (_paint (cv_mem cv)) (_alphaWidth (_window rdr) * height)) in
      Done (cv <| cv_mem := cv_mem cv <| _paint := paint |> |>)
  end.
Definition emit_line (height frac : Z) (cv : canvas) : ub canvas :=
  let rdr := cv_rdr cv in
  let m := cv_mem cv in
  do* d := match _emitLine (_routines rdr) with
           | None => Undefined NullPointer
           | Some EmitLineSource8888_pre => emitLineSource8888_pre rdr height frac (intData m)
           | Some EmitLineSourceOver8888_pre => emitLineSourceOver8888_pre rdr height frac (intData m)
           | Some EmitLinePTSource8888_pre => emitLinePTSource8888_pre rdr (_paint m) height frac (intData m)
           | Some EmitLinePTSourceOver8888_pre => emitLinePTSourceOver8888_pre rdr (_paint m) height frac (intData m)
           end in
  Done (cv <| cv_mem := m <| intData := d |> |>).
Definition emit_rows_of (sc : scene) (height : Z) (cv : canvas) : ub canvas :=
  let rdr := cv_rdr cv in
  let m := cv_mem cv in
  let with_deltas (f : Z -> list Z * list Z -> ub (list Z * list Z)) :=
    do* '(row, d) := f height (rowAA m, intData m) in Done (cv <| cv_mem := m <| rowAA := row |> <| intData := d |> |>) in
  let with_mask (f : Z -> list Z -> ub (list Z)) := do* d := f height (intData m) in Done (cv <| cv_mem := m <| intData := d |> |>) in
  match _emitRows (_routines rdr) with
  | None => Undefined NullPointer
  | Some BlitSrc8888_pre => with_deltas (blitSrc8888_pre rdr (alphaMap m))
  | Some BlitPTSrc8888_pre => with_deltas (blitPTSrc8888_pre rdr (alphaMap m) (_paint m))
  | Some BlitSrcOver8888_pre => with_deltas (blitSrcOver8888_pre rdr (alphaMap m))
  | Some BlitPTSrcOver8888_pre => with_deltas (blitPTSrcOver8888_pre rdr (alphaMap m) (_paint m))
  | Some BlitSrcMask8888_pre => with_mask (blitSrcMask8888_pre rdr (_mask_byteData m))
  | Some BlitPTSrcMask8888_pre => with_mask (blitPTSrcMask8888_pre rdr (_mask_byteData m) (_paint m))
  | Some BlitSrcOverMask8888_pre => with_mask (blitSrcOverMask8888_pre rdr (_mask_byteData m))
  | Some BlitPTSrcOverMask8888_pre => with_mask (blitPTSrcOverMask8888_pre rdr (_mask_byteData m) (_paint m))
  | Some BlitSrcOverLCDMask8888_pre => with_mask (blitSrcOverLCDMask8888_pre rdr (gammaArray sc) (invGammaArray sc) (_mask_byteData m))
  end.

(** ** [fillRect] *)

Definition IMAGE_FRAC_EDGE_KEEP : Z := 0.
Definition IMAGE_FRAC_EDGE_PAD : Z := 1.
Definition IMAGE_FRAC_EDGE_TRIM : Z := 2.
Definition NUM_ALPHA_ROWS : Z := 8.

(** The first and last pixel of [x .. x + w] and the fractions in which they are
    covered, 0 when it is in full; the two axes are computed alike. *)
Definition axis (x w lEdge rEdge bbMin bbMax : Z) : ub (Z * Z * Z * Z) :=
  do* e := iadd x w in
  let lfrac := Z.land (0x10000 - Z.land x 0xffff) 0xffff in
  let rfrac := Z.land e 0xffff in
  let x_from := Z.shiftr x 16 in
  let x_to := if negb (rfrac =? 0) then Z.shiftr e 16 else Z.shiftr e 16 - 1 in
  let '(x_from, lfrac) :=
    if lEdge =? IMAGE_FRAC_EDGE_PAD then (x_from, 0)
    else if lEdge =? IMAGE_FRAC_EDGE_TRIM then (if negb (lfrac =? 0) then x_from + 1 else x_from, 0) else (x_from, lfrac) in
  let '(x_to, rfrac) :=
    if rEdge =? IMAGE_FRAC_EDGE_PAD then (x_to, 0)
    else if rEdge =? IMAGE_FRAC_EDGE_TRIM then (if negb (rfrac =? 0) then x_to - 1 else x_to, 0) else (x_to, rfrac) in
  let '(x_from, lfrac) := if x_from <? bbMin then (bbMin, 0) else (x_from, lfrac) in
  let '(x_to, rfrac) := if x_to >? bbMax then (bbMax, 0) else (x_to, rfrac) in
  Done (x_from, x_to, lfrac, rfrac).
(** A single row or column that is covered in part. *)
Definition single (from to lfrac rfrac : Z) : Z * Z :=
  if (from =? to) && negb (Z.lor lfrac rfrac =? 0) then (Z.land (rfrac - 0x10000 + lfrac) 0xffff, 0) else (lfrac, rfrac).

Definition at_window (f : window -> window) (cv : canvas) : canvas :=
  cv <| cv_rdr := cv_rdr cv <| _window := f (_window (cv_rdr cv)) |> |>.
(** The strides of the pixels that were acquired. *)
Definition set_strides (rdr : renderer) : renderer :=
  let i := _image rdr in
  rdr <| _image := mkSurface (s_width i) (s_height i) (s_offset i) (s_width (_surface rdr)) 1 (s_imageType i) |>.

(** For a surface of Java that changes nothing: a drawing leaves the renderer
    with what a validation left, and another window. *)
Lemma set_strides_same rdr dataType width height : _surface rdr = JavaSurface_initialize dataType width height -> _image rdr = _surface rdr -> set_strides rdr = rdr.
Proof. intros S I. destruct rdr. cbn in S, I. subst. reflexivity. Qed.

Definition draw_band (sc : scene) (height frac : Z) (cv : canvas) : ub canvas :=
  do* cv := gen_paint sc height cv in emit_line height frac cv.
Definition next_band (x_from n : Z) (cv : canvas) : ub canvas :=
  let currY := _currY (_window (cv_rdr cv)) + n in
  do* offset := imul currY (s_width (_surface (cv_rdr cv))) in
  Done (at_window (fun win => win <| _currX := x_from |> <| _currY := currY |> <| _currImageOffset := offset |>) cv).
(** [while (rows_to_render_by_loop > 0)]: at most as many rounds as rows. *)
Fixpoint full_bands (fuel : nat) (sc : scene) (x_from rows : Z) (cv : canvas) : ub canvas :=
  match fuel with
  | O => Done cv
  | S fuel =>
      if rows >? 0 then
        let n := Z.min rows NUM_ALPHA_ROWS in
        do* cv := draw_band sc n 0x10000 cv in
        do* cv := next_band x_from n cv in
        full_bands fuel sc x_from (rows - n) cv
      else Done cv
  end.

Definition fillRect (pinned : bool) (sc : scene) (x y w h lEdge rEdge tEdge bEdge : Z) (cv : canvas) : ub (canvas * thrown) :=
  let clip := _clip (cv_rdr cv) in
  do* '(x_from, x_to, lfrac, rfrac) := axis x w lEdge rEdge (_clip_bbMinX clip) (_clip_bbMaxX clip) in
  do* '(y_from, y_to, tfrac, bfrac) := axis y h tEdge bEdge (_clip_bbMinY clip) (_clip_bbMaxY clip) in
  if (x_from <=? x_to) && (y_from <=? y_to) then
    with_surface pinned cv (fun cv =>
      let rdr := VALIDATE_BLITTING (INVALIDATE_RENDERER_SURFACE (cv_rdr cv)) in
      do* offset := imul y_from (s_width (_surface rdr)) in
      let rdr := set_strides rdr in
      let '(tfrac, bfrac) := single y_from y_to tfrac bfrac in
      let '(lfrac, rfrac) := single x_from x_to lfrac rfrac in
      let win := _window rdr in
      let rdr := rdr <| _window := mkWindow x_from x_to x_from y_from offset (x_to - x_from + 1) lfrac rfrac (_maskOffset win) (_rowAAInt win) |> in
      let cv := cv <| cv_rdr := rdr |> in
      let rows := y_to - y_from + 1 in
      let rows := if negb (bfrac =? 0) then rows - 1 else rows in
      do* '(cv, rows) :=
        if negb (tfrac =? 0) then
          do* cv := draw_band sc 1 tfrac cv in
          do* cv := next_band x_from 1 cv in
          Done (cv, rows - 1)
        else Done (cv, rows) in
      do* cv := full_bands (Z.to_nat rows) sc x_from rows cv in
      if negb (bfrac =? 0) then draw_band sc 1 bfrac cv else Done cv)
  else Done (cv, NoException).
Definition fillRectImpl (pinned : bool) (sc : scene) (x y w h : Z) (cv : canvas) : ub (canvas * thrown) :=
  fillRect pinned sc x y w h IMAGE_FRAC_EDGE_KEEP IMAGE_FRAC_EDGE_KEEP IMAGE_FRAC_EDGE_KEEP IMAGE_FRAC_EDGE_KEEP cv.

(** ** A row of deltas *)

Definition emitAndClearAlphaRowImpl (pinned mapPinned deltasPinned : bool) (sc : scene) (map deltas : list Z) (y x_from x_to x_off : Z) (cv : canvas) :
    ub (canvas * list Z * thrown) :=
  let draw (cv : canvas) : ub (canvas * list Z) :=
    let clip := _clip (cv_rdr cv) in
    let x_from := Z.max x_from (_clip_bbMinX clip) in
    let x_to := Z.min x_to (_clip_bbMaxX clip) in
    if (x_to >=? x_from) && (y >=? _clip_bbMinY clip) && (y <=? _clip_bbMaxY clip) then
      do* offset := imul y (s_width (_surface (cv_rdr cv))) in
      let rdr := set_strides (cv_rdr cv) in
      let win := _window rdr in
      let rdr := rdr <| _window := mkWindow x_from x_to x_from y offset (x_to - x_from + 1) (_el_lfrac win) (_el_rfrac win) (_maskOffset win) x_off |> in
      let cv := cv <| cv_rdr := rdr |> <| cv_mem := cv_mem cv <| alphaMap := map |> <| rowAA := deltas |> |> in
      do* cv := gen_paint sc 1 cv in
      do* cv := emit_rows_of sc 1 cv in
      Done (cv <| cv_mem := cv_mem cv <| rowAA := [] |> |>, rowAA (cv_mem cv))
    else Done (cv, deltas) in
  let pixels := intData (cv_mem cv) in
  let validate (cv : canvas) := cv <| cv_rdr := VALIDATE_BLITTING (INVALIDATE_RENDERER_SURFACE (cv_rdr cv)) |> in
  do* a := surface_acquire (_surface (cv_rdr cv)) (Z.of_nat (length pixels)) pinned in
  match a with
  | NotPinned => Done (cv, deltas, OutOfMemoryError)
  | _ =>
      let ok := match a with Acquired => true | _ => false end in
      let cv := validate (if ok then cv else cv <| cv_mem := cv_mem cv <| intData := [] |> |>) in
      do* '(cv, deltas) := if mapPinned && deltasPinned then draw cv else Done (cv, deltas) in
      if ok then Done (cv, deltas, if mapPinned && deltasPinned then NoException else OutOfMemoryError)
      else Done (cv <| cv_mem := cv_mem cv <| intData := pixels |> |>, deltas, IllegalArgumentException)
  end.

(** ** A mask *)

Fixpoint mask_rows (rows : nat) (sc : scene) (x maskWidth : Z) (cv : canvas) : ub canvas :=
  match rows with
  | O => Done cv
  | S rows =>
      let win := _window (cv_rdr cv) in
      do* offset := imul (_currY win) (s_width (_surface (cv_rdr cv))) in
      let cv := at_window (fun win => win <| _currImageOffset := offset |>) cv in
      do* cv := gen_paint sc 1 cv in
      do* cv := emit_rows_of sc 1 cv in
      mask_rows rows sc x maskWidth
        (at_window (fun win => win <| _maskOffset := _maskOffset win + maskWidth |> <| _currX := x |> <| _currY := _currY win + 1 |>) cv)
  end.
(** The rows of the mask are [maskWidth] bytes apart: [y], [maskHeight] and
    [stride] are not used. *)
Definition fillAlphaMask (pinned maskPinned : bool) (sc : scene) (minX minY maxX maxY maskType : Z) (jmask : list Z) (x y maskWidth maskHeight offset stride : Z) (cv : canvas) :
    ub (canvas * thrown) :=
  if (maxX >=? minX) && (maxY >=? minY) then
    do* '(cv, e) := with_surface pinned cv (fun cv =>
      if maskPinned then
        let cv := cv <| cv_rdr := renderer_setMask (cv_rdr cv) maskType |> <| cv_mem := cv_mem cv <| _mask_byteData := jmask |> |> in
        let rdr := set_strides (VALIDATE_BLITTING (INVALIDATE_RENDERER_SURFACE (cv_rdr cv))) in
        let win := _window rdr in
        let rdr := rdr <| _window := mkWindow minX maxX minX minY (_currImageOffset win) (maxX - minX + 1) (_el_lfrac win) (_el_rfrac win) offset (_rowAAInt win) |> in
        do* cv := mask_rows (Z.to_nat (maxY - minY + 1)) sc x maskWidth (cv <| cv_rdr := rdr |>) in
        Done (cv <| cv_rdr := renderer_removeMask (cv_rdr cv) |> <| cv_mem := cv_mem cv <| _mask_byteData := [] |> |>)
      else Done cv) in
    Done (cv, match e with NoException => if maskPinned then NoException else OutOfMemoryError | _ => e end)
  else Done (cv, NoException).

Definition fillAlphaMaskImpl (pinned maskPinned : bool) (sc : scene) (jmask : list Z) (x y maskWidth maskHeight offset stride : Z) (cv : canvas) : ub (canvas * thrown) :=
  let clip := _clip (cv_rdr cv) in
  let return_ := Done (cv, NoException) in
  if (x <=? - (INT_MAX - maskWidth)) || (y <=? - (INT_MAX - maskHeight)) then return_
  else if (x >=? INT_MAX - maskWidth) || (y >=? INT_MAX - maskHeight) then return_
  else
    let minX := Z.max x (_clip_bbMinX clip) in
    let minY := Z.max y (_clip_bbMinY clip) in
    let maxX := Z.min (x + maskWidth - 1) (_clip_bbMaxX clip) in
    let maxY := Z.min (y + maskHeight - 1) (_clip_bbMaxY clip) in
    do* dy := isub minY y in
    do* rows := if maskWidth >? 0 then idiv INT_MAX maskWidth else Done 0 in
    if (maskWidth >? 0) && (dy >=? rows) then return_
    else
      do* dx := isub minX x in
      do* before := imul dy maskWidth in
      if dx >=? INT_MAX - before then return_
      else if offset >=? INT_MAX - (before + minX - x) then return_
      else fillAlphaMask pinned maskPinned sc minX minY maxX maxY ALPHA_MASK jmask x y maskWidth maskHeight (offset + before + minX - x) stride cv.

(** Three bytes for a pixel. *)
Definition fillLCDAlphaMaskImpl (pinned maskPinned : bool) (sc : scene) (jmask : list Z) (x y maskWidth maskHeight offset stride : Z) (cv : canvas) : ub (canvas * thrown) :=
  let clip := _clip (cv_rdr cv) in
  let return_ := Done (cv, NoException) in
  let third := maskWidth ÷ 3 in
  if (x <? - (INT_MAX - third)) || (y <? - (INT_MAX - maskHeight)) then return_
  else if (x >=? INT_MAX - third) || (y >=? INT_MAX - maskHeight) then return_
  else
    let minX := Z.max x (_clip_bbMinX clip) in
    let minY := Z.max y (_clip_bbMinY clip) in
    let maxX := Z.min (x + third - 1) (_clip_bbMaxX clip) in
    let maxY := Z.min (y + maskHeight - 1) (_clip_bbMaxY clip) in
    do* dy := isub minY y in
    do* rows := if maskWidth >? 0 then idiv INT_MAX maskWidth else Done 0 in
    if (maskWidth >? 0) && (dy >=? rows) then return_
    else
      do* dx := isub minX x in
      if dx >=? INT_MAX ÷ 3 then return_
      else
        do* before := imul dy maskWidth in
        if dx * 3 >=? INT_MAX - before then return_
        else if offset >=? INT_MAX - (before + dx * 3) then return_
        else fillAlphaMask pinned maskPinned sc minX minY maxX maxY LCD_ALPHA_MASK jmask x y maskWidth maskHeight (offset + before + dx * 3) stride cv.

(** ** [clearRect] *)

Definition renderer_clearRect (x y w h : Z) (cv : canvas) : ub canvas :=
  do* maxX := (do* e := iadd x w in isub e 1) in
  do* maxY := (do* e := iadd y h in isub e 1) in
  let rdr := VALIDATE_BLITTING (cv_rdr cv) in
  let cv := cv <| cv_rdr := rdr |> in
  let clip := _clip rdr in
  let x := Z.max (Z.max x 0) (_clip_bbMinX clip) in
  let y := Z.max (Z.max y 0) (_clip_bbMinY clip) in
  let maxX := Z.min (Z.min maxX (s_width (_image rdr) - 1)) (_clip_bbMaxX clip) in
  let maxY := Z.min (Z.min maxY (s_height (_image rdr) - 1)) (_clip_bbMaxY clip) in
  if (x <=? maxX) && (y <=? maxY) then
    if _clearRect (_routines rdr) then
      do* d := clearRect8888_any rdr x y (maxX - x + 1) (maxY - y + 1) (intData (cv_mem cv)) in
      Done (cv <| cv_mem := cv_mem cv <| intData := d |> |>)
    else Undefined NullPointer
  else Done cv.
Definition clearRectImpl (pinned : bool) (x y w h : Z) (cv : canvas) : ub (canvas * thrown) :=
  with_surface pinned cv (fun cv =>
    renderer_clearRect x y w h (cv <| cv_rdr := set_strides (INVALIDATE_RENDERER_SURFACE (cv_rdr cv)) |>)).

(** ** The geometry of a rectangle *)

(** How much of pixel [X], in 16.16, the interval [x .. x + w] covers. *)
Definition overlap (x w X : Z) : Z := Z.max 0 (Z.min (x + w) ((X + 1) * 0x10000) - Z.max x (X * 0x10000)).
(** The fraction of a pixel of the run, by the marks of its two ends. *)
Definition fraction_at (from to lfrac rfrac X : Z) : Z :=
  if (X =? from) && negb (lfrac =? 0) then lfrac else if (X =? to) && negb (rfrac =? 0) then rfrac else 0x10000.

Lemma land_ffff v : Z.land v 0xffff = v mod 65536.
Proof. change 0xffff with (Z.ones 16). rewrite Z.land_ones by lia. reflexivity. Qed.

Lemma single_sum l r : 0 <= l < 65536 -> 0 <= r < 65536 -> l = 0 \/ r = 0 \/ 65536 <= l + r ->
  (r - 65536 + l) mod 65536 = l + r - (if (l =? 0) || (r =? 0) then 0 else 65536).
Proof.
  intros Hl Hr H. destruct (Z.eqb_spec l 0), (Z.eqb_spec r 0); cbn [orb]; symmetry;
    [apply (Z.mod_unique_pos _ _ (- 1))|apply (Z.mod_unique_pos _ _ (- 1))|apply (Z.mod_unique_pos _ _ (- 1))|apply (Z.mod_unique_pos _ _ 0)]; lia.
Qed.

(** The run of pixels and its two fractions are exact: the pixels inside the
    clip that the interval meets, each with its share. *)
Lemma axis_exact x w bbMin bbMax : 0 < w -> INT_MIN <= x -> x + w <= INT_MAX -> exists from to l r,
  axis x w IMAGE_FRAC_EDGE_KEEP IMAGE_FRAC_EDGE_KEEP bbMin bbMax = Done (from, to, l, r) /\
  (forall X, from <= X <= to <-> bbMin <= X <= bbMax /\ 0 < overlap x w X) /\
  (from <= to -> let '(l, r) := single from to l r in
    0 <= l < 0x10000 /\ 0 <= r < 0x10000 /\ (from = to -> r = 0) /\ forall X, from <= X <= to -> fraction_at from to l r X = overlap x w X).
Proof.
  intros Hw Hx He. unfold axis, iadd. rewrite jint_done by (unfold INT_MIN, INT_MAX in *; lia). cbn [ub_bind].
  unfold IMAGE_FRAC_EDGE_KEEP, IMAGE_FRAC_EDGE_PAD, IMAGE_FRAC_EDGE_TRIM. cbn [Z.eqb]. rewrite !land_ffff, !Z.shiftr_div_pow2 by lia. change (2 ^ 16) with 65536.
  set (e := x + w) in *. set (qa := x / 65536). set (qe := e / 65536).
  assert (x = 65536 * qa + x mod 65536 /\ 0 <= x mod 65536 < 65536) as Da by (subst qa; split; [apply Z.div_mod|apply Z.mod_pos_bound]; lia).
  assert (e = 65536 * qe + e mod 65536 /\ 0 <= e mod 65536 < 65536) as De by (subst qe; split; [apply Z.div_mod|apply Z.mod_pos_bound]; lia).
  set (ra := x mod 65536) in *. set (re := e mod 65536) in *. clearbody qa qe ra re.
  assert ((65536 - ra) mod 65536 = if ra =? 0 then 0 else 65536 - ra) as ->.
  { destruct (Z.eqb_spec ra 0) as [->|]; [reflexivity|]. apply Z.mod_small. lia. }
  set (l0 := if ra =? 0 then 0 else 65536 - ra). set (to0 := if negb (re =? 0) then qe else qe - 1).
  exists (if qa <? bbMin then bbMin else qa), (if to0 >? bbMax then bbMax else to0), (if qa <? bbMin then 0 else l0), (if to0 >? bbMax then 0 else re).
  split; [destruct (qa <? bbMin), (to0 >? bbMax); reflexivity|]. unfold overlap. fold e. rewrite !Z.gtb_ltb. split.
  - intros X. subst to0. destruct (Z.ltb_spec qa bbMin), (Z.eqb_spec re 0); cbn [negb]; destruct (Z.ltb_spec bbMax (qe - 1)), (Z.ltb_spec bbMax qe); lia.
  - intros FT. unfold single. set (from := if qa <? bbMin then bbMin else qa) in *. set (to := if bbMax <? to0 then bbMax else to0) in *.
    set (l := if qa <? bbMin then 0 else l0). set (r := if bbMax <? to0 then 0 else re).
    assert (forall a b, 0 <= a -> 0 <= b -> (Z.lor a b =? 0) = (a =? 0) && (b =? 0)) as LZ.
    { intros a b _ _. destruct (Z.eqb_spec (Z.lor a b) 0) as [E|N].
      - apply Z.lor_eq_0_iff in E as [-> ->]. reflexivity.
      - destruct (Z.eqb_spec a 0) as [->|], (Z.eqb_spec b 0) as [->|]; try reflexivity. exfalso. apply N. reflexivity. }
    assert (0 <= l < 65536 /\ 0 <= r < 65536) as [Hl Hr] by (subst l r l0; destruct (qa <? bbMin), (bbMax <? to0), (Z.eqb_spec ra 0); lia).
    assert ((l = 0 -> x <= from * 65536) /\ (l <> 0 -> x = (from + 1) * 65536 - l) /\ x < (from + 1) * 65536) as (L0 & L1 & L2)
      by (subst l from l0; destruct (Z.ltb_spec qa bbMin), (Z.eqb_spec ra 0); lia).
    assert ((r = 0 -> (to + 1) * 65536 <= e) /\ (r <> 0 -> e = to * 65536 + r) /\ to * 65536 < e) as (R0 & R1 & R2)
      by (subst r to to0; destruct (Z.eqb_spec re 0); cbn [negb] in *; match goal with |- context [bbMax <? ?t] => destruct (Z.ltb_spec bbMax t) end; lia).
    assert (x < e) as XE by lia. rewrite LZ by lia. clearbody l r from to e. clear - Hl Hr L0 L1 L2 R0 R1 R2 XE FT. unfold fraction_at.
    destruct (Z.eqb_spec from to) as [E|N]; destruct (Z.eqb_spec l 0) as [El|Nl], (Z.eqb_spec r 0) as [Er|Nr]; cbn [andb negb];
      rewrite ?land_ffff;
      rewrite ?single_sum by lia;
      destruct (Z.eqb_spec l 0), (Z.eqb_spec r 0); cbn [orb]; try lia;
      (split; [lia|]; split; [lia|]; split; [lia|]; intros X HX);
      repeat match goal with |- context [?a =? ?b] => destruct (Z.eqb_spec a b) end; cbn [andb negb]; lia.
Qed.
