(* ===== verification/PiscesRect.v ===== *)
(** * A rectangle of the colour ([fillRect])

    The rectangle is drawn in bands: a first row covered in part, bands of at
    most eight rows, a last row covered in part.  The theorem composes them: with
    the rule source-over every pixel inside the clip that the rectangle meets is
    mixed exactly once, with the alpha its share of the rectangle leaves of the
    colour, and no other pixel of the surface changes. *)

From S2P Require Import Prelude CFloat Float32 DecoraApi Argb Painted PiscesPixel PiscesRdr PiscesBlit PiscesPaint PiscesRenderer PiscesFill.
Local Open Scope Z_scope.
Local Open Scope ub_scope.

(** The alpha of a pixel of which [colf] of the width and [rowf] of the height,
    in 16.16, are covered. *)
Definition pixel_alpha (c : colour) (colf rowf : Z) : Z :=
  let alpha := row_alpha c rowf in if colf =? 0x10000 then alpha else edge_alpha colf alpha.
Definition mixed (c : colour) (colf rowf old : Z) : Z :=
  blendSrcOver8888_pre (pixel_alpha c colf rowf) (c_red c) (c_green c) (c_blue c) old.

(** ** Bands *)

(** A pixel that is not painted is as it was. *)
Lemma pixel_unpainted ix w h (D : Z -> Z -> Prop) F dst d x y : raster ix w h (Z.of_nat (length dst)) -> (forall x y, D x y -> in_image w h x y) ->
  in_image w h x y -> ~ D x y -> painted D ix F dst d -> pixel d (ix x y) = pixel dst (ix x y).
Proof.
  intros R HD Hxy N P. pose proof (painted_old _ _ _ _ _ _ _ _ _ R HD Hxy N P) as E.
  assert (0 <= ix x y < Z.of_nat (length d)) as B by (destruct P as [-> _]; apply R, Hxy). rewrite (rd_pixel d _ B) in E. congruence.
Qed.

(** A band below what is painted. *)
Lemma painted_band ix w h (D : Z -> Z -> Prop) F dst d W n x0 y0 place g d' : raster ix w h (Z.of_nat (length dst)) ->
  (forall x y, D x y -> in_image w h x y) -> (forall i j, in_image W n i j -> in_image w h (x0 + i) (y0 + j) /\ ~ D (x0 + i) (y0 + j)) ->
  (forall i j, in_image W n i j -> place i j = ix (x0 + i) (y0 + j)) -> (forall i j, in_image W n i j -> g i j = F (x0 + i) (y0 + j)) ->
  painted D ix F dst d -> painted (in_image W n) place g d d' ->
  painted (fun x y => D x y \/ in_image W n (x - x0) (y - y0)) ix F dst d'.
Proof.
  intros [R1 R2] HD HB HP Hg (L & P & O) (L' & P' & O'). split; [congruence|]. split.
  - intros x y [Hd|Hb].
    + rewrite O'; [apply P, Hd|]. intros i j Hij E. destruct (HB i j Hij) as [B1 B2]. rewrite HP in E by exact Hij.
      pose proof (R1 _ _ B1). pose proof (R1 _ _ (HD _ _ Hd)). destruct (R2 (x0 + i) (y0 + j) x y B1 (HD _ _ Hd)) as [E1 E2]; [lia|]. subst x y. contradiction.
    + specialize (P' _ _ Hb). rewrite HP, Hg in P' by exact Hb. replace (x0 + (x - x0)) with x in P' by lia. replace (y0 + (y - y0)) with y in P' by lia. exact P'.
  - intros i Hi. rewrite O'; [apply O; intros x y Hd; apply Hi; auto|]. intros a b Hab. rewrite HP by exact Hab.
    apply Hi. right. replace (x0 + a - x0) with a by lia. replace (y0 + b - y0) with b by lia. exact Hab.
Qed.

Section Bands.
Variables (s : surface) (sc : scene) (dst : list Z) (x_from x_to y_from y_to lfrac rfrac : Z) (rowf : Z -> Z).
(** What the routines chosen for the renderer do: [value X Y colf rowf] is the
    new value of a pixel, [colf] and [rowf] of whose width and height are
    covered. *)
Variables (chosen : routines -> colour -> Prop) (value : Z -> Z -> Z -> Z -> Z -> Z).
Abbreviation width := (s_width s).
Abbreviation W := (x_to - x_from + 1).
Hypothesis (Hx : 0 <= x_from <= x_to) (HX : x_to < width) (Hy : 0 <= y_from <= y_to) (HY : y_to < s_height s).
Hypothesis (HL : s_height s * width <= Z.of_nat (length dst)) (HM : s_height s * width <= INT_MAX).
Hypothesis (EL : 0 <= lfrac < 0x10000) (ER : 0 <= rfrac < 0x10000) (EE : x_from = x_to -> rfrac = 0).

Definition column (X : Z) : Z := fraction_at x_from x_to lfrac rfrac X.
Definition drawn_to (X Y : Z) : Z := value X Y (column X) (rowf Y) (pixel dst (row_major width X Y)).
Definition region (y X Y : Z) : Prop := x_from <= X <= x_to /\ y_from <= Y < y.

(** The renderer between two bands. *)
Record at_band (y : Z) (rdr : renderer) : Prop := {
  ab_chosen : chosen (_routines rdr) (_c rdr); ab_surface : _surface rdr = s; ab_pixel : _imagePixelStride rdr = 1; ab_scan : _imageScanlineStride rdr = width;
  ab_min : _minTouched (_window rdr) = x_from; ab_max : _maxTouched (_window rdr) = x_to; ab_width : _alphaWidth (_window rdr) = W;
  ab_l : _el_lfrac (_window rdr) = lfrac; ab_r : _el_rfrac (_window rdr) = rfrac;
  ab_x : _currX (_window rdr) = x_from; ab_y : _currY (_window rdr) = y; ab_offset : _currImageOffset (_window rdr) = y * width }.
Definition painted_to (y : Z) (m : arrays) : Prop := painted (region y) (row_major width) drawn_to dst (intData m).

(** One band. *)
Definition draws_band : Prop := forall y n frac rdr m, at_band y rdr -> y_from <= y -> 0 < n -> y + n <= y_to + 1 -> coverage frac ->
  rect_ok rdr n (Z.of_nat (length (intData m))) -> edges_ok rdr ->
  (forall i j, in_image W n i j -> pixel (intData m) (place rdr i j) = pixel dst (row_major width (x_from + i) (y + j))) ->
  yields (draw_band sc n frac (mkCanvas rdr m)) (fun cv => cv_rdr cv = rdr /\
    drawn rdr n (fun i j => value (x_from + i) (y + j) (column (x_from + i)) frac) (intData m) (intData (cv_mem cv))).
Hypothesis BD : draws_band.

Lemma in_surface y X Y : y <= y_to + 1 -> region y X Y -> in_image width (s_height s) X Y.
Proof using Hx HX Hy HY. clear HL HM BD. unfold region, in_image. lia. Qed.
Lemma dst_raster : raster (row_major width) width (s_height s) (Z.of_nat (length dst)).
Proof using HL. clear Hx HX Hy HY HM EL ER EE BD. apply row_major_raster; lia. Qed.

(** A value that depends on the column of the window is that of the column. *)
Lemma pick_column {A} y rdr i (l r m : A) : at_band y rdr -> pick rdr lfrac rfrac l r m i =
  if (x_from + i =? x_from) && negb (lfrac =? 0) then l else if (x_from + i =? x_to) && negb (rfrac =? 0) then r else m.
Proof using.
  clear HL HM Hx HX Hy HY EL ER EE BD. intros A0. unfold pick. rewrite (ab_width _ _ A0). replace (x_from + i =? x_from) with (i =? 0) by (destruct (Z.eqb_spec i 0), (Z.eqb_spec (x_from + i) x_from); lia).
  replace (x_from + i =? x_to) with (i =? W - 1) by (destruct (Z.eqb_spec i (W - 1)), (Z.eqb_spec (x_from + i) x_to); lia). reflexivity.
Qed.
Lemma column_pick y rdr i : at_band y rdr -> column (x_from + i) = pick rdr lfrac rfrac lfrac rfrac 0x10000 i.
Proof using. intros A. rewrite (pick_column y _ _ _ _ _ A). reflexivity. Qed.

Lemma band_drawn y n frac rdr m : at_band y rdr -> painted_to y m -> y_from <= y -> 0 < n -> y + n <= y_to + 1 -> coverage frac ->
  (forall Y, y <= Y < y + n -> rowf Y = frac) ->
  yields (draw_band sc n frac (mkCanvas rdr m)) (fun cv => cv_rdr cv = rdr /\ painted_to (y + n) (cv_mem cv)).
Proof using Hx HX Hy HY HL EL ER EE BD.
  intros A P H1 H2 H3 HC HR. pose proof P as (L & _). pose proof dst_raster as R.
  assert (forall i j, in_image W n i j -> place rdr i j = row_major width (x_from + i) (y + j)) as PL.
  { intros i j _. unfold place, base_of, at_row, row_major. rewrite (ab_offset _ _ A), (ab_min _ _ A), (ab_scan _ _ A). lia. }
  assert (forall i j, in_image W n i j -> pixel (intData m) (place rdr i j) = pixel dst (row_major width (x_from + i) (y + j))) as OP.
  { intros i j Hij. rewrite PL by exact Hij. apply (pixel_unpainted _ width (s_height s) (region y) drawn_to);
      [exact R| | | |exact P]; [intros X Y; apply in_surface; lia|..]; unfold region, in_image in *; lia. }
  assert (rect_ok rdr n (Z.of_nat (length (intData m)))) as OK.
  { split; rewrite ?(ab_width _ _ A), ?(ab_min _ _ A), ?(ab_max _ _ A); [apply (ab_pixel _ _ A)|lia|lia|lia|]. rewrite L. destruct R as [R1 R2]. split.
    - intros i j Hij. rewrite PL by exact Hij. apply R1. unfold in_image in *. lia.
    - intros i j i' j' Hij Hij'. rewrite !PL by assumption. intros E. apply R2 in E; unfold in_image in *; lia. }
  assert (edges_ok rdr) as EO.
  { unfold edges_ok. rewrite (ab_l _ _ A), (ab_r _ _ A), (ab_width _ _ A). cbv zeta. split; [exact EL|]. split; [exact ER|].
    unfold flag. destruct (Z.eqb_spec rfrac 0), (Z.eqb_spec lfrac 0); lia. }
  eapply yields_mono; [apply (BD y n frac rdr m A H1 H2 H3 HC OK EO OP)|]. intros cv [E D]. split; [exact E|]. unfold drawn in D. rewrite (ab_width _ _ A) in D.
  unfold painted_to. eapply painted_ext; [|eapply (painted_band (row_major width) width (s_height s) (region y)); [exact R| | |exact PL| |exact P|exact D]].
  - intros X Y. unfold region, in_image. lia.
  - intros X Y. apply in_surface. lia.
  - intros i j. unfold region, in_image. lia.
  - intros i j Hij. cbn beta. unfold drawn_to. rewrite HR by (unfold in_image in Hij; lia). rewrite OP by exact Hij. reflexivity.
Qed.

Lemma next_band_at y n rdr m : at_band y rdr -> 0 <= y + n <= s_height s -> 
  yields (next_band x_from n (mkCanvas rdr m)) (fun cv => at_band (y + n) (cv_rdr cv) /\ cv_mem cv = m).
Proof using Hx HX Hy HY HL HM EL ER EE BD.
  intros A H. unfold next_band. cbn [cv_rdr]. rewrite (ab_y _ _ A), (ab_surface _ _ A). unfold imul. rewrite jint_done by (unfold INT_MIN; nia).
  cbn [ub_bind]. apply yields_done. split; [|reflexivity]. destruct A. split; assumption || reflexivity.
Qed.

Lemma full_bands_drawn fuel : forall y rows rdr m, at_band y rdr -> painted_to y m -> y_from <= y -> 0 <= rows <= Z.of_nat fuel -> y + rows <= y_to + 1 ->
  (forall Y, y <= Y < y + rows -> rowf Y = 0x10000) ->
  yields (full_bands fuel sc x_from rows (mkCanvas rdr m)) (fun cv => at_band (y + rows) (cv_rdr cv) /\ painted_to (y + rows) (cv_mem cv)).
Proof using Hx HX Hy HY HL HM EL ER EE BD.
  induction fuel as [|fuel IH]; intros y rows rdr m A P H1 H2 H3 HR; cbn [full_bands].
  - apply yields_done. replace (y + rows) with y by lia. auto.
  - rewrite Z.gtb_ltb. destruct (Z.ltb_spec 0 rows); [|apply yields_done; replace (y + rows) with y by lia; auto].
    set (n := Z.min rows NUM_ALPHA_ROWS). assert (0 < n <= rows) as Hn by (subst n; unfold NUM_ALPHA_ROWS; lia). clearbody n.
    eapply yields_bind; [apply (band_drawn y n 0x10000 rdr m A P); try lia; [unfold coverage; lia|intros; apply HR; lia]|].
    intros [rdr' m'] [E P']. cbn [cv_rdr cv_mem] in *. subst rdr'.
    eapply yields_bind; [apply (next_band_at y n rdr m' A); lia|]. intros [rdr2 m2] [A2 E2]. cbn [cv_rdr cv_mem] in *. subst m2.
    replace (y + rows) with (y + n + (rows - n)) by lia. apply (IH (y + n) (rows - n) rdr2 m' A2 P'); try lia. intros; apply HR; lia.
Qed.

(** A first row covered in part, the rows covered in full, a last row. *)
Lemma bands_drawn tfrac bfrac rdr m : at_band y_from rdr -> intData m = dst -> 0 <= tfrac < 0x10000 -> 0 <= bfrac < 0x10000 -> (y_from = y_to -> bfrac = 0) ->
  (forall Y, y_from <= Y <= y_to -> rowf Y = fraction_at y_from y_to tfrac bfrac Y) ->
  let rows := if negb (bfrac =? 0) then y_to - y_from + 1 - 1 else y_to - y_from + 1 in
  yields (do* '(cv, rows) :=
      (if negb (tfrac =? 0) then
         do* cv := draw_band sc 1 tfrac (mkCanvas rdr m) in do* cv := next_band x_from 1 cv in Done (cv, rows - 1)
       else Done (mkCanvas rdr m, rows)) in
    do* cv := full_bands (Z.to_nat rows) sc x_from rows cv in
    if negb (bfrac =? 0) then draw_band sc 1 bfrac cv else Done cv) (fun cv => painted_to (y_to + 1) (cv_mem cv)).
Proof using Hx HX Hy HY HL HM EL ER EE BD.
  intros A E0 ET EB EY HR rows. unfold fraction_at in HR.
  assert (painted_to y_from m) as P0 by (unfold painted_to; rewrite E0; eapply painted_ext; [|apply painted_none]; unfold region; lia).
  set (last := if bfrac =? 0 then y_to + 1 else y_to). set (first := if tfrac =? 0 then y_from else y_from + 1).
  assert (rows = last - y_from) as Er by (subst rows last; destruct (bfrac =? 0); cbn [negb]; lia). clearbody rows.
  assert (first <= last <= y_to + 1 /\ y_from <= first) as Hf by (subst first last; destruct (Z.eqb_spec bfrac 0), (Z.eqb_spec tfrac 0); lia).
  eapply (yields_bind _ _ (fun '(cv, rows) => at_band first (cv_rdr cv) /\ painted_to first (cv_mem cv) /\ rows = last - first)).
  { subst first. destruct (Z.eqb_spec tfrac 0) as [->|N]; cbn [negb]; [apply yields_done; auto|].
    eapply yields_bind; [apply (band_drawn y_from 1 tfrac rdr m A P0); try lia; [unfold coverage; lia|]|].
    { intros Y HYr. rewrite HR by lia. replace Y with y_from by lia. rewrite Z.eqb_refl. destruct (Z.eqb_spec tfrac 0); [lia|reflexivity]. }
    intros [rdr1 m1] [Q1 P1]. cbn [cv_rdr cv_mem] in Q1, P1. subst rdr1. eapply yields_bind; [apply (next_band_at y_from 1 rdr m1 A); lia|].
    intros [rdr2 m2] [A2 Q2]. cbn [cv_rdr cv_mem] in A2, Q2. subst m2. apply yields_done. split; [exact A2|]. split; [exact P1|lia]. }
  intros [[rdr1 m1] rows1] (A1 & P1 & ->). cbn [cv_rdr cv_mem] in *.
  eapply yields_bind; [apply (full_bands_drawn _ first (last - first) rdr1 m1 A1 P1); try lia|].
  { intros Y HYr. rewrite HR by lia. subst first last. destruct (Z.eqb_spec tfrac 0), (Z.eqb_spec bfrac 0); cbn [negb]; rewrite ?andb_false_r; try reflexivity;
      repeat match goal with |- context [?a =? ?b] => destruct (Z.eqb_spec a b) end; cbn [andb negb]; lia || reflexivity. }
  intros [rdr2 m2] [A2 P2]. cbn [cv_rdr cv_mem] in *. replace (first + (last - first)) with last in * by lia. subst last.
  destruct (Z.eqb_spec bfrac 0) as [->|N]; cbn [negb]; [apply yields_done; exact P2|].
  eapply yields_mono; [apply (band_drawn y_to 1 bfrac rdr2 m2 A2 P2); try lia; [unfold coverage; lia|]|].
  { intros Y HYr. replace Y with y_to by lia. rewrite HR by lia. destruct (Z.eqb_spec y_to y_from); [lia|]. cbn [andb]. rewrite Z.eqb_refl.
    destruct (Z.eqb_spec bfrac 0); [lia|reflexivity]. }
  intros [rdr3 m3] [_ P3]. exact P3.
Qed.
End Bands.

(** ** The rectangle *)

(** The surface and its pixels, as Java keeps them. *)
Record surface_ok (s : surface) (len : Z) : Prop := {
  sf_width : 0 < s_width s; sf_height : 0 <= s_height s; sf_fits : s_height s * s_width s <= len; sf_max : len <= INT_MAX }.
Lemma surface_acquired s len : surface_ok s len -> surface_acquire s len true = Done Acquired.
Proof.
  intros [W H F M]. unfold surface_acquire. destruct (Z.ltb_spec (s_width s) 0), (Z.ltb_spec (s_height s) 0); try lia. cbn [orb].
  rewrite idiv_done by nia. cbn [ub_bind]. assert (s_height s <= len / s_width s) by (apply Z.div_le_lower_bound; lia).
  destruct (Z.ltb_spec (len / s_width s) (s_height s)); [lia|reflexivity].
Qed.
Record clip_inside (c : clip) (s : surface) : Prop := {
  ci_x : 0 <= _clip_bbMinX c; ci_X : _clip_bbMaxX c < s_width s; ci_y : 0 <= _clip_bbMinY c; ci_Y : _clip_bbMaxY c < s_height s }.

(** The pixels of the rectangle inside the clip. *)
Definition covered (cl : clip) (x y w h X Y : Z) : Prop :=
  (_clip_bbMinX cl <= X <= _clip_bbMaxX cl /\ 0 < overlap x w X) /\ (_clip_bbMinY cl <= Y <= _clip_bbMaxY cl /\ 0 < overlap y h Y).

(** What is chosen for a rectangle of paint mode [M] under the rule source-over. *)
Lemma validated_renderer rdr : valid rdr -> _compositeRule rdr = COMPOSITE_SRC_OVER ->
  let v := VALIDATE_BLITTING (INVALIDATE_RENDERER_SURFACE rdr) in
  _surface v = _surface rdr /\ _c v = _u rdr /\ _genPaint (_routines v) = generator (_paintMode rdr) /\
  _emitLine (_routines v) = Some (line_emit COMPOSITE_SRC_OVER (_paintMode rdr)) /\
  _emitRows (_routines v) = row_blit (_maskType rdr) COMPOSITE_SRC_OVER (_paintMode rdr).
Proof.
  intros V R v. subst v. destruct (validate_all _ (invalidate_valid INVALID_RENDERER_SURFACE rdr V)) as ((S1 & _ & S3 & S4 & S5 & S6 & _) & I & C & ((P1 & P2 & P3) & _) & _).
  change (invalidate INVALID_RENDERER_SURFACE rdr) with (INVALIDATE_RENDERER_SURFACE rdr) in *.
  change (_paintMode (INVALIDATE_RENDERER_SURFACE rdr)) with (_paintMode rdr) in *. change (_compositeRule (INVALIDATE_RENDERER_SURFACE rdr)) with (_compositeRule rdr) in *.
  change (_maskType (INVALIDATE_RENDERER_SURFACE rdr)) with (_maskType rdr) in *. change (_u (INVALIDATE_RENDERER_SURFACE rdr)) with (_u rdr) in *.
  change (_surface (INVALIDATE_RENDERER_SURFACE rdr)) with (_surface rdr) in *.
  set (v := VALIDATE_BLITTING _) in *. clearbody v.
  rewrite S1, ?S3, ?S4, ?R in *. rewrite C. auto 10.
Qed.

Section Rectangle.
Variables (sc : scene) (cv : canvas) (x y w h : Z) (chosen : routines -> colour -> Prop) (value : Z -> Z -> Z -> Z -> Z -> Z).
Abbreviation rdr := (cv_rdr cv).
Abbreviation dst := (intData (cv_mem cv)).
Abbreviation s := (_surface rdr).
Hypothesis (V : valid rdr) (SO : _compositeRule rdr = COMPOSITE_SRC_OVER).
Hypothesis (SF : surface_ok s (Z.of_nat (length dst))) (CI : clip_inside (_clip rdr) s).
Hypothesis (Hw : 0 < w) (Hh : 0 < h) (Hx : INT_MIN <= x /\ x + w <= INT_MAX) (Hy : INT_MIN <= y /\ y + h <= INT_MAX).
Hypothesis CH : let v := VALIDATE_BLITTING (INVALIDATE_RENDERER_SURFACE rdr) in chosen (_routines v) (_c v).
Hypothesis BD : forall x_from x_to y_from y_to lfrac rfrac, 0 <= x_from <= x_to -> x_to < s_width s -> 0 <= y_from <= y_to -> y_to < s_height s ->
  0 <= lfrac < 0x10000 -> 0 <= rfrac < 0x10000 -> draws_band s sc dst x_from x_to y_from y_to lfrac rfrac chosen value.

Lemma rectangle_drawn : yields (fillRectImpl true sc x y w h cv) (fun '(cv', e) => e = NoException /\
  painted (covered (_clip rdr) x y w h) (row_major (s_width s))
    (fun X Y => value X Y (overlap x w X) (overlap y h Y) (pixel dst (row_major (s_width s) X Y))) dst (intData (cv_mem cv'))).
Proof using V SO SF CI Hw Hh Hx Hy CH BD.
  unfold fillRectImpl, fillRect. cbv zeta.
  destruct (axis_exact x w (_clip_bbMinX (_clip rdr)) (_clip_bbMaxX (_clip rdr)) Hw (proj1 Hx) (proj2 Hx)) as (x_from & x_to & l0 & r0 & -> & AX & AX').
  destruct (axis_exact y h (_clip_bbMinY (_clip rdr)) (_clip_bbMaxY (_clip rdr)) Hh (proj1 Hy) (proj2 Hy)) as (y_from & y_to & t0 & b0 & -> & AY & AY').
  cbn [ub_bind]. destruct CI as [C1 C2 C3 C4]. destruct SF as [F1 F2 F3 F4].
  destruct (Z.leb_spec x_from x_to) as [LX|LX], (Z.leb_spec y_from y_to) as [LY|LY]; cbn [andb];
    try (apply yields_done; split; [reflexivity|]; eapply painted_ext; [|apply painted_none]; intros X Y; split; [contradiction|intros [KX KY]];
         apply AX in KX; apply AY in KY; lia).
  specialize (AX' LX). specialize (AY' LY). unfold with_surface. rewrite surface_acquired by (split; assumption). cbn [ub_bind].
  destruct (validated_renderer rdr V SO) as (VS & _). set (v := VALIDATE_BLITTING (INVALIDATE_RENDERER_SURFACE rdr)) in *. clearbody v. cbv zeta in CH.
  pose proof (proj1 (AX x_from) ltac:(lia)) as [KX1 _]. pose proof (proj1 (AX x_to) ltac:(lia)) as [KX2 _].
  pose proof (proj1 (AY y_from) ltac:(lia)) as [KY1 _]. pose proof (proj1 (AY y_to) ltac:(lia)) as [KY2 _].
  rewrite VS. unfold imul. rewrite jint_done by (unfold INT_MIN; nia). cbn [ub_bind].
  destruct (single y_from y_to t0 b0) as [tfrac bfrac]. destruct (single x_from x_to l0 r0) as [lfrac rfrac].
  destruct AX' as (EL & ER & EE & FX). destruct AY' as (ET & EB & EF & FY).
  set (rowf := fraction_at y_from y_to tfrac bfrac) in *.
  match goal with |- context [cv <| cv_rdr := ?r |>] => change (cv <| cv_rdr := r |>) with (mkCanvas r (cv_mem cv)); set (rdr1 := r) end.
  assert (at_band s x_from x_to lfrac rfrac chosen y_from rdr1) as A.
  { subst rdr1. split; try reflexivity; assumption || (transitivity (s_width (_surface v)); [reflexivity|rewrite VS; reflexivity]). }
  clearbody rdr1. eapply yields_bind; [apply (bands_drawn s sc dst x_from x_to y_from y_to lfrac rfrac rowf chosen value); try lia; try assumption; try reflexivity;
    apply BD; assumption || lia|].
  intros cv' P. apply yields_done. split; [reflexivity|]. eapply painted_values; [|eapply painted_ext; [|exact P]].
  - intros X Y [[KX OX] [KY OY]]. unfold drawn_to, column. subst rowf. cbn beta. rewrite FX, FY; [reflexivity| |]; [apply AY; auto|apply AX; auto].
  - intros X Y. unfold region, covered. rewrite <- AX, <- AY. lia.
Qed.
End Rectangle.

(** ** The colour *)

Definition plain_chosen (c : colour) (r : routines) (c' : colour) : Prop :=
  _emitLine r = Some EmitLineSourceOver8888_pre /\ _genPaint r = None /\ c' = c.
Lemma plain_draws_band s c sc dst x_from x_to y_from y_to lfrac rfrac : colour_ok c -> 0 <= lfrac < 0x10000 -> 0 <= rfrac < 0x10000 ->
  draws_band s sc dst x_from x_to y_from y_to lfrac rfrac (plain_chosen c) (fun _ _ => mixed c).
Proof.
  intros CO EL ER y n frac rdr m A H1 H2 H3 HC OK EO _. destruct (ab_chosen _ _ _ _ _ _ _ _ A) as (E & G & C).
  unfold draw_band, gen_paint. cbn [cv_rdr]. rewrite G. cbn [ub_bind]. unfold emit_line. cbn [cv_rdr cv_mem]. rewrite E.
  eapply yields_bind; [apply (emitLineSourceOver_draws rdr n (intData m) OK EO frac); [rewrite C; exact CO|exact HC]|].
  intros d D. apply yields_done. split; [reflexivity|]. rewrite C in D. eapply painted_values; [|exact D]. intros i j _. cbn beta.
  unfold mixed, column_alpha, pixel_alpha. rewrite (column_pick s x_from x_to lfrac rfrac _ _ _ i A), (ab_l _ _ _ _ _ _ _ _ A), (ab_r _ _ _ _ _ _ _ _ A). cbv zeta.
  f_equal. unfold pick. destruct (_ && _); [destruct (Z.eqb_spec lfrac 0x10000); [lia|reflexivity]|]. destruct (_ && _); [destruct (Z.eqb_spec rfrac 0x10000); [lia|reflexivity]|]. reflexivity.
Qed.

(** C10: A rectangle of the colour is drawn exactly.  The paint is the flat colour,
    the rule source-over, the clip inside the surface, and the rectangle is not
    empty and has corners that fit into an int.  Then every pixel of the surface that
    is inside the clip and meets the rectangle is mixed once with the colour,
    whose alpha is reduced by the covered share of the pixel's height and width;
    the other pixels keep their value, nothing outside the array is touched, and
    no exception is thrown. *)
Theorem fill_rect_covers_exactly sc cv x y w h : valid (cv_rdr cv) ->
  _paintMode (cv_rdr cv) = PAINT_FLAT_COLOR -> _compositeRule (cv_rdr cv) = COMPOSITE_SRC_OVER -> colour_ok (_u (cv_rdr cv)) ->
  surface_ok (_surface (cv_rdr cv)) (Z.of_nat (length (intData (cv_mem cv)))) -> clip_inside (_clip (cv_rdr cv)) (_surface (cv_rdr cv)) ->
  0 < w -> 0 < h -> INT_MIN <= x /\ x + w <= INT_MAX -> INT_MIN <= y /\ y + h <= INT_MAX ->
  exists cv', fillRectImpl true sc x y w h cv = Done (cv', NoException) /\
    let ix := row_major (s_width (_surface (cv_rdr cv))) in
    let dst := intData (cv_mem cv) in
    painted (covered (_clip (cv_rdr cv)) x y w h) ix
      (fun X Y => mixed (_u (cv_rdr cv)) (overlap x w X) (overlap y h Y) (pixel dst (ix X Y))) dst (intData (cv_mem cv')).
Proof.
  intros V FM SO CO SF CI Hw Hh Hx Hy.
  destruct (rectangle_drawn sc cv x y w h (plain_chosen (_u (cv_rdr cv))) (fun _ _ => mixed (_u (cv_rdr cv))) V SO SF CI Hw Hh Hx Hy) as ([cv' e] & E & -> & P).
  - destruct (validated_renderer _ V SO) as (_ & C & G & E & _). cbv zeta in *. rewrite FM in *. split; [exact E|]. split; [exact G|exact C].
  - intros. apply plain_draws_band; assumption.
  - exists cv'. auto.
Qed.

(** ** Examples *)

Definition no_gradient : gradient :=
  mkGradient CYCLE_NONE [] f_zero f_zero f_zero f_zero f_zero f_zero f_zero f_zero f_zero f_zero f_zero f_zero f_zero f_zero f_zero f_zero f_zero f_zero.
Definition no_texture : texture := sample_texture 0 0 [] false false 0 0 0 0.
Definition plain_scene : scene := mkScene no_gradient no_texture [] [] true.
(** A cleared surface and the colour [c]. *)
Definition sample_canvas (width height : Z) (c : colour) (pixels : list Z) : canvas :=
  mkCanvas (renderer_setColor (createCommon (mkSurface width height 0 width 1 TYPE_INT_ARGB_PRE)) (c_red c) (c_green c) (c_blue c) (c_alpha c))
    (mkArrays pixels [] [] [] []).
Definition white : colour := mkColour 255 255 255 255.

Lemma fill_rect_covers_exactly_witness : exists cv', fillRectImpl true plain_scene 0x8000 0 0x10000 0x18000 (sample_canvas 3 2 white (repeat 0 6)) = Done (cv', NoException) /\
  painted (covered (mkClip 0 0 2 1) 0x8000 0 0x10000 0x18000) (row_major 3)
    (fun X Y => mixed white (overlap 0x8000 0x10000 X) (overlap 0 0x18000 Y) (pixel (repeat 0 6) (row_major 3 X Y))) (repeat 0 6) (intData (cv_mem cv')).
Proof.
  apply (fill_rect_covers_exactly plain_scene (sample_canvas 3 2 white (repeat 0 6)) 0x8000 0 0x10000 0x18000).
  - apply (reachable_valid (mkSurface 3 2 0 3 1 TYPE_INT_ARGB_PRE)); [reflexivity|]. apply rtc_once. apply (Step_setColor _ 255 255 255 255).
  - reflexivity.
  - reflexivity.
  - repeat split; vm_compute; discriminate.
  - split; vm_compute; reflexivity || discriminate.
  - split; vm_compute; reflexivity || discriminate.
  - lia.
  - lia.
  - unfold INT_MIN, INT_MAX. lia.
  - unfold INT_MIN, INT_MAX. lia.
Defined.

(** What it leaves: two columns of half coverage, the second row of half height. *)
Example rectangle_left : exists cv', fillRectImpl true plain_scene 0x8000 0 0x10000 0x18000 (sample_canvas 3 2 white (repeat 0 6)) = Done (cv', NoException) /\
  map (fun p => chan p 24) (intData (cv_mem cv')) = [128; 128; 0; 63; 63; 0].
Proof. eexists. split; [vm_compute; reflexivity|reflexivity]. Qed.

(** An empty rectangle at the middle of a pixel paints the whole pixel: the two
    fractions add up to nothing, which marks full coverage. *)
Example empty_rectangle_is_painted : exists cv', fillRectImpl true plain_scene 0x8000 0 0 0x10000 (sample_canvas 2 1 white [0; 0]) = Done (cv', NoException) /\
  intData (cv_mem cv') = [argb 255 255 255 255; 0].
Proof. eexists. split; [vm_compute; reflexivity|reflexivity]. Qed.

(** An array that is too short for the surface throws, and the pixels are
    written all the same. *)
Example short_array_is_written : fillRectImpl true plain_scene 0 0 0x10000 0x10000 (sample_canvas 2 2 white [0; 0; 0]) = Undefined OutOfBounds.
Proof. vm_compute. reflexivity. Qed.
(** And a surface without columns divides by zero. *)
Example no_columns_divides : surface_acquire (mkSurface 0 0 0 0 1 TYPE_INT_ARGB_PRE) 0 true = Undefined DivideByZero.
Proof. reflexivity. Qed.

(** Under the rule clear a mask is drawn from the row of deltas, which is [NULL];
    three bytes of mask with a paint call a routine that is [NULL]. *)
Example clear_with_a_mask : let cv := sample_canvas 2 1 white [0; 0] in
  fillAlphaMaskImpl true true plain_scene [127; 127] 0 0 2 1 0 2 (cv <| cv_rdr := renderer_setCompositeRule (cv_rdr cv) COMPOSITE_CLEAR |>) = Undefined OutOfBounds.
Proof. vm_compute. reflexivity. Qed.
Example lcd_mask_with_a_paint : let cv := sample_canvas 2 1 white [0; 0] in
  let g := mkGradient CYCLE_NONE (repeat 0 256) f_zero f_zero f_zero f_zero f_zero f_zero f_zero f_zero f_zero f_zero f_zero f_zero f_zero f_zero f_zero f_zero f_zero f_zero in
  fillLCDAlphaMaskImpl true true (mkScene g no_texture [] [] true) [127; 127; 127; 127; 127; 127] 0 0 6 1 0 6
    (cv <| cv_rdr := setPaintMode (cv_rdr cv) PAINT_LINEAR_GRADIENT |>) = Undefined NullPointer.
Proof. vm_compute. reflexivity. Qed.

(** A mask that begins left of the clip: from its second row on the paint is
    taken at the mask's first column instead of the clip's.  The gradient
    depends on the column only, and the two rows differ. *)
Example second_row_is_shifted : let cv := sample_canvas 1 2 white [0; 0] in
  let g := mkGradient CYCLE_REPEAT (map (fun i => argb 255 0 0 (Z.of_nat i)) (seq 0 256)) (Z_to_float 256) f_zero f_zero
    f_zero f_zero f_zero f_zero f_zero f_zero f_zero f_zero f_zero f_zero f_zero f_zero f_zero f_zero f_zero in
  exists cv', fillAlphaMaskImpl true true (mkScene g no_texture [] [] true) [-1; -1; -1; -1] (- 1) 0 2 2 0 2
    (cv <| cv_rdr := setPaintMode (cv_rdr cv) PAINT_LINEAR_GRADIENT |>) = Done (cv', NoException) /\
  intData (cv_mem cv') = [argb 255 0 0 0; argb 255 0 0 255].
Proof. eexists. split; [vm_compute; reflexivity|reflexivity]. Qed.
