(* ===== verification/PiscesMask.v ===== *)
(** * A mask of coverages ([fillAlphaMask])

    The rows of a mask are drawn one by one, the part of them that is inside the
    clip.  With the colour and the rule source-over every pixel under the mask is
    mixed once, with the alpha its byte leaves of the colour. *)

From S2P Require Import Prelude CFloat Float32 DecoraApi Argb Painted PiscesPixel PiscesRdr PiscesBlit PiscesPaint PiscesRenderer PiscesFill PiscesRect.
Local Open Scope Z_scope.
Local Open Scope ub_scope.

Definition masked (c : colour) (v old : Z) : Z := blendSrcOver8888_pre (covered_alpha c (Z.land v 0xff)) (c_red c) (c_green c) (c_blue c) old.

Section Rows.
Variables (s : surface) (c : colour) (sc : scene) (dst mask : list Z) (minX maxX minY maxY x maskWidth offset : Z).
Abbreviation width := (s_width s).
Abbreviation W := (maxX - minX + 1).
Hypothesis (Hx : 0 <= minX <= maxX) (HX : maxX < width) (Hy : 0 <= minY <= maxY) (HY : maxY < s_height s).
Hypothesis (HL : s_height s * width <= Z.of_nat (length dst)) (HM : s_height s * width <= INT_MAX).
Hypothesis (CO : colour_ok c) (DO : Forall is_pixel dst) (MB : Forall jbyte mask).
Hypothesis (HO : 0 <= offset) (HW : W <= maskWidth) (HK : offset + (maxY - minY) * maskWidth + W <= Z.of_nat (length mask)).

Definition mask_to (X Y : Z) : Z := masked c (pixel mask (offset + (Y - minY) * maskWidth + (X - minX))) (pixel dst (row_major width X Y)).
Abbreviation rows_to := (region minX maxX minY).

Record at_mask_row (y : Z) (rdr : renderer) : Prop := {
  am_emit : _emitRows (_routines rdr) = Some BlitSrcOverMask8888_pre; am_gen : _genPaint (_routines rdr) = None;
  am_colour : _c rdr = c; am_surface : _surface rdr = s; am_pixel : _imagePixelStride rdr = 1; am_scan : _imageScanlineStride rdr = width;
  am_min : _minTouched (_window rdr) = minX; am_max : _maxTouched (_window rdr) = maxX; am_width : _alphaWidth (_window rdr) = W;
  am_y : _currY (_window rdr) = y; am_mask : _maskOffset (_window rdr) = offset + (y - minY) * maskWidth }.
Definition masked_to (y : Z) (m : arrays) : Prop := _mask_byteData m = mask /\ painted (rows_to y) (row_major width) mask_to dst (intData m).

Lemma raster_of_dst : raster (row_major width) width (s_height s) (Z.of_nat (length dst)).
Proof using HL. clear Hx HX Hy HY HM HO HW HK. apply row_major_raster; lia. Qed.
Lemma dst_pixel X Y : in_image width (s_height s) X Y -> is_pixel (pixel dst (row_major width X Y)).
Proof using HL DO.
  intros I. destruct raster_of_dst as [R _]. specialize (R X Y I). pose proof (rd_pixel dst _ R) as E. unfold rd in E.
  destruct (0 <=? _); [|discriminate]. destruct (dst !! _) eqn:K; [|discriminate]. injection E as <-. eapply (proj1 (Forall_lookup _ _) DO), K.
Qed.

(** One row: its window is set to the row's pixels and its part of the mask. *)
Lemma mask_row_drawn y rdr m : at_mask_row y rdr -> _currImageOffset (_window rdr) = y * width -> masked_to y m -> minY <= y <= maxY ->
  yields (emit_rows_of sc 1 (mkCanvas rdr m)) (fun cv => cv_rdr cv = rdr /\ masked_to (y + 1) (cv_mem cv)).
Proof using Hx HX Hy HY HL HM CO DO MB HO HW HK.
  intros A O [Em P] H. unfold emit_rows_of. cbn [cv_rdr cv_mem]. cbv zeta. rewrite (am_emit _ _ A), Em. pose proof P as (L & _). pose proof raster_of_dst as R.
  assert (forall i j, in_image W 1 i j -> place rdr i j = row_major width (minX + i) (y + j)) as PL.
  { intros i j _. unfold place, base_of, at_row, row_major. rewrite O, (am_min _ _ A), (am_scan _ _ A). lia. }
  assert (forall i j, in_image W 1 i j -> in_image width (s_height s) (minX + i) (y + j) /\ ~ rows_to y (minX + i) (y + j)) as IN
    by (unfold region, in_image; lia).
  assert (forall i j, in_image W 1 i j -> pixel (intData m) (place rdr i j) = pixel dst (row_major width (minX + i) (y + j))) as OLD.
  { intros i j Hij. rewrite PL by exact Hij. apply (pixel_unpainted _ width (s_height s) (rows_to y) mask_to); [exact R| |apply IN, Hij|apply IN, Hij|exact P].
    intros X Y. unfold region, in_image. lia. }
  assert (rect_ok rdr 1 (Z.of_nat (length (intData m)))) as OK.
  { split; rewrite ?(am_width _ _ A), ?(am_min _ _ A), ?(am_max _ _ A); [apply (am_pixel _ _ A)|lia|lia|lia|]. rewrite L. destruct R as [R1 R2]. split.
    - intros i j Hij. rewrite PL by exact Hij. apply R1, IN, Hij.
    - intros i j i' j' Hij Hij'. rewrite !PL by assumption. intros E. apply R2 in E; [lia|apply IN, Hij|apply IN, Hij']. }
  eapply yields_bind; [apply (blitSrcOverMask_draws rdr 1 (intData m) mask OK MB)|].
  - rewrite (am_mask _ _ A). nia.
  - rewrite (am_width _ _ A). intros i j Hi Hj. rewrite OLD by (split; assumption). apply dst_pixel, IN. split; assumption.
  - rewrite (am_colour _ _ A). exact CO.
  - rewrite (am_mask _ _ A), (am_width _ _ A). nia.
  - intros d D. apply yields_done. split; [reflexivity|]. split; [exact Em|]. cbn [cv_mem]. unfold drawn in D. rewrite (am_width _ _ A), (am_colour _ _ A) in D.
    eapply painted_ext; [|eapply (painted_band (row_major width) width (s_height s) (rows_to y)); [exact R| |exact IN|exact PL| |exact P|exact D]].
    + intros X Y. unfold region, in_image. lia.
    + intros X Y. unfold region, in_image. lia.
    + intros i j Hij. cbn beta. unfold mask_to, masked. rewrite OLD by exact Hij. rewrite (am_mask _ _ A).
      assert (j = 0) as -> by (unfold in_image in Hij; lia). do 5 f_equal; lia.
Qed.

Lemma mask_rows_drawn n : forall y rdr m, at_mask_row y rdr -> masked_to y m -> minY <= y -> y + Z.of_nat n = maxY + 1 ->
  yields (mask_rows n sc x maskWidth (mkCanvas rdr m)) (fun cv => masked_to (maxY + 1) (cv_mem cv)).
Proof using Hx HX Hy HY HL HM CO DO MB HO HW HK.
  induction n as [|n IH]; intros y rdr m A P H1 H2; cbn [mask_rows].
  - apply yields_done. replace (maxY + 1) with y by lia. exact P.
  - cbn [cv_rdr]. rewrite (am_y _ _ A), (am_surface _ _ A). unfold imul. rewrite jint_done by (unfold INT_MIN; nia). cbn [ub_bind].
    set (rdr1 := rdr <| _window := _window rdr <| _currImageOffset := y * width |> |>).
    change (at_window _ (mkCanvas rdr m)) with (mkCanvas rdr1 m).
    assert (at_mask_row y rdr1) as A1 by (destruct A; split; assumption).
    unfold gen_paint. cbn [cv_rdr]. rewrite (am_gen _ _ A1). cbn [ub_bind].
    eapply yields_bind; [apply (mask_row_drawn y rdr1 m A1 eq_refl P); lia|]. intros [rdr2 m2] [E P2]. cbn [cv_rdr cv_mem] in E, P2. subst rdr2.
    apply (IH (y + 1)); [|exact P2|lia|lia]. destruct A1. split; try assumption.
    + transitivity (_currY (_window rdr1) + 1); [reflexivity|]. congruence.
    + transitivity (_maskOffset (_window rdr1) + maskWidth); [reflexivity|]. rewrite am_mask0. lia.
Qed.
End Rows.

(** ** The mask *)

Definition under_mask (cl : clip) (x y maskWidth maskHeight X Y : Z) : Prop :=
  (_clip_bbMinX cl <= X <= _clip_bbMaxX cl /\ x <= X < x + maskWidth) /\ (_clip_bbMinY cl <= Y <= _clip_bbMaxY cl /\ y <= Y < y + maskHeight).

Section Mask.
Variables (sc : scene) (cv : canvas) (mask : list Z) (x y maskWidth maskHeight offset stride : Z).
Abbreviation rdr := (cv_rdr cv).
Abbreviation dst := (intData (cv_mem cv)).
Abbreviation s := (_surface rdr).
Abbreviation cl := (_clip rdr).
Hypothesis (V : valid rdr) (FM : _paintMode rdr = PAINT_FLAT_COLOR) (SO : _compositeRule rdr = COMPOSITE_SRC_OVER) (CO : colour_ok (_u rdr)).
Hypothesis (SF : surface_ok s (Z.of_nat (length dst))) (CI : clip_inside cl s) (DO : Forall is_pixel dst) (MB : Forall jbyte mask).
Hypothesis (HW : 0 < maskWidth) (HH : 0 <= maskHeight) (HO : 0 <= offset) (HK : offset + maskWidth * maskHeight <= Z.of_nat (length mask)).
Hypothesis (HM : Z.of_nat (length mask) <= INT_MAX).
(** The mask's corners are well inside the range of [jint]. *)
Hypothesis (Hx : - (INT_MAX - maskWidth) < x < INT_MAX - maskWidth) (Hy : - (INT_MAX - maskHeight) < y < INT_MAX - maskHeight).
Hypothesis (Dx : Z.max x (_clip_bbMinX cl) - x <= INT_MAX) (Dy : Z.max y (_clip_bbMinY cl) - y <= INT_MAX).

Abbreviation minX := (Z.max x (_clip_bbMinX cl)).
Abbreviation minY := (Z.max y (_clip_bbMinY cl)).
Abbreviation maxX := (Z.min (x + maskWidth - 1) (_clip_bbMaxX cl)).
Abbreviation maxY := (Z.min (y + maskHeight - 1) (_clip_bbMaxY cl)).
Definition mask_value (X Y : Z) : Z := masked (_u rdr) (pixel mask (offset + (Y - y) * maskWidth + (X - x))) (pixel dst (row_major (s_width s) X Y)).
Abbreviation result := (fun '(cv', e) => e = NoException /\
  painted (under_mask cl x y maskWidth maskHeight) (row_major (s_width s)) mask_value dst (intData (cv_mem cv'))).

Lemma nothing_masked : ~ (minX <= maxX /\ minY <= maxY) -> result (cv, NoException).
Proof using.
  intros N. split; [reflexivity|]. eapply painted_ext; [|apply painted_none]. intros X Y. unfold under_mask. split; [contradiction|]. intros H. apply N. clear - H. lia.
Qed.

Lemma mask_drawn_inside : minX <= maxX /\ minY <= maxY ->
  yields (fillAlphaMask true true sc minX minY maxX maxY ALPHA_MASK mask x y maskWidth maskHeight (offset + (minY - y) * maskWidth + minX - x) stride cv) result.
Proof using V FM SO CO SF CI DO MB HW HH HO HK HM Hx Hy Dx Dy.
  intros [LX LY]. unfold fillAlphaMask. rewrite !Z.geb_leb. destruct (Z.leb_spec minX maxX), (Z.leb_spec minY maxY); try lia. cbn [andb].
  unfold with_surface. rewrite surface_acquired by exact SF. cbn [ub_bind]. destruct CI as [C1 C2 C3 C4]. destruct SF as [F1 F2 F3 F4].
  assert (valid (renderer_setMask rdr ALPHA_MASK)) as VM by (apply set_mask_valid; [exact V|unfold ALPHA_MASK; lia]).
  change (cv_rdr (cv <| cv_rdr := renderer_setMask rdr ALPHA_MASK |> <| cv_mem := cv_mem cv <| _mask_byteData := mask |> |>)) with (renderer_setMask rdr ALPHA_MASK).
  destruct (validated_renderer _ VM SO) as (VS & VC & VG & _ & VE). change (_paintMode (renderer_setMask rdr ALPHA_MASK)) with (_paintMode rdr) in *. rewrite FM in *. cbv zeta.
  set (v := VALIDATE_BLITTING (INVALIDATE_RENDERER_SURFACE (renderer_setMask rdr ALPHA_MASK))) in *. clearbody v.
  match goal with |- context [mask_rows _ _ _ _ (_ <| cv_rdr := ?r |>)] => set (rdr1 := r) end.
  change (_ <| cv_rdr := rdr1 |>) with (mkCanvas rdr1 (cv_mem cv <| _mask_byteData := mask |>)).
  assert (at_mask_row s (_u rdr) minX maxX minY maskWidth (offset + (minY - y) * maskWidth + minX - x) minY rdr1) as A.
  { subst rdr1. split; try reflexivity; try assumption; [transitivity (s_width (_surface v)); [reflexivity|rewrite VS; reflexivity]|].
    transitivity (offset + (minY - y) * maskWidth + minX - x); [reflexivity|lia]. }
  clearbody rdr1. assert (0 <= (minY - y) * maskWidth) by nia.
  eapply (yields_bind _ _ result).
  - eapply (yields_bind _ _ (fun cv' => painted (under_mask cl x y maskWidth maskHeight) (row_major (s_width s)) mask_value dst (intData (cv_mem cv')))).
    + eapply (yields_bind _ _ (fun cv' => painted (under_mask cl x y maskWidth maskHeight) (row_major (s_width s)) mask_value dst (intData (cv_mem cv')))).
      * eapply yields_mono; [apply (mask_rows_drawn s (_u rdr) sc dst mask minX maxX minY maxY x maskWidth (offset + (minY - y) * maskWidth + minX - x))
          with (y := minY); try assumption; try lia|].
        -- replace (offset + (minY - y) * maskWidth + minX - x + (maxY - minY) * maskWidth) with (offset + minX - x + (maxY - y) * maskWidth) by lia.
           assert ((maxY - y) * maskWidth <= (maskHeight - 1) * maskWidth) by nia. lia.
        -- split; [reflexivity|]. eapply painted_ext; [|apply painted_none]. unfold region. lia.
        -- intros cv' [_ P]. eapply painted_values; [|eapply painted_ext; [|exact P]].
           ++ intros X Y HXY. unfold mask_to, mask_value.
              replace (offset + (minY - y) * maskWidth + minX - x + (Y - minY) * maskWidth + (X - minX)) with (offset + (Y - y) * maskWidth + (X - x)) by lia. reflexivity.
           ++ intros X Y. unfold region, under_mask. lia.
      * intros cv' P. apply yields_done. exact P.
    + intros cv' P. apply yields_done. auto.
  - intros [cv' e] [-> P]. apply yields_done. auto.
Qed.

Lemma mask_drawn : yields (fillAlphaMaskImpl true true sc mask x y maskWidth maskHeight offset stride cv) result.
Proof using V FM SO CO SF CI DO MB HW HH HO HK HM Hx Hy Dx Dy.
  unfold fillAlphaMaskImpl. cbv zeta. rewrite !Z.gtb_ltb, !Z.geb_leb.
  destruct (Z.leb_spec x (- (INT_MAX - maskWidth))), (Z.leb_spec y (- (INT_MAX - maskHeight))); try lia. cbn [orb].
  destruct (Z.leb_spec (INT_MAX - maskWidth) x), (Z.leb_spec (INT_MAX - maskHeight) y); try lia. cbn [orb].
  unfold isub. rewrite jint_done by (unfold INT_MIN; lia). cbn [ub_bind].
  destruct (Z.ltb_spec 0 maskWidth) as [_|]; [|lia]. rewrite idiv_done by (unfold INT_MAX; lia). cbn [ub_bind andb].
  assert (forall k, k * maskWidth <= INT_MAX <-> k <= INT_MAX / maskWidth) as DV.
  { intros k. split; intros K; [apply Z.div_le_lower_bound; lia|]. pose proof (Z.mul_div_le INT_MAX maskWidth HW). nia. }
  assert (minX <= maxX /\ minY <= maxY -> (minY - y) * maskWidth + (minX - x) < maskWidth * maskHeight /\ (minY - y + 1) * maskWidth <= INT_MAX) as IN.
  { intros [LX LY]. assert ((minY - y + 1) * maskWidth <= maskHeight * maskWidth) by nia. lia. }
  rewrite Z.geb_leb. destruct (Z.leb_spec (INT_MAX / maskWidth) (minY - y)) as [G|G].
  { apply yields_done, nothing_masked. intros K. destruct (IN K) as [_ K2]. apply DV in K2. lia. }
  rewrite jint_done by (unfold INT_MIN; lia). cbn [ub_bind]. unfold imul.
  assert (0 <= (minY - y) * maskWidth <= INT_MAX) as B by (split; [nia|apply DV; lia]). rewrite jint_done by (unfold INT_MIN; lia). cbn [ub_bind].
  rewrite Z.geb_leb. destruct (Z.leb_spec (INT_MAX - (minY - y) * maskWidth) (minX - x)) as [G2|G2].
  { apply yields_done, nothing_masked. intros K. destruct (IN K). lia. }
  rewrite Z.geb_leb. destruct (Z.leb_spec (INT_MAX - ((minY - y) * maskWidth + minX - x)) offset) as [G3|G3].
  { apply yields_done, nothing_masked. intros K. destruct (IN K). lia. }
  destruct (Z.le_gt_cases minX maxX) as [LX|LX]; [destruct (Z.le_gt_cases minY maxY) as [LY|LY]|];
    [apply mask_drawn_inside; auto|..]; (unfold fillAlphaMask; rewrite !Z.geb_leb; destruct (Z.leb_spec minX maxX), (Z.leb_spec minY maxY); try lia;
      cbn [andb]; apply yields_done, nothing_masked; lia).
Qed.
End Mask.

(** C12: A mask is drawn exactly.  The paint is the flat colour, the rule
    source-over, the clip inside the surface, the mask lies in its array, and its
    ends and its distance from the clip fit into an int.  Then every pixel that is
    inside the clip and under the mask is mixed once with the colour, whose alpha
    is reduced by the byte of the mask at the pixel's own row and column, wherever
    the clip cuts the mask; the rows of the mask are [maskWidth] bytes apart,
    whatever [stride] is passed.  No other pixel changes, and neither the mask nor
    the surface is left. *)
Theorem fill_mask_covers_exactly sc cv mask x y maskWidth maskHeight offset stride : valid (cv_rdr cv) ->
  _paintMode (cv_rdr cv) = PAINT_FLAT_COLOR -> _compositeRule (cv_rdr cv) = COMPOSITE_SRC_OVER -> colour_ok (_u (cv_rdr cv)) ->
  surface_ok (_surface (cv_rdr cv)) (Z.of_nat (length (intData (cv_mem cv)))) -> clip_inside (_clip (cv_rdr cv)) (_surface (cv_rdr cv)) ->
  Forall is_pixel (intData (cv_mem cv)) -> Forall jbyte mask ->
  0 < maskWidth -> 0 <= maskHeight -> 0 <= offset -> offset + maskWidth * maskHeight <= Z.of_nat (length mask) <= INT_MAX ->
  - (INT_MAX - maskWidth) < x < INT_MAX - maskWidth -> - (INT_MAX - maskHeight) < y < INT_MAX - maskHeight ->
  Z.max x (_clip_bbMinX (_clip (cv_rdr cv))) - x <= INT_MAX -> Z.max y (_clip_bbMinY (_clip (cv_rdr cv))) - y <= INT_MAX ->
  exists cv', fillAlphaMaskImpl true true sc mask x y maskWidth maskHeight offset stride cv = Done (cv', NoException) /\
    let ix := row_major (s_width (_surface (cv_rdr cv))) in
    let dst := intData (cv_mem cv) in
    painted (under_mask (_clip (cv_rdr cv)) x y maskWidth maskHeight) ix
      (fun X Y => masked (_u (cv_rdr cv)) (pixel mask (offset + (Y - y) * maskWidth + (X - x))) (pixel dst (ix X Y))) dst (intData (cv_mem cv')).
Proof.
  intros V FM SO CO SF CI DO MB HW HH HO [HK HM] Hx Hy Dx Dy.
  destruct (mask_drawn sc cv mask x y maskWidth maskHeight offset stride V FM SO CO SF CI DO MB HW HH HO HK HM Hx Hy Dx Dy) as ([cv' e] & E & -> & P). exists cv'. auto.
Qed.

Lemma fill_mask_covers_exactly_witness : let cv := sample_canvas 3 2 white (repeat 0 6) in
  exists cv', fillAlphaMaskImpl true true plain_scene [0; 64; -1; 127; -128; 1] (- 1) 1 3 2 0 3 cv = Done (cv', NoException) /\
    painted (under_mask (mkClip 0 0 2 1) (- 1) 1 3 2) (row_major 3)
      (fun X Y => masked white (pixel [0; 64; -1; 127; -128; 1] (0 + (Y - 1) * 3 + (X - -1))) (pixel (repeat 0 6) (row_major 3 X Y))) (repeat 0 6) (intData (cv_mem cv')).
Proof.
  intros cv. apply (fill_mask_covers_exactly plain_scene cv [0; 64; -1; 127; -128; 1] (- 1) 1 3 2 0 3).
  - apply (reachable_valid (mkSurface 3 2 0 3 1 TYPE_INT_ARGB_PRE)); [reflexivity|]. apply rtc_once. apply (Step_setColor _ 255 255 255 255).
  - reflexivity.
  - reflexivity.
  - repeat split; vm_compute; discriminate.
  - split; vm_compute; reflexivity || discriminate.
  - split; vm_compute; reflexivity || discriminate.
  - repeat constructor; vm_compute; discriminate.
  - repeat constructor; vm_compute; discriminate.
  - lia.
  - lia.
  - lia.
  - split; vm_compute; discriminate.
  - split; vm_compute; reflexivity.
  - split; vm_compute; reflexivity.
  - vm_compute. discriminate.
  - vm_compute. discriminate.
Defined.
