(* ===== verification/PiscesSurface.v ===== *)
(** * Access to the surface ([JAbstractSurface.c], [PiscesSurface.inl], [clearRect])

    Java reads and writes rectangles of a surface, and has them cleared.  What
    is written is read back, and nothing outside the rectangle changes. *)

From S2P Require Import Prelude CFloat Float32 DecoraApi Argb Painted PiscesPixel PiscesRdr PiscesBlit PiscesPaint PiscesRenderer PiscesFill PiscesRect.
Local Open Scope Z_scope.
Local Open Scope ub_scope.

(** ** [getRGBImpl] and [setRGBImpl] *)

(** The loop of both: [height] rows of [width] elements, each array with its own
    distance from row to row. *)
Definition copy_rows (src : list Z) (srcStart srcScan : Z) (dst : list Z) (dstStart dstScan : Z) (width height : Z) : ub (list Z) :=
  let srcScanRest := srcScan - width in
  let dstScanRest := dstScan - width in
  do* '(_, _, dst) := for_to height (fun _ '(s, d, dst) =>
      do* '(s, d, dst) := for_to width (fun _ '(s, d, dst) =>
          do* v := rd src s in
          do* dst := wr dst d v in
          Done (s + 1, d + 1, dst)) (s, d, dst) in
      Done (s + srcScanRest, d + dstScanRest, dst)) (srcStart, dstStart, dst) in
  Done dst.

(** [data == NULL]: the array of the surface has no element then. *)
Definition surface_setRGB (s : surface) (data : option (list Z)) (x y width height : Z) (src : list Z) (start scanLength : Z) : ub (option (list Z)) :=
  match data with
  | None => Done None
  | Some data => do* data := copy_rows src start scanLength data (y * s_width s + x) (s_width s) width height in Done (Some data)
  end.

Inductive access := Skip | Illegal | From (start : Z).
(** The checks before either: the rectangle against the surface, and the last
    element of the array. *)
Definition check_access (s : surface) (arrayLength offset scanLength x y width height : Z) : ub access :=
  if (x <? 0) || (x >=? s_width s) || (y <? 0) || (y >=? s_height s) || (width <? 0) || (width >? s_width s - x) ||
     (height <? 0) || (height >? s_height s - y) || (scanLength <? width) || (offset <? 0) then Done Illegal
  else if (width >? 0) && (height >? 0) then
    do* rows := idiv (INT_MAX - offset - 0) scanLength in
    if 0 >? rows then Done Illegal
    else
      do* start := (do* o := imul 0 scanLength in do* e := iadd offset o in iadd e 0) in
      do* scan := (do* r := isub INT_MAX start in idiv r height) in
      if scanLength >? scan then Done Illegal
      else
        do* last := (do* n := imul height scanLength in do* e := iadd start n in isub e 1) in
        if (start <? 0) || (start >=? arrayLength) || (last <? 0) || (last >=? arrayLength) then Done Illegal
        else Done (From start)
  else Done Skip.

(** What happens to the arrays, and what is thrown; [pinned] is of the Java
    array, [surfacePinned] of the surface's. *)
Definition getRGBImpl (s : surface) (surfacePinned pinned : bool) (pixels array : list Z) (offset scanLength x y width height : Z) : ub (list Z * thrown) :=
  do* a := check_access s (Z.of_nat (length array)) offset scanLength x y width height in
  match a with
  | Skip => Done (array, NoException)
  | Illegal => Done (array, IllegalArgumentException)
  | From start =>
      if pinned then
        do* q := surface_acquire s (Z.of_nat (length pixels)) surfacePinned in
        match q with
        | NotPinned => Done (array, OutOfMemoryError)
        | Acquired => do* array := copy_rows pixels (y * s_width s + x) (s_width s) array start scanLength width height in Done (array, NoException)
        | OutOfRange => do* array := copy_rows [] (y * s_width s + x) (s_width s) array start scanLength width height in Done (array, IllegalArgumentException)
        end
      else Done (array, OutOfMemoryError)
  end.
Definition setRGBImpl (s : surface) (surfacePinned pinned : bool) (pixels array : list Z) (offset scanLength x y width height : Z) : ub (list Z * thrown) :=
  do* a := check_access s (Z.of_nat (length array)) offset scanLength x y width height in
  match a with
  | Skip => Done (pixels, NoException)
  | Illegal => Done (pixels, IllegalArgumentException)
  | From start =>
      if pinned then
        do* q := surface_acquire s (Z.of_nat (length pixels)) surfacePinned in
        match q with
        | NotPinned => Done (pixels, OutOfMemoryError)
        | Acquired =>
            do* d := surface_setRGB s (Some pixels) x y width height array start scanLength in
            Done (match d with Some d => d | None => pixels end, NoException)
        | OutOfRange => do* _ := surface_setRGB s None x y width height array start scanLength in Done (pixels, IllegalArgumentException)
        end
      else Done (pixels, OutOfMemoryError)
  end.

(** *** Rows that are copied *)

Lemma copy_rows_rule src srcStart srcScan dst dstStart dstScan width height : 0 <= width -> 0 <= height ->
  raster (at_row srcStart srcScan) width height (Z.of_nat (length src)) -> raster (at_row dstStart dstScan) width height (Z.of_nat (length dst)) ->
  yields (copy_rows src srcStart srcScan dst dstStart dstScan width height)
    (painted (in_image width height) (at_row dstStart dstScan) (fun x y => pixel src (at_row srcStart srcScan x y)) dst).
Proof.
  intros Hw Hh RS RD. unfold copy_rows. cbv zeta. set (F := fun x y => pixel src (at_row srcStart srcScan x y)).
  set (P := fun y x d => painted (rows_before width y x) (at_row dstStart dstScan) F dst d).
  eapply (yields_bind _ _ (fun '(_, _, d) => P height 0 d)).
  - eapply yields_mono; [apply (for_to_yields (fun y '(s, t, d) => s = at_row srcStart srcScan 0 y /\ t = at_row dstStart dstScan 0 y /\ P y 0 d)); [exact Hh| |]|].
    + intros y [[s t] d] Hy (-> & -> & HP).
      eapply (yields_bind _ _ (fun '(s, t, d) => s = at_row srcStart srcScan width y /\ t = at_row dstStart dstScan width y /\ P y width d)).
      * apply (for_to_yields (fun x '(s, t, d) => s = at_row srcStart srcScan x y /\ t = at_row dstStart dstScan x y /\ P y x d)); [exact Hw| |auto].
        intros x [[s t] d'] Hx (-> & -> & HP'). destruct RS as [RS _]. rewrite rd_pixel by (apply RS; split; assumption). cbn [ub_bind].
        eapply yields_bind; [apply (painted_step _ width height (rows_before width y x) F dst d' x y RD)|].
        -- intros x' y'. apply rows_inside; lia.
        -- split; assumption.
        -- exact HP'.
        -- intros d2 P2. apply yields_done. split; [unfold at_row; lia|]. split; [unfold at_row; lia|]. eapply painted_ext; [|exact P2]. intros. apply rows_pixel. lia.
      * intros [[s t] d'] (-> & -> & HP'). apply yields_done. split; [unfold at_row; lia|]. split; [unfold at_row; lia|].
        eapply painted_ext; [|exact HP']. intros. apply rows_line. lia.
    + split; [unfold at_row; lia|]. split; [unfold at_row; lia|]. eapply painted_ext; [|apply painted_none]. intros. split; [tauto|apply rows_start].
    + intros [[s t] d] (_ & _ & HP). exact HP.
  - intros [[s t] d] HP. apply yields_done. eapply painted_ext; [|exact HP]. intros. apply rows_end.
Qed.
Lemma pixel_painted (D : Z -> Z -> Prop) ix f dst d x y : painted D ix f dst d -> D x y -> pixel d (ix x y) = f x y.
Proof. intros (_ & P & _) H. unfold pixel. rewrite nth_lookup, (P x y H). reflexivity. Qed.

(** A rectangle of the surface and room for it in the array. *)
Record access_ok (s : surface) (arrayLength offset scanLength x y width height : Z) : Prop := {
  ac_x : 0 <= x; ac_X : x + width <= s_width s; ac_y : 0 <= y; ac_Y : y + height <= s_height s; ac_w : 0 < width; ac_h : 0 < height;
  ac_scan : width <= scanLength; ac_offset : 0 <= offset; ac_room : offset + height * scanLength <= arrayLength; ac_max : arrayLength <= INT_MAX }.
Lemma access_checked s n offset scanLength x y width height : access_ok s n offset scanLength x y width height ->
  check_access s n offset scanLength x y width height = Done (From offset).
Proof.
  intros [Ax AX Ay AY Aw Ah As Ao Ar Am]. unfold check_access. rewrite !Z.geb_leb, !Z.gtb_ltb.
  destruct (Z.ltb_spec x 0), (Z.leb_spec (s_width s) x), (Z.ltb_spec y 0), (Z.leb_spec (s_height s) y), (Z.ltb_spec width 0), (Z.ltb_spec (s_width s - x) width),
    (Z.ltb_spec height 0), (Z.ltb_spec (s_height s - y) height), (Z.ltb_spec scanLength width), (Z.ltb_spec offset 0); try lia. cbn [orb].
  destruct (Z.ltb_spec 0 width), (Z.ltb_spec 0 height); try lia. cbn [andb].
  assert (scanLength <= height * scanLength) by nia.
  rewrite idiv_done by lia. cbn [ub_bind]. rewrite Z.gtb_ltb. pose proof (Z.div_pos (INT_MAX - offset - 0) scanLength ltac:(lia) ltac:(lia)).
  destruct (Z.ltb_spec ((INT_MAX - offset - 0) / scanLength) 0); [lia|]. unfold imul, iadd, isub. rewrite Z.mul_0_l.
  rewrite (jint_done 0) by (unfold INT_MIN, INT_MAX; lia). cbn [ub_bind]. rewrite Z.add_0_r. rewrite (jint_done offset) by (unfold INT_MIN; lia). cbn [ub_bind].
  rewrite Z.add_0_r, (jint_done offset) by (unfold INT_MIN; lia). cbn [ub_bind].
  rewrite (jint_done (INT_MAX - offset)) by (unfold INT_MIN; lia). cbn [ub_bind]. rewrite idiv_done by lia. cbn [ub_bind]. rewrite Z.gtb_ltb.
  assert (scanLength <= (INT_MAX - offset) / height) by (apply Z.div_le_lower_bound; lia). destruct (Z.ltb_spec ((INT_MAX - offset) / height) scanLength); [lia|].
  rewrite (jint_done (height * scanLength)) by (unfold INT_MIN; lia). cbn [ub_bind]. rewrite jint_done by (unfold INT_MIN; lia). cbn [ub_bind].
  rewrite jint_done by (unfold INT_MIN; lia). cbn [ub_bind]. rewrite !Z.geb_leb.
  destruct (Z.ltb_spec offset 0), (Z.leb_spec n offset), (Z.ltb_spec (offset + height * scanLength - 1) 0), (Z.leb_spec n (offset + height * scanLength - 1)); try lia. reflexivity.
Qed.

Section Access.
Variables (s : surface) (pixels array : list Z) (offset scanLength x y width height : Z).
Hypothesis (SF : surface_ok s (Z.of_nat (length pixels))) (AC : access_ok s (Z.of_nat (length array)) offset scanLength x y width height).
Abbreviation on_surface := (at_row (y * s_width s + x) (s_width s)).
Abbreviation in_array := (at_row offset scanLength).

Lemma surface_raster : raster on_surface width height (Z.of_nat (length pixels)).
Proof using SF AC. destruct SF, AC. apply at_row_raster; [nia|lia|]. assert ((y + height) * s_width s <= s_height s * s_width s) by nia. nia. Qed.
Lemma array_raster : raster in_array width height (Z.of_nat (length array)).
Proof using AC. destruct AC. apply at_row_raster; nia. Qed.

Lemma rectangle_written : exists d, setRGBImpl s true true pixels array offset scanLength x y width height = Done (d, NoException) /\
  painted (in_image width height) on_surface (fun i j => pixel array (in_array i j)) pixels d.
Proof using SF AC.
  unfold setRGBImpl. rewrite (access_checked _ _ _ _ _ _ _ _ AC). cbn [ub_bind]. rewrite (surface_acquired _ _ SF). cbn [ub_bind surface_setRGB].
  destruct AC. destruct (copy_rows_rule array offset scanLength pixels (y * s_width s + x) (s_width s) width height) as (d & -> & P);
    [lia|lia|exact array_raster|exact surface_raster|]. cbn [ub_bind]. exists d. auto.
Qed.
Lemma rectangle_read : exists a, getRGBImpl s true true pixels array offset scanLength x y width height = Done (a, NoException) /\
  painted (in_image width height) in_array (fun i j => pixel pixels (on_surface i j)) array a.
Proof using SF AC.
  unfold getRGBImpl. rewrite (access_checked _ _ _ _ _ _ _ _ AC). cbn [ub_bind]. rewrite (surface_acquired _ _ SF). cbn [ub_bind].
  destruct AC. destruct (copy_rows_rule pixels (y * s_width s + x) (s_width s) array offset scanLength width height) as (d & -> & P);
    [lia|lia|exact surface_raster|exact array_raster|]. cbn [ub_bind]. exists d. auto.
Qed.
End Access.

(** C24: What is written to a rectangle of a surface is what is read from it, into an
    array of any layout, and the rest of the surface and of the array is kept. *)
Theorem written_pixels_are_read_back s pixels array back offset scanLength offset' scanLength' x y width height :
  surface_ok s (Z.of_nat (length pixels)) -> access_ok s (Z.of_nat (length array)) offset scanLength x y width height ->
  access_ok s (Z.of_nat (length back)) offset' scanLength' x y width height ->
  exists d a, setRGBImpl s true true pixels array offset scanLength x y width height = Done (d, NoException) /\
    getRGBImpl s true true d back offset' scanLength' x y width height = Done (a, NoException) /\
    painted (in_image width height) (at_row offset' scanLength') (fun i j => pixel array (at_row offset scanLength i j)) back a /\
    painted (in_image width height) (at_row (y * s_width s + x) (s_width s)) (fun i j => pixel array (at_row offset scanLength i j)) pixels d.
Proof.
  intros SF A1 A2. destruct (rectangle_written s pixels array offset scanLength x y width height SF A1) as (d & E & P).
  assert (length d = length pixels) as L by apply P. assert (surface_ok s (Z.of_nat (length d))) as SD by (rewrite L; exact SF).
  destruct (rectangle_read s d back offset' scanLength' x y width height SD A2) as (a & E' & P').
  exists d, a. split; [exact E|]. split; [exact E'|]. split; [|exact P].
  eapply painted_values; [|exact P']. intros i j Hij. apply (pixel_painted _ _ _ _ _ _ _ P Hij).
Qed.

Lemma written_pixels_are_read_back_witness : let s := mkSurface 3 2 0 3 1 TYPE_INT_ARGB_PRE in
  exists d a, setRGBImpl s true true (repeat 0 6) [9; 1; 2; 9; 3; 4; 9] 1 3 1 0 2 2 = Done (d, NoException) /\
    getRGBImpl s true true d [0; 0; 0; 0] 0 2 1 0 2 2 = Done (a, NoException) /\
    painted (in_image 2 2) (at_row 0 2) (fun i j => pixel [9; 1; 2; 9; 3; 4; 9] (at_row 1 3 i j)) [0; 0; 0; 0] a /\
    painted (in_image 2 2) (at_row (0 * 3 + 1) 3) (fun i j => pixel [9; 1; 2; 9; 3; 4; 9] (at_row 1 3 i j)) (repeat 0 6) d.
Proof.
  intros s. apply (written_pixels_are_read_back s); split; vm_compute; reflexivity || discriminate.
Defined.

(** ** [clearRect] *)

Definition cleared_value (c : colour) : Z := argb (c_alpha c) (c_red c) (c_green c) (c_blue c).

Section Clear.
Variables (dst : list Z) (start scan W H v : Z).
Hypothesis (HR : raster (at_row start scan) W H (Z.of_nat (length dst))) (HW : 0 < W) (HH : 0 <= H).
Abbreviation cleared := (fun D => painted D (at_row start scan) (fun _ _ => v) dst).

(** A run of a row. *)
Lemma run_set y d : 0 <= y < H -> cleared (rows_before W y 0) d -> yields (set_run W (start + y * scan) v d) (cleared (rows_before W (y + 1) 0)).
Proof using HR HW.
  intros Hy P. unfold set_run. eapply yields_mono; [apply (for_to_yields (fun x => cleared (rows_before W y x))); [lia| |exact P]|].
  - intros x d' Hx P'. eapply yields_mono; [apply (painted_step _ W H (rows_before W y x) (fun _ _ => v) dst d' x y HR)|].
    + intros x' y'. apply rows_inside; lia.
    + split; assumption.
    + exact P'.
    + intros d2. apply painted_ext. intros. apply rows_pixel. lia.
  - intros d'. apply painted_ext. intros. apply rows_line. lia.
Qed.
(** A copy of the first row. *)
Lemma run_copied y d : 0 < y < H -> cleared (rows_before W y 0) d -> yields (copy_run W (start + y * scan) start d) (cleared (rows_before W (y + 1) 0)).
Proof using HR HW.
  intros Hy P. unfold copy_run. eapply yields_mono; [apply (for_to_yields (fun x => cleared (rows_before W y x))); [lia| |exact P]|].
  - intros x d' Hx P'. replace (start + x) with (at_row start scan x 0) by (unfold at_row; lia).
    assert (rd d' (at_row start scan x 0) = Done v) as ->.
    { apply rd_done; [apply HR; split; lia|]. apply P'. left. lia. }
    cbn [ub_bind]. eapply yields_mono; [apply (painted_step _ W H (rows_before W y x) (fun _ _ => v) dst d' x y HR)|].
    + intros x' y'. apply rows_inside; lia.
    + split; [assumption|lia].
    + exact P'.
    + intros d2. apply painted_ext. intros. apply rows_pixel. lia.
  - intros d'. apply painted_ext. intros. apply rows_line. lia.
Qed.
(** All rows as one run, when they follow each other. *)
Lemma block_set : scan = W -> yields (set_run (W * H) start v dst) (cleared (in_image W H)).
Proof using HR HW HH.
  intros ES. unfold set_run. eapply yields_mono; [apply (for_to_yields (fun k => cleared (fun x y => in_image W H x y /\ y * W + x < k)))|].
  - nia.
  - intros k d Hk P. assert (in_image W H (k mod W) (k / W)) as I.
    { pose proof (Z.mod_pos_bound k W HW). split; [assumption|]. split; [apply Z.div_pos; lia|apply Z.div_lt_upper_bound; lia]. }
    assert (k = k / W * W + k mod W) as E by (pose proof (Z.div_mod k W); lia).
    replace (start + k) with (at_row start scan (k mod W) (k / W)) by (unfold at_row; rewrite ES; lia).
    eapply yields_mono; [apply (painted_step _ W H (fun x y => in_image W H x y /\ y * W + x < k) (fun _ _ => v) dst d (k mod W) (k / W) HR); [|exact I|exact P]; intros x y [K _]; exact K|].
    intros d2. apply painted_ext. intros x y. split.
    + intros [[K1 K2]|[-> ->]]; [split; [exact K1|lia]|split; [exact I|lia]].
    + intros [K1 K2]. destruct (Z.eq_dec (y * W + x) k) as [Ek|Nk]; [right|left; split; [exact K1|lia]].
      pose proof (Z.mod_pos_bound k W HW). destruct K1 as [K1 _]. assert (y = k / W) by nia. subst y. lia.
  - eapply painted_ext; [|apply painted_none]. unfold in_image. intros. split; [contradiction|nia].
  - intros d. apply painted_ext. intros x y. unfold in_image. split; [intros [K _]; exact K|intros K; split; [exact K|nia]].
Qed.
Lemma rows_set : yields (for_to H (fun j d => set_run W (start + j * scan) v d) dst) (cleared (in_image W H)).
Proof using HR HW HH.
  eapply yields_mono; [apply (for_to_yields (fun y => cleared (rows_before W y 0))); [exact HH| |]|].
  - intros y d Hy P. apply run_set; assumption.
  - eapply painted_ext; [|apply painted_none]. intros. split; [tauto|apply rows_start].
  - intros d. apply painted_ext. intros. apply rows_end.
Qed.
Lemma rows_copied : 0 < H -> yields (do* d := set_run W start v dst in for_to (H - 1) (fun j d => copy_run W (start + (j + 1) * scan) start d) d) (cleared (in_image W H)).
Proof using HR HW HH.
  intros H0. eapply yields_bind.
  - pose proof (run_set 0 dst ltac:(lia)) as K. rewrite Z.mul_0_l, Z.add_0_r in K. apply K.
    eapply painted_ext; [|apply painted_none]. intros. split; [tauto|apply rows_start].
  - intros d P. eapply yields_mono; [apply (for_to_yields (fun y => cleared (rows_before W (y + 1) 0))); [lia| |exact P]|].
    + intros y d' Hy P'. apply run_copied; [lia|exact P'].
    + intros d'. replace (H - 1 + 1) with H by lia. apply painted_ext. intros. apply rows_end.
Qed.
End Clear.

(** The part of a rectangle that is cleared: inside the surface and the clip. *)
Definition cleared_pixels (s : surface) (cl : clip) (x y w h X Y : Z) : Prop :=
  (Z.max 0 (_clip_bbMinX cl) <= X <= Z.min (s_width s - 1) (_clip_bbMaxX cl) /\ x <= X < x + w) /\
  (Z.max 0 (_clip_bbMinY cl) <= Y <= Z.min (s_height s - 1) (_clip_bbMaxY cl) /\ y <= Y < y + h).

(** What [clearRect8888_any] clears: [w] by [h] pixels from [(x, y)] on. *)
Lemma clear_rectangle v x y w h dst s : _image v = s -> s_offset s = 0 -> s_scanlineStride s = s_width s -> s_pixelStride s = 1 ->
  surface_ok s (Z.of_nat (length dst)) -> 0 <= x -> 0 <= y -> 0 < w -> 0 < h -> x + w <= s_width s -> y + h <= s_height s ->
  yields (clearRect8888_any v x y w h dst) (painted (fun X Y => in_image w h (X - x) (Y - y)) (row_major (s_width s)) (fun _ _ => cleared_value (_c v)) dst).
Proof.
  intros I So Ss Sp SF Hx Hy Hw Hh HX HY. unfold clearRect8888_any, _imageScanlineStride, _imagePixelStride. rewrite I, So, Ss, Sp.
  unfold cleared_value. destruct (_c v) as [cr cg cb ca]. cbn [c_red c_green c_blue c_alpha]. cbv zeta.
  set (cval := argb ca cr cg cb). set (start := 0 + y * s_width s + x * 1). destruct SF as [F1 F2 F3 F4].
  assert (raster (at_row start (s_width s)) w h (Z.of_nat (length dst))) as R.
  { apply at_row_raster; [subst start; nia|lia|]. assert ((y + h) * s_width s <= s_height s * s_width s) by nia. subst start. nia. }
  assert (forall d, painted (in_image w h) (at_row start (s_width s)) (fun _ _ => cval) dst d ->
      painted (fun X Y => in_image w h (X - x) (Y - y)) (row_major (s_width s)) (fun _ _ => cval) dst d) as K.
  { intros d (L & P & O). split; [exact L|]. split.
    - intros X Y HXY. specialize (P _ _ HXY). replace (row_major (s_width s) X Y) with (at_row start (s_width s) (X - x) (Y - y)); [exact P|]. subst start. unfold at_row, row_major. lia.
    - intros i Hi. apply O. intros a b Hab E. apply (Hi (x + a) (y + b)); [unfold in_image in *; lia|]. rewrite <- E. f_equal. subst start. unfold at_row, row_major. lia. }
  destruct (Z.eqb_spec cval 0) as [->|N]; [destruct (Z.eqb_spec x 0), (Z.eqb_spec w (s_width s)); cbn [andb]|];
    (eapply yields_mono; [|exact K]); first [apply block_set; auto; lia|apply rows_set; auto; lia|apply rows_copied; auto; lia].
Qed.

Lemma clear_drawn x y w h cv : valid (cv_rdr cv) -> surface_ok (_surface (cv_rdr cv)) (Z.of_nat (length (intData (cv_mem cv)))) ->
  s_offset (_surface (cv_rdr cv)) = 0 -> s_scanlineStride (_surface (cv_rdr cv)) = s_width (_surface (cv_rdr cv)) -> s_pixelStride (_surface (cv_rdr cv)) = 1 ->
  INT_MIN < x + w <= INT_MAX -> INT_MIN < y + h <= INT_MAX ->
  yields (clearRectImpl true x y w h cv) (fun '(cv', e) => e = NoException /\
    painted (cleared_pixels (_surface (cv_rdr cv)) (_clip (cv_rdr cv)) x y w h) (row_major (s_width (_surface (cv_rdr cv))))
      (fun _ _ => cleared_value (colour_of (_compositeRule (cv_rdr cv)) (_u (cv_rdr cv)))) (intData (cv_mem cv)) (intData (cv_mem cv'))).
Proof.
  intros V SF So Ss Sp Hx Hy. unfold clearRectImpl, with_surface. rewrite surface_acquired by exact SF. cbn [ub_bind].
  unfold renderer_clearRect, iadd, isub. rewrite (jint_done (x + w)) by lia. cbn [ub_bind]. rewrite (jint_done (x + w - 1)) by lia. cbn [ub_bind].
  rewrite (jint_done (y + h)) by lia. cbn [ub_bind]. rewrite (jint_done (y + h - 1)) by lia. cbn [ub_bind]. cbv zeta.
  set (rdr0 := set_strides (INVALIDATE_RENDERER_SURFACE (cv_rdr cv))).
  change (cv_rdr (cv <| cv_rdr := rdr0 |>)) with rdr0. assert (valid rdr0) as V0.
  { destruct (invalidate_valid INVALID_RENDERER_SURFACE _ V) as [S K R C I]. split; [destruct S; split; assumption|exact K|exact R|exact C|].
    intros E. exfalso. change (dirty (invalidate INVALID_RENDERER_SURFACE (cv_rdr cv)) INVALID_RENDERER_SURFACE = false) in E. revert E. flags. discriminate. }
  destruct (validate_all rdr0 V0) as (S & I & C & (_ & _ & _ & Su) & _). destruct S as (_ & _ & _ & _ & _ & _ & Cl & _). destruct Su as (_ & _ & _ & _ & _ & CR & _).
  change (_surface rdr0) with (_surface (cv_rdr cv)) in *. change (_clip rdr0) with (_clip (cv_rdr cv)) in *.
  change (_compositeRule rdr0) with (_compositeRule (cv_rdr cv)) in *. change (_u rdr0) with (_u (cv_rdr cv)) in *.
  set (v := VALIDATE_BLITTING rdr0) in *. clearbody v rdr0. rewrite Cl, I, CR. set (s := _surface (cv_rdr cv)) in *. set (cl := _clip (cv_rdr cv)) in *.
  set (dst := intData (cv_mem cv)) in *.
  set (x0 := Z.max (Z.max x 0) (_clip_bbMinX cl)). set (y0 := Z.max (Z.max y 0) (_clip_bbMinY cl)).
  set (x1 := Z.min (Z.min (x + w - 1) (s_width s - 1)) (_clip_bbMaxX cl)). set (y1 := Z.min (Z.min (y + h - 1) (s_height s - 1)) (_clip_bbMaxY cl)).
  destruct (Z.leb_spec x0 x1) as [LX|LX], (Z.leb_spec y0 y1) as [LY|LY]; cbn [andb];
    try (apply yields_done; split; [reflexivity|]; eapply painted_ext; [|apply painted_none]; intros X Y; unfold cleared_pixels; split; [contradiction|subst x0 y0 x1 y1; clear - LX LY; lia]).
  eapply (yields_bind _ _ (fun cv' => painted (cleared_pixels s cl x y w h) (row_major (s_width s))
      (fun _ _ => cleared_value (colour_of (_compositeRule (cv_rdr cv)) (_u (cv_rdr cv)))) dst (intData (cv_mem cv'))));
    [|intros cv' P; apply yields_done; auto].
  eapply yields_bind; [|intros d P; apply yields_done; exact P].
  eapply yields_mono; [apply (clear_rectangle v x0 y0 (x1 - x0 + 1) (y1 - y0 + 1) dst s)|]; try assumption; try lia.
  intros d P. rewrite C in P. eapply painted_ext; [|exact P]. intros X Y. unfold cleared_pixels, in_image. subst x0 y0 x1 y1. clearbody s cl. clear.
  split; intros [H1 H2]; repeat split; lia.
Qed.

(** C26: A rectangle is cleared exactly: the part of it that is inside the surface and
    the clip gets the colour (nothing under the rule clear), whichever of the
    three ways of writing it is taken; no other pixel changes. *)
Theorem clear_rect_clears_exactly x y w h cv : valid (cv_rdr cv) -> surface_ok (_surface (cv_rdr cv)) (Z.of_nat (length (intData (cv_mem cv)))) ->
  s_offset (_surface (cv_rdr cv)) = 0 -> s_scanlineStride (_surface (cv_rdr cv)) = s_width (_surface (cv_rdr cv)) -> s_pixelStride (_surface (cv_rdr cv)) = 1 ->
  INT_MIN < x + w <= INT_MAX -> INT_MIN < y + h <= INT_MAX ->
  exists cv', clearRectImpl true x y w h cv = Done (cv', NoException) /\
    painted (cleared_pixels (_surface (cv_rdr cv)) (_clip (cv_rdr cv)) x y w h) (row_major (s_width (_surface (cv_rdr cv))))
      (fun _ _ => if _compositeRule (cv_rdr cv) =? COMPOSITE_CLEAR then 0 else cleared_value (_u (cv_rdr cv))) (intData (cv_mem cv)) (intData (cv_mem cv')).
Proof.
  intros V SF So Ss Sp Hx Hy. destruct (clear_drawn x y w h cv V SF So Ss Sp Hx Hy) as ([cv' e] & E & -> & P). exists cv'. split; [exact E|].
  eapply painted_values; [|exact P]. intros X Y _. unfold colour_of. destruct (_ =? _); reflexivity.
Qed.

Lemma clear_rect_clears_exactly_witness : let cv := sample_canvas 3 2 white (repeat 7 6) in
  exists cv', clearRectImpl true 1 (- 1) 5 2 cv = Done (cv', NoException) /\
    painted (cleared_pixels (mkSurface 3 2 0 3 1 TYPE_INT_ARGB_PRE) (mkClip 0 0 2 1) 1 (- 1) 5 2) (row_major 3)
      (fun _ _ => cleared_value white) (repeat 7 6) (intData (cv_mem cv')).
Proof.
  intros cv. apply (clear_rect_clears_exactly 1 (- 1) 5 2 cv).
  - apply (reachable_valid (mkSurface 3 2 0 3 1 TYPE_INT_ARGB_PRE)); [reflexivity|]. apply rtc_once. apply (Step_setColor _ 255 255 255 255).
  - split; vm_compute; reflexivity || discriminate.
  - reflexivity.
  - reflexivity.
  - reflexivity.
  - split; vm_compute; reflexivity || discriminate.
  - split; vm_compute; reflexivity || discriminate.
Defined.
