(* ===== verification/PiscesSet.v ===== *)
(** * Setting the paints ([PiscesRenderer.inl], [PiscesTransform.c], [JPiscesRenderer.c])

    The transforms, the geometry of the gradients and the textures that Java
    sets.  A texture is either a copy the renderer owns or a Java array it borrows
    for one call; the blocks it frees are followed over every sequence of calls. *)

From Stdlib Require Import Floats.SpecFloat.
From S2P Require Import Prelude CFloat Float32 DecoraApi Argb Painted PiscesPixel PiscesRdr PiscesBlit PiscesPaint PiscesRenderer PiscesFill PiscesRect PiscesSurface.
Local Open Scope Z_scope.
Local Open Scope ub_scope.

(** ** Transforms *)

Record Transform6 := mkTransform6 { m00 : Z; m01 : Z; m10 : Z; m11 : Z; m02 : Z; m12 : Z }.
#[export] Instance transform6_eq_dec : EqDecision Transform6.
Proof. solve_decision. Defined.

Definition pisces_transform_equals (a b : option Transform6) : bool :=
  match a, b with
  | Some a, Some b => (m00 a =? m00 b) && (m01 a =? m01 b) && (m02 a =? m02 b) && (m10 a =? m10 b) && (m11 a =? m11 b) && (m12 a =? m12 b)
  | None, None => true
  | _, _ => false
  end.
Definition pisces_transform_multiply (d s : Transform6) : Transform6 :=
  let shift v := s32 (Z.shiftr v 16) in
  mkTransform6
    (shift (m00 d * m00 s + m01 d * m10 s)) (shift (m00 d * m01 s + m01 d * m11 s))
    (shift (m10 d * m00 s + m11 d * m10 s)) (shift (m10 d * m01 s + m11 d * m11 s))
    (shift (Z.shiftl (m02 d) 16 + m00 d * m02 s + m01 d * m12 s)) (shift (Z.shiftl (m12 d) 16 + m10 d * m02 s + m11 d * m12 s)).

Section Floats.
Local Infix "*." := fmul (at level 40, left associativity).
Local Infix "/." := fdiv (at level 40, left associativity).
Local Infix "+." := fadd (at level 50, left associativity).
Local Infix "-." := fsub (at level 50, left associativity).
(** [v / 65536.0f] *)
Definition unscaled (v : Z) : float := Z_to_float v /. f_65536.

Definition pisces_transform_invert (t : Transform6) : ub Transform6 :=
  let fm00 := unscaled (m00 t) in let fm01 := unscaled (m01 t) in let fm02 := unscaled (m02 t) in
  let fm10 := unscaled (m10 t) in let fm11 := unscaled (m11 t) in let fm12 := unscaled (m12 t) in
  let fdet := fm00 *. fm11 -. fm01 *. fm10 in
  let fa00 := fm11 /. fdet in
  let fa01 := SFopp fm01 /. fdet in
  let fa10 := SFopp fm10 /. fdet in
  let fa11 := fm00 /. fdet in
  let fa02 := (fm01 *. fm12 -. fm02 *. fm11) /. fdet in
  let fa12 := (fm02 *. fm10 -. fm00 *. fm12) /. fdet in
  do* a00 := float_to_jint (fa00 *. f_65536) in
  do* a01 := float_to_jint (fa01 *. f_65536) in
  do* a10 := float_to_jint (fa10 *. f_65536) in
  do* a11 := float_to_jint (fa11 *. f_65536) in
  do* a02 := float_to_jint (fa02 *. f_65536) in
  do* a12 := float_to_jint (fa12 *. f_65536) in
  Done (mkTransform6 a00 a01 a10 a11 a02 a12).

(** ** Gradients *)

Definition linear_geometry (g : gradient) (mx my b : float) (colors : list Z) : gradient :=
  mkGradient (_gradient_cycleMethod g) colors mx my b (_rg_a00 g) (_rg_a01 g) (_rg_a02 g) (_rg_a10 g) (_rg_a11 g) (_rg_a12 g)
    (_rg_cx g) (_rg_cy g) (_rg_fx g) (_rg_fy g) (_rg_r g) (_rg_rsq g) (_rg_a00a00 g) (_rg_a10a10 g) (_rg_a00a10 g).
(** [memcpy] of the 256 colours of the ramp, which is a Java array. *)
Definition copy_colors (ramp : list Z) : ub (list Z) :=
  if GRADIENT_MAP_SIZE <=? Z.of_nat (length ramp) then Done (take (Z.to_nat GRADIENT_MAP_SIZE) ramp) else Undefined OutOfBounds.

Definition renderer_setLinearGradient (rdr : renderer) (g : gradient) (x0 y0 x1 y1 : Z) (colors : list Z) (transform : Transform6) : ub (renderer * gradient) :=
  do* inverse := pisces_transform_invert transform in
  let a00 := Z_to_float (m00 inverse) in let a01 := Z_to_float (m01 inverse) in let a02 := unscaled (m02 inverse) in
  let a10 := Z_to_float (m10 inverse) in let a11 := Z_to_float (m11 inverse) in let a12 := unscaled (m12 inverse) in
  let fx0 := unscaled x0 in let fx1 := unscaled x1 in let fy0 := unscaled y0 in let fy1 := unscaled y1 in
  let fdx := fx1 -. fx0 in
  let fdy := fy1 -. fy0 in
  let flensq := fdx *. fdx +. fdy *. fdy in
  let t := fdx *. fx0 +. fdy *. fy0 in
  let mx := (a00 *. fdx +. a10 *. fdy) /. flensq in
  let my := (a01 *. fdx +. a11 *. fdy) /. flensq in
  let b := f_65536 *. (a02 *. fdx +. a12 *. fdy -. t) /. flensq in
  let rdr := setPaintMode rdr PAINT_LINEAR_GRADIENT in
  do* colors := copy_colors colors in
  Done (rdr, linear_geometry g mx my b colors).

Definition f_0_94 : float := Eval vm_compute in double_to_float (SFdiv 53 1024 (Z_to_double 94) (Z_to_double 100)).
Definition f_0_97 : float := Eval vm_compute in double_to_float (SFdiv 53 1024 (Z_to_double 97) (Z_to_double 100)).

Definition renderer_setRadialGradient (rdr : renderer) (g : gradient) (cx cy fx fy radius : Z) (colors : list Z) (transform : Transform6) : ub (renderer * gradient) :=
  do* inverse := pisces_transform_invert transform in
  let a00 := unscaled (m00 inverse) in let a01 := unscaled (m01 inverse) in let a02 := unscaled (m02 inverse) in
  let a10 := unscaled (m10 inverse) in let a11 := unscaled (m11 inverse) in let a12 := unscaled (m12 inverse) in
  let _cx := unscaled cx in let _cy := unscaled cy in let _fx := unscaled fx in let _fy := unscaled fy in
  let r := unscaled radius in
  let rsq := r *. r in
  let fcx := _fx -. _cx in
  let fcy := _fy -. _cy in
  let dsq := fcx *. fcx +. fcy *. fcy in
  let '(_fx, _fy) :=
    if dsq >. (rsq *. f_0_94) then
      let f := (r *. f_0_97) /. double_to_float (dsqrt (float_to_double dsq)) in
      (_cx +. f *. fcx, _cy +. f *. fcy)
    else (_fx, _fy) in
  let rdr := setPaintMode rdr PAINT_RADIAL_GRADIENT in
  do* colors := copy_colors colors in
  Done (rdr, mkGradient (_gradient_cycleMethod g) colors (_lg_mx g) (_lg_my g) (_lg_b g) a00 a01 a02 a10 a11 a12 _cx _cy _fx _fy r rsq
    (a00 *. a00) (a10 *. a10) (a00 *. a10)).
End Floats.

(** ** Textures *)

Definition IMAGE_MODE_NORMAL : Z := 1.
Definition IMAGE_MODE_MULTIPLY : Z := 2.

(** The kind of the map and whether it still needs interpolation. *)
Definition transform_type (a00 a01 a02 a10 a11 a12 : Z) (interpolate : bool) : Z * bool :=
  if (a00 =? 65536) && (a11 =? 65536) && (a01 =? 0) && (a10 =? 0) then
    if (a02 =? 0) && (a12 =? 0) then (TEXTURE_TRANSFORM_IDENTITY, false)
    else (TEXTURE_TRANSFORM_TRANSLATE, if (Z.land a02 0xffff =? 0) && (Z.land a12 0xffff =? 0) then false else interpolate)
  else if (a01 =? 0) && (a10 =? 0) then (TEXTURE_TRANSFORM_SCALE_TRANSLATE, interpolate)
  else (TEXTURE_TRANSFORM_GENERIC, interpolate).
(** The fields of the map are [jlong]: values of an [int] and half texels stay far
    inside their range. *)
Definition renderer_setTexture (rdr : renderer) (renderMode : Z) (data : list Z) (width height stride : Z) (repeats smooth : bool) (transform : Transform6)
    (textureHasAlpha : bool) (txMin tyMin txMax tyMax : Z) : ub (renderer * texture) :=
  do* t := pisces_transform_invert transform in
  let rdr := setPaintMode rdr (if renderMode =? IMAGE_MODE_NORMAL then PAINT_TEXTURE8888 else PAINT_TEXTURE8888_MULTIPLY) in
  let a00 := m00 t in let a01 := m01 t in let a10 := m10 t in let a11 := m11 t in
  let a02 := if smooth then m02 t + (Z.shiftr a00 1 + Z.shiftr a01 1 - 32768) else m02 t in
  let a12 := if smooth then m12 t + (Z.shiftr a10 1 + Z.shiftr a11 1 - 32768) else m12 t in
  let '(type, interpolate) := transform_type a00 a01 a02 a10 a11 a12 smooth in
  Done (rdr, mkTexture data textureHasAlpha width height stride txMin tyMin txMax tyMax repeats a00 a01 a02 a10 a11 a12 interpolate type).

(** Nearest texels are enough only for a translation by whole pixels. *)
Lemma interpolation_kept a00 a01 a02 a10 a11 a12 type : transform_type a00 a01 a02 a10 a11 a12 true = (type, false) ->
  a00 = 65536 /\ a11 = 65536 /\ a01 = 0 /\ a10 = 0 /\ a02 mod 65536 = 0 /\ a12 mod 65536 = 0.
Proof.
  unfold transform_type. rewrite !land_ffff. destruct (Z.eqb_spec a00 65536), (Z.eqb_spec a11 65536), (Z.eqb_spec a01 0), (Z.eqb_spec a10 0); cbn [andb]; try discriminate.
  destruct (Z.eqb_spec a02 0), (Z.eqb_spec a12 0), (Z.eqb_spec (a02 mod 65536) 0), (Z.eqb_spec (a12 mod 65536) 0); cbn [andb]; intros [= <-];
    subst; repeat split; auto.
Qed.

(** *** [setTextureImpl] *)

(** [memcpy] of the whole image, or of its rows. *)
Definition copy_image (data : list Z) (width height stride : Z) : ub (list Z) :=
  let alloc_data := repeat 0 (Z.to_nat (width * height)) in
  if stride =? width then copy_rows data 0 (width * height) alloc_data 0 (width * height) (width * height) 1
  else copy_rows data 0 stride alloc_data 0 width width height.
(** The image is inside the array; [/] is C's. *)
Definition check_image (width height stride dataLength : Z) : ub bool :=
  if (width >? 0) && (height >? 0) then
    do* limit := idiv INT_MAX height in
    if (width <? limit / 4) && (stride >? 0) then
      do* room := isub dataLength width in
      do* rows := idiv room stride in
      Done (height - 1 <=? rows)
    else Done false
  else Done false.
(** What is set, and whether an [OutOfMemoryError] is thrown. *)
Definition setTextureImpl (pinned malloc : bool) (rdr : renderer) (dataArray : list Z) (width height stride : Z) (transform : Transform6)
    (repeats linearFiltering hasAlpha : bool) : ub (option (renderer * texture) * thrown) :=
  do* ok := check_image width height stride (Z.of_nat (length dataArray)) in
  if ok && pinned && malloc then
    do* data := copy_image dataArray width height stride in
    do* st := renderer_setTexture rdr IMAGE_MODE_NORMAL data width height width repeats linearFiltering transform hasAlpha 0 0 (width - 1) (height - 1) in
    Done (Some st, NoException)
  else Done (None, OutOfMemoryError).

(** An array at least as long as a row of the image: every row is inside it. *)
Lemma image_inside width height stride n : width <= n <= INT_MAX -> check_image width height stride n = Done true ->
  0 < width /\ 0 < height /\ 0 < stride /\ (height - 1) * stride + width <= n.
Proof.
  intros Hn. unfold check_image. rewrite !Z.gtb_ltb. destruct (Z.ltb_spec 0 width), (Z.ltb_spec 0 height); cbn [andb]; try discriminate.
  rewrite idiv_done by (unfold INT_MAX; lia). cbn [ub_bind]. destruct (_ <? _); cbn [andb]; [|discriminate].
  destruct (Z.ltb_spec 0 stride); [|discriminate]. unfold isub. rewrite jint_done by (unfold INT_MIN; lia). cbn [ub_bind]. rewrite idiv_done by lia. cbn [ub_bind].
  intros [= E%Z.leb_le]. pose proof (Z.mul_div_le (n - width) stride ltac:(lia)). nia.
Qed.
Lemma image_copied data width height stride : 0 < width -> 0 < height -> 0 < stride -> (stride = width \/ width <= stride) ->
  (height - 1) * stride + width <= Z.of_nat (length data) ->
  yields (copy_image data width height stride) (fun d => Z.of_nat (length d) = width * height /\
    forall x y, in_image width height x y -> pixel d (y * width + x) = pixel data (y * stride + x)).
Proof.
  intros Hw Hh Hs Hst HL. unfold copy_image. cbv zeta. set (z := repeat 0 (Z.to_nat (width * height))).
  assert (Z.of_nat (length z) = width * height) as Lz by (subst z; rewrite repeat_length; nia). clearbody z.
  destruct (Z.eqb_spec stride width) as [->|N].
  - eapply yields_mono; [apply copy_rows_rule; [nia|lia|apply at_row_raster; lia..]|]. intros d P. split; [rewrite <- Lz; f_equal; apply P|].
    intros x y [Hx Hy]. assert (0 <= y * width + x < width * height) as B by nia.
    pose proof (pixel_painted _ _ _ _ _ (y * width + x) 0 P ltac:(split; lia)) as E. cbn beta in E.
    replace (at_row 0 (width * height) (y * width + x) 0) with (y * width + x) in E by (unfold at_row; lia). exact E.
  - eapply yields_mono; [apply copy_rows_rule; [lia|lia|apply at_row_raster; nia..]|]. intros d P. split; [rewrite <- Lz; f_equal; apply P|].
    intros x y Hxy. pose proof (pixel_painted _ _ _ _ _ x y P Hxy) as E. unfold at_row in E. rewrite !Z.add_0_l in E. exact E.
Qed.

(** C's quotient rounds towards zero: an array that is shorter than one row, by
    less than the distance of the rows, passes the check, and is read beyond its
    end. *)
Example short_image_passes : check_image 5 1 5 3 = Done true /\ copy_image [1; 2; 3] 5 1 5 = Undefined OutOfBounds.
Proof. split; vm_compute; reflexivity. Qed.

(** ** The memory of textures *)

(** A block the renderer owns, by its number, or the elements of a Java array. *)
Inductive pointer := Owned (block : nat) | Borrowed.
Record texture_memory := mkTextureMemory { tm_mode : Z; tm_data : option pointer; tm_free : bool; tm_freed : list nat; tm_next : nat }.
#[export] Instance eta_texture_memory : Eta texture_memory :=
  eta_ap (eta_ap (eta_ap (eta_ap (eta_ap (eta_pure mkTextureMemory) tm_mode) tm_data) tm_free) tm_freed) tm_next.

(** [if (rdr->_texture_free == JNI_TRUE) my_free(rdr->_texture_intData)]: [None]
    when it is no block or freed already. *)
Definition free_texture (st : texture_memory) : option texture_memory :=
  if tm_free st then
    match tm_data st with
    | None => Some st
    | Some Borrowed => None
    | Some (Owned b) => if bool_decide (b ∈ tm_freed st) then None else Some (st <| tm_freed := b :: tm_freed st |>)
    end
  else Some st.
Definition memory_setPaintMode (mode : Z) (st : texture_memory) : option texture_memory :=
  if tm_mode st =? mode then Some st
  else match free_texture st with Some st => Some (st <| tm_data := None |> <| tm_mode := mode |>) | None => None end.
Definition memory_setTexture (renderMode : Z) (data : pointer) (freeData : bool) (st : texture_memory) : option texture_memory :=
  match memory_setPaintMode (if renderMode =? IMAGE_MODE_NORMAL then PAINT_TEXTURE8888 else PAINT_TEXTURE8888_MULTIPLY) st with
  | None => None
  | Some st => match free_texture st with None => None | Some st => Some (st <| tm_free := freeData |> <| tm_data := Some data |>) end
  end.
(** The calls that change the texture's memory. *)
Inductive texture_call := SetMode (mode : Z) | SetTextureImpl | DrawImageImpl (renderMode : Z).
Definition texture_step (c : texture_call) (st : texture_memory) : option texture_memory :=
  match c with
  | SetMode mode => memory_setPaintMode mode st
  | SetTextureImpl => memory_setTexture IMAGE_MODE_NORMAL (Owned (tm_next st)) true (st <| tm_next := S (tm_next st) |>)
  | DrawImageImpl renderMode =>
      match memory_setTexture renderMode Borrowed false st with Some st => Some (st <| tm_data := None |>) | None => None end
  end.
Fixpoint texture_run (cs : list texture_call) (st : texture_memory) : option texture_memory :=
  match cs with [] => Some st | c :: cs => match texture_step c st with Some st => texture_run cs st | None => None end end.
(** [createCommon] and [renderer_dispose] *)
Definition texture_created : texture_memory := mkTextureMemory PAINT_FLAT_COLOR None false [] 0.
Definition texture_disposed (st : texture_memory) : option texture_memory := free_texture st.

(** The mode that is followed here is that of the renderer. *)
Lemma memory_mode mode st st' rdr : tm_mode st = _paintMode rdr -> memory_setPaintMode mode st = Some st' -> tm_mode st' = _paintMode (setPaintMode rdr mode).
Proof.
  intros E. unfold memory_setPaintMode, setPaintMode. rewrite E. destruct (_paintMode rdr =? mode).
  - intros [= <-]. exact E.
  - destruct (free_texture st); [|discriminate]. intros [= <-]. reflexivity.
Qed.

(** *** The invariant *)

Definition held (st : texture_memory) : list nat := match tm_data st with Some (Owned b) => [b] | _ => [] end.
(** The blocks handed out are those freed and the one that is held; the flag says
    whether the data is a block. *)
Record memory_ok (st : texture_memory) : Prop := {
  mo_blocks : tm_freed st ++ held st ≡ₚ seq 0 (tm_next st);
  mo_free : tm_free st = true -> tm_data st <> Some Borrowed;
  mo_borrowed : tm_free st = false -> held st = [] }.

Lemma held_not_freed st b : memory_ok st -> tm_data st = Some (Owned b) -> b ∉ tm_freed st.
Proof.
  intros [P _ _] E H. assert (NoDup (tm_freed st ++ held st)) as N by (rewrite P; apply NoDup_seq).
  unfold held in N. rewrite E in N. apply NoDup_app in N as (_ & N & _). apply (N b H), list_elem_of_here.
Qed.
(** What was held is freed, once. *)
Lemma free_texture_ok st : memory_ok st -> exists st', free_texture st = Some st' /\ tm_freed st' ≡ₚ seq 0 (tm_next st) /\
  tm_next st' = tm_next st /\ tm_mode st' = tm_mode st /\ tm_free st' = tm_free st.
Proof.
  intros M. pose proof M as [P F B]. unfold free_texture. destruct (tm_free st) eqn:E.
  - unfold held in P. destruct (tm_data st) as [[b|]|] eqn:D.
    + rewrite bool_decide_eq_false_2 by (apply (held_not_freed st b M D)). eexists. split; [reflexivity|]. split; [|auto].
      transitivity (b :: tm_freed st); [reflexivity|]. rewrite <- P. rewrite Permutation_app_comm. reflexivity.
    + contradiction (F eq_refl eq_refl).
    + exists st. rewrite app_nil_r in P. auto.
  - exists st. rewrite (B eq_refl), app_nil_r in P. auto.
Qed.
Lemma memory_setPaintMode_ok mode st : memory_ok st -> exists st', memory_setPaintMode mode st = Some st' /\ memory_ok st' /\ tm_next st' = tm_next st.
Proof.
  intros M. unfold memory_setPaintMode. destruct (_ =? _); [exists st; auto|].
  destruct (free_texture_ok st M) as (st1 & -> & P & N & Mo & Fr). eexists. split; [reflexivity|]. split; [|exact N]. split.
  - transitivity (tm_freed st1 ++ []); [reflexivity|]. rewrite app_nil_r. rewrite P, <- N. reflexivity.
  - discriminate.
  - reflexivity.
Qed.
Lemma memory_setTexture_ok renderMode st : memory_ok st -> exists st1, memory_setPaintMode (if renderMode =? IMAGE_MODE_NORMAL then PAINT_TEXTURE8888 else PAINT_TEXTURE8888_MULTIPLY) st = Some st1 /\
  exists st2, free_texture st1 = Some st2 /\ tm_freed st2 ≡ₚ seq 0 (tm_next st) /\ tm_next st2 = tm_next st.
Proof.
  intros M. destruct (memory_setPaintMode_ok (if renderMode =? IMAGE_MODE_NORMAL then PAINT_TEXTURE8888 else PAINT_TEXTURE8888_MULTIPLY) st M) as (st1 & E1 & M1 & N1).
  destruct (free_texture_ok st1 M1) as (st2 & E2 & P & N2 & _). exists st1. split; [exact E1|]. exists st2. split; [exact E2|]. rewrite <- N1. split; [exact P|exact N2].
Qed.

(** The fresh block is not seen by what is freed before it is kept. *)
Lemma free_texture_next st n : free_texture (st <| tm_next := n |>) = option_map (fun st => st <| tm_next := n |>) (free_texture st).
Proof.
  unfold free_texture. change (tm_free (st <| tm_next := n |>)) with (tm_free st). change (tm_data (st <| tm_next := n |>)) with (tm_data st).
  change (tm_freed (st <| tm_next := n |>)) with (tm_freed st). destruct (tm_free st); [|reflexivity]. destruct (tm_data st) as [[b|]|]; try reflexivity.
  destruct (bool_decide _); reflexivity.
Qed.
Lemma setPaintMode_next mode st n : memory_setPaintMode mode (st <| tm_next := n |>) = option_map (fun st => st <| tm_next := n |>) (memory_setPaintMode mode st).
Proof.
  unfold memory_setPaintMode. change (tm_mode (st <| tm_next := n |>)) with (tm_mode st). destruct (_ =? _); [reflexivity|].
  rewrite free_texture_next. destruct (free_texture st); reflexivity.
Qed.

Lemma texture_step_ok c st : memory_ok st -> exists st', texture_step c st = Some st' /\ memory_ok st'.
Proof.
  intros M. destruct c as [mode| |renderMode]; cbn [texture_step].
  - destruct (memory_setPaintMode_ok mode st M) as (st' & E & M' & _). exists st'. auto.
  - unfold memory_setTexture. rewrite setPaintMode_next. destruct (memory_setTexture_ok IMAGE_MODE_NORMAL st M) as (st1 & -> & st2 & E2 & P & N).
    cbn [option_map]. rewrite free_texture_next, E2. cbn [option_map]. eexists. split; [reflexivity|]. split.
    + transitivity (tm_freed st2 ++ [tm_next st]); [reflexivity|]. rewrite P. transitivity (seq 0 (S (tm_next st))); [|reflexivity].
      rewrite seq_S. reflexivity.
    + intros _ K. discriminate K.
    + intros K. discriminate K.
  - unfold memory_setTexture. destruct (memory_setTexture_ok renderMode st M) as (st1 & -> & st2 & -> & P & N).
    eexists. split; [reflexivity|]. split.
    + transitivity (tm_freed st2 ++ []); [reflexivity|]. rewrite app_nil_r, P. rewrite <- N. reflexivity.
    + intros K. discriminate K.
    + reflexivity.
Qed.
Lemma texture_run_ok cs : forall st, memory_ok st -> exists st', texture_run cs st = Some st' /\ memory_ok st'.
Proof.
  induction cs as [|c cs IH]; intros st M; cbn [texture_run]; [exists st; auto|].
  destruct (texture_step_ok c st M) as (st1 & -> & M1). apply IH, M1.
Qed.

(** C25: Over every sequence of paints, textures and images that is set and drawn, no
    pointer is freed that is not a block or was freed before, and when the
    renderer is disposed of every block has been freed exactly once. *)
Theorem textures_are_freed_once cs : exists st st', texture_run cs texture_created = Some st /\ texture_disposed st = Some st' /\
  tm_freed st' ≡ₚ seq 0 (tm_next st).
Proof.
  destruct (texture_run_ok cs texture_created) as (st & E & M); [split; [reflexivity|discriminate|reflexivity]|].
  destruct (free_texture_ok st M) as (st' & E' & P & _). exists st, st'. auto.
Qed.

(** An image of the Java array is copied exactly, whatever the distance of its
    rows, when the array is as long as a row. *)
Theorem set_texture_copies data width height stride : width <= Z.of_nat (length data) <= INT_MAX -> width <= stride ->
  check_image width height stride (Z.of_nat (length data)) = Done true ->
  exists d, copy_image data width height stride = Done d /\ Z.of_nat (length d) = width * height /\
    forall x y, in_image width height x y -> pixel d (y * width + x) = pixel data (y * stride + x).
Proof.
  intros Hn Hs C. destruct (image_inside _ _ _ _ Hn C) as (Hw & Hh & Hst & HL).
  destruct (image_copied data width height stride Hw Hh Hst (or_intror Hs) HL) as (d & E & L & P). exists d. auto.
Qed.
Lemma set_texture_copies_witness : exists d, copy_image [1; 2; 9; 3; 4] 2 2 3 = Done d /\ Z.of_nat (length d) = 2 * 2 /\
  forall x y, in_image 2 2 x y -> pixel d (y * 2 + x) = pixel [1; 2; 9; 3; 4] (y * 3 + x).
Proof. apply (set_texture_copies [1; 2; 9; 3; 4] 2 2 3); [vm_compute; split; discriminate|lia|reflexivity]. Defined.
