(* ===== verification/PiscesImage.v ===== *)
(** * An image ([drawImageImpl])

    An image is a texture whose data is borrowed from a Java array for the one
    rectangle it is drawn into.  The theorem follows it from the array to the
    surface: under the rule source-over and a translation by whole pixels, every
    pixel of the rectangle inside the clip gets the texel at its place, in the
    share in which the pixel is covered. *)

From S2P Require Import Prelude CFloat Float32 DecoraApi Argb Painted PiscesPixel PiscesRdr PiscesBlit PiscesPaint PiscesRenderer PiscesFill PiscesRect PiscesSurface PiscesSet.
Local Open Scope Z_scope.
Local Open Scope ub_scope.

(** [data + offset] is in the array or one behind it; afterwards the renderer
    has no data. *)
Definition elements_from (offset : Z) (dataArray : list Z) : ub (list Z) :=
  if (0 <=? offset) && (offset <=? Z.of_nat (length dataArray)) then Done (drop (Z.to_nat offset) dataArray) else Undefined OutOfBounds.
Definition without_data (t : texture) : texture :=
  mkTexture [] (_texture_hasAlpha t) (_texture_imageWidth t) (_texture_imageHeight t) (_texture_stride t)
    (_texture_txMin t) (_texture_tyMin t) (_texture_txMax t) (_texture_tyMax t) (_texture_repeat t)
    (_texture_m00 t) (_texture_m01 t) (_texture_m02 t) (_texture_m10 t) (_texture_m11 t) (_texture_m12 t) (_texture_interpolate t) (_texture_transformType t).
Definition with_texture (t : texture) (sc : scene) : scene := mkScene (sc_gradient sc) t (gammaArray sc) (invGammaArray sc) (sc_malloc sc).

(** The array of an image and the part of it that is used. *)
Record image_source := mkImage {
  im_mode : Z; im_data : list Z; im_width : Z; im_height : Z; im_offset : Z; im_stride : Z; im_transform : Transform6;
  im_repeat : bool; im_linearFiltering : bool; im_txMin : Z; im_tyMin : Z; im_txMax : Z; im_tyMax : Z; im_hasAlpha : bool }.

Definition drawImageImpl (pinned dataPinned : bool) (sc : scene) (im : image_source) (bboxX bboxY bboxW bboxH lEdge rEdge tEdge bEdge : Z) (cv : canvas) :
    ub (canvas * scene * thrown) :=
  if dataPinned then
    do* data := elements_from (im_offset im) (im_data im) in
    do* '(rdr, t) := renderer_setTexture (cv_rdr cv) (im_mode im) data (im_width im) (im_height im) (im_stride im) (im_repeat im) (im_linearFiltering im)
                       (im_transform im) (im_hasAlpha im) (im_txMin im) (im_tyMin im) (im_txMax im) (im_tyMax im) in
    do* '(cv, e) := fillRect pinned (with_texture t sc) bboxX bboxY bboxW bboxH lEdge rEdge tEdge bEdge (cv <| cv_rdr := rdr |>) in
    Done (cv, with_texture (without_data t) sc, e)
  else Done (cv, sc, OutOfMemoryError).

(** ** The rectangle of a texture *)

(** The fraction, of 256, in which a pixel gets its paint.  A column whose share
    of the row's rounds to nothing is no edge any more and gets that of the row. *)
Definition paint_fraction (colf rowf : Z) : Z :=
  if (colf =? 0x10000) || (colf * rowf / 65536 =? 0) then Z.shiftr rowf 8 else Z.shiftr (colf * rowf / 65536) 8.
Definition image_value (t : texture) (dx dy X Y colf rowf old : Z) : Z := over_with (paint_fraction colf rowf) (moved_texel t (X + dx) (Y + dy)) old.
Definition texture_chosen (r : routines) (_ : colour) : Prop :=
  _emitLine r = Some EmitLinePTSourceOver8888_pre /\ _genPaint r = Some GenTexturePaint.

Lemma ALLOC3_length array len : 0 <= len -> len <= Z.of_nat (length (ALLOC3 true array len)).
Proof. intros H. unfold ALLOC3. destruct (Z.ltb_spec (Z.of_nat (length array)) len); [rewrite repeat_length|]; lia. Qed.

Lemma column_paint_fraction rdr lfrac rfrac frac i : edges_ok rdr -> coverage frac -> _el_lfrac (_window rdr) = lfrac -> _el_rfrac (_window rdr) = rfrac ->
  column_fraction rdr frac i = paint_fraction (pick rdr lfrac rfrac lfrac rfrac 0x10000 i) frac.
Proof.
  intros (EL & ER & EF) HC <- <-. set (win := _window rdr) in *. unfold column_fraction, paint_fraction. cbv zeta. fold win. rewrite !scaled_frac_eq by assumption.
  unfold pick, flag in *. fold win. set (l := _el_lfrac win) in *. set (r := _el_rfrac win) in *. set (W := _alphaWidth win) in *.
  assert (forall f, f = 0 -> f * frac / 65536 = 0) as Z0 by (intros f ->; reflexivity).
  destruct (Z.eqb_spec l 0) as [El|Nl]; [rewrite (Z0 l El)|]; (destruct (Z.eqb_spec r 0) as [Er|Nr]; [rewrite (Z0 r Er)|]);
    cbn [negb]; rewrite ?Z.eqb_refl, ?andb_false_r, ?andb_true_r; cbn [negb]; rewrite ?andb_false_r; try reflexivity;
    destruct (Z.eqb_spec i 0), (Z.eqb_spec i (W - 1)); cbn [andb]; try reflexivity; try lia;
    repeat match goal with |- context [?a =? 65536] => destruct (Z.eqb_spec a 65536); [lia|] end; cbn [orb];
    repeat match goal with |- context [?a / 65536 =? 0] => destruct (Z.eqb_spec (a / 65536) 0) end; cbn [negb]; reflexivity.
Qed.

Section Texture.
Variables (s : surface) (sc : scene) (dst : list Z) (dx dy : Z).
Abbreviation t := (sc_texture sc).
Hypothesis (MA : sc_malloc sc = true) (TO : texture_ok t) (MV : moved t dx dy) (Sx : small dx) (Sy : small dy).
Hypothesis (DO : Forall is_pixel dst) (SW : s_width s <= 32768) (SH : s_height s <= 32768).
Hypothesis (HL : s_height s * s_width s <= Z.of_nat (length dst)).

Lemma pixel_of_dst i : 0 <= i < Z.of_nat (length dst) -> is_pixel (pixel dst i).
Proof using DO.
  intros Hi. pose proof (rd_pixel dst _ Hi) as E. unfold rd in E. destruct (0 <=? _); [|discriminate]. destruct (dst !! _) eqn:K; [|discriminate].
  injection E as <-. eapply (proj1 (Forall_lookup _ _) DO), K.
Qed.
Lemma texture_draws_band x_from x_to y_from y_to lfrac rfrac : 0 <= x_from <= x_to -> x_to < s_width s -> 0 <= y_from <= y_to -> y_to < s_height s ->
  0 <= lfrac < 0x10000 -> 0 <= rfrac < 0x10000 ->
  draws_band s sc dst x_from x_to y_from y_to lfrac rfrac texture_chosen (image_value t dx dy).
Proof using MA TO MV Sx Sy DO SW SH HL.
  intros Hx HX Hy HY EL ER y n frac rdr m A H1 H2 H3 HC OK EO OP. destruct (ab_chosen _ _ _ _ _ _ _ _ A) as [E G].
  pose proof (ab_width _ _ _ _ _ _ _ _ A) as EW.
  unfold draw_band, gen_paint. cbn [cv_rdr cv_mem]. rewrite G. cbn [run_paint]. rewrite MA, EW. set (W := x_to - x_from + 1) in *.
  set (buf := ALLOC3 true (_paint m) (W * n)). assert (W * n <= Z.of_nat (length buf)) as LB by (apply ALLOC3_length; subst W; nia). clearbody buf.
  set (P := filled W (fun i j v => v = moved_texel t (x_from + dx + i) (y + j + dy) /\ good v) (length buf) (in_image W n)). eapply (yields_bind _ _ (fun cv => exists paint, cv = mkCanvas rdr (m <| _paint := paint |>) /\ P paint)).
  { eapply yields_bind; [apply (texture_copied t rdr n buf TO ltac:(lia) ltac:(lia) ltac:(rewrite EW; exact LB) dx dy MV Sx Sy)|].
    - rewrite (ab_x _ _ _ _ _ _ _ _ A). unfold small. lia.
    - intros j Hj. rewrite (ab_y _ _ _ _ _ _ _ _ A). unfold small. lia.
    - rewrite EW, (ab_x _ _ _ _ _ _ _ _ A), (ab_y _ _ _ _ _ _ _ _ A). intros paint F. apply yields_done. exists paint. split; [reflexivity|exact F]. }
  intros cv (paint & -> & LP & F). unfold emit_line. cbn [cv_rdr cv_mem]. rewrite E.
  assert (paint_ok (_alphaWidth (_window rdr) * n) paint) as PO.
  { rewrite EW. split; [lia|]. intros i Hi. pose proof (Z.div_mod i W ltac:(lia)) as D. pose proof (Z.mod_pos_bound i W ltac:(lia)).
    assert (0 <= i / W < n) by (split; [apply Z.div_pos|apply Z.div_lt_upper_bound]; lia).
    destruct (F (i mod W) (i / W) ltac:(split; lia)) as [_ Gd]. replace (i / W * W + i mod W) with i in Gd by lia. exact Gd. }
  eapply yields_bind; [apply (emitLinePTSourceOver_draws rdr n (intData m) paint OK EO PO)|].
  { intros i j Hi Hj. rewrite EW in Hi. rewrite OP by (split; lia). apply pixel_of_dst. unfold row_major. nia. }
  { exact HC. }
  intros d D. apply yields_done. split; [reflexivity|]. cbn [cv_mem]. eapply painted_values; [|exact D]. rewrite EW. intros i j [Hi Hj]. cbn beta.
  unfold image_value. destruct (F i j ltac:(split; lia)) as [-> _].
  replace (x_from + dx + i) with (x_from + i + dx) by lia. f_equal.
  rewrite (column_pick s x_from x_to lfrac rfrac _ _ _ i A). apply column_paint_fraction; try assumption; apply A.
Qed.
End Texture.

(** ** The image *)

Record image_ok (im : image_source) : Prop := {
  io_mode : im_mode im = IMAGE_MODE_NORMAL; io_repeat : im_repeat im = false;
  io_x : 0 <= im_txMin im <= im_txMax im; io_y : 0 <= im_tyMin im <= im_tyMax im;
  io_width : im_txMax im < im_width im; io_height : im_tyMax im < im_height im; io_stride : im_width im <= im_stride im;
  io_offset : 0 <= im_offset im;
  io_data : im_offset im + (im_height im - 1) * im_stride im + im_width im <= Z.of_nat (length (im_data im));
  io_good : Forall good (im_data im) }.
(** The texel at a place, held at the borders of the part in use. *)
Definition image_texel (im : image_source) (X Y : Z) : Z :=
  pixel (im_data im) (im_offset im + Z.max 0 (Z.max (im_tyMin im - 1) (Z.min (im_tyMax im) Y)) * im_stride im
                      + Z.max (im_txMin im) (Z.min (im_txMax im) X)).
(** The map from the surface to the image moves by whole pixels. *)
Definition moves_by (transform : Transform6) (dx dy : Z) : Prop :=
  pisces_transform_invert transform = Done (mkTransform6 65536 0 0 65536 (dx * 65536) (dy * 65536)).

Lemma pixel_drop k d i : 0 <= k -> 0 <= i -> pixel (drop (Z.to_nat k) d) i = pixel d (k + i).
Proof. intros Hk Hi. unfold pixel. rewrite !nth_lookup, lookup_drop. do 2 f_equal. lia. Qed.
Lemma whole_move v : Z.land (v * 65536) 0xffff = 0.
Proof. rewrite land_ffff. apply Z.mod_mul. lia. Qed.

(** The texture such an image becomes. *)
Lemma image_texture rdr im data dx dy : image_ok im -> moves_by (im_transform im) dx dy ->
  (im_height im - 1) * im_stride im + im_width im <= Z.of_nat (length data) -> Forall good data ->
  exists t, renderer_setTexture rdr (im_mode im) data (im_width im) (im_height im) (im_stride im) (im_repeat im) (im_linearFiltering im)
              (im_transform im) (im_hasAlpha im) (im_txMin im) (im_tyMin im) (im_txMax im) (im_tyMax im) = Done (setPaintMode rdr PAINT_TEXTURE8888, t) /\
    texture_ok t /\ moved t dx dy /\
    forall X Y, moved_texel t X Y = pixel data (Z.max 0 (Z.max (im_tyMin im - 1) (Z.min (im_tyMax im) Y)) * im_stride im + Z.max (im_txMin im) (Z.min (im_txMax im) X)).
Proof.
  intros [I1 I2 I3 I4 I5 I6 I7 I8 I9 I10] M HL GD. unfold renderer_setTexture. unfold moves_by in M. rewrite M. cbn [ub_bind m00 m01 m02 m10 m11 m12]. rewrite I1, I2.
  change (IMAGE_MODE_NORMAL =? IMAGE_MODE_NORMAL) with true. cbn iota.
  assert (forall b v, (if b : bool then v + (Z.shiftr 65536 1 + Z.shiftr 0 1 - 32768) else v) = v) as E1 by (intros [] v; [change (Z.shiftr 65536 1 + Z.shiftr 0 1 - 32768) with 0; lia|reflexivity]).
  assert (forall b v, (if b : bool then v + (Z.shiftr 0 1 + Z.shiftr 65536 1 - 32768) else v) = v) as E2 by (intros [] v; [change (Z.shiftr 0 1 + Z.shiftr 65536 1 - 32768) with 0; lia|reflexivity]).
  rewrite E1, E2. unfold transform_type. rewrite !whole_move. cbn [Z.eqb Pos.eqb andb].
  destruct (_ && _); (eexists; split; [reflexivity|]; split; [split; cbn; try assumption; try discriminate; try (vm_compute; split; discriminate)|]; split;
    [split; cbn; auto|intros X Y; reflexivity]).
Qed.

Section Drawn.
Variables (sc : scene) (cv : canvas) (im : image_source) (x y w h dx dy : Z).
Abbreviation rdr := (cv_rdr cv).
Abbreviation dst := (intData (cv_mem cv)).
Abbreviation s := (_surface rdr).
Hypothesis (V : valid rdr) (SO : _compositeRule rdr = COMPOSITE_SRC_OVER) (MA : sc_malloc sc = true).
Hypothesis (SF : surface_ok s (Z.of_nat (length dst))) (CI : clip_inside (_clip rdr) s) (SW : s_width s <= 32768) (SH : s_height s <= 32768) (DO : Forall is_pixel dst).
Hypothesis (IO : image_ok im) (MB : moves_by (im_transform im) dx dy) (Sx : small dx) (Sy : small dy).
Hypothesis (Hw : 0 < w) (Hh : 0 < h) (Hx : INT_MIN <= x /\ x + w <= INT_MAX) (Hy : INT_MIN <= y /\ y + h <= INT_MAX).

Lemma image_drawn : yields (drawImageImpl true true sc im x y w h IMAGE_FRAC_EDGE_KEEP IMAGE_FRAC_EDGE_KEEP IMAGE_FRAC_EDGE_KEEP IMAGE_FRAC_EDGE_KEEP cv)
  (fun '(cv', sc', e) => e = NoException /\ _texture_intData (sc_texture sc') = [] /\
    painted (covered (_clip rdr) x y w h) (row_major (s_width s))
      (fun X Y => over_with (paint_fraction (overlap x w X) (overlap y h Y)) (image_texel im (X + dx) (Y + dy)) (pixel dst (row_major (s_width s) X Y)))
      dst (intData (cv_mem cv'))).
Proof using V SO MA SF CI SW SH DO IO MB Sx Sy Hw Hh Hx Hy.
  unfold drawImageImpl, elements_from. pose proof (io_offset _ IO). pose proof (io_data _ IO) as ID. pose proof (io_stride _ IO). pose proof (io_height _ IO).
  pose proof (io_width _ IO). pose proof (io_x _ IO). pose proof (io_y _ IO).
  assert (im_offset im <= Z.of_nat (length (im_data im))) as HO by nia.
  destruct (Z.leb_spec 0 (im_offset im)), (Z.leb_spec (im_offset im) (Z.of_nat (length (im_data im)))); try lia. cbn [andb ub_bind].
  destruct (image_texture rdr im (drop (Z.to_nat (im_offset im)) (im_data im)) dx dy IO MB) as (t & -> & TO & MV & TX).
  { rewrite length_drop. lia. }
  { apply Forall_drop, IO. }
  cbn [ub_bind]. change (cv <| cv_rdr := setPaintMode rdr PAINT_TEXTURE8888 |>) with (mkCanvas (setPaintMode rdr PAINT_TEXTURE8888) (cv_mem cv)).
  set (cv1 := mkCanvas _ _). assert (valid (cv_rdr cv1)) as V1 by (apply setPaintMode_valid; [exact V|unfold mode_ok; auto]).
  assert (_surface (cv_rdr cv1) = s /\ _clip (cv_rdr cv1) = _clip rdr /\ _compositeRule (cv_rdr cv1) = COMPOSITE_SRC_OVER /\ _paintMode (cv_rdr cv1) = PAINT_TEXTURE8888) as (E1 & E2 & E3 & E4).
  { subst cv1. cbn [cv_rdr]. unfold setPaintMode. destruct (Z.eqb_spec (_paintMode rdr) PAINT_TEXTURE8888); auto. }
  assert (cv_mem cv1 = cv_mem cv) as E5 by reflexivity. clearbody cv1.
  eapply yields_bind; [apply (rectangle_drawn (with_texture t sc) cv1 x y w h texture_chosen (image_value t dx dy) V1 E3); rewrite ?E1, ?E2, ?E5; try assumption|].
  - destruct (validated_renderer _ V1 E3) as (_ & _ & G & E & _). cbv zeta in *. rewrite E4 in *. split; [exact E|exact G].
  - intros. apply texture_draws_band; try assumption. apply SF.
  - intros [cv' e] [-> P]. apply yields_done. split; [reflexivity|]. split; [reflexivity|]. rewrite E1, E2, E5 in P. eapply painted_values; [|exact P].
    intros X Y _. unfold image_value. f_equal. rewrite TX. unfold image_texel. rewrite pixel_drop by nia. f_equal. lia.
Qed.
End Drawn.

(** C11: An image is drawn exactly.  The rule is source-over, the surface has at
    most 32768 pixels in each direction and the clip is inside it; the image is
    drawn in the normal mode, not repeated, its edges kept, moved by less than
    32768 whole pixels, smoothed or not, and there is memory for its rows.  Then
    every pixel of the surface that is inside the clip and meets the rectangle is
    mixed once with the texel at its place ([image_texel]), in [paint_fraction] of the covered
    shares of its column and row: their product, or the share of the row alone
    where that of the column rounds to nothing ([thin_edge_is_drawn]).  The other
    pixels keep their value, nothing outside the two arrays is touched, and the
    renderer keeps no pointer to the array of the image. *)
Theorem image_drawn_exactly sc cv im x y w h dx dy : valid (cv_rdr cv) -> _compositeRule (cv_rdr cv) = COMPOSITE_SRC_OVER -> sc_malloc sc = true ->
  surface_ok (_surface (cv_rdr cv)) (Z.of_nat (length (intData (cv_mem cv)))) -> clip_inside (_clip (cv_rdr cv)) (_surface (cv_rdr cv)) ->
  s_width (_surface (cv_rdr cv)) <= 32768 -> s_height (_surface (cv_rdr cv)) <= 32768 -> Forall is_pixel (intData (cv_mem cv)) ->
  image_ok im -> moves_by (im_transform im) dx dy -> small dx -> small dy ->
  0 < w -> 0 < h -> INT_MIN <= x /\ x + w <= INT_MAX -> INT_MIN <= y /\ y + h <= INT_MAX ->
  exists cv' sc',
    drawImageImpl true true sc im x y w h IMAGE_FRAC_EDGE_KEEP IMAGE_FRAC_EDGE_KEEP IMAGE_FRAC_EDGE_KEEP IMAGE_FRAC_EDGE_KEEP cv = Done (cv', sc', NoException) /\
    _texture_intData (sc_texture sc') = [] /\
    let ix := row_major (s_width (_surface (cv_rdr cv))) in
    let dst := intData (cv_mem cv) in
    painted (covered (_clip (cv_rdr cv)) x y w h) ix
      (fun X Y => over_with (paint_fraction (overlap x w X) (overlap y h Y)) (image_texel im (X + dx) (Y + dy)) (pixel dst (ix X Y)))
      dst (intData (cv_mem cv')).
Proof.
  intros V SO MA SF CI SW SH DO IO MB Sx Sy Hw Hh Hx Hy.
  destruct (image_drawn sc cv im x y w h dx dy V SO MA SF CI SW SH DO IO MB Sx Sy Hw Hh Hx Hy) as ([[cv' sc'] e] & E & -> & P). exists cv', sc'. auto.
Qed.

(** An image of two columns, the second half transparent, one pixel to the right. *)
Definition sample_image : image_source :=
  mkImage IMAGE_MODE_NORMAL [0; argb 255 10 20 30; argb 128 64 32 16] 2 1 1 2 (mkTransform6 65536 0 0 65536 65536 0) false true 0 0 1 0 true.

Lemma image_drawn_exactly_witness : let cv := sample_canvas 3 1 white (repeat 0 3) in exists cv' sc',
  drawImageImpl true true plain_scene sample_image 0x10000 0 0x20000 0x10000 IMAGE_FRAC_EDGE_KEEP IMAGE_FRAC_EDGE_KEEP IMAGE_FRAC_EDGE_KEEP IMAGE_FRAC_EDGE_KEEP cv
    = Done (cv', sc', NoException) /\ _texture_intData (sc_texture sc') = [] /\
  painted (covered (mkClip 0 0 2 0) 0x10000 0 0x20000 0x10000) (row_major 3)
    (fun X Y => over_with (paint_fraction (overlap 0x10000 0x20000 X) (overlap 0 0x10000 Y)) (image_texel sample_image (X + -1) (Y + 0)) (pixel (repeat 0 3) (row_major 3 X Y)))
    (repeat 0 3) (intData (cv_mem cv')).
Proof.
  apply (image_drawn_exactly plain_scene (sample_canvas 3 1 white (repeat 0 3)) sample_image 0x10000 0 0x20000 0x10000 (-1) 0).
  - apply (reachable_valid (mkSurface 3 1 0 3 1 TYPE_INT_ARGB_PRE)); [reflexivity|]. apply rtc_once. apply (Step_setColor _ 255 255 255 255).
  - reflexivity.
  - reflexivity.
  - split; vm_compute; reflexivity || discriminate.
  - split; vm_compute; reflexivity || discriminate.
  - vm_compute. discriminate.
  - vm_compute. discriminate.
  - repeat constructor; vm_compute; discriminate.
  - split; try (cbn; lia); [reflexivity..|]. apply List.Forall_cons; [apply good_0|]. repeat (apply List.Forall_cons; [apply argb_good; lia|]). apply List.Forall_nil.
  - vm_compute. reflexivity.
  - vm_compute. split; [discriminate|reflexivity].
  - vm_compute. split; [discriminate|reflexivity].
  - lia.
  - lia.
  - unfold INT_MIN, INT_MAX. lia.
  - unfold INT_MIN, INT_MAX. lia.
Defined.

(** What it leaves: nothing, the opaque texel, the transparent one. *)
Example image_left : exists cv' sc',
  drawImageImpl true true plain_scene sample_image 0x10000 0 0x20000 0x10000 0 0 0 0 (sample_canvas 3 1 white (repeat 0 3)) = Done (cv', sc', NoException) /\
  intData (cv_mem cv') = [0; argb 255 10 20 30; argb 128 64 32 16].
Proof. do 2 eexists. split; [vm_compute; reflexivity|reflexivity]. Qed.

(** An edge whose share rounds to nothing is drawn in the share of its row: a
    column of which one part in 65536 is covered, in a row covered by half, gets
    half of the image. *)
Example thin_edge_is_drawn : exists cv' sc',
  drawImageImpl true true plain_scene sample_image 0x1ffff 0x8000 0x10001 0x8000 0 0 0 0 (sample_canvas 3 1 white (repeat 0 3)) = Done (cv', sc', NoException) /\
  intData (cv_mem cv') = [0; argb 127 5 10 15; argb 64 32 16 8].
Proof. do 2 eexists. split; [vm_compute; reflexivity|]. reflexivity. Qed.
