(* ===== verification/PlayerEntry.v ===== *)
(** * The player's native methods ([platform/gstreamer/GstMediaPlayer.cpp])

    Java holds the address of a [CMedia]; every native method of its player
    takes the pipeline from there and calls one operation of it, and the getters
    put the number into an array of Java's.  The operations are those of
    [AudioPipeline.v] and [Build.v], over GStreamer; the arrays and the player's
    references are JNI's.  [player_life] is the whole of it, from [gstInitPlayer]
    to [gstDispose]; [life] is what it promises, without JNI. *)

From S2P Require Import Prelude CFloat MediaTypes GstApi Effects PipelineState AudioPipeline Build Playback JniApi JniUtils JniRun EventDispatch EventSession.
Local Open Scope Z_scope.
Local Open Scope jni_scope.

(** The object behind the handle; [events] is what the pipeline's
    [m_pEventDispatcher] points to. *)
Record CMedia := mkMedia { m_pPipeline : option pipeline; events : option dispatcher }.

Definition CMedia_IsValid (pMedia : option CMedia) : bool :=
  match pMedia with Some m => nonnull (m_pPipeline m) | None => false end.
Definition GetPipeline (m : CMedia) : option pipeline := m_pPipeline m.

Section Entries.
Context `{EV : Env}.

(** The result of a native method, the object afterwards, and what GStreamer
    saw. *)
Record entered := mkEntered { code : ErrCode; media_after : option CMedia; world_after : world; seen : list obs }.

(** The beginning that all methods share; [k] makes the result of what the
    operation returns. *)
Definition with_pipeline {A} (ref_media : option CMedia) (w : world) (op : PM A) (k : A -> prog ErrCode) : prog entered :=
  match ref_media with
  | None => Ret (mkEntered ERROR_MEDIA_NULL None w [])
  | Some pMedia =>
      match GetPipeline pMedia with
      | None => Ret (mkEntered ERROR_PIPELINE_NULL ref_media w [])
      | Some pPipeline =>
          let o := op pPipeline w in
          let* iRet := k (oval o) in
          Ret (mkEntered iRet (Some (mkMedia (Some (ostate o)) (events pMedia))) (oworld o) (otrace o))
      end
  end.

(** The end of the getters; the value is put only when there is no error. *)
Definition put_first (region : jcall unit) : prog ErrCode :=
  jni region ;;
  let* e := jni ExceptionCheck in
  if e then jni ExceptionClear ;; Ret ERROR_JNI_UNEXPECTED else Ret ERROR_NONE.
Definition hand_over {A} (region : A -> jcall unit) (r : ErrCode * A) : prog ErrCode :=
  if decide (fst r = ERROR_NONE) then put_first (region (snd r)) else Ret (fst r).
Definition put_float (a : ref) (v : float) : jcall unit := SetFloatArrayRegion a [v].
Definition put_double (a : ref) (v : double) : jcall unit := SetDoubleArrayRegion a [v].
Definition put_long (a : ref) (v : Z) : jcall unit := SetLongArrayRegion a [v].
(** A variable that a getter may leave as it is. *)
Definition or_else {A} (initial : A) (r : ErrCode * option A) : ErrCode * A := (fst r, default initial (snd r)).

Definition gstPlay (m : option CMedia) (w : world) : prog entered := with_pipeline m w Play Ret.
Definition gstPause (m : option CMedia) (w : world) : prog entered := with_pipeline m w Pause Ret.
Definition gstStop (m : option CMedia) (w : world) : prog entered := with_pipeline m w Stop Ret.
Definition gstFinish (m : option CMedia) (w : world) : prog entered := with_pipeline m w Finish Ret.
Definition gstSeek (stream_time : double) (m : option CMedia) (w : world) : prog entered := with_pipeline m w (Seek stream_time) Ret.
Definition gstSetRate (rate : float) (m : option CMedia) (w : world) : prog entered := with_pipeline m w (SetRate rate) Ret.
Definition gstSetVolume (volume : float) (m : option CMedia) (w : world) : prog entered := with_pipeline m w (SetVolume volume) Ret.
Definition gstSetBalance (balance : float) (m : option CMedia) (w : world) : prog entered := with_pipeline m w (SetBalance balance) Ret.
Definition gstSetAudioSyncDelay (audio_sync_delay : Z) (m : option CMedia) (w : world) : prog entered :=
  with_pipeline m w (SetAudioSyncDelay (to_long audio_sync_delay)) Ret.
Definition gstGetRate (jrgfRate : ref) (m : option CMedia) (w : world) : prog entered :=
  with_pipeline m w GetRate (hand_over (put_float jrgfRate)).
Definition gstGetPresentationTime (jrgdPresentationTime : ref) (m : option CMedia) (w : world) : prog entered :=
  with_pipeline m w GetStreamTime (hand_over (put_double jrgdPresentationTime)).
Definition gstGetDuration (jrgdDuration : ref) (m : option CMedia) (w : world) : prog entered :=
  with_pipeline m w GetDuration (hand_over (put_double jrgdDuration)).
(** These getters declare the variable without a value. *)
Definition gstGetVolume (fVolume : float) (jrgfVolume : ref) (m : option CMedia) (w : world) : prog entered :=
  with_pipeline m w GetVolume (fun r => hand_over (put_float jrgfVolume) (or_else fVolume r)).
Definition gstGetBalance (fBalance : float) (jrgfBalance : ref) (m : option CMedia) (w : world) : prog entered :=
  with_pipeline m w GetBalance (fun r => hand_over (put_float jrgfBalance) (or_else fBalance r)).
Definition gstGetAudioSyncDelay (lAudioSyncDelay : Z) (jrglAudioSyncDelay : ref) (m : option CMedia) (w : world) : prog entered :=
  with_pipeline m w GetAudioSyncDelay (fun r => hand_over (put_long jrglAudioSyncDelay) (or_else lAudioSyncDelay r)).

(** These return a pointer, [NULL] without a [CMedia]; [None] is a method called
    on a pipeline that is not there. *)
Definition gstGetAudioEqualizer (m : option CMedia) : option bool :=
  match m with None => Some false | Some pMedia => option_map m_pAudioEqualizer (GetPipeline pMedia) end.
Definition gstGetAudioSpectrum (m : option CMedia) : option bool :=
  match m with None => Some false | Some pMedia => option_map m_pAudioSpectrum (GetPipeline pMedia) end.

(** [gstInitPlayer]; [created] says whether there is memory for the dispatcher,
    [pMedia] is the object's address. *)
Definition gstInitPlayer (created : bool) (obj : ref) (pMedia : Z) (m : option CMedia) (s : statics) (w : world) : prog (entered * statics) :=
  match m with
  | None => Ret (mkEntered ERROR_MEDIA_NULL None w [], s)
  | Some media =>
      match GetPipeline media with
      | None => Ret (mkEntered ERROR_PIPELINE_NULL m w [], s)
      | Some pPipeline =>
          if negb created then Ret (mkEntered ERROR_MEMORY_ALLOCATION m w [], s)
          else
            let* '(pEventDispatcher, s) := Init obj pMedia new_dispatcher s in
            let o := Build.Init (pPipeline <| m_pEventDispatcher := true |>) w in
            Ret (mkEntered (oval o) (Some (mkMedia (Some (ostate o)) (Some pEventDispatcher))) (oworld o) (otrace o), s)
      end
  end.

(** The destructors of the pipeline classes, the derived one's first; the
    dispatcher's is [delete_events]. *)
Definition delete_pipeline : PM unit :=
  (call (cxx_delete "m_SeekLock") ;; call (cxx_delete "m_StateLock") ;; call (cxx_delete "m_StallLock") ;;
   call (cxx_delete "m_pOptions"))%eff.
Definition delete_events (d : option dispatcher) : prog unit :=
  match d with Some d => Dispose d ;; Ret tt | None => Ret tt end.

(** [gstDispose] ([GstMedia.cpp]) with the destructor of [CMedia]. *)
Definition gstDispose (m : option CMedia) (w : world) : prog (world * list obs) :=
  match m with
  | None => Ret (w, [])
  | Some pMedia =>
      match m_pPipeline pMedia with
      | None => Ret (w, [])
      | Some p =>
          let o := (Build.Dispose ;; delete_pipeline)%eff p w in
          delete_events (events pMedia) ;;
          Ret (oworld o, otrace o)
      end
  end.

(** ** Sequences of calls *)

Inductive player_request :=
| RPlay | RPause | RStop | RFinish | RSeek (stream_time : double)
| RSetRate (rate : float) | RSetVolume (volume : float) | RSetBalance (balance : float) | RSetDelay (delay : Z)
| RGetRate (a : ref) | RGetTime (a : ref) | RGetDuration (a : ref)
| RGetVolume (initial : float) (a : ref) | RGetBalance (initial : float) (a : ref) | RGetDelay (initial : Z) (a : ref).

Definition enter (q : player_request) : option CMedia -> world -> prog entered :=
  match q with
  | RPlay => gstPlay | RPause => gstPause | RStop => gstStop | RFinish => gstFinish | RSeek t => gstSeek t
  | RSetRate r => gstSetRate r | RSetVolume v => gstSetVolume v | RSetBalance b => gstSetBalance b | RSetDelay d => gstSetAudioSyncDelay d
  | RGetRate a => gstGetRate a | RGetTime a => gstGetPresentationTime a | RGetDuration a => gstGetDuration a
  | RGetVolume i a => gstGetVolume i a | RGetBalance i a => gstGetBalance i a | RGetDelay i a => gstGetAudioSyncDelay i a
  end.
Fixpoint enter_all (qs : list player_request) (m : option CMedia) (w : world) : prog (list ErrCode * option CMedia * world * list obs) :=
  match qs with
  | [] => Ret ([], m, w, [])
  | q :: qs =>
      let* r := enter q m w in
      let* '(codes, m', w', t) := enter_all qs (media_after r) (world_after r) in
      Ret (code r :: codes, m', w', seen r ++ t)
  end.

(** The life of a player: what [gstInitPlayer] returns, what the other methods
    return, and what GStreamer saw. *)
Definition player_life (obj : ref) (pMedia : Z) (p : pipeline) (s : statics) (qs : list player_request) (w : world) : prog (ErrCode * list ErrCode * list obs) :=
  let* '(r, s) := gstInitPlayer true obj pMedia (Some (mkMedia (Some p) None)) s w in
  let* '(codes, m, w, t) := enter_all qs (media_after r) (world_after r) in
  let* '(_, t') := gstDispose m w in
  Ret (code r, codes, seen r ++ t ++ t').

(** ** What it promises *)

Definition mapped {A B} (f : A -> B) (m : PM A) : PM B := fun p w =>
  let o := m p w in mkOutcome (f (oval o)) (ostate o) (oworld o) (otrace o).
Definition only_code (e : ErrCode) : ErrCode * option jvalue := (e, None).
Definition with_value {A} (v : A -> jvalue) (r : ErrCode * A) : ErrCode * option jvalue := (fst r, Some (v (snd r))).

(** The operation behind a method, with the value that is meant for Java. *)
Definition performs (q : player_request) : PM (ErrCode * option jvalue) :=
  match q with
  | RPlay => mapped only_code Play
  | RPause => mapped only_code Pause
  | RStop => mapped only_code Stop
  | RFinish => mapped only_code Finish
  | RSeek t => mapped only_code (Seek t)
  | RSetRate r => mapped only_code (SetRate r)
  | RSetVolume v => mapped only_code (SetVolume v)
  | RSetBalance b => mapped only_code (SetBalance b)
  | RSetDelay d => mapped only_code (SetAudioSyncDelay (to_long d))
  | RGetRate _ => mapped (with_value VFloat) GetRate
  | RGetTime _ => mapped (with_value VDouble) GetStreamTime
  | RGetDuration _ => mapped (with_value VDouble) GetDuration
  | RGetVolume i _ => mapped (fun r => with_value VFloat (or_else i r)) GetVolume
  | RGetBalance i _ => mapped (fun r => with_value VFloat (or_else i r)) GetBalance
  | RGetDelay i _ => mapped (fun r => with_value VLong (or_else i r)) GetAudioSyncDelay
  end.
Fixpoint performs_all (qs : list player_request) : PM (list (ErrCode * option jvalue)) :=
  match qs with
  | [] => ret []
  | q :: qs => (let* r := performs q in let* rs := performs_all qs in ret (r :: rs))%eff
  end.
Definition life (qs : list player_request) : PM (ErrCode * list (ErrCode * option jvalue)) :=
  (modify (fun p => p <| m_pEventDispatcher := true |>) ;;
   let* c := Build.Init in
   let* rs := performs_all qs in
   Build.Dispose ;; delete_pipeline ;; ret (c, rs))%eff.

Definition array_of (q : player_request) : option ref :=
  match q with
  | RGetRate a | RGetTime a | RGetDuration a | RGetVolume _ a | RGetBalance _ a | RGetDelay _ a => Some a
  | _ => None
  end.
Definition region_of (v : jvalue) : string :=
  match v with VDouble _ => "SetDoubleArrayRegion" | VFloat _ => "SetFloatArrayRegion" | _ => "SetLongArrayRegion" end.

(** The getters are given arrays. *)
Definition array_ok (j : jvm) (q : player_request) : Prop :=
  forall a, array_of q = Some a -> exists l id n, a = Some l /\ locals j !! l = Some (JArray id n).

(** What becomes of an operation's result: an error is returned, a value is put
    at the beginning of the array, and one that does not fit is an error too. *)
Definition put_into (o : option jobject) (v : jvalue) (before : list java_call) (r : ErrCode) (after : list java_call) : Prop :=
  match o with
  | Some (JArray id (S n)) => r = ERROR_NONE /\ after = before ++ [mkCall (region_of v) [VObject (Some (JArray id (S n))); v] (Some 0)]
  | _ => r = ERROR_JNI_UNEXPECTED /\ after = before
  end.
Definition delivered (j : jvm) (x : player_request * (ErrCode * option jvalue)) (before : list java_call) (r : ErrCode) (after : list java_call) : Prop :=
  match array_of (fst x), snd x with
  | Some a, (ERROR_NONE, Some v) => put_into (object_of j a) v before r after
  | _, (e, _) => r = e /\ after = before
  end.

(** ** The methods *)

Section Machines.
Context `{MACHINE : Machine}.

(** The object keeps its dispatcher; the rest is the operation's doing. *)
Definition entered_as (q : player_request) (p : pipeline) (ev : option dispatcher) (w : world) (j : jvm) (r : entered) (j' : jvm) : Prop :=
  let o := performs q p w in
  grows j j' /\ globals j' = globals j /\
  media_after r = Some (mkMedia (Some (ostate o)) ev) /\ world_after r = oworld o /\ seen r = otrace o /\
  delivered j (q, oval o) (java_calls j) (code r) (java_calls j').

Lemma put_first_rule (region : jcall unit) l id n v j :
  (forall x : jvm, answers region j tt x -> x = set_region (Some l) (region_of v) [v] j) ->
  allowed region j = (attached j && negb (pending j) && match object_of j (Some l) with Some (JArray _ _) => true | _ => false end) ->
  attached j = true -> pending j = false -> locals j !! l = Some (JArray id n) ->
  wp (put_first region) j (fun r j' => grows j j' /\ globals j' = globals j /\ put_into (object_of j (Some l)) v (java_calls j) r (java_calls j')).
Proof.
  intros An Al A P L. pose proof (local_live j l _ L) as O. unfold put_first. cbn [wp bind jni].
  split; [rewrite Al, A, P, O; reflexivity|]. intros [] j1 ->%An. unfold set_region. rewrite O. cbn [length].
  destruct n as [|n]; cbn [Nat.leb].
  - cbn [wp bind jni attached raise]. split; [exact A|]. intros e j2 [-> ->]. cbn [pending raise wp bind jni]. split; [exact A|].
    intros [] j3 ->. cbn [wp put_into]. split; [split; cbn; auto; lia|]. auto.
  - cbn [wp bind jni attached with_calls]. split; [exact A|]. intros e j2 [-> ->]. cbn [pending with_calls]. rewrite P. cbn [wp put_into].
    split; [split; cbn; auto; lia|]. split; [reflexivity|]. split; [reflexivity|]. unfold java_calls. cbn [calls with_calls].
    rewrite filter_app. f_equal. rewrite filter_cons_True; [reflexivity|]. destruct v; discriminate.
Qed.

Lemma hand_over_rule {A} (region : A -> jcall unit) (v : A -> jvalue) (r : ErrCode * A) l id n j :
  (forall x, wp (put_first (region x)) j (fun r j' => grows j j' /\ globals j' = globals j /\ put_into (object_of j (Some l)) (v x) (java_calls j) r (java_calls j'))) ->
  attached j = true -> pending j = false -> locals j !! l = Some (JArray id n) ->
  forall q, array_of q = Some (Some l) ->
  wp (hand_over region r) j (fun c j' => grows j j' /\ globals j' = globals j /\ delivered j (q, with_value v r) (java_calls j) c (java_calls j')).
Proof.
  intros H A0 P L q Q. unfold hand_over, delivered, with_value. destruct r as [e x]. cbn [fst snd]. rewrite Q.
  destruct (decide (e = ERROR_NONE)) as [->|N]; [apply H|]. cbn [wp]. split; [apply grows_refl, P|]. split; [reflexivity|].
  destruct e; try congruence; auto.
Qed.

(** The methods that return only a code. *)
Lemma plain_rule q (op : PM ErrCode) p ev w j : performs q = mapped only_code op -> array_of q = None -> pending j = false ->
  wp (with_pipeline (Some (mkMedia (Some p) ev)) w op Ret) j (fun r j' => entered_as q p ev w j r j').
Proof.
  intros E N P. unfold with_pipeline. cbn [GetPipeline m_pPipeline wp bind]. unfold entered_as. cbv zeta. rewrite E. cbn [mapped ostate oworld otrace oval].
  split; [apply grows_refl, P|]. split; [reflexivity|]. split; [reflexivity|]. split; [reflexivity|]. split; [reflexivity|].
  unfold delivered. cbn [fst snd only_code code]. rewrite N. auto.
Qed.

(** The methods that put a value. *)
Lemma getter_rule {A B} q (op : PM B) (g : B -> ErrCode * A) (region : A -> jcall unit) v l id n p ev w j :
  performs q = mapped (fun r => with_value v (g r)) op -> array_of q = Some (Some l) ->
  attached j = true -> pending j = false -> locals j !! l = Some (JArray id n) ->
  (forall x, wp (put_first (region x)) j (fun r j' => grows j j' /\ globals j' = globals j /\ put_into (object_of j (Some l)) (v x) (java_calls j) r (java_calls j'))) ->
  wp (with_pipeline (Some (mkMedia (Some p) ev)) w op (fun r => hand_over region (g r))) j (fun r j' => entered_as q p ev w j r j').
Proof.
  intros E Q A0 P L H. unfold with_pipeline. cbn [GetPipeline m_pPipeline]. apply jwp_bind.
  eapply jwp_mono; [apply (hand_over_rule region v (g (oval (op p w))) l id n j H A0 P L q Q)|].
  cbn beta. intros c j' (G & E' & D). cbn [wp]. unfold entered_as. cbv zeta. rewrite E. cbn [mapped ostate oworld otrace oval media_after world_after seen code].
  split_and!; auto.
Qed.

Lemma enter_rule q p ev w j : attached j = true -> pending j = false -> array_ok j q ->
  wp (enter q (Some (mkMedia (Some p) ev)) w) j (fun r j' => entered_as q p ev w j r j').
Proof.
  intros A P K. destruct q; cbn [enter].
  all: try (unshelve eapply plain_rule; [reflexivity|reflexivity|exact P]).
  all: destruct (K _ eq_refl) as (l & id & n & -> & L).
  all: pose proof (fun r v H B => put_first_rule r l id n v j H B A P L) as R.
  - apply (getter_rule (RGetRate (Some l)) GetRate (fun r => r) (put_float (Some l)) VFloat l id n); auto.
  - apply (getter_rule (RGetTime (Some l)) GetStreamTime (fun r => r) (put_double (Some l)) VDouble l id n); auto.
  - apply (getter_rule (RGetDuration (Some l)) GetDuration (fun r => r) (put_double (Some l)) VDouble l id n); auto.
  - apply (getter_rule (RGetVolume initial (Some l)) GetVolume (or_else initial) (put_float (Some l)) VFloat l id n); auto.
  - apply (getter_rule (RGetBalance initial (Some l)) GetBalance (or_else initial) (put_float (Some l)) VFloat l id n); auto.
  - apply (getter_rule (RGetDelay initial (Some l)) GetAudioSyncDelay (or_else initial) (put_long (Some l)) VLong l id n); auto.
Qed.

Lemma array_ok_grows j j' q : grows j j' -> array_ok j q -> array_ok j' q.
Proof.
  intros G K a Ea. destruct (K a Ea) as (l & id & n & -> & L). exists l, id, n. split; [reflexivity|].
  eapply lookup_weaken; [exact L|apply G].
Qed.
Lemma delivered_grows j j' q o b r a : grows j j' -> array_ok j q -> delivered j' (q, o) b r a -> delivered j (q, o) b r a.
Proof.
  intros G K. unfold delivered. cbn [fst snd]. destruct (array_of q) as [x|] eqn:Ea; [|auto].
  destruct (K x Ea) as (l & id & n & -> & L). rewrite (local_live j l _ L), (local_live j' l _ (lookup_weaken _ _ _ _ L (g_locals _ _ G))). auto.
Qed.

(** Their sequence is the sequence of the operations. *)
Lemma enter_all_rule j0 ev : attached j0 = true -> forall qs p w j, grows j0 j -> Forall (array_ok j0) qs ->
  wp (enter_all qs (Some (mkMedia (Some p) ev)) w) j (fun '(codes, m, w', t) j' =>
    let o := performs_all qs p w in
    grows j0 j' /\ globals j' = globals j /\
    m = Some (mkMedia (Some (ostate o)) ev) /\ w' = oworld o /\ t = otrace o /\
    chained (delivered j0) (zip qs (oval o)) codes (java_calls j) (java_calls j') /\ length (oval o) = length qs).
Proof.
  intros A. induction qs as [|q qs IH]; intros p w j G F; cbn [enter_all].
  { cbn [wp performs_all ret ostate oworld otrace oval zip chained]. cbv zeta. split_and!; auto. }
  inversion F as [|? ? K Ks]; subst. apply jwp_bind. eapply jwp_mono.
  { apply (enter_rule q p ev w j); [rewrite (g_attached _ _ G); exact A|apply G|eapply array_ok_grows; eassumption]. }
  cbn beta. intros r j1 (G1 & E1 & M1 & W1 & T1 & D1). rewrite M1, W1. apply jwp_bind.
  eapply jwp_mono; [apply (IH (ostate (performs q p w)) (oworld (performs q p w)) j1); [eapply grows_trans; eassumption|exact Ks]|].
  cbn beta. intros [[[codes m] w'] t] j2. cbv zeta. intros (G2 & E2 & M2 & W2 & T2 & D2 & L2).
  cbn [wp performs_all]. unfold Effects.bind, ret. cbv zeta. cbn [ostate oworld otrace oval zip chained length].
  split; [exact G2|]. split; [congruence|]. split; [exact M2|]. split; [exact W2|]. split; [rewrite app_nil_r, T1, T2; reflexivity|].
  split; [|rewrite L2; reflexivity]. exists (java_calls j1). split; [exact (delivered_grows _ _ _ _ _ _ _ G K D1)|exact D2].
Qed.

Lemma chained_length {X Y} (R : X -> list java_call -> Y -> list java_call -> Prop) xs : forall ys b a, chained R xs ys b a -> length ys = length xs.
Proof. induction xs as [|x xs IH]; intros [|y ys] b a; cbn; try tauto. intros (m & _ & H). f_equal. exact (IH _ _ _ H). Qed.

(** C14: A player's whole life, over any GStreamer, on a machine that hands out the
    texts of exceptions and its own pointer ([sound_machine]) and has room for a
    global reference; the event dispatcher was allocated, and the calls of Java
    behind the events that the operations send are part of the environment
    ([EventSession] has them).  What GStreamer sees is what it would see of the
    operations alone, in their order; every method returns the operation's code,
    or delivers its value into the array; the methods themselves break no rule of
    JNI and leave no exception pending, and every global reference that was taken
    is given back by [gstDispose]. *)
Theorem player_life_releases obj pMedia p s qs w j : sound_machine -> globals_available = true ->
  attached j = true -> pending j = false -> live j obj = true -> statics_ok s -> Forall (array_ok j) qs ->
  wp (player_life obj pMedia p s qs w) j (fun '(c, codes, t) j' =>
    let o := life qs p w in
    grows j j' /\ globals j' = globals j /\ c = fst (oval o) /\ t = otrace o /\
    chained (delivered j) (zip qs (snd (oval o))) codes (java_calls j) (java_calls j') /\ length codes = length qs).
Proof.
  intros HM HG A P L S F. unfold player_life, gstInitPlayer. cbn [GetPipeline m_pPipeline negb]. apply jwp_bind, jwp_bind.
  eapply jwp_mono; [apply (Init_ready obj pMedia s j); assumption|].
  cbn beta. intros [d s'] j1 (G1 & C1 & V & _ & _ & (g & Eg & N & Hg & Dg) & _). cbn [wp]. apply jwp_bind. cbn [media_after world_after].
  set (o1 := Build.Init _ w). eapply jwp_mono; [apply (enter_all_rule j (Some d) A qs (ostate o1) (oworld o1) j1 G1 F)|].
  cbn beta. intros [[[codes m] w'] t] j2. cbv zeta. set (o2 := performs_all qs _ _). intros (G2 & E2 & -> & -> & -> & D2 & L2).
  unfold gstDispose. cbn [m_pPipeline events delete_events]. apply jwp_bind, jwp_bind, jwp_bind.
  eapply jwp_mono; [apply (Dispose_rule d j2); [rewrite (g_attached _ _ G2); exact A|apply G2|exact V|]|].
  { intros g' [= <-]%(eq_trans (eq_sym Eg)). rewrite E2, Hg. unfold live in L. destruct (object_of j obj); [eauto|discriminate]. }
  cbn beta. intros _ j3 [_ ->]. rewrite Eg. cbn [wp]. cbn [code seen].
  split; [destruct G2; split; auto|]. split; [cbn; rewrite E2; exact Dg|].
unfold life, Effects.bind, modify, ret. cbv zeta. cbn [ostate oworld otrace oval fst snd]. fold o1. fold o2.
  split; [reflexivity|]. split; [cbn [app]; rewrite !app_nil_r; reflexivity|]. split; [rewrite <- C1; exact D2|].
  rewrite (chained_length _ _ _ _ _ D2), length_zip_with, L2. lia.
Qed.
End Machines.
End Entries.

(** ** Without a pipeline, and after an error *)

(** Without an object or a pipeline nothing happens. *)
Lemma null_media `{Env} q w : enter q None w = Ret (mkEntered ERROR_MEDIA_NULL None w []).
Proof. destruct q; reflexivity. Qed.
Lemma null_pipeline `{Env} q w ev : enter q (Some (mkMedia None ev)) w = Ret (mkEntered ERROR_PIPELINE_NULL (Some (mkMedia None ev)) w []).
Proof. destruct q; reflexivity. Qed.

(** The two methods that do not test the pipeline. *)
Lemma equalizer_of_no_pipeline ev : gstGetAudioEqualizer (Some (mkMedia None ev)) = None /\ gstGetAudioSpectrum (Some (mkMedia None ev)) = None.
Proof. split; reflexivity. Qed.

(** After an error the getters succeed and Java gets whatever the variable
    held. *)
Theorem failed_player_values_are_garbage `{Env} v b d a p w : m_PlayerState p = Error ->
  oval (performs (RGetVolume v a) p w) = (ERROR_NONE, Some (VFloat v)) /\
  oval (performs (RGetBalance b a) p w) = (ERROR_NONE, Some (VFloat b)) /\
  oval (performs (RGetDelay d a) p w) = (ERROR_NONE, Some (VLong d)).
Proof.
  intros E. cbn [performs]. unfold mapped, GetVolume, GetBalance, GetAudioSyncDelay, IsPlayerState, Effects.enter, Effects.exit, Effects.bind, gets, call, ret. cbv zeta. cbn [oval ostate oworld otrace].
  repeat (match goal with |- context [@handle _ ?R ?c ?w] => destruct (@handle _ R c w) end; cbn [oval ostate oworld otrace]).
  rewrite E. split_and!; reflexivity.
Qed.

(** *** Executions *)

Definition one_player : jvm := mkJvm true false 0 {[ 1%positive := JObject; 2%positive := JArray 2 1; 3%positive := JArray 3 0 ]} ∅ [].
Definition some_requests : list player_request := [RPlay; RGetRate (Some 2%positive); RGetDuration (Some 3%positive); RSetVolume f_one; RPause].

Lemma player_life_releases_witness : exists c codes t j',
  run (calm no_reply []) (@player_life (nominal_env TargetLinux) (Some 1%positive) 7 (player AVPlayback Unknown) no_statics some_requests tt) one_player = Some (c, codes, t, j') /\
  globals j' = ∅ /\ c = ERROR_NONE /\ length codes = 5%nat.
Proof.
  assert (F : Forall (array_ok one_player) some_requests).
  { repeat constructor; intros a Ha; inversion Ha; subst; eexists _, _, _; split; reflexivity. }
  destruct (wp_run _ _ (calm_faithful no_reply []) _ _ (@player_life_releases (nominal_env TargetLinux) all_services (Some 1%positive) 7 (player AVPlayback Unknown) no_statics some_requests tt one_player
    all_sound eq_refl eq_refl eq_refl eq_refl ltac:(discriminate) F)) as ([[c codes] t] & j' & E & _ & G & C & _ & _ & L).
  exists c, codes, t, j'. split; [exact E|]. split; [exact G|]. split; [rewrite C; vm_compute; reflexivity|exact L].
Defined.

(** The duration does not fit into the empty array. *)
Example player_answers :
  option_map (fun '(_, codes, _, j) => (codes, map called (java_calls j)))
    (run (calm no_reply []) (@player_life (nominal_env TargetLinux) (Some 1%positive) 7 (player AVPlayback Unknown) no_statics some_requests tt) one_player) =
  Some ([ERROR_NONE; ERROR_NONE; ERROR_JNI_UNEXPECTED; ERROR_NONE; ERROR_NONE], ["SetFloatArrayRegion"%string]).
Proof. vm_compute. reflexivity. Qed.
