(* ===== verification/MediaObjects.v ===== *)
(** * Making a media object ([platform/gstreamer/GstMedia.cpp], [Locator/Locator.cpp], [MediaManagement/MediaManager.cpp])

    [InitMedia] asks the Java locator for its address and its connection, makes
    the callbacks and the native locator, has the manager make a pipeline, and
    gives Java the address of the [CMedia].  Every return of it is followed with
    what it leaves allocated. *)

From S2P Require Import Prelude CFloat MediaTypes GstApi Effects PipelineState Factory JniApi JniUtils JniRun StreamCallbacks StreamSession PlayerEntry.
Local Open Scope Z_scope.
Local Open Scope jni_scope.

(** ** The objects of the C++ side *)

Inductive native := ContentChars | LocationChars | Callbacks (audio : bool) | LocatorObject | OptionsObject | PipelineObject | MediaObject.
#[export] Instance native_eq_dec : EqDecision native.
Proof. solve_decision. Defined.

(** What is allocated; [None] once something is freed that is not. *)
Definition store := option (list native).
Definition made (n : native) (h : store) : store := option_map (cons n) h.
Fixpoint without_first (n : native) (l : list native) : option (list native) :=
  match l with
  | [] => None
  | m :: l => if decide (m = n) then Some l else option_map (cons m) (without_first n l)
  end.
Definition freed (n : native) (h : store) : store := h ≫= without_first n.

(** ** Singletons ([Utils/Singleton.h]) *)

(** [GetInstance]: the error, and whether there is an instance afterwards. *)
Definition GetInstance (instance : bool) (CreateInstance : ErrCode * bool) : ErrCode * bool :=
  if instance then (ERROR_NONE, true) else CreateInstance.
(** The manager: whether there is memory, and what [CGstMediaManager::Init]
    returns. *)
Definition create_manager (memory : bool) (init : ErrCode) : ErrCode * bool :=
  if negb memory then (ERROR_MEMORY_ALLOCATION, false)
  else if decide (init = ERROR_NONE) then (ERROR_NONE, true) else (ERROR_MANAGER_CREATION, false).
Definition create_factory (memory : bool) : ErrCode * bool :=
  if memory then (ERROR_NONE, true) else (ERROR_MEMORY_ALLOCATION, false).

(** ** The Java locator *)

(** The functions of [CLocator] that call a method of the Java object, with the
    identifier that they keep; [failed] clears an exception or reports it. *)
Definition call_locator (failed : prog bool) (name sig : string) (mid : jmethodID) (locator : ref) (args : list jarg) : prog (ref * jmethodID) :=
  if negb (nonnull locator) then Ret (None, mid)
  else
    let call mid :=
      (let* result := jni (CallObjectMethod locator mid args) in
       let* e := failed in
       Ret (if e then None else result, mid)) in
    if nonnull mid then call mid
    else
      let* klass := jni (GetObjectClass locator) in
      let* mid := jni (GetMethodID klass name sig) in
      jni (DeleteLocalRef klass) ;;
      let* e := failed in
      if e || negb (nonnull mid) then Ret (None, mid) else call mid.

Definition string_sig : string := "()Ljava/lang/String;".
Definition holder_sig : string := "()Lcom/sun/media/jfxmedia/locator/ConnectionHolder;".
Definition audio_sig : string := "(Lcom/sun/media/jfxmedia/locator/ConnectionHolder;)Lcom/sun/media/jfxmedia/locator/ConnectionHolder;".
Definition LocatorGetStringLocation (mid : jmethodID) (locator : ref) : prog (ref * jmethodID) :=
  call_locator (clearException true) "getStringLocation" string_sig mid locator [].
Definition CreateConnectionHolder (mid : jmethodID) (locator : ref) : prog (ref * jmethodID) :=
  call_locator (reportException true) "createConnectionHolder" holder_sig mid locator [].
Definition GetAudioStreamConnectionHolder (mid : jmethodID) (locator connectionHolder : ref) : prog (ref * jmethodID) :=
  if negb (nonnull connectionHolder) then Ret (None, mid)
  else call_locator (reportException true) "getAudioStreamConnectionHolder" audio_sig mid locator [AObject connectionHolder].

(** The identifiers and instances that the library keeps. *)
Record kept := mkKept {
  mid_GetStringLocation : jmethodID; mid_CreateConnectionHolder : jmethodID; mid_GetAudioStreamConnectionHolder : jmethodID;
  stream : stream_ids; manager : bool; the_factory : bool }.
#[export] Instance eta_kept : Eta kept :=
  eta_ap (eta_ap (eta_ap (eta_ap (eta_ap (eta_ap (eta_pure mkKept) mid_GetStringLocation) mid_CreateConnectionHolder)
    mid_GetAudioStreamConnectionHolder) stream) manager) the_factory.
Definition nothing_kept : kept := mkKept None None None no_ids false false.
(** [m_jvm] has no initialiser; it is read after [GetJavaVM], which sets it. *)
Definition new_callbacks : callbacks := mkCallbacks false None.
Definition HLS_PROP_HAS_AUDIO_EXT_STREAM : Z := 6.

Section Media.
Context `{EV : Env}.

(** Which allocations succeed, what the manager's [Init] returns, the address of
    the new object, and the fields without initialisers of a new pipeline. *)
Variables (memory : native -> bool) (manager_memory factory_memory : bool) (manager_init : ErrCode) (address : Z) (resume0 : bool) (probe0 : Z).

(** ** The manager *)

(** [CMediaManager::CreatePlayer], without options. *)
Record created := mkCreated { uRetCode : ErrCode; ppMedia : option CMedia; has_factory : bool; heap : store; world_then : world; made_of : list obs }.
Definition CreatePlayer (pLocator : CLocator) (factory_there : bool) (h : store) (w : world) : created :=
  let '(e, factory_there) := GetInstance factory_there (create_factory factory_memory) in
  if decide (e <> ERROR_NONE) then mkCreated e None factory_there h w []
  else if negb factory_there then mkCreated ERROR_FACTORY_NULL None factory_there h w []
  else if negb (memory OptionsObject) then mkCreated ERROR_MEMORY_ALLOCATION None factory_there h w []
  else
    let h := made OptionsObject h in
    let o := CreatePlayerPipeline resume0 probe0 (Some pLocator) true false (mkFactory (new_CPipelineOptions kSingleSourcePipeline) ∅) w in
    let '(e, pPipeline) := match oval o with inl e => (e, None) | inr p => (ERROR_NONE, Some p) end in
    let h := if nonnull pPipeline then made PipelineObject h else h in
    if decide (e <> ERROR_NONE) then mkCreated e None factory_there h (oworld o) (otrace o)
    else if memory MediaObject then mkCreated ERROR_NONE (Some (mkMedia pPipeline None)) factory_there (made MediaObject h) (oworld o) (otrace o)
    else mkCreated ERROR_MEDIA_CREATION None factory_there (if nonnull pPipeline then freed OptionsObject (freed PipelineObject h) else h) (oworld o) (otrace o).

(** ** [InitMedia] *)

Record loaded := mkLoaded { returned_code : ErrCode; handle_of : option CMedia; objects : store; kept_then : kept; world_later : world; loading : list obs }.

Definition leave (e : ErrCode) (k : kept) (h : store) (w : world) : prog loaded := Ret (mkLoaded e None h k w []).

(** From the call of the manager to the end. *)
Definition create_media (locator : CLocator) (jlMediaHandle : ref) (k : kept) (h : store) (w : world) : prog loaded :=
  let c := CreatePlayer locator (the_factory k) h w in
  let k := k <| the_factory := has_factory c |> in
  let* '(uErrCode, pMedia, h) :=
    (if decide (uRetCode c = ERROR_NONE) then
       if CMedia_IsValid (ppMedia c) then put_first (SetLongArrayRegion jlMediaHandle [address]) ;; Ret (ERROR_NONE, ppMedia c, heap c)
       else Ret (ERROR_MEDIA_INVALID, ppMedia c, heap c)
     else Ret (uRetCode c, ppMedia c, heap c)) in
  let h := freed LocatorObject h in
  let h := if decide (uErrCode <> ERROR_NONE) then if nonnull pMedia then freed MediaObject h else h else h in
  Ret (mkLoaded uErrCode (if decide (uErrCode = ERROR_NONE) then pMedia else None) h k (world_then c) (made_of c)).

(** From the native locator on; [c] are the callbacks, [locator] is what it is
    made of. *)
Definition load_streams (locator : CLocator) (c : callbacks) (jLocator jConnectionHolder jlMediaHandle : ref) (k : kept) (h : store) (w : world) : prog loaded :=
  let* hasAudioStream := Property c (stream k) HLS_PROP_HAS_AUDIO_EXT_STREAM 0 in
  if hasAudioStream =? 0 then create_media locator jlMediaHandle k h w
  else
    let h := if memory (Callbacks true) then made (Callbacks true) h else h in
    let* '(jAudioStreamConnectionHolder, mid) := GetAudioStreamConnectionHolder (mid_GetAudioStreamConnectionHolder k) jLocator jConnectionHolder in
    let k := k <| mid_GetAudioStreamConnectionHolder := mid |> in
    if negb (memory (Callbacks true)) || negb (nonnull jAudioStreamConnectionHolder) then
      leave ERROR_MEMORY_ALLOCATION k (freed LocatorObject (freed (Callbacks false) h)) w
    else
      let* '(ok, _, s) := stream_init jAudioStreamConnectionHolder new_callbacks (stream k) in
      let k := k <| stream := s |> in
      if negb ok then leave ERROR_MEDIA_CREATION k (freed LocatorObject (freed (Callbacks true) (freed (Callbacks false) h))) w
      else create_media (mkLocator (loc_stream locator) (loc_contentType locator) (loc_location locator) (loc_sizeHint locator) (loc_callbacks locator) true) jlMediaHandle k h w.

(** From the two strings on. *)
Definition connect (content location : string) (jLocator jContentType jLocation : ref) (jSizeHint : Z) (jlMediaHandle : ref) (k : kept) (h : store) (w : world) : prog loaded :=
  let h := if memory (Callbacks false) then made (Callbacks false) h else h in
  let* '(jConnectionHolder, mid) := CreateConnectionHolder (mid_CreateConnectionHolder k) jLocator in
  let k := k <| mid_CreateConnectionHolder := mid |> in
  if negb (memory (Callbacks false)) || negb (nonnull jConnectionHolder) then leave ERROR_MEMORY_ALLOCATION k h w
  else
    let* '(ok, c, s) := stream_init jConnectionHolder new_callbacks (stream k) in
    let k := k <| stream := s |> in
    jni (ReleaseStringUTFChars jContentType) ;;
    jni (ReleaseStringUTFChars jLocation) ;;
    let h := freed LocationChars (freed ContentChars h) in
    if negb ok then leave ERROR_MEDIA_CREATION k (freed (Callbacks false) h) w
    else if negb (memory LocatorObject) then leave ERROR_MEMORY_ALLOCATION k (freed (Callbacks false) h) w
    else load_streams (mkLocator true content location jSizeHint true false) c jLocator jConnectionHolder jlMediaHandle k (made LocatorObject h) w.

Definition InitMedia (jLocator jContentType : ref) (jSizeHint : Z) (jlMediaHandle : ref) (k : kept) (w : world) : prog loaded :=
  let* pjContent := jni (GetStringUTFChars jContentType) in
  let h := if nonnull pjContent then made ContentChars (Some []) else Some [] in
  let* '(jLocation, mid) := LocatorGetStringLocation (mid_GetStringLocation k) jLocator in
  let k := k <| mid_GetStringLocation := mid |> in
  let '(uErrCode, instance) := GetInstance (manager k) (create_manager manager_memory manager_init) in
  let k := k <| manager := instance |> in
  if decide (uErrCode <> ERROR_NONE) then leave uErrCode k h w
  else
    match pjContent with
    | None => leave ERROR_MEMORY_ALLOCATION k h w
    | Some content =>
        if negb (nonnull jLocation) then leave ERROR_MEMORY_ALLOCATION k h w
        else
          let* pjLocation := jni (GetStringUTFChars jLocation) in
          match pjLocation with
          | None => jni (ReleaseStringUTFChars jContentType) ;; leave ERROR_MEMORY_ALLOCATION k (freed ContentChars h) w
          | Some location =>
              let h := made LocationChars h in
              if negb instance then
                jni (ReleaseStringUTFChars jContentType) ;; jni (ReleaseStringUTFChars jLocation) ;;
                leave ERROR_MANAGER_NULL k (freed LocationChars (freed ContentChars h)) w
              else connect content location jLocator jContentType jLocation jSizeHint jlMediaHandle k h w
          end
    end.
End Media.

(** ** What is left *)

(** The callbacks stay until the source element closes the connection. *)
Definition streams (audio : bool) : list native := if audio then [Callbacks true; Callbacks false] else [Callbacks false].

(** The returns of [InitMedia] and what each leaves allocated.  Beyond what the
    player uses, the strings stay when there is no manager, no address or no
    connection; callbacks when there is no connection, no audio connection or
    no player; and the options when the pipeline cannot be built. *)
Inductive leaves : ErrCode -> list native -> Prop :=
| no_manager e : e <> ERROR_NONE -> leaves e [ContentChars]
| no_address : leaves ERROR_MEMORY_ALLOCATION [ContentChars]
| no_connection : leaves ERROR_MEMORY_ALLOCATION [Callbacks false; LocationChars; ContentChars]
| no_callbacks : leaves ERROR_MEMORY_ALLOCATION [LocationChars; ContentChars]
| no_init : leaves ERROR_MEDIA_CREATION []
| no_locator : leaves ERROR_MEMORY_ALLOCATION []
| no_audio_connection : leaves ERROR_MEMORY_ALLOCATION [Callbacks true]
| no_audio_callbacks : leaves ERROR_MEMORY_ALLOCATION []
| no_player e audio : e <> ERROR_NONE -> leaves e (streams audio)
| no_pipeline e audio : e <> ERROR_NONE -> leaves e (OptionsObject :: streams audio)
| media_made audio : leaves ERROR_NONE (MediaObject :: PipelineObject :: OptionsObject :: streams audio).

(** The identifiers that are kept are the right ones. *)
Definition cached (name sig : string) (mid : jmethodID) : Prop := mid = None \/ mid = Some (name, sig).
Definition kept_ok (k : kept) : Prop :=
  cached "getStringLocation" string_sig (mid_GetStringLocation k) /\
  cached "createConnectionHolder" holder_sig (mid_CreateConnectionHolder k) /\
  cached "getAudioStreamConnectionHolder" audio_sig (mid_GetAudioStreamConnectionHolder k) /\
  ids_ok (stream k).

(** The thread of the native method goes on; its local references are given
    back when the method returns. *)
Record goes_on (j j' : jvm) : Prop := mkGoes {
  go_attached : attached j' = attached j; go_pending : pending j' = false; go_locals : locals j ⊆ locals j' }.

Section Machines.
Context `{MACHINE : Machine}.

Lemma goes_refl j : pending j = false -> goes_on j j.
Proof. intros P. split; auto. Qed.
Lemma goes_trans j j1 j2 : goes_on j j1 -> goes_on j1 j2 -> goes_on j j2.
Proof. intros [A P L] [A' P' L']. split; [congruence|exact P'|etransitivity; eassumption]. Qed.
Lemma goes_grows j j' : grows j j' -> goes_on j j'.
Proof. intros []. split; auto. Qed.
Lemma goes_settles j j' : attached j = true -> settles j j' -> goes_on j j'.
Proof. intros A [A' P _ L]. rewrite A in L. split; tauto. Qed.

(** Clearing an exception, one way or the other. *)
Definition clears (failed : prog bool) : Prop := forall j, attached j = true ->
  wp failed j (fun e j' => e = pending j /\ goes_on j j').
Lemma clear_clears : clears (clearException true).
Proof. intros j A. apply clearException_rule; [exact A|]. split; [reflexivity|]. split; auto. Qed.
Lemma report_clears : text_available = true -> clears (reportException true).
Proof.
  intros HT j A. apply reportException_rule; [exact HT|exact A|]. destruct (pending j) eqn:P; [|split; [reflexivity|apply goes_refl, P]].
  intros j' [H1 H2 H3 H4 H5 H6 H7]. split; [reflexivity|]. split; auto.
Qed.

(** What a method of the locator returned, as a local reference. *)
Definition located (sig : string) (j : jvm) (r : ref) : Prop :=
  r = None \/ exists l, r = Some l /\ if returns_string (Some ("", sig)%string) then exists s, locals j !! l = Some (JString s) else locals j !! l = Some JObject.

Lemma call_locator_rule failed name sig mid l x args j : clears failed -> cached name sig mid ->
  attached j = true -> pending j = false -> locals j !! l = Some x ->
  matches sig args TObject = true -> (forall j', goes_on j j' -> forallb (arg_live j') args = true) ->
  wp (call_locator failed name sig mid (Some l) args) j (fun '(r, mid') j' => goes_on j j' /\ cached name sig mid' /\ located sig j' r).
Proof.
  intros HF HC A P L M V. unfold call_locator. cbn [nonnull negb].
  assert (K : forall j1, goes_on j j1 ->
    wp (let* result := jni (CallObjectMethod (Some l) (Some (name, sig)) args) in let* e := failed in Ret (if e then None else result, Some (name, sig))) j1
      (fun '(r, mid') j' => goes_on j j' /\ cached name sig mid' /\ located sig j' r)).
  { intros j1 G. cbn [wp bind jni]. split.
    { unfold allowed, live. rewrite (go_attached _ _ G), A, (go_pending _ _ G), (local_live j1 l x), (V j1 G) by (eapply lookup_weaken; [exact L|apply G]).
      cbn [method_ok kind_type andb]. rewrite M. reflexivity. }
    intros r j2 H.
    assert (H2 : attached j2 = true /\ locals j1 ⊆ locals j2 /\ (pending j2 = true \/ pending j2 = false /\ located sig j2 r)).
    { destruct H as [H| ->]; [|split; [cbn; rewrite (go_attached _ _ G); exact A|split; [reflexivity|left; reflexivity]]].
      unfold returned in H. change (returns_string (Some (name, sig))) with (returns_string (Some ("", sig)%string)) in H. unfold located.
      destruct (returns_string (Some ("", sig)%string));
        [destruct H as [(s & y & F & -> & ->)|(_ & -> & ->)] | destruct H as [[-> ->]|(y & F & -> & ->)]];
        (split; [cbn; rewrite (go_attached _ _ G); exact A|]); (split; [first [apply insert_subseteq, F|reflexivity]|]); right; (split; [apply G|]);
        first [left; reflexivity|right; eexists; split; [reflexivity|]; try eexists; apply lookup_insert_eq]. }
    destruct H2 as (A2 & S2 & B). apply jwp_bind. eapply jwp_mono; [apply HF, A2|]. cbn beta. intros e j3 [-> G3]. cbn [wp].
    split; [eapply goes_trans; [exact G|]; split; [rewrite (go_attached _ _ G3), A2, (go_attached _ _ G), A; reflexivity|apply G3|etransitivity; [exact S2|apply G3]]|].
    split; [right; reflexivity|]. destruct B as [-> |[-> B]]; [left; reflexivity|].
    destruct B as [->|(y & -> & B)]; [left; reflexivity|right]. exists y. split; [reflexivity|].
    destruct (returns_string _); [destruct B as [s B]; exists s|]; eapply lookup_weaken; try apply G3; exact B. }
  destruct HC as [->|E]; [|rewrite E; apply K, goes_refl, P]. cbn [nonnull wp bind jni].
  pose proof (local_live j l x L) as O. split; [unfold allowed, live; rewrite A, P, O; reflexivity|].
  intros k j1 (cls & y & F & -> & ->). split; [unfold allowed, live, object_of; cbn; rewrite A, P, lookup_insert_eq; reflexivity|].
  intros mid j2 H2.
  assert (E2 : attached j2 = true /\ locals j2 = <[y := JClass cls]> (locals j) /\ (mid = Some (name, sig) /\ pending j2 = false \/ mid = None /\ pending j2 = true)).
  { destruct H2 as [[-> ->]|[-> ->]]; cbn; auto. }
  destruct E2 as (A2 & L2 & B). split; [unfold allowed, is_local; rewrite A2, L2, lookup_insert_eq; reflexivity|].
  intros [] j3 E3. cbn in E3. subst j3. rewrite L2, delete_insert_id by apply F. apply jwp_bind.
  eapply jwp_mono; [apply HF; exact A2|]. cbn beta. intros e j3 [-> G3].
  assert (G : goes_on j j3) by (split; [rewrite (go_attached _ _ G3); cbn; congruence|apply G3|apply G3]). cbn [pending with_locals].
  destruct B as [[-> ->]|[-> ->]]; cbn [orb negb nonnull]; [apply K, G|]. cbn [wp]. split; [exact G|]. split; left; reflexivity.
Qed.

(** ** The returns, from the last to the first *)

Context `{EV : Env}.
Variables (memory : native -> bool) (manager_memory factory_memory : bool) (manager_init : ErrCode) (address : Z) (resume0 : bool) (probe0 : Z).
Hypothesis (HT : sound_machine).

(** The media is playable: its pipeline has what a player needs. *)
Definition ready_to_play (content : string) (m : option CMedia) : Prop :=
  exists p, m = Some (mkMedia (Some p) None) /\ has_all (required_roles (klass p)) (m_Elements p) /\ m_PlayerState p = Unknown /\
    m_ContentType (m_pOptions p) = content /\ playable content = true.

(** What [CreatePlayer] leaves on the heap [l]. *)
Lemma CreatePlayer_spec loc there l w :
  let c := CreatePlayer memory factory_memory resume0 probe0 loc there (Some l) w in
  (uRetCode c <> ERROR_NONE /\ ppMedia c = None /\ (heap c = Some l \/ heap c = Some (OptionsObject :: l))) \/
  (uRetCode c = ERROR_NONE /\ ((ppMedia c = Some (mkMedia None None) /\ heap c = Some (MediaObject :: OptionsObject :: l)) \/
    (ready_to_play (loc_contentType loc) (ppMedia c) /\ heap c = Some (MediaObject :: PipelineObject :: OptionsObject :: l)))).
Proof.
  unfold CreatePlayer. destruct (GetInstance there _) as [e there'].
  destruct (decide (e <> ERROR_NONE)) as [N|_]; [left; cbn; auto|]. destruct there'; cbn [negb]; [|left; cbn; split; [discriminate|auto]].
  destruct (memory OptionsObject); cbn [negb]; [|left; cbn; split; [discriminate|auto]].
  pose proof (CreatePlayerPipeline_spec resume0 probe0 loc true false (mkFactory (new_CPipelineOptions kSingleSourcePipeline) ∅) w) as S. cbn beta in S.
  destruct (oval _) as [e'|p]; cbn [nonnull]; destruct (decide _) as [N|N]; try (left; cbn; auto; fail); try congruence.
  all: destruct (memory MediaObject); cbn; [right; split; [reflexivity|]|left; split; [discriminate|auto]].
  - left. auto.
  - right. split; [|reflexivity]. exists p. split; [reflexivity|]. exact S.
Qed.

(** What holds when [InitMedia] returns. *)
Definition loads (content : string) (jh : positive) (id : positive) (n : nat) (j : jvm) (r : loaded) (j' : jvm) : Prop :=
  goes_on j j' /\ kept_ok (kept_then r) /\ (exists left, objects r = Some left /\ leaves (returned_code r) left) /\
  if decide (returned_code r = ERROR_NONE) then
    ready_to_play content (handle_of r) /\
    exists before, java_calls j' = before ++ [mkCall "SetLongArrayRegion" [VObject (Some (JArray id (S n))); VLong address] (Some 0)]
  else handle_of r = None.

Lemma loads_goes content jh id n j j1 r j' : goes_on j j1 -> loads content jh id n j1 r j' -> loads content jh id n j r j'.
Proof. intros G [G' H]. split; [eapply goes_trans; eassumption|exact H]. Qed.

Lemma leave_rule content jh id n e k l w j : e <> ERROR_NONE -> pending j = false -> kept_ok k -> leaves e l ->
  wp (leave e k (Some l) w) j (loads content jh id n j).
Proof.
  intros N P K L. cbn [leave wp]. unfold loads. cbn [kept_then objects returned_code handle_of].
  split; [apply goes_refl, P|]. split; [exact K|]. split; [eauto|]. destruct (decide _); [contradiction|reflexivity].
Qed.

Lemma create_media_rule loc audio jh id n k l w j : attached j = true -> pending j = false -> kept_ok k ->
  locals j !! jh = Some (JArray id (S n)) -> without_first LocatorObject l = Some (streams audio) ->
  wp (create_media memory factory_memory address resume0 probe0 loc (Some jh) k (Some l) w) j (loads (loc_contentType loc) jh id n j).
Proof using.
  clear HT. intros A P K L W. unfold create_media. pose proof (CreatePlayer_spec loc (the_factory k) l w) as S. cbv zeta in S.
  set (c := CreatePlayer _ _ _ _ _ _ _ _) in *. set (k' := k <| the_factory := has_factory c |>). assert (K' : kept_ok k') by exact K.
  destruct S as [(N & M & H)|(N & [[M H]|[R H]])].
  - destruct (decide (uRetCode c = ERROR_NONE)); [contradiction|]. cbn [wp bind]. rewrite M. unfold loads. cbn [kept_then objects returned_code handle_of nonnull].
    split; [apply goes_refl, P|]. split; [exact K'|]. split.
    + rewrite decide_True by exact N. destruct H as [H|H]; rewrite H; cbn; rewrite W; eexists; (split; [reflexivity|]); constructor; exact N.
    + rewrite decide_False by exact N. destruct (decide _); reflexivity.
  - rewrite decide_True by exact N. rewrite M, H. cbn [CMedia_IsValid nonnull m_pPipeline wp bind]. unfold loads. cbn. rewrite W. cbn.
    split; [apply goes_refl, P|]. split; [exact K'|]. split; [eexists; split; [reflexivity|]|reflexivity]. apply no_pipeline. discriminate.
  - rewrite decide_True by exact N. pose proof R as (p & M & _). rewrite H, M. cbn [CMedia_IsValid nonnull m_pPipeline]. apply jwp_bind, jwp_bind.
    eapply jwp_mono; [apply (put_first_rule (SetLongArrayRegion (Some jh) [address]) jh id (S n) (VLong address) j); auto|].
    cbn beta. intros _c j1 (G & _ & Pu). cbn [wp]. unfold loads. cbn. rewrite W. cbn.
    split; [apply goes_grows, G|]. split; [exact K'|]. split; [eexists; split; [reflexivity|]; apply (media_made audio)|].
    split; [rewrite <- M; exact R|]. rewrite (local_live j jh _ L) in Pu. destruct Pu as [_ Pu]. eauto.
Qed.

(** The Java side as a native method finds it: a locator, its content type and
    an array for the handle. *)
Record arguments (lo jh id : positive) (n : nat) (j : jvm) : Prop := mkArguments {
  a_attached : attached j = true;
  a_pending : pending j = false;
  a_locator : locals j !! lo = Some JObject;
  a_handle : locals j !! jh = Some (JArray id (S n)) }.
Lemma arguments_go lo jh id n j j' : goes_on j j' -> arguments lo jh id n j -> arguments lo jh id n j'.
Proof.
  intros [A P L] [A' P' O H]. split; [congruence|exact P| |]; eapply lookup_weaken; eassumption.
Qed.

Lemma streams_init_rule holder l c s j : attached j = true -> pending j = false -> ids_ok s -> holder = Some l -> is_Some (locals j !! l) ->
  wp (stream_init holder c s) j (fun '(ok, c', s') j' => goes_on j j' /\ ids_ok s' /\ (ok = true -> stream_ready c' s' j')).
Proof.
  intros A P I -> [x L]. eapply jwp_mono; [apply stream_init_ready; auto|].
  { unfold live_or_null, live. rewrite (local_live j l x L). reflexivity. }
  intros [[ok c'] s'] j' (G & _ & I' & R). split; [apply goes_grows, G|]. split; [exact I'|]. intros ->. apply R.
Qed.

Lemma load_streams_rule loc c lo hc jh id n k w j : arguments lo jh id n j -> kept_ok k -> stream_ready c (stream k) j ->
  locals j !! hc = Some JObject ->
  wp (load_streams memory factory_memory address resume0 probe0 loc c (Some lo) (Some hc) (Some jh) k (Some [LocatorObject; Callbacks false]) w) j
    (loads (loc_contentType loc) jh id n j).
Proof using HT.
  intros J K R H. unfold load_streams. apply jwp_bind.
  eapply jwp_mono; [apply (requests_served_rule c (stream k) j (QProperty HLS_PROP_HAS_AUDIO_EXT_STREAM 0)); auto|].
  { split; [apply J|]. rewrite (a_attached _ _ _ _ _ J). discriminate. }
  cbn beta. intros v j1 (S & _ & _). apply goes_settles in S; [|apply J]. pose proof (arguments_go _ _ _ _ _ _ S J) as J1.
  eapply jwp_mono; [|intros r j'; apply (loads_goes _ _ _ _ _ _ _ _ S)]. pose proof J1 as [A1 P1 O1 L1].
  assert (H1 : locals j1 !! hc = Some JObject) by (eapply lookup_weaken; [exact H|apply S]).
  destruct (v =? 0); [apply (create_media_rule loc false); auto|]. unfold GetAudioStreamConnectionHolder. cbn [nonnull negb]. apply jwp_bind.
  destruct K as (K1 & K2 & K3 & K4).
  eapply jwp_mono; [apply (call_locator_rule _ _ _ _ lo JObject _ j1 (report_clears (proj1 HT)) K3); auto|].
  { intros j' G. cbn [forallb arg_live]. unfold live_or_null, live. rewrite (local_live j' hc JObject); [reflexivity|]. eapply lookup_weaken; [exact H1|apply G]. }
  cbn beta. intros [r mid] j2 (G2 & C2 & E2). pose proof (arguments_go _ _ _ _ _ _ G2 J1) as J2.
  eapply jwp_mono; [|intros r' j'; apply (loads_goes _ _ _ _ _ _ _ _ G2)].
  set (k' := k <| mid_GetAudioStreamConnectionHolder := mid |>).
  assert (K' : kept_ok k') by (unfold kept_ok; subst k'; simpl_set; auto).
  destruct (memory (Callbacks true)); cbn [negb orb].
  2:{ apply leave_rule; [discriminate|apply J2|exact K'|]. apply no_audio_callbacks. }
  destruct E2 as [->|(a & -> & E2)]; cbn [nonnull negb].
  { apply leave_rule; [discriminate|apply J2|exact K'|]. apply no_audio_connection. }
  apply jwp_bind. eapply jwp_mono; [apply (streams_init_rule _ a); [apply J2|apply J2|apply K'|reflexivity|exact (ex_intro _ _ E2)]|].
  intros [[ok c'] s'] j3 (G3 & I3 & _). pose proof (arguments_go _ _ _ _ _ _ G3 J2) as J3.
  eapply jwp_mono; [|intros r' j'; apply (loads_goes _ _ _ _ _ _ _ _ G3)].
  assert (K'' : kept_ok (k' <| stream := s' |>)) by (destruct K' as (? & ? & ? & ?); unfold kept_ok; simpl_set; auto).
  destruct ok; cbn [negb].
  - apply (create_media_rule (mkLocator (loc_stream loc) (loc_contentType loc) (loc_location loc) (loc_sizeHint loc) (loc_callbacks loc) true) true); auto; apply J3.
  - apply leave_rule; [discriminate|apply J3|exact K''|]. apply no_init.
Qed.

Lemma connect_rule content location lo ct lc hint jh id n k w j : arguments lo jh id n j -> kept_ok k ->
  locals j !! ct = Some (JString content) -> locals j !! lc = Some (JString location) ->
  wp (connect memory factory_memory address resume0 probe0 content location (Some lo) (Some ct) (Some lc) hint (Some jh) k (Some [LocationChars; ContentChars]) w) j
    (loads content jh id n j).
Proof using HT.
  intros J K Hct Hlc. unfold connect. apply jwp_bind. destruct K as (K1 & K2 & K3 & K4).
  eapply jwp_mono; [apply (call_locator_rule _ _ _ _ lo JObject _ j (report_clears (proj1 HT)) K2); auto; apply J|].
  cbn beta. intros [r mid] j1 (G1 & C1 & E1). pose proof (arguments_go _ _ _ _ _ _ G1 J) as J1.
  eapply jwp_mono; [|intros r' j'; apply (loads_goes _ _ _ _ _ _ _ _ G1)].
  set (k' := k <| mid_CreateConnectionHolder := mid |>).
  assert (K' : kept_ok k') by (unfold kept_ok; subst k'; simpl_set; auto).
  destruct (memory (Callbacks false)); cbn [negb orb].
  2:{ apply leave_rule; [discriminate|apply J1|exact K'|]. apply no_callbacks. }
  destruct E1 as [->|(a & -> & E1)]; cbn [nonnull negb].
  { apply leave_rule; [discriminate|apply J1|exact K'|]. apply no_connection. }
  apply jwp_bind. eapply jwp_mono; [apply (streams_init_rule _ a); [apply J1|apply J1|apply K'|reflexivity|exact (ex_intro _ _ E1)]|].
  intros [[ok c'] s'] j2 (G2 & I2 & R2). pose proof (arguments_go _ _ _ _ _ _ G2 J1) as J2.
  eapply jwp_mono; [|intros r' j'; apply (loads_goes _ _ _ _ _ _ _ _ G2)].
  assert (K'' : kept_ok (k' <| stream := s' |>)) by (destruct K' as (? & ? & ? & ?); unfold kept_ok; simpl_set; auto).
  assert (S : forall l t, locals j !! l = Some (JString t) -> is_string j2 (Some l) = true).
  { intros l t L. unfold is_string. rewrite (local_live j2 l (JString t)); [reflexivity|]. eapply lookup_weaken; [exact L|]. etransitivity; [apply G1|apply G2]. }
  cbn [wp bind jni]. split; [unfold allowed; rewrite (a_attached _ _ _ _ _ J2), (S _ _ Hct); reflexivity|]. intros [] j3 E3. cbn in E3. subst j3.
  cbn [wp bind jni]. split; [unfold allowed; rewrite (a_attached _ _ _ _ _ J2), (S _ _ Hlc); reflexivity|]. intros [] j3 E3. cbn in E3. subst j3.
  destruct ok; cbn [negb].
  2:{ apply leave_rule; [discriminate|apply J2|exact K''|]. apply no_init. }
  destruct (memory LocatorObject); cbn [negb].
  2:{ apply leave_rule; [discriminate|apply J2|exact K''|]. apply no_locator. }
  apply (load_streams_rule (mkLocator true content location hint true false)); [exact J2|exact K''|exact (R2 eq_refl)|].
  eapply lookup_weaken; [exact E1|apply G2].
Qed.

(** C15: Making a media object, on a machine that hands out the characters of
    strings, the texts of exceptions and its own pointer (without the characters
    see [missing_characters_are_noticed_late]), whichever allocations fail and
    whatever Java, the manager and GStreamer answer: no rule of JNI is broken,
    nothing is freed twice, and what stays allocated is what [leaves] says of the
    code that is returned.  Without an error Java has the handle of a media whose pipeline is
    complete for the content type; with one there is no media. *)
Theorem InitMedia_accounts lo ct hint jh id n k w j content : arguments lo jh id n j -> kept_ok k -> locals j !! ct = Some (JString content) ->
  wp (InitMedia memory manager_memory factory_memory manager_init address resume0 probe0 (Some lo) (Some ct) hint (Some jh) k w) j
    (loads content jh id n j).
Proof using HT.
  intros J K Hct. unfold InitMedia. pose proof (local_live j ct _ Hct) as O. cbn [wp bind jni].
  split; [unfold allowed, is_string; rewrite (a_attached _ _ _ _ _ J), (a_pending _ _ _ _ _ J), O; reflexivity|].
  intros r j' [(s & O' & -> & ->)|[F _]]; [|rewrite (proj1 HT) in F; discriminate]. assert (s = content) as -> by congruence.
  cbn [nonnull]. apply jwp_bind. destruct K as (K1 & K2 & K3 & K4).
  eapply jwp_mono; [apply (call_locator_rule _ _ _ _ lo JObject _ j clear_clears K1); auto; apply J|].
  cbn beta. intros [jl mid] j1 (G1 & C1 & E1). pose proof (arguments_go _ _ _ _ _ _ G1 J) as J1.
  eapply jwp_mono; [|intros r' j'; apply (loads_goes _ _ _ _ _ _ _ _ G1)].
  destruct (GetInstance _ _) as [e there] eqn:EI. set (k' := _ <| manager := there |>).
  assert (K' : kept_ok k') by (unfold kept_ok; subst k'; simpl_set; auto).
  destruct (decide (e <> ERROR_NONE)) as [N|N].
  { apply leave_rule; [exact N|apply J1|exact K'|]. apply no_manager, N. }
  destruct E1 as [->|(lc & -> & [loc E1])]; cbn [nonnull negb].
  { apply leave_rule; [discriminate|apply J1|exact K'|]. apply no_address. }
  cbn [wp bind jni]. split; [unfold allowed, is_string; rewrite (a_attached _ _ _ _ _ J1), (a_pending _ _ _ _ _ J1), (local_live _ _ _ E1); reflexivity|].
  intros r j' [(s & O1 & -> & ->)|[F _]]; [|rewrite (proj1 HT) in F; discriminate].
  assert (s = loc) as -> by (rewrite (local_live _ _ _ E1) in O1; congruence).
  assert (there = true) as ->.
  { unfold GetInstance, create_manager in EI. destruct (manager _), manager_memory; cbn [negb] in EI; try (destruct (decide (manager_init = ERROR_NONE)) in EI);
      injection EI as <- <-; try reflexivity; exfalso; apply N; discriminate. }
  cbn [negb made option_map]. apply (connect_rule content loc); [exact J1|exact K'| |exact E1]. eapply lookup_weaken; [exact Hct|apply G1].
Qed.
End Machines.

(** *** Executions *)

Definition enough (_ : native) : bool := true.
Definition without_memory (n m : native) : bool := negb (bool_decide (m = n)).
(** A locator, its content type and an array of one. *)
Definition java_side : jvm := mkJvm true false 0 {[ 1%positive := JObject; 2%positive := JString CONTENT_TYPE_MP4; 3%positive := JArray 3 1 ]} ∅ [].
Definition init_mp4 (memory : native -> bool) : prog loaded :=
  @InitMedia (nominal_env TargetLinux) memory true true ERROR_NONE 4096 false 0 (Some 1%positive) (Some 2%positive) 1000 (Some 3%positive) nothing_kept tt.

Lemma InitMedia_accounts_witness : exists r j',
  run (calm no_reply []) (init_mp4 enough) java_side = Some (r, j') /\ returned_code r = ERROR_NONE /\
  @ready_to_play (nominal_env TargetLinux) CONTENT_TYPE_MP4 (handle_of r).
Proof.
  assert (J : arguments 1 3 3 0 java_side) by (split; reflexivity).
  assert (K : kept_ok nothing_kept) by (repeat split; try (left; reflexivity); discriminate).
  destruct (wp_run _ _ (calm_faithful no_reply []) _ _ (@InitMedia_accounts all_services (nominal_env TargetLinux) enough true true ERROR_NONE 4096 false 0 all_sound
    1 2 1000 3 3 0 nothing_kept tt java_side CONTENT_TYPE_MP4 J K eq_refl)) as (r & j' & E & _ & _ & _ & R).
  exists r, j'. split; [exact E|]. assert (C : returned_code r = ERROR_NONE).
  { assert (X : option_map (fun '(r, _) => returned_code r) (run (calm no_reply []) (init_mp4 enough) java_side) = Some ERROR_NONE) by (vm_compute; reflexivity).
    unfold init_mp4 in X. rewrite E in X. injection X as X. exact X. }
  rewrite decide_True in R by exact C. split; [exact C|exact (proj1 R)].
Defined.

(** The callbacks are deleted without closing the connection: their global
    reference stays. *)
Example deleted_callbacks_keep_a_reference :
  option_map (fun '(r, j) => (returned_code r, objects r, size (globals j))) (run (calm no_reply []) (init_mp4 (without_memory LocatorObject)) java_side) =
  Some (ERROR_MEMORY_ALLOCATION, Some [], 1%nat).
Proof. vm_compute. reflexivity. Qed.

(** When the characters of the content type are not available an exception is
    pending, and the next call breaks a rule of JNI. *)
Definition no_characters : oracle := fun R c j =>
  match c in jcall R return R * jvm with
  | GetStringUTFChars _ => (None, raise j)
  | c => calm no_reply [] _ c j
  end.
Example missing_characters_are_noticed_late : run no_characters (init_mp4 enough) java_side = None.
Proof. vm_compute. reflexivity. Qed.
